(* ===== verification/_CoqProject ===== *)
-Q . S2P
Prelude.v
Calendar.v
Bytes.v
FileTypes.v
Paths.v
Bitmap.v
Pmm.v
Spinlock.v
Paging.v
UserMemory.v
Elf.v
UserHeap.v
UserStack.v
UserStackLayout.v
Dll.v
Disk.v
Pipe.v
CString.v
VfsPath.v
VfsMount.v
Heap.v
Liballoc.v
LiballocTags.v
LiballocInv.v
LiballocLists.v
LiballocHeap.v
LiballocFree.v
LiballocPages.v
LiballocTheorems.v
LinkedList.v
AvlTree.v
Avl.v
KeyMap.v
VfsFiles.v
Ext2Types.v
Ext2Base.v
Ext2Push.v
Ext2Counters.v
Ext2Example.v
Ext2Inode.v
Ext2Block.v
Ext2Lookup.v
Ext2Assign.v
DirBlock.v
Ext2Dirs.v
Ext2Create.v
Ext2Cache.v
Ext2Files.v
Ext2Getdents.v
Ext2Names.v
Ext2Mount.v
Ext2Read.v
Ext2Write.v
Ext2DirOps.v
Ext2Sample.v
Ext2Paths.v
Ext2Theorems.v
Ext2Edges.v
Fat32.v
Fat32Files.v
Fat32Table.v
Fat32Read.v
Fat32Dirs.v
Fat32Opened.v
Fat32Paths.v
Fat32Theorems.v
Syscalls.v
Futex.v
FutexQueues.v
FutexTheorems.v
Task.v
TaskRecords.v
TaskTheorems.v
TaskFork.v
UnixSocket.v
SocketTheorems.v
Fakefs.v
FakefsTheorems.v
Ramdisk.v
Md5.v
