(* ===== verification/Prelude.v ===== *)
(** * DualFuse: a verification library for the kernel's storage, memory and
      process core

    DualFuse is an x86_64 kernel written in C and C++ (all paths below are
    relative to src/kernel/arch/x86_64/).  This library models the parts that
    carry its own logic and proves what makes them correct: the ext2 and FAT32
    file systems with the disk layer below them, the path and descriptor layer
    of the VFS above them, the files that exist in memory only, the ram disk of
    the shell, the physical page allocator, the page tables and the heap on top of
    it, the memory of a process (program loader, mappings, stacks), the system
    call table, tasks with fork, exit and wait, futexes, pipes, event counters and
    local sockets, the message digest, the clock, the spinlocks, and the data
    structures the rest of the kernel stores its objects in.

    ** Modelling conventions

    C code becomes functions in the state monad [M S A] of this file, over the
    state [S] of the component.  A run ends in one of four [outcome]s: [Ok] with
    a result and the new state; [Halted], the kernel's [Halt()] or a failed
    [assert]; [Fault], an access outside an object or another undefined
    behaviour; [Hang], a loop nobody will end, such as waiting for a lock when
    nothing else runs.  Machine integers are [Z] with the wrap-around written
    out ([u8], [u16], [u32], [u64], [s32]); buffers are lists of bytes with
    bounds-checked accesses ([Bytes]); linked structures live in explicit heaps
    ([Heap], [Dll]).  Loops are structural recursions over the range they walk,
    or carry fuel: the number of live objects plus one for walks along pointers
    (a well-formed structure visits each object once), the length of the block
    for directory records (every record is at least 8 bytes long), the entries of
    the table for FAT chains (a chain that ends repeats no cluster), the sizes
    involved for the read loop, and the length of the data for the blocks of a
    digest.  The theorems show that this fuel suffices:
    they state that the operation returns, never only that its result is right
    if it does.

    ** Components and files

    - [Spinlock]: multitasking/spinlock.cpp.  The lock operations on the lock
      word, and tasks sharing a lock as step relations.
    - [Bitmap], [Pmm]: memory/bitmap.cpp, memory/pmm.cpp, memory/vmm.cpp,
      memory/memory.cpp and the totals of bootloader.cpp.  State: the [Bitmap]
      record (one bit per 4 KiB page and the search hint).  Initialisation from
      the boot loader's memory map, first-fit allocation, release.
    - [Paging]: memory/paging.cpp and the macros of paging.h.  State: the 64-bit
      words of physical memory reached through the direct map, the page
      allocator, the current directory and the lock.
    - [Liballoc], [LiballocPages]: memory/liballoc.cpp and liballoc_hooks.cpp.
      State: the boundary tags by address, the free lists, the counts of whole
      runs, the bytes of blocks and the page allocator, which is reached through
      the classes [PageHooks] and [PageSource] ([LiballocPages] is their instance
      for [Pmm]).  [LiballocTags] (list surgery), [LiballocInv] (runs of pages cut
      into segments), [LiballocLists] (free lists), [LiballocHeap] ([malloc]),
      [LiballocFree] ([free]) and [LiballocTheorems] hold the proofs.
    - [Heap], [LinkedList]: utility/linked_list.cpp over a heap of cells.
    - [AvlTree], [Avl]: utility/avl_tree.cpp; [AvlTree] is the reference on tree
      values, [Avl] the pointer code over a heap of nodes.  Both list and tree
      take [malloc] through the class [Allocator].
    - [FileTypes], [Paths]: error numbers and flags of linux.h, types.h
      and syscalls.h, the [stat] structure, the directory records of
      utility/dents.cpp, and paths as lists of components.
    - [Calendar]: drivers/rtc.cpp and the dates of filesystems/fat32/fat32_util.cpp.
      The device is a pair of parameters.
    - [Pipe]: syscalls/pipe.cpp and syscalls/eventfd.cpp.  Operations and step
      relations for several readers and writers.
    - [CString], [VfsPath], [VfsMount]: bytes of memory with [memcpy] and [strlen],
      filesystems/vfs/vfs_sanitize.cpp and the mount points of vfs_mnt.cpp.
    - [KeyMap], [VfsFiles]: the descriptor table of vfs_controller.cpp with dup and
      dup2; the tree of descriptors is used through the interface [KeyMap] that
      [Avl] implements, the drivers' handlers are parameters.
    - [Disk]: drivers/disk.cpp.  A drive is a map from byte addresses to bytes;
      requests are split into commands of bounded size; the MBR.
    - [Ext2Types], [Ext2Base]: include/kernel/disk/ext2.h.  Superblock, group
      descriptors, inodes and their encodings, the control block, address
      arithmetic, the locks and the state [fs] of a mounted volume.
    - [Ext2Push], [Ext2Counters], [Ext2Block], [Ext2Lookup], [Ext2Assign]:
      filesystems/ext2/ext2_util.c.  Metadata copies, free counters and bitmaps,
      block allocation and release, the block map and its extension.
    - [Ext2Inode]: ext2_inode.c.  Inode table and inode bitmap.
    - [DirBlock], [Ext2Dirs], [Ext2Getdents], [Ext2DirOps]: ext2_dirs.c,
      ext2_traverse.c and utility/dents.cpp.  Records of one directory block,
      search, insertion, removal, listing, and path traversal.
    - [Dll], [Ext2Cache]: ext2_caching.c.  The doubly linked cache of block runs
      and the list of opened files.
    - [Ext2Create], [Ext2Files], [Ext2Names], [Ext2Mount]: ext2_create.c and
      ext2_controller.c.  Mounting, open, read, write, seek, stat, link, unlink.
    - [Fat32], [Fat32Files]: filesystems/fat32.  State: the [FAT32] structure with
      the cache of table sectors; descriptors are values.  [Fat32Table] (the table
      behind its cache), [Fat32Read] (the loop of [fat32_read]), [Fat32Opened],
      [Fat32Dirs] (long and short names), [Fat32Paths] and [Fat32Theorems] hold
      the proofs.
    - [UserMemory], [Elf], [UserHeap], [UserStack], [UserStackLayout]: user memory as
      the processor reaches it through the page tables, utility/elf.cpp,
      syscalls/linux/syscalls_mem.cpp, multitasking/stack.cpp and task_adjust_heap
      of multitasking/task.cpp.  State: the memory of [Paging] with the break and
      mapping bounds of the process.  The file of the interpreter is an argument.
    - [Syscalls]: syscalls/syscalls.cpp.  Registration, dispatch over handlers that
      are an argument, and the test for pending signals.
    - [Futex], [FutexQueues], [FutexTheorems]: syscalls/futex.cpp over the lists of
      [LinkedList] and any tree that is a [KeyMap]; the representation by queues;
      the simulation by an abstract machine of queues.
    - [Task], [TaskRecords], [TaskTheorems], [TaskFork]: multitasking/task.cpp and
      the wait4 of syscalls_proc.c.  State: tasks, what they share and count, the
      list of tasks and the records of ended children.  Page tables, descriptor
      tables and futexes are the operations of the class [TaskServices].
    - [UnixSocket], [SocketTheorems]: syscalls/unixSocket.cpp.  The ring buffers are
      the class [CircularOps] with the laws [CircularSpec] (a queue is an instance),
      descriptors, files and pollers the class [SocketServices].
    - [Fakefs], [FakefsTheorems]: utility/fakefs, and the trees of
      filesystems/dev and filesystems/sys.
    - [Ramdisk]: filesystems/rd/ramdisk.cpp.
    - [Md5]: utility/md5.cpp.  The context, the transformation of a block, the three
      calls, and the digest of RFC 1321 as a function of the message.
    - [Ext2Read], [Ext2Write]: the read and write paths; [Ext2Example], [Ext2Sample]:
      concrete volumes on which the hypotheses hold; [Ext2Paths],
      [Ext2Theorems], [Ext2Edges]: the theorems about whole operations and about
      boundary cases.

    ** What the theorems show

    Reading delivers the bytes of a file without holes at the descriptor's position
    through any state of the cache, also across consecutive reads; writing inside a
    file changes exactly the bytes given and reads back.  Path traversal
    computes the relation [resolves]; directory insertion (into a record with room)
    and removal change exactly the given name.  Allocating and freeing blocks and inodes keeps the
    volume invariant (counters, bitmaps and all copies of the metadata agree),
    is first fit, and round-trips; a remount after an allocation yields the
    control block in memory.  Assigning a block changes the block map at one
    index.  The cache stays an ordered doubly linked list.  Disk writes read
    back.  The counting lock excludes when its acquires are not interrupted.
    The page allocator never hands a page out twice, finds every free run its
    hint could hide, and initialises to exactly the usable pages.  Mapping a
    page of the lower half changes the translation of that page only and keeps the
    tables of that half a tree, in directories whose upper half holds what the boot
    loader put there: the direct map of all memory, in full-size entries or not.
    The blocks of the heap never overlap, [malloc], [free] and [realloc] refine
    operations on a set of blocks, what is freed can be handed out again and is
    joined with its free neighbours, and all run on the page allocator.  On FAT32,
    opening resolves the path, reading and seeking deliver the bytes of the file
    through any state of the table's cache, names are found however their records
    are spread (those the driver's comparison does not confuse, [searchable]); time stamps and clock follow the Gregorian calendar.  Paths are
    made canonical and routed to the longest mount point; the descriptor table
    implements a finite map; pipes are first in first out.  An executable that is
    accepted lies in memory as its headers say; the initial stack of a program
    holds its arguments, environment and auxiliary vector; a fixed anonymous
    mapping is zeroed and changes no other page.  Runs of futex operations are
    simulated by queues, which wake in order and move sleepers whole.  Fork adds
    one child and copies or counts each shared structure; the exit code of the
    first task to end reaches its parent's wait4 exactly once.  What one end of a local connection
    receives is what the other has sent, in order, and a connection a client asks
    for is the one the listener accepts.  A file added to a tree in memory is found
    under its path and leaves the others; the ram disk stays a tree of uniquely
    named entries and reads back what was written.  The message digest is that of
    RFC 1321 however the message is cut into parts.
    Lists and trees implement sequences and finite maps, the tree with
    logarithmic depth.  A last group of theorems pins down boundary behaviour
    that departs from the intention: the race and the missing exclusion of the
    locks, the inode a group never serves, the block a deletion leaks, the read
    behind the indirect block, the memory a hole of a file shows, the file size
    refused one block early, the seek that never returns, the failing link in
    the root, the bitmap too small for a memory map with holes, the page freed
    while mapped, the page frame below memory, the block freed twice by a FAT32
    read, the deleted long name that halts the kernel, noon read as midnight, the
    break that maps nothing, the unknown system call, the second sleeper of a
    futex that stops the kernel, the second exit that hangs, the interrupted wait,
    the sleeping child wait4 does not count, the socket whose creation stops the
    kernel, the message larger than the buffer, the mount of sys and the link text
    of a regular file that stop the kernel, the ram disk's long names.

    ** Assumptions

    The AHCI transfer of a command moves the sectors asked for.  [rand()] and the
    time are arguments.  For lists, trees, paths and file systems [malloc] returns
    a fresh, non-null address, which is what [malloc_refines] proves of the heap
    for sizes below a gigabyte and memory below 4 GiB.  The memory
    map of the boot protocol is a list of entries.  Ring buffers behave as
    circular.h documents, and the services of tasks and sockets return; the laws
    are stated with the classes.  The services of tasks that end the sleep of other
    tasks (closing polled files, the wake-up on a thread identifier) name the tasks
    they make ready, which are tasks of the list.  The counters of locks do not
    reach 2^63, and the program loader gets a buffer, not the null pointer (which
    elf_check_file would refuse).  A component runs alone unless a step relation
    says otherwise.

    ** Not modelled

    ext2Mmap, change_page_directory and GetTaskPageDirectory (they work on the
    current task); the scheduler, execve, tasks_initialize and task_change_cwd
    (register contexts and start-up); poll, epoll and select; fsMount and the
    handlers that only pass a call on; the input events of dev and the reads of
    the PCI configuration space.  Vendored code (FatFs, lodepng, printf), device
    drivers other than the clock and the disk commands, interrupt set-up, console,
    graphics and the interactive tools are hardware access, third-party code or
    presentation, and stay outside. *)

From Stdlib Require Export ZArith Lia.
From stdpp Require Export base numbers option gmap fin_maps list_numbers.
From stdpp Require Export list_basics list_relations list_misc list_monad list.

#[export] Set Default Goal Selector "!".
Open Scope Z_scope.

Declare Scope kernel_scope.
Delimit Scope kernel_scope with kernel.

(** ** Machine integers

    Values of the C integer types are [Z]; every place where the C code
    truncates carries one of these wrap-arounds. *)

Definition u8 (z : Z) : Z := z mod 2 ^ 8.
Definition u16 (z : Z) : Z := z mod 2 ^ 16.
Definition u32 (z : Z) : Z := z mod 2 ^ 32.
Definition u64 (z : Z) : Z := z mod 2 ^ 64.

(** Two's complement reading of the low 32 bits ([int]). *)
Definition s32 (z : Z) : Z := (z + 2 ^ 31) mod 2 ^ 32 - 2 ^ 31.

Lemma u8_small z : 0 <= z < 256 -> u8 z = z.
Proof. intros. unfold u8. rewrite Z.mod_small; lia. Qed.
Lemma u16_small z : 0 <= z < 65536 -> u16 z = z.
Proof. intros. unfold u16. rewrite Z.mod_small; lia. Qed.
Lemma u32_small z : 0 <= z < 4294967296 -> u32 z = z.
Proof. intros. unfold u32. rewrite Z.mod_small; lia. Qed.
Lemma u64_small z : 0 <= z < 18446744073709551616 -> u64 z = z.
Proof. intros. unfold u64. rewrite Z.mod_small; lia. Qed.
Lemma s32_small z : -2147483648 <= z < 2147483648 -> s32 z = z.
Proof. intros. unfold s32. rewrite Z.mod_small; lia. Qed.

Lemma s32_u32 z : s32 (u32 z) = s32 z.
Proof. unfold s32, u32. by rewrite Zplus_mod_idemp_l. Qed.

Lemma u8_bound z : 0 <= u8 z < 256.
Proof. unfold u8. pose proof (Z.mod_pos_bound z (2 ^ 8)). lia. Qed.
Lemma u16_bound z : 0 <= u16 z < 65536.
Proof. unfold u16. pose proof (Z.mod_pos_bound z (2 ^ 16)). lia. Qed.
Lemma u32_bound z : 0 <= u32 z < 4294967296.
Proof. unfold u32. pose proof (Z.mod_pos_bound z (2 ^ 32)). lia. Qed.
Lemma u64_bound z : 0 <= u64 z < 18446744073709551616.
Proof. unfold u64. pose proof (Z.mod_pos_bound z (2 ^ 64)). lia. Qed.

Lemma u64_neg k : 0 < k <= 2 ^ 64 -> u64 (- k) = 2 ^ 64 - k.
Proof.
  intros. unfold u64. symmetry. apply Z.mod_unique_pos with (-1); lia.
Qed.
Lemma u64_mul_l a b : u64 (u64 a * b) = u64 (a * b).
Proof. unfold u64. apply Z.mul_mod_idemp_l. lia. Qed.

Create HintDb kernel.
Create Rewrite HintDb kernel.
#[export] Hint Rewrite u8_small u16_small u32_small u64_small s32_small
  using lia : kernel.

(** [wrap_small] discharges every wrap-around whose argument [lia] can bound. *)
Ltac wrap_small := autorewrite with kernel in *.

(** [#define CEILING_DIVISION(a,b) (((a + b) - 1) / b)] on [size_t] operands. *)
Definition CEILING_DIVISION (a b : Z) : Z := u64 (u64 (a + b) - 1) / b.

Lemma CEILING_DIVISION_spec a b :
  0 <= a -> 0 < b -> a + b < 2 ^ 64 -> CEILING_DIVISION a b = (a + b - 1) / b.
Proof. intros. unfold CEILING_DIVISION. by rewrite (u64_small (a + b)), u64_small by lia. Qed.

Lemma ceiling_bounds a b :
  0 <= a -> 0 < b ->
  a <= (a + b - 1) / b * b < a + b.
Proof.
  intros. pose proof (Z.div_mod (a + b - 1) b ltac:(lia)).
  pose proof (Z.mod_pos_bound (a + b - 1) b ltac:(lia)). nia.
Qed.

(** ** Outcomes

    A C function either returns, stops the machine ([Halt()], a failed
    [assert]), performs an access outside an object (undefined behaviour), or
    never comes back (an unbounded loop, a lock nobody will release). *)

Inductive outcome (A : Type) : Type :=
| Ok (a : A)
| Halted
| Fault
| Hang.
Arguments Ok {A} a.
Arguments Halted {A}.
Arguments Fault {A}.
Arguments Hang {A}.

(** State-passing computations. *)
Definition M (S A : Type) : Type := S -> outcome (A * S).

Definition ret {S A} (a : A) : M S A := fun s => Ok (a, s).

Definition bind {S A B} (m : M S A) (k : A -> M S B) : M S B := fun s =>
  match m s with
  | Ok (a, s') => k a s'
  | Halted => Halted
  | Fault => Fault
  | Hang => Hang
  end.

Definition halt {S A} : M S A := fun _ => Halted.
Definition fault {S A} : M S A := fun _ => Fault.
Definition hang {S A} : M S A := fun _ => Hang.
Definition get {S} : M S S := fun s => Ok (s, s).
Definition put {S} (s : S) : M S unit := fun _ => Ok (tt, s).
Definition modify {S} (f : S -> S) : M S unit := fun s => Ok (tt, f s).
Definition gets {S A} (f : S -> A) : M S A := fun s => Ok (f s, s).

(** [assert(e)] stops the machine when [e] is false. *)
Definition kassert {S} (b : bool) : M S unit := if b then ret tt else halt.

(** [for (x : l) f(x);] *)
Fixpoint mfor {S A} (l : list A) (f : A -> M S unit) : M S unit :=
  match l with
  | [] => ret tt
  | x :: l => bind (f x) (fun _ => mfor l f)
  end.

(** An access that must be inside its object. *)
Definition from_option_fault {S A} (o : option A) : M S A :=
  match o with Some a => ret a | None => fault end.

Notation "'let!' x ':=' m 'in' k" := (bind m (fun x => k))
  (at level 10, x pattern, m at level 100, k at level 200) : kernel_scope.
Notation "m ';;;' k" := (bind m (fun _ => k))
  (at level 199, right associativity) : kernel_scope.
Open Scope kernel_scope.

(** Total correctness: [m] returns from [s] with a result satisfying [Q]. *)
Definition wp {S A} (m : M S A) (s : S) (Q : A -> S -> Prop) : Prop :=
  match m s with
  | Ok (a, s') => Q a s'
  | _ => False
  end.

Section wp_rules.
Context {S A B : Type}.

Lemma bind_ok (m : M S A) (k : A -> M S B) s a s' :
  m s = Ok (a, s') -> bind m k s = k a s'.
Proof. intros E. unfold bind. by rewrite E. Qed.

Lemma bind_inv (m : M S A) (k : A -> M S B) s r :
  bind m k s = Ok r -> exists a s', m s = Ok (a, s') /\ k a s' = Ok r.
Proof. unfold bind. destruct (m s) as [[a s']| | |]; [eauto|done..]. Qed.

Lemma wp_bind (m : M S A) (k : A -> M S B) s Q :
  wp m s (fun a s' => wp (k a) s' Q) -> wp (bind m k) s Q.
Proof. unfold wp, bind. destruct (m s) as [[]| | |]; tauto. Qed.

Lemma wp_mono (m : M S A) s (P Q : A -> S -> Prop) :
  wp m s P -> (forall a s', P a s' -> Q a s') -> wp m s Q.
Proof. unfold wp. destruct (m s) as [[]| | |]; naive_solver. Qed.

Lemma wp_ok (m : M S A) s Q :
  wp m s Q <-> exists a s', m s = Ok (a, s') /\ Q a s'.
Proof.
  unfold wp. split.
  - destruct (m s) as [[a s']| | |]; [eauto|tauto..].
  - by intros (a & s' & -> & HQ).
Qed.

Lemma wp_ret (a : A) (s : S) (Q : A -> S -> Prop) : Q a s -> wp (ret a) s Q.
Proof. done. Qed.

End wp_rules.

Lemma bind_assoc {S A B C} (m : M S A) (f : A -> M S B) (g : B -> M S C) s :
  bind (bind m f) g s = bind m (fun a => bind (f a) g) s.
Proof. unfold bind. by destruct (m s) as [[]| | |]. Qed.

Lemma bind_tail {S A B} (m : M S A) (k k' : M S B) s :
  (forall s', k s' = k' s') -> (m ;;; k) s = (m ;;; k') s.
Proof. intros E. unfold bind. by destruct (m s) as [[]| | |]. Qed.

Lemma mfor_app {S A} (l k : list A) (f : A -> M S unit) s :
  mfor (l ++ k) f s = (mfor l f ;;; mfor k f) s.
Proof.
  revert s. induction l as [|x l IH]; intros s; [done|]. cbn.
  unfold bind in IH |- *. destruct (f x s) as [[[] s']| | |]; [|done..]. by rewrite IH.
Qed.

(** One symbolic-execution step: rewrite a monadic call with a lemma giving
    its result. *)
Ltac mstep L := erewrite bind_ok by (eapply L; eauto); cbv beta iota.

(** The same, leaving the side conditions of the lemma as further goals. *)
Ltac mgo L := erewrite bind_ok; [|eapply L]; [cbv beta iota|..].

(** The same with an equation already at hand. *)
Ltac mrw E := erewrite bind_ok by exact E; cbv beta iota.

(** Take a returning computation apart, one call at a time. *)
Ltac minv H :=
  let a := fresh "a" in let s := fresh "s" in let E := fresh "E" in
  apply bind_inv in H as (a & s & E & H); cbv beta iota in H.
