(* ===== verification/Calendar.v ===== *)
(** * Dates and times

    The clock of drivers/rtc.cpp and the time stamps of fat32_util.cpp.  Both turn
    a date into seconds since 1970 with loops over years and months; the theorems
    compare them with the closed formula of the Gregorian calendar. *)

From S2P Require Import Prelude.

(** ** Definitions: drivers/rtc.cpp *)

Definition is_leap_year (year : Z) : bool :=
  ((Z.rem year 4 =? 0) && negb (Z.rem year 100 =? 0)) || (Z.rem year 400 =? 0).

Record RTC := mkRTC {
  second : Z;
  minute : Z;
  hour : Z;
  day : Z;
  month : Z;
  year : Z;
}.

Definition CURRENT_YEAR : Z := 2024.

(** [daysInMonth[leap]] *)
Definition daysInMonth (leap : bool) : list Z :=
  [31; if leap then 29 else 28; 31; 30; 31; 30; 31; 31; 30; 31; 30; 31].

Definition array_at (l : list Z) (i : Z) : outcome Z :=
  if i <? 0 then Fault else match l !! Z.to_nat i with Some v => Ok v | None => Fault end.

(** The loop over the full years from [y] on. *)
Fixpoint rtc_years (n : nat) (y seconds : Z) : Z :=
  match n with
  | O => seconds
  | S n => rtc_years n (y + 1) (u64 (seconds + (365 + Z.b2z (is_leap_year y)) * 86400))
  end.

(** The loop over the full months. *)
Fixpoint rtc_months (ms : list Z) (leap : bool) (seconds : Z) : outcome Z :=
  match ms with
  | [] => Ok seconds
  | m :: ms =>
      match array_at (daysInMonth leap) m with
      | Ok d => rtc_months ms leap (u64 (seconds + d * 86400))
      | _ => Fault
      end
  end.

Definition rtc_to_unix (rtc : RTC) : outcome Z :=
  let y := s32 (year rtc) in
  let m := month rtc - 1 in
  let d := day rtc - 1 in
  match rtc_months (seqZ 0 m) (is_leap_year y) (rtc_years (Z.to_nat (y - 1970)) 1970 0) with
  | Ok seconds =>
      let seconds := u64 (seconds + d * 86400) in
      let seconds := u64 (seconds + hour rtc * 3600) in
      let seconds := u64 (seconds + minute rtc * 60) in
      Ok (u64 (seconds + second rtc))
  | _ => Fault
  end.

(** A BCD byte. *)
Definition bcd (b : Z) : Z := u8 (Z.land b 0x0F + b / 16 * 10).
Definition bcd_hour (b : Z) : Z :=
  u8 (Z.lor (Z.land b 0x0F + Z.land b 0x70 / 16 * 10) (Z.land b 0x80)).

(** What [read_from_CMOS] makes of the raw registers. *)
Definition cmos_decode (century_register century registerB : Z) (r : RTC) : RTC :=
  let dm := Z.land registerB 0x04 =? 0 in
  let r := if dm then mkRTC (bcd (second r)) (bcd (minute r)) (bcd_hour (hour r))
                        (bcd (day r)) (bcd (month r)) (Z.land (year r) 0x0F + year r / 16 * 10) else r in
  let century := if dm then bcd century else century in
  let h := if (Z.land registerB 0x02 =? 0) && negb (Z.land (hour r) 0x80 =? 0)
           then (Z.land (hour r) 0x7F + 12) mod 24 else hour r in
  let y := if negb (century_register =? 0) then u32 (year r + century * 100)
           else
             let y := u32 (year r + CURRENT_YEAR / 100 * 100) in
             if y <? CURRENT_YEAR then u32 (y + 100) else y in
  mkRTC (second r) (minute r) h (day r) (month r) y.

(** ** Reading the registers

    The device answers [get_RTC_register] and [get_update_in_progress_flag]. *)

Section cmos.
Context {D : Type} (get_update_in_progress_flag : M D bool) (get_RTC_register : Z -> M D Z).
Context (century_register : Z).

Fixpoint wait_update (fuel : nat) : M D unit :=
  match fuel with
  | O => hang
  | S fuel => let! busy := get_update_in_progress_flag in if busy then wait_update fuel else ret tt
  end.

(** One round: the seven values, [century] only with a register for it. *)
Definition read_round (fuel : nat) (century : Z) : M D (RTC * Z) :=
  wait_update fuel ;;;
  let! s := get_RTC_register 0x00 in
  let! mi := get_RTC_register 0x02 in
  let! h := get_RTC_register 0x04 in
  let! d := get_RTC_register 0x07 in
  let! mo := get_RTC_register 0x08 in
  let! y := get_RTC_register 0x09 in
  let! c := if negb (century_register =? 0) then get_RTC_register century_register else ret century in
  ret (mkRTC s mi h d mo y, c).

Definition same_round (a b : RTC * Z) : bool :=
  (second a.1 =? second b.1) && (minute a.1 =? minute b.1) && (hour a.1 =? hour b.1) &&
  (day a.1 =? day b.1) && (month a.1 =? month b.1) && (u8 (year a.1) =? year b.1) && (a.2 =? b.2).

(** [do ... while] two rounds differ. *)
Fixpoint read_stable (fuel : nat) (last : RTC * Z) : M D (RTC * Z) :=
  match fuel with
  | O => hang
  | S fuel =>
      let! now := read_round fuel last.2 in
      if same_round last now then ret now else read_stable fuel now
  end.

(** [junk] is what the uninitialised [century] holds. *)
Definition read_from_CMOS (fuel : nat) (junk : Z) : M D RTC :=
  let! first := read_round fuel junk in
  let! (r, century) := read_stable fuel first in
  let! registerB := get_RTC_register 0x0B in
  ret (cmos_decode century_register century registerB r).

End cmos.

(** ** Definitions: filesystems/fat32/fat32_util.cpp *)

Definition SECONDS_PER_MINUTE : Z := 60.
Definition SECONDS_PER_HOUR : Z := 60 * SECONDS_PER_MINUTE.
Definition SECONDS_PER_DAY : Z := 24 * SECONDS_PER_HOUR.

Definition days_per_month : list Z := [31; 28; 31; 30; 31; 30; 31; 31; 30; 31; 30; 31].

Definition days_in_month (year month : Z) : outcome Z :=
  if (month =? 2) && is_leap_year year then Ok 29 else array_at days_per_month (month - 1).

Fixpoint add_years (ys : list Z) (days : Z) : Z :=
  match ys with
  | [] => days
  | y :: ys => add_years ys (s32 (days + if is_leap_year y then 366 else 365))
  end.

Fixpoint add_months (ms : list Z) (year days : Z) : outcome Z :=
  match ms with
  | [] => Ok days
  | m :: ms =>
      match days_in_month year m with
      | Ok d => add_months ms year (s32 (days + d))
      | _ => Fault
      end
  end.

Definition days_since_1980 (year month day : Z) : outcome Z :=
  match add_months (seqZ 1 (month - 1)) year (add_years (seqZ 1980 (year - 1980)) 0) with
  | Ok days => Ok (s32 (days + (day - 1)))
  | _ => Fault
  end.

Definition fat32_unix_time (fat_date fat_time : Z) : outcome Z :=
  let year := Z.land (Z.shiftr fat_date 9) 0x7F + 1980 in
  let month := Z.land (Z.shiftr fat_date 5) 0x0F in
  let day := Z.land fat_date 0x1F in
  let hour := Z.land (Z.shiftr fat_time 11) 0x1F in
  let minute := Z.land (Z.shiftr fat_time 5) 0x3F in
  let second := Z.land fat_time 0x1F * 2 in
  match days_since_1980 year month day with
  | Ok n =>
      let days := s32 (n + (365 * 10 + 2)) in
      Ok (u64 (s32 (s32 (s32 (s32 (days * SECONDS_PER_DAY) + hour * SECONDS_PER_HOUR) +
        minute * SECONDS_PER_MINUTE) + second)))
  | _ => Fault
  end.

(** ** The calendar *)

(** Days before a month of a year that is not leap. *)
Definition days_before (m : Z) : Z := nth (Z.to_nat (m - 1)) [0; 31; 59; 90; 120; 151; 181; 212; 243; 273; 304; 334] 0.

(** The Gregorian day number of a date; day 1 is the first of January of year 1. *)
Definition day_number (y m d : Z) : Z :=
  365 * (y - 1) + (y - 1) / 4 - (y - 1) / 100 + (y - 1) / 400 +
  days_before m + Z.b2z ((2 <? m) && is_leap_year y) + d.

(** Days since the first of January 1970. *)
Definition unix_day (y m d : Z) : Z := day_number y m d - day_number 1970 1 1.

Definition unix_time (y m d h mi s : Z) : Z := unix_day y m d * 86400 + h * 3600 + mi * 60 + s.

(** A date of the calendar. *)
Definition valid_date (y m d : Z) : Prop := 1 <= m <= 12 /\ 1 <= d <= nth (Z.to_nat (m - 1)) (daysInMonth (is_leap_year y)) 0.

Arguments is_leap_year : simpl never.
Arguments day_number : simpl never.

(** ** Leap years *)

Lemma is_leap_year_mod y : 0 <= y ->
  is_leap_year y = ((y mod 4 =? 0) && negb (y mod 100 =? 0)) || (y mod 400 =? 0).
Proof. intros Hy. unfold is_leap_year. by rewrite !Z.rem_mod_nonneg by lia. Qed.

(** The next year begins 365 days later, one more after a leap year. *)
Lemma day_number_year y : 1 <= y -> day_number (y + 1) 1 1 = day_number y 1 1 + 365 + Z.b2z (is_leap_year y).
Proof.
  intros Hy. unfold day_number. rewrite (is_leap_year_mod y) by lia. cbn [andb Z.ltb Z.compare Pos.compare Pos.compare_cont].
  replace (y + 1 - 1) with y by lia.
  destruct (Z.eqb_spec (y mod 4) 0), (Z.eqb_spec (y mod 100) 0), (Z.eqb_spec (y mod 400) 0);
    cbn [andb orb negb Z.b2z]; Z.to_euclidean_division_equations; lia.
Qed.

Ltac each_month m :=
  let H := fresh in
  assert (m = 1 \/ m = 2 \/ m = 3 \/ m = 4 \/ m = 5 \/ m = 6 \/ m = 7 \/ m = 8 \/ m = 9 \/ m = 10 \/ m = 11 \/ m = 12)
    as H by lia; repeat destruct H as [->|H]; try subst m.

(** Days of the first [k] months of a year. *)
Definition months_sum (leap : bool) (k : nat) : Z := foldr Z.add 0 (take k (daysInMonth leap)).

Lemma months_sum_spec leap m : 1 <= m <= 12 ->
  months_sum leap (Z.to_nat (m - 1)) = days_before m + Z.b2z ((2 <? m) && leap).
Proof. intros Hm. each_month m; destruct leap; reflexivity. Qed.

Lemma months_sum_S leap k d : daysInMonth leap !! k = Some d -> months_sum leap (S k) = months_sum leap k + d.
Proof.
  intros H. unfold months_sum. rewrite (take_S_r _ _ _ H), foldr_app. cbn [foldr]. generalize (take k (daysInMonth leap)) as l.
  induction l as [|x l IH]; cbn [foldr]; lia.
Qed.

Lemma months_sum_bound leap k : 0 <= months_sum leap k <= 366.
Proof. destruct leap; do 13 (destruct k as [|k]; [unfold months_sum; cbn; lia|]); unfold months_sum; cbn; lia. Qed.

Lemma months_sum_before leap m : 1 <= m <= 12 -> months_sum leap (Z.to_nat (m - 1)) <= 335.
Proof. intros Hm. each_month m; destruct leap; vm_compute; discriminate. Qed.

(** The day after a date. *)
Definition next_day (t : Z * Z * Z) : Z * Z * Z :=
  let '(y, m, d) := t in
  if d <? nth (Z.to_nat (m - 1)) (daysInMonth (is_leap_year y)) 0 then (y, m, d + 1)
  else if m <? 12 then (y, m + 1, 1) else (y + 1, 1, 1).

Lemma month_length leap m : 1 <= m <= 12 -> 28 <= nth (Z.to_nat (m - 1)) (daysInMonth leap) 0.
Proof. intros Hm. each_month m; destruct leap; vm_compute; discriminate. Qed.

Lemma month_step leap m : 1 <= m < 12 -> days_before (m + 1) + Z.b2z ((2 <? m + 1) && leap) =
  days_before m + Z.b2z ((2 <? m) && leap) + nth (Z.to_nat (m - 1)) (daysInMonth leap) 0.
Proof. intros Hm. each_month m; try lia; destruct leap; reflexivity. Qed.

(** [day_number] counts days: the day after a date has the next number. *)
Lemma day_number_next y m d : 1 <= y -> valid_date y m d ->
  let '(y', m', d') := next_day (y, m, d) in valid_date y' m' d' /\ day_number y' m' d' = day_number y m d + 1.
Proof.
  intros Hy [Hm Hd]. unfold next_day.
  destruct (Z.ltb_spec d (nth (Z.to_nat (m - 1)) (daysInMonth (is_leap_year y)) 0)) as [Hlt|Hge].
  { split; [split; [done|lia]|]. unfold day_number. lia. }
  destruct (Z.ltb_spec m 12) as [Hlt|Hge2].
  - split; [split; [lia|]; pose proof (month_length (is_leap_year y) (m + 1)); lia|].
    pose proof (month_step (is_leap_year y) m). unfold day_number. lia.
  - assert (m = 12) as -> by lia. change (nth (Z.to_nat (12 - 1)) (daysInMonth (is_leap_year y)) 0) with 31 in *.
    split; [split; [lia|]; change (1 <= 1 <= 31); lia|]. rewrite day_number_year by done.
    unfold day_number. change (days_before 12) with 334. change (days_before 1) with 0. cbn. destruct (is_leap_year y); cbn; lia.
Qed.

(** ** [rtc_to_unix] *)

Lemma day_number_mono y : 1 <= y -> forall n : nat, 0 <= day_number (y + Z.of_nat n) 1 1 - day_number y 1 1 <= 366 * Z.of_nat n.
Proof.
  intros Hy. induction n as [|n IH]; [rewrite Z.add_0_r; lia|].
  replace (y + Z.of_nat (S n)) with (y + Z.of_nat n + 1) by lia. rewrite day_number_year by lia.
  destruct (is_leap_year (y + Z.of_nat n)); cbn [Z.b2z]; lia.
Qed.

Lemma rtc_years_ok n : forall y s, 1 <= y -> 0 <= s -> s + 366 * Z.of_nat n * 86400 < 2 ^ 64 ->
  rtc_years n y s = s + (day_number (y + Z.of_nat n) 1 1 - day_number y 1 1) * 86400.
Proof.
  induction n as [|n IH]; intros y s Hy Hs Hb; cbn [rtc_years]; [rewrite Z.add_0_r; lia|].
  assert (0 <= Z.b2z (is_leap_year y) <= 1) by (by destruct (is_leap_year y)).
  rewrite u64_small by lia. rewrite IH by lia.
  replace (y + Z.of_nat (S n)) with (y + 1 + Z.of_nat n) by lia. rewrite (day_number_year y) by done. lia.
Qed.

Lemma rtc_months_ok leap n : forall a s, (a + n <= 12)%nat -> 0 <= s < 2 ^ 63 ->
  rtc_months (seqZ (Z.of_nat a) (Z.of_nat n)) leap (s + months_sum leap a * 86400) =
  Ok (s + months_sum leap (a + n) * 86400).
Proof.
  induction n as [|n IH]; intros a s Ha Hs; [by rewrite Nat.add_0_r|].
  rewrite seqZ_cons by lia. cbn [rtc_months]. unfold array_at. rewrite (proj2 (Z.ltb_ge (Z.of_nat a) 0)), Nat2Z.id by lia.
  destruct (daysInMonth leap !! a) as [d|] eqn:E; [|apply lookup_ge_None in E; cbn in E; lia].
  pose proof (months_sum_S _ _ _ E) as HS. pose proof (months_sum_bound leap (S a)).
  rewrite u64_small by lia. replace (Z.succ (Z.of_nat a)) with (Z.of_nat (S a)) by lia.
  replace (Z.pred (Z.of_nat (S n))) with (Z.of_nat n) by lia.
  replace (s + months_sum leap a * 86400 + d * 86400) with (s + months_sum leap (S a) * 86400) by lia.
  rewrite IH by lia. do 3 f_equal. f_equal. lia.
Qed.

Lemma unix_day_split y m d : 1 <= m <= 12 -> 1 <= y ->
  unix_day y m d = day_number y 1 1 - day_number 1970 1 1 + months_sum (is_leap_year y) (Z.to_nat (m - 1)) + (d - 1).
Proof. intros Hm Hy. rewrite months_sum_spec by done. unfold unix_day, day_number. change (days_before 1) with 0. cbn [Z.ltb Z.compare Pos.compare Pos.compare_cont andb Z.b2z]. lia. Qed.

Lemma rtc_to_unix_ok y m d h mi s : 1970 <= y < 2 ^ 31 -> 1 <= m <= 12 -> 1 <= d < 256 -> 0 <= h < 256 -> 0 <= mi < 256 -> 0 <= s < 256 ->
  rtc_to_unix (mkRTC s mi h d m y) = Ok (unix_time y m d h mi s).
Proof.
  intros Hy Hm Hd Hh Hmi Hs. unfold rtc_to_unix. cbn [year month day hour minute second]. rewrite s32_small by lia.
  pose proof (day_number_mono 1970 ltac:(lia) (Z.to_nat (y - 1970))) as HB.
  rewrite rtc_years_ok by lia. replace (1970 + Z.of_nat (Z.to_nat (y - 1970))) with y in * by lia.
  pose proof (rtc_months_ok (is_leap_year y) (Z.to_nat (m - 1)) 0 ((day_number y 1 1 - day_number 1970 1 1) * 86400) ltac:(lia) ltac:(lia)) as HM.
  rewrite Z2Nat.id in HM by lia. change (Z.of_nat 0) with 0 in HM. change (months_sum (is_leap_year y) 0 * 86400) with 0 in HM.
  rewrite Z.add_0_r in HM. rewrite Z.add_0_l. rewrite HM. rewrite Nat.add_0_l.
  pose proof (months_sum_bound (is_leap_year y) (Z.to_nat (m - 1))) as HS.
  unfold unix_time. rewrite unix_day_split by lia.
  set (b := (day_number y 1 1 - day_number 1970 1 1) * 86400 + _).
  rewrite (u64_small (b + _)), (u64_small (b + _ + _)), (u64_small (b + _ + _ + _)), u64_small by lia. f_equal. lia.
Qed.

(** ** [fat32_unix_time] *)

Lemma add_years_ok n : forall y days, 1 <= y -> 0 <= days -> days + 366 * Z.of_nat n < 2 ^ 31 ->
  add_years (seqZ y (Z.of_nat n)) days = days + (day_number (y + Z.of_nat n) 1 1 - day_number y 1 1).
Proof.
  induction n as [|n IH]; intros y days Hy Hd Hb.
  { change (add_years (seqZ y (Z.of_nat 0)) days) with days. rewrite Z.add_0_r. lia. }
  rewrite seqZ_cons by lia. cbn [add_years]. replace (Z.pred (Z.of_nat (S n))) with (Z.of_nat n) by lia.
  replace (if is_leap_year y then 366 else 365) with (365 + Z.b2z (is_leap_year y)) by (by destruct (is_leap_year y)).
  assert (0 <= Z.b2z (is_leap_year y) <= 1) by (by destruct (is_leap_year y)).
  rewrite s32_small, IH by lia. replace (Z.succ y + Z.of_nat n) with (y + Z.of_nat (S n)) by lia.
  replace (Z.succ y) with (y + 1) by lia. rewrite day_number_year by done. lia.
Qed.

Lemma days_in_month_ok y (k : nat) d : daysInMonth (is_leap_year y) !! k = Some d ->
  days_in_month y (Z.of_nat k + 1) = Ok d.
Proof.
  intros H. pose proof (lookup_lt_Some _ _ _ H) as Hk. change (length _) with 12%nat in Hk. unfold days_in_month, array_at.
  do 12 (destruct k as [|k]; [destruct (is_leap_year y); by injection H as <-|]). lia.
Qed.

Lemma add_months_ok y n : forall a days, (a + n <= 12)%nat -> 0 <= days < 2 ^ 30 ->
  add_months (seqZ (Z.of_nat a + 1) (Z.of_nat n)) y (days + months_sum (is_leap_year y) a) =
  Ok (days + months_sum (is_leap_year y) (a + n)).
Proof.
  induction n as [|n IH]; intros a days Ha Hd; [by rewrite Nat.add_0_r|].
  rewrite seqZ_cons by lia. cbn [add_months].
  destruct (daysInMonth (is_leap_year y) !! a) as [d|] eqn:E; [|apply lookup_ge_None in E; cbn in E; lia].
  rewrite (days_in_month_ok _ _ _ E). pose proof (months_sum_S _ _ _ E) as HS.
  pose proof (months_sum_bound (is_leap_year y) (S a)).
  rewrite s32_small by lia. replace (Z.succ (Z.of_nat a + 1)) with (Z.of_nat (S a) + 1) by lia.
  replace (Z.pred (Z.of_nat (S n))) with (Z.of_nat n) by lia. rewrite <- Z.add_assoc, <- HS.
  rewrite IH by lia. do 3 f_equal. lia.
Qed.

Lemma days_since_1980_ok y m d : 1980 <= y < 10000 -> 1 <= m <= 12 -> 1 <= d <= 31 ->
  days_since_1980 y m d = Ok (unix_day y m d - unix_day 1980 1 1).
Proof.
  intros Hy Hm Hd. unfold days_since_1980.
  pose proof (day_number_mono 1980 ltac:(lia) (Z.to_nat (y - 1980))) as HB.
  pose proof (add_years_ok (Z.to_nat (y - 1980)) 1980 0 ltac:(lia) ltac:(lia) ltac:(lia)) as HY.
  rewrite Z2Nat.id in HY, HB by lia. rewrite HY. replace (1980 + (y - 1980)) with y in * by lia.
  pose proof (add_months_ok y (Z.to_nat (m - 1)) 0 (day_number y 1 1 - day_number 1980 1 1) ltac:(lia) ltac:(lia)) as HM.
  rewrite Z2Nat.id in HM by lia. change (Z.of_nat 0 + 1) with 1 in HM. change (months_sum (is_leap_year y) 0) with 0 in HM.
  rewrite Z.add_0_r in HM. rewrite Z.add_0_l, HM, Nat.add_0_l.
  pose proof (months_sum_bound (is_leap_year y) (Z.to_nat (m - 1))).
  rewrite s32_small, unix_day_split by lia. f_equal. unfold unix_day. lia.
Qed.

(** The two words of a directory entry. *)
Definition fat_date (y m d : Z) : Z := (y - 1980) * 512 + m * 32 + d.
Definition fat_time (h mi s2 : Z) : Z := h * 2048 + mi * 32 + s2.

Lemma field x k n w : 0 <= n -> 0 <= k -> w = Z.ones n -> Z.land (Z.shiftr x k) w = x / 2 ^ k mod 2 ^ n.
Proof. intros Hn Hk ->. by rewrite Z.shiftr_div_pow2, Z.land_ones by done. Qed.

Lemma fat_fields y m d h mi s2 : 1980 <= y < 2108 -> 0 <= m < 16 -> 0 <= d < 32 -> 0 <= h < 32 -> 0 <= mi < 64 -> 0 <= s2 < 32 ->
  Z.land (Z.shiftr (fat_date y m d) 9) 0x7F + 1980 = y /\ Z.land (Z.shiftr (fat_date y m d) 5) 0x0F = m /\
  Z.land (fat_date y m d) 0x1F = d /\ Z.land (Z.shiftr (fat_time h mi s2) 11) 0x1F = h /\
  Z.land (Z.shiftr (fat_time h mi s2) 5) 0x3F = mi /\ Z.land (fat_time h mi s2) 0x1F = s2.
Proof.
  intros. rewrite <- (Z.shiftr_0_r (fat_date y m d)) at 3. rewrite <- (Z.shiftr_0_r (fat_time h mi s2)) at 3.
  rewrite (field _ 9 7), (field _ 5 4), (field _ 0 5 0x1F), (field _ 11 5), (field _ 5 6), (field _ 0 5 0x1F) by done.
  unfold fat_date, fat_time. Z.to_euclidean_division_equations. lia.
Qed.

Lemma fat32_unix_time_ok y m d h mi s2 : 1980 <= y <= 2037 -> 1 <= m <= 12 -> 1 <= d <= 31 -> 0 <= h < 24 -> 0 <= mi < 60 -> 0 <= s2 < 30 ->
  fat32_unix_time (fat_date y m d) (fat_time h mi s2) = Ok (unix_time y m d h mi (2 * s2)).
Proof.
  intros Hy Hm Hd Hh Hmi Hs. unfold fat32_unix_time.
  destruct (fat_fields y m d h mi s2) as (-> & -> & -> & -> & -> & ->); [lia..|].
  rewrite days_since_1980_ok by lia. unfold SECONDS_PER_DAY, SECONDS_PER_HOUR, SECONDS_PER_MINUTE, unix_time.
  change (unix_day 1980 1 1) with 3652.
  assert (HB : 3652 <= unix_day y m d < 24838).
  { rewrite unix_day_split by lia. pose proof (day_number_mono 1980 ltac:(lia) (Z.to_nat (y - 1980))) as HB.
    pose proof (day_number_mono y ltac:(lia) (Z.to_nat (2037 - y))) as HC. rewrite Z2Nat.id in HB, HC by lia.
    replace (1980 + (y - 1980)) with y in HB by lia. replace (y + (2037 - y)) with 2037 in HC by lia.
    change (day_number 1980 1 1) with 722815 in HB. change (day_number 2037 1 1) with 743635 in HC.
    change (day_number 1970 1 1) with 719163. pose proof (months_sum_before (is_leap_year y) m ltac:(lia)). pose proof (months_sum_bound (is_leap_year y) (Z.to_nat (m - 1))). lia. }
  rewrite (s32_small (unix_day y m d - 3652 + _)) by lia.
  replace (unix_day y m d - 3652 + (365 * 10 + 2)) with (unix_day y m d) by lia.
  set (b := unix_day y m d) in *.
  rewrite (s32_small (b * _)), (s32_small (b * _ + _)), (s32_small (b * _ + _ + _)), s32_small, u64_small by lia. f_equal. lia.
Qed.

(** C21: the two conversions of the kernel, the one for the clock and the one for
    the time stamps of FAT, give the seconds since 1970 of the Gregorian calendar
    for every date and time from 1980 to 2037. *)
Theorem timestamps_follow_calendar y m d h mi s2 :
  1980 <= y <= 2037 -> valid_date y m d -> 0 <= h < 24 -> 0 <= mi < 60 -> 0 <= s2 < 30 ->
  fat32_unix_time (fat_date y m d) (fat_time h mi s2) = Ok (unix_time y m d h mi (2 * s2)) /\
  rtc_to_unix (mkRTC (2 * s2) mi h d m y) = Ok (unix_time y m d h mi (2 * s2)).
Proof.
  intros Hy [Hm Hd] Hh Hmi Hs.
  assert (nth (Z.to_nat (m - 1)) (daysInMonth (is_leap_year y)) 0 <= 31).
  { each_month m; destruct (is_leap_year y); vm_compute; discriminate. }
  split; [apply fat32_unix_time_ok; lia|apply rtc_to_unix_ok; lia].
Qed.

Lemma timestamps_follow_calendar_witness :
  fat32_unix_time (fat_date 2024 2 29) (fat_time 12 30 15) = Ok 1709209830 /\
  rtc_to_unix (mkRTC 30 30 12 29 2 2024) = Ok 1709209830.
Proof.
  pose proof (timestamps_follow_calendar 2024 2 29 12 30 15 ltac:(lia) ltac:(unfold valid_date; cbv; split; split; discriminate) ltac:(lia) ltac:(lia) ltac:(lia)) as H.
  exact H.
Defined.

(** From the 19th of January 2038 on the seconds no longer fit in the [int] they
    are computed in. *)
Theorem fat32_unix_time_wraps :
  fat32_unix_time (fat_date 2038 1 19) (fat_time 3 14 4) = Ok (u64 (unix_time 2038 1 19 3 14 8 - 2 ^ 32)).
Proof. reflexivity. Qed.

(** A month above 13, which the four bits of a damaged entry can hold, reads behind
    the table. *)
Theorem fat32_unix_time_month_14 : fat32_unix_time (fat_date 2024 14 1) 0 = Fault.
Proof. reflexivity. Qed.

(** ** The clock *)

Definition to_bcd (v : Z) : Z := v / 10 * 16 + v mod 10.

(** How the device shows a number, and an hour, in a mode of register B. *)
Definition shown (registerB v : Z) : Z := if Z.land registerB 0x04 =? 0 then to_bcd v else v.
Definition shown_hour (registerB h : Z) : Z :=
  if Z.land registerB 0x02 =? 0 then
    shown registerB (if h mod 12 =? 0 then 12 else h mod 12) + (if 12 <=? h then 0x80 else 0)
  else shown registerB h.

(** The registers at a time. *)
Definition clock_registers (registerB y m d h mi s r : Z) : Z :=
  if r =? 0x00 then shown registerB s else if r =? 0x02 then shown registerB mi
  else if r =? 0x04 then shown_hour registerB h else if r =? 0x07 then shown registerB d
  else if r =? 0x08 then shown registerB m else if r =? 0x09 then shown registerB (y mod 100)
  else if r =? 0x0B then registerB else 0.

Lemma seqZ_forallb (P : Z -> bool) n : forallb P (seqZ 0 n) = true -> forall v, 0 <= v < n -> P v = true.
Proof. intros H v Hv. rewrite forallb_forall in H. apply H, list_elem_of_In, elem_of_seqZ. lia. Qed.

Lemma bcd_to_bcd v : 0 <= v < 100 -> bcd (to_bcd v) = v /\ Z.land (to_bcd v) 0x0F + to_bcd v / 16 * 10 = v /\ u8 (to_bcd v) = to_bcd v.
Proof.
  intros Hv. pose proof (seqZ_forallb (fun v => (bcd (to_bcd v) =? v) &&
    (Z.land (to_bcd v) 0x0F + to_bcd v / 16 * 10 =? v) && (u8 (to_bcd v) =? to_bcd v)) 100 eq_refl v Hv) as H. cbv beta in H. lia.
Qed.

(** The hour in the four modes; the other bits of register B do not matter. *)
Definition decode_hour (registerB b : Z) : Z :=
  let b := if Z.land registerB 0x04 =? 0 then bcd_hour b else b in
  if (Z.land registerB 0x02 =? 0) && negb (Z.land b 0x80 =? 0) then (Z.land b 0x7F + 12) mod 24 else b.

Lemma decode_shown_hour registerB h : 0 <= h < 24 -> Z.land registerB 0x02 <> 0 \/ h mod 12 <> 0 ->
  decode_hour registerB (shown_hour registerB h) = h.
Proof.
  intros Hh Hm. unfold decode_hour, shown_hour, shown.
  destruct (Z.eqb_spec (Z.land registerB 0x02) 0), (Z.eqb_spec (Z.land registerB 0x04) 0); cbn [andb].
  - pose proof (seqZ_forallb (fun h => let b := bcd_hour (to_bcd (if h mod 12 =? 0 then 12 else h mod 12) + (if 12 <=? h then 0x80 else 0)) in
      (h mod 12 =? 0) || ((if negb (Z.land b 0x80 =? 0) then (Z.land b 0x7F + 12) mod 24 else b) =? h)) 24 eq_refl h Hh). cbv zeta beta in *. lia.
  - pose proof (seqZ_forallb (fun h => let b := (if h mod 12 =? 0 then 12 else h mod 12) + (if 12 <=? h then 0x80 else 0) in
      (h mod 12 =? 0) || ((if negb (Z.land b 0x80 =? 0) then (Z.land b 0x7F + 12) mod 24 else b) =? h)) 24 eq_refl h Hh). cbv zeta beta in *. lia.
  - pose proof (seqZ_forallb (fun h => bcd_hour (to_bcd h) =? h) 24 eq_refl h Hh). cbv beta in *. lia.
  - done.
Qed.

Lemma shown_byte registerB v : 0 <= v < 100 -> u8 (shown registerB v) = shown registerB v.
Proof. intros Hv. unfold shown. case_match; [by apply bcd_to_bcd|apply u8_small; lia]. Qed.

Lemma cmos_decode_shown registerB century y m d h mi s :
  2024 <= y <= 2123 -> 1 <= m <= 12 -> 1 <= d <= 31 -> 0 <= h < 24 -> 0 <= mi < 60 -> 0 <= s < 60 ->
  Z.land registerB 0x02 <> 0 \/ h mod 12 <> 0 ->
  cmos_decode 0 century registerB (mkRTC (shown registerB s) (shown registerB mi) (shown_hour registerB h)
    (shown registerB d) (shown registerB m) (shown registerB (y mod 100))) = mkRTC s mi h d m y.
Proof.
  intros Hy Hm Hd Hh Hmi Hs Hmode. pose proof (decode_shown_hour registerB h Hh Hmode) as EH.
  unfold decode_hour in EH. unfold cmos_decode, shown in *.
  pose proof (Z.mod_pos_bound y 100 ltac:(lia)) as Hb.
  assert (EY : (let y1 := u32 (y mod 100 + CURRENT_YEAR / 100 * 100) in if y1 <? CURRENT_YEAR then u32 (y1 + 100) else y1) = y).
  { unfold CURRENT_YEAR. cbv zeta. change (2024 / 100 * 100) with 2000. rewrite (u32_small (y mod 100 + 2000)) by lia.
    destruct (Z.ltb_spec (y mod 100 + 2000) 2024); rewrite ?u32_small by lia; Z.to_euclidean_division_equations; lia. }
  cbv zeta in EY. change (negb (0 =? 0)) with false. cbv iota.
  destruct (Z.land registerB 0x04 =? 0); cbn [second minute hour day month year] in *;
    [destruct (bcd_to_bcd (y mod 100) Hb) as (_ & -> & _)|]; rewrite ?(proj1 (bcd_to_bcd s ltac:(lia))),
      ?(proj1 (bcd_to_bcd mi ltac:(lia))), ?(proj1 (bcd_to_bcd d ltac:(lia))), ?(proj1 (bcd_to_bcd m ltac:(lia)));
    f_equal; done.
Qed.

Section clock.
Context {D : Type} (get_update_in_progress_flag : M D bool) (get_RTC_register : Z -> M D Z).
Context (regs : Z -> Z) (dev : D).
Context (Hflag : get_update_in_progress_flag dev = Ok (false, dev)).
Context (Hregs : forall r, get_RTC_register r dev = Ok (regs r, dev)).

Lemma read_round_ok n c : read_round get_update_in_progress_flag get_RTC_register 0 (S n) c dev =
  Ok ((mkRTC (regs 0) (regs 2) (regs 4) (regs 7) (regs 8) (regs 9), c), dev).
Proof using Hflag Hregs.
  unfold read_round. erewrite bind_ok.
  2:{ cbn [wait_update]. mrw Hflag. done. }
  do 6 (erewrite bind_ok by apply Hregs). done.
Qed.

Lemma read_from_CMOS_ok n junk : u8 (regs 9) = regs 9 ->
  read_from_CMOS get_update_in_progress_flag get_RTC_register 0 (S (S n)) junk dev =
  Ok (cmos_decode 0 junk (regs 11) (mkRTC (regs 0) (regs 2) (regs 4) (regs 7) (regs 8) (regs 9)), dev).
Proof using Hflag Hregs.
  intros Hy. unfold read_from_CMOS. mrw (read_round_ok (S n) junk).
  erewrite bind_ok.
  2:{ cbn [read_stable snd]. mrw (read_round_ok n junk). unfold same_round. cbn [fst snd second minute hour day month year].
      rewrite Hy, !Z.eqb_refl. done. }
  cbv beta iota. erewrite bind_ok by apply Hregs. done.
Qed.

End clock.

(** C20: when the real-time clock shows a time from 2024 to 2123, in binary or BCD and
    in the 24-hour mode (or in the 12-hour mode at an hour other than twelve), and is
    not being updated, [read_from_CMOS] returns exactly that time and [rtc_to_unix]
    turns it into the seconds since 1970 of the calendar. *)
Theorem boot_time_exact {D} (flag : M D bool) (register : Z -> M D Z) dev registerB junk n y m d h mi s :
  flag dev = Ok (false, dev) ->
  (forall r, register r dev = Ok (clock_registers registerB y m d h mi s r, dev)) ->
  2024 <= y <= 2123 -> valid_date y m d -> 0 <= h < 24 -> 0 <= mi < 60 -> 0 <= s < 60 ->
  Z.land registerB 0x02 <> 0 \/ h mod 12 <> 0 ->
  exists t, read_from_CMOS flag register 0 (S (S n)) junk dev = Ok (t, dev) /\
    t = mkRTC s mi h d m y /\ rtc_to_unix t = Ok (unix_time y m d h mi s).
Proof.
  intros Hf Hr Hy [Hm Hd] Hh Hmi Hs Hmode.
  assert (nth (Z.to_nat (m - 1)) (daysInMonth (is_leap_year y)) 0 <= 31).
  { each_month m; destruct (is_leap_year y); vm_compute; discriminate. }
  rewrite (read_from_CMOS_ok flag register (clock_registers registerB y m d h mi s) dev Hf Hr).
  2:{ apply shown_byte. pose proof (Z.mod_pos_bound y 100). lia. }
  eexists. split; [reflexivity|]. unfold clock_registers. cbn [Z.eqb Pos.eqb].
  rewrite cmos_decode_shown by (done || lia). split; [done|]. apply rtc_to_unix_ok; lia.
Qed.

(** A clock that stands still. *)
Definition still_register (regs : Z -> Z) (r : Z) : M unit Z := ret (regs r).

Lemma boot_time_exact_witness :
  exists t, read_from_CMOS (ret false) (still_register (clock_registers 2 2024 2 29 12 30 45)) 0 2 7 tt = Ok (t, tt) /\
    t = mkRTC 45 30 12 29 2 2024 /\ rtc_to_unix t = Ok (unix_time 2024 2 29 12 30 45).
Proof.
  apply (boot_time_exact (ret false) (still_register (clock_registers 2 2024 2 29 12 30 45)) tt 2 7 0);
    [done|done|lia|unfold valid_date; cbv; split; split; discriminate|lia|lia|lia|left; done].
Defined.

(** In the 12-hour mode noon is read as midnight and midnight as noon. *)
Theorem cmos_noon_and_midnight :
  hour (cmos_decode 0 0 0 (mkRTC 0 0 (shown_hour 0 12) 1 1 0x24)) = 0 /\
  hour (cmos_decode 0 0 0 (mkRTC 0 0 (shown_hour 0 0) 1 1 0x24)) = 12.
Proof. done. Qed.
