(* ===== verification/Bytes.v ===== *)
(** * Byte buffers, little-endian fields and bitmaps

    A C buffer is the list of its bytes (each a [Z]).  [load] and [store] are
    the bounds-checked accesses; [bit], [bit_set] and [bit_clear] are the bit
    operations every bitmap of the kernel uses. *)

From S2P Require Import Prelude.

Definition zlen {A} (l : list A) : Z := Z.of_nat (length l).

(** ** Slices and patches *)

Definition slice (off n : Z) (l : list Z) : list Z :=
  take (Z.to_nat n) (drop (Z.to_nat off) l).

Definition patch (off : Z) (bs l : list Z) : list Z :=
  list_inserts (Z.to_nat off) bs l.

Definition load (off n : Z) (l : list Z) : option (list Z) :=
  if (0 <=? off) && (0 <=? n) && (off + n <=? zlen l)
  then Some (slice off n l) else None.

Definition store (off : Z) (bs l : list Z) : option (list Z) :=
  if (0 <=? off) && (off + zlen bs <=? zlen l)
  then Some (patch off bs l) else None.

(** Little-endian fields of [n] bytes. *)
Definition le (n v : Z) : list Z := Z_to_little_endian n 8 v.
Definition le_val (bs : list Z) : Z := little_endian_to_Z 8 bs.

Definition load_le (n off : Z) (l : list Z) : option Z := le_val <$> load off n l.
Definition store_le (n off v : Z) (l : list Z) : option (list Z) :=
  store off (le n v) l.

(** Every element is a byte. *)
Definition is_byte (b : Z) : Prop := 0 <= b < 256.

Lemma zlen_nonneg {A} (l : list A) : 0 <= zlen l.
Proof. unfold zlen. lia. Qed.
#[export] Hint Resolve zlen_nonneg : kernel.

Lemma zlen_app {A} (l k : list A) : zlen (l ++ k) = zlen l + zlen k.
Proof. unfold zlen. rewrite length_app. lia. Qed.
Lemma zlen_cons {A} (x : A) l : zlen (x :: l) = 1 + zlen l.
Proof. change (x :: l) with ([x] ++ l). by rewrite zlen_app. Qed.
Lemma zlen_replicate {A} n (x : A) : 0 <= n -> zlen (replicate (Z.to_nat n) x) = n.
Proof. intros. unfold zlen. rewrite length_replicate. lia. Qed.

Lemma slice_lookup off n l i :
  0 <= off -> slice off n l !! i =
    if decide (Z.of_nat i < n) then l !! (Z.to_nat off + i)%nat else None.
Proof.
  intros. unfold slice. case_decide.
  - rewrite lookup_take_lt by lia. apply lookup_drop.
  - apply lookup_ge_None_2. rewrite length_take. lia.
Qed.

Lemma zlen_slice off n l :
  0 <= off -> 0 <= n -> off + n <= zlen l -> zlen (slice off n l) = n.
Proof. intros. unfold zlen, slice in *. rewrite length_take, length_drop. lia. Qed.

Lemma zlen_patch off bs l : zlen (patch off bs l) = zlen l.
Proof. unfold zlen, patch. by rewrite length_inserts. Qed.

Lemma patch_lookup_inside off bs l i :
  (Z.to_nat off <= i < Z.to_nat off + length bs)%nat -> (i < length l)%nat ->
  patch off bs l !! i = bs !! (i - Z.to_nat off)%nat.
Proof. intros. unfold patch. apply list_lookup_inserts; lia. Qed.

Lemma patch_lookup_outside off bs l i :
  (i < Z.to_nat off \/ Z.to_nat off + length bs <= i)%nat ->
  patch off bs l !! i = l !! i.
Proof.
  intros [?|?]; unfold patch.
  - apply list_lookup_inserts_lt; lia.
  - apply list_lookup_inserts_ge; lia.
Qed.

Lemma slice_patch_same off bs l :
  0 <= off -> off + zlen bs <= zlen l ->
  slice off (zlen bs) (patch off bs l) = bs.
Proof.
  intros Hoff Hlen. unfold zlen in *. apply list_eq. intros i.
  rewrite slice_lookup by lia. case_decide.
  - rewrite patch_lookup_inside by lia. f_equal. lia.
  - symmetry. apply lookup_ge_None_2. lia.
Qed.

Lemma slice_patch_disjoint o n off bs l :
  0 <= o -> 0 <= off -> o + n <= off \/ off + zlen bs <= o ->
  slice o n (patch off bs l) = slice o n l.
Proof.
  intros Ho Hoff H. unfold zlen in *. apply list_eq. intros i.
  rewrite !slice_lookup by lia. case_decide; [|done].
  apply patch_lookup_outside. lia.
Qed.

Lemma slice_slice a n b m l :
  0 <= a -> 0 <= b -> a + n <= m -> slice a n (slice b m l) = slice (b + a) n l.
Proof.
  intros. apply list_eq. intros i. rewrite !slice_lookup by lia.
  repeat case_decide; try lia; [|done]. f_equal. lia.
Qed.

Lemma slice_full l : slice 0 (zlen l) l = l.
Proof. unfold slice, zlen. rewrite drop_0, take_ge; [done|lia]. Qed.

Lemma slice_app_l n l k : n <= zlen l -> slice 0 n (l ++ k) = slice 0 n l.
Proof. intros. unfold slice, zlen in *. rewrite !drop_0, take_app_le; [done|lia]. Qed.

Lemma slice_app_r o n l k :
  zlen l <= o -> slice o n (l ++ k) = slice (o - zlen l) n k.
Proof.
  intros. unfold slice, zlen in *. rewrite drop_app_ge by lia. do 2 f_equal. lia.
Qed.

Lemma slice_split o a n l :
  0 <= o -> 0 <= a <= n -> slice o n l = slice o a l ++ slice (o + a) (n - a) l.
Proof.
  intros. unfold slice.
  replace (Z.to_nat n) with (Z.to_nat a + Z.to_nat (n - a))%nat by lia.
  rewrite <- take_take_drop, drop_drop. do 4 f_equal. lia.
Qed.

Lemma patch_id off l n :
  0 <= off -> patch off (slice off n l) l = l.
Proof.
  intros. apply list_eq. intros i.
  destruct (decide (Z.to_nat off <= i < Z.to_nat off + length (slice off n l))%nat) as [Hi|Hi].
  - assert (i < length l)%nat.
    { unfold slice in Hi. rewrite length_take, length_drop in Hi. lia. }
    rewrite patch_lookup_inside by lia.
    destruct (lookup_lt_is_Some_2 (slice off n l) (i - Z.to_nat off)%nat) as [x Hx]; [lia|].
    rewrite Hx. rewrite slice_lookup in Hx by lia.
    case_decide; [|done]. rewrite <- Hx. f_equal. lia.
  - apply patch_lookup_outside. lia.
Qed.

Lemma patch_full bs l : zlen bs = zlen l -> patch 0 bs l = bs.
Proof.
  unfold zlen. intros E. apply list_eq. intros i.
  destruct (decide (i < length l)%nat).
  - rewrite patch_lookup_inside by lia. f_equal. lia.
  - rewrite patch_lookup_outside by lia. rewrite !lookup_ge_None_2; [done|lia..].
Qed.

(** ** Checked accesses *)

Lemma load_ok off n l :
  0 <= off -> 0 <= n -> off + n <= zlen l -> load off n l = Some (slice off n l).
Proof.
  intros. unfold load.
  by rewrite (proj2 (Z.leb_le 0 off)), (proj2 (Z.leb_le 0 n)),
    (proj2 (Z.leb_le (off + n) (zlen l))) by lia.
Qed.

Lemma load_Some off n l bs :
  load off n l = Some bs ->
  0 <= off /\ 0 <= n /\ off + n <= zlen l /\ bs = slice off n l.
Proof.
  unfold load. intros H. destruct (_ && _ && _) eqn:E; [|done].
  rewrite !andb_true_iff, !Z.leb_le in E. simplify_eq. tauto.
Qed.

Lemma store_ok off bs l :
  0 <= off -> off + zlen bs <= zlen l -> store off bs l = Some (patch off bs l).
Proof.
  intros. unfold store.
  by rewrite (proj2 (Z.leb_le 0 off)), (proj2 (Z.leb_le _ (zlen l))) by lia.
Qed.

Lemma store_Some off bs l l' :
  store off bs l = Some l' ->
  0 <= off /\ off + zlen bs <= zlen l /\ l' = patch off bs l.
Proof.
  unfold store. intros H. destruct (_ && _) eqn:E; [|done].
  rewrite !andb_true_iff, !Z.leb_le in E. simplify_eq. tauto.
Qed.

(** ** Little-endian encoding *)

Lemma zlen_le n v : 0 <= n -> zlen (le n v) = n.
Proof. intros. unfold zlen, le. apply length_Z_to_little_endian. lia. Qed.

Lemma le_bytes n v : 0 <= n -> Forall is_byte (le n v).
Proof.
  intros. pose proof (Z_to_little_endian_bound n 8 v ltac:(lia) ltac:(lia)) as Hb.
  eapply Forall_impl; [exact Hb|]. unfold is_byte. simpl. lia.
Qed.

Lemma le_val_le n v : 0 <= n -> le_val (le n v) = v mod 2 ^ (n * 8).
Proof. intros. apply little_endian_to_Z_to_little_endian; lia. Qed.

Lemma le_val_le_small n v : 0 <= n -> 0 <= v < 2 ^ (n * 8) -> le_val (le n v) = v.
Proof. intros. rewrite le_val_le by lia. apply Z.mod_small. lia. Qed.

Lemma le_le_val bs : Forall is_byte bs -> le (zlen bs) (le_val bs) = bs.
Proof. intros. apply Z_to_little_endian_to_Z; unfold zlen; [lia..|done]. Qed.

Lemma le_val_bound bs : Forall is_byte bs -> 0 <= le_val bs < 2 ^ (zlen bs * 8).
Proof. intros. unfold zlen. apply little_endian_to_Z_bound; [lia|done]. Qed.

Lemma Forall_slice (P : Z -> Prop) off n l : Forall P l -> Forall P (slice off n l).
Proof. intros. by apply Forall_take, Forall_drop. Qed.

Lemma Forall_patch (P : Z -> Prop) off bs l :
  Forall P bs -> Forall P l -> Forall P (patch off bs l).
Proof. intros. by apply Forall_inserts. Qed.

(** ** Bits of a byte and bitmaps *)

(** [b & (1 << j)] as a truth value. *)
Definition byte_bit (b j : Z) : bool := negb (Z.land b (Z.shiftl 1 j) =? 0).

(** [b |= (1 << j)] and [b &= ~(1 << j)] on a [uint8_t]. *)
Definition byte_set (b j : Z) : Z := u8 (Z.lor b (Z.shiftl 1 j)).
Definition byte_clear (b j : Z) : Z := u8 (Z.land b (Z.lnot (Z.shiftl 1 j))).

(** Bit [k] of a buffer, least significant bit first. *)
Definition bit (bm : list Z) (k : Z) : bool :=
  Z.testbit (bm !!! Z.to_nat (k / 8)) (k mod 8).

Definition bit_set (bm : list Z) (k : Z) : list Z :=
  <[Z.to_nat (k / 8) := byte_set (bm !!! Z.to_nat (k / 8)) (k mod 8)]> bm.
Definition bit_clear (bm : list Z) (k : Z) : list Z :=
  <[Z.to_nat (k / 8) := byte_clear (bm !!! Z.to_nat (k / 8)) (k mod 8)]> bm.

Lemma testbit_shiftl_1 j i : 0 <= j -> Z.testbit (Z.shiftl 1 j) i = bool_decide (i = j).
Proof.
  intros. rewrite Z.shiftl_1_l. case_bool_decide as E.
  - subst. by apply Z.pow2_bits_true.
  - apply Z.pow2_bits_false. congruence.
Qed.

Lemma byte_bit_testbit b j : 0 <= j -> byte_bit b j = Z.testbit b j.
Proof.
  intros Hj. unfold byte_bit. destruct (Z.testbit b j) eqn:E.
  - destruct (Z.eqb_spec (Z.land b (Z.shiftl 1 j)) 0) as [H|]; [|done].
    apply (f_equal (fun z => Z.testbit z j)) in H.
    rewrite Z.land_spec, Z.bits_0, E, testbit_shiftl_1 in H by lia.
    by rewrite bool_decide_true in H.
  - rewrite (proj2 (Z.eqb_eq _ 0)); [done|]. apply Z.bits_inj_0. intros i.
    rewrite Z.land_spec, testbit_shiftl_1 by lia.
    case_bool_decide; [by subst; rewrite E|apply andb_false_r].
Qed.

Lemma u8_testbit z i : 0 <= i < 8 -> Z.testbit (u8 z) i = Z.testbit z i.
Proof. intros. unfold u8. by rewrite Z.mod_pow2_bits_low by lia. Qed.

Lemma byte_set_testbit b j i :
  0 <= j < 8 -> 0 <= i < 8 ->
  Z.testbit (byte_set b j) i = Z.testbit b i || bool_decide (i = j).
Proof.
  intros. unfold byte_set. rewrite u8_testbit, Z.lor_spec by lia.
  by rewrite testbit_shiftl_1 by lia.
Qed.

Lemma byte_clear_testbit b j i :
  0 <= j < 8 -> 0 <= i < 8 ->
  Z.testbit (byte_clear b j) i = Z.testbit b i && negb (bool_decide (i = j)).
Proof.
  intros. unfold byte_clear. rewrite u8_testbit, Z.land_spec, Z.lnot_spec by lia.
  by rewrite testbit_shiftl_1 by lia.
Qed.

Lemma bit_index_ne a b :
  0 <= a -> 0 <= b -> a <> b ->
  Z.to_nat (a / 8) <> Z.to_nat (b / 8) \/ a mod 8 <> b mod 8.
Proof.
  intros. pose proof (Z.div_mod a 8). pose proof (Z.div_mod b 8).
  pose proof (Z.div_pos a 8). pose proof (Z.div_pos b 8). lia.
Qed.

Lemma bit_in_range k n : 0 <= k < 8 * n -> (Z.to_nat (k / 8) < Z.to_nat n)%nat.
Proof.
  intros. pose proof (Z.div_lt_upper_bound k 8 n). pose proof (Z.div_pos k 8). lia.
Qed.

Lemma bit_set_spec bm k i :
  0 <= k < 8 * zlen bm -> 0 <= i ->
  bit (bit_set bm k) i = bit bm i || bool_decide (i = k).
Proof.
  intros Hk Hi. unfold bit, bit_set.
  pose proof (bit_in_range _ _ Hk). unfold zlen in *. rewrite Nat2Z.id in *.
  pose proof (Z.mod_pos_bound k 8). pose proof (Z.mod_pos_bound i 8).
  destruct (decide (Z.to_nat (i / 8) = Z.to_nat (k / 8))) as [E|E].
  - rewrite E, list_lookup_total_insert_eq, byte_set_testbit by lia. f_equal.
    apply bool_decide_ext.
    pose proof (Z.div_mod i 8). pose proof (Z.div_mod k 8).
    pose proof (Z.div_pos k 8). pose proof (Z.div_pos i 8). lia.
  - rewrite list_lookup_total_insert_ne by done.
    rewrite (bool_decide_false (i = k)) by congruence. by rewrite orb_false_r.
Qed.

Lemma bit_clear_spec bm k i :
  0 <= k < 8 * zlen bm -> 0 <= i ->
  bit (bit_clear bm k) i = bit bm i && negb (bool_decide (i = k)).
Proof.
  intros Hk Hi. unfold bit, bit_clear.
  pose proof (bit_in_range _ _ Hk). unfold zlen in *. rewrite Nat2Z.id in *.
  pose proof (Z.mod_pos_bound k 8). pose proof (Z.mod_pos_bound i 8).
  destruct (decide (Z.to_nat (i / 8) = Z.to_nat (k / 8))) as [E|E].
  - rewrite E, list_lookup_total_insert_eq, byte_clear_testbit by lia. do 2 f_equal.
    apply bool_decide_ext.
    pose proof (Z.div_mod i 8). pose proof (Z.div_mod k 8).
    pose proof (Z.div_pos k 8). pose proof (Z.div_pos i 8). lia.
  - rewrite list_lookup_total_insert_ne by done.
    rewrite (bool_decide_false (i = k)) by congruence. by rewrite andb_true_r.
Qed.

Lemma zlen_bit_set bm k : zlen (bit_set bm k) = zlen bm.
Proof. unfold zlen, bit_set. by rewrite length_insert. Qed.
Lemma zlen_bit_clear bm k : zlen (bit_clear bm k) = zlen bm.
Proof. unfold zlen, bit_clear. by rewrite length_insert. Qed.

Lemma bit_set_bytes bm k : Forall is_byte bm -> Forall is_byte (bit_set bm k).
Proof. intros. apply Forall_insert; [done|apply u8_bound]. Qed.
Lemma bit_clear_bytes bm k : Forall is_byte bm -> Forall is_byte (bit_clear bm k).
Proof. intros. apply Forall_insert; [done|apply u8_bound]. Qed.

(** ** Counting free positions *)

Definition count_free (f : Z -> bool) (n : Z) : Z :=
  Z.of_nat (length (filter (fun k => f k = false) (seqZ 0 n))).

Lemma filter_ext_in {A} (P Q : A -> Prop)
    `{!forall x, Decision (P x), !forall x, Decision (Q x)} (l : list A) :
  (forall x, x ∈ l -> P x <-> Q x) -> filter P l = filter Q l.
Proof.
  induction l as [|a l IH]; intros Hl; [done|].
  rewrite !filter_cons, IH by (intros; apply Hl; set_solver).
  destruct (Hl a (list_elem_of_here a l)) as [HPQ HQP].
  do 2 case_decide; tauto.
Qed.

Lemma count_free_ext f g n :
  (forall k, 0 <= k < n -> f k = g k) -> count_free f n = count_free g n.
Proof.
  intros H. unfold count_free. do 2 f_equal. apply filter_ext_in.
  intros k Hk%elem_of_seqZ. by rewrite H by lia.
Qed.

Lemma seqZ_split_at n k :
  0 <= k < n -> seqZ 0 n = seqZ 0 k ++ [k] ++ seqZ (k + 1) (n - k - 1).
Proof.
  intros. replace n with (k + (1 + (n - k - 1))) at 1 by lia.
  rewrite (seqZ_app 0 k) by lia. f_equal.
  rewrite (seqZ_app _ 1) by lia. by rewrite Z.add_0_l.
Qed.

(** Marking one free position removes exactly one from the count. *)
Lemma count_free_mark f g n k :
  0 <= k < n -> f k = false -> g k = true ->
  (forall i, 0 <= i < n -> i <> k -> g i = f i) ->
  count_free g n = count_free f n - 1.
Proof.
  intros Hk Hf Hg Heq. unfold count_free.
  rewrite (seqZ_split_at n k) by lia. rewrite !filter_app, !length_app. simpl.
  rewrite !filter_cons, !filter_nil. rewrite Hf, Hg. simpl.
  rewrite (filter_ext_in (fun k => g k = false) (fun k => f k = false) (seqZ 0 k)).
  2:{ intros i Hi%elem_of_seqZ. by rewrite Heq by lia. }
  rewrite (filter_ext_in (fun k => g k = false) (fun k => f k = false)
             (seqZ (k + 1) (n - k - 1))).
  2:{ intros i Hi%elem_of_seqZ. by rewrite Heq by lia. }
  rewrite ?decide_True, ?decide_False by congruence. simpl. lia.
Qed.
