(* ===== verification/FileTypes.v ===== *)
(** * Error numbers, flags and shared types of the file systems

    Error numbers and open flags ([linux.h], [types.h], [syscalls.h]), and what the
    drivers of ext2 and FAT32 have in common: file modes, the [stat] structure, and
    the packing of [linux_dirent64] records into the caller's buffer
    ([utility/dents.cpp]). *)

From S2P Require Import Prelude Bytes.

(** ** Error numbers and open flags *)

Definition EPERM : Z := 1.
Definition ENOENT : Z := 2.
Definition EINTR : Z := 4.
Definition EBADF : Z := 9.
Definition EWOULDBLOCK : Z := 11.
Definition EACCES : Z := 13.
Definition EEXIST : Z := 17.
Definition ENOTDIR : Z := 20.
Definition EISDIR : Z := 21.
Definition EINVAL : Z := 22.
Definition ENOTTY : Z := 25.
Definition EROFS : Z := 30.
Definition ENOSYS : Z := 38.
Definition ENOTEMPTY : Z := 39.
Definition ELOOP : Z := 40.

(** [#define ERR(errno) (-ERR_INDIRECT(errno))], an unsigned long. *)
Definition ERR (errno : Z) : Z := u64 (- errno).
(** [#define RET_IS_ERR(syscall_return) ((syscall_return) > -4096UL)] *)
Definition RET_IS_ERR (r : Z) : bool := u64 (-4096) <? r.

Definition O_WRONLY : Z := 1.
Definition O_RDWR : Z := 2.
Definition O_CREAT : Z := 64.
Definition O_EXCL : Z := 128.
Definition O_TRUNC : Z := 512.
Definition O_APPEND : Z := 1024.
Definition O_NONBLOCK : Z := 2048.
Definition FASYNC : Z := 8192.
Definition O_DIRECTORY : Z := 65536.
Definition O_NOFOLLOW : Z := 131072.
Definition O_CLOEXEC : Z := 524288.

(** ** Conditions *)

(** An access outside the buffer, or a loop that does not advance, as outcomes. *)
Definition need {A B} (o : option A) (k : A -> outcome B) : outcome B :=
  match o with Some a => k a | None => Fault end.

(** [flags & bit], as a condition. *)
Definition has_flag (flags b : Z) : bool := negb (Z.land flags b =? 0).

Definition SEEK_CURR : Z := 1.

(** ** File status *)

Definition S_IFDIR : Z := 0x4000.
Definition S_IFREG : Z := 0x8000.
Definition S_IRUSR : Z := 0x100.
Definition S_IWUSR : Z := 0x80.
Definition S_IXUSR : Z := 0x40.

Record stat := mkStat {
  st_dev : Z;
  st_ino : Z;
  st_mode : Z;
  st_nlink : Z;
  st_uid : Z;
  st_gid : Z;
  st_rdev : Z;
  st_blksize : Z;
  st_size : Z;
  st_blocks : Z;
  st_atime : Z;
  st_mtime : Z;
  st_ctime : Z;
}.

(** ** Directory records *)

Inductive DENTS_RES := DENTS_NO_SPACE | DENTS_SUCCESS | DENTS_RETURN.

(** The fields stored at [*dirp]; [d_off] is the random number drawn. *)
Definition dent_bytes (inode d_off type : Z) (filename : list Z) : list Z :=
  le 8 inode ++ le 8 d_off ++ le 2 (23 + zlen filename + 1) ++ [type] ++ filename ++ [0].

(** [dirp] is the offset of [*dirp] in the buffer [buff]; the result holds the
    buffer, the new [*dirp] and the new [*allocatedlimit]. *)
Definition dents_add (buff : list Z) (dirp allocatedlimit hardlimit : Z) (filename : list Z)
    (inode d_off type : Z) : outcome (DENTS_RES * list Z * Z * Z) :=
  let reclen := 23 + zlen filename + 1 in
  if hardlimit <? u64 (allocatedlimit + reclen + 2) then
    Ok (if allocatedlimit =? 0 then DENTS_NO_SPACE else DENTS_RETURN, buff, dirp, allocatedlimit)
  else
    need (store dirp (dent_bytes inode d_off type filename) buff) (fun buff =>
      Ok (DENTS_SUCCESS, buff, dirp + reclen, s32 (allocatedlimit + reclen))).

Definition CDT_DIR : Z := 4.
Definition CDT_REG : Z := 8.
Definition CDT_LNK : Z := 10.
