(* ===== verification/Paths.v ===== *)
(** * Paths as lists of components

    Shared by the file systems: the drivers walk over the characters of a path
    [/c1/c2/...] and act at the end of each component. *)

From S2P Require Import Prelude Bytes.

Definition slash : Z := 47.

(** The string [/c1/c2/...]. *)
Definition path_of (cs : list (list Z)) : list Z := mjoin ((fun c => slash :: c) <$> cs).

Lemma path_of_cons c cs : path_of (c :: cs) = slash :: c ++ path_of cs.
Proof. done. Qed.

(** A component: characters without a slash, at least one. *)
Definition component (c : list Z) : Prop := c <> [] /\ slash ∉ c.

(** The characters of a component in its path. *)
Lemma path_char (pre c post : list Z) (k : Z) :
  0 <= k < zlen c ->
  (pre ++ slash :: c ++ post) !!! Z.to_nat (zlen pre + 1 + k) = c !!! Z.to_nat k.
Proof.
  intros Hk. unfold zlen in *. rewrite lookup_total_app_r by lia.
  replace (Z.to_nat _ - length pre)%nat with (S (Z.to_nat k)) by lia.
  change ((slash :: c ++ post) !!! S (Z.to_nat k)) with ((c ++ post) !!! Z.to_nat k).
  by rewrite lookup_total_app_l by lia.
Qed.

Lemma component_char c k : component c -> 0 <= k < zlen c -> c !!! Z.to_nat k <> slash.
Proof.
  intros [_ Hs] Hk E. apply Hs. rewrite <- E. apply list_elem_of_lookup_total_2.
  unfold zlen in Hk. lia.
Qed.

Lemma path_slice (pre c post : list Z) :
  slice (zlen pre + 1) (zlen c) (pre ++ slash :: c ++ post) = c.
Proof.
  change (slash :: c ++ post) with ([slash] ++ c ++ post). rewrite app_assoc.
  replace (zlen pre + 1) with (zlen (pre ++ [slash])) by (by rewrite zlen_app).
  rewrite slice_app_r, Z.sub_diag, slice_app_l by lia. apply slice_full.
Qed.

Lemma path_of_zlen cs : cs <> [] -> Forall component cs -> 2 <= zlen (path_of cs).
Proof.
  intros Hne. destruct 1 as [|c cs [Hc _] _]; [done|]. unfold path_of. cbn.
  unfold zlen. destruct c; [done|]. cbn. lia.
Qed.

Lemma path_len pre c post : component c ->
  zlen (pre ++ slash :: c ++ post) = zlen pre + 1 + zlen c + zlen post /\ 0 < zlen c.
Proof.
  intros [Hne _]. rewrite zlen_app. change (zlen (slash :: c ++ post)) with (zlen ([slash] ++ c ++ post)).
  rewrite !zlen_app. change (zlen [slash]) with 1. split; [lia|].
  destruct c; [done|]. unfold zlen. cbn. lia.
Qed.

(** The slash behind a component. *)
Lemma path_slash (pre c post : list Z) : (pre ++ slash :: c ++ slash :: post) !!! Z.to_nat (zlen (pre ++ slash :: c)) = slash.
Proof.
  rewrite app_comm_cons, app_assoc. unfold zlen. rewrite lookup_total_app_r by lia. by rewrite Nat2Z.id, Nat.sub_diag.
Qed.

(** A loop over the positions of a path that does nothing at a character that ends
    no component. *)
Section walk.
Context {A R : Type} (path : list Z) (L : list Z -> A -> Z -> R).
Context (Hskip : forall i is_ a ls, path !!! Z.to_nat i <> slash -> i <> zlen path - 1 -> L (i :: is_) a ls = L is_ a ls).

Lemma walk_skip (k : nat) : forall i a ls, 0 <= i -> i + Z.of_nat k <= zlen path ->
  (forall j, i <= j < i + Z.of_nat k -> path !!! Z.to_nat j <> slash /\ j <> zlen path - 1) ->
  L (seqZ i (zlen path - i)) a ls = L (seqZ (i + Z.of_nat k) (zlen path - (i + Z.of_nat k))) a ls.
Proof using Hskip.
  induction k as [|k IH]; intros i a ls Hi Hk Hj; [by rewrite Z.add_0_r|].
  rewrite seqZ_cons by lia. destruct (Hj i ltac:(lia)) as [Hs Hl]. rewrite Hskip by done.
  replace (Z.pred (zlen path - i)) with (zlen path - Z.succ i) by lia. rewrite IH; [do 2 f_equal; lia|lia..|].
  intros j Hj'. apply Hj. lia.
Qed.

(** The first [m] characters of a component. *)
Lemma walk_component pre c post m a ls : path = pre ++ slash :: c ++ post -> component c ->
  0 <= m <= zlen c -> m < zlen c + zlen post ->
  L (seqZ (zlen pre + 1) (zlen path - (zlen pre + 1))) a ls =
  L (seqZ (zlen pre + 1 + m) (zlen path - (zlen pre + 1 + m))) a ls.
Proof using Hskip.
  intros Ep Hc Hm Hp. destruct (path_len pre c post Hc) as [Hl Hc0]. rewrite <- Ep in Hl.
  pose proof (zlen_nonneg pre). pose proof (zlen_nonneg post).
  rewrite (walk_skip (Z.to_nat m)); [by rewrite Z2Nat.id by lia|lia|lia|].
  intros j Hj. split; [|lia]. rewrite Ep. replace j with (zlen pre + 1 + (j - zlen pre - 1)) by lia.
  rewrite path_char by lia. apply component_char; [done|lia].
Qed.

End walk.
