(* ===== verification/Bitmap.v ===== *)
(** * The bitmap region manager ([memory/bitmap.cpp])

    [Bitmap] is [struct Bitmap]: one bit per 4 KiB block, set when the block is
    taken, and the hint [lastDeepFragmented] below which every block is taken.
    Operations are computations over that state; an access outside the bytes
    of the bitmap is a [Fault].  [bm_wf] is the invariant, [bitmap_allocate_ok]
    and [bitmap_free_ok] the behaviour the page allocator relies on. *)

From S2P Require Import Prelude Bytes.

Record Bitmap := mkBitmap {
  bm_bytes : list Z;
  BitmapSizeInBlocks : Z;
  BitmapSizeInBytes : Z;
  lastDeepFragmented : Z;
  mem_start : Z;
  lock_id : Z;
  bm_lock : bool;
  ready : bool;
}.

Definition set_bm_bytes (l : list Z) (b : Bitmap) : Bitmap :=
  mkBitmap l (BitmapSizeInBlocks b) (BitmapSizeInBytes b) (lastDeepFragmented b)
    (mem_start b) (lock_id b) (bm_lock b) (ready b).
Definition set_hint (h : Z) (b : Bitmap) : Bitmap :=
  mkBitmap (bm_bytes b) (BitmapSizeInBlocks b) (BitmapSizeInBytes b) h
    (mem_start b) (lock_id b) (bm_lock b) (ready b).
Definition set_lock (l : bool) (b : Bitmap) : Bitmap :=
  mkBitmap (bm_bytes b) (BitmapSizeInBlocks b) (BitmapSizeInBytes b) (lastDeepFragmented b)
    (mem_start b) (lock_id b) l (ready b).
Definition set_lock_id (i : Z) (b : Bitmap) : Bitmap :=
  mkBitmap (bm_bytes b) (BitmapSizeInBlocks b) (BitmapSizeInBytes b) (lastDeepFragmented b)
    (mem_start b) i (bm_lock b) (ready b).
Definition set_ready (r : bool) (b : Bitmap) : Bitmap :=
  mkBitmap (bm_bytes b) (BitmapSizeInBlocks b) (BitmapSizeInBytes b) (lastDeepFragmented b)
    (mem_start b) (lock_id b) (bm_lock b) r.

Definition BLOCK_SIZE : Z := 4096.
Definition BLOCKS_PER_BYTE : Z := 8.
Definition INVALID_BLOCK : Z := 2 ^ 64 - 1.

(** ** Operations *)

(** The loop [while (bitmap->lock)] of a single thread never ends when the
    lock is taken. *)
Definition bm_spinlock : M Bitmap unit :=
  let! l := gets bm_lock in if l then hang else ret tt.
Definition lock_bitmap : M Bitmap unit := bm_spinlock ;;; modify (set_lock true).
Definition unlock_bitmap : M Bitmap unit := modify (set_lock false).

Definition block_to_pointer (b : Bitmap) (block : Z) : Z :=
  u64 (mem_start b + u64 (block * BLOCK_SIZE)).
Definition pointer_to_block (b : Bitmap) (ptr : Z) : Z :=
  u64 (ptr - mem_start b) / BLOCK_SIZE.
Definition pointer_to_block_roundup (b : Bitmap) (ptr : Z) : Z :=
  CEILING_DIVISION (u64 (ptr - mem_start b)) BLOCK_SIZE.

Definition bitmap_get_size (totalSize : Z) : Z :=
  CEILING_DIVISION (CEILING_DIVISION totalSize BLOCK_SIZE) 8.

Definition bitmap_get (block : Z) : M Bitmap bool :=
  let! l := gets bm_bytes in
  let! x := from_option_fault (l !! Z.to_nat (block / BLOCKS_PER_BYTE)) in
  ret (byte_bit x (block mod BLOCKS_PER_BYTE)).

Definition bitmap_set (block : Z) (value : bool) : M Bitmap unit :=
  let! l := gets bm_bytes in
  let addr := Z.to_nat (block / BLOCKS_PER_BYTE) in
  let offset := block mod BLOCKS_PER_BYTE in
  let! x := from_option_fault (l !! addr) in
  modify (set_bm_bytes (<[addr := if value then byte_set x offset else byte_clear x offset]> l)).

(** The bound [start + size] of the loop wraps around. *)
Definition mark_blocks (start size : Z) (val : bool) : M Bitmap unit :=
  let! b := get in
  (if negb val && (start <? lastDeepFragmented b) then modify (set_hint start) else ret tt) ;;;
  mfor (seqZ start (u64 (start + size) - start)) (fun i => bitmap_set i val).

Definition mark_region (basePtr sizeBytes : Z) (isUsed : bool) : M Bitmap unit :=
  let! b := get in
  let base := if isUsed then pointer_to_block b basePtr
              else pointer_to_block_roundup b basePtr in
  let size := if isUsed then CEILING_DIVISION sizeBytes BLOCK_SIZE
              else sizeBytes / BLOCK_SIZE in
  mark_blocks base size isUsed.

Fixpoint find_loop (is_ : list Z) (blocks start size : Z) : M Bitmap Z :=
  match is_ with
  | [] => ret INVALID_BLOCK
  | i :: is_ =>
      let! taken := bitmap_get i in
      if taken then find_loop is_ blocks (u64 (i + 1)) 0
      else
        (if blocks =? 1 then modify (set_hint (u64 (start + 1))) else ret tt) ;;;
        let size := u64 (size + 1) in
        if blocks <=? size then ret start else find_loop is_ blocks start size
  end.

Definition find_free_region (blocks : Z) : M Bitmap Z :=
  let! b := get in
  let start := lastDeepFragmented b in
  find_loop (seqZ start (BitmapSizeInBlocks b - start)) blocks start 0.

Definition bitmap_allocate (blocks : Z) : M Bitmap Z :=
  if blocks =? 0 then ret 0
  else
    let! picked := find_free_region blocks in
    if picked =? INVALID_BLOCK then ret 0
    else
      mark_blocks picked blocks true ;;;
      gets (fun b => block_to_pointer b picked).

Definition bitmap_free (base blocks : Z) : M Bitmap unit :=
  mark_region base (u64 (BLOCK_SIZE * blocks)) false.

Definition bitmap_allocate_pageframe : M Bitmap Z :=
  let! picked := find_free_region 1 in
  mark_blocks picked 1 true ;;;
  gets (fun b => block_to_pointer b picked).

Definition bitmap_free_pageframe (addr : Z) : M Bitmap unit :=
  mark_region addr (u64 (BLOCK_SIZE * 1)) false.

(** ** The invariant *)

Definition used (b : Bitmap) (k : Z) : bool := bit (bm_bytes b) k.

Record bm_wf (b : Bitmap) : Prop := {
  wf_bytes : BitmapSizeInBytes b = zlen (bm_bytes b);
  wf_size : 0 <= BitmapSizeInBlocks b <= 8 * BitmapSizeInBytes b;
  wf_limit : BitmapSizeInBlocks b <= 2 ^ 51;
  wf_hint : 0 <= lastDeepFragmented b <= BitmapSizeInBlocks b;
  wf_below : forall k, 0 <= k < lastDeepFragmented b -> used b k = true;
}.

(** Everything but the marks and the hint. *)
Definition frame (b : Bitmap) : Z * Z * Z * Z * bool * bool :=
  (BitmapSizeInBlocks b, BitmapSizeInBytes b, mem_start b, lock_id b, bm_lock b, ready b).

(** [b'] is [b] with blocks [a .. a+n) marked [v]. *)
Record remarked (b b' : Bitmap) (a n : Z) (v : bool) : Prop := {
  rm_frame : frame b' = frame b;
  rm_len : zlen (bm_bytes b') = zlen (bm_bytes b);
  rm_used : forall k, 0 <= k -> used b' k = if decide (a <= k < a + n) then v else used b k;
}.

(** [n] blocks from [a] on are inside the bitmap and free. *)
Definition free_run (b : Bitmap) (a n : Z) : Prop :=
  0 <= a /\ a + n <= BitmapSizeInBlocks b /\ forall k, a <= k < a + n -> used b k = false.

Lemma frame_set_bytes l b : frame (set_bm_bytes l b) = frame b.
Proof. done. Qed.
Lemma frame_set_hint h b : frame (set_hint h b) = frame b.
Proof. done. Qed.

Lemma bitmap_get_ok b i :
  0 <= i < 8 * zlen (bm_bytes b) -> bitmap_get i b = Ok (used b i, b).
Proof.
  intros Hi. pose proof (bit_in_range _ _ Hi) as Hr. unfold zlen in Hr. rewrite Nat2Z.id in Hr.
  unfold bitmap_get, BLOCKS_PER_BYTE. cbn. unfold bind, from_option_fault, gets.
  destruct (lookup_lt_is_Some_2 _ _ Hr) as [x Hx]. rewrite Hx. unfold ret, used, bit.
  rewrite (list_lookup_total_correct _ _ _ Hx), byte_bit_testbit; [done|].
  apply Z.mod_pos_bound. lia.
Qed.

Definition bit_put (l : list Z) (k : Z) (v : bool) : list Z :=
  if v then bit_set l k else bit_clear l k.

Lemma bit_put_spec l k v i :
  0 <= k < 8 * zlen l -> 0 <= i ->
  bit (bit_put l k v) i = if decide (i = k) then v else bit l i.
Proof.
  intros. unfold bit_put. destruct v.
  - rewrite bit_set_spec by done. case_decide.
    + rewrite bool_decide_true by done. apply orb_true_r.
    + rewrite bool_decide_false by done. apply orb_false_r.
  - rewrite bit_clear_spec by done. case_decide.
    + rewrite bool_decide_true by done. apply andb_false_r.
    + rewrite bool_decide_false by done. apply andb_true_r.
Qed.

Lemma zlen_bit_put l k v : zlen (bit_put l k v) = zlen l.
Proof. destruct v; [apply zlen_bit_set|apply zlen_bit_clear]. Qed.

Lemma bitmap_set_ok b i v :
  0 <= i < 8 * zlen (bm_bytes b) ->
  bitmap_set i v b = Ok (tt, set_bm_bytes (bit_put (bm_bytes b) i v) b).
Proof.
  intros Hi. pose proof (bit_in_range _ _ Hi) as Hr. unfold zlen in Hr. rewrite Nat2Z.id in Hr.
  unfold bitmap_set, BLOCKS_PER_BYTE. cbn. unfold bind, from_option_fault, gets.
  destruct (lookup_lt_is_Some_2 _ _ Hr) as [x Hx]. rewrite Hx. unfold ret, modify, bit_put.
  unfold bit_set, bit_clear. rewrite (list_lookup_total_correct _ _ _ Hx). by destruct v.
Qed.

Lemma bitmap_set_fault b i v :
  8 * zlen (bm_bytes b) <= i -> bitmap_set i v b = Fault.
Proof.
  intros Hi. unfold bitmap_set, BLOCKS_PER_BYTE. cbn. unfold bind, from_option_fault, gets.
  rewrite lookup_ge_None_2; [done|]. unfold zlen in Hi.
  pose proof (Z.div_le_mono _ _ 8 ltac:(lia) Hi) as H. rewrite Z.mul_comm, Z.div_mul in H by lia. lia.
Qed.

Lemma mark_loop_ok v n a b :
  0 <= a -> a + Z.of_nat n <= 8 * zlen (bm_bytes b) ->
  exists b', mfor (seqZ a (Z.of_nat n)) (fun i => bitmap_set i v) b = Ok (tt, b') /\
    remarked b b' a (Z.of_nat n) v /\ lastDeepFragmented b' = lastDeepFragmented b.
Proof.
  revert a b. induction n as [|n IH]; intros a b Ha Hn.
  - exists b. split; [done|]. split; [|done]. split; [done..|]. intros k Hk.
    by rewrite decide_False by lia.
  - rewrite seqZ_cons by lia. cbn [mfor]. erewrite bind_ok by (apply bitmap_set_ok; lia).
    replace (Z.pred (Z.of_nat (S n))) with (Z.of_nat n) by lia.
    destruct (IH (Z.succ a) (set_bm_bytes (bit_put (bm_bytes b) a v) b)) as (b' & E & [Hf Hl Hu] & Hh);
      [lia|cbn; rewrite zlen_bit_put; lia|].
    exists b'. split; [exact E|]. split; [|exact Hh]. split; [exact Hf|by rewrite Hl; apply zlen_bit_put|].
    intros k Hk. rewrite Hu by done. unfold used at 1. cbn. rewrite bit_put_spec by lia.
    repeat case_decide; (done || lia).
Qed.

Lemma mark_blocks_ok b a n v :
  0 <= a -> 0 <= n -> a + n <= 8 * zlen (bm_bytes b) -> a + n < 2 ^ 64 ->
  exists b', mark_blocks a n v b = Ok (tt, b') /\ remarked b b' a n v /\
    lastDeepFragmented b' =
      if v then lastDeepFragmented b else Z.min a (lastDeepFragmented b).
Proof.
  intros Ha Hn Hb Hw. unfold mark_blocks. erewrite bind_ok by done.
  rewrite u64_small by lia. replace (a + n - a) with (Z.of_nat (Z.to_nat n)) by lia.
  set (b0 := if negb v && (a <? lastDeepFragmented b) then set_hint a b else b).
  rewrite (bind_ok _ _ b tt b0) by (unfold b0; by destruct (negb v && _)).
  assert (bm_bytes b0 = bm_bytes b /\ frame b0 = frame b) as [Eb Ef]
    by (unfold b0; by destruct (negb v && _)).
  destruct (mark_loop_ok v (Z.to_nat n) a b0) as (b' & E & [Hf Hl Hu] & Hh); [done|rewrite Eb; lia|].
  exists b'. split; [exact E|]. rewrite Z2Nat.id in * by done. split.
  - split; [congruence..|]. intros k Hk. rewrite Hu by done. unfold used. by rewrite Eb.
  - rewrite Hh. unfold b0. destruct v; cbn; [done|]. destruct (Z.ltb_spec a (lastDeepFragmented b)); cbn; lia.
Qed.

(** ** First fit *)

(** What a search for [n] blocks finds: the lowest run. *)
Definition lowest_run (b : Bitmap) (n : Z) (r : option Z) : Prop :=
  match r with
  | Some s => free_run b s n /\ forall a, 0 <= a < s -> ~ free_run b a n
  | None => forall a, ~ free_run b a n
  end.

(** The hint after a search that found [s]. *)
Definition hinted (b : Bitmap) (n s : Z) : Bitmap := if n =? 1 then set_hint (s + 1) b else b.

Section find.
Context (b : Bitmap) (W : bm_wf b) (n : Z) (Hn : 1 <= n).

Lemma find_loop_ok m i start :
  i = BitmapSizeInBlocks b - Z.of_nat m -> 0 <= start <= i -> i - start < n ->
  (forall k, start <= k < i -> used b k = false) ->
  (forall a, 0 <= a < start -> ~ free_run b a n) ->
  exists r, lowest_run b n r /\
    find_loop (seqZ i (Z.of_nat m)) n start (i - start) b =
      Ok (default INVALID_BLOCK r, from_option (hinted b n) b r).
Proof.
  destruct W as [W1 W2 W3 _ _].
  revert i start. induction m as [|m IH]; intros i start Ei Hs Hlt Hfree Hlow.
  - exists None. split; [|done]. intros a Hrun. pose proof Hrun as (Ha & Hr & _).
    destruct (decide (a < start)); [|lia]. by apply (Hlow a ltac:(lia)).
  - rewrite seqZ_cons by lia. cbn [find_loop].
    erewrite bind_ok by (apply bitmap_get_ok; lia).
    replace (Z.pred (Z.of_nat (S m))) with (Z.of_nat m) by lia.
    destruct (used b i) eqn:Hu.
    + rewrite u64_small by lia. rewrite <- (Z.sub_diag (i + 1)).
      change (Z.succ i) with (i + 1). apply IH; [lia..|].
      intros a Ha (_ & Hr & Hf). destruct (decide (a < start)).
      * apply (Hlow a ltac:(lia)). split_and!; [lia..|done].
      * rewrite Hf in Hu; [done|lia].
    + rewrite (u64_small (start + 1)), (u64_small (i - start + 1)) by lia.
      rewrite (bind_ok _ _ b tt (hinted b n start)) by (unfold hinted; by destruct (n =? 1)).
      destruct (Z.leb_spec n (i - start + 1)) as [Hle|Hgt].
      * exists (Some start). split; [|done]. split; [|done].
        split_and!; [lia..|]. intros k Hk. destruct (decide (k = i)); [congruence|]. apply Hfree. lia.
      * unfold hinted at 1. rewrite (proj2 (Z.eqb_neq n 1)) by lia.
        replace (i - start + 1) with (Z.succ i - start) by lia. apply IH; [lia..| |done].
        intros k Hk. destruct (decide (k = i)); [congruence|]. apply Hfree. lia.
Qed.

Lemma find_free_region_ok :
  exists r, lowest_run b n r /\
    find_free_region n b = Ok (default INVALID_BLOCK r, from_option (hinted b n) b r).
Proof.
  pose proof (wf_hint _ W) as Hh. unfold find_free_region. erewrite bind_ok by done.
  set (s := lastDeepFragmented b). fold s in Hh. rewrite <- (Z.sub_diag s).
  replace (BitmapSizeInBlocks b - s) with (Z.of_nat (Z.to_nat (BitmapSizeInBlocks b - s))) by lia.
  apply find_loop_ok; [lia..|].
  intros a Ha (_ & _ & Hf). pose proof (wf_below _ W a ltac:(lia)) as Hb.
  rewrite Hf in Hb; [done|lia].
Qed.

(** [b'] is [b] with [n] blocks from [s] on taken, the invariant kept. *)
Lemma bitmap_take_ok s :
  lowest_run b n (Some s) ->
  exists b', mark_blocks s n true (hinted b n s) = Ok (tt, b') /\
    remarked b b' s n true /\ bm_wf b'.
Proof.
  intros [(Hs & Hr & Hf) Hlow]. pose proof W as [W1 W2 W3 W4 W5].
  assert (Eb : bm_bytes (hinted b n s) = bm_bytes b /\ frame (hinted b n s) = frame b)
    by (unfold hinted; by destruct (n =? 1)). destruct Eb as [Eb Ef].
  destruct (mark_blocks_ok (hinted b n s) s n true) as (b' & E & [R1 R2 R3] & Hh);
    [lia..|rewrite Eb; lia|lia|].
  exists b'. split; [exact E|]. rewrite Ef in R1. rewrite Eb in R2.
  assert (R3' : forall k, 0 <= k -> used b' k = if decide (s <= k < s + n) then true else used b k).
  { intros k Hk. rewrite R3 by done. unfold used. by rewrite Eb. }
  split; [done|]. injection R1 as E1 E2 E3 E4 E5 E6. split; rewrite ?E1, ?E2, ?R2; try done.
  - rewrite Hh. unfold hinted. destruct (Z.eqb_spec n 1); cbn; lia.
  - rewrite Hh. intros k Hk. rewrite R3' by lia. case_decide; [done|].
    revert Hk. unfold hinted. destruct (Z.eqb_spec n 1) as [->|]; cbn; intros Hk; [|by apply W5].
    destruct (used b k) eqn:Hu; [done|]. exfalso. apply (Hlow k); [lia|].
    split_and!; [lia..|]. intros j ?. by replace j with k by lia.
Qed.

Lemma bitmap_allocate_ok :
  exists r b', bitmap_allocate n b = Ok (from_option (block_to_pointer b) 0 r, b') /\
    lowest_run b n r /\ bm_wf b' /\
    match r with Some s => remarked b b' s n true | None => b' = b end.
Proof.
  unfold bitmap_allocate. rewrite (proj2 (Z.eqb_neq n 0)) by lia.
  destruct find_free_region_ok as ([s|] & Hr & E); mrw E; cbn [default from_option id].
  - pose proof Hr as [(Hs & Hr1 & _) _]. pose proof (wf_limit _ W).
    rewrite (proj2 (Z.eqb_neq _ _)) by (unfold INVALID_BLOCK; lia).
    destruct (bitmap_take_ok s Hr) as (b' & E' & R & W'). mrw E'.
    exists (Some s), b'. split_and!; [|done..]. unfold gets. do 2 f_equal.
    pose proof (rm_frame _ _ _ _ _ R) as HF. injection HF as _ _ Hm _ _ _. unfold block_to_pointer. cbn. by rewrite Hm.
  - exists None, b. by split_and!.
Qed.

End find.

(** ** Freeing *)

Lemma pointer_of_block b s :
  0 <= s -> s * BLOCK_SIZE < 2 ^ 64 -> u64 (block_to_pointer b s - mem_start b) = s * BLOCK_SIZE.
Proof.
  intros. unfold block_to_pointer. rewrite (u64_small (s * _)) by (unfold BLOCK_SIZE in *; lia).
  unfold u64. rewrite Zminus_mod_idemp_l. replace (mem_start b + s * BLOCK_SIZE - mem_start b) with (s * BLOCK_SIZE) by lia.
  apply Z.mod_small. unfold BLOCK_SIZE in *. lia.
Qed.

(** Freeing a region: the blocks from the rounded-up start on. *)
Lemma mark_region_free_ok b ptr bytes :
  bm_wf b -> 0 <= bytes ->
  let a := pointer_to_block_roundup b ptr in let n := bytes / BLOCK_SIZE in
  a + n <= BitmapSizeInBlocks b ->
  exists b', mark_region ptr bytes false b = Ok (tt, b') /\ remarked b b' a n false /\ bm_wf b'.
Proof.
  intros [W1 W2 W3 W4 W5] Hb a n Hr. unfold mark_region. erewrite bind_ok by done. fold a n.
  assert (0 <= a).
  { apply Z.div_pos; [|done]. match goal with |- 0 <= u64 ?x => pose proof (u64_bound x) end. lia. }
  assert (0 <= n) by (apply Z.div_pos; [lia|done]).
  destruct (mark_blocks_ok b a n false) as (b' & E & R & Hh); [lia..|].
  exists b'. split_and!; [exact E|exact R|]. destruct R as [R1 R2 R3].
  injection R1 as E1 E2 E3 E4 E5 E6. split; rewrite ?E1, ?E2, ?R2, ?Hh; try done; [lia|].
  intros k Hk. rewrite R3, decide_False by lia. apply W5. lia.
Qed.

Lemma roundup_block b s :
  0 <= s < 2 ^ 51 -> pointer_to_block_roundup b (block_to_pointer b s) = s.
Proof.
  intros. unfold pointer_to_block_roundup. rewrite pointer_of_block by (unfold BLOCK_SIZE; lia).
  rewrite CEILING_DIVISION_spec by (unfold BLOCK_SIZE; lia). symmetry.
  apply Z.div_unique with (BLOCK_SIZE - 1); unfold BLOCK_SIZE; lia.
Qed.

Lemma bitmap_free_ok b s n :
  bm_wf b -> 0 <= s -> 0 < n -> s + n <= BitmapSizeInBlocks b ->
  exists b', bitmap_free (block_to_pointer b s) n b = Ok (tt, b') /\
    remarked b b' s n false /\ bm_wf b'.
Proof.
  intros W Hs Hn Hr. pose proof (wf_limit _ W). unfold bitmap_free.
  rewrite u64_small, Z.mul_comm by (unfold BLOCK_SIZE; lia).
  pose proof (mark_region_free_ok b (block_to_pointer b s) (n * BLOCK_SIZE) W) as F.
  rewrite roundup_block, Z.div_mul in F by (done || lia).
  apply F; [unfold BLOCK_SIZE; lia|done].
Qed.
