(* ===== verification/Pmm.v ===== *)
(** * The physical and virtual page allocators ([memory/pmm.cpp], [memory/vmm.cpp])

    The state of [pmm.cpp] is the bitmap [physical]; [vmm.cpp] adds the bitmap
    [_virtual] and the offset of the direct map.  The memory map handed over by
    the boot loader is a list of entries.  [boot_page_free] says which pages
    initialisation leaves free; [pmm_step] is the allocator under an arbitrary
    sequence of allocations and releases, with the regions still live. *)

From S2P Require Import Prelude Bytes Bitmap.

(** The kinds of memory [bootloader.cpp] tells apart. *)
Inductive memmap_type :=
| LIMINE_MEMMAP_USABLE
| LIMINE_MEMMAP_KERNEL_AND_MODULES
| LIMINE_MEMMAP_BOOTLOADER_RECLAIMABLE
| LIMINE_MEMMAP_OTHER.

#[export] Instance memmap_type_eq_dec : EqDecision memmap_type.
Proof. solve_decision. Defined.

Record memmap_entry := mkEntry {
  me_base : Z;
  me_length : Z;
  me_type : memmap_type;
}.

(** ** Boot: totals of the memory map *)

Definition mmTotal (entries : list memmap_entry) : Z :=
  foldl (fun t e => match me_type e with
                    | LIMINE_MEMMAP_USABLE | LIMINE_MEMMAP_BOOTLOADER_RECLAIMABLE =>
                        u64 (t + me_length e)
                    | _ => t
                    end) 0 entries.
Definition mmPhysExtent (entries : list memmap_entry) : Z :=
  foldl (fun t e => let top := u64 (me_base e + me_length e) in
                    if t <? top then top else t) 0 entries.

(** ** Physical pages *)

Definition usable (e : memmap_entry) : bool := bool_decide (me_type e = LIMINE_MEMMAP_USABLE).

(** The first entry that can hold the bitmap itself. *)
Fixpoint bitmap_entry (entries : list memmap_entry) (bytes : Z) : option memmap_entry :=
  match entries with
  | [] => None
  | e :: entries =>
      if negb (usable e) || (me_length e <? bytes) then bitmap_entry entries bytes else Some e
  end.

Definition set_sizes (blocks bytes : Z) (b : Bitmap) : Bitmap :=
  mkBitmap (bm_bytes b) blocks bytes (lastDeepFragmented b)
    (mem_start b) (lock_id b) (bm_lock b) (ready b).

Definition physical_memory_manager_initialize (total : Z) (entries : list memmap_entry)
    : M Bitmap unit :=
  modify (set_ready false) ;;;
  let blocks := CEILING_DIVISION total BLOCK_SIZE in
  let bytes := CEILING_DIVISION blocks 8 in
  modify (set_sizes blocks bytes) ;;;
  match bitmap_entry entries bytes with
  | None => halt
  | Some m =>
      modify (set_bm_bytes (replicate (Z.to_nat bytes) 255)) ;;;
      mfor entries (fun e =>
        if usable e then mark_region (me_base e) (me_length e) false else ret tt) ;;;
      mfor entries (fun e =>
        if negb (usable e) then mark_region (me_base e) (me_length e) true else ret tt) ;;;
      mark_region (me_base m) bytes true ;;;
      modify (set_ready true)
  end.

(** [int pages] becomes a [size_t]; the product in [physical_free] is an [int]
    product, whose overflow is undefined. *)
Definition physical_allocate (pages : Z) : M Bitmap Z :=
  let! phys := bitmap_allocate (u64 pages) in
  if (phys =? 0) && negb (pages =? 0) then halt else ret phys.

Definition physical_free (ptr pages : Z) : M Bitmap unit :=
  let bytes := pages * BLOCK_SIZE in
  if (- 2 ^ 31 <=? bytes) && (bytes <? 2 ^ 31)
  then mark_region ptr (u64 bytes) false else fault.

Definition physical_spinlock_acquire : M Bitmap unit :=
  modify (set_lock_id 1) ;;; lock_bitmap.
Definition physical_spinlock_release : M Bitmap unit :=
  modify (set_lock_id 0) ;;; unlock_bitmap.

(** ** Virtual pages *)

Record vmm := mkVmm {
  physical : Bitmap;
  virtual_ : Bitmap;
  hhdmOffset : Z;
}.

Definition on_physical {A} (m : M Bitmap A) : M vmm A := fun s =>
  match m (physical s) with
  | Ok (a, p) => Ok (a, mkVmm p (virtual_ s) (hhdmOffset s))
  | Halted => Halted
  | Fault => Fault
  | Hang => Hang
  end.
Definition on_virtual {A} (m : M Bitmap A) : M vmm A := fun s =>
  match m (virtual_ s) with
  | Ok (a, v) => Ok (a, mkVmm (physical s) v (hhdmOffset s))
  | Halted => Halted
  | Fault => Fault
  | Hang => Hang
  end.

Definition virtual_allocate (pages : Z) : M vmm Z :=
  let! phys := on_physical (physical_allocate pages) in
  gets (fun s => u64 (phys + hhdmOffset s)).

Definition virtual_to_physical (s : vmm) (pointer : Z) : Z := u64 (pointer - hhdmOffset s).

Definition virtual_free (ptr pages : Z) : M vmm bool :=
  let! phys := gets (fun s => virtual_to_physical s ptr) in
  if phys =? 0 then halt
  else on_physical (physical_free phys pages) ;;; ret true.

Definition VMM_POS_ENSURE : Z := 0x40000000.
Definition PAGE_SIZE : Z := 0x1000.

Definition set_mem_start (a : Z) (b : Bitmap) : Bitmap :=
  mkBitmap (bm_bytes b) (BitmapSizeInBlocks b) (BitmapSizeInBytes b) (lastDeepFragmented b)
    a (lock_id b) (bm_lock b) (ready b).

(** [int pages = pagesRequired] of the call of [virtual_allocate]. *)
Definition virtual_memory_manager_initialize (total hhdm : Z) : M vmm unit :=
  modify (fun s => mkVmm (physical s) (virtual_ s) hhdm) ;;;
  let target :=
    u64 (CEILING_DIVISION (u64 (u64 (hhdm - total) - VMM_POS_ENSURE)) PAGE_SIZE * PAGE_SIZE) in
  let blocks := CEILING_DIVISION total BLOCK_SIZE in
  let bytes := CEILING_DIVISION blocks 8 in
  on_virtual (modify (set_ready false) ;;; modify (set_mem_start target) ;;;
              modify (set_sizes blocks bytes)) ;;;
  let! _ := virtual_allocate (s32 (CEILING_DIVISION bytes BLOCK_SIZE)) in
  on_virtual (modify (set_bm_bytes (replicate (Z.to_nat bytes) 0)) ;;; modify (set_ready true)).

Definition virtual_spinlock_acquire : M vmm unit :=
  on_virtual (modify (set_lock_id 2) ;;; lock_bitmap) ;;;
  on_physical physical_spinlock_acquire.
Definition virtual_spinlock_release : M vmm unit :=
  on_virtual (modify (set_lock_id 0) ;;; unlock_bitmap) ;;;
  on_physical physical_spinlock_release.

(** The whole of [memory_initialize]. *)
Definition memory_initialize (entries : list memmap_entry) (hhdm : Z) : M vmm unit :=
  let total := mmTotal entries in
  on_physical (physical_memory_manager_initialize total entries) ;;;
  virtual_memory_manager_initialize total hhdm.

(** ** What initialisation leaves free *)

(** Page [k] lies inside the entry. *)
Definition page_inside (e : memmap_entry) (k : Z) : bool :=
  (me_base e <=? k * BLOCK_SIZE) && ((k + 1) * BLOCK_SIZE <=? me_base e + me_length e).

(** Page [k] is one of those [mark_region] takes for [len] bytes at [base]. *)
Definition page_blocked (base len k : Z) : bool :=
  (base / BLOCK_SIZE <=? k) && (k <? base / BLOCK_SIZE + CEILING_DIVISION len BLOCK_SIZE).

Definition boot_page_free (entries : list memmap_entry) (m : memmap_entry) (bytes k : Z) : bool :=
  existsb (fun e => usable e && page_inside e k) entries &&
  negb (existsb (fun e => negb (usable e) && page_blocked (me_base e) (me_length e) k) entries) &&
  negb (page_blocked (me_base m) bytes k).

(** An entry whose pages the bitmap covers; usable memory is page aligned. *)
Record entry_fits (blocks : Z) (e : memmap_entry) : Prop := {
  ef_base : 0 <= me_base e < 2 ^ 63;
  ef_length : 0 <= me_length e < 2 ^ 63;
  ef_pages : me_base e / BLOCK_SIZE + CEILING_DIVISION (me_length e) BLOCK_SIZE <= blocks;
  ef_aligned : usable e = true ->
    me_base e mod BLOCK_SIZE = 0 /\ me_length e mod BLOCK_SIZE = 0;
}.

Lemma mark_region_used_ok b ptr bytes :
  bm_wf b -> mem_start b = 0 -> 0 <= ptr < 2 ^ 64 -> 0 <= bytes < 2 ^ 63 ->
  ptr / BLOCK_SIZE + CEILING_DIVISION bytes BLOCK_SIZE <= BitmapSizeInBlocks b ->
  exists b', mark_region ptr bytes true b = Ok (tt, b') /\ bm_wf b' /\ frame b' = frame b /\
    forall k, 0 <= k -> used b' k = page_blocked ptr bytes k || used b k.
Proof.
  intros [W1 W2 W3 W4 W5] Hm Hp Hb Hr. unfold mark_region. erewrite bind_ok by done.
  unfold pointer_to_block. rewrite Hm, Z.sub_0_r, u64_small by lia.
  assert (0 <= ptr / BLOCK_SIZE) by (apply Z.div_pos; [lia|done]).
  assert (0 <= CEILING_DIVISION bytes BLOCK_SIZE).
  { rewrite CEILING_DIVISION_spec by (unfold BLOCK_SIZE; lia). apply Z.div_pos; unfold BLOCK_SIZE; lia. }
  destruct (mark_blocks_ok b (ptr / BLOCK_SIZE) (CEILING_DIVISION bytes BLOCK_SIZE) true)
    as (b' & E & [R1 R2 R3] & Hh); [lia..|].
  assert (Hu : forall k, 0 <= k -> used b' k = page_blocked ptr bytes k || used b k).
  { intros k Hk. rewrite R3 by done. unfold page_blocked.
    case_decide; destruct (Z.leb_spec (ptr / BLOCK_SIZE) k);
      destruct (Z.ltb_spec k (ptr / BLOCK_SIZE + CEILING_DIVISION bytes BLOCK_SIZE)); (done || lia). }
  exists b'. split_and!; [exact E| |exact R1|exact Hu].
  injection R1 as E1 E2 E3 E4 E5 E6. split; rewrite ?E1, ?E2, ?R2, ?Hh; try done.
  intros k Hk. rewrite Hu, W5 by lia. apply orb_true_r.
Qed.

Lemma aligned_ceiling a : 0 <= a < 2 ^ 63 -> a mod BLOCK_SIZE = 0 -> CEILING_DIVISION a BLOCK_SIZE = a / BLOCK_SIZE.
Proof.
  intros Ha Hm. rewrite CEILING_DIVISION_spec by (unfold BLOCK_SIZE; lia).
  pose proof (Z.div_mod a BLOCK_SIZE ltac:(done)). symmetry.
  apply Z.div_unique with (BLOCK_SIZE - 1); unfold BLOCK_SIZE in *; lia.
Qed.

Lemma mark_region_usable_ok b e :
  bm_wf b -> mem_start b = 0 -> entry_fits (BitmapSizeInBlocks b) e -> usable e = true ->
  exists b', mark_region (me_base e) (me_length e) false b = Ok (tt, b') /\ bm_wf b' /\
    frame b' = frame b /\
    forall k, 0 <= k -> used b' k = negb (page_inside e k) && used b k.
Proof.
  intros W Hm [F1 F2 F3 F4] Hus. destruct (F4 Hus) as [A1 A2].
  pose proof (mark_region_free_ok b (me_base e) (me_length e) W ltac:(lia)) as H. cbv zeta in H.
  unfold pointer_to_block_roundup in H.
  rewrite aligned_ceiling in F3 by done.
  rewrite Hm, Z.sub_0_r, u64_small, aligned_ceiling in H by (done || lia).
  destruct (H F3) as (b' & E & [R1 R2 R3] & W'). exists b'. split_and!; [exact E|exact W'|exact R1|].
  intros k Hk. rewrite R3 by done. unfold page_inside.
  pose proof (Z.div_mod (me_base e) BLOCK_SIZE ltac:(done)).
  pose proof (Z.div_mod (me_length e) BLOCK_SIZE ltac:(done)). unfold BLOCK_SIZE in *.
  case_decide; destruct (Z.leb_spec (me_base e) (k * 4096));
    destruct (Z.leb_spec ((k + 1) * 4096) (me_base e + me_length e)); (done || lia).
Qed.

(** The marks after a pass that sets or clears the pages [p e] of each entry. *)
Lemma mark_pass_ok (f : memmap_entry -> M Bitmap unit) (p : memmap_entry -> Z -> bool) (v : bool)
    (fr : Z * Z * Z * Z * bool * bool) entries :
  (forall b e, bm_wf b -> frame b = fr -> e ∈ entries ->
    exists b', f e b = Ok (tt, b') /\ bm_wf b' /\ frame b' = fr /\
      forall k, 0 <= k -> used b' k = if p e k then v else used b k) ->
  forall b, bm_wf b -> frame b = fr ->
  exists b', mfor entries f b = Ok (tt, b') /\ bm_wf b' /\ frame b' = fr /\
    forall k, 0 <= k -> used b' k = if existsb (fun e => p e k) entries then v else used b k.
Proof.
  induction entries as [|e entries IH]; intros Hf b W Hb; [by exists b|].
  destruct (Hf b e W Hb ltac:(by left)) as (b1 & E1 & W1 & F1 & U1).
  destruct (IH ltac:(intros b'' e'' ?? He; apply Hf; [done..|by right]) b1 W1 F1) as (b2 & E2 & W2 & F2 & U2).
  exists b2. cbn [mfor]. rewrite (bind_ok _ _ _ _ _ E1). split_and!; [done..|].
  intros k Hk. rewrite U2, U1 by done. cbn. by destruct (p e k), (existsb _ entries).
Qed.

Lemma full_bytes n k : 0 <= k < 8 * n -> bit (replicate (Z.to_nat n) 255) k = true.
Proof.
  intros Hk. unfold bit. pose proof (bit_in_range _ _ Hk).
  rewrite lookup_total_replicate_2 by done.
  pose proof (Z.mod_pos_bound k 8 ltac:(lia)).
  assert (k mod 8 = 0 \/ k mod 8 = 1 \/ k mod 8 = 2 \/ k mod 8 = 3 \/ k mod 8 = 4 \/
    k mod 8 = 5 \/ k mod 8 = 6 \/ k mod 8 = 7) as Hc by lia.
  by destruct Hc as [->|[->|[->|[->|[->|[->|[->| ->]]]]]]].
Qed.

Lemma bitmap_entry_elem entries bytes m :
  bitmap_entry entries bytes = Some m -> m ∈ entries /\ usable m = true /\ bytes <= me_length m.
Proof.
  induction entries as [|e entries IH]; cbn; [done|].
  destruct (usable e) eqn:U, (Z.ltb_spec (me_length e) bytes); cbn; intros E;
    try (destruct (IH E) as (? & ? & ?); split_and!; [by right|done..]).
  simplify_eq. split_and!; [by left|done|lia].
Qed.

(** [CEILING_DIVISION(blocks, 8)] bytes hold the bits of all blocks. *)
Lemma bitmap_sizes total :
  0 <= total <= 2 ^ 62 ->
  let blocks := CEILING_DIVISION total BLOCK_SIZE in
  let bytes := CEILING_DIVISION blocks 8 in
  0 <= blocks <= 2 ^ 51 /\ 0 <= bytes < 2 ^ 51 /\ blocks <= 8 * bytes.
Proof.
  intros Ht. cbv zeta.
  rewrite (CEILING_DIVISION_spec total) by (unfold BLOCK_SIZE; lia).
  pose proof (ceiling_bounds total BLOCK_SIZE ltac:(lia) ltac:(done)).
  set (n := (total + BLOCK_SIZE - 1) / BLOCK_SIZE) in *.
  assert (0 <= n <= 2 ^ 50 + 1) by (unfold BLOCK_SIZE in *; lia).
  rewrite (CEILING_DIVISION_spec n) by lia.
  pose proof (ceiling_bounds n 8 ltac:(lia) ltac:(lia)). lia.
Qed.

Section initialize.
Context (total : Z) (Ht : 0 <= total <= 2 ^ 62).
Context (b0 : Bitmap) (H0 : lastDeepFragmented b0 = 0) (Hs : mem_start b0 = 0).
Let blocks := CEILING_DIVISION total BLOCK_SIZE.
Let bytes := CEILING_DIVISION blocks 8.

Lemma sizes : 0 <= blocks <= 2 ^ 51 /\ 0 <= bytes < 2 ^ 51 /\ blocks <= 8 * bytes.
Proof using Ht. exact (bitmap_sizes total Ht). Qed.

(** The bitmap right after the [memset]: everything taken. *)
Definition boot_bitmap : Bitmap :=
  set_bm_bytes (replicate (Z.to_nat bytes) 255) (set_sizes blocks bytes (set_ready false b0)).

Lemma boot_bitmap_wf : bm_wf boot_bitmap.
Proof.
  destruct sizes as (? & ? & ?).
  split; cbn; rewrite ?zlen_replicate, ?H0; try lia.
Qed.

Lemma boot_bitmap_used k : 0 <= k < blocks -> used boot_bitmap k = true.
Proof.
  destruct sizes as (? & ? & ?).
  intros. apply full_bytes. lia.
Qed.

Definition clear_usable (e : memmap_entry) : M Bitmap unit :=
  if usable e then mark_region (me_base e) (me_length e) false else ret tt.
Definition take_reserved (e : memmap_entry) : M Bitmap unit :=
  if negb (usable e) then mark_region (me_base e) (me_length e) true else ret tt.

Lemma initialize_unfold entries m :
  bitmap_entry entries bytes = Some m ->
  physical_memory_manager_initialize total entries b0 =
  (mfor entries clear_usable ;;; mfor entries take_reserved ;;;
   mark_region (me_base m) bytes true ;;; modify (set_ready true)) boot_bitmap.
Proof.
  intros E. unfold physical_memory_manager_initialize.
  do 2 (erewrite bind_ok by done). fold blocks. fold bytes. rewrite E. by erewrite bind_ok by done.
Qed.

Lemma clear_pass_ok entries :
  Forall (entry_fits blocks) entries ->
  exists b', mfor entries clear_usable boot_bitmap = Ok (tt, b') /\ bm_wf b' /\
    frame b' = frame boot_bitmap /\
    forall k, 0 <= k -> used b' k =
      if existsb (fun e => usable e && page_inside e k) entries then false else used boot_bitmap k.
Proof.
  intros F. apply mark_pass_ok; [|apply boot_bitmap_wf|done].
  intros b e W Hf He. rewrite Forall_forall in F. specialize (F e He).
  pose proof Hf as Hf0. injection Hf0 as E1 E2 E3 E4 E5 E6. unfold clear_usable.
  destruct (usable e) eqn:U; [|by exists b].
  destruct (mark_region_usable_ok b e) as (b' & E & W' & Hf' & Hu);
    [done|by rewrite E3|by rewrite E1|done|].
  exists b'. split_and!; [done..|congruence|].
  intros k Hk. rewrite Hu by done. cbn. by destruct (page_inside e k).
Qed.

Lemma take_pass_ok entries b1 :
  Forall (entry_fits blocks) entries -> bm_wf b1 -> frame b1 = frame boot_bitmap ->
  exists b', mfor entries take_reserved b1 = Ok (tt, b') /\ bm_wf b' /\
    frame b' = frame boot_bitmap /\
    forall k, 0 <= k -> used b' k =
      if existsb (fun e => negb (usable e) && page_blocked (me_base e) (me_length e) k) entries
      then true else used b1 k.
Proof.
  intros F W1 F1. apply mark_pass_ok; [|done..].
  intros b e W Hf He. rewrite Forall_forall in F. destruct (F e He) as [B1 B2 B3 _].
  pose proof Hf as Hf0. injection Hf0 as E1 E2 E3 E4 E5 E6. unfold take_reserved.
  destruct (usable e) eqn:U; [by exists b|].
  destruct (mark_region_used_ok b (me_base e) (me_length e)) as (b' & E & W' & Hf' & Hu);
    [done|by rewrite E3|lia|lia|by rewrite E1|].
  exists b'. split_and!; [done..|congruence|].
  intros k Hk. rewrite Hu by done. cbn. by destruct (page_blocked _ _ k).
Qed.

Lemma initialize_ok entries m :
  Forall (entry_fits blocks) entries -> bitmap_entry entries bytes = Some m ->
  exists b', physical_memory_manager_initialize total entries b0 = Ok (tt, b') /\ bm_wf b' /\
    BitmapSizeInBlocks b' = blocks /\ mem_start b' = 0 /\ ready b' = true /\
    forall k, 0 <= k < blocks -> used b' k = negb (boot_page_free entries m bytes k).
Proof.
  intros F Em. destruct sizes as (S1 & S2 & S3).
  destruct (bitmap_entry_elem _ _ _ Em) as (Hm & Um & Lm).
  assert (Fm : entry_fits blocks m) by (rewrite Forall_forall in F; auto). destruct Fm as [M1 M2 M3 _].
  rewrite (initialize_unfold _ _ Em).
  destruct (clear_pass_ok _ F) as (b1 & E1 & W1 & F1 & U1). mrw E1.
  destruct (take_pass_ok _ _ F W1 F1) as (b2 & E2 & W2 & F2 & U2). mrw E2.
  pose proof F2 as F2'. injection F2' as G1 G2 G3 G4 G5 G6.
  assert (CEILING_DIVISION bytes BLOCK_SIZE <= CEILING_DIVISION (me_length m) BLOCK_SIZE).
  { rewrite !CEILING_DIVISION_spec by (unfold BLOCK_SIZE; lia). apply Z.div_le_mono; unfold BLOCK_SIZE; lia. }
  destruct (mark_region_used_ok b2 (me_base m) bytes) as (b3 & E3 & W3 & F3 & U3);
    [done|by rewrite G3|lia|lia|rewrite G1; fold blocks; lia|]. mrw E3.
  injection F3 as I1 I2 I3 I4 I5 I6.
  exists (set_ready true b3). split_and!; [done| |by cbn; rewrite I1, G1|by cbn; rewrite I3, G3|done|].
  - destruct W3 as [? ? ? ? ?]. by split.
  - intros k Hk. unfold boot_page_free. change (used (set_ready true b3) k) with (used b3 k).
    rewrite U3, U2, U1, boot_bitmap_used by lia.
    by destruct (page_blocked (me_base m) bytes k), (existsb _ _), (existsb _ _).
Qed.

End initialize.

(** ** Entries behind the bitmap *)

Lemma mark_loop_fault v n a b :
  0 <= a -> (1 <= n)%nat -> 8 * zlen (bm_bytes b) < a + Z.of_nat n ->
  mfor (seqZ a (Z.of_nat n)) (fun i => bitmap_set i v) b = Fault.
Proof.
  revert a b. induction n as [|n IH]; intros a b Ha Hn Hb; [lia|].
  rewrite seqZ_cons by lia. cbn [mfor].
  replace (Z.pred (Z.of_nat (S n))) with (Z.of_nat n) by lia.
  destruct (decide (8 * zlen (bm_bytes b) <= a)).
  - unfold bind. by rewrite bitmap_set_fault.
  - erewrite bind_ok by (apply bitmap_set_ok; lia). apply IH; [lia..|]. cbn. rewrite zlen_bit_put. lia.
Qed.

Lemma mark_region_fault b e :
  bm_wf b -> mem_start b = 0 -> 0 <= me_base e -> 0 < me_length e ->
  me_base e + me_length e < 2 ^ 63 ->
  me_base e mod BLOCK_SIZE = 0 -> me_length e mod BLOCK_SIZE = 0 ->
  8 * zlen (bm_bytes b) * BLOCK_SIZE < me_base e + me_length e ->
  mark_region (me_base e) (me_length e) false b = Fault.
Proof.
  intros W Hm Hb Hl Ht A1 A2 Hr. unfold mark_region. erewrite bind_ok by done.
  unfold pointer_to_block_roundup, mark_blocks. rewrite Hm, Z.sub_0_r, u64_small by lia.
  rewrite aligned_ceiling by (done || lia). erewrite bind_ok by done.
  pose proof (Z.div_mod (me_base e) BLOCK_SIZE ltac:(done)) as D1.
  pose proof (Z.div_mod (me_length e) BLOCK_SIZE ltac:(done)) as D2. rewrite A1 in D1. rewrite A2 in D2.
  set (p := me_base e / BLOCK_SIZE) in *. set (n := me_length e / BLOCK_SIZE) in *.
  unfold BLOCK_SIZE in *. rewrite (u64_small (p + n)) by lia. cbn [negb andb].
  replace (p + n - p) with (Z.of_nat (Z.to_nat n)) by lia.
  set (b1 := if p <? lastDeepFragmented b then set_hint p b else b).
  rewrite (bind_ok _ _ b tt b1) by (unfold b1; by destruct (p <? _)).
  apply mark_loop_fault; [lia..|]. assert (bm_bytes b1 = bm_bytes b) as -> by (unfold b1; by destruct (p <? _)).
  lia.
Qed.

(** ** Sequences of allocations and releases *)

(** [live]: the address and the number of pages of the regions handed out. *)
Definition pmm_state : Type := Bitmap * list (Z * Z).

Inductive pmm_step : pmm_state -> pmm_state -> Prop :=
| pmm_alloc n b p b' live :
    0 < n < 2 ^ 19 -> physical_allocate n b = Ok (p, b') ->
    pmm_step (b, live) (b', (p, n) :: live)
| pmm_free p n b b' l1 l2 :
    physical_free p n b = Ok (tt, b') ->
    pmm_step (b, l1 ++ (p, n) :: l2) (b', l1 ++ l2).

(** How many live regions contain page [k]. *)
Definition region_has (r : Z * Z) (k : Z) : bool :=
  (r.1 <=? k * BLOCK_SIZE) && (k * BLOCK_SIZE <? r.1 + r.2 * BLOCK_SIZE).
Definition owners (live : list (Z * Z)) (k : Z) : Z :=
  foldr (fun r z => Z.b2z (region_has r k) + z) 0 live.

Definition region_ok (blocks : Z) (r : Z * Z) : Prop :=
  exists s, r.1 = s * BLOCK_SIZE /\ 0 < s /\ 0 < r.2 < 2 ^ 19 /\ s + r.2 <= blocks.

(** A bitmap after boot: addresses count from 0 and page 0 is taken. *)
Record booted (b : Bitmap) : Prop := {
  bt_wf : bm_wf b;
  bt_start : mem_start b = 0;
  bt_zero : used b 0 = true;
}.

Record pmm_inv (b0 : Bitmap) (s : pmm_state) : Prop := {
  pi_wf : bm_wf s.1;
  pi_frame : frame s.1 = frame b0;
  pi_regions : Forall (region_ok (BitmapSizeInBlocks b0)) s.2;
  pi_owners : forall k, 0 <= k ->
    Z.b2z (used s.1 k) = Z.b2z (used b0 k) + owners s.2 k;
}.

Lemma owners_app l1 l2 k : owners (l1 ++ l2) k = owners l1 k + owners l2 k.
Proof. unfold owners. induction l1 as [|r l1 IH]; cbn; [done|]. rewrite IH. lia. Qed.
Lemma owners_nonneg l k : 0 <= owners l k.
Proof. unfold owners. induction l as [|r l IH]; cbn; [done|]. destruct (region_has r k); cbn; lia. Qed.

Lemma region_has_block s n k :
  region_has (s * BLOCK_SIZE, n) k = bool_decide (s <= k < s + n).
Proof.
  unfold region_has, BLOCK_SIZE. cbn [fst snd]. symmetry. case_bool_decide.
  - symmetry. apply andb_true_iff. split; [apply Z.leb_le|apply Z.ltb_lt]; lia.
  - symmetry. apply andb_false_iff. rewrite Z.leb_gt, Z.ltb_ge. lia.
Qed.

(** [physical_allocate] on a bitmap whose page 0 is taken: the lowest run, or a
    halt when there is none. *)
Lemma physical_allocate_ok b n :
  booted b -> 0 < n < 2 ^ 31 ->
  match physical_allocate n b with
  | Ok (p, b') => exists s, p = s * BLOCK_SIZE /\ 0 < s /\ lowest_run b n (Some s) /\
      remarked b b' s n true /\ bm_wf b'
  | Halted => lowest_run b n None
  | _ => False
  end.
Proof.
  intros [W Hs Hz] Hn. unfold physical_allocate. rewrite u64_small by lia.
  destruct (bitmap_allocate_ok b W n ltac:(lia)) as ([s|] & b' & E & Hr & W' & R); mrw E; cbn [from_option].
  - pose proof Hr as [(H1 & H2 & H3) _]. pose proof (wf_limit _ W).
    assert (s <> 0) by (intros ->; rewrite H3 in Hz; [done|lia]).
    unfold block_to_pointer. rewrite Hs, (u64_small (s * _)), Z.add_0_l, u64_small by (unfold BLOCK_SIZE; lia).
    rewrite (proj2 (Z.eqb_neq (s * _) 0)) by (unfold BLOCK_SIZE; lia). cbn.
    exists s. split; [done|]. split; [lia|]. split; [exact Hr|done].
  - rewrite (proj2 (Z.eqb_neq n 0)) by lia. exact Hr.
Qed.

Lemma physical_free_ok b s n :
  bm_wf b -> mem_start b = 0 -> 0 <= s -> 0 < n < 2 ^ 19 -> s + n <= BitmapSizeInBlocks b ->
  exists b', physical_free (s * BLOCK_SIZE) n b = Ok (tt, b') /\ remarked b b' s n false /\ bm_wf b'.
Proof.
  intros W Hm Hs Hn Hr. pose proof (wf_limit _ W). unfold physical_free.
  rewrite (proj2 (Z.leb_le _ _)), (proj2 (Z.ltb_lt _ _)) by (unfold BLOCK_SIZE; lia). cbn [andb].
  destruct (bitmap_free_ok b s n W Hs ltac:(lia) Hr) as (b' & E & R & W').
  exists b'. split_and!; [|done..]. rewrite <- E. unfold bitmap_free. rewrite (Z.mul_comm BLOCK_SIZE).
  f_equal. unfold block_to_pointer. by rewrite Hm, (u64_small (s * _)), Z.add_0_l, u64_small by (unfold BLOCK_SIZE; lia).
Qed.

Section steps.
Context (b0 : Bitmap) (B : booted b0).

Lemma inv_booted s : pmm_inv b0 s -> booted s.1.
Proof using B.
  intros [W F _ O]. destruct B as [_ B2 B3]. injection F as _ _ F3 _ _ _.
  split; [done|congruence|]. specialize (O 0 ltac:(lia)). rewrite B3 in O.
  pose proof (owners_nonneg s.2 0). destruct (used s.1 0); cbn in O; [done|lia].
Qed.

Lemma step_inv s s' : pmm_inv b0 s -> pmm_step s s' -> pmm_inv b0 s'.
Proof using B.
  intros I St. pose proof (inv_booted _ I) as Bs. destruct I as [W F R O].
  destruct St as [n b p b' live Hn E|p n b b' l1 l2 E]; cbn [fst snd] in *.
  - pose proof (physical_allocate_ok b n Bs ltac:(lia)) as H. rewrite E in H.
    destruct H as (s & -> & Hs & [(H1 & H2 & H3) _] & [R1 R2 R3] & W').
    pose proof F as F'. injection F' as F1 _ _ _ _ _. split; cbn [fst snd]; [done|by rewrite R1| |].
    + constructor; [|done]. exists s. cbn. split_and!; (done || lia).
    + intros k Hk. cbn [owners foldr]. fold (owners live k). rewrite region_has_block, R3 by done.
      specialize (O k Hk). destruct (decide (s <= k < s + n)); [rewrite bool_decide_true by done|rewrite bool_decide_false by done; done].
      rewrite H3 in O by done. cbn in *. lia.
  - apply Forall_app in R as [Ra Rb]. apply Forall_cons in Rb as [(s & Ep & Hs & Hn & Hr) Rb].
    cbn in Ep, Hn, Hr. subst p. pose proof F as F'. injection F' as F1 _ _ _ _ _.
    destruct (physical_free_ok b s n W (bt_start _ Bs)) as (b1 & E1 & [R1 R2 R3] & W1); [lia..|rewrite F1; lia|].
    rewrite E1 in E. injection E as ->. split; cbn [fst snd]; [done|by rewrite R1|by apply Forall_app|].
    intros k Hk. specialize (O k Hk). rewrite owners_app in *. cbn [owners foldr] in O. fold (owners l2 k) in O.
    rewrite region_has_block in O. rewrite R3 by done. pose proof (owners_nonneg l1 k). pose proof (owners_nonneg l2 k).
    destruct (decide (s <= k < s + n)).
    + rewrite bool_decide_true in O by done. destruct (used b k), (used b0 k); cbn in O |- *; lia.
    + rewrite bool_decide_false in O by done. cbn in O. lia.
Qed.

Lemma reachable_inv b live : rtc pmm_step (b0, []) (b, live) -> pmm_inv b0 (b, live).
Proof using B.
  intros Hr. cut (pmm_inv b0 (b0, [])).
  - generalize dependent (b0, @nil (Z * Z)). intros s Hs. induction Hs; eauto using step_inv.
  - split; cbn; [apply B|done|constructor|]. intros. lia.
Qed.

End steps.

(** ** Theorems *)

(** Boot.  When the bitmap covers every entry of the memory map and usable
    memory is page aligned, [physical_memory_manager_initialize] returns with
    the allocator's invariant, and a page is free exactly when it lies inside a
    usable entry, no reserved entry touches it and the bitmap itself does not
    live in it. *)
Theorem pmm_initialize_marks total entries b0 m :
  0 <= total <= 2 ^ 62 -> lastDeepFragmented b0 = 0 -> mem_start b0 = 0 ->
  let blocks := CEILING_DIVISION total BLOCK_SIZE in
  let bytes := CEILING_DIVISION blocks 8 in
  Forall (entry_fits blocks) entries ->
  bitmap_entry entries bytes = Some m ->
  exists b, physical_memory_manager_initialize total entries b0 = Ok (tt, b) /\
    bm_wf b /\ BitmapSizeInBlocks b = blocks /\ mem_start b = 0 /\ ready b = true /\
    forall k, 0 <= k < blocks -> used b k = negb (boot_page_free entries m bytes k).
Proof. intros Ht H0 Hs blocks bytes F E. by apply initialize_ok. Qed.

Definition no_bitmap : Bitmap := mkBitmap [] 0 0 0 0 0 false false.
Definition small_map : list memmap_entry :=
  [mkEntry 0 4096 LIMINE_MEMMAP_OTHER; mkEntry 4096 49152 LIMINE_MEMMAP_USABLE;
   mkEntry 53248 10000 LIMINE_MEMMAP_BOOTLOADER_RECLAIMABLE].

Lemma pmm_initialize_marks_witness :
  exists b, physical_memory_manager_initialize 65536 small_map no_bitmap = Ok (tt, b) /\
    bm_wf b /\ BitmapSizeInBlocks b = 16 /\ mem_start b = 0 /\ ready b = true /\
    forall k, 0 <= k < 16 ->
      used b k = negb (boot_page_free small_map (mkEntry 4096 49152 LIMINE_MEMMAP_USABLE) 2 k).
Proof.
  apply (pmm_initialize_marks 65536 small_map no_bitmap); [lia|done|done| |done].
  repeat apply Forall_cons_2; [..|apply Forall_nil_2]; split; cbn; try lia; done.
Defined.

(** C7: No page is handed out twice.  Along any sequence of allocations and of
    releases of live regions that starts at a booted bitmap, a page is marked
    exactly when it was taken at boot or belongs to one live region; no page
    belongs to two live regions or to a region and the boot reservation, and
    the bitmap's invariant holds throughout. *)
Theorem physical_regions_disjoint b0 b live :
  booted b0 -> rtc pmm_step (b0, []) (b, live) ->
  bm_wf b /\ Forall (region_ok (BitmapSizeInBlocks b0)) live /\
  forall k, 0 <= k -> Z.b2z (used b k) = Z.b2z (used b0 k) + owners live k.
Proof. intros B Hr. by destruct (reachable_inv b0 B b live Hr) as [? ? ? ?]. Qed.

(** Sixteen pages, the first two taken. *)
Definition ex_pages : Bitmap := mkBitmap [3; 0] 16 2 2 0 0 false true.

Lemma ex_pages_booted : booted ex_pages.
Proof.
  split; [|done..]. split; cbn; [done|lia|lia|lia|].
  intros k Hk. assert (k = 0 \/ k = 1) as [-> | ->] by lia; done.
Qed.

Lemma physical_regions_disjoint_witness :
  bm_wf (set_bm_bytes [35; 0] ex_pages) /\
  Forall (region_ok 16) [(20480, 1)] /\
  forall k, 0 <= k -> Z.b2z (used (set_bm_bytes [35; 0] ex_pages) k) =
    Z.b2z (used ex_pages k) + owners [(20480, 1)] k.
Proof.
  apply (physical_regions_disjoint ex_pages); [apply ex_pages_booted|].
  eapply rtc_l; [apply (pmm_alloc 3); [lia|vm_compute; reflexivity]|].
  eapply rtc_l; [apply (pmm_alloc 1); [lia|vm_compute; reflexivity]|].
  eapply rtc_l; [eapply (pmm_free 8192 3 _ _ [(20480, 1)] []); vm_compute; reflexivity|].
  apply rtc_refl.
Defined.

(** C37: The allocator always answers.  In every reachable state an allocation of
    [n] pages returns the lowest run of [n] free pages, or halts the machine
    exactly when there is no such run (the search hint never hides one), and
    the release of a live region returns. *)
Theorem physical_allocator_answers b0 b live :
  booted b0 -> rtc pmm_step (b0, []) (b, live) ->
  (forall n, 0 < n < 2 ^ 19 ->
     (exists s b', physical_allocate n b = Ok (s * BLOCK_SIZE, b') /\
        free_run b s n /\ (forall a, 0 <= a < s -> ~ free_run b a n) /\
        remarked b b' s n true) \/
     (physical_allocate n b = Halted /\ forall a, ~ free_run b a n)) /\
  (forall p n, (p, n) ∈ live -> exists b', physical_free p n b = Ok (tt, b')).
Proof.
  intros B Hr. pose proof (reachable_inv b0 B b live Hr) as I.
  pose proof (inv_booted b0 B _ I) as Bs. destruct I as [W F R _]. cbn [fst snd] in *.
  split; intros.
  - pose proof (physical_allocate_ok b n Bs ltac:(lia)) as H1.
    destruct (physical_allocate n b) as [[p b']| | |]; [|by right|done..].
    left. destruct H1 as (s & -> & _ & [Hf Hl] & Hm & _). eauto 10.
  - rewrite Forall_forall in R. destruct (R _ H) as (s & Ep & Hs & Hn & Hle). cbn in Ep, Hn, Hle. subst p.
    injection F as F1 _ _ _ _ _. rewrite <- F1 in Hle.
    destruct (physical_free_ok b s n W (bt_start _ Bs)) as (b' & E & _); [lia..|eauto].
Qed.

Lemma physical_allocator_answers_witness :
  (forall n, 0 < n < 2 ^ 19 ->
     (exists s b', physical_allocate n ex_pages = Ok (s * BLOCK_SIZE, b') /\
        free_run ex_pages s n /\ (forall a, 0 <= a < s -> ~ free_run ex_pages a n) /\
        remarked ex_pages b' s n true) \/
     (physical_allocate n ex_pages = Halted /\ forall a, ~ free_run ex_pages a n)) /\
  (forall p n, (p, n) ∈ @nil (Z * Z) -> exists b', physical_free p n ex_pages = Ok (tt, b')).
Proof.
  apply (physical_allocator_answers ex_pages); [apply ex_pages_booted|apply rtc_refl].
Defined.

(** The bitmap is too small for a memory map with holes.  [mmTotal] adds up
    the lengths of the entries, so a usable entry can end behind the last page
    the bitmap has a bit for; initialisation then writes outside the bitmap. *)
Theorem pmm_initialize_overruns pre e post b0 m :
  let entries := pre ++ e :: post in
  let total := mmTotal entries in
  let blocks := CEILING_DIVISION total BLOCK_SIZE in
  let bytes := CEILING_DIVISION blocks 8 in
  0 <= total <= 2 ^ 62 -> lastDeepFragmented b0 = 0 -> mem_start b0 = 0 ->
  Forall (entry_fits blocks) pre -> bitmap_entry entries bytes = Some m ->
  usable e = true -> 0 <= me_base e -> 0 < me_length e -> me_base e + me_length e < 2 ^ 63 ->
  me_base e mod BLOCK_SIZE = 0 -> me_length e mod BLOCK_SIZE = 0 ->
  8 * bytes * BLOCK_SIZE < me_base e + me_length e ->
  physical_memory_manager_initialize total entries b0 = Fault.
Proof.
  intros entries total blocks bytes Ht H0 Hs F Em U B1 B2 B3 A1 A2 Hr.
  rewrite (initialize_unfold total b0 _ _ Em). unfold entries.
  destruct (clear_pass_ok total Ht b0 H0 Hs pre F) as (b1 & E1 & W1 & F1 & _).
  unfold bind at 1. rewrite mfor_app. mrw E1. cbn [mfor]. unfold clear_usable at 1. rewrite U.
  injection F1 as G1 G2 G3 G4 G5 G6.
  unfold bind. rewrite mark_region_fault; [done|done|by rewrite G3|done..|].
  by rewrite <- (wf_bytes _ W1), G2.
Qed.

(** The memory below 640 KiB and four MiB above the first, the way a PC reports
    them. *)
Definition pc_map : list memmap_entry :=
  [mkEntry 4096 647168 LIMINE_MEMMAP_USABLE; mkEntry 1048576 4194304 LIMINE_MEMMAP_USABLE].

Lemma pmm_initialize_overruns_witness :
  physical_memory_manager_initialize (mmTotal pc_map) pc_map no_bitmap = Fault.
Proof.
  apply (pmm_initialize_overruns [mkEntry 4096 647168 LIMINE_MEMMAP_USABLE]
    (mkEntry 1048576 4194304 LIMINE_MEMMAP_USABLE) [] no_bitmap
    (mkEntry 4096 647168 LIMINE_MEMMAP_USABLE)); try done.
  apply Forall_cons_2; [|apply Forall_nil_2]. split; cbn; try lia; done.
Defined.

(** Out of page frames.  [bitmap_allocate_pageframe] does not test the result
    of the search: on a full bitmap it marks nothing and returns the address
    one page below the managed memory. *)
Theorem pageframe_when_full b :
  bm_wf b -> (forall k, 0 <= k < BitmapSizeInBlocks b -> used b k = true) ->
  bitmap_allocate_pageframe b = Ok (u64 (mem_start b - BLOCK_SIZE), b).
Proof.
  intros W Hfull. unfold bitmap_allocate_pageframe.
  destruct (find_free_region_ok b W 1 ltac:(lia)) as ([s|] & Hr & E); mrw E; cbn [default from_option id].
  - destruct Hr as [(H1 & H2 & H3) _]. pose proof (Hfull s ltac:(lia)) as Hu. rewrite H3 in Hu; [done|lia].
  - rewrite (bind_ok _ _ b tt b) by done. unfold gets, block_to_pointer, INVALID_BLOCK. do 2 f_equal.
    replace ((2 ^ 64 - 1) * BLOCK_SIZE) with (- BLOCK_SIZE + BLOCK_SIZE * 2 ^ 64) by (unfold BLOCK_SIZE; lia).
    unfold u64. rewrite Z_mod_plus_full, Z.add_mod_idemp_r by lia. f_equal.
Qed.

Lemma pageframe_when_full_witness :
  bitmap_allocate_pageframe (mkBitmap [255] 8 1 3 1048576 0 false true) =
  Ok (1044480, mkBitmap [255] 8 1 3 1048576 0 false true).
Proof.
  apply pageframe_when_full.
  - split; cbn; try lia; [done|].
    intros k Hk. assert (k = 0 \/ k = 1 \/ k = 2) as [->|[->| ->]] by lia; done.
  - intros k Hk. apply (full_bytes 1). cbn in Hk. lia.
Defined.

(** [virtual_free] undoes [virtual_allocate]: the pointer of the direct map
    leads back to the physical pages, and releasing them restores every mark. *)
Theorem virtual_alloc_free_roundtrip s n v s' :
  booted (physical s) -> 0 <= hhdmOffset s < 2 ^ 64 -> 0 < n < 2 ^ 19 ->
  virtual_allocate n s = Ok (v, s') ->
  exists s'', virtual_free v n s' = Ok (true, s'') /\ bm_wf (physical s'') /\
    virtual_ s'' = virtual_ s /\
    forall k, 0 <= k -> used (physical s'') k = used (physical s) k.
Proof.
  intros B Hh Hn E. unfold virtual_allocate in E. minv E. unfold gets in E. simplify_eq.
  unfold on_physical in E0. pose proof (physical_allocate_ok (physical s) n B ltac:(lia)) as H.
  destruct (physical_allocate n (physical s)) as [[p b']| | |]; simplify_eq.
  destruct H as (k0 & -> & Hk0 & [(H1 & H2 & H3) _] & [R1 R2 R3] & W'). cbn [hhdmOffset].
  pose proof (wf_limit _ (bt_wf _ B)). injection R1 as G1 G2 G3 G4 G5 G6.
  destruct (physical_free_ok b' k0 n W') as (b'' & E & [_ _ R3'] & W'');
    [by rewrite G3, (bt_start _ B)|lia|lia|rewrite G1; lia|].
  unfold virtual_free. erewrite bind_ok by done. unfold virtual_to_physical. cbn [hhdmOffset].
  assert (u64 (u64 (k0 * BLOCK_SIZE + hhdmOffset s) - hhdmOffset s) = k0 * BLOCK_SIZE) as ->.
  { unfold u64. rewrite Zminus_mod_idemp_l, Z.add_simpl_r. apply Z.mod_small. unfold BLOCK_SIZE; lia. }
  rewrite (proj2 (Z.eqb_neq _ 0)) by (unfold BLOCK_SIZE; lia).
  unfold bind, on_physical. cbn [physical]. rewrite E.
  eexists. split_and!; [done|done|done|]. cbn [physical]. intros k Hk. rewrite R3', R3 by done.
  destruct (decide (k0 <= k < k0 + n)); [by rewrite H3|done].
Qed.

Lemma virtual_alloc_free_roundtrip_witness :
  let s' := mkVmm (set_bm_bytes [31; 0] ex_pages) no_bitmap 0xffff800000000000 in
  exists s'', virtual_free 0xffff800000002000 3 s' = Ok (true, s'') /\ bm_wf (physical s'') /\
    virtual_ s'' = no_bitmap /\
    forall k, 0 <= k -> used (physical s'') k = used ex_pages k.
Proof.
  apply (virtual_alloc_free_roundtrip (mkVmm ex_pages no_bitmap 0xffff800000000000) 3 0xffff800000002000);
    [apply ex_pages_booted|cbn; lia|lia|vm_compute; reflexivity].
Defined.
