(* ===== verification/Spinlock.v ===== *)
(** * Spinlocks ([multitasking/spinlock.cpp])

    The plain [Spinlock] and the counting reader/writer lock [SpinlockCnt], as
    functions on the lock word, and the machines of tasks that use them: one in
    which an acquire (its test and its update) runs without interruption, one in
    which the scheduler may switch between the test and the update. *)

From S2P Require Import Prelude.

(** ** The lock operations

    The counter is a 64-bit signed integer in the source; a [Z] is as good as long as
    fewer than 2^63 tasks hold the lock. *)

Definition IS_NOT_LOCKED : bool := false.

(** [while (lock->locked) hand_control();] and nothing else: the loop leaves with
    the word it found.  [Hang]: nobody else runs, so the loop does not end. *)
Definition spinlock_acquire (locked : bool) : outcome bool :=
  if locked then Hang else Ok locked.
Definition spinlock_release (locked : bool) : outcome bool := Ok IS_NOT_LOCKED.

Definition spinlock_cnt_read_acquire (cnt : Z) : outcome Z :=
  if cnt <? 0 then Hang else Ok (cnt + 1).
Definition spinlock_cnt_read_release (cnt : Z) : outcome Z :=
  if cnt <? 0 then Halted else Ok (cnt - 1).
Definition spinlock_cnt_write_acquire (cnt : Z) : outcome Z :=
  if negb (cnt =? 0) then Hang else Ok (-1).
Definition spinlock_cnt_write_release (cnt : Z) : outcome Z :=
  if negb (cnt =? -1) then Halted else Ok 0.

(** ** Tasks sharing one counting lock *)

Inductive tstate :=
| Idle
| ReadPassed   (* left the read-acquire loop, has not incremented yet *)
| Reading
| WritePassed  (* left the write-acquire loop, has not stored -1 yet *)
| Writing.
#[export] Instance tstate_eq_dec : EqDecision tstate.
Proof. solve_decision. Defined.

Definition machine : Type := Z * list tstate.

Definition count (t : tstate) (ts : list tstate) : Z :=
  Z.of_nat (length (filter (fun x => x = t) ts)).

Definition start (n : nat) : machine := (0, replicate n Idle).

(** Acquire and release without interruption. *)
Inductive atomic_step : machine -> machine -> Prop :=
| as_read_acquire i cnt cnt' ts :
    ts !! i = Some Idle -> spinlock_cnt_read_acquire cnt = Ok cnt' ->
    atomic_step (cnt, ts) (cnt', <[i := Reading]> ts)
| as_read_release i cnt cnt' ts :
    ts !! i = Some Reading -> spinlock_cnt_read_release cnt = Ok cnt' ->
    atomic_step (cnt, ts) (cnt', <[i := Idle]> ts)
| as_write_acquire i cnt cnt' ts :
    ts !! i = Some Idle -> spinlock_cnt_write_acquire cnt = Ok cnt' ->
    atomic_step (cnt, ts) (cnt', <[i := Writing]> ts)
| as_write_release i cnt cnt' ts :
    ts !! i = Some Writing -> spinlock_cnt_write_release cnt = Ok cnt' ->
    atomic_step (cnt, ts) (cnt', <[i := Idle]> ts).

(** The same operations with the test of the acquire loop and the update of the
    counter as two steps of the task. *)
Inductive split_step : machine -> machine -> Prop :=
| ss_read_test i cnt ts :
    ts !! i = Some Idle -> spinlock_cnt_read_acquire cnt <> Hang ->
    split_step (cnt, ts) (cnt, <[i := ReadPassed]> ts)
| ss_read_update i cnt ts :
    ts !! i = Some ReadPassed -> split_step (cnt, ts) (cnt + 1, <[i := Reading]> ts)
| ss_write_test i cnt ts :
    ts !! i = Some Idle -> spinlock_cnt_write_acquire cnt <> Hang ->
    split_step (cnt, ts) (cnt, <[i := WritePassed]> ts)
| ss_write_update i cnt ts :
    ts !! i = Some WritePassed -> split_step (cnt, ts) (-1, <[i := Writing]> ts)
| ss_read_release i cnt cnt' ts :
    ts !! i = Some Reading -> spinlock_cnt_read_release cnt = Ok cnt' ->
    split_step (cnt, ts) (cnt', <[i := Idle]> ts)
| ss_write_release i cnt cnt' ts :
    ts !! i = Some Writing -> spinlock_cnt_write_release cnt = Ok cnt' ->
    split_step (cnt, ts) (cnt', <[i := Idle]> ts).

Inductive plain_state := Outside | Inside.

(** Tasks that bracket a critical section with [spinlock_acquire]/[release]. *)
Inductive plain_step : bool * list plain_state -> bool * list plain_state -> Prop :=
| ps_acquire i l l' ts :
    ts !! i = Some Outside -> spinlock_acquire l = Ok l' ->
    plain_step (l, ts) (l', <[i := Inside]> ts)
| ps_release i l l' ts :
    ts !! i = Some Inside -> spinlock_release l = Ok l' ->
    plain_step (l, ts) (l', <[i := Outside]> ts).

(** ** The invariant of the uninterrupted machine *)

Definition lock_inv (m : machine) : Prop :=
  (m.1 = count Reading m.2 /\ count Writing m.2 = 0) \/
  (m.1 = -1 /\ count Reading m.2 = 0 /\ count Writing m.2 = 1).

Lemma count_nonneg t ts : 0 <= count t ts.
Proof. unfold count. lia. Qed.

Lemma count_insert t ts i a b :
  ts !! i = Some a ->
  count t (<[i := b]> ts) =
    count t ts - (if decide (a = t) then 1 else 0) + (if decide (b = t) then 1 else 0).
Proof.
  intros Hi. unfold count. pose proof (lookup_lt_Some _ _ _ Hi).
  rewrite insert_take_drop by done.
  rewrite <- (take_drop_middle ts i a Hi) at 3.
  rewrite !filter_app, !length_app, !filter_cons.
  repeat case_decide; simpl; lia.
Qed.

Lemma count_start t n : t <> Idle -> count t (replicate n Idle) = 0.
Proof.
  intros. unfold count. induction n as [|n IH]; [done|].
  rewrite replicate_S, filter_cons, decide_False by congruence. done.
Qed.

(** One step of the proof that a transition keeps the invariant. *)
Ltac lock_case :=
  unfold lock_inv in *; simpl in *;
  repeat match goal with
  | H : ?ts !! _ = Some _ |- context [count ?t (<[_ := _]> ?ts)] =>
      rewrite (count_insert t _ _ _ _ H)
  end; repeat (case_decide; try congruence).

Lemma lock_inv_step m m' : lock_inv m -> atomic_step m m' -> lock_inv m'.
Proof.
  intros Hinv Hstep. destruct Hstep as [i c c' ts Hi Hop|i c c' ts Hi Hop|
      i c c' ts Hi Hop|i c c' ts Hi Hop];
    unfold spinlock_cnt_read_acquire, spinlock_cnt_read_release,
      spinlock_cnt_write_acquire, spinlock_cnt_write_release in Hop;
    case_match eqn:E; simplify_eq; lock_case;
    rewrite ?negb_false_iff, ?Z.eqb_eq, ?Z.ltb_ge in E;
    pose proof (count_nonneg Reading ts); lia.
Qed.

Lemma lock_inv_reachable n m : rtc atomic_step (start n) m -> lock_inv m.
Proof.
  intros H. remember (start n) as m0 eqn:E0.
  assert (H0 : lock_inv m0).
  { subst. left. simpl. by rewrite !count_start. }
  clear E0. induction H; eauto using lock_inv_step.
Qed.

Lemma count_zero_lookup t ts i : count t ts = 0 -> ts !! i <> Some t.
Proof.
  intros H Hi. pose proof (count_insert t ts i t t Hi).
  assert (t ∈ filter (fun x => x = t) ts).
  { apply list_elem_of_filter. split; [done|]. by apply list_elem_of_lookup_2 with i. }
  unfold count in H. destruct (filter _ ts); [set_solver|simpl in H; lia].
Qed.

(** ** Properties *)

(** C39: in every state reachable without interrupting an acquire there is at
    most one writer, a writer excludes readers, and no release stops the
    machine. *)
Theorem cnt_lock_exclusion n cnt ts :
  rtc atomic_step (start n) (cnt, ts) ->
  count Writing ts <= 1 /\
  (count Writing ts = 1 -> count Reading ts = 0) /\
  (forall i, ts !! i = Some Reading -> spinlock_cnt_read_release cnt <> Halted) /\
  (forall i, ts !! i = Some Writing -> spinlock_cnt_write_release cnt <> Halted).
Proof.
  intros H%lock_inv_reachable. unfold lock_inv in H. simpl in H.
  pose proof (count_nonneg Reading ts).
  split_and!; [lia|lia| |]; intros i Hi.
  - unfold spinlock_cnt_read_release. destruct (Z.ltb_spec cnt 0); [|done].
    pose proof (count_zero_lookup Reading ts i). destruct H as [?|(_ & ? & _)]; [lia|tauto].
  - unfold spinlock_cnt_write_release. destruct (Z.eqb_spec cnt (-1)); [done|].
    pose proof (count_zero_lookup Writing ts i). destruct H as [[_ ?]|?]; [tauto|lia].
Qed.

Lemma cnt_lock_exclusion_witness :
  rtc atomic_step (start 3) (-1, [Idle; Writing; Idle]) /\
  (count Writing [Idle; Writing; Idle] = 1 -> count Reading [Idle; Writing; Idle] = 0).
Proof.
  assert (H : rtc atomic_step (start 3) (-1, [Idle; Writing; Idle])).
  { eapply rtc_l; [by apply (as_read_acquire 0)|]. eapply rtc_l; [by apply (as_read_release 0)|].
    eapply rtc_l; [by apply (as_write_acquire 1)|]. apply rtc_refl. }
  split; [exact H|]. exact (proj1 (proj2 (cnt_lock_exclusion 3 (-1) [Idle; Writing; Idle] H))).
Defined.

(** when the scheduler may run between the test of an acquire loop and the
    update, two tasks can hold the write lock at the same time. *)
Theorem cnt_lock_split_race :
  rtc split_step (start 2) (-1, [Writing; Writing]).
Proof.
  eapply rtc_l; [apply (ss_write_test 0); [done|vm_compute; congruence]|].
  eapply rtc_l; [apply (ss_write_test 1); [done|vm_compute; congruence]|].
  eapply rtc_l; [apply (ss_write_update 0); done|].
  eapply rtc_l; [apply (ss_write_update 1); done|]. apply rtc_refl.
Qed.

Lemma plain_reach n k l :
  (k <= n)%nat -> l = IS_NOT_LOCKED ->
  rtc plain_step (l, replicate n Outside)
    (l, replicate k Inside ++ replicate (n - k) Outside).
Proof.
  intros Hk ->. induction k as [|k IH]; [by rewrite Nat.sub_0_r|].
  eapply rtc_r; [apply IH; lia|].
  replace (replicate (S k) Inside ++ replicate (n - S k) Outside)
    with (<[k := Inside]> (replicate k Inside ++ replicate (n - k) Outside)).
  - apply ps_acquire; [|done]. rewrite lookup_app_r by (rewrite length_replicate; lia).
    rewrite length_replicate. rewrite Nat.sub_diag. rewrite lookup_replicate_2; [done|lia].
  - rewrite insert_app_r_alt by (rewrite length_replicate; lia).
    rewrite length_replicate, Nat.sub_diag.
    replace (n - k)%nat with (S (n - S k)) by lia. simpl.
    by rewrite cons_middle, app_assoc, <- replicate_cons_app.
Qed.

(** [spinlock_acquire] never sets the lock word, so any number of tasks can be
    inside the section it brackets. *)
Theorem spinlock_no_exclusion n :
  rtc plain_step (IS_NOT_LOCKED, replicate n Outside) (IS_NOT_LOCKED, replicate n Inside).
Proof.
  pose proof (plain_reach n n IS_NOT_LOCKED ltac:(lia) eq_refl) as H.
  by rewrite Nat.sub_diag, app_nil_r in H.
Qed.
