(* ===== verification/Paging.v ===== *)
(** * Page tables ([memory/paging.cpp], [include/kernel/memory/paging.h])

    The four-level tables live in physical memory, which the kernel reaches
    through the direct map at [hhdmOffset]; [ram] holds the 64-bit words by
    physical address.  Table pages come from [physical_allocate].  [walk] and
    [leaf] read a table tree as a function from index paths.

    Every directory of the kernel is the boot loader's or a copy of it: its upper
    half holds the direct map of all memory, partly in full-size entries, and the
    kernel's image; its lower half is the user's.  [pt_wf] is the invariant of
    such a directory.  Of the lower half it asks that no table page is reached
    twice, aliased by a mapping or free in the bitmap and that no entry is of
    full size; of the upper half only that its tables are not free and not pages
    of the lower half.  What the upper half maps is not restricted. *)

From S2P Require Import Prelude Bytes Spinlock Bitmap Pmm.

(** ** Constants and address macros *)

Definition PF_PRESENT : Z := 1.
Definition PF_RW : Z := 2.
Definition PF_USER : Z := 4.
Definition PF_PS : Z := 128.
Definition PF_SHARED : Z := 512.

Definition AMD64_MM_STRIPSX (a : Z) : Z := Z.land a 0xFFFFFFFFFFFF.
Definition PGMASK_ENTRY : Z := 0x1ff.
Definition PML4E (a : Z) : Z := Z.land (Z.shiftr a 39) PGMASK_ENTRY.
Definition PDPTE (a : Z) : Z := Z.land (Z.shiftr a 30) PGMASK_ENTRY.
Definition PDE (a : Z) : Z := Z.land (Z.shiftr a 21) PGMASK_ENTRY.
Definition PTE (a : Z) : Z := Z.land (Z.shiftr a 12) PGMASK_ENTRY.
Definition PTE_ADDR_MASK : Z := 0x000ffffffffff000.
Definition PTE_GET_ADDR (v : Z) : Z := Z.land v PTE_ADDR_MASK.
Definition P_PHYS_ADDR (x : Z) : Z := Z.land x (Z.lnot 0xFFF).
Definition BITS_TO_VIRT_ADDR (i4 i3 i2 i1 : Z) : Z :=
  Z.lor (Z.lor (Z.lor (Z.shiftl i4 39) (Z.shiftl i3 30)) (Z.shiftl i2 21)) (Z.shiftl i1 12).

Definition has_flag (e f : Z) : bool := negb (Z.land e f =? 0).

(** ** State *)

(** [boot_extent] is [bootloader.mmPhysExtent]; the offset of the direct map is
    the one [vmm] keeps, both copies of the value the boot loader reports. *)
Record mmu := mkMmu {
  vm : vmm;
  ram : gmap Z Z;
  globalPagedir : Z;
  cr3 : Z;
  wlock_paging : Z;
  boot_extent : Z;
}.

Definition hhdm (s : mmu) : Z := hhdmOffset (vm s).
Definition set_vm (v : vmm) (s : mmu) : mmu :=
  mkMmu v (ram s) (globalPagedir s) (cr3 s) (wlock_paging s) (boot_extent s).
Definition set_ram (r : gmap Z Z) (s : mmu) : mmu :=
  mkMmu (vm s) r (globalPagedir s) (cr3 s) (wlock_paging s) (boot_extent s).
Definition set_pagedir (p : Z) (s : mmu) : mmu :=
  mkMmu (vm s) (ram s) p (cr3 s) (wlock_paging s) (boot_extent s).
Definition set_cr3 (p : Z) (s : mmu) : mmu :=
  mkMmu (vm s) (ram s) (globalPagedir s) p (wlock_paging s) (boot_extent s).
Definition set_wlock (c : Z) (s : mmu) : mmu :=
  mkMmu (vm s) (ram s) (globalPagedir s) (cr3 s) c (boot_extent s).

Definition on_vm {A} (m : M vmm A) : M mmu A := fun s =>
  match m (vm s) with
  | Ok (a, v) => Ok (a, set_vm v s)
  | Halted => Halted
  | Fault => Fault
  | Hang => Hang
  end.
Definition on_wlock (f : Z -> outcome Z) : M mmu unit := fun s =>
  match f (wlock_paging s) with
  | Ok c => Ok (tt, set_wlock c s)
  | Halted => Halted
  | Fault => Fault
  | Hang => Hang
  end.

(** Element [i] of the table the pointer [table] of the direct map leads to. *)
Definition word_address (s : mmu) (table i : Z) : Z := u64 (u64 (table + 8 * i) - hhdm s).
Definition table_get (table i : Z) : M mmu Z :=
  gets (fun s => default 0 (ram s !! word_address s table i)).
Definition table_set (table i x : Z) : M mmu unit :=
  modify (fun s => set_ram (<[word_address s table i := x]> (ram s)) s).

(** [memset(virt, 0, PAGE_SIZE)] *)
Definition page_zero (virt : Z) : M mmu unit :=
  mfor (seqZ 0 512) (fun i => table_set virt i 0).

(** ** Operations *)

Definition paging_initialize : M mmu unit :=
  let! pdPhys := gets cr3 in
  if pdPhys =? 0 then halt
  else modify (fun s => set_pagedir (u64 (pdPhys + hhdm s)) s).

Definition paging_physical_allocate : M mmu Z :=
  let! phys := on_vm (on_physical (physical_allocate 1)) in
  let! h := gets hhdm in
  page_zero (u64 (phys + h)) ;;;
  ret phys.

(** One level: allocate the next table when the entry is empty, then follow it. *)
Definition next_table (table i : Z) : M mmu Z :=
  let! e := table_get table i in
  (if negb (has_flag e PF_PRESENT) then
     let! target := paging_physical_allocate in
     table_set table i (Z.lor (Z.lor (Z.lor target PF_PRESENT) PF_RW) PF_USER)
   else ret tt) ;;;
  let! e := table_get table i in
  gets (fun s => u64 (PTE_GET_ADDR e + hhdm s)).

Definition virtual_mapL (pagedir virt_addr phys_addr flags : Z) : M mmu unit :=
  if negb (virt_addr mod PAGE_SIZE =? 0) then halt
  else
    let virt_addr := AMD64_MM_STRIPSX virt_addr in
    on_wlock spinlock_cnt_write_acquire ;;;
    let! pdp := next_table pagedir (PML4E virt_addr) in
    let! pd := next_table pdp (PDPTE virt_addr) in
    let! pt := next_table pd (PDE virt_addr) in
    let! e := table_get pt (PTE virt_addr) in
    (if has_flag e PF_PRESENT then on_vm (on_physical (physical_free (PTE_GET_ADDR e) 1))
     else ret tt) ;;;
    table_set pt (PTE virt_addr) (Z.lor (Z.lor (P_PHYS_ADDR phys_addr) PF_PRESENT) flags) ;;;
    on_wlock spinlock_cnt_write_release.

Definition virtual_map (virt_addr phys_addr flags : Z) : M mmu unit :=
  let! pd := gets globalPagedir in
  virtual_mapL pd virt_addr phys_addr flags.

(** [i * PAGE_SIZE] is an [int] product. *)
Definition virtual_map_region_by_length (virt_addr phys_addr length flags : Z) : M mmu unit :=
  mfor (seqZ 0 (u32 (CEILING_DIVISION length PAGE_SIZE))) (fun i =>
    if i * PAGE_SIZE <? 2 ^ 31
    then virtual_map (u64 (virt_addr + i * PAGE_SIZE)) (u64 (phys_addr + i * PAGE_SIZE)) flags
    else fault).

(** One level of the lookup: the next table, or [None] when nothing is mapped. *)
Definition look_table (table i : Z) : M mmu (option Z) :=
  let! e := table_get table i in
  if negb (has_flag e PF_PRESENT) then ret None
  else gets (fun s => Some (u64 (PTE_GET_ADDR e + hhdm s))).

Definition paging_virtual_to_physical (virt_addr : Z) : M mmu Z :=
  let! s := get in
  if globalPagedir s =? 0 then ret 0
  else if (hhdm s <=? virt_addr) && (virt_addr <? u64 (hhdm s + boot_extent s)) then
    ret (u64 (virt_addr - hhdm s))
  else
    let virt_addr_init := virt_addr in
    let virt_addr := AMD64_MM_STRIPSX (Z.land virt_addr (Z.lnot 0xFFF)) in
    on_wlock spinlock_cnt_read_acquire ;;;
    let! r :=
      let! pdp := look_table (globalPagedir s) (PML4E virt_addr) in
      match pdp with
      | None => ret 0
      | Some pdp =>
          let! pd := look_table pdp (PDPTE virt_addr) in
          match pd with
          | None => ret 0
          | Some pd =>
              let! pt := look_table pd (PDE virt_addr) in
              match pt with
              | None => ret 0
              | Some pt =>
                  let! e := table_get pt (PTE virt_addr) in
                  if has_flag e PF_PRESENT
                  then ret (u64 (PTE_GET_ADDR e + Z.land virt_addr_init 0xFFF)) else ret 0
              end
          end
      end in
    on_wlock spinlock_cnt_read_release ;;;
    ret r.

(** The task of [change_page_directory] is not involved in these two. *)
Definition change_page_directory_unsafe (pd : Z) : M mmu unit :=
  let! targ := paging_virtual_to_physical pd in
  if targ =? 0 then halt
  else modify (set_cr3 targ) ;;; modify (set_pagedir pd).

Definition change_page_directory_fake (pd : Z) : M mmu unit :=
  let! s := get in
  if virtual_to_physical (vm s) pd =? 0 then halt else modify (set_pagedir pd).

(** [model] is the page directory of the kernel task. *)
Definition page_directory_allocate (tasksInitiated : bool) (model : Z) : M mmu Z :=
  if negb tasksInitiated then halt
  else
    let! out := on_vm (virtual_allocate 1) in
    page_zero out ;;;
    mfor (seqZ 0 512) (fun i => let! e := table_get model i in table_set out i e) ;;;
    ret out.

(** The loops over the present, not full-size entries of a table. *)
Definition for_tables (table : Z) (f : Z -> Z -> M mmu unit) : M mmu unit :=
  mfor (seqZ 0 512) (fun i =>
    let! e := table_get table i in
    if negb (has_flag e PF_PRESENT) || has_flag e PF_PS then ret tt
    else let! h := gets hhdm in f i (u64 (PTE_GET_ADDR e + h))).

(** The innermost loop, over the user mappings of one table. *)
Definition for_user_pages (pt : Z) (f : Z -> Z -> M mmu unit) : M mmu unit :=
  mfor (seqZ 0 512) (fun i =>
    let! e := table_get pt i in
    if negb (has_flag e PF_PRESENT) || has_flag e PF_PS then ret tt
    else if negb (has_flag e PF_USER) then ret tt
    else f i e).

Definition page_directory_free (page_dir : Z) : M mmu unit :=
  on_wlock spinlock_cnt_write_acquire ;;;
  for_tables page_dir (fun _ pdp =>
    for_tables pdp (fun _ pd =>
      for_tables pd (fun _ pt =>
        for_user_pages pt (fun _ e =>
          on_vm (on_physical (physical_free (PTE_GET_ADDR e) 1)))))) ;;;
  on_wlock spinlock_cnt_write_release.

(** [memcpy(ptrTarget, ptrSource, PAGE_SIZE)] *)
Definition page_copy (target source : Z) : M mmu unit :=
  mfor (seqZ 0 512) (fun i => let! x := table_get source i in table_set target i x).

Definition page_directory_user_duplicate (source target : Z) : M mmu unit :=
  on_wlock spinlock_cnt_read_acquire ;;;
  for_tables source (fun i4 pdp =>
    for_tables pdp (fun i3 pd =>
      for_tables pd (fun i2 pt =>
        for_user_pages pt (fun i1 e =>
          let physSource := PTE_GET_ADDR e in
          let! physTarget :=
            if has_flag e PF_SHARED then ret physSource else paging_physical_allocate in
          let virt := BITS_TO_VIRT_ADDR i4 i3 i2 i1 in
          let! h := gets hhdm in
          page_copy (u64 (physTarget + h)) (u64 (physSource + h)) ;;;
          on_wlock spinlock_cnt_read_release ;;;
          virtual_mapL target virt physTarget (Z.lor PF_RW PF_USER) ;;;
          on_wlock spinlock_cnt_read_acquire)))) ;;;
  on_wlock spinlock_cnt_read_release.

(** ** Entries and indices *)

Lemma has_flag_bit e n : 0 <= n -> has_flag e (2 ^ n) = Z.testbit e n.
Proof. intros. rewrite <- Z.shiftl_1_l. by apply byte_bit_testbit. Qed.

Lemma present_bit e : has_flag e PF_PRESENT = Z.testbit e 0.
Proof. apply (has_flag_bit e 0). lia. Qed.

Lemma mask_bit n : 0 <= n -> Z.testbit PTE_ADDR_MASK n = bool_decide (12 <= n < 52).
Proof.
  intros. change PTE_ADDR_MASK with (Z.shiftl (Z.ones 40) 12).
  rewrite Z.shiftl_spec, Z.testbit_ones by lia.
  destruct (Z.leb_spec 0 (n - 12)), (Z.ltb_spec (n - 12) 40); symmetry;
    (apply bool_decide_eq_true + apply bool_decide_eq_false); lia.
Qed.

Lemma PTE_GET_ADDR_eq e : PTE_GET_ADDR e = e / 4096 mod 2 ^ 40 * 4096.
Proof.
  change 4096 with (2 ^ 12). rewrite <- Z.shiftr_div_pow2, <- Z.land_ones, <- Z.shiftl_mul_pow2 by lia.
  apply Z.bits_inj'. intros n Hn. unfold PTE_GET_ADDR.
  rewrite Z.land_spec, mask_bit, Z.shiftl_spec by lia.
  destruct (decide (12 <= n)) as [H|H].
  - rewrite Z.land_spec, Z.shiftr_spec, Z.testbit_ones by lia.
    replace (n - 12 + 12) with n by lia. f_equal.
    destruct (Z.leb_spec 0 (n - 12)), (Z.ltb_spec (n - 12) 40);
      (apply bool_decide_eq_true + apply bool_decide_eq_false); lia.
  - rewrite bool_decide_false by lia. rewrite andb_false_r. symmetry. apply Z.testbit_neg_r. lia.
Qed.

Lemma PTE_GET_ADDR_bounds e :
  0 <= PTE_GET_ADDR e < 2 ^ 52 /\ PTE_GET_ADDR e mod 4096 = 0.
Proof.
  rewrite PTE_GET_ADDR_eq. pose proof (Z.mod_pos_bound (e / 4096) (2 ^ 40) ltac:(lia)).
  rewrite Z.mod_mul by lia. lia.
Qed.

(** A page address with flag bits below it. *)
Lemma lor_page a f : a mod 4096 = 0 -> 0 <= f < 4096 -> Z.lor a f = a + f.
Proof.
  intros Ha Hf. assert (a = Z.shiftl (a / 4096) 12) as ->.
  { rewrite Z.shiftl_mul_pow2 by lia. change (2 ^ 12) with 4096. pose proof (Z.div_mod a 4096). lia. }
  assert (Hd : Z.land (Z.shiftl (a / 4096) 12) f = 0).
  { apply Z.bits_inj_0. intros n. rewrite Z.land_spec. destruct (decide (n < 12)).
    - by rewrite Z.shiftl_spec_low.
    - rewrite (Z.bits_above_log2 f n), andb_false_r; [done|lia|].
      destruct (decide (f = 0)) as [->|]; [cbn; lia|]. pose proof (proj1 (Z.log2_lt_pow2 f 12 ltac:(lia)) ltac:(lia)). lia. }
  by rewrite <- Z.lxor_lor, <- Z.add_nocarry_lxor.
Qed.

Lemma entry_of_page a f :
  0 <= a < 2 ^ 52 -> a mod 4096 = 0 -> 0 <= f < 4096 -> Z.odd f = true ->
  PTE_GET_ADDR (Z.lor a f) = a /\ has_flag (Z.lor a f) PF_PRESENT = true.
Proof.
  intros Ha Hm Hf Ho. rewrite present_bit, PTE_GET_ADDR_eq, lor_page by done.
  assert ((a + f) / 4096 = a / 4096) as ->.
  { pose proof (Z.div_mod a 4096). symmetry. apply Z.div_unique with f; lia. }
  rewrite Z.bit0_odd, Z.odd_add, Ho. split.
  - pose proof (Z.div_mod a 4096). rewrite Z.mod_small by lia. lia.
  - pose proof (Z.div_mod a 4096). replace a with (2 * (2048 * (a / 4096))) by lia.
    by rewrite Z.odd_mul.
Qed.

(** The four indices of an address and the address's page determine each other. *)
Definition indices (v : Z) : list Z := [PML4E v; PDPTE v; PDE v; PTE v].

Lemma index_eq v n : 0 <= n -> Z.land (Z.shiftr v n) PGMASK_ENTRY = v / 2 ^ n mod 512.
Proof. intros. rewrite Z.shiftr_div_pow2 by done. apply (Z.land_ones _ 9). lia. Qed.

Lemma indices_range v : Forall (fun i => 0 <= i < 512) (indices v).
Proof.
  unfold indices, PML4E, PDPTE, PDE, PTE. rewrite !index_eq by lia.
  repeat (apply Forall_cons_2; [apply Z.mod_pos_bound; lia|]). apply Forall_nil_2.
Qed.

Lemma indices_inj v w :
  0 <= v < 2 ^ 48 -> 0 <= w < 2 ^ 48 -> indices v = indices w <-> v / 4096 = w / 4096.
Proof.
  intros Hv Hw. unfold indices, PML4E, PDPTE, PDE, PTE. rewrite !index_eq by lia.
  change (2 ^ 39) with (4096 * (512 * 512 * 512)). change (2 ^ 30) with (4096 * (512 * 512)).
  change (2 ^ 21) with (4096 * 512). change (2 ^ 12) with 4096.
  rewrite <- !Z.div_div by lia.
  assert (0 <= v / 4096 < 2 ^ 36) by (split; [apply Z.div_pos|apply Z.div_lt_upper_bound]; lia).
  assert (0 <= w / 4096 < 2 ^ 36) by (split; [apply Z.div_pos|apply Z.div_lt_upper_bound]; lia).
  split; [|by intros ->]. intros E. injection E as E1 E2 E3 E4.
  generalize dependent (v / 4096). generalize dependent (w / 4096). clear. intros y Hy x Hx E1 E2 E3 E4.
  Z.to_euclidean_division_equations. lia.
Qed.

(** ** The tables as a tree *)

Definition entry (s : mmu) (a i : Z) : Z := default 0 (ram s !! (a + 8 * i)).

(** Follow present entries from the entry [e] along the indices [p].  An entry of
    full size is the end of the way: there is no table behind it. *)
Definition full_size (e : Z) : bool := has_flag e PF_PS.
Fixpoint walk (s : mmu) (e : Z) (p : list Z) : option Z :=
  match p with
  | [] => Some e
  | i :: p =>
      if full_size e then None
      else
        let e' := entry s (PTE_GET_ADDR e) i in
        if has_flag e' PF_PRESENT then walk s e' p else None
  end.

Definition path (n : nat) (p : list Z) : Prop :=
  (length p <= n)%nat /\ Forall (fun i => 0 <= i < 512) p.

(** The root and what lies in the lower half of the addresses. *)
Definition own (p : list Z) : Prop := match p with [] => True | i :: _ => i < 256 end.
#[global] Instance own_dec p : Decision (own p).
Proof. destruct p; apply _. Defined.

Definition pages (s : mmu) : Bitmap := physical (vm s).
Definition page_free (s : mmu) (a : Z) : bool :=
  (a / BLOCK_SIZE <? BitmapSizeInBlocks (pages s)) && negb (used (pages s) (a / BLOCK_SIZE)).

(** [r] stands for the entry of the root table: its address bits are the page
    the directory pointer leads to. *)
Record pt_wf (s : mmu) (r : Z) : Prop := {
  pw_booted : booted (pages s);
  pw_size : BitmapSizeInBlocks (pages s) <= 2 ^ 40;
  pw_hhdm : 0 <= hhdm s < 2 ^ 64;
  pw_tables : forall p e, path 3 p -> own p -> walk s r p = Some e -> full_size e = false;
  pw_inj : forall p q e e', path 4 p -> own p -> path 3 q ->
    walk s r p = Some e -> walk s r q = Some e' -> full_size e' = false ->
    PTE_GET_ADDR e = PTE_GET_ADDR e' -> p = q;
  pw_live : forall p e, path 4 p -> walk s r p = Some e ->
    own p \/ (path 3 p /\ full_size e = false) -> page_free s (PTE_GET_ADDR e) = false;
}.

Definition pagedir_of (s : mmu) (r : Z) : Z := u64 (PTE_GET_ADDR r + hhdm s).

Lemma walk_app s e p q : walk s e (p ++ q) = walk s e p ≫= fun e' => walk s e' q.
Proof.
  revert e. induction p as [|i p IH]; intros e; [done|]. cbn. destruct (full_size e); [done|].
  case_match; [apply IH|done].
Qed.

(** A walk only depends on the entries it reads. *)
Lemma walk_frame s s' e q :
  (forall q1 j q2 x, q = q1 ++ j :: q2 -> walk s e q1 = Some x -> full_size x = false ->
     entry s' (PTE_GET_ADDR x) j = entry s (PTE_GET_ADDR x) j) ->
  walk s' e q = walk s e q.
Proof.
  revert e. induction q as [|i q IH]; intros e H; [done|]. cbn. destruct (full_size e) eqn:Ps; [done|].
  rewrite (H [] i q e) by done. destruct (has_flag _ _) eqn:P; [|done].
  apply IH. intros q1 j q2 x -> Hx. apply (H (i :: q1) j q2); [done|]. cbn. by rewrite Ps, P.
Qed.

Lemma walk_set_vm v s e q : walk (set_vm v s) e q = walk s e q.
Proof. by apply walk_frame. Qed.
Lemma walk_set_wlock c s e q : walk (set_wlock c s) e q = walk s e q.
Proof. by apply walk_frame. Qed.

Lemma word_address_ok s a i :
  0 <= a < 2 ^ 52 -> 0 <= i < 512 -> word_address s (u64 (a + hhdm s)) i = a + 8 * i.
Proof.
  intros. unfold word_address, u64. rewrite Z.add_mod_idemp_l, Zminus_mod_idemp_l by lia.
  replace (a + hhdm s + 8 * i - hhdm s) with (a + 8 * i) by lia. apply Z.mod_small. lia.
Qed.

Lemma table_get_ok s a i :
  0 <= a < 2 ^ 52 -> 0 <= i < 512 -> table_get (u64 (a + hhdm s)) i s = Ok (entry s a i, s).
Proof. intros. unfold table_get, gets. by rewrite word_address_ok. Qed.

Definition put_entry (a i x : Z) (s : mmu) : mmu := set_ram (<[a + 8 * i := x]> (ram s)) s.

Lemma table_set_ok s a i x :
  0 <= a < 2 ^ 52 -> 0 <= i < 512 ->
  table_set (u64 (a + hhdm s)) i x s = Ok (tt, put_entry a i x s).
Proof. intros. unfold table_set, modify. by rewrite word_address_ok. Qed.

Lemma entry_put a i x s a' j :
  a mod 4096 = 0 -> a' mod 4096 = 0 -> 0 <= i < 512 -> 0 <= j < 512 ->
  entry (put_entry a i x s) a' j = if decide (a = a' /\ i = j) then x else entry s a' j.
Proof.
  intros. unfold entry, put_entry. cbn. pose proof (Z.div_mod a 4096). pose proof (Z.div_mod a' 4096).
  case_decide as E; [destruct E as [-> ->]; by rewrite lookup_insert_eq|].
  rewrite lookup_insert_ne by lia. done.
Qed.

Lemma path_cons n i p : path (S n) (i :: p) <-> 0 <= i < 512 /\ path n p.
Proof. unfold path. rewrite Forall_cons. cbn. split; [intros []; naive_solver lia|intros (? & ? & ?); split; [lia|done]]. Qed.
Lemma path_app n p q : path n (p ++ q) -> path (n - length q) p /\ path (n - length p) q.
Proof. unfold path. rewrite Forall_app, length_app. intros [? []]. split; split; (done || lia). Qed.
Lemma path_mono n m p : path n p -> (n <= m)%nat -> path m p.
Proof. unfold path. intros []. split; [lia|done]. Qed.
Lemma own_app p i q : own (p ++ i :: q) -> own p.
Proof. by destruct p. Qed.

(** ** Writing one entry *)

Section put.
Context (s : mmu) (r : Z) (W : pt_wf s r).
Context (p : list Z) (Hp : path 3 p) (Ho : own p) (e : Z) (He : walk s r p = Some e).
Context (i : Z) (Hi : 0 <= i < 512) (x : Z).
Let s' := put_entry (PTE_GET_ADDR e) i x s.

Lemma walk_put_other q :
  path 4 q -> ~ (p ++ [i] `prefix_of` q) -> walk s' r q = walk s r q.
Proof using W Hp Ho He Hi.
  intros Hq Hn. apply walk_frame. intros q1 j q2 y -> Hy Hps.
  destruct (path_app 4 q1 (j :: q2) Hq) as [H1 H2].
  assert (path 3 q1) as H1' by (eapply path_mono; [exact H1|cbn; lia]).
  assert (0 <= j < 512) by (destruct H2 as [_ H2]; by inversion H2).
  unfold s'. rewrite entry_put by (try apply PTE_GET_ADDR_bounds; done).
  case_decide as E; [|done]. destruct E as [E ->]. exfalso. apply Hn.
  assert (p = q1) as ->.
  { eapply (pw_inj _ _ W p q1); [eapply path_mono; [exact Hp|lia]|done..]. }
  exists q2. by rewrite <- app_assoc.
Qed.

Lemma walk_put_self : walk s' r p = Some e.
Proof using W Hp Ho He Hi.
  rewrite walk_put_other; [done|eapply path_mono; [exact Hp|lia]|].
  intros [k Hk]. apply (f_equal length) in Hk. rewrite !length_app in Hk. cbn in Hk. lia.
Qed.

Lemma walk_put_below q :
  walk s' r (p ++ i :: q) = if has_flag x PF_PRESENT then walk s' x q else None.
Proof using W Hp Ho He Hi.
  rewrite walk_app, walk_put_self. cbn [mbind option_bind walk]. rewrite (pw_tables _ _ W p e Hp Ho He).
  assert (entry s' (PTE_GET_ADDR e) i = x) as ->; [|done].
  unfold s'. rewrite entry_put by (try apply PTE_GET_ADDR_bounds; done). by rewrite decide_True.
Qed.

End put.

(** ** A fresh table *)

Lemma page_fill_ok a (n : nat) s i0 :
  0 <= a < 2 ^ 52 -> a mod 4096 = 0 -> 0 <= i0 -> i0 + Z.of_nat n <= 512 ->
  exists rm, mfor (seqZ i0 (Z.of_nat n)) (fun i => table_set (u64 (a + hhdm s)) i 0) s =
      Ok (tt, set_ram rm s) /\
    (forall j, 0 <= j < 512 -> entry (set_ram rm s) a j =
       if decide (i0 <= j < i0 + Z.of_nat n) then 0 else entry s a j) /\
    (forall a' j, a' mod 4096 = 0 -> a' <> a -> 0 <= j < 512 ->
       entry (set_ram rm s) a' j = entry s a' j).
Proof.
  intros Ha Hm. revert s i0. induction n as [|n IH]; intros s i0 Hi Hn.
  - exists (ram s). split; [by destruct s|]. split; [|done]. intros j Hj. by rewrite decide_False by lia.
  - rewrite seqZ_cons by lia. replace (Z.pred (Z.of_nat (S n))) with (Z.of_nat n) by lia. cbn [mfor].
    erewrite bind_ok by (apply table_set_ok; lia).
    destruct (IH (put_entry a i0 0 s) (Z.succ i0) ltac:(lia) ltac:(lia)) as (rm & E & H1 & H2).
    exists rm. split; [exact E|]. split.
    + intros j Hj. change (entry (set_ram rm s) a j) with (entry (set_ram rm (put_entry a i0 0 s)) a j).
      rewrite H1, entry_put by (done || lia). repeat case_decide; (done || lia).
    + intros a' j Ha' Hne Hj.
      change (entry (set_ram rm s) a' j) with (entry (set_ram rm (put_entry a i0 0 s)) a' j).
      rewrite H2, entry_put by (done || lia). rewrite decide_False; [done|]. intros []. congruence.
Qed.

Definition free_pages (s : mmu) : Z := count_free (used (pages s)) (BitmapSizeInBlocks (pages s)).

(** What no mapping operation changes. *)
Definition static (s : mmu) : Z * Bitmap * Z * Z * Z * Z * Z :=
  (hhdm s, virtual_ (vm s), globalPagedir s, cr3 s, boot_extent s, mem_start (pages s),
   BitmapSizeInBlocks (pages s)).

Lemma count_free_pos f n : 1 <= count_free f n -> exists k, 0 <= k < n /\ f k = false.
Proof.
  unfold count_free. intros H. destruct (filter _ _) as [|k l] eqn:E; [cbn in H; lia|].
  assert (k ∈ filter (fun k => f k = false) (seqZ 0 n)) as [Hf Hk]%list_elem_of_filter
    by (rewrite E; by left).
  apply elem_of_seqZ in Hk. exists k. split; [lia|done].
Qed.

(** Walks that agree keep the invariant, as long as nothing reached is freed. *)
Lemma pt_wf_same s s' r :
  pt_wf s r -> booted (pages s') -> static s' = static s ->
  (forall q, path 4 q -> walk s' r q = walk s r q) ->
  (forall a, 0 <= a -> page_free s a = false -> page_free s' a = false) -> pt_wf s' r.
Proof.
  intros [P1 P2 P3 Pt P4 P5] B St Hw Hf. injection St as E1 E2 E3 E4 E5 E6 E7.
  split; [done|by rewrite E7|by rewrite E1|..].
  - intros p e Hp. rewrite Hw by (eapply path_mono; [done|lia]). eauto.
  - intros p q e e' Hp Ho Hq. rewrite !Hw by (done || (eapply path_mono; [done|lia])). eauto.
  - intros p e Hp. rewrite Hw by done. intros He Hor. apply Hf; [apply PTE_GET_ADDR_bounds|eauto].
Qed.

Lemma page_allocated s k b' :
  remarked (pages s) b' k 1 true -> 0 <= k ->
  forall s', pages s' = b' ->
  forall a, 0 <= a -> page_free s' a = page_free s a && negb (a / BLOCK_SIZE =? k).
Proof.
  intros [R1 R2 R3] Hk s' <- a Ha. unfold page_free. injection R1 as G1 _ _ _ _ _. rewrite G1.
  assert (0 <= a / BLOCK_SIZE) by (apply Z.div_pos; [lia|done]). rewrite R3 by done.
  destruct (Z.eqb_spec (a / BLOCK_SIZE) k).
  - rewrite decide_True by lia. by rewrite !andb_false_r.
  - rewrite decide_False by lia. by rewrite andb_true_r.
Qed.

(** One page of [physical_allocate]: only its mark in the bitmap changes. *)
Lemma page_allocate_ok s r :
  pt_wf s r -> 1 <= free_pages s ->
  exists f s', on_vm (on_physical (physical_allocate 1)) s = Ok (f, s') /\
    0 < f < 2 ^ 52 /\ f mod 4096 = 0 /\ page_free s f = true /\
    (forall a, 0 <= a -> page_free s' a = page_free s a && negb (a / BLOCK_SIZE =? f / BLOCK_SIZE)) /\
    ram s' = ram s /\ pt_wf s' r /\ static s' = static s /\ wlock_paging s' = wlock_paging s /\
    free_pages s' = free_pages s - 1.
Proof.
  intros W Hc. pose proof W as [B S H _ _ L]. destruct (count_free_pos _ _ Hc) as (k0 & Hk0 & Hf0).
  pose proof (physical_allocate_ok (pages s) 1 B ltac:(lia)) as A.
  destruct (physical_allocate 1 (pages s)) as [[f0 b']| | |] eqn:E; try done.
  2:{ exfalso. apply (A k0). split_and!; [lia..|]. intros k ?. by replace k with k0 by lia. }
  destruct A as (k & -> & Hk & [(K1 & K2 & K3) _] & R & W').
  set (f := k * BLOCK_SIZE) in *. set (s1 := set_vm (mkVmm b' (virtual_ (vm s)) (hhdmOffset (vm s))) s).
  assert (Hd : f / BLOCK_SIZE = k) by (unfold f; by rewrite Z.div_mul).
  pose proof (page_allocated s k b' R ltac:(lia) s1 eq_refl) as Hpf.
  injection (rm_frame _ _ _ _ _ R) as G1 G2 G3 G4 G5 G6.
  assert (St : static s1 = static s) by (unfold static, pages; cbn; by rewrite G1, G3).
  assert (B' : booted b').
  { destruct B as [B1 B2 B3]. split; [done|congruence|]. rewrite (rm_used _ _ _ _ _ R) by lia.
    by rewrite decide_False by lia. }
  exists f, s1. split_and!; try done; try (unfold f, BLOCK_SIZE; lia).
  - unfold on_vm, on_physical. unfold pages in E. by rewrite E.
  - unfold f, BLOCK_SIZE. apply Z.mod_mul. lia.
  - unfold page_free. rewrite Hd, K3 by lia. by rewrite (proj2 (Z.ltb_lt _ _)) by lia.
  - intros a Ha. rewrite Hd. by apply Hpf.
  - apply (pt_wf_same s); [done..| |].
    + intros q _. apply walk_set_vm.
    + intros a Ha Hf'. by rewrite Hpf, Hf'.
  - unfold free_pages. change (pages s1) with b'. rewrite G1.
    apply (count_free_mark _ _ _ k); [lia|apply K3; lia| |].
    + rewrite (rm_used _ _ _ _ _ R) by lia. by rewrite decide_True by lia.
    + intros i Hi Hne. rewrite (rm_used _ _ _ _ _ R) by lia. by rewrite decide_False by lia.
Qed.

Lemma paging_physical_allocate_ok s r :
  pt_wf s r -> 1 <= free_pages s ->
  exists f s', paging_physical_allocate s = Ok (f, s') /\
    0 < f < 2 ^ 52 /\ f mod 4096 = 0 /\ page_free s f = true /\
    (forall a, 0 <= a -> page_free s' a = page_free s a && negb (a / BLOCK_SIZE =? f / BLOCK_SIZE)) /\
    (forall j, 0 <= j < 512 -> entry s' f j = 0) /\
    (forall a j, a mod 4096 = 0 -> a <> f -> 0 <= j < 512 -> entry s' a j = entry s a j) /\
    (forall q, path 4 q -> walk s' r q = walk s r q) /\
    pt_wf s' r /\ static s' = static s /\ wlock_paging s' = wlock_paging s /\
    free_pages s' = free_pages s - 1.
Proof.
  intros W Hc. destruct (page_allocate_ok s r W Hc) as (f & s1 & E & Hf & Hm & Hfree & Hpf & Er & W1 & St & Lk & Hn).
  destruct (page_fill_ok f 512 s1 0) as (rm & Ez & Z1 & Z2); [lia|done|lia|lia|].
  assert (Hw : forall q, path 4 q -> walk (set_ram rm s1) r q = walk s r q).
  { intros q Hq. rewrite <- (walk_frame s s1 r q) by (intros; unfold entry; by rewrite Er).
    apply walk_frame. intros q1 j q2 y -> Hy Hps.
    destruct (path_app 4 q1 (j :: q2) Hq) as [H1 H2].
    assert (path 3 q1) as H3 by (eapply path_mono; [exact H1|cbn; lia]).
    destruct H2 as [_ [Hj _]%Forall_cons].
    rewrite Z2; [done|apply PTE_GET_ADDR_bounds| |done]. intros E0.
    rewrite walk_frame with (s := s) in Hy by (intros; unfold entry; by rewrite Er).
    pose proof (pw_live _ _ W q1 y (path_mono _ 4 _ H3 ltac:(lia)) Hy (or_intror (conj H3 Hps))) as Hl'. rewrite E0 in Hl'. congruence. }
  exists f, (set_ram rm s1). split_and!; try done; try lia.
  - unfold paging_physical_allocate. mrw E. erewrite bind_ok by done. unfold page_zero. by mrw Ez.
  - intros j Hj. rewrite Z1 by done. by rewrite decide_True by lia.
  - intros a j Ha Hne Hj. rewrite Z2 by done. unfold entry. by rewrite Er.
  - apply (pt_wf_same s); [done|apply W1|done|done|]. intros a Ha Hf'.
    change (page_free (set_ram rm s1) a) with (page_free s1 a). by rewrite Hpf, Hf'.
Qed.

(** Hanging the fresh page [f] below the table of [p]. *)
Section hang.
Context (s : mmu) (r : Z) (W : pt_wf s r).
Context (p : list Z) (Hp : path 2 p) (e : Z) (He : walk s r p = Some e).
Context (i : Z) (Hi : 0 <= i < 512) (Hoi : own (p ++ [i])).
Context (f : Z) (Hf : 0 <= f < 2 ^ 52) (Hm : f mod 4096 = 0).
Context (Hz : forall j, 0 <= j < 512 -> entry s f j = 0) (Hl : page_free s f = false).
Context (Hfresh : forall q y, path 4 q -> walk s r q = Some y ->
  own q \/ (path 3 q /\ full_size y = false) -> PTE_GET_ADDR y <> f).
Let x := Z.lor (Z.lor (Z.lor f PF_PRESENT) PF_RW) PF_USER.
Let s' := put_entry (PTE_GET_ADDR e) i x s.

Lemma hang_entry : PTE_GET_ADDR x = f /\ has_flag x PF_PRESENT = true.
Proof using Hf Hm. unfold x. rewrite <- !Z.lor_assoc. by apply (entry_of_page f 7). Qed.
Lemma hang_small : full_size x = false.
Proof using Hf Hm.
  unfold full_size, x. rewrite <- !Z.lor_assoc. change PF_PS with (2 ^ 7). rewrite has_flag_bit, Z.lor_spec by lia.
  replace f with (Z.shiftl (f / 4096) 12).
  2:{ rewrite Z.shiftl_mul_pow2 by lia. change (2 ^ 12) with 4096. pose proof (Z.div_mod f 4096). lia. }
  by rewrite Z.shiftl_spec_low.
Qed.

Let Hp3 : path 3 p := path_mono 2 3 p Hp ltac:(lia).
Let Ho : own p := own_app p i [] Hoi.

Lemma hang_walk q :
  path 4 q -> walk s' r q =
    if decide (q = p ++ [i]) then Some x
    else if decide (p ++ [i] `prefix_of` q) then None else walk s r q.
Proof using W Hp He Hi Hoi Hf Hm Hz Hfresh.
  intros Hq. destruct hang_entry as [X1 X2]. destruct (decide (p ++ [i] `prefix_of` q)) as [[q2 ->]|Hn].
  - rewrite <- app_assoc. cbn [app]. unfold s' at 1. rewrite (walk_put_below s r W p Hp3 Ho e He i Hi), X2.
    destruct q2 as [|j q2]; [by rewrite decide_True|].
    rewrite decide_False.
    2:{ intros E%(f_equal length). rewrite !length_app in E. cbn in E. lia. }
    rewrite <- app_assoc in Hq. destruct (path_app _ _ _ Hq) as [_ [_ [_ [Hj _]%Forall_cons]%Forall_cons]].
    cbn [walk]. rewrite hang_small, X1. unfold s'. rewrite entry_put by (try apply PTE_GET_ADDR_bounds; done).
    rewrite decide_False; [by rewrite Hz|]. intros [E _].
    eapply (Hfresh p e); [eapply path_mono; [exact Hp|lia]|done|by left|done].
  - rewrite decide_False by (intros ->; apply Hn; done).
    apply (walk_put_other s r W p Hp3 Ho e He i Hi x); done.
Qed.

Lemma hang_wf : pt_wf s' r.
Proof using W Hp He Hi Hoi Hf Hm Hz Hfresh Hl.
  destruct hang_entry as [X1 X2]. pose proof hang_small as X3. pose proof W as [P1 P2 P3 Pt P4 P5].
  assert (Hc : forall q y, path 4 q -> walk s' r q = Some y ->
    (q = p ++ [i] /\ y = x) \/ walk s r q = Some y).
  { intros q y Hq. rewrite hang_walk by done. repeat case_decide; intros; simplify_eq; auto. }
  split; [done..| | |].
  - intros q y Hq Hoq Hy. destruct (Hc _ _ (path_mono _ 4 _ Hq ltac:(lia)) Hy) as [[-> ->]|Hy']; [done|by eapply Pt].
  - intros p1 q1 e1 e2 H1 Ho1 H2 E1 E2 Hps Ea.
    destruct (Hc _ _ H1 E1) as [[-> ->]|E1'], (Hc _ _ (path_mono _ 4 _ H2 ltac:(lia)) E2) as [[-> ->]|E2'];
      [done|..|by eapply P4].
    + rewrite X1 in Ea. by destruct (Hfresh q1 e2 (path_mono _ 4 _ H2 ltac:(lia)) E2' (or_intror (conj H2 Hps))).
    + rewrite X1 in Ea. by destruct (Hfresh p1 e1 H1 E1' (or_introl Ho1)).
  - intros q y Hq Hy Hor. destruct (Hc _ _ Hq Hy) as [[-> ->]|Hy']; [by rewrite X1|by eapply P5].
Qed.

End hang.

Definition not_table (s : mmu) (r a : Z) : Prop :=
  forall p e, path 3 p -> walk s r p = Some e -> full_size e = false -> PTE_GET_ADDR e <> a.

(** [s'] is [s] with possibly more tables: the same mappings, nothing freed, and
    the same contents of the pages in use that are not tables. *)
Record grown (r : Z) (s s' : mmu) : Prop := {
  gr_wf : pt_wf s' r;
  gr_leaf : forall q, path 4 q -> length q = 4%nat -> walk s' r q = walk s r q;
  gr_upper : forall q, path 4 q -> ~ own q -> walk s' r q = walk s r q;
  gr_tables : forall p e, path 3 p -> walk s' r p = Some e ->
    walk s r p = Some e \/ page_free s (PTE_GET_ADDR e) = true;
  gr_live : forall a, 0 <= a -> page_free s a = false -> page_free s' a = false;
  gr_ram : forall a j, 0 <= a -> a mod 4096 = 0 -> 0 <= j < 512 -> page_free s a = false ->
    not_table s r a -> entry s' a j = entry s a j;
  gr_static : static s' = static s;
  gr_lock : wlock_paging s' = wlock_paging s;
}.

Lemma grown_trans r s1 s2 s3 : grown r s1 s2 -> grown r s2 s3 -> grown r s1 s3.
Proof.
  intros [A1 A2 Au At A3 Ar A4 A5] [B1 B2 Bu Bt B3 Br B4 B5].
  split; [done|intros; by rewrite B2, A2|intros; by rewrite Bu, Au| |auto| |by rewrite B4|by rewrite B5].
  - intros p e Hp He. destruct (Bt p e Hp He) as [He'|Hf]; [by apply At|]. right.
    destruct (page_free s1 (PTE_GET_ADDR e)) eqn:E; [done|].
    apply A3 in E; [congruence|apply PTE_GET_ADDR_bounds].
  - intros a j Ha Hm Hj Hl Ht. rewrite Br, Ar; auto. intros p e Hp He Hps <-.
    destruct (At p e Hp He) as [He'|Hf]; [by eapply Ht|congruence].
Qed.

Lemma static_hhdm s s' : static s' = static s -> hhdm s' = hhdm s.
Proof. by intros [= ? ? ? ? ? ? ?]. Qed.

Lemma next_table_ok s r p e i :
  pt_wf s r -> path 2 p -> walk s r p = Some e -> 0 <= i < 512 -> own (p ++ [i]) -> 1 <= free_pages s ->
  exists e' s', next_table (u64 (PTE_GET_ADDR e + hhdm s)) i s =
      Ok (u64 (PTE_GET_ADDR e' + hhdm s), s') /\
    grown r s s' /\ walk s' r (p ++ [i]) = Some e' /\ free_pages s - 1 <= free_pages s'.
Proof.
  intros W Hp He Hi Hoi Hc. unfold next_table. pose proof (own_app p i [] Hoi) as Hop.
  destruct (PTE_GET_ADDR_bounds e) as [Be Me].
  pose proof (pw_tables _ _ W p e (path_mono 2 3 p Hp ltac:(lia)) Hop He) as Pse.
  erewrite bind_ok by (by apply table_get_ok).
  destruct (has_flag (entry s (PTE_GET_ADDR e) i) PF_PRESENT) eqn:P; cbn [negb].
  - erewrite bind_ok by done. erewrite bind_ok by (by apply table_get_ok).
    eexists _, s. split; [done|]. split_and!; [split; auto| |lia].
    rewrite walk_app, He. cbn. by rewrite Pse, P.
  - destruct (paging_physical_allocate_ok s r W Hc)
      as (f & s1 & E & Hf & Hm & Hfree & Hpf & Hz & Ho & Hw & W1 & St & Lk & Hn).
    pose proof (static_hhdm _ _ St) as Hh.
    assert (He1 : walk s1 r p = Some e) by (rewrite Hw; [done|eapply path_mono; [exact Hp|lia]]).
    assert (Hl : page_free s1 f = false) by (rewrite Hpf, Z.eqb_refl by lia; apply andb_false_r).
    assert (Hfresh : forall q y, path 4 q -> walk s1 r q = Some y ->
      own q \/ (path 3 q /\ full_size y = false) -> PTE_GET_ADDR y <> f).
    { intros q y Hq Hy Hor <-. rewrite Hw in Hy by done. pose proof (pw_live _ _ W q y Hq Hy Hor). congruence. }
    set (x := Z.lor (Z.lor (Z.lor f PF_PRESENT) PF_RW) PF_USER).
    set (s2 := put_entry (PTE_GET_ADDR e) i x s1).
    assert (Es : (let! target := paging_physical_allocate in
        table_set (u64 (PTE_GET_ADDR e + hhdm s)) i
          (Z.lor (Z.lor (Z.lor target PF_PRESENT) PF_RW) PF_USER)) s = Ok (tt, s2)).
    { mrw E. rewrite <- Hh. by apply table_set_ok. }
    mrw Es. change (hhdm s1) with (hhdm s2) in Hh. rewrite <- Hh.
    erewrite bind_ok by (by apply table_get_ok).
    pose proof (hang_walk s1 r W1 p Hp e He1 i Hi Hoi f ltac:(lia) Hm Hz Hfresh) as Hq. fold x s2 in Hq.
    assert (path 4 (p ++ [i])).
    { destruct Hp. split; [rewrite length_app; cbn; lia|]. apply Forall_app. split; [done|by constructor]. }
    exists x, s2. split_and!.
    + unfold gets. unfold s2 at 1. rewrite entry_put by done. by rewrite decide_True.
    + split; [apply (hang_wf s1 r W1 p Hp e He1 i Hi Hoi f ltac:(lia) Hm Hz Hl Hfresh)|..|done|done].
      * intros q H4 Hlen. rewrite Hq by done. rewrite <- Hw by done.
        rewrite decide_False.
        2:{ intros ->. destruct Hp. rewrite length_app in Hlen. cbn in Hlen. lia. }
        case_decide as Hpre; [|done]. destruct Hpre as [q2 ->]. rewrite Hw by done.
        by rewrite <- app_assoc, walk_app, He; cbn; rewrite Pse, P.
      * intros q H4 Hno. rewrite Hq by done. rewrite <- Hw by done.
        rewrite decide_False by (intros ->; done). rewrite decide_False; [done|].
        intros [q2 ->]. apply Hno. destruct p; [exact Hoi|exact Hop].
      * intros q y H3 Hy. rewrite Hq in Hy by (eapply path_mono; [exact H3|lia]).
        case_decide; [right; injection Hy as <-; unfold x; by rewrite (proj1 (hang_entry f ltac:(lia) Hm))|].
        case_decide; [done|]. left. rewrite <- Hw; [done|eapply path_mono; [exact H3|lia]].
      * intros a Ha Hna. change (page_free s2 a) with (page_free s1 a). by rewrite Hpf, Hna.
      * intros a j Ha Hma Hj Hl' Ht. unfold s2. rewrite entry_put by done.
        rewrite decide_False; [apply Ho; [done| |done]; congruence|].
        intros [<- _]. apply (Ht p e); [eapply path_mono; [exact Hp|lia]|done..].
    + rewrite Hq by done. by rewrite decide_True.
    + change (free_pages s2) with (free_pages s1). lia.
Qed.

(** ** [virtual_mapL] *)

Definition new_entry (phys flags : Z) : Z := Z.lor (Z.lor (P_PHYS_ADDR phys) PF_PRESENT) flags.

Lemma new_entry_ok phys flags :
  0 <= phys < 2 ^ 52 -> 0 <= flags < 4096 ->
  PTE_GET_ADDR (new_entry phys flags) = phys / 4096 * 4096 /\
  has_flag (new_entry phys flags) PF_PRESENT = true.
Proof.
  intros Hp Hf. unfold new_entry. rewrite <- Z.lor_assoc.
  assert (P_PHYS_ADDR phys = phys / 4096 * 4096) as ->.
  { unfold P_PHYS_ADDR. change 0xFFF with (Z.ones 12). rewrite <- Z.ldiff_land, Z.ldiff_ones_r by lia.
    by rewrite Z.shiftl_mul_pow2, Z.shiftr_div_pow2 by lia. }
  pose proof (Z.div_mod phys 4096). pose proof (Z.mod_pos_bound phys 4096).
  apply entry_of_page; [lia|apply Z.mod_mul; lia| |].
  - unfold PF_PRESENT in *.
    destruct (decide (flags = 0)) as [->|]; [split; done|].
    pose proof (Z.log2_lor 1 flags ltac:(lia) ltac:(lia)) as Hlog.
    pose proof (proj1 (Z.log2_lt_pow2 flags 12 ltac:(lia)) ltac:(lia)).
    split; [apply Z.lor_nonneg; lia|]. apply (Z.log2_lt_cancel _ (2 ^ 12)).
    rewrite Z.log2_pow2, Hlog by lia. change (Z.log2 1) with 0. lia.
  - rewrite <- Z.bit0_odd, Z.lor_spec. done.
Qed.

(** The three table levels of an address, with at least three pages to spare. *)
Lemma tables_ok s r v :
  pt_wf s r -> PML4E v < 256 -> 3 <= free_pages s ->
  exists e s', grown r s s' /\ walk s' r [PML4E v; PDPTE v; PDE v] = Some e /\
    free_pages s - 3 <= free_pages s' /\
    forall A (k : Z -> M mmu A),
      (let! pdp := next_table (pagedir_of s r) (PML4E v) in
       let! pd := next_table pdp (PDPTE v) in
       let! pt := next_table pd (PDE v) in k pt) s =
      k (u64 (PTE_GET_ADDR e + hhdm s)) s'.
Proof.
  intros W Hlow Hc. pose proof (indices_range v) as Hr. unfold indices in Hr.
  repeat (apply Forall_cons in Hr as [? Hr]).
  assert (P0 : path 2 []) by (split; [cbn; lia|constructor]).
  destruct (next_table_ok s r [] r (PML4E v) W P0 eq_refl) as (e1 & s1 & E1 & G1 & K1 & C1); [done|done|lia|].
  pose proof (static_hhdm _ _ (gr_static _ _ _ G1)) as D1.
  assert (P1 : path 2 [PML4E v]) by (split; [cbn; lia|repeat apply Forall_cons_2; (done || apply Forall_nil_2)]).
  destruct (next_table_ok s1 r [PML4E v] e1 (PDPTE v) (gr_wf _ _ _ G1) P1 K1)
    as (e2 & s2 & E2 & G2 & K2 & C2); [done|done|lia|].
  pose proof (static_hhdm _ _ (gr_static _ _ _ G2)) as D2.
  assert (P2 : path 2 [PML4E v; PDPTE v]) by (split; [cbn; lia|repeat apply Forall_cons_2; (done || apply Forall_nil_2)]).
  destruct (next_table_ok s2 r [PML4E v; PDPTE v] e2 (PDE v) (gr_wf _ _ _ G2) P2 K2)
    as (e3 & s3 & E3 & G3 & K3 & C3); [done|done|lia|].
  exists e3, s3. split; [by eapply grown_trans; [|eapply grown_trans]|]. split; [done|]. split; [lia|].
  intros A k. unfold pagedir_of. mrw E1. rewrite <- D1. mrw E2. rewrite <- D2. by mrw E3.
Qed.

(** [physical_free] of one page: only that page's mark changes. *)
Lemma page_release_ok s a :
  bm_wf (pages s) -> mem_start (pages s) = 0 -> 0 <= a -> a mod 4096 = 0 ->
  a / BLOCK_SIZE < BitmapSizeInBlocks (pages s) ->
  exists v, on_vm (on_physical (physical_free a 1)) s = Ok (tt, set_vm v s) /\
    static (set_vm v s) = static s /\ bm_wf (physical v) /\
    forall k, 0 <= k -> used (physical v) k = negb (k =? a / BLOCK_SIZE) && used (pages s) k.
Proof.
  intros W Hs Ha Hm Hb. assert (0 <= a / BLOCK_SIZE) by (apply Z.div_pos; [lia|done]).
  destruct (physical_free_ok (pages s) (a / BLOCK_SIZE) 1 W Hs) as (b' & E & [R1 R2 R3] & W'); [lia..|].
  assert (a / BLOCK_SIZE * BLOCK_SIZE = a) as Ea
    by (unfold BLOCK_SIZE in *; pose proof (Z.div_mod a 4096); lia).
  rewrite Ea in E. exists (mkVmm b' (virtual_ (vm s)) (hhdmOffset (vm s))). split_and!.
  - unfold on_vm, on_physical. unfold pages in E. by rewrite E.
  - injection R1 as G1 G2 G3 G4 G5 G6. unfold static, pages. cbn. by rewrite G1, G3.
  - done.
  - intros k Hk. cbn. rewrite R3 by done. destruct (Z.eqb_spec k (a / BLOCK_SIZE)).
    + by rewrite decide_True by lia.
    + by rewrite decide_False by lia.
Qed.

(** Replacing the mapping at [q] by the page [a] keeps the tree sound: [a] is
    not free and not a table, and a page mapped there before is neither [a] nor
    mapped elsewhere in the lower half. *)
Record replaceable (s : mmu) (r : Z) (q : list Z) (a : Z) : Prop := {
  rp_live : page_free s a = false;
  rp_table : not_table s r a;
  rp_old : forall e, walk s r q = Some e -> PTE_GET_ADDR e <> a /\
    forall q' e', path 4 q' -> length q' = 4%nat -> own q' -> q' <> q -> walk s r q' = Some e' ->
      PTE_GET_ADDR e' <> PTE_GET_ADDR e;
}.

(** A page that is mapped at [q] already is given back, so it must be one the
    bitmap manages. *)
Definition old_managed (s : mmu) (r : Z) (q : list Z) : Prop :=
  forall e, walk s r q = Some e ->
    0 < PTE_GET_ADDR e /\ PTE_GET_ADDR e / BLOCK_SIZE < BitmapSizeInBlocks (pages s).

(** The last step: release the old page, write the entry. *)
Definition map_leaf (pt i x : Z) : M mmu unit :=
  let! e := table_get pt i in
  (if has_flag e PF_PRESENT then on_vm (on_physical (physical_free (PTE_GET_ADDR e) 1))
   else ret tt) ;;;
  table_set pt i x.

Section leaf.
Context (s : mmu) (r : Z) (W : pt_wf s r).
Context (p : list Z) (Hlen : length p = 3%nat) (Hp : path 3 p) (Ho : own p) (e : Z) (He : walk s r p = Some e).
Context (i : Z) (Hi : 0 <= i < 512) (x : Z) (Hx : has_flag x PF_PRESENT = true).
Let q := p ++ [i].

Lemma leaf_walk v q' :
  path 4 q' ->
  walk (put_entry (PTE_GET_ADDR e) i x (set_vm v s)) r q' = if decide (q' = q) then Some x else walk s r q'.
Proof using W Hlen Hp Ho He Hi Hx.
  intros Hq'. change (put_entry (PTE_GET_ADDR e) i x (set_vm v s)) with
    (set_vm v (put_entry (PTE_GET_ADDR e) i x s)). rewrite walk_set_vm. case_decide as E.
  - subst q'. unfold q. by rewrite (walk_put_below s r W p Hp Ho e He i Hi), Hx.
  - apply (walk_put_other s r W p Hp Ho e He i Hi); [done|]. intros [k ->]. apply E.
    destruct Hq' as [Hl _]. rewrite !length_app in Hl. cbn in Hl. destruct k; [by rewrite app_nil_r|cbn in Hl; lia].
Qed.

Lemma map_leaf_ok :
  old_managed s r q ->
  exists v, map_leaf (u64 (PTE_GET_ADDR e + hhdm s)) i x s =
      Ok (tt, put_entry (PTE_GET_ADDR e) i x (set_vm v s)) /\
    static (set_vm v s) = static s /\ bm_wf (physical v) /\
    forall k, 0 <= k -> used (physical v) k =
      match walk s r q with
      | Some y => negb (k =? PTE_GET_ADDR y / BLOCK_SIZE) && used (pages s) k
      | None => used (pages s) k
      end.
Proof using W Hlen Hp Ho He Hi.
  intros Hold. unfold map_leaf. destruct (PTE_GET_ADDR_bounds e) as [Be Me].
  erewrite bind_ok by (by apply table_get_ok).
  assert (Hq : walk s r q = if has_flag (entry s (PTE_GET_ADDR e) i) PF_PRESENT
                            then Some (entry s (PTE_GET_ADDR e) i) else None)
    by (unfold q; rewrite walk_app, He; cbn; by rewrite (pw_tables _ _ W p e Hp Ho He)).
  pose proof W as [[B1 B2 B3] _ _ _ _ _]. unfold old_managed in Hold. rewrite Hq in *.
  destruct (has_flag (entry s (PTE_GET_ADDR e) i) PF_PRESENT).
  - destruct (Hold _ eq_refl) as [O1 O2].
    destruct (PTE_GET_ADDR_bounds (entry s (PTE_GET_ADDR e) i)) as [Bo Mo].
    destruct (page_release_ok s (PTE_GET_ADDR (entry s (PTE_GET_ADDR e) i)) B1 B2 ltac:(lia) Mo O2)
      as (v & E & St & Wv & U).
    exists v. split_and!; [|done..]. mrw E.
    rewrite <- (static_hhdm _ _ St). by apply table_set_ok.
  - exists (vm s). erewrite bind_ok by done. split_and!; [|by destruct s|done..].
    rewrite table_set_ok by done. by destruct s.
Qed.

Lemma leaf_wf v :
  static (set_vm v s) = static s -> bm_wf (physical v) -> old_managed s r q ->
  (forall k, 0 <= k -> used (physical v) k =
     match walk s r q with
     | Some y => negb (k =? PTE_GET_ADDR y / BLOCK_SIZE) && used (pages s) k
     | None => used (pages s) k
     end) ->
  replaceable s r q (PTE_GET_ADDR x) ->
  pt_wf (put_entry (PTE_GET_ADDR e) i x (set_vm v s)) r.
Proof using W Hlen Hp Ho He Hi Hx.
  intros St Wv Hold U [R1 R2 R3]. pose proof W as [[B1 B2 B3] P2 P3 Pt P4 P5].
  assert (own q) as Hoq by (unfold q; destruct p; done).
  injection St as S1 S2 S5 S6. change (pages (set_vm v s)) with (physical v) in S5, S6.
  change (hhdm (set_vm v s)) with (hhdmOffset v) in S1.
  set (s' := put_entry (PTE_GET_ADDR e) i x (set_vm v s)).
  assert (Hkeep : forall a, 0 <= a -> a mod 4096 = 0 -> page_free s a = false ->
    (forall y, walk s r q = Some y -> a <> PTE_GET_ADDR y) -> page_free s' a = false).
  { intros a Ha Hm Hf Hne. unfold page_free. change (pages s') with (physical v). rewrite S6.
    rewrite U by (apply Z.div_pos; [lia|done]). revert Hf. unfold page_free. destruct (walk s r q) as [y|]; [|done].
    destruct (Z.eqb_spec (a / BLOCK_SIZE) (PTE_GET_ADDR y / BLOCK_SIZE)) as [E|]; [|done].
    destruct (Hne y eq_refl). unfold BLOCK_SIZE in E. destruct (PTE_GET_ADDR_bounds y) as [_ My].
    pose proof (Z.div_mod a 4096). pose proof (Z.div_mod (PTE_GET_ADDR y) 4096). lia. }
  split.
  - split; [done|by etrans|]. change (pages s') with (physical v). rewrite U by lia.
    destruct (walk s r q) as [y|] eqn:Ey; [|done]. destruct (Hold y Ey) as [O1 _]. rewrite B3.
    rewrite (proj2 (Z.eqb_neq _ _)); [done|]. destruct (PTE_GET_ADDR_bounds y) as [_ My].
    unfold BLOCK_SIZE. pose proof (Z.div_mod (PTE_GET_ADDR y) 4096). lia.
  - change (pages s') with (physical v). by rewrite S6.
  - change (hhdm s') with (hhdmOffset v). by rewrite S1.
  - intros p1 y1 H1 Ho1. unfold s'. rewrite leaf_walk by (eapply path_mono; [done|lia]).
    rewrite decide_False; [by apply Pt|]. intros ->. destruct H1 as [H1 _]. unfold q in H1. rewrite length_app in H1. cbn in H1. lia.
  - intros p1 q1 y1 y2 H1 Ho1 H2. unfold s'. rewrite !leaf_walk by (done || (eapply path_mono; [done|lia])).
    rewrite (decide_False (P := q1 = q)).
    2:{ intros ->. destruct H2 as [H2 _]. unfold q in H2. rewrite length_app in H2. cbn in H2. lia. }
    case_decide; [intros; simplify_eq; exfalso; by eapply (R2 q1 y2)|]. by apply P4.
  - intros p1 y1 H1. unfold s' at 1. rewrite leaf_walk by done. destruct (PTE_GET_ADDR_bounds y1) as [By My].
    case_decide as E; intros Hy Hor; apply Hkeep; try lia; try done.
    + by simplify_eq.
    + intros y Ey. simplify_eq. intros E'. by destruct (R3 y Ey) as [? _].
    + by eapply P5.
    + intros y Ey E'. destruct (decide (length p1 = 4%nat)) as [L4|L4].
      * destruct (R3 y Ey) as [_ R]. destruct Hor as [Ho1|[[H3 _] _]]; [by apply (R p1 y1)|lia].
      * assert (path 3 p1) as H3 by (destruct H1; split; [lia|done]).
        assert (full_size y1 = false) as Hps by (destruct Hor as [Ho1|[_ ?]]; [by apply (Pt p1)|done]).
        assert (q = p1) as <-; [|done]. eapply (P4 q p1 y y1); [|done..].
        unfold q. destruct Hp as [_ Hf]. split; [rewrite length_app; cbn; lia|]. apply Forall_app. split; [done|].
        apply Forall_cons_2; [done|apply Forall_nil_2].
Qed.

End leaf.

Lemma map_leaf_then pt i x (k : M mmu unit) s :
  (let! e := table_get pt i in
   (if has_flag e PF_PRESENT then on_vm (on_physical (physical_free (PTE_GET_ADDR e) 1))
    else ret tt) ;;;
   table_set pt i x ;;; k) s = (map_leaf pt i x ;;; k) s.
Proof.
  unfold map_leaf. rewrite bind_assoc. unfold bind at 1 4. destruct (table_get pt i s) as [[e s']| | |]; [|done..].
  by rewrite bind_assoc.
Qed.

Lemma pt_wf_wlock c s r : pt_wf s r -> pt_wf (set_wlock c s) r.
Proof.
  intros W. apply (pt_wf_same s); [done|apply W|done| |done]. intros. apply walk_set_wlock.
Qed.

Lemma indices_path v : path 3 [PML4E v; PDPTE v; PDE v] /\ path 4 (indices v).
Proof.
  pose proof (indices_range v) as H. split; (split; [cbn; lia|]); [|done].
  unfold indices in H. change [PML4E v; PDPTE v; PDE v; PTE v] with ([PML4E v; PDPTE v; PDE v] ++ [PTE v]) in H.
  by apply Forall_app in H as [? _].
Qed.

Section grown_facts.
Context (s s' : mmu) (r : Z) (G : grown r s s') (v : Z).
Let q := indices v.

Lemma grown_leaf : walk s' r q = walk s r q.
Proof using G. apply (gr_leaf _ _ _ G); [apply indices_path|done]. Qed.

Lemma grown_old : old_managed s r q -> old_managed s' r q.
Proof using G.
  intros H e. rewrite grown_leaf. pose proof (gr_static _ _ _ G) as St.
  injection St as _ _ _ _ _ _ ->. apply H.
Qed.

Lemma grown_replaceable a : 0 <= a -> replaceable s r q a -> replaceable s' r q a.
Proof using G.
  intros Ha [R1 R2 R3]. split.
  - by apply (gr_live _ _ _ G).
  - intros p e Hp He Hps. destruct (gr_tables _ _ _ G p e Hp He) as [He'|Hf]; [by eapply R2|]. congruence.
  - intros e. rewrite grown_leaf. intros He. destruct (R3 e He) as [R4 R5]. split; [done|].
    intros q' e' H4 Hl Ho Hne. rewrite (gr_leaf _ _ _ G) by done. by apply R5.
Qed.
End grown_facts.

Lemma virtual_mapL_ok s r virt phys flags :
  pt_wf s r -> PML4E (AMD64_MM_STRIPSX virt) < 256 -> wlock_paging s = 0 -> 3 <= free_pages s ->
  virt mod PAGE_SIZE = 0 -> 0 <= phys < 2 ^ 52 -> 0 <= flags < 4096 ->
  let q := indices (AMD64_MM_STRIPSX virt) in
  let x := new_entry phys flags in
  old_managed s r q ->
  exists s', virtual_mapL (pagedir_of s r) virt phys flags s = Ok (tt, s') /\
    static s' = static s /\ wlock_paging s' = 0 /\
    (forall q', path 4 q' -> length q' = 4%nat ->
       walk s' r q' = if decide (q' = q) then Some x else walk s r q') /\
    (forall q', path 4 q' -> ~ own q' -> walk s' r q' = walk s r q') /\
    (forall e, walk s r q = Some e -> page_free s' (PTE_GET_ADDR e) = true) /\
    (replaceable s r q (PTE_GET_ADDR x) -> pt_wf s' r) /\
    (forall a j, 0 <= a -> a mod 4096 = 0 -> 0 <= j < 512 -> page_free s a = false ->
       not_table s r a -> entry s' a j = entry s a j) /\
    (walk s r q = None -> free_pages s - 3 <= free_pages s' /\
       forall a, 0 <= a -> page_free s a = false -> page_free s' a = false).
Proof.
  intros W Hlow Hl Hc Hv Hp Hf q x Hold. destruct (new_entry_ok phys flags Hp Hf) as [X1 X2].
  unfold virtual_mapL. rewrite (proj2 (Z.eqb_eq _ _) Hv). cbn [negb].
  set (v := AMD64_MM_STRIPSX virt) in *. set (s0 := set_wlock (-1) s).
  erewrite (bind_ok _ _ s tt s0) by (unfold on_wlock; rewrite Hl; done).
  pose proof (pt_wf_wlock (-1) s r W) as W0. fold s0 in W0.
  destruct (tables_ok s0 r v W0 Hlow Hc) as (e & s3 & G & He & Hn & Hk).
  change (pagedir_of s r) with (pagedir_of s0 r). rewrite Hk. clear Hk.
  assert (Hw0 : forall q', walk s0 r q' = walk s r q') by (intros; apply walk_set_wlock).
  assert (Hold0 : old_managed s0 r q) by (intros e'; rewrite Hw0; apply Hold).
  pose proof (grown_old s0 s3 r G v Hold0) as Hold3.
  destruct (indices_path v) as [P3 P4].
  assert (0 <= PTE v < 512) as HPTE.
  { pose proof (indices_range v) as HH. unfold indices in HH.
    by do 3 (apply Forall_cons in HH as [_ HH]); apply Forall_cons in HH as [HH _]. }
  destruct (map_leaf_ok s3 r (gr_wf _ _ _ G) [PML4E v; PDPTE v; PDE v] eq_refl P3 Hlow e He (PTE v) HPTE x Hold3)
    as (vm' & E & St & Wv & U).
  pose proof (leaf_walk s3 r (gr_wf _ _ _ G) [PML4E v; PDPTE v; PDE v] eq_refl P3 Hlow e He (PTE v) HPTE x X2 vm') as Hlw.
  set (s4 := put_entry (PTE_GET_ADDR e) (PTE v) x (set_vm vm' s3)) in *.
  assert (Hst : static s4 = static s).
  { change (static s4) with (static (set_vm vm' s3)). by rewrite St, (gr_static _ _ _ G). }
  exists (set_wlock 0 s4). split_and!; [|done|done|..].
  - change (hhdm s) with (hhdm s0). rewrite <- (static_hhdm _ _ (gr_static _ _ _ G)).
    etrans; [apply map_leaf_then|]. mrw E. unfold on_wlock. change (wlock_paging s4) with (wlock_paging s3).
    by rewrite (gr_lock _ _ _ G).
  - intros q' H4 Hlen. rewrite walk_set_wlock, Hlw by done. change ([PML4E v; PDPTE v; PDE v] ++ [PTE v]) with q.
    case_decide; [done|]. rewrite (gr_leaf _ _ _ G) by done. apply Hw0.
  - intros q' H4 Hno. rewrite walk_set_wlock, Hlw by done. rewrite decide_False by (intros ->; apply Hno, Hlow).
    rewrite (gr_upper _ _ _ G) by done. apply Hw0.
  - intros y Hy. change (page_free (set_wlock 0 s4) (PTE_GET_ADDR y)) with (page_free s4 (PTE_GET_ADDR y)).
    destruct (PTE_GET_ADDR_bounds y) as [By My]. destruct (Hold y Hy) as [_ O2].
    injection Hst as _ _ _ _ _ _ S7. unfold page_free. rewrite S7, (proj2 (Z.ltb_lt _ _)) by done. cbn [andb].
    change (pages s4) with (physical vm'). rewrite U by (apply Z.div_pos; [lia|done]).
    pose proof (grown_leaf s0 s3 r G v) as GL. change (indices v) with q in GL.
    change ([PML4E v; PDPTE v; PDE v] ++ [PTE v]) with q. by rewrite GL, Hw0, Hy, Z.eqb_refl.
  - intros R. apply pt_wf_wlock. unfold s4.
    apply (leaf_wf s3 r (gr_wf _ _ _ G) [PML4E v; PDPTE v; PDE v] eq_refl P3 Hlow e He (PTE v) HPTE x X2 vm'); try done.
    apply (grown_replaceable s0 s3 r G v); [apply PTE_GET_ADDR_bounds|]. destruct R as [R1 R2 R3].
    split; [done|intros p y; rewrite Hw0; apply R2|]. intros y. rewrite Hw0. intros Hy. destruct (R3 _ Hy) as [R4 R5]. split; [done|].
    intros q' e' ? ? ? ?. rewrite Hw0. by apply R5.
  - intros a j Ha Hm Hj Hfa Ht. change (entry (set_wlock 0 s4) a j) with (entry s4 a j). unfold s4.
    assert (not_table s0 r a) as Ht0 by (intros p y Hp'; rewrite Hw0; by apply Ht).
    rewrite entry_put by (try apply PTE_GET_ADDR_bounds; done). rewrite decide_False.
    + change (entry (set_vm vm' s3) a j) with (entry s3 a j). by apply (gr_ram _ _ _ G).
    + intros [<- _]. destruct (gr_tables _ _ _ G _ e P3 He) as [He'|He'].
      { eapply Ht0; [exact P3|exact He'| |done]. by apply (pw_tables _ _ (gr_wf _ _ _ G) _ _ P3 Hlow). }
      change (page_free s0 (PTE_GET_ADDR e)) with (page_free s (PTE_GET_ADDR e)) in He'. congruence.
  - intros Hnone. assert (walk s3 r q = None) as Hn3
      by (rewrite <- Hnone, <- Hw0; apply (grown_leaf s0 s3 r G v)).
    change ([PML4E v; PDPTE v; PDE v] ++ [PTE v]) with q in U. rewrite Hn3 in U.
    injection St as _ _ _ S7. change (pages (set_vm vm' s3)) with (physical vm') in S7. split.
    + change (free_pages s) with (free_pages s0). etrans; [exact Hn|]. apply Z.eq_le_incl. unfold free_pages.
      change (pages (set_wlock 0 s4)) with (physical vm'). rewrite S7. symmetry. apply count_free_ext.
      intros k Hk. apply U. lia.
    + intros a Ha Hfa. change (page_free (set_wlock 0 s4) a) with (page_free s4 a). unfold page_free.
      change (pages s4) with (physical vm'). rewrite S7, U by (apply Z.div_pos; [lia|done]).
      by apply (gr_live _ _ _ G).
Qed.

(** ** Lookup *)

Definition translate (s : mmu) (r v : Z) : Z :=
  match walk s r (indices (AMD64_MM_STRIPSX v)) with
  | Some e => u64 (PTE_GET_ADDR e + v mod 4096)
  | None => 0
  end.

(** Addresses the direct map does not answer for. *)
Definition outside_hhdm (s : mmu) (v : Z) : Prop :=
  (hhdm s <=? v) && (v <? u64 (hhdm s + boot_extent s)) = false.

Lemma strip_eq a : AMD64_MM_STRIPSX a = a mod 2 ^ 48.
Proof. apply (Z.land_ones _ 48). lia. Qed.
Lemma strip_bounds a : 0 <= AMD64_MM_STRIPSX a < 2 ^ 48.
Proof. rewrite strip_eq. apply Z.mod_pos_bound. lia. Qed.

Lemma page_base_eq v : Z.land v (Z.lnot 0xFFF) = v / 4096 * 4096.
Proof.
  change 0xFFF with (Z.ones 12). rewrite <- Z.ldiff_land, Z.ldiff_ones_r by lia.
  by rewrite Z.shiftl_mul_pow2, Z.shiftr_div_pow2 by lia.
Qed.

Lemma indices_page_base v :
  indices (AMD64_MM_STRIPSX (Z.land v (Z.lnot 0xFFF))) = indices (AMD64_MM_STRIPSX v).
Proof.
  apply indices_inj; [apply strip_bounds..|]. rewrite !strip_eq, page_base_eq.
  Z.to_euclidean_division_equations. lia.
Qed.

Lemma look_table_ok s e i :
  0 <= i < 512 -> full_size e = false ->
  look_table (u64 (PTE_GET_ADDR e + hhdm s)) i s =
  Ok ((fun e' => u64 (PTE_GET_ADDR e' + hhdm s)) <$> walk s e [i], s).
Proof.
  intros Hi Hps. unfold look_table. destruct (PTE_GET_ADDR_bounds e).
  erewrite bind_ok by (by apply table_get_ok). cbn. rewrite Hps. by destruct (has_flag _ _).
Qed.

Lemma walk_cons s e i p : walk s e (i :: p) = walk s e [i] ≫= fun e' => walk s e' p.
Proof. apply (walk_app s e [i]). Qed.

(** No entry of full size on the way to [v], which the lookup would take for a
    table. *)
Definition small_pages (s : mmu) (r v : Z) : Prop :=
  forall q1 j q2 e, indices (AMD64_MM_STRIPSX v) = q1 ++ j :: q2 -> walk s r q1 = Some e -> full_size e = false.

(** Addresses of the lower half. *)
Lemma low_index v : 0 <= v < 2 ^ 48 -> PML4E v < 256 <-> v < 2 ^ 47.
Proof.
  intros Hv. unfold PML4E. rewrite index_eq by lia. rewrite Z.mod_small; [Z.to_euclidean_division_equations; lia|].
  split; [apply Z.div_pos; lia|apply Z.div_lt_upper_bound; lia].
Qed.

Lemma lower_small s r v : pt_wf s r -> PML4E (AMD64_MM_STRIPSX v) < 256 -> small_pages s r v.
Proof.
  intros W Hlow q1 j q2 e Eq He. pose proof (proj2 (indices_path (AMD64_MM_STRIPSX v))) as Hp. rewrite Eq in Hp.
  apply (pw_tables _ _ W q1 e); [|destruct q1; [done|by injection Eq as <- _]|done].
  destruct (path_app _ _ _ Hp) as [H _]. eapply path_mono; [exact H|cbn; lia].
Qed.

Lemma paging_virtual_to_physical_ok s r v :
  globalPagedir s = pagedir_of s r -> globalPagedir s <> 0 -> 0 <= wlock_paging s ->
  outside_hhdm s v -> small_pages s r v ->
  paging_virtual_to_physical v s = Ok (translate s r v, s).
Proof.
  intros Hg Hz Hl Ho Hsm. unfold paging_virtual_to_physical. erewrite bind_ok by done.
  rewrite (proj2 (Z.eqb_neq _ _)) by done. unfold outside_hhdm in Ho. rewrite Ho. rewrite Hg. unfold translate.
  unfold small_pages in Hsm. rewrite <- indices_page_base in *. set (w := AMD64_MM_STRIPSX _) in *.
  set (s0 := set_wlock (wlock_paging s + 1) s).
  erewrite (bind_ok _ _ s tt s0)
    by (unfold on_wlock, spinlock_cnt_read_acquire; by rewrite (proj2 (Z.ltb_ge _ _))).
  pose proof (indices_range w) as Hr. unfold indices in *. do 4 (apply Forall_cons in Hr as [? Hr]).
  assert (Hrel : forall x : Z, (on_wlock spinlock_cnt_read_release ;;; ret x) s0 = Ok (x, s)).
  { intros x. unfold on_wlock, spinlock_cnt_read_release, bind. cbn [wlock_paging s0 set_wlock].
    rewrite (proj2 (Z.ltb_ge _ _)) by lia. unfold ret. do 2 f_equal.
    rewrite Z.add_simpl_r. by destruct s. }
  rewrite <- (walk_set_wlock (wlock_paging s + 1)). fold s0.
  assert (Hoff : Z.land v 0xFFF = v mod 4096) by (apply (Z.land_ones v 12); lia).
  change (pagedir_of s r) with (u64 (PTE_GET_ADDR r + hhdm s0)).
  assert (Hroot : full_size r = false) by (by apply (Hsm [] (PML4E w) [PDPTE w; PDE w; PTE w] r)).
  assert (Hs0 : forall q1 j q2 e, [PML4E w; PDPTE w; PDE w; PTE w] = q1 ++ j :: q2 -> walk s0 r q1 = Some e -> full_size e = false).
  { intros q1 j q2 e. unfold s0. rewrite walk_set_wlock. apply Hsm. }
  erewrite bind_ok; [apply Hrel|].
  mgo look_table_ok; [|done|done]. rewrite (walk_cons _ _ _ [PDPTE w; PDE w; PTE w]).
  destruct (walk s0 r [PML4E w]) as [e1|] eqn:E1; cbn [fmap option_fmap option_map mbind option_bind]; [|done].
  pose proof (Hs0 [PML4E w] (PDPTE w) [PDE w; PTE w] e1 eq_refl E1) as Ps1.
  mgo look_table_ok; [|done|done]. rewrite (walk_cons _ _ _ [PDE w; PTE w]).
  destruct (walk s0 e1 [PDPTE w]) as [e2|] eqn:E2; cbn [fmap option_fmap option_map mbind option_bind]; [|done].
  assert (walk s0 r [PML4E w; PDPTE w] = Some e2) as E2' by (rewrite walk_cons, E1; exact E2).
  pose proof (Hs0 [PML4E w; PDPTE w] (PDE w) [PTE w] e2 eq_refl E2') as Ps2.
  mgo look_table_ok; [|done|done]. rewrite (walk_cons _ _ _ [PTE w]).
  destruct (walk s0 e2 [PDE w]) as [e3|] eqn:E3; cbn [fmap option_fmap option_map mbind option_bind]; [|done].
  assert (walk s0 r [PML4E w; PDPTE w; PDE w] = Some e3) as E3'
    by (rewrite (walk_app _ _ [PML4E w; PDPTE w] [PDE w]), E2'; exact E3).
  pose proof (Hs0 [PML4E w; PDPTE w; PDE w] (PTE w) [] e3 eq_refl E3') as Ps3.
  destruct (PTE_GET_ADDR_bounds e3). erewrite bind_ok by (by apply table_get_ok).
  rewrite Hoff. cbn. rewrite Ps3. by destruct (has_flag _ _).
Qed.

(** ** Theorems *)

(** The ways of the upper half stay, so do the full-size entries on them. *)
Lemma small_kept s s' r v :
  pt_wf s' r -> (forall q, path 4 q -> ~ own q -> walk s' r q = walk s r q) -> small_pages s r v -> small_pages s' r v.
Proof.
  intros W Hu Hsm. destruct (decide (PML4E (AMD64_MM_STRIPSX v) < 256)) as [Hl|Hl]; [by apply lower_small|].
  intros q1 j q2 e Eq He. pose proof (proj2 (indices_path (AMD64_MM_STRIPSX v))) as Hp. rewrite Eq in Hp.
  destruct (path_app _ _ _ Hp) as [H1 _]. assert (path 3 q1) as H3 by (eapply path_mono; [exact H1|cbn; lia]).
  destruct q1 as [|i q1]; [apply (pw_tables _ _ W [] e); done|].
  apply (Hsm (i :: q1) j q2); [done|]. rewrite <- Hu; [done|eapply path_mono; [exact H3|lia]|]. by injection Eq as <- _.
Qed.

Lemma static_parts s s' : static s' = static s ->
  globalPagedir s' = globalPagedir s /\ boot_extent s' = boot_extent s.
Proof. intros St. by injection St as _ _ ? _ ? _ _. Qed.

(** C6: Mapping, then looking up, in a directory that may hold the direct map and
    full-size entries in its upper half.  [virtual_map] of an address of the lower
    half to a page that is neither free nor a table, with three pages to spare for
    tables, returns; afterwards [paging_virtual_to_physical] gives the new page and
    the offset for every address of the mapped page and its previous answer for
    every other address outside the direct map that is not behind a full-size
    entry, and the invariant of the tables holds again. *)
Theorem virtual_map_then_lookup s r virt phys flags :
  pt_wf s r -> globalPagedir s = pagedir_of s r -> globalPagedir s <> 0 ->
  wlock_paging s = 0 -> 3 <= free_pages s ->
  virt mod PAGE_SIZE = 0 -> AMD64_MM_STRIPSX virt < 2 ^ 47 -> 0 <= phys < 2 ^ 52 -> 0 <= flags < 4096 ->
  let q := indices (AMD64_MM_STRIPSX virt) in
  old_managed s r q -> replaceable s r q (phys / 4096 * 4096) ->
  exists s', virtual_map virt phys flags s = Ok (tt, s') /\ pt_wf s' r /\
    forall v, outside_hhdm s v -> small_pages s r v -> exists a,
      paging_virtual_to_physical v s = Ok (a, s) /\
      paging_virtual_to_physical v s' =
        Ok (if decide (AMD64_MM_STRIPSX v / 4096 = AMD64_MM_STRIPSX virt / 4096)
            then phys / 4096 * 4096 + v mod 4096 else a, s').
Proof.
  intros W Hg Hz Hl Hc Hv Hlow Hp Hf q Hold R. destruct (new_entry_ok phys flags Hp Hf) as [X1 X2].
  apply (low_index _ (strip_bounds virt)) in Hlow.
  destruct (virtual_mapL_ok s r virt phys flags W Hlow Hl Hc Hv Hp Hf Hold) as (s' & E & St & L' & Hw & Hu & _ & W' & _).
  rewrite X1 in W'. specialize (W' R). exists s'. split; [|split; [done|]].
  { unfold virtual_map. erewrite bind_ok by done. by rewrite Hg. }
  intros v Ho Hsm. pose proof (static_hhdm _ _ St) as Hh. destruct (static_parts _ _ St) as [Hg' He'].
  exists (translate s r v). split; [apply paging_virtual_to_physical_ok; (done || lia)|].
  rewrite (paging_virtual_to_physical_ok s' r).
  2:{ rewrite Hg', Hg. unfold pagedir_of. by rewrite Hh. }
  2:{ by rewrite Hg'. }
  2:{ lia. }
  2:{ unfold outside_hhdm. by rewrite Hh, He'. }
  2:{ by apply (small_kept s s'). }
  do 2 f_equal. unfold translate at 1. rewrite Hw by (apply indices_path || done).
  pose proof (indices_inj (AMD64_MM_STRIPSX v) (AMD64_MM_STRIPSX virt)
    (strip_bounds v) (strip_bounds virt)) as Hiff.
  destruct (decide (_ / 4096 = _ / 4096)) as [Es|Es].
  - rewrite decide_True by (by apply Hiff). rewrite X1. apply u64_small.
    pose proof (Z.mod_pos_bound v 4096). pose proof (Z.div_mod phys 4096).
    pose proof (Z.mod_pos_bound phys 4096). lia.
  - rewrite decide_False by (by rewrite Hiff). done.
Qed.

(** Directories with nothing in the lower half and, in the upper half, a direct
    map: a table in page 1 whose first entry is a full-size entry for the first
    gigabyte, every page of the machine included.  The root is page 2. *)
Definition ex_ram : gmap Z Z := {[ 10240 := 4099; 4096 := 131 ]}.
Definition ex_with (b : Bitmap) (extent : Z) : mmu :=
  mkMmu (mkVmm b no_bitmap 0xffff800000000000) ex_ram 0xffff800000002000 0x2000 0 extent.
Definition ex_mmu : mmu := ex_with (mkBitmap [15; 0] 16 2 4 0 0 false true) 65536.

Lemma ex_root b x i : 0 <= i < 512 -> entry (ex_with b x) 8192 i = if decide (i = 256) then 4099 else 0.
Proof.
  intros Hi. unfold entry. change (ram (ex_with b x)) with ex_ram. unfold ex_ram. case_decide as E; [by subst i|].
  rewrite lookup_insert_ne by lia. rewrite lookup_singleton_ne by lia. done.
Qed.
Lemma ex_direct b x i : 0 <= i < 512 -> entry (ex_with b x) 4096 i = if decide (i = 0) then 131 else 0.
Proof.
  intros Hi. unfold entry. change (ram (ex_with b x)) with ex_ram. unfold ex_ram. case_decide as E; [by subst i|].
  rewrite lookup_insert_ne by lia. rewrite lookup_singleton_ne by lia. done.
Qed.

Lemma ex_walk b x q e : Forall (fun i => 0 <= i < 512) q -> walk (ex_with b x) 8192 q = Some e ->
  (q = [] /\ e = 8192) \/ (q = [256] /\ e = 4099) \/ (q = [256; 0] /\ e = 131).
Proof.
  intros Hq. destruct q as [|i q]; [intros [= <-]; by left|]. intros H. right. revert H. apply Forall_cons in Hq as [Hi Hq].
  cbn [walk]. change (full_size 8192) with false. change (PTE_GET_ADDR 8192) with 8192. cbv iota zeta. rewrite ex_root by done.
  case_decide as E; [subst i|done]. change (has_flag 4099 PF_PRESENT) with true. cbv iota.
  destruct q as [|j q]; [intros [= <-]; by left|]. intros H. right. revert H. apply Forall_cons in Hq as [Hj Hq].
  cbn [walk]. change (full_size 4099) with false. change (PTE_GET_ADDR 4099) with 4096. cbv iota zeta. rewrite ex_direct by done.
  case_decide as E; [subst j|done]. change (has_flag 131 PF_PRESENT) with true. cbv iota.
  destruct q as [|k q]; [by intros [= <-]|done].
Qed.

Lemma ex_own b x q e : path 4 q -> own q -> walk (ex_with b x) 8192 q = Some e -> q = [] /\ e = 8192.
Proof. intros [_ Hq] Ho [?|[[-> _]|[-> _]]]%ex_walk; [done|cbn in Ho; lia..|done]. Qed.

Lemma ex_wf b x : booted b -> BitmapSizeInBlocks b <= 2 ^ 40 -> used b 1 = true -> used b 2 = true -> pt_wf (ex_with b x) 8192.
Proof.
  intros B Hb H1 H2. split; [done|done|done|..].
  - intros p e Hp Ho He. by apply ex_own in He as [_ ->]; [|eapply path_mono; [exact Hp|lia]|].
  - intros p q e e' Hp Ho [_ Hq] He He' Hps Ea. apply ex_own in He as [-> ->]; [|done..].
    by apply ex_walk in He' as [[-> ->]|[[-> ->]|[-> ->]]].
  - intros p e [_ Hp] He Hor. unfold page_free. change (pages (ex_with b x)) with b.
    apply ex_walk in He as [[-> ->]|[[-> ->]|[-> ->]]]; [| | |done].
    + change (PTE_GET_ADDR 8192 / BLOCK_SIZE) with 2. by rewrite H2, andb_false_r.
    + change (PTE_GET_ADDR 4099 / BLOCK_SIZE) with 1. by rewrite H1, andb_false_r.
    + exfalso. destruct Hor as [Ho|[_ Hps]]; [cbn in Ho; lia|done].
Qed.

Lemma ex_mmu_wf : pt_wf ex_mmu 8192.
Proof.
  apply ex_wf; [|done..]. split; [|done..]. split; cbn; try lia; [done|].
  intros k Hk. assert (k = 0 \/ k = 1 \/ k = 2 \/ k = 3) as [->|[->|[->| ->]]] by lia; done.
Qed.

Lemma ex_replaceable a q :
  path 4 q -> own q -> q <> [] -> page_free ex_mmu a = false -> 8192 <> a -> 4096 <> a -> replaceable ex_mmu 8192 q a.
Proof.
  intros Hq Ho Hne Hf Ha Hb. split; [done|..].
  - intros p e [_ Hp] [[-> ->]|[[-> ->]|[-> ->]]]%ex_walk; [done|done|done|done].
  - by intros e [-> _]%ex_own.
Qed.

Lemma virtual_map_then_lookup_witness :
  exists s', virtual_map 0x400000 12288 7 ex_mmu = Ok (tt, s') /\ pt_wf s' 8192 /\
    forall v, outside_hhdm ex_mmu v -> small_pages ex_mmu 8192 v -> exists a,
      paging_virtual_to_physical v ex_mmu = Ok (a, ex_mmu) /\
      paging_virtual_to_physical v s' =
        Ok (if decide (AMD64_MM_STRIPSX v / 4096 = 1024) then 12288 + v mod 4096 else a, s').
Proof.
  pose proof (proj2 (indices_path 0x400000)) as Hpath.
  apply (virtual_map_then_lookup ex_mmu 8192 0x400000 12288 7);
    [apply ex_mmu_wf|done|done|done|done|done|done|lia|lia|by intros e [? _]%(ex_own _ _ _ _ Hpath)|by apply ex_replaceable].
Defined.

(** Mapping a page where it is mapped already releases it: the entry keeps
    pointing to the page, and the page is free for the next allocation. *)
Theorem remap_frees_mapped_page s r virt phys flags e :
  pt_wf s r -> AMD64_MM_STRIPSX virt < 2 ^ 47 -> wlock_paging s = 0 -> 3 <= free_pages s ->
  virt mod PAGE_SIZE = 0 -> 0 < phys < 2 ^ 52 -> 0 <= flags < 4096 ->
  phys / BLOCK_SIZE < BitmapSizeInBlocks (pages s) ->
  let q := indices (AMD64_MM_STRIPSX virt) in
  walk s r q = Some e -> PTE_GET_ADDR e = phys ->
  exists s' e', virtual_mapL (pagedir_of s r) virt phys flags s = Ok (tt, s') /\
    walk s' r q = Some e' /\ PTE_GET_ADDR e' = phys /\ page_free s' phys = true.
Proof.
  intros W Hlow Hl Hc Hv Hp Hf Hb q He <-. apply (low_index _ (strip_bounds virt)) in Hlow. destruct (PTE_GET_ADDR_bounds e) as [_ Me].
  destruct (new_entry_ok (PTE_GET_ADDR e) flags ltac:(lia) Hf) as [X1 X2].
  destruct (virtual_mapL_ok s r virt (PTE_GET_ADDR e) flags W Hlow Hl Hc Hv ltac:(lia) Hf)
    as (s' & E & _ & _ & Hw & _ & Hfree & _).
  { intros y Hy. fold q in Hy. rewrite He in Hy. injection Hy as <-. split; [lia|done]. }
  exists s', (new_entry (PTE_GET_ADDR e) flags). split_and!; [done| | |by apply Hfree].
  - rewrite Hw by (apply indices_path || done). by rewrite decide_True.
  - rewrite X1. pose proof (Z.div_mod (PTE_GET_ADDR e) 4096). lia.
Qed.

Lemma remap_frees_mapped_page_witness :
  exists s s' e', virtual_mapL 0xffff800000002000 0x400000 12288 7 ex_mmu = Ok (tt, s) /\
    virtual_mapL 0xffff800000002000 0x400000 12288 7 s = Ok (tt, s') /\
    walk s' 8192 (indices 0x400000) = Some e' /\ PTE_GET_ADDR e' = 12288 /\
    page_free s' 12288 = true.
Proof.
  pose proof (proj2 (indices_path 0x400000)) as Hpath.
  destruct (virtual_mapL_ok ex_mmu 8192 0x400000 12288 7 ex_mmu_wf) as (s & E & St & L & Hw & _ & _ & W & _);
    [done|done|done|done|lia|lia|by intros e [? _]%(ex_own _ _ _ _ Hpath)|].
  specialize (W ltac:(apply ex_replaceable; done)).
  assert (Hc : match virtual_mapL 0xffff800000002000 0x400000 12288 7 ex_mmu with
               | Ok (_, s) => 3 <=? free_pages s | _ => false end = true) by (vm_compute; reflexivity).
  change (pagedir_of ex_mmu 8192) with 0xffff800000002000 in E. rewrite E in Hc. apply Z.leb_le in Hc.
  specialize (Hw (indices 0x400000) (proj2 (indices_path 0x400000)) eq_refl).
  change (AMD64_MM_STRIPSX 0x400000) with 0x400000 in Hw. rewrite decide_True in Hw by done.
  assert (pagedir_of s 8192 = 0xffff800000002000) as Hd
    by (unfold pagedir_of; by rewrite (static_hhdm _ _ St)).
  assert (Hb : 12288 / BLOCK_SIZE < BitmapSizeInBlocks (pages s))
    by (injection St as _ _ _ _ _ _ S7; by rewrite S7).
  destruct (remap_frees_mapped_page s 8192 0x400000 12288 7 _ W eq_refl L Hc eq_refl ltac:(lia) ltac:(lia) Hb Hw eq_refl)
    as (s' & e' & E' & HH). rewrite Hd in E'. exists s, s', e'. exact (conj E (conj E' HH)).
Defined.
