(* ===== verification/UserMemory.v ===== *)
(** * Memory of a process

    The processor reaches user memory through the directory in [cr3]; physical
    memory is the [ram] of 64-bit words of [Paging].  [user_byte] reads a byte
    the way the processor does, [write_bytes] is the effect of [memcpy] and
    [memset] on user addresses; an address without a page is a page fault, which
    stops the kernel ([cpu/isr.cpp]).  Access rights are not part of the model.

    [space] is the invariant of a directory in use: the tables are well formed
    (its upper half may hold the direct map, as every directory of the kernel
    does) and no two user pages share a frame. *)

From S2P Require Import Prelude Bytes Spinlock Bitmap Pmm Paging.

(** ** Bytes of physical memory *)

Definition word_byte (w k : Z) : Z := Z.land (Z.shiftr w (8 * k)) 255.
Definition word_put (w k b : Z) : Z :=
  Z.lor (Z.land w (Z.lnot (Z.shiftl 255 (8 * k)))) (Z.shiftl b (8 * k)).

Definition ram_word (s : mmu) (p : Z) : Z := default 0 (ram s !! (p / 8 * 8)).
Definition phys_byte (s : mmu) (p : Z) : Z := word_byte (ram_word s p) (p mod 8).
Definition put_byte (p b : Z) (s : mmu) : mmu :=
  set_ram (<[p / 8 * 8 := word_put (ram_word s p) (p mod 8) b]> (ram s)) s.

(** ** The processor's accesses *)

Definition canonical (v : Z) : bool := (v <? 2 ^ 47) || (2 ^ 64 - 2 ^ 47 <=? v).

Definition mmu_translate (s : mmu) (v : Z) : option Z :=
  if canonical v then
    e ← walk s (cr3 s) (indices (AMD64_MM_STRIPSX v)); Some (PTE_GET_ADDR e + v mod 4096)
  else None.

Definition user_byte (s : mmu) (v : Z) : option Z := phys_byte s <$> mmu_translate s v.

Definition store_byte (v b : Z) : M mmu unit := fun s =>
  match mmu_translate s v with
  | Some p => Ok (tt, put_byte p b s)
  | None => Fault
  end.

Fixpoint write_bytes (v : Z) (bs : list Z) : M mmu unit :=
  match bs with
  | [] => ret tt
  | b :: bs => store_byte v b ;;; write_bytes (u64 (v + 1)) bs
  end.

(** ** Bytes in words *)

Lemma word_byte_put w k b j :
  0 <= k -> 0 <= j -> is_byte b -> word_byte (word_put w k b) j = if decide (j = k) then b else word_byte w j.
Proof.
  intros Hk Hj [Hb0 Hb1]. apply Z.bits_inj'. intros n Hn. unfold word_byte, word_put.
  assert (H255 : forall m, 0 <= m -> Z.testbit 255 m = bool_decide (m < 8)).
  { intros m Hm. change 255 with (Z.ones 8). rewrite Z.testbit_ones_nonneg by lia.
    destruct (Z.ltb_spec m 8); symmetry; [by apply bool_decide_eq_true_2|apply bool_decide_eq_false_2; lia]. }
  assert (Hbn : forall m, 8 <= m -> Z.testbit b m = false).
  { intros m Hm. destruct (decide (b = 0)) as [->|]; [apply Z.bits_0|]. apply Z.bits_above_log2; [lia|].
    pose proof (proj1 (Z.log2_lt_pow2 b 8 ltac:(lia)) ltac:(lia)). lia. }
  rewrite Z.land_spec, Z.shiftr_spec, Z.lor_spec, Z.land_spec, Z.lnot_spec, !Z.shiftl_spec, (H255 n) by lia.
  destruct (decide (n < 8)) as [Hn8|Hn8].
  - rewrite (bool_decide_eq_true_2 (n < 8)) by done. rewrite andb_true_r. case_decide as E.
    + subst j. replace (n + 8 * k - 8 * k) with n by lia. rewrite H255, bool_decide_eq_true_2 by lia.
      cbn. by rewrite andb_false_r.
    + rewrite Z.land_spec, Z.shiftr_spec, (H255 n), bool_decide_eq_true_2, andb_true_r by lia.
      destruct (decide (n + 8 * j < 8 * k)).
      * rewrite !(Z.testbit_neg_r _ (n + 8 * j - 8 * k)) by lia. by rewrite andb_true_r, orb_false_r.
      * rewrite (H255 (n + 8 * j - 8 * k)), bool_decide_eq_false_2, (Hbn (n + 8 * j - 8 * k)) by lia. by rewrite andb_true_r, orb_false_r.
  - rewrite (bool_decide_eq_false_2 (n < 8)) by done. rewrite andb_false_r. case_decide.
    + symmetry. apply Hbn. lia.
    + rewrite Z.land_spec, (H255 n), bool_decide_eq_false_2, andb_false_r by lia. done.
Qed.

Lemma phys_byte_put p b s p' :
  is_byte b -> phys_byte (put_byte p b s) p' = if decide (p' = p) then b else phys_byte s p'.
Proof.
  intros Hb. unfold phys_byte, ram_word, put_byte. cbn.
  pose proof (Z.mod_pos_bound p 8 ltac:(lia)). pose proof (Z.mod_pos_bound p' 8 ltac:(lia)).
  pose proof (Z.div_mod p 8 ltac:(lia)). pose proof (Z.div_mod p' 8 ltac:(lia)).
  destruct (decide (p / 8 = p' / 8)) as [E|E].
  - rewrite E, lookup_insert_eq. cbn [from_option id]. rewrite word_byte_put by (lia || done).
    unfold ram_word. rewrite E. repeat case_decide; (done || lia).
  - rewrite lookup_insert_ne by lia. rewrite decide_False by (intros ->; lia). done.
Qed.

(** A byte of a page from the page's words. *)
Lemma phys_byte_entry s a o :
  a mod 4096 = 0 -> 0 <= o < 4096 -> phys_byte s (a + o) = word_byte (entry s a (o / 8)) (o mod 8).
Proof.
  intros Ha Ho. unfold phys_byte, ram_word, entry. pose proof (Z.div_mod a 4096 ltac:(lia)) as Hd.
  replace ((a + o) / 8 * 8) with (a + 8 * (o / 8)) by (Z.to_euclidean_division_equations; lia).
  by replace ((a + o) mod 8) with (o mod 8) by (Z.to_euclidean_division_equations; lia).
Qed.

Lemma entry_put_byte s p b a j :
  a mod 4096 = 0 -> 0 <= j < 512 -> p / 4096 * 4096 <> a -> entry (put_byte p b s) a j = entry s a j.
Proof.
  intros Ha Hj Hne. unfold entry, put_byte. cbn. rewrite lookup_insert_ne; [done|].
  intros E. apply Hne. Z.to_euclidean_division_equations. lia.
Qed.

(** ** The invariant of an address space *)

Definition user (v : Z) : Prop := 0 <= v < 2 ^ 47.

Record space (s : mmu) (r : Z) : Prop := {
  sp_wf : pt_wf s r;
  sp_dir : globalPagedir s = pagedir_of s r;
  sp_some : globalPagedir s <> 0;
  sp_cr3 : PTE_GET_ADDR (cr3 s) = PTE_GET_ADDR r;
  sp_cr3_flags : full_size (cr3 s) = false;
  sp_lock : wlock_paging s = 0;
  sp_high : 2 ^ 47 <= hhdm s;
  sp_private : forall v w p q, user v -> user w -> mmu_translate s v = Some p ->
    mmu_translate s w = Some q -> p / 4096 = q / 4096 -> v / 4096 = w / 4096;
  sp_nonzero : forall v p, user v -> mmu_translate s v = Some p -> 4096 <= p;
}.

(** What stays when only contents or mappings of user pages change. *)
Record kept (s s' : mmu) : Prop := {
  kp_static : static s' = static s;
  kp_lock : wlock_paging s' = wlock_paging s;
}.

Lemma kept_trans s1 s2 s3 : kept s1 s2 -> kept s2 s3 -> kept s1 s3.
Proof. intros [A B] [C D]. split; congruence. Qed.

Lemma user_strip v : user v -> AMD64_MM_STRIPSX v = v.
Proof. intros Hv. rewrite strip_eq. unfold user in Hv. apply Z.mod_small. lia. Qed.

Lemma user_canonical v : user v -> canonical v = true.
Proof. intros [_ H]. unfold canonical. by rewrite (proj2 (Z.ltb_lt _ _) H). Qed.

Lemma walk_root s e e' q :
  PTE_GET_ADDR e = PTE_GET_ADDR e' -> full_size e = full_size e' -> q <> [] -> walk s e q = walk s e' q.
Proof. intros E Ep Hq. destruct q as [|i q]; [done|]. cbn. by rewrite E, Ep. Qed.

Lemma user_low v : user v -> PML4E v < 256.
Proof. intros [H0 H1]. apply low_index; lia. Qed.
Lemma user_own v : user v -> own (indices v).
Proof. apply user_low. Qed.

Section space.
Context (s : mmu) (r : Z) (Sp : space s r).

Lemma space_root s' q : q <> [] -> walk s' (cr3 s) q = walk s' r q.
Proof using Sp.
  apply walk_root; [apply Sp|]. rewrite (sp_cr3_flags _ _ Sp). symmetry.
  by apply (pw_tables _ _ (sp_wf _ _ Sp) [] r); [split; [cbn; lia|apply Forall_nil_2]|..].
Qed.

Lemma translate_walk v :
  user v -> mmu_translate s v = e ← walk s r (indices v); Some (PTE_GET_ADDR e + v mod 4096).
Proof using Sp.
  intros Hv. unfold mmu_translate. rewrite user_canonical, user_strip by done.
  by rewrite space_root.
Qed.

Lemma translate_Some v p :
  user v -> mmu_translate s v = Some p ->
  exists e, walk s r (indices v) = Some e /\ p = PTE_GET_ADDR e + v mod 4096 /\
    p / 4096 * 4096 = PTE_GET_ADDR e.
Proof using Sp.
  intros Hv. rewrite translate_walk by done. destruct (walk s r (indices v)) as [e|]; [|done].
  intros [= <-]. exists e. destruct (PTE_GET_ADDR_bounds e) as [Be Me]. split_and!; [done..|].
  pose proof (Z.mod_pos_bound v 4096 ltac:(lia)). Z.to_euclidean_division_equations. lia.
Qed.

Lemma user_outside v : user v -> outside_hhdm s v.
Proof using Sp.
  intros [_ Hv]. unfold outside_hhdm. pose proof (sp_high _ _ Sp).
  by rewrite (proj2 (Z.leb_gt (hhdm s) v)) by lia.
Qed.

(** The software walk agrees with the processor's. *)
Lemma lookup_user v :
  user v -> paging_virtual_to_physical v s = Ok (default 0 (mmu_translate s v), s).
Proof using Sp.
  intros Hv. rewrite (paging_virtual_to_physical_ok s r).
  2:{ apply Sp. }
  2:{ apply Sp. }
  2:{ rewrite (sp_lock _ _ Sp). lia. }
  2:{ by apply user_outside. }
  2:{ apply lower_small; [apply Sp|]. rewrite user_strip by done. by apply user_low. }
  unfold translate. rewrite user_strip, translate_walk by done.
  destruct (walk s r (indices v)) as [e|]; [|done]. cbn. do 2 f_equal.
  destruct (PTE_GET_ADDR_bounds e). pose proof (Z.mod_pos_bound v 4096 ltac:(lia)). apply u64_small. lia.
Qed.

(** The frame of a mapped user page is in use and not a table. *)
Lemma frame_live v e : user v -> walk s r (indices v) = Some e -> page_free s (PTE_GET_ADDR e) = false.
Proof using Sp. intros Hv He. eapply (pw_live _ _ (sp_wf _ _ Sp)); [apply indices_path|exact He|left; by apply user_own]. Qed.

Lemma frame_not_table v e : user v -> walk s r (indices v) = Some e -> not_table s r (PTE_GET_ADDR e).
Proof using Sp.
  intros Hv He p y Hp Hy Hps Ey.
  assert (indices v = p) as <-; [|by destruct Hp as [Hl _]; cbn in Hl; lia].
  eapply (pw_inj _ _ (sp_wf _ _ Sp) (indices v) p e y); (apply indices_path || by apply user_own || done).
Qed.

Lemma same_page v w : user v -> user w -> indices v = indices w <-> v / 4096 = w / 4096.
Proof using. intros [? ?] [? ?]. apply indices_inj; lia. Qed.
End space.

(** Changing bytes of a mapped user page. *)
Section store.
Context (s : mmu) (r : Z) (Sp : space s r).
Context (v p : Z) (Hv : user v) (Hp : mmu_translate s v = Some p) (b : Z).
Let s' := put_byte p b s.

Lemma walk_put_byte q : path 4 q -> walk s' r q = walk s r q.
Proof using Sp Hv Hp.
  intros Hq. destruct (translate_Some s r Sp v p Hv Hp) as (e & He & -> & Hf).
  apply walk_frame. intros q1 j q2 y -> Hy Hps. destruct (path_app 4 q1 (j :: q2) Hq) as [H1 [_ [Hj _]%Forall_cons]].
  apply entry_put_byte; [apply PTE_GET_ADDR_bounds|done|]. rewrite Hf. intros E.
  eapply (frame_not_table s r Sp v e Hv He q1 y); [|done|done|done]. eapply path_mono; [exact H1|cbn; lia].
Qed.

Lemma translate_put_byte w : user w -> mmu_translate s' w = mmu_translate s w.
Proof using Sp Hv Hp.
  intros Hw. unfold mmu_translate. rewrite user_canonical, user_strip by done.
  change (cr3 s') with (cr3 s). rewrite !(space_root s r Sp) by done.
  by rewrite walk_put_byte by apply indices_path.
Qed.

Lemma space_put_byte : space s' r.
Proof using Sp Hv Hp.
  destruct Sp as [W D N C Cf L H P Z0]. split; try done.
  - apply (pt_wf_same s); [done|apply W|done|exact walk_put_byte|done].
  - intros w1 w2 p1 p2 H1 H2. rewrite !translate_put_byte by done. by apply P.
  - intros w q Hw. rewrite translate_put_byte by done. by apply Z0.
Qed.

Lemma kept_put_byte : kept s s'.
Proof using. by split. Qed.

Lemma user_byte_put w :
  is_byte b -> user w -> user_byte s' w = if decide (w = v) then Some b else user_byte s w.
Proof using Sp Hv Hp.
  intros Hb Hw. unfold user_byte. rewrite translate_put_byte by done. case_decide as E.
  - subst w. rewrite Hp. cbn. unfold s'. rewrite phys_byte_put by done. by rewrite decide_True.
  - destruct (mmu_translate s w) as [q|] eqn:Eq; [|done]. cbn. unfold s'. rewrite phys_byte_put by done.
    rewrite decide_False; [done|]. intros ->. apply E.
    pose proof (sp_private _ _ Sp w v p p Hw Hv Eq Hp eq_refl) as Hd.
    destruct (translate_Some s r Sp w p Hw Eq) as (e1 & _ & E1 & F1).
    destruct (translate_Some s r Sp v p Hv Hp) as (e2 & _ & E2 & F2).
    pose proof (Z.div_mod v 4096 ltac:(lia)). pose proof (Z.div_mod w 4096 ltac:(lia)). lia.
Qed.
End store.

Definition mapped (s : mmu) (v : Z) : Prop := mmu_translate s v <> None.
#[global] Instance mapped_dec s v : Decision (mapped s v) := ltac:(unfold mapped; apply _).

Lemma write_bytes_ok s r v bs :
  space s r -> 0 <= v -> v + zlen bs <= 2 ^ 47 -> Forall is_byte bs ->
  (forall i, 0 <= i < zlen bs -> mapped s (v + i)) ->
  exists s', write_bytes v bs s = Ok (tt, s') /\ space s' r /\ kept s s' /\ pages s' = pages s /\
    (forall w, user w -> mmu_translate s' w = mmu_translate s w) /\
    (forall w, user w -> user_byte s' w =
       if decide (v <= w < v + zlen bs) then bs !! Z.to_nat (w - v) else user_byte s w).
Proof.
  revert s v. induction bs as [|b bs IH]; intros s v Sp H0 Hl Hb Hm.
  - exists s. split_and!; [done|done|done|done|done|]. intros w _. change (zlen (@nil Z)) with 0.
    by rewrite decide_False by lia.
  - change (b :: bs) with ([b] ++ bs) in Hl, Hm. rewrite zlen_app in Hl, Hm. change (zlen [b]) with 1 in *.
    apply Forall_cons in Hb as [Hb Hbs]. pose proof (zlen_nonneg bs).
    assert (Hv : user v) by (split; lia).
    destruct (mmu_translate s v) as [p|] eqn:Ep; [|by specialize (Hm 0 ltac:(lia)); rewrite Z.add_0_r in Hm].
    destruct (IH (put_byte p b s) (v + 1)) as (s' & E & Sp' & K & Hpg & Ht & Hu);
      [by eapply space_put_byte|lia|lia|done| |].
    { intros i Hi. unfold mapped. rewrite (translate_put_byte s r Sp v p Hv Ep) by (split; lia).
      replace (v + 1 + i) with (v + (1 + i)) by lia. apply Hm. lia. }
    exists s'. split_and!; [|done|by eapply kept_trans; [apply kept_put_byte|]|done| |].
    + cbn [write_bytes]. erewrite bind_ok by (unfold store_byte; by rewrite Ep).
      by rewrite u64_small by lia.
    + intros w Hw. rewrite Ht by done. by apply (translate_put_byte s r Sp v p Hv Ep).
    + intros w Hw. rewrite Hu, (user_byte_put s r Sp v p Hv Ep b w Hb Hw) by done.
      change (zlen (b :: bs)) with (zlen ([b] ++ bs)). rewrite zlen_app. change (zlen [b]) with 1.
      destruct (decide (w = v)) as [->|].
      * rewrite (decide_False (P := v + 1 <= v < _)) by lia. rewrite decide_True by lia. by rewrite Z.sub_diag.
      * destruct (decide (v + 1 <= w < v + 1 + zlen bs));
          [rewrite decide_True by lia|by rewrite decide_False by lia].
        replace (Z.to_nat (w - v)) with (S (Z.to_nat (w - (v + 1)))) by lia. done.
Qed.

(** ** Giving a page its frame *)

(** [virtual_map(v, physical_allocate(1), flags)] *)
Definition map_fresh (v flags : Z) : M mmu unit :=
  let! p := on_vm (on_physical (physical_allocate 1)) in virtual_map v p flags.

Section map_fresh.
Context (s : mmu) (r : Z) (Sp : space s r).
Context (v flags : Z) (Hv : user v) (Hm : v mod 4096 = 0) (Hf : 0 <= flags < 4096).
Context (Hn : ~ mapped s v) (Hc : 4 <= free_pages s).

Lemma unmapped_walk s1 : ram s1 = ram s -> walk s1 r (indices v) = None.
Proof using Sp Hv Hn.
  intros Er. rewrite (walk_frame s s1) by (intros; unfold entry; by rewrite Er).
  unfold mapped in Hn. rewrite (translate_walk s r Sp v Hv) in Hn.
  destruct (walk s r (indices v)); [|done]. cbn in Hn. by destruct Hn.
Qed.

Lemma map_fresh_steps :
  exists f s', map_fresh v flags s = Ok (tt, s') /\ kept s s' /\ pt_wf s' r /\
    0 < f < 2 ^ 52 /\ f mod 4096 = 0 /\ page_free s f = true /\ free_pages s - 4 <= free_pages s' /\
    (forall w, user w -> walk s' r (indices w) =
       if decide (w / 4096 = v / 4096) then Some (new_entry f flags) else walk s r (indices w)) /\
    (forall a j, 0 <= a -> a mod 4096 = 0 -> 0 <= j < 512 ->
       a = f \/ (page_free s a = false /\ not_table s r a) -> entry s' a j = entry s a j).
Proof using Sp Hv Hm Hf Hn Hc.
  pose proof (sp_wf _ _ Sp) as W.
  destruct (page_allocate_ok s r W) as (f & s1 & E & Bf & Mf & Ff & Hpf & Er & W1 & St & Lk & Cn); [lia|].
  assert (Hw1 : forall q, walk s1 r q = walk s r q)
    by (intros; apply walk_frame; intros; unfold entry; by rewrite Er).
  assert (Hl1 : page_free s1 f = false) by (rewrite Hpf, Z.eqb_refl by lia; apply andb_false_r).
  assert (Hnt : not_table s1 r f).
  { intros p e Hp. rewrite Hw1. intros He Hps <-.
    pose proof (pw_live _ _ W p e (path_mono _ 4 _ Hp ltac:(lia)) He (or_intror (conj Hp Hps))). congruence. }
  pose proof (unmapped_walk s1 Er) as Hnone.
  destruct (new_entry_ok f flags ltac:(lia) Hf) as [X1 X2].
  assert (f / 4096 * 4096 = f) as Ef by (pose proof (Z.div_mod f 4096 ltac:(lia)); lia). rewrite Ef in X1.
  destruct (virtual_mapL_ok s1 r v f flags) as (s2 & E2 & St2 & L2 & Hw2 & _ & _ & W2 & Hr2 & Hn2);
    [done|rewrite user_strip by done; by apply user_low|by rewrite Lk, (sp_lock _ _ Sp)|lia|done|lia|done|rewrite user_strip by done; intros e; by rewrite Hnone|].
  rewrite user_strip in * by done. rewrite X1 in W2. destruct (Hn2 Hnone) as [Hcn Hlv].
  exists f, s2. split_and!; [| |apply W2|lia|lia|done|done|lia| |].
  - unfold map_fresh. mrw E. unfold virtual_map. erewrite bind_ok by done.
    destruct (static_parts _ _ St) as [Hg _]. rewrite Hg, (sp_dir _ _ Sp).
    unfold pagedir_of. rewrite <- (static_hhdm _ _ St). exact E2.
  - split; [by rewrite St2|]. by rewrite L2, (sp_lock _ _ Sp).
  - split; [done|done|]. intros e. by rewrite Hnone.
  - intros w Hw. rewrite Hw2 by (apply indices_path || done). rewrite Hw1.
    destruct (decide (w / 4096 = v / 4096)) as [Ew|Ew].
    + by rewrite decide_True by (by apply same_page).
    + rewrite decide_False; [done|]. intros Eq%same_page; done.
  - intros a j Ha Hma Hj Hor. rewrite Hr2; [unfold entry; by rewrite Er|done..| |].
    + destruct Hor as [->|[Hfa _]]; [done|]. by rewrite Hpf, Hfa.
    + destruct Hor as [->|[_ Ht]]; [done|]. intros p e Hp. rewrite Hw1. by apply Ht.
Qed.

(** The page gets a frame that was free, with whatever the frame held; every
    other page keeps its frame and its contents. *)
Lemma map_fresh_ok :
  exists f s', map_fresh v flags s = Ok (tt, s') /\ space s' r /\ kept s s' /\
    page_free s f = true /\ free_pages s - 4 <= free_pages s' /\
    (forall w, user w -> mmu_translate s' w =
       if decide (w / 4096 = v / 4096) then Some (f + w mod 4096) else mmu_translate s w) /\
    (forall w, user w -> user_byte s' w =
       if decide (w / 4096 = v / 4096) then Some (phys_byte s (f + w mod 4096)) else user_byte s w).
Proof using Sp Hv Hm Hf Hn Hc.
  destruct map_fresh_steps as (f & s' & E & K & W & Bf & Mf & Ff & Cn & Hw & Hr).
  destruct (new_entry_ok f flags ltac:(lia) Hf) as [X1 _].
  assert (f / 4096 * 4096 = f) as Ef by (pose proof (Z.div_mod f 4096 ltac:(lia)); lia). rewrite Ef in X1.
  pose proof (kp_static _ _ K) as St. injection St as S1 S2 S3 S4 S5 S6 S7.
  assert (Ht : forall w, user w -> mmu_translate s' w =
    if decide (w / 4096 = v / 4096) then Some (f + w mod 4096) else mmu_translate s w).
  { intros w Hu. unfold mmu_translate. rewrite user_canonical, user_strip, S4 by done.
    rewrite !(space_root s r Sp) by done. rewrite Hw by done.
    case_decide; [cbn; by rewrite X1|done]. }
  assert (Hfr : forall w p, user w -> mmu_translate s w = Some p -> p / 4096 <> f / 4096).
  { intros w p Hu Hp Eq. destruct (translate_Some s r Sp w p Hu Hp) as (e & He & _ & Fe).
    pose proof (frame_live s r Sp w e Hu He) as Hl. rewrite <- Fe, Eq, Ef in Hl. congruence. }
  assert (Hd : forall w, (f + w mod 4096) / 4096 = f / 4096).
  { intros w. pose proof (Z.mod_pos_bound w 4096 ltac:(lia)). Z.to_euclidean_division_equations. lia. }
  exists f, s'. split_and!; [done| |done|done|done|exact Ht|].
  - destruct Sp as [W0 D N C Cf L H P Z0]. split.
    + exact W.
    + rewrite S3, D. unfold pagedir_of. by rewrite S1.
    + by rewrite S3.
    + by rewrite S4.
    + by rewrite S4.
    + by rewrite (kp_lock _ _ K).
    + by rewrite S1.
    + intros w1 w2 p1 p2 H1 H2. rewrite !Ht by done.
      repeat case_decide; intros E1 E2 Eq; simplify_eq; try congruence.
      * rewrite Hd in Eq. by destruct (Hfr w2 p2 H2 E2).
      * rewrite Hd in Eq. by destruct (Hfr w1 p1 H1 E1).
      * by eapply P.
    + intros w p Hu. rewrite Ht by done. pose proof (Z.mod_pos_bound w 4096 ltac:(lia)).
      case_decide; [intros [= <-]; lia|by apply Z0].
  - intros w Hu. unfold user_byte. rewrite Ht by done. pose proof (Z.mod_pos_bound w 4096 ltac:(lia)).
    case_decide as Ew.
    + cbn. rewrite !phys_byte_entry by (done || lia). rewrite Hr; [done|lia|done| |by left].
      Z.to_euclidean_division_equations. lia.
    + destruct (mmu_translate s w) as [p|] eqn:Ep; [|done]. cbn. f_equal.
      destruct (translate_Some s r Sp w p Hu Ep) as (e & He & -> & _). destruct (PTE_GET_ADDR_bounds e) as [Be Me].
      rewrite !phys_byte_entry by (done || lia). rewrite Hr; [done|lia|done| |].
      * Z.to_euclidean_division_equations. lia.
      * right. split; [by eapply frame_live|by eapply frame_not_table].
Qed.
End map_fresh.

Lemma mfor_ext {S A} (l : list A) (f g : A -> M S unit) s :
  (forall x s, x ∈ l -> f x s = g x s) -> mfor l f s = mfor l g s.
Proof.
  revert s. induction l as [|x l IH]; intros s H; [done|]. cbn. unfold bind. rewrite H by (by left).
  destruct (g x s) as [[[] s']| | |]; [|done..]. apply IH. intros. apply H. by right.
Qed.

(** Whether an address is mapped is a matter of its page. *)
Lemma mapped_page s r v w :
  space s r -> user v -> user w -> v / 4096 = w / 4096 -> mapped s v -> mapped s w.
Proof.
  intros Sp Hv Hw E. unfold mapped. rewrite !(translate_walk s r Sp) by done.
  rewrite (proj2 (same_page v w Hv Hw) E). by destruct (walk s r (indices w)).
Qed.

(** Give the page of [v] a frame unless it has one. *)
Definition ensure_page (v flags : Z) : M mmu unit :=
  let! p := paging_virtual_to_physical v in
  if negb (p =? 0) then ret tt else map_fresh v flags.

Lemma ensure_page_ok s r v flags :
  space s r -> user v -> v mod 4096 = 0 -> 0 <= flags < 4096 -> 4 <= free_pages s ->
  exists s', ensure_page v flags s = Ok (tt, s') /\ space s' r /\ kept s s' /\
    free_pages s - 4 <= free_pages s' /\
    (forall w, user w -> w / 4096 = v / 4096 -> mapped s' w) /\
    (forall w, user w -> mapped s w \/ w / 4096 <> v / 4096 ->
       mmu_translate s' w = mmu_translate s w /\ user_byte s' w = user_byte s w).
Proof.
  intros Sp Hv Hm Hf Hc. unfold ensure_page.
  erewrite bind_ok by (by eapply lookup_user). destruct (decide (mapped s v)) as [Hmap|Hn].
  - exists s. split_and!; try done; [|lia|].
    + destruct (mmu_translate s v) as [p|] eqn:E; [|by unfold mapped in Hmap; rewrite E in Hmap]. cbn.
      pose proof (sp_nonzero _ _ Sp v p Hv E). by rewrite (proj2 (Z.eqb_neq p 0)) by lia.
    + intros w Hw E. by eapply (mapped_page s r v w).
  - assert (mmu_translate s v = None) as -> by (unfold mapped in Hn; destruct (mmu_translate s v); [by destruct Hn|done]). cbn.
    destruct (map_fresh_ok s r Sp v flags Hv Hm Hf Hn Hc) as (f & s' & E & Sp' & K & _ & Cn & Ht & Hu).
    assert (Hold : forall w, user w -> mapped s w -> w / 4096 <> v / 4096).
    { intros w Hw Hmw Eq. apply Hn. by eapply (mapped_page s r w v). }
    exists s'. split_and!; try done.
    + intros w Hw Eq. unfold mapped. rewrite Ht by done. by rewrite decide_True.
    + intros w Hw Hor. assert (w / 4096 <> v / 4096) by (destruct Hor; auto).
      rewrite Ht, Hu by done. by rewrite !decide_False.
Qed.

Lemma ensure_pages_ok s r v (n : nat) flags :
  space s r -> 0 <= v -> v + Z.of_nat n * 4096 <= 2 ^ 47 -> v mod 4096 = 0 -> 0 <= flags < 4096 ->
  4 * Z.of_nat n <= free_pages s ->
  exists s', mfor (seqZ 0 (Z.of_nat n)) (fun j => ensure_page (v + j * 4096) flags) s = Ok (tt, s') /\
    space s' r /\ kept s s' /\ free_pages s - 4 * Z.of_nat n <= free_pages s' /\
    (forall w, v <= w < v + Z.of_nat n * 4096 -> mapped s' w) /\
    (forall w, user w -> mapped s w \/ ~ (v <= w < v + Z.of_nat n * 4096) ->
       mmu_translate s' w = mmu_translate s w /\ user_byte s' w = user_byte s w).
Proof.
  intros Sp H0 Hb Hm Hf. revert s Sp. induction n as [|n IH]; intros s Sp Hc.
  - exists s. split_and!; try done; [lia|intros; lia].
  - destruct (IH ltac:(lia) s Sp ltac:(lia)) as (s1 & E1 & Sp1 & K1 & C1 & M1 & P1).
    set (u := v + Z.of_nat n * 4096). assert (Hu : user u) by (unfold u; split; lia).
    assert (Hmu : u mod 4096 = 0) by (unfold u; rewrite Z.mod_add by lia; done).
    destruct (ensure_page_ok s1 r u flags Sp1 Hu Hmu Hf ltac:(lia)) as (s2 & E2 & Sp2 & K2 & C2 & M2 & P2).
    assert (Hdiv : forall w, u <= w < u + 4096 <-> w / 4096 = u / 4096)
      by (intros w; Z.to_euclidean_division_equations; lia).
    exists s2. split_and!; [|done|by eapply kept_trans|lia| |].
    + replace (Z.of_nat (S n)) with (Z.of_nat n + 1) by lia. rewrite seqZ_app by lia.
      change (seqZ (0 + Z.of_nat n) 1) with [0 + Z.of_nat n]. rewrite Z.add_0_l.
      rewrite mfor_app. mrw E1. cbn. unfold bind. unfold u in E2. by rewrite E2.
    + intros w Hw. assert (user w) by (split; lia). destruct (decide (w < u)).
      * destruct (P2 w) as [Pt _]; [done|left; apply M1; unfold u in *; lia|]. unfold mapped. rewrite Pt.
        apply M1. unfold u in *. lia.
      * apply M2; [done|]. apply Hdiv. unfold u in *. lia.
    + intros w Hw Hor. destruct (P1 w Hw) as [Pt Pu]; [destruct Hor; [by left|right; lia]|].
      rewrite <- Pt, <- Pu. apply P2; [done|]. destruct Hor as [Hmw|Hout].
      * left. unfold mapped in *. by rewrite Pt.
      * right. rewrite <- Hdiv. unfold u. lia.
Qed.

(** Address spaces with nothing but the direct map. *)
Lemma ex_unmapped b x v : user v -> mmu_translate (ex_with b x) v = None.
Proof.
  intros Hv. unfold mmu_translate. rewrite user_canonical, user_strip by done.
  destruct (walk (ex_with b x) (cr3 (ex_with b x)) (indices v)) as [e|] eqn:E; [|done].
  change (cr3 (ex_with b x)) with 8192 in E. by apply ex_own in E as [? _]; [|apply indices_path|apply user_own].
Qed.

Lemma ex_with_space b x : pt_wf (ex_with b x) 8192 -> space (ex_with b x) 8192.
Proof.
  intros W. split; try done.
  - intros v w p q Hv Hw. by rewrite (ex_unmapped b x v Hv).
  - intros v p Hv. by rewrite (ex_unmapped b x v Hv).
Qed.

Lemma ex_space : space ex_mmu 8192.
Proof. apply ex_with_space, ex_mmu_wf. Qed.

(** ** Runs of fresh pages *)

Lemma map_fresh_ensure s r v flags :
  space s r -> user v -> ~ mapped s v -> map_fresh v flags s = ensure_page v flags s.
Proof.
  intros Sp Hv Hn. unfold ensure_page. erewrite bind_ok by (by eapply lookup_user).
  assert (mmu_translate s v = None) as -> by (unfold mapped in Hn; destruct (mmu_translate s v); [by destruct Hn|done]).
  done.
Qed.

Lemma fresh_pages_ok s r v (n : nat) flags :
  space s r -> 0 <= v -> v + Z.of_nat n * 4096 <= 2 ^ 47 -> v mod 4096 = 0 -> 0 <= flags < 4096 ->
  4 * Z.of_nat n <= free_pages s -> (forall w, v <= w < v + Z.of_nat n * 4096 -> ~ mapped s w) ->
  mfor (seqZ 0 (Z.of_nat n)) (fun j => map_fresh (v + j * 4096) flags) s =
  mfor (seqZ 0 (Z.of_nat n)) (fun j => ensure_page (v + j * 4096) flags) s.
Proof.
  intros Sp H0 Hb Hm Hf. induction n as [|n IH]; intros Hc Hn; [done|].
  replace (Z.of_nat (S n)) with (Z.of_nat n + 1) by lia. rewrite seqZ_app, !mfor_app by lia.
  unfold bind at 1 2. rewrite IH; [|lia|lia|intros; apply Hn; lia].
  destruct (ensure_pages_ok s r v n flags Sp H0 ltac:(lia) Hm Hf ltac:(lia)) as (s1 & -> & Sp1 & _ & _ & _ & P1).
  change (seqZ (0 + Z.of_nat n) 1) with [0 + Z.of_nat n]. cbn [mfor]. rewrite Z.add_0_l. unfold bind.
  rewrite (map_fresh_ensure s1 r); [done|done|split; lia|].
  unfold mapped. destruct (P1 (v + Z.of_nat n * 4096)) as [-> _]; [split; lia|right; lia|]. apply Hn. lia.
Qed.
