(* ===== verification/Elf.v ===== *)
(** * The program loader ([utility/elf.cpp], [include/kernel/elf.h])

    The executable is the list [out] of its bytes; a field outside it is a read
    past the heap buffer.  The file system answers for the interpreter's file
    ([fsKernelOpen], [fsGetFilesize], [fsRead]); it is the argument [open_file].
    [image_byte] is what an executable asks to find at an address. *)

From S2P Require Import Prelude Bytes Spinlock Bitmap Pmm Paging UserMemory.

(** ** Headers *)

Definition EI_MAG0 : Z := 0.
Definition EI_MAG1 : Z := 1.
Definition EI_MAG2 : Z := 2.
Definition EI_MAG3 : Z := 3.
Definition EI_CLASS : Z := 4.
Definition ELFMAG0 : Z := 0x7F.
Definition ELFMAG1 : Z := 69.
Definition ELFMAG2 : Z := 76.
Definition ELFMAG3 : Z := 70.
Definition ELFCLASS64 : Z := 2.
Definition ELF_x86_64_MACHINE : Z := 0x3E.
Definition PT_LOAD : Z := 1.
Definition PT_INTERP : Z := 3.

Definition e_ident (out : list Z) (k : Z) : option Z := load_le 1 k out.
Definition e_type (out : list Z) : option Z := load_le 2 16 out.
Definition e_machine (out : list Z) : option Z := load_le 2 18 out.
Definition e_entry (out : list Z) : option Z := load_le 8 24 out.
Definition e_phoff (out : list Z) : option Z := load_le 8 32 out.
Definition e_phentsize (out : list Z) : option Z := load_le 2 54 out.
Definition e_phnum (out : list Z) : option Z := load_le 2 56 out.

Record Elf64_Phdr := mkPhdr {
  p_type : Z;
  p_offset : Z;
  p_vaddr : Z;
  p_filesz : Z;
  p_memsz : Z;
}.

(** [i * e_phentsize] is an [int] product. *)
Definition phdr_at (out : list Z) (i : Z) : option Z :=
  phoff ← e_phoff out;
  size ← e_phentsize out;
  if i * size <? 2 ^ 31 then Some (u64 (phoff + i * size)) else None.

Definition phdr_type (out : list Z) (o : Z) : option Z := load_le 4 o out.

Definition read_phdr (out : list Z) (o : Z) : option Elf64_Phdr :=
  ty ← phdr_type out o;
  off ← load_le 8 (o + 8) out;
  vaddr ← load_le 8 (o + 16) out;
  filesz ← load_le 8 (o + 32) out;
  memsz ← load_le 8 (o + 40) out;
  Some (mkPhdr ty off vaddr filesz memsz).

(** [None] when the header is read past the end of the file's buffer; a buffer is a
    list of bytes, so the test for the null pointer in front has no counterpart. *)
Definition elf_check_file (out : list Z) : option bool :=
  m0 ← e_ident out EI_MAG0;
  if negb (m0 =? ELFMAG0) then Some false else
  m1 ← e_ident out EI_MAG1;
  if negb (m1 =? ELFMAG1) then Some false else
  m2 ← e_ident out EI_MAG2;
  if negb (m2 =? ELFMAG2) then Some false else
  m3 ← e_ident out EI_MAG3;
  if negb (m3 =? ELFMAG3) then Some false else
  class ← e_ident out EI_CLASS;
  if negb (class =? ELFCLASS64) then Some false else
  machine ← e_machine out;
  if negb (machine =? ELF_x86_64_MACHINE) then Some false else Some true.

(** ** Loading *)

Definition elf_map_page (base vaddr : Z) : M mmu unit :=
  let! phys := paging_virtual_to_physical (u64 (base + vaddr)) in
  if negb (phys =? 0) then ret tt
  else
    let! paddr := on_vm (on_physical (physical_allocate 1)) in
    virtual_map (u64 (base + vaddr)) paddr (Z.lor PF_USER PF_RW).

(** The source of a [memcpy] of [n] bytes; nothing is read when [n] is zero. *)
Definition copied (out : list Z) (off n : Z) : option (list Z) :=
  if n =? 0 then Some [] else load off n out.

(** [j * 0x1000] is an [int] product. *)
Definition elfProcessLoad (elf_phdr : Elf64_Phdr) (out : list Z) (base : Z) : M mmu unit :=
  let startRounded := Z.land (p_vaddr elf_phdr) (Z.lnot 0xFFF) in
  let pagesRequired :=
    CEILING_DIVISION (u64 (u64 (p_vaddr elf_phdr - startRounded) + p_memsz elf_phdr)) 0x1000 in
  mfor (seqZ 0 pagesRequired) (fun j =>
    if j * 0x1000 <? 2 ^ 31 then elf_map_page base (u64 (startRounded + j * 0x1000)) else fault) ;;;
  let! bytes := from_option_fault (copied out (p_offset elf_phdr) (p_filesz elf_phdr)) in
  write_bytes (u64 (base + p_vaddr elf_phdr)) bytes ;;;
  if p_filesz elf_phdr <? p_memsz elf_phdr then
    write_bytes (u64 (u64 (base + p_vaddr elf_phdr) + p_filesz elf_phdr))
      (replicate (Z.to_nat (p_memsz elf_phdr - p_filesz elf_phdr)) 0)
  else ret tt.

Definition interpreterBase : Z := 0x100000000000.

(** The NUL-terminated string at offset [o]. *)
Fixpoint until_nul (bs : list Z) : option (list Z) :=
  match bs with
  | [] => None
  | b :: bs => if b =? 0 then Some [] else cons b <$> until_nul bs
  end.
Definition string_at (out : list Z) (o : Z) : option (list Z) :=
  if (0 <=? o) && (o <? zlen out) then until_nul (drop (Z.to_nat o) out) else None.

Section loader.
Context (open_file : list Z -> option (list Z)).

(** The segments of the interpreter, and its entry. *)
Definition load_interpreter (name : list Z) : M mmu Z :=
  match open_file name with
  | None => halt
  | Some contents =>
      let! ty := from_option_fault (e_type contents) in
      if negb (ty =? 3) then halt
      else
        let! entry := from_option_fault (e_entry contents) in
        let! phnum := from_option_fault (e_phnum contents) in
        mfor (seqZ 0 phnum) (fun i =>
          let! o := from_option_fault (phdr_at contents i) in
          let! ty := from_option_fault (phdr_type contents o) in
          if negb (ty =? PT_LOAD) then ret tt
          else
            let! ph := from_option_fault (read_phdr contents o) in
            elfProcessLoad ph contents interpreterBase) ;;;
        ret entry
  end.

(** The loop over the program headers; [entry] is [interpreterEntry]. *)
Fixpoint load_headers (out : list Z) (is_ : list Z) (entry : Z) : M mmu Z :=
  match is_ with
  | [] => ret entry
  | i :: is_ =>
      let! o := from_option_fault (phdr_at out i) in
      let! ty := from_option_fault (phdr_type out o) in
      if ty =? PT_INTERP then
        let! name_at := from_option_fault (load_le 8 (o + 8) out) in
        let! name := from_option_fault (string_at out name_at) in
        let! entry := load_interpreter name in
        load_headers out is_ entry
      else if negb (ty =? PT_LOAD) then load_headers out is_ entry
      else
        let! ph := from_option_fault (read_phdr out o) in
        elfProcessLoad ph out 0 ;;;
        load_headers out is_ entry
  end.

(** The part of [elfExecute] between the two changes of directory: the address
    the task starts at, [None] when the file is refused. *)
Definition elf_load (out : list Z) : M mmu (option Z) :=
  let! ok := from_option_fault (elf_check_file out) in
  if negb ok then ret None
  else
    let! phnum := from_option_fault (e_phnum out) in
    let! interpreterEntry := load_headers out (seqZ 0 phnum) 0 in
    let! entry := from_option_fault (e_entry out) in
    ret (Some (if negb (interpreterEntry =? 0) then u64 (interpreterBase + interpreterEntry) else entry)).

End loader.

(** ** One segment *)

Record segment_ok (out : list Z) (base : Z) (ph : Elf64_Phdr) : Prop := {
  sg_base : 0 <= base /\ base mod 4096 = 0;
  sg_low : 0 <= p_vaddr ph;
  sg_high : base + p_vaddr ph + p_memsz ph <= 2 ^ 47;
  sg_file : 0 <= p_filesz ph <= p_memsz ph;
  sg_int : p_vaddr ph mod 4096 + p_memsz ph <= 2 ^ 31;
  sg_in : 0 <= p_offset ph /\ p_offset ph + p_filesz ph <= zlen out;
  sg_bytes : Forall is_byte out;
}.

Definition seg_start (base : Z) (ph : Elf64_Phdr) : Z := base + p_vaddr ph.
Definition in_segment (base : Z) (ph : Elf64_Phdr) (v : Z) : Prop :=
  seg_start base ph <= v < seg_start base ph + p_memsz ph.
#[global] Instance in_segment_dec base ph v : Decision (in_segment base ph v) := ltac:(unfold in_segment; apply _).

Definition seg_pages (ph : Elf64_Phdr) : Z := (p_vaddr ph mod 4096 + p_memsz ph + 4095) / 4096.

(** The byte the segment asks for at an address inside it: from the file, then zeros. *)
Definition seg_byte (out : list Z) (base : Z) (ph : Elf64_Phdr) (v : Z) : option Z :=
  let i := v - seg_start base ph in
  if i <? p_filesz ph then out !! Z.to_nat (p_offset ph + i) else Some 0.

Section segment.
Context (s : mmu) (r : Z) (Sp : space s r).
Context (out : list Z) (base : Z) (ph : Elf64_Phdr) (G : segment_ok out base ph).
Let a := seg_start base ph.
Let v0 := base + p_vaddr ph / 4096 * 4096.

Lemma seg_span : v0 + p_vaddr ph mod 4096 = a /\ v0 mod 4096 = 0 /\ 0 <= v0 /\
  0 <= seg_pages ph <= 2 ^ 19 /\ a + p_memsz ph <= v0 + seg_pages ph * 4096 <= 2 ^ 47.
Proof using G.
  destruct G as [[B1 B2] L H F I _ _]. unfold a, v0, seg_start, seg_pages.
  Z.to_euclidean_division_equations. lia.
Qed.

Lemma seg_page_count :
  CEILING_DIVISION (u64 (u64 (p_vaddr ph - Z.land (p_vaddr ph) (Z.lnot 0xFFF)) + p_memsz ph)) 0x1000 = seg_pages ph.
Proof using G.
  destruct G as [[B1 B2] L H F I _ _]. rewrite page_base_eq.
  replace (p_vaddr ph - p_vaddr ph / 4096 * 4096) with (p_vaddr ph mod 4096)
    by (Z.to_euclidean_division_equations; lia).
  pose proof (Z.mod_pos_bound (p_vaddr ph) 4096 ltac:(lia)).
  rewrite (u64_small (p_vaddr ph mod 4096)), u64_small by lia.
  rewrite CEILING_DIVISION_spec by lia. unfold seg_pages. f_equal. lia.
Qed.

Lemma seg_map_pages s0 :
  mfor (seqZ 0 (seg_pages ph)) (fun j =>
    if j * 0x1000 <? 2 ^ 31
    then elf_map_page base (u64 (Z.land (p_vaddr ph) (Z.lnot 0xFFF) + j * 0x1000)) else fault) s0 =
  mfor (seqZ 0 (seg_pages ph)) (fun j => ensure_page (v0 + j * 4096) (Z.lor PF_USER PF_RW)) s0.
Proof using G.
  destruct seg_span as (E1 & E2 & E3 & E4 & E5). pose proof (sg_low _ _ _ G). pose proof (sg_base _ _ _ G).
  apply mfor_ext. intros j s1 Hj%elem_of_seqZ. rewrite (proj2 (Z.ltb_lt _ _)) by lia.
  unfold elf_map_page, ensure_page, map_fresh. rewrite page_base_eq. unfold v0 in *.
  assert (0 <= p_vaddr ph / 4096 * 4096) by (apply Z.mul_nonneg_nonneg; [apply Z.div_pos; lia|lia]).
  rewrite (u64_small (p_vaddr ph / 4096 * 4096 + _)), u64_small by lia. by rewrite Z.add_assoc.
Qed.

(** The segment ends up at its place, zeros after the file's part, everything
    else that was mapped unchanged. *)
Lemma elfProcessLoad_ok :
  4 * seg_pages ph <= free_pages s ->
  exists s', elfProcessLoad ph out base s = Ok (tt, s') /\ space s' r /\ kept s s' /\
    free_pages s - 4 * seg_pages ph <= free_pages s' /\
    (forall v, in_segment base ph v -> user_byte s' v = seg_byte out base ph v) /\
    (forall v, user v -> mapped s v -> mapped s' v) /\
    (forall v, user v -> mapped s v -> ~ in_segment base ph v -> user_byte s' v = user_byte s v).
Proof using Sp G.
  intros Hc. destruct seg_span as (E1 & E2 & E3 & E4 & E5).
  pose proof (sg_low _ _ _ G). pose proof (sg_base _ _ _ G) as [? ?]. pose proof (sg_file _ _ _ G).
  pose proof (sg_in _ _ _ G). pose proof (sg_high _ _ _ G).
  pose proof (Z.mod_pos_bound (p_vaddr ph) 4096 ltac:(lia)).
  destruct (ensure_pages_ok s r v0 (Z.to_nat (seg_pages ph)) (Z.lor PF_USER PF_RW))
    as (s1 & M1 & Sp1 & K1 & C1 & T1 & P1); [done|done|lia|done|by cbn|lia|].
  rewrite Z2Nat.id in * by lia.
  set (bs := slice (p_offset ph) (p_filesz ph) out).
  assert (Hbs : copied out (p_offset ph) (p_filesz ph) = Some bs).
  { unfold copied, bs. case_match eqn:E; [apply Z.eqb_eq in E; by rewrite E|]. apply load_ok; lia. }
  assert (Hlen : zlen bs = p_filesz ph) by (apply zlen_slice; lia).
  assert (Hbb : Forall is_byte bs) by (apply Forall_slice, (sg_bytes _ _ _ G)).
  destruct (write_bytes_ok s1 r a bs) as (s2 & M2 & Sp2 & K2 & G2 & T2 & U2);
    [done|lia|unfold a, seg_start in *; lia|done|intros i Hi; apply T1; lia|].
  set (zs := replicate (Z.to_nat (p_memsz ph - p_filesz ph)) 0).
  assert (Hzl : zlen zs = p_memsz ph - p_filesz ph) by (apply zlen_replicate; lia).
  destruct (write_bytes_ok s2 r (a + p_filesz ph) zs) as (s3 & M3 & Sp3 & K3 & G3 & T3 & U3);
    [done|lia|unfold a, seg_start in *; lia|by apply Forall_replicate| |].
  { intros i Hi. unfold mapped. rewrite T2 by (split; unfold a, seg_start in *; lia). apply T1. lia. }
  assert (Hs3 : (if p_filesz ph <? p_memsz ph then write_bytes (u64 (u64 (base + p_vaddr ph) + p_filesz ph)) zs
                 else ret tt) s2 = Ok (tt, s3)).
  { unfold a, seg_start in *. destruct (Z.ltb_spec (p_filesz ph) (p_memsz ph)).
    - by rewrite (u64_small (base + p_vaddr ph)), u64_small by lia.
    - unfold zs in M3. replace (p_memsz ph - p_filesz ph) with 0 in M3 by lia. cbn in M3. by injection M3 as <-. }
  assert (Hu : forall v, user v -> user_byte s3 v =
    if decide (in_segment base ph v) then seg_byte out base ph v else user_byte s1 v).
  { intros v Hv. rewrite U3, U2 by done. unfold in_segment, seg_byte. fold a. rewrite Hzl, Hlen.
    destruct (decide (a + p_filesz ph <= v < _)).
    - rewrite decide_True by lia. rewrite (proj2 (Z.ltb_ge _ _)) by lia.
      unfold zs. apply lookup_replicate. split; [done|lia].
    - destruct (decide (a <= v < a + p_filesz ph)); [|by rewrite decide_False by lia].
      rewrite decide_True by lia. rewrite (proj2 (Z.ltb_lt _ _)) by lia. unfold bs.
      rewrite slice_lookup by lia. rewrite decide_True by lia. f_equal. lia. }
  exists s3. split_and!; [|done|by eapply kept_trans; [|eapply kept_trans]| | | |].
  - unfold elfProcessLoad. rewrite seg_page_count. erewrite bind_ok by (etrans; [apply seg_map_pages|exact M1]).
    rewrite Hbs. cbn [from_option_fault]. erewrite bind_ok by done.
    rewrite (u64_small (base + p_vaddr ph)) by (unfold a, seg_start in *; lia).
    erewrite bind_ok by exact M2. rewrite (u64_small (base + p_vaddr ph)) in Hs3 by (unfold a, seg_start in *; lia).
    exact Hs3.
  - unfold free_pages in *. rewrite G3, G2. lia.
  - intros v Hv. rewrite Hu by (destruct Hv; unfold a, seg_start in *; split; lia). by rewrite decide_True.
  - intros v Hv Hm. unfold mapped. rewrite T3, T2 by done. destruct (P1 v Hv (or_introl Hm)) as [-> _]. done.
  - intros v Hv Hm Hout. rewrite Hu by done. rewrite decide_False by done. by apply P1; [|left].
Qed.

End segment.

(** ** The whole image *)

(** All program headers of the file. *)
Definition headers (out : list Z) : option (list Elf64_Phdr) :=
  n ← e_phnum out;
  mapM (fun i => o ← phdr_at out i; read_phdr out o) (seqZ 0 n).

Definition loads (hs : list Elf64_Phdr) : list Elf64_Phdr := filter (fun h => p_type h = PT_LOAD) hs.
Definition pages_of (hs : list Elf64_Phdr) : Z := Z.of_nat (sum_list_with (fun h => Z.to_nat (seg_pages h)) hs).

Definition disjoint_segments (base : Z) (hs : list Elf64_Phdr) : Prop :=
  ForallOrdPairs (fun g h => forall v, in_segment base g v -> ~ in_segment base h v) hs.

Lemma read_phdr_type out o h : read_phdr out o = Some h -> phdr_type out o = Some (p_type h).
Proof.
  unfold read_phdr. destruct (phdr_type out o) as [ty|]; [|done]. cbn.
  destruct (load_le 8 (o + 8) out); [|done]. destruct (load_le 8 (o + 16) out); [|done].
  destruct (load_le 8 (o + 32) out); [|done]. destruct (load_le 8 (o + 40) out); [|done].
  cbn. intros E. by simplify_eq.
Qed.

Section image.
Context (open_file : list Z -> option (list Z)) (out : list Z) (r : Z).

(** What loading the segments [hs] at [base] does to memory. *)
Record loaded (base : Z) (hs : list Elf64_Phdr) (s s' : mmu) : Prop := {
  ld_space : space s' r;
  ld_kept : kept s s';
  ld_free : free_pages s - 4 * pages_of hs <= free_pages s';
  ld_inside : forall v h, h ∈ hs -> in_segment base h v -> user_byte s' v = seg_byte out base h v;
  ld_mapped : forall v, user v -> mapped s v -> mapped s' v;
  ld_outside : forall v, user v -> mapped s v -> (forall h, h ∈ hs -> ~ in_segment base h v) ->
    user_byte s' v = user_byte s v;
}.

Lemma seg_byte_Some base ph v :
  segment_ok out base ph -> in_segment base ph v -> is_Some (seg_byte out base ph v) /\ user v.
Proof using.
  intros [[B1 B2] L H F I [O1 O2] _] [Hv1 Hv2]. unfold seg_byte, seg_start in *. split; [|split; lia].
  case_match eqn:E; [|done]. apply Z.ltb_lt in E. apply lookup_lt_is_Some. unfold zlen in O2. lia.
Qed.

(** Loading one segment after others that it does not overlap. *)
Lemma loaded_cons base h hs s s1 s2 :
  segment_ok out base h -> (forall g v, g ∈ hs -> in_segment base h v -> ~ in_segment base g v) ->
  (forall v, in_segment base h v -> user_byte s1 v = seg_byte out base h v) ->
  (forall v, user v -> mapped s v -> mapped s1 v) ->
  (forall v, user v -> mapped s v -> ~ in_segment base h v -> user_byte s1 v = user_byte s v) ->
  kept s s1 -> free_pages s - 4 * seg_pages h <= free_pages s1 ->
  loaded base hs s1 s2 -> loaded base (h :: hs) s s2.
Proof using.
  intros G D I1 M1 O1 K1 F1 [Sp K F I M O].
  assert (0 <= seg_pages h) by (apply (seg_span out base h G)).
  split; [done|by eapply kept_trans| | |auto|].
  - assert (pages_of (h :: hs) = seg_pages h + pages_of hs) as -> by (unfold pages_of; cbn; lia). lia.
  - intros v g [->|Hg]%elem_of_cons Hin; [|by apply I].
    destruct (seg_byte_Some base h v G Hin) as [Hs Hu]. rewrite <- (I1 v Hin).
    apply O; [done| |intros g Hg; by apply D].
    unfold mapped. intros E. rewrite <- I1 in Hs by done. unfold user_byte in Hs. rewrite E in Hs.
    by destruct Hs.
  - intros v Hu Hm Hout. rewrite O; [|done|auto|].
    + apply O1; [done|done|]. apply Hout. by left.
    + intros g Hg. apply Hout. by right.
Qed.

Lemma loaded_nil base s : space s r -> loaded base [] s s.
Proof using. intros Sp. split; try done; [unfold pages_of; cbn; lia|]. by intros v h ?%not_elem_of_nil. Qed.

Lemma load_headers_ok is_ hs : forall s entry,
  space s r -> mapM (fun i => o ← phdr_at out i; read_phdr out o) is_ = Some hs ->
  Forall (fun h => p_type h <> PT_INTERP) hs -> Forall (segment_ok out 0) (loads hs) ->
  disjoint_segments 0 (loads hs) -> 4 * pages_of (loads hs) <= free_pages s ->
  exists s', load_headers open_file out is_ entry s = Ok (entry, s') /\ loaded 0 (loads hs) s s'.
Proof using.
  revert hs. induction is_ as [|i is_ IH]; intros hs s entry Sp Hm Hni Hok Hd Hc.
  - injection Hm as <-. exists s. split; [done|by apply loaded_nil].
  - cbn in Hm. destruct (phdr_at out i) as [o|] eqn:Eo; [|done]. cbn in Hm.
    destruct (read_phdr out o) as [h|] eqn:Eh; [|done]. cbn in Hm.
    destruct (mapM _ is_) as [hs'|] eqn:Em; [|done]. injection Hm as <-.
    pose proof (read_phdr_type out o h Eh) as Et. apply Forall_cons in Hni as [Hni Hnis].
    cbn [load_headers]. rewrite Eo. cbn [from_option_fault]. erewrite bind_ok by done.
    rewrite Et. cbn [from_option_fault]. erewrite bind_ok by done.
    rewrite (proj2 (Z.eqb_neq _ _)) by done. unfold loads in *. rewrite filter_cons in *.
    destruct (decide (p_type h = PT_LOAD)) as [El|El].
    + apply Forall_cons in Hok as [Gh Hok]. inversion Hd as [|? ? Dh Dhs]; subst.
      destruct (seg_span out 0 h Gh) as (_ & _ & _ & Hp & _).
      assert (pages_of (h :: filter (fun h => p_type h = PT_LOAD) hs') =
        seg_pages h + pages_of (filter (fun h => p_type h = PT_LOAD) hs')) as Ep by (unfold pages_of; cbn; lia).
      rewrite Ep in Hc. assert (0 <= pages_of (filter (fun h => p_type h = PT_LOAD) hs')) by (unfold pages_of; lia).
      destruct (elfProcessLoad_ok s r Sp out 0 h Gh ltac:(lia)) as (s1 & E1 & Sp1 & K1 & F1 & I1 & M1 & O1).
      destruct (IH hs' s1 entry Sp1 eq_refl Hnis Hok Dhs ltac:(lia)) as (s2 & E2 & L2).
      exists s2. split.
      * rewrite (proj2 (Z.eqb_eq _ _) El). cbn [negb]. rewrite Eh. cbn [from_option_fault].
        erewrite bind_ok by done. by mrw E1.
      * eapply (loaded_cons 0 h _ s s1); try done. intros g v Hg. rewrite Forall_forall in Dh. by apply Dh.
    + rewrite (proj2 (Z.eqb_neq _ _)) by done. cbn [negb]. by apply IH.
Qed.

(** C13: Loading a program into an address space whose upper half may hold the
    direct map ([space]).  For an executable the loader accepts, without an
    interpreter, whose loadable segments fit below the upper half, lie in the
    file and do not overlap, and with four free pages for each page of a segment
    (its frame and three tables), [elf_load] returns the entry of the file; every address of a segment
    then holds the file's byte, or zero beyond the file's part, what was mapped
    outside the segments is unchanged, and no two user pages share a frame. *)
Theorem elf_load_image s hs entry :
  space s r -> elf_check_file out = Some true -> headers out = Some hs -> e_entry out = Some entry ->
  Forall (fun h => p_type h <> PT_INTERP) hs -> Forall (segment_ok out 0) (loads hs) ->
  disjoint_segments 0 (loads hs) -> 4 * pages_of (loads hs) <= free_pages s ->
  exists s', elf_load open_file out s = Ok (Some entry, s') /\ space s' r /\
    (forall v h, h ∈ loads hs -> in_segment 0 h v -> user_byte s' v = seg_byte out 0 h v) /\
    (forall v, user v -> mapped s v -> (forall h, h ∈ loads hs -> ~ in_segment 0 h v) ->
       user_byte s' v = user_byte s v).
Proof using.
  intros Sp Hck Hh He Hni Hok Hd Hc. unfold headers in Hh.
  destruct (e_phnum out) as [n|] eqn:En; [|done]. cbn in Hh.
  destruct (load_headers_ok (seqZ 0 n) hs s 0 Sp Hh Hni Hok Hd Hc) as (s' & E & [L1 L2 L3 L4 L5 L6]).
  exists s'. split_and!; try done. unfold elf_load. rewrite Hck. cbn [from_option_fault].
  erewrite bind_ok by done. cbn [negb]. rewrite En. cbn [from_option_fault]. erewrite bind_ok by done.
  mrw E. rewrite He. done.
Qed.

End image.

(** An executable with two segments and a note. *)
Definition sample_header : list Z :=
  [0x7F; 69; 76; 70; 2; 1; 1; 0; 0; 0; 0; 0; 0; 0; 0; 0] ++ le 2 2 ++ le 2 0x3E ++ le 4 1 ++
  le 8 0x401000 ++ le 8 64 ++ le 8 0 ++ le 4 0 ++ le 2 64 ++ le 2 56 ++ le 2 3 ++ le 2 0 ++ le 2 0 ++ le 2 0.
Definition sample_phdr (ty off vaddr filesz memsz : Z) : list Z :=
  le 4 ty ++ le 4 0 ++ le 8 off ++ le 8 vaddr ++ le 8 vaddr ++ le 8 filesz ++ le 8 memsz ++ le 8 4096.
Definition sample_elf : list Z :=
  sample_header ++ sample_phdr 1 232 0x401000 4 8 ++ sample_phdr 4 232 0 4 4 ++
  sample_phdr 1 236 0x402010 2 4 ++ [1; 2; 3; 4; 9; 8].

Lemma elf_load_image_witness :
  exists s', elf_load (fun _ => None) sample_elf ex_mmu = Ok (Some 0x401000, s') /\ space s' 8192 /\
    user_byte s' 0x401003 = Some 4 /\ user_byte s' 0x401005 = Some 0 /\ user_byte s' 0x402011 = Some 8.
Proof.
  set (h1 := mkPhdr 1 232 0x401000 4 8). set (h2 := mkPhdr 1 236 0x402010 2 4).
  assert (Hb : Forall is_byte sample_elf) by (vm_compute; repeat (apply Forall_cons_2; [split; done|]); apply Forall_nil_2).
  assert (Hl : loads [h1; mkPhdr 4 232 0 4 4; h2] = [h1; h2]) by reflexivity.
  destruct (elf_load_image (fun _ => None) sample_elf 8192 ex_mmu [h1; mkPhdr 4 232 0 4 4; h2] 0x401000)
    as (s' & E & Sp & I & _).
  - apply ex_space.
  - reflexivity.
  - reflexivity.
  - reflexivity.
  - repeat (apply Forall_cons; split; [done|]). done.
  - rewrite Hl. repeat (apply Forall_cons; split; [split; cbn; (done || lia)|]). done.
  - rewrite Hl. repeat constructor. unfold in_segment, seg_start. cbn. lia.
  - rewrite Hl. vm_compute. done.
  - rewrite Hl in I. exists s'. split; [exact E|]. split; [exact Sp|]. split_and!.
    + rewrite (I _ h1); [done|by left|]. unfold in_segment, seg_start. cbn. lia.
    + rewrite (I _ h1); [done|by left|]. unfold in_segment, seg_start. cbn. lia.
    + rewrite (I _ h2); [done|right; by left|]. unfold in_segment, seg_start. cbn. lia.
Defined.

(** The pages of a segment are not cleared: around the segment a new page shows
    the program what its frame held before. *)
Theorem elf_page_keeps_old_bytes s r out base ph :
  space s r -> segment_ok out base ph -> seg_pages ph = 1 -> 8 <= free_pages s ->
  ~ mapped s (base + p_vaddr ph / 4096 * 4096) ->
  exists f s', elfProcessLoad ph out base s = Ok (tt, s') /\ page_free s f = true /\
    forall w, w / 4096 = (base + p_vaddr ph) / 4096 -> ~ in_segment base ph w ->
      user_byte s' w = Some (phys_byte s (f + w mod 4096)).
Proof.
  intros Sp G H1 Hc Hn. destruct (seg_span out base ph G) as (S1 & S2 & S3 & S4 & S5). rewrite H1 in S5.
  pose proof (sg_low _ _ _ G). pose proof (sg_file _ _ _ G).
  pose proof (Z.mod_pos_bound (p_vaddr ph) 4096 ltac:(lia)).
  set (v0 := base + p_vaddr ph / 4096 * 4096) in *. assert (Hv : user v0) by (split; lia).
  destruct (map_fresh_ok s r Sp v0 (Z.lor PF_USER PF_RW) Hv S2 ltac:(by cbn) Hn ltac:(lia))
    as (f & s1 & E & Sp1 & K & Hf & C & T & U).
  assert (Hsame : elfProcessLoad ph out base s = elfProcessLoad ph out base s1).
  { assert (Hm : mapped s1 v0) by (unfold mapped; rewrite T by done; by rewrite decide_True).
    assert (Hs1 : ensure_page v0 (Z.lor PF_USER PF_RW) s1 = Ok (tt, s1)).
    { unfold ensure_page. erewrite bind_ok by (by eapply lookup_user).
      destruct (mmu_translate s1 v0) as [p|] eqn:Ep; [|by unfold mapped in Hm; rewrite Ep in Hm]. cbn.
      pose proof (sp_nonzero _ _ Sp1 v0 p Hv Ep). by rewrite (proj2 (Z.eqb_neq p 0)) by lia. }
    assert (L : forall s0, ensure_page v0 (Z.lor PF_USER PF_RW) s0 = Ok (tt, s1) ->
      elfProcessLoad ph out base s0 = elfProcessLoad ph out base s1); [|apply L; by rewrite <- (map_fresh_ensure s r)].
    enough (forall s0, ensure_page v0 (Z.lor PF_USER PF_RW) s0 = Ok (tt, s1) ->
      mfor (seqZ 0 (seg_pages ph)) (fun j =>
        if j * 0x1000 <? 2 ^ 31
        then elf_map_page base (u64 (Z.land (p_vaddr ph) (Z.lnot 0xFFF) + j * 0x1000)) else fault) s0 = Ok (tt, s1)) as HL.
    { intros s0 E0. unfold elfProcessLoad. rewrite (seg_page_count out base ph G).
      rewrite (bind_ok _ _ s0 tt s1 (HL s0 E0)). by rewrite (bind_ok _ _ s1 tt s1 (HL s1 Hs1)). }
    intros s0 E0. rewrite (seg_map_pages out base ph G), H1. change (seqZ 0 1) with [0]. cbn [mfor]. fold v0.
    rewrite Z.mul_0_l, Z.add_0_r. by mrw E0. }
  destruct (elfProcessLoad_ok s1 r Sp1 out base ph G ltac:(lia)) as (s' & E' & _ & _ & _ & _ & _ & O).
  exists f, s'. split; [by rewrite Hsame|]. split; [done|]. intros w Hw Hout.
  assert (w / 4096 = v0 / 4096) as Hw0 by (unfold seg_start in S1; rewrite Hw; clear - S1 S2; Z.to_euclidean_division_equations; lia).
  assert (user w) as Hu by (clear - Hw0 Hv S5 S2; unfold user in *; Z.to_euclidean_division_equations; lia).
  rewrite O; [|done| |done].
  - rewrite U by done. by rewrite decide_True.
  - unfold mapped. rewrite T by done. by rewrite decide_True.
Qed.
