(* ===== verification/UserHeap.v ===== *)
(** * Heap, mappings and stacks of a process
    ([syscalls/linux/syscalls_mem.cpp], [multitasking/stack.cpp],
    [task_adjust_heap] of [multitasking/task.cpp])

    [proc] is the memory of [Paging] with the break and mapping bounds of the
    current task ([TaskInfoPagedir]) and its lock.  A call of [task_kill] ends
    what the caller wanted to do: the operations answer [None] there, and the
    state is the one at the moment of the call. *)

From S2P Require Import Prelude FileTypes Bytes Spinlock Bitmap Pmm Paging UserMemory.

Definition USER_STACK_PAGES : Z := 0x30.
Definition USER_MMAP_START : Z := 0x700000000000.
Definition USER_HEAP_START : Z := 0x600000000000.
Definition USER_STACK_BOTTOM : Z := 0x800000000000.

Definition MAP_SHARED : Z := 0x01.
Definition MAP_PRIVATE : Z := 0x02.
Definition MAP_FIXED : Z := 0x10.
Definition MAP_ANONYMOUS : Z := 0x20.

(** ** State *)

Record TaskInfoPagedir := mkPd {
  LOCK_PD : bool;
  heap_start : Z;
  heap_end : Z;
  mmap_start : Z;
  mmap_end : Z;
}.

(** [taskInfoPdAllocate], the directory apart *)
Definition taskInfoPdAllocate : TaskInfoPagedir :=
  mkPd false USER_HEAP_START USER_HEAP_START USER_MMAP_START USER_MMAP_START.

Definition set_lock (b : bool) (p : TaskInfoPagedir) : TaskInfoPagedir :=
  mkPd b (heap_start p) (heap_end p) (mmap_start p) (mmap_end p).
Definition set_heap_end (e : Z) (p : TaskInfoPagedir) : TaskInfoPagedir :=
  mkPd (LOCK_PD p) (heap_start p) e (mmap_start p) (mmap_end p).
Definition set_mmap_end (e : Z) (p : TaskInfoPagedir) : TaskInfoPagedir :=
  mkPd (LOCK_PD p) (heap_start p) (heap_end p) (mmap_start p) e.

Record proc := mkProc { mm : mmu; infoPd : TaskInfoPagedir }.

Definition on_mm {A} (m : M mmu A) : M proc A := fun s =>
  match m (mm s) with
  | Ok (a, t) => Ok (a, mkProc t (infoPd s))
  | Halted => Halted
  | Fault => Fault
  | Hang => Hang
  end.
Definition pd_set (f : TaskInfoPagedir -> TaskInfoPagedir) : M proc unit :=
  modify (fun s => mkProc (mm s) (f (infoPd s))).
Definition pd_acquire : M proc unit := fun s =>
  match spinlock_acquire (LOCK_PD (infoPd s)) with
  | Ok b => Ok (tt, mkProc (mm s) (set_lock b (infoPd s)))
  | Halted => Halted
  | Fault => Fault
  | Hang => Hang
  end.
Definition pd_release : M proc unit := fun s =>
  match spinlock_release (LOCK_PD (infoPd s)) with
  | Ok b => Ok (tt, mkProc (mm s) (set_lock b (infoPd s)))
  | Halted => Halted
  | Fault => Fault
  | Hang => Hang
  end.

(** [memset(virt, 0, n)] *)
Definition clear_bytes (virt n : Z) : M mmu unit := write_bytes virt (replicate (Z.to_nat n) 0).

(** ** Growing the heap *)

(** The result is the new value of [*end_]; [None] is a call of [task_kill]. *)
Definition task_adjust_heap (new_heap_end start end_ : Z) : M mmu (option Z) :=
  if new_heap_end <=? start then ret None
  else
    let old_page_top := CEILING_DIVISION end_ PAGE_SIZE in
    let new_page_top := CEILING_DIVISION new_heap_end PAGE_SIZE in
    if old_page_top <? new_page_top then
      mfor (seqZ 0 (new_page_top - old_page_top)) (fun i =>
        let virt := u64 (old_page_top * PAGE_SIZE + i * PAGE_SIZE) in
        let! s := get in
        if negb (virtual_to_physical (vm s) virt =? 0) then ret tt
        else
          let! phys := on_vm (on_physical (physical_allocate 1)) in
          virtual_map virt phys (Z.lor PF_RW PF_USER) ;;;
          clear_bytes virt PAGE_SIZE) ;;;
      ret (Some new_heap_end)
    else if new_page_top <? old_page_top then ret None
    else ret (Some new_heap_end).

Definition adjust_heap (new_end : Z) : M proc (option unit) :=
  let! p := gets infoPd in
  let! e := on_mm (task_adjust_heap new_end (heap_start p) (heap_end p)) in
  match e with
  | None => ret None
  | Some e => pd_set (set_heap_end e) ;;; ret (Some tt)
  end.
Definition adjust_mmap (new_end : Z) : M proc (option unit) :=
  let! p := gets infoPd in
  let! e := on_mm (task_adjust_heap new_end (mmap_start p) (mmap_end p)) in
  match e with
  | None => ret None
  | Some e => pd_set (set_mmap_end e) ;;; ret (Some tt)
  end.

Definition syscallBrk (brk : Z) : M proc (option Z) :=
  pd_acquire ;;;
  let! p := gets infoPd in
  if brk =? 0 then pd_release ;;; ret (Some (heap_end p))
  else if brk <? heap_end p then pd_release ;;; ret (Some (u64 (-1)))
  else
    let! done := adjust_heap brk in
    match done with
    | None => ret None
    | Some _ =>
        let! p := gets infoPd in
        pd_release ;;; ret (Some (heap_end p))
    end.

(** ** Mapping memory *)

(** [addr + i * PAGE_SIZE], the product an [int]. *)
Definition map_pages (addr pages flags : Z) : M mmu unit :=
  mfor (seqZ 0 pages) (fun i =>
    if i * PAGE_SIZE <? 2 ^ 31 then
      let! phys := on_vm (on_physical (physical_allocate 1)) in
      virtual_map (u64 (addr + i * PAGE_SIZE)) phys flags
    else fault).

Section mmap.
(** The [mmap] handler of the node behind a descriptor: no node, no handler. *)
Context (node_mmap : Z -> option (option (Z -> Z -> Z -> Z -> Z -> M proc Z))).

Definition drop_flag (flags f : Z) : Z := Z.land flags (Z.lnot f).
Definition flag (flags f : Z) : bool := negb (Z.land flags f =? 0).

Definition syscallMmap (addr length prot flags fd pgoffset : Z) : M proc (option Z) :=
  if (length =? 0) || negb (addr mod PAGE_SIZE =? 0) then ret (Some (ERR EINVAL))
  else
    let length := u64 (CEILING_DIVISION length 0x1000 * 0x1000) in
    let flags := if addr =? 0 then drop_flag flags MAP_FIXED else flags in
    if flag flags MAP_FIXED && flag flags MAP_ANONYMOUS then
      let pages := CEILING_DIVISION length PAGE_SIZE in
      pd_acquire ;;;
      let end_ := u64 (addr + u64 (pages * PAGE_SIZE)) in
      let! p := gets infoPd in
      (if mmap_end p <? end_ then pd_set (set_mmap_end end_) else ret tt) ;;;
      pd_release ;;;
      on_mm (map_pages addr pages (Z.lor PF_RW PF_USER)) ;;;
      on_mm (clear_bytes addr (u64 (pages * PAGE_SIZE))) ;;;
      ret (Some addr)
    else if (addr =? 0) && (fd =? -1) &&
            (drop_flag (drop_flag flags MAP_FIXED) MAP_PRIVATE =? MAP_ANONYMOUS) then
      pd_acquire ;;;
      let! p := gets infoPd in
      let curr := mmap_end p in
      let! done := adjust_mmap (u64 (mmap_end p + length)) in
      match done with
      | None => ret None
      | Some _ =>
          pd_release ;;;
          on_mm (clear_bytes curr length) ;;;
          ret (Some curr)
      end
    else if (addr =? 0) && (fd =? -1) &&
            (drop_flag (drop_flag (drop_flag flags MAP_FIXED) MAP_PRIVATE) MAP_SHARED =? MAP_ANONYMOUS) &&
            (drop_flag (drop_flag (drop_flag flags MAP_FIXED) MAP_PRIVATE) MAP_ANONYMOUS =? MAP_SHARED) then halt
    else if negb (fd =? -1) then
      match node_mmap fd with
      | None | Some None => ret (Some (u64 (-1)))
      | Some (Some handler) => let! r := handler addr length prot flags pgoffset in ret (Some r)
      end
    else ret (Some (u64 (-1))).

End mmap.

Definition syscallMprotect (start len prot : Z) : M proc Z := ret 0.

Definition syscallMunmap (addr len : Z) : M proc Z :=
  if negb (addr mod PAGE_SIZE =? 0) || (len =? 0) then ret (ERR EINVAL)
  else
    pd_acquire ;;;
    let! p := gets infoPd in
    let insideBounds := (mmap_start p <=? addr) && (u64 (addr + len) <=? mmap_end p) in
    pd_release ;;;
    if negb insideBounds then ret (ERR EINVAL)
    else
      on_mm (mfor (seqZ 0 (CEILING_DIVISION len PAGE_SIZE)) (fun i =>
        let! s := get in
        if virtual_to_physical (vm s) (u64 (addr + i * PAGE_SIZE)) =? 0 then ret tt
        else virtual_map (u64 (addr + i * PAGE_SIZE)) 0 PF_USER)) ;;;
      ret 0.

(** ** The break *)

(** [virtual_to_physical] only subtracts the offset of the direct map, so no
    user address is ever answered with zero. *)
Lemma user_never_null s v :
  2 ^ 47 <= hhdm s < 2 ^ 64 -> user v -> (virtual_to_physical (vm s) v =? 0) = false.
Proof.
  intros Hh [H0 H1]. apply Z.eqb_neq. unfold virtual_to_physical, u64. change (hhdmOffset (vm s)) with (hhdm s).
  intros E. apply Z.mod_divide in E as [k E]; [|lia]. assert (k = 0 \/ k <= -1 \/ 1 <= k) by lia. nia.
Qed.

Lemma mfor_skip {S A} (l : list A) (f : A -> M S unit) s :
  (forall x, x ∈ l -> f x s = Ok (tt, s)) -> mfor l f s = Ok (tt, s).
Proof.
  induction l as [|x l IH]; intros H; [done|]. cbn. erewrite bind_ok by (apply H; by left).
  apply IH. intros y Hy. apply H. by right.
Qed.

Lemma page_top e : 0 <= e <= 2 ^ 47 -> CEILING_DIVISION e PAGE_SIZE = (e + 4095) / 4096.
Proof. intros. unfold PAGE_SIZE. rewrite CEILING_DIVISION_spec by lia. f_equal. lia. Qed.

Lemma adjust_maps_nothing s new start end_ :
  2 ^ 47 <= hhdm s < 2 ^ 64 -> start < new -> 0 <= end_ <= new -> new <= 2 ^ 47 ->
  task_adjust_heap new start end_ s = Ok (Some new, s).
Proof.
  intros Hh Hs He Hn. unfold task_adjust_heap. rewrite (proj2 (Z.leb_gt _ _)) by lia.
  rewrite !page_top by lia. assert ((end_ + 4095) / 4096 <= (new + 4095) / 4096) by (apply Z.div_le_mono; lia).
  destruct (Z.ltb_spec ((end_ + 4095) / 4096) ((new + 4095) / 4096)).
  - erewrite bind_ok; [done|]. apply mfor_skip. intros i Hi%elem_of_seqZ.
    assert (user ((end_ + 4095) / 4096 * PAGE_SIZE + i * PAGE_SIZE)) as Hu
      by (unfold user, PAGE_SIZE in *; Z.to_euclidean_division_equations; lia).
    rewrite u64_small by (unfold user in Hu; lia). unfold bind, get. by rewrite user_never_null.
  - by rewrite (proj2 (Z.ltb_ge _ _)) by lia.
Qed.

Lemma brk_moves s brk :
  2 ^ 47 <= hhdm (mm s) < 2 ^ 64 -> LOCK_PD (infoPd s) = false ->
  0 <= heap_end (infoPd s) -> heap_start (infoPd s) < brk -> heap_end (infoPd s) <= brk <= 2 ^ 47 ->
  brk <> 0 ->
  syscallBrk brk s = Ok (Some brk, mkProc (mm s) (set_heap_end brk (infoPd s))).
Proof.
  destruct s as [t [l hs he ms me]]. cbn. intros Hh -> H0 Hs He Hb.
  unfold syscallBrk. erewrite bind_ok by done. erewrite bind_ok by done. cbn [infoPd set_lock heap_end mm LOCK_PD].
  rewrite (proj2 (Z.eqb_neq _ _)), (proj2 (Z.ltb_ge _ _)) by (lia || done).
  assert (adjust_heap brk (mkProc t (mkPd false hs he ms me)) =
    Ok (Some tt, mkProc t (mkPd false hs brk ms me))) as E.
  { unfold adjust_heap. erewrite bind_ok by done. cbn [infoPd heap_start heap_end].
    erewrite bind_ok; [|unfold on_mm; cbn [mm]; by rewrite adjust_maps_nothing by lia]. done. }
  by mrw E.
Qed.

(** C16: The break without memory.  Raising the break succeeds and moves
    [heap_end], and leaves the page tables, the frames and the memory exactly as
    they were, so a page of the new part that had no frame still has none and a
    store to it is a page fault: the check for pages that are mapped already
    takes every user address for mapped. *)
Theorem brk_maps_nothing s r brk v b :
  space (mm s) r -> LOCK_PD (infoPd s) = false ->
  0 <= heap_start (infoPd s) <= heap_end (infoPd s) -> heap_end (infoPd s) < brk <= 2 ^ 47 ->
  heap_end (infoPd s) <= v < brk -> ~ mapped (mm s) v ->
  exists s', syscallBrk brk s = Ok (Some brk, s') /\
    mm s' = mm s /\ heap_end (infoPd s') = brk /\ on_mm (store_byte v b) s' = Fault.
Proof.
  intros Sp Hl H0 He Hv Hn. pose proof (sp_high _ _ Sp). pose proof (pw_hhdm _ _ (sp_wf _ _ Sp)).
  eexists. split; [apply brk_moves; (done || lia)|]. split_and!; [done|done|].
  unfold on_mm, store_byte. cbn [mm]. unfold mapped in Hn.
  destruct (mmu_translate (mm s) v); [by destruct Hn|done].
Qed.

Definition ex_proc : proc := mkProc ex_mmu taskInfoPdAllocate.

Lemma brk_maps_nothing_witness :
  exists s', syscallBrk 0x600000003000 ex_proc = Ok (Some 0x600000003000, s') /\
    mm s' = ex_mmu /\ heap_end (infoPd s') = 0x600000003000 /\
    on_mm (store_byte 0x600000001000 65) s' = Fault.
Proof.
  apply (brk_maps_nothing ex_proc 8192 0x600000003000 0x600000001000 65);
    [apply ex_space|done|done|done|done|]. vm_compute. intros H. by apply H.
Defined.

(** Asking a fresh process for its break by setting it to where it is ends in
    [task_kill]: the new end is not above the start. *)
Theorem brk_at_start_kills t : syscallBrk USER_HEAP_START (mkProc t taskInfoPdAllocate) =
  Ok (None, mkProc t taskInfoPdAllocate).
Proof. reflexivity. Qed.

(** ** Fixed anonymous mappings *)

Definition round_pages (n : Z) : Z := (n + 4095) / 4096.

Lemma map_pages_fresh s addr (n : nat) flags :
  0 <= addr -> addr + Z.of_nat n * 4096 <= 2 ^ 47 -> Z.of_nat n <= 2 ^ 19 ->
  map_pages addr (Z.of_nat n) flags s =
  mfor (seqZ 0 (Z.of_nat n)) (fun j => map_fresh (addr + j * 4096) flags) s.
Proof.
  intros H0 Hb Hn. unfold map_pages. apply mfor_ext. intros j s1 Hj%elem_of_seqZ. unfold PAGE_SIZE.
  rewrite (proj2 (Z.ltb_lt _ _)) by lia. unfold map_fresh. by rewrite u64_small by lia.
Qed.

(** New pages, all zero; what was mapped before is unchanged. *)
Lemma fresh_zero_pages s r addr (n : nat) :
  space s r -> 0 <= addr -> addr + Z.of_nat n * 4096 <= 2 ^ 47 -> addr mod 4096 = 0 -> Z.of_nat n <= 2 ^ 19 ->
  4 * Z.of_nat n <= free_pages s -> (forall w, addr <= w < addr + Z.of_nat n * 4096 -> ~ mapped s w) ->
  exists s', (map_pages addr (Z.of_nat n) (Z.lor PF_RW PF_USER) ;;; clear_bytes addr (Z.of_nat n * 4096)) s =
      Ok (tt, s') /\ space s' r /\ kept s s' /\ free_pages s - 4 * Z.of_nat n <= free_pages s' /\
    (forall w, addr <= w < addr + Z.of_nat n * 4096 -> user_byte s' w = Some 0) /\
    (forall w, user w -> ~ (addr <= w < addr + Z.of_nat n * 4096) -> user_byte s' w = user_byte s w).
Proof.
  intros Sp H0 Hb Hm Hn Hc Hun.
  destruct (ensure_pages_ok s r addr n (Z.lor PF_RW PF_USER) Sp H0 Hb Hm ltac:(by cbn) Hc)
    as (s1 & E1 & Sp1 & K1 & C1 & M1 & P1).
  rewrite <- (fresh_pages_ok s r) in E1 by (done || by cbn). rewrite <- map_pages_fresh in E1 by done.
  set (zs := replicate (Z.to_nat (Z.of_nat n * 4096)) 0).
  assert (Hl : zlen zs = Z.of_nat n * 4096) by (apply zlen_replicate; lia).
  destruct (write_bytes_ok s1 r addr zs) as (s2 & E2 & Sp2 & K2 & G2 & T2 & U2);
    [done|done|lia|by apply Forall_replicate|intros i Hi; apply M1; lia|].
  exists s2. split_and!; [by mrw E1|done|by eapply kept_trans|unfold free_pages in *; rewrite G2; lia| |].
  - intros w Hw. rewrite U2 by (split; lia). rewrite decide_True by lia. unfold zs.
    apply lookup_replicate. split; [done|lia].
  - intros w Hw Hout. rewrite U2 by done. rewrite decide_False by lia. apply P1; [done|by right].
Qed.

(** C15: A fixed anonymous mapping, in an address space whose upper half may hold
    the direct map ([space]).  [mmap] with [MAP_FIXED | MAP_ANONYMOUS] at a
    page-aligned address below the upper half, on a range without mappings and
    with four free pages per page, returns the address; every byte of the
    rounded length reads zero, every other user address reads as before, no two
    user pages share a frame, and the mapping bound covers the range. *)
Theorem mmap_fixed_zeroed node_mmap s r addr length prot flags fd off :
  space (mm s) r -> LOCK_PD (infoPd s) = false ->
  flag flags MAP_FIXED = true -> flag flags MAP_ANONYMOUS = true ->
  0 < addr -> addr mod 4096 = 0 -> 0 < length <= 2 ^ 31 -> addr + round_pages length * 4096 <= 2 ^ 47 ->
  4 * round_pages length <= free_pages (mm s) ->
  (forall w, addr <= w < addr + round_pages length * 4096 -> ~ mapped (mm s) w) ->
  exists s', syscallMmap node_mmap addr length prot flags fd off s = Ok (Some addr, s') /\
    space (mm s') r /\
    (forall w, addr <= w < addr + round_pages length * 4096 -> user_byte (mm s') w = Some 0) /\
    (forall w, user w -> ~ (addr <= w < addr + round_pages length * 4096) ->
       user_byte (mm s') w = user_byte (mm s) w) /\
    mmap_end (infoPd s') = Z.max (mmap_end (infoPd s)) (addr + round_pages length * 4096).
Proof.
  destruct s as [t [l hs he ms me]]. cbn [mm infoPd LOCK_PD mmap_end].
  intros Sp -> Hf Ha H0 Hm Hl Hb Hc Hun. set (n := round_pages length) in *.
  assert (Hn : 0 < n <= 2 ^ 19) by (unfold n, round_pages; Z.to_euclidean_division_equations; lia).
  assert (Hlen : u64 (CEILING_DIVISION length 0x1000 * 0x1000) = n * 4096).
  { rewrite CEILING_DIVISION_spec by lia. replace (length + 0x1000 - 1) with (length + 4095) by lia.
    fold (round_pages length). fold n. apply u64_small. lia. }
  assert (Hpg : CEILING_DIVISION (n * 4096) PAGE_SIZE = n).
  { unfold PAGE_SIZE. rewrite CEILING_DIVISION_spec by lia. Z.to_euclidean_division_equations. lia. }
  destruct (fresh_zero_pages t r addr (Z.to_nat n)) as (t' & E & Sp' & _ & _ & Z1 & Z2);
    [done|lia|lia|done|lia|lia|intros; apply Hun; lia|]. rewrite !Z2Nat.id in * by lia.
  set (q := mkPd false hs he ms (Z.max me (addr + n * 4096))).
  exists (mkProc t' q). split_and!; try done.
  unfold syscallMmap. rewrite (proj2 (Z.eqb_neq length 0)) by lia. unfold PAGE_SIZE at 1. rewrite Hm. cbn [orb negb Z.eqb].
  rewrite (proj2 (Z.eqb_neq addr 0)) by lia. rewrite Hf, Ha, Hlen, Hpg. cbn [andb]. erewrite bind_ok by done.
  unfold PAGE_SIZE. rewrite (u64_small (n * 4096)), u64_small by lia.
  erewrite bind_ok by done. cbn [infoPd set_lock mmap_end LOCK_PD mm].
  erewrite (bind_ok _ _ _ tt (mkProc t q)).
  2:{ unfold q. destruct (Z.ltb_spec me (addr + n * 4096)); [by rewrite Z.max_r by lia|by rewrite Z.max_l by lia]. }
  erewrite bind_ok by done. apply bind_inv in E as ([] & t1 & E1 & E2).
  erewrite bind_ok by (unfold on_mm; cbn [mm]; by rewrite E1).
  by erewrite bind_ok by (unfold on_mm; cbn [mm]; by rewrite E2).
Qed.

Lemma mmap_fixed_zeroed_witness :
  exists s', syscallMmap (fun _ => None) 0x700000000000 5000 3 0x32 (-1) 0 ex_proc = Ok (Some 0x700000000000, s') /\
    space (mm s') 8192 /\
    (forall w, 0x700000000000 <= w < 0x700000002000 -> user_byte (mm s') w = Some 0) /\
    (forall w, user w -> ~ (0x700000000000 <= w < 0x700000002000) -> user_byte (mm s') w = user_byte ex_mmu w) /\
    mmap_end (infoPd s') = 0x700000002000.
Proof.
  apply (mmap_fixed_zeroed (fun _ => None) ex_proc 8192 0x700000000000 5000 3 0x32 (-1) 0);
    try done; [apply ex_space|]. intros w Hw Hm.
  assert (user w) as Hu by (unfold user, round_pages in *; Z.to_euclidean_division_equations; lia).
  by apply Hm, ex_unmapped.
Defined.

(** [munmap] of one page does not unmap it: the address is left mapped, for the
    user, to physical page 0, whether or not it was mapped before. *)
Theorem munmap_maps_page_zero s r addr :
  space (mm s) r -> LOCK_PD (infoPd s) = false -> 3 <= free_pages (mm s) ->
  user addr -> addr mod 4096 = 0 ->
  mmap_start (infoPd s) <= addr -> addr + 4096 <= mmap_end (infoPd s) ->
  old_managed (mm s) r (indices addr) ->
  exists s', syscallMunmap addr 4096 s = Ok (0, s') /\
    forall w, addr <= w < addr + 4096 -> mmu_translate (mm s') w = Some (w mod 4096).
Proof.
  destruct s as [t [l hs he ms me]]. cbn [mm infoPd LOCK_PD mmap_start mmap_end].
  intros Sp -> Hc Hu Hm Hs He Hold. pose proof (sp_high _ _ Sp). pose proof (pw_hhdm _ _ (sp_wf _ _ Sp)).
  assert (0 <= addr < 2 ^ 47) by (unfold user in Hu; lia).
  destruct (virtual_mapL_ok t r addr 0 PF_USER (sp_wf _ _ Sp) ltac:(rewrite user_strip by done; by apply user_low)
    (sp_lock _ _ Sp) Hc Hm ltac:(lia) ltac:(by cbn)) as (t' & E & St & _ & Hw & _); [by rewrite user_strip|].
  exists (mkProc t' (mkPd false hs he ms me)). split.
  - unfold syscallMunmap. unfold PAGE_SIZE at 1. rewrite Hm. cbn [negb orb Z.eqb]. erewrite bind_ok by done.
    erewrite bind_ok by done. cbn [infoPd mmap_start mmap_end set_lock LOCK_PD mm]. erewrite bind_ok by done.
    rewrite (u64_small (addr + 4096)), (proj2 (Z.leb_le ms addr)), (proj2 (Z.leb_le (addr + 4096) me)) by lia.
    cbn [andb negb].
    change (seqZ 0 (CEILING_DIVISION 4096 PAGE_SIZE)) with [0]. unfold on_mm. cbn [mm mfor infoPd set_lock LOCK_PD].
    rewrite Z.mul_0_l, Z.add_0_r, (u64_small addr) by lia. unfold bind, get. rewrite (user_never_null t) by (done || lia).
    unfold virtual_map, bind, gets. cbn [mm]. rewrite (sp_dir _ _ Sp), E. done.
  - intros w Hw'. assert (user w) by (unfold user in *; Z.to_euclidean_division_equations; lia).
    injection St as _ _ _ S4 _ _ _. cbn [mm]. unfold mmu_translate. rewrite user_canonical, user_strip, S4 by done.
    rewrite (space_root t r Sp) by done. rewrite Hw by (apply indices_path || done).
    rewrite user_strip by done. rewrite decide_True; [done|]. apply same_page; [done|done|].
    Z.to_euclidean_division_equations. lia.
Qed.

Lemma munmap_maps_page_zero_witness :
  exists s', syscallMunmap 0x700000000000 4096 (mkProc ex_mmu (mkPd false USER_HEAP_START USER_HEAP_START 0x700000000000 0x700000001000)) = Ok (0, s') /\
    forall w, 0x700000000000 <= w < 0x700000000000 + 4096 -> mmu_translate (mm s') w = Some (w mod 4096).
Proof.
  apply (munmap_maps_page_zero _ 8192); try done. apply ex_space.
Defined.

(** An anonymous mapping without an address, the usual request of an allocator,
    moves the bound and then clears pages nobody mapped. *)
Theorem mmap_anonymous_faults node_mmap s r length prot :
  space (mm s) r -> LOCK_PD (infoPd s) = false -> 0 < length <= 2 ^ 31 ->
  0 <= mmap_start (infoPd s) <= mmap_end (infoPd s) -> mmap_end (infoPd s) + 2 ^ 32 <= 2 ^ 47 ->
  ~ mapped (mm s) (mmap_end (infoPd s)) ->
  syscallMmap node_mmap 0 length prot (Z.lor MAP_PRIVATE MAP_ANONYMOUS) (-1) 0 s = Fault.
Proof.
  destruct s as [t [l hs he ms me]]. cbn [mm infoPd LOCK_PD mmap_start mmap_end].
  intros Sp -> Hl Hm He Hn. pose proof (sp_high _ _ Sp). pose proof (pw_hhdm _ _ (sp_wf _ _ Sp)).
  set (n := round_pages length). assert (Hn' : 0 < n <= 2 ^ 19) by (unfold n, round_pages; Z.to_euclidean_division_equations; lia).
  assert (Hlen : u64 (CEILING_DIVISION length 0x1000 * 0x1000) = n * 4096).
  { rewrite CEILING_DIVISION_spec by lia. replace (length + 0x1000 - 1) with (length + 4095) by lia.
    fold (round_pages length). fold n. apply u64_small. lia. }
  unfold syscallMmap. rewrite (proj2 (Z.eqb_neq length 0)) by lia. rewrite Hlen. cbn [orb negb].
  change (negb (0 mod PAGE_SIZE =? 0)) with false. change (0 =? 0) with true. cbv iota.
  change (flag _ MAP_FIXED) with false. cbn [andb]. change (-1 =? -1) with true.
  change (drop_flag (drop_flag (drop_flag (Z.lor MAP_PRIVATE MAP_ANONYMOUS) MAP_FIXED) MAP_FIXED) MAP_PRIVATE =? MAP_ANONYMOUS) with true.
  cbn [andb]. erewrite bind_ok by done. erewrite bind_ok by done. cbn [infoPd mmap_end set_lock LOCK_PD mm].
  rewrite u64_small by lia.
  assert (adjust_mmap (me + n * 4096) (mkProc t (mkPd false hs he ms me)) =
    Ok (Some tt, mkProc t (mkPd false hs he ms (me + n * 4096)))) as E.
  { unfold adjust_mmap. erewrite bind_ok by done. cbn [infoPd mmap_start mmap_end].
    erewrite bind_ok; [|unfold on_mm; cbn [mm]; by rewrite adjust_maps_nothing by lia]. done. }
  assert (clear_bytes me (n * 4096) t = Fault) as Ef.
  { unfold clear_bytes. destruct (Z.to_nat (n * 4096)) as [|k] eqn:Ek; [lia|]. cbn. unfold bind, store_byte.
    unfold mapped in Hn. destruct (mmu_translate t me); [by destruct Hn|done]. }
  mrw E. erewrite bind_ok by done. unfold bind, on_mm. cbn [mm]. by rewrite Ef.
Qed.
