(* ===== verification/UserStack.v ===== *)
(** * Stacks of new tasks ([multitasking/stack.cpp])

    The functions run in the directory of the task they build, with the task's
    break and lock in [infoPd]; [rsp] is [registers.usermode_rsp].  [rand] is the
    four non-zero numbers the generator ends with. *)

From S2P Require Import Prelude FileTypes Bytes Spinlock Bitmap Pmm Paging UserMemory Elf UserHeap.

(** ** Operations *)

Definition stackGenerateMutual : M mmu unit :=
  mfor (seqZ 0 USER_STACK_PAGES) (fun i =>
    let virt_addr := USER_STACK_BOTTOM - USER_STACK_PAGES * 0x1000 + i * 0x1000 in
    let! phys := on_vm (on_physical (physical_allocate 1)) in
    virtual_map virt_addr phys (Z.lor PF_USER PF_RW) ;;;
    clear_bytes virt_addr PAGE_SIZE).

(** [PUSH_TO_STACK] of a 64-bit value; the result is the new stack pointer. *)
Definition PUSH_TO_STACK (rsp c : Z) : M mmu Z :=
  let rsp := u64 (rsp - 8) in
  write_bytes rsp (le 8 c) ;;; ret rsp.

Fixpoint push_all (rsp : Z) (cs : list Z) : M mmu Z :=
  match cs with
  | [] => ret rsp
  | c :: cs => let! rsp := PUSH_TO_STACK rsp c in push_all rsp cs
  end.

Record StackStorePtrStyle := mkStore { st_start : Z; st_ellapsed : Z }.

(** Copying the strings, each with its terminator. *)
Fixpoint store_strings (argStart ellapsed : Z) (ptrv : list (list Z)) : M mmu Z :=
  match ptrv with
  | [] => ret ellapsed
  | p :: ptrv =>
      let len := u32 (zlen p + 1) in
      write_bytes (u64 (argStart + ellapsed)) (p ++ [0]) ;;;
      store_strings argStart (u64 (ellapsed + len)) ptrv
  end.

Definition arg_space (ptrv : list (list Z)) : Z := foldl (fun n p => u32 (n + (zlen p + 1))) 0 ptrv.

Definition stackStorePtrStyle (ptrv : list (list Z)) : M proc (option StackStorePtrStyle) :=
  let argSpace := arg_space ptrv in
  pd_acquire ;;;
  let! p := gets infoPd in
  let argStart := heap_end p in
  let! ok := adjust_heap (u64 (heap_end p + argSpace)) in
  match ok with
  | None => ret None
  | Some _ =>
      pd_release ;;;
      let! ellapsed := on_mm (store_strings argStart 0 ptrv) in
      ret (Some (mkStore argStart (s32 ellapsed)))
  end.

(** The pointers to stored strings, last string first. *)
Fixpoint push_pointers (st : StackStorePtrStyle) (rsp finalEllapsed : Z) (rev_ptrv : list (list Z)) : M mmu Z :=
  match rev_ptrv with
  | [] => ret rsp
  | p :: rev_ptrv =>
      let len := u32 (zlen p + 1) in
      let finalEllapsed := u64 (finalEllapsed + len) in
      let! rsp := PUSH_TO_STACK rsp (u64 (st_start st + (st_ellapsed st - finalEllapsed))) in
      push_pointers st rsp finalEllapsed rev_ptrv
  end.

(** The lowest address of a loadable segment. *)
Fixpoint lowest_segment (out : list Z) (is_ : list Z) (lowestThing : Z) : option Z :=
  match is_ with
  | [] => Some lowestThing
  | i :: is_ =>
      o ← phdr_at out i;
      ty ← phdr_type out o;
      if negb (ty =? PT_LOAD) then lowest_segment out is_ lowestThing
      else
        vaddr ← load_le 8 (o + 16) out;
        lowest_segment out is_ (if (lowestThing =? 0) || (vaddr <? lowestThing) then vaddr else lowestThing)
  end.

(** The auxiliary vector in the order it is pushed. *)
Definition auxiliary (out : list Z) (randomByteStart at_base executableBase : Z) : option (list Z) :=
  phnum ← e_phnum out;
  lowestThing ← lowest_segment out (seqZ 0 phnum) 0;
  type ← e_type out;
  let phdrThing := if type =? 3 then 0 else lowestThing in
  phentsize ← e_phentsize out;
  entry ← e_entry out;
  phoff ← e_phoff out;
  Some [0; 0;
        randomByteStart; 25;
        4096; 6;
        0; 23;
        phnum; 5;
        phentsize; 4;
        u64 (executableBase + entry); 9;
        at_base; 7;
        0; 8;
        0; 16;
        u64 (u64 (executableBase + phdrThing) + phoff); 3].

Definition stackGenerateUser (rand : list Z) (argv envv : list (list Z)) (out : list Z)
    (at_base executableBase rsp : Z) : M proc (option Z) :=
  on_mm stackGenerateMutual ;;;
  pd_acquire ;;;
  let! p := gets infoPd in
  let randomByteStart := heap_end p in
  let! ok := adjust_heap (u64 (heap_end p + 16)) in
  match ok with
  | None => ret None
  | Some _ =>
      pd_release ;;;
      on_mm (write_bytes randomByteStart (mjoin (le 4 <$> rand))) ;;;
      let! aux := from_option_fault (auxiliary out randomByteStart at_base executableBase) in
      let! rsp := on_mm (push_all rsp aux) in
      let! arguments := stackStorePtrStyle argv in
      match arguments with
      | None => ret None
      | Some arguments =>
          let! environment :=
            if bool_decide (envv = []) then ret (Some (mkStore 0 0)) else stackStorePtrStyle envv in
          match environment with
          | None => ret None
          | Some environment =>
              let! rsp := on_mm (PUSH_TO_STACK rsp 0) in
              let! rsp :=
                if 0 <? st_ellapsed environment
                then on_mm (push_pointers environment rsp 0 (rev envv)) else ret rsp in
              let! rsp := on_mm (PUSH_TO_STACK rsp 0) in
              let! rsp := on_mm (push_pointers arguments rsp 0 (rev argv)) in
              let! rsp := on_mm (PUSH_TO_STACK rsp (zlen argv)) in
              ret (Some rsp)
          end
      end
  end.

(** [taskKernelReturn] is the address of the function a kernel task returns to.
    The result is the stack pointer and the first argument register. *)
Definition stack_generate_kernel (taskKernelReturn parameter rsp : Z) : M mmu (Z * Z) :=
  stackGenerateMutual ;;;
  let! rsp := PUSH_TO_STACK rsp taskKernelReturn in
  ret (rsp, parameter).

(** ** Effects of the writes *)

Record wrote (r : Z) (s s' : mmu) (a : Z) (bs : list Z) : Prop := {
  wr_space : space s' r;
  wr_kept : kept s s';
  wr_pages : pages s' = pages s;
  wr_map : forall w, user w -> mmu_translate s' w = mmu_translate s w;
  wr_bytes : forall w, user w -> user_byte s' w =
    if decide (a <= w < a + zlen bs) then bs !! Z.to_nat (w - a) else user_byte s w;
}.

Definition mapped_range (s : mmu) (a n : Z) : Prop := forall w, a <= w < a + n -> mapped s w.

Section wrote.
Context (r : Z).

Lemma write_wrote s a bs :
  space s r -> 0 <= a -> a + zlen bs <= 2 ^ 47 -> Forall is_byte bs -> mapped_range s a (zlen bs) ->
  exists s', write_bytes a bs s = Ok (tt, s') /\ wrote r s s' a bs.
Proof.
  intros Sp H0 Hl Hb Hm.
  destruct (write_bytes_ok s r a bs Sp H0 Hl Hb) as (s' & E & Sp' & K & P & T & U); [intros; apply Hm; lia|].
  exists s'. split; [done|by split].
Qed.

Lemma wrote_nil s a : space s r -> wrote r s s a [].
Proof. intros Sp. split; try done. intros w Hw. change (zlen (@nil Z)) with 0. by rewrite decide_False by lia. Qed.

(** Writing next to what was written: below and above. *)
Lemma wrote_app s s1 s2 a bs cs :
  (wrote r s s1 (a + zlen bs) cs /\ wrote r s1 s2 a bs) \/ (wrote r s s1 a bs /\ wrote r s1 s2 (a + zlen bs) cs) ->
  wrote r s s2 a (bs ++ cs).
Proof.
  pose proof (zlen_nonneg bs). pose proof (zlen_nonneg cs).
  intros [[[S1 K1 P1 T1 B1] [S2 K2 P2 T2 B2]]|[[S1 K1 P1 T1 B1] [S2 K2 P2 T2 B2]]];
    (split; [done|by eapply kept_trans|congruence|intros; by rewrite T2, T1|]);
    intros w Hw; rewrite B2, B1, zlen_app by done; unfold zlen in *.
  - destruct (decide (a <= w < a + Z.of_nat (length bs))).
    + rewrite decide_True by lia. rewrite lookup_app_l by lia. done.
    + destruct (decide (a + Z.of_nat (length bs) <= w < _)); [|by rewrite decide_False by lia].
      rewrite decide_True by lia. rewrite lookup_app_r by lia. f_equal. lia.
  - destruct (decide (a + Z.of_nat (length bs) <= w < _)).
    + rewrite decide_True by lia. rewrite lookup_app_r by lia. f_equal. lia.
    + destruct (decide (a <= w < a + Z.of_nat (length bs))); [|by rewrite decide_False by lia].
      rewrite decide_True by lia. rewrite lookup_app_l by lia. done.
Qed.

Lemma wrote_range s s' a bs b n : wrote r s s' a bs -> 0 <= b -> b + n <= 2 ^ 47 ->
  mapped_range s b n -> mapped_range s' b n.
Proof. intros [] H0 Hl Hm w Hw. unfold mapped. rewrite wr_map0 by (split; lia). by apply Hm. Qed.

Lemma push_ok s rsp c :
  space s r -> 8 <= rsp <= 2 ^ 47 -> mapped_range s (rsp - 8) 8 ->
  exists s', PUSH_TO_STACK rsp c s = Ok (rsp - 8, s') /\ wrote r s s' (rsp - 8) (le 8 c).
Proof.
  intros Sp H Hm. destruct (write_wrote s (rsp - 8) (le 8 c)) as (s' & E & W);
    [done|lia|rewrite zlen_le by lia; lia|by apply le_bytes|by rewrite zlen_le by lia|].
  exists s'. split; [|done]. unfold PUSH_TO_STACK. rewrite u64_small by lia. by mrw E.
Qed.

(** Words in memory order. *)
Definition words (cs : list Z) : list Z := mjoin (le 8 <$> cs).

Lemma zlen_words cs : zlen (words cs) = 8 * zlen cs.
Proof.
  induction cs as [|c cs IH]; [done|]. change (words (c :: cs)) with (le 8 c ++ words cs).
  rewrite zlen_app, IH, zlen_le by lia. change (zlen (c :: cs)) with (zlen ([c] ++ cs)). rewrite zlen_app.
  change (zlen [c]) with 1. lia.
Qed.

Lemma words_app cs ds : words (cs ++ ds) = words cs ++ words ds.
Proof.
  induction cs as [|c cs IH]; [done|]. change (words ((c :: cs) ++ ds)) with (le 8 c ++ words (cs ++ ds)).
  rewrite IH. apply app_assoc.
Qed.

Lemma push_all_ok cs : forall s rsp,
  space s r -> 8 * zlen cs <= rsp <= 2 ^ 47 -> mapped_range s (rsp - 8 * zlen cs) (8 * zlen cs) ->
  exists s', push_all rsp cs s = Ok (rsp - 8 * zlen cs, s') /\
    wrote r s s' (rsp - 8 * zlen cs) (words (rev cs)).
Proof.
  induction cs as [|c cs IH]; intros s rsp Sp H Hm.
  - exists s. change (zlen (@nil Z)) with 0. rewrite Z.sub_0_r. split; [done|by apply wrote_nil].
  - change (zlen (c :: cs)) with (zlen ([c] ++ cs)) in *. rewrite zlen_app in *. change (zlen [c]) with 1 in *.
    pose proof (zlen_nonneg cs).
    destruct (push_ok s rsp c Sp ltac:(lia)) as (s1 & E1 & W1); [intros w Hw; apply Hm; lia|].
    destruct (IH s1 (rsp - 8) (wr_space _ _ _ _ _ W1) ltac:(lia)) as (s2 & E2 & W2).
    { eapply wrote_range; [exact W1|lia|lia|]. intros w Hw. apply Hm. lia. }
    replace (rsp - 8 - 8 * zlen cs) with (rsp - 8 * (1 + zlen cs)) in * by lia.
    exists s2. split; [cbn [push_all]; by mrw E1|]. cbn [rev]. rewrite words_app.
    eapply wrote_app. left. split; [|exact W2].
    rewrite zlen_words. assert (zlen (rev cs) = zlen cs) as -> by (unfold zlen; by rewrite length_rev).
    replace (rsp - 8 * (1 + zlen cs) + 8 * zlen cs) with (rsp - 8) by lia.
    unfold words. cbn. by rewrite app_nil_r.
Qed.

End wrote.

(** ** Stack pages *)

Definition zero_page (v flags : Z) : M mmu unit := map_fresh v flags ;;; clear_bytes v PAGE_SIZE.

Lemma zero_page_ok s r v flags :
  space s r -> user v -> v mod 4096 = 0 -> 0 <= flags < 4096 -> ~ mapped s v -> 4 <= free_pages s ->
  exists s', zero_page v flags s = Ok (tt, s') /\ space s' r /\ kept s s' /\
    free_pages s - 4 <= free_pages s' /\
    (forall w, v <= w < v + 4096 -> mapped s' w /\ user_byte s' w = Some 0) /\
    (forall w, user w -> ~ (v <= w < v + 4096) ->
       mmu_translate s' w = mmu_translate s w /\ user_byte s' w = user_byte s w).
Proof.
  intros Sp Hv Hm Hf Hn Hc.
  destruct (map_fresh_ok s r Sp v flags Hv Hm Hf Hn Hc) as (f & s1 & E1 & Sp1 & K1 & _ & C1 & T1 & U1).
  assert (Hd : forall w, v <= w < v + 4096 <-> w / 4096 = v / 4096)
    by (intros w; Z.to_euclidean_division_equations; lia).
  assert (Hu : v + 4096 <= 2 ^ 47) by (unfold user in Hv; Z.to_euclidean_division_equations; lia).
  set (zs := replicate (Z.to_nat PAGE_SIZE) 0).
  assert (Hl : zlen zs = 4096) by (by apply (zlen_replicate 4096)).
  destruct (write_wrote r s1 v zs) as (s2 & E2 & [Sp2 K2 P2 T2 U2]);
    [done|unfold user in Hv; lia|lia|by apply Forall_replicate| |].
  { intros w Hw. rewrite Hl in Hw. unfold mapped. rewrite T1 by (unfold user in *; lia).
    by rewrite decide_True by (apply Hd; lia). }
  exists s2. split_and!; [unfold zero_page; by mrw E1|done|by eapply kept_trans|unfold free_pages in *; rewrite P2; lia| |].
  - intros w Hw. assert (user w) by (unfold user in *; lia). split.
    + unfold mapped. rewrite T2, T1 by done. by rewrite decide_True by (by apply Hd).
    + rewrite U2 by done. rewrite Hl, decide_True by lia. apply lookup_replicate. split; [done|]. unfold PAGE_SIZE. lia.
  - intros w Hw Hout. rewrite T2, T1, U2, U1 by done. rewrite Hl, (decide_False (P := v <= w < v + 4096)) by done.
    by rewrite !decide_False by (by rewrite <- Hd).
Qed.

Lemma zero_pages_ok s r v (n : nat) flags :
  space s r -> 0 <= v -> v + Z.of_nat n * 4096 <= 2 ^ 47 -> v mod 4096 = 0 -> 0 <= flags < 4096 ->
  4 * Z.of_nat n <= free_pages s -> (forall w, v <= w < v + Z.of_nat n * 4096 -> ~ mapped s w) ->
  exists s', mfor (seqZ 0 (Z.of_nat n)) (fun j => zero_page (v + j * 4096) flags) s = Ok (tt, s') /\
    space s' r /\ kept s s' /\ free_pages s - 4 * Z.of_nat n <= free_pages s' /\
    (forall w, v <= w < v + Z.of_nat n * 4096 -> mapped s' w /\ user_byte s' w = Some 0) /\
    (forall w, user w -> ~ (v <= w < v + Z.of_nat n * 4096) ->
       mmu_translate s' w = mmu_translate s w /\ user_byte s' w = user_byte s w).
Proof.
  intros Sp H0 Hb Hm Hf. induction n as [|n IH]; intros Hc Hn.
  - exists s. split_and!; try done; [lia|intros; lia].
  - destruct IH as (s1 & E1 & Sp1 & K1 & C1 & M1 & P1); [lia|lia|intros; apply Hn; lia|].
    set (u := v + Z.of_nat n * 4096). assert (Hu : user u) by (unfold u; split; lia).
    destruct (zero_page_ok s1 r u flags Sp1 Hu) as (s2 & E2 & Sp2 & K2 & C2 & M2 & P2);
      [unfold u; by rewrite Z.mod_add by lia|done| |lia|].
    { unfold mapped. destruct (P1 u) as [-> _]; [done|unfold u; lia|]. apply Hn. unfold u. lia. }
    exists s2. split_and!; [|done|by eapply kept_trans|lia| |].
    + replace (Z.of_nat (S n)) with (Z.of_nat n + 1) by lia. rewrite seqZ_app, mfor_app by lia. mrw E1.
      change (seqZ (0 + Z.of_nat n) 1) with [0 + Z.of_nat n]. cbn [mfor]. rewrite Z.add_0_l.
      unfold u in E2. by mrw E2.
    + intros w Hw. destruct (decide (w < u)) as [Hlt|Hge].
      * destruct (P2 w) as [T B]; [split; lia|lia|]. unfold mapped. rewrite T, B. apply M1. unfold u in *. lia.
      * apply M2. unfold u in *. lia.
    + intros w Hw Hout. destruct (P2 w Hw) as [-> ->]; [unfold u; lia|]. apply P1; [done|lia].
Qed.

Definition stack_low : Z := USER_STACK_BOTTOM - USER_STACK_PAGES * 0x1000.

Lemma stackGenerateMutual_ok s r :
  space s r -> 4 * USER_STACK_PAGES <= free_pages s ->
  (forall w, stack_low <= w < USER_STACK_BOTTOM -> ~ mapped s w) ->
  exists s', stackGenerateMutual s = Ok (tt, s') /\ space s' r /\ kept s s' /\
    free_pages s - 4 * USER_STACK_PAGES <= free_pages s' /\
    (forall w, stack_low <= w < USER_STACK_BOTTOM -> mapped s' w /\ user_byte s' w = Some 0) /\
    (forall w, user w -> w < stack_low ->
       mmu_translate s' w = mmu_translate s w /\ user_byte s' w = user_byte s w).
Proof.
  intros Sp Hc Hn. assert (HB : USER_STACK_BOTTOM = stack_low + Z.of_nat 48 * 4096) by reflexivity.
  destruct (zero_pages_ok s r stack_low 48 (Z.lor PF_USER PF_RW)) as (s' & E & Sp' & K & C & M & P);
    [done..|by rewrite <- HB|].
  rewrite <- HB in *. exists s'. split_and!; [|done|done|exact C|done|].
  - rewrite <- E. unfold stackGenerateMutual. change USER_STACK_PAGES with (Z.of_nat 48) at 1.
    apply mfor_ext. intros i s1 _. fold stack_low. unfold zero_page, map_fresh. by rewrite bind_assoc.
  - intros w Hw Hlt. apply P; [done|]. lia.
Qed.

(** The stack of a kernel task.  In a directory without mappings in the stack
    area and with four free pages per stack page, [stack_generate_kernel]
    returns; the stack pointer leads to the address of [taskKernelReturn], the
    rest of the 48 pages is zero, user addresses below the stack read as before,
    and the parameter is the first argument. *)
Theorem kernel_stack_ready s r back parameter :
  space s r -> 4 * USER_STACK_PAGES <= free_pages s -> 0 <= back < 2 ^ 64 ->
  (forall w, stack_low <= w < USER_STACK_BOTTOM -> ~ mapped s w) ->
  exists s', stack_generate_kernel back parameter USER_STACK_BOTTOM s = Ok ((USER_STACK_BOTTOM - 8, parameter), s') /\
    space s' r /\
    (exists bs, mapM (user_byte s') (seqZ (USER_STACK_BOTTOM - 8) 8) = Some bs /\ le_val bs = back) /\
    (forall w, stack_low <= w < USER_STACK_BOTTOM - 8 -> user_byte s' w = Some 0) /\
    (forall w, user w -> w < stack_low -> user_byte s' w = user_byte s w).
Proof.
  intros Sp Hc Hb Hn. destruct (stackGenerateMutual_ok s r Sp Hc Hn) as (s1 & E1 & Sp1 & K1 & C1 & M1 & P1).
  assert (HB : USER_STACK_BOTTOM = 2 ^ 47) by reflexivity. assert (HL : stack_low = 2 ^ 47 - 196608) by reflexivity.
  destruct (push_ok r s1 USER_STACK_BOTTOM back Sp1) as (s2 & E2 & [Sp2 K2 G2 T2 U2]);
    [lia|intros w Hw; apply M1; lia|].
  assert (Hl : zlen (le 8 back) = 8) by (apply zlen_le; lia).
  exists s2. split_and!; [|done| | |].
  - unfold stack_generate_kernel. mrw E1. by mrw E2.
  - exists (le 8 back). split; [|apply le_val_le_small; lia].
    apply mapM_Some_2. apply Forall2_same_length_lookup_2; [by rewrite length_seqZ; unfold zlen in Hl; lia|].
    intros i w b Hw Hi. apply lookup_seqZ in Hw as [-> Hlt]. rewrite U2 by (unfold user; lia).
    rewrite Hl, decide_True by lia. by replace (Z.to_nat (USER_STACK_BOTTOM - 8 + Z.of_nat i - (USER_STACK_BOTTOM - 8))) with i by lia.
  - intros w Hw. rewrite U2 by (unfold user; lia). rewrite Hl, decide_False by lia. apply M1. lia.
  - intros w Hw Hlt. rewrite U2 by done. rewrite Hl, decide_False by lia. by apply P1.
Qed.

(** An empty address space with room for a stack. *)
Definition ex_large : mmu := ex_with (mkBitmap (15 :: replicate 63 0) 512 64 4 0 0 false true) (2 ^ 21).

Lemma large_unmapped v : user v -> mmu_translate ex_large v = None.
Proof. apply ex_unmapped. Qed.

Lemma large_space : space ex_large 8192.
Proof.
  apply ex_with_space, ex_wf; [|done..]. split; [|done..]. split; cbn; try lia; [done|].
  intros k Hk. assert (k = 0 \/ k = 1 \/ k = 2 \/ k = 3) as [->|[->|[->| ->]]] by lia; done.
Qed.

Lemma kernel_stack_ready_witness :
  exists s', stack_generate_kernel 0xffffffff80001234 7 USER_STACK_BOTTOM ex_large =
      Ok ((USER_STACK_BOTTOM - 8, 7), s') /\ space s' 8192 /\
    (exists bs, mapM (user_byte s') (seqZ (USER_STACK_BOTTOM - 8) 8) = Some bs /\ le_val bs = 0xffffffff80001234) /\
    (forall w, stack_low <= w < USER_STACK_BOTTOM - 8 -> user_byte s' w = Some 0) /\
    (forall w, user w -> w < stack_low -> user_byte s' w = user_byte ex_large w).
Proof.
  apply (kernel_stack_ready ex_large 8192 0xffffffff80001234 7); [apply large_space|done|done|].
  intros w Hw Hm. apply Hm, large_unmapped. unfold user, stack_low, USER_STACK_BOTTOM, USER_STACK_PAGES in *. lia.
Defined.
