(* ===== verification/UserStackLayout.v ===== *)
(** * The initial stack of a program

    What [stackGenerateUser] leaves in memory, when the part of the heap it uses
    has pages: the argument count, the pointers to the arguments and to the
    environment, each list closed by a null word, and the auxiliary vector, with
    the strings in the heap. *)

From S2P Require Import Prelude FileTypes Bytes Spinlock Bitmap Pmm Paging UserMemory Elf UserHeap UserStack.

(** ** Strings and pointers *)

Definition strings (ptrv : list (list Z)) : list Z := mjoin ((fun p => p ++ [0]) <$> ptrv).

Fixpoint pointers (a : Z) (ptrv : list (list Z)) : list Z :=
  match ptrv with
  | [] => []
  | p :: ptrv => a :: pointers (a + zlen p + 1) ptrv
  end.

Lemma strings_cons p ps : strings (p :: ps) = (p ++ [0]) ++ strings ps.
Proof. done. Qed.
Lemma zlen_strings_cons p ps : zlen (strings (p :: ps)) = zlen p + 1 + zlen (strings ps).
Proof. rewrite strings_cons, !zlen_app. change (zlen [0]) with 1. lia. Qed.
Lemma strings_app ps qs : strings (ps ++ qs) = strings ps ++ strings qs.
Proof.
  induction ps as [|p ps IH]; [done|]. change ((p :: ps) ++ qs) with (p :: (ps ++ qs)).
  by rewrite !strings_cons, IH, app_assoc.
Qed.

Lemma pointers_app a ps qs : pointers a (ps ++ qs) = pointers a ps ++ pointers (a + zlen (strings ps)) qs.
Proof.
  revert a. induction ps as [|p ps IH]; intros a; [by rewrite Z.add_0_r|].
  cbn [app pointers]. f_equal. rewrite IH, zlen_strings_cons. do 2 f_equal. lia.
Qed.
Lemma zlen_pointers a ps : zlen (pointers a ps) = zlen ps.
Proof. revert a. induction ps as [|p ps IH]; intros a; [done|]. cbn [pointers]. by rewrite !zlen_cons, IH. Qed.

Lemma arg_space_ok ps : zlen (strings ps) < 2 ^ 32 -> arg_space ps = zlen (strings ps).
Proof.
  unfold arg_space. enough (forall n, 0 <= n -> n + zlen (strings ps) < 2 ^ 32 ->
    foldl (fun n p => u32 (n + (zlen p + 1))) n ps = n + zlen (strings ps)) as H by (intros; apply H; lia).
  induction ps as [|p ps IH]; intros n H0 Hl; [change (zlen (strings [])) with 0; cbn; lia|]. rewrite zlen_strings_cons in *. cbn [foldl].
  pose proof (zlen_nonneg p). pose proof (zlen_nonneg (strings ps)).
  rewrite u32_small by lia. rewrite IH by lia. lia.
Qed.

(** The values [push_pointers] pushes. *)
Fixpoint pointer_values (st : StackStorePtrStyle) (finalEllapsed : Z) (rev_ptrv : list (list Z)) : list Z :=
  match rev_ptrv with
  | [] => []
  | p :: rev_ptrv =>
      let finalEllapsed := u64 (finalEllapsed + u32 (zlen p + 1)) in
      u64 (st_start st + (st_ellapsed st - finalEllapsed)) :: pointer_values st finalEllapsed rev_ptrv
  end.

Lemma push_pointers_values st l : forall rsp fe s,
  push_pointers st rsp fe l s = push_all rsp (pointer_values st fe l) s.
Proof.
  induction l as [|p l IH]; intros rsp fe s; [done|]. cbn [push_pointers pointer_values push_all].
  unfold bind. destruct (PUSH_TO_STACK _ _ s) as [[]| | |]; [apply IH|done..].
Qed.

Lemma pointer_values_ok a ptrv : forall fe,
  0 <= a -> a + zlen (strings ptrv) < 2 ^ 47 -> 0 <= fe -> fe + zlen (strings ptrv) < 2 ^ 31 ->
  pointer_values (mkStore a (fe + zlen (strings ptrv))) fe (rev ptrv) = rev (pointers a ptrv).
Proof.
  induction ptrv as [|p ptrv IH] using rev_ind; intros fe H0 Hl Hf Hs; [done|].
  rewrite strings_app, zlen_app in *. rewrite zlen_strings_cons in *. change (zlen (strings [])) with 0 in *.
  pose proof (zlen_nonneg p). pose proof (zlen_nonneg (strings ptrv)).
  rewrite rev_app_distr, pointers_app, rev_app_distr. cbn [rev app pointers pointer_values st_start st_ellapsed].
  rewrite (u32_small (zlen p + 1)), (u64_small (fe + (zlen p + 1))) by lia.
  replace (fe + (zlen (strings ptrv) + (zlen p + 1 + 0))) with (fe + (zlen p + 1) + zlen (strings ptrv)) by lia.
  rewrite IH by lia. f_equal. rewrite u64_small by lia. lia.
Qed.

(** ** Writing the parts *)

Section parts.
Context (r : Z).

Lemma store_strings_ok a ptrv : forall s ell,
  space s r -> 0 <= a -> 0 <= ell -> a + ell + zlen (strings ptrv) <= 2 ^ 47 ->
  zlen (strings ptrv) < 2 ^ 31 -> Forall (Forall is_byte) ptrv ->
  mapped_range s (a + ell) (zlen (strings ptrv)) ->
  exists s', store_strings a ell ptrv s = Ok (ell + zlen (strings ptrv), s') /\
    wrote r s s' (a + ell) (strings ptrv).
Proof.
  induction ptrv as [|p ptrv IH]; intros s ell Sp Ha He Hl Hs Hb Hm.
  - exists s. change (zlen (strings [])) with 0. rewrite Z.add_0_r. split; [done|by apply wrote_nil].
  - rewrite zlen_strings_cons in *. pose proof (zlen_nonneg p). pose proof (zlen_nonneg (strings ptrv)).
    apply Forall_cons in Hb as [Hp Hb]. assert (zlen (p ++ [0]) = zlen p + 1) as Hz by (by rewrite zlen_app).
    destruct (write_wrote r s (a + ell) (p ++ [0])) as (s1 & E1 & W1); [done|lia|lia| |intros w Hw; apply Hm; lia|].
    { apply Forall_app. split; [done|]. by constructor. }
    destruct (IH s1 (ell + (zlen p + 1)) (wr_space _ _ _ _ _ W1) Ha ltac:(lia) ltac:(lia) ltac:(lia) Hb) as (s2 & E2 & W2).
    { eapply wrote_range; [exact W1|lia|lia|]. intros w Hw. apply Hm. lia. }
    exists s2. split.
    + cbn [store_strings]. rewrite (u64_small (a + ell)) by lia. mrw E1.
      rewrite (u32_small (zlen p + 1)), u64_small by lia. rewrite E2. do 2 f_equal. lia.
    + rewrite strings_cons. eapply wrote_app. right. split; [exact W1|]. rewrite Hz.
      by replace (a + ell + (zlen p + 1)) with (a + (ell + (zlen p + 1))) by lia.
Qed.

(** Storing strings at the break and moving it. *)
Lemma stackStorePtrStyle_ok t hs he ms me ptrv :
  space t r -> 0 <= hs < he -> he + zlen (strings ptrv) <= 2 ^ 47 -> zlen (strings ptrv) < 2 ^ 31 ->
  Forall (Forall is_byte) ptrv -> mapped_range t he (zlen (strings ptrv)) ->
  exists t', stackStorePtrStyle ptrv (mkProc t (mkPd false hs he ms me)) =
      Ok (Some (mkStore he (zlen (strings ptrv))), mkProc t' (mkPd false hs (he + zlen (strings ptrv)) ms me)) /\
    wrote r t t' he (strings ptrv).
Proof.
  intros Sp Hh Hl Hs Hb Hm. pose proof (zlen_nonneg (strings ptrv)).
  pose proof (sp_high _ _ Sp). pose proof (pw_hhdm _ _ (sp_wf _ _ Sp)).
  destruct (store_strings_ok he ptrv t 0 Sp) as (t' & E & W);
    [lia|lia|rewrite Z.add_0_r; lia|done|done|by rewrite Z.add_0_r|]. rewrite Z.add_0_r in W.
  exists t'. split; [|done]. unfold stackStorePtrStyle. rewrite arg_space_ok by lia.
  erewrite bind_ok by done. erewrite bind_ok by done. cbn [infoPd set_lock heap_end LOCK_PD mm].
  rewrite u64_small by lia.
  assert (adjust_heap (he + zlen (strings ptrv)) (mkProc t (mkPd false hs he ms me)) =
    Ok (Some tt, mkProc t (mkPd false hs (he + zlen (strings ptrv)) ms me))) as Ea.
  { unfold adjust_heap. erewrite bind_ok by done. cbn [infoPd heap_start heap_end].
    erewrite bind_ok; [|unfold on_mm; cbn [mm]; by rewrite adjust_maps_nothing by lia]. done. }
  mrw Ea. erewrite bind_ok by done. cbn [infoPd set_lock mm].
  erewrite bind_ok by (unfold on_mm; cbn [mm]; by rewrite E). rewrite Z.add_0_l. by rewrite s32_small by lia.
Qed.

Lemma push_pointers_ok s rsp a ptrv :
  space s r -> 0 <= a -> a + zlen (strings ptrv) < 2 ^ 47 -> zlen (strings ptrv) < 2 ^ 31 ->
  8 * zlen ptrv <= rsp <= 2 ^ 47 -> mapped_range s (rsp - 8 * zlen ptrv) (8 * zlen ptrv) ->
  exists s', push_pointers (mkStore a (zlen (strings ptrv))) rsp 0 (rev ptrv) s = Ok (rsp - 8 * zlen ptrv, s') /\
    wrote r s s' (rsp - 8 * zlen ptrv) (words (pointers a ptrv)).
Proof.
  intros Sp Ha Hl Hs Hr Hm. pose proof (pointer_values_ok a ptrv 0 Ha Hl ltac:(lia) ltac:(lia)) as Hv.
  rewrite Z.add_0_l in Hv. rewrite push_pointers_values, Hv.
  assert (zlen (rev (pointers a ptrv)) = zlen ptrv) as Hz
    by (pose proof (zlen_pointers a ptrv); unfold zlen in *; rewrite length_rev; lia).
  destruct (push_all_ok r (rev (pointers a ptrv)) s rsp Sp) as (s' & E & W); [by rewrite Hz|by rewrite Hz|].
  rewrite Hz, rev_involutive in *. by exists s'.
Qed.

(** Reading a range back. *)
Definition user_bytes (s : mmu) (a n : Z) : option (list Z) := mapM (user_byte s) (seqZ a n).

Lemma user_bytes_wrote s s' a bs :
  wrote r s s' a bs -> 0 <= a -> a + zlen bs <= 2 ^ 47 -> user_bytes s' a (zlen bs) = Some bs.
Proof.
  intros [WS WK WP WT WB] H0 Hl. apply mapM_Some_2. apply Forall2_same_length_lookup_2; [rewrite length_seqZ; unfold zlen; lia|].
  intros i w b Hw Hi. apply lookup_seqZ in Hw as [-> Hlt]. apply lookup_lt_Some in Hi as Hlt'.
  unfold zlen in *. rewrite WB by (unfold user; lia). unfold zlen. rewrite decide_True by lia.
  by replace (Z.to_nat (a + Z.of_nat i - a)) with i by lia.
Qed.

Lemma user_bytes_kept s s' a bs b n :
  wrote r s s' a bs -> 0 <= b -> b + n <= 2 ^ 47 -> b + n <= a \/ a + zlen bs <= b ->
  user_bytes s' b n = user_bytes s b n.
Proof.
  intros [WS WK WP WT WB] H0 Hl Hd. apply Forall_mapM_ext, Forall_seqZ. intros w Hw.
  rewrite WB by (unfold user; lia). by rewrite decide_False by lia.
Qed.

End parts.

(** ** The whole stack *)

(** The words from the stack pointer up. *)
Definition initial_stack (argv envv : list (list Z)) (args envs : Z) (aux : list Z) : list Z :=
  (zlen argv :: pointers args argv ++ [0]) ++ (pointers envs envv ++ [0]) ++ rev aux.

Definition top_words (argv envv : list (list Z)) (args envs : Z) : list Z :=
  (zlen argv :: pointers args argv ++ [0]) ++ (pointers envs envv ++ [0]).

Lemma zlen_top argv envv args envs : zlen (top_words argv envv args envs) = zlen argv + zlen envv + 3.
Proof.
  unfold top_words. rewrite !zlen_app, zlen_cons, zlen_app, !zlen_pointers. change (zlen [0]) with 1. lia.
Qed.

Lemma auxiliary_length out a b c aux : auxiliary out a b c = Some aux -> zlen aux = 22.
Proof.
  unfold auxiliary. intros H. repeat (apply bind_Some in H as (? & _ & H)). by injection H as <-.
Qed.

Section layout.
Context (r : Z).

(** The pushes after the strings are stored. *)
Lemma push_top_ok t p rsp args argv envs envv :
  space t r -> 0 <= args -> args + zlen (strings argv) < 2 ^ 47 -> zlen (strings argv) < 2 ^ 31 ->
  0 <= envs -> envs + zlen (strings envv) < 2 ^ 47 -> zlen (strings envv) < 2 ^ 31 ->
  8 * (zlen argv + zlen envv + 3) <= rsp <= 2 ^ 47 ->
  mapped_range t (rsp - 8 * (zlen argv + zlen envv + 3)) (8 * (zlen argv + zlen envv + 3)) ->
  exists t', (let! rsp := on_mm (PUSH_TO_STACK rsp 0) in
      let! rsp :=
        if 0 <? st_ellapsed (mkStore envs (zlen (strings envv)))
        then on_mm (push_pointers (mkStore envs (zlen (strings envv))) rsp 0 (rev envv)) else ret rsp in
      let! rsp := on_mm (PUSH_TO_STACK rsp 0) in
      let! rsp := on_mm (push_pointers (mkStore args (zlen (strings argv))) rsp 0 (rev argv)) in
      let! rsp := on_mm (PUSH_TO_STACK rsp (zlen argv)) in
      ret (Some rsp)) (mkProc t p) = Ok (Some (rsp - 8 * (zlen argv + zlen envv + 3)), mkProc t' p) /\
    wrote r t t' (rsp - 8 * (zlen argv + zlen envv + 3)) (words (top_words argv envv args envs)).
Proof.
  intros Sp Ha La Sa He Le Se Hr Hm. pose proof (zlen_nonneg argv). pose proof (zlen_nonneg envv).
  set (N := zlen argv) in *. set (K := zlen envv) in *.
  destruct (push_ok r t rsp 0 Sp ltac:(lia)) as (t1 & E1 & W1); [intros w Hw; apply Hm; lia|].
  destruct (push_pointers_ok r t1 (rsp - 8) envs envv (wr_space _ _ _ _ _ W1) He Le Se) as (t2 & E2 & W2).
  { fold K. lia. }
  { fold K. eapply wrote_range; [exact W1|lia|lia|]. intros w Hw. apply Hm. lia. }
  fold K in E2, W2. replace (rsp - 8 - 8 * K) with (rsp - 8 * (K + 1)) in E2, W2 by lia.
  assert (W12 : wrote r t t2 (rsp - 8 * (K + 1)) (words (pointers envs envv ++ [0]))).
  { rewrite words_app. eapply wrote_app. left. rewrite zlen_words, zlen_pointers. fold K.
    replace (rsp - 8 * (K + 1) + 8 * K) with (rsp - 8) by lia. split; [|exact W2].
    unfold words. cbn [fmap list_fmap mjoin list_join]. rewrite app_nil_r. exact W1. }
  destruct (push_ok r t2 (rsp - 8 * (K + 1)) 0 (wr_space _ _ _ _ _ W12) ltac:(lia)) as (t3 & E3 & W3).
  { eapply wrote_range; [exact W12|lia|lia|]. intros w Hw. apply Hm. lia. }
  destruct (push_pointers_ok r t3 (rsp - 8 * (K + 2)) args argv (wr_space _ _ _ _ _ W3) Ha La Sa) as (t4 & E4 & W4).
  { fold N. lia. }
  { fold N. eapply wrote_range; [exact W3|lia|lia|]. eapply wrote_range; [exact W12|lia|lia|].
    intros w Hw. apply Hm. lia. }
  fold N in E4, W4.
  destruct (push_ok r t4 (rsp - 8 * (K + N + 2)) N (wr_space _ _ _ _ _ W4) ltac:(lia)) as (t5 & E5 & W5).
  { eapply wrote_range; [exact W4|lia|lia|]. eapply wrote_range; [exact W3|lia|lia|].
    eapply wrote_range; [exact W12|lia|lia|]. intros w Hw. apply Hm. lia. }
  exists t5. split.
  - erewrite bind_ok by (unfold on_mm; cbn [mm]; by rewrite E1). cbn [infoPd].
    erewrite (bind_ok _ _ _ (rsp - 8 * (K + 1)) (mkProc t2 p)).
    2:{ cbn [st_ellapsed]. destruct (Z.ltb_spec 0 (zlen (strings envv))) as [Hp|Hp].
        - unfold on_mm. cbn [mm infoPd]. by rewrite E2.
        - assert (envv = []) as En.
          { destruct envv as [|q envv']; [done|]. rewrite zlen_strings_cons in Hp.
            pose proof (zlen_nonneg q). pose proof (zlen_nonneg (strings envv')). lia. }
          subst envv. cbn in E2. by injection E2 as <-. }
    erewrite bind_ok by (unfold on_mm; cbn [mm infoPd]; by rewrite E3). cbn [infoPd].
    replace (rsp - 8 * (K + 1) - 8) with (rsp - 8 * (K + 2)) by lia.
    erewrite bind_ok by (unfold on_mm; cbn [mm infoPd]; by rewrite E4). cbn [infoPd].
    replace (rsp - 8 * (K + 2) - 8 * N) with (rsp - 8 * (K + N + 2)) by lia.
    erewrite bind_ok by (unfold on_mm; cbn [mm infoPd]; by rewrite E5).
    by replace (rsp - 8 * (K + N + 2) - 8) with (rsp - 8 * (N + K + 3)) by lia.
  - unfold top_words. rewrite words_app. eapply wrote_app. left. split.
    { rewrite zlen_words, zlen_cons, zlen_app, zlen_pointers. fold N. change (zlen [0]) with 1.
      replace (rsp - 8 * (N + K + 3) + 8 * (1 + (N + 1))) with (rsp - 8 * (K + 1)) by lia. exact W12. }
    change (zlen argv :: pointers args argv ++ [0]) with ([zlen argv] ++ pointers args argv ++ [0]). fold N.
    rewrite words_app. eapply wrote_app. left. rewrite zlen_words. change (zlen [N]) with 1. split.
    2:{ replace (rsp - 8 * (N + K + 3)) with (rsp - 8 * (K + N + 2) - 8) by lia.
        unfold words. cbn [fmap list_fmap mjoin list_join]. rewrite app_nil_r. exact W5. }
    rewrite words_app. eapply wrote_app. left. rewrite zlen_words, zlen_pointers. fold N. split.
    + replace (rsp - 8 * (N + K + 3) + 8 * 1 + 8 * N) with (rsp - 8 * (K + 1) - 8) by lia.
      unfold words. cbn [fmap list_fmap mjoin list_join]. rewrite app_nil_r. exact W3.
    + by replace (rsp - 8 * (N + K + 3) + 8 * 1) with (rsp - 8 * (K + 2) - 8 * N) by lia.
Qed.

(** From the fresh stack pages on: the random bytes, the auxiliary vector and
    the strings. *)
Record parts_ok (t : mmu) (hs he : Z) (rand : list Z) (argv envv : list (list Z)) : Prop := {
  po_space : space t r;
  po_rand : length rand = 4%nat;
  po_break : 0 <= hs <= he;
  po_bytes : Forall (Forall is_byte) argv /\ Forall (Forall is_byte) envv;
  po_size : zlen (strings argv) < 2 ^ 31 /\ zlen (strings envv) < 2 ^ 31;
  po_below : he + 16 + zlen (strings argv) + zlen (strings envv) <= stack_low;
  po_heap : mapped_range t he (16 + zlen (strings argv) + zlen (strings envv));
  po_stack : 8 * (zlen argv + zlen envv + 25) <= USER_STACK_PAGES * 4096;
}.

Lemma rand_length rand : length rand = 4%nat -> zlen (mjoin (le 4 <$> rand)) = 16.
Proof.
  by destruct rand as [|a [|b [|c [|d [|]]]]].
Qed.

Lemma rand_bytes rand : Forall is_byte (mjoin (le 4 <$> rand)).
Proof. induction rand as [|a rand IH]; [constructor|]. cbn. apply Forall_app. split; [by apply le_bytes|done]. Qed.

Section run.
Context (t0 t : mmu) (hs he ms me : Z) (rand : list Z) (argv envv : list (list Z)) (out aux : list Z) (base exec : Z).
Context (P : parts_ok t hs he rand argv envv) (Hnew : stackGenerateMutual t0 = Ok (tt, t)).
Context (Hst : mapped_range t stack_low (USER_STACK_PAGES * 4096)).
Context (Haux : auxiliary out he base exec = Some aux).
Let args := he + 16.
Let envs := he + 16 + zlen (strings argv).
Let stack := initial_stack argv envv args envs aux.
Let low := USER_STACK_BOTTOM - 8 * zlen stack.

Lemma zlen_stack : zlen stack = zlen argv + zlen envv + 25.
Proof using Haux.
  unfold stack, initial_stack. rewrite app_assoc. change (_ ++ pointers envs envv ++ [0]) with (top_words argv envv args envs).
  rewrite zlen_app, zlen_top. pose proof (auxiliary_length _ _ _ _ _ Haux) as Hx.
  unfold zlen in *. rewrite length_rev. lia.
Qed.

(** The five writes, one after the other. *)
Record stages (t1 t2 t3 t4 t5 : mmu) : Prop := {
  sg_rand : wrote r t t1 he (mjoin (le 4 <$> rand));
  sg_aux : wrote r t1 t2 (USER_STACK_BOTTOM - 8 * zlen aux) (words (rev aux));
  sg_args : wrote r t2 t3 args (strings argv);
  sg_envs : wrote r t3 t4 envs (strings envv);
  sg_top : wrote r t4 t5 low (words (top_words argv envv args envs));
}.

Lemma low_eq : low = USER_STACK_BOTTOM - 8 * zlen aux - 8 * (zlen argv + zlen envv + 3).
Proof using Haux. unfold low. rewrite zlen_stack. pose proof (auxiliary_length _ _ _ _ _ Haux). lia. Qed.

(** Storing the environment, or nothing when there is none. *)
Lemma store_environment t3 :
  space t3 r -> mapped_range t3 envs (zlen (strings envv)) ->
  exists start t4, wrote r t3 t4 envs (strings envv) /\ (start = envs \/ (envv = [] /\ start = 0)) /\
    (if bool_decide (envv = []) then ret (Some (mkStore 0 0)) else stackStorePtrStyle envv)
      (mkProc t3 (mkPd false hs envs ms me)) =
    Ok (Some (mkStore start (zlen (strings envv))), mkProc t4 (mkPd false hs (envs + zlen (strings envv)) ms me)).
Proof using P low.
  intros Sp3 Hm. case_bool_decide as En.
  - exists 0, t3. rewrite En. change (zlen (strings [])) with 0. rewrite Z.add_0_r.
    split_and!; [by apply wrote_nil|by right|done].
  - destruct P as [Sp Hr Hb [Ba Be] [Sa Se] Hbl Hh Hk]. pose proof (zlen_nonneg (strings argv)).
    assert (HL : stack_low = 2 ^ 47 - 196608) by reflexivity.
    destruct (stackStorePtrStyle_ok r t3 hs envs ms me envv Sp3) as (t4 & E4 & W4);
      [unfold envs; lia|unfold envs; lia|done|done|done|].
    exists envs, t4. split_and!; [done|by left|done].
Qed.

Lemma stack_run :
  exists t1 t2 t3 t4 t5, stages t1 t2 t3 t4 t5 /\
    stackGenerateUser rand argv envv out base exec USER_STACK_BOTTOM (mkProc t0 (mkPd false hs he ms me)) =
      Ok (Some low, mkProc t5 (mkPd false hs (envs + zlen (strings envv)) ms me)).
Proof using P Hnew Hst Haux.
  destruct P as [Sp Hr Hb [Ba Be] [Sa Se] Hbl Hh Hk]. pose proof (auxiliary_length _ _ _ _ _ Haux) as Hx.
  pose proof (zlen_nonneg argv). pose proof (zlen_nonneg envv). pose proof (zlen_nonneg (strings argv)).
  pose proof (zlen_nonneg (strings envv)). pose proof (sp_high _ _ Sp). pose proof (pw_hhdm _ _ (sp_wf _ _ Sp)).
  assert (HB : USER_STACK_BOTTOM = 2 ^ 47) by reflexivity. assert (HL : stack_low = 2 ^ 47 - 196608) by reflexivity.
  assert (HP : USER_STACK_PAGES * 4096 = 196608) by reflexivity. rewrite HP in *.
  assert (Hrb : zlen (mjoin (le 4 <$> rand)) = 16) by (by apply rand_length).
  destruct (write_wrote r t he (mjoin (le 4 <$> rand)) Sp) as (t1 & E1 & W1);
    [lia|lia|apply rand_bytes|intros w Hw; apply Hh; lia|].
  destruct (push_all_ok r aux t1 USER_STACK_BOTTOM (wr_space _ _ _ _ _ W1)) as (t2 & E2 & W2); [lia| |].
  { eapply wrote_range; [exact W1|lia|lia|]. intros w Hw. apply Hst. lia. }
  destruct (stackStorePtrStyle_ok r t2 hs args ms me argv (wr_space _ _ _ _ _ W2)) as (t3 & E3 & W3);
    [unfold args; lia|unfold args; lia|done|done| |].
  { eapply wrote_range; [exact W2|unfold args; lia|unfold args; lia|]. eapply wrote_range; [exact W1|unfold args; lia|unfold args; lia|].
    intros w Hw. apply Hh. unfold args in Hw. lia. }
  destruct (store_environment t3 (wr_space _ _ _ _ _ W3)) as (start & t4 & W4 & Hstart & E4).
  { eapply wrote_range; [exact W3|unfold envs; lia|unfold envs; lia|]. eapply wrote_range; [exact W2|unfold envs; lia|unfold envs; lia|].
    eapply wrote_range; [exact W1|unfold envs; lia|unfold envs; lia|]. intros w Hw. apply Hh. unfold envs in Hw. lia. }
  set (pd := mkPd false hs (envs + zlen (strings envv)) ms me).
  destruct (push_top_ok t4 pd (USER_STACK_BOTTOM - 8 * zlen aux) args argv start envv
    (wr_space _ _ _ _ _ W4)) as (t5 & E5 & W5); try (unfold args, envs in *; lia).
  { eapply wrote_range; [exact W4|lia|lia|]. eapply wrote_range; [exact W3|lia|lia|].
    eapply wrote_range; [exact W2|lia|lia|]. eapply wrote_range; [exact W1|lia|lia|]. intros w Hw. apply Hst. lia. }
  rewrite <- low_eq in *.
  assert (top_words argv envv args start = top_words argv envv args envs) as Htop
    by (destruct Hstart as [->|[-> _]]; done). rewrite Htop in W5.
  exists t1, t2, t3, t4, t5. split; [by split|].
  unfold stackGenerateUser. erewrite bind_ok by (unfold on_mm; cbn [mm]; by rewrite Hnew). cbn [infoPd].
  erewrite bind_ok by done. erewrite bind_ok by done. cbn [infoPd set_lock heap_end LOCK_PD mm].
  rewrite u64_small by lia. fold args.
  assert (adjust_heap args (mkProc t (mkPd false hs he ms me)) =
    Ok (Some tt, mkProc t (mkPd false hs args ms me))) as Ea.
  { unfold adjust_heap. erewrite bind_ok by done. cbn [infoPd heap_start heap_end].
    erewrite bind_ok; [|unfold on_mm; cbn [mm]; rewrite adjust_maps_nothing by (unfold args; lia); done]. done. }
  mrw Ea. erewrite bind_ok by done. cbn [infoPd set_lock mm].
  erewrite bind_ok by (unfold on_mm; cbn [mm]; by rewrite E1). rewrite Haux. cbn [from_option_fault infoPd].
  erewrite bind_ok by done. erewrite bind_ok by (unfold on_mm; cbn [mm]; by rewrite E2). cbn [infoPd].
  mrw E3. fold envs in E4 |- *. mrw E4. exact E5.
Qed.

Lemma mapM_app {A B} (f : A -> option B) l1 l2 k1 k2 :
  mapM f l1 = Some k1 -> mapM f l2 = Some k2 -> mapM f (l1 ++ l2) = Some (k1 ++ k2).
Proof using. intros H1%mapM_Some H2%mapM_Some. by apply mapM_Some, Forall2_app. Qed.

Lemma stages_contents t1 t2 t3 t4 t5 :
  stages t1 t2 t3 t4 t5 ->
  user_bytes t5 low (8 * zlen stack) = Some (words stack) /\
  user_bytes t5 args (zlen (strings argv)) = Some (strings argv) /\
  user_bytes t5 envs (zlen (strings envv)) = Some (strings envv).
Proof using P Haux.
  intros [W1 W2 W3 W4 W5]. destruct P as [Sp Hr Hb [Ba Be] [Sa Se] Hbl Hh Hk].
  pose proof (auxiliary_length _ _ _ _ _ Haux) as Hx. pose proof low_eq as Hlow.
  pose proof (zlen_nonneg argv). pose proof (zlen_nonneg envv). pose proof (zlen_nonneg (strings argv)).
  pose proof (zlen_nonneg (strings envv)).
  assert (HB : USER_STACK_BOTTOM = 2 ^ 47) by reflexivity. assert (HL : stack_low = 2 ^ 47 - 196608) by reflexivity.
  assert (HP : USER_STACK_PAGES * 4096 = 196608) by reflexivity. rewrite HP in Hk.
  assert (Hzt : zlen (words (top_words argv envv args envs)) = 8 * (zlen argv + zlen envv + 3))
    by (by rewrite zlen_words, zlen_top).
  assert (Hza : zlen (words (rev aux)) = 8 * zlen aux)
    by (rewrite zlen_words; unfold zlen; by rewrite length_rev).
  unfold args, envs in *. split_and!.
  - assert (words stack = words (top_words argv envv args envs) ++ words (rev aux)) as ->.
    { rewrite <- words_app. unfold stack, initial_stack, top_words. by rewrite app_assoc. }
    replace (8 * zlen stack) with (8 * (zlen argv + zlen envv + 3) + 8 * zlen aux) by (rewrite zlen_stack; lia).
    unfold user_bytes. rewrite seqZ_app by lia. apply mapM_app.
    + pose proof (user_bytes_wrote r t4 t5 _ _ W5) as U. rewrite Hzt in U. apply U; lia.
    + replace (low + 8 * (zlen argv + zlen envv + 3)) with (USER_STACK_BOTTOM - 8 * zlen aux) by lia.
      fold (user_bytes t5 (USER_STACK_BOTTOM - 8 * zlen aux) (8 * zlen aux)).
      rewrite (user_bytes_kept r t4 t5 _ _ _ _ W5) by (rewrite ?Hzt; lia).
      rewrite (user_bytes_kept r t3 t4 _ _ _ _ W4) by lia. rewrite (user_bytes_kept r t2 t3 _ _ _ _ W3) by lia.
      pose proof (user_bytes_wrote r t1 t2 _ _ W2) as U. rewrite Hza in U. apply U; lia.
  - rewrite (user_bytes_kept r t4 t5 _ _ _ _ W5) by (rewrite ?Hzt; lia).
    rewrite (user_bytes_kept r t3 t4 _ _ _ _ W4) by lia. by apply (user_bytes_wrote r t2 t3); [|lia|lia].
  - rewrite (user_bytes_kept r t4 t5 _ _ _ _ W5) by (rewrite ?Hzt; lia).
    by apply (user_bytes_wrote r t3 t4); [|lia|lia].
Qed.

End run.

(** C14: The initial stack of a program, in an address space whose upper half may
    hold the direct map ([space]).  When the heap pages the strings go to
    are mapped, the stack area is not and there are four free pages per stack
    page, [stackGenerateUser] returns a stack pointer from which the words are
    the number of arguments, a pointer to each argument, null, a pointer to each
    environment string, null, and the auxiliary vector up to the stack's top;
    the strings stand in the heap at those pointers, each ended by a zero byte. *)
Theorem user_stack_layout s rand argv envv out base exec aux :
  let p := infoPd s in
  let args := heap_end p + 16 in
  let envs := args + zlen (strings argv) in
  let stack := initial_stack argv envv args envs aux in
  space (mm s) r -> LOCK_PD p = false -> 4 * USER_STACK_PAGES <= free_pages (mm s) ->
  (forall w, stack_low <= w < USER_STACK_BOTTOM -> ~ mapped (mm s) w) ->
  parts_ok (mm s) (heap_start p) (heap_end p) rand argv envv ->
  auxiliary out (heap_end p) base exec = Some aux ->
  exists s', stackGenerateUser rand argv envv out base exec USER_STACK_BOTTOM s =
      Ok (Some (USER_STACK_BOTTOM - 8 * zlen stack), s') /\ space (mm s') r /\
    user_bytes (mm s') (USER_STACK_BOTTOM - 8 * zlen stack) (8 * zlen stack) = Some (words stack) /\
    user_bytes (mm s') args (zlen (strings argv)) = Some (strings argv) /\
    user_bytes (mm s') envs (zlen (strings envv)) = Some (strings envv).
Proof.
  destruct s as [t0 [l hs he ms me]]. cbn zeta beta. cbn [mm infoPd LOCK_PD heap_start heap_end].
  intros Sp -> Hc Hn P Haux. destruct (stackGenerateMutual_ok t0 r Sp Hc Hn) as (t & E & Spt & _ & _ & M & K).
  assert (Pt : parts_ok t hs he rand argv envv).
  { destruct P as [_ H1 H2 H3 H4 H5 H6 H7]. split; try done. intros w Hw. unfold mapped.
    assert (stack_low = 2 ^ 47 - 196608) by reflexivity.
    destruct (K w) as [-> _]; [unfold user; lia|lia|]. by apply H6. }
  assert (Hst : mapped_range t stack_low (USER_STACK_PAGES * 4096)) by (intros w Hw; by apply M).
  destruct (stack_run t0 t hs he ms me rand argv envv out aux base exec Pt E Hst Haux) as (t1 & t2 & t3 & t4 & t5 & St & R).
  eexists. cbn [mm].
  split; [exact R|]. split; [exact (wr_space _ _ _ _ _ (sg_top _ _ _ _ _ _ _ _ _ _ _ St))|].
  by eapply stages_contents.
Qed.

End layout.

(** A heap page that is mapped, for two arguments and one variable. *)
Lemma ex_heap_page :
  exists s, space s 8192 /\ 4 * USER_STACK_PAGES <= free_pages s /\
    mapped_range s USER_HEAP_START 4096 /\ (forall w, stack_low <= w < USER_STACK_BOTTOM -> ~ mapped s w).
Proof.
  assert (HL : stack_low = 2 ^ 47 - 196608) by reflexivity. assert (HB : USER_STACK_BOTTOM = 2 ^ 47) by reflexivity.
  assert (HS : USER_HEAP_START = 2 ^ 46 + 2 ^ 45) by reflexivity.
  assert (HF : free_pages ex_large = 508) by (vm_compute; reflexivity).
  destruct (map_fresh_ok ex_large 8192 large_space USER_HEAP_START 6) as (f & s & _ & Sp & _ & _ & C & T & _);
    [by split|done|by split| |lia|].
  { intros H. apply H, large_unmapped. by split. }
  exists s. split_and!; [done|unfold USER_STACK_PAGES; lia| |].
  - intros w Hw. unfold mapped. rewrite T by (unfold user; lia). rewrite decide_True; [done|].
    Z.to_euclidean_division_equations. lia.
  - intros w Hw Hm. unfold mapped in Hm. rewrite T in Hm by (unfold user; lia). rewrite decide_False in Hm.
    + apply Hm, large_unmapped. unfold user. lia.
    + Z.to_euclidean_division_equations. lia.
Qed.

Lemma user_stack_layout_witness :
  let argv := [[97]; [98; 99]] in
  let envv := [[61]] in
  let aux := default [] (auxiliary sample_elf USER_HEAP_START 0 0) in
  let stack := initial_stack argv envv (USER_HEAP_START + 16) (USER_HEAP_START + 21) aux in
  zlen stack = 28 /\
  exists s s', stackGenerateUser [1; 2; 3; 4] argv envv sample_elf 0 0 USER_STACK_BOTTOM s =
      Ok (Some (USER_STACK_BOTTOM - 224), s') /\ space (mm s') 8192 /\
    user_bytes (mm s') (USER_STACK_BOTTOM - 224) 224 = Some (words stack) /\
    user_bytes (mm s') (USER_HEAP_START + 16) 5 = Some [97; 0; 98; 99; 0] /\
    user_bytes (mm s') (USER_HEAP_START + 21) 2 = Some [61; 0].
Proof.
  cbv zeta. split; [vm_compute; reflexivity|].
  destruct ex_heap_page as (t & Sp & C & M & N).
  exists (mkProc t taskInfoPdAllocate).
  apply (user_stack_layout 8192 (mkProc t taskInfoPdAllocate) [1; 2; 3; 4] [[97]; [98; 99]] [[61]] sample_elf 0 0
    (default [] (auxiliary sample_elf USER_HEAP_START 0 0))); [done|done|done|done| |vm_compute; reflexivity].
  split.
  - exact Sp.
  - reflexivity.
  - split; vm_compute; discriminate.
  - split; repeat (apply Forall_cons; split; [repeat (apply Forall_cons; split; [done|]); apply Forall_nil_2|]); apply Forall_nil_2.
  - split; vm_compute; reflexivity.
  - vm_compute; discriminate.
  - intros w Hw. apply M. change (16 + zlen (strings [[97]; [98; 99]]) + zlen (strings [[61]])) with 23 in Hw.
    change (heap_end _) with USER_HEAP_START in Hw. lia.
  - vm_compute; discriminate.
Defined.

(** On a fresh task the heap has no page, and building the stack is a page
    fault: the first thing written is the random bytes at the break. *)
Theorem fresh_stack_faults r t rand argv envv out base exec :
  space t r -> 4 * USER_STACK_PAGES <= free_pages t -> length rand = 4%nat ->
  (forall w, stack_low <= w < USER_STACK_BOTTOM -> ~ mapped t w) -> ~ mapped t USER_HEAP_START ->
  stackGenerateUser rand argv envv out base exec USER_STACK_BOTTOM (mkProc t taskInfoPdAllocate) = Fault.
Proof.
  intros Sp Hc Hr Hn Hh. destruct (stackGenerateMutual_ok t r Sp Hc Hn) as (t1 & E & Sp1 & _ & _ & _ & K).
  pose proof (sp_high _ _ Sp1). pose proof (pw_hhdm _ _ (sp_wf _ _ Sp1)).
  assert (He : mmu_translate t1 USER_HEAP_START = None).
  { destruct (K USER_HEAP_START) as [-> _]; [by split|done|]. unfold mapped in Hh.
    destruct (mmu_translate t USER_HEAP_START); [by destruct Hh|done]. }
  unfold stackGenerateUser. erewrite bind_ok by (unfold on_mm; cbn [mm]; by rewrite E). cbn [infoPd].
  erewrite bind_ok by done. erewrite bind_ok by done. cbn [infoPd set_lock heap_end LOCK_PD mm taskInfoPdAllocate].
  change (u64 (USER_HEAP_START + 16)) with (USER_HEAP_START + 16).
  assert (adjust_heap (USER_HEAP_START + 16) (mkProc t1 taskInfoPdAllocate) =
    Ok (Some tt, mkProc t1 (set_heap_end (USER_HEAP_START + 16) taskInfoPdAllocate))) as Ea.
  { unfold adjust_heap. erewrite bind_ok by done. cbn [infoPd heap_start heap_end taskInfoPdAllocate].
    erewrite bind_ok; [|unfold on_mm; cbn [mm]; rewrite adjust_maps_nothing by (done || lia); done]. done. }
  mrw Ea. erewrite bind_ok by done. unfold bind at 1, on_mm at 1. cbn [mm].
  destruct rand as [|a rand]; [done|]. change (mjoin (le 4 <$> a :: rand)) with (le 4 a ++ mjoin (le 4 <$> rand)).
  destruct (le 4 a) as [|b bs] eqn:El; [pose proof (zlen_le 4 a ltac:(lia)) as Hz; by rewrite El in Hz|].
  cbn [app write_bytes]. unfold bind, store_byte. by rewrite He.
Qed.
