(* ===== verification/Dll.v ===== *)
(** * Doubly linked lists in a store

    The representation shared by the list of opened objects and the list of
    cached block runs: cells at addresses of a [gmap], each with a [next] and a
    [prev] address and a payload, address 0 being [NULL]. *)

From S2P Require Import Prelude.

Section dll.
Context {C P : Type} (mk : Z -> Z -> P -> C).

Implicit Types (m : gmap Z C) (l : list (Z * P)).

(** The address a list starts with, when [nxt] follows it. *)
Definition head_addr l (nxt : Z) : Z :=
  match l with [] => nxt | x :: _ => x.1 end.

(** The address a list ends with, when [prev] precedes it. *)
Fixpoint last_addr (prev : Z) l : Z :=
  match l with [] => prev | x :: l => last_addr x.1 l end.

(** [m] holds the cells of [l], linked to each other, to [prev] and to [nxt]. *)
Fixpoint linked m (prev : Z) l (nxt : Z) : Prop :=
  match l with
  | [] => True
  | x :: l => m !! x.1 = Some (mk (head_addr l nxt) prev x.2) /\ linked m x.1 l nxt
  end.

Lemma head_addr_app l1 l2 nxt : head_addr (l1 ++ l2) nxt = head_addr l1 (head_addr l2 nxt).
Proof. by destruct l1. Qed.

Lemma last_addr_app p l1 l2 : last_addr p (l1 ++ l2) = last_addr (last_addr p l1) l2.
Proof. revert p. induction l1 as [|x l1 IH]; intros p; [done|]. apply IH. Qed.

Lemma linked_app m p l1 l2 nxt :
  linked m p (l1 ++ l2) nxt <->
  linked m p l1 (head_addr l2 nxt) /\ linked m (last_addr p l1) l2 nxt.
Proof.
  revert p. induction l1 as [|x l1 IH]; intros p; cbn [linked app last_addr]; [tauto|].
  rewrite IH, head_addr_app. tauto.
Qed.

Lemma linked_lookup m p l1 x l2 nxt :
  linked m p (l1 ++ x :: l2) nxt ->
  m !! x.1 = Some (mk (head_addr l2 nxt) (last_addr p l1) x.2).
Proof. intros [_ [H _]]%linked_app. exact H. Qed.

(** Cells elsewhere do not matter. *)
Lemma linked_frame m m' p l nxt :
  (forall a, a ∈ l.*1 -> m' !! a = m !! a) -> linked m p l nxt -> linked m' p l nxt.
Proof.
  revert p. induction l as [|x l IH]; intros p E; [done|]. cbn [linked].
  intros [H1 H2]. split.
  - rewrite E; [done|]. cbn. left.
  - apply IH; [|done]. intros a Ha. apply E. cbn. by right.
Qed.

Lemma linked_insert m p l nxt a c : a ∉ l.*1 -> linked m p l nxt -> linked (<[a := c]> m) p l nxt.
Proof.
  intros Ha. apply linked_frame. intros b Hb. apply lookup_insert_ne. congruence.
Qed.

Lemma linked_delete m p l nxt a : a ∉ l.*1 -> linked m p l nxt -> linked (delete a m) p l nxt.
Proof.
  intros Ha. apply linked_frame. intros b Hb. apply lookup_delete_ne. congruence.
Qed.

(** Redirecting the [prev] field of the first cell. *)
Lemma linked_set_prev m p p' x l nxt :
  NoDup (x :: l).*1 -> linked m p (x :: l) nxt ->
  linked (<[x.1 := mk (head_addr l nxt) p' x.2]> m) p' (x :: l) nxt.
Proof.
  cbn. intros [Hx _]%NoDup_cons [H1 H2]. split; [apply lookup_insert_eq|].
  by apply linked_insert.
Qed.

(** Redirecting the [next] field of the last cell. *)
Lemma linked_set_next m p x l nxt nxt' :
  NoDup (l ++ [x]).*1 -> linked m p (l ++ [x]) nxt ->
  linked (<[x.1 := mk nxt' (last_addr p l) x.2]> m) p (l ++ [x]) nxt'.
Proof.
  rewrite fmap_app. intros (_ & Hx & _)%NoDup_app. rewrite !linked_app. cbn.
  intros (H1 & H2 & _). repeat split; [|apply lookup_insert_eq].
  apply linked_insert; [|done]. intros Ha. apply (Hx _ Ha). left.
Qed.

Lemma linked_dom m p l nxt a : linked m p l nxt -> a ∈ l.*1 -> is_Some (m !! a).
Proof.
  intros H (x & -> & (l1 & l2 & ->)%list_elem_of_split)%list_elem_of_fmap.
  rewrite (linked_lookup _ _ _ _ _ _ H). eauto.
Qed.

(** A list without repetition is no longer than the store. *)
Lemma linked_size m p l nxt : NoDup l.*1 -> linked m p l nxt -> (length l <= size m)%nat.
Proof.
  intros Hn H. rewrite <- (length_fmap fst l), <- (size_dom (D := gset Z) m),
    <- (size_list_to_set (C := gset Z) l.*1) by done.
  apply subseteq_size. intros a Ha%elem_of_list_to_set.
  apply elem_of_dom. eauto using linked_dom.
Qed.

Lemma last_addr_in p l : l <> [] -> last_addr p l ∈ l.*1.
Proof.
  revert p. induction l as [|x l IH]; intros p Hl; [done|]. cbn [last_addr fmap list_fmap].
  destruct l as [|y l]; [left|]. right. by apply IH.
Qed.

Lemma last_addr_ne p p' l : l <> [] -> last_addr p l = last_addr p' l.
Proof. by destruct l. Qed.

Lemma head_addr_ne l nxt nxt' : l <> [] -> head_addr l nxt = head_addr l nxt'.
Proof. by destruct l. Qed.

(** The last cell, when there is one. *)
Lemma last_split p l : l <> [] -> exists l' x, l = l' ++ [x] /\ last_addr p l = x.1.
Proof.
  intros H. destruct (exists_last H) as (l' & x & ->). exists l', x. by rewrite last_addr_app.
Qed.

Lemma head_addr_in l nxt : l <> [] -> head_addr l nxt ∈ l.*1.
Proof. destruct l; [done|]. left. Qed.

(** A store that agrees with [m] except at the last cell of [l1], whose [next] is
    now [nxt']. *)
Lemma linked_redirect_next m m' p l1 nxt nxt' :
  NoDup l1.*1 -> linked m p l1 nxt ->
  (forall l x, l1 = l ++ [x] -> m' !! x.1 = Some (mk nxt' (last_addr p l) x.2)) ->
  (forall b, b ∈ l1.*1 -> b <> last_addr p l1 -> m' !! b = m !! b) ->
  linked m' p l1 nxt'.
Proof.
  intros Hn HL Hlast Hsame. destruct (decide (l1 = [])) as [->|Hne]; [done|].
  destruct (last_split p l1 Hne) as (l & x & -> & Hx). rewrite Hx in Hsame.
  apply (linked_frame (<[x.1 := mk nxt' (last_addr p l) x.2]> m)).
  - intros a Ha. destruct (decide (a = x.1)) as [->|Hax].
    + by rewrite (Hlast _ _ eq_refl), lookup_insert_eq.
    + by rewrite Hsame, lookup_insert_ne by done.
  - eapply linked_set_next; eauto.
Qed.

(** The same for the [prev] field of the first cell of [l2]. *)
Lemma linked_redirect_prev m m' p p' l2 nxt :
  NoDup l2.*1 -> linked m p l2 nxt ->
  (forall y l, l2 = y :: l -> m' !! y.1 = Some (mk (head_addr l nxt) p' y.2)) ->
  (forall b, b ∈ l2.*1 -> b <> head_addr l2 nxt -> m' !! b = m !! b) ->
  linked m' p' l2 nxt.
Proof.
  intros Hn HL Hfirst Hsame. destruct l2 as [|y l]; [done|].
  apply (linked_frame (<[y.1 := mk (head_addr l nxt) p' y.2]> m)).
  - intros a Ha. destruct (decide (a = y.1)) as [->|Hay].
    + by rewrite (Hfirst _ _ eq_refl), lookup_insert_eq.
    + by rewrite Hsame, lookup_insert_ne by done.
  - eapply linked_set_prev; eauto.
Qed.

End dll.
