(* ===== verification/Disk.v ===== *)
(** * The multi-sector disk layer ([drivers/disk.cpp])

    A drive is a finite map from byte addresses to bytes; an address never
    written reads as zero.  The AHCI command itself (a transfer of whole
    sectors between memory and the drive) is the hardware's, [disk_read] and
    [disk_write]; what the source adds, and what is modelled here, is the
    choice of a drive, the splitting of long transfers into commands of at
    most 65536 sectors with 32-bit sector numbers, and the MBR lookup. *)

From S2P Require Import Prelude Bytes.

Definition SECTOR_SIZE : Z := 512.

(** ** The hardware transfer *)

Definition read_at (d : gmap Z Z) (a n : Z) : list Z :=
  (fun i => default 0 (d !! i)) <$> seqZ a n.

Fixpoint write_at (d : gmap Z Z) (a : Z) (bs : list Z) : gmap Z Z :=
  match bs with
  | [] => d
  | b :: bs => <[a := b]> (write_at d (a + 1) bs)
  end.

Definition disk_read (d : gmap Z Z) (lba n : Z) : list Z :=
  read_at d (lba * SECTOR_SIZE) (n * SECTOR_SIZE).

Definition disk_write (d : gmap Z Z) (lba : Z) (bs : list Z) : gmap Z Z :=
  write_at d (lba * SECTOR_SIZE) bs.

(** ** [disk_bytes] *)

(** The drive found by [LinkedListSearch(&dsPCI, diskBytesCb, 0)] and the first
    port bit of its [sata] mask, if there is one. *)
Abbreviation drive := (option (gmap Z Z)).

(** [disk_bytes(target, LBA, n, false)]: the bytes left in [target]. *)
Definition disk_bytes_read (dr : drive) (lba n : Z) : list Z :=
  match dr with
  | None => replicate (Z.to_nat (n * SECTOR_SIZE)) 0
  | Some d => disk_read d lba n
  end.

(** [disk_bytes(target, LBA, n, true)]: the drive and [target] afterwards; with
    no drive attached the caller's buffer is cleared. *)
Definition disk_bytes_write (dr : drive) (lba n : Z) (target : list Z)
    : drive * list Z :=
  match dr with
  | None => (None, patch 0 (replicate (Z.to_nat (n * SECTOR_SIZE)) 0) target)
  | Some d => (Some (disk_write d lba (slice 0 (n * SECTOR_SIZE) target)), target)
  end.

(** ** [disk_bytes_max], [get_disk_bytes] and [set_disk_bytes] *)

Definition max_sectors : Z := 65536.

(** The commands [disk_bytes_max] issues: start sector and sector count. *)
Definition disk_commands (lba n : Z) : list (Z * Z) :=
  let chunks := n / max_sectors in
  let remainder := n mod max_sectors in
  ((fun i => (u32 (lba + i * max_sectors), max_sectors)) <$> seqZ 0 chunks) ++
  (if remainder =? 0 then []
   else [(u32 (lba + chunks * max_sectors), remainder)]).

Definition get_disk_bytes (dr : drive) (lba n : Z) : list Z :=
  mjoin ((fun c => disk_bytes_read dr c.1 c.2) <$> disk_commands (u32 lba) n).

Fixpoint run_writes (d : gmap Z Z) (cs : list (Z * Z)) (bs : list Z) : gmap Z Z :=
  match cs with
  | [] => d
  | (lba, n) :: cs =>
      run_writes (disk_write d lba (slice 0 (n * SECTOR_SIZE) bs)) cs
        (drop (Z.to_nat (n * SECTOR_SIZE)) bs)
  end.

(** [set_disk_bytes] on an attached drive; the source buffer must hold the
    [n] sectors ([None]: the transfer would read past it). *)
Definition set_disk_bytes (d : gmap Z Z) (lba n : Z) (bs : list Z)
    : option (gmap Z Z) :=
  if n * SECTOR_SIZE <=? zlen bs
  then Some (run_writes d (disk_commands (u32 lba) n) bs)
  else None.

(** ** The master boot record *)

Record mbr_partition := {
  mbr_status : Z;
  mbr_type : Z;
  lba_first_sector : Z;
  mbr_sector_count : Z;
}.

Definition mbr_partition_indexes : list Z := [446; 462; 478; 494].

Definition validate_mbr (sector : list Z) : bool :=
  (sector !!! 510%nat =? 85) && (sector !!! 511%nat =? 170).

Definition decode_mbr_partition (bs : list Z) : mbr_partition := {|
  mbr_status := bs !!! 0%nat;
  mbr_type := bs !!! 4%nat;
  lba_first_sector := le_val (slice 8 4 bs);
  mbr_sector_count := le_val (slice 12 4 bs);
|}.

Definition open_disk (dr : drive) (partition : Z) : option mbr_partition :=
  if 4 <=? partition then None
  else
    let rawArr := get_disk_bytes dr 0 1 in
    if negb (validate_mbr rawArr) then None
    else Some (decode_mbr_partition
                 (slice (mbr_partition_indexes !!! Z.to_nat partition) 16 rawArr)).

Arguments read_at : simpl never.
Arguments disk_read : simpl never.
Arguments disk_write : simpl never.

(** ** Lemmas on the hardware transfer *)

Lemma zlen_read_at d a n : 0 <= n -> zlen (read_at d a n) = n.
Proof. intros. unfold zlen, read_at. rewrite length_fmap, length_seqZ. lia. Qed.

Lemma read_at_lookup d a n (i : nat) :
  Z.of_nat i < n -> read_at d a n !! i = Some (default 0 (d !! (a + Z.of_nat i))).
Proof.
  intros. unfold read_at. rewrite list_lookup_fmap, lookup_seqZ_lt by done. done.
Qed.

Lemma write_at_lookup d a bs i :
  write_at d a bs !! i =
    if decide (a <= i < a + zlen bs) then bs !! Z.to_nat (i - a) else d !! i.
Proof.
  unfold zlen. revert a. induction bs as [|b bs IH]; intros a; simpl.
  - case_decide; [lia|done].
  - destruct (decide (i = a)) as [->|Hne].
    + rewrite lookup_insert_eq, decide_True by lia. by rewrite Z.sub_diag.
    + rewrite lookup_insert_ne, IH by done. repeat case_decide; try lia; [|done].
      by replace (Z.to_nat (i - a)) with (S (Z.to_nat (i - (a + 1)))) by lia.
Qed.

Lemma read_at_eq d d' a n :
  (forall i, a <= i < a + n -> d !! i = d' !! i) -> read_at d a n = read_at d' a n.
Proof.
  intros H. unfold read_at. apply list_fmap_ext. intros i x [-> ?]%lookup_seqZ.
  by rewrite H by lia.
Qed.

Lemma read_write_same d a bs : read_at (write_at d a bs) a (zlen bs) = bs.
Proof.
  unfold zlen. apply list_eq. intros i. destruct (decide (i < length bs)%nat).
  - rewrite read_at_lookup, write_at_lookup by lia. unfold zlen.
    rewrite decide_True by lia. replace (Z.to_nat _) with i by lia.
    by destruct (lookup_lt_is_Some_2 bs i) as [x ->].
  - rewrite !lookup_ge_None_2; [done|lia|].
    pose proof (zlen_read_at (write_at d a bs) a (Z.of_nat (length bs))).
    unfold zlen in *. lia.
Qed.

Lemma read_write_disjoint d a bs o n :
  o + n <= a \/ a + zlen bs <= o -> read_at (write_at d a bs) o n = read_at d o n.
Proof.
  intros. apply read_at_eq. intros i Hi. rewrite write_at_lookup.
  case_decide; [lia|done].
Qed.

(** Writing inside a region patches what is read from it. *)
Lemma read_write_inside d a bs o n :
  o <= a -> a + zlen bs <= o + n ->
  read_at (write_at d a bs) o n = patch (a - o) bs (read_at d o n).
Proof.
  intros. pose proof (zlen_nonneg bs). pose proof (zlen_read_at d o n ltac:(lia)).
  pose proof (zlen_read_at (write_at d a bs) o n ltac:(lia)). unfold zlen in *.
  apply list_eq. intros i. destruct (decide (Z.of_nat i < n)).
  2:{ rewrite !lookup_ge_None_2; [done| |lia]. unfold patch. rewrite length_inserts. lia. }
  rewrite read_at_lookup, write_at_lookup by lia. unfold zlen.
  case_decide.
  - rewrite patch_lookup_inside by lia.
    replace (Z.to_nat _) with (i - Z.to_nat (a - o))%nat by lia.
    destruct (lookup_lt_is_Some_2 bs (i - Z.to_nat (a - o))) as [x ->]; [lia|done].
  - rewrite patch_lookup_outside by lia. by rewrite read_at_lookup by lia.
Qed.

Lemma read_at_app d a n m :
  0 <= n -> 0 <= m -> read_at d a (n + m) = read_at d a n ++ read_at d (a + n) m.
Proof. intros. unfold read_at. by rewrite seqZ_app, fmap_app by lia. Qed.

Lemma write_at_app d a l k :
  write_at d a (l ++ k) = write_at (write_at d (a + zlen l) k) a l.
Proof.
  apply map_eq. intros i. rewrite !write_at_lookup, zlen_app.
  pose proof (zlen_nonneg l). pose proof (zlen_nonneg k). unfold zlen in *.
  repeat case_decide; try lia.
  - by rewrite lookup_app_l by lia.
  - rewrite lookup_app_r by lia. f_equal. lia.
  - done.
Qed.

(** Disjoint writes commute. *)
Lemma write_at_comm d a l b k :
  a + zlen l <= b \/ b + zlen k <= a ->
  write_at (write_at d a l) b k = write_at (write_at d b k) a l.
Proof.
  intros. apply map_eq. intros i. rewrite !write_at_lookup.
  repeat case_decide; try lia; done.
Qed.

Lemma slice_read_at d a n o m :
  0 <= o -> 0 <= m -> o + m <= n ->
  slice o m (read_at d a n) = read_at d (a + o) m.
Proof.
  intros. apply list_eq. intros i. rewrite slice_lookup by lia. case_decide.
  - rewrite !read_at_lookup by lia. do 3 f_equal. lia.
  - symmetry. apply lookup_ge_None_2.
    pose proof (zlen_read_at d (a + o) m). unfold zlen in *. lia.
Qed.

(** ** Long transfers *)

#[local] Opaque read_at write_at.

Lemma get_disk_bytes_present d lba n :
  0 <= n -> 0 <= u32 lba -> u32 lba + n <= 2 ^ 32 ->
  get_disk_bytes (Some d) lba n = disk_read d (u32 lba) n.
Proof.
  intros Hn Hl Hw. unfold get_disk_bytes, disk_commands, disk_read, SECTOR_SIZE.
  set (l := u32 lba) in *. clearbody l. unfold max_sectors in *.
  pose proof (Z.div_mod n 65536 ltac:(lia)) as Hdm.
  pose proof (Z.mod_pos_bound n 65536 ltac:(lia)).
  assert (Hchunks : forall c : nat, Z.of_nat c <= n / 65536 ->
    mjoin ((fun x : Z * Z => disk_bytes_read (Some d) x.1 x.2) <$>
       ((fun i => (u32 (l + i * 65536), 65536)) <$> seqZ 0 (Z.of_nat c)))
    = read_at d (l * 512) (Z.of_nat c * 65536 * 512)).
  { induction c as [|c IH]; intros Hc; [done|].
    rewrite seqZ_S, !fmap_app, join_app, IH by lia.
    cbn [fmap list_fmap mjoin list_join fst snd disk_bytes_read]. rewrite app_nil_r.
    unfold disk_read, SECTOR_SIZE. rewrite u32_small by lia.
    replace (Z.of_nat (S c) * 65536 * 512)
      with (Z.of_nat c * 65536 * 512 + 65536 * 512) by lia.
    rewrite read_at_app by lia.
    by replace ((l + (0 + Z.of_nat c) * 65536) * 512)
      with (l * 512 + Z.of_nat c * 65536 * 512) by lia. }
  pose proof (Z.div_pos n 65536 ltac:(lia) ltac:(lia)).
  specialize (Hchunks (Z.to_nat (n / 65536)) ltac:(lia)).
  rewrite !Z2Nat.id in Hchunks by lia.
  rewrite fmap_app, join_app, Hchunks. case_match eqn:E.
  - apply Z.eqb_eq in E. cbn [fmap list_fmap mjoin list_join]. rewrite app_nil_r.
    by replace (n * 512) with (n / 65536 * 65536 * 512) by lia.
  - apply Z.eqb_neq in E.
    cbn [fmap list_fmap mjoin list_join fst snd disk_bytes_read].
    rewrite app_nil_r, u32_small by lia.
    unfold disk_read, SECTOR_SIZE.
    replace (n * 512) with (n / 65536 * 65536 * 512 + n mod 65536 * 512) by lia.
    rewrite read_at_app by lia.
    by replace ((l + n / 65536 * 65536) * 512)
      with (l * 512 + n / 65536 * 65536 * 512) by lia.
Qed.

(** A run of back-to-back commands starting at sector [l]. *)
Fixpoint contiguous (l : Z) (cs : list (Z * Z)) : Prop :=
  match cs with
  | [] => True
  | (s, n) :: cs => s = l /\ 0 <= n /\ contiguous (l + n) cs
  end.

Definition total_sectors (cs : list (Z * Z)) : Z := foldr (fun c t => c.2 + t) 0 cs.

Lemma total_sectors_nonneg l cs : contiguous l cs -> 0 <= total_sectors cs.
Proof.
  revert l. induction cs as [|[s n] cs IH]; intros l; simpl; [done|].
  intros (_ & ? & ?%IH). lia.
Qed.

Lemma run_writes_contiguous cs : forall d l bs,
  contiguous l cs -> total_sectors cs * SECTOR_SIZE <= zlen bs ->
  run_writes d cs bs =
    write_at d (l * SECTOR_SIZE) (slice 0 (total_sectors cs * SECTOR_SIZE) bs).
Proof.
  induction cs as [|[s n] cs IH]; intros d l bs Hc Hlen.
  - unfold slice. simpl. by rewrite take_0.
  - cbn [contiguous total_sectors foldr snd] in Hc, Hlen.
    destruct Hc as (-> & Hn & Hc). fold (total_sectors cs) in Hlen.
    pose proof (total_sectors_nonneg _ _ Hc). unfold SECTOR_SIZE in *.
    cbn [run_writes total_sectors foldr snd]. fold (total_sectors cs).
    assert (Hd : zlen (drop (Z.to_nat (n * 512)) bs) = zlen bs - n * 512).
    { unfold zlen in *. rewrite length_drop. lia. }
    unfold SECTOR_SIZE. rewrite IH with (l := l + n); [|done|lia]. unfold disk_write, SECTOR_SIZE.
    rewrite write_at_comm; [|left; rewrite zlen_slice; lia].
    replace (slice 0 ((n + total_sectors cs) * 512) bs)
      with (slice 0 (n * 512) bs ++ slice 0 (total_sectors cs * 512) (drop (Z.to_nat (n * 512)) bs)).
    2:{ rewrite (slice_split 0 (n * 512) ((n + total_sectors cs) * 512)) by lia.
        f_equal. unfold slice. rewrite drop_drop. do 2 f_equal; lia. }
    rewrite write_at_app, zlen_slice by lia.
    by replace (l * 512 + n * 512) with ((l + n) * 512) by lia.
Qed.

Lemma contiguous_chunks l c i rest :
  0 <= l -> 0 <= i -> l + (i + Z.of_nat c) * max_sectors <= 2 ^ 32 ->
  contiguous (l + (i + Z.of_nat c) * max_sectors) rest ->
  contiguous (l + i * max_sectors)
    (((fun j => (u32 (l + j * max_sectors), max_sectors)) <$> seqZ i (Z.of_nat c)) ++ rest).
Proof.
  unfold max_sectors. revert i. induction c as [|c IH]; intros i Hl Hi Hb Hr.
  - by replace (i + Z.of_nat 0) with i in Hr by lia.
  - rewrite seqZ_cons by lia. rewrite fmap_cons. cbn [app contiguous].
    split; [apply u32_small; lia|]. split; [lia|].
    replace (l + i * 65536 + 65536) with (l + Z.succ i * 65536) by lia.
    replace (Z.pred (Z.of_nat (S c))) with (Z.of_nat c) by lia.
    apply IH; [lia..|]. by replace (Z.succ i + Z.of_nat c) with (i + Z.of_nat (S c)) by lia.
Qed.

Lemma total_sectors_app cs ks :
  total_sectors (cs ++ ks) = total_sectors cs + total_sectors ks.
Proof. induction cs; simpl; lia. Qed.

Lemma total_sectors_chunks (f : Z -> Z) i c :
  total_sectors ((fun j => (f j, max_sectors)) <$> seqZ i (Z.of_nat c)) = Z.of_nat c * max_sectors.
Proof.
  revert i. induction c as [|c IH]; intros i; [done|].
  rewrite seqZ_cons, fmap_cons by lia. cbn [total_sectors foldr snd]. fold (total_sectors).
  replace (Z.pred (Z.of_nat (S c))) with (Z.of_nat c) by lia. 
  specialize (IH (Z.succ i)). unfold total_sectors in IH. rewrite IH. lia.
Qed.

Lemma disk_commands_spec l n :
  0 <= l -> 0 <= n -> l + n <= 2 ^ 32 ->
  contiguous l (disk_commands l n) /\ total_sectors (disk_commands l n) = n.
Proof.
  intros. unfold disk_commands.
  pose proof (Z.div_mod n max_sectors ltac:(done)) as Hdm.
  pose proof (Z.mod_pos_bound n max_sectors ltac:(done)).
  pose proof (Z.div_pos n max_sectors ltac:(lia) ltac:(done)).
  replace (n / max_sectors) with (Z.of_nat (Z.to_nat (n / max_sectors))) in * by lia.
  set (c := Z.to_nat (n / max_sectors)) in *. unfold max_sectors in *.
  assert (E : u32 (l + Z.of_nat c * 65536) = l + Z.of_nat c * 65536 \/ n mod 65536 = 0).
  { destruct (decide (n mod 65536 = 0)); [by right|left]. apply u32_small. lia. }
  split.
  - pose proof (contiguous_chunks l c 0) as HC. unfold max_sectors in HC.
    rewrite Z.mul_0_l, Z.add_0_r in HC. apply HC; [lia..|].
    rewrite Z.add_0_l. case_match eqn:E'; [done|]. apply Z.eqb_neq in E'. simpl.
    destruct E as [E|E]; [|lia]. rewrite E. lia.
  - rewrite total_sectors_app.
    pose proof (total_sectors_chunks (fun i => u32 (l + i * 65536)) 0 c) as HT.
    unfold max_sectors in HT. rewrite HT.
    case_match eqn:E'; [apply Z.eqb_eq in E'|apply Z.eqb_neq in E']; simpl; lia.
Qed.

Lemma set_disk_bytes_ok d lba n bs :
  0 <= n -> u32 lba + n <= 2 ^ 32 -> n * SECTOR_SIZE <= zlen bs ->
  set_disk_bytes d lba n bs =
    Some (disk_write d (u32 lba) (slice 0 (n * SECTOR_SIZE) bs)).
Proof.
  intros. unfold set_disk_bytes. rewrite (proj2 (Z.leb_le _ _)) by lia. f_equal.
  pose proof (u32_bound lba).
  destruct (disk_commands_spec (u32 lba) n) as [Hc Ht]; [lia..|].
  rewrite (run_writes_contiguous _ _ (u32 lba)), Ht by (done || lia). done.
Qed.

(** what [set_disk_bytes] stores, [get_disk_bytes] reads back, for transfers of
    any length (split into commands of at most 65536 sectors) that stay below sector
    2^32; sectors outside the range keep their contents. *)
Theorem disk_write_read d lba n bs :
  0 <= n -> 0 <= lba -> lba + n <= 2 ^ 32 -> lba < 2 ^ 32 -> n * SECTOR_SIZE <= zlen bs ->
  exists d', set_disk_bytes d lba n bs = Some d' /\
    get_disk_bytes (Some d') lba n = slice 0 (n * SECTOR_SIZE) bs /\
    forall o m, 0 <= o < 2 ^ 32 -> 0 <= m -> o + m <= 2 ^ 32 -> o + m <= lba \/ lba + n <= o ->
      get_disk_bytes (Some d') o m = get_disk_bytes (Some d) o m.
Proof.
  intros Hn H0 H1 H2 Hl. assert (u32 lba = lba) as Hu by (apply u32_small; lia).
  eexists. split; [apply set_disk_bytes_ok; rewrite ?Hu; lia|]. rewrite Hu.
  assert (zlen (slice 0 (n * SECTOR_SIZE) bs) = n * SECTOR_SIZE) as Hz.
  { unfold SECTOR_SIZE in *. apply zlen_slice; lia. }
  split.
  - rewrite get_disk_bytes_present by (rewrite ?Hu; lia). rewrite Hu. unfold disk_read, disk_write.
    rewrite <- Hz at 2. apply read_write_same.
  - intros o m Ho Hm Hom Hd. assert (u32 o = o) as Ho' by (apply u32_small; lia).
    rewrite !get_disk_bytes_present by (rewrite ?Ho'; lia). rewrite Ho'. unfold disk_read, disk_write.
    apply read_write_disjoint. rewrite Hz. unfold SECTOR_SIZE. lia.
Qed.

(** A transfer of 65537 sectors: two commands. *)
Lemma disk_write_read_witness :
  disk_commands 10 65537 = [(10, 65536); (65546, 1)] /\
  exists d', set_disk_bytes ∅ 10 65537 (replicate (Z.to_nat (65537 * SECTOR_SIZE)) 7) = Some d' /\
    get_disk_bytes (Some d') 0 5 = get_disk_bytes (Some ∅) 0 5.
Proof.
  split; [reflexivity|].
  destruct (disk_write_read ∅ 10 65537 (replicate (Z.to_nat (65537 * SECTOR_SIZE)) 7))
    as (d' & E & _ & Hf).
  - lia.
  - lia.
  - lia.
  - lia.
  - unfold zlen. rewrite length_replicate. lia.
  - exists d'. split; [exact E|]. apply Hf; lia.
Defined.
