(* ===== verification/Pipe.v ===== *)
(** * Pipes and event counters ([syscalls/pipe.cpp], [syscalls/eventfd.cpp])

    A pipe is its 64 KiB buffer with the number of assigned bytes and the counts
    of open ends; an event counter is a 64-bit number.  A blocking loop of a
    single caller is a [Hang]; concurrent readers and writers are step
    relations whose steps are the calls that get past their loop. *)

From S2P Require Import Prelude FileTypes Bytes.

(** ** Pipes *)

Record PipeInfo := mkPipe {
  pipe_buf : list Z;
  assigned : Z;
  writeFds : Z;
  readFds : Z;
}.

Definition PIPE_SIZE : Z := 65536.

(** The part of [pipe_open] behind the two descriptors. *)
Definition pipe_open : PipeInfo := mkPipe (replicate (Z.to_nat PIPE_SIZE) 0) 0 1 1.

Definition pipe_duplicate (write : bool) : M PipeInfo bool :=
  modify (fun p => if write then mkPipe (pipe_buf p) (assigned p) (writeFds p + 1) (readFds p)
                   else mkPipe (pipe_buf p) (assigned p) (writeFds p) (readFds p + 1)) ;;;
  ret true.

(** [while (pipe->writeFds != 0 && !pipe->assigned)] *)
Definition pipe_read_waits (p : PipeInfo) : bool := negb (writeFds p =? 0) && (assigned p =? 0).

(** The locked part: the number of bytes read and the bytes copied to [out]. *)
Definition pipe_read_copy (limit : Z) : M PipeInfo (Z * list Z) :=
  let! p := get in
  let toCopy := if limit <? assigned p then limit else assigned p in
  let! out := from_option_fault (load 0 toCopy (pipe_buf p)) in
  let! rest := from_option_fault (load toCopy (PIPE_SIZE - toCopy) (pipe_buf p)) in
  let! buf := from_option_fault (store 0 rest (pipe_buf p)) in
  put (mkPipe buf (assigned p - toCopy) (writeFds p) (readFds p)) ;;;
  ret (toCopy, out).

Definition pipe_read (nonblock : bool) (limit : Z) : M PipeInfo (Z * list Z) :=
  let limit := if PIPE_SIZE <? limit then PIPE_SIZE else limit in
  let! p := get in
  if pipe_read_waits p then if nonblock then ret (- EWOULDBLOCK, []) else hang
  else if assigned p =? 0 then ret (0, [])
  else pipe_read_copy limit.

(** [while ((pipe->assigned + limit) > 65536)] *)
Definition pipe_write_waits (limit : Z) (p : PipeInfo) : bool :=
  PIPE_SIZE <? u64 (assigned p + limit).

(** The locked part; [bytes]: the bytes at the pointer [in] of the caller of
    [pipe_write]; [off]: the position [pipe_write_inner] is given. *)
Definition pipe_write_copy (bytes : list Z) (off limit : Z) : M PipeInfo Z :=
  let! p := get in
  let! chunk := from_option_fault (load off limit bytes) in
  let! buf := from_option_fault (store (assigned p) chunk (pipe_buf p)) in
  put (mkPipe buf (assigned p + limit) (writeFds p) (readFds p)) ;;;
  ret limit.

Definition pipe_write_inner (nonblock : bool) (bytes : list Z) (off limit : Z) : M PipeInfo Z :=
  let! p := get in
  if pipe_write_waits limit p then if nonblock then ret (- EWOULDBLOCK) else hang
  else pipe_write_copy bytes off limit.

(** [while (cycle != n) cycle += pipe_write_inner(fd, in + base + cycle, n - cycle);]
    with the [int] [cycle]. *)
Fixpoint pipe_write_chunk (fuel : nat) (nonblock : bool) (bytes : list Z) (base n cycle : Z)
    : M PipeInfo Z :=
  match fuel with
  | O => hang
  | S fuel =>
      if cycle =? n then ret cycle
      else
        let! w := pipe_write_inner nonblock bytes (base + cycle) (u64 (n - cycle)) in
        if cycle + w <? - 2 ^ 31 then fault
        else pipe_write_chunk fuel nonblock bytes base n (cycle + w)
  end.

(** The loop over whole buffers, with the [int] [ret]. *)
Fixpoint pipe_write_chunks (fuel : nat) (nonblock : bool) (bytes : list Z) (chunks : nat) (i res : Z)
    : M PipeInfo Z :=
  match chunks with
  | O => ret res
  | S chunks =>
      let! cycle := pipe_write_chunk fuel nonblock bytes (i * PIPE_SIZE) PIPE_SIZE 0 in
      if res + cycle <? 2 ^ 31 then
        pipe_write_chunks fuel nonblock bytes chunks (i + 1) (res + cycle)
      else fault
  end.

Definition pipe_write (fuel : nat) (nonblock : bool) (bytes : list Z) (limit : Z) : M PipeInfo Z :=
  let chunks := limit / PIPE_SIZE in
  let remainder := limit mod PIPE_SIZE in
  let! res := pipe_write_chunks fuel nonblock bytes (Z.to_nat chunks) 0 0 in
  if negb (remainder =? 0) then
    let! cycle := pipe_write_chunk fuel nonblock bytes (chunks * PIPE_SIZE) remainder 0 in
    if res + cycle <? 2 ^ 31 then ret (res + cycle) else fault
  else ret res.

(** [None] after the structure is freed. *)
Definition pipe_close_end (write : bool) : M (option PipeInfo) bool := fun s =>
  match s with
  | None => Fault
  | Some p =>
      let p := if write then mkPipe (pipe_buf p) (assigned p) (writeFds p - 1) (readFds p)
               else mkPipe (pipe_buf p) (assigned p) (writeFds p) (readFds p - 1) in
      Ok (true, if (readFds p =? 0) && (writeFds p =? 0) then None else Some p)
  end.

Definition pipe_bad_read : Z := - EBADF.
Definition pipe_bad_write : Z := - EBADF.
Definition pipe_bad_ioctl : Z := - ENOTTY.
Definition pipe_bad_memory_map : Z := 2 ^ 64 - 1.

(** ** Event counters *)

Record EventFd := mkEvent {
  counter : Z;
  utilizedBy : Z;
}.

Definition EFD_CLOEXEC : Z := O_CLOEXEC.
Definition EFD_NONBLOCK : Z := O_NONBLOCK.

(** The part of [eventFdOpen] behind its descriptor: an error, or the counter
    with the descriptor's [closeOnExec] and [O_NONBLOCK]. *)
Definition eventFdOpen (initValue flags : Z) : Z + EventFd * (bool * bool) :=
  if negb (flags =? 0) && negb (Z.land flags (Z.lnot (Z.lor EFD_CLOEXEC EFD_NONBLOCK)) =? 0)
  then inl (ERR ENOSYS)
  else inr (mkEvent initValue 1,
            (negb (Z.land flags EFD_CLOEXEC =? 0), negb (Z.land flags EFD_NONBLOCK =? 0))).

Definition eventFdDuplicate : M EventFd bool :=
  modify (fun e => mkEvent (counter e) (utilizedBy e + 1)) ;;; ret true.

Definition eventFdClose : M (option EventFd) bool := fun s =>
  match s with
  | None => Fault
  | Some e => Ok (true, if utilizedBy e - 1 =? 0 then None
                        else Some (mkEvent (counter e) (utilizedBy e - 1)))
  end.

(** The result and the value written to [out]; [signals]: a signal is pending. *)
Definition eventFdRead (signals nonblock : bool) (limit : Z) : M EventFd (Z * option Z) :=
  if limit <? 8 then ret (ERR EINVAL, None)
  else
    let! e := get in
    if counter e =? 0 then
      if signals then ret (ERR EINTR, None)
      else if nonblock then ret (ERR EWOULDBLOCK, None) else hang
    else
      put (mkEvent 0 (utilizedBy e)) ;;;
      ret (8, Some (counter e)).

Definition EVENT_MAX : Z := 2 ^ 64 - 1.

Definition eventFdWrite (signals nonblock : bool) (toAdd limit : Z) : M EventFd Z :=
  if (limit <? 8) || (toAdd =? EVENT_MAX) then ret (ERR EINVAL)
  else
    let! e := get in
    if EVENT_MAX - counter e <? toAdd then
      if signals then ret (ERR EINTR)
      else if nonblock then ret (ERR EWOULDBLOCK) else hang
    else
      put (mkEvent (u64 (counter e + toAdd)) (utilizedBy e)) ;;;
      ret 8.

(** The events among [EPOLLIN] and [EPOLLOUT] that are ready. *)
Definition eventFdInternalPoll (wantIn wantOut : bool) : M EventFd (bool * bool) :=
  let! e := get in
  ret (wantIn && (0 <? counter e), wantOut && (counter e <? EVENT_MAX)).

(** ** The pipe as a queue *)

Record pipe_wf (p : PipeInfo) : Prop := {
  pw_buf : zlen (pipe_buf p) = PIPE_SIZE;
  pw_assigned : 0 <= assigned p <= PIPE_SIZE;
}.

Definition queued (p : PipeInfo) : list Z := slice 0 (assigned p) (pipe_buf p).

Lemma pipe_open_wf : pipe_wf pipe_open.
Proof. split; cbn [pipe_buf assigned pipe_open]; [by apply zlen_replicate|unfold PIPE_SIZE; lia]. Qed.

Lemma store_append a bs l :
  0 <= a -> a + zlen bs <= zlen l -> slice 0 (a + zlen bs) (patch a bs l) = slice 0 a l ++ bs.
Proof.
  intros Ha Hb. pose proof (zlen_nonneg bs). rewrite (slice_split 0 a) by lia. f_equal.
  - apply slice_patch_disjoint; lia.
  - replace (a + zlen bs - a) with (zlen bs) by lia. rewrite Z.add_0_l. by apply slice_patch_same.
Qed.

Lemma pipe_write_copy_ok bytes off limit p :
  pipe_wf p -> 0 <= off -> 0 <= limit -> off + limit <= zlen bytes ->
  assigned p + limit <= PIPE_SIZE ->
  exists p', pipe_write_copy bytes off limit p = Ok (limit, p') /\ pipe_wf p' /\
    queued p' = queued p ++ slice off limit bytes /\ assigned p' = assigned p + limit.
Proof.
  intros [W1 W2] Ho Hl Hb Hf. unfold pipe_write_copy. erewrite bind_ok by done.
  rewrite load_ok by lia. erewrite bind_ok by done.
  assert (Hz : zlen (slice off limit bytes) = limit) by (apply zlen_slice; lia).
  rewrite store_ok by lia. erewrite bind_ok by done. eexists. split; [done|]. split_and!.
  - split; cbn; [by rewrite zlen_patch|lia].
  - unfold queued. cbn. rewrite <- Hz at 1. apply store_append; lia.
  - done.
Qed.

Lemma pipe_read_copy_ok limit p :
  pipe_wf p -> 0 <= limit ->
  exists out p', pipe_read_copy limit p = Ok ((zlen out, out), p') /\ pipe_wf p' /\
    queued p = out ++ queued p' /\ assigned p' = assigned p - zlen out /\
    (0 < limit -> 0 < assigned p -> out <> []).
Proof.
  intros [W1 W2] Hl. unfold pipe_read_copy. erewrite bind_ok by done.
  set (c := if limit <? assigned p then limit else assigned p).
  assert (Hc : 0 <= c <= assigned p) by (unfold c; destruct (Z.ltb_spec limit (assigned p)); lia).
  rewrite load_ok by lia. erewrite bind_ok by done. rewrite load_ok by lia. erewrite bind_ok by done.
  assert (Hz : zlen (slice c (PIPE_SIZE - c) (pipe_buf p)) = PIPE_SIZE - c) by (apply zlen_slice; lia).
  assert (Hc' : zlen (slice 0 c (pipe_buf p)) = c) by (apply zlen_slice; lia).
  rewrite store_ok by lia. erewrite bind_ok by done. exists (slice 0 c (pipe_buf p)).
  rewrite Hc'. eexists. split; [done|]. split_and!.
  - split; cbn; [by rewrite zlen_patch|lia].
  - unfold queued. cbn. rewrite (slice_split 0 c (assigned p)) by lia. f_equal.
    rewrite Z.add_0_l. set (r := slice c (PIPE_SIZE - c) (pipe_buf p)) in *.
    transitivity (slice 0 (assigned p - c) r).
    + unfold r. rewrite slice_slice by lia. f_equal; lia.
    + rewrite <- (slice_patch_same 0 r (pipe_buf p)) at 1 by lia.
      rewrite Hz, slice_slice by lia. f_equal; lia.
  - done.
  - intros H1 H2 E. rewrite E in Hc'. change (zlen []) with 0 in Hc'. unfold c in Hc'.
    destruct (Z.ltb_spec limit (assigned p)); lia.
Qed.

(** ** A single caller of [pipe_write] *)

Lemma pipe_write_waits_spec limit p :
  0 <= assigned p + limit < 2 ^ 64 ->
  pipe_write_waits limit p = bool_decide (PIPE_SIZE < assigned p + limit).
Proof.
  intros H. unfold pipe_write_waits. rewrite u64_small by lia.
  case_bool_decide; [by apply Z.ltb_lt|apply Z.ltb_ge; lia].
Qed.

Lemma pipe_write_chunk_fits fuel nb bytes base n p :
  pipe_wf p -> 0 <= base -> 0 < n <= PIPE_SIZE -> base + n <= zlen bytes ->
  assigned p + n <= PIPE_SIZE ->
  exists p', pipe_write_chunk (S (S fuel)) nb bytes base n 0 p = Ok (n, p') /\ pipe_wf p' /\
    queued p' = queued p ++ slice base n bytes /\ assigned p' = assigned p + n.
Proof.
  intros W Hb Hn Hl Hf. pose proof (pw_assigned p W) as Wa. unfold PIPE_SIZE in *.
  destruct (pipe_write_copy_ok bytes base n p) as (p' & E & W' & Q & A); unfold PIPE_SIZE; [done|lia..|].
  exists p'. split; [|done]. cbn [pipe_write_chunk].
  destruct (Z.eqb_spec 0 n) as [|_]; [lia|]. rewrite Z.add_0_r, Z.sub_0_r, (u64_small n) by lia.
  erewrite bind_ok; [|unfold pipe_write_inner; erewrite bind_ok by done;
    rewrite pipe_write_waits_spec, bool_decide_eq_false_2 by (unfold PIPE_SIZE; lia); exact E].
  rewrite Z.add_0_l. destruct (Z.ltb_spec n (- 2 ^ 31)); [lia|]. by rewrite Z.eqb_refl.
Qed.

(** When the rest does not fit, the loop never ends: each turn asks for more. *)
Lemma pipe_write_chunk_stuck fuel nb bytes base n cycle p r :
  pipe_wf p -> - 2 ^ 31 <= cycle <= 0 -> 0 < n <= PIPE_SIZE ->
  PIPE_SIZE < assigned p + n -> pipe_write_chunk fuel nb bytes base n cycle p <> Ok r.
Proof.
  intros W Hc Hn Hs. pose proof (pw_assigned p W) as Wa. revert cycle Hc.
  induction fuel as [|fuel IH]; intros cycle Hc; [done|]. cbn [pipe_write_chunk]. unfold PIPE_SIZE in *.
  destruct (Z.eqb_spec cycle n) as [|_]; [lia|]. rewrite (u64_small (n - cycle)) by lia.
  unfold pipe_write_inner, bind, get at 1.
  rewrite pipe_write_waits_spec, bool_decide_eq_true_2 by (unfold PIPE_SIZE; lia).
  destruct nb; [|done]. unfold ret at 1. cbv beta iota.
  destruct (Z.ltb_spec (cycle + - EWOULDBLOCK) (- 2 ^ 31)); [done|]. apply IH. unfold EWOULDBLOCK in *. lia.
Qed.

(** A chunk is written whole, or the call does not come back. *)
Lemma pipe_write_chunk_inv fuel nb bytes base n p c p' :
  pipe_wf p -> 0 <= base -> 0 < n <= PIPE_SIZE -> base + n <= zlen bytes ->
  pipe_write_chunk fuel nb bytes base n 0 p = Ok (c, p') ->
  c = n /\ pipe_wf p' /\ assigned p' = assigned p + n.
Proof.
  intros W Hb Hn Hl E. destruct (Z.le_gt_cases (assigned p + n) PIPE_SIZE) as [Hf|Hs].
  2:{ exfalso. revert E. apply pipe_write_chunk_stuck; [done|lia..]. }
  destruct fuel as [|[|fuel]]; [done| |].
  - cbn [pipe_write_chunk] in E. destruct (Z.eqb_spec 0 n); [lia|].
    apply bind_inv in E as (w & s & _ & E). by destruct (_ <? _).
  - destruct (pipe_write_chunk_fits fuel nb bytes base n p) as (q & E' & W' & _ & A); [done..|].
    rewrite E' in E. by simplify_eq.
Qed.

Lemma pipe_write_chunks_inv fuel nb bytes k : forall i res p c p',
  pipe_wf p -> 0 <= i -> (i + Z.of_nat k) * PIPE_SIZE <= zlen bytes ->
  pipe_write_chunks fuel nb bytes k i res p = Ok (c, p') ->
  pipe_wf p' /\ assigned p' = assigned p + Z.of_nat k * PIPE_SIZE.
Proof.
  induction k as [|k IH]; intros i res p c p' W Hi Hl E; cbn [pipe_write_chunks] in E.
  - injection E as <- <-. split; [done|lia].
  - apply bind_inv in E as (cy & p1 & E1 & E). unfold PIPE_SIZE in *.
    apply pipe_write_chunk_inv in E1 as (-> & W1 & A1); unfold PIPE_SIZE; [|done|lia..].
    destruct (_ <? _); [|done]. apply IH in E as (W' & A'); [|done|lia..]. split; [done|lia].
Qed.

Lemma pipe_write_fits fuel nb bytes limit p :
  pipe_wf p -> 0 <= limit <= zlen bytes -> assigned p + limit <= PIPE_SIZE ->
  exists p', pipe_write (S (S fuel)) nb bytes limit p = Ok (limit, p') /\ pipe_wf p' /\
    queued p' = queued p ++ slice 0 limit bytes.
Proof.
  intros W Hl Hf. pose proof (pw_assigned p W) as Wa. unfold pipe_write.
  destruct (Z.eq_dec limit PIPE_SIZE) as [->|Hne].
  - rewrite Z_div_same, Z_mod_same by done. change (Z.to_nat 1) with 1%nat. cbn [pipe_write_chunks].
    destruct (pipe_write_chunk_fits fuel nb bytes 0 PIPE_SIZE p) as (p' & E & W' & Q & A);
      [done|unfold PIPE_SIZE in *; lia..|].
    exists p'. split; [|done]. rewrite Z.mul_0_l.
    erewrite bind_ok; [|erewrite bind_ok by exact E; reflexivity]. done.
  - assert (limit < PIPE_SIZE) by lia. rewrite Z.div_small, Z.mod_small by lia.
    change (Z.to_nat 0) with 0%nat. cbn [pipe_write_chunks]. erewrite bind_ok by done.
    destruct (Z.eqb_spec limit 0) as [->|H0]; cbn [negb].
    { exists p. by rewrite app_nil_r. }
    rewrite Z.mul_0_l.
    destruct (pipe_write_chunk_fits fuel nb bytes 0 limit p) as (p' & E & W' & Q & A);
      [done|unfold PIPE_SIZE in *; lia..|].
    exists p'. split; [|done]. erewrite bind_ok by exact E. rewrite Z.add_0_l.
    destruct (Z.ltb_spec limit (2 ^ 31)); [done|]. unfold PIPE_SIZE in *. lia.
Qed.

Lemma pipe_write_inv fuel nb bytes limit p c p' :
  pipe_wf p -> 0 <= limit <= zlen bytes -> pipe_write fuel nb bytes limit p = Ok (c, p') ->
  assigned p + limit <= PIPE_SIZE.
Proof.
  intros W Hl E. unfold pipe_write in E. apply bind_inv in E as (res & p1 & E1 & E).
  assert (Hdm : limit = PIPE_SIZE * (limit / PIPE_SIZE) + limit mod PIPE_SIZE) by (apply Z.div_mod; done).
  assert (Hm : 0 <= limit mod PIPE_SIZE < PIPE_SIZE) by (apply Z.mod_pos_bound; done).
  assert (Hd : 0 <= limit / PIPE_SIZE) by (apply Z.div_pos; [lia|done]).
  apply pipe_write_chunks_inv in E1 as (W1 & A1); [|done|lia|unfold PIPE_SIZE in *; lia].
  rewrite Z2Nat.id in A1 by lia. destruct (Z.eqb_spec (limit mod PIPE_SIZE) 0) as [E0|E0]; cbn [negb] in E.
  - pose proof (pw_assigned p1 W1). lia.
  - apply bind_inv in E as (cy & p2 & E2 & E).
    apply pipe_write_chunk_inv in E2 as (_ & W2 & A2); [|done|unfold PIPE_SIZE in *; lia..].
    pose proof (pw_assigned p2 W2). lia.
Qed.

(** A single caller of [pipe_write] with [limit] bytes that fit into what is
    left of the 64 KiB buffer gets [limit] back and finds exactly those bytes
    appended to what the pipe holds; when they do not fit, the call never
    returns, however long it runs, also on a descriptor opened with
    [O_NONBLOCK], whose [-EWOULDBLOCK] is added to the byte count. *)
Theorem pipe_write_all_or_stuck nb bytes limit p :
  pipe_wf p -> 0 <= limit <= zlen bytes ->
  (assigned p + limit <= PIPE_SIZE -> forall fuel, exists p',
     pipe_write (S (S fuel)) nb bytes limit p = Ok (limit, p') /\ pipe_wf p' /\
     queued p' = queued p ++ slice 0 limit bytes) /\
  (PIPE_SIZE < assigned p + limit -> forall fuel r, pipe_write fuel nb bytes limit p <> Ok r).
Proof.
  intros W Hl. split.
  - intros Hf fuel. by apply pipe_write_fits.
  - intros Hs fuel [c p'] E. apply pipe_write_inv in E; [lia|done..].
Qed.

Lemma pipe_write_all_or_stuck_witness :
  (exists p', pipe_write 2 true [1; 2; 3] 3 pipe_open = Ok (3, p') /\ queued p' = [1; 2; 3]) /\
  (forall fuel r, pipe_write fuel true (replicate (Z.to_nat 65537) 7) 65537 pipe_open <> Ok r).
Proof.
  split.
  - destruct (pipe_write_all_or_stuck true [1; 2; 3] 3 pipe_open) as [H _];
      [apply pipe_open_wf|by vm_compute|].
    destruct (H ltac:(by vm_compute) 0%nat) as (p' & E & _ & Q). exists p'. split; [exact E|].
    rewrite Q. by vm_compute.
  - intros fuel r. apply (pipe_write_all_or_stuck true (replicate (Z.to_nat 65537) 7) 65537 pipe_open);
      [apply pipe_open_wf|by vm_compute|by vm_compute].
Defined.

(** ** Tasks that share a pipe

    A task in [pipe_write_inner] waits without the lock until its bytes fit and
    copies them under the lock afterwards; a task in [pipe_read] likewise.  The
    state holds, per task, what it has passed its loop with. *)

Record PipeSys := mkSys {
  sys_pipe : PipeInfo;
  sys_writers : list (option (list Z));
  sys_readers : list (option Z);
  sys_written : list Z;
  sys_read : list Z;
}.

Inductive pipe_step : PipeSys -> PipeSys -> Prop :=
  | step_write_check p ws rs w r i bytes :
      ws !! i = Some None -> zlen bytes <= PIPE_SIZE -> pipe_write_waits (zlen bytes) p = false ->
      pipe_step (mkSys p ws rs w r) (mkSys p (<[i := Some bytes]> ws) rs w r)
  | step_write_copy p ws rs w r i bytes n p' :
      ws !! i = Some (Some bytes) -> pipe_write_copy bytes 0 (zlen bytes) p = Ok (n, p') ->
      pipe_step (mkSys p ws rs w r) (mkSys p' (<[i := None]> ws) rs (w ++ bytes) r)
  | step_read_check p ws rs w r i limit :
      rs !! i = Some None -> 0 <= limit <= PIPE_SIZE ->
      pipe_read_waits p = false -> assigned p <> 0 ->
      pipe_step (mkSys p ws rs w r) (mkSys p ws (<[i := Some limit]> rs) w r)
  | step_read_copy p ws rs w r i limit n out p' :
      rs !! i = Some (Some limit) -> pipe_read_copy limit p = Ok ((n, out), p') ->
      pipe_step (mkSys p ws rs w r) (mkSys p' ws (<[i := None]> rs) w (r ++ out)).

Definition pipe_start (writers readers : nat) : PipeSys :=
  mkSys pipe_open (replicate writers None) (replicate readers None) [] [].

(** What one writer and any number of readers keep: a writer past its loop still
    has room, since only it adds. *)
Record sys_inv (s : PipeSys) : Prop := {
  si_wf : pipe_wf (sys_pipe s);
  si_one : (length (sys_writers s) <= 1)%nat;
  si_room : forall i bytes, sys_writers s !! i = Some (Some bytes) ->
    assigned (sys_pipe s) + zlen bytes <= PIPE_SIZE;
  si_limits : forall i limit, sys_readers s !! i = Some (Some limit) -> 0 <= limit;
  si_fifo : sys_written s = sys_read s ++ queued (sys_pipe s);
}.

Lemma sys_inv_start writers readers : (writers <= 1)%nat -> sys_inv (pipe_start writers readers).
Proof.
  intros H. split; cbn [pipe_start sys_pipe sys_writers sys_readers sys_written sys_read].
  - apply pipe_open_wf.
  - by rewrite length_replicate.
  - intros i b E. by apply lookup_replicate in E as [? _].
  - intros i b E. by apply lookup_replicate in E as [? _].
  - done.
Qed.

Lemma one_writer {A} (l : list A) i j x y :
  (length l <= 1)%nat -> l !! i = Some x -> l !! j = Some y -> i = j.
Proof. intros H Hi Hj. apply lookup_lt_Some in Hi, Hj. lia. Qed.

Lemma sys_inv_step s s' : sys_inv s -> pipe_step s s' -> sys_inv s'.
Proof.
  intros [W One Room Lim Fifo] Hs.
  destruct Hs as [p ws rs w r i bytes Ei Hb Hw | p ws rs w r i bytes n p' Ei Ec
    | p ws rs w r i limit Ei Hl Hr Ha | p ws rs w r i limit n out p' Ei Ec];
    cbn [sys_pipe sys_writers sys_readers sys_written sys_read] in *.
  - split; cbn [sys_pipe sys_writers sys_readers sys_written sys_read]; [done| | |done..].
    + by rewrite length_insert.
    + intros j b [(<- & [= <-] & _)|[_ Ej]]%list_lookup_insert_Some.
      * pose proof (pw_assigned p W). pose proof (zlen_nonneg bytes). unfold PIPE_SIZE in *.
        rewrite pipe_write_waits_spec in Hw by lia. apply bool_decide_eq_false in Hw.
        unfold PIPE_SIZE in Hw. lia.
      * by eapply Room.
  - pose proof (zlen_nonneg bytes). pose proof (Room i bytes Ei).
    destruct (pipe_write_copy_ok bytes 0 (zlen bytes) p) as (q & E & W' & Q & A); [done|lia..|].
    rewrite E in Ec. injection Ec as <- <-.
    split; cbn [sys_pipe sys_writers sys_readers sys_written sys_read]; [done| | |done|].
    + by rewrite length_insert.
    + intros j b [(_ & [=] & _)|[Hne Ej]]%list_lookup_insert_Some.
      destruct Hne. by eapply one_writer.
    + rewrite Q, slice_full, Fifo. by rewrite (assoc_L (++)).
  - split; cbn [sys_pipe sys_writers sys_readers sys_written sys_read]; [done..| |done].
    intros j l [(<- & [= <-] & _)|[_ Ej]]%list_lookup_insert_Some; [lia|by eapply Lim].
  - destruct (pipe_read_copy_ok limit p) as (o & q & E & W' & Q & A & _); [done|by eapply Lim|].
    rewrite E in Ec. injection Ec as <- <- <-. pose proof (zlen_nonneg o).
    split; cbn [sys_pipe sys_writers sys_readers sys_written sys_read]; [done..| | |].
    + intros j b Ej. specialize (Room j b Ej). lia.
    + intros j l [(_ & [=] & _)|[_ Ej]]%list_lookup_insert_Some. by eapply Lim.
    + rewrite Fifo, Q. by rewrite (assoc_L (++)).
Qed.

Lemma sys_inv_reachable writers readers s :
  (writers <= 1)%nat -> rtc pipe_step (pipe_start writers readers) s -> sys_inv s.
Proof.
  intros Hw Hr. pose proof (sys_inv_start writers readers Hw) as Hi.
  induction Hr as [|x y z Hs _ IH]; [done|]. by apply IH, (sys_inv_step x).
Qed.

(** C36: One task writes to a pipe and any number of tasks read from it, their
    calls interleaved at will between the wait and the locked copy.  In every
    reachable state the bytes written so far are the bytes read so far followed
    by what the buffer holds, in order and without loss, the buffer holds at
    most 64 KiB, and neither a writer nor a reader past its wait can run out of
    the buffer's bounds. *)
Theorem pipe_fifo writers readers s :
  (writers <= 1)%nat -> rtc pipe_step (pipe_start writers readers) s ->
  sys_written s = sys_read s ++ queued (sys_pipe s) /\
  0 <= assigned (sys_pipe s) <= PIPE_SIZE /\
  (forall i bytes, sys_writers s !! i = Some (Some bytes) ->
     exists p', pipe_write_copy bytes 0 (zlen bytes) (sys_pipe s) = Ok (zlen bytes, p')) /\
  (forall i limit, sys_readers s !! i = Some (Some limit) ->
     exists out p', pipe_read_copy limit (sys_pipe s) = Ok ((zlen out, out), p')).
Proof.
  intros Hw Hr. destruct (sys_inv_reachable _ _ _ Hw Hr) as [W One Room Lim Fifo]. split_and!.
  - done.
  - apply W.
  - apply W.
  - intros i bytes E. pose proof (zlen_nonneg bytes).
    destruct (pipe_write_copy_ok bytes 0 (zlen bytes) (sys_pipe s)) as (p' & E' & _);
      [done|lia|lia|lia|by eapply Room|]. by exists p'.
  - intros i limit E. destruct (pipe_read_copy_ok limit (sys_pipe s)) as (o & p' & E' & _);
      [done|by eapply Lim|]. by exists o, p'.
Qed.

Lemma pipe_fifo_witness : exists s, rtc pipe_step (pipe_start 1 2) s /\
  sys_read s <> [] /\ [7; 8; 9] = sys_read s ++ queued (sys_pipe s).
Proof.
  destruct (pipe_write_copy_ok [7; 8; 9] 0 (zlen [7; 8; 9]) pipe_open) as (p1 & E1 & W1 & _ & A1);
    [apply pipe_open_wf|by vm_compute..|].
  destruct (pipe_read_copy_ok 2 p1) as (out & p2 & E2 & _ & _ & _ & Ho); [done|lia|].
  change (assigned p1 = 3) in A1.
  assert (Hr : pipe_read_waits p1 = false) by (unfold pipe_read_waits; rewrite A1; apply andb_false_r).
  assert (Ha : assigned p1 <> 0) by lia. assert (Hl : 0 <= 2 <= PIPE_SIZE) by (unfold PIPE_SIZE; lia).
  assert (HR : rtc pipe_step (pipe_start 1 2) (mkSys p2 [None] [None; None] [7; 8; 9] out)).
  { eapply rtc_l; [apply (step_write_check _ [None] _ _ _ 0 [7; 8; 9]); by vm_compute|].
    eapply rtc_l; [exact (step_write_copy _ [Some [7; 8; 9]] _ _ _ 0 _ _ _ eq_refl E1)|].
    eapply rtc_l; [exact (step_read_check _ _ [None; None] _ _ 1 2 eq_refl Hl Hr Ha)|].
    eapply rtc_l; [exact (step_read_copy _ _ [None; Some 2] _ _ 1 2 _ _ _ eq_refl E2)|].
    apply rtc_refl. }
  eexists. split; [exact HR|]. split; [apply Ho; lia|].
  by apply (pipe_fifo 1 2 _ ltac:(lia)) in HR as (? & _).
Defined.

Lemma two_writers b : zlen b = 40000 -> exists s, rtc pipe_step (pipe_start 2 0) s /\
  sys_writers s !! 1%nat = Some (Some b) /\
  pipe_write_copy b 0 (zlen b) (sys_pipe s) = Fault.
Proof.
  intros Hz.
  destruct (pipe_write_copy_ok b 0 (zlen b) pipe_open) as (p' & E & W & Q & A);
    [apply pipe_open_wf|cbn [assigned pipe_open]; unfold PIPE_SIZE; lia..|].
  assert (Hw : pipe_write_waits (zlen b) pipe_open = false) by (by rewrite Hz).
  assert (Hs : zlen b <= PIPE_SIZE) by (unfold PIPE_SIZE; lia).
  exists (mkSys p' [None; Some b] [] ([] ++ b) []). split; [|split; [done|]].
  - eapply rtc_l; [exact (step_write_check _ [None; None] _ _ _ 0 b eq_refl Hs Hw)|].
    eapply rtc_l; [exact (step_write_check _ [Some b; None] _ _ _ 1 b eq_refl Hs Hw)|].
    eapply rtc_l; [exact (step_write_copy _ [Some b; Some b] _ _ _ 0 b _ _ eq_refl E)|]. apply rtc_refl.
  - unfold pipe_write_copy. erewrite bind_ok by done. rewrite load_ok by lia.
    erewrite bind_ok by done. rewrite slice_full. cbn [sys_pipe].
    destruct (store _ _ _) as [l|] eqn:Es; [|done]. exfalso.
    apply store_Some in Es as (_ & H & _). rewrite A, (pw_buf p' W), Hz in H.
    cbn [assigned pipe_open] in H. unfold PIPE_SIZE in H. lia.
Qed.

(** The wait of [pipe_write_inner] is outside its lock, so two writers can
    both pass it on the room one of them needs: a state is reachable in which
    the second copy runs past the 64 KiB buffer. *)
Theorem pipe_writers_race :
  exists s bytes, rtc pipe_step (pipe_start 2 0) s /\
    sys_writers s !! 1%nat = Some (Some bytes) /\
    pipe_write_copy bytes 0 (zlen bytes) (sys_pipe s) = Fault.
Proof.
  destruct (two_writers (replicate (Z.to_nat 40000) 0)) as (s & H); [by apply zlen_replicate|].
  eexists _, _. exact H.
Qed.

(** ** Tasks that share an event counter

    Each call holds the lock from its test to its update.  The numbers beside
    the counter are the totals written and read. *)

Inductive event_step : EventFd * Z * Z -> EventFd * Z * Z -> Prop :=
  | step_event_read sg nb limit e n v e' w r :
      eventFdRead sg nb limit e = Ok ((n, v), e') ->
      event_step (e, w, r) (e', w, r + default 0 v)
  | step_event_write sg nb toAdd limit e n e' w r :
      0 <= toAdd <= EVENT_MAX -> eventFdWrite sg nb toAdd limit e = Ok (n, e') ->
      event_step (e, w, r) (e', w + (if n =? 8 then toAdd else 0), r)
  | step_event_duplicate e b e' w r :
      eventFdDuplicate e = Ok (b, e') -> event_step (e, w, r) (e', w, r)
  | step_event_close e b e' w r :
      eventFdClose (Some e) = Ok (b, Some e') -> event_step (e, w, r) (e', w, r).

Definition event_inv (init : Z) (s : EventFd * Z * Z) : Prop :=
  let '(e, w, r) := s in 0 <= counter e <= EVENT_MAX /\ init + w = r + counter e.

Lemma event_inv_step init s s' : event_inv init s -> event_step s s' -> event_inv init s'.
Proof.
  intros Hi Hs. destruct Hs as [sg nb limit e n v e' w r E | sg nb toAdd limit e n e' w r Ht E
    | e b e' w r E | e b e' w r E]; cbn [event_inv] in *; destruct Hi as [Hb Hc].
  - unfold eventFdRead in E. destruct (limit <? 8); [injection E as <- <- <-; cbn; lia|].
    erewrite bind_ok in E by done. destruct (counter e =? 0).
    + destruct sg; [|destruct nb; [|done]]; injection E as <- <- <-; cbn; lia.
    + injection E as <- <- <-. cbn. unfold EVENT_MAX. lia.
  - unfold eventFdWrite in E.
    assert (H0 : forall k, k = EINVAL \/ k = EINTR \/ k = EWOULDBLOCK -> (ERR k =? 8) = false)
      by (intros k [->|[->| ->]]; done).
    destruct ((limit <? 8) || _); [injection E as <- <-; rewrite H0 by tauto; lia|].
    erewrite bind_ok in E by done. destruct (Z.ltb_spec (EVENT_MAX - counter e) toAdd).
    + destruct sg; [|destruct nb; [|done]]; injection E as <- <-; rewrite H0 by tauto; lia.
    + injection E as <- <-. cbn [counter]. unfold EVENT_MAX in *. rewrite u64_small by lia. cbn. lia.
  - by injection E as <- <-.
  - unfold eventFdClose in E. destruct (_ =? 0); [done|]. by injection E as <- <-.
Qed.

(** A ready event is one a call would not wait for. *)
Lemma eventFdInternalPoll_ready e : 0 <= counter e <= EVENT_MAX ->
  exists i o, eventFdInternalPoll true true e = Ok ((i, o), e) /\
  (i = true <-> exists v e', eventFdRead false true 8 e = Ok ((8, Some v), e')) /\
  (o = true <-> exists e', eventFdWrite false true 1 8 e = Ok (8, e')).
Proof.
  intros H. eexists _, _. split; [done|]. rewrite !andb_true_l. split.
  - unfold eventFdRead. change (8 <? 8) with false. unfold bind, get.
    rewrite Z.ltb_lt. destruct (Z.eqb_spec (counter e) 0).
    + split; [lia|]. intros (v & e' & [=]).
    + split; [intros _; by eexists _, _|lia].
  - unfold eventFdWrite. change ((8 <? 8) || (1 =? EVENT_MAX)) with false. unfold bind, get.
    rewrite Z.ltb_lt. destruct (Z.ltb_spec (EVENT_MAX - counter e) 1).
    + split; [lia|]. by intros (e' & [=]).
    + split; [intros _; by eexists|lia].
Qed.

(** However reads, writes, duplications and closes of an event counter
    opened with [initValue] interleave, the counter stays a 64-bit number, its
    initial value plus everything written successfully is everything read plus
    the counter, and the poll handler reports exactly the operations a
    non-blocking call would complete. *)
Theorem eventfd_conserves initValue flags e0 fl e w r :
  0 <= initValue <= EVENT_MAX -> eventFdOpen initValue flags = inr (e0, fl) ->
  rtc event_step (e0, 0, 0) (e, w, r) ->
  0 <= counter e <= EVENT_MAX /\ initValue + w = r + counter e /\
  exists i o, eventFdInternalPoll true true e = Ok ((i, o), e) /\
  (i = true <-> exists v e', eventFdRead false true 8 e = Ok ((8, Some v), e')) /\
  (o = true <-> exists e', eventFdWrite false true 1 8 e = Ok (8, e')).
Proof.
  intros Hi E Hr. assert (H0 : event_inv initValue (e0, 0, 0)).
  { unfold eventFdOpen in E. destruct (_ && _); [done|]. injection E as <- _. cbn. lia. }
  assert (H : event_inv initValue (e, w, r)).
  { induction Hr as [|x y z Hs _ IH]; [done|]. by apply IH, (event_inv_step initValue x). }
  destruct H as [H1 H2]. split_and!; [lia..|]. by apply eventFdInternalPoll_ready.
Qed.

Lemma eventfd_conserves_witness :
  exists e, rtc event_step (mkEvent 5 1, 0, 0) (e, 4, 5) /\ 5 + 4 = 5 + counter e.
Proof.
  exists (mkEvent 4 1). assert (H : rtc event_step (mkEvent 5 1, 0, 0) (mkEvent 4 1, 4, 5)).
  { eapply rtc_l; [by eapply (step_event_read false true 8)|].
    eapply rtc_l; [by eapply (step_event_write false true 4 8)|]. apply rtc_refl. }
  split; [exact H|]. by apply (eventfd_conserves 5 0 _ (false, false) _ 4 5 ltac:(done) eq_refl) in H as (_ & ? & _).
Defined.
