(* ===== verification/CString.v ===== *)
(** * Byte memory and C strings ([memcpy], [memcmp] and [strlen] as the path code uses them)

    A memory is its mapped bytes with the end of the allocated part: reads are
    checked against what is mapped, writes against what is allocated.  A new
    block lies at the end of the allocated part and holds what was there. *)

From S2P Require Import Prelude Bytes.

Record Mem := mkMem {
  mem_bytes : list Z;
  mem_top : Z;
}.

Definition rd (a : Z) : M Mem Z := fun s =>
  match (if 0 <=? a then mem_bytes s !! Z.to_nat a else None) with
  | Some c => Ok (c, s)
  | None => Fault
  end.

Definition wr (a v : Z) : M Mem unit := fun s =>
  if (0 <=? a) && (a <? mem_top s) && (a <? zlen (mem_bytes s))
  then Ok (tt, mkMem (<[Z.to_nat a := v]> (mem_bytes s)) (mem_top s))
  else Fault.

(** A fresh block of [n] bytes. *)
Definition malloc (n : Z) : M Mem Z := fun s =>
  if mem_top s + n <=? zlen (mem_bytes s)
  then Ok (mem_top s, mkMem (mem_bytes s) (mem_top s + n))
  else Fault.

Fixpoint memcpy_loop (n : nat) (dest src : Z) : M Mem unit :=
  match n with
  | O => ret tt
  | S n => let! c := rd src in wr dest c ;;; memcpy_loop n (dest + 1) (src + 1)
  end.

Definition memcpy (dest src n : Z) : M Mem unit := memcpy_loop (Z.to_nat n) dest src.

Fixpoint strlen_loop (fuel : nat) (s i : Z) : M Mem Z :=
  match fuel with
  | O => hang
  | S fuel => let! c := rd (s + i) in if c =? 0 then ret i else strlen_loop fuel s (i + 1)
  end.

Definition strlen (s : Z) : M Mem Z :=
  let! m := get in strlen_loop (S (length (mem_bytes m))) s 0.

(** The order of the first difference, the first string ending in a zero byte. *)
Fixpoint memcmp (n : nat) (s1 s2 : list Z) : Z :=
  match n with
  | O => 0
  | S n =>
      let c1 := List.hd 0 s1 in let c2 := List.hd 0 s2 in
      if c1 =? c2 then memcmp n (List.tl s1) (List.tl s2) else if c1 <? c2 then -1 else 1
  end.

(** ** The bytes at an address *)

Definition at_ (m : list Z) (a : Z) (l : list Z) : Prop :=
  0 <= a /\ forall i c, l !! i = Some c -> m !! (Z.to_nat a + i)%nat = Some c.

Definition same_outside (lo hi : Z) (m m' : list Z) : Prop :=
  length m' = length m /\
  forall k, ~ (lo <= Z.of_nat k < hi) -> m' !! k = m !! k.

Definition no_nul (l : list Z) : Prop := Forall (fun c => c <> 0) l.

Lemma at_nil m a : 0 <= a -> at_ m a [].
Proof. intros H. split; [done|]. intros i c E. by rewrite lookup_nil in E. Qed.

Lemma at_cons m a c l : at_ m a (c :: l) <-> 0 <= a /\ m !! Z.to_nat a = Some c /\ at_ m (a + 1) l.
Proof.
  split.
  - intros [Ha H]. split; [done|]. split.
    + specialize (H 0%nat c eq_refl). by rewrite Nat.add_0_r in H.
    + split; [lia|]. intros i d E. specialize (H (S i) d E).
      by replace (Z.to_nat (a + 1) + i)%nat with (Z.to_nat a + S i)%nat by lia.
  - intros (Ha & H0 & _ & H). split; [done|]. intros [|i] d E.
    + cbn in E. rewrite Nat.add_0_r. by simplify_eq.
    + specialize (H i d E). by replace (Z.to_nat a + S i)%nat with (Z.to_nat (a + 1) + i)%nat by lia.
Qed.

Lemma at_app m a l k : at_ m a (l ++ k) <-> at_ m a l /\ at_ m (a + zlen l) k.
Proof.
  revert a. induction l as [|c l IH]; intros a.
  - cbn [app]. change (zlen []) with 0. rewrite Z.add_0_r. split; [|tauto].
    intros H. split; [apply at_nil; apply H|done].
  - cbn [app]. rewrite !at_cons, IH.
    replace (a + zlen (c :: l)) with (a + 1 + zlen l) by (unfold zlen; cbn [length]; lia). tauto.
Qed.

Lemma at_bound m a l : at_ m a l -> l <> [] -> 0 <= a /\ a + zlen l <= zlen m.
Proof.
  intros [Ha H] Hne. split; [done|].
  destruct (lookup_lt_is_Some_2 l (length l - 1)) as [c E]; [destruct l; [done|cbn; lia]|].
  apply H, lookup_lt_Some in E. destruct l; [done|]. unfold zlen. cbn [length] in *. lia.
Qed.

Lemma at_frame lo hi m m' a l :
  same_outside lo hi m m' -> at_ m a l -> a + zlen l <= lo \/ hi <= a -> at_ m' a l.
Proof.
  intros [_ Hs] [Ha H] Hd. split; [done|]. intros i c E. rewrite Hs; [by apply H|].
  apply lookup_lt_Some in E. unfold zlen in Hd. lia.
Qed.

Lemma same_outside_refl lo hi m : same_outside lo hi m m.
Proof. by split. Qed.

Lemma same_outside_trans lo hi m1 m2 m3 :
  same_outside lo hi m1 m2 -> same_outside lo hi m2 m3 -> same_outside lo hi m1 m3.
Proof.
  intros [L1 H1] [L2 H2]. split; [by rewrite L2|]. intros k Hk. by rewrite H2, H1.
Qed.

Lemma same_outside_weaken lo hi lo' hi' m m' :
  same_outside lo hi m m' -> lo' <= lo -> hi <= hi' -> same_outside lo' hi' m m'.
Proof. intros [L H] H1 H2. split; [done|]. intros k Hk. apply H. lia. Qed.

Lemma same_outside_insert m a v : 0 <= a -> same_outside a (a + 1) m (<[Z.to_nat a := v]> m).
Proof.
  intros Ha. split; [by rewrite length_insert|]. intros k Hk. apply list_lookup_insert_ne. lia.
Qed.

Lemma same_outside_zlen lo hi m m' : same_outside lo hi m m' -> zlen m' = zlen m.
Proof. intros [L _]. unfold zlen. by rewrite L. Qed.

Lemma at_insert m a v : 0 <= a < zlen m -> at_ (<[Z.to_nat a := v]> m) a [v].
Proof.
  intros H. apply at_cons. split; [lia|]. split; [|apply at_nil; lia].
  apply list_lookup_insert_eq. unfold zlen in H. lia.
Qed.

Lemma rd_ok m t a c l : at_ m a (c :: l) -> rd a (mkMem m t) = Ok (c, mkMem m t).
Proof.
  intros (Ha & H & _)%at_cons. unfold rd. cbn [mem_bytes].
  destruct (Z.leb_spec 0 a); [|lia]. by rewrite H.
Qed.

Lemma wr_ok m t a v : 0 <= a < t -> t <= zlen m ->
  wr a v (mkMem m t) = Ok (tt, mkMem (<[Z.to_nat a := v]> m) t).
Proof.
  intros H1 H2. unfold wr. cbn [mem_bytes mem_top]. destruct (Z.leb_spec 0 a); [|lia].
  destruct (Z.ltb_spec a t); [|lia]. destruct (Z.ltb_spec a (zlen m)); [done|lia].
Qed.

Lemma strlen_loop_ok fuel l : forall m t s i,
  at_ m (s + i) (l ++ [0]) -> no_nul l -> (length l < fuel)%nat ->
  strlen_loop fuel s i (mkMem m t) = Ok (i + zlen l, mkMem m t).
Proof.
  revert l. induction fuel as [|fuel IH]; intros l m t s i Ha Hn Hf; [lia|].
  cbn [strlen_loop]. destruct l as [|c l].
  - erewrite bind_ok by (by eapply rd_ok). change (0 =? 0) with true. cbv iota.
    unfold ret. do 2 f_equal. change (zlen []) with 0. lia.
  - erewrite bind_ok by (by eapply rd_ok). apply Forall_cons in Hn as [Hc Hn].
    destruct (Z.eqb_spec c 0); [done|]. cbn [app] in Ha. apply at_cons in Ha as (_ & _ & Ha).
    rewrite (IH l); [|by rewrite Z.add_assoc|done|cbn [length] in Hf; lia].
    do 2 f_equal. unfold zlen. cbn [length]. lia.
Qed.

Lemma strlen_ok m t s l :
  at_ m s (l ++ [0]) -> no_nul l -> strlen s (mkMem m t) = Ok (zlen l, mkMem m t).
Proof.
  intros Ha Hn. unfold strlen. erewrite bind_ok by done. cbn [mem_bytes].
  rewrite (strlen_loop_ok _ l); [done|by rewrite Z.add_0_r|done|].
  apply at_bound in Ha; [|by destruct l]. rewrite zlen_app in Ha. unfold zlen in Ha.
  cbn [length] in Ha. lia.
Qed.

(** Copying forward is right for a destination below its source or away from it. *)
Lemma memcpy_loop_ok n : forall m t dest src l,
  at_ m src l -> length l = n -> 0 <= dest -> dest + zlen l <= t <= zlen m ->
  dest <= src \/ src + zlen l <= dest ->
  exists m', memcpy_loop n dest src (mkMem m t) = Ok (tt, mkMem m' t) /\
    at_ m' dest l /\ same_outside dest (dest + zlen l) m m'.
Proof.
  induction n as [|n IH]; intros m t dest src l Ha Hl Hd Ht Ho.
  - destruct l; [|done]. exists m. split; [done|]. split; [by apply at_nil|apply same_outside_refl].
  - destruct l as [|c l]; [done|]. cbn [length] in Hl. injection Hl as Hl.
    assert (Hz : zlen (c :: l) = 1 + zlen l) by (unfold zlen; cbn [length]; lia).
    pose proof (zlen_nonneg l). rewrite Hz in *. cbn [memcpy_loop].
    erewrite bind_ok by (by eapply rd_ok). erewrite bind_ok by (apply wr_ok; lia).
    apply at_cons in Ha as (Hs & _ & Ha). pose proof (same_outside_insert m dest c Hd) as Hi.
    destruct (IH (<[Z.to_nat dest := c]> m) t (dest + 1) (src + 1) l) as (m' & E & A & S).
    + eapply at_frame; [exact Hi|done|]. lia.
    + done.
    + lia.
    + rewrite (same_outside_zlen _ _ _ _ Hi). lia.
    + lia.
    + exists m'. split; [exact E|]. split.
      * apply at_cons. split; [done|]. split; [|done].
        assert (A1 : at_ m' dest [c]) by (eapply at_frame; [exact S|apply at_insert; lia|
          left; unfold zlen; cbn [length]; lia]).
        by apply at_cons in A1 as (_ & ? & _).
      * eapply same_outside_trans; [eapply same_outside_weaken; [exact Hi|lia..]|].
        eapply same_outside_weaken; [exact S|lia..].
Qed.

Lemma memcpy_ok m t dest src l :
  at_ m src l -> 0 <= dest -> dest + zlen l <= t <= zlen m ->
  dest <= src \/ src + zlen l <= dest ->
  exists m', memcpy dest src (zlen l) (mkMem m t) = Ok (tt, mkMem m' t) /\
    at_ m' dest l /\ same_outside dest (dest + zlen l) m m'.
Proof. intros. apply memcpy_loop_ok; [done|unfold zlen; lia|done..]. Qed.

Lemma memcmp_prefix n s1 s2 :
  (n <= length s2)%nat -> no_nul s2 ->
  memcmp n s1 s2 = 0 <-> take n s2 = take n s1.
Proof.
  revert s1 s2. induction n as [|n IH]; intros s1 s2 Hn Hz; [by rewrite !take_0|].
  destruct s2 as [|c2 s2]; [cbn [length] in Hn; lia|]. apply Forall_cons in Hz as [Hc Hz].
  cbn [memcmp List.hd List.tl]. destruct s1 as [|c1 s1]; cbn [List.hd List.tl].
  - destruct (Z.eqb_spec 0 c2); [congruence|]. cbn [take]. split; [|done].
    by destruct (_ <? _).
  - cbn [take]. destruct (Z.eqb_spec c1 c2) as [->|Hne].
    + rewrite IH by (cbn [length] in *; lia || done). split; [by intros ->|by intros [= ->]].
    + split; [destruct (_ <? _); done|congruence].
Qed.
