(* ===== verification/VfsPath.v ===== *)
(** * Paths of the virtual file system ([filesystems/vfs/vfs_sanitize.cpp], [vfs_mnt.cpp])

    The functions work on byte memory, as the code does, the in-place call of
    [fsSanitizeCopySafe] included; their result is compared with the components
    of a path. *)

From S2P Require Import Prelude Bytes CString.

Definition SLASH : Z := 47.
Definition DOT : Z := 46.

(** The loop of [fsSanitizeCopySafe]; the result is the final [j]. *)
Fixpoint copy_safe_loop (fuel : nat) (filename safeFilename i j : Z) : M Mem Z :=
  match fuel with
  | O => hang
  | S fuel =>
      let copy c :=
        wr (safeFilename + j) c ;;; copy_safe_loop fuel filename safeFilename (i + 1) (j + 1) in
      let! c := rd (filename + i) in
      if c =? 0 then ret j
      else if c =? SLASH then
        let! c1 := rd (filename + i + 1) in
        if c1 =? SLASH then copy_safe_loop fuel filename safeFilename (i + 1) j
        else if c1 =? 0 then copy_safe_loop fuel filename safeFilename (i + 1) j
        else if c1 =? DOT then
          let! c2 := rd (filename + i + 2) in
          if (c2 =? SLASH) || (c2 =? 0)
          then copy_safe_loop fuel filename safeFilename (i + 2) j
          else copy c
        else copy c
      else copy c
  end.

Definition fsSanitizeCopySafe (filename safeFilename : Z) : M Mem unit :=
  let! m := get in
  let! j := copy_safe_loop (S (length (mem_bytes m))) filename safeFilename 0 0 in
  wr (safeFilename + j) 0 ;;;
  if j =? 0 then wr safeFilename SLASH ;;; wr (safeFilename + 1) 0 else ret tt.

(** [for (indexToCopyInto = i - 1; indexToCopyInto >= 0; ...)]: the position of
    the last slash among the first [k] bytes, or -1. *)
Fixpoint slash_before (k : nat) (safeFilename : Z) : M Mem Z :=
  match k with
  | O => ret (-1)
  | S k =>
      let! c := rd (safeFilename + Z.of_nat k) in
      if c =? SLASH then ret (Z.of_nat k) else slash_before k safeFilename
  end.

(** [safeFilename] at [i] reads [/../], or [/..] at the end. *)
Definition at_dotdot (safeFilename i : Z) : M Mem bool :=
  let! c0 := rd (safeFilename + i) in
  if negb (c0 =? SLASH) then ret false else
  let! c1 := rd (safeFilename + i + 1) in
  if negb (c1 =? DOT) then ret false else
  let! c2 := rd (safeFilename + i + 2) in
  if negb (c2 =? DOT) then ret false else
  let! c3 := rd (safeFilename + i + 3) in
  ret ((c3 =? SLASH) || (c3 =? 0)).

(** The fix-up of [..]; the result is the final [finalSize]. *)
Fixpoint dotdot_loop (fuel : nat) (safeFilename finalSize i : Z) : M Mem Z :=
  match fuel with
  | O => hang
  | S fuel =>
      if negb (i <? finalSize) then ret finalSize
      else
        let! found := at_dotdot safeFilename i in
        if found then
          let! idx := slash_before (Z.to_nat i) safeFilename in
          let indexToCopyInto := if idx <? 0 then 0 else idx in
          let lentocopy := u64 (finalSize - indexToCopyInto - 3 + 1) in
          memcpy (safeFilename + indexToCopyInto) (safeFilename + i + 3) lentocopy ;;;
          dotdot_loop fuel safeFilename (finalSize - (i + 3 - indexToCopyInto)) indexToCopyInto
        else dotdot_loop fuel safeFilename finalSize (i + 1)
  end.

(** The name put behind the working directory, both cleaned. *)
Definition sanitize_relative (prefix filename filenameSize : Z) : M Mem Z :=
  let! cwdLen := strlen prefix in
  let! safeFilename := malloc (cwdLen + 1 + filenameSize + 1) in
  memcpy safeFilename prefix cwdLen ;;;
  let! p0 := rd prefix in
  let! offset :=
    if p0 =? SLASH then
      let! p1 := rd (prefix + 1) in
      if negb (p1 =? 0) then wr (safeFilename + cwdLen) SLASH ;;; ret 1 else ret 0
    else ret 0 in
  fsSanitizeCopySafe filename (safeFilename + offset + cwdLen) ;;;
  fsSanitizeCopySafe safeFilename safeFilename ;;;
  wr (safeFilename + cwdLen + offset + filenameSize) 0 ;;;
  ret safeFilename.

Definition sanitize_absolute (filename filenameSize : Z) : M Mem Z :=
  let! safeFilename := malloc (filenameSize + 1) in
  fsSanitizeCopySafe filename safeFilename ;;;
  ret safeFilename.

(** From [size_t finalSize = strlen(safeFilename)] on. *)
Definition sanitize_dotdot (safeFilename : Z) : M Mem Z :=
  let! finalSize := strlen safeFilename in
  let! finalSize := dotdot_loop (Z.to_nat (2 * finalSize) + 1) safeFilename finalSize 0 in
  (if finalSize =? 0 then wr safeFilename SLASH ;;; wr (safeFilename + 1) 0 else ret tt) ;;;
  ret safeFilename.

Definition fsSanitize (prefix filename : Z) : M Mem Z :=
  let! filenameSize := strlen filename in
  let! c := rd filename in
  let! safeFilename :=
    if negb (c =? SLASH) then sanitize_relative prefix filename filenameSize
    else sanitize_absolute filename filenameSize in
  sanitize_dotdot safeFilename.

(** ** Components of a path *)

(** The pieces between the slashes, empty ones included. *)
Fixpoint split (s : list Z) : list (list Z) :=
  match s with
  | [] => [[]]
  | c :: s =>
      if c =? SLASH then [] :: split s
      else match split s with
           | h :: r => (c :: h) :: r
           | [] => [[c]]
           end
  end.

Definition proper (c : list Z) : bool := negb (bool_decide (c = [])) && negb (bool_decide (c = [DOT])).

(** Empty pieces and [.] name nothing. *)
Definition components (s : list Z) : list (list Z) := List.filter proper (split s).

(** [..] drops the component before it, if any. *)
Fixpoint resolve (st cs : list (list Z)) : list (list Z) :=
  match cs with
  | [] => st
  | c :: cs => if bool_decide (c = [DOT; DOT]) then resolve (removelast st) cs else resolve (st ++ [c]) cs
  end.

Definition render (cs : list (list Z)) : list Z := concat (map (cons SLASH) cs).

Definition show (cs : list (list Z)) : list Z := match cs with [] => [SLASH] | _ => render cs end.

Definition absolute (s : list Z) : bool := match s with c :: _ => c =? SLASH | [] => false end.

(** The path [filename] names seen from the directory [cwd]. *)
Definition canonical (cwd filename : list Z) : list (list Z) :=
  resolve [] (components (if absolute filename then filename else cwd ++ SLASH :: filename)).

(** ** The copy loop on strings *)

Fixpoint clean (t : list Z) : list Z :=
  match t with
  | [] => []
  | c :: t' =>
      if c =? SLASH then
        match t' with
        | [] => []
        | c1 :: t'' =>
            if c1 =? SLASH then clean t'
            else if c1 =? DOT then
              match t'' with
              | [] => []
              | c2 :: _ => if c2 =? SLASH then clean t'' else c :: clean t'
              end
            else c :: clean t'
        end
      else c :: clean t'
  end.

Definition clean0 (t : list Z) : list Z := match clean t with [] => [SLASH] | s => s end.

Lemma clean_le t : zlen (clean t) <= zlen t.
Proof.
  induction t as [t IH] using (well_founded_ind (Wf_nat.well_founded_ltof _ (@length Z))).
  destruct t as [|c t']; [done|].
  assert (I1 : zlen (clean t') <= zlen t') by (apply IH; unfold Wf_nat.ltof; cbn; lia).
  assert (Hz : forall x (l : list Z), zlen (x :: l) = 1 + zlen l) by (intros; unfold zlen; cbn [length]; lia).
  cbn [clean]. destruct (c =? SLASH); [|rewrite !Hz; lia].
  destruct t' as [|c1 t'']; [done|]. destruct (c1 =? SLASH); [rewrite Hz; lia|].
  destruct (c1 =? DOT); [|rewrite (Hz c), Hz; lia]. destruct t'' as [|c2 t3]; [done|].
  destruct (c2 =? SLASH); [|rewrite (Hz c), Hz; lia].
  transitivity (zlen (c2 :: t3)); [apply IH; unfold Wf_nat.ltof; cbn; lia|rewrite !Hz; lia].
Qed.

(** What the loop reads at a position is the rest of the string with its end. *)
Definition rest_at (m : list Z) (a : Z) (t : list Z) : Prop := at_ m a (t ++ [0]) /\ no_nul t.

Lemma rest_tail m a c t : rest_at m a (c :: t) -> rest_at m (a + 1) t.
Proof.
  intros [Ha Hn]. apply Forall_cons in Hn as [_ Hn]. split; [|done]. by apply at_cons in Ha as (_ & _ & ?).
Qed.

Lemma rest_rd m top a t : rest_at m a t -> rd a (mkMem m top) = Ok (List.hd 0 t, mkMem m top).
Proof. intros [Ha _]. destruct t; by eapply rd_ok. Qed.

Lemma rest_hd m a t : rest_at m a t -> (List.hd 0 t =? 0) = bool_decide (t = []).
Proof.
  intros [_ Hn]. destruct t as [|c t]; [done|]. apply Forall_cons in Hn as [Hc _]. cbn [List.hd].
  rewrite bool_decide_eq_false_2 by done. by apply Z.eqb_neq.
Qed.

Lemma rest_frame lo hi m m' a t :
  same_outside lo hi m m' -> rest_at m a t -> a + zlen t < lo \/ hi <= a -> rest_at m' a t.
Proof.
  intros Hs [Ha Hn] Hd. split; [|done]. eapply at_frame; [done|done|].
  rewrite zlen_app. change (zlen [0]) with 1. lia.
Qed.


(** One turn of the copy loop, on the string. *)
Definition copy_turn (t : list Z) : option (option Z * list Z) :=
  match t with
  | [] => None
  | c :: t' =>
      if c =? SLASH then
        if List.hd 0 t' =? SLASH then Some (None, t')
        else if List.hd 0 t' =? 0 then Some (None, t')
        else if List.hd 0 t' =? DOT then
          if (List.hd 0 (List.tl t') =? SLASH) || (List.hd 0 (List.tl t') =? 0)
          then Some (None, List.tl t') else Some (Some c, t')
        else Some (Some c, t')
      else Some (Some c, t')
  end.

Lemma clean_turn t : no_nul t ->
  clean t = match copy_turn t with
            | None => []
            | Some (None, t') => clean t'
            | Some (Some c, t') => c :: clean t'
            end.
Proof.
  intros Hn. destruct t as [|c t']; [done|]. cbn [clean copy_turn]. destruct (c =? SLASH); [|done].
  apply Forall_cons in Hn as [_ Hn]. destruct t' as [|c1 t'']; [done|]. cbn [List.hd List.tl].
  apply Forall_cons in Hn as [H1 Hn]. destruct (c1 =? SLASH); [done|].
  destruct (Z.eqb_spec c1 0); [done|]. destruct (c1 =? DOT); [|done].
  destruct t'' as [|c2 t3]; [done|]. apply Forall_cons in Hn as [H2 _]. cbn [List.hd].
  destruct (Z.eqb_spec c2 0); [done|]. rewrite orb_false_r. by destruct (c2 =? SLASH).
Qed.

Lemma copy_turn_rest m a t o t' :
  rest_at m a t -> copy_turn t = Some (o, t') ->
  rest_at m (a + zlen t - zlen t') t' /\ zlen t' < zlen t /\ (is_Some o -> zlen t' = zlen t - 1).
Proof.
  intros H E. destruct t as [|c t0]; [done|].
  assert (K : t' = t0 \/ (o = None /\ exists c1, t0 = c1 :: t')).
  { cbn [copy_turn] in E. destruct (c =? SLASH); [|left; congruence].
    destruct (List.hd 0 t0 =? SLASH); [left; congruence|].
    destruct (Z.eqb_spec (List.hd 0 t0) 0) as [|Hh]; [left; congruence|].
    destruct (List.hd 0 t0 =? DOT); [|left; congruence]. destruct (_ || _); [|left; congruence].
    destruct t0 as [|c1 t2]; [done|]. right. injection E as <- <-. split; [done|by exists c1]. }
  destruct K as [->|[-> [c1 ->]]]; rewrite !zlen_cons; split_and!; try lia.
  - apply rest_tail in H. by replace (a + (1 + zlen t0) - zlen t0) with (a + 1) by lia.
  - apply rest_tail, rest_tail in H.
    by replace (a + (1 + (1 + zlen t')) - zlen t') with (a + 1 + 1) by lia.
  - by intros [? [=]].
Qed.

Lemma copy_safe_turn fuel m top f s i j t :
  rest_at m (f + i) t ->
  copy_safe_loop (S fuel) f s i j (mkMem m top) =
  match copy_turn t with
  | None => Ok (j, mkMem m top)
  | Some (None, t') => copy_safe_loop fuel f s (i + zlen t - zlen t') j (mkMem m top)
  | Some (Some c, t') =>
      (wr (s + j) c ;;; copy_safe_loop fuel f s (i + 1) (j + 1)) (mkMem m top)
  end.
Proof.
  intros H. cbn [copy_safe_loop]. erewrite bind_ok by (by apply rest_rd).
  rewrite (rest_hd _ _ _ H). destruct t as [|c t0]; [done|].
  rewrite bool_decide_eq_false_2 by done. cbn [List.hd copy_turn].
  destruct (c =? SLASH); [|done]. pose proof (rest_tail _ _ _ _ H) as H1.
  erewrite bind_ok by (by apply rest_rd).
  assert (Hi : i + zlen (c :: t0) - zlen t0 = i + 1) by (rewrite zlen_cons; lia).
  destruct (List.hd 0 t0 =? SLASH); [by rewrite Hi|].
  destruct (Z.eqb_spec (List.hd 0 t0) 0) as [|Hh]; [by rewrite Hi|].
  destruct (List.hd 0 t0 =? DOT); [|done]. destruct t0 as [|c1 t2]; [done|].
  pose proof (rest_tail _ _ _ _ H1) as H2. cbn [List.tl].
  replace (f + i + 1 + 1) with (f + i + 2) in H2 by lia.
  erewrite bind_ok by (by apply rest_rd). destruct (_ || _); [|done].
  by replace (i + zlen (c :: c1 :: t2) - zlen t2) with (i + 2) by (rewrite !zlen_cons; lia).
Qed.

Lemma copy_safe_loop_ok fuel : forall m top f s i j t,
  rest_at m (f + i) t -> zlen t < Z.of_nat fuel -> 0 <= s + j ->
  s + j + zlen (clean t) <= top <= zlen m ->
  s + j <= f + i \/ f + i + zlen t < s + j ->
  exists m', copy_safe_loop fuel f s i j (mkMem m top) = Ok (j + zlen (clean t), mkMem m' top) /\
    at_ m' (s + j) (clean t) /\ same_outside (s + j) (s + j + zlen (clean t)) m m'.
Proof.
  induction fuel as [|fuel IH]; intros m top f s i j t H Hf Hj Ht Ho; [pose proof (zlen_nonneg t); lia|].
  rewrite (copy_safe_turn fuel m top f s i j t H). pose proof (clean_turn t (proj2 H)) as Hc.
  destruct (copy_turn t) as [[o t']|] eqn:E.
  2:{ rewrite Hc. exists m. change (zlen []) with 0. rewrite !Z.add_0_r.
      split; [done|]. split; [by apply at_nil|apply same_outside_refl]. }
  destruct (copy_turn_rest _ _ _ _ _ H E) as (H' & Hl & Hs). destruct o as [c|].
  2:{ rewrite Hc in *. apply IH; [|lia..].
      by replace (f + (i + zlen t - zlen t')) with (f + i + zlen t - zlen t') by lia. }
  rewrite Hc, zlen_cons in *. pose proof (zlen_nonneg (clean t')). specialize (Hs ltac:(by eexists)).
  erewrite bind_ok by (apply wr_ok; lia).
  pose proof (same_outside_insert m (s + j) c Hj) as Hi.
  destruct (IH (<[Z.to_nat (s + j) := c]> m) top f s (i + 1) (j + 1) t') as (m' & E' & A & S);
    [|lia|lia|rewrite (same_outside_zlen _ _ _ _ Hi); lia|lia|].
  { eapply rest_frame; [exact Hi| |lia].
    by replace (f + (i + 1)) with (f + i + zlen t - zlen t') by lia. }
  exists m'. split; [rewrite E'; do 2 f_equal; lia|]. rewrite Z.add_assoc in A, S. split.
  - assert (A1 : at_ m' (s + j) [c]) by (eapply at_frame; [exact S|apply at_insert; lia|
      left; change (zlen [c]) with 1; lia]).
    apply (at_app _ _ [c]). split; [done|]. by change (zlen [c]) with 1.
  - eapply same_outside_trans; eapply same_outside_weaken; [exact Hi|lia|lia|exact S|lia..].
Qed.

Lemma fsSanitizeCopySafe_ok m top f s t :
  rest_at m f t -> 0 <= s -> s + zlen (clean0 t) + 1 <= top <= zlen m ->
  s <= f \/ f + zlen t < s ->
  exists m', fsSanitizeCopySafe f s (mkMem m top) = Ok (tt, mkMem m' top) /\
    at_ m' s (clean0 t ++ [0]) /\ same_outside s (s + zlen (clean0 t) + 1) m m'.
Proof.
  intros H Hs Ht Ho.
  assert (Hcl : zlen (clean t) <= zlen (clean0 t)) by (unfold clean0; by destruct (clean t)).
  pose proof (zlen_nonneg (clean t)) as Hc0.
  destruct (copy_safe_loop_ok (S (length m)) m top f s 0 0 t) as (m1 & E1 & A1 & S1).
  { by rewrite Z.add_0_r. }
  { destruct H as [Ha _]. apply at_bound in Ha; [|by destruct t].
    rewrite zlen_app in Ha. change (zlen [0]) with 1 in Ha. unfold zlen in *. lia. }
  1-3: lia.
  rewrite !Z.add_0_r, ?Z.add_0_l in *. unfold fsSanitizeCopySafe. erewrite bind_ok by done.
  cbn [mem_bytes]. mrw E1. pose proof (same_outside_zlen _ _ _ _ S1) as L1.
  erewrite bind_ok by (apply wr_ok; lia).
  pose proof (same_outside_insert m1 (s + zlen (clean t)) 0 ltac:(lia)) as Hi.
  set (m2 := <[_ := 0]> m1) in *. pose proof (same_outside_zlen _ _ _ _ Hi) as L2.
  assert (S2 : same_outside s (s + zlen (clean t) + 1) m m2).
  { eapply same_outside_trans; eapply same_outside_weaken; [exact S1|lia|lia|exact Hi|lia..]. }
  unfold clean0 in *. destruct (clean t) as [|c l] eqn:Ec.
  - change (zlen [] =? 0) with true. change (zlen [SLASH]) with 1 in *. cbv iota.
    erewrite bind_ok by (apply wr_ok; lia).
    pose proof (same_outside_insert m2 s SLASH ltac:(lia)) as Hi3.
    set (m3 := <[_ := SLASH]> m2) in *. pose proof (same_outside_zlen _ _ _ _ Hi3) as L3.
    rewrite wr_ok by lia. eexists. split; [done|].
    pose proof (same_outside_insert m3 (s + 1) 0 ltac:(lia)) as Hi4. split.
    + apply at_app. change (zlen [SLASH]) with 1. split; [|apply at_insert; lia].
      eapply at_frame; [exact Hi4|apply at_insert; lia|change (zlen [SLASH]) with 1; lia].
    + eapply same_outside_trans; [eapply same_outside_weaken; [exact S2|lia|change (zlen []) with 0; lia]|].
      eapply same_outside_trans; eapply same_outside_weaken; [exact Hi3|lia|lia|exact Hi4|lia..].
  - destruct (Z.eqb_spec (zlen (c :: l)) 0) as [Hz|_];
      [rewrite zlen_cons in Hz; pose proof (zlen_nonneg l); lia|].
    exists m2. split; [done|]. split; [|done]. apply at_app. split.
    + eapply at_frame; [exact Hi|exact A1|lia].
    + apply at_insert; lia.
Qed.

(** ** Cleaning keeps the proper components *)

Definition piece (c : list Z) : Prop := Forall (fun x => x <> SLASH) c.

(** The end of a piece: the end of the string or a slash. *)
Definition slash_led (t : list Z) : Prop := t = [] \/ exists t', t = SLASH :: t'.

Lemma render_app cs ds : render (cs ++ ds) = render cs ++ render ds.
Proof. unfold render. by rewrite map_app, concat_app. Qed.

Lemma render_cons c cs : render (c :: cs) = SLASH :: c ++ render cs.
Proof. done. Qed.

Lemma render_slash_led cs : slash_led (render cs).
Proof. destruct cs as [|c cs]; [by left|right]. by eexists. Qed.

Lemma split_spec s : exists c cs, split s = c :: cs /\ piece c /\ Forall piece cs /\ s = c ++ render cs.
Proof.
  induction s as [|x s (c & cs & E & Hc & Hcs & ->)];
    [exists [], []; split_and!; by try apply Forall_nil|].
  cbn [split]. destruct (Z.eqb_spec x SLASH) as [->|Hx].
  - exists [], (split (c ++ render cs)). rewrite E. split; [done|].
    split; [by apply Forall_nil|]. split; [by apply Forall_cons|done].
  - rewrite E. exists (x :: c), cs. split; [done|]. split; [by apply Forall_cons|done].
Qed.

Lemma split_render c cs : piece c -> Forall piece cs -> split (c ++ render cs) = c :: cs.
Proof.
  intros Hc Hcs. revert c Hc. induction Hcs as [|d cs Hd Hcs IH]; intros c Hc.
  - change (render []) with (@nil Z). rewrite app_nil_r. induction Hc as [|x c Hx Hc IHc]; [done|].
    cbn [split]. destruct (Z.eqb_spec x SLASH); [done|]. by rewrite IHc.
  - induction Hc as [|x c Hx Hc IHc].
    + rewrite render_cons. cbn [app split]. change (SLASH =? SLASH) with true. cbv iota. by rewrite IH.
    + cbn [app split]. destruct (Z.eqb_spec x SLASH); [done|]. by rewrite IHc.
Qed.

Lemma clean_piece c t : piece c -> slash_led t -> clean (c ++ t) = c ++ clean t.
Proof.
  intros Hc _. induction Hc as [|x c Hx Hc IH]; [done|]. cbn [app clean].
  destruct (Z.eqb_spec x SLASH); [done|]. by rewrite IH.
Qed.

Lemma clean_slash_piece c t :
  piece c -> slash_led t ->
  clean (SLASH :: c ++ t) = if proper c then SLASH :: c ++ clean t else clean t.
Proof.
  intros Hc Ht. cbn [clean]. change (SLASH =? SLASH) with true. cbv iota.
  destruct c as [|x c].
  { cbn [app]. change (proper []) with false. destruct Ht as [->|[t' ->]]; done. }
  pose proof (clean_piece (x :: c) t Hc Ht) as E. apply Forall_cons in Hc as [Hx Hc].
  cbn [app] in *. destruct (Z.eqb_spec x SLASH); [done|]. rewrite E.
  unfold proper. rewrite bool_decide_eq_false_2 by done. cbn [negb andb].
  destruct (Z.eqb_spec x DOT) as [->|Hd].
  - destruct c as [|y c].
    + rewrite bool_decide_eq_true_2 by done. cbn [app negb]. by destruct Ht as [->|[t' ->]].
    + apply Forall_cons in Hc as [Hy _]. rewrite bool_decide_eq_false_2 by done. cbn [app negb].
      by destruct (Z.eqb_spec y SLASH).
  - by rewrite bool_decide_eq_false_2 by congruence.
Qed.

Lemma clean_render cs : Forall piece cs -> clean (render cs) = render (List.filter proper cs).
Proof.
  induction 1 as [|c cs Hc Hcs IH]; [done|]. rewrite render_cons, clean_slash_piece by
    (done || apply render_slash_led). cbn [List.filter]. rewrite IH. by destruct (proper c).
Qed.

Lemma filter_idem_bool {A} (f : A -> bool) l : List.filter f (List.filter f l) = List.filter f l.
Proof.
  induction l as [|x l IH]; [done|]. cbn [List.filter]. destruct (f x) eqn:E; [|done].
  cbn [List.filter]. by rewrite E, IH.
Qed.

Lemma absolute_split s : absolute s = true -> exists cs, split s = [] :: cs /\ Forall piece cs /\ s = render cs.
Proof.
  intros Ha. destruct (split_spec s) as (c & cs & E & Hc & Hcs & ->). destruct c as [|x c].
  - by exists cs.
  - cbn in Ha. apply Forall_cons in Hc as [Hx _]. apply Z.eqb_eq in Ha. done.
Qed.

(** A path that starts with a slash becomes its proper components. *)
Lemma clean0_absolute s : absolute s = true -> clean0 s = show (components s).
Proof.
  intros Ha. destruct (absolute_split s Ha) as (cs & E & Hcs & ->).
  unfold clean0, components. rewrite E, clean_render by done. cbn [List.filter].
  change (proper []) with false. cbv iota. by destruct (List.filter proper cs).
Qed.

(** The working directory, a slash unless it is the root, and a cleaned relative
    name have the components of the two joined. *)
Lemma clean0_relative p sep f :
  absolute p = true -> absolute f = false -> f <> [] ->
  sep = (if bool_decide (p = [SLASH]) then [] else [SLASH]) ->
  clean0 (p ++ sep ++ clean0 f) = show (components (p ++ SLASH :: f)) /\
  components (p ++ sep ++ clean0 f) = components (p ++ SLASH :: f).
Proof.
  intros Hp Hf Hne Hsep. destruct (absolute_split p Hp) as (ps & Ep & Hps & ->).
  destruct (split_spec f) as (c & cs & Ef & Hc & Hcs & ->). destruct c as [|x c].
  { destruct cs; [done|]. rewrite render_cons in Hf. done. }
  assert (E0 : clean0 ((x :: c) ++ render cs) = (x :: c) ++ render (List.filter proper cs)).
  { unfold clean0. rewrite clean_piece, clean_render by (done || apply render_slash_led). done. }
  assert (Hcs' : Forall piece (List.filter proper cs)).
  { apply List.Forall_forall. intros d Hd. apply List.filter_In in Hd as [Hd _].
    by eapply (proj1 (List.Forall_forall _ _) Hcs). }
  assert (G : forall qs ds, Forall piece qs -> Forall piece ds ->
    components (render qs ++ SLASH :: (x :: c) ++ render ds) = List.filter proper (qs ++ (x :: c) :: ds)).
  { intros qs ds Hqs Hds. replace (render qs ++ SLASH :: (x :: c) ++ render ds)
      with (render (qs ++ (x :: c) :: ds)) by (by rewrite render_app, render_cons).
    unfold components. rewrite <- (app_nil_l (render _)), split_render; [done|by apply Forall_nil|].
    apply Forall_app. split; [done|]. by apply Forall_cons. }
  assert (K : components (render ps ++ sep ++ clean0 ((x :: c) ++ render cs)) =
              components (render ps ++ SLASH :: (x :: c) ++ render cs)).
  { rewrite G, E0 by done. subst sep. case_bool_decide as Hr.
    - destruct ps as [|q ps]; [done|]. rewrite render_cons in Hr.
      injection Hr as Hr. apply app_eq_nil in Hr as [-> Hr]. destruct ps; [|done].
      cbn [app]. change (render [[]] ++ x :: c ++ render (List.filter proper cs))
        with (render [] ++ SLASH :: (x :: c) ++ render (List.filter proper cs)).
      rewrite G by done. cbn [app List.filter]. change (proper []) with false. cbv iota.
      destruct (proper (x :: c)); by rewrite ?filter_idem_bool.
    - cbn [app]. change (SLASH :: x :: c ++ ?l) with (SLASH :: (x :: c) ++ l). rewrite G by done.
      rewrite !List.filter_app. f_equal. cbn [List.filter]. by rewrite filter_idem_bool. }
  split; [|done]. rewrite <- K. apply clean0_absolute.
  destruct ps; [done|]. by rewrite render_cons.
Qed.

(** ** The fix-up of [..] *)

Definition comp (c : list Z) : Prop := piece c /\ no_nul c.

Lemma at_dotdot_piece m top s i c rest :
  at_ m (s + i) (SLASH :: c ++ render rest ++ [0]) -> comp c ->
  at_dotdot s i (mkMem m top) = Ok (bool_decide (c = [DOT; DOT]), mkMem m top).
Proof.
  intros Ha [Hp Hn].
  assert (exists x X, render rest ++ [0] = x :: X /\ (x = SLASH \/ x = 0)) as (x & X & EX & Hx).
  { destruct rest as [|d rest]; [by exists 0, []; auto|]. rewrite render_cons. eexists _, _. split; [done|by left]. }
  rewrite EX in Ha. unfold at_dotdot. erewrite bind_ok by (by eapply rd_ok).
  change (negb (SLASH =? SLASH)) with false. cbv iota. apply at_cons in Ha as (_ & _ & Ha).
  destruct c as [|a c]; cbn [app] in Ha.
  { erewrite bind_ok by (by eapply rd_ok). by destruct Hx as [-> | ->]. }
  erewrite bind_ok by (by eapply rd_ok). apply at_cons in Ha as (_ & _ & Ha).
  destruct (Z.eqb_spec a DOT) as [->|Hd]; cbn [negb];
    [|rewrite bool_decide_eq_false_2 by congruence; done].
  replace (s + i + 1 + 1) with (s + i + 2) in Ha by lia.
  destruct c as [|b c]; cbn [app] in Ha.
  { erewrite bind_ok by (by eapply rd_ok). by destruct Hx as [-> | ->]. }
  erewrite bind_ok by (by eapply rd_ok). apply at_cons in Ha as (_ & _ & Ha).
  destruct (Z.eqb_spec b DOT) as [->|Hd]; cbn [negb];
    [|rewrite bool_decide_eq_false_2 by congruence; done].
  replace (s + i + 2 + 1) with (s + i + 3) in Ha by lia.
  destruct c as [|d c]; cbn [app] in Ha.
  { erewrite bind_ok by (by eapply rd_ok). by destruct Hx as [-> | ->]. }
  erewrite bind_ok by (by eapply rd_ok). rewrite bool_decide_eq_false_2 by done.
  do 2 apply Forall_cons in Hp as [_ Hp]. do 2 apply Forall_cons in Hn as [_ Hn].
  apply Forall_cons in Hp as [Hp _]. apply Forall_cons in Hn as [Hn _].
  by destruct (Z.eqb_spec d SLASH), (Z.eqb_spec d 0).
Qed.

Lemma dotdot_skip c : forall fuel m top s n i,
  at_ m (s + i) c -> piece c -> i + zlen c <= n ->
  dotdot_loop (length c + fuel) s n i (mkMem m top) =
  dotdot_loop fuel s n (i + zlen c) (mkMem m top).
Proof.
  induction c as [|x c IH]; intros fuel m top s n i Ha Hp Hn.
  - change (zlen []) with 0. by rewrite Z.add_0_r.
  - rewrite zlen_cons in Hn. pose proof (zlen_nonneg c). cbn [length Nat.add dotdot_loop].
    destruct (Z.ltb_spec i n); [|lia]. cbn [negb]. apply Forall_cons in Hp as [Hx Hp].
    erewrite bind_ok by (unfold at_dotdot; erewrite bind_ok by (by eapply rd_ok);
      rewrite (proj2 (Z.eqb_neq _ _) Hx); reflexivity).
    apply at_cons in Ha as (_ & _ & Ha). cbv iota.
    rewrite IH; [|by rewrite Z.add_assoc|done|lia]. f_equal. rewrite zlen_cons. lia.
Qed.

Lemma slash_before_skip c : forall m top s l,
  at_ m s (l ++ c) -> piece c ->
  slash_before (length (l ++ c)) s (mkMem m top) = slash_before (length l) s (mkMem m top).
Proof.
  induction c as [|x c IH] using rev_ind; intros m top s l Ha Hp; [by rewrite app_nil_r|].
  apply Forall_app in Hp as [Hp Hx]. apply Forall_cons in Hx as [Hx _].
  rewrite (assoc_L (++)) in *. rewrite length_app. cbn [length]. rewrite Nat.add_1_r. cbn [slash_before].
  apply at_app in Ha as [Ha Hl]. fold (zlen (l ++ c)). erewrite bind_ok by (by eapply rd_ok).
  rewrite (proj2 (Z.eqb_neq _ _) Hx). by apply IH.
Qed.

Lemma slash_before_render m top s st :
  at_ m s (render st) -> Forall comp st -> exists k,
  slash_before (length (render st)) s (mkMem m top) = Ok (k, mkMem m top) /\
  (if k <? 0 then 0 else k) = zlen (render (removelast st)).
Proof.
  intros Ha Hc. destruct st as [|c st _] using rev_ind; [by exists (-1)|].
  apply Forall_app in Hc as [_ Hc]. apply Forall_cons in Hc as [[Hp _] _].
  rewrite removelast_last. rewrite render_app in *. change (render [c]) with (SLASH :: c ++ []) in *.
  rewrite app_nil_r in *.
  replace (render st ++ SLASH :: c) with ((render st ++ [SLASH]) ++ c) in * by (by rewrite <- (assoc_L (++))).
  rewrite slash_before_skip by done. rewrite length_app. cbn [length]. rewrite Nat.add_1_r.
  cbn [slash_before]. apply at_app in Ha as [Ha _]. apply at_app in Ha as [_ Ha].
  fold (zlen (render st)). erewrite bind_ok by (by eapply rd_ok).
  exists (zlen (render st)). split; [done|]. pose proof (zlen_nonneg (render st)).
  by destruct (Z.ltb_spec (zlen (render st)) 0); [lia|].
Qed.

Lemma at_extend m a l k :
  at_ m a l -> zlen l <= k -> a + k <= zlen m ->
  exists j, at_ m a (l ++ j) /\ zlen (l ++ j) = k.
Proof.
  intros Ha Hl Hk. assert (H0 : 0 <= a) by apply Ha. pose proof (zlen_nonneg l).
  exists (slice (a + zlen l) (k - zlen l) m). split.
  - apply at_app. split; [done|]. split; [lia|]. intros i c E.
    rewrite slice_lookup in E by lia. destruct (decide _) in E; [|done]. rewrite <- E. f_equal; lia.
  - rewrite zlen_app, zlen_slice by lia. lia.
Qed.

Lemma removelast_comp st : Forall comp st -> Forall comp (removelast st).
Proof.
  intros H. destruct st as [|c st _] using rev_ind; [done|]. rewrite removelast_last.
  by apply Forall_app in H as [? _].
Qed.

Lemma removelast_le st : zlen (render (removelast st)) <= zlen (render st).
Proof.
  destruct st as [|c st _] using rev_ind; [done|]. rewrite removelast_last, render_app, zlen_app.
  pose proof (zlen_nonneg (render [c])). lia.
Qed.

Lemma dotdot_loop_ok cs : forall st fuel m top s n,
  Forall comp st -> Forall comp cs -> at_ m s (render st ++ render cs ++ [0]) ->
  n = zlen (render st) + zlen (render cs) -> 2 * n - zlen (render st) < Z.of_nat fuel ->
  s + n + 1 <= top <= zlen m -> s + 2 * n + 2 <= zlen m -> n < 2 ^ 63 ->
  exists m', dotdot_loop fuel s n (zlen (render st)) (mkMem m top) =
      Ok (zlen (render (resolve st cs)), mkMem m' top) /\
    at_ m' s (render (resolve st cs) ++ [0]) /\ same_outside s (s + n + 1) m m'.
Proof.
  induction cs as [|c cs IH]; intros st fuel m top s n Hst Hcs Ha Hn Hf Ht Hm H63;
    pose proof (zlen_nonneg (render st)) as Z1;
    [pose proof (zlen_nonneg (render [])) as Z0|pose proof (zlen_nonneg (render (c :: cs))) as Z0];
    (destruct fuel as [|fuel]; [lia|]); cbn [dotdot_loop].
  - change (zlen (render [])) with 0 in *. rewrite (proj2 (Z.ltb_ge _ _)) by lia. cbn [negb].
    exists m. cbn [resolve]. replace n with (zlen (render st)) by lia.
    split; [done|]. split; [exact Ha|apply same_outside_refl].
  - apply Forall_cons in Hcs as [Hc Hcs]. rewrite render_cons, zlen_cons, zlen_app in Hn.
    pose proof (zlen_nonneg (render cs)) as Z2. pose proof (zlen_nonneg c) as Z3.
    rewrite (proj2 (Z.ltb_lt _ _)) by lia. cbn [negb].
    apply at_app in Ha as [Hl Hr]. rewrite render_cons in Hr. cbn [app] in Hr. rewrite <- (assoc_L (++)) in Hr.
    assert (Hs : 0 <= s) by apply Hl.
    erewrite bind_ok by (by eapply at_dotdot_piece). cbn [resolve].
    apply at_cons in Hr as (_ & Hsl & Hr). apply at_app in Hr as [Hr1 Hr2]. case_bool_decide as Hdd.
    + subst c. change (zlen [DOT; DOT]) with 2 in *.
      replace (Z.to_nat (zlen (render st))) with (length (render st)) by (unfold zlen; lia).
      destruct (slash_before_render m top s st Hl Hst) as (k & Ek & Hk). mrw Ek. rewrite Hk.
      pose proof (removelast_le st) as Hle. pose proof (removelast_comp st Hst) as Hst'.
      assert (Hl' : at_ m s (render (removelast st))).
      { destruct st as [|d st _] using rev_ind; [done|]. rewrite removelast_last.
        rewrite render_app in Hl. by apply at_app in Hl as [? _]. }
      set (st' := removelast st) in *. pose proof (zlen_nonneg (render st')) as Z4.
      rewrite u64_small by lia. cbv zeta.
      destruct (at_extend m (s + zlen (render st) + 3) (render cs ++ [0]) (n - zlen (render st') - 3 + 1))
        as (j & Aj & Lj); [by replace (s + zlen (render st) + 3) with (s + zlen (render st) + 1 + 2) by lia| |lia|].
      { rewrite zlen_app. change (zlen [0]) with 1. lia. }
      destruct (memcpy_ok m top (s + zlen (render st')) (s + zlen (render st) + 3) _ Aj)
        as (m1 & E1 & A1 & S1); [lia..|].
      rewrite Lj in E1, S1. mrw E1. pose proof (same_outside_zlen _ _ _ _ S1) as L1.
      apply at_app in A1 as [A1 _].
      destruct (IH st' fuel m1 top s (n - (zlen (render st) + 3 - zlen (render st'))))
        as (m' & E' & A' & S'); [done|done| |lia|lia|lia|lia|lia|].
      { apply at_app. split; [|done]. eapply at_frame; [exact S1|exact Hl'|lia]. }
      exists m'. split; [exact E'|]. split; [done|].
      eapply same_outside_trans; eapply same_outside_weaken; [exact S1|lia|lia|exact S'|lia..].
    + replace fuel with (length c + (fuel - length c))%nat by (unfold zlen in *; lia).
      rewrite dotdot_skip; [|by rewrite Z.add_assoc|apply Hc|lia].
      assert (Hrc : zlen (render (st ++ [c])) = zlen (render st) + 1 + zlen c).
      { rewrite render_app, zlen_app. change (render [c]) with (SLASH :: c ++ []).
        rewrite app_nil_r, zlen_cons. lia. }
      rewrite <- Hrc. apply IH; [|done| |lia|unfold zlen in *; lia|lia..].
      * apply Forall_app. split; [done|]. by apply Forall_cons.
      * rewrite render_app. change (render [c]) with (SLASH :: c ++ []). rewrite app_nil_r.
        rewrite <- (assoc_L (++)). apply at_app. split; [done|]. cbn [app]. apply at_cons.
        split; [lia|]. split; [done|apply at_app; by split].
Qed.

Lemma split_comp s : no_nul s -> Forall comp (split s).
Proof.
  intros Hn. destruct (split_spec s) as (c & cs & -> & Hc & Hcs & ->).
  apply Forall_app in Hn as [Hn1 Hn2]. apply Forall_cons. split; [done|].
  induction Hcs as [|d cs Hd Hcs IH]; [by apply Forall_nil|]. rewrite render_cons in Hn2.
  apply Forall_cons in Hn2 as [_ Hn2]. apply Forall_app in Hn2 as [Hn2 Hn3].
  apply Forall_cons. split; [done|]. by apply IH.
Qed.

Lemma components_comp s : no_nul s -> Forall comp (components s).
Proof.
  intros Hn. apply split_comp in Hn. apply List.Forall_forall. intros c Hc.
  apply List.filter_In in Hc as [Hc _]. by eapply (proj1 (List.Forall_forall _ _) Hn).
Qed.

Lemma show_no_nul cs : Forall comp cs -> no_nul (show cs).
Proof.
  intros H. assert (G : no_nul (render cs)).
  { induction H as [|c cs [_ Hc] Hcs IH]; [by apply Forall_nil|]. rewrite render_cons.
    apply Forall_cons. split; [done|]. apply Forall_app. by split. }
  destruct cs; [|done]. by apply Forall_singleton.
Qed.

Lemma resolve_comp cs : forall st, Forall comp st -> Forall comp cs -> Forall comp (resolve st cs).
Proof.
  induction cs as [|c cs IH]; intros st Hst Hcs; [done|]. apply Forall_cons in Hcs as [Hc Hcs].
  cbn [resolve]. case_bool_decide; apply IH; [by apply removelast_comp|done| |done].
  apply Forall_app. split; [done|]. by apply Forall_singleton.
Qed.

(** From a cleaned path on: the components without [..]. *)
Lemma sanitize_dotdot_ok m top s cs :
  at_ m s (show cs ++ [0]) -> Forall comp cs ->
  s + zlen (show cs) + 1 <= top <= zlen m -> s + 2 * zlen (show cs) + 2 <= zlen m ->
  zlen (show cs) < 2 ^ 63 ->
  exists m', sanitize_dotdot s (mkMem m top) = Ok (s, mkMem m' top) /\
    at_ m' s (show (resolve [] cs) ++ [0]) /\ same_outside s (s + zlen (show cs) + 1) m m'.
Proof.
  intros Ha Hc Ht Hm H63. assert (Hs : 0 <= s) by apply Ha. unfold sanitize_dotdot.
  erewrite bind_ok by (eapply strlen_ok; [exact Ha|by apply show_no_nul]).
  assert (exists ds, Forall comp ds /\ show cs = render ds /\ ds <> [] /\
    (resolve [] ds = resolve [] cs \/ (ds = [[]] /\ cs = []))) as (ds & Hd & E & Hne & Hr).
  { destruct cs as [|c cs]; [|exists (c :: cs); by eauto]. exists [[]].
    split_and!; [|done|done|by right]. apply Forall_singleton. split; by apply Forall_nil. }
  rewrite E in *. pose proof (zlen_nonneg (render ds)).
  destruct (dotdot_loop_ok ds [] (Z.to_nat (2 * zlen (render ds)) + 1) m top s (zlen (render ds)))
    as (m1 & E1 & A1 & S1); [by apply Forall_nil|done|exact Ha|done| |lia|lia|lia|].
  { change (zlen (render [])) with 0. lia. }
  change (zlen (render [])) with 0 in E1. mrw E1.
  pose proof (same_outside_zlen _ _ _ _ S1) as L1.
  assert (Hl : 1 <= zlen (render ds)).
  { destruct ds as [|d ds]; [done|]. rewrite render_cons, zlen_cons.
    pose proof (zlen_nonneg (d ++ render ds)). lia. }
  destruct (resolve [] ds) as [|d rs] eqn:Er.
  - change (zlen (render []) =? 0) with true. cbv iota.
    destruct Hr as [Hr|[-> _]]; [|done]. rewrite <- Hr.
    assert (A2 : exists m', (wr s SLASH ;;; wr (s + 1) 0) (mkMem m1 top) = Ok (tt, mkMem m' top) /\
      at_ m' s [SLASH; 0] /\ same_outside s (s + 2) m1 m').
    { pose proof (same_outside_insert m1 s SLASH Hs) as I1.
      erewrite bind_ok by (apply wr_ok; lia). set (m2 := <[_ := _]> m1) in *.
      pose proof (same_outside_zlen _ _ _ _ I1). rewrite wr_ok by lia. eexists. split; [done|].
      pose proof (same_outside_insert m2 (s + 1) 0 ltac:(lia)) as I2. split.
      - apply (at_app _ _ [SLASH]). change (zlen [SLASH]) with 1. split; [|apply at_insert; lia].
        eapply at_frame; [exact I2|apply at_insert; lia|left; change (zlen [SLASH]) with 1; lia].
      - eapply same_outside_trans; eapply same_outside_weaken; [exact I1|lia|lia|exact I2|lia..]. }
    destruct A2 as (m2 & E2 & A2 & S2). mrw E2. exists m2. split; [done|]. split; [exact A2|].
    eapply same_outside_trans; eapply same_outside_weaken; [exact S1|lia|lia|exact S2|lia..].
  - destruct (Z.eqb_spec (zlen (render (d :: rs))) 0) as [Hz|_].
    { rewrite render_cons, zlen_cons in Hz. pose proof (zlen_nonneg (d ++ render rs)). lia. }
    erewrite bind_ok by done. exists m1. split; [done|]. split; [|done].
    destruct Hr as [<-|[-> ->]]; [done|]. cbn in Er. injection Er as <- <-. exact A1.
Qed.

Lemma clean0_le t : t <> [] -> 1 <= zlen (clean0 t) <= zlen t.
Proof.
  intros Ht. pose proof (clean_le t) as H. unfold clean0. destruct (clean t) as [|c l].
  - destruct t as [|x t]; [done|]. rewrite (zlen_cons x). pose proof (zlen_nonneg t).
    change (zlen [SLASH]) with 1. lia.
  - rewrite zlen_cons in *. pose proof (zlen_nonneg l). lia.
Qed.

Lemma clean0_no_nul t : no_nul t -> no_nul (clean0 t).
Proof.
  intros H. assert (G : no_nul (clean t)).
  { destruct (split_spec t) as (c & cs & _ & Hc & Hcs & ->).
    rewrite clean_piece, clean_render by (done || apply render_slash_led).
    apply Forall_app in H as [H1 H2]. apply Forall_app. split; [done|]. clear Hc H1.
    induction Hcs as [|d cs Hd Hcs IH]; [by apply Forall_nil|]. rewrite render_cons in H2.
    apply Forall_cons in H2 as [Hs H2]. apply Forall_app in H2 as [H2 H3].
    cbn [List.filter]. destruct (proper d); [|by apply IH]. rewrite render_cons.
    apply Forall_cons. split; [done|]. apply Forall_app. split; [done|by apply IH]. }
  unfold clean0. destruct (clean t); [by apply Forall_singleton|done].
Qed.

Lemma malloc_ok m top n : top + n <= zlen m -> malloc n (mkMem m top) = Ok (top, mkMem m (top + n)).
Proof. intros H. unfold malloc. cbn [mem_top mem_bytes]. by rewrite (proj2 (Z.leb_le _ _)) by done. Qed.

Lemma sanitize_absolute_ok m top fa f :
  rest_at m fa f -> f <> [] -> fa + zlen f + 1 <= top -> top + zlen f + 1 <= zlen m ->
  exists m', sanitize_absolute fa (zlen f) (mkMem m top) = Ok (top, mkMem m' (top + (zlen f + 1))) /\
    at_ m' top (clean0 f ++ [0]) /\ same_outside top (top + (zlen f + 1)) m m'.
Proof.
  intros Hf Hne Ht Hm. assert (0 <= fa) by apply Hf. pose proof (clean0_le f Hne) as Hc.
  unfold sanitize_absolute. erewrite bind_ok by (apply malloc_ok; lia).
  destruct (fsSanitizeCopySafe_ok m (top + (zlen f + 1)) fa top f) as (m1 & E1 & A1 & S1); [done|lia..|].
  mrw E1. exists m1. split; [done|]. split; [done|]. eapply same_outside_weaken; [exact S1|lia..].
Qed.

(** The separator is written unless the working directory is the root. *)
Definition sep_of (p : list Z) : list Z := if bool_decide (p = [SLASH]) then [] else [SLASH].

Lemma write_sep m top s pa p :
  rest_at m pa p -> absolute p = true -> pa + zlen p < s -> at_ m s p -> s + zlen p < top <= zlen m ->
  exists m', (if List.hd 0 p =? SLASH then
      let! p1 := rd (pa + 1) in
      if negb (p1 =? 0) then wr (s + zlen p) SLASH ;;; ret 1 else ret 0
    else ret 0) (mkMem m top) = Ok (zlen (sep_of p), mkMem m' top) /\
    at_ m' s (p ++ sep_of p) /\ same_outside s (s + zlen p + 1) m m'.
Proof.
  intros Hp Ha Hpa Hs Ht. destruct p as [|c p]; [done|]. cbn in Ha. apply Z.eqb_eq in Ha as ->.
  cbn [List.hd]. change (SLASH =? SLASH) with true. cbv iota. pose proof (rest_tail _ _ _ _ Hp) as H1.
  erewrite bind_ok by (by apply rest_rd). rewrite (rest_hd _ _ _ H1). unfold sep_of.
  pose proof (zlen_nonneg (SLASH :: p)). assert (0 <= s) by apply Hs. case_bool_decide as Hn; cbn [negb].
  - subst p. exists m. split; [done|]. split; [by rewrite app_nil_r|apply same_outside_refl].
  - rewrite (bool_decide_eq_false_2 (SLASH :: p = [SLASH])) by congruence.
    erewrite bind_ok by (apply wr_ok; lia). eexists. split; [done|].
    pose proof (same_outside_insert m (s + zlen (SLASH :: p)) SLASH ltac:(lia)) as I1. split.
    + apply at_app. split; [|apply at_insert; lia]. eapply at_frame; [exact I1|done|lia].
    + eapply same_outside_weaken; [exact I1|lia..].
Qed.

Lemma sanitize_relative_ok m top pa p fa f :
  rest_at m pa p -> rest_at m fa f -> absolute p = true -> f <> [] ->
  pa + zlen p + 1 <= top -> fa + zlen f + 1 <= top -> top + zlen p + zlen f + 2 <= zlen m ->
  exists m', sanitize_relative pa fa (zlen f) (mkMem m top) =
      Ok (top, mkMem m' (top + (zlen p + 1 + zlen f + 1))) /\
    at_ m' top (clean0 (p ++ sep_of p ++ clean0 f) ++ [0]) /\
    same_outside top (top + (zlen p + 1 + zlen f + 1)) m m'.
Proof.
  intros Hp Hf Hab Hne Hpt Hft Hm. assert (0 <= fa) by apply Hf. pose proof (clean0_le f Hne) as Hc.
  pose proof (zlen_nonneg p) as Zp. pose proof (zlen_nonneg f) as Zf. assert (0 <= pa) by apply Hp.
  unfold sanitize_relative. erewrite bind_ok by (eapply strlen_ok; apply Hp).
  erewrite bind_ok by (apply malloc_ok; lia). set (top' := top + (zlen p + 1 + zlen f + 1)).
  assert (Ht' : top' = top + zlen p + zlen f + 2) by (unfold top'; lia).
  destruct (memcpy_ok m top' top pa p) as (m1 & E1 & A1 & S1);
    [apply (at_app _ _ p [0]), Hp|lia..|]. mrw E1. pose proof (same_outside_zlen _ _ _ _ S1) as L1.
  assert (Hp1 : rest_at m1 pa p) by (eapply rest_frame; [exact S1|done|lia]).
  erewrite bind_ok by (by apply rest_rd).
  destruct (write_sep m1 top' top pa p Hp1 Hab) as (m2 & E2 & A2 & S2); [lia|done|lia|]. mrw E2.
  pose proof (same_outside_zlen _ _ _ _ S2) as L2.
  assert (Zs : 0 <= zlen (sep_of p) <= 1) by (unfold sep_of; by case_bool_decide).
  destruct (fsSanitizeCopySafe_ok m2 top' fa (top + zlen (sep_of p) + zlen p) f)
    as (m3 & E3 & A3 & S3); [|lia..|].
  { eapply rest_frame; [exact S2| |lia]. eapply rest_frame; [exact S1|done|lia]. }
  mrw E3. pose proof (same_outside_zlen _ _ _ _ S3) as L3.
  assert (A3' : at_ m3 top (p ++ sep_of p ++ clean0 f ++ [0])).
  { rewrite (assoc_L (++)). apply at_app. rewrite zlen_app. split.
    - eapply at_frame; [exact S3|done|rewrite zlen_app; lia].
    - by replace (top + (zlen p + zlen (sep_of p))) with (top + zlen (sep_of p) + zlen p) by lia. }
  set (w := p ++ sep_of p ++ clean0 f) in *.
  assert (Lw : zlen w = zlen p + zlen (sep_of p) + zlen (clean0 f)) by (unfold w; rewrite !zlen_app; lia).
  assert (Hw : w <> []) by (intros E; rewrite E in Lw; change (zlen []) with 0 in Lw; lia).
  pose proof (clean0_le w Hw) as Hcw.
  assert (Hrw : rest_at m3 top w).
  { split; [unfold w; by rewrite <- !(assoc_L (++))|]. unfold w. apply Forall_app. split; [apply Hp|].
    apply Forall_app. split; [unfold sep_of; case_bool_decide; [by apply Forall_nil|by apply Forall_singleton]|].
    apply clean0_no_nul, Hf. }
  destruct (fsSanitizeCopySafe_ok m3 top' top top w) as (m4 & E4 & A4 & S4); [done|lia..|].
  mrw E4. pose proof (same_outside_zlen _ _ _ _ S4) as L4.
  erewrite bind_ok by (apply wr_ok; lia). eexists. split; [done|].
  pose proof (same_outside_insert m4 (top + zlen p + zlen (sep_of p) + zlen f) 0 ltac:(lia)) as I5.
  split.
  - apply at_app in A4 as [A4 B4]. apply at_app. split; [eapply at_frame; [exact I5|done|lia]|].
    destruct (Z.eq_dec (top + zlen p + zlen (sep_of p) + zlen f) (top + zlen (clean0 w))) as [Heq|Hd].
    + rewrite Heq. apply at_insert. lia.
    + eapply at_frame; [exact I5|exact B4|change (zlen [0]) with 1; lia].
  - eapply same_outside_trans; [eapply same_outside_weaken; [exact S1|lia..]|].
    eapply same_outside_trans; [eapply same_outside_weaken; [exact S2|lia..]|].
    eapply same_outside_trans; [eapply same_outside_weaken; [exact S3|lia..]|].
    eapply same_outside_trans; eapply same_outside_weaken; [exact S4|lia|lia|exact I5|lia..].
Qed.

Definition str_block (p f : list Z) : Z := if absolute f then zlen f + 1 else zlen p + 1 + zlen f + 1.

Lemma zlen_show_le p f u :
  u = (if absolute f then clean0 f else clean0 (p ++ sep_of p ++ clean0 f)) -> f <> [] ->
  1 <= zlen u < str_block p f.
Proof.
  intros -> Hf. unfold str_block. pose proof (zlen_nonneg p). pose proof (clean0_le f Hf) as Hc.
  destruct (absolute f); [lia|].
  assert (zlen (sep_of p) <= 1) by (unfold sep_of; by case_bool_decide).
  pose proof (clean0_le (p ++ sep_of p ++ clean0 f)) as H1. rewrite !zlen_app in H1.
  destruct H1 as [H1 H2]; [|lia]. intros E. apply (f_equal zlen) in E. rewrite !zlen_app in E.
  change (zlen []) with 0 in E. pose proof (zlen_nonneg (sep_of p)). lia.
Qed.

(** C23: [fsSanitize] of a non-empty name in an absolute working directory writes
    one new block, which holds the canonical path: the components of the name,
    or of the working directory followed by the name, without empty ones and
    without [.], each [..] taken out with the component before it (at the root
    with nothing), each behind one slash; [/] when nothing is left.  Memory
    beyond the block must be readable, since the copy that takes out [..] reads
    past its end. *)
Theorem fsSanitize_canonical m top pa p fa f :
  rest_at m pa p -> rest_at m fa f -> absolute p = true -> f <> [] ->
  pa + zlen p + 1 <= top -> fa + zlen f + 1 <= top ->
  top + 2 * str_block p f <= zlen m -> zlen m < 2 ^ 63 ->
  exists m', fsSanitize pa fa (mkMem m top) = Ok (top, mkMem m' (top + str_block p f)) /\
    rest_at m' top (show (canonical p f)) /\ same_outside top (top + str_block p f) m m'.
Proof.
  intros Hp Hf Hab Hne Hpt Hft Hm H63. unfold fsSanitize.
  assert (H0 : 0 <= fa) by apply Hf. pose proof (zlen_nonneg p) as Zp. pose proof (zlen_nonneg f) as Zf.
  erewrite bind_ok by (eapply strlen_ok; apply Hf). erewrite bind_ok by (by apply rest_rd).
  assert (Hh : (List.hd 0 f =? SLASH) = absolute f) by (by destruct f). rewrite Hh. clear Hh.
  set (w := if absolute f then f else p ++ SLASH :: f).
  set (u := if absolute f then clean0 f else clean0 (p ++ sep_of p ++ clean0 f)).
  pose proof (zlen_show_le p f u eq_refl Hne) as Hu.
  assert (Hw : no_nul w).
  { unfold w. destruct (absolute f); [apply Hf|]. apply Forall_app. split; [apply Hp|].
    apply Forall_cons. split; [done|apply Hf]. }
  assert (Eu : u = show (components w)).
  { unfold u, w. destruct (absolute f) eqn:Ef; [by apply clean0_absolute|]. by apply clean0_relative. }
  assert (exists m1, (if negb (absolute f) then sanitize_relative pa fa (zlen f)
    else sanitize_absolute fa (zlen f)) (mkMem m top) = Ok (top, mkMem m1 (top + str_block p f)) /\
    at_ m1 top (u ++ [0]) /\ same_outside top (top + str_block p f) m m1) as (m1 & E1 & A1 & S1).
  { unfold str_block, u in *. destruct (absolute f); cbn [negb].
    - apply sanitize_absolute_ok; [done|done|lia..].
    - apply sanitize_relative_ok; [done..|lia|lia|lia]. }
  mrw E1. pose proof (same_outside_zlen _ _ _ _ S1) as L1. rewrite Eu in A1, Hu.
  destruct (sanitize_dotdot_ok m1 (top + str_block p f) top (components w)) as (m2 & E2 & A2 & S2);
    [done|by apply components_comp|lia..|].
  exists m2. split; [exact E2|]. split.
  - split; [exact A2|]. apply show_no_nul, resolve_comp; [by apply Forall_nil|by apply components_comp].
  - eapply same_outside_trans; [exact S1|]. eapply same_outside_weaken; [exact S2|lia..].
Qed.

(** [/usr] and [../a//./b], with 40 bytes behind them. *)
Definition sample_mem : list Z :=
  [47; 117; 115; 114; 0; 46; 46; 47; 97; 47; 47; 46; 47; 98; 0] ++ replicate 40 7.

Lemma fsSanitize_canonical_witness :
  exists m', fsSanitize 0 5 (mkMem sample_mem 15) = Ok (15, mkMem m' 30) /\
    rest_at m' 15 [47; 97; 47; 98].
Proof.
  destruct (fsSanitize_canonical sample_mem 15 0 [47; 117; 115; 114] 5 [46; 46; 47; 97; 47; 47; 46; 47; 98])
    as (m' & E & R & _).
  - split; [|by repeat constructor]. split; [done|]. intros i c Hi. apply lookup_lt_Some in Hi as Hl.
    cbn [length app] in Hl. by do 5 (destruct i as [|i]; [exact Hi|]); lia.
  - split; [|by repeat constructor]. split; [done|]. intros i c Hi. apply lookup_lt_Some in Hi as Hl.
    cbn [length app] in Hl. by do 10 (destruct i as [|i]; [exact Hi|]); lia.
  - reflexivity.
  - done.
  - by vm_compute.
  - by vm_compute.
  - by vm_compute.
  - by vm_compute.
  - exists m'. split; [exact E|exact R].
Defined.

(** The empty name in the root directory is the root. *)
Example fsSanitize_empty_at_root :
  match fsSanitize 0 2 (mkMem ([47; 0; 0] ++ replicate 40 7) 3) with
  | Ok (a, m) => slice a 2 (mem_bytes m) = [47; 0]
  | _ => False
  end.
Proof. by vm_compute. Qed.

(** The empty name makes [fsSanitizeCopySafe] write one byte past the block. *)
Theorem fsSanitize_empty_overflows :
  fsSanitize 0 3 (mkMem ([47; 120; 0; 0] ++ replicate 40 7) 4) = Fault.
Proof. by vm_compute. Qed.

(** Taking out [..] reads past the block: here nothing is mapped behind it. *)
Theorem fsSanitize_dotdot_overreads :
  fsSanitize 0 2 (mkMem ([47; 0; 47; 97; 47; 46; 46; 0] ++ replicate 6 7) 8) = Fault.
Proof. by vm_compute. Qed.
