(* ===== verification/VfsMount.v ===== *)
(** * Mount points ([filesystems/vfs/vfs_mnt.cpp], [fsStripMountpoint])

    The mount points in the order of their list, each with the path it is
    mounted at, which ends in a slash; paths are the cleaned ones of [VfsPath]. *)

From S2P Require Import Prelude Bytes CString VfsPath.

Record MountPoint := mkMount {
  mnt_prefix : list Z;
  mnt_fs : Z;
}.

(** One turn of the loop of [fsDetermineMountPoint]. *)
Definition determine_step (filename : list Z) (acc : option MountPoint * Z) (browse : MountPoint)
    : option MountPoint * Z :=
  let '(largestAddr, largestLen) := acc in
  let len := u64 (zlen (mnt_prefix browse) - 1) in
  if (largestLen <=? len) &&
     (memcmp (Z.to_nat len) filename (mnt_prefix browse) =? 0) &&
     ((List.hd 0 (drop (Z.to_nat len) filename) =? SLASH) ||
      (List.hd 0 (drop (Z.to_nat len) filename) =? 0))
  then (Some browse, u32 len)
  else acc.

Definition fsDetermineMountPoint (filename : list Z) (mounts : list MountPoint) : option MountPoint :=
  fst (foldl (determine_step filename) (None, 0) mounts).

Definition fsStripMountpoint (filename : list Z) (mnt : MountPoint) : list Z :=
  let out := drop (Z.to_nat (zlen (mnt_prefix mnt) - 1)) filename in
  match out with [] => [SLASH] | _ => out end.

Definition EXCLAM : Z := 33.

(** [None]: the null pointer. *)
Definition fsResolveSymlink (mnt : MountPoint) (symlink : list Z) : option (list Z) :=
  if List.hd 0 symlink =? SLASH then
    Some (take (Z.to_nat (zlen (mnt_prefix mnt) - 1)) (mnt_prefix mnt) ++ symlink)
  else if List.hd 0 symlink =? EXCLAM then Some (List.tl symlink)
  else None.

(** ** Mounted at a directory *)

(** A component that names something. *)
Definition name (c : list Z) : Prop := comp c /\ c <> [].

(** [mnt] is mounted at the directory with components [ms]. *)
Record mounted_at (mnt : MountPoint) (ms : list (list Z)) : Prop := {
  ma_prefix : mnt_prefix mnt = render ms ++ [SLASH];
  ma_names : Forall name ms;
  ma_small : zlen (mnt_prefix mnt) < 2 ^ 32;
}.

Lemma render_inj cs ds : Forall piece cs -> Forall piece ds -> render cs = render ds -> cs = ds.
Proof.
  intros Hc Hd E. pose proof (split_render [] cs (Forall_nil_2 _) Hc) as E1.
  pose proof (split_render [] ds (Forall_nil_2 _) Hd) as E2. cbn [app] in *. rewrite E in E1. congruence.
Qed.

Lemma names_pieces cs : Forall name cs -> Forall piece cs.
Proof. intros H. eapply Forall_impl; [exact H|]. by intros c [[? _] _]. Qed.

Lemma render_no_nul cs : Forall name cs -> no_nul (render cs).
Proof.
  induction 1 as [|c cs [[_ Hc] _] Hcs IH]; [by apply Forall_nil|]. rewrite render_cons.
  apply Forall_cons. split; [done|]. apply Forall_app. by split.
Qed.

Lemma show_nonempty cs : show cs <> [].
Proof. by destruct cs. Qed.

(** A cleaned path begins with a mounted directory, at the end of a component,
    exactly when its components do. *)
Lemma show_split cs ms t :
  Forall name cs -> Forall name ms -> slash_led t ->
  show cs = render ms ++ t <-> exists ds, cs = ms ++ ds /\ t = (if bool_decide (cs = []) then [SLASH] else render ds).
Proof.
  intros Hc Hm Ht. split.
  - intros E. destruct cs as [|c cs].
    + destruct ms as [|n ms]; [exists []; split; [done|exact (eq_sym E)]|]. apply Forall_cons in Hm as [[_ Hn] _].
      rewrite render_cons in E. destruct n; [done|]. by destruct (render ms).
    + rewrite bool_decide_eq_false_2 by done. cbn [show] in E.
      assert (exists ds, t = render ds /\ Forall piece ds) as (ds & -> & Hd).
      { destruct Ht as [->|[t' ->]]; [by exists []; split; [|apply Forall_nil]|].
        destruct (absolute_split (SLASH :: t')) as (ds & _ & Hd & ->); [done|]. by exists ds. }
      rewrite <- render_app in E. apply render_inj in E; [by exists ds|by apply names_pieces|].
      apply Forall_app. split; [by apply names_pieces|done].
  - intros (ds & -> & ->). case_bool_decide as E.
    + apply app_eq_nil in E as [-> ->]. done.
    + rewrite <- render_app. by destruct (ms ++ ds).
Qed.

(** The path [fsSanitize] computes consists of names. *)
Lemma canonical_names cwd filename :
  no_nul cwd -> no_nul filename -> Forall name (canonical cwd filename).
Proof.
  intros Hc Hf. unfold canonical.
  assert (G : forall cs st, Forall name st -> Forall name cs -> Forall name (resolve st cs)).
  { induction cs as [|c cs IH]; intros st Hst Hcs; [done|]. apply Forall_cons in Hcs as [Hn Hcs].
    cbn [resolve]. case_bool_decide; apply IH; try done.
    - destruct st as [|d st _] using rev_ind; [done|]. rewrite removelast_last.
      by apply Forall_app in Hst as [? _].
    - apply Forall_app. split; [done|]. by apply Forall_singleton. }
  apply G; [by apply Forall_nil|]. apply List.Forall_forall. intros c Hin. split.
  - assert (Hw : no_nul (if absolute filename then filename else cwd ++ SLASH :: filename)).
    { destruct (absolute filename); [done|]. apply Forall_app. split; [done|]. by apply Forall_cons. }
    apply components_comp in Hw. by eapply (proj1 (List.Forall_forall _ _) Hw).
  - apply List.filter_In in Hin as [_ Hp]. by intros ->.
Qed.

(** The test of the loop: same bytes up to the last slash of the prefix, then a
    slash or the end. *)
Definition serves (filename : list Z) (mnt : MountPoint) : bool :=
  let len := Z.to_nat (zlen (mnt_prefix mnt) - 1) in
  (memcmp len filename (mnt_prefix mnt) =? 0) &&
  ((List.hd 0 (drop len filename) =? SLASH) || (List.hd 0 (drop len filename) =? 0)).

Lemma mounted_len mnt ms : mounted_at mnt ms -> zlen (mnt_prefix mnt) - 1 = zlen (render ms).
Proof. intros []. rewrite ma_prefix0, zlen_app. change (zlen [SLASH]) with 1. lia. Qed.

Lemma zlen_to_nat (l : list Z) : Z.to_nat (zlen l) = length l.
Proof. unfold zlen. lia. Qed.

Lemma serves_spec cs mnt ms : Forall name cs -> mounted_at mnt ms ->
  serves (show cs) mnt = true <-> exists ds, cs = ms ++ ds.
Proof.
  intros Hc Hm. unfold serves. rewrite (mounted_len mnt ms Hm), zlen_to_nat. destruct Hm as [Hp Hn _].
  assert (Hz : no_nul (mnt_prefix mnt)).
  { rewrite Hp. apply Forall_app. split; [by apply render_no_nul|by apply Forall_singleton]. }
  rewrite andb_true_iff, orb_true_iff, !Z.eqb_eq, memcmp_prefix, Hp by
    (done || rewrite Hp, length_app; lia). rewrite take_app_length. split.
  - intros [E Ht]. remember (drop (length (render ms)) (show cs)) as t eqn:Et.
    assert (Hs : show cs = render ms ++ t) by (by rewrite Et, E at 1; rewrite take_drop).
    apply show_split in Hs as (ds & -> & _); [by exists ds|done|done|].
    destruct t as [|x t]; [by left|]. cbn [List.hd] in Ht. destruct Ht as [->| ->]; [by right; eexists|].
    exfalso. assert (Hz' : no_nul (show cs)).
    { destruct cs; [by apply Forall_singleton|by apply render_no_nul]. }
    rewrite Hs in Hz'. apply Forall_app in Hz' as [_ Hz']. by apply Forall_cons in Hz' as [? _].
  - intros (ds & ->). apply Forall_app in Hc as [_ Hd].
    set (t := if bool_decide (ms ++ ds = []) then [SLASH] else render ds).
    assert (Hl : slash_led t) by (unfold t; case_bool_decide; [right; by eexists|apply render_slash_led]).
    assert (Hs : show (ms ++ ds) = render ms ++ t).
    { apply show_split; [|done|done|by exists ds]. apply Forall_app. by split. }
    rewrite Hs, take_app_length, drop_app_length. split; [done|].
    destruct Hl as [->|[t' ->]]; [by right|by left].
Qed.

Lemma strip_spec cs mnt ms ds :
  Forall name cs -> mounted_at mnt ms -> cs = ms ++ ds -> fsStripMountpoint (show cs) mnt = show ds.
Proof.
  intros Hc Hm E. unfold fsStripMountpoint. rewrite (mounted_len mnt ms Hm), zlen_to_nat.
  destruct Hm as [_ Hn _]. set (t := if bool_decide (cs = []) then [SLASH] else render ds).
  assert (Hs : show cs = render ms ++ t).
  { apply show_split; [done|done| |by exists ds].
    unfold t. case_bool_decide; [right; by eexists|apply render_slash_led]. }
  rewrite Hs, drop_app_length. unfold t. case_bool_decide as Hcs.
  - rewrite Hcs in E. symmetry in E. apply app_eq_nil in E as [-> ->]. done.
  - by destruct ds.
Qed.

Lemma render_prefix_le cs ms' ms ds' ds :
  cs = ms' ++ ds' -> cs = ms ++ ds -> zlen (render ms') <= zlen (render ms) -> (length ms' <= length ms)%nat.
Proof.
  intros E' E Hl. destruct (Nat.le_gt_cases (length ms') (length ms)) as [|Hgt]; [done|]. exfalso.
  assert (ms' = ms ++ drop (length ms) ms') as Hms.
  { rewrite <- (take_drop (length ms) ms') at 1. f_equal.
    rewrite E in E'. apply (f_equal (take (length ms))) in E'.
    rewrite take_app_length, take_app_le in E' by lia. done. }
  assert (Hd : drop (length ms) ms' <> []).
  { intros Hd. apply (f_equal length) in Hd. rewrite length_drop in Hd. cbn [length] in Hd. lia. }
  rewrite Hms, render_app, zlen_app in Hl. destruct (drop _ _) as [|c r]; [done|].
  rewrite render_cons, zlen_cons in Hl. pose proof (zlen_nonneg (c ++ render r)). lia.
Qed.

(** ** The longest mounted directory wins *)

(** What the loop has found among the mount points it has seen. *)
Definition best_of (filename : list Z) (seen : list MountPoint) (acc : option MountPoint * Z) : Prop :=
  match acc with
  | (None, n) => n = 0 /\ forall m, m ∈ seen -> serves filename m = false
  | (Some b, n) => n = zlen (mnt_prefix b) - 1 /\ b ∈ seen /\ serves filename b = true /\
      forall m, m ∈ seen -> serves filename m = true -> zlen (mnt_prefix m) <= zlen (mnt_prefix b)
  end.

Definition well_mounted (mnt : MountPoint) : Prop := exists ms, mounted_at mnt ms.

Lemma well_mounted_len mnt : well_mounted mnt -> 1 <= zlen (mnt_prefix mnt) < 2 ^ 32.
Proof.
  intros [ms [Hp _ Hs]]. split; [|done]. rewrite Hp, zlen_app. change (zlen [SLASH]) with 1.
  pose proof (zlen_nonneg (render ms)). lia.
Qed.

Lemma determine_step_ok filename seen acc b :
  best_of filename seen acc -> well_mounted b ->
  best_of filename (seen ++ [b]) (determine_step filename acc b).
Proof.
  intros Hb Hw%well_mounted_len. destruct acc as [o n]. cbn [determine_step].
  rewrite u64_small, u32_small by lia. rewrite <- andb_assoc. fold (serves filename b).
  destruct (serves filename b) eqn:Es; rewrite ?andb_true_r, ?andb_false_r.
  - destruct (Z.leb_spec n (zlen (mnt_prefix b) - 1)) as [Hle|Hgt].
    + split; [done|]. split; [set_solver|]. split; [done|].
      intros m [Hm| ->%list_elem_of_singleton]%elem_of_app Hs; [|done].
      destruct o as [c|]; [|destruct Hb as [_ Hb]; rewrite Hb in Hs; done].
      destruct Hb as (-> & _ & _ & Hb). specialize (Hb m Hm Hs). lia.
    + destruct o as [c|]; [|destruct Hb as [-> _]; lia]. destruct Hb as (-> & Hin & Hc & Hb).
      split; [done|]. split; [set_solver|]. split; [done|].
      intros m [Hm| ->%list_elem_of_singleton]%elem_of_app Hs; [by apply Hb|lia].
  - destruct o as [c|].
    + destruct Hb as (-> & Hin & Hc & Hb). split; [done|]. split; [set_solver|]. split; [done|].
      intros m [Hm| ->%list_elem_of_singleton]%elem_of_app Hs; [by apply Hb|congruence].
    + destruct Hb as [-> Hb]. split; [done|].
      intros m [Hm| ->%list_elem_of_singleton]%elem_of_app; [by apply Hb|done].
Qed.

Lemma determine_fold_ok filename mounts :
  Forall well_mounted mounts ->
  best_of filename mounts (foldl (determine_step filename) (None, 0) mounts).
Proof.
  induction mounts as [|b mounts IH] using rev_ind; intros Hw.
  - split; [done|]. intros m Hm. set_solver.
  - apply Forall_app in Hw as [Hw Hb]. rewrite foldl_app. cbn [foldl].
    apply determine_step_ok; [by apply IH|by apply (Forall_singleton well_mounted)].
Qed.

(** For a cleaned path with components [cs] and mount points whose prefixes
    are directories followed by a slash, [fsDetermineMountPoint] returns a mount
    point whose directory is an initial part of [cs], no serving mount point has
    a longer one, and [fsStripMountpoint] leaves the path of the remaining
    components; it returns nothing exactly when no mount point serves [cs]. *)
Theorem mount_routing cs mounts :
  Forall name cs -> Forall well_mounted mounts ->
  match fsDetermineMountPoint (show cs) mounts with
  | Some mnt => exists ms ds, mnt ∈ mounts /\ mounted_at mnt ms /\ cs = ms ++ ds /\
      fsStripMountpoint (show cs) mnt = show ds /\
      forall mnt' ms' ds', mnt' ∈ mounts -> mounted_at mnt' ms' -> cs = ms' ++ ds' -> (length ms' <= length ms)%nat
  | None => forall mnt ms, mnt ∈ mounts -> mounted_at mnt ms -> ~ exists ds, cs = ms ++ ds
  end.
Proof.
  intros Hc Hw. pose proof (determine_fold_ok (show cs) mounts Hw) as Hb.
  unfold fsDetermineMountPoint. destruct (foldl _ _ _) as [[b|] n]; cbn [fst].
  - destruct Hb as (_ & Hin & Hs & Hmax). destruct (proj1 (Forall_forall _ _) Hw b Hin) as [ms Hm].
    pose proof (proj1 (serves_spec cs b ms Hc Hm) Hs) as (ds & E). exists ms, ds.
    split; [done|]. split; [done|]. split; [done|]. split.
    + by apply (strip_spec cs b ms).
    + intros m' ms' ds' Hin' Hm' E'. apply (render_prefix_le cs ms' ms ds' ds); [done|done|].
      rewrite <- (mounted_len m' ms' Hm'), <- (mounted_len b ms Hm).
      enough (zlen (mnt_prefix m') <= zlen (mnt_prefix b)) by lia.
      apply Hmax; [done|]. apply (serves_spec cs m' ms'); [done|done|by exists ds'].
  - destruct Hb as [_ Hb]. intros m ms Hin Hm Hex.
    apply (serves_spec cs m ms Hc Hm) in Hex. rewrite Hb in Hex; done.
Qed.

(** [/] and [/dev/]; the path [/dev/tty]. *)
Definition root_mount : MountPoint := mkMount [47] 1.
Definition dev_mount : MountPoint := mkMount [47; 100; 101; 118; 47] 2.

Lemma mount_routing_witness :
  fsDetermineMountPoint [47; 100; 101; 118; 47; 116; 116; 121] [root_mount; dev_mount] = Some dev_mount /\
  exists ms ds, mounted_at dev_mount ms /\ [[100; 101; 118]; [116; 116; 121]] = ms ++ ds /\
    fsStripMountpoint [47; 100; 101; 118; 47; 116; 116; 121] dev_mount = show ds.
Proof.
  split; [reflexivity|].
  assert (H : Forall name [[100; 101; 118]; [116; 116; 121]]) by (by repeat constructor).
  assert (W : Forall well_mounted [root_mount; dev_mount]).
  { repeat constructor; [exists []|exists [[100; 101; 118]]]; split; try done; by repeat constructor. }
  pose proof (mount_routing _ _ H W) as R.
  change (fsDetermineMountPoint _ _) with (Some dev_mount) in R. cbv iota in R.
  destruct R as (ms & ds & _ & Hm & E & S & _). exists ms, ds. split; [exact Hm|]. split; [exact E|exact S].
Defined.
