(* ===== verification/Heap.v ===== *)
(** * Heaps of linked structures

    A heap holds the live objects of one C type by address.  [Allocator] is what
    the data structures rely on from [malloc]/[calloc]: an address that is not
    null and not in use.  Accesses through a null or dangling pointer are a
    [Fault]. *)

From S2P Require Import Prelude.

Class Allocator (T : Type) := {
  malloc : gmap Z T -> Z;
  malloc_fresh : forall h, h !! malloc h = None;
  malloc_nonnull : forall h, malloc h <> 0;
}.

(** One allocator: the address behind every live object. *)
Definition top_address {T} (h : gmap Z T) : Z := map_fold (fun p _ m => Z.max (p + 1) m) 1 h.

Lemma top_address_above {T} (h : gmap Z T) : 1 <= top_address h /\
  forall p x, h !! p = Some x -> p < top_address h.
Proof.
  unfold top_address. apply (map_fold_weak_ind (fun m (h : gmap Z T) => 1 <= m /\
    forall p x, h !! p = Some x -> p < m)).
  - split; [lia|]. intros p x. by rewrite lookup_empty.
  - intros i x m r Hi [IH1 IH2]. split; [lia|]. intros p y [[-> ->]|[_ Hp]]%lookup_insert_Some; [lia|].
    specialize (IH2 _ _ Hp). lia.
Qed.

#[export] Instance top_allocator (T : Type) : Allocator T.
Proof.
  refine {| malloc := top_address |}.
  - intros h. destruct (h !! top_address h) eqn:E; [|done].
    destruct (top_address_above h) as [_ H]. specialize (H _ _ E). lia.
  - intros h. destruct (top_address_above h). lia.
Defined.

Section heap.
Context {T : Type}.

Definition deref (p : Z) : M (gmap Z T) T :=
  let! h := get in
  if p =? 0 then fault else from_option_fault (h !! p).
Definition update (p : Z) (f : T -> T) : M (gmap Z T) unit :=
  let! x := deref p in modify <[p := f x]>.
Definition allocate `{!Allocator T} (x : T) : M (gmap Z T) Z :=
  let! p := gets malloc in modify <[p := x]> ;;; ret p.
Definition dispose (p : Z) : M (gmap Z T) unit :=
  let! _ := deref p in modify (delete p).

Lemma deref_ok (h : gmap Z T) p x : p <> 0 -> h !! p = Some x -> deref p h = Ok (x, h).
Proof.
  intros Hp Hx. unfold deref. erewrite bind_ok by done.
  rewrite (proj2 (Z.eqb_neq _ _)) by done. by rewrite Hx.
Qed.

Lemma update_ok (h : gmap Z T) p x f :
  p <> 0 -> h !! p = Some x -> update p f h = Ok (tt, <[p := f x]> h).
Proof. intros Hp Hx. unfold update. by erewrite bind_ok by (by apply deref_ok). Qed.

Lemma dispose_ok (h : gmap Z T) p x : p <> 0 -> h !! p = Some x -> dispose p h = Ok (tt, delete p h).
Proof. intros Hp Hx. unfold dispose. by erewrite bind_ok by (by apply deref_ok). Qed.

Lemma allocate_ok `{!Allocator T} (h : gmap Z T) x :
  allocate x h = Ok (malloc h, <[malloc h := x]> h).
Proof. done. Qed.

End heap.

(** Steps through an access with the contents at hand. *)
Ltac hderef := erewrite bind_ok by (eapply deref_ok; eauto); cbv beta iota.
Ltac hupdate := erewrite bind_ok by (eapply update_ok; eauto); cbv beta iota.
Ltac hdispose := erewrite bind_ok by (eapply dispose_ok; eauto); cbv beta iota.
