(* ===== verification/Liballoc.v ===== *)
(** * The kernel's general-purpose heap

    memory/liballoc.cpp and memory/liballoc_hooks.cpp: [malloc], [free], [calloc]
    and [realloc].  The pages come from the page allocator through the hooks; a
    run of pages is cut into segments, each with a [boundary_tag] in front, that
    know their neighbours in the run ([split_left], [split_right]); free segments
    are kept in 32 doubly linked lists by size and joined with free neighbours.

    The store of tags is a map from addresses to records; [ram] holds the bytes
    the callers keep in their blocks.  [PageHooks] are the four hooks and
    [PageSource] what the heap relies on from them; [LiballocPages] discharges it
    with the page allocator of [Pmm]. *)

From S2P Require Import Prelude.

(** ** The hooks *)

Class PageHooks (S : Type) := {
  liballoc_lock : M S unit;
  liballoc_unlock : M S unit;
  liballoc_alloc : Z -> M S Z;
  liballoc_free : Z -> Z -> M S bool;
}.

(** What the heap relies on: under the lock, runs of pages that nobody owns are
    handed out by page number of the direct map, within the first 4 GiB, and can
    be given back; [taken] tells the pages in use. *)
Class PageSource (S : Type) `{!PageHooks S} (hhdm : Z) := {
  src_free : S -> Prop;
  src_held : S -> Prop;
  src_size : S -> Z;
  taken : S -> Z -> bool;
  src_lock_ok : forall s, src_free s -> exists s', liballoc_lock s = Ok (tt, s') /\
    src_held s' /\ src_size s' = src_size s /\ forall k, taken s' k = taken s k;
  src_unlock_ok : forall s, src_held s -> exists s', liballoc_unlock s = Ok (tt, s') /\
    src_free s' /\ src_size s' = src_size s /\ forall k, taken s' k = taken s k;
  src_alloc_ok : forall s n, src_held s -> 0 < n < 2 ^ 19 ->
    (exists k s', liballoc_alloc n s = Ok (hhdm + k * 4096, s') /\
       src_held s' /\ src_size s' = src_size s /\ 0 < k /\ k + n <= src_size s /\ k + n < 2 ^ 20 /\
       (forall j, k <= j < k + n -> taken s j = false) /\
       forall j, 0 <= j -> taken s' j = if decide (k <= j < k + n) then true else taken s j) \/
    (liballoc_alloc n s = Halted /\
       forall k, 0 <= k -> k + n <= src_size s -> exists j, k <= j < k + n /\ taken s j = true);
  src_free_ok : forall s k n, src_held s -> 0 < k -> 0 < n < 2 ^ 19 -> k + n < 2 ^ 20 ->
    (forall j, k <= j < k + n -> taken s j = true) ->
    exists s', liballoc_free (hhdm + k * 4096) n s = Ok (true, s') /\
      src_held s' /\ src_size s' = src_size s /\
      forall j, 0 <= j -> taken s' j = if decide (k <= j < k + n) then false else taken s j;
}.

(** ** Data *)

Record boundary_tag := mkTag {
  t_magic : Z;
  t_size : Z;
  t_real_size : Z;
  t_index : Z;
  t_split_left : Z;
  t_split_right : Z;
  t_next : Z;
  t_prev : Z;
}.

(** [sizeof(struct boundary_tag)] *)
Definition TAG : Z := 48.

Definition LIBALLOC_MAGIC : Z := 0xc001c0de.
Definition MAXCOMPLETE : Z := 5.
Definition MAXEXP : Z := 32.
Definition MINEXP : Z := 8.
Definition MODE : Z := 0.
Definition l_pageSize : Z := 4096.
Definition l_pageCount : Z := 16.

Definition set_t_size (v : Z) (t : boundary_tag) : boundary_tag :=
  mkTag (t_magic t) v (t_real_size t) (t_index t) (t_split_left t) (t_split_right t) (t_next t) (t_prev t).
Definition set_t_real (v : Z) (t : boundary_tag) : boundary_tag :=
  mkTag (t_magic t) (t_size t) v (t_index t) (t_split_left t) (t_split_right t) (t_next t) (t_prev t).
Definition set_t_index (v : Z) (t : boundary_tag) : boundary_tag :=
  mkTag (t_magic t) (t_size t) (t_real_size t) v (t_split_left t) (t_split_right t) (t_next t) (t_prev t).
Definition set_t_left (v : Z) (t : boundary_tag) : boundary_tag :=
  mkTag (t_magic t) (t_size t) (t_real_size t) (t_index t) v (t_split_right t) (t_next t) (t_prev t).
Definition set_t_right (v : Z) (t : boundary_tag) : boundary_tag :=
  mkTag (t_magic t) (t_size t) (t_real_size t) (t_index t) (t_split_left t) v (t_next t) (t_prev t).
Definition set_t_next (v : Z) (t : boundary_tag) : boundary_tag :=
  mkTag (t_magic t) (t_size t) (t_real_size t) (t_index t) (t_split_left t) (t_split_right t) v (t_prev t).
Definition set_t_prev (v : Z) (t : boundary_tag) : boundary_tag :=
  mkTag (t_magic t) (t_size t) (t_real_size t) (t_index t) (t_split_left t) (t_split_right t) (t_next t) v.

(** The statics of the file, the memory, [bootloader.hhdmOffset] and the state of
    the page allocator. *)
Record lib (S : Type) := mkLib {
  tags : gmap Z boundary_tag;
  ram : gmap Z Z;
  l_freePages : list Z;
  l_completePages : list Z;
  l_initialized : bool;
  boot_hhdm : Z;
  pages : S;
}.
Arguments mkLib {S}.
Arguments tags {S}.
Arguments ram {S}.
Arguments l_freePages {S}.
Arguments l_completePages {S}.
Arguments l_initialized {S}.
Arguments boot_hhdm {S}.
Arguments pages {S}.

(** ** Size classes *)

(** The loop of [getexp] from [shift] on. *)
Fixpoint getexp_loop (n : nat) (shift size : Z) : Z :=
  match n with
  | O => shift
  | S n =>
      if shift <? MAXEXP then
        if size <? u32 (Z.shiftl 1 shift) then shift else getexp_loop n (shift + 1) size
      else shift
  end.

Definition getexp (size : Z) : Z :=
  if size <? Z.shiftl 1 MINEXP then -1
  else getexp_loop (Z.to_nat (MAXEXP - MINEXP)) MINEXP size - 1.

Section heap.
Context {S : Type} `{!PageHooks S}.

Definition set_tags (v : gmap Z boundary_tag) (s : lib S) : lib S :=
  mkLib v (ram s) (l_freePages s) (l_completePages s) (l_initialized s) (boot_hhdm s) (pages s).
Definition set_ram (v : gmap Z Z) (s : lib S) : lib S :=
  mkLib (tags s) v (l_freePages s) (l_completePages s) (l_initialized s) (boot_hhdm s) (pages s).
Definition set_freePages (v : list Z) (s : lib S) : lib S :=
  mkLib (tags s) (ram s) v (l_completePages s) (l_initialized s) (boot_hhdm s) (pages s).
Definition set_completePages (v : list Z) (s : lib S) : lib S :=
  mkLib (tags s) (ram s) (l_freePages s) v (l_initialized s) (boot_hhdm s) (pages s).
Definition set_initialized (v : bool) (s : lib S) : lib S :=
  mkLib (tags s) (ram s) (l_freePages s) (l_completePages s) v (boot_hhdm s) (pages s).
Definition set_pages (v : S) (s : lib S) : lib S :=
  mkLib (tags s) (ram s) (l_freePages s) (l_completePages s) (l_initialized s) (boot_hhdm s) v.

(** A call into the page allocator. *)
Definition hook {A} (m : M S A) : M (lib S) A := fun s =>
  match m (pages s) with
  | Ok (a, p) => Ok (a, set_pages p s)
  | Halted => Halted
  | Fault => Fault
  | Hang => Hang
  end.

Definition get_tag (a : Z) : M (lib S) boundary_tag :=
  let! m := gets tags in if a =? 0 then fault else from_option_fault (m !! a).
Definition put_tag (a : Z) (t : boundary_tag) : M (lib S) unit :=
  modify (fun s => set_tags (<[a := t]> (tags s)) s).
Definition upd_tag (a : Z) (f : boundary_tag -> boundary_tag) : M (lib S) unit :=
  let! t := get_tag a in put_tag a (f t).

Definition array_get (l : list Z) (i : Z) : M (lib S) Z :=
  if i <? 0 then fault else from_option_fault (l !! Z.to_nat i).
Definition free_head (i : Z) : M (lib S) Z := let! l := gets l_freePages in array_get l i.
Definition set_free_head (i v : Z) : M (lib S) unit :=
  free_head i ;;; modify (fun s => set_freePages (<[Z.to_nat i := v]> (l_freePages s)) s).
Definition complete (i : Z) : M (lib S) Z := let! l := gets l_completePages in array_get l i.
Definition set_complete (i v : Z) : M (lib S) unit :=
  complete i ;;; modify (fun s => set_completePages (<[Z.to_nat i := v]> (l_completePages s)) s).

(** ** Tags *)

Definition insert_tag (tag index : Z) : M (lib S) unit :=
  let! t := get_tag tag in
  let realIndex :=
    if index <? 0 then
      let e := getexp (u32 (t_real_size t - TAG)) in if e <? MINEXP then MINEXP else e
    else index in
  upd_tag tag (set_t_index realIndex) ;;;
  let! head := free_head realIndex in
  (if negb (head =? 0) then
     upd_tag head (set_t_prev tag) ;;; upd_tag tag (set_t_next head)
   else ret tt) ;;;
  set_free_head realIndex tag.

Definition remove_tag (tag : Z) : M (lib S) unit :=
  let! t := get_tag tag in
  let! head := free_head (t_index t) in
  (if head =? tag then set_free_head (t_index t) (t_next t) else ret tt) ;;;
  (if negb (t_prev t =? 0) then upd_tag (t_prev t) (set_t_next (t_next t)) else ret tt) ;;;
  let! t := get_tag tag in
  (if negb (t_next t =? 0) then upd_tag (t_next t) (set_t_prev (t_prev t)) else ret tt) ;;;
  upd_tag tag (fun t => set_t_index (-1) (set_t_prev 0 (set_t_next 0 t))).

Definition melt_left (tag : Z) : M (lib S) Z :=
  let! t := get_tag tag in
  let left := t_split_left t in
  upd_tag left (fun l => set_t_right (t_split_right t) (set_t_real (u32 (t_real_size l + t_real_size t)) l)) ;;;
  (if negb (t_split_right t =? 0) then upd_tag (t_split_right t) (set_t_left left) else ret tt) ;;;
  ret left.

Definition absorb_right (tag : Z) : M (lib S) Z :=
  let! t := get_tag tag in
  let right := t_split_right t in
  remove_tag right ;;;
  let! r := get_tag right in
  upd_tag tag (fun t => set_t_right (t_split_right r) (set_t_real (u32 (t_real_size t + t_real_size r)) t)) ;;;
  (if negb (t_split_right r =? 0) then upd_tag (t_split_right r) (set_t_left tag) else ret tt) ;;;
  ret tag.

(** The fields of [new_tag] the code does not set keep what the memory held. *)
Definition split_tag (tag : Z) : M (lib S) Z :=
  let! t := get_tag tag in
  let remainder := u32 (t_real_size t - TAG - t_size t) in
  let! hhdm := gets boot_hhdm in
  let new_tag := u64 (u32 tag + TAG + t_size t + hhdm) in
  let! old := gets (fun s => default (mkTag 0 0 0 0 0 0 0 0) (tags s !! new_tag)) in
  put_tag new_tag
    (mkTag LIBALLOC_MAGIC (t_size old) remainder (t_index old) tag (t_split_right t) 0 0) ;;;
  (if negb (t_split_right t =? 0) then upd_tag (t_split_right t) (set_t_left new_tag) else ret tt) ;;;
  upd_tag tag (fun t => set_t_real (u32 (t_real_size t - remainder)) (set_t_right new_tag t)) ;;;
  insert_tag new_tag (-1) ;;;
  ret new_tag.

Definition allocate_new_tag (size : Z) : M (lib S) Z :=
  let usage := u32 (size + TAG) in
  let pages := usage / l_pageSize in
  let pages := if negb (usage mod l_pageSize =? 0) then pages + 1 else pages in
  let pages := if pages <? l_pageCount then l_pageCount else pages in
  let! tag := hook (liballoc_alloc pages) in
  if tag =? 0 then ret 0
  else
    put_tag tag (mkTag LIBALLOC_MAGIC size (u32 (pages * l_pageSize)) (-1) 0 0 0 0) ;;;
    ret tag.

(** ** The interface *)

(** The search of one free list; every live tag is visited at most once. *)
Fixpoint find_tag (fuel : nat) (tag size : Z) : M (lib S) Z :=
  match fuel with
  | O => hang
  | Datatypes.S fuel =>
      if tag =? 0 then ret 0
      else
        let! t := get_tag tag in
        if u64 (size + TAG) <=? u64 (t_real_size t - TAG) then ret tag
        else find_tag fuel (t_next t) size
  end.

Definition tag_fuel (s : lib S) : nat := Datatypes.S (size (tags s)).

Definition initialize : M (lib S) unit :=
  let! i := gets l_initialized in
  if i then ret tt
  else
    modify (fun s => set_completePages (replicate 32 0) (set_freePages (replicate 32 0) s)) ;;;
    modify (set_initialized true).

Definition malloc (size : Z) : M (lib S) Z :=
  hook liballoc_lock ;;;
  initialize ;;;
  let index := getexp (u32 size) + MODE in
  let index := if index <? MINEXP then MINEXP else index in
  let! start := free_head index in
  let! fuel := gets tag_fuel in
  let! tag := find_tag fuel start size in
  let! tag :=
    if tag =? 0 then allocate_new_tag (u32 size)
    else
      remove_tag tag ;;;
      let! t := get_tag tag in
      (if (t_split_left t =? 0) && (t_split_right t =? 0) then
         let! c := complete index in set_complete index (c - 1)
       else ret tt) ;;;
      ret tag in
  if tag =? 0 then hook liballoc_unlock ;;; ret 0
  else
    upd_tag tag (set_t_size (u32 size)) ;;;
    let! t := get_tag tag in
    let remainder := u32 (t_real_size t - size - TAG * 2) in
    (if (0 <? s32 remainder) && (0 <=? getexp remainder) then split_tag tag ;;; ret tt
     else ret tt) ;;;
    let! hhdm := gets boot_hhdm in
    hook liballoc_unlock ;;;
    ret (u64 (u32 tag + hhdm + TAG)).

(** The two loops of [free] that join free neighbours. *)
Fixpoint melt_lefts (fuel : nat) (tag : Z) : M (lib S) Z :=
  match fuel with
  | O => hang
  | Datatypes.S fuel =>
      let! t := get_tag tag in
      if t_split_left t =? 0 then ret tag
      else
        let! l := get_tag (t_split_left t) in
        if 0 <=? t_index l then
          let! tag := melt_left tag in
          remove_tag tag ;;;
          melt_lefts fuel tag
        else ret tag
  end.

Fixpoint melt_rights (fuel : nat) (tag : Z) : M (lib S) Z :=
  match fuel with
  | O => hang
  | Datatypes.S fuel =>
      let! t := get_tag tag in
      if t_split_right t =? 0 then ret tag
      else
        let! r := get_tag (t_split_right t) in
        if 0 <=? t_index r then
          let! tag := absorb_right tag in
          melt_rights fuel tag
        else ret tag
  end.

Definition free (ptr : Z) : M (lib S) unit :=
  if ptr =? 0 then ret tt
  else
    hook liballoc_lock ;;;
    let! hhdm := gets boot_hhdm in
    let tag := u64 (u32 ptr + hhdm - TAG) in
    let! t := get_tag tag in
    if negb (t_magic t =? LIBALLOC_MAGIC) then hook liballoc_unlock
    else
      let! fuel := gets tag_fuel in
      let! tag := melt_lefts fuel tag in
      let! tag := melt_rights fuel tag in
      let! t := get_tag tag in
      let index := getexp (u32 (t_real_size t - TAG)) in
      let index := if index <? MINEXP then MINEXP else index in
      if (t_split_left t =? 0) && (t_split_right t =? 0) then
        let! c := complete index in
        if c =? MAXCOMPLETE then
          let pages := t_real_size t / l_pageSize in
          let pages := if negb (t_real_size t mod l_pageSize =? 0) then pages + 1 else pages in
          let pages := if pages <? l_pageCount then l_pageCount else pages in
          hook (liballoc_free tag pages) ;;;
          hook liballoc_unlock
        else
          set_complete index (c + 1) ;;;
          insert_tag tag index ;;;
          hook liballoc_unlock
      else
        insert_tag tag index ;;;
        hook liballoc_unlock.

(** ** Contents *)

(** Bytes of the blocks; a byte never written reads as 0. *)
Definition ram_at (s : lib S) (a : Z) : Z := default 0 (ram s !! a).

(** [liballoc_memset]; the counter is an [int], which must not overflow. *)
Definition liballoc_memset (a c n : Z) : M (lib S) unit :=
  if 2 ^ 31 <=? n then fault
  else mfor (seqZ 0 n) (fun i => modify (fun s => set_ram (<[a + i := u8 c]> (ram s)) s)).

(** [liballoc_memcpy] moves four bytes at a time, then the rest one by one. *)
Definition copy_byte (s1 s2 i : Z) : M (lib S) unit :=
  let! b := gets (fun s => ram_at s (s2 + i)) in modify (fun s => set_ram (<[s1 + i := b]> (ram s)) s).
Definition copy_word (s1 s2 i : Z) : M (lib S) unit :=
  let! b := gets (fun s => ram_at s <$> seqZ (s2 + i) 4) in
  mfor (zip (seqZ (s1 + i) 4) b) (fun p => modify (fun s => set_ram (<[p.1 := p.2]> (ram s)) s)).
Definition liballoc_memcpy (s1 s2 n : Z) : M (lib S) unit :=
  mfor (seqZ 0 (n / 4)) (fun k => copy_word s1 s2 (4 * k)) ;;;
  mfor (seqZ (n / 4 * 4) (n mod 4)) (copy_byte s1 s2).

(** [int real_size = nobj * size;] and back to [size_t]. *)
Definition calloc (nobj size : Z) : M (lib S) Z :=
  let real_size := s32 (u64 (nobj * size)) in
  let! p := malloc (u64 real_size) in
  (if negb (p =? 0) then liballoc_memset p 0 (u64 real_size) else ret tt) ;;;
  ret p.

Definition realloc (p size : Z) : M (lib S) Z :=
  if size =? 0 then free p ;;; ret 0
  else if p =? 0 then malloc size
  else
    hook liballoc_lock ;;;
    let! hhdm := gets boot_hhdm in
    let! t := get_tag (u64 (u32 p + hhdm - TAG)) in
    hook liballoc_unlock ;;;
    let real_size := s32 (t_size t) in
    let real_size := if s32 size <? real_size then s32 size else real_size in
    let! ptr := malloc size in
    (if ptr =? 0 then fault else liballoc_memcpy ptr p (u64 real_size)) ;;;
    free p ;;;
    ret ptr.

End heap.
