(* ===== verification/LiballocTags.v ===== *)
(** * The heap: lists of free tags

    The operations on tags, seen through two views of the store: the list links
    ([links]) and everything else ([core]).  [insert_tag] and [remove_tag] change
    the links of one free list and one index; [melt_left] and [absorb_right]
    change no links. *)

From S2P Require Import Prelude Dll Liballoc.

(** The links of a tag, and the tag without them. *)
Definition links (t : boundary_tag) : Z * Z := (t_next t, t_prev t).
Definition core (t : boundary_tag) : boundary_tag := set_t_next 0 (set_t_prev 0 t).

(** A free list: the addresses in [l], linked to each other. *)
Definition cell (n p : Z) (_ : unit) : Z * Z := (n, p).
Definition plain (l : list Z) : list (Z * unit) := (fun a => (a, tt)) <$> l.
Definition chain (lv : gmap Z (Z * Z)) (l : list Z) : Prop := linked cell lv 0 (plain l) 0.
Definition first_of (l : list Z) : Z := default 0 (head l).

Lemma plain_addrs l : (plain l).*1 = l.
Proof. unfold plain. rewrite <- list_fmap_compose. apply list_fmap_id. Qed.

Lemma plain_app l k : plain (l ++ k) = plain l ++ plain k.
Proof. apply fmap_app. Qed.

Lemma head_plain l : head_addr (plain l) 0 = first_of l.
Proof. by destruct l. Qed.

Lemma tag_chain_frame lv lv' l : (forall a, a ∈ l -> lv' !! a = lv !! a) -> chain lv l -> chain lv' l.
Proof. intros E. apply linked_frame. intros a. rewrite plain_addrs. apply E. Qed.

Lemma tag_chain_lookup lv l1 a l2 :
  chain lv (l1 ++ a :: l2) -> lv !! a = Some (first_of l2, last_addr 0 (plain l1)).
Proof.
  unfold chain. rewrite plain_app. intros H. apply linked_lookup in H as E. cbn in E. rewrite E.
  f_equal. unfold cell. by rewrite head_plain.
Qed.

(** A new first cell. *)
Lemma chain_push lv lv' a l :
  NoDup (a :: l) -> chain lv l ->
  lv' !! a = Some (first_of l, 0) ->
  (forall b l', l = b :: l' -> lv' !! b = Some (first_of l', a)) ->
  (forall b, b ∈ l -> b <> first_of l -> lv' !! b = lv !! b) ->
  chain lv' (a :: l).
Proof.
  intros [Ha Hn]%NoDup_cons H E1 E2 E3. unfold chain. cbn [plain fmap list_fmap linked].
  change (list_fmap _ _ _ l) with (plain l). rewrite head_plain. split; [exact E1|].
  apply (linked_redirect_prev cell lv lv' 0 a (plain l) 0); [by rewrite plain_addrs|exact H| |].
  - intros y l' Ey. destruct l as [|b l0]; [done|]. injection Ey as <- <-.
    cbn. rewrite (E2 b l0 eq_refl). change (_ <$> l0) with (plain l0). by rewrite head_plain.
  - intros b. rewrite plain_addrs, head_plain. apply E3.
Qed.

Lemma plain_snoc l l1 x : plain l1 = l ++ [x] -> l = plain l.*1 /\ l1 = l.*1 ++ [x.1].
Proof.
  intros E. split.
  - clear. induction l as [|[b []] l IH]; [done|]. cbn. by rewrite <- IH at 1.
  - apply (f_equal (fmap fst)) in E. by rewrite plain_addrs, fmap_app in E.
Qed.

(** A cell taken out. *)
Lemma chain_remove lv lv' l1 a l2 :
  NoDup (l1 ++ a :: l2) -> 0 ∉ l1 ++ a :: l2 -> chain lv (l1 ++ a :: l2) ->
  (forall l b, l1 = l ++ [b] -> lv' !! b = Some (first_of l2, last_addr 0 (plain l))) ->
  (forall b l, l2 = b :: l -> lv' !! b = Some (first_of l, last_addr 0 (plain l1))) ->
  (forall b, b ∈ l1 ++ l2 -> b <> last_addr 0 (plain l1) -> b <> first_of l2 -> lv' !! b = lv !! b) ->
  chain lv' (l1 ++ l2).
Proof.
  intros Hn H0 H E1 E2 E3. unfold chain in *. rewrite plain_app in *. apply linked_app in H as [H1 [_ H2]].
  cbn [fst plain fmap list_fmap] in H2. change (list_fmap _ _ _ l2) with (plain l2) in H2.
  apply NoDup_app in Hn as (N1 & Hd & [Ha N2]%NoDup_cons).
  assert (F2 : forall b, b ∈ l1 -> b <> first_of l2).
  { intros b Hb ->. destruct l2 as [|c l2]; cbn in *; [set_solver|]. apply (Hd c Hb). set_solver. }
  assert (F1 : forall b, b ∈ l2 -> b <> last_addr 0 (plain l1)).
  { intros b Hb ->. destruct (decide (l1 = [])) as [->|Hne]; [set_solver|].
    assert (last_addr 0 (plain l1) ∈ l1) as Hi.
    { rewrite <- (plain_addrs l1) at 2. apply last_addr_in. by destruct l1. }
    apply (Hd _ Hi). set_solver. }
  apply linked_app. split.
  - apply (linked_redirect_next cell lv lv' 0 (plain l1) (head_addr (plain (a :: l2)) 0));
      [by rewrite plain_addrs|exact H1| |].
    + intros l x [Hl El]%plain_snoc. rewrite head_plain, (E1 _ _ El). unfold cell. by rewrite <- Hl.
    + intros b. rewrite plain_addrs. intros Hb Hne. apply E3; [set_solver|done|by apply F2].
  - apply (linked_redirect_prev cell lv lv' a); [by rewrite plain_addrs|exact H2| |].
    + intros y l Ey. destruct l2 as [|b l0]; [done|]. injection Ey as <- <-. cbn [fst].
      rewrite (E2 b l0 eq_refl). unfold cell. change (_ <$> l0) with (plain l0). by rewrite head_plain.
    + intros b. rewrite plain_addrs, head_plain. intros Hb Hne. apply E3; [set_solver|by apply F1|done].
Qed.

(** ** Updates of the store *)

(** [if (q != NULL) q->... = ...;] *)
Definition alter_if (q : Z) (f : boundary_tag -> boundary_tag) (m : gmap Z boundary_tag) : gmap Z boundary_tag :=
  if q =? 0 then m else alter f q m.

Lemma lookup_alter_if q f m b :
  alter_if q f m !! b = if decide (b = q /\ q <> 0) then f <$> m !! b else m !! b.
Proof.
  unfold alter_if. destruct (Z.eqb_spec q 0) as [->|Hq].
  - by rewrite decide_False by tauto.
  - case_decide as Hd.
    + destruct Hd as [-> _]. apply lookup_alter_eq.
    + apply lookup_alter_ne. intros ->. tauto.
Qed.

(** A view that does not see the changed fields. *)
Lemma view_alter {A} (v : boundary_tag -> A) f q (m : gmap Z boundary_tag) :
  (forall t, v (f t) = v t) -> v <$> alter f q m = v <$> m.
Proof.
  intros E. apply map_eq. intros b. rewrite !lookup_fmap. destruct (decide (b = q)) as [->|Hn].
  - rewrite lookup_alter_eq. destruct (m !! q); cbn; [by rewrite E|done].
  - by rewrite lookup_alter_ne.
Qed.

Lemma view_alter_if {A} (v : boundary_tag -> A) f q (m : gmap Z boundary_tag) :
  (forall t, v (f t) = v t) -> v <$> alter_if q f m = v <$> m.
Proof. intros E. unfold alter_if. destruct (q =? 0); [done|by apply view_alter]. Qed.

(** A view in which the change is a function of the view. *)
Lemma view_alter_in {A} (v : boundary_tag -> A) (g : A -> A) f q (m : gmap Z boundary_tag) :
  (forall t, v (f t) = g (v t)) -> v <$> alter f q m = alter g q (v <$> m).
Proof.
  intros E. apply map_eq. intros b. rewrite lookup_fmap. destruct (decide (b = q)) as [->|Hn].
  - rewrite !lookup_alter_eq, lookup_fmap. destruct (m !! q); cbn; [by rewrite E|done].
  - by rewrite !lookup_alter_ne, lookup_fmap.
Qed.

Lemma alter_insert_eq {A} (g : A -> A) q (m : gmap Z A) x : m !! q = Some x -> alter g q m = <[q := g x]> m.
Proof.
  intros E. apply map_eq. intros b. destruct (decide (b = q)) as [->|Hn].
  - by rewrite lookup_alter_eq, lookup_insert_eq, E.
  - by rewrite lookup_alter_ne, lookup_insert_ne.
Qed.

Lemma core_next v t : core (set_t_next v t) = core t.
Proof. done. Qed.
Lemma core_prev v t : core (set_t_prev v t) = core t.
Proof. done. Qed.

Section tag_ops.
Context {S : Type} `{!PageHooks S}.
Implicit Types (s : lib S).

Lemma get_tag_ok s a t : a <> 0 -> tags s !! a = Some t -> get_tag a s = Ok (t, s).
Proof.
  intros Ha E. unfold get_tag. erewrite bind_ok by done. rewrite (proj2 (Z.eqb_neq a 0) Ha). by rewrite E.
Qed.

Lemma upd_tag_ok s a f : a <> 0 -> is_Some (tags s !! a) ->
  upd_tag a f s = Ok (tt, set_tags (alter f a (tags s)) s).
Proof.
  intros Ha [t E]. unfold upd_tag. mgo get_tag_ok; [|exact Ha|exact E].
  unfold put_tag, modify. by rewrite (alter_insert_eq f a (tags s) t E).
Qed.

(** A guarded update. *)
Lemma upd_tag_if_ok s q f : (q <> 0 -> is_Some (tags s !! q)) ->
  (if negb (q =? 0) then upd_tag q f else ret tt) s = Ok (tt, set_tags (alter_if q f (tags s)) s).
Proof.
  intros Hq. unfold alter_if. destruct (Z.eqb_spec q 0) as [|Hn]; cbn [negb].
  - unfold ret. do 2 f_equal. by destruct s.
  - apply upd_tag_ok; [done|by apply Hq].
Qed.

Lemma free_head_ok s i v : 0 <= i -> l_freePages s !! Z.to_nat i = Some v -> free_head i s = Ok (v, s).
Proof.
  intros Hi E. unfold free_head, array_get. erewrite bind_ok by done.
  rewrite (proj2 (Z.ltb_ge i 0)) by lia. by rewrite E.
Qed.

Lemma set_free_head_ok s i v w : 0 <= i -> l_freePages s !! Z.to_nat i = Some w ->
  set_free_head i v s = Ok (tt, set_freePages (<[Z.to_nat i := v]> (l_freePages s)) s).
Proof. intros Hi E. unfold set_free_head. by mgo free_head_ok. Qed.

Lemma complete_ok s i v : 0 <= i -> l_completePages s !! Z.to_nat i = Some v -> complete i s = Ok (v, s).
Proof.
  intros Hi E. unfold complete, array_get. erewrite bind_ok by done.
  rewrite (proj2 (Z.ltb_ge i 0)) by lia. by rewrite E.
Qed.

Lemma set_complete_ok s i v w : 0 <= i -> l_completePages s !! Z.to_nat i = Some w ->
  set_complete i v s = Ok (tt, set_completePages (<[Z.to_nat i := v]> (l_completePages s)) s).
Proof. intros Hi E. unfold set_complete. by mgo complete_ok. Qed.

(** The links a removal leaves. *)
Definition unlinked (l1 : list Z) (a : Z) (l2 : list Z) (m : gmap Z boundary_tag) : gmap Z boundary_tag :=
  alter (fun t => set_t_index (-1) (set_t_prev 0 (set_t_next 0 t))) a
    (alter_if (first_of l2) (set_t_prev (last_addr 0 (plain l1)))
      (alter_if (last_addr 0 (plain l1)) (set_t_next (first_of l2)) m)).

Lemma last_plain l : l <> [] -> last_addr 0 (plain l) ∈ l.
Proof. intros H. rewrite <- (plain_addrs l) at 2. apply last_addr_in. by destruct l. Qed.

Lemma last_plain_snoc l b : last_addr 0 (plain (l ++ [b])) = b.
Proof. by rewrite plain_app, last_addr_app. Qed.

Lemma first_of_in l : first_of l <> 0 -> first_of l ∈ l.
Proof. destruct l; [done|left]. Qed.

Lemma last_plain_in l : last_addr 0 (plain l) <> 0 -> last_addr 0 (plain l) ∈ l.
Proof. destruct l; [done|]. intros _. by apply last_plain. Qed.

Lemma removal_ne l1 a l2 : NoDup (l1 ++ a :: l2) -> 0 ∉ l1 ++ a :: l2 ->
  a <> first_of l2 /\ a <> last_addr 0 (plain l1) /\
  (first_of l2 <> 0 -> first_of l2 <> last_addr 0 (plain l1)).
Proof.
  intros Hn H0. apply NoDup_app in Hn as (N1 & Hd & [Ha2 N2]%NoDup_cons).
  assert (Hl : forall b, b ∈ a :: l2 -> b <> last_addr 0 (plain l1)).
  { intros b Hb ->. destruct (decide (l1 = [])) as [->|Hne].
    - cbn in *. set_solver.
    - by apply (Hd _ (last_plain _ Hne)). }
  split; [|split].
  - intros E. destruct l2 as [|c l]; cbn in *; [subst; set_solver|set_solver].
  - apply Hl. left.
  - intros E. apply Hl. right. by apply first_of_in.
Qed.

Section removal.
Context (m : gmap Z boundary_tag) (l1 : list Z) (a : Z) (l2 : list Z) (t : boundary_tag).
Context (Hc : chain (links <$> m) (l1 ++ a :: l2)) (Hn : NoDup (l1 ++ a :: l2)) (H0 : 0 ∉ l1 ++ a :: l2).
Context (Ha : m !! a = Some t).

Lemma unlinked_core : core <$> unlinked l1 a l2 m = <[a := set_t_index (-1) (core t)]> (core <$> m).
Proof.
  unfold unlinked. rewrite (view_alter_in core (set_t_index (-1))) by done.
  rewrite !(view_alter_if core) by (intros; apply core_next || apply core_prev).
  apply alter_insert_eq. by rewrite lookup_fmap, Ha.
Qed.

Lemma unlinked_links :
  chain (links <$> unlinked l1 a l2 m) (l1 ++ l2) /\
  (links <$> unlinked l1 a l2 m) !! a = Some (0, 0) /\
  forall b, b ∉ l1 ++ a :: l2 -> unlinked l1 a l2 m !! b = m !! b.
Proof.
  destruct (removal_ne l1 a l2 Hn H0) as (R1 & R2 & R3). unfold unlinked.
  assert (Hout : forall b, b <> a -> ~ (b = first_of l2 /\ first_of l2 <> 0) ->
    ~ (b = last_addr 0 (plain l1) /\ last_addr 0 (plain l1) <> 0) -> unlinked l1 a l2 m !! b = m !! b).
  { intros b B1 B2 B3. unfold unlinked. rewrite lookup_alter_ne, !lookup_alter_if by done.
    by rewrite !decide_False by done. }
  assert (Hlk : forall k1 b k2, l1 ++ a :: l2 = k1 ++ b :: k2 -> exists tb, m !! b = Some tb /\
    links tb = (first_of k2, last_addr 0 (plain k1))).
  { intros k1 b k2 E. rewrite E in Hc. apply tag_chain_lookup in Hc. rewrite lookup_fmap in Hc.
    destruct (m !! b) as [tb|]; [|done]. exists tb. split; [done|]. cbn [fmap option_fmap option_map] in Hc. congruence. }
  split; [|split].
  - apply (chain_remove (links <$> m) _ l1 a l2); [done|done|done|..].
    + intros l b ->. rewrite last_plain_snoc in *.
      destruct (Hlk l b (a :: l2)) as (tb & Eb & Lb); [by rewrite <- app_assoc|].
      assert (b <> 0) by (intros ->; set_solver).
      rewrite lookup_fmap, lookup_alter_ne, !lookup_alter_if by done.
      rewrite decide_False by (intros [E1 E2]; by apply (R3 E2)).
      rewrite decide_True by done. rewrite Eb. cbn. injection Lb as _ E2. by rewrite <- E2.
    + intros b l ->. destruct (Hlk (l1 ++ [a]) b l) as (tb & Eb & Lb); [by rewrite <- app_assoc|].
      assert (b <> 0) by (intros ->; set_solver). cbn [first_of head default from_option id] in *.
      rewrite lookup_fmap, lookup_alter_ne, !lookup_alter_if by done. rewrite decide_True by done.
      rewrite decide_False by (intros [E1 E2]; by apply (R3 ltac:(done))). rewrite Eb. cbn. injection Lb as E1 _. by rewrite <- E1.
    + intros b Hb B1 B2. rewrite !lookup_fmap. f_equal. apply Hout; [|tauto|tauto].
      intros ->. apply NoDup_app in Hn as (_ & Hd & [Ha2 _]%NoDup_cons).
      apply elem_of_app in Hb as [Hb|Hb]; [|done]. apply (Hd a Hb). left.
  - rewrite lookup_fmap, lookup_alter_eq, !lookup_alter_if, !decide_False by tauto. by rewrite Ha.
  - intros b Hb. apply Hout; [set_solver|..].
    + intros [-> E]. apply Hb, elem_of_app. right. right. by apply first_of_in.
    + intros [-> E]. apply Hb, elem_of_app. left. by apply last_plain_in.
Qed.

End removal.

Lemma head_split l1 a l2 : NoDup (l1 ++ a :: l2) ->
  (if first_of (l1 ++ a :: l2) =? a then first_of l2 else first_of (l1 ++ a :: l2)) = first_of (l1 ++ l2).
Proof.
  intros Hn. destruct l1 as [|b l1]; cbn; [by rewrite Z.eqb_refl|].
  rewrite (proj2 (Z.eqb_neq b a)); [done|]. intros ->. apply NoDup_cons in Hn as [Hb _]. set_solver.
Qed.

(** [remove_tag] takes the tag out of its list and clears its index. *)
Lemma remove_tag_ok s i l1 a l2 t :
  0 <= i -> l_freePages s !! Z.to_nat i = Some (first_of (l1 ++ a :: l2)) ->
  chain (links <$> tags s) (l1 ++ a :: l2) -> NoDup (l1 ++ a :: l2) -> 0 ∉ l1 ++ a :: l2 ->
  tags s !! a = Some t -> t_index t = i ->
  remove_tag a s = Ok (tt, set_freePages (<[Z.to_nat i := first_of (l1 ++ l2)]> (l_freePages s))
    (set_tags (unlinked l1 a l2 (tags s)) s)).
Proof.
  intros Hi Hf Hc Hn H0 Ha Ht. assert (Ha0 : a <> 0) by (intros ->; set_solver).
  pose proof (tag_chain_lookup _ _ _ _ Hc) as HL. rewrite lookup_fmap, Ha in HL. injection HL as Enx Epv.
  destruct (removal_ne l1 a l2 Hn H0) as (R1 & R2 & R3).
  assert (Hsome : forall b, b ∈ l1 ++ a :: l2 -> is_Some (tags s !! b)).
  { intros b Hb. rewrite <- (plain_addrs (l1 ++ a :: l2)) in Hb.
    apply (linked_dom _ _ _ _ _ _ Hc) in Hb as [x Hx]. rewrite lookup_fmap in Hx.
    destruct (tags s !! b); [eauto|done]. }
  unfold remove_tag. mgo get_tag_ok; [|exact Ha0|exact Ha].
  rewrite Ht. mgo free_head_ok; [|exact Hi|exact Hf].
  set (s1 := set_freePages (<[Z.to_nat i := first_of (l1 ++ l2)]> (l_freePages s)) s).
  assert (E1 : (if first_of (l1 ++ a :: l2) =? a then set_free_head i (t_next t) else ret tt) s = Ok (tt, s1)).
  { pose proof (head_split l1 a l2 Hn) as Hh. destruct (first_of (l1 ++ a :: l2) =? a).
    - erewrite set_free_head_ok by (done || exact Hf). unfold s1. by rewrite <- Hh, Enx.
    - unfold s1, ret. rewrite <- Hh, list_insert_id by done. by destruct s. }
  mrw E1. rewrite Epv, Enx. mgo upd_tag_if_ok.
  2:{ intros E. apply Hsome, elem_of_app. left. by apply last_plain_in. }
  change (tags s1) with (tags s).
  mgo get_tag_ok; [|exact Ha0|].
  2:{ cbn [tags set_tags]. rewrite lookup_alter_if, decide_False by tauto. exact Ha. }
  rewrite Enx, Epv. mgo upd_tag_if_ok.
  2:{ intros E. cbn [tags set_tags]. rewrite lookup_alter_if.
      destruct (Hsome (first_of l2)) as [t2 E2]; [apply elem_of_app; right; right; by apply first_of_in|].
      rewrite E2. destruct (decide _); eexists; done. }
  rewrite upd_tag_ok; [done|done|]. cbn [tags set_tags]. rewrite !lookup_alter_if, !decide_False by tauto. by eexists.
Qed.

(** The links an insertion at the front leaves. *)
Definition pushed (i a : Z) (l : list Z) (m : gmap Z boundary_tag) : gmap Z boundary_tag :=
  alter (fun t => set_t_next (first_of l) (set_t_index i t)) a (alter_if (first_of l) (set_t_prev a) m).

Section insertion.
Context (m : gmap Z boundary_tag) (i a : Z) (l : list Z) (t : boundary_tag).
Context (Hc : chain (links <$> m) l) (Hn : NoDup (a :: l)) (H0 : 0 ∉ a :: l).
Context (Ha : m !! a = Some t) (Hl : links t = (0, 0)).

Lemma pushed_core : core <$> pushed i a l m = <[a := set_t_index i (core t)]> (core <$> m).
Proof.
  unfold pushed. rewrite (view_alter_in core (set_t_index i)) by done.
  rewrite (view_alter_if core) by (intros; apply core_prev).
  apply alter_insert_eq. by rewrite lookup_fmap, Ha.
Qed.

Lemma pushed_links :
  chain (links <$> pushed i a l m) (a :: l) /\ forall b, b ∉ a :: l -> pushed i a l m !! b = m !! b.
Proof.
  apply NoDup_cons in Hn as Hn'. destruct Hn' as [Hal Hnl].
  assert (Haf : a <> first_of l).
  { intros E. apply Hal. rewrite E. apply first_of_in. rewrite <- E. set_solver. }
  unfold pushed. split.
  - apply (chain_push (links <$> m)); [done|done|..].
    + rewrite lookup_fmap, lookup_alter_eq, lookup_alter_if, decide_False by tauto. rewrite Ha. cbn.
      injection Hl as _ E2. by rewrite <- E2.
    + intros b l' ->. cbn [first_of head default from_option id] in *. assert (b <> 0) by (intros ->; set_solver).
      rewrite lookup_fmap, lookup_alter_ne, lookup_alter_if, decide_True by done.
      pose proof (tag_chain_lookup _ [] _ _ Hc) as HL. rewrite lookup_fmap in HL.
      destruct (m !! b) as [tb|]; [|done]. injection HL as E1 _. cbn. by rewrite <- E1.
    + intros b Hb Hbf. rewrite !lookup_fmap. f_equal.
      rewrite lookup_alter_ne by (intros ->; done). by rewrite lookup_alter_if, decide_False by tauto.
  - intros b Hb. rewrite lookup_alter_ne by set_solver. rewrite lookup_alter_if, decide_False; [done|].
    intros [-> E]. apply Hb. right. by apply first_of_in.
Qed.

End insertion.

(** The list a segment belongs to. *)
Definition bucket (real : Z) : Z :=
  let e := getexp (u32 (real - TAG)) in if e <? MINEXP then MINEXP else e.

(** [insert_tag] puts a tag without links in front of its list. *)
Lemma insert_tag_ok s index a l t :
  let i := if index <? 0 then bucket (t_real_size t) else index in
  0 <= i -> l_freePages s !! Z.to_nat i = Some (first_of l) ->
  chain (links <$> tags s) l -> NoDup (a :: l) -> 0 ∉ a :: l ->
  tags s !! a = Some t -> links t = (0, 0) ->
  insert_tag a index s = Ok (tt, set_freePages (<[Z.to_nat i := a]> (l_freePages s))
    (set_tags (pushed i a l (tags s)) s)).
Proof.
  intros i Hi Hf Hc Hn H0 Ha Hl. assert (Ha0 : a <> 0) by (intros ->; set_solver).
  unfold insert_tag. mgo get_tag_ok; [|exact Ha0|exact Ha].
  change (if index <? 0 then _ else index) with i. mgo upd_tag_ok; [|exact Ha0|by eexists].
  mgo free_head_ok; [|exact Hi|exact Hf].
  assert (Haf : a <> first_of l).
  { intros E. apply NoDup_cons in Hn as [Hal _]. apply Hal. rewrite E. apply first_of_in. by rewrite <- E. }
  assert (Hsome : first_of l <> 0 -> is_Some (tags s !! first_of l)).
  { destruct l as [|b l']; [done|]. intros _. pose proof (tag_chain_lookup _ [] _ _ Hc) as HL.
    rewrite lookup_fmap in HL. cbn in *. destruct (tags s !! b); [eauto|done]. }
  destruct (Z.eqb_spec (first_of l) 0) as [E0|E0]; cbn [negb].
  - erewrite bind_ok by done. erewrite set_free_head_ok by (done || exact Hf). do 2 f_equal.
    unfold pushed. rewrite E0. unfold alter_if. cbn [Z.eqb]. unfold set_freePages, set_tags. cbn. f_equal.
    apply map_eq. intros b. destruct (decide (b = a)) as [->|Hb]; [|by rewrite !lookup_alter_ne].
    rewrite !lookup_alter_eq, Ha. cbn. f_equal. injection Hl as E1 _. unfold set_t_next, set_t_index. cbn. by rewrite E1.
  - erewrite bind_ok; [|erewrite bind_ok; [|apply upd_tag_ok; [exact E0|]]; [cbv beta|]].
    2:{ apply upd_tag_ok; [exact Ha0|]. cbn [tags set_tags]. rewrite lookup_alter_ne, lookup_alter_eq, Ha by done. by eexists. }
    2:{ cbn [tags set_tags]. rewrite lookup_alter_ne by done. by apply Hsome. }
    erewrite set_free_head_ok by (done || exact Hf). do 2 f_equal.
    unfold pushed, alter_if. rewrite (proj2 (Z.eqb_neq _ _) E0). unfold set_freePages, set_tags. cbn. f_equal.
    apply map_eq. intros b. destruct (decide (b = a)) as [->|Hb].
    + rewrite !lookup_alter_eq, !(lookup_alter_ne (set_t_prev a)), lookup_alter_eq by done. by rewrite Ha.
    + destruct (decide (b = first_of l)) as [->|Hb2].
      * rewrite (lookup_alter_ne _ _ a), lookup_alter_eq, (lookup_alter_ne _ _ a) by done.
        by rewrite (lookup_alter_ne _ _ a), lookup_alter_eq by done.
      * by rewrite !lookup_alter_ne by done.
Qed.

End tag_ops.

Arguments get_tag_ok : clear implicits.
Arguments upd_tag_ok : clear implicits.
Arguments upd_tag_if_ok : clear implicits.
Arguments free_head_ok : clear implicits.
Arguments set_free_head_ok : clear implicits.
Arguments complete_ok : clear implicits.
Arguments set_complete_ok : clear implicits.
