(* ===== verification/LiballocInv.v ===== *)
(** * The heap: segments

    The invariant of the heap on three levels: runs of pages ([arenas_ok]), the
    segments they are cut into ([segs_ok]) and the free lists ([lists_ok]), with
    the transitions the operations make: a segment changes hands, is split, is
    joined with its neighbour, a run of pages comes or goes. *)

From S2P Require Import Prelude Dll Liballoc LiballocTags.

(** A segment is in use with so many bytes asked for, free and listed, or in
    the hands of an operation. *)
Inductive status := Used (n : Z) | Busy | Free.
#[export] Instance status_eq_dec : EqDecision status.
Proof. solve_decision. Defined.

Record seg := mkSeg { g_real : Z; g_st : status }.

(** ** Size classes *)

Lemma getexp_loop_bounds n : forall shift size, shift <= 32 ->
  shift <= getexp_loop n shift size <= 32 \/ getexp_loop n shift size = shift.
Proof.
  induction n as [|n IH]; intros shift size H; cbn [getexp_loop]; [auto|].
  destruct (Z.ltb_spec shift MAXEXP); [|auto]. destruct (size <? _); [auto|].
  unfold MAXEXP in *. destruct (IH (shift + 1) size); lia.
Qed.

Lemma bucket_range r : 8 <= bucket r < 32.
Proof.
  unfold bucket, MINEXP. set (e := getexp _). assert (-1 <= e < 32).
  { subst e. unfold getexp. destruct (_ <? _); [lia|].
    destruct (getexp_loop_bounds (Z.to_nat (MAXEXP - MINEXP)) MINEXP (u32 (r - TAG))); unfold MINEXP in *; lia. }
  destruct (Z.ltb_spec e 8); lia.
Qed.

(** [getexp] answers -1 exactly below the smallest class. *)
Lemma getexp_nonneg r : 0 <= getexp r <-> 256 <= r.
Proof.
  unfold getexp. change (Z.shiftl 1 MINEXP) with 256. destruct (Z.ltb_spec r 256); [lia|].
  destruct (getexp_loop_bounds (Z.to_nat (MAXEXP - MINEXP)) MINEXP r); unfold MINEXP in *; lia.
Qed.

(** ** Runs of pages *)

Record arenas_ok (hhdm : Z) (tk : Z -> bool) (A : gmap Z Z) : Prop := {
  ar_hhdm : 0 <= hhdm /\ hhdm mod 2 ^ 32 = 0 /\ hhdm + 2 ^ 32 <= 2 ^ 64;
  ar_run : forall base n, A !! base = Some n -> exists k, base = hhdm + k * 4096 /\ 0 < k /\
    16 <= n < 2 ^ 19 /\ k + n < 2 ^ 20 /\ forall j, k <= j < k + n -> tk j = true;
  ar_apart : forall b n b' n', A !! b = Some n -> A !! b' = Some n' -> b < b' -> b + n * 4096 <= b';
}.

(** ** Segments *)

(** The end of a run of pages that begins at or before [a]. *)
Definition run_end (A : gmap Z Z) (a e : Z) : Prop :=
  exists base n, A !! base = Some n /\ base <= a /\ e = base + n * 4096.

Record tag_ok (A : gmap Z Z) (G : gmap Z seg) (a : Z) (g : seg) (c : boundary_tag) : Prop := {
  tg_magic : t_magic c = LIBALLOC_MAGIC;
  tg_real : t_real_size c = g_real g;
  tg_min : TAG <= g_real g;
  tg_right : (t_split_right c = 0 /\ run_end A a (a + g_real g)) \/
    (t_split_right c = a + g_real g /\ is_Some (G !! (a + g_real g)) /\ A !! (a + g_real g) = None);
  tg_left : (t_split_left c = 0 /\ is_Some (A !! a)) \/
    (A !! a = None /\ exists gb, G !! t_split_left c = Some gb /\ t_split_left c + g_real gb = a);
  tg_status : match g_st g with
    | Used n => t_index c = -1 /\ t_size c = n /\ 0 <= n /\ n + TAG <= g_real g
    | Busy => t_index c = -1
    | Free => t_index c = bucket (g_real g)
    end;
}.

Record segs_ok (A : gmap Z Z) (G : gmap Z seg) (cv : gmap Z boundary_tag) : Prop := {
  sg_sorted : forall a g b g', G !! a = Some g -> G !! b = Some g' -> a < b -> a + g_real g <= b;
  sg_inside : forall a g, G !! a = Some g -> exists base n,
    A !! base = Some n /\ base <= a /\ a + g_real g <= base + n * 4096;
  sg_tag : forall a g, G !! a = Some g -> exists c, cv !! a = Some c /\ tag_ok A G a g c;
  sg_calm : forall a g g', G !! a = Some g -> G !! (a + g_real g) = Some g' -> A !! (a + g_real g) = None ->
    g_st g = Free -> g_st g' = Free -> False;
}.

Section segs.
Context (hhdm : Z) (tk : Z -> bool) (A : gmap Z Z) (HA : arenas_ok hhdm tk A).
Context (G : gmap Z seg) (cv : gmap Z boundary_tag) (HG : segs_ok A G cv).

Lemma seg_min a g : G !! a = Some g -> TAG <= g_real g.
Proof. intros Hg. destruct (sg_tag _ _ _ HG a g Hg) as (c & _ & T). apply T. Qed.

Lemma seg_range a g : G !! a = Some g -> 0 <= hhdm /\ hhdm + 4096 <= a /\ a + g_real g <= hhdm + (2 ^ 32 - 4096).
Proof.
  intros Hg. pose proof (ar_hhdm _ _ _ HA). destruct (sg_inside _ _ _ HG a g Hg) as (base & n & HB & H1 & H2).
  destruct (ar_run _ _ _ HA base n HB) as (k & -> & Hk & Hn & Hkn & _). lia.
Qed.

(** Two segments that end at the same place are one. *)
Lemma seg_end_inj a g b g' :
  G !! a = Some g -> G !! b = Some g' -> a + g_real g = b + g_real g' -> a = b.
Proof.
  intros Ha Hb E. pose proof (seg_min a g Ha). pose proof (seg_min b g' Hb). unfold TAG in *.
  destruct (Z.lt_trichotomy a b) as [H1|[H1|H1]]; [|done|].
  - pose proof (sg_sorted _ _ _ HG _ _ _ _ Ha Hb H1). lia.
  - pose proof (sg_sorted _ _ _ HG _ _ _ _ Hb Ha H1). lia.
Qed.

(** A run does not end inside another one, nor where its own next segment begins. *)
Lemma end_not_inside a g b gb :
  G !! a = Some g -> run_end A a b -> a < b -> G !! b = Some gb -> A !! b = None -> False.
Proof.
  intros Ha (base & n & HB & H1 & ->) Hab Hb HN.
  destruct (sg_inside _ _ _ HG _ _ Hb) as (base' & n' & HB' & H2 & H3).
  pose proof (seg_min _ _ Hb). unfold TAG in *.
  assert (base' <> base + n * 4096) by (intros E; rewrite <- E in HN; congruence).
  destruct (Z.lt_trichotomy base base') as [H4|[<-|H4]].
  - pose proof (ar_apart _ _ _ HA _ _ _ _ HB HB' H4). lia.
  - assert (n' = n) as -> by congruence. lia.
  - pose proof (ar_apart _ _ _ HA _ _ _ _ HB' HB H4). lia.
Qed.

Lemma inside_no_base a g x : G !! a = Some g -> a < x < a + g_real g -> A !! x = None.
Proof.
  intros Hg Hx. destruct (sg_inside _ _ _ HG a g Hg) as (base & n & HB & H1 & H2).
  destruct (A !! x) as [m|] eqn:E; [|done]. pose proof (ar_apart _ _ _ HA _ _ _ _ HB E ltac:(lia)). lia.
Qed.

(** The two links between neighbours agree. *)
Lemma right_left a g c : G !! a = Some g -> cv !! a = Some c -> t_split_right c <> 0 ->
  t_split_right c = a + g_real g /\ A !! (a + g_real g) = None /\ exists gb cb,
    G !! (a + g_real g) = Some gb /\ cv !! (a + g_real g) = Some cb /\ tag_ok A G (a + g_real g) gb cb /\
    t_split_left cb = a.
Proof.
  intros Hg Hc Hr. destruct (sg_tag _ _ _ HG a g Hg) as (c' & Hc' & T). assert (c' = c) as -> by congruence.
  destruct (tg_right _ _ _ _ _ T) as [[E _]|(E & [gb Hb] & HN)]; [done|]. split; [done|]. split; [done|].
  destruct (sg_tag _ _ _ HG _ gb Hb) as (cb & Hcb & Tb). exists gb, cb. split_and!; [done..|].
  destruct (tg_left _ _ _ _ _ Tb) as [[_ [x Hx]]|(_ & gl & Hl & El)]; [congruence|].
  symmetry. by apply (seg_end_inj a g (t_split_left cb) gl).
Qed.

Lemma left_right b gb cb : G !! b = Some gb -> cv !! b = Some cb -> t_split_left cb <> 0 ->
  A !! b = None /\ exists g c, G !! t_split_left cb = Some g /\ cv !! t_split_left cb = Some c /\
    tag_ok A G (t_split_left cb) g c /\ t_split_left cb + g_real g = b /\ t_split_right c = b.
Proof.
  intros Hg Hc Hl. destruct (sg_tag _ _ _ HG b gb Hg) as (c' & Hc' & T). assert (c' = cb) as -> by congruence.
  destruct (tg_left _ _ _ _ _ T) as [[E _]|(HN & g & Hgl & E)]; [done|]. split; [done|].
  destruct (sg_tag _ _ _ HG _ g Hgl) as (c & Hcl & Tl). exists g, c. split_and!; [done..|].
  destruct (tg_right _ _ _ _ _ Tl) as [[_ He]|(E' & _ & _)]; [|congruence].
  exfalso. rewrite E in He. pose proof (seg_min _ _ Hgl). unfold TAG in *.
  eapply (end_not_inside _ g b gb); [exact Hgl|exact He|lia|exact Hg|exact HN].
Qed.

(** Null links mark the ends of the run. *)
Lemma whole_links a g c : G !! a = Some g -> cv !! a = Some c ->
  t_split_left c = 0 /\ t_split_right c = 0 <-> exists n, A !! a = Some n /\ g_real g = n * 4096.
Proof.
  intros Hg Hc. destruct (sg_tag _ _ _ HG a g Hg) as (c' & Hc' & T). assert (c' = c) as -> by congruence.
  pose proof (seg_range a g Hg) as Hr. pose proof (seg_min a g Hg). unfold TAG in *. split.
  - intros [El Er]. destruct (tg_left _ _ _ _ _ T) as [[_ [n Hn]]|(_ & gb & Hb & _)].
    2:{ rewrite El in Hb. pose proof (seg_range _ _ Hb). lia. }
    exists n. split; [done|].
    destruct (tg_right _ _ _ _ _ T) as [[_ (base & m & HB & H1 & H2)]|(E & _)]; [|lia].
    destruct (Z.eq_dec base a) as [->|Hne]; [assert (m = n) as -> by congruence; lia|].
    pose proof (ar_apart _ _ _ HA _ _ _ _ HB Hn ltac:(lia)). lia.
  - intros (n & Hn & En). split.
    + destruct (tg_left _ _ _ _ _ T) as [[E _]|(HN & _)]; [done|congruence].
    + destruct (tg_right _ _ _ _ _ T) as [[E _]|(E & [gb Hb] & HN)]; [done|]. exfalso.
      apply (end_not_inside a g (a + g_real g) gb); [exact Hg| |lia|exact Hb|exact HN].
      exists a, n. split; [done|]. lia.
Qed.

(** *** A segment changes hands *)

Lemma segs_status a g c st' c' :
  G !! a = Some g -> cv !! a = Some c ->
  t_magic c' = t_magic c -> t_real_size c' = t_real_size c ->
  t_split_left c' = t_split_left c -> t_split_right c' = t_split_right c ->
  match st' with
  | Used n => t_index c' = -1 /\ t_size c' = n /\ 0 <= n /\ n + TAG <= g_real g
  | Busy => t_index c' = -1
  | Free => t_index c' = bucket (g_real g)
  end ->
  (st' = Free -> (forall g', G !! (a + g_real g) = Some g' -> A !! (a + g_real g) = None -> g_st g' <> Free) /\
    forall b g', G !! b = Some g' -> b + g_real g' = a -> A !! a = None -> g_st g' <> Free) ->
  segs_ok A (<[a := mkSeg (g_real g) st']> G) (<[a := c']> cv).
Proof.
  intros Hg Hc E1 E2 E3 E4 Hst Hcalm.
  assert (Hreal : forall b g', <[a := mkSeg (g_real g) st']> G !! b = Some g' ->
    exists g0, G !! b = Some g0 /\ g_real g' = g_real g0 /\ (b <> a -> g' = g0)).
  { intros b g' [[<- <-]|[Hb H]]%lookup_insert_Some; [exists g|exists g']; by split_and!. }
  assert (Hsome : forall b, is_Some (G !! b) -> is_Some (<[a := mkSeg (g_real g) st']> G !! b)).
  { intros b Hb. destruct (decide (b = a)) as [->|Hne]; [rewrite lookup_insert_eq; by eexists|].
    by rewrite lookup_insert_ne. }
  assert (Hleft : forall b g0, G !! b = Some g0 -> exists g1,
    <[a := mkSeg (g_real g) st']> G !! b = Some g1 /\ g_real g1 = g_real g0).
  { intros b g0 Hb. destruct (decide (b = a)) as [->|Hne].
    - rewrite lookup_insert_eq. eexists. split; [done|]. cbn. congruence.
    - rewrite lookup_insert_ne by done. eauto. }
  destruct HG as [Hs Hi Ht Hq]. split.
  - intros x gx y gy (gx' & Hx & -> & _)%Hreal (gy' & Hy & _)%Hreal. by apply (Hs x gx' y gy').
  - intros x gx (gx' & Hx & -> & _)%Hreal. by apply Hi.
  - intros x gx Hx. destruct (Hreal _ _ Hx) as (gx' & Hx' & Er & Hne).
    destruct (Ht x gx' Hx') as (cx & Hcx & [M R Mi Ri Le St]).
    destruct (decide (x = a)) as [->|Hxa].
    + rewrite lookup_insert_eq in Hx. injection Hx as <-. assert (gx' = g) as -> by congruence.
      assert (cx = c) as -> by congruence. exists c'. split; [apply lookup_insert_eq|].
      split; cbn [g_real g_st]; rewrite ?E1, ?E2, ?E3, ?E4; try done.
      * destruct Ri as [?|(? & ? & ?)]; [by left|right]. eauto.
      * destruct Le as [?|(? & gb & Hb & ?)]; [by left|right]. split; [done|].
        destruct (Hleft _ _ Hb) as (g1 & Hg1 & Er1). exists g1. split; [done|]. lia.
    + rewrite (Hne Hxa) in *. exists cx. split; [by rewrite lookup_insert_ne|]. split; try done.
      * destruct Ri as [?|(? & ? & ?)]; [by left|right]. eauto.
      * destruct Le as [?|(? & gb & Hb & ?)]; [by left|right]. split; [done|].
        destruct (Hleft _ _ Hb) as (g1 & Hg1 & Er1). exists g1. split; [done|]. lia.
  - intros x gx gy Hx Hy HN Fx Fy. destruct (Hreal _ _ Hx) as (gx' & Hx' & Er & Hne).
    rewrite Er in *. destruct (Hreal _ _ Hy) as (gy' & Hy' & _ & Hne').
    pose proof (seg_min _ _ Hx') as Hmin. unfold TAG in Hmin.
    destruct (decide (x = a)) as [->|Hxa].
    + rewrite lookup_insert_eq in Hx. injection Hx as <-. assert (gx' = g) as -> by congruence. cbn in Fx.
      destruct (Hcalm Fx) as [Hr _]. rewrite (Hne' ltac:(lia)) in Fy. by apply (Hr gy').
    + rewrite (Hne Hxa) in Fx. destruct (decide (x + g_real gx' = a)) as [Ea|Hya].
      * rewrite Ea in *. rewrite lookup_insert_eq in Hy. injection Hy as <-. cbn in Fy.
        destruct (Hcalm Fy) as [_ Hl]. by apply (Hl x gx').
      * rewrite (Hne' Hya) in Fy. by apply (Hq x gx' gy').
Qed.

(** *** A segment is split *)

Lemma segs_split a r n c cn cv' :
  let na := a + (TAG + n) in
  let rem := r - (TAG + n) in
  let rr := t_split_right c in
  G !! a = Some (mkSeg r (Used n)) -> cv !! a = Some c -> TAG <= rem ->
  (forall g', G !! (a + r) = Some g' -> A !! (a + r) = None -> g_st g' <> Free) ->
  cv' !! a = Some (set_t_real (r - rem) (set_t_right na c)) ->
  cv' !! na = Some cn -> t_magic cn = LIBALLOC_MAGIC -> t_real_size cn = rem ->
  t_index cn = bucket rem -> t_split_left cn = a -> t_split_right cn = rr ->
  (rr <> 0 -> forall cr, cv !! rr = Some cr -> cv' !! rr = Some (set_t_left na cr)) ->
  (forall b, b <> a -> b <> na -> (b <> rr \/ rr = 0) -> cv' !! b = cv !! b) ->
  segs_ok A (<[na := mkSeg rem Free]> (<[a := mkSeg (TAG + n) (Used n)]> G)) cv'.
Proof.
  intros na rem rr Hg Hc Hrem Hcalm Ca Cn M1 M2 M3 M4 M5 Cr Co.
  destruct (sg_tag _ _ _ HG a _ Hg) as (c0 & Hc0 & [M R Mi Ri Le (S1 & S2 & S3 & S4)]).
  assert (c0 = c) as -> by congruence. cbn [g_real g_st] in *. unfold TAG in *.
  pose proof (seg_range a _ Hg) as Hra. cbn [g_real] in Hra.
  assert (Hno : forall b g', G !! b = Some g' -> b <> na /\ (b <> a -> b + g_real g' <= a \/ a + r <= b)).
  { intros b g' Hb. destruct (Z.lt_trichotomy a b) as [H1|[H1|H1]].
    - pose proof (sg_sorted _ _ _ HG _ _ _ _ Hg Hb H1) as H2. cbn in H2. split; [lia|]. intros _. lia.
    - split; [lia|]. intros E. congruence.
    - pose proof (sg_sorted _ _ _ HG _ _ _ _ Hb Hg H1) as H2. pose proof (seg_min _ _ Hb). unfold TAG in *.
      split; [lia|]. intros _. lia. }
  assert (HAn : A !! na = None) by (apply (inside_no_base a (mkSeg r (Used n))); [done|cbn; lia]).
  assert (Hmem : forall b, is_Some (G !! b) ->
    is_Some (<[na := mkSeg rem Free]> (<[a := mkSeg (48 + n) (Used n)]> G) !! b)).
  { intros b Hb. destruct (decide (b = na)) as [->|]; [rewrite lookup_insert_eq; by eexists|].
    rewrite lookup_insert_ne by done. destruct (decide (b = a)) as [->|]; [rewrite lookup_insert_eq; by eexists|].
    by rewrite lookup_insert_ne. }
  assert (Hcase : forall b g', <[na := mkSeg rem Free]> (<[a := mkSeg (48 + n) (Used n)]> G) !! b = Some g' ->
    (b = na /\ g' = mkSeg rem Free) \/ (b = a /\ g' = mkSeg (48 + n) (Used n)) \/ (b <> na /\ b <> a /\ G !! b = Some g')).
  { intros b g' [[<- <-]|[H1 [[<- <-]|[H2 H3]]%lookup_insert_Some]]%lookup_insert_Some; [tauto|tauto|].
    right; right. split_and!; congruence. }
  pose proof HG as [Hs Hi Ht Hq]. split.
  - intros x gx y gy Hx Hy Hxy.
    destruct (Hcase _ _ Hx) as [[-> ->]|[[-> ->]|(X1 & X2 & X3)]],
      (Hcase _ _ Hy) as [[-> ->]|[[-> ->]|(Y1 & Y2 & Y3)]]; cbn [g_real]; try lia.
    + destruct (Hno _ _ Y3) as [_ H]. specialize (H Y2). pose proof (seg_min _ _ Y3). unfold TAG in *. lia.
    + destruct (Hno _ _ Y3) as [_ H]. specialize (H Y2). pose proof (seg_min _ _ Y3). unfold TAG in *. lia.
    + destruct (Hno _ _ X3) as [_ H]. specialize (H X2). pose proof (seg_min _ _ X3). unfold TAG in *. lia.
    + destruct (Hno _ _ X3) as [_ H]. specialize (H X2). pose proof (seg_min _ _ X3). unfold TAG in *. lia.
    + by apply (Hs x gx y gy).
  - intros x gx Hx. destruct (Hi a _ Hg) as (base & m & HB & H1 & H2). cbn in H2.
    destruct (Hcase _ _ Hx) as [[-> ->]|[[-> ->]|(X1 & X2 & X3)]]; cbn [g_real].
    + exists base, m. split; [done|lia].
    + exists base, m. split; [done|lia].
    + by apply Hi.
  - intros x gx Hx. destruct (Hcase _ _ Hx) as [[-> ->]|[[-> ->]|(X1 & X2 & X3)]].
    + exists cn. split; [done|]. split; cbn [g_real g_st]; try done.
      * rewrite M5. replace (na + rem) with (a + r) by lia. destruct Ri as [(E & base & m & HB & H1 & H2)|(E & E1 & E2)].
        -- left. split; [done|]. exists base, m. split; [done|lia].
        -- right. split; [done|]. split; [by apply Hmem|done].
      * right. split; [done|]. rewrite M4. rewrite lookup_insert_ne, lookup_insert_eq by lia.
        eexists. split; [done|]. cbn. lia.
    + eexists. split; [done|]. split; cbn [g_real g_st t_magic t_real_size t_split_left t_split_right t_index t_size set_t_real set_t_right]; unfold TAG; [done|lia|lia| | |].
      * right. split; [lia|]. fold na. split; [rewrite lookup_insert_eq; by eexists|done].
      * destruct Le as [?|(E & gb & Hb & E2)]; [by left|right]. split; [done|]. exists gb.
        destruct (Hno _ _ Hb) as [N1 _]. pose proof (seg_min _ _ Hb). unfold TAG in *.
        rewrite !lookup_insert_ne by lia. done.
      * split_and!; [done|done|done|lia].
    + destruct (Ht x gx X3) as (cx & Hcx & Tx). pose proof Tx as [Mx Rx Mix Rix Lex Stx].
      pose proof (seg_range x _ X3) as Hrx.
      assert (Rix' : (t_split_right cx = 0 /\ run_end A x (x + g_real gx)) \/
        (t_split_right cx = x + g_real gx /\ is_Some (<[na := mkSeg rem Free]> (<[a := mkSeg (48 + n) (Used n)]> G) !! (x + g_real gx)) /\
         A !! (x + g_real gx) = None)).
      { destruct Rix as [?|(? & ? & ?)]; [by left|right]. split; [done|]. split; [by apply Hmem|done]. }
      destruct (decide (x = rr /\ rr <> 0)) as [[-> Hrr]|Hxr].
      * exists (set_t_left na cx). split; [by apply Cr|]. split; try done.
        right. destruct Ri as [[? _]|(E & _ & E2)]; [done|]. fold rr in E. rewrite E. split; [done|].
        cbn [t_split_left set_t_left]. rewrite lookup_insert_eq. eexists. split; [done|]. cbn. lia.
      * exists cx. split; [rewrite Co; [done|done|done|destruct (decide (rr = 0)); [by right|left; tauto]]|].
        split; try done. destruct Lex as [?|(E & gb & Hb & E2)]; [by left|right]. split; [done|]. exists gb.
        destruct (Hno _ _ Hb) as [N1 _]. split; [|done]. rewrite lookup_insert_ne by done.
        rewrite lookup_insert_ne; [done|]. intros Ea. apply Hxr.
        pose proof (left_right x gx cx X3 Hcx) as LR. rewrite <- Ea in LR.
        destruct LR as (_ & g1 & c1 & _ & Hc1 & _ & _ & E3); [lia|].
        assert (c1 = c) as -> by congruence. fold rr in E3. lia.
  - intros x gx gy Hx Hy HN Fx Fy.
    destruct (Hcase _ _ Hx) as [[-> ->]|[[-> ->]|(X1 & X2 & X3)]]; [|done|]; cbn [g_real g_st] in *.
    + replace (na + rem) with (a + r) in * by lia. rewrite !lookup_insert_ne in Hy by lia.
      by apply (Hcalm gy).
    + destruct (Hcase _ _ Hy) as [[E ->]|[[E ->]|(Y1 & Y2 & Y3)]]; [|done|by apply (Hq x gx gy)].
      destruct (Hno _ _ X3) as [_ H]. specialize (H X2). pose proof (seg_min _ _ X3). unfold TAG in *. lia.
Qed.

(** *** Two neighbours are joined *)

Lemma segs_merge a ra b gb ca cb cn cv' :
  let rr := t_split_right cb in
  G !! a = Some (mkSeg ra Busy) -> G !! b = Some gb -> b = a + ra -> A !! b = None ->
  cv !! a = Some ca -> cv !! b = Some cb ->
  cv' !! a = Some cn -> t_magic cn = LIBALLOC_MAGIC -> t_real_size cn = ra + g_real gb ->
  t_index cn = -1 -> t_split_left cn = t_split_left ca -> t_split_right cn = rr ->
  (rr <> 0 -> forall cr, cv !! rr = Some cr -> cv' !! rr = Some (set_t_left a cr)) ->
  (forall x, x <> a -> x <> b -> (x <> rr \/ rr = 0) -> cv' !! x = cv !! x) ->
  segs_ok A (<[a := mkSeg (ra + g_real gb) Busy]> (delete b G)) cv'.
Proof.
  intros rr Ga Gb Eb HNb Ca Cb Cn M1 M2 M3 M4 M5 Cr Co.
  destruct (sg_tag _ _ _ HG a _ Ga) as (c0 & Hc0 & [_ _ Mia _ Lea _]). assert (c0 = ca) as -> by congruence.
  destruct (sg_tag _ _ _ HG b _ Gb) as (c0 & Hc0' & [_ _ Mib Rib _ _]). assert (c0 = cb) as -> by congruence.
  cbn [g_real] in *. unfold TAG in *. set (G' := <[a := _]> (delete b G)).
  pose proof (seg_range a _ Ga) as Hra. pose proof (seg_range b _ Gb) as Hrb.
  assert (Hno : forall x g', G !! x = Some g' -> x <> a -> x <> b -> x + g_real g' <= a \/ b + g_real gb <= x).
  { intros x g' Hx H1 H2. destruct (Z.lt_trichotomy a x) as [H3|[H3|H3]]; [|lia|].
    - pose proof (sg_sorted _ _ _ HG _ _ _ _ Ga Hx H3) as H4. cbn in H4.
      pose proof (sg_sorted _ _ _ HG _ _ _ _ Gb Hx ltac:(lia)). lia.
    - pose proof (sg_sorted _ _ _ HG _ _ _ _ Hx Ga H3). lia. }
  assert (Hcase : forall x g', G' !! x = Some g' ->
    (x = a /\ g' = mkSeg (ra + g_real gb) Busy) \/ (x <> a /\ x <> b /\ G !! x = Some g')).
  { intros x g' [[<- <-]|[H1 [H2 H3]%lookup_delete_Some]]%lookup_insert_Some; [by left|right; split_and!; congruence]. }
  assert (Hkeep : forall x g', G !! x = Some g' -> x <> a -> x <> b -> G' !! x = Some g').
  { intros x g' Hx H1 H2. unfold G'. by rewrite lookup_insert_ne, lookup_delete_ne by done. }
  assert (Hmem : forall x, is_Some (G !! x) -> x <> b -> is_Some (G' !! x)).
  { intros x [g' Hx] Hb. destruct (decide (x = a)) as [->|]; [unfold G'; rewrite lookup_insert_eq; by eexists|].
    rewrite (Hkeep x g') by done. by eexists. }
  pose proof HG as [Hs Hi Ht Hq]. split.
  - intros x gx y gy Hx Hy Hxy.
    destruct (Hcase _ _ Hx) as [[-> ->]|(X1 & X2 & X3)], (Hcase _ _ Hy) as [[-> ->]|(Y1 & Y2 & Y3)]; cbn [g_real].
    + lia.
    + pose proof (Hno _ _ Y3 Y1 Y2). pose proof (seg_min _ _ Y3). unfold TAG in *. lia.
    + pose proof (Hno _ _ X3 X1 X2). pose proof (seg_min _ _ X3). unfold TAG in *. lia.
    + by apply (Hs x gx y gy).
  - intros x gx Hx. destruct (Hcase _ _ Hx) as [[-> ->]|(X1 & X2 & X3)]; [|by apply Hi]. cbn [g_real].
    destruct (Hi a _ Ga) as (base & m & HB & H1 & H2), (Hi b _ Gb) as (base' & m' & HB' & H1' & H2').
    cbn [g_real] in *. exists base, m. split; [done|]. split; [lia|].
    destruct (Z.lt_trichotomy base base') as [H3|[<-|H3]].
    + pose proof (ar_apart _ _ _ HA _ _ _ _ HB HB' H3).
      assert (base' = b) by lia. congruence.
    + assert (m' = m) as -> by congruence. lia.
    + pose proof (ar_apart _ _ _ HA _ _ _ _ HB' HB H3). lia.
  - intros x gx Hx. destruct (Hcase _ _ Hx) as [[-> ->]|(X1 & X2 & X3)].
    + exists cn. split; [done|]. split; cbn [g_real g_st]; unfold TAG; [done|done|lia| | |done].
      * rewrite M5. replace (a + (ra + g_real gb)) with (b + g_real gb) by lia.
        destruct Rib as [(E & base & m & HB & H1 & H2)|(E & E1 & E2)].
        -- left. split; [done|]. exists base, m. split; [done|]. split; [|done].
           assert (base <> b) by (intros ->; congruence).
           destruct (Z.le_gt_cases base a) as [|H3]; [done|].
           pose proof (inside_no_base a _ base Ga ltac:(cbn; lia)). congruence.
        -- right. split; [done|]. split; [apply Hmem; [done|lia]|done].
      * rewrite M4. destruct Lea as [?|(E & gl & Hl & E2)]; [by left|right]. split; [done|].
        exists gl. split; [|done]. pose proof (seg_min _ _ Hl). unfold TAG in *. apply Hkeep; [done|lia|lia].
    + destruct (Ht x gx X3) as (cx & Hcx & Tx). pose proof Tx as [Mx Rx Mix Rix Lex Stx].
      pose proof (seg_range x _ X3) as Hrx.
      assert (Rix' : (t_split_right cx = 0 /\ run_end A x (x + g_real gx)) \/
        (t_split_right cx = x + g_real gx /\ is_Some (G' !! (x + g_real gx)) /\ A !! (x + g_real gx) = None)).
      { destruct Rix as [?|(? & ? & ?)]; [by left|right]. split; [done|]. split; [|done].
        apply Hmem; [done|]. intros E. apply X1. apply (seg_end_inj x gx a _ X3 Ga). cbn. lia. }
      destruct (decide (x = rr /\ rr <> 0)) as [[-> Hrr]|Hxr].
      * exists (set_t_left a cx). split; [by apply Cr|]. split; try done.
        right. destruct Rib as [[? _]|(E & _ & E2)]; [done|]. fold rr in E. rewrite E. split; [done|].
        cbn [t_split_left set_t_left]. unfold G'. rewrite lookup_insert_eq. eexists. split; [done|]. cbn. lia.
      * exists cx. split; [rewrite Co; [done|done|done|destruct (decide (rr = 0)); [by right|left; tauto]]|].
        split; try done. destruct Lex as [?|(E & gl & Hl & E2)]; [by left|right]. split; [done|].
        destruct (decide (t_split_left cx = b)) as [El|Hlb].
        { exfalso. apply Hxr. pose proof (left_right x gx cx X3 Hcx) as LR. rewrite El in LR.
          destruct LR as (_ & g1 & c1 & _ & Hc1 & _ & _ & E3); [lia|].
          assert (c1 = cb) as -> by congruence. fold rr in E3. lia. }
        destruct (decide (t_split_left cx = a)) as [El|Hla].
        { exfalso. rewrite El in *. assert (gl = mkSeg ra Busy) as -> by congruence. cbn in E2. lia. }
        exists gl. split; [by apply Hkeep|done].
  - intros x gx gy Hx Hy HN Fx Fy.
    destruct (Hcase _ _ Hx) as [[-> ->]|(X1 & X2 & X3)]; [done|].
    destruct (Hcase _ _ Hy) as [[E ->]|(Y1 & Y2 & Y3)]; [done|by apply (Hq x gx gy)].
Qed.

(** *** A run of pages comes or goes *)

Definition outside_arenas (base n : Z) : Prop :=
  forall b m, A !! b = Some m -> b + m * 4096 <= base \/ base + n * 4096 <= b.

Lemma outside_segs base n x g : outside_arenas base n -> 0 < n -> G !! x = Some g ->
  x + g_real g <= base \/ base + n * 4096 <= x.
Proof.
  intros HO Hn Hx. destruct (sg_inside _ _ _ HG x g Hx) as (b & m & HB & H1 & H2).
  destruct (HO b m HB); [left|right]; lia.
Qed.

Lemma segs_arena base n m c :
  outside_arenas base n -> 0 < n -> 0 <= m -> m + TAG <= n * 4096 ->
  t_magic c = LIBALLOC_MAGIC -> t_real_size c = n * 4096 -> t_index c = -1 -> t_size c = m ->
  t_split_left c = 0 -> t_split_right c = 0 ->
  segs_ok (<[base := n]> A) (<[base := mkSeg (n * 4096) (Used m)]> G) (<[base := c]> cv).
Proof.
  intros HO Hn Hm Hmn M1 M2 M3 M4 M5 M6. unfold TAG in *.
  assert (HAb : A !! base = None).
  { destruct (A !! base) as [k|] eqn:E; [|done]. destruct (HO _ _ E); [|lia].
    destruct (ar_run _ _ _ HA _ _ E) as (? & _ & _ & ? & _). lia. }
  assert (Hno : forall x g, G !! x = Some g -> x <> base /\ (x + g_real g <= base \/ base + n * 4096 <= x)).
  { intros x g Hx. pose proof (outside_segs base n x g HO Hn Hx). pose proof (seg_min _ _ Hx). unfold TAG in *. lia. }
  assert (Hcase : forall x g', <[base := mkSeg (n * 4096) (Used m)]> G !! x = Some g' ->
    (x = base /\ g' = mkSeg (n * 4096) (Used m)) \/ (x <> base /\ G !! x = Some g')).
  { intros x g' [[<- <-]|[H1 H2]]%lookup_insert_Some; [by left|right; split; congruence]. }
  pose proof HG as [Hs Hi Ht Hq]. split.
  - intros x gx y gy Hx Hy Hxy.
    destruct (Hcase _ _ Hx) as [[-> ->]|(X1 & X3)], (Hcase _ _ Hy) as [[-> ->]|(Y1 & Y3)]; cbn [g_real].
    + lia.
    + destruct (Hno _ _ Y3). pose proof (seg_min _ _ Y3). unfold TAG in *. lia.
    + destruct (Hno _ _ X3). lia.
    + by apply (Hs x gx y gy).
  - intros x gx Hx. destruct (Hcase _ _ Hx) as [[-> ->]|(X1 & X3)]; cbn [g_real].
    + exists base, n. rewrite lookup_insert_eq. split; [done|lia].
    + destruct (Hi _ _ X3) as (b & k & HB & H). exists b, k. by rewrite lookup_insert_ne by congruence.
  - intros x gx Hx. destruct (Hcase _ _ Hx) as [[-> ->]|(X1 & X3)].
    + exists c. split; [apply lookup_insert_eq|]. split; cbn [g_real g_st]; unfold TAG; try done; [lia| |].
      * left. split; [done|]. exists base, n. rewrite lookup_insert_eq. split; [done|lia].
      * left. rewrite lookup_insert_eq. split; [done|by eexists].
    + destruct (Ht x gx X3) as (cx & Hcx & [Mx Rx Mix Rix Lex Stx]). exists cx.
      split; [by rewrite lookup_insert_ne|]. split; try done.
      * destruct Rix as [(E & b & k & HB & H)|(E & [g' Hg'] & E2)].
        -- left. split; [done|]. exists b, k. by rewrite lookup_insert_ne by congruence.
        -- right. destruct (Hno _ _ Hg') as [N1 _]. rewrite !lookup_insert_ne by done. split; [done|]. by split; [eexists|].
      * rewrite lookup_insert_ne by done. destruct Lex as [?|(E & gl & Hl & E2)]; [by left|right].
        split; [done|]. exists gl. destruct (Hno _ _ Hl) as [N1 _]. by rewrite lookup_insert_ne.
  - intros x gx gy Hx Hy HN Fx Fy.
    destruct (Hcase _ _ Hx) as [[-> ->]|(X1 & X3)]; [done|].
    destruct (Hcase _ _ Hy) as [[E ->]|(Y1 & Y3)]; [done|]. apply (Hq x gx gy); try done.
    by rewrite lookup_insert_ne in HN.
Qed.

Lemma segs_release base n st :
  A !! base = Some n -> G !! base = Some (mkSeg (n * 4096) st) ->
  segs_ok (delete base A) (delete base G) cv.
Proof.
  intros HB Gb. destruct (ar_run _ _ _ HA _ _ HB) as (_ & _ & _ & Hn & _).
  assert (Hend : run_end A base (base + n * 4096)) by (exists base, n; split; [done|lia]).
  pose proof HG as [Hs Hi Ht Hq]. split.
  - intros x gx y gy [_ Hx]%lookup_delete_Some [_ Hy]%lookup_delete_Some. by apply Hs with (g' := gy).
  - intros x gx [Hne Hx]%lookup_delete_Some. destruct (Hi _ _ Hx) as (b & k & HB' & H1 & H2).
    exists b, k. rewrite lookup_delete_ne; [done|]. intros <-. assert (k = n) as -> by congruence.
    pose proof (seg_min _ _ Hx). unfold TAG in *. pose proof (Hs _ _ _ _ Gb Hx ltac:(lia)) as H3. cbn in H3. lia.
  - intros x gx [Hne Hx]%lookup_delete_Some. destruct (Ht x gx Hx) as (cx & Hcx & [Mx Rx Mix Rix Lex Stx]).
    pose proof (seg_min _ _ Hx) as Hmin. unfold TAG in Hmin.
    exists cx. split; [done|]. split; try done.
    + destruct Rix as [(E & b & k & HB' & H1 & H2)|(E & [g' Hg'] & E2)].
      * left. split; [done|]. exists b, k. rewrite lookup_delete_ne; [done|]. intros <-.
        assert (k = n) as -> by congruence. pose proof (Hs _ _ _ _ Gb Hx ltac:(lia)) as H3. cbn in H3. lia.
      * right. split; [done|]. rewrite !lookup_delete_ne by congruence. by split; [eexists|].
    + destruct Lex as [[E E1]|(E & gl & Hl & E2)].
      * left. by rewrite lookup_delete_ne.
      * right. rewrite lookup_delete_ne by done. split; [done|]. exists gl.
        rewrite lookup_delete_ne; [done|]. intros Eb. rewrite <- Eb in *.
        assert (gl = mkSeg (n * 4096) st) as -> by congruence. cbn in E2. rewrite E2 in Hend.
        apply (end_not_inside base _ x gx Gb Hend); [lia|done|done].
  - intros x gx gy [Hx1 Hx]%lookup_delete_Some [Hy1 Hy]%lookup_delete_Some HN.
    rewrite lookup_delete_ne in HN by done. by apply (Hq x gx gy).
Qed.

End segs.
