(* ===== verification/LiballocLists.v ===== *)
(** * The heap: free lists

    Each free segment is in the list of its size class, once, and the counters
    tell how many of a list's segments are whole runs of pages. *)

From S2P Require Import Prelude Dll Liballoc LiballocTags LiballocInv.

(** A segment that fills its run of pages. *)
Definition whole (A : gmap Z Z) (G : gmap Z seg) (a : Z) : bool :=
  match A !! a, G !! a with
  | Some n, Some g => g_real g =? n * 4096
  | _, _ => false
  end.

Fixpoint wholes (A : gmap Z Z) (G : gmap Z seg) (l : list Z) : Z :=
  match l with [] => 0 | a :: l => Z.b2z (whole A G a) + wholes A G l end.

Lemma wholes_app A G l k : wholes A G (l ++ k) = wholes A G l + wholes A G k.
Proof. induction l as [|a l IH]; cbn; [done|]. rewrite IH. lia. Qed.

Lemma wholes_ext A G A' G' l : (forall a, a ∈ l -> whole A' G' a = whole A G a) -> wholes A' G' l = wholes A G l.
Proof.
  induction l as [|a l IH]; intros H; cbn; [done|]. rewrite H by left. rewrite IH; [done|].
  intros b Hb. apply H. by right.
Qed.

Lemma wholes_nonneg A G l : 0 <= wholes A G l.
Proof. induction l as [|a l IH]; cbn; [lia|]. destruct (whole A G a); cbn; lia. Qed.

(** A change of hands does not matter. *)
Lemma whole_status A G a r st st' b :
  G !! a = Some (mkSeg r st) -> whole A (<[a := mkSeg r st']> G) b = whole A G b.
Proof.
  intros Ha. unfold whole. destruct (decide (b = a)) as [->|Hb].
  - by rewrite lookup_insert_eq, Ha.
  - by rewrite lookup_insert_ne.
Qed.

Record bucket_ok (A : gmap Z Z) (G : gmap Z seg) (lv : gmap Z (Z * Z)) (fp cp : list Z) (i : Z) (l : list Z) : Prop := {
  bk_head : fp !! Z.to_nat i = Some (first_of l);
  bk_chain : chain lv l;
  bk_nodup : NoDup l;
  bk_free : forall a, a ∈ l <-> exists r, G !! a = Some (mkSeg r Free) /\ bucket r = i;
  bk_whole : cp !! Z.to_nat i = Some (wholes A G l);
  bk_max : wholes A G l <= MAXCOMPLETE;
}.

Record lists_ok (A : gmap Z Z) (G : gmap Z seg) (lv : gmap Z (Z * Z)) (fp cp : list Z) : Prop := {
  ls_lists : forall i, 8 <= i < 32 -> exists l, bucket_ok A G lv fp cp i l;
  ls_zero : forall a g, G !! a = Some g -> g_st g <> Free -> lv !! a = Some (0, 0);
}.

Section lists.
Context (A : gmap Z Z) (G : gmap Z seg) (lv : gmap Z (Z * Z)) (fp cp : list Z).
Context (HL : lists_ok A G lv fp cp).

(** The list a free segment is in. *)
Lemma free_split a r : G !! a = Some (mkSeg r Free) ->
  exists l1 l2, bucket_ok A G lv fp cp (bucket r) (l1 ++ a :: l2).
Proof.
  intros Ha. destruct (ls_lists _ _ _ _ _ HL (bucket r) (bucket_range r)) as (l & B).
  assert (a ∈ l) as (l1 & l2 & ->)%list_elem_of_split by (apply (bk_free _ _ _ _ _ _ _ B); eauto). eauto.
Qed.

(** A free segment is handed to an operation. *)
Lemma lists_take a r st l1 l2 lv' fp' cp' :
  G !! a = Some (mkSeg r Free) -> st <> Free ->
  bucket_ok A G lv fp cp (bucket r) (l1 ++ a :: l2) ->
  chain lv' (l1 ++ l2) -> lv' !! a = Some (0, 0) -> (forall b, b ∉ l1 ++ a :: l2 -> lv' !! b = lv !! b) ->
  fp' = <[Z.to_nat (bucket r) := first_of (l1 ++ l2)]> fp ->
  cp' = <[Z.to_nat (bucket r) := wholes A G (l1 ++ a :: l2) - Z.b2z (whole A G a)]> cp ->
  lists_ok A (<[a := mkSeg r st]> G) lv' fp' cp'.
Proof.
  intros Ha Hst B C Ca Co -> ->. pose proof B as [B1 B2 B3 B4 B5 B6]. pose proof (bucket_range r) as Hr.
  assert (Hw : forall l, wholes A (<[a := mkSeg r st]> G) l = wholes A G l).
  { intros l. apply wholes_ext. intros b _. by eapply whole_status. }
  assert (Hf : forall b r', <[a := mkSeg r st]> G !! b = Some (mkSeg r' Free) <->
    b <> a /\ G !! b = Some (mkSeg r' Free)).
  { intros b r'. rewrite lookup_insert_Some. split; [|intros []; right; split; congruence].
    intros [[_ E]|[]]; [congruence|split; congruence]. }
  apply lookup_lt_Some in B1 as L1. apply lookup_lt_Some in B5 as L2. split.
  - intros i Hi. destruct (decide (i = bucket r)) as [->|Hne].
    + exists (l1 ++ l2). split.
      * by rewrite list_lookup_insert_eq.
      * done.
      * apply NoDup_app in B3 as (N1 & N2 & [_ N3]%NoDup_cons). apply NoDup_app. split_and!; [done| |done].
        intros x Hx H. apply (N2 x Hx). by right.
      * intros b. setoid_rewrite Hf. split.
        -- intros Hb. assert (b <> a) as Hba.
           { intros ->. apply NoDup_app in B3 as (_ & N2 & [N3 _]%NoDup_cons).
             apply elem_of_app in Hb as [Hb|Hb]; [|done]. apply (N2 a Hb). left. }
           assert (b ∈ l1 ++ a :: l2) as (r' & H1 & H2)%B4; [|eauto].
           apply elem_of_app in Hb as [Hb|Hb]; apply elem_of_app; [by left|right; by right].
        -- intros (r' & [Hba H1] & H2). assert (b ∈ l1 ++ a :: l2) as Hb by (apply B4; eauto).
           apply elem_of_app in Hb as [Hb|Hb]; apply elem_of_app; [by left|right].
           by apply elem_of_cons in Hb as [->|Hb].
      * rewrite list_lookup_insert_eq by done. rewrite Hw, !wholes_app. cbn. f_equal. lia.
      * rewrite Hw. rewrite wholes_app in *. cbn in B6. destruct (whole A G a); cbn in B6; lia.
    + destruct (ls_lists _ _ _ _ _ HL i Hi) as (l & [D1 D2 D3 D4 D5 D6]). exists l.
      assert (Hout : forall b, b ∈ l -> b ∉ l1 ++ a :: l2).
      { intros b (r1 & H1 & H2)%D4 (r2 & H3 & H4)%B4. congruence. }
      split; [by rewrite list_lookup_insert_ne by lia| |done| |by rewrite Hw, list_lookup_insert_ne by lia|by rewrite Hw].
      * apply (tag_chain_frame lv); [|done]. intros b Hb. by apply Co, Hout.
      * intros b. rewrite D4. setoid_rewrite Hf. split; intros (r' & H1 & H2); [|naive_solver].
        exists r'. split; [|done]. split; [|done]. intros ->. congruence.
  - intros b g Hb Hg. destruct (decide (b = a)) as [->|Hba]; [done|]. rewrite lookup_insert_ne in Hb by done.
    rewrite Co; [by apply (ls_zero _ _ _ _ _ HL b g)|]. intros (r' & H1 & H2)%B4. assert (g = mkSeg r' Free) as -> by congruence. done.
Qed.

(** A segment is put in front of its list. *)
Lemma lists_put a r st l lv' fp' cp' :
  G !! a = Some (mkSeg r st) -> st <> Free ->
  bucket_ok A G lv fp cp (bucket r) l ->
  chain lv' (a :: l) -> (forall b, b ∉ a :: l -> lv' !! b = lv !! b) ->
  fp' = <[Z.to_nat (bucket r) := a]> fp ->
  cp' = <[Z.to_nat (bucket r) := wholes A G l + Z.b2z (whole A G a)]> cp ->
  wholes A G l + Z.b2z (whole A G a) <= MAXCOMPLETE ->
  lists_ok A (<[a := mkSeg r Free]> G) lv' fp' cp'.
Proof.
  intros Ha Hst B C Co -> -> Hmax. pose proof B as [B1 B2 B3 B4 B5 B6]. pose proof (bucket_range r) as Hr.
  assert (Hal : a ∉ l) by (intros (r' & H1 & H2)%B4; congruence).
  assert (Hw : forall l, wholes A (<[a := mkSeg r Free]> G) l = wholes A G l).
  { intros k. apply wholes_ext. intros b _. by eapply whole_status. }
  assert (Hf : forall b r', <[a := mkSeg r Free]> G !! b = Some (mkSeg r' Free) <->
    (b = a /\ r' = r) \/ G !! b = Some (mkSeg r' Free)).
  { intros b r'. rewrite lookup_insert_Some. split.
    - intros [[-> E]|[]]; [left; split; congruence|by right].
    - intros [[-> ->]|H]; [by left|right]. split; [|done]. intros ->. congruence. }
  apply lookup_lt_Some in B1 as L1. apply lookup_lt_Some in B5 as L2. split.
  - intros i Hi. destruct (decide (i = bucket r)) as [->|Hne].
    + exists (a :: l). split.
      * by rewrite list_lookup_insert_eq.
      * done.
      * by apply NoDup_cons.
      * intros b. setoid_rewrite Hf. rewrite elem_of_cons, B4. naive_solver.
      * rewrite list_lookup_insert_eq by done. cbn. rewrite Hw, (whole_status A G a r st) by done. f_equal. lia.
      * cbn. rewrite Hw, (whole_status A G a r st) by done. lia.
    + destruct (ls_lists _ _ _ _ _ HL i Hi) as (k & [D1 D2 D3 D4 D5 D6]). exists k.
      assert (Hout : forall b, b ∈ k -> b ∉ a :: l).
      { intros b (r1 & H1 & H2)%D4 [->|(r2 & H3 & H4)%B4]%elem_of_cons; congruence. }
      split; [by rewrite list_lookup_insert_ne by lia| |done| |by rewrite Hw, list_lookup_insert_ne by lia|by rewrite Hw].
      * apply (tag_chain_frame lv); [|done]. intros b Hb. by apply Co, Hout.
      * intros b. rewrite D4. setoid_rewrite Hf. naive_solver.
  - intros b g Hb Hg. destruct (decide (b = a)) as [->|Hba].
    { rewrite lookup_insert_eq in Hb. by injection Hb as <-. }
    rewrite lookup_insert_ne in Hb by done. rewrite Co; [by apply (ls_zero _ _ _ _ _ HL b g)|].
    intros [->|(r' & H1 & H2)%B4]%elem_of_cons; [done|]. assert (g = mkSeg r' Free) as -> by congruence. done.
Qed.

(** A change that leaves the free segments alone. *)
Lemma lists_same A' G' lv' :
  (forall a r, G' !! a = Some (mkSeg r Free) <-> G !! a = Some (mkSeg r Free)) ->
  (forall a r, G !! a = Some (mkSeg r Free) -> whole A' G' a = whole A G a /\ lv' !! a = lv !! a) ->
  (forall a g, G' !! a = Some g -> g_st g <> Free -> lv' !! a = Some (0, 0)) ->
  lists_ok A' G' lv' fp cp.
Proof.
  intros Hf Hw Hz. split; [|done]. intros i Hi.
  destruct (ls_lists _ _ _ _ _ HL i Hi) as (l & [D1 D2 D3 D4 D5 D6]). exists l.
  assert (Ew : wholes A' G' l = wholes A G l).
  { apply wholes_ext. intros a (r & Ha & _)%D4. by apply (Hw a r). }
  split; [done| |done| |by rewrite Ew|by rewrite Ew].
  - apply (tag_chain_frame lv); [|done]. intros a (r & Ha & _)%D4. by apply (Hw a r).
  - intros a. rewrite D4. by setoid_rewrite Hf.
Qed.

End lists.
