(* ===== verification/LiballocHeap.v ===== *)
(** * The heap: malloc and free keep the invariant *)

From S2P Require Import Prelude Dll Liballoc LiballocTags LiballocInv LiballocLists.

Section heap.
Context {S : Type} `{!PageHooks S} (hhdm : Z) `{!PageSource S hhdm}.
Implicit Types (s : lib S) (A : gmap Z Z) (G : gmap Z seg).

(** The heap while an operation holds the lock. *)
Record hinv A G s : Prop := {
  hv_hhdm : boot_hhdm s = hhdm;
  hv_init : l_initialized s = true;
  hv_held : src_held (pages s);
  hv_arenas : arenas_ok hhdm (taken (pages s)) A;
  hv_segs : segs_ok A G (core <$> tags s);
  hv_lists : lists_ok A G (links <$> tags s) (l_freePages s) (l_completePages s);
}.

(** What operations on tags leave alone. *)
Definition quiet s s' : Prop := ram s' = ram s /\ pages s' = pages s.

Lemma quiet_trans s1 s2 s3 : quiet s1 s2 -> quiet s2 s3 -> quiet s1 s3.
Proof. unfold quiet. intros [] []. split; congruence. Qed.

Section facts.
Context A G s (H : hinv A G s).

Lemma seg_tag a g : G !! a = Some g -> a <> 0 /\ exists t, tags s !! a = Some t /\
  (core <$> tags s) !! a = Some (core t) /\ tag_ok A G a g (core t) /\ (g_st g <> Free -> links t = (0, 0)).
Proof.
  intros Hg. split; [pose proof (seg_range _ _ _ (hv_arenas _ _ _ H) _ _ (hv_segs _ _ _ H) a g Hg); lia|].
  destruct (sg_tag _ _ _ (hv_segs _ _ _ H) a g Hg) as (c & Hc & T). rewrite lookup_fmap in Hc.
  destruct (tags s !! a) as [t|] eqn:E; [|done]. injection Hc as <-. exists t. rewrite lookup_fmap, E.
  split_and!; [done|done|done|]. intros Hf.
  pose proof (ls_zero _ _ _ _ _ (hv_lists _ _ _ H) a g Hg Hf) as Hl. rewrite lookup_fmap, E in Hl. cbn [fmap option_fmap option_map] in Hl. congruence.
Qed.

Lemma list_nonzero i l : 8 <= i < 32 ->
  bucket_ok A G (links <$> tags s) (l_freePages s) (l_completePages s) i l -> 0 ∉ l.
Proof. intros Hi B (r & H0 & _)%(bk_free _ _ _ _ _ _ _ B). by destruct (seg_tag _ _ H0). Qed.

(** [remove_tag] on a free segment; the counter of whole runs is left for the
    caller. *)
Lemma remove_free a r : G !! a = Some (mkSeg r Free) ->
  exists l1 l2 t, tags s !! a = Some t /\
    bucket_ok A G (links <$> tags s) (l_freePages s) (l_completePages s) (bucket r) (l1 ++ a :: l2) /\
    remove_tag a s = Ok (tt, set_freePages (<[Z.to_nat (bucket r) := first_of (l1 ++ l2)]> (l_freePages s))
      (set_tags (unlinked l1 a l2 (tags s)) s)) /\
    core <$> unlinked l1 a l2 (tags s) = <[a := set_t_index (-1) (core t)]> (core <$> tags s) /\
    chain (links <$> unlinked l1 a l2 (tags s)) (l1 ++ l2) /\
    (links <$> unlinked l1 a l2 (tags s)) !! a = Some (0, 0) /\
    forall b, b ∉ l1 ++ a :: l2 -> unlinked l1 a l2 (tags s) !! b = tags s !! b.
Proof.
  intros Hg. destruct (free_split _ _ _ _ _ (hv_lists _ _ _ H) a r Hg) as (l1 & l2 & B).
  destruct (seg_tag a _ Hg) as (Ha & t & Et & Ec & T & _). pose proof (bucket_range r) as Hr.
  pose proof (list_nonzero _ _ Hr B) as H0. pose proof B as [B1 B2 B3 B4 B5 B6].
  destruct (unlinked_links (tags s) l1 a l2 t B2 B3 H0 Et) as (U1 & U2 & U3).
  exists l1, l2, t. split_and!; [done|done| |by apply unlinked_core|done|done|done].
  apply remove_tag_ok with (t := t); try done; [lia|]. apply T.
Qed.

(** A tag out of the lists is handed over with another field changed. *)
Lemma relabel a r st st' f t :
  G !! a = Some (mkSeg r st) -> st <> Free -> st' <> Free -> tags s !! a = Some t ->
  (forall x, links (f x) = links x) -> t_magic (f t) = t_magic t -> t_real_size (f t) = t_real_size t ->
  t_split_left (f t) = t_split_left t -> t_split_right (f t) = t_split_right t ->
  match st' with
  | Used n => t_index (f t) = -1 /\ t_size (f t) = n /\ 0 <= n /\ n + TAG <= r
  | _ => t_index (f t) = -1
  end ->
  exists s', upd_tag a f s = Ok (tt, s') /\ quiet s s' /\ tags s' !! a = Some (f t) /\
    hinv A (<[a := mkSeg r st']> G) s'.
Proof.
  intros Hg Hst Hst' Et Hl E1 E2 E3 E4 Hx. destruct (seg_tag a _ Hg) as (Ha & t' & Et' & Ec & T & Hz).
  assert (t' = t) as -> by congruence. pose proof H as [H1 H2 H3 H4 H5 H6].
  eexists. split; [apply upd_tag_ok; [done|by eexists]|]. split; [done|].
  rewrite (alter_insert_eq f a (tags s) t Et). cbn [tags set_tags]. split; [by rewrite lookup_insert_eq|].
  split; cbn [tags set_tags boot_hhdm l_initialized pages l_freePages l_completePages]; try done.
  - rewrite fmap_insert. change (mkSeg r st') with (mkSeg (g_real (mkSeg r st)) st').
    apply (segs_status A G (core <$> tags s) H5 a (mkSeg r st) (core t)); try done.
    destruct st'; done.
  - assert (El : links <$> <[a:=f t]> (tags s) = links <$> tags s).
    { rewrite fmap_insert, Hl. apply insert_id. by rewrite lookup_fmap, Et. }
    rewrite El. apply (lists_same A G _ _ _ H6).
    + intros b r'. rewrite lookup_insert_Some. split; [intros [[_ E]|[]]; [congruence|done]|].
      intros Hb. right. split; [|done]. intros <-. congruence.
    + intros b r' Hb. split; [|done]. by apply (whole_status A G a r st).
    + intros b g [[<- <-]|[_ Hb]]%lookup_insert_Some Hgb.
      * by apply (ls_zero _ _ _ _ _ H6 a (mkSeg r st)).
      * by apply (ls_zero _ _ _ _ _ H6 b g).
Qed.

(** The end of the calm: what a free segment's neighbours are. *)
Lemma free_neighbours a r : G !! a = Some (mkSeg r Free) ->
  (forall g', G !! (a + r) = Some g' -> A !! (a + r) = None -> g_st g' <> Free) /\
  forall b g', G !! b = Some g' -> b + g_real g' = a -> A !! a = None -> g_st g' <> Free.
Proof.
  intros Hg. pose proof (sg_calm _ _ _ (hv_segs _ _ _ H)) as Hc. split.
  - intros g' H1 H2 F. by apply (Hc a (mkSeg r Free) g').
  - intros b g' Hb <- HN F. by apply (Hc b g' (mkSeg r Free)).
Qed.

(** The part of [malloc] for a segment found in its list. *)
Lemma take_free a r : G !! a = Some (mkSeg r Free) ->
  exists s' t, (remove_tag a ;;;
    let! t := get_tag a in
    (if (t_split_left t =? 0) && (t_split_right t =? 0) then
       let! c := complete (bucket r) in set_complete (bucket r) (c - 1)
     else ret tt) ;;;
    ret a) s = Ok (a, s') /\ quiet s s' /\ tags s' !! a = Some t /\ hinv A (<[a := mkSeg r Busy]> G) s'.
Proof.
  intros Hg. pose proof H as [H1 H2 H3 H4 H5 H6]. pose proof (bucket_range r) as Hr.
  destruct (remove_free a r Hg) as (l1 & l2 & t & Et & B & E & Uc & Ul & Ua & Uo).
  destruct (seg_tag a _ Hg) as (Ha & t' & Et' & Ec & T & _). assert (t' = t) as -> by congruence.
  set (tg := unlinked l1 a l2 (tags s)) in *.
  set (s1 := set_freePages (<[Z.to_nat (bucket r) := first_of (l1 ++ l2)]> (l_freePages s)) (set_tags tg s)) in *.
  assert (exists t1, tg !! a = Some t1 /\ core t1 = set_t_index (-1) (core t)) as (t1 & Et1 & Ec1).
  { assert ((core <$> tg) !! a = Some (set_t_index (-1) (core t))) as E1 by (rewrite Uc; apply lookup_insert_eq).
    rewrite lookup_fmap in E1. destruct (tg !! a) as [t1|]; [|done]. exists t1. split; [done|].
    cbn [fmap option_fmap option_map] in E1. congruence. }
  assert (EL : t_split_left t1 = t_split_left t) by exact (f_equal t_split_left Ec1).
  assert (ER : t_split_right t1 = t_split_right t) by exact (f_equal t_split_right Ec1).
  pose proof (bk_whole _ _ _ _ _ _ _ B) as Hcp. set (w := wholes A G (l1 ++ a :: l2)) in *.
  assert (Hwhole : (t_split_left t =? 0) && (t_split_right t =? 0) = whole A G a).
  { pose proof (whole_links _ _ _ H4 _ _ H5 a _ (core t) Hg Ec) as W.
    apply eq_true_iff_eq. rewrite andb_true_iff, !Z.eqb_eq.
    unfold whole. rewrite Hg. cbn [g_real]. change (t_split_left (core t)) with (t_split_left t) in W.
    change (t_split_right (core t)) with (t_split_right t) in W. rewrite W. clear.
    destruct (A !! a) as [n|]; [|naive_solver]. rewrite Z.eqb_eq. naive_solver. }
  exists (set_completePages (<[Z.to_nat (bucket r) := w - Z.b2z (whole A G a)]> (l_completePages s)) s1), t1.
  split; [|split; [done|split; [done|]]].
  - mrw E. mgo get_tag_ok; [|exact Ha|exact Et1]. rewrite EL, ER, Hwhole.
    destruct (whole A G a); cbn [Z.b2z].
    + erewrite bind_ok; [|mgo complete_ok; [|lia|exact Hcp]; apply (set_complete_ok _ _ _ _ w); [lia|exact Hcp]]. done.
    + erewrite bind_ok by done. unfold ret. rewrite Z.sub_0_r, list_insert_id by exact Hcp.
      unfold s1. by destruct s.
  - split; cbn [tags set_tags boot_hhdm l_initialized pages l_freePages l_completePages set_completePages set_freePages s1]; try done.
    + rewrite Uc. apply (segs_status A G (core <$> tags s) H5 a (mkSeg r Free) (core t)); done.
    + apply (lists_take A G _ _ _ H6 a r Busy l1 l2); try done.
      intros b Hb. rewrite !lookup_fmap. by rewrite Uo.
Qed.

(** Addresses of the direct map survive the way through [unsigned int]. *)
Lemma addr32 x : hhdm <= x < hhdm + 2 ^ 32 -> u32 x = x - hhdm.
Proof.
  intros Hx. destruct (ar_hhdm _ _ _ (hv_arenas _ _ _ H)) as (H0 & Hm & _).
  unfold u32. symmetry. apply (Z.mod_unique_pos _ _ (hhdm / 2 ^ 32)); [lia|].
  pose proof (Z.div_mod hhdm (2 ^ 32) ltac:(lia)). lia.
Qed.

(** The free lists do not see a split before the new tag is inserted. *)
Lemma lists_split a r n : G !! a = Some (mkSeg r (Used n)) -> 0 <= n -> TAG <= r - (TAG + n) ->
  let na := a + (TAG + n) in
  G !! na = None /\ A !! na = None /\
  lists_ok A (<[na := mkSeg (r - (TAG + n)) Busy]> (<[a := mkSeg (TAG + n) (Used n)]> G))
    (<[na := (0, 0)]> (links <$> tags s)) (l_freePages s) (l_completePages s).
Proof.
  intros Hg Hn Hrem na. unfold TAG in *. pose proof H as [H1 H2 H3 H4 H5 H6].
  assert (HGn : G !! na = None).
  { destruct (G !! na) as [g'|] eqn:E; [|done].
    pose proof (sg_sorted _ _ _ H5 _ _ _ _ Hg E ltac:(lia)) as H7. cbn in H7. lia. }
  split; [done|]. split; [apply (inside_no_base _ _ _ H4 _ _ H5 a _ na Hg); cbn; lia|].
  assert (Hna : na <> a) by lia.
  assert (Hfree : forall b r', G !! b = Some (mkSeg r' Free) -> b <> a /\ b <> na).
  { intros b r' Hb. split; congruence. }
  apply (lists_same A G _ _ _ H6).
  - intros b r'. split.
    + intros [[_ E]|[_ [[_ E]|[_ E]]%lookup_insert_Some]]%lookup_insert_Some; [congruence|congruence|done].
    + intros Hb. destruct (Hfree b r' Hb). by rewrite !lookup_insert_ne by done.
  - intros b r' Hb. destruct (Hfree b r' Hb). unfold whole. by rewrite !lookup_insert_ne by done.
  - intros b g [[<- <-]|[Hb [[<- <-]|[Hb' E]]%lookup_insert_Some]]%lookup_insert_Some Hgf.
    + apply lookup_insert_eq.
    + rewrite lookup_insert_ne by done. by apply (ls_zero _ _ _ _ _ H6 a (mkSeg r (Used n))).
    + rewrite lookup_insert_ne by done. by apply (ls_zero _ _ _ _ _ H6 b g).
Qed.

(** The store when a split reaches [insert_tag]. *)
Definition split_store (a na rem rr : Z) (tn : boundary_tag) (m : gmap Z boundary_tag) : gmap Z boundary_tag :=
  alter (fun t => set_t_real (u32 (t_real_size t - rem)) (set_t_right na t)) a
    (alter_if rr (set_t_left na) (<[na := tn]> m)).

Lemma split_store_links a na rem rr tn m :
  links tn = (0, 0) -> links <$> split_store a na rem rr tn m = <[na := (0, 0)]> (links <$> m).
Proof.
  intros E. unfold split_store. rewrite (view_alter links), (view_alter_if links), fmap_insert by done. by rewrite E.
Qed.

Lemma split_store_core a na rem rr tn m t :
  m !! a = Some t -> na <> a -> (rr <> 0 -> rr <> a /\ rr <> na) -> forall b,
  (core <$> split_store a na rem rr tn m) !! b =
    if decide (b = a) then Some (set_t_real (u32 (t_real_size t - rem)) (set_t_right na (core t)))
    else if decide (b = na) then Some (core tn)
    else if decide (b = rr /\ rr <> 0) then set_t_left na <$> (core <$> m) !! b else (core <$> m) !! b.
Proof.
  intros Et Hna Hrr b. unfold split_store. rewrite lookup_fmap. destruct (decide (b = a)) as [->|Hb].
  - rewrite lookup_alter_eq, lookup_alter_if, decide_False by (intros [E1 E2]; by destruct (Hrr E2)).
    by rewrite lookup_insert_ne, Et by done.
  - rewrite lookup_alter_ne, lookup_alter_if by done. destruct (decide (b = na)) as [->|Hbn].
    + rewrite decide_False by (intros [E1 E2]; by destruct (Hrr E2)). by rewrite lookup_insert_eq.
    + rewrite lookup_insert_ne by done. rewrite lookup_fmap. case_decide; [|done]. by destruct (m !! b).
Qed.

Lemma split_tag_ok a r n : G !! a = Some (mkSeg r (Used n)) -> TAG <= r - (TAG + n) ->
  (forall g', G !! (a + r) = Some g' -> A !! (a + r) = None -> g_st g' <> Free) ->
  let na := a + (TAG + n) in
  exists s', split_tag a s = Ok (na, s') /\ quiet s s' /\
    hinv A (<[na := mkSeg (r - (TAG + n)) Free]> (<[a := mkSeg (TAG + n) (Used n)]> G)) s'.
Proof.
  intros Hg Hrem Hcalm na. pose proof H as [H1 H2 H3 H4 H5 H6].
  destruct (seg_tag a _ Hg) as (Ha & t & Et & Ec & T & Hz).
  pose proof T as [T1 T2 T3 T4 T5 (T6 & T7 & T8 & T9)]. cbn [g_real] in *.
  change (t_real_size (core t)) with (t_real_size t) in T2. change (t_size (core t)) with (t_size t) in T7.
  pose proof (seg_range _ _ _ H4 _ _ H5 a _ Hg) as Hra. cbn [g_real] in Hra.
  destruct (ar_hhdm _ _ _ H4) as (Hh0 & Hhm & Hh1).
  destruct (lists_split a r n Hg T8 Hrem) as (HGn & HAn & L1). fold na in HGn, HAn, L1.
  set (rem := r - (TAG + n)) in *. set (rr := t_split_right t) in *.
  assert (Hrem32 : u32 (t_real_size t - TAG - t_size t) = rem).
  { rewrite T2, T7. rewrite u32_small; unfold TAG in *; lia. }
  assert (Hnew : u64 (u32 a + TAG + t_size t + boot_hhdm s) = na).
  { rewrite H1, (addr32 a), T7 by (unfold TAG in *; lia). rewrite u64_small; unfold TAG in *; lia. }
  assert (Hna : na <> a /\ na <> 0) by (unfold TAG in *; lia). destruct Hna as [Hna Hna0].
  assert (Hrr : rr <> 0 -> is_Some (tags s !! rr) /\ rr <> a /\ rr <> na).
  { intros E. destruct (right_left _ _ _ H5 a _ _ Hg Ec E) as (E1 & _ & gb & cb & Hgb & _).
    change (t_split_right (core t)) with rr in E1. cbn [g_real] in E1, Hgb. rewrite <- E1 in Hgb.
    destruct (seg_tag _ _ Hgb) as (_ & tb & Htb & _). unfold TAG in *. split; [by eexists|]. lia. }
  set (tn := mkTag LIBALLOC_MAGIC (t_size (default (mkTag 0 0 0 0 0 0 0 0) (tags s !! na))) rem
    (t_index (default (mkTag 0 0 0 0 0 0 0 0) (tags s !! na))) a rr 0 0).
  set (tg := split_store a na rem rr tn (tags s)).
  assert (Htn : tg !! na = Some tn).
  { unfold tg, split_store. rewrite lookup_alter_ne by done. rewrite lookup_alter_if, decide_False.
    - apply lookup_insert_eq.
    - intros [E1 E2]. by destruct (Hrr E2) as (_ & _ & E3). }
  assert (Hlv : links <$> tg = <[na := (0, 0)]> (links <$> tags s)) by (by apply split_store_links).
  destruct (ls_lists _ _ _ _ _ L1 (bucket rem) (bucket_range rem)) as (l & B). rewrite <- Hlv in B, L1.
  assert (NoDup (na :: l) /\ 0 ∉ na :: l) as [Hnl H0l].
  { assert (Hfree : forall b, b ∈ l -> b <> na /\ exists r', G !! b = Some (mkSeg r' Free)).
    { intros b (r' & Hb & _)%(bk_free _ _ _ _ _ _ _ B).
      apply lookup_insert_Some in Hb as [[_ E]|[E1 [[_ E]|[_ E]]%lookup_insert_Some]]; [congruence|congruence|].
      split; [done|eauto]. }
    split; [apply NoDup_cons; split; [|apply B]|].
    - intros Hx. by destruct (Hfree _ Hx).
    - intros [E|Hx]%elem_of_cons; [done|]. destruct (Hfree _ Hx) as (_ & r' & Hr'). by destruct (seg_tag _ _ Hr'). }
  pose proof (bucket_range rem) as Hbr.
  pose proof (insert_tag_ok (set_tags tg s) (-1) na l tn) as EI.
  specialize (EI ltac:(cbn; lia) (bk_head _ _ _ _ _ _ _ B) (bk_chain _ _ _ _ _ _ _ B) Hnl H0l Htn eq_refl).
  change (if -1 <? 0 then bucket (t_real_size tn) else -1) with (bucket rem) in EI.
  eexists. split.
  { unfold split_tag. mgo get_tag_ok; [|exact Ha|exact Et]. rewrite Hrem32. erewrite bind_ok by done.
    rewrite Hnew. do 2 (erewrite bind_ok by done). cbv beta. fold rr. mgo upd_tag_if_ok.
    2:{ intros E. cbn [tags set_tags]. destruct (Hrr E) as (E1 & E2 & E3). by rewrite lookup_insert_ne. }
    mgo upd_tag_ok; [|exact Ha|].
    2:{ cbn [tags set_tags]. rewrite lookup_alter_if, decide_False, lookup_insert_ne by (congruence || (intros [E1 E2]; by destruct (Hrr E2) as (_ & E3 & _))).
        by eexists. }
    cbn [tags set_tags]. mrw EI. reflexivity. }
  split; [done|]. destruct (pushed_links tg (bucket rem) na l tn) as [PL1 PL2]; try done; [apply B|].
  split; cbn [tags set_tags boot_hhdm l_initialized pages l_freePages l_completePages set_completePages set_freePages]; try done.
  - erewrite pushed_core by exact Htn.
    assert (Hu : u32 (t_real_size t - rem) = r - rem) by (rewrite T2; apply u32_small; unfold TAG in *; lia).
    pose proof (split_store_core a na rem rr tn (tags s) t Et Hna ltac:(by intros E; destruct (Hrr E) as (_ & ? & ?))) as SC.
    fold tg in SC. rewrite Hu in SC.
    apply (segs_split _ _ _ H4 _ _ H5 a r n (core t) (set_t_index (bucket rem) (core tn))); try done.
    + rewrite lookup_insert_ne by done. by rewrite SC, decide_True by done.
    + apply lookup_insert_eq.
    + intros E cr Hcr. destruct (Hrr E) as (_ & E1 & E2). change (t_split_right (core t)) with rr in *.
      rewrite lookup_insert_ne by done. rewrite SC, !decide_False, decide_True by done. by rewrite Hcr.
    + intros b E1 E2 E3. change (t_split_right (core t)) with rr in *.
      rewrite lookup_insert_ne by done. by rewrite SC, !decide_False by tauto.
  - pose proof (lists_put A _ _ _ _ L1 na rem Busy l) as LP. rewrite insert_insert_eq in LP. apply LP; try done.
    + apply lookup_insert_eq.
    + intros b Hb. rewrite !lookup_fmap. by rewrite PL2.
    + rewrite list_insert_id; [done|]. unfold whole at 1. rewrite HAn. cbn [Z.b2z]. rewrite Z.add_0_r. apply B.
    + unfold whole at 1. rewrite HAn. cbn [Z.b2z]. rewrite Z.add_0_r. apply B.
Qed.

(** The search of a list ends, with a segment that is large enough or nothing. *)
Lemma find_tag_ok i size l2 : forall l1 fuel, 8 <= i < 32 -> 0 <= size < 2 ^ 32 ->
  bucket_ok A G (links <$> tags s) (l_freePages s) (l_completePages s) i (l1 ++ l2) -> (length l2 < fuel)%nat ->
  exists b, find_tag fuel (first_of l2) size s = Ok (b, s) /\
    (b = 0 \/ exists r, G !! b = Some (mkSeg r Free) /\ bucket r = i /\ size + 2 * TAG <= r).
Proof.
  induction l2 as [|a l2 IH]; intros l1 fuel Hi Hsz B Hf; (destruct fuel; [cbn in Hf; lia|]); cbn [find_tag].
  { exists 0. split; [done|by left]. }
  destruct (proj1 (bk_free _ _ _ _ _ _ _ B a)) as (r & Hg & Hr); [apply elem_of_app; right; left|].
  destruct (seg_tag a _ Hg) as (Ha & t & Et & _ & T & _).
  pose proof (tg_real _ _ _ _ _ T) as Er. change (t_real_size (core t)) with (t_real_size t) in Er. cbn [g_real] in Er.
  pose proof (seg_range _ _ _ (hv_arenas _ _ _ H) _ _ (hv_segs _ _ _ H) a _ Hg) as Hra. cbn [g_real] in Hra.
  pose proof (tg_min _ _ _ _ _ T) as Hmin. cbn [g_real] in Hmin. unfold TAG in *.
  change (first_of (a :: l2)) with a. rewrite (proj2 (Z.eqb_neq a 0) Ha).
  mgo get_tag_ok; [|exact Ha|exact Et]. rewrite Er, !u64_small by lia.
  destruct (Z.leb_spec (size + 48) (r - 48)).
  - exists a. split; [done|]. right. exists r. split_and!; [done|done|lia].
  - pose proof (tag_chain_lookup _ _ _ _ (bk_chain _ _ _ _ _ _ _ B)) as HL. rewrite lookup_fmap, Et in HL.
    injection HL as -> _. apply (IH (l1 ++ [a])); [done|done|by rewrite <- app_assoc|cbn in Hf; lia].
Qed.

(** A list is shorter than the store. *)
Lemma list_fuel i l : bucket_ok A G (links <$> tags s) (l_freePages s) (l_completePages s) i l ->
  (length l < tag_fuel s)%nat.
Proof.
  intros B. unfold tag_fuel.
  pose proof (linked_size _ _ _ _ _ ltac:(rewrite plain_addrs; apply B) (bk_chain _ _ _ _ _ _ _ B)) as Hl.
  unfold plain in Hl. rewrite length_fmap, map_size_fmap in Hl. lia.
Qed.

(** The pages for a new run. *)
Definition pages_for (size : Z) : Z :=
  let usage := u32 (size + TAG) in
  let pages := usage / l_pageSize in
  let pages := if negb (usage mod l_pageSize =? 0) then pages + 1 else pages in
  if pages <? l_pageCount then l_pageCount else pages.

Lemma pages_for_bounds size : 0 <= size < 2 ^ 30 ->
  16 <= pages_for size < 2 ^ 19 /\ size + TAG <= pages_for size * 4096.
Proof.
  intros Hs. unfold pages_for, TAG, l_pageSize, l_pageCount. rewrite u32_small by lia.
  pose proof (Z.div_mod (size + 48) 4096 ltac:(lia)). pose proof (Z.mod_pos_bound (size + 48) 4096 ltac:(lia)).
  destruct (Z.eqb_spec ((size + 48) mod 4096) 0); cbn [negb];
    match goal with |- context [if ?a <? 16 then _ else _] => destruct (Z.ltb_spec a 16) end; lia.
Qed.

Lemma allocate_new_tag_ok size : 0 <= size < 2 ^ 30 ->
  let p := pages_for size in
  (exists base s', allocate_new_tag size s = Ok (base, s') /\ base <> 0 /\ ram s' = ram s /\
     A !! base = None /\ G !! base = None /\ outside_arenas A base p /\
     hinv (<[base := p]> A) (<[base := mkSeg (p * 4096) (Used size)]> G) s') \/
  (allocate_new_tag size s = Halted /\ forall k, 0 <= k -> k + p <= src_size (pages s) ->
     exists j, k <= j < k + p /\ taken (pages s) j = true).
Proof.
  intros Hs p. destruct (pages_for_bounds size Hs) as [Hp Hps]. fold p in Hp, Hps.
  pose proof H as [H1 H2 H3 H4 H5 H6]. unfold allocate_new_tag. fold (pages_for size). fold p.
  destruct (src_alloc_ok (pages s) p H3) as [(k & q & E & Q1 & Q2 & Q3 & Q4 & Q5 & Q6 & Q7)|[E Q]]; [lia| |].
  2:{ right. split; [|done]. unfold bind, hook. by rewrite E. }
  left. destruct (ar_hhdm _ _ _ H4) as (Hh0 & Hhm & Hh1).
  set (base := hhdm + k * 4096) in *. assert (Hb0 : base <> 0) by lia.
  assert (HO : outside_arenas A base p).
  { intros b m Hb. destruct (ar_run _ _ _ H4 b m Hb) as (k' & -> & K1 & K2 & K3 & K4).
    destruct (Z.le_gt_cases (k' + m) k) as [|X1]; [left; lia|].
    destruct (Z.le_gt_cases (k + p) k') as [|X2]; [right; lia|]. exfalso.
    pose proof (K4 (Z.max k k') ltac:(lia)). pose proof (Q6 (Z.max k k') ltac:(lia)). congruence. }
  assert (HAb : A !! base = None).
  { destruct (A !! base) as [m|] eqn:Eb; [|done]. destruct (ar_run _ _ _ H4 _ _ Eb) as (? & _ & _ & ? & _).
    destruct (HO _ _ Eb); lia. }
  assert (HGb : G !! base = None).
  { destruct (G !! base) as [g|] eqn:Eb; [|done].
    pose proof (outside_segs _ _ _ H5 base p base g HO ltac:(lia) Eb).
    pose proof (seg_min _ _ _ H5 _ _ Eb). unfold TAG in *. lia. }
  set (t := mkTag LIBALLOC_MAGIC size (p * 4096) (-1) 0 0 0 0).
  exists base, (set_tags (<[base := t]> (tags s)) (set_pages q s)). split_and!; try done.
  { unfold bind at 1, hook. rewrite E. rewrite (proj2 (Z.eqb_neq base 0) Hb0).
    unfold l_pageSize. rewrite u32_small by lia. done. }
  split; cbn [tags set_tags set_pages boot_hhdm l_initialized pages l_freePages l_completePages]; try done.
  - split; [done|..].
    + intros b m [[<- <-]|[_ Hb]]%lookup_insert_Some.
      * exists k. split_and!; try done; try lia. intros j Hj. by rewrite Q7, decide_True by lia.
      * destruct (ar_run _ _ _ H4 b m Hb) as (k' & K0 & K1 & K2 & K3 & K4). exists k'. split_and!; try done; try lia.
        intros j Hj. rewrite Q7 by lia. case_decide; [done|]. by apply K4.
    + intros b m b' m' [[<- <-]|[_ Hb]]%lookup_insert_Some [[<- <-]|[_ Hb']]%lookup_insert_Some Hlt; [lia|..].
      * destruct (ar_run _ _ _ H4 _ _ Hb') as (? & _ & _ & ? & _). destruct (HO _ _ Hb'); lia.
      * destruct (HO _ _ Hb); lia.
      * by apply (ar_apart _ _ _ H4 b m b' m').
  - rewrite fmap_insert. apply (segs_arena _ _ _ H4 _ _ H5 base p size); try done; lia.
  - rewrite fmap_insert. apply (lists_same A G _ _ _ H6).
    + intros b r. rewrite lookup_insert_Some. split; [intros [[_ Eb]|[]]; [congruence|done]|].
      intros Hb. right. split; [congruence|done].
    + intros b r Hb. assert (b <> base) by congruence. unfold whole. by rewrite !lookup_insert_ne by done.
    + intros b g [[<- <-]|[Hb Hg]]%lookup_insert_Some Hgf; [apply lookup_insert_eq|].
      rewrite lookup_insert_ne by done. by apply (ls_zero _ _ _ _ _ H6 b g).
Qed.

End facts.
(** ** Entering and leaving *)

(** The heap between operations; before the first [malloc] there is nothing. *)
Record heap_ok A G s : Prop := {
  ho_hhdm : boot_hhdm s = hhdm;
  ho_free : src_free (pages s);
  ho_arenas : arenas_ok hhdm (taken (pages s)) A;
  ho_body : if l_initialized s then
      segs_ok A G (core <$> tags s) /\
      lists_ok A G (links <$> tags s) (l_freePages s) (l_completePages s)
    else A = ∅ /\ G = ∅;
}.

Lemma arenas_taken tk tk' A : (forall k, tk' k = tk k) -> arenas_ok hhdm tk A -> arenas_ok hhdm tk' A.
Proof.
  intros E [H1 H2 H3]. split; [done| |done]. intros base n Hb.
  destruct (H2 base n Hb) as (k & K0 & K1 & K2 & K3 & K4). exists k. split_and!; try done; try lia.
  intros j Hj. rewrite E. by apply K4.
Qed.

Lemma empty_heap : segs_ok ∅ ∅ ∅ /\ forall lv, lists_ok ∅ ∅ lv (replicate 32 0) (replicate 32 0).
Proof.
  split; [split; by intros ??; rewrite ?lookup_empty|]. intros lv. split.
  - intros i Hi. exists []. split; [|done|apply NoDup_nil_2| | |done].
    + apply lookup_replicate_2. lia.
    + intros a. split; [by intros ?%not_elem_of_nil|]. by intros (r & Hr & _).
    + apply lookup_replicate_2. lia.
  - by intros a g.
Qed.

(** Taking the lock. *)
Lemma lock_ok A G s : heap_ok A G s ->
  exists q, hook liballoc_lock s = Ok (tt, set_pages q s) /\ src_held q /\ src_size q = src_size (pages s) /\
    (forall k, taken q k = taken (pages s) k) /\ arenas_ok hhdm (taken q) A.
Proof.
  intros [H1 H2 H3 H4]. destruct (src_lock_ok _ H2) as (q & E & Q1 & Q2 & Q3). exists q.
  unfold hook. rewrite E. split_and!; try done. by eapply arenas_taken.
Qed.

Lemma enter_ok A G s : heap_ok A G s ->
  exists s', (hook liballoc_lock ;;; initialize) s = Ok (tt, s') /\ hinv A G s' /\ ram s' = ram s /\
    src_size (pages s') = src_size (pages s) /\ forall k, taken (pages s') k = taken (pages s) k.
Proof.
  intros H. destruct (lock_ok A G s H) as (q & E & Q1 & Q2 & Q3 & Q4). destruct H as [H1 H2 H3 H4].
  unfold initialize. destruct (l_initialized s) eqn:Ei.
  - exists (set_pages q s). split; [mrw E; erewrite bind_ok by done; cbn [l_initialized set_pages]; by rewrite Ei|].
    destruct H4. split; [by split|]. done.
  - destruct H4 as [-> ->]. destruct empty_heap as [H5 H6].
    eexists. split; [mrw E; erewrite bind_ok by done; cbn [l_initialized set_pages]; rewrite Ei; reflexivity|].
    split; [|done]. by split.
Qed.

(** Giving the lock back. *)
Lemma leave_ok A G s : hinv A G s ->
  exists q, hook liballoc_unlock s = Ok (tt, set_pages q s) /\ heap_ok A G (set_pages q s) /\
    src_size q = src_size (pages s) /\ forall k, taken q k = taken (pages s) k.
Proof.
  intros [H1 H2 H3 H4 H5 H6]. destruct (src_unlock_ok _ H3) as (q & E & Q1 & Q2 & Q3). exists q.
  unfold hook. rewrite E. split; [done|]. split; [|done].
  split; cbn; [done|done|by eapply arenas_taken|by rewrite H2].
Qed.

(** ** malloc *)

(** The blocks in use: address behind the tag and size asked for. *)
Definition lives G (live : gmap Z Z) : Prop :=
  forall p n, live !! p = Some n <-> exists r, G !! (p - TAG) = Some (mkSeg r (Used n)).

(** [G'] has the block at [a] in use and the other blocks of [G]. *)
Definition handed_out G a size G' : Prop :=
  (exists r, G' !! a = Some (mkSeg r (Used size))) /\
  forall b r n, b <> a -> G' !! b = Some (mkSeg r (Used n)) <-> G !! b = Some (mkSeg r (Used n)).

Lemma malloc_finish A G s a r st size :
  hinv A G s -> G !! a = Some (mkSeg r st) -> st <> Free -> 0 <= size < 2 ^ 30 -> size + TAG <= r ->
  (forall g', G !! (a + r) = Some g' -> A !! (a + r) = None -> g_st g' <> Free) ->
  exists s' G', (upd_tag a (set_t_size (u32 size)) ;;;
    let! t := get_tag a in
    let remainder := u32 (t_real_size t - size - TAG * 2) in
    (if (0 <? s32 remainder) && (0 <=? getexp remainder) then split_tag a ;;; ret tt else ret tt) ;;;
    let! hhdm := gets boot_hhdm in
    hook liballoc_unlock ;;;
    ret (u64 (u32 a + hhdm + TAG))) s = Ok (a + TAG, s') /\
    ram s' = ram s /\ heap_ok A G' s' /\ handed_out G a size G'.
Proof.
  intros H Hg Hst Hs Hr Hcalm. destruct (seg_tag A G s H a _ Hg) as (Ha & t & Et & _ & T & _).
  pose proof (tg_real _ _ _ _ _ T) as Er. change (t_real_size (core t)) with (t_real_size t) in Er. cbn [g_real] in Er.
  pose proof (seg_range _ _ _ (hv_arenas _ _ _ H) _ _ (hv_segs _ _ _ H) a _ Hg) as Hra. cbn [g_real] in Hra.
  rewrite (u32_small size) by lia.
  destruct (relabel A G s H a r st (Used size) (set_t_size size) t) as (s1 & E1 & [R1 P1] & Et1 & H1); try done.
  { split_and!; try done; [|lia]. pose proof (tg_status _ _ _ _ _ T) as Hx. cbn [g_st] in Hx.
    change (t_index (core t)) with (t_index t) in Hx. by destruct st; [destruct Hx|..]. }
  set (G1 := <[a := mkSeg r (Used size)]> G) in *. assert (Hg1 : G1 !! a = Some (mkSeg r (Used size))) by apply lookup_insert_eq.
  set (remainder := u32 (r - size - TAG * 2)).
  assert (exists s2 G2, (if (0 <? s32 remainder) && (0 <=? getexp remainder) then split_tag a ;;; ret tt else ret tt) s1 = Ok (tt, s2) /\
    quiet s1 s2 /\ hinv A G2 s2 /\ handed_out G a size G2) as (s2 & G2 & E2 & [R2 P2] & H2 & HO).
  { destruct (_ && _) eqn:Ec.
    - apply andb_true_iff in Ec as [Ec1%Z.ltb_lt Ec2%Z.leb_le%getexp_nonneg].
      assert (TAG <= r - (TAG + size)).
      { unfold remainder, TAG in *. destruct (Z.le_gt_cases 0 (r - size - 96)); [rewrite u32_small in Ec2; lia|].
        unfold remainder in Ec1. rewrite s32_u32, s32_small in Ec1; unfold TAG in *; lia. }
      destruct (split_tag_ok A G1 s1 H1 a r size Hg1) as (s2 & E2 & Q2 & H2); [done| |].
      { intros g' Hg' HN. apply (Hcalm g'); [|done]. unfold G1 in Hg'. rewrite lookup_insert_ne in Hg'; [done|]. unfold TAG in *. lia. }
      eexists s2, _. split; [by mrw E2|]. split; [done|]. split; [exact H2|].
      destruct (lists_split A G1 s1 H1 a r size Hg1) as (HN & _); [lia|done|].
      assert (Hna : a + (TAG + size) <> a) by (unfold TAG; lia). unfold G1 in HN. rewrite lookup_insert_ne in HN by done.
      split; [exists (TAG + size); rewrite lookup_insert_ne by done; apply lookup_insert_eq|].
      intros b r' n Hb. destruct (decide (b = a + (TAG + size))) as [->|Hbn].
      + rewrite lookup_insert_eq, HN. split; congruence.
      + unfold G1. by rewrite !lookup_insert_ne by done.
    - exists s1, G1. split; [done|]. split; [done|]. split; [done|]. split; [eauto|].
      intros b r' n Hb. unfold G1. by rewrite lookup_insert_ne. }
  destruct (leave_ok A G2 s2 H2) as (q & E3 & H3 & _). exists (set_pages q s2), G2. split; [|split; [|done]].
  - mrw E1. mgo get_tag_ok; [|exact Ha|exact Et1]. change (t_real_size (set_t_size size t)) with (t_real_size t). rewrite Er.
    cbv zeta. fold remainder. mrw E2. erewrite bind_ok by done. mrw E3. unfold ret. do 2 f_equal.
    rewrite (hv_hhdm _ _ _ H2). rewrite (addr32 A G s H a) by (unfold TAG in *; lia).
    destruct (ar_hhdm _ _ _ (hv_arenas _ _ _ H)) as (? & _ & ?). rewrite u64_small by (unfold TAG in *; lia). lia.
  - cbn. congruence.
Qed.

(** No run of free pages is long enough. *)
Definition no_pages (q : S) (size : Z) : Prop :=
  forall k, 0 <= k -> k + pages_for size <= src_size q ->
    exists j, k <= j < k + pages_for size /\ taken q j = true.

Lemma lib_malloc_ok A G s size : heap_ok A G s -> 0 <= size < 2 ^ 30 ->
  (exists a s' A' G', malloc size s = Ok (a + TAG, s') /\ ram s' = ram s /\ heap_ok A' G' s' /\
     handed_out G a size G' /\ forall r n, G !! a <> Some (mkSeg r (Used n))) \/
  (malloc size s = Halted /\ no_pages (pages s) size).
Proof.
  intros H Hs. destruct (enter_ok A G s H) as (s1 & E1 & H1 & R1 & Z1 & K1).
  assert (Eix : (if getexp (u32 size) + MODE <? MINEXP then MINEXP else getexp (u32 size) + MODE) = bucket (size + TAG)).
  { unfold bucket, MODE. rewrite Z.add_0_r. by replace (size + TAG - TAG) with size by lia. }
  pose proof (bucket_range (size + TAG)) as Hi. set (i := bucket (size + TAG)) in *.
  destruct (ls_lists _ _ _ _ _ (hv_lists _ _ _ H1) i Hi) as (l & B).
  destruct (find_tag_ok A G s1 H1 i size l [] (tag_fuel s1)) as (b & Ef & Hb);
    [done|lia|done|by eapply list_fuel|].
  assert (Em : malloc size s = (
    let! tag := if b =? 0 then allocate_new_tag (u32 size)
      else remove_tag b ;;; let! t := get_tag b in
        (if (t_split_left t =? 0) && (t_split_right t =? 0) then
           let! c := complete i in set_complete i (c - 1) else ret tt) ;;; ret b in
    if tag =? 0 then hook liballoc_unlock ;;; ret 0
    else upd_tag tag (set_t_size (u32 size)) ;;;
      let! t := get_tag tag in
      let remainder := u32 (t_real_size t - size - TAG * 2) in
      (if (0 <? s32 remainder) && (0 <=? getexp remainder) then split_tag tag ;;; ret tt else ret tt) ;;;
      let! hhdm := gets boot_hhdm in
      hook liballoc_unlock ;;; ret (u64 (u32 tag + hhdm + TAG))) s1).
  { apply bind_inv in E1 as (u & s0 & E0 & E1). destruct u. unfold malloc. mrw E0. mrw E1. cbv zeta. rewrite Eix.
    mgo free_head_ok; [|lia|apply B]. erewrite bind_ok by done. mrw Ef. done. }
  rewrite Em. destruct Hb as [->|(r & Hg & Hr & Hsz)].
  - cbn [Z.eqb]. replace (allocate_new_tag (u32 size)) with (allocate_new_tag size) by (by rewrite u32_small by lia).
    destruct (allocate_new_tag_ok A G s1 H1 size Hs) as [(base & s2 & E2 & Hb0 & R2 & HA & HG & HO & H2)|[E2 Hno]].
    + left. mrw E2. rewrite (proj2 (Z.eqb_neq base 0) Hb0). destruct (pages_for_bounds size Hs) as [Hp Hps].
      destruct (malloc_finish _ _ s2 base _ (Used size) size H2 (lookup_insert_eq _ _ _)) as (s3 & G3 & E3 & R3 & H3 & [HO3 HO4]); [done|done|lia| |].
      { intros g' Hg' HN. exfalso. rewrite lookup_insert_ne in Hg' by lia. rewrite lookup_insert_ne in HN by lia.
        pose proof (hv_segs _ _ _ H1) as H5. destruct (sg_inside _ _ _ H5 _ _ Hg') as (b & m & HB & X1 & X2).
        pose proof (seg_min _ _ _ H5 _ _ Hg'). unfold TAG in *. destruct (HO b m HB); [lia|].
        assert (b = base + pages_for size * 4096) by lia. congruence. }
      exists base, s3, (<[base := pages_for size]> A), G3. split; [exact E3|]. split; [congruence|]. split; [done|].
      split; [split; [done|]|congruence]. intros c r n Hc. rewrite HO4 by done. by rewrite lookup_insert_ne.
    + right. split; [unfold bind; by rewrite E2|]. intros k Hk Hk2. rewrite <- Z1 in Hk2.
      destruct (Hno k Hk Hk2) as (j & Hj & Tj). exists j. by rewrite <- K1.
  - left. destruct (seg_tag A G s1 H1 b _ Hg) as (Hb0 & _). rewrite (proj2 (Z.eqb_neq b 0) Hb0).
    destruct (take_free A G s1 H1 b r Hg) as (s2 & t & E2 & [R2 _] & Et & H2). rewrite Hr in E2. mrw E2.
    rewrite (proj2 (Z.eqb_neq b 0) Hb0).
    destruct (malloc_finish _ _ s2 b r Busy size H2 (lookup_insert_eq _ _ _)) as (s3 & G3 & E3 & R3 & H3 & [HO3 HO4]); [done|done|unfold TAG in *; lia| |].
    { intros g' Hg' HN. pose proof (seg_min _ _ _ (hv_segs _ _ _ H1) _ _ Hg) as Hmin. cbn in Hmin. unfold TAG in Hmin.
      rewrite lookup_insert_ne in Hg' by lia. by apply (free_neighbours A G s1 H1 b r Hg). }
    exists b, s3, A, G3. split; [exact E3|]. split; [congruence|]. split; [done|].
    split; [split; [done|]|congruence]. intros c r' n Hc. rewrite HO4 by done. by rewrite lookup_insert_ne.
Qed.

End heap.
