(* ===== verification/LiballocFree.v ===== *)
(** * The heap: giving blocks back *)

From S2P Require Import Prelude Dll Liballoc LiballocTags LiballocInv LiballocLists LiballocHeap.

(** ** Joining on the store *)

(** What [melt_left] and [absorb_right] write: [a] takes over [n] bytes and the
    right neighbour [rr] of the segment behind it. *)
Definition merge_store (a n rr : Z) (m : gmap Z boundary_tag) : gmap Z boundary_tag :=
  alter_if rr (set_t_left a)
    (alter (fun t => set_t_right rr (set_t_real (u32 (t_real_size t + n)) t)) a m).

Lemma alter_comm (f g : boundary_tag -> boundary_tag) i j (m : gmap Z boundary_tag) :
  (forall t, f (g t) = g (f t)) -> alter f i (alter g j m) = alter g j (alter f i m).
Proof.
  intros E. destruct (decide (i = j)) as [->|Hne].
  - apply map_eq. intros b. destruct (decide (b = j)) as [->|Hb].
    + rewrite !lookup_alter_eq. destruct (m !! j); cbn; [by rewrite E|done].
    + by rewrite !lookup_alter_ne.
  - apply map_eq. intros b. destruct (decide (b = i)) as [->|Hb].
    + by rewrite lookup_alter_eq, !(lookup_alter_ne g), lookup_alter_eq by done.
    + rewrite (lookup_alter_ne f) by done. destruct (decide (b = j)) as [->|Hb'].
      * by rewrite !lookup_alter_eq, lookup_alter_ne by done.
      * by rewrite !lookup_alter_ne by done.
Qed.

Lemma alter_if_comm (f g : boundary_tag -> boundary_tag) i j (m : gmap Z boundary_tag) :
  (forall t, f (g t) = g (f t)) -> alter f i (alter_if j g m) = alter_if j g (alter f i m).
Proof. intros E. unfold alter_if. destruct (j =? 0); [done|]. by apply alter_comm. Qed.

Lemma alter_if_if_comm (f g : boundary_tag -> boundary_tag) i j (m : gmap Z boundary_tag) :
  (forall t, f (g t) = g (f t)) -> alter_if i f (alter_if j g m) = alter_if j g (alter_if i f m).
Proof. intros E. unfold alter_if at 1 4. destruct (i =? 0); [done|]. by apply alter_if_comm. Qed.

(** Taking a tag out of its list and joining it commute. *)
Lemma unlink_merge l1 b l2 a n rr m :
  unlinked l1 b l2 (merge_store a n rr m) = merge_store a n rr (unlinked l1 b l2 m).
Proof.
  unfold unlinked, merge_store.
  rewrite (alter_if_if_comm (set_t_next _) (set_t_left a)) by done.
  rewrite (alter_if_if_comm (set_t_prev _) (set_t_left a)) by done.
  rewrite (alter_if_comm _ (set_t_left a)) by done. f_equal.
  rewrite <- (alter_if_comm _ (set_t_next _)) by done. rewrite <- (alter_if_comm _ (set_t_prev _)) by done.
  by apply alter_comm.
Qed.

Lemma merge_store_links a n rr m : links <$> merge_store a n rr m = links <$> m.
Proof. unfold merge_store. by rewrite (view_alter_if links), (view_alter links). Qed.

Lemma merge_store_core a n rr m t : m !! a = Some t -> rr <> a -> forall b,
  (core <$> merge_store a n rr m) !! b =
    if decide (b = a) then Some (set_t_right rr (set_t_real (u32 (t_real_size t + n)) (core t)))
    else if decide (b = rr /\ rr <> 0) then set_t_left a <$> (core <$> m) !! b else (core <$> m) !! b.
Proof.
  intros Et Hrr b. unfold merge_store. rewrite lookup_fmap, lookup_alter_if. destruct (decide (b = a)) as [->|Hb].
  - rewrite decide_False by (intros [? _]; congruence). by rewrite lookup_alter_eq, Et.
  - rewrite lookup_alter_ne, lookup_fmap by done. case_decide; [|done]. by destruct (m !! b).
Qed.

Section free.
Context {S : Type} `{!PageHooks S} (hhdm : Z) `{!PageSource S hhdm}.
Implicit Types (s : lib S) (A : gmap Z Z) (G : gmap Z seg).
#[local] Abbreviation hinv := (hinv hhdm).

(** A block in use is as good as one in hand. *)
Lemma used_busy A G s a r n : hinv A G s -> G !! a = Some (mkSeg r (Used n)) -> hinv A (<[a := mkSeg r Busy]> G) s.
Proof.
  intros H Hg. destruct (seg_tag hhdm A G s H a _ Hg) as (Ha & t & Et & Ec & T & _).
  pose proof H as [H1 H2 H3 H4 H5 H6]. split; try done.
  - rewrite <- (insert_id (core <$> tags s) a (core t) Ec).
    apply (segs_status A G (core <$> tags s) H5 a (mkSeg r (Used n)) (core t)); try done.
    by destruct (tg_status _ _ _ _ _ T).
  - apply (lists_same A G _ _ _ H6).
    + intros b r'. rewrite lookup_insert_Some. split; [intros [[_ E]|[]]; [congruence|done]|].
      intros Hb. right. split; [congruence|done].
    + intros b r' Hb. split; [|done]. by apply (whole_status A G a r (Used n)).
    + intros b g [[<- <-]|[_ Hb]]%lookup_insert_Some Hgb.
      * by apply (ls_zero _ _ _ _ _ H6 a (mkSeg r (Used n))).
      * by apply (ls_zero _ _ _ _ _ H6 b g).
Qed.

(** Joining two neighbours that are both in hand. *)
Lemma merge_hinv A G s a ra b rb ta tb :
  hinv A G s -> G !! a = Some (mkSeg ra Busy) -> G !! b = Some (mkSeg rb Busy) -> b = a + ra -> A !! b = None ->
  tags s !! a = Some ta -> tags s !! b = Some tb ->
  hinv A (<[a := mkSeg (ra + rb) Busy]> (delete b G)) (set_tags (merge_store a rb (t_split_right tb) (tags s)) s).
Proof.
  intros H Ga Gb Eb HN Eta Etb. pose proof H as [H1 H2 H3 H4 H5 H6].
  destruct (seg_tag hhdm A G s H a _ Ga) as (Ha & t & Et & Eca & Ta & _). assert (t = ta) as -> by congruence.
  destruct (seg_tag hhdm A G s H b _ Gb) as (Hb & t & Et' & Ecb & Tb & _). assert (t = tb) as -> by congruence.
  pose proof (tg_real _ _ _ _ _ Ta) as Ra. change (t_real_size (core ta)) with (t_real_size ta) in Ra.
  pose proof (tg_min _ _ _ _ _ Ta) as Ma. pose proof (tg_min _ _ _ _ _ Tb) as Mb.
  pose proof (seg_range _ _ _ H4 _ _ H5 a _ Ga) as Hra. pose proof (seg_range _ _ _ H4 _ _ H5 b _ Gb) as Hrb.
  cbn [g_real] in *. set (rr := t_split_right tb) in *.
  assert (Hrr : rr <> a /\ rr <> b).
  { destruct (tg_right _ _ _ _ _ Tb) as [[E _]|(E & _ & _)]; cbn [g_real] in E; change (t_split_right (core tb)) with rr in E;
      unfold TAG in *; lia. }
  destruct Hrr as [Hrr Hrb'].
  assert (Hu : u32 (t_real_size ta + rb) = ra + rb) by (rewrite Ra; apply u32_small; unfold TAG in *; lia).
  pose proof (merge_store_core a rb rr (tags s) ta Eta Hrr) as MC. rewrite Hu in MC.
  split; cbn [tags set_tags boot_hhdm l_initialized pages l_freePages l_completePages]; try done.
  - pose proof (segs_merge _ _ _ H4 _ _ H5 a ra b (mkSeg rb Busy) (core ta) (core tb)
      (set_t_right rr (set_t_real (ra + rb) (core ta))) (core <$> merge_store a rb rr (tags s))) as SM.
    cbn [g_real] in SM. apply SM; try done.
    + by rewrite MC, decide_True by done.
    + apply Ta.
    + apply (tg_status _ _ _ _ _ Ta).
    + intros E cr Hcr. change (t_split_right (core tb)) with rr in *. rewrite MC, decide_False, decide_True by done.
      by rewrite Hcr.
    + intros x E1 E2 E3. change (t_split_right (core tb)) with rr in *. by rewrite MC, !decide_False by tauto.
  - rewrite merge_store_links. apply (lists_same A G _ _ _ H6).
    + intros x r'. rewrite lookup_insert_Some, lookup_delete_Some. split.
      * intros [[_ E]|[_ [_ E]]]; [congruence|done].
      * intros Hx. right. split; [congruence|]. split; [congruence|done].
    + intros x r' Hx. split; [|done]. unfold whole.
      rewrite lookup_insert_ne by congruence. by rewrite lookup_delete_ne by congruence.
    + intros x g [[<- <-]|[_ Hx]]%lookup_insert_Some Hgx.
      * by apply (ls_zero _ _ _ _ _ H6 a (mkSeg ra Busy)).
      * apply lookup_delete_Some in Hx as [_ Hx]. by apply (ls_zero _ _ _ _ _ H6 x g).
Qed.

(** Whether a tag fills its run, read off its links. *)
Lemma whole_test A G s a g t : hinv A G s -> G !! a = Some g -> tags s !! a = Some t ->
  (t_split_left t =? 0) && (t_split_right t =? 0) = whole A G a.
Proof.
  intros H Hg Et. pose proof (whole_links _ _ _ (hv_arenas _ _ _ _ H) _ _ (hv_segs _ _ _ _ H) a g (core t) Hg) as W.
  rewrite lookup_fmap, Et in W. specialize (W eq_refl).
  apply eq_true_iff_eq. rewrite andb_true_iff, !Z.eqb_eq. unfold whole. rewrite Hg.
  change (t_split_left (core t)) with (t_split_left t) in W.
  change (t_split_right (core t)) with (t_split_right t) in W. rewrite W. clear.
  destruct (A !! a) as [n|]; [|naive_solver]. rewrite Z.eqb_eq. naive_solver.
Qed.

(** Taking a free segment that has neighbours out of its list. *)
Lemma remove_inner A G s a r t : hinv A G s -> G !! a = Some (mkSeg r Free) -> tags s !! a = Some t ->
  t_split_left t <> 0 \/ t_split_right t <> 0 ->
  exists l1 l2, let tg := unlinked l1 a l2 (tags s) in
    let s' := set_freePages (<[Z.to_nat (bucket r) := first_of (l1 ++ l2)]> (l_freePages s)) (set_tags tg s) in
    bucket_ok A G (links <$> tags s) (l_freePages s) (l_completePages s) (bucket r) (l1 ++ a :: l2) /\
    remove_tag a s = Ok (tt, s') /\ hinv A (<[a := mkSeg r Busy]> G) s' /\
    exists t', tg !! a = Some t' /\ core t' = set_t_index (-1) (core t).
Proof.
  intros H Hg Et Hn. pose proof H as [H1 H2 H3 H4 H5 H6].
  destruct (remove_free hhdm A G s H a r Hg) as (l1 & l2 & t0 & Et0 & B & E & Uc & Ul & Ua & Uo).
  assert (t0 = t) as -> by congruence. destruct (seg_tag hhdm A G s H a _ Hg) as (_ & t0 & Et' & Ec & T & _).
  assert (t0 = t) as -> by congruence. exists l1, l2. cbn zeta. split; [done|]. split; [done|]. split.
  - split; cbn [tags set_tags boot_hhdm l_initialized pages l_freePages l_completePages set_freePages]; try done.
    + rewrite Uc. apply (segs_status A G (core <$> tags s) H5 a (mkSeg r Free) (core t)); done.
    + apply (lists_take A G _ _ _ H6 a r Busy l1 l2); try done.
      * intros b Hb. rewrite !lookup_fmap. by rewrite Uo.
      * rewrite <- (whole_test A G s a _ t H Hg Et).
        assert ((t_split_left t =? 0) && (t_split_right t =? 0) = false) as ->.
        { apply andb_false_iff. rewrite !Z.eqb_neq. done. }
        cbn [Z.b2z]. rewrite Z.sub_0_r, list_insert_id; [done|]. apply B.
  - assert ((core <$> unlinked l1 a l2 (tags s)) !! a = Some (set_t_index (-1) (core t))) as E1
      by (rewrite Uc; apply lookup_insert_eq).
    rewrite lookup_fmap in E1. destruct (unlinked l1 a l2 (tags s) !! a) as [t1|]; [|done].
    exists t1. split; [done|]. cbn [fmap option_fmap option_map] in E1. congruence.
Qed.

(** [G'] has [a] in hand with all of the blocks in use of [G]. *)
Definition in_hand G a G' : Prop :=
  (exists r, G' !! a = Some (mkSeg r Busy)) /\
  forall b r n, G' !! b = Some (mkSeg r (Used n)) <-> G !! b = Some (mkSeg r (Used n)).

Lemma in_hand_refl G a r : G !! a = Some (mkSeg r Busy) -> in_hand G a G.
Proof. split; [eauto|done]. Qed.

Lemma in_hand_trans G a G1 b G2 : in_hand G a G1 -> in_hand G1 b G2 -> in_hand G b G2.
Proof. intros [_ H1] [H2 H3]. split; [done|]. intros. by rewrite H3, H1. Qed.

(** One segment absorbs another. *)
Lemma in_hand_two G a b r G' :
  (forall r n, G !! a <> Some (mkSeg r (Used n))) -> (forall r n, G !! b <> Some (mkSeg r (Used n))) ->
  G' !! a = Some (mkSeg r Busy) -> G' !! b = None ->
  (forall c, c <> a -> c <> b -> G' !! c = G !! c) -> in_hand G a G'.
Proof.
  intros Ha Hb Ha' Hb' Hc. split; [eauto|]. intros c r' n.
  destruct (decide (c = a)) as [->|]; [rewrite Ha'; split; [done|by intros ?%Ha]|].
  destruct (decide (c = b)) as [->|]; [rewrite Hb'; split; [done|by intros ?%Hb]|]. by rewrite Hc.
Qed.

(** Bytes that lie in free segments, or in the segment [a] that is in hand. *)
Definition free_byte G x : Prop := exists b r, G !! b = Some (mkSeg r Free) /\ b <= x < b + r.
Definition idle G a x : Prop := free_byte G x \/ exists r, G !! a = Some (mkSeg r Busy) /\ a <= x < a + r.

(** No such byte is lost when the segment in hand is joined with a free neighbour. *)
Lemma idle_two G a r b rb c G' :
  G !! a = Some (mkSeg r Busy) -> G !! b = Some (mkSeg rb Free) -> G' !! c = Some (mkSeg (r + rb) Busy) ->
  a = b + rb /\ c = b \/ b = a + r /\ c = a -> 0 <= r -> 0 <= rb ->
  (forall d, d <> a -> d <> b -> G' !! d = G !! d) -> forall x, idle G a x -> idle G' c x.
Proof.
  intros Ga Gb Gc Hc Hr Hrb Ho x [(d & rd & Gd & Hx)|(r' & Ga' & Hx)].
  - destruct (decide (d = b)) as [->|Hdb].
    + right. exists (r + rb). split; [done|]. assert (rd = rb) as -> by congruence. lia.
    + left. exists d, rd. split; [|done]. rewrite Ho; [done|congruence|done].
  - right. exists (r + rb). split; [done|]. assert (r' = r) as -> by congruence. lia.
Qed.

(** The left neighbour of a segment takes it over. *)
Lemma melt_left_ok A G s a ra b rb ta :
  hinv A G s -> G !! a = Some (mkSeg ra Busy) -> tags s !! a = Some ta -> t_split_left ta = b -> b <> 0 ->
  G !! b = Some (mkSeg rb Free) ->
  exists s1 s2, melt_left a s = Ok (b, s1) /\ remove_tag b s1 = Ok (tt, s2) /\ quiet s s2 /\
    hinv A (<[b := mkSeg (rb + ra) Busy]> (delete a (<[b := mkSeg rb Busy]> G))) s2.
Proof.
  intros H Ga Eta Elf Hb0 Gb. pose proof H as [H1 H2 H3 H4 H5 H6].
  destruct (seg_tag hhdm A G s H a _ Ga) as (Ha0 & t & Et & Eca & Ta & _). assert (t = ta) as -> by congruence.
  destruct (seg_tag hhdm A G s H b _ Gb) as (_ & tb & Etb & Ecb & Tb & _).
  destruct (left_right _ _ _ H4 _ _ H5 a _ _ Ga Eca) as (HNa & g & c & Hg & Hc & _ & Eab & Erb).
  { by change (t_split_left (core ta)) with (t_split_left ta); rewrite Elf. }
  change (t_split_left (core ta)) with (t_split_left ta) in *. rewrite Elf in *.
  assert (g = mkSeg rb Free) as -> by congruence. assert (c = core tb) as -> by congruence. cbn [g_real] in Eab.
  pose proof (tg_real _ _ _ _ _ Ta) as Ra. change (t_real_size (core ta)) with (t_real_size ta) in Ra. cbn [g_real] in Ra.
  pose proof (tg_min _ _ _ _ _ Ta) as Ma. pose proof (tg_min _ _ _ _ _ Tb) as Mb. cbn [g_real] in Ma, Mb.
  assert (Hab : a <> b) by (unfold TAG in *; lia).
  destruct (remove_inner A G s b rb tb H Gb Etb) as (l1 & l2 & B & E & Hi & tb' & Etb' & Ecb').
  { right. change (t_split_right (core tb)) with (t_split_right tb) in Erb. by rewrite Erb. }
  set (rr := t_split_right ta) in *.
  assert (Hrr : rr <> 0 -> is_Some (tags s !! rr) /\ rr <> b).
  { intros Er. destruct (right_left _ _ _ H5 a _ _ Ga Eca Er) as (E1 & _ & gr & cr & Hgr & _).
    change (t_split_right (core ta)) with rr in E1. cbn [g_real] in E1, Hgr. rewrite <- E1 in Hgr.
    destruct (seg_tag hhdm A G s H _ _ Hgr) as (_ & tr & Htr & _). split; [by eexists|]. unfold TAG in *. lia. }
  assert (Hrb : rr <> b) by (destruct (decide (rr = 0)); [congruence|by apply Hrr]).
  assert (Hna : a ∉ l1 ++ b :: l2) by (intros (r' & Hr' & _)%(bk_free _ _ _ _ _ _ _ B); congruence).
  pose proof (list_nonzero hhdm A G s H _ _ (bucket_range rb) B) as H0.
  assert (Eu : unlinked l1 b l2 (tags s) !! a = Some ta).
  { destruct (unlinked_links (tags s) l1 b l2 tb) as (_ & _ & Uo); try done; [apply B|apply B|]. by rewrite Uo. }
  eexists (set_tags (merge_store b ra rr (tags s)) s), _. split; [|split; [|split]].
  - unfold melt_left. mgo get_tag_ok; [|exact Ha0|exact Eta]. rewrite Elf, Ra. fold rr.
    mgo upd_tag_ok; [|exact Hb0|by eexists]. mgo upd_tag_if_ok; [done|].
    intros Er. cbn [tags set_tags]. destruct (Hrr Er). by rewrite lookup_alter_ne.
  - apply (remove_tag_ok _ (bucket rb) l1 b l2 (set_t_right rr (set_t_real (u32 (t_real_size tb + ra)) tb)));
      cbn [tags set_tags l_freePages]; rewrite ?merge_store_links; try apply B; try done; [pose proof (bucket_range rb); lia| |].
    + unfold merge_store. rewrite lookup_alter_if, decide_False by (intros [? _]; congruence). by rewrite lookup_alter_eq, Etb.
    + apply Tb.
  - done.
  - cbn [tags set_tags l_freePages]. rewrite unlink_merge.
    pose proof (merge_hinv A _ _ b rb a ra tb' ta Hi (lookup_insert_eq _ _ _)) as MH.
    rewrite lookup_insert_ne in MH by done. specialize (MH Ga). exact (MH ltac:(lia) HNa Etb' Eu).
Qed.

(** A segment takes over its right neighbour. *)
Lemma absorb_right_ok A G s a ra b rb ta :
  hinv A G s -> G !! a = Some (mkSeg ra Busy) -> tags s !! a = Some ta -> t_split_right ta = b -> b <> 0 ->
  G !! b = Some (mkSeg rb Free) ->
  exists s', absorb_right a s = Ok (a, s') /\ quiet s s' /\
    hinv A (<[a := mkSeg (ra + rb) Busy]> (delete b (<[b := mkSeg rb Busy]> G))) s'.
Proof.
  intros H Ga Eta Ert Hb0 Gb. pose proof H as [H1 H2 H3 H4 H5 H6].
  destruct (seg_tag hhdm A G s H a _ Ga) as (Ha0 & t & Et & Eca & Ta & _). assert (t = ta) as -> by congruence.
  destruct (seg_tag hhdm A G s H b _ Gb) as (_ & tb & Etb & Ecb & Tb & _).
  destruct (right_left _ _ _ H5 a _ _ Ga Eca) as (Eb & HNb & g & c & Hg & Hc & _ & Elb).
  { by change (t_split_right (core ta)) with (t_split_right ta); rewrite Ert. }
  change (t_split_right (core ta)) with (t_split_right ta) in *. rewrite Ert in *. cbn [g_real] in *. rewrite <- Eb in *.
  assert (g = mkSeg rb Free) as -> by congruence. assert (c = core tb) as -> by congruence.
  pose proof (tg_min _ _ _ _ _ Ta) as Ma. pose proof (tg_min _ _ _ _ _ Tb) as Mb. cbn [g_real] in Ma, Mb.
  assert (Hab : a <> b) by (unfold TAG in *; lia).
  destruct (remove_inner A G s b rb tb H Gb Etb) as (l1 & l2 & B & E & Hi & tb' & Etb' & Ecb').
  { left. change (t_split_left (core tb)) with (t_split_left tb) in Elb. by rewrite Elb. }
  assert (Err : t_split_right tb' = t_split_right tb) by exact (f_equal t_split_right Ecb').
  assert (Erl : t_real_size tb' = rb).
  { transitivity (t_real_size (core tb)); [exact (f_equal t_real_size Ecb')|apply Tb]. }
  set (rr := t_split_right tb) in *.
  assert (Hna : a ∉ l1 ++ b :: l2) by (intros (r' & Hr' & _)%(bk_free _ _ _ _ _ _ _ B); congruence).
  pose proof (list_nonzero hhdm A G s H _ _ (bucket_range rb) B) as H0.
  destruct (unlinked_links (tags s) l1 b l2 tb) as (_ & _ & Uo); try done; [apply B|apply B|].
  set (s1 := set_freePages _ _) in *.
  assert (Eu : tags s1 !! a = Some ta) by (cbn [s1 tags set_tags set_freePages]; by rewrite Uo).
  assert (Hrr : rr <> 0 -> is_Some (tags s1 !! rr) /\ rr <> a).
  { intros Er. destruct (right_left _ _ _ H5 b _ _ Gb Ecb Er) as (E1 & _ & gr & cr & Hgr & _).
    change (t_split_right (core tb)) with rr in E1. cbn [g_real] in E1, Hgr. rewrite <- E1 in Hgr. unfold TAG in *.
    assert (rr <> b /\ rr <> a) as [X1 X2] by lia.
    destruct (seg_tag hhdm A _ s1 Hi rr gr) as (_ & tr & Htr & _); [by rewrite lookup_insert_ne|]. by split; [eexists|]. }
  exists (set_tags (merge_store a rb rr (tags s1)) s1). split; [|split; [done|]].
  - unfold absorb_right. mgo get_tag_ok; [|exact Ha0|exact Eta]. rewrite Ert. mrw E.
    mgo get_tag_ok; [|exact Hb0|exact Etb']. rewrite Err, Erl. mgo upd_tag_ok; [|exact Ha0|by eexists].
    mgo upd_tag_if_ok; [done|]. intros Er. cbn [tags set_tags]. destruct (Hrr Er). by rewrite lookup_alter_ne.
  - pose proof (merge_hinv A _ s1 a ra b rb ta tb' Hi) as MH. rewrite lookup_insert_ne in MH by done.
    specialize (MH Ga (lookup_insert_eq _ _ _) Eb HNb Eu Etb'). by rewrite Err in MH.
Qed.

(** The neighbours of [a] are not free. *)
Definition calm_left A G a : Prop :=
  forall b g, G !! b = Some g -> b + g_real g = a -> A !! a = None -> g_st g <> Free.
Definition calm_right A G a : Prop :=
  forall r st g, G !! a = Some (mkSeg r st) -> G !! (a + r) = Some g -> A !! (a + r) = None -> g_st g <> Free.

(** The sign of the index tells free segments apart. *)
Lemma index_sign A G a g c : tag_ok A G a g c -> (0 <=? t_index c) = bool_decide (g_st g = Free).
Proof.
  intros T. pose proof (tg_status _ _ _ _ _ T) as Hx. destruct (g_st g).
  - destruct Hx as [-> _]. done.
  - by rewrite Hx.
  - rewrite Hx. pose proof (bucket_range (g_real g)). rewrite bool_decide_true by done. apply Z.leb_le. lia.
Qed.

Lemma melt_lefts_stop A G s a r fuel :
  hinv A G s -> G !! a = Some (mkSeg r Busy) -> calm_left A G a -> melt_lefts (Datatypes.S fuel) a s = Ok (a, s).
Proof.
  intros H Ga Hc. destruct (seg_tag hhdm A G s H a _ Ga) as (Ha0 & t & Et & Ec & T & _). cbn [melt_lefts].
  mgo get_tag_ok; [|exact Ha0|exact Et]. destruct (Z.eqb_spec (t_split_left t) 0) as [|Hl]; [done|].
  destruct (left_right _ _ _ (hv_arenas _ _ _ _ H) _ _ (hv_segs _ _ _ _ H) a _ _ Ga Ec Hl)
    as (HN & g & c & Hg & Hc' & Tl & E & _). change (t_split_left (core t)) with (t_split_left t) in *.
  rewrite lookup_fmap in Hc'. destruct (tags s !! t_split_left t) as [tl|] eqn:Etl; [|done]. injection Hc' as <-.
  mgo get_tag_ok; [|exact Hl|exact Etl]. change (t_index tl) with (t_index (core tl)).
  rewrite (index_sign _ _ _ _ _ Tl). rewrite bool_decide_false; [done|]. by apply (Hc _ _ Hg E).
Qed.

Lemma melt_rights_stop A G s a r fuel :
  hinv A G s -> G !! a = Some (mkSeg r Busy) -> calm_right A G a -> melt_rights (Datatypes.S fuel) a s = Ok (a, s).
Proof.
  intros H Ga Hc. destruct (seg_tag hhdm A G s H a _ Ga) as (Ha0 & t & Et & Ec & T & _). cbn [melt_rights].
  mgo get_tag_ok; [|exact Ha0|exact Et]. destruct (Z.eqb_spec (t_split_right t) 0) as [|Hr]; [done|].
  destruct (right_left _ _ _ (hv_segs _ _ _ _ H) a _ _ Ga Ec Hr) as (E & HN & g & c & Hg & Hc' & Tl & _).
  change (t_split_right (core t)) with (t_split_right t) in *. cbn [g_real] in *. rewrite <- E in *.
  rewrite lookup_fmap in Hc'. destruct (tags s !! t_split_right t) as [tl|] eqn:Etl; [|done]. injection Hc' as <-.
  mgo get_tag_ok; [|exact Hr|exact Etl]. change (t_index tl) with (t_index (core tl)).
  rewrite (index_sign _ _ _ _ _ Tl). rewrite bool_decide_false; [done|].
  apply (Hc r Busy g Ga); by rewrite <- E.
Qed.

(** The first loop of [free]. *)
Lemma melt_lefts_ok A G s a r fuel :
  hinv A G s -> G !! a = Some (mkSeg r Busy) -> (2 <= fuel)%nat ->
  exists a' s' G', melt_lefts fuel a s = Ok (a', s') /\ quiet s s' /\ hinv A G' s' /\ in_hand G a' G' /\
    calm_left A G' a' /\ forall x, idle G a x -> idle G' a' x.
Proof.
  intros H Ga Hf. destruct fuel as [|[|fuel]]; [lia|lia|].
  destruct (seg_tag hhdm A G s H a _ Ga) as (Ha0 & t & Et & Ec & T & _).
  pose proof (hv_segs _ _ _ _ H) as H5. pose proof (hv_arenas _ _ _ _ H) as H4.
  assert (calm_left A G a \/ t_split_left t <> 0 /\ exists rb, G !! t_split_left t = Some (mkSeg rb Free)) as [Hc|[Hl (rb & Gb)]].
  { destruct (Z.eq_dec (t_split_left t) 0) as [E|Hl].
    - left. intros b g Hb Hba HN. destruct (tg_left _ _ _ _ _ T) as [[_ [n Hn]]|(_ & gb & Hgb & _)]; [congruence|].
      change (t_split_left (core t)) with (t_split_left t) in Hgb. rewrite E in Hgb.
      pose proof (seg_range _ _ _ H4 _ _ H5 _ _ Hgb). lia.
    - destruct (left_right _ _ _ H4 _ _ H5 a _ _ Ga Ec Hl) as (HN & [rb st] & c & Hg & Hc' & Tl & E & _).
      change (t_split_left (core t)) with (t_split_left t) in *. cbn [g_real] in E.
      destruct (decide (st = Free)) as [->|Hne]; [right; eauto|]. left. intros b g Hb Hba _.
      assert (b = t_split_left t) as -> by (apply (seg_end_inj _ _ _ H5 _ _ _ _ Hb Hg); cbn; lia).
      assert (g = mkSeg rb st) as -> by congruence. done. }
  - exists a, s, G. split; [by eapply melt_lefts_stop|]. split; [done|]. split; [done|]. split; [by eapply in_hand_refl|done].
  - set (b := t_split_left t) in *.
    destruct (melt_left_ok A G s a r b rb t H Ga Et eq_refl Hl Gb) as (s1 & s2 & E1 & E2 & Q & H2).
    destruct (left_right _ _ _ H4 _ _ H5 a _ _ Ga Ec Hl) as (HN & g & c & Hg & Hc' & Tl & E & _).
    change (t_split_left (core t)) with b in *. assert (g = mkSeg rb Free) as -> by congruence. cbn [g_real] in E.
    pose proof (seg_min _ _ _ H5 _ _ Gb) as Mb. cbn [g_real] in Mb. assert (Hab : a <> b) by (unfold TAG in *; lia).
    set (G2 := <[b := mkSeg (rb + r) Busy]> (delete a (<[b := mkSeg rb Busy]> G))) in *.
    assert (Hold : forall c, c <> b -> c <> a -> G2 !! c = G !! c).
    { intros x X1 X2. unfold G2. by rewrite lookup_insert_ne, lookup_delete_ne, lookup_insert_ne by done. }
    assert (G2b : G2 !! b = Some (mkSeg (rb + r) Busy)) by apply lookup_insert_eq.
    assert (G2a : G2 !! a = None) by (unfold G2; rewrite lookup_insert_ne by done; apply lookup_delete_eq).
    assert (Hcalm : calm_left A G2 b).
    { intros x g Hx Exb HNb. pose proof (seg_min _ _ _ (hv_segs _ _ _ _ H2) _ _ Hx). unfold TAG in *.
      apply (free_neighbours hhdm A G s H b rb Gb) with (b := x); [|done|done].
      rewrite <- Hold; [done|lia|congruence]. }
    exists b, s2, G2. split; [|split; [done|split; [done|split; [|split; [done|]]]]].
    + cbn [melt_lefts]. mgo get_tag_ok; [|exact Ha0|exact Et]. fold b. rewrite (proj2 (Z.eqb_neq b 0) Hl).
      rewrite lookup_fmap in Hc'. destruct (tags s !! b) as [tb|] eqn:Etb; [|done]. injection Hc' as <-.
      mgo get_tag_ok; [|exact Hl|exact Etb]. change (t_index tb) with (t_index (core tb)).
      rewrite (index_sign _ _ _ _ _ Tl). rewrite bool_decide_true by done. mrw E1. mrw E2.
      by apply (melt_lefts_stop A G2 s2 b (rb + r)).
    + apply (in_hand_two G b a (rb + r)); try done; congruence.
    + pose proof (seg_min _ _ _ H5 _ _ Ga) as Ma. cbn [g_real] in Ma. unfold TAG in *.
      apply (idle_two G a r b rb b G2 Ga Gb); [by rewrite G2b, Z.add_comm|lia|lia|lia|]. intros d D1 D2. by apply Hold.
Qed.

(** The second loop. *)
Lemma melt_rights_ok A G s a r fuel :
  hinv A G s -> G !! a = Some (mkSeg r Busy) -> calm_left A G a -> (2 <= fuel)%nat ->
  exists s' G', melt_rights fuel a s = Ok (a, s') /\ quiet s s' /\ hinv A G' s' /\ in_hand G a G' /\
    calm_left A G' a /\ calm_right A G' a /\ forall x, idle G a x -> idle G' a x.
Proof.
  intros H Ga Hcl Hf. destruct fuel as [|[|fuel]]; [lia|lia|].
  destruct (seg_tag hhdm A G s H a _ Ga) as (Ha0 & t & Et & Ec & T & _).
  pose proof (hv_segs _ _ _ _ H) as H5. pose proof (hv_arenas _ _ _ _ H) as H4.
  assert (calm_right A G a \/ t_split_right t <> 0 /\ exists rb, G !! t_split_right t = Some (mkSeg rb Free)) as [Hc|[Hl (rb & Gb)]].
  { destruct (Z.eq_dec (t_split_right t) 0) as [E|Hl].
    - left. intros r' st g Ha Hg HN. assert (r' = r) as -> by congruence.
      destruct (tg_right _ _ _ _ _ T) as [[_ He]|(E' & _)]; cbn [g_real] in *.
      + exfalso. pose proof (seg_min _ _ _ H5 _ _ Ga) as Mi. cbn in Mi. unfold TAG in Mi.
        apply (end_not_inside _ _ _ H4 _ _ H5 a _ (a + r) g Ga He); [lia|done|done].
      + change (t_split_right (core t)) with (t_split_right t) in E'. rewrite E in E'.
        pose proof (seg_range _ _ _ H4 _ _ H5 _ _ Hg). lia.
    - destruct (right_left _ _ _ H5 a _ _ Ga Ec Hl) as (E & HN & [rb st] & c & Hg & _).
      change (t_split_right (core t)) with (t_split_right t) in *. cbn [g_real] in *. rewrite <- E in *.
      destruct (decide (st = Free)) as [->|Hne]; [right; eauto|]. left. intros r' st' g Ha Hg' _.
      assert (r' = r) as -> by congruence. rewrite <- E in Hg'. by assert (g = mkSeg rb st) as -> by congruence. }
  - exists s, G. split; [by eapply melt_rights_stop|]. split; [done|]. split; [done|]. split; [by eapply in_hand_refl|done].
  - set (b := t_split_right t) in *.
    destruct (absorb_right_ok A G s a r b rb t H Ga Et eq_refl Hl Gb) as (s2 & E1 & Q & H2).
    destruct (right_left _ _ _ H5 a _ _ Ga Ec Hl) as (E & HN & g & c & Hg & Hc' & Tl & _).
    change (t_split_right (core t)) with b in *. cbn [g_real] in *. rewrite <- E in *.
    assert (g = mkSeg rb Free) as -> by congruence.
    pose proof (seg_min _ _ _ H5 _ _ Ga) as Ma. pose proof (seg_min _ _ _ H5 _ _ Gb) as Mb. cbn [g_real] in Ma, Mb.
    assert (Hab : a <> b) by (unfold TAG in *; lia).
    set (G2 := <[a := mkSeg (r + rb) Busy]> (delete b (<[b := mkSeg rb Busy]> G))) in *.
    assert (Hold : forall c, c <> a -> c <> b -> G2 !! c = G !! c).
    { intros x X1 X2. unfold G2. by rewrite lookup_insert_ne, lookup_delete_ne, lookup_insert_ne by done. }
    assert (G2a : G2 !! a = Some (mkSeg (r + rb) Busy)) by apply lookup_insert_eq.
    assert (G2b : G2 !! b = None) by (unfold G2; rewrite lookup_insert_ne by done; apply lookup_delete_eq).
    assert (Hcr : calm_right A G2 a).
    { intros r' st g Ha Hg' HN'. assert (r' = r + rb) as -> by congruence. replace (a + (r + rb)) with (b + rb) in * by lia.
      unfold TAG in *. rewrite Hold in Hg' by lia. by apply (free_neighbours hhdm A G s H b rb Gb). }
    exists s2, G2. split; [|split; [done|split; [done|split; [|split; [|split; [done|]]]]]].
    + cbn [melt_rights]. mgo get_tag_ok; [|exact Ha0|exact Et]. fold b. rewrite (proj2 (Z.eqb_neq b 0) Hl).
      rewrite lookup_fmap in Hc'. destruct (tags s !! b) as [tb|] eqn:Etb; [|done]. injection Hc' as <-.
      mgo get_tag_ok; [|exact Hl|exact Etb]. change (t_index tb) with (t_index (core tb)).
      rewrite (index_sign _ _ _ _ _ Tl). rewrite bool_decide_true by done. mrw E1.
      by apply (melt_rights_stop A G2 s2 a (r + rb)).
    + apply (in_hand_two G a b (r + rb)); try done; congruence.
    + intros x g Hx Ex HNa. pose proof (seg_min _ _ _ (hv_segs _ _ _ _ H2) _ _ Hx). unfold TAG in *.
      apply (Hcl x g); [|done|done]. rewrite <- Hold; [done|lia|congruence].
    + unfold TAG in *. apply (idle_two G a r b rb a G2 Ga Gb G2a); [lia|lia|lia|done].
Qed.

(** A calm segment in hand goes to the front of its list. *)
Lemma list_free A G s a r cp' :
  hinv A G s -> G !! a = Some (mkSeg r Busy) -> calm_left A G a -> calm_right A G a ->
  (forall w, l_completePages s !! Z.to_nat (bucket r) = Some w ->
    cp' = <[Z.to_nat (bucket r) := w + Z.b2z (whole A G a)]> (l_completePages s) /\
    w + Z.b2z (whole A G a) <= MAXCOMPLETE) ->
  exists s', insert_tag a (bucket r) (set_completePages cp' s) = Ok (tt, s') /\ ram s' = ram s /\ pages s' = pages s /\
    hinv A (<[a := mkSeg r Free]> G) s'.
Proof.
  intros H Ga Hcl Hcr Hcp. pose proof H as [H1 H2 H3 H4 H5 H6]. pose proof (bucket_range r) as Hr.
  destruct (seg_tag hhdm A G s H a _ Ga) as (Ha0 & t & Et & Ec & T & Hz). specialize (Hz ltac:(done)).
  destruct (ls_lists _ _ _ _ _ H6 (bucket r) Hr) as (l & B).
  destruct (Hcp _ (bk_whole _ _ _ _ _ _ _ B)) as [-> Hmax].
  assert (Hal : a ∉ l) by (intros (r' & Hr' & _)%(bk_free _ _ _ _ _ _ _ B); congruence).
  assert (Hn : NoDup (a :: l)) by (apply NoDup_cons; split; [done|apply B]).
  assert (H0 : 0 ∉ a :: l).
  { intros [E|E]%elem_of_cons; [done|]. by apply (list_nonzero hhdm A G s H _ _ Hr B). }
  set (s1 := set_completePages _ s).
  pose proof (insert_tag_ok s1 (bucket r) a l t) as EI. cbn zeta in EI.
  rewrite (proj2 (Z.ltb_ge (bucket r) 0)) in EI by lia.
  specialize (EI ltac:(lia) (bk_head _ _ _ _ _ _ _ B) (bk_chain _ _ _ _ _ _ _ B) Hn H0 Et Hz).
  eexists. split; [exact EI|]. split; [done|]. split; [done|].
  destruct (pushed_links (tags s) (bucket r) a l t (bk_chain _ _ _ _ _ _ _ B) Hn H0 Et Hz) as [PL1 PL2].
  split; cbn [s1 tags set_tags boot_hhdm l_initialized pages l_freePages l_completePages set_completePages set_freePages]; try done.
  - rewrite (pushed_core (tags s) (bucket r) a l t Et).
    apply (segs_status A G (core <$> tags s) H5 a (mkSeg r Busy) (core t)); try done.
    intros _. split; [|exact Hcl]. intros g' Hg' HN. by apply (Hcr r Busy g').
  - apply (lists_put A G _ _ _ H6 a r Busy l); try done.
    intros b Hb. rewrite !lookup_fmap. by rewrite PL2.
Qed.

(** A whole run goes back to the page allocator. *)
Lemma release_run A G s a r : hinv A G s -> G !! a = Some (mkSeg r Busy) -> whole A G a = true ->
  exists n q, A !! a = Some n /\ r = n * 4096 /\ 16 <= n /\
    hook (liballoc_free a n) s = Ok (true, set_pages q s) /\
    hinv (delete a A) (delete a G) (set_pages q s) /\
    forall x, hhdm <= x -> taken q ((x - hhdm) / 4096) =
      if decide (a <= x < a + r) then false else taken (pages s) ((x - hhdm) / 4096).
Proof.
  intros H Ga Hw. pose proof H as [H1 H2 H3 H4 H5 H6]. unfold whole in Hw. rewrite Ga in Hw. cbn [g_real] in Hw.
  destruct (A !! a) as [n|] eqn:HA; [|done]. apply Z.eqb_eq in Hw as ->.
  destruct (ar_run _ _ _ H4 a n HA) as (k & -> & K1 & K2 & K3 & K4).
  destruct (src_free_ok (pages s) k n H3) as (q & E & Q1 & Q2 & Q3); [lia|lia|lia|done|].
  exists n, q. split_and!; try done; [lia|unfold hook; by rewrite E| |].
  2:{ intros x Hx. pose proof (Z.div_pos (x - hhdm) 4096). rewrite Q3 by lia.
      pose proof (Z.div_mod (x - hhdm) 4096 ltac:(lia)). pose proof (Z.mod_pos_bound (x - hhdm) 4096 ltac:(lia)).
      repeat case_decide; done || lia. }
  split; cbn [tags set_pages boot_hhdm l_initialized pages l_freePages l_completePages]; try done.
  - split; [apply H4|..].
    + intros b m [Hne Hb]%lookup_delete_Some. destruct (ar_run _ _ _ H4 b m Hb) as (k' & -> & X1 & X2 & X3 & X4).
      exists k'. split_and!; try done; try lia. intros j Hj. rewrite Q3 by lia. rewrite decide_False; [by apply X4|].
      intros Hj2. destruct (Z.lt_trichotomy k k') as [Y|[->|Y]]; [|done|].
      * pose proof (ar_apart _ _ _ H4 _ _ _ _ HA Hb ltac:(lia)). lia.
      * pose proof (ar_apart _ _ _ H4 _ _ _ _ Hb HA ltac:(lia)). lia.
    + intros b m b' m' [_ Hb]%lookup_delete_Some [_ Hb']%lookup_delete_Some. by apply (ar_apart _ _ _ H4 b m b' m').
  - by apply (segs_release _ _ _ H4 _ _ H5 _ n Busy).
  - apply (lists_same A G _ _ _ H6).
    + intros x r'. rewrite lookup_delete_Some. split; [by intros []|]. intros Hx. split; [congruence|done].
    + intros x r' Hx. split; [|done]. unfold whole. by rewrite !lookup_delete_ne by congruence.
    + intros x g [_ Hx]%lookup_delete_Some. by apply (ls_zero _ _ _ _ _ H6).
Qed.

(** The same blocks are in use. *)
Definition same_used G G' : Prop :=
  forall b r n, G' !! b = Some (mkSeg r (Used n)) <-> G !! b = Some (mkSeg r (Used n)).

(** Bytes that a later [malloc] can hand out: those of free segments and those of
    pages that are not taken. *)
Definition idle_byte G s x : Prop := free_byte G x \/ taken (pages s) ((x - hhdm) / 4096) = false.

(** Only the segment [a] in hand changed. *)
Lemma free_byte_frame G a r G' x : G !! a = Some (mkSeg r Busy) -> (forall b, b <> a -> G' !! b = G !! b) ->
  free_byte G x -> free_byte G' x.
Proof. intros Ga Ho (b & rb & Gb & Hx). exists b, rb. split; [|done]. rewrite Ho; [done|congruence]. Qed.

Lemma free_or_listed G a r s x G' : G !! a = Some (mkSeg r Busy) -> G' !! a = Some (mkSeg r Free) ->
  (forall b, b <> a -> G' !! b = G !! b) -> idle G a x \/ idle_byte G s x ->
  free_byte G' x \/ taken (pages s) ((x - hhdm) / 4096) = false.
Proof.
  intros Ga Ga' Ho [[Hf|(r' & Gr & Hx)]|[Hf|Ht]]; [left| |left|by right].
  - by eapply free_byte_frame.
  - left. exists a, r. split; [done|]. by assert (r' = r) as <- by congruence.
  - by eapply free_byte_frame.
Qed.

Lemma free_finish A G s a r :
  hinv A G s -> G !! a = Some (mkSeg r Busy) -> calm_left A G a -> calm_right A G a ->
  exists s' A' G', (
    let! t := get_tag a in
    let index := getexp (u32 (t_real_size t - TAG)) in
    let index := if index <? MINEXP then MINEXP else index in
    if (t_split_left t =? 0) && (t_split_right t =? 0) then
      let! c := complete index in
      if c =? MAXCOMPLETE then
        let pages := t_real_size t / l_pageSize in
        let pages := if negb (t_real_size t mod l_pageSize =? 0) then pages + 1 else pages in
        let pages := if pages <? l_pageCount then l_pageCount else pages in
        hook (liballoc_free a pages) ;;; hook liballoc_unlock
      else set_complete index (c + 1) ;;; insert_tag a index ;;; hook liballoc_unlock
    else insert_tag a index ;;; hook liballoc_unlock) s = Ok (tt, s') /\
    ram s' = ram s /\ heap_ok hhdm A' G' s' /\ same_used G G' /\
    forall x, hhdm <= x -> idle G a x \/ idle_byte G s x -> idle_byte G' s' x.
Proof.
  intros H Ga Hcl Hcr. destruct (seg_tag hhdm A G s H a _ Ga) as (Ha0 & t & Et & Ec & T & _).
  pose proof (tg_real _ _ _ _ _ T) as Er. change (t_real_size (core t)) with (t_real_size t) in Er. cbn [g_real] in Er.
  pose proof (bucket_range r) as Hr. destruct (ls_lists _ _ _ _ _ (hv_lists _ _ _ _ H) (bucket r) Hr) as (l & B).
  pose proof (bk_whole _ _ _ _ _ _ _ B) as Hw. pose proof (bk_max _ _ _ _ _ _ _ B) as Hm.
  set (w := wholes A G l) in *.
  assert (Hsame : same_used G (<[a := mkSeg r Free]> G)).
  { intros b r' n. rewrite lookup_insert_Some. split; [intros [[_ E]|[_ E]]; [congruence|done]|].
    intros Hb. right. split; [congruence|done]. }
  assert (Hput : forall cp', (forall v, l_completePages s !! Z.to_nat (bucket r) = Some v ->
      cp' = <[Z.to_nat (bucket r) := v + Z.b2z (whole A G a)]> (l_completePages s) /\ v + Z.b2z (whole A G a) <= MAXCOMPLETE) ->
    exists s' A' G', (insert_tag a (bucket r) ;;; hook liballoc_unlock) (set_completePages cp' s) = Ok (tt, s') /\
      ram s' = ram s /\ heap_ok hhdm A' G' s' /\ same_used G G' /\
      forall x, hhdm <= x -> idle G a x \/ idle_byte G s x -> idle_byte G' s' x).
  { intros cp' Hcp. destruct (list_free A G s a r cp' H Ga Hcl Hcr Hcp) as (s1 & E1 & R1 & P1 & H1).
    destruct (leave_ok hhdm _ _ s1 H1) as (q & E2 & H2 & _ & T2). exists (set_pages q s1), A, (<[a := mkSeg r Free]> G).
    split; [by mrw E1|]. split_and!; try done. intros x _ Hx.
    destruct (free_or_listed G a r s x (<[a := mkSeg r Free]> G) Ga) as [Hf|Ht];
      [apply lookup_insert_eq| |exact Hx|by left|right].
    - intros b Hb. by rewrite lookup_insert_ne.
    - cbn [pages set_pages]. by rewrite T2, P1. }
  mgo get_tag_ok; [|exact Ha0|exact Et]. rewrite Er. cbv zeta. fold (bucket r).
  rewrite (whole_test A G s a _ t H Ga Et). destruct (whole A G a) eqn:Ew.
  - mgo complete_ok; [|lia|exact Hw]. destruct (Z.eqb_spec w MAXCOMPLETE) as [Ec5|Hne].
    + destruct (release_run A G s a r H Ga Ew) as (n & q & HA & -> & Hn & E1 & H1 & T1).
      destruct (leave_ok hhdm _ _ _ H1) as (q2 & E2 & H2 & _ & T2). unfold l_pageSize, l_pageCount.
      rewrite Z.div_mul, Z.mod_mul by lia. cbn [Z.eqb negb]. rewrite (proj2 (Z.ltb_ge n 16)) by lia.
      eexists _, (delete a A), (delete a G). split; [mrw E1; exact E2|]. split; [done|]. split; [done|]. split.
      { intros b r' n'. rewrite lookup_delete_Some. split; [by intros []|]. intros Hb. split; [congruence|done]. }
      intros x Hx0 Hx. unfold idle_byte. cbn [pages set_pages]. rewrite T2, T1 by done.
      destruct (decide (a <= x < a + n * 4096)) as [Hin|Hout]; [by right|].
      destruct Hx as [[Hf|(r' & Ga' & Hx)]|[Hf|Ht]]; [|exfalso|left|by right].
      * left. apply (free_byte_frame G a _ _ _ Ga); [|done]. intros b Hb. by rewrite lookup_delete_ne.
      * assert (r' = n * 4096) as -> by congruence. lia.
      * apply (free_byte_frame G a _ _ _ Ga); [|done]. intros b Hb. by rewrite lookup_delete_ne.
    + mgo set_complete_ok; [|lia|exact Hw]. apply Hput. intros v Hv. assert (v = w) as -> by congruence.
      cbn [Z.b2z]. split; [done|]. unfold MAXCOMPLETE in *. lia.
  - destruct (Hput (l_completePages s)) as (s' & A' & G' & E & R); [|].
    + intros v Hv. cbn [Z.b2z]. rewrite Z.add_0_r. split; [by rewrite list_insert_id|].
      assert (v = w) as -> by congruence. done.
    + exists s', A', G'. split; [|done]. replace (set_completePages (l_completePages s) s) with s in E by (by destruct s). exact E.
Qed.

Lemma free_ok A G s a r n : heap_ok hhdm A G s -> G !! a = Some (mkSeg r (Used n)) ->
  exists s' A' G', free (a + TAG) s = Ok (tt, s') /\ ram s' = ram s /\ heap_ok hhdm A' G' s' /\
    (forall b r' m, G' !! b = Some (mkSeg r' (Used m)) <-> b <> a /\ G !! b = Some (mkSeg r' (Used m))) /\
    forall x, hhdm <= x -> idle_byte G s x \/ a <= x < a + r -> idle_byte G' s' x.
Proof.
  intros H Ga. destruct (lock_ok hhdm A G s H) as (q & E & Q1 & _ & Q3 & Q4). set (s1 := set_pages q s) in *.
  assert (H1 : hinv A G s1).
  { destruct H as [X1 X2 X3 X4]. destruct (l_initialized s) eqn:Ei; [|destruct X4 as [_ ->]; done]. destruct X4. by split. }
  pose proof (used_busy A G s1 a r n H1 Ga) as H2. set (G2 := <[a := mkSeg r Busy]> G) in *.
  assert (G2a : G2 !! a = Some (mkSeg r Busy)) by apply lookup_insert_eq.
  destruct (seg_tag hhdm A G s1 H1 a _ Ga) as (Ha0 & t & Et & _ & T & _).
  assert (Hfuel : (2 <= tag_fuel s1)%nat).
  { unfold tag_fuel. assert (size (tags s1) <> 0%nat); [|lia]. rewrite map_size_ne_0_lookup. eauto. }
  destruct (melt_lefts_ok A G2 s1 a r (tag_fuel s1) H2 G2a Hfuel) as (a' & s3 & G3 & E3 & [R3 P3] & H3 & [[r3 Ga'] S3] & C3 & I3).
  destruct (melt_rights_ok A G3 s3 a' r3 (tag_fuel s1) H3 Ga' C3 Hfuel) as (s4 & G4 & E4 & [R4 P4] & H4 & [[r4 Ga4] S4] & C4 & C4' & I4).
  destruct (free_finish A G4 s4 a' r4 H4 Ga4 C4 C4') as (s5 & A5 & G5 & E5 & R5 & H5 & S5 & I5).
  pose proof (seg_range _ _ _ (hv_arenas _ _ _ _ H1) _ _ (hv_segs _ _ _ _ H1) a _ Ga) as Hra.
  pose proof (seg_min _ _ _ (hv_segs _ _ _ _ H1) a _ Ga) as Hmin. cbn [g_real] in Hra, Hmin.
  destruct (ar_hhdm _ _ _ (hv_arenas _ _ _ _ H1)) as (X1 & _ & X2).
  exists s5, A5, G5. split; [|split; [|split; [done|split]]].
  - unfold free. rewrite (proj2 (Z.eqb_neq (a + TAG) 0)) by (unfold TAG; lia). mrw E. erewrite bind_ok by done.
    change (boot_hhdm s1) with (boot_hhdm s). rewrite (ho_hhdm _ _ _ _ H).
    rewrite (addr32 hhdm A G s1 H1 (a + TAG)) by (unfold TAG in *; lia).
    replace (a + TAG - hhdm + hhdm - TAG) with a by lia. rewrite u64_small by (unfold TAG in *; lia).
    mgo get_tag_ok; [|exact Ha0|exact Et].
    pose proof (tg_magic _ _ _ _ _ T) as Em. change (t_magic (core t)) with (t_magic t) in Em. rewrite Em.
    rewrite Z.eqb_refl. cbn [negb]. erewrite bind_ok by done. mrw E3. mrw E4. exact E5.
  - rewrite R5, R4, R3. done.
  - intros b r' m. rewrite (S5 b), (S4 b), (S3 b). unfold G2. rewrite lookup_insert_Some. split.
    + intros [[_ X]|[X Y]]; [congruence|split; congruence].
    + intros [X Y]. right. split; congruence.
  - intros x Hx0 Hx. apply I5; [done|]. destruct Hx as [[Hf|Ht]|Hx].
    + left. apply I4, I3. left. destruct Hf as (b & rb & Gb & Hx). exists b, rb. split; [|done].
      unfold G2. rewrite lookup_insert_ne; [done|congruence].
    + right. right. rewrite P4, P3. cbn [s1 pages set_pages]. by rewrite Q3.
    + left. apply I4, I3. right. by exists r.
Qed.

End free.
