(* ===== verification/LiballocPages.v ===== *)
(** * The heap on the page allocator

    memory/liballoc_hooks.cpp: the hooks are the operations of memory/vmm.cpp,
    and the page allocator of [Pmm] keeps what the heap asks of them as long as
    the memory ends below 4 GiB and the direct map begins at a multiple of 4 GiB. *)

From S2P Require Import Prelude Bytes Bitmap Pmm Liballoc.

#[export] Instance vmm_hooks : PageHooks vmm := {|
  liballoc_lock := virtual_spinlock_acquire;
  liballoc_unlock := virtual_spinlock_release;
  liballoc_alloc := virtual_allocate;
  liballoc_free := virtual_free;
|}.

(** The page allocator after boot, with its lock open or held. *)
Record pages_ready (hhdm : Z) (held : bool) (s : vmm) : Prop := {
  pr_range : 0 <= hhdm /\ hhdm + 2 ^ 32 <= 2 ^ 64;
  pr_booted : booted (physical s);
  pr_size : BitmapSizeInBlocks (physical s) < 2 ^ 20;
  pr_hhdm : hhdmOffset s = hhdm;
  pr_lock : bm_lock (physical s) = held;
  pr_vlock : bm_lock (virtual_ s) = held;
}.

Definition page_taken (s : vmm) (k : Z) : bool :=
  bool_decide (k < BitmapSizeInBlocks (physical s)) && used (physical s) k.

Lemma booted_frame b b' : bm_wf b' -> mem_start b' = mem_start b -> used b' 0 = used b 0 -> booted b -> booted b'.
Proof. intros W E1 E2 [_ B2 B3]. split; [done|congruence|congruence]. Qed.

Lemma run_taken_or_free s a n : 0 <= a -> a + n <= BitmapSizeInBlocks (physical s) ->
  ~ free_run (physical s) a n -> exists j, a <= j < a + n /\ page_taken s j = true.
Proof.
  intros Ha Hn Hf. destruct (decide (Exists (fun j => used (physical s) j = true) (seqZ a n))) as [H|H].
  - apply Exists_exists in H as (j & Hj%elem_of_seqZ & Hu). exists j. split; [done|].
    unfold page_taken. rewrite bool_decide_true by lia. done.
  - exfalso. apply Hf. split; [done|]. split; [done|]. intros k Hk. apply not_true_is_false. intros Hu.
    apply H, Exists_exists. exists k. split; [by apply elem_of_seqZ|done].
Qed.

Section pages.
Context (hhdm : Z).

Lemma vmm_lock_ok s : pages_ready hhdm false s -> exists s', liballoc_lock s = Ok (tt, s') /\
  pages_ready hhdm true s' /\ BitmapSizeInBlocks (physical s') = BitmapSizeInBlocks (physical s) /\
  forall k, page_taken s' k = page_taken s k.
Proof.
  intros [[Hh Hh2] B Z1 H1 L1 L2]. cbn. unfold virtual_spinlock_acquire, physical_spinlock_acquire, lock_bitmap, bm_spinlock.
  unfold bind, on_virtual, on_physical, bind, modify, gets, ret. cbn. rewrite L2. cbn. rewrite L1. cbn.
  eexists. split; [done|]. split; [|done]. split; try done. cbn.
  destruct B as [[W1 W2 W3 W4 W5] B2 B3]. split; [split|..]; done.
Qed.

Lemma vmm_unlock_ok s : pages_ready hhdm true s -> exists s', liballoc_unlock s = Ok (tt, s') /\
  pages_ready hhdm false s' /\ BitmapSizeInBlocks (physical s') = BitmapSizeInBlocks (physical s) /\
  forall k, page_taken s' k = page_taken s k.
Proof.
  intros [[Hh Hh2] B Z1 H1 L1 L2]. eexists. split; [done|]. split; [|done]. split; try done. cbn.
  destruct B as [[W1 W2 W3 W4 W5] B2 B3]. split; [split|..]; done.
Qed.

Lemma vmm_alloc_ok s n : pages_ready hhdm true s -> 0 < n < 2 ^ 19 ->
  (exists k s', liballoc_alloc n s = Ok (hhdm + k * 4096, s') /\
     pages_ready hhdm true s' /\ BitmapSizeInBlocks (physical s') = BitmapSizeInBlocks (physical s) /\
     0 < k /\ k + n <= BitmapSizeInBlocks (physical s) /\ k + n < 2 ^ 20 /\
     (forall j, k <= j < k + n -> page_taken s j = false) /\
     forall j, 0 <= j -> page_taken s' j = if decide (k <= j < k + n) then true else page_taken s j) \/
  (liballoc_alloc n s = Halted /\
     forall k, 0 <= k -> k + n <= BitmapSizeInBlocks (physical s) -> exists j, k <= j < k + n /\ page_taken s j = true).
Proof.
  intros [[Hh Hh2] B Z1 H1 L1 L2] Hn. cbn. unfold virtual_allocate, on_physical.
  pose proof (physical_allocate_ok (physical s) n B ltac:(lia)) as H.
  destruct (physical_allocate n (physical s)) as [[p b']| | |] eqn:E; [|right|done|done].
  - left. destruct H as (k & -> & Hk & [(R1 & R2 & R3) _] & [F1 F2 F3] & W'). injection F1 as G1 G2 G3 G4 G5 G6.
    exists k. eexists. split.
    { unfold bind. rewrite E. unfold gets. cbn [hhdmOffset]. do 3 f_equal. rewrite H1. unfold BLOCK_SIZE. rewrite u64_small by lia. lia. }
    split; [|split; [exact G1|split; [done|split; [done|split; [lia|split]]]]].
    + split; cbn; try done; [|lia|congruence]. apply (booted_frame (physical s)); [done|done| |done].
      rewrite F3, decide_False by lia. done.
    + intros j Hj. unfold page_taken. rewrite R3 by done. apply andb_false_r.
    + intros j Hj. unfold page_taken. cbn [physical]. rewrite G1, F3 by done. case_decide; [|done].
      rewrite bool_decide_true by lia. done.
  - split; [unfold bind; by rewrite E|]. intros k Hk Hkn. apply run_taken_or_free; [done|done|]. apply H.
Qed.

Lemma vmm_free_ok s k n : pages_ready hhdm true s -> 0 < k -> 0 < n < 2 ^ 19 -> k + n < 2 ^ 20 ->
  (forall j, k <= j < k + n -> page_taken s j = true) ->
  exists s', liballoc_free (hhdm + k * 4096) n s = Ok (true, s') /\
    pages_ready hhdm true s' /\ BitmapSizeInBlocks (physical s') = BitmapSizeInBlocks (physical s) /\
    forall j, 0 <= j -> page_taken s' j = if decide (k <= j < k + n) then false else page_taken s j.
Proof.
  intros [[Hh Hh2] B Z1 H1 L1 L2] Hk Hn Hkn Ht. pose proof (Ht (k + n - 1) ltac:(lia)) as Hlast.
  apply andb_true_iff in Hlast as [Hlast%bool_decide_eq_true _].
  destruct (physical_free_ok (physical s) k n (bt_wf _ B) (bt_start _ B)) as (b' & E & [F1 F2 F3] & W'); [lia|lia|lia|].
  injection F1 as G1 G2 G3 G4 G5 G6. cbn [liballoc_free vmm_hooks]. unfold virtual_free, virtual_to_physical. erewrite bind_ok by done.
  rewrite H1. replace (hhdm + k * 4096 - hhdm) with (k * 4096) by lia. rewrite u64_small by lia.
  rewrite (proj2 (Z.eqb_neq (k * 4096) 0)) by lia. unfold bind, on_physical. unfold BLOCK_SIZE in E. rewrite E.
  eexists. split; [done|]. split; [|split; [exact G1|]].
  - split; cbn; try done; [|lia|congruence]. apply (booted_frame (physical s)); [done|done| |done].
    rewrite F3, decide_False by lia. done.
  - intros j Hj. unfold page_taken. cbn [physical]. rewrite G1, F3 by done. case_decide; [|done]. apply andb_false_r.
Qed.

#[export] Instance vmm_pages : PageSource vmm hhdm := {|
  src_free := pages_ready hhdm false;
  src_held := pages_ready hhdm true;
  src_size s := BitmapSizeInBlocks (physical s);
  taken := page_taken;
  src_lock_ok := vmm_lock_ok;
  src_unlock_ok := vmm_unlock_ok;
  src_alloc_ok := vmm_alloc_ok;
  src_free_ok := vmm_free_ok;
|}.

End pages.
