(* ===== verification/LiballocTheorems.v ===== *)
(** * The heap: theorems

    The heap implements a set of disjoint blocks: [malloc] adds one, [free] takes
    one away, [realloc] moves one with its contents. *)

From S2P Require Import Prelude Dll Bytes Bitmap Pmm Liballoc LiballocTags LiballocInv LiballocLists.
From S2P Require Import LiballocHeap LiballocFree LiballocPages.

(** ** Copying *)

Lemma mfor_seqZ {S} (P : Z -> S -> Prop) (f : Z -> M S unit) a n s :
  0 <= n -> (forall i s, a <= i < a + n -> P i s -> exists s', f i s = Ok (tt, s') /\ P (i + 1) s') ->
  P a s -> exists s', mfor (seqZ a n) f s = Ok (tt, s') /\ P (a + n) s'.
Proof.
  intros Hn. rewrite <- (Z2Nat.id n) by lia. generalize (Z.to_nat n) as k. clear n Hn. intros k.
  revert a s. induction k as [|k IH]; intros a s Hf Ha.
  - exists s. cbn. rewrite Z.add_0_r. done.
  - rewrite seqZ_cons by lia. replace (Z.pred (Z.of_nat (Datatypes.S k))) with (Z.of_nat k) by lia. cbn [mfor].
    destruct (Hf a s ltac:(lia) Ha) as (s1 & E1 & H1).
    destruct (IH (Z.succ a) s1) as (s2 & E2 & H2).
    + intros i s' Hi. apply Hf. lia.
    + by replace (Z.succ a) with (a + 1) by lia.
    + exists s2. split; [by mrw E1|]. by replace (a + Z.of_nat (Datatypes.S k)) with (Z.succ a + Z.of_nat k) by lia.
Qed.

Section copy.
Context {S : Type} (s0 : lib S) (d a n : Z).
Context (Hn : 0 <= n) (Hdis : d + n <= a \/ a + n <= d).

(** The first [k] bytes are copied, all else is as before. *)
Definition copied (k : Z) (s : lib S) : Prop :=
  exists r, s = set_ram r s0 /\
    forall x, default 0 (r !! x) = if decide (d <= x < d + k) then ram_at s0 (a + (x - d)) else ram_at s0 x.

Lemma copied_byte k s : 0 <= k < n -> copied k s -> exists s', copy_byte d a k s = Ok (tt, s') /\ copied (k + 1) s'.
Proof using Hdis.
  intros Hk (r & -> & H). unfold copy_byte. erewrite bind_ok by done. unfold ram_at at 1. cbn [ram set_ram].
  rewrite H, decide_False by lia. eexists. split; [done|]. eexists. split; [done|]. intros x. cbn [ram set_ram].
  destruct (decide (x = d + k)) as [->|Hx].
  - rewrite lookup_insert_eq, decide_True by lia. cbn. f_equal. lia.
  - rewrite lookup_insert_ne, H by done. repeat case_decide; try lia; done.
Qed.

Lemma copied_word k s : 0 <= k -> 4 * k + 4 <= n -> copied (4 * k) s ->
  exists s', copy_word d a (4 * k) s = Ok (tt, s') /\ copied (4 * (k + 1)) s'.
Proof using Hdis.
  intros Hk Hk4 (r & -> & H). unfold copy_word. erewrite bind_ok by done.
  change (seqZ (a + 4 * k) 4) with [0 + (a + 4 * k); 1 + (a + 4 * k); 2 + (a + 4 * k); 3 + (a + 4 * k)].
  change (seqZ (d + 4 * k) 4) with [0 + (d + 4 * k); 1 + (d + 4 * k); 2 + (d + 4 * k); 3 + (d + 4 * k)].
  assert (Hb : forall j, 0 <= j < 4 -> ram_at (set_ram r s0) (j + (a + 4 * k)) = ram_at s0 (a + (4 * k + j))).
  { intros j Hj. unfold ram_at at 1. cbn [ram set_ram]. rewrite H, decide_False by lia. f_equal. lia. }
  cbn [fmap list_fmap zip zip_with]. rewrite !Hb by lia. eexists. split; [reflexivity|].
  eexists. split; [reflexivity|]. intros x. cbn [ram set_ram fst snd].
  destruct (decide (d + 4 * k <= x < d + 4 * k + 4)) as [Hx|Hx].
  - rewrite decide_True by lia.
    assert (x = 0 + (d + 4 * k) \/ x = 1 + (d + 4 * k) \/ x = 2 + (d + 4 * k) \/ x = 3 + (d + 4 * k)) as [->|[->|[->| ->]]] by lia.
    + rewrite !(lookup_insert_ne _ _ (0 + _)), lookup_insert_eq by lia. cbn. f_equal. lia.
    + rewrite !(lookup_insert_ne _ _ (1 + _)), lookup_insert_eq by lia. cbn. f_equal. lia.
    + rewrite !(lookup_insert_ne _ _ (2 + _)), lookup_insert_eq by lia. cbn. f_equal. lia.
    + rewrite lookup_insert_eq. cbn. f_equal. lia.
  - rewrite !lookup_insert_ne, H by lia. repeat case_decide; try lia; done.
Qed.

Lemma liballoc_memcpy_ok : exists s', liballoc_memcpy d a n s0 = Ok (tt, s') /\ copied n s'.
Proof using Hdis Hn.
  pose proof (Z.div_mod n 4 ltac:(lia)) as Hdm. pose proof (Z.mod_pos_bound n 4 ltac:(lia)) as Hmod.
  pose proof (Z.div_pos n 4 ltac:(lia) ltac:(lia)) as Hq. unfold liballoc_memcpy.
  destruct (mfor_seqZ (fun k => copied (4 * k)) (fun k => copy_word d a (4 * k)) 0 (n / 4) s0) as (s1 & E1 & H1).
  - done.
  - intros i s Hi. apply copied_word; lia.
  - exists (ram s0). split; [by destruct s0|]. intros x. rewrite decide_False by lia. done.
  - destruct (mfor_seqZ copied (copy_byte d a) (n / 4 * 4) (n mod 4) s1) as (s2 & E2 & H2).
    + lia.
    + intros i s Hi. apply copied_byte. lia.
    + by replace (n / 4 * 4) with (4 * (0 + n / 4)) by lia.
    + exists s2. split; [by mrw E1|]. by replace (n / 4 * 4 + n mod 4) with n in H2 by lia.
Qed.

End copy.

Lemma liballoc_memset_ok {S : Type} (s0 : lib S) d n : 0 <= n < 2 ^ 31 ->
  exists r, liballoc_memset d 0 n s0 = Ok (tt, set_ram r s0) /\
    forall x, default 0 (r !! x) = if decide (d <= x < d + n) then 0 else ram_at s0 x.
Proof.
  intros Hn. unfold liballoc_memset. rewrite (proj2 (Z.leb_gt (2 ^ 31) n)) by lia.
  edestruct (mfor_seqZ (fun k s => exists r, s = set_ram r s0 /\
    forall x, default 0 (r !! x) = if decide (d <= x < d + k) then 0 else ram_at s0 x)) as (s' & E & r & -> & H).
  4: exists r; split; [exact E|exact H].
  - lia.
  - intros i s Hi (r & -> & H). eexists. split; [reflexivity|]. eexists. split; [reflexivity|]. intros x.
    cbn [ram set_ram]. destruct (decide (x = d + i)) as [->|Hx].
    + by rewrite lookup_insert_eq, decide_True by lia.
    + rewrite lookup_insert_ne, H by done. repeat case_decide; try lia; done.
  - exists (ram s0). split; [by destruct s0|]. intros x. rewrite decide_False by lia. done.
Qed.

(** ** The heap as a set of blocks *)

Section rep.
Context {S : Type} `{!PageHooks S} (hhdm : Z) `{!PageSource S hhdm}.
Implicit Types (s : lib S) (live : gmap Z Z).

(** The blocks in use, by the address [malloc] returned, with the size asked for. *)
Definition heap_rep s live : Prop := exists A G, heap_ok hhdm A G s /\ lives G live.

(** Blocks do not overlap, not even with the tag in front of another block, and lie
    in pages that belong to the heap. *)
Definition blocks_apart s live : Prop :=
  forall p n, live !! p = Some n -> p <> 0 /\ 0 <= n /\
    (forall x, p - TAG <= x < p + n -> taken (pages s) ((x - hhdm) / 4096) = true) /\
    forall q m, live !! q = Some m -> q <> p -> p + n <= q - TAG \/ q + m <= p - TAG.

Lemma heap_ok_segs A G s a g : heap_ok hhdm A G s -> G !! a = Some g -> segs_ok A G (core <$> tags s).
Proof.
  intros H Hg. destruct H as [_ _ _ H4]. destruct (l_initialized s); [by destruct H4|].
  destruct H4 as [_ ->]. by rewrite lookup_empty in Hg.
Qed.

Lemma used_bounds A G s a r n : heap_ok hhdm A G s -> G !! a = Some (mkSeg r (Used n)) ->
  0 <= n /\ n + TAG <= r /\ 0 <= hhdm /\ hhdm + 4096 <= a /\ a + r <= hhdm + (2 ^ 32 - 4096).
Proof.
  intros H Hg. pose proof (heap_ok_segs _ _ _ _ _ H Hg) as HS.
  destruct (sg_tag _ _ _ HS _ _ Hg) as (c & _ & T). destruct (tg_status _ _ _ _ _ T) as (_ & _ & H1 & H2).
  pose proof (seg_range _ _ _ (ho_arenas _ _ _ _ H) _ _ HS _ _ Hg). cbn [g_real] in *. lia.
Qed.

Lemma heap_rep_apart s live : heap_rep s live -> blocks_apart s live.
Proof.
  intros (A & G & H & HL) p n Hp. apply HL in Hp as (r & Hg).
  destruct (used_bounds _ _ _ _ _ _ H Hg) as (H1 & H2 & H3 & H4 & H5).
  pose proof (heap_ok_segs _ _ _ _ _ H Hg) as HS. unfold TAG in *. split; [lia|]. split; [done|]. split.
  - intros x Hx. destruct (sg_inside _ _ _ HS _ _ Hg) as (base & k & HB & B1 & B2). cbn [g_real] in B2.
    destruct (ar_run _ _ _ (ho_arenas _ _ _ _ H) base k HB) as (j & -> & _ & _ & _ & Ht). apply Ht.
    split; [apply Z.div_le_lower_bound; lia|apply Z.div_lt_upper_bound; lia].
  - intros q m Hq Hne. apply HL in Hq as (r' & Hg'). pose proof (used_bounds _ _ _ _ _ _ H Hg') as H6.
    unfold TAG in *. destruct (Z.lt_trichotomy (p - 48) (q - 48)) as [Hlt|[E|Hlt]]; [|lia|].
    + pose proof (sg_sorted _ _ _ HS _ _ _ _ Hg Hg' Hlt) as Hs. cbn in Hs. lia.
    + pose proof (sg_sorted _ _ _ HS _ _ _ _ Hg' Hg Hlt) as Hs. cbn in Hs. lia.
Qed.

(** Following [next] from [h] leads to [b]. *)
Inductive on_list (m : gmap Z boundary_tag) : Z -> Z -> Prop :=
| ol_here b t : b <> 0 -> m !! b = Some t -> on_list m b b
| ol_next h t b : h <> 0 -> m !! h = Some t -> on_list m (t_next t) b -> on_list m h b.

(** The segment of [r] bytes at [b] is in the list where [malloc] looks for its size. *)
Definition listed s b r : Prop :=
  l_initialized s = true /\ exists h t, l_freePages s !! Z.to_nat (bucket r) = Some h /\
    on_list (tags s) h b /\ tags s !! b = Some t /\ t_real_size t = r.

(** The byte at [x] can be handed out: it lies in a listed segment or in a page the
    page allocator has. *)
Definition available s x : Prop :=
  (exists b r, listed s b r /\ b <= x < b + r) \/ taken (pages s) ((x - hhdm) / 4096) = false.

(** No listed segment has a listed neighbour. *)
Definition joined s : Prop :=
  forall b r t r', listed s b r -> tags s !! b = Some t -> ~ listed s (t_split_right t) r'.

Lemma chain_on_list m l b : chain (links <$> m) l -> 0 ∉ l -> on_list m (first_of l) b <-> b ∈ l.
Proof.
  intros HC H0. enough (X : forall l2 l1, l = l1 ++ l2 -> on_list m (first_of l2) b <-> b ∈ l2) by by apply (X l []).
  intros l2. induction l2 as [|a l2 IH]; intros l1 E.
  - split; [|by intros ?%not_elem_of_nil]. intros Ho. inversion Ho; done.
  - assert (Ha0 : a <> 0) by (intros ->; apply H0; rewrite E; set_solver).
    pose proof HC as HC'. rewrite E in HC'. apply tag_chain_lookup in HC'. rewrite lookup_fmap in HC'.
    destruct (m !! a) as [t|] eqn:Et; [|done]. cbn in HC'. unfold links in HC'. injection HC' as En _.
    specialize (IH (l1 ++ [a])). rewrite <- app_assoc in IH. specialize (IH E). rewrite <- En in IH.
    change (first_of (a :: l2)) with a. rewrite elem_of_cons. split.
    + intros Ho. inversion Ho as [x t' Hx Ex E1 E2|h t' x Hh Eh Hn E1 E2]; [by left|right]. apply IH. congruence.
    + intros [->|Hb]; [by eapply ol_here|]. eapply ol_next; [done|done|]. by apply IH.
Qed.

(** The lists hold the free segments and nothing else. *)
Lemma listed_free A G s b r : heap_ok hhdm A G s -> listed s b r <-> l_initialized s = true /\ G !! b = Some (mkSeg r Free).
Proof.
  intros [H1 H2 H3 H4]. unfold listed. destruct (l_initialized s); [|naive_solver].
  destruct H4 as [H4 H5]. destruct (ls_lists _ _ _ _ _ H5 (bucket r) (bucket_range r)) as (l & B).
  assert (H0 : 0 ∉ l).
  { intros (r' & Hr' & _)%(bk_free _ _ _ _ _ _ _ B). pose proof (seg_range _ _ _ H3 _ _ H4 _ _ Hr').
    destruct (ar_hhdm _ _ _ H3). lia. }
  pose proof (chain_on_list (tags s) l b (bk_chain _ _ _ _ _ _ _ B) H0) as Ho. split.
  - intros (_ & h & t & Hh & Hl & Et & <-). split; [done|]. rewrite (bk_head _ _ _ _ _ _ _ B) in Hh. injection Hh as <-.
    apply Ho, (bk_free _ _ _ _ _ _ _ B) in Hl as (r' & Hr' & _). destruct (sg_tag _ _ _ H4 _ _ Hr') as (c & Hc & T).
    rewrite lookup_fmap, Et in Hc. injection Hc as <-. pose proof (tg_real _ _ _ _ _ T) as E. cbn [g_real] in E.
    change (t_real_size (core t)) with (t_real_size t) in E. by rewrite E.
  - intros [_ Hg]. split; [done|]. destruct (sg_tag _ _ _ H4 _ _ Hg) as (c & Hc & T). rewrite lookup_fmap in Hc.
    destruct (tags s !! b) as [t|] eqn:Et; [|done]. injection Hc as <-. exists (first_of l), t.
    split; [apply B|]. split; [apply Ho, (bk_free _ _ _ _ _ _ _ B); eauto|]. split; [done|]. apply (tg_real _ _ _ _ _ T).
Qed.

Lemma available_idle A G s x : heap_ok hhdm A G s -> available s x <-> idle_byte hhdm G s x.
Proof.
  intros H. unfold available, idle_byte, free_byte. split; (intros [(b & r & Hb & Hx)|Ht]; [left|by right]).
  - apply (listed_free A G s b r H) in Hb as [_ Hb]. eauto.
  - exists b, r. split; [|done]. apply (listed_free A G s b r H). split; [|done]. destruct H as [_ _ _ H4].
    destruct (l_initialized s); [done|]. destruct H4 as [_ ->]. by apply lookup_empty_Some in Hb.
Qed.

Lemma heap_joined A G s : heap_ok hhdm A G s -> joined s.
Proof.
  intros H b r t r' Hb Et Hr. apply (listed_free A G s _ _ H) in Hb as [Hi Hb]. apply (listed_free A G s _ _ H) in Hr as [_ Hr].
  pose proof (heap_ok_segs _ _ _ _ _ H Hb) as HS. destruct (sg_tag _ _ _ HS _ _ Hb) as (c & Hc & T).
  rewrite lookup_fmap, Et in Hc. injection Hc as <-.
  destruct (tg_right _ _ _ _ _ T) as [[E _]|(E & _ & HN)]; change (t_split_right (core t)) with (t_split_right t) in E.
  - rewrite E in Hr. pose proof (seg_range _ _ _ (ho_arenas _ _ _ _ H) _ _ HS _ _ Hr).
    destruct (ar_hhdm _ _ _ (ho_arenas _ _ _ _ H)). lia.
  - rewrite E in Hr. by apply (sg_calm _ _ _ HS b _ _ Hb Hr HN).
Qed.

(** What is in use is not available. *)
Lemma live_unavailable s live p n x :
  heap_rep s live -> live !! p = Some n -> p - TAG <= x < p + n -> ~ available s x.
Proof.
  intros H Hp Hx. pose proof (heap_rep_apart s live H p n Hp) as (_ & _ & Ht & _). destruct H as (A & G & H & HL).
  intros Hav%(available_idle A G s x H). destruct Hav as [(b & r & Hb & Hxb)|Hf]; [|by rewrite Ht in Hf].
  apply HL in Hp as (r' & Hg). pose proof (heap_ok_segs _ _ _ _ _ H Hg) as HS.
  destruct (used_bounds _ _ _ _ _ _ H Hg) as (_ & Hr & _).
  destruct (Z.lt_trichotomy b (p - TAG)) as [Hlt|[->|Hlt]]; [|congruence|].
  - pose proof (sg_sorted _ _ _ HS _ _ _ _ Hb Hg Hlt) as Hs. cbn in Hs. lia.
  - pose proof (sg_sorted _ _ _ HS _ _ _ _ Hg Hb Hlt) as Hs. cbn in Hs. lia.
Qed.

(** The contents of blocks are not part of the structure. *)
Lemma heap_ok_ram A G s r : heap_ok hhdm A G s -> heap_ok hhdm A G (set_ram r s).
Proof. intros [H1 H2 H3 H4]. by split. Qed.

Lemma malloc_rep s live size : heap_rep s live -> 0 <= size < 2 ^ 30 ->
  (exists p s', malloc size s = Ok (p, s') /\ live !! p = None /\ ram s' = ram s /\ heap_rep s' (<[p := size]> live)) \/
  (malloc size s = Halted /\ no_pages hhdm (pages s) size).
Proof.
  intros (A & G & H & HL) Hs. destruct (lib_malloc_ok hhdm A G s size H Hs) as [(a & s' & A' & G' & E & R & H' & [[r Hr] HO] & Hn)|Hh];
    [left|by right].
  exists (a + TAG), s'. split; [done|]. split.
  { destruct (live !! (a + TAG)) as [n|] eqn:El; [|done]. apply HL in El as (r' & Hr').
    replace (a + TAG - TAG) with a in Hr' by lia. by apply Hn in Hr'. }
  split; [done|]. exists A', G'. split; [done|]. intros p n. rewrite lookup_insert_Some. split.
  - intros [[<- <-]|[Hne Hp]]; [exists r; by replace (a + TAG - TAG) with a by lia|].
    apply HL in Hp as (r' & Hr'). exists r'. apply HO; [lia|done].
  - intros (r' & Hr'). destruct (decide (p - TAG = a)) as [E1|Hne].
    + left. rewrite E1 in Hr'. split; [lia|congruence].
    + right. split; [lia|]. apply HL. exists r'. by apply HO in Hr'.
Qed.

Lemma free_rep s live p n : heap_rep s live -> live !! p = Some n ->
  exists s', free p s = Ok (tt, s') /\ ram s' = ram s /\ heap_rep s' (delete p live) /\ joined s' /\
    forall x, hhdm <= x -> available s x \/ p - TAG <= x < p + n -> available s' x.
Proof.
  intros (A & G & H & HL) Hp. apply HL in Hp as Hp'. destruct Hp' as (r & Hg).
  destruct (free_ok hhdm A G s _ r n H Hg) as (s' & A' & G' & E & R & H' & HO & HI).
  destruct (used_bounds _ _ _ _ _ _ H Hg) as (_ & Hr & _).
  replace (p - TAG + TAG) with p in E by lia. exists s'. split; [done|]. split; [done|].
  split; [|split; [by eapply heap_joined|]].
  2:{ intros x Hx0 Hx. apply (available_idle A' G' s' x H'), HI; [done|].
      destruct Hx as [Hx|Hx]; [left; by apply (available_idle A G s x H)|right; lia]. }
  exists A', G'. split; [done|]. intros q m. rewrite lookup_delete_Some, (HL q m). split.
  - intros [Hne (r' & Hr')]. exists r'. apply HO. split; [lia|done].
  - intros (r' & Hr'). apply HO in Hr' as [Hne Hr']. split; [intros ->; lia|eauto].
Qed.

(** [realloc] looks at the size under the lock. *)
Lemma peek_rep s live p n : heap_rep s live -> live !! p = Some n ->
  exists s' t, (hook liballoc_lock ;;;
      let! hhdm := gets boot_hhdm in
      let! t := get_tag (u64 (u32 p + hhdm - TAG)) in
      hook liballoc_unlock ;;; ret t) s = Ok (t, s') /\ t_size t = n /\ ram s' = ram s /\ heap_rep s' live.
Proof.
  intros (A & G & H & HL) Hp. apply HL in Hp as Hp'. destruct Hp' as (r & Hg).
  pose proof (used_bounds _ _ _ _ _ _ H Hg) as (U1 & U2 & U3 & U4 & U5).
  destruct (lock_ok hhdm A G s H) as (q & E & Q1 & _ & _ & Q4). set (s1 := set_pages q s) in *.
  assert (H1 : hinv hhdm A G s1).
  { destruct H as [X1 X2 X3 X4]. destruct (l_initialized s) eqn:Ei; [|destruct X4 as [_ ->]; done]. destruct X4. by split. }
  destruct (seg_tag hhdm A G s1 H1 _ _ Hg) as (Ha0 & t & Et & _ & T & _).
  destruct (leave_ok hhdm A G s1 H1) as (q2 & E2 & H2 & _).
  exists (set_pages q2 s1), t. split; [|split; [apply (tg_status _ _ _ _ _ T)|split; [done|by exists A, G]]].
  mrw E. erewrite bind_ok by done. change (boot_hhdm s1) with (boot_hhdm s). rewrite (ho_hhdm _ _ _ _ H).
  destruct (ar_hhdm _ _ _ (hv_arenas _ _ _ _ H1)) as (X1 & _ & X2). unfold TAG in *.
  rewrite (addr32 hhdm A G s1 H1 p) by lia. replace (p - hhdm + hhdm - 48) with (p - 48) by lia.
  rewrite u64_small by lia. mgo get_tag_ok; [|exact Ha0|exact Et]. by mrw E2.
Qed.

(** Distinct blocks have distinct bytes. *)
Lemma apart_bytes s live p n q m x y : blocks_apart s live -> live !! p = Some n -> live !! q = Some m -> q <> p ->
  p <= x < p + n -> q <= y < q + m -> x <> y.
Proof.
  intros H Hp Hq Hne Hx Hy ->. destruct (H p n Hp) as (_ & _ & _ & H2). destruct (H2 q m Hq Hne); unfold TAG in *; lia.
Qed.

Lemma realloc_rep s live p n size : heap_rep s live -> live !! p = Some n -> n < 2 ^ 30 -> 0 < size < 2 ^ 30 ->
  (exists q s', realloc p size s = Ok (q, s') /\ live !! q = None /\ heap_rep s' (<[q := size]> (delete p live)) /\
     (forall i, 0 <= i < Z.min n size -> ram_at s' (q + i) = ram_at s (p + i)) /\
     forall b m i, live !! b = Some m -> b <> p -> 0 <= i < m -> ram_at s' (b + i) = ram_at s (b + i)) \/
  (realloc p size s = Halted /\ exists s1, no_pages hhdm (pages s1) size /\ heap_rep s1 live).
Proof.
  intros H Hp Hn Hs. destruct (heap_rep_apart _ _ H p n Hp) as (Hp0 & Hn0 & _).
  destruct (peek_rep s live p n H Hp) as (s1 & t & E & Et & R1 & H1).
  apply bind_inv in E as (u1 & sa & Ea & E). apply bind_inv in E as (hh & sb & Eb & E).
  apply bind_inv in E as (t' & sc & Ec & E). apply bind_inv in E as (u2 & sd & Ed & E). injection E as -> ->.
  assert (Er : realloc p size s = (
    let! ptr := malloc size in
    (if ptr =? 0 then fault else liballoc_memcpy ptr p (Z.min n size)) ;;; free p ;;; ret ptr) s1).
  { unfold realloc. rewrite (proj2 (Z.eqb_neq size 0)), (proj2 (Z.eqb_neq p 0)) by lia.
    mrw Ea. mrw Eb. mrw Ec. mrw Ed. rewrite Et, !s32_small by lia.
    assert (u64 (if size <? n then size else n) = Z.min n size) as ->; [|done].
    destruct (Z.ltb_spec size n); rewrite u64_small; lia. }
  rewrite Er. destruct (malloc_rep s1 live size H1) as [(q & s2 & E2 & Hq & R2 & H2)|[E2 Hno]]; [lia|left|right].
  2:{ split; [unfold bind; by rewrite E2|eauto]. }
  assert (Hqp : q <> p) by congruence.
  assert (Hp2 : <[q := size]> live !! p = Some n) by (by rewrite lookup_insert_ne).
  pose proof (heap_rep_apart _ _ H2) as HA. destruct (HA q size (lookup_insert_eq _ _ _)) as (Hq0 & _).
  destruct (liballoc_memcpy_ok s2 q p (Z.min n size)) as (s3 & E3 & r3 & -> & H3).
  { lia. }
  { destruct (HA q size (lookup_insert_eq _ _ _)) as (_ & _ & _ & HA2). destruct (HA2 p n Hp2 ltac:(done)); unfold TAG in *; lia. }
  assert (H3' : heap_rep (set_ram r3 s2) (<[q := size]> live)).
  { destruct H2 as (A & G & HO & HLv). exists A, G. split; [by apply heap_ok_ram|done]. }
  destruct (free_rep _ _ p n H3' Hp2) as (s4 & E4 & R4 & H4 & _).
  exists q, s4. split; [mrw E2; rewrite (proj2 (Z.eqb_neq q 0) Hq0); mrw E3; by mrw E4|]. split; [done|].
  split; [by rewrite <- delete_insert_ne by done|].
  assert (Hram : forall x, ram_at s4 x = if decide (q <= x < q + Z.min n size) then ram_at s (p + (x - q)) else ram_at s x).
  { intros x. unfold ram_at at 1. rewrite R4. cbn [ram set_ram]. rewrite H3. unfold ram_at. by rewrite R2, R1. }
  split.
  - intros i Hi. rewrite Hram, decide_True by lia. f_equal. lia.
  - intros b m i Hb Hbp Hi. rewrite Hram, decide_False; [done|]. intros Hr.
    assert (Hb2 : <[q := size]> live !! b = Some m) by (rewrite lookup_insert_ne; [done|congruence]).
    apply (apart_bytes _ _ b m q size (b + i) (b + i) HA Hb2 (lookup_insert_eq _ _ _)); [congruence|lia|lia|done].
Qed.

Lemma calloc_rep s live nobj size : heap_rep s live -> 0 <= nobj -> 0 <= size -> nobj * size < 2 ^ 30 ->
  (exists p s', calloc nobj size s = Ok (p, s') /\ live !! p = None /\ heap_rep s' (<[p := nobj * size]> live) /\
     (forall i, 0 <= i < nobj * size -> ram_at s' (p + i) = 0) /\
     forall b m i, live !! b = Some m -> 0 <= i < m -> ram_at s' (b + i) = ram_at s (b + i)) \/
  (calloc nobj size s = Halted /\ no_pages hhdm (pages s) (nobj * size)).
Proof.
  intros H H1 H2 Hs. set (n := nobj * size) in *. assert (Hn : 0 <= n) by (unfold n; nia).
  unfold calloc. fold n. rewrite (u64_small n), s32_small, u64_small by lia.
  destruct (malloc_rep s live n H ltac:(lia)) as [(p & s1 & E & Hp & R & H')|[E Hno]]; [left|right].
  2:{ split; [unfold bind; by rewrite E|done]. }
  pose proof (heap_rep_apart _ _ H') as HA. destruct (HA p n (lookup_insert_eq _ _ _)) as (Hp0 & _).
  destruct (liballoc_memset_ok s1 p n ltac:(lia)) as (r & E2 & Hr).
  exists p, (set_ram r s1). split; [mrw E; rewrite (proj2 (Z.eqb_neq p 0) Hp0); by mrw E2|]. split; [done|]. split.
  { destruct H' as (A & G & HO & HLv). exists A, G. split; [by apply heap_ok_ram|done]. }
  split.
  - intros i Hi. unfold ram_at. cbn [ram set_ram]. by rewrite Hr, decide_True by lia.
  - intros b m i Hb Hi. unfold ram_at at 1. cbn [ram set_ram]. rewrite Hr, decide_False; [unfold ram_at; by rewrite R|].
    intros Hx. assert (Hb2 : <[p := n]> live !! b = Some m) by (rewrite lookup_insert_ne; [done|congruence]).
    apply (apart_bytes _ _ b m p n (b + i) (b + i) HA Hb2 (lookup_insert_eq _ _ _)); [congruence|lia|lia|done].
Qed.

End rep.

(** ** The kernel's heap *)

(** The state at boot: nothing allocated, the page allocator ready. *)
Record fresh_heap (hhdm : Z) (s : lib vmm) : Prop := {
  fh_init : l_initialized s = false;
  fh_hhdm : boot_hhdm s = hhdm;
  fh_aligned : hhdm mod 2 ^ 32 = 0;
  fh_pages : pages_ready hhdm false (pages s);
}.

(** Calls of the kernel, with the blocks it holds. *)
Inductive heap_step : lib vmm * gmap Z Z -> lib vmm * gmap Z Z -> Prop :=
| hs_malloc s live size p s' :
    0 <= size < 2 ^ 30 -> malloc size s = Ok (p, s') -> heap_step (s, live) (s', <[p := size]> live)
| hs_free s live p n s' :
    live !! p = Some n -> free p s = Ok (tt, s') -> heap_step (s, live) (s', delete p live)
| hs_realloc s live p n size q s' :
    live !! p = Some n -> 0 < size < 2 ^ 30 -> realloc p size s = Ok (q, s') ->
    heap_step (s, live) (s', <[q := size]> (delete p live))
| hs_store s live p n i v :
    live !! p = Some n -> 0 <= i < n -> heap_step (s, live) (set_ram (<[p + i := v]> (ram s)) s, live).

Lemma fresh_rep hhdm s : fresh_heap hhdm s -> heap_rep hhdm s ∅.
Proof.
  intros [H1 H2 H3 H4]. exists ∅, ∅. destruct (pr_range _ _ _ H4) as [X1 X2]. split.
  - split; [done|done| |by rewrite H1]. split; [done|..].
    + intros base n Hb. by rewrite lookup_empty in Hb.
    + intros b n b' n' Hb. by rewrite lookup_empty in Hb.
  - intros p n. split; [by intros ?%lookup_empty_Some|]. by intros [r ?%lookup_empty_Some].
Qed.

Definition heap_inv (hhdm : Z) (x : lib vmm * gmap Z Z) : Prop :=
  heap_rep hhdm x.1 x.2 /\ forall p n, x.2 !! p = Some n -> n < 2 ^ 30.

Lemma heap_step_inv hhdm x y : heap_inv hhdm x -> heap_step x y -> heap_inv hhdm y.
Proof.
  intros [H HB] St. destruct St as [s live size p s' Hs E|s live p n s' Hp E|s live p n size q s' Hp Hs E|s live p n i v Hp Hi];
    cbn [fst snd] in *; split; cbn [fst snd].
  - destruct (malloc_rep hhdm s live size H Hs) as [(p' & s2 & E2 & _ & _ & H2)|[E2 _]]; rewrite E in E2; [|done].
    by injection E2 as -> ->.
  - intros q m [[_ <-]|[_ Hq]]%lookup_insert_Some; [lia|by apply (HB q)].
  - destruct (free_rep hhdm s live p n H Hp) as (s2 & E2 & _ & H2 & _). rewrite E in E2. by injection E2 as ->.
  - intros q m [_ Hq]%lookup_delete_Some. by apply (HB q).
  - destruct (realloc_rep hhdm s live p n size H Hp (HB _ _ Hp) Hs) as [(q' & s2 & E2 & _ & H2 & _)|[E2 _]]; rewrite E in E2; [|done].
    by injection E2 as -> ->.
  - intros b m [[_ <-]|[_ [_ Hq]%lookup_delete_Some]]%lookup_insert_Some; [lia|by apply (HB b)].
  - destruct H as (A & G & HO & HL). exists A, G. split; [by apply heap_ok_ram|done].
  - done.
Qed.

(** C10: whatever sequence of [malloc], [free], [realloc] and stores into blocks the
    kernel performs, the blocks in its hands never overlap, nor do they touch the
    tag in front of any block, and every one of their bytes lies in a page that the
    page allocator has marked as taken. *)
Theorem heap_blocks_disjoint hhdm s0 s live :
  fresh_heap hhdm s0 -> rtc heap_step (s0, ∅) (s, live) -> blocks_apart hhdm s live.
Proof.
  intros H0 Hs. apply heap_rep_apart.
  assert (heap_inv hhdm (s, live)) as [H _]; [|exact H].
  remember (s0, ∅) as x eqn:Ex. remember (s, live) as y eqn:Ey. clear Ey.
  assert (Hx : heap_inv hhdm x).
  { subst x. split; cbn [fst snd]; [by apply fresh_rep|]. by intros p n Hp%lookup_empty_Some. }
  clear Ex H0. induction Hs as [x|x y z St Hs IH]; [done|]. apply IH. by eapply heap_step_inv.
Qed.

(** Forty pages, the first two taken. *)
Definition ex_memory : Bitmap := mkBitmap [3; 0; 0; 0; 0] 40 5 2 0 0 false true.
Definition ex_hhdm : Z := 0xffff800000000000.
Definition ex_heap : lib vmm :=
  mkLib ∅ ∅ [] [] false ex_hhdm (mkVmm ex_memory (set_lock false no_bitmap) ex_hhdm).

Lemma ex_heap_fresh : fresh_heap ex_hhdm ex_heap.
Proof.
  split; [done|done|done|]. split; try done. split; [|done|done]. split; cbn; try lia; [done|].
  intros k Hk. assert (k = 0 \/ k = 1) as [-> | ->] by lia; done.
Qed.

(** The state after a call. *)
Definition after {S A} (r : outcome (A * S)) (s : S) : S := match r with Ok (_, s') => s' | _ => s end.
Definition ex_heap1 : lib vmm := after (malloc 100 ex_heap) ex_heap.
Definition ex_heap2 : lib vmm := after (malloc 40000 ex_heap1) ex_heap1.

Lemma heap_blocks_disjoint_witness :
  blocks_apart ex_hhdm (after (free (ex_hhdm + 8240) ex_heap2) ex_heap2)
    (delete (ex_hhdm + 8240) (<[ex_hhdm + 8388 := 40000]> (<[ex_hhdm + 8240 := 100]> ∅))).
Proof.
  apply (heap_blocks_disjoint ex_hhdm ex_heap).
  - exact ex_heap_fresh.
  - eapply rtc_l; [apply hs_malloc with (size := 100) (p := ex_hhdm + 8240) (s' := ex_heap1); [lia|vm_compute; reflexivity]|].
    eapply rtc_l; [apply hs_malloc with (size := 40000) (p := ex_hhdm + 8388) (s' := ex_heap2); [lia|vm_compute; reflexivity]|].
    eapply rtc_l; [apply hs_free with (p := ex_hhdm + 8240) (n := 100) (s' := after (free (ex_hhdm + 8240) ex_heap2) ex_heap2);
      [vm_compute; reflexivity|vm_compute; reflexivity]|]. apply rtc_refl.
Defined.

(** C11: as long as the kernel holds the blocks of [live], [malloc] of fewer than a
    gigabyte returns a block that nobody holds, of the size asked for and apart from
    every other, leaves the contents of memory alone and keeps the heap
    well-formed; or the machine is halted, and then no run of free pages was long
    enough for the size. *)
Theorem malloc_refines hhdm (s : lib vmm) live size :
  heap_rep hhdm s live -> 0 <= size < 2 ^ 30 ->
  (exists p s', malloc size s = Ok (p, s') /\ live !! p = None /\ ram s' = ram s /\
     heap_rep hhdm s' (<[p := size]> live) /\ blocks_apart hhdm s' (<[p := size]> live)) \/
  (malloc size s = Halted /\ no_pages hhdm (pages s) size).
Proof.
  intros H Hs. destruct (malloc_rep hhdm s live size H Hs) as [(p & s' & E & Hp & R & H')|Hh]; [left|by right].
  exists p, s'. pose proof (heap_rep_apart _ _ _ H'). done.
Qed.

Lemma malloc_refines_witness :
  (exists p s', malloc 100 ex_heap = Ok (p, s') /\ (∅ : gmap Z Z) !! p = None /\ ram s' = ram ex_heap /\
     heap_rep ex_hhdm s' (<[p := 100]> ∅) /\ blocks_apart ex_hhdm s' (<[p := 100]> ∅)) \/
  (malloc 100 ex_heap = Halted /\ no_pages ex_hhdm (pages ex_heap) 100).
Proof. apply malloc_refines; [apply fresh_rep, ex_heap_fresh|lia]. Defined.

(** C12: [free] of a block the kernel holds returns, leaves the contents of memory
    alone and a well-formed heap in which the kernel holds the other blocks. The
    bytes of the block and of the tag in front of it, which could not be handed out
    before the call, can be afterwards: each lies in a segment of the list where
    [malloc] looks for segments of its size, or in a page that the page allocator
    has back. All bytes that could be handed out before still can, and no two listed
    segments are neighbours: the block has been joined with the free ones it lay
    between. *)
Theorem free_refines hhdm (s : lib vmm) live p n :
  heap_rep hhdm s live -> live !! p = Some n ->
  exists s', free p s = Ok (tt, s') /\ ram s' = ram s /\ heap_rep hhdm s' (delete p live) /\ joined s' /\
    (forall x, p - TAG <= x < p + n -> ~ available hhdm s x /\ available hhdm s' x) /\
    forall x, hhdm <= x -> available hhdm s x -> available hhdm s' x.
Proof.
  intros H Hp. destruct (free_rep hhdm s live p n H Hp) as (s' & E & R & H' & HJ & HI).
  exists s'. split_and!; try done; [|intros x Hx Ha; apply HI; auto].
  intros x Hx. split; [by apply (live_unavailable hhdm s live p n)|]. apply HI; [|by right].
  destruct H as (A & G & H & HL). apply HL in Hp as (r & Hg). pose proof (used_bounds _ _ _ _ _ _ _ H Hg). lia.
Qed.

(** The heap after one [malloc]. *)
Lemma ex_heap1_rep : heap_rep ex_hhdm ex_heap1 (<[ex_hhdm + 8240 := 100]> ∅).
Proof.
  destruct (malloc_rep ex_hhdm ex_heap ∅ 100) as [(p & s' & E & _ & _ & H)|[E _]].
  - apply fresh_rep, ex_heap_fresh.
  - lia.
  - unfold ex_heap1. rewrite E. cbn [after]. replace (ex_hhdm + 8240) with p; [done|].
    enough (X : Some p = Some (ex_hhdm + 8240)) by congruence.
    change (Some p) with (match (Ok (p, s') : outcome (Z * lib vmm)) with Ok (q, _) => Some q | _ => None end).
    rewrite <- E. vm_compute. reflexivity.
  - assert (X : match malloc 100 ex_heap with Halted => true | _ => false end = true) by by rewrite E. vm_compute in X. done.
Qed.

Lemma free_refines_witness :
  exists s', free (ex_hhdm + 8240) ex_heap1 = Ok (tt, s') /\ ram s' = ram ex_heap1 /\
    heap_rep ex_hhdm s' (delete (ex_hhdm + 8240) (<[ex_hhdm + 8240 := 100]> ∅)) /\ joined s' /\
    (forall x, ex_hhdm + 8240 - TAG <= x < ex_hhdm + 8240 + 100 -> ~ available ex_hhdm ex_heap1 x /\ available ex_hhdm s' x) /\
    forall x, ex_hhdm <= x -> available ex_hhdm ex_heap1 x -> available ex_hhdm s' x.
Proof.
  apply (free_refines ex_hhdm ex_heap1 _ (ex_hhdm + 8240) 100); [exact ex_heap1_rep|].
  vm_compute. reflexivity.
Defined.

(** [realloc] of a block returns a block of the new size whose bytes, up to the
    smaller of the two sizes, are those of the old one, releases the old block and
    changes no byte of any other; or the machine is halted for want of pages. *)
Theorem realloc_keeps_contents hhdm (s : lib vmm) live p n size :
  heap_rep hhdm s live -> live !! p = Some n -> n < 2 ^ 30 -> 0 < size < 2 ^ 30 ->
  (exists q s', realloc p size s = Ok (q, s') /\ live !! q = None /\
     heap_rep hhdm s' (<[q := size]> (delete p live)) /\
     (forall i, 0 <= i < Z.min n size -> ram_at s' (q + i) = ram_at s (p + i)) /\
     forall b m i, live !! b = Some m -> b <> p -> 0 <= i < m -> ram_at s' (b + i) = ram_at s (b + i)) \/
  (realloc p size s = Halted /\ exists s1, no_pages hhdm (pages s1) size /\ heap_rep hhdm s1 live).
Proof. apply realloc_rep. Qed.

Lemma realloc_keeps_contents_witness :
  (exists q s', realloc (ex_hhdm + 8240) 200 ex_heap1 = Ok (q, s') /\ (<[ex_hhdm + 8240 := 100]> ∅ : gmap Z Z) !! q = None /\
     heap_rep ex_hhdm s' (<[q := 200]> (delete (ex_hhdm + 8240) (<[ex_hhdm + 8240 := 100]> ∅))) /\
     (forall i, 0 <= i < Z.min 100 200 -> ram_at s' (q + i) = ram_at ex_heap1 (ex_hhdm + 8240 + i)) /\
     forall b m i, (<[ex_hhdm + 8240 := 100]> ∅ : gmap Z Z) !! b = Some m -> b <> ex_hhdm + 8240 -> 0 <= i < m ->
       ram_at s' (b + i) = ram_at ex_heap1 (b + i)) \/
  (realloc (ex_hhdm + 8240) 200 ex_heap1 = Halted /\
     exists s1, no_pages ex_hhdm (pages s1) 200 /\ heap_rep ex_hhdm s1 (<[ex_hhdm + 8240 := 100]> ∅)).
Proof.
  apply realloc_keeps_contents; [exact ex_heap1_rep|vm_compute; reflexivity|lia|lia].
Defined.

(** A block freed twice is linked to itself; after the next [malloc] it is both in
    the caller's hands and at the head of its list, and the one after that finds it
    with the index -1 and reads outside of [l_freePages]. *)
Definition twice_freed : lib vmm :=
  let s1 := after (free (ex_hhdm + 8240) ex_heap1) ex_heap1 in after (free (ex_hhdm + 8240) s1) s1.
Definition result {S A} (r : outcome (A * S)) : option A := match r with Ok (a, _) => Some a | _ => None end.

Theorem double_free_corrupts :
  let s1 := after (malloc 40000 twice_freed) twice_freed in
  result (malloc 40000 twice_freed) = Some (ex_hhdm + 8240) /\
  l_freePages s1 !! 15%nat = Some (ex_hhdm + 8192) /\
  malloc 33000 s1 = Fault.
Proof. vm_compute. done. Qed.

(** A second small block takes another run of sixteen pages: the rest of the first
    run is in the list of its own size class, and only one list is searched. *)
Theorem malloc_searches_one_class :
  result (malloc 100 ex_heap1) = Some (ex_hhdm + 8240 + 16 * 4096).
Proof. vm_compute. done. Qed.

(** 65536 objects of 65536 bytes: the product is cut to an [int], and a block of 0
    bytes is returned for 4 GiB. *)
Theorem calloc_truncates :
  result (calloc 65536 65536 ex_heap) = result (malloc 0 ex_heap) /\
  result (malloc 0 ex_heap) = Some (ex_hhdm + 8240).
Proof. vm_compute. done. Qed.
