(* ===== verification/LinkedList.v ===== *)
(** * Singly linked lists ([utility/linked_list.cpp])

    The control block [LLcontrol] and the cells of one list, each a [next]
    pointer followed by the rest of the structure.  [ll_list] is the contract:
    the list of addresses and payloads the control block leads to. *)

From S2P Require Import Prelude Bytes Heap.

Record LLcell := mkCell {
  ll_next : Z;
  ll_rest : list Z;
}.

Record LLcontrol := mkLL {
  signature1 : Z;
  signature2 : Z;
  structSize : Z;
  firstObject : Z;
}.

Definition LL_SIGNATURE_1 : Z := 0xa8ae0a9b148db421.
Definition LL_SIGNATURE_2 : Z := 0x7c9bfa1f171be6da.

Record ll_state := mkLs {
  ll : LLcontrol;
  cells : gmap Z LLcell;
}.

Definition set_first (p : Z) (s : ll_state) : ll_state :=
  mkLs (mkLL (signature1 (ll s)) (signature2 (ll s)) (structSize (ll s)) p) (cells s).

Definition on_cells {A} (m : M (gmap Z LLcell) A) : M ll_state A := fun s =>
  match m (cells s) with
  | Ok (a, c) => Ok (a, mkLs (ll s) c)
  | Halted => Halted
  | Fault => Fault
  | Hang => Hang
  end.

Definition cell (p : Z) : M ll_state LLcell := on_cells (deref p).
Definition set_next (p q : Z) : M ll_state unit :=
  on_cells (update p (fun c => mkCell q (ll_rest c))).

(** A walk along the list visits each cell at most once. *)
Definition ll_fuel (s : ll_state) : nat := S (size (cells s)).

Section operations.
Context `{!Allocator LLcell}.

Definition LinkedListNormal (size : Z) : M ll_state unit :=
  let! c := gets ll in
  kassert (signature1 c =? LL_SIGNATURE_1) ;;;
  kassert (signature2 c =? LL_SIGNATURE_2) ;;;
  kassert (structSize c =? size).

(** The loop of [LinkedListAllocate] behind the first cell. *)
Fixpoint link_last (fuel : nat) (curr target : Z) : M ll_state unit :=
  match fuel with
  | O => hang
  | S fuel =>
      if curr =? 0 then modify (set_first target)
      else
        let! c := cell curr in
        if ll_next c =? 0 then set_next curr target
        else link_last fuel (ll_next c) target
  end.

Definition LinkedListAllocate (size : Z) : M ll_state Z :=
  LinkedListNormal size ;;;
  let! target := on_cells (allocate (mkCell 0 (replicate (Z.to_nat (size - 8)) 0))) in
  let! fuel := gets ll_fuel in
  let! first := gets (fun s => firstObject (ll s)) in
  link_last fuel first target ;;;
  set_next target 0 ;;;
  ret target.

(** The cell before [target], 0 when there is none. *)
Fixpoint find_before (fuel : nat) (curr target : Z) : M ll_state Z :=
  match fuel with
  | O => hang
  | S fuel =>
      if curr =? 0 then ret 0
      else
        let! c := cell curr in
        if negb (ll_next c =? 0) && (ll_next c =? target) then ret curr
        else find_before fuel (ll_next c) target
  end.

Definition LinkedListUnregister (size target : Z) : M ll_state bool :=
  LinkedListNormal size ;;;
  let! first := gets (fun s => firstObject (ll s)) in
  let! fuel := gets ll_fuel in
  let! curr := find_before fuel first target in
  if first =? target then
    let! c := cell first in
    modify (set_first (ll_next c)) ;;;
    ret true
  else if curr =? 0 then ret false
  else
    let! c := cell curr in
    let! t := cell (ll_next c) in
    set_next curr (ll_next t) ;;;
    ret true.

(** [free(NULL)] does nothing. *)
Definition LinkedListRemove (size target : Z) : M ll_state bool :=
  LinkedListNormal size ;;;
  let! res := LinkedListUnregister size target in
  (if target =? 0 then ret tt else on_cells (dispose target)) ;;;
  ret res.

Definition LinkedListPushFrontUnsafe (target : Z) : M ll_state unit :=
  let! first := gets (fun s => firstObject (ll s)) in
  if first =? 0 then
    modify (set_first target) ;;;
    let! c := cell target in
    kassert (ll_next c =? 0)
  else
    modify (set_first target) ;;;
    set_next target first.

Fixpoint free_cells (fuel : nat) (browse : Z) : M ll_state unit :=
  match fuel with
  | O => hang
  | S fuel =>
      if browse =? 0 then ret tt
      else
        let! c := cell browse in
        on_cells (dispose browse) ;;;
        free_cells fuel (ll_next c)
  end.

Definition LinkedListDestroy (size : Z) : M ll_state unit :=
  LinkedListNormal size ;;;
  let! first := gets (fun s => firstObject (ll s)) in
  let! fuel := gets ll_fuel in
  free_cells fuel first ;;;
  modify (set_first 0).

Definition LinkedListInit (size : Z) : M ll_state unit :=
  let! c := gets ll in
  kassert (negb (signature1 c =? LL_SIGNATURE_1)) ;;;
  kassert (negb (signature2 c =? LL_SIGNATURE_2)) ;;;
  modify (fun s => mkLs (mkLL LL_SIGNATURE_1 LL_SIGNATURE_2 size 0) (cells s)).

(** Callbacks read the cell and the context they are given. *)
Fixpoint traverse_cells {C} (fuel : nat) (browse : Z) (callback : Z -> LLcell -> C -> C) (ctx : C)
    : M ll_state C :=
  match fuel with
  | O => hang
  | S fuel =>
      if browse =? 0 then ret ctx
      else
        let! c := cell browse in
        traverse_cells fuel (ll_next c) callback (callback browse c ctx)
  end.
Definition LinkedListTraverse {C} (callback : Z -> LLcell -> C -> C) (ctx : C) : M ll_state C :=
  let! first := gets (fun s => firstObject (ll s)) in
  let! fuel := gets ll_fuel in
  traverse_cells fuel first callback ctx.

Fixpoint search_cells (fuel : nat) (browse : Z) (isCorrect : Z -> LLcell -> bool) : M ll_state Z :=
  match fuel with
  | O => hang
  | S fuel =>
      if browse =? 0 then ret browse
      else
        let! c := cell browse in
        if isCorrect browse c then ret browse else search_cells fuel (ll_next c) isCorrect
  end.
Definition LinkedListSearch (isCorrect : Z -> LLcell -> bool) : M ll_state Z :=
  let! first := gets (fun s => firstObject (ll s)) in
  let! fuel := gets ll_fuel in
  search_cells fuel first isCorrect.

Definition LinkedListSearchPtrCb (targetPtr data : Z) (c : LLcell) : bool := data =? targetPtr.
Definition LinkedListSearchPtr (targetPtr : Z) : M ll_state Z :=
  LinkedListSearch (LinkedListSearchPtrCb targetPtr).
Definition LinkedListSearchFirstCb (data : Z) (c : LLcell) : bool := true.
Definition LinkedListSearchFirst : M ll_state Z := LinkedListSearch LinkedListSearchFirstCb.

End operations.

(** ** The contract *)

(** The cells of [l] in a row, the last one leading to [nxt]. *)
Fixpoint chain (h : gmap Z LLcell) (p : Z) (l : list (Z * list Z)) (nxt : Z) : Prop :=
  match l with
  | [] => p = nxt
  | (a, x) :: l => p = a /\ a <> 0 /\ exists q, h !! a = Some (mkCell q x) /\ chain h q l nxt
  end.

Definition ll_list (s : ll_state) (size : Z) (l : list (Z * list Z)) : Prop :=
  ll s = mkLL LL_SIGNATURE_1 LL_SIGNATURE_2 size (firstObject (ll s)) /\
  NoDup l.*1 /\ chain (cells s) (firstObject (ll s)) l 0.

Lemma chain_app h p l1 l2 nxt : chain h p (l1 ++ l2) nxt <-> exists q, chain h p l1 q /\ chain h q l2 nxt.
Proof.
  revert p. induction l1 as [|[a x] l1 IH]; intros p; cbn; [naive_solver|].
  setoid_rewrite IH. naive_solver.
Qed.

Lemma chain_frame h h' p l nxt :
  (forall a, a ∈ l.*1 -> h' !! a = h !! a) -> chain h p l nxt -> chain h' p l nxt.
Proof.
  revert p. induction l as [|[a x] l IH]; intros p E; cbn; [done|].
  intros (-> & Ha & q & Hq & Hc). split_and!; [done..|]. exists q. split.
  - rewrite E; [done|]. cbn. by left.
  - apply IH; [|done]. intros b Hb. apply E. cbn. by right.
Qed.

Lemma chain_cell h p l nxt a : chain h p l nxt -> a ∈ l.*1 -> is_Some (h !! a) /\ a <> 0.
Proof.
  revert p. induction l as [|[b x] l IH]; intros p; cbn; [set_solver|].
  intros (-> & Hb & q & Hq & Hc) [->|Ha]%elem_of_cons; [eauto|by eapply IH].
Qed.

Lemma chain_fuel s size l : ll_list s size l -> (length l < ll_fuel s)%nat.
Proof.
  intros (_ & Hd & Hc). unfold ll_fuel. enough (length l <= base.size (cells s))%nat by lia.
  rewrite <- (length_fmap fst), <- size_dom, <- (size_list_to_set (C := gset Z)) by done.
  apply subseteq_size. intros a Ha%elem_of_list_to_set. apply elem_of_dom. by eapply chain_cell.
Qed.

(** ** Walks *)

Lemma cell_ok s p c : p <> 0 -> cells s !! p = Some c -> cell p s = Ok (c, s).
Proof. intros Hp Hc. unfold cell, on_cells. rewrite (deref_ok _ _ _ Hp Hc). by destruct s. Qed.

Lemma set_next_ok s p q c :
  p <> 0 -> cells s !! p = Some c ->
  set_next p q s = Ok (tt, mkLs (ll s) (<[p := mkCell q (ll_rest c)]> (cells s))).
Proof. intros Hp Hc. unfold set_next, on_cells. by rewrite (update_ok _ _ _ _ Hp Hc). Qed.

Lemma normal_ok s size l : ll_list s size l -> LinkedListNormal size s = Ok (tt, s).
Proof.
  intros (E & _). unfold LinkedListNormal. erewrite bind_ok by done. rewrite E.
  cbn [signature1 signature2 structSize]. rewrite !Z.eqb_refl. done.
Qed.

Lemma link_last_ok s p l a x target fuel :
  chain (cells s) p (l ++ [(a, x)]) 0 -> (length l < fuel)%nat ->
  link_last fuel p target s = Ok (tt, mkLs (ll s) (<[a := mkCell target x]> (cells s))).
Proof.
  revert p fuel. induction l as [|[b y] l IH]; intros p fuel; destruct fuel as [|fuel]; try (cbn; lia); cbn [app chain].
  - intros (-> & Ha & q & Hq & ->) _. cbn [link_last]. rewrite (proj2 (Z.eqb_neq a 0)) by done.
    mstep cell_ok. cbn. by rewrite (set_next_ok _ _ _ _ Ha Hq).
  - intros (-> & Hb & q & Hq & Hc) Hf. cbn [link_last]. rewrite (proj2 (Z.eqb_neq b 0)) by done.
    mstep cell_ok. cbn [ll_next]. assert (q <> 0) as Hq0.
    { destruct l as [|[c z] l]; cbn in Hc; naive_solver. }
    rewrite (proj2 (Z.eqb_neq q 0)) by done. apply IH; [done|cbn in Hf; lia].
Qed.

Lemma find_before_found s p l1 a x t y l2 fuel :
  chain (cells s) p (l1 ++ (a, x) :: (t, y) :: l2) 0 ->
  NoDup (l1 ++ (a, x) :: (t, y) :: l2).*1 -> (length l1 < fuel)%nat ->
  find_before fuel p t s = Ok (a, s).
Proof.
  revert p fuel. induction l1 as [|[b z] l1 IH]; intros p fuel; destruct fuel as [|fuel]; try (cbn; lia); cbn [app chain].
  - intros (-> & Ha & q & Hq & -> & Ht & _) _ _. cbn [find_before]. rewrite (proj2 (Z.eqb_neq a 0)) by done.
    mstep cell_ok. cbn [ll_next]. by rewrite (proj2 (Z.eqb_neq t 0)), Z.eqb_refl.
  - intros (-> & Hb & q & Hq & Hc) Hd Hf. cbn [fmap list_fmap fst] in Hd. apply NoDup_cons in Hd as [Hn Hd].
    cbn [find_before]. rewrite (proj2 (Z.eqb_neq b 0)) by done. mstep cell_ok. cbn [ll_next].
    assert (q <> t) as Hqt.
    { destruct l1 as [|[c w] l1]; cbn in Hc, Hd; [destruct Hc as [-> _]|destruct Hc as [-> _]].
      - apply NoDup_cons in Hd as [Hd _]. intros ->. apply Hd. by left.
      - apply NoDup_cons in Hd as [Hd _]. intros ->. apply Hd. rewrite fmap_app, !fmap_cons. set_solver. }
    rewrite (proj2 (Z.eqb_neq q t)), andb_false_r by done. apply IH; [done|done|cbn in Hf; lia].
Qed.

Lemma find_before_none s p l t fuel :
  chain (cells s) p l 0 -> t ∉ (tail l).*1 -> (length l < fuel)%nat ->
  find_before fuel p t s = Ok (0, s).
Proof.
  revert p fuel. induction l as [|[b z] l IH]; intros p fuel; destruct fuel as [|fuel]; try (cbn; lia); cbn [chain tail].
  - by intros -> _ _.
  - intros (-> & Hb & q & Hq & Hc) Ht Hf. cbn [find_before]. rewrite (proj2 (Z.eqb_neq b 0)) by done.
    mstep cell_ok. cbn [ll_next]. destruct l as [|[c w] l].
    + cbn in Hc. subst q. cbn. destruct fuel; [cbn in Hf; lia|done].
    + assert (q <> t) as Hqt by (cbn in Hc, Ht; destruct Hc as [-> _]; set_solver).
      rewrite (proj2 (Z.eqb_neq q t)), andb_false_r by done.
      apply IH; [done| |cbn in Hf |- *; lia]. cbn in Ht |- *. set_solver.
Qed.

Lemma chain_redirect h p l a x q' :
  chain h p (l ++ [(a, x)]) q' -> NoDup (l ++ [(a, x)]).*1 ->
  forall nxt, chain (<[a := mkCell nxt x]> h) p (l ++ [(a, x)]) nxt.
Proof.
  intros Hc Hd nxt. rewrite fmap_app in Hd. apply NoDup_app in Hd as (_ & Hd & _).
  apply chain_app in Hc as (q & H1 & -> & Ha & q2 & Hq & ->). apply chain_app. exists a. split.
  - eapply chain_frame; [|exact H1]. intros b Hb. apply lookup_insert_ne. intros ->. apply (Hd b Hb). cbn. by left.
  - cbn. split_and!; [done..|]. exists nxt. by rewrite lookup_insert_eq.
Qed.

Lemma search_cells_ok s p l1 a x l2 (f : Z -> LLcell -> bool) fuel :
  chain (cells s) p (l1 ++ (a, x) :: l2) 0 -> (length l1 < fuel)%nat ->
  (forall b y n, (b, y) ∈ l1 -> f b (mkCell n y) = false) -> (forall n, f a (mkCell n x) = true) ->
  search_cells fuel p f s = Ok (a, s).
Proof.
  revert p fuel. induction l1 as [|[b y] l1 IH]; intros p fuel; destruct fuel as [|fuel]; try (cbn; lia); cbn [app chain].
  - intros (-> & Ha & q & Hq & _) _ _ Hf. cbn [search_cells]. rewrite (proj2 (Z.eqb_neq a 0)) by done.
    mstep cell_ok. by rewrite Hf.
  - intros (-> & Hb & q & Hq & Hc) Hl Hn Hf. cbn [search_cells]. rewrite (proj2 (Z.eqb_neq b 0)) by done.
    mstep cell_ok. rewrite Hn by (by left). cbn [ll_next]. apply IH; [done|cbn in Hl; lia| |done].
    intros c z n Hc'. apply Hn. by right.
Qed.

(** The payload of one cell changes. *)
Lemma ll_set_rest s size l1 a x y l2 n :
  ll_list s size (l1 ++ (a, x) :: l2) -> cells s !! a = Some (mkCell n x) ->
  ll_list (mkLs (ll s) (<[a := mkCell n y]> (cells s))) size (l1 ++ (a, y) :: l2).
Proof.
  intros (E & Hd & Hc) Ha. rewrite fmap_app in Hd. pose proof Hd as (_ & Ds & [Dn _]%NoDup_cons)%NoDup_app.
  split_and!; [done|by rewrite fmap_app|]. apply chain_app in Hc as (p & C1 & -> & Hn & n' & Hn' & C2).
  rewrite Ha in Hn'. injection Hn' as <-. apply chain_app. exists a. split.
  - eapply chain_frame; [|exact C1]. intros b Hb. apply lookup_insert_ne. intros <-. apply (Ds _ Hb). by left.
  - cbn. split_and!; [done..|]. exists n. split; [apply lookup_insert_eq|].
    eapply chain_frame; [|exact C2]. intros b Hb. apply lookup_insert_ne. by intros <-.
Qed.

(** ** Theorems *)

Section theorems.
Context `{!Allocator LLcell}.

(** [LinkedListAllocate] appends: it returns a fresh zeroed cell that is the
    new end of the list, the cells before it keep order and contents, and no
    other address changes. *)
Theorem ll_allocate_appends s size l :
  ll_list s size l ->
  exists new s', LinkedListAllocate size s = Ok (new, s') /\ cells s !! new = None /\
    ll_list s' size (l ++ [(new, replicate (Z.to_nat (size - 8)) 0)]) /\
    forall b, b ∉ new :: l.*1 -> cells s' !! b = cells s !! b.
Proof.
  intros L. pose proof L as (E & Hd & Hc). pose proof (malloc_nonnull (cells s)) as Hn.
  pose proof (malloc_fresh (cells s)) as Hf. set (new := malloc (cells s)) in *.
  set (z := replicate (Z.to_nat (size - 8)) 0). set (s1 := mkLs (ll s) (<[new := mkCell 0 z]> (cells s))).
  assert (Hnl : new ∉ l.*1) by (intros Hl; destruct (chain_cell _ _ _ _ _ Hc Hl) as [[? ?] _]; congruence).
  assert (Hc1 : chain (cells s1) (firstObject (ll s)) l 0).
  { eapply chain_frame; [|exact Hc]. intros b Hb. apply lookup_insert_ne. congruence. }
  assert (Hd' : NoDup (l ++ [(new, z)]).*1).
  { rewrite fmap_app. apply NoDup_app. split_and!; [done| |apply NoDup_singleton]. set_solver. }
  assert (Hfu : (length l < ll_fuel s1)%nat).
  { pose proof (chain_fuel _ _ _ L). unfold ll_fuel in *. cbn. rewrite map_size_insert_None by done. lia. }
  unfold LinkedListAllocate. mstep normal_ok.
  erewrite (bind_ok _ _ s new s1) by done. do 2 erewrite bind_ok by done. change (ll s1) with (ll s).
  destruct (decide (l = [])) as [->|Hne].
  - cbn in Hc1. rewrite Hc1. cbn [link_last ll_fuel].
    erewrite (bind_ok _ _ s1 tt (set_first new s1)) by done.
    erewrite bind_ok by (apply set_next_ok; [done|apply lookup_insert_eq]).
    exists new. eexists. split; [done|]. split; [done|]. split.
    + split_and!; [cbn; by rewrite E|done|]. cbn. split_and!; [done..|]. exists 0. split; [|done]. apply lookup_insert_eq.
    + intros b Hb. apply not_elem_of_cons in Hb as [? _]. cbn. by rewrite !lookup_insert_ne.
  - destruct (exists_last Hne) as (l0 & [a x] & ->).
    assert (Ha : a <> 0 /\ a <> new).
    { rewrite fmap_app in Hnl. apply not_elem_of_app in Hnl as [_ Hnl]. cbn in Hnl.
      split; [|set_solver]. eapply (chain_cell _ _ _ _ _ Hc). rewrite fmap_app. set_solver. }
    rewrite length_app in Hfu. cbn in Hfu.
    erewrite bind_ok by (eapply link_last_ok; [exact Hc1|lia]).
    erewrite bind_ok by (apply set_next_ok; [done|cbn; rewrite lookup_insert_ne by naive_solver; apply lookup_insert_eq]).
    exists new. eexists. split; [done|]. split; [done|]. split.
    + split_and!; [done|done|]. cbn [cells ll firstObject]. rewrite chain_app. exists new. split.
      * eapply chain_frame; [|eapply chain_redirect; [exact Hc1|done]].
        intros b Hb. apply lookup_insert_ne. congruence.
      * cbn. split_and!; [done..|]. exists 0. split; [|done]. apply lookup_insert_eq.
    + intros b Hb. apply not_elem_of_cons in Hb as [? Hb]. cbn. rewrite fmap_app in Hb. cbn in Hb.
      rewrite !lookup_insert_ne by set_solver. done.
Qed.
End theorems.

Lemma unregister_first s size t x l2 :
  ll_list s size ((t, x) :: l2) ->
  exists q, cells s !! t = Some (mkCell q x) /\
    LinkedListUnregister size t s = Ok (true, set_first q s) /\ ll_list (set_first q s) size l2.
Proof.
  intros L. pose proof (chain_fuel _ _ _ L) as Hf. pose proof L as (E & Hd & Hfirst & Ht & q & Hq & Hc).
  cbn in Hd. apply NoDup_cons in Hd as [Hn Hd]. exists q. split; [done|]. split.
  - unfold LinkedListUnregister. mstep normal_ok. do 2 erewrite bind_ok by done.
    erewrite bind_ok by (eapply find_before_none; [apply L|done|done]).
    rewrite Hfirst, Z.eqb_refl. mstep cell_ok. done.
  - split_and!; [cbn; by rewrite E|done|done].
Qed.

Lemma unregister_inner s size l0 a y t x l2 :
  ll_list s size (l0 ++ (a, y) :: (t, x) :: l2) ->
  exists q, cells s !! t = Some (mkCell q x) /\
    let s' := mkLs (ll s) (<[a := mkCell q y]> (cells s)) in
    LinkedListUnregister size t s = Ok (true, s') /\ ll_list s' size (l0 ++ (a, y) :: l2).
Proof.
  intros L. pose proof (chain_fuel _ _ _ L) as Hf. pose proof L as (E & Hd & Hc).
  pose proof Hc as (p1 & Hc0 & -> & Ha & p2 & Hp2 & -> & Ht & q & Hq & Hc2)%chain_app.
  assert (Hne : firstObject (ll s) <> t).
  { intros Hft. destruct l0 as [|[b w] l0]; cbn in Hc0, Hd.
    - subst a. apply NoDup_cons in Hd as [Hd _]. apply Hd. rewrite Hft. by left.
    - destruct Hc0 as [<- _]. apply NoDup_cons in Hd as [Hd _]. apply Hd. rewrite Hft, fmap_app. set_solver. }
  exists q. split; [done|]. split.
  - unfold LinkedListUnregister. mstep normal_ok. do 2 erewrite bind_ok by done.
    erewrite bind_ok by (eapply find_before_found; [exact Hc|exact Hd|rewrite length_app in Hf; cbn in Hf; lia]).
    rewrite (proj2 (Z.eqb_neq _ t)), (proj2 (Z.eqb_neq a 0)) by done.
    mstep cell_ok. cbn [ll_next]. mstep cell_ok. cbn [ll_next]. by erewrite bind_ok by (by apply set_next_ok).
  - rewrite fmap_app in Hd. cbn in Hd. apply NoDup_app in Hd as (D0 & Dsep & [Da D2]%NoDup_cons).
    apply NoDup_cons in D2 as [_ D2].
    split_and!; [done|rewrite fmap_app; apply NoDup_app; split_and!; [done|set_solver|cbn; apply NoDup_cons; set_solver]|].
    change (l0 ++ (a, y) :: l2) with (l0 ++ [(a, y)] ++ l2). rewrite app_assoc. apply chain_app.
    exists q. split.
    + eapply chain_redirect.
      * apply chain_app. exists a. split; [exact Hc0|]. cbn. split_and!; [done..|]. by exists t.
      * rewrite fmap_app. apply NoDup_app. split_and!; [done|set_solver|apply NoDup_singleton].
    + eapply chain_frame; [|exact Hc2]. intros b Hb. apply lookup_insert_ne. set_solver.
Qed.

Lemma unregister_member s size l1 t x l2 :
  ll_list s size (l1 ++ (t, x) :: l2) ->
  exists s', LinkedListUnregister size t s = Ok (true, s') /\ ll_list s' size (l1 ++ l2) /\
    forall b, b ∉ l1.*1 -> cells s' !! b = cells s !! b.
Proof.
  intros L. destruct (decide (l1 = [])) as [->|Hne].
  - destruct (unregister_first s size t x l2 L) as (q & Hq & E & L'). by exists (set_first q s).
  - destruct (exists_last Hne) as (l0 & [a y] & ->). rewrite <- app_assoc in L.
    destruct (unregister_inner s size l0 a y t x l2 L) as (q & Hq & E & L').
    eexists. split; [exact E|]. split; [rewrite <- app_assoc; exact L'|].
    intros b Hb. apply lookup_insert_ne. intros ->. apply Hb. rewrite fmap_app. set_solver.
Qed.

Lemma remove_member s size l1 t x l2 :
  ll_list s size (l1 ++ (t, x) :: l2) ->
  exists s', LinkedListRemove size t s = Ok (true, s') /\ ll_list s' size (l1 ++ l2) /\
    forall b, b ∉ t :: l1.*1 -> cells s' !! b = cells s !! b.
Proof.
  intros L. destruct (unregister_member s size l1 t x l2 L) as (s1 & E & (Hs & Hd & Hc) & Fr).
  pose proof L as (_ & Hd0 & Hc0). rewrite fmap_app in Hd0. cbn in Hd0.
  apply NoDup_app in Hd0 as (_ & Hs0 & [Ht0 _]%NoDup_cons).
  destruct (chain_cell _ _ _ _ t Hc0) as [[c Hct] Ht]; [rewrite fmap_app; set_solver|].
  assert (Ht1 : t ∉ l1.*1) by (intros H; apply (Hs0 t H); by left).
  rewrite <- Fr in Hct by done.
  exists (mkLs (ll s1) (delete t (cells s1))). split_and!.
  - unfold LinkedListRemove. mstep normal_ok. mrw E. rewrite (proj2 (Z.eqb_neq t 0)) by done.
    erewrite bind_ok; [done|]. unfold on_cells. by rewrite (dispose_ok _ _ _ Ht Hct).
  - split_and!; [done|done|]. eapply chain_frame; [|exact Hc]. intros b Hb. cbn. apply lookup_delete_ne.
    intros ->. rewrite fmap_app in Hb. set_solver.
  - intros b Hb. apply not_elem_of_cons in Hb as [Hbt Hb]. cbn. rewrite lookup_delete_ne by done. by apply Fr.
Qed.

(** A cell without successor becomes the new end. *)
Lemma link_last_appends s size l a x fuel :
  ll_list s size l -> (length l < fuel)%nat -> a <> 0 -> a ∉ l.*1 -> cells s !! a = Some (mkCell 0 x) ->
  exists s', link_last fuel (firstObject (ll s)) a s = Ok (tt, s') /\ ll_list s' size (l ++ [(a, x)]) /\
    forall b, b ∉ l.*1 -> cells s' !! b = cells s !! b.
Proof.
  intros (E & Hd & Hc) Hf Ha Hn Hx.
  assert (Hd' : NoDup (l ++ [(a, x)]).*1).
  { rewrite fmap_app. apply NoDup_app. split_and!; [done| |apply NoDup_singleton]. set_solver. }
  destruct (decide (l = [])) as [->|Hne].
  - cbn in Hc. rewrite Hc. destruct fuel; [cbn in Hf; lia|]. exists (set_first a s).
    split_and!; [done|..|done]. split_and!; [cbn; by rewrite E|done|]. cbn. split_and!; [done..|]. by exists 0.
  - destruct (exists_last Hne) as (l0 & [b y] & ->). rewrite length_app in Hf. cbn in Hf.
    rewrite fmap_app in Hn. cbn in Hn. rewrite elem_of_app, list_elem_of_singleton in Hn.
    eexists. split; [apply link_last_ok with (1 := Hc); lia|]. split.
    + split_and!; [done|done|]. cbn [cells ll firstObject]. rewrite chain_app. exists a. split.
      * by eapply chain_redirect.
      * cbn. split_and!; [done..|]. exists 0. split; [|done]. rewrite lookup_insert_ne; [done|]. intros ->. tauto.
    + intros c Hb. cbn. apply lookup_insert_ne. intros ->. apply Hb. rewrite fmap_app. set_solver.
Qed.

(** [LinkedListUnregister] removes exactly the cell it is given: the others
    keep their order and contents, the cell itself stays allocated, and the
    result says whether it was in the list; a cell that is not in the list
    changes nothing. *)
Theorem ll_unregister_removes s size l t :
  ll_list s size l -> t <> 0 ->
  (forall l1 x l2, l = l1 ++ (t, x) :: l2 ->
     exists s', LinkedListUnregister size t s = Ok (true, s') /\
       ll_list s' size (l1 ++ l2) /\ cells s' !! t = cells s !! t) /\
  (t ∉ l.*1 -> LinkedListUnregister size t s = Ok (false, s)).
Proof.
  intros L Ht. split.
  - intros l1 x l2 ->. destruct (unregister_member s size l1 t x l2 L) as (s' & E & L' & Fr).
    exists s'. split_and!; [done..|]. apply Fr. destruct L as (_ & Hd & _). rewrite fmap_app in Hd.
    apply NoDup_app in Hd as (_ & Hd & _). intros Ht1. apply (Hd t Ht1). by left.
  - intros Hn. pose proof (chain_fuel _ _ _ L) as Hf. pose proof L as (E & Hd & Hc).
    assert (Hne : firstObject (ll s) <> t).
    { destruct l as [|[b w] l]; cbn in Hc, Hn; [congruence|]. destruct Hc as [-> _]. set_solver. }
    unfold LinkedListUnregister. mstep normal_ok. do 2 erewrite bind_ok by done.
    erewrite bind_ok by (eapply find_before_none; [exact Hc| |done]; destruct l as [|[] l]; cbn in *; set_solver).
    by rewrite (proj2 (Z.eqb_neq _ t)).
Qed.

(** Two cells of 16 bytes. *)
Definition ex_ll : ll_state :=
  mkLs (mkLL LL_SIGNATURE_1 LL_SIGNATURE_2 16 100)
    (<[100 := mkCell 200 (replicate 8 1)]> (<[200 := mkCell 0 (replicate 8 2)]> ∅)).

Lemma ex_ll_ok : ll_list ex_ll 16 [(100, replicate 8 1); (200, replicate 8 2)].
Proof.
  split_and!; [done|apply NoDup_ListNoDup; repeat constructor; cbn; lia|].
  cbn. split_and!; [done..|]. exists 200. split; [done|]. split_and!; [done..|]. by exists 0.
Qed.

Lemma ll_allocate_appends_witness :
  exists new s', LinkedListAllocate 16 ex_ll = Ok (new, s') /\ cells ex_ll !! new = None /\
    ll_list s' 16 [(100, replicate 8 1); (200, replicate 8 2); (new, replicate 8 0)] /\
    forall b, b ∉ [new; 100; 200] -> cells s' !! b = cells ex_ll !! b.
Proof.
  apply (ll_allocate_appends ex_ll 16 [(100, replicate 8 1); (200, replicate 8 2)]). apply ex_ll_ok.
Defined.

Lemma ll_unregister_removes_witness :
  (exists s', LinkedListUnregister 16 200 ex_ll = Ok (true, s') /\
     ll_list s' 16 [(100, replicate 8 1)] /\ cells s' !! 200 = cells ex_ll !! 200) /\
  LinkedListUnregister 16 300 ex_ll = Ok (false, ex_ll).
Proof.
  split.
  - destruct (ll_unregister_removes ex_ll 16 _ 200 ex_ll_ok) as [H _]; [lia|].
    by apply (H [(100, replicate 8 1)] (replicate 8 2) []).
  - apply (ll_unregister_removes ex_ll 16 _ 300 ex_ll_ok); [lia|]. cbn. set_solver.
Defined.
