(* ===== verification/AvlTree.v ===== *)
(** * Balanced search trees: the reference for [utility/avl_tree.cpp]

    Trees as values, each node with the address it has in memory.  The
    functions mirror the routines of [avl_tree.cpp] one to one, without the
    heap; [Avl] proves that the pointer code computes them.  Here: they keep the
    keys in order and the tree balanced, and the depth is logarithmic. *)

From stdpp Require Import sorting.
From S2P Require Import Prelude.

Inductive tree :=
| Leaf
| Node (l : tree) (a k ht v : Z) (r : tree).

#[export] Instance tree_eq_dec : EqDecision tree.
Proof. solve_decision. Defined.

Definition height (t : tree) : Z := match t with Leaf => 0 | Node _ _ _ ht _ _ => ht end.
Definition root (t : tree) : Z := match t with Leaf => 0 | Node _ a _ _ _ _ => a end.
Definition balance (t : tree) : Z :=
  match t with Leaf => 0 | Node l _ _ _ _ r => height l - height r end.

(** In-order bindings and addresses. *)
Fixpoint binds (t : tree) : list (Z * Z) :=
  match t with Leaf => [] | Node l _ k _ v r => binds l ++ (k, v) :: binds r end.
Fixpoint addrs (t : tree) : list Z :=
  match t with Leaf => [] | Node l a _ _ _ r => a :: addrs l ++ addrs r end.

(** A node whose height field is up to date. *)
Definition node (l : tree) (a k v : Z) (r : tree) : tree :=
  Node l a k (1 + Z.max (height l) (height r)) v r.

Definition rot_right (t : tree) : tree :=
  match t with
  | Node (Node A x kx _ vx B) y ky _ vy C => node A x kx vx (node B y ky vy C)
  | _ => t
  end.
Definition rot_left (t : tree) : tree :=
  match t with
  | Node A x kx _ vx (Node B y ky _ vy C) => node (node A x kx vx B) y ky vy C
  | _ => t
  end.

(** The four cases after an insertion of [key]. *)
Definition rebalance_insert (key : Z) (t : tree) : tree :=
  match t with
  | Leaf => t
  | Node l a k h v r =>
      if 1 <? balance t then
        match l with
        | Leaf => t
        | Node _ _ lk _ _ _ =>
            if key <? lk then rot_right t
            else if lk <? key then rot_right (Node (rot_left l) a k h v r) else t
        end
      else if balance t <? -1 then
        match r with
        | Leaf => t
        | Node _ _ rk _ _ _ =>
            if rk <? key then rot_left t
            else if key <? rk then rot_left (Node l a k h v (rot_right r)) else t
        end
      else t
  end.

Fixpoint insert_tree (key new val : Z) (t : tree) : tree :=
  match t with
  | Leaf => Node Leaf new key 1 val Leaf
  | Node l a k h v r =>
      if key <? k then rebalance_insert key (node (insert_tree key new val l) a k v r)
      else if k <? key then rebalance_insert key (node l a k v (insert_tree key new val r))
      else t
  end.

(** The four cases after a deletion. *)
Definition rebalance_delete (t : tree) : tree :=
  match t with
  | Leaf => t
  | Node l a k h v r =>
      if 1 <? balance t then
        if 0 <=? balance l then rot_right t else rot_right (Node (rot_left l) a k h v r)
      else if balance t <? -1 then
        if balance r <=? 0 then rot_left t else rot_left (Node l a k h v (rot_right r))
      else t
  end.

Fixpoint min_node (t : tree) : option (Z * Z * Z) :=
  match t with
  | Leaf => None
  | Node l a k _ v _ => match min_node l with None => Some (a, k, v) | m => m end
  end.

Fixpoint delete_tree (key : Z) (t : tree) : tree :=
  match t with
  | Leaf => Leaf
  | Node l a k h v r =>
      if key <? k then rebalance_delete (node (delete_tree key l) a k v r)
      else if k <? key then rebalance_delete (node l a k v (delete_tree key r))
      else
        match l, r with
        | Leaf, Leaf => Leaf
        | Node ll _ lk _ lv lr, Leaf => rebalance_delete (node ll a lk lv lr)
        | Leaf, Node rl _ rk _ rv rr => rebalance_delete (node rl a rk rv rr)
        | Node _ _ _ _ _ _, Node _ _ _ _ _ _ =>
            match min_node r with
            | Some (_, mk, mv) => rebalance_delete (node l a mk mv (delete_tree mk r))
            | None => t
            end
        end
  end.

(** The value [AVLUnregisterL] stores through [target]: that of the node it
    frees, 0 when the key is absent. *)
Fixpoint freed_value (key : Z) (t : tree) : Z :=
  match t with
  | Leaf => 0
  | Node l a k h v r =>
      if key <? k then freed_value key l
      else if k <? key then freed_value key r
      else
        match l, r with
        | Leaf, Leaf => v
        | Node _ _ _ _ lv _, Leaf => lv
        | Leaf, Node _ _ _ _ rv _ => rv
        | Node _ _ _ _ _ _, Node _ _ _ _ _ _ =>
            match min_node r with Some (_, mk, _) => freed_value mk r | None => 0 end
        end
  end.

(** ** Invariants *)

Fixpoint balanced (t : tree) : Prop :=
  match t with
  | Leaf => True
  | Node l _ _ ht _ r =>
      balanced l /\ balanced r /\ ht = 1 + Z.max (height l) (height r) /\
      -1 <= height l - height r <= 1
  end.

Definition ordered (t : tree) : Prop := StronglySorted Z.lt (binds t).*1.

Lemma height_nonneg t : balanced t -> 0 <= height t.
Proof.
  induction t as [|l IHl a k ht v r IHr]; cbn; [done|]. intros (Hl & Hr & -> & _).
  specialize (IHl Hl). specialize (IHr Hr). lia.
Qed.

Lemma binds_node l a k v r : binds (node l a k v r) = binds l ++ (k, v) :: binds r.
Proof. done. Qed.

Lemma binds_rot_right t : binds (rot_right t) = binds t.
Proof. destruct t as [|[|A x kx hx vx B] y ky hy vy C]; cbn; [done..|]. by rewrite <- app_assoc. Qed.
Lemma binds_rot_left t : binds (rot_left t) = binds t.
Proof. destruct t as [|A x kx hx vx [|B y ky hy vy C]]; cbn; [done..|]. by rewrite <- app_assoc. Qed.

Lemma binds_rebalance_insert key t : binds (rebalance_insert key t) = binds t.
Proof.
  destruct t as [|l a k h v r]; [done|]. cbn [rebalance_insert].
  repeat case_match; rewrite ?binds_rot_right, ?binds_rot_left; try done; cbn [binds];
    by rewrite ?binds_rot_right, ?binds_rot_left.
Qed.
Lemma binds_rebalance_delete t : binds (rebalance_delete t) = binds t.
Proof.
  destruct t as [|l a k h v r]; [done|]. cbn [rebalance_delete].
  repeat case_match; rewrite ?binds_rot_right, ?binds_rot_left; try done; cbn [binds];
    by rewrite ?binds_rot_right, ?binds_rot_left.
Qed.

(** ** Rotations restore the balance *)

Ltac avl_lia :=
  repeat match goal with H : balanced ?t |- _ =>
    match goal with H' : 0 <= height t |- _ => fail 1 | _ => pose proof (height_nonneg t H) end end; lia.

Lemma rot_right_ok l a k h v r :
  balanced l -> balanced r -> height l = height r + 2 -> 0 <= balance l ->
  balanced (rot_right (Node l a k h v r)) /\
  height (rot_right (Node l a k h v r)) = if decide (balance l = 0) then height r + 3 else height r + 2.
Proof.
  destruct l as [|ll x kx hx vx lr]; cbn; intros Hl Hr He Hb; [avl_lia|].
  destruct Hl as (H1 & H2 & -> & H3). case_decide; split_and!; try done; avl_lia.
Qed.

Lemma rot_left_ok l a k h v r :
  balanced l -> balanced r -> height r = height l + 2 -> balance r <= 0 ->
  balanced (rot_left (Node l a k h v r)) /\
  height (rot_left (Node l a k h v r)) = if decide (balance r = 0) then height l + 3 else height l + 2.
Proof.
  destruct r as [|rl x kx hx vx rr]; cbn; intros Hl Hr He Hb; [avl_lia|].
  destruct Hr as (H1 & H2 & -> & H3). case_decide; split_and!; try done; avl_lia.
Qed.

Lemma rot_left_right_ok l a k h v r :
  balanced l -> balanced r -> height l = height r + 2 -> balance l < 0 ->
  balanced (rot_right (Node (rot_left l) a k h v r)) /\
  height (rot_right (Node (rot_left l) a k h v r)) = height r + 2.
Proof.
  destruct l as [|ll x kx hx vx [|A y ky hy vy B]]; cbn; intros Hl Hr He Hb; [avl_lia|avl_lia|].
  destruct Hl as (H1 & (H2 & H4 & -> & H5) & -> & H3). split_and!; try done; avl_lia.
Qed.

Lemma rot_right_left_ok l a k h v r :
  balanced l -> balanced r -> height r = height l + 2 -> 0 < balance r ->
  balanced (rot_left (Node l a k h v (rot_right r))) /\
  height (rot_left (Node l a k h v (rot_right r))) = height l + 2.
Proof.
  destruct r as [|[|A y ky hy vy B] x kx hx vx rr]; cbn; intros Hl Hr He Hb; [avl_lia|avl_lia|].
  destruct Hr as ((H2 & H4 & -> & H5) & H1 & -> & H3). split_and!; try done; avl_lia.
Qed.

(** The side the inserted key went to is the higher one when the tree grew. *)
Definition grew (key : Z) (t : tree) : Prop :=
  match t with
  | Leaf => False
  | Node l _ k _ _ r => (key < k /\ balance t = 1) \/ (k < key /\ balance t = -1)
  end.

Lemma insert_balanced key new val t :
  balanced t -> key ∉ (binds t).*1 ->
  let t' := insert_tree key new val t in
  balanced t' /\ (height t' = height t \/ height t' = height t + 1 /\ (t = Leaf \/ grew key t')).
Proof.
  induction t as [|l IHl a k h v r IHr]; intros Hb Hk.
  { split; [by cbn|]. right. split; [done|]. by left. }
  destruct Hb as (Bl & Br & -> & Hbal). cbn in Hk. rewrite fmap_app, fmap_cons in Hk.
  apply not_elem_of_app in Hk as [Kl [Kk Kr]%not_elem_of_cons]. cbn in Kk.
  specialize (IHl Bl Kl). specialize (IHr Br Kr). cbv zeta in *. cbn [insert_tree].
  destruct (Z.ltb_spec key k) as [Hlt|Hge].
  - destruct IHl as [B' Hg]. set (l' := insert_tree key new val l) in *. clearbody l'.
    unfold node. cbn [rebalance_insert balance]. destruct (Z.ltb_spec 1 (height l' - height r)) as [H2|H2].
    + destruct Hg as [|[Hg [->|Hg']]]; [avl_lia|cbn in *; avl_lia|].
      destruct l' as [|ll x kx hx vx lr]; [done|]. cbn in Hg'.
      assert (Hh : height (Node ll x kx hx vx lr) = height r + 2) by (cbn in *; avl_lia).
      destruct Hg' as [[Hx Hc]|[Hx Hc]].
      * rewrite (proj2 (Z.ltb_lt _ _)) by done.
        destruct (rot_right_ok _ a k (1 + Z.max (height (Node ll x kx hx vx lr)) (height r)) v r B' Br Hh) as [? E];
          [cbn; lia|]. rewrite E, decide_False by (cbn; lia). split; [done|]. left. cbn [height] in *. lia.
      * rewrite (proj2 (Z.ltb_ge _ _)), (proj2 (Z.ltb_lt _ _)) by lia.
        destruct (rot_left_right_ok _ a k (1 + Z.max (height (Node ll x kx hx vx lr)) (height r)) v r B' Br Hh) as [? E];
          [cbn; lia|]. rewrite E. split; [done|]. left. cbn [height] in *. lia.
    + rewrite (proj2 (Z.ltb_ge _ _)) by avl_lia. cbn [balanced height]. split; [split_and!; try done; avl_lia|].
      destruct (decide (height l' = height r + 1)); cbn [grew balance]; [|avl_lia].
      destruct Hg as [|[Hg _]]; [avl_lia|]. right. split; [avl_lia|]. right. left. lia.
  - assert (Hgt : k < key) by lia. rewrite (proj2 (Z.ltb_lt _ _)) by done.
    destruct IHr as [B' Hg]. set (r' := insert_tree key new val r) in *. clearbody r'.
    unfold node. cbn [rebalance_insert balance]. rewrite (proj2 (Z.ltb_ge 1 _)) by avl_lia.
    destruct (Z.ltb_spec (height l - height r') (-1)) as [H2|H2].
    + destruct Hg as [|[Hg [->|Hg']]]; [avl_lia|cbn in *; avl_lia|].
      destruct r' as [|rl x kx hx vx rr]; [done|]. cbn in Hg'.
      assert (Hh : height (Node rl x kx hx vx rr) = height l + 2) by (cbn in *; avl_lia).
      destruct Hg' as [[Hx Hc]|[Hx Hc]].
      * rewrite (proj2 (Z.ltb_ge _ _)), (proj2 (Z.ltb_lt _ _)) by lia.
        destruct (rot_right_left_ok l a k (1 + Z.max (height l) (height (Node rl x kx hx vx rr))) v _ Bl B' Hh) as [? E];
          [cbn; lia|]. rewrite E. split; [done|]. left. cbn [height] in *. lia.
      * rewrite (proj2 (Z.ltb_lt _ _)) by done.
        destruct (rot_left_ok l a k (1 + Z.max (height l) (height (Node rl x kx hx vx rr))) v _ Bl B' Hh) as [? E];
          [cbn; lia|]. rewrite E, decide_False by (cbn; lia). split; [done|]. left. cbn [height] in *. lia.
    + cbn [balanced height]. split; [split_and!; try done; avl_lia|].
      destruct (decide (height r' = height l + 1)); cbn [grew balance]; [|avl_lia].
      destruct Hg as [|[Hg _]]; [avl_lia|]. right. split; [avl_lia|]. right. right. lia.
Qed.

Lemma rebalance_delete_ok l a k v r :
  balanced l -> balanced r -> -2 <= height l - height r <= 2 ->
  let t := rebalance_delete (node l a k v r) in
  let m := 1 + Z.max (height l) (height r) in
  balanced t /\ m - 1 <= height t <= m /\ (-1 <= height l - height r <= 1 -> height t = m).
Proof.
  intros Bl Br Hb. cbv zeta. unfold node. cbn [rebalance_delete balance].
  destruct (Z.ltb_spec 1 (height l - height r)) as [H|H].
  - assert (Hh : height l = height r + 2) by lia. destruct (Z.leb_spec 0 (balance l)).
    + destruct (rot_right_ok l a k (1 + Z.max (height l) (height r)) v r) as [B E]; [done..|].
      rewrite E. split; [done|]. case_decide; lia.
    + destruct (rot_left_right_ok l a k (1 + Z.max (height l) (height r)) v r) as [B E]; [done..|].
      rewrite E. split; [done|]. lia.
  - destruct (Z.ltb_spec (height l - height r) (-1)) as [H'|H'].
    + assert (Hh : height r = height l + 2) by lia. destruct (Z.leb_spec (balance r) 0).
      * destruct (rot_left_ok l a k (1 + Z.max (height l) (height r)) v r) as [B E]; [done..|].
        rewrite E. split; [done|]. case_decide; lia.
      * destruct (rot_right_left_ok l a k (1 + Z.max (height l) (height r)) v r) as [B E]; [done..|].
        rewrite E. split; [done|]. lia.
    + cbn [balanced height]. split_and!; (done || lia).
Qed.

Lemma delete_balanced key t :
  balanced t -> balanced (delete_tree key t) /\
    height t - 1 <= height (delete_tree key t) <= height t.
Proof.
  revert key. induction t as [|l IHl a k h v r IHr]; intros key Hb; [by cbn|].
  destruct Hb as (Bl & Br & -> & Hbal). cbn [delete_tree height].
  specialize (IHl key Bl) as IHk. destruct (Z.ltb_spec key k).
  { destruct (rebalance_delete_ok (delete_tree key l) a k v r) as (B & H1 & H2);
      [apply IHk|done|lia|]. split; [done|lia]. }
  destruct (Z.ltb_spec k key).
  { destruct (IHr key Br) as [? ?]. destruct (rebalance_delete_ok l a k v (delete_tree key r)) as (B & G1 & G2);
      [done|done|lia|]. split; [done|lia]. }
  destruct l as [|ll la lk lh lv lr], r as [|rl ra rk rh rv rr].
  - cbn. lia.
  - destruct Br as (B1 & B2 & -> & B3).
    destruct (rebalance_delete_ok rl a rk rv rr) as (B & G1 & G2); [done|done|lia|].
    split; [done|]. cbn [height] in *. avl_lia.
  - destruct Bl as (B1 & B2 & -> & B3).
    destruct (rebalance_delete_ok ll a lk lv lr) as (B & G1 & G2); [done|done|lia|].
    split; [done|]. cbn [height] in *. avl_lia.
  - destruct (min_node _) as [[[ma mk] mv]|]; [|split; [done|cbn [height]; lia]].
    destruct (IHr mk Br).
    destruct (rebalance_delete_ok (Node ll la lk lh lv lr) a mk mv (delete_tree mk (Node rl ra rk rh rv rr)))
      as (B & G1 & G2); [done|done|lia|]. split; [done|lia].
Qed.

(** ** Order *)

Lemma ordered_node l a k h v r :
  ordered (Node l a k h v r) <->
  ordered l /\ ordered r /\ (forall x, x ∈ (binds l).*1 -> x < k) /\
  (forall x, x ∈ (binds r).*1 -> k < x).
Proof.
  unfold ordered. cbn. rewrite fmap_app, fmap_cons, StronglySorted_app. cbn. split.
  - intros (H1 & H2 & H3). apply StronglySorted_inv in H3 as [H3 H4].
    rewrite Forall_forall in H4. split_and!; try done. intros x Hx. apply H1; [done|by left].
  - intros (H1 & H2 & H3 & H4). split_and!; [|done|constructor; [done|by apply Forall_forall]].
    intros x y Hx [->|Hy]%elem_of_cons; [auto|]. pose proof (H3 _ Hx). pose proof (H4 _ Hy). lia.
Qed.

Lemma elem_of_binds_key t x v : (x, v) ∈ binds t -> x ∈ (binds t).*1.
Proof. intros H. apply (list_elem_of_fmap_2 fst) in H. done. Qed.

Lemma ordered_NoDup t : ordered t -> NoDup (binds t).*1.
Proof.
  unfold ordered. induction (binds t).*1 as [|x l IH]; intros H; [constructor|].
  apply StronglySorted_inv in H as [H1 H2]. constructor; [|auto].
  intros Hx. rewrite Forall_forall in H2. specialize (H2 x Hx). lia.
Qed.

Lemma ordered_binds t t' : binds t = binds t' -> ordered t -> ordered t'.
Proof. unfold ordered. by intros <-. Qed.

Definition contents (t : tree) : gmap Z Z := list_to_map (binds t).

Lemma contents_lookup t x v : ordered t -> contents t !! x = Some v <-> (x, v) ∈ binds t.
Proof. intros H. symmetry. apply elem_of_list_to_map. by apply ordered_NoDup. Qed.

Lemma contents_none t x : contents t !! x = None <-> x ∉ (binds t).*1.
Proof. symmetry. apply not_elem_of_list_to_map. Qed.

Lemma insert_binds key new val t :
  ordered t -> key ∉ (binds t).*1 ->
  exists l1 l2, binds t = l1 ++ l2 /\ binds (insert_tree key new val t) = l1 ++ (key, val) :: l2 /\
    (forall x, x ∈ l1.*1 -> x < key) /\ (forall x, x ∈ l2.*1 -> key < x).
Proof.
  induction t as [|l IHl a k h v r IHr]; intros Ho Hk.
  { exists [], []. split_and!; try done; intros x Hx; by apply elem_of_nil in Hx. }
  apply ordered_node in Ho as (Ol & Or & Hl & Hr). cbn in Hk. rewrite fmap_app, fmap_cons in Hk.
  apply not_elem_of_app in Hk as [Kl [Kk Kr]%not_elem_of_cons]. cbn in Kk. cbn [insert_tree binds].
  destruct (Z.ltb_spec key k).
  - destruct (IHl Ol Kl) as (l1 & l2 & E1 & E2 & H1 & H2). exists l1, (l2 ++ (k, v) :: binds r).
    rewrite binds_rebalance_insert, binds_node, E1, E2, <- !app_assoc. split_and!; try done.
    intros x. rewrite fmap_app, fmap_cons, elem_of_app, elem_of_cons. cbn.
    intros [Hx|[->|Hx]]; [auto|lia|]. specialize (Hr x Hx). lia.
  - rewrite (proj2 (Z.ltb_lt _ _)) by lia.
    destruct (IHr Or Kr) as (l1 & l2 & E1 & E2 & H1 & H2). exists (binds l ++ (k, v) :: l1), l2.
    rewrite binds_rebalance_insert, binds_node, E1, E2, <- !app_assoc. split_and!; try done.
    intros x. rewrite fmap_app, fmap_cons, elem_of_app, elem_of_cons. cbn.
    intros [Hx|[->|Hx]]; [specialize (Hl x Hx); lia|lia|auto].
Qed.

Lemma insert_ordered key new val t :
  ordered t -> key ∉ (binds t).*1 -> ordered (insert_tree key new val t).
Proof.
  intros Ho Hk. destruct (insert_binds key new val t Ho Hk) as (l1 & l2 & E1 & E2 & H1 & H2).
  unfold ordered in *. rewrite E1 in Ho. rewrite E2. rewrite fmap_app in Ho. rewrite fmap_app, fmap_cons. cbn.
  apply StronglySorted_app in Ho as (O1 & O2 & O3). apply StronglySorted_app. split_and!; [|done|].
  - intros x y Hx [->|Hy]%elem_of_cons; auto.
  - constructor; [done|]. by apply Forall_forall.
Qed.

Lemma min_node_binds t :
  match min_node t with
  | Some (a, k, v) => a ∈ addrs t /\ exists tl, binds t = (k, v) :: tl
  | None => t = Leaf
  end.
Proof.
  induction t as [|l IHl a k h v r IHr]; [done|]. cbn [min_node].
  destruct (min_node l) as [[[ma mk] mv]|]; cbn [addrs binds].
  - destruct IHl as [Ha [tl ->]]. split; [set_solver|]. by eexists.
  - subst l. split; [set_solver|]. by exists (binds r).
Qed.

Lemma filter_other key (l : list (Z * Z)) :
  (forall x, x ∈ l.*1 -> x <> key) -> filter (fun b => b.1 <> key) l = l.
Proof.
  induction l as [|[x v] l IH]; intros H; [done|]. rewrite filter_cons_True.
  - f_equal. apply IH. intros y Hy. apply H. cbn. by right.
  - apply H. cbn. by left.
Qed.

Lemma delete_binds key t :
  ordered t -> binds (delete_tree key t) = filter (fun b => b.1 <> key) (binds t).
Proof.
  revert key. induction t as [|l IHl a k h v r IHr]; intros key Ho; [done|].
  apply ordered_node in Ho as (Ol & Or & Hl & Hr). cbn [delete_tree binds]. rewrite filter_app.
  destruct (Z.ltb_spec key k).
  { rewrite binds_rebalance_delete, binds_node, IHl by done. f_equal.
    rewrite filter_cons_True, filter_other; [done| |cbn; lia]. intros x Hx. specialize (Hr x Hx). lia. }
  destruct (Z.ltb_spec k key).
  { rewrite binds_rebalance_delete, binds_node, IHr by done.
    rewrite filter_cons_True by (cbn; lia). f_equal. symmetry. apply filter_other.
    intros x Hx. specialize (Hl x Hx). lia. }
  assert (key = k) as -> by lia. rewrite filter_cons_False by (cbn; lia).
  rewrite !filter_other by (intros x Hx; (specialize (Hl x Hx) + specialize (Hr x Hx)); lia).
  destruct l as [|ll la lk lh lv lr], r as [|rl ra rk rh rv rr]; cbn [binds].
  - done.
  - by rewrite binds_rebalance_delete.
  - by rewrite binds_rebalance_delete, app_nil_r.
  - pose proof (min_node_binds (Node rl ra rk rh rv rr)) as Hm.
    destruct (min_node (Node rl ra rk rh rv rr)) as [[[ma mk] mv]|]; [|done]. destruct Hm as [_ [tl Htl]].
    rewrite binds_rebalance_delete, binds_node, IHr by done. rewrite Htl. cbn [binds] in Htl. rewrite Htl.
    rewrite filter_cons_False by (cbn; lia). do 2 f_equal. apply filter_other.
    intros x Hx. pose proof (ordered_NoDup _ Or) as Hn. cbn [binds] in Hn. rewrite Htl in Hn. cbn in Hn.
    apply NoDup_cons in Hn as [Hn _]. congruence.
Qed.

Lemma delete_ordered key t : ordered t -> ordered (delete_tree key t).
Proof.
  intros Ho. unfold ordered. rewrite delete_binds by done. unfold ordered in Ho.
  induction (binds t) as [|[x v] l IH]; [done|]. cbn in Ho. apply StronglySorted_inv in Ho as [H1 H2].
  rewrite filter_cons. case_decide; [|auto]. cbn. constructor; [auto|].
  rewrite Forall_forall in H2 |- *. intros y Hy. apply H2.
  apply list_elem_of_fmap in Hy as (b & -> & [_ Hb]%list_elem_of_filter). by apply list_elem_of_fmap_2.
Qed.

Lemma delete_contents key t : ordered t -> contents (delete_tree key t) = delete key (contents t).
Proof.
  intros Ho. apply map_eq. intros x. apply option_eq. intros v.
  rewrite lookup_delete_Some, !contents_lookup, delete_binds by auto using delete_ordered.
  rewrite list_elem_of_filter. cbn. split; intros [? ?]; split; congruence || done.
Qed.

(** ** Depth *)

(** A balanced tree of height [h] has at least [2^(h/2) - 1] nodes. *)
Lemma balanced_depth t :
  balanced t -> 2 ^ height t <= (Z.of_nat (length (binds t)) + 1) ^ 2.
Proof.
  induction t as [|l IHl a k h v r IHr]; cbn [balanced height binds]; [cbn; lia|].
  intros (Bl & Br & -> & Hb). specialize (IHl Bl). specialize (IHr Br).
  pose proof (height_nonneg l Bl). pose proof (height_nonneg r Br).
  rewrite length_app. cbn [length].
  set (x := Z.of_nat (length (binds l)) + 1) in *. set (y := Z.of_nat (length (binds r)) + 1) in *.
  replace (Z.of_nat (length (binds l) + S (length (binds r))) + 1) with (x + y) by lia.
  destruct (decide (1 + Z.max (height l) (height r) = 1)) as [E|E].
  { rewrite E. change (2 ^ 1) with 2. assert (1 <= x /\ 1 <= y) by lia. nia. }
  set (m := Z.max (height l) (height r) - 1). assert (0 <= m) by lia.
  assert (Hx : 2 ^ m <= x ^ 2) by (etrans; [apply (Z.pow_le_mono_r 2 m (height l)); lia|done]).
  assert (Hy : 2 ^ m <= y ^ 2) by (etrans; [apply (Z.pow_le_mono_r 2 m (height r)); lia|done]).
  replace (1 + Z.max (height l) (height r)) with (m + 2) by lia. rewrite Z.pow_add_r by lia.
  change (2 ^ 2) with 4. assert (1 <= x /\ 1 <= y) by lia.
  destruct (Z.le_ge_cases x y); nia.
Qed.

(** ** Changing the value of one node *)

Fixpoint set_at (a w : Z) (t : tree) : tree :=
  match t with
  | Leaf => Leaf
  | Node l b k ht v r => Node (set_at a w l) b k ht (if b =? a then w else v) (set_at a w r)
  end.

Lemma height_set_at a w t : height (set_at a w t) = height t.
Proof. by destruct t. Qed.
Lemma root_set_at a w t : root (set_at a w t) = root t.
Proof. by destruct t. Qed.
Lemma balance_set_at a w t : balance (set_at a w t) = balance t.
Proof. destruct t; cbn; [done|]. by rewrite !height_set_at. Qed.

Lemma set_at_node a w l b k v r :
  set_at a w (node l b k v r) = node (set_at a w l) b k (if b =? a then w else v) (set_at a w r).
Proof. unfold node. cbn. by rewrite !height_set_at. Qed.

Lemma set_at_rot_right a w t : set_at a w (rot_right t) = rot_right (set_at a w t).
Proof. destruct t as [|[|A x kx hx vx B] y ky hy vy C]; [done..|]. cbn [rot_right set_at]. by rewrite !set_at_node. Qed.
Lemma set_at_rot_left a w t : set_at a w (rot_left t) = rot_left (set_at a w t).
Proof. destruct t as [|A x kx hx vx [|B y ky hy vy C]]; [done..|]. cbn [rot_left set_at]. by rewrite !set_at_node. Qed.

Lemma set_at_rebalance a w key t :
  set_at a w (rebalance_insert key t) = rebalance_insert key (set_at a w t).
Proof.
  destruct t as [|l b k h v r]; [done|].
  transitivity (rebalance_insert key (set_at a w (Node l b k h v r))); [|done].
  cbn [rebalance_insert set_at balance]. rewrite !height_set_at.
  destruct (1 <? height l - height r), (height l - height r <? -1); try done.
  1,2: destruct l as [|ll x kx hx vx lr]; [done|]; cbn [set_at]; destruct (key <? kx), (kx <? key); try done;
    rewrite set_at_rot_right; cbn [set_at]; by rewrite ?set_at_rot_left.
  destruct r as [|rl x kx hx vx rr]; [done|]; cbn [set_at]; destruct (key <? kx), (kx <? key); try done;
    rewrite set_at_rot_left; cbn [set_at]; by rewrite ?set_at_rot_right.
Qed.

Lemma set_at_other a w t : a ∉ addrs t -> set_at a w t = t.
Proof.
  induction t as [|l IHl b k h v r IHr]; cbn; [done|]. rewrite not_elem_of_cons, not_elem_of_app.
  intros (Hb & Hl & Hr). rewrite IHl, IHr by done. by rewrite (proj2 (Z.eqb_neq _ _)).
Qed.

Lemma set_at_insert key new v w t :
  new ∉ addrs t -> set_at new w (insert_tree key new v t) = insert_tree key new w t.
Proof.
  induction t as [|l IHl b k h u r IHr]; cbn [insert_tree addrs]; intros Hn; [cbn; by rewrite Z.eqb_refl|].
  apply not_elem_of_cons in Hn as [Hb [Hl Hr]%not_elem_of_app].
  assert (Eb : (b =? new) = false) by (apply Z.eqb_neq; congruence).
  destruct (key <? k); [|destruct (k <? key)].
  - by rewrite set_at_rebalance, set_at_node, IHl, Eb, (set_at_other _ _ r).
  - by rewrite set_at_rebalance, set_at_node, IHr, Eb, (set_at_other _ _ l).
  - cbn. by rewrite Eb, !set_at_other.
Qed.

Lemma insert_contents key new val t :
  ordered t -> key ∉ (binds t).*1 ->
  contents (insert_tree key new val t) = <[key := val]> (contents t).
Proof.
  intros Ho Hk. destruct (insert_binds key new val t Ho Hk) as (l1 & l2 & E1 & E2 & _).
  unfold contents. rewrite E1, E2. rewrite (list_to_map_proper _ ((key, val) :: l1 ++ l2)); [done| |].
  - rewrite <- E2. apply ordered_NoDup, insert_ordered; done.
  - symmetry. apply Permutation_middle.
Qed.

(** ** Search *)

Lemma contents_node l a k h v r key :
  ordered (Node l a k h v r) ->
  contents (Node l a k h v r) !! key =
    if k <? key then contents r !! key else if key <? k then contents l !! key else Some v.
Proof.
  intros Ho. pose proof Ho as (Ol & Or & Hl & Hr)%ordered_node. apply option_eq. intros w.
  rewrite contents_lookup by done. cbn. rewrite elem_of_app, elem_of_cons.
  assert (Hbl : forall w', (key, w') ∈ binds l -> key < k) by (intros ? H%elem_of_binds_key; auto).
  assert (Hbr : forall w', (key, w') ∈ binds r -> k < key) by (intros ? H%elem_of_binds_key; auto).
  destruct (Z.ltb_spec k key); [|destruct (Z.ltb_spec key k)].
  - rewrite contents_lookup by done. split; [|by right; right].
    intros [H'|[[=]|]]; [apply Hbl in H'; lia|lia|done].
  - rewrite contents_lookup by done. split; [|by left].
    intros [|[[=]|H']]; [done|lia|apply Hbr in H'; lia].
  - assert (key = k) as -> by lia. split; [|by intros [= ->]; right; left].
    intros [H'|[[= ->]|H']]; [apply Hbl in H'; lia|done|apply Hbr in H'; lia].
Qed.

Lemma height_size t : balanced t -> height t <= Z.of_nat (length (addrs t)).
Proof.
  induction t as [|l IHl a k h v r IHr]; cbn; [done|]. intros (Bl & Br & -> & _).
  rewrite length_app. specialize (IHl Bl). specialize (IHr Br). lia.
Qed.

Lemma length_binds t : length (binds t) = length (addrs t).
Proof. induction t as [|l IHl a k h v r IHr]; cbn; [done|]. rewrite !length_app. cbn. lia. Qed.

(** What [AVLUnregister] reports says whether the key was there, when no stored
    value is 0. *)
Lemma freed_value_found key t :
  ordered t -> (forall x v, (x, v) ∈ binds t -> v <> 0) ->
  freed_value key t <> 0 <-> key ∈ (binds t).*1.
Proof.
  revert key. induction t as [|l IHl a k h v r IHr]; intros key Ho Hv; [cbn; set_solver|].
  apply ordered_node in Ho as (Ol & Or & Hl & Hr).
  assert (Vl : forall x v, (x, v) ∈ binds l -> v <> 0)
    by (intros x w Hw; apply (Hv x); cbn; apply elem_of_app; by left).
  assert (Vr : forall x v, (x, v) ∈ binds r -> v <> 0)
    by (intros x w Hw; apply (Hv x); cbn; apply elem_of_app; right; by right).
  assert (Vk : v <> 0) by (apply (Hv k); cbn; apply elem_of_app; right; by left).
  cbn [freed_value binds]. rewrite fmap_app, fmap_cons, elem_of_app, elem_of_cons. cbn [fst].
  destruct (Z.ltb_spec key k).
  { rewrite IHl by done. split; [by left|]. intros [?|[?|Hx]]; [done|lia|]. specialize (Hr _ Hx). lia. }
  destruct (Z.ltb_spec k key).
  { rewrite IHr by done. split; [by right; right|]. intros [Hx|[?|?]]; [specialize (Hl _ Hx); lia|lia|done]. }
  split; [intros _; right; left; lia|]. intros _.
  destruct l as [|ll la lk lh lv lr], r as [|rl ra rk rh rv rr].
  - done.
  - apply (Vr rk). cbn. apply elem_of_app. right. by left.
  - apply (Vl lk). cbn. apply elem_of_app. right. by left.
  - pose proof (min_node_binds (Node rl ra rk rh rv rr)) as Hm.
    destruct (min_node (Node rl ra rk rh rv rr)) as [[[ma mk] mv]|]; [|done]. destruct Hm as [_ [tl Htl]].
    apply IHr; [done|done|]. rewrite Htl. cbn. by left.
Qed.
