(* ===== verification/Avl.v ===== *)
(** * The AVL tree of the kernel ([utility/avl_tree.cpp])

    Nodes are [AVLheader] structures in a heap.  The routines follow the source
    pointer by pointer; [rep h t] says that the heap holds the tree [t], and
    every routine is shown to compute the function of the same purpose in
    [AvlTree] and to touch no other address.  [avl_map] is the contract: the
    pointer is a finite map from keys to values. *)

From S2P Require Import Prelude Heap AvlTree.

Record AVLheader := mkAvl {
  a_key : Z;
  a_left : Z;
  a_right : Z;
  a_height : Z;
  a_value : Z;
}.

Definition set_left (p : Z) (n : AVLheader) : AVLheader :=
  mkAvl (a_key n) p (a_right n) (a_height n) (a_value n).
Definition set_right (p : Z) (n : AVLheader) : AVLheader :=
  mkAvl (a_key n) (a_left n) p (a_height n) (a_value n).
Definition set_height (x : Z) (n : AVLheader) : AVLheader :=
  mkAvl (a_key n) (a_left n) (a_right n) x (a_value n).
Definition set_value (v : Z) (n : AVLheader) : AVLheader :=
  mkAvl (a_key n) (a_left n) (a_right n) (a_height n) v.
Definition set_key_value (k v : Z) (n : AVLheader) : AVLheader :=
  mkAvl k (a_left n) (a_right n) (a_height n) v.

#[local] Abbreviation heap := (gmap Z AVLheader).

Section operations.
Context `{!Allocator AVLheader}.

Definition CALC_HEIGHT (p : Z) : M heap Z :=
  if p =? 0 then ret 0 else let! n := deref p in ret (a_height n).
Definition CALC_BALANCE (p : Z) : M heap Z :=
  if p =? 0 then ret 0
  else
    let! n := deref p in
    let! hl := CALC_HEIGHT (a_left n) in
    let! hr := CALC_HEIGHT (a_right n) in
    ret (hl - hr).

(** [p->height = MAX(CALC_HEIGHT(p->left), CALC_HEIGHT(p->right)) + 1] *)
Definition update_height (p : Z) : M heap unit :=
  let! n := deref p in
  let! hl := CALC_HEIGHT (a_left n) in
  let! hr := CALC_HEIGHT (a_right n) in
  update p (set_height (1 + Z.max hl hr)).

Definition AVLAllocateNode (key : Z) : M heap Z := allocate (mkAvl key 0 0 1 0).

Definition AVLRotationsRight (y : Z) : M heap Z :=
  let! Y := deref y in
  let x := a_left Y in
  let! X := deref x in
  let T2 := a_right X in
  update x (set_right y) ;;;
  update y (set_left T2) ;;;
  update_height y ;;;
  update_height x ;;;
  ret x.

Definition AVLRotationsLeft (x : Z) : M heap Z :=
  let! X := deref x in
  let y := a_right X in
  let! Y := deref y in
  let T2 := a_left Y in
  update y (set_left x) ;;;
  update x (set_right T2) ;;;
  update_height x ;;;
  update_height y ;;;
  ret y.

Fixpoint AVLMinKeyNode (fuel : nat) (browse : Z) : M heap Z :=
  match fuel with
  | O => hang
  | S fuel =>
      if browse =? 0 then ret browse
      else
        let! n := deref browse in
        if negb (a_left n =? 0) then AVLMinKeyNode fuel (a_left n) else ret browse
  end.

(** Steps 3 of [AVLAllocateL] and of [AVLUnregisterL]. *)
Definition rebalance_after_insert (node key : Z) : M heap Z :=
  let! balance := CALC_BALANCE node in
  let! n := deref node in
  if 1 <? balance then
    let! l := deref (a_left n) in
    if key <? a_key l then AVLRotationsRight node
    else if a_key l <? key then
      let! l' := AVLRotationsLeft (a_left n) in
      update node (set_left l') ;;;
      AVLRotationsRight node
    else ret node
  else if balance <? -1 then
    let! r := deref (a_right n) in
    if a_key r <? key then AVLRotationsLeft node
    else if key <? a_key r then
      let! r' := AVLRotationsRight (a_right n) in
      update node (set_right r') ;;;
      AVLRotationsLeft node
    else ret node
  else ret node.

Definition rebalance_after_delete (root : Z) : M heap Z :=
  let! balance := CALC_BALANCE root in
  let! n := deref root in
  if 1 <? balance then
    let! bl := CALC_BALANCE (a_left n) in
    if 0 <=? bl then AVLRotationsRight root
    else
      let! l' := AVLRotationsLeft (a_left n) in
      update root (set_left l') ;;;
      AVLRotationsRight root
  else if balance <? -1 then
    let! br := CALC_BALANCE (a_right n) in
    if br <=? 0 then AVLRotationsLeft root
    else
      let! r' := AVLRotationsRight (a_right n) in
      update root (set_right r') ;;;
      AVLRotationsLeft root
  else ret root.

(** [*target] is passed in and returned beside the node. *)
Fixpoint AVLAllocateL (fuel : nat) (node key target : Z) : M heap (Z * Z) :=
  match fuel with
  | O => hang
  | S fuel =>
      if node =? 0 then
        let! actual := AVLAllocateNode key in
        kassert (target =? 0) ;;;
        ret (actual, actual)
      else
        let! n := deref node in
        let! target :=
          if key <? a_key n then
            let! (l, t) := AVLAllocateL fuel (a_left n) key target in
            update node (set_left l) ;;; ret t
          else if a_key n <? key then
            let! (r, t) := AVLAllocateL fuel (a_right n) key target in
            update node (set_right r) ;;; ret t
          else halt in
        update_height node ;;;
        let! p := rebalance_after_insert node key in
        ret (p, target)
  end.

(** The case of at most one child: the child's contents move into the node. *)
Definition unlink_node (root : Z) (n : AVLheader) (target : Z) : M heap (Z * Z) :=
  let temp := if negb (a_left n =? 0) then a_left n else a_right n in
  let! (root, temp) :=
    if temp =? 0 then ret (0, root)
    else
      let! c := deref temp in
      update root (fun _ => c) ;;; ret (root, temp) in
  kassert (target =? 0) ;;;
  let! c := deref temp in
  dispose temp ;;;
  ret (root, a_value c).

Fixpoint AVLUnregisterL (fuel : nat) (root key target : Z) : M heap (Z * Z) :=
  match fuel with
  | O => hang
  | S fuel =>
      if root =? 0 then ret (root, target)
      else
        let! n := deref root in
        let! (root, target) :=
          if key <? a_key n then
            let! (l, t) := AVLUnregisterL fuel (a_left n) key target in
            update root (set_left l) ;;; ret (root, t)
          else if a_key n <? key then
            let! (r, t) := AVLUnregisterL fuel (a_right n) key target in
            update root (set_right r) ;;; ret (root, t)
          else if (a_left n =? 0) || (a_right n =? 0) then
            unlink_node root n target
          else
            let! temp := AVLMinKeyNode fuel (a_right n) in
            let! m := deref temp in
            update root (set_key_value (a_key m) (a_value m)) ;;;
            let! (r, t) := AVLUnregisterL fuel (a_right n) (a_key m) target in
            update root (set_right r) ;;; ret (root, t) in
        if root =? 0 then ret (root, target)
        else
          update_height root ;;;
          let! p := rebalance_after_delete root in
          ret (p, target)
  end.

(** The recursion is at most as deep as the tree has nodes. *)
Definition avl_fuel (h : heap) : nat := S (size h).

(** The variable [*AVLfirstPtr] is passed in and returned. *)
Definition AVLAllocate (first key value : Z) : M heap (Z * Z) :=
  let! fuel := gets avl_fuel in
  let! (first, target) := AVLAllocateL fuel first key 0 in
  kassert (negb (target =? 0)) ;;;
  update target (set_value value) ;;;
  ret (first, target).

Definition AVLUnregister (first key : Z) : M heap (Z * bool) :=
  let! fuel := gets avl_fuel in
  let! (first, target) := AVLUnregisterL fuel first key 0 in
  ret (first, negb (target =? 0)).

Fixpoint avl_lookup (fuel : nat) (root key : Z) : M heap Z :=
  match fuel with
  | O => hang
  | S fuel =>
      if root =? 0 then ret 0
      else
        let! n := deref root in
        if a_key n <? key then avl_lookup fuel (a_right n) key
        else if key <? a_key n then avl_lookup fuel (a_left n) key
        else ret (a_value n)
  end.
Definition AVLLookup (root key : Z) : M heap Z :=
  let! fuel := gets avl_fuel in avl_lookup fuel root key.

(** [callback] reads the node and updates the context it is given. *)
Fixpoint avl_traverse {C} (fuel : nat) (root : Z) (callback : AVLheader -> C -> C) (ctx : C)
    : M heap C :=
  match fuel with
  | O => hang
  | S fuel =>
      if root =? 0 then ret ctx
      else
        let! n := deref root in
        let! ctx := avl_traverse fuel (a_left n) callback ctx in
        let! n := deref root in
        let ctx := callback n ctx in
        let! n := deref root in
        avl_traverse fuel (a_right n) callback ctx
  end.
Definition AVLTraverse {C} (root : Z) (callback : AVLheader -> C -> C) (ctx : C) : M heap C :=
  let! fuel := gets avl_fuel in avl_traverse fuel root callback ctx.

End operations.

(** ** The heap holds a tree *)

Fixpoint rep (h : heap) (t : tree) : Prop :=
  match t with
  | Leaf => True
  | Node l a k ht v r =>
      a <> 0 /\ h !! a = Some (mkAvl k (root l) (root r) ht v) /\ rep h l /\ rep h r
  end.

Lemma rep_frame h h' t : (forall b, b ∈ addrs t -> h' !! b = h !! b) -> rep h t -> rep h' t.
Proof.
  induction t as [|l IHl a k ht v r IHr]; cbn; [done|]. intros E (Ha & Hn & Hl & Hr).
  split_and!; [done| |apply IHl|apply IHr]; try done.
  - rewrite E; [done|by left].
  - intros b Hb. apply E. right. apply elem_of_app. by left.
  - intros b Hb. apply E. right. apply elem_of_app. by right.
Qed.

Lemma rep_insert h t a n : a ∉ addrs t -> rep h t -> rep (<[a := n]> h) t.
Proof. intros Ha. apply rep_frame. intros b Hb. apply lookup_insert_ne. congruence. Qed.

Lemma rep_delete h t a : a ∉ addrs t -> rep h t -> rep (delete a h) t.
Proof. intros Ha. apply rep_frame. intros b Hb. apply lookup_delete_ne. congruence. Qed.

Lemma rep_nonnull h t : rep h t -> 0 ∉ addrs t.
Proof.
  induction t as [|l IHl a k ht v r IHr]; cbn; [set_solver|]. intros (Ha & _ & Hl & Hr).
  rewrite elem_of_cons, elem_of_app. naive_solver.
Qed.

Lemma rep_root h t : rep h t -> (root t = 0 <-> t = Leaf).
Proof. destruct t; cbn; [done|]. intros (Ha & _). split; done. Qed.

(** The nodes of a subtree are distinct from each other and from the root. *)
Lemma addrs_node l a k ht v r :
  NoDup (addrs (Node l a k ht v r)) <->
  (a ∉ addrs l) /\ (a ∉ addrs r) /\ NoDup (addrs l) /\ NoDup (addrs r) /\
  (forall b, b ∈ addrs l -> ~ (b ∈ addrs r)).
Proof.
  cbn. rewrite NoDup_cons, NoDup_app, not_elem_of_app. naive_solver.
Qed.

(** [m] turns the tree [t] into [t'], keeping its addresses and all others. *)
Definition turns (m : M heap Z) (h : heap) (t t' : tree) : Prop :=
  exists h', m h = Ok (root t', h') /\ rep h' t' /\ addrs t' ≡ₚ addrs t /\
    forall b, b ∉ addrs t -> h' !! b = h !! b.

Lemma calc_height_ok h t : rep h t -> CALC_HEIGHT (root t) h = Ok (height t, h).
Proof.
  destruct t as [|l a k ht v r]; cbn; [done|]. intros (Ha & Hn & _). unfold CALC_HEIGHT.
  rewrite (proj2 (Z.eqb_neq _ _)) by done. by hderef.
Qed.

Lemma calc_balance_ok h t : rep h t -> CALC_BALANCE (root t) h = Ok (balance t, h).
Proof.
  destruct t as [|l a k ht v r]; cbn; [done|]. intros (Ha & Hn & Hl & Hr). unfold CALC_BALANCE.
  rewrite (proj2 (Z.eqb_neq _ _)) by done. hderef. cbn.
  mstep calc_height_ok. by mstep calc_height_ok.
Qed.

(** [update_height] makes the height field of the root exact. *)
Lemma update_height_ok h l a k ht v r :
  rep h (Node l a k ht v r) -> a ∉ addrs l -> a ∉ addrs r ->
  let h' := <[a := mkAvl k (root l) (root r) (1 + Z.max (height l) (height r)) v]> h in
  update_height a h = Ok (tt, h') /\ rep h' (node l a k v r).
Proof.
  intros (Ha & Hn & Hl & Hr) Al Ar. split.
  - unfold update_height. hderef. cbn. mstep calc_height_ok. mstep calc_height_ok.
    by rewrite (update_ok _ _ _ _ Ha Hn).
  - cbn. split_and!; [done|apply lookup_insert_eq|by apply rep_insert..].
Qed.

Lemma rotate_right_ok h A x kx hx vx B y ky hy vy C :
  let t := Node (Node A x kx hx vx B) y ky hy vy C in
  rep h t -> NoDup (addrs t) -> turns (AVLRotationsRight y) h t (rot_right t).
Proof.
  intros t (Hy & Ny & (Hx & Nx & RA & RB) & RC) Hd.
  apply addrs_node in Hd as (Y1 & Y2 & Dx & DC & Hsep). apply addrs_node in Dx as (X1 & X2 & DA & DB & HAB).
  cbn [addrs] in Y1. apply not_elem_of_cons in Y1 as [Nyx [YA YB]%not_elem_of_app].
  assert (XC : x ∉ addrs C) by (apply Hsep; cbn; by left).
  cbn [root] in *. unfold turns, AVLRotationsRight.
  hderef. cbn. hderef. cbn. hupdate. cbn.
  erewrite bind_ok by (apply update_ok; [done|by rewrite lookup_insert_ne]). cbn.
  set (h1 := <[y := mkAvl ky (root B) (root C) hy vy]> (<[x := mkAvl kx (root A) y hx vx]> h)).
  destruct (update_height_ok h1 B y ky hy vy C) as [E1 R1]; [|done|done|].
  { split_and!; [done|apply lookup_insert_eq|..]; by repeat apply rep_insert. }
  mrw E1. set (h2 := <[y := mkAvl ky (root B) (root C) (1 + Z.max (height B) (height C)) vy]> h1) in *.
  destruct (update_height_ok h2 A x kx hx vx (node B y ky vy C)) as [E2 R2].
  { split_and!; [done| |by repeat apply rep_insert|done]. unfold h2, h1.
    rewrite !lookup_insert_ne by done. by rewrite lookup_insert_eq. }
  { done. }
  { cbn. rewrite not_elem_of_cons, not_elem_of_app. done. }
  mrw E2. eexists. split; [done|]. split; [done|]. split.
  - cbn. solve_Permutation.
  - intros b Hb. cbn in Hb. repeat (apply not_elem_of_cons in Hb as [? Hb] || apply not_elem_of_app in Hb as [? Hb]).
    unfold h2, h1. by rewrite !lookup_insert_ne.
Qed.

Lemma rotate_left_ok h A x kx hx vx B y ky hy vy C :
  let t := Node A x kx hx vx (Node B y ky hy vy C) in
  rep h t -> NoDup (addrs t) -> turns (AVLRotationsLeft x) h t (rot_left t).
Proof.
  intros t (Hx & Nx & RA & (Hy & Ny & RB & RC)) Hd.
  apply addrs_node in Hd as (X1 & X2 & DA & Dy & Hsep). apply addrs_node in Dy as (YB & YC & DB & DC & HBC).
  cbn [addrs] in X2. apply not_elem_of_cons in X2 as [Nxy [XB XC]%not_elem_of_app].
  assert (YA : y ∉ addrs A) by (intros HA; apply (Hsep y HA); cbn; by left).
  cbn [root] in *. unfold turns, AVLRotationsLeft.
  hderef. cbn. hderef. cbn. hupdate. cbn.
  erewrite bind_ok by (apply update_ok; [done|by rewrite lookup_insert_ne]). cbn.
  set (h1 := <[x := mkAvl kx (root A) (root B) hx vx]> (<[y := mkAvl ky x (root C) hy vy]> h)).
  destruct (update_height_ok h1 A x kx hx vx B) as [E1 R1]; [|done|done|].
  { split_and!; [done|apply lookup_insert_eq|..]; by repeat apply rep_insert. }
  mrw E1. set (h2 := <[x := mkAvl kx (root A) (root B) (1 + Z.max (height A) (height B)) vx]> h1) in *.
  destruct (update_height_ok h2 (node A x kx vx B) y ky hy vy C) as [E2 R2].
  { split_and!; [done| |done|by repeat apply rep_insert]. unfold h2, h1.
    rewrite !lookup_insert_ne by done. by rewrite lookup_insert_eq. }
  { cbn. rewrite not_elem_of_cons, not_elem_of_app. done. }
  { done. }
  mrw E2. eexists. split; [done|]. split; [done|]. split.
  - cbn. solve_Permutation.
  - intros b Hb. cbn in Hb. repeat (apply not_elem_of_cons in Hb as [? Hb] || apply not_elem_of_app in Hb as [? Hb]).
    unfold h2, h1. by rewrite !lookup_insert_ne.
Qed.

(** Hanging another left or right subtree below a node. *)
Section replace.
Context (h : heap) (l : tree) (a k ht v : Z) (r : tree).
Context (R : rep h (Node l a k ht v r)) (h1 : heap) (Ha : h1 !! a = h !! a).

Lemma replace_left_ok l' :
  rep h1 l' -> (forall b, b ∈ addrs r -> h1 !! b = h !! b) -> a ∉ addrs l' -> a ∉ addrs r ->
  let h2 := <[a := mkAvl k (root l') (root r) ht v]> h1 in
  update a (set_left (root l')) h1 = Ok (tt, h2) /\ rep h2 (Node l' a k ht v r).
Proof using R Ha.
  intros R' Hr Al Ar. destruct R as (Na & Hn & Rl & Rr). split.
  - by erewrite update_ok by (try done; by rewrite Ha).
  - split_and!; [done|apply lookup_insert_eq|by apply rep_insert|]. apply rep_insert; [done|].
    by apply (rep_frame h).
Qed.

Lemma replace_right_ok r' :
  rep h1 r' -> (forall b, b ∈ addrs l -> h1 !! b = h !! b) -> a ∉ addrs r' -> a ∉ addrs l ->
  let h2 := <[a := mkAvl k (root l) (root r') ht v]> h1 in
  update a (set_right (root r')) h1 = Ok (tt, h2) /\ rep h2 (Node l a k ht v r').
Proof using R Ha.
  intros R' Hl Ar Al. destruct R as (Na & Hn & Rl & Rr). split.
  - by erewrite update_ok by (try done; by rewrite Ha).
  - split_and!; [done|apply lookup_insert_eq| |by apply rep_insert]. apply rep_insert; [done|].
    by apply (rep_frame h).
Qed.
End replace.

(** A turned subtree, then a rotation of the whole: the double rotations. *)
Lemma turn_left_then h (m m' : M heap Z) l a k ht v r l' t' :
  rep h (Node l a k ht v r) -> NoDup (addrs (Node l a k ht v r)) ->
  turns m h l l' ->
  (forall h2, rep h2 (Node l' a k ht v r) -> turns m' h2 (Node l' a k ht v r) t') ->
  turns (let! p := m in update a (set_left p) ;;; m') h (Node l a k ht v r) t'.
Proof.
  intros R Hd (h1 & E1 & R1 & P1 & F1) H. apply addrs_node in Hd as (Al & Ar & Dl & Dr & Hsep).
  destruct (replace_left_ok h l a k ht v r R h1 (F1 a Al) l') as [E2 R2]; [done| | |done|].
  { intros b Hb. apply F1. intros Hbl. by apply (Hsep b). }
  { by rewrite P1. }
  destruct (H _ R2) as (h3 & E3 & R3 & P3 & F3). exists h3. split; [mrw E1; by mrw E2|]. split; [done|].
  split; [rewrite P3; cbn; by rewrite P1|]. intros b Hb. cbn in Hb.
  rewrite F3 by (cbn; by rewrite P1). apply not_elem_of_cons in Hb as [Hba Hb]. apply not_elem_of_app in Hb as [Hb _].
  rewrite lookup_insert_ne by done. by apply F1.
Qed.

Lemma turn_right_then h (m m' : M heap Z) l a k ht v r r' t' :
  rep h (Node l a k ht v r) -> NoDup (addrs (Node l a k ht v r)) ->
  turns m h r r' ->
  (forall h2, rep h2 (Node l a k ht v r') -> turns m' h2 (Node l a k ht v r') t') ->
  turns (let! p := m in update a (set_right p) ;;; m') h (Node l a k ht v r) t'.
Proof.
  intros R Hd (h1 & E1 & R1 & P1 & F1) H. apply addrs_node in Hd as (Al & Ar & Dl & Dr & Hsep).
  destruct (replace_right_ok h l a k ht v r R h1 (F1 a Ar) r') as [E2 R2]; [done| | |done|].
  { intros b Hb. apply F1. intros Hbl. by apply (Hsep b). }
  { by rewrite P1. }
  destruct (H _ R2) as (h3 & E3 & R3 & P3 & F3). exists h3. split; [mrw E1; by mrw E2|]. split; [done|].
  split; [rewrite P3; cbn; by rewrite P1|]. intros b Hb. cbn in Hb.
  rewrite F3 by (cbn; by rewrite P1). apply not_elem_of_cons in Hb as [Hba Hb]. apply not_elem_of_app in Hb as [_ Hb].
  rewrite lookup_insert_ne by done. by apply F1.
Qed.

Lemma addrs_rot_left t : addrs (rot_left t) ≡ₚ addrs t.
Proof. destruct t as [|A x kx hx vx [|B y ky hy vy C]]; cbn; [done..|]. solve_Permutation. Qed.
Lemma addrs_rot_right t : addrs (rot_right t) ≡ₚ addrs t.
Proof. destruct t as [|[|A x kx hx vx B] y ky hy vy C]; cbn; [done..|]. solve_Permutation. Qed.

Section double.
Context (h : heap) (l : tree) (a k ht v : Z) (r : tree).
Let t := Node l a k ht v r.
Context (R : rep h t) (Hd : NoDup (addrs t)).

Lemma right_ok : l <> Leaf -> turns (AVLRotationsRight a) h t (rot_right t).
Proof using R Hd. intros Hl. destruct l as [|A x kx hx vx B]; [done|]. by apply rotate_right_ok. Qed.
Lemma left_ok : r <> Leaf -> turns (AVLRotationsLeft a) h t (rot_left t).
Proof using R Hd. intros Hr. destruct r as [|B y ky hy vy C]; [done|]. by apply rotate_left_ok. Qed.

Lemma left_right_ok A x kx hx vx B :
  l = Node A x kx hx vx B -> B <> Leaf ->
  turns (let! p := AVLRotationsLeft x in update a (set_left p) ;;; AVLRotationsRight a) h t
    (rot_right (Node (rot_left l) a k ht v r)).
Proof using R Hd.
  intros El HB. assert (Hnd : NoDup (addrs (Node (rot_left l) a k ht v r))).
  { cbn. rewrite addrs_rot_left. exact Hd. }
  apply turn_left_then with (l' := rot_left l); [done|done| |].
  - destruct R as (_ & _ & Rl & _). apply addrs_node in Hd as (_ & _ & Dl & _). rewrite El in *.
    destruct B; [done|]. by apply rotate_left_ok.
  - intros h2 R2. rewrite El in *. destruct B as [|B1 y ky hy vy B2]; [done|]. by apply rotate_right_ok.
Qed.

Lemma right_left_ok A x kx hx vx B :
  r = Node A x kx hx vx B -> A <> Leaf ->
  turns (let! p := AVLRotationsRight x in update a (set_right p) ;;; AVLRotationsLeft a) h t
    (rot_left (Node l a k ht v (rot_right r))).
Proof using R Hd.
  intros Er HA. assert (Hnd : NoDup (addrs (Node l a k ht v (rot_right r)))).
  { cbn. rewrite addrs_rot_right. exact Hd. }
  apply turn_right_then with (r' := rot_right r); [done|done| |].
  - destruct R as (_ & _ & _ & Rr). apply addrs_node in Hd as (_ & _ & _ & Dr & _). rewrite Er in *.
    destruct A; [done|]. by apply rotate_right_ok.
  - intros h2 R2. rewrite Er in *. destruct A as [|A1 y ky hy vy A2]; [done|]. by apply rotate_left_ok.
Qed.

End double.

(** Shapes on which the cases after an insertion or a deletion find the nodes
    they rotate. *)
Definition insert_shape (key : Z) (t : tree) : Prop :=
  match t with
  | Leaf => False
  | Node l _ _ _ _ r =>
      (1 < balance t ->
         match l with Leaf => False | Node _ _ lk _ _ lr => lk < key -> lr <> Leaf end) /\
      (balance t < -1 ->
         match r with Leaf => False | Node rl _ rk _ _ _ => key < rk -> rl <> Leaf end)
  end.
Definition delete_shape (t : tree) : Prop :=
  match t with
  | Leaf => False
  | Node l _ _ _ _ r =>
      (1 < balance t ->
         match l with Leaf => False | Node _ _ _ _ _ lr => balance l < 0 -> lr <> Leaf end) /\
      (balance t < -1 ->
         match r with Leaf => False | Node rl _ _ _ _ _ => 0 < balance r -> rl <> Leaf end)
  end.

Lemma rebalance_after_insert_ok key h t :
  rep h t -> NoDup (addrs t) -> insert_shape key t ->
  turns (rebalance_after_insert (root t) key) h t (rebalance_insert key t).
Proof.
  destruct t as [|l a k ht v r]; [done|]. intros R Hd [S1 S2]. unfold rebalance_after_insert, turns.
  mgo calc_balance_ok; [|done]. pose proof R as (Ha & Hn & Rl & Rr). hderef. cbn [a_left a_right].
  cbn [rebalance_insert]. set (b := balance _) in *.
  destruct (Z.ltb_spec 1 b) as [H1|H1]; [|destruct (Z.ltb_spec b (-1)) as [H2|H2]].
  - specialize (S1 H1). destruct l as [|A x kx hx vx B]; [done|].
    destruct Rl as (Hx & Nx & RA & RB). hderef. cbn [a_key root].
    destruct (Z.ltb_spec key kx); [by apply right_ok|].
    destruct (Z.ltb_spec kx key); [|by exists h].
    eapply left_right_ok; [done..|auto].
  - specialize (S2 H2). destruct r as [|A x kx hx vx B]; [done|].
    destruct Rr as (Hx & Nx & RA & RB). hderef. cbn [a_key root].
    destruct (Z.ltb_spec kx key); [by apply left_ok|].
    destruct (Z.ltb_spec key kx); [|by exists h].
    eapply right_left_ok; [done..|auto].
  - by exists h.
Qed.

Lemma rebalance_after_delete_ok h t :
  rep h t -> NoDup (addrs t) -> delete_shape t ->
  turns (rebalance_after_delete (root t)) h t (rebalance_delete t).
Proof.
  destruct t as [|l a k ht v r]; [done|]. intros R Hd [S1 S2]. unfold rebalance_after_delete, turns.
  mgo calc_balance_ok; [|done]. pose proof R as (Ha & Hn & Rl & Rr). hderef. cbn [a_left a_right].
  cbn [rebalance_delete]. set (b := balance _) in *.
  destruct (Z.ltb_spec 1 b) as [H1|H1]; [|destruct (Z.ltb_spec b (-1)) as [H2|H2]].
  - specialize (S1 H1). mgo calc_balance_ok; [|done]. destruct l as [|A x kx hx vx B]; [done|].
    destruct (Z.leb_spec 0 (balance (Node A x kx hx vx B))); [by apply right_ok|].
    eapply left_right_ok; [done..|auto].
  - specialize (S2 H2). mgo calc_balance_ok; [|done]. destruct r as [|A x kx hx vx B]; [done|].
    destruct (Z.leb_spec (balance (Node A x kx hx vx B)) 0); [by apply left_ok|].
    eapply right_left_ok; [done..|auto].
  - by exists h.
Qed.

(** ** Insertion *)

Lemma rep_lookup h t b : rep h t -> b ∈ addrs t -> is_Some (h !! b).
Proof.
  induction t as [|l IHl a k ht v r IHr]; cbn; [set_solver|]. intros (_ & Hn & Hl & Hr).
  rewrite elem_of_cons, elem_of_app. intros [->|[Hb|Hb]]; eauto.
Qed.

Lemma insert_shape_left key new l a k v r :
  balanced l -> balanced r -> -1 <= height l - height r <= 1 -> key ∉ (binds l).*1 ->
  insert_shape key (node (insert_tree key new 0 l) a k v r).
Proof.
  intros Bl Br Hb Hk. destruct (insert_balanced key new 0 l Bl Hk) as [B' Hg]. cbv zeta in *.
  pose proof (height_nonneg l Bl). pose proof (height_nonneg r Br).
  destruct (insert_tree key new 0 l) as [|ll x kx hx vx lr]; cbn [insert_shape node balance] in *.
  { cbn in *. lia. }
  split; intros Hc; [|cbn [height] in *; lia]. intros Hx ->.
  destruct Hg as [|[Hg [->|Hg']]]; [lia|cbn [height] in *; lia|].
  cbn in Hg', B'. destruct B' as (B1 & _). pose proof (height_nonneg ll B1). lia.
Qed.

Lemma insert_shape_right key new l a k v r :
  balanced l -> balanced r -> -1 <= height l - height r <= 1 -> key ∉ (binds r).*1 ->
  insert_shape key (node l a k v (insert_tree key new 0 r)).
Proof.
  intros Bl Br Hb Hk. destruct (insert_balanced key new 0 r Br Hk) as [B' Hg]. cbv zeta in *.
  pose proof (height_nonneg l Bl). pose proof (height_nonneg r Br).
  destruct (insert_tree key new 0 r) as [|rl x kx hx vx rr]; cbn [insert_shape node balance] in *.
  { cbn in *. lia. }
  split; intros Hc; [cbn [height] in *; lia|]. intros Hx ->.
  destruct Hg as [|[Hg [->|Hg']]]; [lia|cbn [height] in *; lia|].
  cbn in Hg', B'. destruct B' as (_ & B2 & _). pose proof (height_nonneg rr B2). lia.
Qed.

Section insert.
Context `{!Allocator AVLheader}.

(** The last two steps of [AVLAllocateL] at a node with a new subtree. *)
Lemma finish_insert_ok key h2 l a k ht v r :
  rep h2 (Node l a k ht v r) -> NoDup (addrs (Node l a k ht v r)) ->
  insert_shape key (node l a k v r) ->
  exists h', (update_height a ;;; rebalance_after_insert a key) h2 =
      Ok (root (rebalance_insert key (node l a k v r)), h') /\
    rep h' (rebalance_insert key (node l a k v r)) /\
    addrs (rebalance_insert key (node l a k v r)) ≡ₚ addrs (Node l a k ht v r) /\
    forall b, b ∉ addrs (Node l a k ht v r) -> h' !! b = h2 !! b.
Proof.
  intros R Hd S. pose proof Hd as (Al & Ar & _)%addrs_node.
  destruct (update_height_ok h2 l a k ht v r R Al Ar) as [E R']. 
  destruct (rebalance_after_insert_ok key _ _ R' Hd S) as (h' & E' & R'' & P & F).
  exists h'. split; [mrw E; exact E'|]. split; [done|]. split; [exact P|].
  intros b Hb. rewrite F by exact Hb. cbn in Hb. apply not_elem_of_cons in Hb as [? _]. by apply lookup_insert_ne.
Qed.

Lemma AVLAllocateL_ok key h t fuel :
  rep h t -> NoDup (addrs t) -> balanced t -> key ∉ (binds t).*1 -> (length (addrs t) < fuel)%nat ->
  let t' := insert_tree key (malloc h) 0 t in
  exists h', AVLAllocateL fuel (root t) key 0 h = Ok ((root t', malloc h), h') /\
    rep h' t' /\ addrs t' ≡ₚ malloc h :: addrs t /\
    forall b, b <> malloc h -> b ∉ addrs t -> h' !! b = h !! b.
Proof.
  set (new := malloc h). assert (Hnew : h !! new = None) by apply malloc_fresh.
  assert (Hn0 : new <> 0) by apply malloc_nonnull.
  revert fuel. induction t as [|l IHl a k ht v r IHr]; intros fuel R Hd B Hk Hf;
    destruct fuel as [|fuel]; [lia..| |lia|].
  { cbn. eexists. split; [done|]. split_and!; [done|apply lookup_insert_eq|done|done|done|].
    intros b Hb _. by apply lookup_insert_ne. }
  pose proof R as (Ha & Hn & Rl & Rr). destruct B as (Bl & Br & -> & Hbal).
  pose proof Hd as (Al & Ar & Dl & Dr & Hsep)%addrs_node.
  assert (Hna : new <> a) by congruence.
  assert (Hnl : new ∉ addrs l) by (intros Hb; destruct (rep_lookup _ _ _ Rl Hb); congruence).
  assert (Hnr : new ∉ addrs r) by (intros Hb; destruct (rep_lookup _ _ _ Rr Hb); congruence).
  cbn in Hk. rewrite fmap_app, fmap_cons in Hk.
  apply not_elem_of_app in Hk as [Kl [Kk Kr]%not_elem_of_cons]. cbn in Kk.
  cbn [addrs length] in Hf. rewrite length_app in Hf.
  cbn [AVLAllocateL root]. rewrite (proj2 (Z.eqb_neq a 0)) by done. hderef. cbn [a_key a_left a_right insert_tree].
  destruct (Z.ltb_spec key k).
  - destruct (IHl fuel Rl Dl Bl Kl ltac:(lia)) as (h1 & E1 & R1 & P1 & F1).
    set (l' := insert_tree key new 0 l) in *.
    destruct (replace_left_ok h l a k (1 + Z.max (height l) (height r)) v r R h1 (F1 a ltac:(done) Al) l') as [E2 R2].
    { done. } { intros b Hb. apply F1; [congruence|]. intros Hb'. by apply (Hsep b). }
    { rewrite P1, not_elem_of_cons. done. } { done. }
    destruct (finish_insert_ok key _ l' a k _ v r R2) as (h' & E3 & R3 & P3 & F3).
    { cbn. rewrite P1. apply NoDup_cons. rewrite not_elem_of_app, not_elem_of_cons. split; [done|].
      cbn. apply NoDup_cons. rewrite not_elem_of_app. split; [done|]. by apply NoDup_app. }
    { by apply insert_shape_left. }
    exists h'. split_and!; [|done|rewrite P3; cbn; rewrite P1; solve_Permutation|].
    + erewrite (bind_ok _ _ h new); [|mrw E1; by mrw E2]. minv E3. mrw E. by mrw E3.
    + intros b Hb Hbt. cbn in Hbt. apply not_elem_of_cons in Hbt as [? [? ?]%not_elem_of_app].
      rewrite F3; [rewrite lookup_insert_ne by done; by apply F1|].
      cbn. rewrite P1, not_elem_of_cons, not_elem_of_app, not_elem_of_cons. done.
  - rewrite (proj2 (Z.ltb_lt k key)) by lia.
    destruct (IHr fuel Rr Dr Br Kr ltac:(lia)) as (h1 & E1 & R1 & P1 & F1).
    set (r' := insert_tree key new 0 r) in *.
    destruct (replace_right_ok h l a k (1 + Z.max (height l) (height r)) v r R h1 (F1 a ltac:(done) Ar) r') as [E2 R2].
    { done. } { intros b Hb. apply F1; [congruence|]. by apply Hsep. }
    { rewrite P1, not_elem_of_cons. done. } { done. }
    destruct (finish_insert_ok key _ l a k _ v r' R2) as (h' & E3 & R3 & P3 & F3).
    { cbn. rewrite P1. apply NoDup_cons. rewrite not_elem_of_app, not_elem_of_cons. split; [done|].
      rewrite <- Permutation_middle. apply NoDup_cons. rewrite not_elem_of_app. split; [done|]. by apply NoDup_app. }
    { by apply insert_shape_right. }
    exists h'. split_and!; [|done|rewrite P3; cbn; rewrite P1; solve_Permutation|].
    + erewrite (bind_ok _ _ h new); [|mrw E1; by mrw E2]. minv E3. mrw E. by mrw E3.
    + intros b Hb Hbt. cbn in Hbt. apply not_elem_of_cons in Hbt as [? [? ?]%not_elem_of_app].
      rewrite F3; [rewrite lookup_insert_ne by done; by apply F1|].
      cbn. rewrite P1, not_elem_of_cons, not_elem_of_app, not_elem_of_cons. done.
Qed.
End insert.

(** ** Deletion *)

Lemma delete_shape_ok l a k v r :
  balanced l -> balanced r -> delete_shape (node l a k v r).
Proof.
  intros Bl Br. pose proof (height_nonneg l Bl). pose proof (height_nonneg r Br).
  cbn [delete_shape node balance]. split; intros Hc.
  - destruct l as [|A x kx hx vx B]; [cbn in *; lia|]. intros Hb ->. destruct Bl as (BA & _).
    pose proof (height_nonneg A BA). cbn in *. lia.
  - destruct r as [|A x kx hx vx B]; [cbn in *; lia|]. intros Hb ->. destruct Br as (_ & BB & _).
    pose proof (height_nonneg B BB). cbn in *. lia.
Qed.

Lemma finish_delete_ok h2 l a k ht v r :
  rep h2 (Node l a k ht v r) -> NoDup (addrs (Node l a k ht v r)) -> balanced l -> balanced r ->
  exists h', (update_height a ;;; rebalance_after_delete a) h2 =
      Ok (root (rebalance_delete (node l a k v r)), h') /\
    rep h' (rebalance_delete (node l a k v r)) /\
    addrs (rebalance_delete (node l a k v r)) ≡ₚ addrs (Node l a k ht v r) /\
    forall b, b ∉ addrs (Node l a k ht v r) -> h' !! b = h2 !! b.
Proof.
  intros R Hd Bl Br. pose proof Hd as (Al & Ar & _)%addrs_node.
  destruct (update_height_ok h2 l a k ht v r R Al Ar) as [E R'].
  destruct (rebalance_after_delete_ok _ _ R' Hd (delete_shape_ok l a k v r Bl Br)) as (h' & E' & R'' & P & F).
  exists h'. split; [mrw E; exact E'|]. split; [done|]. split; [exact P|].
  intros b Hb. rewrite F by exact Hb. cbn in Hb. apply not_elem_of_cons in Hb as [? _]. by apply lookup_insert_ne.
Qed.

Lemma AVLMinKeyNode_ok h t fuel :
  rep h t -> t <> Leaf -> (length (addrs t) < fuel)%nat ->
  exists p k v n, min_node t = Some (p, k, v) /\ AVLMinKeyNode fuel (root t) h = Ok (p, h) /\
    p <> 0 /\ h !! p = Some n /\ a_key n = k /\ a_value n = v.
Proof.
  revert fuel. induction t as [|l IHl a k ht v r IHr]; intros fuel R Ht Hf; [done|].
  destruct fuel as [|fuel]; [lia|]. destruct R as (Ha & Hn & Rl & Rr). cbn [addrs length] in Hf.
  rewrite length_app in Hf. cbn [AVLMinKeyNode root min_node]. rewrite (proj2 (Z.eqb_neq a 0)) by done.
  hderef. cbn [a_left]. destruct (decide (l = Leaf)) as [->|Hl].
  - cbn. by eexists a, k, v, _.
  - rewrite (proj2 (Z.eqb_neq _ _)) by (by rewrite (rep_root h l)). cbn [negb].
    destruct (IHl fuel Rl Hl ltac:(lia)) as (p & k' & v' & n & -> & E & ?). by exists p, k', v', n.
Qed.

(** [t'] takes the place of [t]: part of its nodes, the others released. *)
Record shrunk (h h' : heap) (t t' : tree) : Prop := {
  sh_rep : rep h' t';
  sh_sub : addrs t' ⊆+ addrs t;
  sh_freed : forall b, b ∈ addrs t -> b ∉ addrs t' -> h' !! b = None;
  sh_frame : forall b, b ∉ addrs t -> h' !! b = h !! b;
}.

Lemma shrunk_not_in h h' t t' b : shrunk h h' t t' -> b ∉ addrs t -> b ∉ addrs t'.
Proof. intros [_ S _ _] Hb Hb'. apply Hb. by eapply elem_of_submseteq. Qed.
Lemma shrunk_NoDup h h' t t' : shrunk h h' t t' -> NoDup (addrs t) -> NoDup (addrs t').
Proof. intros [_ S _ _] H. destruct (submseteq_Permutation _ _ S) as [k P]. rewrite P in H. by apply NoDup_app in H as [? _]. Qed.

(** A node with one shrunk subtree, rebalanced. *)
Lemma shrink_left h h1 l a k ht v r l' :
  rep h (Node l a k ht v r) -> NoDup (addrs (Node l a k ht v r)) -> balanced l' -> balanced r ->
  shrunk h h1 l l' ->
  exists h', (update a (set_left (root l')) ;;; update_height a ;;; rebalance_after_delete a) h1 =
      Ok (root (rebalance_delete (node l' a k v r)), h') /\
    shrunk h h' (Node l a k ht v r) (rebalance_delete (node l' a k v r)).
Proof.
  intros R Hd Bl Br S. pose proof Hd as (Al & Ar & Dl & Dr & Hsep)%addrs_node.
  pose proof S as [S1 S2 S3 S4]. pose proof (shrunk_NoDup _ _ _ _ S Dl) as Dl'.
  pose proof (shrunk_not_in _ _ _ _ a S Al) as Al'.
  assert (Hr : forall b, b ∈ addrs r -> b ∉ addrs l) by (intros b Hb Hb'; by apply (Hsep b)).
  destruct (replace_left_ok h l a k ht v r R h1 (S4 a Al) l') as [E2 R2]; [done|intros b Hb; apply S4; by apply Hr|done|done|].
  destruct (finish_delete_ok _ l' a k ht v r R2) as (h' & E3 & R3 & P3 & F3); [|done|done|].
  { apply addrs_node. split_and!; try done. intros b Hb Hb'. apply (Hr b Hb'). eapply elem_of_submseteq; [exact Hb|done]. }
  exists h'. split; [mrw E2; exact E3|]. split; [done|..].
  - rewrite P3. cbn. apply submseteq_skip. by apply submseteq_skips_r.
  - intros b Hb Hb'. rewrite P3 in Hb'. rewrite F3 by done. cbn in Hb, Hb'.
    apply not_elem_of_cons in Hb' as [? [? ?]%not_elem_of_app]. rewrite lookup_insert_ne by done.
    apply S3; [|done]. apply elem_of_cons in Hb as [?|[?|?]%elem_of_app]; done.
  - intros b Hb. cbn in Hb. apply not_elem_of_cons in Hb as [Hba [Hbl Hbr]%not_elem_of_app].
    pose proof (shrunk_not_in _ _ _ _ b S Hbl).
    rewrite F3; [rewrite lookup_insert_ne by done; by apply S4|].
    cbn. by rewrite not_elem_of_cons, not_elem_of_app.
Qed.

Lemma shrink_right h h1 l a k ht v r r' :
  rep h (Node l a k ht v r) -> NoDup (addrs (Node l a k ht v r)) -> balanced l -> balanced r' ->
  shrunk h h1 r r' ->
  exists h', (update a (set_right (root r')) ;;; update_height a ;;; rebalance_after_delete a) h1 =
      Ok (root (rebalance_delete (node l a k v r')), h') /\
    shrunk h h' (Node l a k ht v r) (rebalance_delete (node l a k v r')).
Proof.
  intros R Hd Bl Br S. pose proof Hd as (Al & Ar & Dl & Dr & Hsep)%addrs_node.
  pose proof S as [S1 S2 S3 S4]. pose proof (shrunk_NoDup _ _ _ _ S Dr) as Dr'.
  pose proof (shrunk_not_in _ _ _ _ a S Ar) as Ar'.
  destruct (replace_right_ok h l a k ht v r R h1 (S4 a Ar) r') as [E2 R2]; [done|intros b Hb; apply S4; intros Hb'; by apply (Hsep b)|done|done|].
  destruct (finish_delete_ok _ l a k ht v r' R2) as (h' & E3 & R3 & P3 & F3); [|done|done|].
  { apply addrs_node. split_and!; try done. intros b Hb Hb'. apply (Hsep b Hb). eapply elem_of_submseteq; [exact Hb'|done]. }
  exists h'. split; [mrw E2; exact E3|]. split; [done|..].
  - rewrite P3. cbn. apply submseteq_skip. by apply submseteq_skips_l.
  - intros b Hb Hb'. rewrite P3 in Hb'. rewrite F3 by done. cbn in Hb, Hb'.
    apply not_elem_of_cons in Hb' as [? [? ?]%not_elem_of_app]. rewrite lookup_insert_ne by done.
    apply S3; [|done]. apply elem_of_cons in Hb as [?|[?|?]%elem_of_app]; done.
  - intros b Hb. cbn in Hb. apply not_elem_of_cons in Hb as [Hba [Hbl Hbr]%not_elem_of_app].
    pose proof (shrunk_not_in _ _ _ _ b S Hbr).
    rewrite F3; [rewrite lookup_insert_ne by done; by apply S4|].
    cbn. by rewrite not_elem_of_cons, not_elem_of_app.
Qed.

(** The one-child case: the node takes over its child's contents. *)
Lemma absorb_child h l a k ht v r c ca ck ch cv cl cr :
  rep h (Node l a k ht v r) -> NoDup (addrs (Node l a k ht v r)) ->
  c = Node cl ca ck ch cv cr -> (l = c /\ r = Leaf \/ l = Leaf /\ r = c) -> balanced c ->
  exists h', (update_height a ;;; rebalance_after_delete a)
      (delete ca (<[a := mkAvl ck (root cl) (root cr) ch cv]> h)) =
      Ok (root (rebalance_delete (node cl a ck cv cr)), h') /\
    shrunk h h' (Node l a k ht v r) (rebalance_delete (node cl a ck cv cr)).
Proof.
  intros R Hd Ec Hc B. assert (P : addrs (Node l a k ht v r) ≡ₚ a :: ca :: addrs cl ++ addrs cr).
  { destruct Hc as [[-> ->]|[-> ->]]; rewrite Ec; cbn; by rewrite ?app_nil_r. }
  assert (Rc : rep h c) by (destruct R as (_ & _ & Rl & Rr); destruct Hc as [[-> _]|[_ ->]]; done).
  assert (Ha : a <> 0) by apply R.
  rewrite P in Hd. apply NoDup_cons in Hd as [[Hac [Hal Har]%not_elem_of_app]%not_elem_of_cons Hd].
  apply NoDup_cons in Hd as [[Hcl Hcr]%not_elem_of_app Hd].
  rewrite Ec in Rc, B. destruct Rc as (Hc0 & Hcn & Rcl & Rcr). destruct B as (Bl & Br & _).
  set (h2 := delete ca (<[a := mkAvl ck (root cl) (root cr) ch cv]> h)).
  destruct (finish_delete_ok h2 cl a ck ch cv cr) as (h' & E & R' & P' & F'); [| |done|done|].
  { split_and!; [done|unfold h2; rewrite lookup_delete_ne by done; apply lookup_insert_eq|..];
      apply rep_delete; try done; by apply rep_insert. }
  { cbn. apply NoDup_cons. by rewrite not_elem_of_app. }
  exists h'. split; [done|]. split; [done|..].
  - rewrite P', P. cbn. apply submseteq_skip, submseteq_cons. done.
  - intros b Hb Hb'. rewrite P' in Hb'. rewrite F' by done. rewrite P in Hb. cbn in Hb'.
    apply not_elem_of_cons in Hb' as [? Hb']. apply elem_of_cons in Hb as [?|[->|?]%elem_of_cons]; [done| |done].
    unfold h2. apply lookup_delete_eq.
  - intros b Hb. rewrite P in Hb. apply not_elem_of_cons in Hb as [? [? ?]%not_elem_of_cons].
    rewrite F' by (cbn; by rewrite not_elem_of_cons). unfold h2.
    by rewrite lookup_delete_ne, lookup_insert_ne.
Qed.

Lemma unlink_leaf_ok h a n :
  a <> 0 -> h !! a = Some n -> a_left n = 0 -> a_right n = 0 ->
  unlink_node a n 0 h = Ok ((0, a_value n), delete a h).
Proof.
  intros Ha Hn El Er. unfold unlink_node. rewrite El, Er. cbn [Z.eqb negb].
  erewrite bind_ok by done. cbv beta iota. erewrite bind_ok by done. hderef. by hdispose.
Qed.

Lemma unlink_leaf_shrunk h a k ht v :
  shrunk h (delete a h) (Node Leaf a k ht v Leaf) Leaf.
Proof.
  split; [done|apply submseteq_nil_l| |]; cbn; intros b Hb.
  - intros _. apply list_elem_of_singleton in Hb as ->. apply lookup_delete_eq.
  - apply not_elem_of_cons in Hb as [? _]. by apply lookup_delete_ne.
Qed.

Lemma unlink_child_ok h a n c m :
  a <> 0 -> h !! a = Some n -> a <> c -> c <> 0 ->
  (if negb (a_left n =? 0) then a_left n else a_right n) = c -> h !! c = Some m ->
  unlink_node a n 0 h = Ok ((a, a_value m), delete c (<[a := m]> h)).
Proof.
  intros Ha Hn Hne Hc Ec Hm. unfold unlink_node. rewrite Ec, (proj2 (Z.eqb_neq c 0)) by done.
  erewrite bind_ok by (hderef; hupdate; done). cbv beta iota. erewrite bind_ok by done.
  erewrite bind_ok by (apply deref_ok; [done|rewrite lookup_insert_ne by done; exact Hm]).
  by erewrite bind_ok by (eapply dispose_ok; [done|rewrite lookup_insert_ne by done; exact Hm]).
Qed.

Lemma AVLUnregisterL_ok t key h fuel :
  rep h t -> NoDup (addrs t) -> balanced t -> (length (addrs t) < fuel)%nat ->
  exists h', AVLUnregisterL fuel (root t) key 0 h =
      Ok ((root (delete_tree key t), freed_value key t), h') /\
    shrunk h h' t (delete_tree key t).
Proof.
  revert key h fuel. induction t as [|l IHl a k ht v r IHr]; intros key h fuel R Hd B Hf;
    destruct fuel as [|fuel]; try lia.
  { exists h. split; [done|]. split; [done|done|set_solver|done]. }
  pose proof R as (Ha & Hn & Rl & Rr). destruct B as (Bl & Br & -> & Hbal).
  pose proof Hd as (Al & Ar & Dl & Dr & Hsep)%addrs_node.
  cbn [addrs length] in Hf. rewrite length_app in Hf.
  cbn [AVLUnregisterL root]. rewrite (proj2 (Z.eqb_neq a 0)) by done. hderef.
  cbn [a_key a_left a_right delete_tree freed_value].
  destruct (Z.ltb_spec key k); [|destruct (Z.ltb_spec k key)].
  - destruct (IHl key h fuel Rl Dl Bl ltac:(lia)) as (h1 & E1 & S1).
    destruct (shrink_left h h1 l a k _ v r _ R Hd (proj1 (delete_balanced key l Bl)) Br S1) as (h' & E & S').
    exists h'. split; [|done]. minv E. minv E.
    erewrite bind_ok by (mrw E1; mrw E0; done). cbv beta iota. rewrite (proj2 (Z.eqb_neq a 0)) by done.
    mrw E2. by mrw E.
  - destruct (IHr key h fuel Rr Dr Br ltac:(lia)) as (h1 & E1 & S1).
    destruct (shrink_right h h1 l a k _ v r _ R Hd Bl (proj1 (delete_balanced key r Br)) S1) as (h' & E & S').
    exists h'. split; [|done]. minv E. minv E.
    erewrite bind_ok by (mrw E1; mrw E0; done). cbv beta iota. rewrite (proj2 (Z.eqb_neq a 0)) by done.
    mrw E2. by mrw E.
  - destruct (decide (l = Leaf)) as [->|Hl]; [|destruct (decide (r = Leaf)) as [->|Hr]].
    + destruct r as [|rl ra rk rh rv rr].
      * exists (delete a h). split; [|by apply unlink_leaf_shrunk].
        cbn [root Z.eqb orb]. by mrw (unlink_leaf_ok h a _ Ha Hn eq_refl eq_refl).
      * assert (Hne : a <> ra) by (intros ->; apply Ar; cbn; by left).
        destruct (absorb_child h Leaf a k _ v _ _ ra rk rh rv rl rr R Hd eq_refl (or_intror (conj eq_refl eq_refl)) Br)
          as (h' & E & S'). exists h'. split; [|done]. minv E. cbn [root Z.eqb orb].
        destruct Rr as (Hra & Hrn & _). mrw (unlink_child_ok h a _ ra _ Ha Hn Hne Hra eq_refl Hrn).
        rewrite (proj2 (Z.eqb_neq a 0)) by done. mrw E0. by mrw E.
    + destruct l as [|ll la lk lh lv lr]; [done|].
      assert (Hne : a <> la) by (intros ->; apply Al; cbn; by left).
      destruct (absorb_child h _ a k _ v Leaf _ la lk lh lv ll lr R Hd eq_refl (or_introl (conj eq_refl eq_refl)) Bl)
        as (h' & E & S'). exists h'. split; [|done]. minv E. cbn [root]. rewrite orb_true_r.
      destruct Rl as (Hla & Hln & _).
      assert (Ht : (if negb (la =? 0) then la else 0) = la) by (by rewrite (proj2 (Z.eqb_neq la 0))).
      mrw (unlink_child_ok h a _ la _ Ha Hn Hne Hla Ht Hln).
      rewrite (proj2 (Z.eqb_neq a 0)) by done. mrw E0. by mrw E.
    + rewrite !(proj2 (Z.eqb_neq (root _) 0)) by (rewrite rep_root by done; done). cbn [orb].
      destruct (AVLMinKeyNode_ok h r fuel Rr Hr ltac:(lia)) as (p & mk & mv & n & Em & E0 & Hp & Hpn & <- & <-).
      rewrite Em. set (h1 := <[a := mkAvl (a_key n) (root l) (root r) (1 + Z.max (height l) (height r)) (a_value n)]> h).
      assert (R1 : rep h1 (Node l a (a_key n) (1 + Z.max (height l) (height r)) (a_value n) r)).
      { split_and!; [done|apply lookup_insert_eq|by apply rep_insert..]. }
      destruct (IHr (a_key n) h1 fuel) as (h2 & E2 & S2); [apply R1|done|done|lia|].
      destruct (shrink_right h1 h2 l a (a_key n) _ (a_value n) r _ R1 Hd Bl (proj1 (delete_balanced (a_key n) r Br)) S2)
        as (h' & E & S'). minv E. minv E.
      exists h'. split.
      * destruct l as [|ll la lk lh lv lr]; [done|]. destruct r as [|rl ra rk rh rv rr]; [done|].
        erewrite (bind_ok _ _ h).
        2:{ mrw E0. hderef. hupdate. unfold set_key_value. cbn [a_left a_right a_height]. fold h1.
            mrw E2. mrw E1. done. }
        cbv beta iota. rewrite (proj2 (Z.eqb_neq a 0)) by done. mrw E3. by mrw E.
      * destruct l; [done|]. destruct r; [done|]. destruct S' as [S1' S2' S3' S4']. split; [done..|].
        intros b Hb. rewrite S4' by done. cbn in Hb. apply not_elem_of_cons in Hb as [? _]. unfold h1. by rewrite lookup_insert_ne.
Qed.

(** ** The contract *)

(** The pointer [p] is a map [m] whose nodes are the addresses [A]. *)
Definition avl_map (h : heap) (p : Z) (A : gset Z) (m : gmap Z Z) : Prop :=
  exists t, root t = p /\ rep h t /\ NoDup (addrs t) /\ ordered t /\ balanced t /\
    list_to_set (addrs t) = A /\ contents t = m.

Lemma addrs_fuel h t : rep h t -> NoDup (addrs t) -> (length (addrs t) < avl_fuel h)%nat.
Proof.
  intros R Hd. unfold avl_fuel. enough (length (addrs t) <= size h)%nat by lia.
  rewrite <- size_dom, <- (size_list_to_set (C := gset Z)) by done. apply subseteq_size.
  intros b Hb%elem_of_list_to_set. apply elem_of_dom. by eapply rep_lookup.
Qed.

Lemma rep_set_at h t a w :
  rep h t -> NoDup (addrs t) -> a ∈ addrs t ->
  exists n, h !! a = Some n /\ rep (<[a := set_value w n]> h) (set_at a w t).
Proof.
  induction t as [|l IHl b k ht v r IHr]; intros R Hd Ha; [by apply elem_of_nil in Ha|].
  destruct R as (Hb & Hn & Rl & Rr). pose proof Hd as (Al & Ar & Dl & Dr & Hsep)%addrs_node.
  apply elem_of_cons in Ha as [->|[Ha|Ha]%elem_of_app]; cbn [set_at rep]; rewrite !root_set_at.
  - rewrite Z.eqb_refl, !set_at_other by done. eexists. split; [done|].
    split_and!; [done|apply lookup_insert_eq|by apply rep_insert..].
  - destruct (IHl Rl Dl Ha) as (n & En & R'). exists n. split; [done|].
    assert (b <> a) by (intros ->; done). rewrite (proj2 (Z.eqb_neq b a)), (set_at_other _ _ r) by auto.
    split_and!; [done|by rewrite lookup_insert_ne|done|by apply rep_insert; auto].
  - destruct (IHr Rr Dr Ha) as (n & En & R'). exists n. split; [done|].
    assert (b <> a) by (intros ->; done).
    rewrite (proj2 (Z.eqb_neq b a)), (set_at_other _ _ l) by (try done; intros Hl; by apply (Hsep a)).
    split_and!; [done|by rewrite lookup_insert_ne| |done]. apply rep_insert; [|done]. intros Hl. by apply (Hsep a).
Qed.

Lemma addrs_set_at a w t : addrs (set_at a w t) = addrs t.
Proof. induction t as [|l IHl b k h v r IHr]; cbn; [done|]. by rewrite IHl, IHr. Qed.

Lemma balanced_set_at a w t : balanced t -> balanced (set_at a w t).
Proof.
  induction t as [|l IHl b k h v r IHr]; cbn; [done|]. rewrite !height_set_at. naive_solver.
Qed.

Section contract.
Context `{!Allocator AVLheader}.

Lemma AVLAllocate_ok h p A m key v :
  avl_map h p A m -> m !! key = None ->
  exists p' h', AVLAllocate p key v h = Ok ((p', malloc h), h') /\
    avl_map h' p' ({[malloc h]} ∪ A) (<[key := v]> m) /\
    forall b, b ∉ {[malloc h]} ∪ A -> h' !! b = h !! b.
Proof.
  intros (t & <- & R & Hd & Ho & B & <- & <-) Hk%contents_none.
  pose proof (malloc_nonnull h) as Hn0. pose proof (malloc_fresh h) as Hnew. set (new := malloc h) in *.
  assert (Hnt : new ∉ addrs t) by (intros Hb; destruct (rep_lookup _ _ _ R Hb); congruence).
  destruct (AVLAllocateL_ok key h t (avl_fuel h) R Hd B Hk (addrs_fuel h t R Hd)) as (h1 & E1 & R1 & P1 & F1).
  fold new in E1, R1, P1, F1. set (t1 := insert_tree key new 0 t) in *.
  assert (Hd1 : NoDup (addrs t1)) by (rewrite P1; by apply NoDup_cons).
  destruct (rep_set_at h1 t1 new v R1 Hd1) as (n & En & R2); [rewrite P1; by left|].
  pose proof (set_at_insert key new 0 v t Hnt) as Es. fold t1 in Es.
  exists (root t1), (<[new := set_value v n]> h1). split_and!.
  - unfold AVLAllocate. erewrite bind_ok by done. mrw E1. rewrite (proj2 (Z.eqb_neq new 0)) by done.
    erewrite bind_ok by done. by hupdate.
  - exists (insert_tree key new v t). rewrite <- Es at 1 2 3 5 6.
    rewrite root_set_at, addrs_set_at. split_and!; try done.
    + by apply insert_ordered.
    + apply balanced_set_at. by apply (insert_balanced key new 0 t).
    + by rewrite P1.
    + by apply insert_contents.
  - intros b Hb. rewrite lookup_insert_ne by set_solver. apply F1; set_solver.
Qed.

Lemma AVLUnregister_ok h p A m key :
  avl_map h p A m ->
  exists p' A' res h', AVLUnregister p key h = Ok ((p', res), h') /\
    avl_map h' p' A' (delete key m) /\ A' ⊆ A /\
    (forall b, b ∈ A ∖ A' -> h' !! b = None) /\ (forall b, b ∉ A -> h' !! b = h !! b) /\
    (map_Forall (fun _ v => v <> 0) m -> res = bool_decide (is_Some (m !! key))).
Proof.
  intros (t & <- & R & Hd & Ho & B & <- & <-).
  destruct (AVLUnregisterL_ok t key h (avl_fuel h) R Hd B (addrs_fuel h t R Hd)) as (h' & E & S).
  pose proof S as [S1 S2 S3 S4]. set (t' := delete_tree key t) in *.
  exists (root t'), (list_to_set (addrs t')), (negb (freed_value key t =? 0)), h'. split_and!.
  - unfold AVLUnregister. erewrite bind_ok by done. by mrw E.
  - exists t'. split_and!; try done.
    + by eapply shrunk_NoDup.
    + by apply delete_ordered.
    + by apply delete_balanced.
    + by apply delete_contents.
  - intros b. rewrite !elem_of_list_to_set. intros Hb. by eapply elem_of_submseteq.
  - intros b. rewrite elem_of_difference, !elem_of_list_to_set. intros []. auto.
  - intros b. rewrite elem_of_list_to_set. auto.
  - intros Hv. apply eq_true_iff_eq. rewrite negb_true_iff, Z.eqb_neq, bool_decide_eq_true.
    rewrite freed_value_found by (try done; intros x w Hw; apply (Hv x w); by apply contents_lookup).
    rewrite <- not_eq_None_Some, contents_none. split; [by intros ? []|].
    intros Hn. destruct (decide (key ∈ (binds t).*1)); tauto.
Qed.

Lemma avl_lookup_ok h t key fuel :
  rep h t -> ordered t -> balanced t -> height t < Z.of_nat fuel ->
  avl_lookup fuel (root t) key h = Ok (default 0 (contents t !! key), h).
Proof.
  revert fuel. induction t as [|l IHl a k ht v r IHr]; intros fuel R Ho B Hf;
    pose proof (height_nonneg _ B); destruct fuel as [|fuel]; try lia; [done|].
  destruct R as (Ha & Hn & Rl & Rr). rewrite contents_node by done. cbn [avl_lookup root].
  rewrite (proj2 (Z.eqb_neq a 0)) by done. hderef. cbn [a_key a_left a_right a_value].
  apply ordered_node in Ho as (Ol & Or & _). destruct B as (Bl & Br & -> & _). cbn [height] in *.
  destruct (k <? key); [apply IHr; (done || lia)|]. destruct (key <? k); [apply IHl; (done || lia)|done].
Qed.

(** In-order traversal: the nodes in the order of their keys. *)
Fixpoint headers (t : tree) : list AVLheader :=
  match t with
  | Leaf => []
  | Node l a k ht v r => headers l ++ mkAvl k (root l) (root r) ht v :: headers r
  end.

Lemma headers_binds t : (fun n => (a_key n, a_value n)) <$> headers t = binds t.
Proof. induction t as [|l IHl a k h v r IHr]; cbn; [done|]. by rewrite fmap_app, fmap_cons, IHl, IHr. Qed.

Lemma avl_traverse_ok {C} h t (cb : AVLheader -> C -> C) ctx fuel :
  rep h t -> (length (addrs t) < fuel)%nat ->
  avl_traverse fuel (root t) cb ctx h = Ok (foldl (fun c n => cb n c) ctx (headers t), h).
Proof.
  revert ctx fuel. induction t as [|l IHl a k ht v r IHr]; intros ctx fuel R Hf;
    destruct fuel as [|fuel]; try lia; [done|].
  destruct R as (Ha & Hn & Rl & Rr). cbn [addrs length] in Hf. rewrite length_app in Hf.
  cbn [avl_traverse root headers]. rewrite (proj2 (Z.eqb_neq a 0)) by done. hderef. cbn [a_left].
  erewrite bind_ok by (apply IHl; [done|lia]). hderef. hderef. cbn [a_right].
  rewrite IHr by (done || lia). by rewrite foldl_app.
Qed.
End contract.

(** ** Theorems *)

Section theorems.
Context `{!Allocator AVLheader}.

Lemma AVLAllocateL_duplicate key h t fuel :
  rep h t -> ordered t -> key ∈ (binds t).*1 -> (length (addrs t) < fuel)%nat ->
  AVLAllocateL fuel (root t) key 0 h = Halted.
Proof.
  revert fuel. induction t as [|l IHl a k ht v r IHr]; intros fuel R Ho Hk Hf;
    destruct fuel as [|fuel]; try lia; [by apply elem_of_nil in Hk|].
  destruct R as (Ha & Hn & Rl & Rr). apply ordered_node in Ho as (Ol & Or & Hl & Hr).
  cbn [addrs length] in Hf. rewrite length_app in Hf. cbn in Hk. rewrite fmap_app, fmap_cons in Hk.
  apply elem_of_app in Hk. rewrite elem_of_cons in Hk. cbn [fst] in Hk.
  cbn [AVLAllocateL root]. rewrite (proj2 (Z.eqb_neq a 0)) by done. hderef. cbn [a_key a_left a_right].
  destruct (Z.ltb_spec key k); [|destruct (Z.ltb_spec k key)].
  - unfold bind. rewrite IHl; [done..| |lia]. destruct Hk as [?|[?|Hx]]; [done|lia|]. specialize (Hr _ Hx). lia.
  - unfold bind. rewrite IHr; [done..| |lia]. destruct Hk as [Hx|[?|?]]; [specialize (Hl _ Hx); lia|lia|done].
  - done.
Qed.

Lemma AVLAllocate_dup h p A m key v :
  avl_map h p A m -> is_Some (m !! key) -> AVLAllocate p key v h = Halted.
Proof.
  intros (t & <- & R & Hd & Ho & B & _ & <-) Hk.
  unfold AVLAllocate. erewrite bind_ok by done. unfold bind.
  rewrite AVLAllocateL_duplicate; [done|done|done| |by apply addrs_fuel].
  destruct (decide (key ∈ (binds t).*1)) as [|Hn]; [done|]. apply contents_none in Hn.
  rewrite Hn in Hk. by destruct Hk.
Qed.

Lemma AVLLookup_ok h p A m key :
  avl_map h p A m -> AVLLookup p key h = Ok (default 0 (m !! key), h).
Proof.
  intros (t & <- & R & Hd & Ho & B & _ & <-). unfold AVLLookup. erewrite bind_ok by done.
  apply avl_lookup_ok; [done..|].
  pose proof (addrs_fuel h t R Hd). pose proof (height_size t B). lia.
Qed.

(** C8: [AVLAllocate] implements insertion into a finite map: with a new key it
    returns the map extended by the key, one fresh node, every other address
    unchanged, the tree ordered and balanced; with a key that exists it halts
    the machine. *)
Theorem avl_allocate_refines h p A m key v :
  avl_map h p A m ->
  (m !! key = None ->
     exists p' new h', AVLAllocate p key v h = Ok ((p', new), h') /\
       h !! new = None /\ avl_map h' p' ({[new]} ∪ A) (<[key := v]> m) /\
       forall b, b ∉ {[new]} ∪ A -> h' !! b = h !! b) /\
  (is_Some (m !! key) -> AVLAllocate p key v h = Halted).
Proof.
  intros Hm. split.
  - intros Hk. destruct (AVLAllocate_ok h p A m key v Hm Hk) as (p' & h' & E & Hm' & F).
    exists p', (malloc h), h'. split_and!; [done|apply malloc_fresh|done|done].
  - by apply AVLAllocate_dup with (A := A).
Qed.

(** C9: [AVLUnregister] implements removal from a finite map: it returns, the
    tree represents the map without the key and is ordered and balanced, the
    released node is no longer in the heap and no other address changes; when
    no stored value is 0 the result says whether the key was present. *)
Theorem avl_unregister_refines h p A m key :
  avl_map h p A m ->
  exists p' A' res h', AVLUnregister p key h = Ok ((p', res), h') /\
    avl_map h' p' A' (delete key m) /\ A' ⊆ A /\
    (forall b, b ∈ A ∖ A' -> h' !! b = None) /\ (forall b, b ∉ A -> h' !! b = h !! b) /\
    (map_Forall (fun _ v => v <> 0) m -> res = bool_decide (is_Some (m !! key))).
Proof. apply AVLUnregister_ok. Qed.

(** C38: [AVLLookup] returns the value of the key, 0 when it is absent, and leaves
    the heap alone; its recursion is at most logarithmic in the number of keys
    (depth [d] suffices as soon as [2 ^ d] exceeds the square of one more than
    that number). *)
Theorem avl_lookup_logarithmic h p A m key fuel :
  avl_map h p A m -> (Z.of_nat (size m) + 1) ^ 2 < 2 ^ Z.of_nat fuel ->
  AVLLookup p key h = Ok (default 0 (m !! key), h) /\
  avl_lookup fuel p key h = Ok (default 0 (m !! key), h).
Proof.
  intros Hm Hf. split; [by apply AVLLookup_ok with (A := A)|].
  destruct Hm as (t & <- & R & Hd & Ho & B & _ & <-).
  - apply avl_lookup_ok; [done..|]. apply (Z.pow_lt_mono_r_iff 2); [lia|lia|].
    pose proof (balanced_depth t B). enough (size (contents t) = length (binds t)) by congruence || lia.
    unfold contents. rewrite <- length_map_to_list, map_to_list_to_map; [done|by apply ordered_NoDup].
Qed.

(** [AVLTraverse] calls the callback on every node exactly once, in the
    order of the keys. *)
Theorem avl_traverse_sorted {C : Type} h p A m (cb : AVLheader -> C -> C) ctx :
  avl_map h p A m ->
  exists ns, AVLTraverse p cb ctx h = Ok (foldl (fun c n => cb n c) ctx ns, h) /\
    Sorted.StronglySorted Z.lt (a_key <$> ns) /\
    (fun n => (a_key n, a_value n)) <$> ns ≡ₚ map_to_list m.
Proof.
  intros (t & <- & R & Hd & Ho & B & _ & <-). exists (headers t). split_and!.
  - unfold AVLTraverse. erewrite bind_ok by done. apply avl_traverse_ok; [done|by apply addrs_fuel].
  - unfold ordered in Ho. rewrite <- headers_binds, <- list_fmap_compose in Ho. exact Ho.
  - rewrite headers_binds. symmetry. apply map_to_list_to_map. by apply ordered_NoDup.
Qed.

End theorems.

(** The keys 5, 7 and 9: the third insertion rotates. *)
Definition ex_avl : heap :=
  <[1 := mkAvl 5 0 0 1 50]> (<[2 := mkAvl 7 1 3 2 70]> (<[3 := mkAvl 9 0 0 1 90]> ∅)).
Definition ex_avl_map : gmap Z Z := <[5 := 50]> (<[7 := 70]> (<[9 := 90]> ∅)).

Lemma ex_avl_ok : avl_map ex_avl 2 {[2; 1; 3]} ex_avl_map.
Proof.
  exists (Node (Node Leaf 1 5 1 50 Leaf) 2 7 2 70 (Node Leaf 3 9 1 90 Leaf)).
  split; [done|]. split; [by vm_compute|]. split; [|split; [|split; [|split]]].
  - apply NoDup_ListNoDup. repeat constructor; cbn; lia.
  - unfold ordered. cbn. repeat constructor; lia.
  - cbn. lia.
  - set_solver.
  - reflexivity.
Qed.

Example ex_avl_built :
  (let! (p, _) := AVLAllocate 0 5 50 in let! (p, _) := AVLAllocate p 7 70 in
   let! (p, _) := AVLAllocate p 9 90 in ret p) ∅ = Ok (2, ex_avl).
Proof. vm_compute. reflexivity. Qed.

Lemma avl_allocate_refines_witness :
  (exists p' new h', AVLAllocate 2 8 80 ex_avl = Ok ((p', new), h') /\
     ex_avl !! new = None /\ avl_map h' p' ({[new]} ∪ {[2; 1; 3]}) (<[8 := 80]> ex_avl_map) /\
     forall b, b ∉ ({[new]} ∪ {[2; 1; 3]} : gset Z) -> h' !! b = ex_avl !! b) /\
  AVLAllocate 2 7 0 ex_avl = Halted.
Proof.
  split.
  - apply (avl_allocate_refines ex_avl 2 {[2; 1; 3]} ex_avl_map 8 80 ex_avl_ok). reflexivity.
  - apply (avl_allocate_refines ex_avl 2 {[2; 1; 3]} ex_avl_map 7 0 ex_avl_ok). by exists 70.
Defined.

Lemma avl_unregister_refines_witness :
  exists p' A' res h', AVLUnregister 2 7 ex_avl = Ok ((p', res), h') /\
    avl_map h' p' A' (delete 7 ex_avl_map) /\ A' ⊆ {[2; 1; 3]} /\
    (forall b, b ∈ ({[2; 1; 3]} ∖ A' : gset Z) -> h' !! b = None) /\
    (forall b, b ∉ ({[2; 1; 3]} : gset Z) -> h' !! b = ex_avl !! b) /\
    (map_Forall (fun _ v => v <> 0) ex_avl_map -> res = bool_decide (is_Some (ex_avl_map !! 7))).
Proof. apply (avl_unregister_refines ex_avl 2 {[2; 1; 3]} ex_avl_map 7). apply ex_avl_ok. Defined.

Lemma avl_lookup_logarithmic_witness :
  AVLLookup 2 9 ex_avl = Ok (90, ex_avl) /\ avl_lookup 5 2 9 ex_avl = Ok (90, ex_avl).
Proof. apply (avl_lookup_logarithmic ex_avl 2 {[2; 1; 3]} ex_avl_map 9 5); [apply ex_avl_ok|reflexivity]. Defined.

Lemma avl_traverse_sorted_witness :
  exists ns, AVLTraverse 2 (fun n l => l ++ [a_key n]) [] ex_avl =
      Ok (foldl (fun c n => c ++ [a_key n]) [] ns, ex_avl) /\
    Sorted.StronglySorted Z.lt (a_key <$> ns) /\
    (fun n => (a_key n, a_value n)) <$> ns ≡ₚ map_to_list ex_avl_map.
Proof.
  apply (avl_traverse_sorted ex_avl 2 {[2; 1; 3]} ex_avl_map (fun n l => l ++ [a_key n]) []). apply ex_avl_ok.
Defined.
