(* ===== verification/KeyMap.v ===== *)
(** * Keyed tables

    What the descriptor table of a task relies on from the tree that holds it:
    three operations that behave like those of a finite map.  The AVL tree is an
    instance. *)

From S2P Require Import Prelude Heap AvlTree Avl.

(** [N]: the memory of the nodes; the first pointer of an operation is the root. *)
Class KeyMap (N : Type) := {
  km_allocate : Z -> Z -> Z -> M N (Z * Z);
  km_unregister : Z -> Z -> M N (Z * bool);
  km_lookup : Z -> Z -> M N Z;
  km_map : N -> Z -> gmap Z Z -> Prop;
  km_allocate_ok : forall n p m key v, km_map n p m -> m !! key = None ->
    exists p' new n', km_allocate p key v n = Ok ((p', new), n') /\ new <> 0 /\
      km_map n' p' (<[key := v]> m);
  km_allocate_dup : forall n p m key v, km_map n p m -> is_Some (m !! key) ->
    km_allocate p key v n = Halted;
  km_unregister_ok : forall n p m key, km_map n p m -> map_Forall (fun _ v => v <> 0) m ->
    exists p' n', km_unregister p key n = Ok ((p', bool_decide (is_Some (m !! key))), n') /\
      km_map n' p' (delete key m);
  km_lookup_ok : forall n p m key, km_map n p m ->
    km_lookup p key n = Ok (default 0 (m !! key), n);
}.

#[export] Instance avl_key_map `{!Allocator AVLheader} : KeyMap (gmap Z AVLheader).
Proof.
  refine {| km_allocate := AVLAllocate; km_unregister := AVLUnregister; km_lookup := AVLLookup;
            km_map h p m := exists A, avl_map h p A m |}.
  - intros h p m key v [A Hm] Hk. destruct (AVLAllocate_ok h p A m key v Hm Hk) as (p' & h' & E & Hm' & _).
    exists p', (malloc h), h'. split; [done|]. split; [apply malloc_nonnull|]. by eexists.
  - intros h p m key v [A Hm] Hk. by apply (AVLAllocate_dup h p A m).
  - intros h p m key [A Hm] Hv. destruct (AVLUnregister_ok h p A m key Hm) as (p' & A' & r & h' & E & Hm' & _ & _ & _ & Hr).
    exists p', h'. rewrite (Hr Hv) in E. split; [done|]. by exists A'.
  - intros h p m key [A Hm]. by apply (AVLLookup_ok h p A m).
Defined.

(** The empty table. *)
Lemma avl_empty `{!Allocator AVLheader} (h : gmap Z AVLheader) : km_map h 0 ∅.
Proof.
  exists ∅, Leaf. split_and!; try done; [by apply NoDup_nil|constructor].
Qed.
