(* ===== verification/VfsFiles.v ===== *)
(** * The descriptor table of a task ([filesystems/vfs/vfs_controller.cpp], [dup] and [dup2])

    The table is a bitmap of the descriptors in use and a tree from descriptors
    to [OpenFile] structures.  The handlers of a file system act on a world of
    their own; paths are those [VfsPath] shows [fsSanitize] to compute. *)

From S2P Require Import Prelude FileTypes Bytes Spinlock Heap KeyMap VfsPath VfsMount.

Definition VFS_CLOSE_FLAG_RETAIN_ID : Z := 1.

Record OpenFile := mkFile {
  f_id : Z;
  f_lock : bool;
  f_flags : Z;
  f_mode : Z;
  f_closeOnExec : bool;
  f_pointer : Z;
  f_tmp1 : Z;
  f_closeFlags : Z;
  f_handlers : Z;
  f_dir : Z;
}.

(** [calloc] and [file->id = id]. *)
Definition zero_file (id : Z) : OpenFile := mkFile (s32 id) false 0 0 false 0 0 0 0 0.
Definition set_opening (flags mode : Z) (f : OpenFile) : OpenFile :=
  mkFile (f_id f) (f_lock f) flags mode (f_closeOnExec f) 0 0 (f_closeFlags f) (f_handlers f) (f_dir f).
Definition set_handlers (h : Z) (coe : bool) (f : OpenFile) : OpenFile :=
  mkFile (f_id f) (f_lock f) (f_flags f) (f_mode f) (f_closeOnExec f || coe) (f_pointer f) (f_tmp1 f)
    (f_closeFlags f) h (f_dir f).
Definition set_closeOnExec (b : bool) (f : OpenFile) : OpenFile :=
  mkFile (f_id f) (f_lock f) (f_flags f) (f_mode f) b (f_pointer f) (f_tmp1 f)
    (f_closeFlags f) (f_handlers f) (f_dir f).
Definition set_closeFlags (c : Z) (f : OpenFile) : OpenFile :=
  mkFile (f_id f) (f_lock f) (f_flags f) (f_mode f) (f_closeOnExec f) (f_pointer f) (f_tmp1 f)
    c (f_handlers f) (f_dir f).
(** Everything but the first field. *)
Definition with_id (id : Z) (f : OpenFile) : OpenFile :=
  mkFile id (f_lock f) (f_flags f) (f_mode f) (f_closeOnExec f) (f_pointer f) (f_tmp1 f)
    (f_closeFlags f) (f_handlers f) (f_dir f).

Record TaskInfoFiles := mkInfo {
  WLOCK_FILES : Z;
  rlimitFdsSoft : Z;
  fdBitmap : list Z;
  firstFile : Z;
}.

Definition taskInfoFilesAllocate : TaskInfoFiles := mkInfo 0 1024 (replicate 128 0) 0.

(** The handlers the table calls; [None]: the null pointer.  [h_open] gets the
    path, the flags, the mode and the file, and returns its result, the file as
    it leaves it and the symbolic link it came across. *)
Record VfsHandlers (W : Type) := mkHandlers {
  h_open : option (list Z -> Z -> Z -> OpenFile -> M W (Z * OpenFile * option (list Z)));
  h_close : option (OpenFile -> M W bool);
  h_duplicate : option (OpenFile -> OpenFile -> M W (bool * OpenFile));
}.
Arguments mkHandlers {W}.
Arguments h_open {W}.
Arguments h_close {W}.
Arguments h_duplicate {W}.

Record Vfs (W N : Type) := mkVfs {
  v_world : W;
  v_nodes : N;
  v_files : gmap Z OpenFile;
  v_info : TaskInfoFiles;
}.
Arguments mkVfs {W N}.
Arguments v_world {W N}.
Arguments v_nodes {W N}.
Arguments v_files {W N}.
Arguments v_info {W N}.

(** Projections of a state that is written out. *)
Ltac vsimpl :=
  cbn [v_info fdBitmap firstFile v_nodes v_files WLOCK_FILES rlimitFdsSoft v_world] in *.

Section table.
Context {W N : Type} `{!KeyMap N} `{!Allocator OpenFile}.
Context (handlers : Z -> VfsHandlers W) (mounts : list MountPoint).
(** [epollCloseNotify] of [syscalls/poll.cpp]. *)
Context (epollCloseNotify : OpenFile -> M W unit).

#[local] Abbreviation V := (Vfs W N).

Definition in_world {A} (m : M W A) : M V A := fun s =>
  match m (v_world s) with
  | Ok (a, w) => Ok (a, mkVfs w (v_nodes s) (v_files s) (v_info s))
  | Halted => Halted
  | Fault => Fault
  | Hang => Hang
  end.
Definition in_nodes {A} (m : M N A) : M V A := fun s =>
  match m (v_nodes s) with
  | Ok (a, n) => Ok (a, mkVfs (v_world s) n (v_files s) (v_info s))
  | Halted => Halted
  | Fault => Fault
  | Hang => Hang
  end.
Definition in_files {A} (m : M (gmap Z OpenFile) A) : M V A := fun s =>
  match m (v_files s) with
  | Ok (a, h) => Ok (a, mkVfs (v_world s) (v_nodes s) h (v_info s))
  | Halted => Halted
  | Fault => Fault
  | Hang => Hang
  end.
Definition set_info (f : TaskInfoFiles -> TaskInfoFiles) : M V unit :=
  modify (fun s => mkVfs (v_world s) (v_nodes s) (v_files s) (f (v_info s))).
Definition set_firstFile (p : Z) : M V unit :=
  set_info (fun i => mkInfo (WLOCK_FILES i) (rlimitFdsSoft i) (fdBitmap i) p).
Definition set_fdBitmap (b : list Z) : M V unit :=
  set_info (fun i => mkInfo (WLOCK_FILES i) (rlimitFdsSoft i) b (firstFile i)).

(** A lock operation on [WLOCK_FILES]. *)
Definition wlock (op : Z -> outcome Z) : M V unit := fun s =>
  let i := v_info s in
  match op (WLOCK_FILES i) with
  | Ok c => Ok (tt, mkVfs (v_world s) (v_nodes s) (v_files s)
                      (mkInfo c (rlimitFdsSoft i) (fdBitmap i) (firstFile i)))
  | Halted => Halted
  | Fault => Fault
  | Hang => Hang
  end.

(** [bitmapGenericGet] and [bitmapGenericSet] on [fdBitmap]. *)
Definition bitmapGenericGet (index : Z) : M V bool :=
  let! s := get in
  let! b := from_option_fault (fdBitmap (v_info s) !! Z.to_nat (index / 8)) in
  ret (byte_bit b (index mod 8)).
Definition bitmapGenericSet (index : Z) (set : bool) : M V unit :=
  let! s := get in
  let bm := fdBitmap (v_info s) in
  let! b := from_option_fault (bm !! Z.to_nat (index / 8)) in
  set_fdBitmap (<[Z.to_nat (index / 8) :=
    if set then byte_set b (index mod 8) else byte_clear b (index mod 8)]> bm).

Definition fsRegisterNode (id : Z) : M V Z :=
  wlock spinlock_cnt_write_acquire ;;;
  let! file := in_files (allocate (zero_file id)) in
  let! s := get in
  let! (p, new) := in_nodes (km_allocate (firstFile (v_info s)) id file) in
  set_firstFile p ;;;
  kassert (negb (new =? 0)) ;;;
  wlock spinlock_cnt_write_release ;;;
  ret file.

Definition fsUnregisterNode (file : Z) : M V bool :=
  wlock spinlock_cnt_write_acquire ;;;
  let! f := in_files (deref file) in
  let! s := get in
  let! (p, r) := in_nodes (km_unregister (firstFile (v_info s)) (u64 (f_id f))) in
  set_firstFile p ;;;
  wlock spinlock_cnt_write_release ;;;
  ret r.

(** The loop of [fsIdFind] over the given descriptors; -1 as in the source. *)
Fixpoint id_find_loop (ids : list Z) : M V Z :=
  match ids with
  | [] => ret (-1)
  | i :: ids =>
      let! b := bitmapGenericGet i in
      if negb b then bitmapGenericSet i true ;;; ret i else id_find_loop ids
  end.

Definition fsIdFind : M V Z :=
  wlock spinlock_cnt_write_acquire ;;;
  let! s := get in
  let! r := id_find_loop (seqZ 0 (rlimitFdsSoft (v_info s))) in
  wlock spinlock_cnt_write_release ;;;
  kassert (negb (r =? -1)) ;;;
  ret r.

Definition fsIdRemove (fd : Z) : M V unit :=
  wlock spinlock_cnt_write_acquire ;;;
  bitmapGenericSet fd false ;;;
  wlock spinlock_cnt_write_release.

(** A new descriptor with its structure. *)
Definition open_begin (flags mode : Z) : M V Z :=
  let! id := fsIdFind in
  let! target := fsRegisterNode id in
  in_files (update target (set_opening flags mode)) ;;;
  ret target.

(** The clean-up of a failed open. *)
Definition forget (target : Z) : M V unit :=
  let! _ := fsUnregisterNode target in
  let! f := in_files (deref target) in
  fsIdRemove (u64 (f_id f)) ;;;
  in_files (dispose target).

(** The pointer to the new file, the null pointer or an error; [cwd] is the
    working directory.  The empty name makes [fsSanitize] overrun its block
    unless [cwd] is the root. *)
Fixpoint fsOpenGeneric (fuel : nat) (cwd filename : list Z) (flags mode : Z) : M V Z :=
  match fuel with
  | O => hang
  | S fuel =>
      if bool_decide (filename = []) && negb (bool_decide (cwd = [SLASH])) then fault
      else
        let safeFilename := show (canonical cwd filename) in
        let! target := open_begin flags mode in
        match fsDetermineMountPoint safeFilename mounts with
        | None => forget target ;;; ret 0
        | Some mnt =>
            in_files (update target
              (set_handlers (mnt_fs mnt) (negb (Z.land flags O_CLOEXEC =? 0)))) ;;;
            match h_open (handlers (mnt_fs mnt)) with
            | None => ret target
            | Some open =>
                let! f := in_files (deref target) in
                let! (r, f', symlink) :=
                  in_world (open (fsStripMountpoint safeFilename mnt) flags mode f) in
                in_files (update target (fun _ => f')) ;;;
                if RET_IS_ERR r then
                  forget target ;;;
                  match symlink with
                  | Some link =>
                      if negb (r =? ERR ELOOP) then
                        match fsResolveSymlink mnt link with
                        | Some path => fsOpenGeneric fuel cwd path flags mode
                        | None => fault
                        end
                      else ret r
                  | None => ret r
                  end
                else ret target
            end
        end
  end.

Definition fsUserGetNode (fd : Z) : M V Z :=
  wlock spinlock_cnt_read_acquire ;;;
  let! s := get in
  let! browse := in_nodes (km_lookup (firstFile (v_info s)) (u64 (s32 fd))) in
  wlock spinlock_cnt_read_release ;;;
  ret browse.

Definition fsUserOpen (fuel : nat) (cwd filename : list Z) (flags mode : Z) : M V Z :=
  if negb (Z.land flags FASYNC =? 0) then ret (ERR ENOSYS)
  else
    let! file := fsOpenGeneric fuel cwd filename flags mode in
    if RET_IS_ERR file then ret file
    else let! f := in_files (deref file) in ret (u64 (f_id f)).

(** [suggid]: -1 for the lowest free descriptor. *)
Definition fsUserDuplicateNode (original suggid : Z) : M V Z :=
  let! id := if suggid =? -1 then fsIdFind else ret suggid in
  let! orphan := fsRegisterNode id in
  let! o := in_files (deref original) in
  in_files (update orphan (fun n => with_id (f_id n) o)) ;;;
  match h_duplicate (handlers (f_handlers o)) with
  | None => ret orphan
  | Some duplicate =>
      let! n := in_files (deref orphan) in
      let! (ok, n') := in_world (duplicate o n) in
      in_files (update orphan (fun _ => n')) ;;;
      if ok then ret orphan else in_files (dispose orphan) ;;; ret 0
  end.

Definition fsCloseGeneric (file : Z) : M V bool :=
  let! f := in_files (deref file) in
  (if f_lock f then hang else ret tt) ;;;
  let! _ := fsUnregisterNode file in
  let! res := match h_close (handlers (f_handlers f)) with
              | Some close => in_world (close f)
              | None => ret true
              end in
  in_world (epollCloseNotify f) ;;;
  (if Z.land (f_closeFlags f) VFS_CLOSE_FLAG_RETAIN_ID =? 0 then fsIdRemove (u64 (f_id f)) else ret tt) ;;;
  in_files (dispose file) ;;;
  ret res.

Definition fsUserClose (fd : Z) : M V Z :=
  let! file := fsUserGetNode fd in
  if file =? 0 then ret (ERR EBADF)
  else let! res := fsCloseGeneric file in ret (if res then 0 else u64 (-1)).

Definition syscallDup (fd : Z) : M V Z :=
  let! file := fsUserGetNode fd in
  if file =? 0 then ret (ERR EBADF)
  else
    let! new := fsUserDuplicateNode file (-1) in
    in_files (update new (set_closeOnExec false)) ;;;
    let! f := in_files (deref new) in
    ret (if negb (new =? 0) then u64 (f_id f) else u64 (-1)).

(** [dup2] between the checks and the copy: [newFd] is marked, or its file closed. *)
Definition dup2_prepare (newFd : Z) : M V unit :=
  wlock spinlock_cnt_write_acquire ;;;
  let! s := get in
  let! browse := in_nodes (km_lookup (firstFile (v_info s)) newFd) in
  (if browse =? 0 then bitmapGenericSet newFd true
   else in_files (update browse (fun f =>
          set_closeFlags (Z.lor (f_closeFlags f) VFS_CLOSE_FLAG_RETAIN_ID) f))) ;;;
  wlock spinlock_cnt_write_release ;;;
  (if negb (browse =? 0) then let! r := fsUserClose newFd in kassert (r =? 0) else ret tt).

Definition syscallDup2 (oldFd newFd : Z) : M V Z :=
  let! realFile := fsUserGetNode oldFd in
  if realFile =? 0 then ret (ERR EBADF)
  else if oldFd =? newFd then ret newFd
  else
    dup2_prepare newFd ;;;
    let! new := fsUserDuplicateNode realFile newFd in
    kassert (negb (new =? 0)) ;;;
    in_files (update new (set_closeOnExec false)) ;;;
    ret newFd.

End table.

Section invariant.
Context {W N : Type} `{!KeyMap N} `{!Allocator OpenFile}.

#[local] Abbreviation V := (Vfs W N).

(** ** The table as a finite map *)

(** [t]: the open files by descriptor; [m]: where their structures are; [R]: the
    descriptors marked without being open. *)
Record table_ok (R : gset Z) (s : V) (t : gmap Z OpenFile) (m : gmap Z Z) : Prop := {
  tk_map : km_map (v_nodes s) (firstFile (v_info s)) m;
  tk_lock : WLOCK_FILES (v_info s) = 0;
  tk_limit : rlimitFdsSoft (v_info s) <= 8 * zlen (fdBitmap (v_info s)) <= 2 ^ 31;
  tk_bits : forall i, 0 <= i < 8 * zlen (fdBitmap (v_info s)) ->
    bit (fdBitmap (v_info s)) i = bool_decide (i ∈ dom m ∪ R);
  tk_range : forall i, i ∈ dom m -> 0 <= i < 8 * zlen (fdBitmap (v_info s));
  tk_files : forall id a, m !! id = Some a -> a <> 0 /\
    exists f, v_files s !! a = Some f /\ f_id f = id /\ t !! id = Some f;
  tk_dom : dom t = dom m;
}.

Lemma in_files_ok {A} (c : M (gmap Z OpenFile) A) (s : V) a h :
  c (v_files s) = Ok (a, h) -> in_files c s = Ok (a, mkVfs (v_world s) (v_nodes s) h (v_info s)).
Proof. intros E. unfold in_files. by rewrite E. Qed.

Lemma in_nodes_ok {A} (c : M N A) (s : V) a n :
  c (v_nodes s) = Ok (a, n) -> in_nodes c s = Ok (a, mkVfs (v_world s) n (v_files s) (v_info s)).
Proof. intros E. unfold in_nodes. by rewrite E. Qed.

Lemma in_world_ok {A} (c : M W A) (s : V) a w :
  c (v_world s) = Ok (a, w) -> in_world c s = Ok (a, mkVfs w (v_nodes s) (v_files s) (v_info s)).
Proof. intros E. unfold in_world. by rewrite E. Qed.

Lemma table_ok_world R w w' n h i t m :
  table_ok R (mkVfs w n h i) t m -> table_ok R (mkVfs w' n h i) t m.
Proof. by intros []. Qed.

Lemma table_ok_mark R R' s t m :
  dom m ∪ R = dom m ∪ R' -> table_ok R s t m -> table_ok R' s t m.
Proof. intros E [? ? ? Hb ? ? ?]. split; try done. intros i Hi. rewrite Hb, E; done. Qed.

Lemma fd_get_ok (s : V) i : 0 <= i < 8 * zlen (fdBitmap (v_info s)) ->
  bitmapGenericGet i s = Ok (bit (fdBitmap (v_info s)) i, s).
Proof.
  intros Hi. unfold bitmapGenericGet. erewrite bind_ok by done.
  pose proof (bit_in_range _ _ Hi) as Hr. unfold zlen in Hr. rewrite Nat2Z.id in Hr.
  rewrite (list_lookup_lookup_total_lt _ _ Hr). cbn [from_option_fault]. erewrite bind_ok by done.
  unfold bit. rewrite byte_bit_testbit; [done|]. apply Z.mod_pos_bound. lia.
Qed.

Lemma fd_set_ok (s : V) i (b : bool) : 0 <= i < 8 * zlen (fdBitmap (v_info s)) ->
  bitmapGenericSet i b s = Ok (tt, mkVfs (v_world s) (v_nodes s) (v_files s)
    (mkInfo (WLOCK_FILES (v_info s)) (rlimitFdsSoft (v_info s))
      (if b then bit_set (fdBitmap (v_info s)) i else bit_clear (fdBitmap (v_info s)) i)
      (firstFile (v_info s)))).
Proof.
  intros Hi. unfold bitmapGenericSet. erewrite bind_ok by done.
  pose proof (bit_in_range _ _ Hi) as Hr. unfold zlen in Hr. rewrite Nat2Z.id in Hr.
  rewrite (list_lookup_lookup_total_lt _ _ Hr). cbn [from_option_fault]. erewrite bind_ok by done.
  unfold set_fdBitmap, set_info, modify. by destruct b.
Qed.

Lemma fd_set_fault (s : V) i (b : bool) :
  8 * zlen (fdBitmap (v_info s)) <= i -> bitmapGenericSet i b s = Fault.
Proof.
  intros Hi. unfold bitmapGenericSet. erewrite bind_ok by done.
  rewrite lookup_ge_None_2; [done|]. pose proof (Z.div_le_lower_bound i 8 (zlen (fdBitmap (v_info s)))).
  unfold zlen in *. lia.
Qed.

(** Marking and unmarking a descriptor that is not open. *)
Lemma table_ok_set_bit R w n h l soft bm p t m id :
  table_ok R (mkVfs w n h (mkInfo l soft bm p)) t m -> 0 <= id < 8 * zlen bm ->
  table_ok ({[id]} ∪ R) (mkVfs w n h (mkInfo l soft (bit_set bm id) p)) t m.
Proof.
  intros [Hm Hl Hs Hb Hr Hf Hd] Hi. vsimpl.
  split; vsimpl;
    rewrite ?zlen_bit_set; try done.
  intros i Hi'. rewrite bit_set_spec, Hb by lia.
  destruct (bool_decide_reflect (i = id)); destruct (bool_decide_reflect (i ∈ dom m ∪ R));
    symmetry; cbn [orb]; [apply bool_decide_eq_true|apply bool_decide_eq_true|
      apply bool_decide_eq_true|apply bool_decide_eq_false]; set_solver.
Qed.

Lemma table_ok_clear_bit R w n h l soft bm p t m id :
  table_ok ({[id]} ∪ R) (mkVfs w n h (mkInfo l soft bm p)) t m -> 0 <= id < 8 * zlen bm ->
  id ∉ dom m ∪ R ->
  table_ok R (mkVfs w n h (mkInfo l soft (bit_clear bm id) p)) t m.
Proof.
  intros [Hm Hl Hs Hb Hr Hf Hd] Hi Hn. vsimpl.
  split; vsimpl;
    rewrite ?zlen_bit_clear; try done.
  intros i Hi'. rewrite bit_clear_spec, Hb by lia.
  destruct (bool_decide_reflect (i = id)) as [->|Hne]; cbn [negb]; rewrite ?andb_false_r, ?andb_true_r.
  - symmetry. by apply bool_decide_eq_false.
  - apply bool_decide_ext. set_solver.
Qed.

Lemma id_find_loop_ok (s : V) k : forall a id, k = id - a -> 0 <= a <= id ->
  id < rlimitFdsSoft (v_info s) <= 8 * zlen (fdBitmap (v_info s)) ->
  bit (fdBitmap (v_info s)) id = false ->
  (forall j, a <= j < id -> bit (fdBitmap (v_info s)) j = true) ->
  id_find_loop (seqZ a (rlimitFdsSoft (v_info s) - a)) s =
    (bitmapGenericSet id true ;;; ret id) s.
Proof.
  assert (G : forall n a id, Z.of_nat n = id - a -> 0 <= a <= id ->
    id < rlimitFdsSoft (v_info s) <= 8 * zlen (fdBitmap (v_info s)) ->
    bit (fdBitmap (v_info s)) id = false ->
    (forall j, a <= j < id -> bit (fdBitmap (v_info s)) j = true) ->
    id_find_loop (seqZ a (rlimitFdsSoft (v_info s) - a)) s = (bitmapGenericSet id true ;;; ret id) s).
  { induction n as [|n IH]; intros a id Hn Ha Hl Hf Hb; rewrite seqZ_cons by lia; cbn [id_find_loop];
      erewrite bind_ok by (apply fd_get_ok; lia).
    - replace a with id by lia. by rewrite Hf.
    - rewrite (Hb a) by lia. cbn [negb].
      replace (Z.pred (rlimitFdsSoft (v_info s) - a)) with (rlimitFdsSoft (v_info s) - Z.succ a) by lia.
      apply IH; [lia|lia|lia|done|]. intros j Hj. apply Hb. lia. }
  intros a id -> Ha. apply (G (Z.to_nat (id - a))); lia.
Qed.

Lemma id_find_loop_none (s : V) ids :
  (forall i, i ∈ ids -> 0 <= i < 8 * zlen (fdBitmap (v_info s)) /\ bit (fdBitmap (v_info s)) i = true) ->
  id_find_loop ids s = Ok (-1, s).
Proof.
  induction ids as [|i ids IH]; intros H; [done|]. cbn [id_find_loop].
  destruct (H i ltac:(by left)) as [Hi Hb]. erewrite bind_ok by (by apply fd_get_ok). rewrite Hb.
  apply IH. intros j Hj. apply H. by right.
Qed.

(** The lowest descriptor that is neither open nor reserved. *)
Definition lowest_free (R : gset Z) (soft : Z) (t : gmap Z OpenFile) (id : Z) : Prop :=
  0 <= id < soft /\ (id ∉ dom t ∪ R) /\ forall j, 0 <= j < id -> j ∈ dom t ∪ R.

Lemma wlock_ok op (s : V) c :
  op (WLOCK_FILES (v_info s)) = Ok c -> wlock op s = Ok (tt, mkVfs (v_world s) (v_nodes s) (v_files s)
    (mkInfo c (rlimitFdsSoft (v_info s)) (fdBitmap (v_info s)) (firstFile (v_info s)))).
Proof. intros E. unfold wlock. by rewrite E. Qed.

Lemma fsIdFind_ok R (s : V) t m id :
  table_ok R s t m -> lowest_free R (rlimitFdsSoft (v_info s)) t id ->
  exists s', fsIdFind s = Ok (id, s') /\ table_ok ({[id]} ∪ R) s' t m /\
    v_world s' = v_world s /\ v_files s' = v_files s /\
    rlimitFdsSoft (v_info s') = rlimitFdsSoft (v_info s) /\ zlen (fdBitmap (v_info s')) = zlen (fdBitmap (v_info s)).
Proof.
  intros Hk (Hi & Hn & Hj). pose proof Hk as [Hm Hl Hs Hb Hr Hf Hd].
  destruct s as [w n h [l soft bm p]]. vsimpl.
  subst l. rewrite Hd in *. unfold fsIdFind. erewrite bind_ok by (by apply wlock_ok).
  vsimpl.
  erewrite bind_ok by done. cbn [v_info rlimitFdsSoft].
  set (s1 := mkVfs w n h (mkInfo (-1) soft bm p)).
  erewrite bind_ok.
  2:{ replace soft with (rlimitFdsSoft (v_info s1) - 0) by (cbn; lia).
      rewrite (id_find_loop_ok s1 (id - 0) 0 id); [|lia|lia|cbn [s1 v_info rlimitFdsSoft fdBitmap]; lia| |].
      - erewrite bind_ok by (apply fd_set_ok; cbn [s1 v_info fdBitmap]; lia). reflexivity.
      - cbn [s1 v_info fdBitmap]. rewrite Hb by lia. by apply bool_decide_eq_false.
      - intros j Hj'. cbn [s1 v_info fdBitmap]. rewrite Hb by lia. apply bool_decide_eq_true, Hj. lia. }
  erewrite bind_ok by (by apply wlock_ok). rewrite (proj2 (Z.eqb_neq _ _)) by lia.
  erewrite bind_ok by done. eexists. split; [done|].
  unfold s1; vsimpl.
  split; [by apply table_ok_set_bit; [|lia]|]. by rewrite zlen_bit_set.
Qed.

Lemma fsIdFind_full R (s : V) t m :
  table_ok R s t m -> (forall i, 0 <= i < rlimitFdsSoft (v_info s) -> i ∈ dom t ∪ R) ->
  fsIdFind s = Halted.
Proof.
  intros [Hm Hl Hs Hb Hr Hf Hd] Hfull. rewrite Hd in Hfull.
  destruct s as [w n h [l soft bm p]]. vsimpl.
  subst l. unfold fsIdFind. erewrite bind_ok by (by apply wlock_ok).
  vsimpl.
  erewrite bind_ok by done. cbn [v_info rlimitFdsSoft].
  erewrite bind_ok; [|apply id_find_loop_none].
  - erewrite bind_ok by (by apply wlock_ok). done.
  - cbn [v_info fdBitmap]. intros i Hi%elem_of_seqZ. split; [lia|]. rewrite Hb by lia.
    apply bool_decide_eq_true, Hfull. lia.
Qed.

(** Everything of a state but the tree and the files. *)
Definition same_info (s s' : V) : Prop :=
  v_world s' = v_world s /\ rlimitFdsSoft (v_info s') = rlimitFdsSoft (v_info s) /\
  fdBitmap (v_info s') = fdBitmap (v_info s).

(** A reserved descriptor gets a new, zeroed structure. *)
Lemma fsRegisterNode_ok R (s : V) t m id :
  table_ok ({[id]} ∪ R) s t m -> id ∉ dom t -> 0 <= id < 8 * zlen (fdBitmap (v_info s)) ->
  exists s', fsRegisterNode id s = Ok (malloc (v_files s), s') /\
    table_ok R s' (<[id := zero_file id]> t) (<[id := malloc (v_files s)]> m) /\
    v_files s' = <[malloc (v_files s) := zero_file id]> (v_files s) /\ same_info s s'.
Proof.
  intros [Hm Hl Hs Hb Hr Hf Hd] Hi Hin. destruct s as [w n h [l soft bm p]]. vsimpl. subst l.
  unfold fsRegisterNode. erewrite bind_ok by (by apply wlock_ok). vsimpl.
  pose proof (malloc_fresh h) as Hfr. pose proof (malloc_nonnull h) as Hnn.
  erewrite bind_ok by (apply in_files_ok; vsimpl; apply allocate_ok). vsimpl.
  erewrite bind_ok by done. set (a := malloc h) in *.
  destruct (km_allocate_ok n p m id a) as (p' & new & n' & E & Hnew & Hm');
    [done|apply not_elem_of_dom; by rewrite <- Hd|].
  erewrite bind_ok by (by apply in_nodes_ok). vsimpl. erewrite bind_ok by done.
  rewrite (proj2 (Z.eqb_neq new 0)) by done. erewrite bind_ok by done.
  erewrite bind_ok by (by apply wlock_ok). eexists. split; [done|]. vsimpl.
  assert (Hid : f_id (zero_file id) = id) by (cbn; apply s32_small; lia).
  split; [|done]. split; vsimpl; try done.
  - intros i Hi'. rewrite Hb by done. apply bool_decide_ext. rewrite dom_insert_L. set_solver.
  - intros i. rewrite dom_insert_L, elem_of_union, elem_of_singleton. intros [->|Hi']; [done|by apply Hr].
  - intros j b [[<- <-]|[Hne Hj]]%lookup_insert_Some.
    + split; [done|]. exists (zero_file id). split; [apply lookup_insert_eq|]. split; [done|apply lookup_insert_eq].
    + destruct (Hf j b Hj) as (Hb0 & f & E1 & E2 & E3). split; [done|]. exists f.
      rewrite !lookup_insert_ne; [done|done|]. intros ->. congruence.
  - rewrite !dom_insert_L. by rewrite Hd.
Qed.

(** A descriptor leaves the tree; it stays marked and its structure stays. *)
Lemma fsUnregisterNode_ok R (s : V) t m id a :
  table_ok R s t m -> m !! id = Some a ->
  exists s', fsUnregisterNode a s = Ok (true, s') /\
    table_ok ({[id]} ∪ R) s' (delete id t) (delete id m) /\
    v_files s' = v_files s /\ same_info s s'.
Proof.
  intros [Hm Hl Hs Hb Hr Hf Hd] Ha. destruct s as [w n h [l soft bm p]]. vsimpl. subst l.
  unfold fsUnregisterNode. erewrite bind_ok by (by apply wlock_ok). vsimpl.
  destruct (Hf id a Ha) as (Ha0 & f & Ef & Eid & Et).
  assert (Hid : 0 <= id < 8 * zlen bm) by (apply Hr, elem_of_dom; by exists a).
  erewrite bind_ok by (apply in_files_ok; vsimpl; by apply deref_ok). vsimpl. erewrite bind_ok by done.
  rewrite Eid, u64_small by lia.
  destruct (km_unregister_ok n p m id) as (p' & n' & E & Hm'); [done|intros j b Hj; by apply (Hf j b)|].
  rewrite bool_decide_eq_true_2 in E by (by exists a).
  erewrite bind_ok by (by apply in_nodes_ok). vsimpl. erewrite bind_ok by done.
  erewrite bind_ok by (by apply wlock_ok). eexists. split; [done|]. vsimpl.
  split; [|done]. split; vsimpl; try done.
  - intros i Hi'. rewrite Hb by done. apply bool_decide_ext. rewrite dom_delete_L.
    assert (id ∈ dom m) by (apply elem_of_dom; by exists a). destruct (decide (i = id)); set_solver.
  - intros i. rewrite dom_delete_L. intros [Hi' _]%elem_of_difference. by apply Hr.
  - intros j b [Hne Hj]%lookup_delete_Some. destruct (Hf j b Hj) as (Hb0 & g & E1 & E2 & E3).
    split; [done|]. exists g. by rewrite lookup_delete_ne.
  - rewrite !dom_delete_L. by rewrite Hd.
Qed.

Lemma table_ok_update R w n h i t m id a f f' :
  table_ok R (mkVfs w n h i) t m -> m !! id = Some a -> h !! a = Some f -> f_id f' = id ->
  table_ok R (mkVfs w n (<[a := f']> h) i) (<[id := f']> t) m.
Proof.
  intros [Hm Hl Hs Hb Hr Hf Hd] Ha Hh Hid. destruct (Hf id a Ha) as (_ & f0 & F1 & F2 & _).
  split; vsimpl; try done.
  - intros j b Hj. destruct (Hf j b Hj) as (Hb0 & g & E1 & E2 & E3). split; [done|].
    destruct (decide (j = id)) as [->|Hne].
    + exists f'. assert (b = a) as -> by congruence. by rewrite !lookup_insert_eq.
    + exists g. rewrite !lookup_insert_ne; [done|done|]. intros ->. congruence.
  - rewrite dom_insert_L, Hd. assert (id ∈ dom m) by (apply elem_of_dom; by exists a). set_solver.
Qed.

Lemma table_ok_dispose R w n h i t m a :
  table_ok R (mkVfs w n h i) t m -> (forall id, m !! id <> Some a) ->
  table_ok R (mkVfs w n (delete a h) i) t m.
Proof.
  intros [Hm Hl Hs Hb Hr Hf Hd] Ha. split; vsimpl; try done.
  intros j b Hj. destruct (Hf j b Hj) as (Hb0 & g & E1 & E2 & E3). split; [done|]. exists g.
  rewrite lookup_delete_ne; [done|]. intros ->. by apply (Ha j).
Qed.

Lemma fsIdRemove_ok R (s : V) t m id :
  table_ok ({[id]} ∪ R) s t m -> id ∉ dom t -> id ∉ R -> 0 <= id < 8 * zlen (fdBitmap (v_info s)) ->
  exists s', fsIdRemove id s = Ok (tt, s') /\ table_ok R s' t m /\
    v_world s' = v_world s /\ v_files s' = v_files s /\
    rlimitFdsSoft (v_info s') = rlimitFdsSoft (v_info s) /\ zlen (fdBitmap (v_info s')) = zlen (fdBitmap (v_info s)).
Proof.
  intros Hk Ht HR Hi. pose proof Hk as [Hm Hl Hs Hb Hr Hf Hd]. rewrite Hd in Ht.
  destruct s as [w n h [l soft bm p]]. vsimpl. subst l. unfold fsIdRemove.
  erewrite bind_ok by (by apply wlock_ok). vsimpl.
  erewrite bind_ok by (by apply fd_set_ok). vsimpl. rewrite (wlock_ok _ _ 0) by done.
  eexists. split; [done|]. vsimpl. split; [apply table_ok_clear_bit; [done|done|set_solver]|].
  by rewrite zlen_bit_clear.
Qed.

Lemma table_ok_world_set R (s : V) w' t m :
  table_ok R s t m -> table_ok R (mkVfs w' (v_nodes s) (v_files s) (v_info s)) t m.
Proof. by intros []. Qed.

Lemma open_handler_deref (s : V) a f h0 :
  a <> 0 -> v_files s = <[a := f]> h0 -> in_files (deref a) s = Ok (f, s).
Proof.
  intros Ha Hf. rewrite (in_files_ok _ _ f (v_files s)); [by destruct s|].
  apply deref_ok; [done|]. rewrite Hf. apply lookup_insert_eq.
Qed.

(** What stays the same through the operations that undo themselves. *)
Definition same_limits (s s' : V) : Prop :=
  rlimitFdsSoft (v_info s') = rlimitFdsSoft (v_info s) /\ zlen (fdBitmap (v_info s')) = zlen (fdBitmap (v_info s)).

Lemma table_address_unique R (s : V) t m i j a :
  table_ok R s t m -> m !! i = Some a -> m !! j = Some a -> i = j.
Proof.
  intros [_ _ _ _ _ Hf _] Hi Hj. destruct (Hf i a Hi) as (_ & f & E1 & E2 & _).
  destruct (Hf j a Hj) as (_ & g & E3 & E4 & _). congruence.
Qed.

Lemma forget_ok R (s : V) t m id a :
  table_ok R s t m -> m !! id = Some a -> id ∉ R ->
  exists s', forget a s = Ok (tt, s') /\ table_ok R s' (delete id t) (delete id m) /\
    v_world s' = v_world s /\ v_files s' = delete a (v_files s) /\ same_limits s s'.
Proof.
  intros Hk Ha HR. pose proof Hk as [_ _ Hs _ Hr Hf _]. destruct (Hf id a Ha) as (Ha0 & f & Ef & Eid & _).
  assert (Hid : 0 <= id < 8 * zlen (fdBitmap (v_info s))) by (apply Hr, elem_of_dom; by exists a).
  destruct (fsUnregisterNode_ok R s t m id a Hk Ha) as (s1 & E1 & K1 & F1 & I1 & I2 & I3).
  unfold forget. mrw E1. rewrite <- F1 in Ef.
  erewrite bind_ok by (apply in_files_ok; by apply deref_ok). destruct s1 as [w1 n1 h1 i1]. vsimpl.
  rewrite Eid, u64_small by lia.
  destruct (fsIdRemove_ok R (mkVfs w1 n1 h1 i1) (delete id t) (delete id m) id) as (s2 & E2 & K2 & W2 & F2 & L2 & B2);
    [done|set_solver|done|by vsimpl; rewrite I3|].
  mrw E2. destruct s2 as [w2 n2 h2 i2]. vsimpl. subst h2 h1 w2.
  rewrite (in_files_ok _ _ tt (delete a (v_files s))) by (vsimpl; by eapply dispose_ok). vsimpl.
  eexists. split; [done|]. vsimpl. split; [|split_and!; [done|done|]].
  - apply table_ok_dispose; [done|]. intros j [Hne Hj]%lookup_delete_Some.
    apply Hne. exact (table_address_unique _ _ _ _ _ _ _ Hk Ha Hj).
  - split; cbn; [congruence|]. rewrite B2. by rewrite I3.
Qed.

Lemma fsUserGetNode_ok R (s : V) t m fd :
  table_ok R s t m -> - 2 ^ 31 <= fd < 2 ^ 31 ->
  fsUserGetNode fd s = Ok (default 0 (m !! u64 fd), s).
Proof.
  intros [Hm Hl _ _ _ _ _] Hfd. destruct s as [w n h [l soft bm p]]. vsimpl. subst l.
  unfold fsUserGetNode. erewrite bind_ok by (by apply wlock_ok). vsimpl. erewrite bind_ok by done.
  rewrite s32_small by lia. erewrite bind_ok by (apply in_nodes_ok; by apply km_lookup_ok). vsimpl.
  by erewrite bind_ok by (by apply wlock_ok).
Qed.

(** ** Opening *)

(** What an open that returns [r] leaves: after an error the file structures and
    their places are those of before, otherwise one new structure has been added
    for the descriptor. *)
Definition opened (s s' : V) (t' : gmap Z OpenFile) (m m' : gmap Z Z) (res : Z + Z) (r : Z) : Prop :=
  match res with
  | inl e => r = e /\ v_files s' = v_files s /\ m' = m
  | inr id => exists f, t' !! id = Some f /\ v_files s !! r = None /\
      v_files s' = <[r := f]> (v_files s) /\ m !! id = None /\ m' = <[id := r]> m
  end.

Lemma open_begin_ok R (s : V) t m flags mode id :
  table_ok R s t m -> lowest_free R (rlimitFdsSoft (v_info s)) t id ->
  exists s', open_begin flags mode s = Ok (malloc (v_files s), s') /\
    table_ok R s' (<[id := set_opening flags mode (zero_file id)]> t) (<[id := malloc (v_files s)]> m) /\
    v_files s' = <[malloc (v_files s) := set_opening flags mode (zero_file id)]> (v_files s) /\
    v_world s' = v_world s /\ same_limits s s'.
Proof.
  intros Hk Hlow. pose proof Hlow as (Hi & Hn & _).
  assert (Hi8 : 0 <= id < 8 * zlen (fdBitmap (v_info s))) by (pose proof (tk_limit _ _ _ _ Hk); lia).
  destruct (fsIdFind_ok R s t m id Hk Hlow) as (s1 & E1 & K1 & W1 & F1 & L1 & B1).
  unfold open_begin. mrw E1.
  destruct (fsRegisterNode_ok R s1 t m id) as (s2 & E2 & K2 & F2 & W2 & L2 & B2);
    [done|set_solver|by rewrite B1|].
  mrw E2. rewrite F1 in *. destruct s2 as [w2 n2 h2 i2]. vsimpl. subst h2.
  set (a := malloc (v_files s)) in *. pose proof (malloc_nonnull (v_files s)) as Hnn. fold a in Hnn.
  erewrite bind_ok by (apply in_files_ok; vsimpl; eapply update_ok; [done|apply lookup_insert_eq]).
  vsimpl. rewrite insert_insert_eq. eexists. split; [done|]. vsimpl. split_and!; [|done|congruence|..].
  - apply (table_ok_update R w2 n2 _ i2 _ _ id a (zero_file id) (set_opening flags mode (zero_file id))) in K2;
      [|apply lookup_insert_eq|apply lookup_insert_eq|cbn; apply s32_small; pose proof (tk_limit _ _ _ _ Hk); lia].
    by rewrite !insert_insert_eq in K2.
  - split; vsimpl; [congruence|]. by rewrite B2, B1.
Qed.

(** The structure an open handler gets. *)
Definition new_file (id flags mode : Z) (mnt : MountPoint) : OpenFile :=
  set_handlers (mnt_fs mnt) (negb (Z.land flags O_CLOEXEC =? 0)) (set_opening flags mode (zero_file id)).

(** A step of an open keeps the new structure's address and everything else. *)
Lemma set_new_file R (s : V) t m id a f f' h0 :
  table_ok R s (<[id := f]> t) (<[id := a]> m) -> a <> 0 -> v_files s = <[a := f]> h0 -> f_id f' = id ->
  exists s', in_files (update a (fun _ => f')) s = Ok (tt, s') /\
    table_ok R s' (<[id := f']> t) (<[id := a]> m) /\ v_files s' = <[a := f']> h0 /\
    v_world s' = v_world s /\ same_limits s s'.
Proof.
  intros Hk Ha Hf Hid. destruct s as [w n h i]. vsimpl. subst h.
  erewrite in_files_ok by (vsimpl; eapply update_ok; [done|apply lookup_insert_eq]).
  eexists. split; [done|]. vsimpl. rewrite insert_insert_eq. split_and!; [|done|done|done].
  apply (table_ok_update R w n _ i _ _ id a f f') in Hk; [|apply lookup_insert_eq|apply lookup_insert_eq|done].
  by rewrite !insert_insert_eq in Hk.
Qed.

Lemma same_limits_trans s1 s2 s3 : same_limits s1 s2 -> same_limits s2 s3 -> same_limits s1 s3.
Proof. intros [A B] [C D]. split; congruence. Qed.

(** Up to the open handler. *)
Lemma open_mounted R (s : V) t m flags mode id mnt :
  table_ok R s t m -> lowest_free R (rlimitFdsSoft (v_info s)) t id ->
  exists s1 s', open_begin flags mode s = Ok (malloc (v_files s), s1) /\
    in_files (update (malloc (v_files s))
      (set_handlers (mnt_fs mnt) (negb (Z.land flags O_CLOEXEC =? 0)))) s1 = Ok (tt, s') /\
    table_ok R s' (<[id := new_file id flags mode mnt]> t) (<[id := malloc (v_files s)]> m) /\
    v_files s' = <[malloc (v_files s) := new_file id flags mode mnt]> (v_files s) /\
    v_world s' = v_world s /\ same_limits s s'.
Proof.
  intros Hk Hlow. destruct (open_begin_ok R s t m flags mode id Hk Hlow) as (s1 & E1 & K1 & F1 & W1 & L1).
  pose proof (malloc_nonnull (v_files s)) as Hnn. set (a := malloc (v_files s)) in *.
  destruct (set_new_file R s1 t m id a _ (new_file id flags mode mnt) (v_files s) K1 Hnn F1)
    as (s2 & E2 & K2 & F2 & W2 & L2).
  { cbn. apply s32_small. destruct Hlow as [Hi _]. pose proof (tk_limit _ _ _ _ Hk). lia. }
  exists s1, s2. split; [done|]. split_and!; [|done|done|congruence|by eapply same_limits_trans].
  rewrite <- E2. unfold in_files, update. do 2 f_equal. unfold bind.
  rewrite (deref_ok (v_files s1) a (set_opening flags mode (zero_file id))); [done|done|].
  rewrite F1. apply lookup_insert_eq.
Qed.

(** The clean-up of a new structure restores the table and the files. *)
Lemma forget_new_ok R (s : V) t m id a f h0 :
  table_ok R s (<[id := f]> t) (<[id := a]> m) -> v_files s = <[a := f]> h0 ->
  h0 !! a = None -> id ∉ dom t ∪ R -> dom t = dom m ->
  exists s', forget a s = Ok (tt, s') /\ table_ok R s' t m /\ v_files s' = h0 /\
    v_world s' = v_world s /\ same_limits s s'.
Proof.
  intros Hk Hf Ha Hid Hd.
  destruct (forget_ok R s _ _ id a Hk) as (s' & E & K & W1 & F & L); [apply lookup_insert_eq|set_solver|].
  exists s'. split; [done|].
  rewrite !delete_insert_id in K by (apply not_elem_of_dom; set_solver).
  split; [done|]. rewrite F, Hf, delete_insert_id by done. done.
Qed.

End invariant.

Section opening.
Context {W N : Type} `{!KeyMap N} `{!Allocator OpenFile}.
Context (handlers : Z -> VfsHandlers W) (mounts : list MountPoint).

#[local] Abbreviation V := (Vfs W N).

Section open.
Context (R : gset Z) (soft : Z) (cwd : list Z) (flags mode : Z).

Definition usable_name (path : list Z) : Prop := path <> [] \/ cwd = [SLASH].

(** What an open does to the world and to the descriptors: the result is a
    descriptor ([inr]), or the null pointer or an error ([inl]). *)
Inductive open_spec : list Z -> W -> gmap Z OpenFile -> Z + Z -> W -> gmap Z OpenFile -> Prop :=
  | os_unmounted path w t id :
      usable_name path -> lowest_free R soft t id ->
      fsDetermineMountPoint (show (canonical cwd path)) mounts = None ->
      open_spec path w t (inl 0) w t
  | os_plain path w t id mnt :
      usable_name path -> lowest_free R soft t id ->
      fsDetermineMountPoint (show (canonical cwd path)) mounts = Some mnt ->
      h_open (handlers (mnt_fs mnt)) = None ->
      open_spec path w t (inr id) w (<[id := new_file id flags mode mnt]> t)
  | os_done path w t id mnt open r f' link w' :
      usable_name path -> lowest_free R soft t id ->
      fsDetermineMountPoint (show (canonical cwd path)) mounts = Some mnt ->
      h_open (handlers (mnt_fs mnt)) = Some open ->
      open (fsStripMountpoint (show (canonical cwd path)) mnt) flags mode
        (new_file id flags mode mnt) w = Ok ((r, f', link), w') ->
      f_id f' = id -> RET_IS_ERR r = false ->
      open_spec path w t (inr id) w' (<[id := f']> t)
  | os_error path w t id mnt open r f' link w' :
      usable_name path -> lowest_free R soft t id ->
      fsDetermineMountPoint (show (canonical cwd path)) mounts = Some mnt ->
      h_open (handlers (mnt_fs mnt)) = Some open ->
      open (fsStripMountpoint (show (canonical cwd path)) mnt) flags mode
        (new_file id flags mode mnt) w = Ok ((r, f', link), w') ->
      f_id f' = id -> RET_IS_ERR r = true -> link = None \/ r = ERR ELOOP ->
      open_spec path w t (inl r) w' t
  | os_link path w t id mnt open r f' link path' w' res w'' t'' :
      usable_name path -> lowest_free R soft t id ->
      fsDetermineMountPoint (show (canonical cwd path)) mounts = Some mnt ->
      h_open (handlers (mnt_fs mnt)) = Some open ->
      open (fsStripMountpoint (show (canonical cwd path)) mnt) flags mode
        (new_file id flags mode mnt) w = Ok ((r, f', Some link), w') ->
      f_id f' = id -> RET_IS_ERR r = true -> r <> ERR ELOOP ->
      fsResolveSymlink mnt link = Some path' ->
      open_spec path' w' t res w'' t'' ->
      open_spec path w t res w'' t''.
End open.

Lemma usable_test cwd path : usable_name cwd path ->
  bool_decide (path = []) && negb (bool_decide (cwd = [SLASH])) = false.
Proof.
  intros [Hp| ->]; [by rewrite bool_decide_eq_false_2 by done|].
  rewrite (bool_decide_eq_true_2 ([SLASH] = [SLASH])) by done. apply andb_false_r.
Qed.

(** Up to the test of the handler's result. *)
Lemma open_handler_ok R (s : V) t m cwd path flags mode id mnt open r f' link w' :
  table_ok R s t m -> usable_name cwd path -> lowest_free R (rlimitFdsSoft (v_info s)) t id ->
  fsDetermineMountPoint (show (canonical cwd path)) mounts = Some mnt ->
  h_open (handlers (mnt_fs mnt)) = Some open ->
  open (fsStripMountpoint (show (canonical cwd path)) mnt) flags mode
    (new_file id flags mode mnt) (v_world s) = Ok ((r, f', link), w') -> f_id f' = id ->
  exists s', table_ok R s' (<[id := f']> t) (<[id := malloc (v_files s)]> m) /\
    v_files s' = <[malloc (v_files s) := f']> (v_files s) /\ v_world s' = w' /\ same_limits s s' /\
    forall fuel, fsOpenGeneric handlers mounts (S fuel) cwd path flags mode s =
      (if RET_IS_ERR r then
         forget (malloc (v_files s)) ;;;
         match link with
         | Some link =>
             if negb (r =? ERR ELOOP) then
               match fsResolveSymlink mnt link with
               | Some path => fsOpenGeneric handlers mounts fuel cwd path flags mode
               | None => fault
               end
             else ret r
         | None => ret r
         end
       else ret (malloc (v_files s))) s'.
Proof.
  intros Hk Hu Hlow Hd Ho Eo Hid. pose proof (malloc_nonnull (v_files s)) as Hnn.
  destruct (open_mounted R s t m flags mode id mnt Hk Hlow) as (s1 & s2 & E1 & E2 & K2 & F2 & W2 & L2).
  set (a := malloc (v_files s)) in *. pose proof (table_ok_world_set R s2 w' _ _ K2) as K3.
  destruct (set_new_file R _ t m id a _ f' (v_files s) K3 Hnn F2 Hid) as (s4 & E4 & K4 & F4 & W4 & L4).
  exists s4. split_and!; [done|done|done|by eapply same_limits_trans|].
  intros fuel. cbn [fsOpenGeneric]. rewrite usable_test by done. mrw E1.
  rewrite Hd. mrw E2. rewrite Ho. erewrite bind_ok by (eapply open_handler_deref; [exact Hnn|exact F2]).
  erewrite bind_ok by (apply in_world_ok; rewrite W2; exact Eo). cbv beta iota. by mrw E4.
Qed.

Lemma fsOpenGeneric_ok R soft cwd flags mode path w t res w' t' :
  open_spec R soft cwd flags mode path w t res w' t' -> forall s m,
  table_ok R s t m -> rlimitFdsSoft (v_info s) = soft -> v_world s = w ->
  exists n r s' m',
    (forall fuel, (n <= fuel)%nat -> fsOpenGeneric handlers mounts fuel cwd path flags mode s = Ok (r, s')) /\
    table_ok R s' t' m' /\ v_world s' = w' /\ same_limits s s' /\ opened s s' t' m m' res r.
Proof.
  induction 1 as [path w t id Hu Hlow Hd | path w t id mnt Hu Hlow Hd Ho
    | path w t id mnt open r f' link w' Hu Hlow Hd Ho Eo Hid Hr
    | path w t id mnt open r f' link w' Hu Hlow Hd Ho Eo Hid Hr Hl
    | path w t id mnt open r f' link path' w' res w'' t'' Hu Hlow Hd Ho Eo Hid Hr Hl Hp _ IH];
    intros s m Hk <- <-; pose proof (tk_dom _ _ _ _ Hk) as Hdom; pose proof (Hlow) as (_ & Hfree & _);
    pose proof (malloc_fresh (v_files s)) as Hfr;
    assert (Hmid : m !! id = None) by (apply not_elem_of_dom; set_solver).
  - destruct (open_begin_ok R s t m flags mode id Hk Hlow) as (s1 & E1 & K1 & F1 & W1 & L1).
    destruct (forget_new_ok R s1 t m id _ _ _ K1 F1 Hfr Hfree Hdom) as (s2 & E2 & K2 & F2 & W2 & L2).
    exists 1%nat, 0, s2, m. split.
    + intros [|fuel] Hf; [lia|]. cbn [fsOpenGeneric]. rewrite usable_test by done. mrw E1.
      rewrite Hd. by mrw E2.
    + split_and!; [done|congruence|by eapply same_limits_trans|]. by split_and!.
  - destruct (open_mounted R s t m flags mode id mnt Hk Hlow) as (s1 & s2 & E1 & E2 & K2 & F2 & W2 & L2).
    exists 1%nat, (malloc (v_files s)), s2, (<[id := malloc (v_files s)]> m). split.
    + intros [|fuel] Hf; [lia|]. cbn [fsOpenGeneric]. rewrite usable_test by done. mrw E1.
      rewrite Hd. mrw E2. by rewrite Ho.
    + split_and!; [done|done|done|]. eexists. split; [apply lookup_insert_eq|done].
  - destruct (open_handler_ok R s t m cwd path flags mode id mnt open r f' link w') as (s4 & K4 & F4 & W4 & L4 & E4);
      [done..|]. exists 1%nat, (malloc (v_files s)), s4, (<[id := malloc (v_files s)]> m). split.
    + intros [|fuel] Hf; [lia|]. rewrite E4. by rewrite Hr.
    + split_and!; [done|done|done|]. eexists. split; [apply lookup_insert_eq|done].
  - destruct (open_handler_ok R s t m cwd path flags mode id mnt open r f' link w') as (s4 & K4 & F4 & W4 & L4 & E4);
      [done..|].
    destruct (forget_new_ok R s4 t m id _ _ _ K4 F4 Hfr Hfree Hdom) as (s5 & E5 & K5 & F5 & W5 & L5).
    exists 1%nat, r, s5, m. split.
    + intros [|fuel] Hf; [lia|]. rewrite E4, Hr. mrw E5. destruct Hl as [->| ->]; [done|].
      rewrite Z.eqb_refl. cbn [negb]. by destruct link.
    + split_and!; [done|congruence|by eapply same_limits_trans|]. by split_and!.
  - destruct (open_handler_ok R s t m cwd path flags mode id mnt open r f' (Some link) w')
      as (s4 & K4 & F4 & W4 & L4 & E4); [done..|].
    destruct (forget_new_ok R s4 t m id _ _ _ K4 F4 Hfr Hfree Hdom) as (s5 & E5 & K5 & F5 & W5 & L5).
    pose proof (same_limits_trans _ _ _ L4 L5) as L6.
    destruct (IH s5 m K5) as (n & r' & s6 & m' & E6 & K6 & W6 & L7 & Hres); [apply L6|congruence|].
    exists (S n), r', s6, m'. split.
    + intros [|fuel] Hf; [lia|]. rewrite E4, Hr. mrw E5. rewrite (proj2 (Z.eqb_neq _ _) Hl). cbn [negb].
      rewrite Hp. apply E6. lia.
    + split_and!; [done|done|by eapply same_limits_trans|]. unfold opened in *. by rewrite <- F5.
Qed.

(** C22: Opening a path does what the abstract description says: the world changes
    as the handlers say, the lowest free descriptor gets the file the open
    handler left, in one new structure beside those of before, symbolic links are
    followed, and after an error or without a mount point the descriptors, the file
    structures and their places are exactly those of before the call, so that
    nothing leaks; the bitmap, the tree and the structures agree again in every
    case.  The call returns. *)
Theorem vfs_open_refines R (s : V) t m cwd path flags mode res w' t' :
  table_ok R s t m ->
  open_spec R (rlimitFdsSoft (v_info s)) cwd flags mode path (v_world s) t res w' t' ->
  exists n r s' m',
    (forall fuel, (n <= fuel)%nat -> fsOpenGeneric handlers mounts fuel cwd path flags mode s = Ok (r, s')) /\
    table_ok R s' t' m' /\ v_world s' = w' /\ opened s s' t' m m' res r.
Proof.
  intros Hk Ho. destruct (fsOpenGeneric_ok _ _ _ _ _ _ _ _ _ _ _ Ho s m Hk eq_refl eq_refl)
    as (n & r & s' & m' & E & K & W' & _ & Hr). by exists n, r, s', m'.
Qed.

End opening.

(** ** Closing and duplicating *)

Section closing.
Context {W N : Type} `{!KeyMap N} `{!Allocator OpenFile}.
Context (handlers : Z -> VfsHandlers W) (epollCloseNotify : OpenFile -> M W unit).

#[local] Abbreviation V := (Vfs W N).

(** The close handler, when there is one, and the notification of the pollers. *)
Definition close_world (f : OpenFile) (w : W) (res : bool) (w' : W) : Prop :=
  exists w1, match h_close (handlers (f_handlers f)) with
             | Some close => close f w = Ok (res, w1)
             | None => res = true /\ w1 = w
             end /\ epollCloseNotify f w1 = Ok (tt, w').

Definition retained (f : OpenFile) : bool := negb (Z.land (f_closeFlags f) VFS_CLOSE_FLAG_RETAIN_ID =? 0).

Lemma table_view R (s : V) t m id f :
  table_ok R s t m -> t !! id = Some f ->
  exists a, m !! id = Some a /\ a <> 0 /\ v_files s !! a = Some f /\ f_id f = id /\
    0 <= id < 8 * zlen (fdBitmap (v_info s)) /\ 8 * zlen (fdBitmap (v_info s)) <= 2 ^ 31.
Proof.
  intros [_ _ Hs _ Hr Hf Hd] Ht. assert (Hi : id ∈ dom m) by (rewrite <- Hd; apply elem_of_dom; by exists f).
  pose proof (Hr id Hi). apply elem_of_dom in Hi as [a Ha]. exists a. split; [done|].
  destruct (Hf id a Ha) as (H0 & g & E1 & E2 & E3). assert (g = f) as -> by congruence. split_and!; try done; lia.
Qed.

Lemma fsCloseGeneric_ok R (s : V) t m id a f res w' :
  table_ok R s t m -> m !! id = Some a -> t !! id = Some f -> id ∉ R -> f_lock f = false ->
  close_world f (v_world s) res w' ->
  exists s', fsCloseGeneric handlers epollCloseNotify a s = Ok (res, s') /\
    table_ok (if retained f then {[id]} ∪ R else R) s' (delete id t) (delete id m) /\
    v_world s' = w' /\ same_limits s s' /\ v_files s' = delete a (v_files s).
Proof.
  intros Hk Ha Ht HR Hl (w1 & Hc & Hp).
  destruct (table_view R s t m id f Hk Ht) as (a' & Ha' & Ha0 & Ef & Eid & Hid).
  assert (a' = a) as -> by congruence. clear Ha'. unfold fsCloseGeneric.
  erewrite bind_ok by (apply in_files_ok; by apply deref_ok). rewrite Hl.
  replace (mkVfs (v_world s) (v_nodes s) (v_files s) (v_info s)) with s by (by destruct s).
  erewrite bind_ok by done.
  destruct (fsUnregisterNode_ok R s t m id a Hk Ha) as (s1 & E1 & K1 & F1 & W1 & L1 & B1). mrw E1.
  erewrite (bind_ok _ _ s1 res (mkVfs w1 (v_nodes s1) (v_files s1) (v_info s1))).
  2:{ rewrite <- W1 in Hc. destruct (h_close (handlers (f_handlers f))) as [close|].
      - by apply in_world_ok.
      - destruct Hc as [-> ->]. unfold ret. by destruct s1. }
  erewrite bind_ok by (apply in_world_ok; exact Hp). vsimpl.
  set (s2 := mkVfs w' (v_nodes s1) (v_files s1) (v_info s1)).
  assert (K2 : table_ok ({[id]} ∪ R) s2 (delete id t) (delete id m)) by (by apply table_ok_world_set).
  assert (exists s3, (if Z.land (f_closeFlags f) VFS_CLOSE_FLAG_RETAIN_ID =? 0
    then fsIdRemove (u64 (f_id f)) else ret tt) s2 = Ok (tt, s3) /\
    table_ok (if retained f then {[id]} ∪ R else R) s3 (delete id t) (delete id m) /\
    v_world s3 = w' /\ same_limits s s3 /\ v_files s3 = v_files s) as (s3 & E3 & K3 & W3 & L3 & F3).
  { unfold retained. destruct (Z.land _ _ =? 0); cbn [negb].
    - rewrite Eid, u64_small by lia.
      destruct (fsIdRemove_ok R s2 (delete id t) (delete id m) id) as (s3 & E3 & K3 & W3 & F3 & L3 & B3);
        [done|set_solver|done|unfold s2; vsimpl; rewrite B1; lia|].
      exists s3. split_and!; [done|done|done| |unfold s2 in F3; vsimpl; congruence].
      unfold s2 in *. vsimpl. split; [congruence|]. by rewrite B3, B1.
    - exists s2. unfold s2. split_and!; [done|done|done| |done]. split; vsimpl; [done|by rewrite B1]. }
  mrw E3. destruct s3 as [w3 n3 h3 i3]. vsimpl. subst h3.
  erewrite bind_ok by (apply in_files_ok; vsimpl; by eapply dispose_ok). eexists. split; [done|]. vsimpl.
  split_and!; [|done|done|done]. apply table_ok_dispose; [done|].
  intros j [Hne Hj]%lookup_delete_Some. apply Hne. exact (table_address_unique _ _ _ _ _ _ _ Hk Ha Hj).
Qed.

Lemma fsUserClose_ok R (s : V) t m fd f res w' :
  table_ok R s t m -> t !! fd = Some f -> fd ∉ R -> f_lock f = false ->
  close_world f (v_world s) res w' ->
  exists s', fsUserClose handlers epollCloseNotify fd s = Ok (if res then 0 else u64 (-1), s') /\
    table_ok (if retained f then {[fd]} ∪ R else R) s' (delete fd t) (delete fd m) /\
    v_world s' = w' /\ same_limits s s' /\
    (forall a, m !! fd = Some a -> v_files s' = delete a (v_files s)).
Proof.
  intros Hk Ht HR Hl Hc. destruct (table_view R s t m fd f Hk Ht) as (a & Ha & Ha0 & Ef & Eid & Hid).
  destruct (fsCloseGeneric_ok R s t m fd a f res w' Hk Ha Ht HR Hl Hc) as (s' & E & K & W' & L & F).
  exists s'. unfold fsUserClose. erewrite bind_ok by (eapply fsUserGetNode_ok; [done|lia]).
  rewrite u64_small, Ha by lia. cbn [default from_option id]. rewrite (proj2 (Z.eqb_neq a 0)) by done.
  mrw E. split; [done|]. split_and!; [done|done|done|]. intros b Hb. congruence.
Qed.

Lemma fsUserClose_bad R (s : V) t m fd :
  table_ok R s t m -> - 2 ^ 31 <= fd < 2 ^ 31 -> t !! u64 fd = None ->
  fsUserClose handlers epollCloseNotify fd s = Ok (ERR EBADF, s).
Proof.
  intros Hk Hfd Ht. unfold fsUserClose. erewrite bind_ok by (by eapply fsUserGetNode_ok).
  assert (m !! u64 fd = None) as -> by (apply not_elem_of_dom; rewrite <- (tk_dom _ _ _ _ Hk); by apply not_elem_of_dom).
  done.
Qed.

(** The duplicate handler, when there is one, on the copied structure. *)
Definition duplicate_world (f n : OpenFile) (w : W) (n' : OpenFile) (w' : W) : Prop :=
  match h_duplicate (handlers (f_handlers f)) with
  | Some duplicate => duplicate f n w = Ok ((true, n'), w')
  | None => n' = n /\ w' = w
  end.

(** A reserved descriptor gets a copy. *)
Lemma duplicate_ok R (s : V) t m old o f id n' w' :
  table_ok ({[id]} ∪ R) s t m -> m !! old = Some o -> t !! old = Some f ->
  id ∉ dom t -> 0 <= id < 8 * zlen (fdBitmap (v_info s)) ->
  duplicate_world f (with_id id f) (v_world s) n' w' -> f_id n' = id ->
  exists s', fsUserDuplicateNode handlers o id s = Ok (malloc (v_files s), s') /\
    table_ok R s' (<[id := n']> t) (<[id := malloc (v_files s)]> m) /\ v_world s' = w' /\
    v_files s' = <[malloc (v_files s) := n']> (v_files s) /\ same_limits s s'.
Proof.
  intros Hk Ho Ht Hid Hi Hdup Hn'. pose proof (malloc_nonnull (v_files s)) as Hnn.
  pose proof (malloc_fresh (v_files s)) as Hfr. pose proof (tk_limit _ _ _ _ Hk) as Hlim.
  destruct (table_view _ _ _ _ _ _ Hk Ht) as (o' & Ho' & Ho0 & Ef & _).
  assert (o' = o) as -> by congruence. clear Ho'.
  unfold fsUserDuplicateNode. rewrite (proj2 (Z.eqb_neq id (-1))) by lia. erewrite bind_ok by done.
  destruct (fsRegisterNode_ok R s t m id Hk Hid Hi) as (s1 & E1 & K1 & F1 & W1 & L1 & B1). mrw E1.
  set (a := malloc (v_files s)) in *. assert (Hoa : a <> o) by (intros ->; congruence).
  assert (Ef1 : v_files s1 !! o = Some f) by (by rewrite F1, lookup_insert_ne).
  erewrite bind_ok by (apply in_files_ok; by apply deref_ok).
  replace (mkVfs (v_world s1) (v_nodes s1) (v_files s1) (v_info s1)) with s1 by (by destruct s1).
  assert (Hz : f_id (zero_file id) = id) by (cbn; apply s32_small; lia).
  destruct (set_new_file R s1 t m id a _ (with_id id f) (v_files s) K1 Hnn F1 eq_refl)
    as (s2 & E2 & K2 & F2 & W2 & L2).
  assert (E2' : in_files (update a (fun n => with_id (f_id n) f)) s1 = Ok (tt, s2)).
  { rewrite <- E2. unfold in_files, update, bind.
    rewrite (deref_ok (v_files s1) a (zero_file id)); [by rewrite Hz|done|rewrite F1; apply lookup_insert_eq]. }
  mrw E2'. assert (L02 : same_limits s s2).
  { eapply same_limits_trans; [|exact L2]. split; [done|by rewrite B1]. }
  rewrite <- W1, <- W2 in Hdup. unfold duplicate_world in Hdup.
  destruct (h_duplicate (handlers (f_handlers f))) as [dup|].
  - erewrite bind_ok by (eapply open_handler_deref; [exact Hnn|exact F2]).
    erewrite bind_ok by (apply in_world_ok; exact Hdup). cbv beta iota.
    pose proof (table_ok_world_set R s2 w' _ _ K2) as K3.
    destruct (set_new_file R _ t m id a _ n' (v_files s) K3 Hnn F2 Hn') as (s4 & E4 & K4 & F4 & W4 & L4).
    mrw E4. exists s4. split_and!; [done|done|done|done|]. by eapply same_limits_trans.
  - destruct Hdup as [-> ->]. exists s2. by split_and!.
Qed.

Lemma unset_closeOnExec_ok R (s : V) t m id a f h0 :
  table_ok R s (<[id := f]> t) (<[id := a]> m) -> a <> 0 -> v_files s = <[a := f]> h0 -> f_id f = id ->
  exists s', in_files (update a (set_closeOnExec false)) s = Ok (tt, s') /\
    table_ok R s' (<[id := set_closeOnExec false f]> t) (<[id := a]> m) /\
    v_files s' = <[a := set_closeOnExec false f]> h0 /\ v_world s' = v_world s /\ same_limits s s'.
Proof.
  intros Hk Ha Hf Hid. destruct (set_new_file R s t m id a f (set_closeOnExec false f) h0 Hk Ha Hf Hid)
    as (s' & E & K). exists s'. split; [|done]. rewrite <- E. unfold in_files, update, bind.
  rewrite (deref_ok (v_files s) a f); [done|done|]. rewrite Hf. apply lookup_insert_eq.
Qed.

(** [dup2] up to the copy: the new descriptor is reserved and not open. *)
Definition dup2_cleared (t : gmap Z OpenFile) (newFd : Z) (w w' : W) : Prop :=
  match t !! newFd with
  | None => w' = w
  | Some g => f_lock g = false /\
      close_world (set_closeFlags (Z.lor (f_closeFlags g) VFS_CLOSE_FLAG_RETAIN_ID) g) w true w'
  end.

Lemma retained_set g :
  retained (set_closeFlags (Z.lor (f_closeFlags g) VFS_CLOSE_FLAG_RETAIN_ID) g) = true.
Proof.
  unfold retained. cbn [set_closeFlags f_closeFlags]. apply negb_true_iff, Z.eqb_neq. intros E.
  apply (f_equal (fun z => Z.testbit z 0)) in E. rewrite Z.land_spec, Z.lor_spec, Z.bits_0 in E.
  change (Z.testbit VFS_CLOSE_FLAG_RETAIN_ID 0) with true in E. by destruct (Z.testbit _ 0).
Qed.

Lemma dup2_prepare_ok R (s : V) t m newFd w' :
  table_ok R s t m -> newFd ∉ R -> 0 <= newFd < 8 * zlen (fdBitmap (v_info s)) ->
  dup2_cleared t newFd (v_world s) w' ->
  exists s', dup2_prepare handlers epollCloseNotify newFd s = Ok (tt, s') /\
    table_ok ({[newFd]} ∪ R) s' (delete newFd t) (delete newFd m) /\ v_world s' = w' /\ same_limits s s'.
Proof.
  intros Hk HR Hi Hc. pose proof Hk as [Hm Hl Hs Hb Hr Hf Hd].
  destruct s as [w n h [l soft bm p]]. vsimpl. subst l. unfold dup2_prepare.
  erewrite bind_ok by (by apply wlock_ok). vsimpl. erewrite bind_ok by done.
  erewrite bind_ok by (apply in_nodes_ok; vsimpl; by apply km_lookup_ok). vsimpl.
  unfold dup2_cleared in Hc. destruct (t !! newFd) as [g|] eqn:Eg.
  - destruct Hc as [Hlk Hc]. destruct (table_view _ _ _ _ _ _ Hk Eg) as (b & Eb & Hb0 & Ef & Eid & _).
    vsimpl. rewrite Eb. cbn [default from_option id]. rewrite (proj2 (Z.eqb_neq b 0)) by done. cbn [negb].
    erewrite bind_ok by (apply in_files_ok; vsimpl; by eapply update_ok). vsimpl.
    erewrite bind_ok by (by apply wlock_ok). vsimpl.
    set (g' := set_closeFlags (Z.lor (f_closeFlags g) VFS_CLOSE_FLAG_RETAIN_ID) g) in *.
    pose proof (table_ok_update R w n h _ t m newFd b g g' Hk Eb Ef Eid) as K1.
    destruct (fsUserClose_ok R _ _ m newFd g' true w' K1) as (s' & E & K & W' & L & _);
      [apply lookup_insert_eq|done|done|done|].
    pose proof (retained_set g) as Hrs. fold g' in Hrs. rewrite Hrs, delete_insert_eq in K.
    mrw E. exists s'. split; [done|]. split_and!; [done|done|]. exact L.
  - subst w'. assert (Em : m !! newFd = None).
    { apply not_elem_of_dom. rewrite <- Hd. by apply not_elem_of_dom. }
    rewrite Em. change (default 0 None =? 0) with true. cbv iota. cbn [negb].
    erewrite bind_ok by (by apply fd_set_ok). vsimpl. erewrite bind_ok by (by apply wlock_ok). vsimpl.
    eexists. split; [done|]. vsimpl. rewrite !delete_id by done.
    split_and!; [by apply table_ok_set_bit|done|]. split; vsimpl; [done|by rewrite zlen_bit_set].
Qed.

(** C24: Closing a descriptor runs the close handler and the notification of the
    pollers, takes the file out of the table, releases its structure and, unless
    the file is marked to keep its number, the descriptor; the result is 0 or -1
    as the handler says.  A number that is not open gives [-EBADF] and changes
    nothing. *)
Theorem vfs_close_refines R (s : V) t m fd :
  table_ok R s t m -> - 2 ^ 31 <= fd < 2 ^ 31 ->
  (t !! u64 fd = None -> fsUserClose handlers epollCloseNotify fd s = Ok (ERR EBADF, s)) /\
  (forall f res w', t !! fd = Some f -> fd ∉ R -> f_lock f = false ->
     close_world f (v_world s) res w' ->
     exists s', fsUserClose handlers epollCloseNotify fd s = Ok (if res then 0 else u64 (-1), s') /\
       table_ok (if retained f then {[fd]} ∪ R else R) s' (delete fd t) (delete fd m) /\
       v_world s' = w' /\ forall a, m !! fd = Some a -> v_files s' = delete a (v_files s)).
Proof.
  intros Hk Hfd. split; [by eapply fsUserClose_bad|]. intros f res w' Ht HR Hl Hc.
  destruct (fsUserClose_ok R s t m fd f res w' Hk Ht HR Hl Hc) as (s' & E & K & W' & _ & F). by exists s'.
Qed.

(** [dup2] makes [newFd] a copy of [oldFd] that is not closed on exec, closing
    what [newFd] was before, and keeps table, bitmap and structures in agreement;
    a [newFd] beyond the bitmap, which the code does not check, is a write
    outside it. *)
Theorem vfs_dup2_refines R (s : V) t m oldFd newFd f :
  table_ok R s t m -> t !! oldFd = Some f -> oldFd <> newFd -> newFd ∉ R -> 0 <= newFd ->
  (forall w1 n' w', newFd < 8 * zlen (fdBitmap (v_info s)) ->
     dup2_cleared t newFd (v_world s) w1 ->
     duplicate_world f (with_id newFd f) w1 n' w' -> f_id n' = newFd ->
     exists s' m', syscallDup2 handlers epollCloseNotify oldFd newFd s = Ok (newFd, s') /\
       table_ok R s' (<[newFd := set_closeOnExec false n']> t) m' /\ v_world s' = w') /\
  (8 * zlen (fdBitmap (v_info s)) <= newFd -> syscallDup2 handlers epollCloseNotify oldFd newFd s = Fault).
Proof.
  intros Hk Ht Hne HR Hi. destruct (table_view R s t m oldFd f Hk Ht) as (o & Ho & Ho0 & Ef & Eid & Hid).
  unfold syscallDup2. erewrite bind_ok by (eapply fsUserGetNode_ok; [done|lia]).
  rewrite u64_small, Ho by lia. cbn [default from_option id]. rewrite (proj2 (Z.eqb_neq o 0)) by done.
  rewrite (proj2 (Z.eqb_neq oldFd newFd)) by done. split.
  - intros w1 n' w' Hlt Hc Hdup Hn'.
    destruct (dup2_prepare_ok R s t m newFd w1 Hk HR ltac:(lia) Hc) as (s1 & E1 & K1 & W1 & L1 & B1).
    mrw E1. rewrite <- W1 in Hdup.
    destruct (duplicate_ok R s1 _ _ oldFd o f newFd n' w' K1) as (s2 & E2 & K2 & W2 & F2 & L2);
      [by rewrite lookup_delete_ne|by rewrite lookup_delete_ne|set_solver|rewrite B1; lia|done|done|].
    mrw E2. pose proof (malloc_nonnull (v_files s1)) as Hnn.
    rewrite (proj2 (Z.eqb_neq (malloc (v_files s1)) 0)) by done. erewrite bind_ok by done.
    destruct (unset_closeOnExec_ok R s2 _ _ newFd _ n' _ K2 Hnn F2 Hn') as (s3 & E3 & K3 & F3 & W3 & _).
    mrw E3. eexists s3, _. split; [done|]. rewrite insert_delete_eq in K3. split; [exact K3|congruence].
  - intros Hge. unfold dup2_prepare. pose proof Hk as [Hm Hl Hs Hb Hr Hf Hd].
    destruct s as [w n h [l soft bm p]]. vsimpl. subst l. unfold bind at 1 2.
    rewrite (wlock_ok _ _ (-1)) by done. vsimpl. erewrite bind_ok by done.
    erewrite bind_ok by (apply in_nodes_ok; vsimpl; by apply km_lookup_ok). vsimpl.
    assert (m !! newFd = None) as ->.
    { apply not_elem_of_dom. intros Hin. apply Hr in Hin. lia. }
    change (default 0 None =? 0) with true. cbv iota. unfold bind at 1. by rewrite fd_set_fault.
Qed.

End closing.

(** ** A small world: a counter of open files, one root mount *)

Definition ex_handlers (_ : Z) : VfsHandlers Z :=
  mkHandlers (Some (fun _ _ _ f w => Ok ((0, f, None), w + 1)))
    (Some (fun _ w => Ok (true, w - 1))) (Some (fun _ n w => Ok ((true, n), w + 1))).
Definition ex_notify (_ : OpenFile) : M Z unit := ret tt.
Definition ex_vfs : Vfs Z (gmap Z Avl.AVLheader) := mkVfs 0 ∅ ∅ taskInfoFilesAllocate.

Lemma ex_table_ok : table_ok ∅ ex_vfs ∅ ∅.
Proof.
  split.
  - apply avl_empty.
  - done.
  - by vm_compute.
  - intros i Hi. change (fdBitmap (v_info ex_vfs)) with (replicate 128 0) in *.
    rewrite bool_decide_eq_false_2 by set_solver. change (8 * zlen (replicate 128 0)) with 1024 in Hi.
    unfold bit. rewrite lookup_total_replicate_2; [apply Z.bits_0|].
    assert (i / 8 < 128) by (apply Z.div_lt_upper_bound; lia). lia.
  - intros i. set_solver.
  - intros id a H. by rewrite lookup_empty in H.
  - done.
Qed.

Lemma ex_open : open_spec ex_handlers [root_mount] ∅ 1024 [SLASH] 0 0 [97] 0 ∅ (inr 0) 1
  (<[0 := new_file 0 0 0 root_mount]> ∅).
Proof.
  eapply os_done; [by left|split; [lia|]; split; [set_solver|lia]|reflexivity|reflexivity|reflexivity|done|done].
Qed.

Lemma vfs_open_refines_witness :
  exists n r s' m', (forall fuel, (n <= fuel)%nat ->
      fsOpenGeneric ex_handlers [root_mount] fuel [SLASH] [97] 0 0 ex_vfs = Ok (r, s')) /\
    table_ok ∅ s' (<[0 := new_file 0 0 0 root_mount]> ∅) m' /\ v_world s' = 1.
Proof.
  destruct (vfs_open_refines ex_handlers [root_mount] ∅ ex_vfs ∅ ∅ [SLASH] [97] 0 0 (inr 0) 1
    (<[0 := new_file 0 0 0 root_mount]> ∅) ex_table_ok ex_open) as (n & r & s' & m' & E & K & W' & _).
  exists n, r, s', m'. split; [exact E|]. split; [exact K|exact W'].
Defined.

(** The state after the first open. *)
Lemma ex_opened : exists s m, table_ok ∅ s (<[0 := new_file 0 0 0 root_mount]> ∅) m /\ v_world s = 1 /\
  zlen (fdBitmap (v_info s)) = 128.
Proof.
  destruct (fsOpenGeneric_ok ex_handlers [root_mount] _ _ _ _ _ _ _ _ _ _ _ ex_open ex_vfs ∅ ex_table_ok eq_refl eq_refl)
    as (n & r & s' & m' & _ & K & W' & [_ L] & _). exists s', m'. split; [exact K|]. split; [exact W'|].
  rewrite L. reflexivity.
Qed.

Lemma vfs_close_refines_witness : exists s s' : Vfs Z (gmap Z Avl.AVLheader),
  v_world s = 1 /\ fsUserClose ex_handlers ex_notify 0 s = Ok (0, s') /\ table_ok ∅ s' ∅ ∅ /\ v_world s' = 0 /\
  fsUserClose ex_handlers ex_notify 5 s = Ok (ERR EBADF, s).
Proof.
  destruct ex_opened as (s & m & K & W1 & _).
  destruct (vfs_close_refines ex_handlers ex_notify ∅ s _ m 0 K ltac:(lia)) as [_ H].
  destruct (H (new_file 0 0 0 root_mount) true 0) as (s' & E & K' & W2 & _).
  { apply lookup_insert_eq. }
  { set_solver. }
  { reflexivity. }
  { exists 0. rewrite W1. by split. }
  destruct (vfs_close_refines ex_handlers ex_notify ∅ s _ m 5 K ltac:(lia)) as [H5 _].
  exists s, s'. split; [exact W1|]. split; [exact E|]. split_and!; [|exact W2|apply H5; reflexivity].
  change (retained _) with false in K'. cbv iota in K'. rewrite delete_insert_id in K' by reflexivity.
  pose proof (tk_dom _ _ _ _ K') as Hd. rewrite dom_empty_L in Hd. symmetry in Hd. apply dom_empty_inv_L in Hd.
  rewrite Hd in K'. exact K'.
Defined.

Lemma vfs_dup2_refines_witness : exists s s' m' : _,
  v_world s = 1 /\ syscallDup2 (N := gmap Z Avl.AVLheader) ex_handlers ex_notify 0 7 s = Ok (7, s') /\
  table_ok ∅ s' (<[7 := set_closeOnExec false (with_id 7 (new_file 0 0 0 root_mount))]>
    (<[0 := new_file 0 0 0 root_mount]> ∅)) m' /\
  syscallDup2 ex_handlers ex_notify 0 1024 s = Fault.
Proof.
  destruct ex_opened as (s & m & K & W1 & L).
  destruct (vfs_dup2_refines ex_handlers ex_notify ∅ s _ m 0 7 (new_file 0 0 0 root_mount) K) as [H _];
    [apply lookup_insert_eq|done|set_solver|done|].
  destruct (H 1 (with_id 7 (new_file 0 0 0 root_mount)) 2) as (s' & m' & E & K' & _);
    [rewrite L; lia|by rewrite W1|reflexivity|reflexivity|].
  destruct (vfs_dup2_refines ex_handlers ex_notify ∅ s _ m 0 1024 (new_file 0 0 0 root_mount) K) as [_ H'];
    [apply lookup_insert_eq|done|set_solver|done|].
  exists s, s', m'. split; [exact W1|]. split; [exact E|]. split; [exact K'|]. apply H'. rewrite L. lia.
Defined.
