(* ===== verification/Ext2Types.v ===== *)
(** * ext2: on-disk structures and the mounted file system ([include/kernel/disk/ext2.h])

    The packed structures of the on-disk format as records, their byte
    encodings, the in-memory [Ext2] control block and the state the ext2
    functions run over (drive, control block, counting locks). *)

From S2P Require Import Prelude Bytes Spinlock Disk.

(** ** Field-by-field reading of a packed structure *)

Definition next_le (n : Z) (bs : list Z) : Z * list Z :=
  (le_val (take (Z.to_nat n) bs), drop (Z.to_nat n) bs).
Definition next_bytes (n : Z) (bs : list Z) : list Z * list Z :=
  (take (Z.to_nat n) bs, drop (Z.to_nat n) bs).

Lemma next_le_app n v r :
  0 <= n -> 0 <= v < 2 ^ (n * 8) -> next_le n (le n v ++ r) = (v, r).
Proof.
  intros. unfold next_le. pose proof (zlen_le n v ltac:(lia)) as L. unfold zlen in L.
  rewrite take_app_length', drop_app_length' by lia. by rewrite le_val_le_small.
Qed.

Lemma next_bytes_app n b r : zlen b = n -> next_bytes n (b ++ r) = (b, r).
Proof.
  intros. unfold next_bytes, zlen in *. by rewrite take_app_length', drop_app_length' by lia.
Qed.

(** ** [Ext2Superblock] (with [Ext2SuperblockExtended]) *)

Record Ext2Superblock := mkSuperblock {
  total_inodes : Z;
  total_blocks : Z;
  su_blocks : Z;
  sb_free_blocks : Z;
  sb_free_inodes : Z;
  superblock_idx : Z;
  log2block_size : Z;
  log2frag_size : Z;
  blocks_per_group : Z;
  frags_per_group : Z;
  inodes_per_group : Z;
  sb_mtime : Z;
  sb_wtime : Z;
  mount_count : Z;
  mount_allowed_count : Z;
  ext2_magic : Z;
  fs_state : Z;
  sb_err : Z;
  sb_minor : Z;
  last_check : Z;
  sb_interval : Z;
  os_id : Z;
  sb_major : Z;
  r_userid : Z;
  r_groupid : Z;
  (* extended *)
  first_inode : Z;
  inode_size : Z;
  superblock_group : Z;
  optional_feature : Z;
  required_feature : Z;
  readonly_feature : Z;
  fs_id : list Z;
  vol_name : list Z;
  last_mount_path : list Z;
  compression_method : Z;
  file_pre_alloc_blocks : Z;
  dir_pre_alloc_blocks : Z;
  sb_unused1 : Z;
  journal_id : list Z;
  journal_inode : Z;
  journal_device : Z;
  orphan_head : Z;
  sb_reserved : list Z;
}.

Definition encode_superblock (s : Ext2Superblock) : list Z :=
  le 4 (total_inodes s) ++ le 4 (total_blocks s) ++ le 4 (su_blocks s) ++
  le 4 (sb_free_blocks s) ++ le 4 (sb_free_inodes s) ++ le 4 (superblock_idx s) ++
  le 4 (log2block_size s) ++ le 4 (log2frag_size s) ++ le 4 (blocks_per_group s) ++
  le 4 (frags_per_group s) ++ le 4 (inodes_per_group s) ++ le 4 (sb_mtime s) ++
  le 4 (sb_wtime s) ++ le 2 (mount_count s) ++ le 2 (mount_allowed_count s) ++
  le 2 (ext2_magic s) ++ le 2 (fs_state s) ++ le 2 (sb_err s) ++ le 2 (sb_minor s) ++
  le 4 (last_check s) ++ le 4 (sb_interval s) ++ le 4 (os_id s) ++ le 4 (sb_major s) ++
  le 2 (r_userid s) ++ le 2 (r_groupid s) ++
  le 4 (first_inode s) ++ le 2 (inode_size s) ++ le 2 (superblock_group s) ++
  le 4 (optional_feature s) ++ le 4 (required_feature s) ++ le 4 (readonly_feature s) ++
  fs_id s ++ vol_name s ++ last_mount_path s ++ le 4 (compression_method s) ++
  le 1 (file_pre_alloc_blocks s) ++ le 1 (dir_pre_alloc_blocks s) ++ le 2 (sb_unused1 s) ++
  journal_id s ++ le 4 (journal_inode s) ++ le 4 (journal_device s) ++
  le 4 (orphan_head s) ++ sb_reserved s.

Definition decode_superblock (bs : list Z) : Ext2Superblock :=
  let '(f0, bs) := next_le 4 bs in let '(f1, bs) := next_le 4 bs in
  let '(f2, bs) := next_le 4 bs in let '(f3, bs) := next_le 4 bs in
  let '(f4, bs) := next_le 4 bs in let '(f5, bs) := next_le 4 bs in
  let '(f6, bs) := next_le 4 bs in let '(f7, bs) := next_le 4 bs in
  let '(f8, bs) := next_le 4 bs in let '(f9, bs) := next_le 4 bs in
  let '(f10, bs) := next_le 4 bs in let '(f11, bs) := next_le 4 bs in
  let '(f12, bs) := next_le 4 bs in let '(f13, bs) := next_le 2 bs in
  let '(f14, bs) := next_le 2 bs in let '(f15, bs) := next_le 2 bs in
  let '(f16, bs) := next_le 2 bs in let '(f17, bs) := next_le 2 bs in
  let '(f18, bs) := next_le 2 bs in let '(f19, bs) := next_le 4 bs in
  let '(f20, bs) := next_le 4 bs in let '(f21, bs) := next_le 4 bs in
  let '(f22, bs) := next_le 4 bs in let '(f23, bs) := next_le 2 bs in
  let '(f24, bs) := next_le 2 bs in
  let '(e0, bs) := next_le 4 bs in let '(e1, bs) := next_le 2 bs in
  let '(e2, bs) := next_le 2 bs in let '(e3, bs) := next_le 4 bs in
  let '(e4, bs) := next_le 4 bs in let '(e5, bs) := next_le 4 bs in
  let '(e6, bs) := next_bytes 16 bs in let '(e7, bs) := next_bytes 16 bs in
  let '(e8, bs) := next_bytes 64 bs in let '(e9, bs) := next_le 4 bs in
  let '(e10, bs) := next_le 1 bs in let '(e11, bs) := next_le 1 bs in
  let '(e12, bs) := next_le 2 bs in let '(e13, bs) := next_bytes 16 bs in
  let '(e14, bs) := next_le 4 bs in let '(e15, bs) := next_le 4 bs in
  let '(e16, bs) := next_le 4 bs in let '(e17, bs) := next_bytes 788 bs in
  mkSuperblock f0 f1 f2 f3 f4 f5 f6 f7 f8 f9 f10 f11 f12 f13 f14 f15 f16 f17 f18
    f19 f20 f21 f22 f23 f24 e0 e1 e2 e3 e4 e5 e6 e7 e8 e9 e10 e11 e12 e13 e14 e15
    e16 e17.

(** [superblock.free_blocks = v] and [superblock.free_inodes = v]. *)
Definition set_sb_free_blocks (v : Z) (s : Ext2Superblock) : Ext2Superblock :=
  match s with
  | mkSuperblock f0 f1 f2 _ f4 f5 f6 f7 f8 f9 f10 f11 f12 f13 f14 f15 f16 f17 f18
      f19 f20 f21 f22 f23 f24 e0 e1 e2 e3 e4 e5 e6 e7 e8 e9 e10 e11 e12 e13 e14 e15
      e16 e17 =>
    mkSuperblock f0 f1 f2 v f4 f5 f6 f7 f8 f9 f10 f11 f12 f13 f14 f15 f16 f17 f18
      f19 f20 f21 f22 f23 f24 e0 e1 e2 e3 e4 e5 e6 e7 e8 e9 e10 e11 e12 e13 e14 e15
      e16 e17
  end.
Definition set_sb_free_inodes (v : Z) (s : Ext2Superblock) : Ext2Superblock :=
  match s with
  | mkSuperblock f0 f1 f2 f3 _ f5 f6 f7 f8 f9 f10 f11 f12 f13 f14 f15 f16 f17 f18
      f19 f20 f21 f22 f23 f24 e0 e1 e2 e3 e4 e5 e6 e7 e8 e9 e10 e11 e12 e13 e14 e15
      e16 e17 =>
    mkSuperblock f0 f1 f2 f3 v f5 f6 f7 f8 f9 f10 f11 f12 f13 f14 f15 f16 f17 f18
      f19 f20 f21 f22 f23 f24 e0 e1 e2 e3 e4 e5 e6 e7 e8 e9 e10 e11 e12 e13 e14 e15
      e16 e17
  end.

(** ** [Ext2BlockGroup] *)

Record Ext2BlockGroup := mkBlockGroup {
  block_bitmap : Z;
  inode_bitmap : Z;
  inode_table : Z;
  bg_free_blocks : Z;
  bg_free_inodes : Z;
  num_dirs : Z;
  bg_padding : Z;
  bg_reserved : list Z;
}.

Definition encode_block_group (g : Ext2BlockGroup) : list Z :=
  le 4 (block_bitmap g) ++ le 4 (inode_bitmap g) ++ le 4 (inode_table g) ++
  le 2 (bg_free_blocks g) ++ le 2 (bg_free_inodes g) ++ le 2 (num_dirs g) ++
  le 2 (bg_padding g) ++ bg_reserved g.

Definition decode_block_group (bs : list Z) : Ext2BlockGroup :=
  let '(g0, bs) := next_le 4 bs in let '(g1, bs) := next_le 4 bs in
  let '(g2, bs) := next_le 4 bs in let '(g3, bs) := next_le 2 bs in
  let '(g4, bs) := next_le 2 bs in let '(g5, bs) := next_le 2 bs in
  let '(g6, bs) := next_le 2 bs in let '(g7, bs) := next_bytes 12 bs in
  mkBlockGroup g0 g1 g2 g3 g4 g5 g6 g7.

Definition set_bg_free_blocks (v : Z) (g : Ext2BlockGroup) : Ext2BlockGroup :=
  mkBlockGroup (block_bitmap g) (inode_bitmap g) (inode_table g) v
    (bg_free_inodes g) (num_dirs g) (bg_padding g) (bg_reserved g).
Definition set_bg_free_inodes (v : Z) (g : Ext2BlockGroup) : Ext2BlockGroup :=
  mkBlockGroup (block_bitmap g) (inode_bitmap g) (inode_table g) (bg_free_blocks g)
    v (num_dirs g) (bg_padding g) (bg_reserved g).

(** The descriptor table: the [blockSize] bytes read into [bgdts], 32 bytes per
    descriptor. *)
Fixpoint decode_bgdt (n : nat) (bs : list Z) : list Ext2BlockGroup :=
  match n with
  | O => []
  | S n => decode_block_group (take 32 bs) :: decode_bgdt n (drop 32 bs)
  end.

Definition encode_bgdt (gs : list Ext2BlockGroup) : list Z :=
  mjoin (encode_block_group <$> gs).

(** ** [Ext2Inode] *)

Definition EXT2_DIRECT_BLOCKS : Z := 12.

Record Ext2Inode := mkInode {
  permission : Z;
  i_userid : Z;
  i_size : Z;
  i_atime : Z;
  i_ctime : Z;
  i_mtime : Z;
  i_dtime : Z;
  i_gid : Z;
  hard_links : Z;
  num_sectors : Z;
  i_flags : Z;
  os_specific1 : Z;
  i_blocks : list Z;  (* EXT2_DIRECT_BLOCKS + 3 block numbers *)
  generation : Z;
  file_acl : Z;
  size_high : Z;  (* union with dir_acl *)
  f_block_addr : Z;
  os_specific2 : list Z;
}.

Definition sizeof_Ext2Inode : Z := 128.

Fixpoint encode_words (ws : list Z) : list Z :=
  match ws with
  | [] => []
  | w :: ws => le 4 w ++ encode_words ws
  end.

Fixpoint decode_words (n : nat) (bs : list Z) : list Z :=
  match n with
  | O => []
  | S n => le_val (take 4 bs) :: decode_words n (drop 4 bs)
  end.

Definition encode_inode (i : Ext2Inode) : list Z :=
  le 2 (permission i) ++ le 2 (i_userid i) ++ le 4 (i_size i) ++ le 4 (i_atime i) ++
  le 4 (i_ctime i) ++ le 4 (i_mtime i) ++ le 4 (i_dtime i) ++ le 2 (i_gid i) ++
  le 2 (hard_links i) ++ le 4 (num_sectors i) ++ le 4 (i_flags i) ++
  le 4 (os_specific1 i) ++ encode_words (i_blocks i) ++ le 4 (generation i) ++
  le 4 (file_acl i) ++ le 4 (size_high i) ++ le 4 (f_block_addr i) ++ os_specific2 i.

Definition decode_inode (bs : list Z) : Ext2Inode :=
  let '(i0, bs) := next_le 2 bs in let '(i1, bs) := next_le 2 bs in
  let '(i2, bs) := next_le 4 bs in let '(i3, bs) := next_le 4 bs in
  let '(i4, bs) := next_le 4 bs in let '(i5, bs) := next_le 4 bs in
  let '(i6, bs) := next_le 4 bs in let '(i7, bs) := next_le 2 bs in
  let '(i8, bs) := next_le 2 bs in let '(i9, bs) := next_le 4 bs in
  let '(i10, bs) := next_le 4 bs in let '(i11, bs) := next_le 4 bs in
  let '(i12, bs) := next_bytes 60 bs in let '(i13, bs) := next_le 4 bs in
  let '(i14, bs) := next_le 4 bs in let '(i15, bs) := next_le 4 bs in
  let '(i16, bs) := next_le 4 bs in let '(i17, bs) := next_bytes 12 bs in
  mkInode i0 i1 i2 i3 i4 i5 i6 i7 i8 i9 i10 i11 (decode_words 15 i12) i13 i14 i15
    i16 i17.

(** Assignments to single fields of an inode. *)
Definition set_i_size (v : Z) (i : Ext2Inode) : Ext2Inode :=
  mkInode (permission i) (i_userid i) v (i_atime i) (i_ctime i) (i_mtime i) (i_dtime i)
    (i_gid i) (hard_links i) (num_sectors i) (i_flags i) (os_specific1 i) (i_blocks i)
    (generation i) (file_acl i) (size_high i) (f_block_addr i) (os_specific2 i).
Definition set_num_sectors (v : Z) (i : Ext2Inode) : Ext2Inode :=
  mkInode (permission i) (i_userid i) (i_size i) (i_atime i) (i_ctime i) (i_mtime i)
    (i_dtime i) (i_gid i) (hard_links i) v (i_flags i) (os_specific1 i) (i_blocks i)
    (generation i) (file_acl i) (size_high i) (f_block_addr i) (os_specific2 i).
Definition set_i_blocks (v : list Z) (i : Ext2Inode) : Ext2Inode :=
  mkInode (permission i) (i_userid i) (i_size i) (i_atime i) (i_ctime i) (i_mtime i)
    (i_dtime i) (i_gid i) (hard_links i) (num_sectors i) (i_flags i) (os_specific1 i) v
    (generation i) (file_acl i) (size_high i) (f_block_addr i) (os_specific2 i).
Definition set_hard_links (v : Z) (i : Ext2Inode) : Ext2Inode :=
  mkInode (permission i) (i_userid i) (i_size i) (i_atime i) (i_ctime i) (i_mtime i)
    (i_dtime i) (i_gid i) v (num_sectors i) (i_flags i) (os_specific1 i) (i_blocks i)
    (generation i) (file_acl i) (size_high i) (f_block_addr i) (os_specific2 i).
Definition set_i_dtime (v : Z) (i : Ext2Inode) : Ext2Inode :=
  mkInode (permission i) (i_userid i) (i_size i) (i_atime i) (i_ctime i) (i_mtime i)
    v (i_gid i) (hard_links i) (num_sectors i) (i_flags i) (os_specific1 i) (i_blocks i)
    (generation i) (file_acl i) (size_high i) (f_block_addr i) (os_specific2 i).
Definition set_size_high (v : Z) (i : Ext2Inode) : Ext2Inode :=
  mkInode (permission i) (i_userid i) (i_size i) (i_atime i) (i_ctime i) (i_mtime i)
    (i_dtime i) (i_gid i) (hard_links i) (num_sectors i) (i_flags i) (os_specific1 i)
    (i_blocks i) (generation i) (file_acl i) v (f_block_addr i) (os_specific2 i).

(** ** The mounted file system ([struct Ext2]) *)

Record Ext2 := mkExt2 {
  offsetBase : Z;
  offsetSuperblock : Z;
  offsetBGDT : Z;
  blockSize : Z;
  inodeSize : Z;
  inodeSizeRounded : Z;
  blockGroups : Z;
  bgdts : list Ext2BlockGroup;
  superblock : Ext2Superblock;
}.

Definition set_bgdts (v : list Ext2BlockGroup) (e : Ext2) : Ext2 :=
  mkExt2 (offsetBase e) (offsetSuperblock e) (offsetBGDT e) (blockSize e) (inodeSize e)
    (inodeSizeRounded e) (blockGroups e) v (superblock e).
Definition set_superblock (v : Ext2Superblock) (e : Ext2) : Ext2 :=
  mkExt2 (offsetBase e) (offsetSuperblock e) (offsetBGDT e) (blockSize e) (inodeSize e)
    (inodeSizeRounded e) (blockGroups e) (bgdts e) v.

(** [BLOCK_TO_LBA(ext2, group, block)], in [size_t] arithmetic. *)
Definition BLOCK_TO_LBA (e : Ext2) (group block : Z) : Z :=
  u64 (offsetBase e
       + u64 (u64 (group * blocks_per_group (superblock e)) * blockSize e) / SECTOR_SIZE
       + u64 (block * blockSize e) / SECTOR_SIZE).

(** [INODE_TO_BLOCK_GROUP] and [INODE_TO_INDEX], stored in [uint32_t]s; [w] is the
    width of the inode argument at the place of use ([u64] for [size_t], [u32] for
    [uint32_t]). *)
Definition INODE_TO_BLOCK_GROUP (w : Z -> Z) (e : Ext2) (inode : Z) : Z :=
  u32 (w (inode - 1) / inodes_per_group (superblock e)).
Definition INODE_TO_INDEX (w : Z -> Z) (e : Ext2) (inode : Z) : Z :=
  u32 (w (inode - 1) mod inodes_per_group (superblock e)).

(** ** Objects in kernel memory: opened files and their block caches *)

Record Ext2CacheObject := mkCache {
  c_next : Z;
  c_prev : Z;
  c_blockIndex : Z;
  c_buff : list Z;
  c_blocks : Z;
}.

Record Ext2FoundObject := mkFound {
  o_next : Z;
  o_prev : Z;
  o_inode : Z;
  o_openFds : Z;
  o_firstCacheObj : Z;
}.

(** The heap cells the ext2 code links together; address 0 is [NULL] and
    [h_brk] is above every address in use. *)
Record heap := mkHeap {
  h_found : gmap Z Ext2FoundObject;
  h_cache : gmap Z Ext2CacheObject;
  h_firstObject : Z;
  h_brk : Z;
  blocksCached : Z;
}.

(** ** Locks of the mount and of its opened files *)

Inductive ext2_lock :=
| WLOCK_GLOBAL_NOFD
| WLOCKS_BLOCK_BITMAP (group : Z)
| WLOCKS_INODE (group : Z)
| WLOCK_FILE (object : Z)
| WLOCK_CACHE (object : Z)
| LOCK_PROP (object : Z)
| LOCK_BGDT_WRITE
| LOCK_SUPERBLOCK_WRITE
| LOCK_OBJECT
| LOCK_DIRALLOC.

#[export] Instance ext2_lock_eq_dec : EqDecision ext2_lock.
Proof. solve_decision. Defined.

#[export] Instance ext2_lock_countable : Countable ext2_lock.
Proof.
  refine (inj_countable'
    (fun l => match l with
              | WLOCK_GLOBAL_NOFD => (0, 0)
              | WLOCKS_BLOCK_BITMAP g => (1, g)
              | WLOCKS_INODE g => (2, g)
              | WLOCK_FILE o => (3, o)
              | WLOCK_CACHE o => (4, o)
              | LOCK_PROP o => (5, o)
              | LOCK_BGDT_WRITE => (6, 0)
              | LOCK_SUPERBLOCK_WRITE => (7, 0)
              | LOCK_OBJECT => (8, 0)
              | LOCK_DIRALLOC => (9, 0)
              end)
    (fun p => match p with
              | (0, _) => WLOCK_GLOBAL_NOFD
              | (1, g) => WLOCKS_BLOCK_BITMAP g
              | (2, g) => WLOCKS_INODE g
              | (3, o) => WLOCK_FILE o
              | (4, o) => WLOCK_CACHE o
              | (5, o) => LOCK_PROP o
              | (6, _) => LOCK_BGDT_WRITE
              | (7, _) => LOCK_SUPERBLOCK_WRITE
              | (8, _) => LOCK_OBJECT
              | (_, _) => LOCK_DIRALLOC
              end) _).
  by intros [].
Defined.

(** ** The state of the ext2 functions *)

Record fs := mkFs {
  drv : gmap Z Z;
  ext2 : Ext2;
  locks : gmap ext2_lock Z;
  mem : heap;
}.

Definition set_drv (d : gmap Z Z) (s : fs) : fs := mkFs d (ext2 s) (locks s) (mem s).
Definition set_ext2 (e : Ext2) (s : fs) : fs := mkFs (drv s) e (locks s) (mem s).
Definition set_locks (l : gmap ext2_lock Z) (s : fs) : fs :=
  mkFs (drv s) (ext2 s) l (mem s).
Definition set_mem (h : heap) (s : fs) : fs := mkFs (drv s) (ext2 s) (locks s) h.

(** A lock operation on one of the locks of the state; a lock that was never
    allocated (a group past the arrays) is an access outside them. *)
Definition lock_op (op : Z -> outcome Z) (l : ext2_lock) : M fs unit := fun s =>
  match locks s !! l with
  | None => Fault
  | Some c =>
      match op c with
      | Ok c' => Ok (tt, set_locks (<[l := c']> (locks s)) s)
      | Halted => Halted
      | Fault => Fault
      | Hang => Hang
      end
  end.

Definition read_acquire := lock_op spinlock_cnt_read_acquire.
Definition read_release := lock_op spinlock_cnt_read_release.
Definition write_acquire := lock_op spinlock_cnt_write_acquire.
Definition write_release := lock_op spinlock_cnt_write_release.

(** The plain locks keep their [locked] flag as 0 or 1. *)
Definition flag_op (op : bool -> outcome bool) (c : Z) : outcome Z :=
  match op (negb (c =? 0)) with
  | Ok b => Ok (Z.b2z b)
  | Halted => Halted
  | Fault => Fault
  | Hang => Hang
  end.
Definition spin_acquire := lock_op (flag_op spinlock_acquire).
Definition spin_release := lock_op (flag_op spinlock_release).

(** [get_disk_bytes]/[set_disk_bytes] on the drive of the mount. *)
Definition get_disk (lba n : Z) : M fs (list Z) :=
  gets (fun s => get_disk_bytes (Some (drv s)) lba n).

Definition set_disk (bs : list Z) (lba n : Z) : M fs unit := fun s =>
  match set_disk_bytes (drv s) lba n bs with
  | Some d => Ok (tt, set_drv d s)
  | None => Fault
  end.

(** [ext2->blockSize / SECTOR_SIZE] *)
Definition block_sectors (e : Ext2) : Z := blockSize e / SECTOR_SIZE.

(** Indexing the descriptor array. *)
Definition bgdt_get (group : Z) : M fs Ext2BlockGroup := fun s =>
  if group <? 0 then Fault
  else match bgdts (ext2 s) !! Z.to_nat group with
       | Some g => Ok (g, s)
       | None => Fault
       end.

Definition bgdt_put (group : Z) (g : Ext2BlockGroup) : M fs unit := fun s =>
  if group <? 0 then Fault
  else match bgdts (ext2 s) !! Z.to_nat group with
       | Some _ =>
           Ok (tt, set_ext2 (set_bgdts (<[Z.to_nat group := g]> (bgdts (ext2 s)))
                               (ext2 s)) s)
       | None => Fault
       end.

(** ** Encodings are inverse to decodings *)

Definition fits (n v : Z) : Prop := 0 <= v < 2 ^ (n * 8).

Record inode_wf (i : Ext2Inode) : Prop := {
  iwf_permission : fits 2 (permission i);
  iwf_userid : fits 2 (i_userid i);
  iwf_size : fits 4 (i_size i);
  iwf_atime : fits 4 (i_atime i);
  iwf_ctime : fits 4 (i_ctime i);
  iwf_mtime : fits 4 (i_mtime i);
  iwf_dtime : fits 4 (i_dtime i);
  iwf_gid : fits 2 (i_gid i);
  iwf_hard_links : fits 2 (hard_links i);
  iwf_num_sectors : fits 4 (num_sectors i);
  iwf_flags : fits 4 (i_flags i);
  iwf_os1 : fits 4 (os_specific1 i);
  iwf_blocks : length (i_blocks i) = 15%nat /\ Forall (fits 4) (i_blocks i);
  iwf_generation : fits 4 (generation i);
  iwf_file_acl : fits 4 (file_acl i);
  iwf_size_high : fits 4 (size_high i);
  iwf_f_block_addr : fits 4 (f_block_addr i);
  iwf_os2 : zlen (os_specific2 i) = 12;
}.

Record block_group_wf (g : Ext2BlockGroup) : Prop := {
  gwf_block_bitmap : fits 4 (block_bitmap g);
  gwf_inode_bitmap : fits 4 (inode_bitmap g);
  gwf_inode_table : fits 4 (inode_table g);
  gwf_free_blocks : fits 2 (bg_free_blocks g);
  gwf_free_inodes : fits 2 (bg_free_inodes g);
  gwf_num_dirs : fits 2 (num_dirs g);
  gwf_padding : fits 2 (bg_padding g);
  gwf_reserved : zlen (bg_reserved g) = 12;
}.

Lemma decode_encode_words ws :
  Forall (fits 4) ws -> decode_words (length ws) (encode_words ws) = ws.
Proof.
  induction 1 as [|w ws Hw _ IH]; [done|]. cbn [decode_words encode_words length].
  pose proof (zlen_le 4 w ltac:(lia)) as L. unfold zlen in L.
  rewrite take_app_length', drop_app_length', IH by lia.
  by rewrite le_val_le_small by (unfold fits in Hw; lia).
Qed.

Lemma zlen_encode_words ws : zlen (encode_words ws) = 4 * zlen ws.
Proof.
  induction ws as [|w ws IH]; [done|]. cbn [encode_words].
  rewrite zlen_app, zlen_le, IH by lia. unfold zlen. simpl length. lia.
Qed.

(** Consume one field of an encoding. *)
Ltac decode_field :=
  match goal with
  | |- context [next_le ?n (le ?n ?v ++ ?r)] => rewrite (next_le_app n v r); [|lia|assumption]
  | |- context [next_bytes ?n (?b ++ ?r)] =>
      rewrite (next_bytes_app n b r); [|first [assumption|done]]
  | |- context [next_bytes ?n ?b] =>
      rewrite <- (app_nil_r b), (next_bytes_app n b []); [|first [assumption|done]]
  end; cbv beta iota.

(** The bytes after the structure (inodes of more than 128 bytes) are ignored. *)
Lemma decode_encode_inode i r : inode_wf i -> decode_inode (encode_inode i ++ r) = i.
Proof.
  intros []. destruct iwf_blocks0 as [Hl Hb].
  assert (zlen (encode_words (i_blocks i)) = 60).
  { rewrite zlen_encode_words. unfold zlen. lia. }
  unfold decode_inode, encode_inode, fits in *. rewrite <- !app_assoc. repeat decode_field.
  rewrite <- Hl, decode_encode_words by done. by destruct i.
Qed.

Lemma zlen_encode_inode i : inode_wf i -> zlen (encode_inode i) = sizeof_Ext2Inode.
Proof.
  intros []. unfold encode_inode. rewrite !zlen_app, !zlen_le, zlen_encode_words by lia.
  unfold zlen in *. destruct iwf_blocks0 as [-> _]. unfold sizeof_Ext2Inode. lia.
Qed.

Lemma decode_encode_block_group g :
  block_group_wf g -> decode_block_group (encode_block_group g) = g.
Proof.
  intros []. unfold decode_block_group, encode_block_group, fits in *.
  repeat decode_field. by destruct g.
Qed.

Lemma zlen_encode_block_group g : block_group_wf g -> zlen (encode_block_group g) = 32.
Proof.
  intros []. unfold encode_block_group. rewrite !zlen_app, !zlen_le by lia. lia.
Qed.

Lemma zlen_encode_bgdt gs :
  Forall block_group_wf gs -> zlen (encode_bgdt gs) = 32 * zlen gs.
Proof.
  induction 1 as [|g gs Hg _ IH]; [done|].
  change (encode_bgdt (g :: gs)) with (encode_block_group g ++ encode_bgdt gs).
  rewrite zlen_app, zlen_encode_block_group, IH by done.
  unfold zlen. rewrite length_cons. lia.
Qed.

Lemma decode_encode_bgdt gs :
  Forall block_group_wf gs -> decode_bgdt (length gs) (encode_bgdt gs) = gs.
Proof.
  induction 1 as [|g gs Hg _ IH]; [done|].
  change (encode_bgdt (g :: gs)) with (encode_block_group g ++ encode_bgdt gs).
  cbn [decode_bgdt length].
  pose proof (zlen_encode_block_group g Hg) as L. unfold zlen in L.
  rewrite take_app_length', drop_app_length' by lia.
  by rewrite decode_encode_block_group, IH by done.
Qed.

(** Split hypotheses on explicit lists into their elements. *)
Ltac split_Forall :=
  repeat match goal with
         | H : Forall _ (_ :: _) |- _ => apply Forall_cons in H as [? H]
         end.

Definition superblock_wf (s : Ext2Superblock) : Prop :=
  Forall (fits 4)
    [total_inodes s; total_blocks s; su_blocks s; sb_free_blocks s; sb_free_inodes s;
     superblock_idx s; log2block_size s; log2frag_size s; blocks_per_group s;
     frags_per_group s; inodes_per_group s; sb_mtime s; sb_wtime s; last_check s;
     sb_interval s; os_id s; sb_major s; first_inode s; optional_feature s;
     required_feature s; readonly_feature s; compression_method s; journal_inode s;
     journal_device s; orphan_head s] /\
  Forall (fits 2)
    [mount_count s; mount_allowed_count s; ext2_magic s; fs_state s; sb_err s;
     sb_minor s; r_userid s; r_groupid s; inode_size s; superblock_group s;
     sb_unused1 s] /\
  Forall (fits 1) [file_pre_alloc_blocks s; dir_pre_alloc_blocks s] /\
  zlen (fs_id s) = 16 /\ zlen (vol_name s) = 16 /\ zlen (last_mount_path s) = 64 /\
  zlen (journal_id s) = 16 /\ zlen (sb_reserved s) = 788.

Lemma decode_encode_superblock s :
  superblock_wf s -> decode_superblock (encode_superblock s) = s.
Proof.
  intros (H4 & H2 & H1 & ? & ? & ? & ? & ?).
  split_Forall.
  unfold decode_superblock, encode_superblock. repeat decode_field. by destruct s.
Qed.

Lemma zlen_encode_superblock s : superblock_wf s -> zlen (encode_superblock s) = 1024.
Proof.
  intros (_ & _ & _ & ? & ? & ? & ? & ?). unfold encode_superblock.
  rewrite !zlen_app, !zlen_le by lia. lia.
Qed.

Lemma superblock_wf_set_free_inodes v s :
  fits 4 v -> superblock_wf s -> superblock_wf (set_sb_free_inodes v s).
Proof.
  destruct s. intros Hv (H4 & H). split; [|exact H]. cbn in *. split_Forall.
  repeat (apply Forall_cons; split; [done|]). done.
Qed.
Lemma superblock_wf_set_free_blocks v s :
  fits 4 v -> superblock_wf s -> superblock_wf (set_sb_free_blocks v s).
Proof.
  destruct s. intros Hv (H4 & H). split; [|exact H]. cbn in *. split_Forall.
  repeat (apply Forall_cons; split; [done|]). done.
Qed.
