(* ===== verification/Ext2Base.v ===== *)
(** * ext2: geometry, block transfers and lock rules

    The well-formedness of a mounted volume that the other ext2 files assume,
    the reading of one block through [BLOCK_TO_LBA] as the bytes at a fixed
    address of the drive, and the rules of the counting locks. *)

From S2P Require Import Prelude Bytes Spinlock Disk Ext2Types.

(** ** Geometry *)

(** What [ext2_mount] establishes and a volume image provides. *)
Record geometry (e : Ext2) : Prop := {
  geo_bs_min : 1024 <= blockSize e <= 65536;
  geo_bs_large : blockSize e = 1024 \/ 2048 <= blockSize e;
  geo_bs_sector : blockSize e mod SECTOR_SIZE = 0;
  geo_base : 0 <= offsetBase e;
  geo_super : offsetSuperblock e = offsetBase e + 2;
  geo_bgdt : offsetBGDT e = BLOCK_TO_LBA e 0 (superblock_idx (superblock e) + 1);
  geo_end : offsetBase e + total_blocks (superblock e) * (blockSize e / SECTOR_SIZE) <= 2 ^ 32;
  geo_sb : superblock_wf (superblock e);
  geo_idx : superblock_idx (superblock e) = if blockSize e =? 1024 then 1 else 0;
  geo_first : 3 <= total_blocks (superblock e);
  geo_bpg : 3 <= blocks_per_group (superblock e);
  geo_ipg : 0 < inodes_per_group (superblock e);
  geo_groups : 0 < blockGroups e <= blockSize e / 32;
  geo_last : (blockGroups e - 1) * blocks_per_group (superblock e) + 1
             < total_blocks (superblock e);
  geo_bgs : length (bgdts e) = Z.to_nat (blockSize e / 32);
  geo_bgwf : Forall block_group_wf (bgdts e);
  geo_bs_bg : blockSize e mod 32 = 0;
}.

(** Byte address of block [b] on the drive. *)
Definition block_addr (e : Ext2) (b : Z) : Z :=
  offsetBase e * SECTOR_SIZE + b * blockSize e.

Definition valid_block (e : Ext2) (b : Z) : Prop :=
  0 <= b < total_blocks (superblock e).

(** The contents of block [b]. *)
Definition block_bytes (e : Ext2) (d : gmap Z Z) (b : Z) : list Z :=
  read_at d (block_addr e b) (blockSize e).

Definition write_block (e : Ext2) (d : gmap Z Z) (b : Z) (bs : list Z) : gmap Z Z :=
  write_at d (block_addr e b) bs.

Lemma sb_fits4 e : geometry e ->
  fits 4 (total_blocks (superblock e)) /\ fits 4 (blocks_per_group (superblock e)) /\
  fits 4 (inodes_per_group (superblock e)) /\ fits 4 (superblock_idx (superblock e)) /\
  fits 4 (sb_free_blocks (superblock e)) /\ fits 4 (sb_free_inodes (superblock e)).
Proof.
  intros []. destruct geo_sb0 as (H4 & _). split_Forall. auto 10.
Qed.

Lemma geo_spb e : geometry e ->
  blockSize e = blockSize e / SECTOR_SIZE * SECTOR_SIZE /\ 2 <= blockSize e / SECTOR_SIZE <= 128.
Proof.
  intros []. unfold SECTOR_SIZE in *.
  pose proof (Z.div_mod (blockSize e) 512 ltac:(lia)). lia.
Qed.

(** The descriptor table is one block, so there are at most 2048 groups. *)
Lemma groups_bound e : geometry e -> 0 < blockGroups e <= 2048.
Proof.
  intros []. pose proof (Z.div_le_mono (blockSize e) 65536 32 ltac:(lia) ltac:(lia)) as Hd.
  change (65536 / 32) with 2048 in Hd. lia.
Qed.

(** ** Transfers *)

Lemma get_disk_ok lba n d e l h :
  0 <= lba -> 0 <= n -> lba + n <= 2 ^ 32 -> lba < 2 ^ 32 ->
  get_disk lba n (mkFs d e l h) = Ok (disk_read d lba n, mkFs d e l h).
Proof.
  intros. unfold get_disk, gets. cbn [drv]. do 2 f_equal.
  assert (u32 lba = lba) as Hu by (apply u32_small; lia).
  rewrite get_disk_bytes_present; rewrite ?Hu; [done|lia..].
Qed.

Lemma set_disk_ok bs lba n d e l h :
  0 <= lba -> 0 <= n -> lba + n <= 2 ^ 32 -> lba < 2 ^ 32 -> zlen bs = n * SECTOR_SIZE ->
  set_disk bs lba n (mkFs d e l h) = Ok (tt, mkFs (write_at d (lba * SECTOR_SIZE) bs) e l h).
Proof.
  intros ? ? ? ? Hlen. unfold set_disk. cbn [drv].
  assert (u32 lba = lba) as Hu by (apply u32_small; lia).
  rewrite set_disk_bytes_ok; rewrite ?Hu; [|lia..].
  unfold disk_write, set_drv. cbn [drv ext2 locks mem]. by rewrite <- Hlen, slice_full.
Qed.

Section blocks.
Context (e : Ext2) (G : geometry e).

Lemma BLOCK_TO_LBA_ok b :
  valid_block e b ->
  BLOCK_TO_LBA e 0 b = offsetBase e + b * block_sectors e /\
  0 <= BLOCK_TO_LBA e 0 b /\
  BLOCK_TO_LBA e 0 b + block_sectors e <= 2 ^ 32 /\
  BLOCK_TO_LBA e 0 b * SECTOR_SIZE = block_addr e b.
Proof.
  intros [Hb0 Hb]. destruct (geo_spb e G) as [Hbs Hspb].
  destruct (sb_fits4 e G) as (Ht & _). destruct G.
  unfold fits in Ht. unfold BLOCK_TO_LBA, block_sectors, block_addr, SECTOR_SIZE in *.
  set (q := blockSize e / 512) in *.
  assert (E : u64 (b * blockSize e) / 512 = b * q).
  { rewrite u64_small by nia. rewrite Hbs. rewrite Z.mul_assoc. apply Z.div_mul. lia. }
  rewrite E, Z.mul_0_l. change (u64 (u64 0 * blockSize e) / 512) with 0.
  rewrite Z.add_0_r.
  assert (b * q + q <= total_blocks (superblock e) * q) by nia.
  assert (0 <= b * q) by nia.
  rewrite u64_small by lia. nia.
Qed.

Lemma get_block_ok b d l h :
  valid_block e b ->
  get_disk (BLOCK_TO_LBA e 0 b) (block_sectors e) (mkFs d e l h) =
    Ok (block_bytes e d b, mkFs d e l h).
Proof.
  intros Hb. destruct (BLOCK_TO_LBA_ok b Hb) as (_ & H0 & H1 & H2).
  destruct (geo_spb e G) as [Hbs Hspb]. unfold block_sectors in *.
  rewrite get_disk_ok by lia. unfold disk_read, block_bytes. by rewrite H2, <- Hbs.
Qed.

Lemma set_block_ok b bs d l h :
  valid_block e b -> zlen bs = blockSize e ->
  set_disk bs (BLOCK_TO_LBA e 0 b) (block_sectors e) (mkFs d e l h) =
    Ok (tt, mkFs (write_block e d b bs) e l h).
Proof.
  intros Hb Hlen. destruct (BLOCK_TO_LBA_ok b Hb) as (_ & H0 & H1 & H2).
  destruct (geo_spb e G) as [Hbs Hspb]. unfold block_sectors in *.
  rewrite set_disk_ok by lia. by rewrite H2.
Qed.

Lemma zlen_block_bytes d b : zlen (block_bytes e d b) = blockSize e.
Proof. destruct G. apply zlen_read_at. lia. Qed.

Lemma block_bytes_same d b bs :
  zlen bs = blockSize e -> block_bytes e (write_block e d b bs) b = bs.
Proof. intros Hl. unfold block_bytes. rewrite <- Hl. apply read_write_same. Qed.

Lemma block_bytes_other d b b' bs :
  zlen bs = blockSize e -> b <> b' ->
  block_bytes e (write_block e d b bs) b' = block_bytes e d b'.
Proof.
  intros Hl Hne. destruct G. apply read_write_disjoint. unfold block_addr. nia.
Qed.

End blocks.

(** ** Locks *)

Section locks.
Context (d : gmap Z Z) (e : Ext2) (l : gmap ext2_lock Z) (h : heap) (k : ext2_lock).

Lemma write_acquire_ok :
  l !! k = Some 0 -> write_acquire k (mkFs d e l h) = Ok (tt, mkFs d e (<[k := -1]> l) h).
Proof. intros H. unfold write_acquire, lock_op. simpl. by rewrite H. Qed.

Lemma read_acquire_ok c :
  l !! k = Some c -> 0 <= c ->
  read_acquire k (mkFs d e l h) = Ok (tt, mkFs d e (<[k := c + 1]> l) h).
Proof.
  intros H Hc. unfold read_acquire, lock_op. simpl. rewrite H.
  unfold spinlock_cnt_read_acquire. by rewrite (proj2 (Z.ltb_ge c 0)) by lia.
Qed.

End locks.

(** Releasing restores the lock word the matching acquire found. *)
Lemma write_release_ok d e l h k :
  l !! k = Some 0 ->
  write_release k (mkFs d e (<[k := -1]> l) h) = Ok (tt, mkFs d e l h).
Proof.
  intros H. unfold write_release, lock_op. simpl. rewrite lookup_insert_eq. simpl.
  unfold set_locks. simpl. by rewrite insert_insert_eq, insert_id.
Qed.

Lemma read_release_ok d e l h k c :
  l !! k = Some c -> 0 <= c ->
  read_release k (mkFs d e (<[k := c + 1]> l) h) = Ok (tt, mkFs d e l h).
Proof.
  intros H Hc. unfold read_release, lock_op. simpl. rewrite lookup_insert_eq.
  unfold spinlock_cnt_read_release. rewrite (proj2 (Z.ltb_ge (c + 1) 0)) by lia.
  unfold set_locks. simpl. rewrite insert_insert_eq.
  replace (c + 1 - 1) with c by lia. by rewrite insert_id.
Qed.

(** A plain lock whose flag is clear passes, and stays as it was. *)
Lemma spin_acquire_ok d e l h k :
  l !! k = Some 0 -> spin_acquire k (mkFs d e l h) = Ok (tt, mkFs d e l h).
Proof.
  intros H. unfold spin_acquire, lock_op. simpl. rewrite H. simpl. unfold set_locks. simpl.
  by rewrite insert_id.
Qed.
Lemma spin_release_ok d e l h k :
  l !! k = Some 0 -> spin_release k (mkFs d e l h) = Ok (tt, mkFs d e l h).
Proof.
  intros H. unfold spin_release, lock_op. simpl. rewrite H. simpl. unfold set_locks. simpl.
  by rewrite insert_id.
Qed.

(** Every lock of the mount is free: no operation in progress. *)
Definition locks_free (e : Ext2) (l : gmap ext2_lock Z) : Prop :=
  l !! WLOCK_GLOBAL_NOFD = Some 0 /\ l !! LOCK_BGDT_WRITE = Some 0 /\
  l !! LOCK_SUPERBLOCK_WRITE = Some 0 /\ l !! LOCK_OBJECT = Some 0 /\
  l !! LOCK_DIRALLOC = Some 0 /\
  (forall g, 0 <= g < blockGroups e -> l !! WLOCKS_BLOCK_BITMAP g = Some 0) /\
  (forall g, 0 <= g < blockGroups e -> l !! WLOCKS_INODE g = Some 0).

Lemma bgdt_get_ok d e l h g x :
  0 <= g -> bgdts e !! Z.to_nat g = Some x ->
  bgdt_get g (mkFs d e l h) = Ok (x, mkFs d e l h).
Proof.
  intros Hg Hx. unfold bgdt_get. rewrite (proj2 (Z.ltb_ge g 0)) by lia. simpl.
  by rewrite Hx.
Qed.

Lemma bgdt_put_ok d e l h g x y :
  0 <= g -> bgdts e !! Z.to_nat g = Some y ->
  bgdt_put g x (mkFs d e l h) =
    Ok (tt, mkFs d (set_bgdts (<[Z.to_nat g := x]> (bgdts e)) e) l h).
Proof.
  intros Hg Hy. unfold bgdt_put. rewrite (proj2 (Z.ltb_ge g 0)) by lia. simpl.
  by rewrite Hy.
Qed.

(** Every group the mount counts has a descriptor in the table. *)
Lemma bgdt_lookup e g :
  geometry e -> 0 <= g < blockGroups e ->
  exists x, bgdts e !! Z.to_nat g = Some x /\ block_group_wf x.
Proof.
  intros [] Hg. destruct (lookup_lt_is_Some_2 (bgdts e) (Z.to_nat g)) as [x Hx]; [lia|].
  exists x. split; [done|]. by eapply Forall_lookup_1.
Qed.
