(* ===== verification/Ext2Push.v ===== *)
(** * ext2: writing the superblock and the group descriptors back ([ext2_util.c])

    [ext2BgdtPushM] and [ext2SuperblockPushM] store the in-memory structures at
    their primary place and in the groups that keep a copy (0, 1 and the powers
    of 3, 5 and 7).  The theorems say which bytes of the drive change and what
    a later mount reads back. *)

From S2P Require Import Prelude Bytes Spinlock Disk Ext2Types Ext2Base.

(** ** Definitions *)

(** [while (n % power == 0) n /= power;] *)
Fixpoint divide_out (fuel : nat) (n power : Z) : option Z :=
  match fuel with
  | O => None
  | S fuel =>
      if Z.rem n power =? 0 then divide_out fuel (Z.quot n power) power else Some n
  end.

Definition isPowerOf (n power : Z) : option bool :=
  if n <? 1 then Some false
  else match divide_out (Z.to_nat n) n power with
       | Some r => Some (r =? 1)
       | None => None
       end.

(** [i == 0 || i == 1 || isPowerOf(i, 3) || isPowerOf(i, 5) || isPowerOf(i, 7)] *)
Definition has_backup (i : Z) : option bool :=
  if (i =? 0) || (i =? 1) then Some true
  else match isPowerOf i 3 with
       | None => None
       | Some true => Some true
       | Some false =>
           match isPowerOf i 5 with
           | None => None
           | Some true => Some true
           | Some false => isPowerOf i 7
           end
       end.

(** The loop over the groups with a copy; [lba] is the place in group [i]. *)
Definition push_backups (e : Ext2) (bs : list Z) (lba : Z -> Z) (n : Z) : M fs unit :=
  mfor (seqZ 1 (blockGroups e - 1)) (fun i =>
    match has_backup i with
    | None => hang
    | Some false => ret tt
    | Some true => set_disk bs (lba i) n
    end).

Definition ext2BgdtPushM : M fs unit :=
  let! e := gets ext2 in
  let n := CEILING_DIVISION (blockSize e) SECTOR_SIZE in
  set_disk (encode_bgdt (bgdts e)) (offsetBGDT e) n ;;;
  push_backups e (encode_bgdt (bgdts e))
    (fun i => BLOCK_TO_LBA e 0 (u32 (u32 (i * blocks_per_group (superblock e)) + 1))) n.

Definition ext2SuperblockPushM : M fs unit :=
  let! e := gets ext2 in
  set_disk (encode_superblock (superblock e)) (offsetSuperblock e) 2 ;;;
  push_backups e (encode_superblock (superblock e))
    (fun i => BLOCK_TO_LBA e 0 (u32 (i * blocks_per_group (superblock e)))) 2.

(** ** Powers *)

(** The loop of [isPowerOf] ends with what is left of [n] after dividing out
    every factor [p]. *)
Lemma divide_out_spec p fuel n :
  2 <= p -> 0 < n <= Z.of_nat fuel ->
  exists r k, divide_out fuel n p = Some r /\ 0 <= k /\ n = r * p ^ k /\ 0 < r /\
    r mod p <> 0.
Proof.
  intros Hp. revert n. induction fuel as [|fuel IH]; intros n Hn; [lia|].
  cbn [divide_out]. rewrite Z.rem_mod_nonneg, Z.quot_div_nonneg by lia.
  pose proof (Z.div_mod n p ltac:(lia)).
  destruct (Z.eqb_spec (n mod p) 0) as [E|E].
  - destruct (IH (n / p)) as (r & k & -> & Hk & Hr & Hpos & Hm); [nia|].
    exists r, (k + 1). rewrite Z.pow_add_r, Z.pow_1_r by lia.
    repeat split; [lia| |lia|done]. rewrite Z.mul_assoc, <- Hr. lia.
  - exists n, 0. rewrite Z.pow_0_r, Z.mul_1_r. repeat split; [lia..|done].
Qed.

Lemma isPowerOf_spec n p :
  2 <= p -> 1 <= n ->
  exists b, isPowerOf n p = Some b /\ (b = true <-> exists k, 0 <= k /\ n = p ^ k).
Proof.
  intros Hp Hn. unfold isPowerOf. rewrite (proj2 (Z.ltb_ge n 1)) by lia.
  destruct (divide_out_spec p (Z.to_nat n) n Hp ltac:(lia))
    as (r & k & -> & Hk & Hr & Hpos & Hm).
  exists (r =? 1). split; [done|]. rewrite Z.eqb_eq. split.
  - intros ->. exists k. split; lia.
  - intros (j & Hj & Hn'). destruct (Z.le_gt_cases j k) as [Hjk|Hjk].
    + replace k with (j + (k - j)) in Hr by lia. rewrite Z.pow_add_r in Hr by lia.
      pose proof (Z.pow_pos_nonneg p j ltac:(lia) Hj).
      pose proof (Z.pow_pos_nonneg p (k - j) ltac:(lia) ltac:(lia)).
      assert (r * p ^ (k - j) = 1); [|nia]. apply (Z.mul_reg_l _ _ (p ^ j)); lia.
    + replace j with (k + (1 + (j - k - 1))) in Hn' by lia.
      rewrite Z.pow_add_r, Z.pow_add_r, Z.pow_1_r in Hn' by lia.
      pose proof (Z.pow_pos_nonneg p k ltac:(lia) Hk).
      assert (r = p * p ^ (j - k - 1)) as E by (apply (Z.mul_reg_l _ _ (p ^ k)); lia).
      destruct Hm. by rewrite E, Z.mul_comm, Z_mod_mult.
Qed.

(** For every group number the copy test terminates, and it holds exactly of
    group 0, group 1 and the powers of 3, 5 and 7. *)
Lemma has_backup_spec i :
  0 <= i ->
  exists b, has_backup i = Some b /\
    (b = true <->
     i = 0 \/ exists k, 0 <= k /\ (i = 3 ^ k \/ i = 5 ^ k \/ i = 7 ^ k)).
Proof.
  intros Hi. unfold has_backup. destruct (Z.eqb_spec i 0) as [->|Hi0].
  { exists true. split; [done|]. split; [by left|done]. }
  destruct (Z.eqb_spec i 1) as [->|Hi1]; simpl.
  { exists true. split; [done|]. split; [|done]. right. exists 0. lia. }
  destruct (isPowerOf_spec i 3) as (b3 & -> & H3); [lia..|].
  destruct (isPowerOf_spec i 5) as (b5 & -> & H5); [lia..|].
  destruct (isPowerOf_spec i 7) as (b7 & -> & H7); [lia..|].
  exists (b3 || b5 || b7). split; [by destruct b3, b5|].
  rewrite !orb_true_iff, H3, H5, H7. clear -Hi0. split.
  - intros [[(k & ? & ?)|(k & ? & ?)]|(k & ? & ?)]; eauto 10.
  - intros [?|(k & ? & [?|[?|?]])]; eauto 10. lia.
Qed.

(** ** The writes of a push *)

Definition apply_writes (d : gmap Z Z) (ws : list (Z * list Z)) : gmap Z Z :=
  foldl (fun d w => write_at d w.1 w.2) d ws.

Definition disjoint_from (a n : Z) (w : Z * list Z) : Prop :=
  a + n <= w.1 \/ w.1 + zlen w.2 <= a.

Lemma apply_writes_frame ws a n d :
  Forall (disjoint_from a n) ws -> read_at (apply_writes d ws) a n = read_at d a n.
Proof.
  intros H. revert d. induction H as [|w ws Hw _ IH]; intros d; [done|].
  cbn [apply_writes foldl]. change (read_at (apply_writes (write_at d w.1 w.2) ws) a n = read_at d a n).
  rewrite IH. by apply read_write_disjoint.
Qed.

(** Of writes to pairwise disjoint places, each can be read back. *)
Lemma apply_writes_read {A} (f : A -> Z * list Z) (l : list A) x d :
  NoDup l -> x ∈ l ->
  (forall y, y ∈ l -> y <> x -> disjoint_from (f x).1 (zlen (f x).2) (f y)) ->
  read_at (apply_writes d (f <$> l)) (f x).1 (zlen (f x).2) = (f x).2.
Proof.
  intros Hnd (l1 & l2 & ->)%list_elem_of_split Hdis.
  unfold apply_writes. rewrite fmap_app, foldl_app, fmap_cons. cbn [foldl].
  change (read_at (apply_writes (write_at (apply_writes d (f <$> l1)) (f x).1 (f x).2) (f <$> l2))
            (f x).1 (zlen (f x).2) = (f x).2).
  rewrite apply_writes_frame; [apply read_write_same|].
  apply Forall_fmap, Forall_forall. intros y Hy. apply Hdis; [set_solver|].
  apply NoDup_app in Hnd as (_ & _ & [? _]%NoDup_cons). set_solver.
Qed.

(** The groups in which [push_backups] stores a copy, and all copies (0 is the
    primary one) with their places. *)
Definition backup_groups (e : Ext2) : list Z :=
  filter (fun i => has_backup i = Some true) (seqZ 1 (blockGroups e - 1)).
Definition all_copies (e : Ext2) : list Z := 0 :: backup_groups e.

Definition bgdt_copy (e : Ext2) (i : Z) : Z :=
  if i =? 0 then offsetBGDT e * SECTOR_SIZE
  else block_addr e (i * blocks_per_group (superblock e) + 1).
Definition super_copy (e : Ext2) (i : Z) : Z :=
  if i =? 0 then offsetSuperblock e * SECTOR_SIZE
  else block_addr e (i * blocks_per_group (superblock e)).

Definition bgdt_writes (e : Ext2) : list (Z * list Z) :=
  (fun i => (bgdt_copy e i, encode_bgdt (bgdts e))) <$> all_copies e.
Definition super_writes (e : Ext2) : list (Z * list Z) :=
  (fun i => (super_copy e i, encode_superblock (superblock e))) <$> all_copies e.

Lemma elem_of_backup_groups e i :
  i ∈ backup_groups e <-> has_backup i = Some true /\ 1 <= i < blockGroups e.
Proof. unfold backup_groups. rewrite list_elem_of_filter, elem_of_seqZ. intuition lia. Qed.

Lemma NoDup_all_copies e : NoDup (all_copies e).
Proof.
  apply NoDup_cons. split; [rewrite elem_of_backup_groups; intros [_ ?]; lia|].
  apply NoDup_filter, NoDup_seqZ.
Qed.

Lemma push_backups_ok bs lba n addr e d l h :
  (forall i d, 1 <= i < blockGroups e ->
     set_disk bs (lba i) n (mkFs d e l h) = Ok (tt, mkFs (write_at d (addr i) bs) e l h)) ->
  push_backups e bs lba n (mkFs d e l h) =
    Ok (tt, mkFs (apply_writes d ((fun i => (addr i, bs)) <$> backup_groups e)) e l h).
Proof.
  intros Hset. unfold push_backups, backup_groups.
  assert (Hin : Forall (fun i => 1 <= i < blockGroups e) (seqZ 1 (blockGroups e - 1))).
  { apply Forall_forall. intros i Hi%elem_of_seqZ. lia. }
  revert d. induction Hin as [|i gs Hi _ IH]; intros d; [done|].
  cbn [mfor]. rewrite filter_cons.
  destruct (has_backup_spec i ltac:(lia)) as (b & Hb & _). rewrite Hb. destruct b.
  - rewrite decide_True by done. mstep (Hset i). rewrite IH. done.
  - rewrite decide_False by done. mstep (@eq_refl (outcome (unit * fs))). apply IH.
Qed.

(** Where group [i] starts. *)
Definition group_addr (e : Ext2) (i : Z) : Z :=
  block_addr e (i * blocks_per_group (superblock e)).

Section push.
Context (e : Ext2) (G : geometry e).

Lemma backup_block i :
  1 <= i < blockGroups e ->
  u32 (i * blocks_per_group (superblock e)) = i * blocks_per_group (superblock e) /\
  u32 (i * blocks_per_group (superblock e) + 1) = i * blocks_per_group (superblock e) + 1 /\
  valid_block e (i * blocks_per_group (superblock e)) /\
  valid_block e (i * blocks_per_group (superblock e) + 1) /\
  blocks_per_group (superblock e) <= i * blocks_per_group (superblock e).
Proof.
  intros Hi. destruct (sb_fits4 e G) as (Ht & _). unfold fits in Ht. destruct G.
  assert (i * blocks_per_group (superblock e) + 1 < total_blocks (superblock e)) by nia.
  unfold valid_block. rewrite !u32_small by nia. nia.
Qed.

Lemma bgdt_bytes : zlen (encode_bgdt (bgdts e)) = blockSize e.
Proof.
  destruct G. rewrite zlen_encode_bgdt by done. unfold zlen. rewrite geo_bgs.
  pose proof (Z.div_mod (blockSize e) 32 ltac:(lia)). lia.
Qed.

Lemma bgdt_block_valid : valid_block e (superblock_idx (superblock e) + 1).
Proof. destruct G. unfold valid_block. rewrite geo_idx. case_match; lia. Qed.

Lemma push_sectors : CEILING_DIVISION (blockSize e) SECTOR_SIZE = block_sectors e.
Proof.
  destruct (geo_spb e G) as [Hbs Hspb]. destruct G. unfold block_sectors, SECTOR_SIZE in *.
  rewrite CEILING_DIVISION_spec by lia. symmetry. apply Z.div_unique with 511; lia.
Qed.

Lemma ext2BgdtPushM_ok d l h :
  ext2BgdtPushM (mkFs d e l h) = Ok (tt, mkFs (apply_writes d (bgdt_writes e)) e l h).
Proof.
  unfold ext2BgdtPushM. mstep (@eq_refl (outcome (Ext2 * fs))). cbn [ext2].
  rewrite push_sectors. destruct (BLOCK_TO_LBA_ok e G _ bgdt_block_valid) as (_ & _ & _ & Ha).
  assert (offsetBGDT e = BLOCK_TO_LBA e 0 (superblock_idx (superblock e) + 1)) as Eo
    by by destruct G.
  rewrite Eo at 1. mgo set_block_ok; [|done|apply bgdt_block_valid|apply bgdt_bytes].
  erewrite push_backups_ok with (addr := bgdt_copy e).
  - unfold bgdt_writes, all_copies. rewrite fmap_cons. cbn [apply_writes foldl fst snd].
    change (bgdt_copy e 0) with (offsetBGDT e * SECTOR_SIZE). by rewrite Eo, Ha.
  - intros i d' Hi. unfold bgdt_copy. rewrite (proj2 (Z.eqb_neq i 0)) by lia. destruct (backup_block i Hi) as (-> & -> & _ & Hv & _).
    rewrite set_block_ok by (done || apply bgdt_bytes). done.
Qed.

Lemma super_valid : offsetBase e + 4 <= 2 ^ 32.
Proof. destruct (geo_spb e G) as [Hbs Hspb]. destruct G. nia. Qed.

Lemma ext2SuperblockPushM_ok d l h :
  ext2SuperblockPushM (mkFs d e l h) = Ok (tt, mkFs (apply_writes d (super_writes e)) e l h).
Proof.
  unfold ext2SuperblockPushM. mstep (@eq_refl (outcome (Ext2 * fs))). cbn [ext2].
  assert (zlen (encode_superblock (superblock e)) = 2 * SECTOR_SIZE) as Hl.
  { destruct G. by rewrite zlen_encode_superblock. }
  pose proof super_valid. assert (offsetSuperblock e = offsetBase e + 2) as Eo by by destruct G.
  assert (0 <= offsetBase e) by by destruct G.
  mgo set_disk_ok; [|lia..|done].
  erewrite push_backups_ok with (addr := super_copy e).
  - done.
  - intros i d' Hi. unfold super_copy. rewrite (proj2 (Z.eqb_neq i 0)) by lia. destruct (backup_block i Hi) as (-> & _ & Hv & _).
    destruct (BLOCK_TO_LBA_ok e G _ Hv) as (_ & ? & ? & <-).
    destruct (geo_spb e G). unfold block_sectors in *. rewrite set_disk_ok by (done || lia). done.
Qed.

(** ** What a push changes and what it leaves *)

Lemma all_copies_group i : i ∈ all_copies e -> i = 0 \/ 1 <= i < blockGroups e.
Proof. unfold all_copies. rewrite elem_of_cons, elem_of_backup_groups. tauto. Qed.

(** Every copy of the superblock and of the descriptors lies at the start of
    its own group. *)
Lemma copy_places i :
  i ∈ all_copies e ->
  group_addr e i <= super_copy e i /\ super_copy e i + 1024 <= bgdt_copy e i /\
  bgdt_copy e i + blockSize e <= group_addr e i + 3 * blockSize e.
Proof.
  intros Hi%all_copies_group. unfold super_copy, bgdt_copy.
  destruct (BLOCK_TO_LBA_ok e G _ bgdt_block_valid) as (_ & _ & _ & Ha).
  destruct G. rewrite geo_bgdt, Ha, geo_super. unfold group_addr, block_addr, SECTOR_SIZE.
  rewrite geo_idx. destruct (Z.eqb_spec i 0), (Z.eqb_spec (blockSize e) 1024); nia.
Qed.

Lemma copies_apart i j :
  i ∈ all_copies e -> j ∈ all_copies e -> i <> j ->
  group_addr e i + 3 * blockSize e <= group_addr e j \/
  group_addr e j + 3 * blockSize e <= group_addr e i.
Proof.
  intros Hi%all_copies_group Hj%all_copies_group Hne. unfold group_addr, block_addr. destruct G.
  set (p := blocks_per_group (superblock e)) in *.
  assert (3 * blockSize e <= p * blockSize e) by nia.
  destruct (Z.lt_total i j) as [|[|]]; [left|done|right]; nia.
Qed.

End push.

(** A region of the drive that holds no copy of the superblock or of the
    descriptors. *)
Definition off_meta (e : Ext2) (a n : Z) : Prop :=
  forall i, i ∈ all_copies e ->
    (a + n <= bgdt_copy e i \/ bgdt_copy e i + blockSize e <= a) /\
    (a + n <= super_copy e i \/ super_copy e i + 1024 <= a).

(** Every copy on the drive is the in-memory structure. *)
Definition meta_synced (e : Ext2) (d : gmap Z Z) : Prop :=
  forall i, i ∈ all_copies e ->
    read_at d (bgdt_copy e i) (blockSize e) = encode_bgdt (bgdts e) /\
    read_at d (super_copy e i) 1024 = encode_superblock (superblock e).

Section push_effects.
Context (e : Ext2) (G : geometry e).

Lemma super_bytes : zlen (encode_superblock (superblock e)) = 1024.
Proof. destruct G. by rewrite zlen_encode_superblock. Qed.

Lemma bgdt_writes_frame a n d :
  off_meta e a n -> read_at (apply_writes d (bgdt_writes e)) a n = read_at d a n.
Proof.
  intros H. apply apply_writes_frame, Forall_fmap, Forall_forall. intros i Hi.
  unfold disjoint_from; simpl. rewrite bgdt_bytes by done. by apply H.
Qed.

Lemma super_writes_frame a n d :
  off_meta e a n -> read_at (apply_writes d (super_writes e)) a n = read_at d a n.
Proof.
  intros H. apply apply_writes_frame, Forall_fmap, Forall_forall. intros i Hi.
  unfold disjoint_from; simpl. rewrite super_bytes by done. by apply H.
Qed.

Lemma bgdt_push_synced i d :
  i ∈ all_copies e ->
  read_at (apply_writes d (bgdt_writes e)) (bgdt_copy e i) (blockSize e) = encode_bgdt (bgdts e).
Proof.
  intros Hi. pose proof (bgdt_bytes e G) as Hl. rewrite <- Hl at 1.
  apply (apply_writes_read (fun i => (bgdt_copy e i, encode_bgdt (bgdts e)))).
  - apply NoDup_all_copies.
  - done.
  - intros j Hj Hne. unfold disjoint_from; simpl. rewrite Hl.
    pose proof (copy_places e G i Hi). pose proof (copy_places e G j Hj).
    pose proof (copies_apart e G i j Hi Hj ltac:(done)). destruct G. lia.
Qed.

Lemma super_push_synced i d :
  i ∈ all_copies e ->
  read_at (apply_writes d (super_writes e)) (super_copy e i) 1024 = encode_superblock (superblock e).
Proof.
  intros Hi. pose proof super_bytes as Hl. rewrite <- Hl.
  apply (apply_writes_read (fun i => (super_copy e i, encode_superblock (superblock e)))).
  - apply NoDup_all_copies.
  - done.
  - intros j Hj Hne. unfold disjoint_from; simpl. rewrite Hl.
    pose proof (copy_places e G i Hi). pose proof (copy_places e G j Hj).
    pose proof (copies_apart e G i j Hi Hj ltac:(done)). destruct G. lia.
Qed.

(** Pushing the superblock leaves every copy of the descriptors alone. *)
Lemma super_push_bgdt i d :
  i ∈ all_copies e ->
  read_at (apply_writes d (super_writes e)) (bgdt_copy e i) (blockSize e) =
    read_at d (bgdt_copy e i) (blockSize e).
Proof.
  intros Hi. apply apply_writes_frame, Forall_fmap, Forall_forall. intros j Hj.
  unfold disjoint_from; simpl. rewrite super_bytes.
  pose proof (copy_places e G i Hi). pose proof (copy_places e G j Hj). destruct G.
  destruct (decide (i = j)) as [->|Hne]; [lia|].
  pose proof (copies_apart e G i j Hi Hj ltac:(done)). lia.
Qed.

End push_effects.

(** ** Layout

    Allocation only changes the free counters; what places things on the drive
    stays. *)

Definition bg_layout (g : Ext2BlockGroup) : Z * Z * Z :=
  (block_bitmap g, inode_bitmap g, inode_table g).

Record same_layout (e e' : Ext2) : Prop := {
  sl_base : offsetBase e = offsetBase e';
  sl_super : offsetSuperblock e = offsetSuperblock e';
  sl_bgdt : offsetBGDT e = offsetBGDT e';
  sl_bs : blockSize e = blockSize e';
  sl_is : inodeSize e = inodeSize e';
  sl_groups : blockGroups e = blockGroups e';
  sl_total : total_blocks (superblock e) = total_blocks (superblock e');
  sl_bpg : blocks_per_group (superblock e) = blocks_per_group (superblock e');
  sl_ipg : inodes_per_group (superblock e) = inodes_per_group (superblock e');
  sl_idx : superblock_idx (superblock e) = superblock_idx (superblock e');
  sl_first : first_inode (superblock e) = first_inode (superblock e');
  sl_bgs : bg_layout <$> bgdts e = bg_layout <$> bgdts e';
}.

#[export] Instance same_layout_equiv : Equivalence same_layout.
Proof.
  split.
  - by intros e.
  - by intros e e' [].
  - intros e1 e2 e3 [] []. split; by etrans.
Qed.

#[export] Instance blockSize_proper : Proper (same_layout ==> eq) blockSize.
Proof. by intros e e' []. Qed.
#[export] Instance BLOCK_TO_LBA_proper : Proper (same_layout ==> eq ==> eq ==> eq) BLOCK_TO_LBA.
Proof. intros e e' [] ? ? -> ? ? ->. unfold BLOCK_TO_LBA. congruence. Qed.
#[export] Instance block_addr_proper : Proper (same_layout ==> eq ==> eq) block_addr.
Proof. intros e e' [] ? ? ->. unfold block_addr. congruence. Qed.
#[export] Instance valid_block_proper : Proper (same_layout ==> eq ==> iff) valid_block.
Proof. intros e e' [] ? ? ->. unfold valid_block. by rewrite sl_total0. Qed.
#[export] Instance block_bytes_proper : Proper (same_layout ==> eq ==> eq ==> eq) block_bytes.
Proof.
  intros e e' [] ? ? -> ? ? ->. unfold block_bytes, block_addr. congruence.
Qed.
#[export] Instance all_copies_proper : Proper (same_layout ==> eq) all_copies.
Proof. intros e e' []. unfold all_copies, backup_groups. by rewrite sl_groups0. Qed.
#[export] Instance bgdt_copy_proper : Proper (same_layout ==> eq ==> eq) bgdt_copy.
Proof. intros e e' [] ? i ->. unfold bgdt_copy, block_addr. case_match; congruence. Qed.
#[export] Instance super_copy_proper : Proper (same_layout ==> eq ==> eq) super_copy.
Proof. intros e e' [] ? i ->. unfold super_copy, block_addr. case_match; congruence. Qed.
#[export] Instance off_meta_proper : Proper (same_layout ==> eq ==> eq ==> iff) off_meta.
Proof.
  intros e e' H ? a -> ? n ->. unfold off_meta. split; intros Hi i.
  - rewrite <- H. apply Hi.
  - rewrite H. apply Hi.
Qed.

Lemma geometry_layout e e' :
  geometry e -> same_layout e e' -> superblock_wf (superblock e') ->
  Forall block_group_wf (bgdts e') -> geometry e'.
Proof.
  intros [] H Hs Hb. pose proof H as [].
  assert (length (bgdts e') = length (bgdts e)) as Hl.
  { apply (f_equal length) in sl_bgs0. by rewrite !length_fmap in sl_bgs0. }
  split; rewrite <- ?sl_base0, <- ?sl_super0, <- ?sl_bgdt0, <- ?sl_bs0, <- ?sl_groups0,
    <- ?sl_total0, <- ?sl_bpg0, <- ?sl_ipg0, <- ?sl_idx0, <- ?H, ?Hl; done.
Qed.

(** ** Accounting

    The sequence every allocation and release ends with: adjust the counter of
    the group, push the descriptors, adjust the counter of the superblock, push
    the superblock, each under its lock. *)
Definition update_counts (group : Z) (fg : Ext2BlockGroup -> Ext2BlockGroup)
    (fsb : Ext2Superblock -> Ext2Superblock) : M fs unit :=
  spin_acquire LOCK_BGDT_WRITE ;;;
  (let! g := bgdt_get group in bgdt_put group (fg g)) ;;;
  ext2BgdtPushM ;;;
  spin_release LOCK_BGDT_WRITE ;;;
  spin_acquire LOCK_SUPERBLOCK_WRITE ;;;
  modify (fun s => set_ext2 (set_superblock (fsb (superblock (ext2 s))) (ext2 s)) s) ;;;
  ext2SuperblockPushM ;;;
  spin_release LOCK_SUPERBLOCK_WRITE.

(** The drive after both pushes. *)
Definition push_meta (e : Ext2) (d : gmap Z Z) : gmap Z Z :=
  apply_writes (apply_writes d (bgdt_writes e)) (super_writes e).

Lemma push_meta_frame e a n d :
  geometry e -> off_meta e a n -> read_at (push_meta e d) a n = read_at d a n.
Proof.
  intros G H. unfold push_meta. by rewrite super_writes_frame, bgdt_writes_frame.
Qed.

Lemma push_meta_synced e d : geometry e -> meta_synced e (push_meta e d).
Proof.
  intros G i Hi. unfold push_meta. split.
  - by rewrite super_push_bgdt, bgdt_push_synced.
  - by apply super_push_synced.
Qed.

Definition sb_layout (s : Ext2Superblock) : Z * Z * Z * Z * Z :=
  (total_blocks s, blocks_per_group s, inodes_per_group s, superblock_idx s, first_inode s).

(** The control block after the counters of group [g] and of the volume have
    been adjusted. *)
Definition recount (g : Z) (fg : Ext2BlockGroup -> Ext2BlockGroup)
    (fsb : Ext2Superblock -> Ext2Superblock) (e : Ext2) : Ext2 :=
  set_superblock (fsb (superblock e)) (set_bgdts (alter fg (Z.to_nat g) (bgdts e)) e).

Section accounting.
Context (e : Ext2) (G : geometry e) (g : Z) (x : Ext2BlockGroup).
Context (Hg : 0 <= g) (Hx : bgdts e !! Z.to_nat g = Some x).
Context (fg : Ext2BlockGroup -> Ext2BlockGroup) (fsb : Ext2Superblock -> Ext2Superblock).
Context (Hfg : bg_layout (fg x) = bg_layout x) (Hfgwf : block_group_wf (fg x)).
Context (Hfsb : sb_layout (fsb (superblock e)) = sb_layout (superblock e)).
Context (Hfsbwf : superblock_wf (fsb (superblock e))).

Lemma alter_insert_bgdts : alter fg (Z.to_nat g) (bgdts e) = <[Z.to_nat g := fg x]> (bgdts e).
Proof.
  apply list_eq. intros i. destruct (decide (i = Z.to_nat g)) as [->|Hne].
  - rewrite list_lookup_alter_eq, Hx, list_lookup_insert_eq; [done|].
    by eapply lookup_lt_Some.
  - by rewrite list_lookup_alter_ne, list_lookup_insert_ne.
Qed.

Lemma recount_bgdts_wf : Forall block_group_wf (alter fg (Z.to_nat g) (bgdts e)).
Proof. rewrite alter_insert_bgdts. apply Forall_insert; [by destruct G|done]. Qed.

Lemma recount_bgdts_layout : bg_layout <$> bgdts e = bg_layout <$> alter fg (Z.to_nat g) (bgdts e).
Proof.
  rewrite alter_insert_bgdts, list_fmap_insert, list_insert_id; [done|].
  by rewrite list_lookup_fmap, Hx, Hfg.
Qed.

Lemma recount_layout : same_layout e (recount g fg fsb e).
Proof.
  unfold sb_layout in Hfsb. injection Hfsb as ? ? ? ? ?.
  pose proof recount_bgdts_layout. by split.
Qed.

Lemma recount_geometry : geometry (recount g fg fsb e).
Proof.
  eapply geometry_layout; [done|apply recount_layout|done|apply recount_bgdts_wf].
Qed.

Lemma update_counts_ok d l h :
  l !! LOCK_BGDT_WRITE = Some 0 -> l !! LOCK_SUPERBLOCK_WRITE = Some 0 ->
  update_counts g fg fsb (mkFs d e l h) =
    Ok (tt, mkFs (push_meta (recount g fg fsb e) d) (recount g fg fsb e) l h).
Proof.
  intros Hl1 Hl2. set (e1 := set_bgdts (alter fg (Z.to_nat g) (bgdts e)) e).
  assert (same_layout e e1) as L1 by (pose proof recount_bgdts_layout; by split).
  assert (geometry e1) as G1.
  { eapply geometry_layout; [done..|by destruct G|apply recount_bgdts_wf]. }
  unfold update_counts. mstep spin_acquire_ok.
  erewrite bind_ok; [|mgo bgdt_get_ok; [|done..]; by eapply bgdt_put_ok].
  rewrite <- alter_insert_bgdts. fold e1. mgo ext2BgdtPushM_ok; [|done].
  mstep spin_release_ok. mstep spin_acquire_ok.
  erewrite bind_ok by done. cbn [ext2 superblock set_ext2].
  change (set_superblock (fsb (superblock e1)) e1) with (recount g fg fsb e).
  mgo ext2SuperblockPushM_ok; [|apply recount_geometry].
  rewrite spin_release_ok by done. do 3 f_equal. unfold push_meta. do 2 f_equal.
  unfold bgdt_writes.
  assert (same_layout e1 (recount g fg fsb e)) as L2.
  { rewrite <- L1. apply recount_layout. }
  rewrite <- L2. cbn [drv]. f_equal. apply list_fmap_ext. intros ? i _.
  by rewrite (bgdt_copy_proper _ _ L2 i i eq_refl).
Qed.

End accounting.

(** ** Placement of the bitmaps and tables *)

(** The block bitmap, the inode bitmap and the inode table of a group, as
    address and length. *)
Definition group_regions (e : Ext2) (x : Ext2BlockGroup) : list (Z * Z) :=
  [(block_addr e (block_bitmap x), blockSize e);
   (block_addr e (inode_bitmap x), blockSize e);
   (block_addr e (inode_table x), inodes_per_group (superblock e) * inodeSize e)].

Definition apart (r r' : Z * Z) : Prop := r.1 + r.2 <= r'.1 \/ r'.1 + r'.2 <= r.1.

Record placement (e : Ext2) : Prop := {
  pl_valid : forall g x, 0 <= g < blockGroups e -> bgdts e !! Z.to_nat g = Some x ->
    valid_block e (block_bitmap x) /\ valid_block e (inode_bitmap x);
  pl_off : forall g x, 0 <= g < blockGroups e -> bgdts e !! Z.to_nat g = Some x ->
    Forall (fun r => off_meta e r.1 r.2) (group_regions e x);
  pl_apart : forall g g' x x' (i j : nat) r r',
    0 <= g < blockGroups e -> 0 <= g' < blockGroups e ->
    bgdts e !! Z.to_nat g = Some x -> bgdts e !! Z.to_nat g' = Some x' ->
    group_regions e x !! i = Some r -> group_regions e x' !! j = Some r' ->
    (g, i) <> (g', j) -> apart r r';
}.

Lemma group_regions_layout e e' x x' :
  same_layout e e' -> bg_layout x = bg_layout x' -> group_regions e x = group_regions e' x'.
Proof.
  intros H E. unfold bg_layout in E. injection E as E1 E2 E3. unfold group_regions.
  rewrite E1, E2, E3. destruct H. unfold block_addr. congruence.
Qed.

Lemma bgdts_layout_lookup e e' g x' :
  same_layout e e' -> bgdts e' !! g = Some x' ->
  exists x, bgdts e !! g = Some x /\ bg_layout x = bg_layout x'.
Proof.
  intros [] Hx. apply (f_equal (fun l => l !! g)) in sl_bgs0.
  rewrite !list_lookup_fmap, Hx in sl_bgs0.
  destruct (bgdts e !! g) as [x|]; [|done]. apply (inj Some) in sl_bgs0. eauto.
Qed.

Lemma placement_layout e e' : placement e -> same_layout e e' -> placement e'.
Proof.
  intros P L. pose proof (sl_groups _ _ L) as Eg. split.
  - intros g x' Hg Hx'. rewrite <- Eg in Hg.
    destruct (bgdts_layout_lookup e e' _ x' L Hx') as (x & Hx & E).
    destruct (pl_valid e P g x Hg Hx). unfold bg_layout in E. injection E as <- <- _.
    by rewrite <- L.
  - intros g x' Hg Hx'. rewrite <- Eg in Hg.
    destruct (bgdts_layout_lookup e e' _ x' L Hx') as (x & Hx & E).
    rewrite <- (group_regions_layout e e' x x') by done.
    eapply Forall_impl; [by eapply pl_off|]. intros r ?. by rewrite <- L.
  - intros g g' x y i j r r' Hg Hg' Hx Hy Hr Hr' Hne. rewrite <- Eg in Hg, Hg'.
    destruct (bgdts_layout_lookup e e' _ x L Hx) as (x0 & Hx0 & Ex).
    destruct (bgdts_layout_lookup e e' _ y L Hy) as (y0 & Hy0 & Ey).
    rewrite <- (group_regions_layout e e' x0 x) in Hr by done.
    rewrite <- (group_regions_layout e e' y0 y) in Hr' by done.
    by apply (pl_apart e P g g' x0 y0 i j).
Qed.
