(* ===== verification/Ext2Counters.v ===== *)
(** * ext2: free counters against bitmaps

    The accounting invariant shared by the block and the inode allocator: the
    counter of every group is the number of clear bits of its bitmap, and the
    counter of the superblock is their sum.  Parametrised by which bitmap and
    which counters are meant. *)

From S2P Require Import Prelude Bytes Spinlock Disk Ext2Types Ext2Base Ext2Push.

Definition sumZ (l : list Z) : Z := foldr Z.add 0 l.

Lemma sumZ_insert (f : Ext2BlockGroup -> Z) l (i n : nat) x y :
  l !! i = Some x -> (i < n)%nat ->
  sumZ (f <$> take n (<[i := y]> l)) = sumZ (f <$> take n l) + f y - f x.
Proof.
  unfold sumZ. revert i n. induction l as [|z l IH]; intros i n Hi Hn; [done|].
  destruct n as [|n]; [lia|]. destruct i as [|i]; simpl in *.
  - simplify_eq. lia.
  - specialize (IH i n Hi ltac:(lia)). unfold fmap in IH. lia.
Qed.

(** One of the two bitmap-and-counter families of a volume. *)
Record family := {
  fam_bitmap : Ext2BlockGroup -> Z;
  fam_count : Ext2BlockGroup -> Z;
  fam_total : Ext2Superblock -> Z;
  fam_limit : Ext2Superblock -> Z;
  fam_add_bg : Z -> Ext2BlockGroup -> Ext2BlockGroup;
  fam_add_sb : Z -> Ext2Superblock -> Ext2Superblock;
}.

(** The counters of a group are [uint16_t], those of the superblock [uint32_t]. *)
Definition add_bg_free_inodes (n : Z) (g : Ext2BlockGroup) : Ext2BlockGroup :=
  set_bg_free_inodes (u16 (bg_free_inodes g + n)) g.
Definition add_sb_free_inodes (n : Z) (s : Ext2Superblock) : Ext2Superblock :=
  set_sb_free_inodes (u32 (sb_free_inodes s + n)) s.
Definition add_bg_free_blocks (n : Z) (g : Ext2BlockGroup) : Ext2BlockGroup :=
  set_bg_free_blocks (u16 (bg_free_blocks g + n)) g.
Definition add_sb_free_blocks (n : Z) (s : Ext2Superblock) : Ext2Superblock :=
  set_sb_free_blocks (u32 (sb_free_blocks s + n)) s.

Definition inode_family : family := {|
  fam_bitmap := inode_bitmap; fam_count := bg_free_inodes;
  fam_total := sb_free_inodes; fam_limit := inodes_per_group;
  fam_add_bg := add_bg_free_inodes; fam_add_sb := add_sb_free_inodes |}.
Definition block_family : family := {|
  fam_bitmap := block_bitmap; fam_count := bg_free_blocks;
  fam_total := sb_free_blocks; fam_limit := blocks_per_group;
  fam_add_bg := add_bg_free_blocks; fam_add_sb := add_sb_free_blocks |}.

(** What the accounting needs of a family: its bitmap is one of the regions of
    a group, and neither the bitmap's place nor the number of entries depends on
    the counters. *)
Class FamilyLaws (F : family) := {
  fam_slot : nat;
  fam_slot_region : forall e x,
    group_regions e x !! fam_slot = Some (block_addr e (fam_bitmap F x), blockSize e);
  fam_bitmap_layout : forall x y, bg_layout x = bg_layout y -> fam_bitmap F x = fam_bitmap F y;
  fam_limit_layout : forall s t, sb_layout s = sb_layout t -> fam_limit F s = fam_limit F t;
  fam_add_bg_layout : forall n x, bg_layout (fam_add_bg F n x) = bg_layout x;
  fam_add_sb_layout : forall n s, sb_layout (fam_add_sb F n s) = sb_layout s;
  fam_add_bg_wf : forall n x, block_group_wf x -> block_group_wf (fam_add_bg F n x);
  fam_add_sb_wf : forall n s, superblock_wf s -> superblock_wf (fam_add_sb F n s);
  fam_add_bg_count : forall n x, fam_count F (fam_add_bg F n x) = u16 (fam_count F x + n);
  fam_add_sb_total : forall n s, fam_total F (fam_add_sb F n s) = u32 (fam_total F s + n);
}.
Arguments fam_slot F {_}.

Lemma add_bg_free_blocks_wf n x : block_group_wf x -> block_group_wf (add_bg_free_blocks n x).
Proof. destruct x. intros []. split; try done. apply u16_bound. Qed.
Lemma add_bg_free_inodes_wf n x : block_group_wf x -> block_group_wf (add_bg_free_inodes n x).
Proof. destruct x. intros []. split; try done. apply u16_bound. Qed.
Lemma add_sb_free_blocks_wf n s : superblock_wf s -> superblock_wf (add_sb_free_blocks n s).
Proof. intros. apply superblock_wf_set_free_blocks; [apply u32_bound|done]. Qed.
Lemma add_sb_free_inodes_wf n s : superblock_wf s -> superblock_wf (add_sb_free_inodes n s).
Proof. intros. apply superblock_wf_set_free_inodes; [apply u32_bound|done]. Qed.
#[export] Hint Resolve add_bg_free_blocks_wf add_bg_free_inodes_wf add_sb_free_blocks_wf
  add_sb_free_inodes_wf fam_add_bg_layout fam_add_sb_layout fam_add_bg_wf fam_add_sb_wf : kernel.

#[export] Instance block_family_laws : FamilyLaws block_family.
Proof.
  refine {| fam_slot := 0 |}; unfold bg_layout, sb_layout; cbn; auto with kernel.
  all: intros; congruence || by destruct s.
Defined.
#[export] Instance inode_family_laws : FamilyLaws inode_family.
Proof.
  refine {| fam_slot := 1 |}; unfold bg_layout, sb_layout; cbn; auto with kernel.
  all: intros; congruence || by destruct s.
Defined.

(** The bitmap of a group, as read from the drive. *)
Definition bitmap (F : family) (e : Ext2) (d : gmap Z Z) (x : Ext2BlockGroup) : list Z :=
  block_bytes e d (fam_bitmap F x).

(** A bitmap of [n] entries whose padding bits are set. *)
Definition padded (e : Ext2) (bm : list Z) (n : Z) : Prop :=
  forall k, n <= k < blockSize e * 8 -> bit bm k = true.

Record counters_ok (F : family) (e : Ext2) (d : gmap Z Z) : Prop := {
  co_padded : forall g x, 0 <= g < blockGroups e -> bgdts e !! Z.to_nat g = Some x ->
    padded e (bitmap F e d x) (fam_limit F (superblock e));
  co_count : forall g x, 0 <= g < blockGroups e -> bgdts e !! Z.to_nat g = Some x ->
    fam_count F x = count_free (bit (bitmap F e d x)) (fam_limit F (superblock e));
  co_total : fam_total F (superblock e) =
    sumZ (fam_count F <$> take (Z.to_nat (blockGroups e)) (bgdts e));
}.

(** Adjusting the counters by [n] while the bitmap of group [g] gains [n] clear
    bits and every other bitmap stays keeps the invariant. *)
Lemma counters_recount F e d d' g x fg fsb n :
  counters_ok F e d -> 0 <= g < blockGroups e -> bgdts e !! Z.to_nat g = Some x ->
  fam_bitmap F (fg x) = fam_bitmap F x -> fam_count F (fg x) = fam_count F x + n ->
  fam_total F (fsb (superblock e)) = fam_total F (superblock e) + n ->
  fam_limit F (fsb (superblock e)) = fam_limit F (superblock e) ->
  same_layout e (recount g fg fsb e) ->
  padded e (bitmap F e d' x) (fam_limit F (superblock e)) ->
  count_free (bit (bitmap F e d' x)) (fam_limit F (superblock e)) =
    count_free (bit (bitmap F e d x)) (fam_limit F (superblock e)) + n ->
  (forall g' x', 0 <= g' < blockGroups e -> bgdts e !! Z.to_nat g' = Some x' -> g' <> g ->
     bitmap F e d' x' = bitmap F e d x') ->
  counters_ok F (recount g fg fsb e) d'.
Proof.
  intros [Hpad Hcnt Htot] Hg Hx Hsel Hn Ht Hlim L Hpad' Hcnt' Hother.
  assert (Eb : forall y, bitmap F (recount g fg fsb e) d' y = bitmap F e d' y).
  { intros y. unfold bitmap. by rewrite <- L. }
  assert (Ebs : blockSize (recount g fg fsb e) = blockSize e) by done.
  assert (Hlk : forall g' y, 0 <= g' < blockGroups e ->
    bgdts (recount g fg fsb e) !! Z.to_nat g' = Some y ->
    (g' = g /\ y = fg x) \/ (g' <> g /\ bgdts e !! Z.to_nat g' = Some y)).
  { intros g' y Hg' Hy. unfold recount in Hy. simpl in Hy.
    destruct (decide (g' = g)) as [->|Hne].
    - rewrite list_lookup_alter_eq, Hx in Hy. left. split; [done|].
      by apply (inj Some) in Hy.
    - rewrite list_lookup_alter_ne in Hy by lia. by right. }
  split; unfold padded; rewrite ?Ebs; cbn [recount superblock blockGroups set_superblock set_bgdts];
    rewrite ?Hlim.
  - intros g' y Hg' Hy. rewrite Eb. destruct (Hlk g' y Hg' Hy) as [[-> ->]|[Hne Hy']].
    + unfold bitmap in *. rewrite Hsel. done.
    + rewrite (Hother g' y) by done. by eapply Hpad.
  - intros g' y Hg' Hy. rewrite Eb. destruct (Hlk g' y Hg' Hy) as [[-> ->]|[Hne Hy']].
    + unfold bitmap in *. rewrite Hsel, Hcnt', Hn. f_equal. by eapply Hcnt.
    + rewrite (Hother g' y) by done. by eapply Hcnt.
  - rewrite Ht, Htot. unfold recount. simpl. erewrite alter_insert_bgdts by done.
    rewrite (sumZ_insert _ _ _ _ x) by (done || lia). lia.
Qed.

(** ** Effect of an allocation or release on the drive *)

Section bitmap_update.
Context (F : family) {LF : FamilyLaws F}.
Context (e : Ext2) (G : geometry e) (P : placement e).
Context (g : Z) (x : Ext2BlockGroup).
Context (Hg : 0 <= g < blockGroups e) (Hx : bgdts e !! Z.to_nat g = Some x).
Context (e' : Ext2) (G' : geometry e') (L : same_layout e e').

(** The drive after the bitmap of group [g] was replaced and the counters pushed. *)
Definition bitmap_pushed (d : gmap Z Z) (bm : list Z) : gmap Z Z :=
  push_meta e' (write_block e d (fam_bitmap F x) bm).

Lemma bitmap_pushed_same d bm :
  zlen bm = blockSize e -> bitmap F e (bitmap_pushed d bm) x = bm.
Proof.
  intros Hlen. unfold bitmap, bitmap_pushed, block_bytes.
  rewrite push_meta_frame; [by apply block_bytes_same|done|]. rewrite <- L.
  pose proof (pl_off e P g x Hg Hx) as Ho.
  apply (Forall_lookup_1 _ _ _ _ Ho (fam_slot_region e x)).
Qed.

(** Any area apart from the bitmap and from the metadata copies stays. *)
Lemma bitmap_pushed_frame d bm a n :
  zlen bm = blockSize e -> off_meta e a n ->
  apart (a, n) (block_addr e (fam_bitmap F x), blockSize e) ->
  read_at (bitmap_pushed d bm) a n = read_at d a n.
Proof.
  intros Hlen Ho Ha. unfold bitmap_pushed. rewrite push_meta_frame; [|done|by rewrite <- L].
  apply read_write_disjoint. unfold apart in Ha. simpl in Ha. lia.
Qed.

(** Every other bitmap and every inode table stays. *)
Lemma bitmap_pushed_region d bm g' x' j r :
  zlen bm = blockSize e -> 0 <= g' < blockGroups e -> bgdts e !! Z.to_nat g' = Some x' ->
  group_regions e x' !! j = Some r -> (g', j) <> (g, fam_slot F) ->
  read_at (bitmap_pushed d bm) r.1 r.2 = read_at d r.1 r.2.
Proof.
  intros Hlen Hg' Hx' Hr Hne. apply bitmap_pushed_frame; [done|..].
  - exact (Forall_lookup_1 _ _ _ _ (pl_off e P g' x' Hg' Hx') Hr).
  - destruct r. eapply (pl_apart e P g' g x' x j (fam_slot F)); eauto using fam_slot_region.
Qed.

Lemma bitmap_pushed_other F' {LF' : FamilyLaws F'} d bm g' x' :
  zlen bm = blockSize e -> 0 <= g' < blockGroups e -> bgdts e !! Z.to_nat g' = Some x' ->
  (g', fam_slot F') <> (g, fam_slot F) ->
  bitmap F' e (bitmap_pushed d bm) x' = bitmap F' e d x'.
Proof.
  intros Hlen Hg' Hx' Hne. unfold bitmap.
  exact (bitmap_pushed_region d bm g' x' _ _ Hlen Hg' Hx' (fam_slot_region e x') Hne).
Qed.

End bitmap_update.

(** ** Changing one counter family *)

(** The control block after [n] was added to the free entries of group [g]. *)
Definition recountF (F : family) (g n : Z) (e : Ext2) : Ext2 :=
  recount g (fam_add_bg F n) (fam_add_sb F n) e.

Section recountF.
Context (F : family) {LF : FamilyLaws F}.
Context (e : Ext2) (G : geometry e) (g : Z) (x : Ext2BlockGroup).
Context (Hg : 0 <= g < blockGroups e) (Hx : bgdts e !! Z.to_nat g = Some x).

Lemma group_wf : block_group_wf x.
Proof. eapply Forall_lookup_1; [by destruct G|done]. Qed.

Lemma recountF_layout n : same_layout e (recountF F g n e).
Proof. eapply recount_layout; eauto with kernel. Qed.

Lemma recountF_geometry n : geometry (recountF F g n e).
Proof.
  eapply recount_geometry; eauto using group_wf with kernel.
  apply fam_add_sb_wf. by destruct G.
Qed.

(** [update_counts] while the bitmap's lock [k] is held. *)
Lemma update_countsF_ok n d h l k :
  k <> LOCK_BGDT_WRITE -> k <> LOCK_SUPERBLOCK_WRITE ->
  l !! LOCK_BGDT_WRITE = Some 0 -> l !! LOCK_SUPERBLOCK_WRITE = Some 0 ->
  update_counts g (fam_add_bg F n) (fam_add_sb F n) (mkFs d e (<[k := -1]> l) h) =
  Ok (tt, mkFs (push_meta (recountF F g n e) d) (recountF F g n e) (<[k := -1]> l) h).
Proof.
  intros. eapply update_counts_ok; eauto using group_wf with kernel; [lia|..].
  - apply fam_add_sb_wf. by destruct G.
  - by rewrite lookup_insert_ne.
  - by rewrite lookup_insert_ne.
Qed.

End recountF.

Section counter_change.
Context (F : family) {LF : FamilyLaws F}.
Context (e : Ext2) (G : geometry e) (P : placement e) (d : gmap Z Z).
Context (g : Z) (x : Ext2BlockGroup).
Context (Hg : 0 <= g < blockGroups e) (Hx : bgdts e !! Z.to_nat g = Some x).
Context (bm : list Z) (n : Z) (Hlen : zlen bm = blockSize e).

Let e' := recountF F g n e.
Let d' := bitmap_pushed F e x e' d bm.

(** The family itself: the new bitmap accounts for the change. *)
Lemma counters_self :
  counters_ok F e d ->
  0 <= fam_count F x + n < 65536 -> 0 <= fam_total F (superblock e) + n < 2 ^ 32 ->
  padded e bm (fam_limit F (superblock e)) ->
  count_free (bit bm) (fam_limit F (superblock e)) =
    count_free (bit (bitmap F e d x)) (fam_limit F (superblock e)) + n ->
  counters_ok F e' d'.
Proof.
  intros C Hc Ht Hpad Hcnt.
  pose proof (recountF_layout F e g x Hx n) as L. pose proof (recountF_geometry F e G g x Hx n) as G'.
  assert (bitmap F e d' x = bm) as Eb by (eapply bitmap_pushed_same; eauto).
  eapply counters_recount with (d := d) (x := x) (n := n); rewrite ?Eb; try done.
  - apply fam_bitmap_layout, fam_add_bg_layout.
  - rewrite fam_add_bg_count. apply u16_small. lia.
  - rewrite fam_add_sb_total. apply u32_small. lia.
  - apply fam_limit_layout, fam_add_sb_layout.
  - intros g' x' Hg' Hx' Hne. eapply (bitmap_pushed_other F) with (g := g); eauto. congruence.
Qed.

(** The other family: nothing of it changes. *)
Lemma counters_cross F' {LF' : FamilyLaws F'} :
  fam_slot F' <> fam_slot F ->
  fam_count F' (fam_add_bg F n x) = fam_count F' x ->
  fam_total F' (fam_add_sb F n (superblock e)) = fam_total F' (superblock e) ->
  counters_ok F' e d -> counters_ok F' e' d'.
Proof.
  intros Hs Hc Ht C.
  pose proof (recountF_layout F e g x Hx n) as L. pose proof (recountF_geometry F e G g x Hx n) as G'.
  assert (forall g' x', 0 <= g' < blockGroups e -> bgdts e !! Z.to_nat g' = Some x' ->
    bitmap F' e d' x' = bitmap F' e d x') as Eb.
  { intros. eapply (bitmap_pushed_other F) with (g := g); eauto. congruence. }
  eapply counters_recount with (d := d) (x := x) (n := 0);
    rewrite ?(Eb g x Hg Hx), ?Hc, ?Ht, ?Z.add_0_r; try done.
  - apply fam_bitmap_layout, fam_add_bg_layout.
  - apply fam_limit_layout, fam_add_sb_layout.
  - by eapply (co_padded F').
  - intros. eauto.
Qed.

End counter_change.

(** ** The volume invariant *)

Record volume (e : Ext2) (d : gmap Z Z) : Prop := {
  vol_geo : geometry e;
  vol_place : placement e;
  vol_inodes : counters_ok inode_family e d;
  vol_blocks : counters_ok block_family e d;
  vol_ipg : inodes_per_group (superblock e) <= blockSize e * 8 /\
            inodes_per_group (superblock e) < 65536;
  vol_bpg : blocks_per_group (superblock e) <= blockSize e * 8 /\
            blocks_per_group (superblock e) < 65536;
  vol_first : 0 <= first_inode (superblock e) < inodes_per_group (superblock e);
}.

Lemma count_free_bound f n : 0 <= n -> 0 <= count_free f n <= n.
Proof.
  intros. unfold count_free. pose proof (length_filter (fun k => f k = false) (seqZ 0 n)).
  rewrite length_seqZ in *. lia.
Qed.

(** A marked position is missing from the count. *)
Lemma count_free_lt f n k : 0 <= k < n -> f k = true -> count_free f n < n.
Proof.
  intros Hk Hf.
  rewrite (count_free_mark (fun i => if decide (i = k) then false else f i) f n k).
  - pose proof (count_free_bound (fun i => if decide (i = k) then false else f i) n). lia.
  - done.
  - by rewrite decide_True.
  - done.
  - intros i _ Hne. by rewrite decide_False.
Qed.

Lemma sumZ_bound (l : list Z) m :
  0 <= m -> Forall (fun z => 0 <= z <= m) l -> 0 <= sumZ l <= zlen l * m.
Proof.
  intros Hm. unfold zlen, sumZ. induction 1 as [|z l Hz _ IH]; simpl; [lia|]. nia.
Qed.

Lemma sumZ_lookup (l : list Z) i z :
  Forall (fun z => 0 <= z) l -> l !! i = Some z -> z <= sumZ l.
Proof.
  unfold sumZ. intros Hl. revert i. induction Hl as [|y l Hy Hl IH]; intros i Hi; [done|].
  destruct i as [|i]; simpl in *.
  - simplify_eq. enough (0 <= foldr Z.add 0 l) by lia. clear -Hl. induction Hl; simpl; lia.
  - specialize (IH i Hi). lia.
Qed.

Section totals.
Context (F : family) (e : Ext2) (d : gmap Z Z) (G : geometry e) (C : counters_ok F e d).
Context (Hlim : 0 <= fam_limit F (superblock e) < 65536).

Lemma counts_bounded :
  Forall (fun z => 0 <= z <= fam_limit F (superblock e))
    (fam_count F <$> take (Z.to_nat (blockGroups e)) (bgdts e)).
Proof.
  apply Forall_fmap, Forall_lookup. intros i y Hy.
  apply lookup_take_Some in Hy as [Hy Hi]. simpl.
  rewrite (co_count F e d C (Z.of_nat i) y); [|lia|by rewrite Nat2Z.id].
  apply count_free_bound. lia.
Qed.

(** No counter of the superblock can wrap. *)
Lemma total_bound : 0 <= fam_total F (superblock e) <= 2048 * 65535.
Proof.
  rewrite (co_total F e d C).
  pose proof (sumZ_bound _ (fam_limit F (superblock e)) ltac:(lia) counts_bounded) as Hs.
  unfold zlen in Hs. rewrite length_fmap, length_take in Hs. 
  pose proof (groups_bound e G). nia.
Qed.

Lemma count_le_total g x :
  0 <= g < blockGroups e -> bgdts e !! Z.to_nat g = Some x ->
  0 <= fam_count F x <= fam_limit F (superblock e) /\
  fam_count F x <= fam_total F (superblock e).
Proof.
  intros Hg Hx. rewrite (co_total F e d C). split.
  - rewrite (co_count F e d C g x) by done. apply count_free_bound. lia.
  - eapply (sumZ_lookup _ (Z.to_nat g)).
    + eapply Forall_impl; [apply counts_bounded|]. simpl. lia.
    + rewrite list_lookup_fmap, lookup_take_lt, Hx by lia. done.
Qed.

End totals.

Section volume_change.
Context (e : Ext2) (d : gmap Z Z) (V : volume e d) (g : Z) (x : Ext2BlockGroup).
Context (Hg : 0 <= g < blockGroups e) (Hx : bgdts e !! Z.to_nat g = Some x).
Context (bm : list Z) (n : Z) (Hlen : zlen bm = blockSize e).

Lemma ipg_bounds : 0 <= inodes_per_group (superblock e) < 65536.
Proof. pose proof (geo_ipg e (vol_geo e d V)). destruct V. lia. Qed.
Lemma bpg_bounds : 0 <= blocks_per_group (superblock e) < 65536.
Proof. pose proof (geo_bpg e (vol_geo e d V)). destruct V. lia. Qed.

Lemma volume_inode_change :
  0 <= bg_free_inodes x + n < 65536 ->
  padded e bm (inodes_per_group (superblock e)) ->
  count_free (bit bm) (inodes_per_group (superblock e)) =
    count_free (bit (bitmap inode_family e d x)) (inodes_per_group (superblock e)) + n ->
  volume (recountF inode_family g n e)
    (bitmap_pushed inode_family e x (recountF inode_family g n e) d bm).
Proof.
  intros Hn Hpad Hcnt. pose proof V as [G P CI CB Hi Hb Hf].
  pose proof (recountF_layout inode_family e g x Hx n) as L.
  pose proof (total_bound inode_family e d G CI ipg_bounds).
  pose proof (count_le_total inode_family e d CI ipg_bounds g x Hg Hx) as Hle. simpl in Hle.
  assert (blockSize (recountF inode_family g n e) = blockSize e) as Eb by done.
  split; rewrite <- ?Eb, <- ?(sl_ipg _ _ L), <- ?(sl_bpg _ _ L), <- ?(sl_first _ _ L); try done.
  - eapply recountF_geometry; eauto with typeclass_instances.
  - eapply placement_layout; eauto.
  - eapply (counters_self inode_family); eauto. simpl in *. lia.
  - eapply (counters_cross inode_family); eauto. by destruct (superblock e).
Qed.

Lemma volume_block_change :
  0 <= bg_free_blocks x + n < 65536 ->
  padded e bm (blocks_per_group (superblock e)) ->
  count_free (bit bm) (blocks_per_group (superblock e)) =
    count_free (bit (bitmap block_family e d x)) (blocks_per_group (superblock e)) + n ->
  volume (recountF block_family g n e)
    (bitmap_pushed block_family e x (recountF block_family g n e) d bm).
Proof.
  intros Hn Hpad Hcnt. pose proof V as [G P CI CB Hi Hb Hf].
  pose proof (recountF_layout block_family e g x Hx n) as L.
  pose proof (total_bound block_family e d G CB bpg_bounds).
  pose proof (count_le_total block_family e d CB bpg_bounds g x Hg Hx) as Hle. simpl in Hle.
  assert (blockSize (recountF block_family g n e) = blockSize e) as Eb by done.
  split; rewrite <- ?Eb, <- ?(sl_ipg _ _ L), <- ?(sl_bpg _ _ L), <- ?(sl_first _ _ L); try done.
  - eapply recountF_geometry; eauto with typeclass_instances.
  - eapply placement_layout; eauto.
  - eapply (counters_cross block_family); eauto. by destruct (superblock e).
  - eapply (counters_self block_family); eauto. simpl in *. lia.
Qed.

End volume_change.

(** Marking [m] free positions removes [m] from the count. *)
Lemma count_free_range f f' n a (m : nat) :
  0 <= a -> a + Z.of_nat m <= n ->
  (forall i, a <= i < a + Z.of_nat m -> f i = false /\ f' i = true) ->
  (forall i, 0 <= i < n -> ~ (a <= i < a + Z.of_nat m) -> f' i = f i) ->
  count_free f' n = count_free f n - Z.of_nat m.
Proof.
  intros Ha. revert f'. induction m as [|m IH]; intros f' Hn Hin Hout.
  { rewrite Z.sub_0_r. apply count_free_ext. intros i Hi. apply Hout; lia. }
  set (k := a + Z.of_nat m).
  set (f'' := fun i => if decide (i = k) then f i else f' i).
  rewrite (count_free_mark f'' f' n k).
  - rewrite (IH f''); [lia|lia|..].
    + intros i Hi. unfold f''. rewrite decide_False by lia. apply Hin. lia.
    + intros i Hi Hni. unfold f''. case_decide; [by subst|]. apply Hout; lia.
  - lia.
  - unfold f''. rewrite decide_True by done. apply Hin. lia.
  - apply Hin. lia.
  - intros i Hi Hne. unfold f''. by rewrite decide_False.
Qed.

(** ** Marking as a change of a set of positions *)

(** Position [p] counts through the groups, [fam_limit] entries each. *)
Definition pos_used (F : family) (e : Ext2) (d : gmap Z Z) (p : Z) : bool :=
  match bgdts e !! Z.to_nat (p / fam_limit F (superblock e)) with
  | Some x => bit (bitmap F e d x) (p mod fam_limit F (superblock e))
  | None => true
  end.

Definition valid_pos (F : family) (e : Ext2) (p : Z) : Prop :=
  0 <= p < blockGroups e * fam_limit F (superblock e).

(** The superblock without its two free counters. *)
Definition frozen (s : Ext2Superblock) : Ext2Superblock :=
  set_sb_free_blocks 0 (set_sb_free_inodes 0 s).

(** The step from [(e, d)] to [(e', d')] changes the marks of the [m] positions
    from [p] on to [v] and no other mark, keeps the volume invariant, stores the
    counters in every copy on the drive, and leaves every byte outside the
    bitmaps of the family and those copies. *)
Record marked (F : family) (v : bool) (p m : Z) (e : Ext2) (d : gmap Z Z) (e' : Ext2)
    (d' : gmap Z Z) : Prop := {
  mk_range : 0 <= p /\ p + m <= blockGroups e * fam_limit F (superblock e);
  mk_before : forall i, p <= i < p + m -> pos_used F e d i = negb v;
  mk_after : forall i, p <= i < p + m -> pos_used F e' d' i = v;
  mk_others : forall i, valid_pos F e i -> ~ (p <= i < p + m) ->
    pos_used F e' d' i = pos_used F e d i;
  mk_total : fam_total F (superblock e') = fam_total F (superblock e) + (if v then - m else m);
  mk_frozen : frozen (superblock e') = frozen (superblock e) /\
    inodeSizeRounded e' = inodeSizeRounded e;
  mk_layout : same_layout e e';
  mk_volume : volume e' d';
  mk_synced : meta_synced e' d';
  mk_frame : forall a n, off_meta e a n ->
    (forall g x, 0 <= g < blockGroups e -> bgdts e !! Z.to_nat g = Some x ->
       apart (a, n) (block_addr e (fam_bitmap F x), blockSize e)) ->
    read_at d' a n = read_at d a n;
}.

Section marking.
Context (F : family) {LF : FamilyLaws F} (HF : F = inode_family \/ F = block_family).
Context (e : Ext2) (d : gmap Z Z) (V : volume e d) (g : Z) (x : Ext2BlockGroup).
Context (Hg : 0 <= g < blockGroups e) (Hx : bgdts e !! Z.to_nat g = Some x).

#[local] Abbreviation lim := (fam_limit F (superblock e)).

Lemma lim_bounds : 0 < lim < 65536 /\ lim <= blockSize e * 8.
Proof.
  pose proof (ipg_bounds e d V). pose proof (bpg_bounds e d V).
  destruct V as [[] _ _ _ ? ? _]. destruct HF as [->| ->]; cbn; lia.
Qed.

Lemma fam_counters : counters_ok F e d.
Proof. destruct V. by destruct HF as [->| ->]. Qed.

Lemma pos_of_index k :
  0 <= k < lim -> (g * lim + k) / lim = g /\ (g * lim + k) mod lim = k.
Proof.
  intros Hk. rewrite Z.add_comm, Z.div_add, Z.mod_add, Z.div_small, Z.mod_small by lia. lia.
Qed.

Section change.
Context (bm' : list Z) (n : Z) (Hlen : zlen bm' = blockSize e).
#[local] Abbreviation e' := (recountF F g n e).
#[local] Abbreviation d' := (bitmap_pushed F e x e' d bm').

(** Only the positions of group [g] are judged by the new bitmap. *)
Lemma pos_used_change p :
  valid_pos F e p ->
  pos_used F e' d' p = if decide (p / lim = g) then bit bm' (p mod lim) else pos_used F e d p.
Proof.
  intros Hp. pose proof V as [G P _ _ _ _ _]. pose proof lim_bounds as Hlim.
  pose proof (recountF_layout F e g x Hx n) as L.
  pose proof (recountF_geometry F e G g x Hx n) as G'.
  assert (0 <= p / lim < blockGroups e) as Hgi.
  { unfold valid_pos in Hp. split; [apply Z.div_pos; lia|apply Z.div_lt_upper_bound; lia]. }
  assert (fam_limit F (superblock e') = lim) as El by apply fam_limit_layout, fam_add_sb_layout.
  assert (Eb : forall y, bitmap F e' d' y = bitmap F e d' y).
  { intros y. unfold bitmap. by rewrite (block_bytes_proper _ _ L d' d' eq_refl _ _ eq_refl). }
  unfold pos_used. rewrite El.
  change (bgdts e') with (alter (fam_add_bg F n) (Z.to_nat g) (bgdts e)). case_decide as Ei.
  - rewrite Ei, list_lookup_alter_eq, Hx. cbn [fmap option_fmap option_map]. rewrite Eb.
    f_equal. unfold bitmap. rewrite (fam_bitmap_layout (fam_add_bg F n x) x)
      by apply fam_add_bg_layout.
    eapply (bitmap_pushed_same F) with (g := g); eauto.
  - rewrite list_lookup_alter_ne by lia.
    destruct (bgdts e !! Z.to_nat (p / lim)) as [y|] eqn:Hy; [|done].
    rewrite Eb. f_equal. eapply (bitmap_pushed_other F) with (g := g); eauto. congruence.
Qed.

Lemma volume_change :
  0 <= fam_count F x + n < 65536 -> padded e bm' lim ->
  count_free (bit bm') lim = count_free (bit (bitmap F e d x)) lim + n -> volume e' d'.
Proof.
  destruct HF as [E|E]; revert LF; rewrite E; intros; cbn in *.
  - by apply volume_inode_change.
  - by apply volume_block_change.
Qed.

Lemma total_change :
  - fam_count F x <= n <= lim ->
  fam_total F (superblock e') = fam_total F (superblock e) + n.
Proof.
  intros Hn. pose proof lim_bounds as [Hl _]. pose proof (vol_geo e d V) as G.
  pose proof fam_counters as C.
  destruct (count_le_total F e d C ltac:(lia) g x Hg Hx) as [_ ?].
  pose proof (total_bound F e d G C ltac:(lia)) as Ht. change (superblock e') with (fam_add_sb F n (superblock e)).
  destruct HF as [EF|EF]; rewrite EF in *; destruct (superblock e); cbn in *; apply u32_small; lia.
Qed.

Lemma frozen_change :
  frozen (superblock e') = frozen (superblock e) /\ inodeSizeRounded e' = inodeSizeRounded e.
Proof.
  split; [|done]. change (superblock e') with (fam_add_sb F n (superblock e)).
  destruct HF as [EF|EF]; rewrite EF; by destruct (superblock e).
Qed.

(** Replacing a run of [m] bits of the bitmap of [g], with the counters following. *)
Lemma marked_intro v k (m : nat) :
  0 <= k -> k + Z.of_nat m <= lim -> (1 <= m)%nat ->
  (forall i, k <= i < k + Z.of_nat m -> bit (bitmap F e d x) i = negb v) ->
  (forall i, 0 <= i -> bit bm' i =
     if decide (k <= i < k + Z.of_nat m) then v else bit (bitmap F e d x) i) ->
  n = (if v then - Z.of_nat m else Z.of_nat m) ->
  marked F v (g * lim + k) (Z.of_nat m) e d e' d'.
Proof.
  intros Hk Hm Hm1 Hbm Hbm' Hn. pose proof lim_bounds as Hlim. pose proof V as [G P _ _ _ _ _].
  pose proof fam_counters as C.
  assert (Hcf : count_free (bit bm') lim = count_free (bit (bitmap F e d x)) lim + n).
  { destruct v; subst n.
    - rewrite (count_free_range (bit (bitmap F e d x)) (bit bm') lim k m); [lia|lia|lia|..].
      + intros i Hi. rewrite Hbm', decide_True by lia. auto.
      + intros i Hi Hni. by rewrite Hbm', decide_False by lia.
    - rewrite (count_free_range (bit bm') (bit (bitmap F e d x)) lim k m); [lia|lia|lia|..].
      + intros i Hi. rewrite Hbm', decide_True by lia. auto.
      + intros i Hi Hni. by rewrite Hbm', decide_False by lia. }
  pose proof (count_free_bound (bit bm') lim ltac:(lia)) as Hcb.
  pose proof (co_count F e d C g x Hg Hx) as Hc.
  assert (Hin : forall i, valid_pos F e i -> i / lim = g ->
    (g * lim + k <= i < g * lim + k + Z.of_nat m <-> k <= i mod lim < k + Z.of_nat m)).
  { intros i Hi Hd. pose proof (Z.div_mod i lim ltac:(lia)). rewrite Hd in *. lia. }
  assert (Hrange : forall i, g * lim + k <= i < g * lim + k + Z.of_nat m ->
    valid_pos F e i /\ i / lim = g /\ k <= i mod lim < k + Z.of_nat m).
  { intros i Hi. replace i with (g * lim + (i - g * lim)) by lia.
    destruct (pos_of_index (i - g * lim)) as [-> ->]; [lia|]. split; [|lia].
    unfold valid_pos. nia. }
  split.
  - nia.
  - intros i Hi. destruct (Hrange i Hi) as (_ & Hd & Hr). unfold pos_used.
    rewrite Hd, Hx. by apply Hbm.
  - intros i Hi. destruct (Hrange i Hi) as (Hv & Hd & Hr).
    rewrite pos_used_change, decide_True, Hbm', decide_True by (done || lia). done.
  - intros i Hi Hni. rewrite pos_used_change by done. case_decide as Hd; [|done].
    rewrite Hbm' by (apply Z.mod_pos_bound; lia).
    rewrite decide_False by (by rewrite <- Hin). unfold pos_used. by rewrite Hd, Hx.
  - rewrite <- Hn. apply total_change. destruct v; lia.
  - apply frozen_change.
  - by eapply recountF_layout.
  - apply volume_change; [lia| |done]. intros i Hi.
    rewrite Hbm', decide_False by lia. by apply (co_padded F e d C g x Hg Hx).
  - apply push_meta_synced. by eapply recountF_geometry.
  - intros a j Ho Ha. eapply (bitmap_pushed_frame F); [..|done|by eapply Ha].
    + by eapply recountF_geometry.
    + by eapply recountF_layout.
    + done.
Qed.

End change.
End marking.
