(* ===== verification/Ext2Example.v ===== *)
(** * ext2: a concrete volume

    A small two-group volume (2 KiB blocks, 64 blocks, 32 inodes) on which the
    hypotheses of the ext2 theorems hold; the witnesses of the other files run
    on it. *)

From S2P Require Import Prelude Bytes Spinlock Disk Ext2Types Ext2Base Ext2Push Ext2Counters.

Definition zeros (n : Z) : list Z := replicate (Z.to_nat n) 0.

Definition ex_super : Ext2Superblock :=
  mkSuperblock 32 64 0 32 18 0 1 1 32 32 16 0 0 0 0 61267 1 0 0 0 0 0 1 0 0 11 128 0 0 2 0
    (zeros 16) (zeros 16) (zeros 64) 0 0 0 0 (zeros 16) 0 0 0 (zeros 788).

Definition ex_group (bb ib it fb fi : Z) : Ext2BlockGroup :=
  mkBlockGroup bb ib it fb fi 0 0 (zeros 12).

Definition ex_bgdts : list Ext2BlockGroup :=
  ex_group 3 4 5 14 5 :: ex_group 35 36 37 18 13 :: replicate 62 (ex_group 0 0 0 0 0).

Definition ex_ext2 : Ext2 := mkExt2 2048 2050 2052 2048 128 512 2 ex_bgdts ex_super.

(** A bitmap of 2048 bytes in which the first [n] and the bits from [m] on are set. *)
Definition pack_byte (p : Z -> bool) (l : list Z) : Z :=
  foldr (fun j b => if p j then byte_set b j else b) 0 l.
Definition ex_bitmap (n m : Z) : list Z :=
  (fun i => pack_byte (fun j => (i * 8 + j <? n) || (m <=? i * 8 + j)) (seqZ 0 8))
    <$> seqZ 0 2048.

Definition ex_drive : gmap Z Z :=
  foldl (fun d w => write_block ex_ext2 d w.1 w.2) ∅
    [(3, ex_bitmap 18 32); (4, ex_bitmap 11 16); (35, ex_bitmap 14 32); (36, ex_bitmap 3 16)].

Definition ex_locks : gmap ext2_lock Z :=
  list_to_map ((fun k => (k, 0)) <$>
    [WLOCK_GLOBAL_NOFD; LOCK_BGDT_WRITE; LOCK_SUPERBLOCK_WRITE; LOCK_OBJECT; LOCK_DIRALLOC;
     WLOCKS_BLOCK_BITMAP 0; WLOCKS_BLOCK_BITMAP 1; WLOCKS_INODE 0; WLOCKS_INODE 1]).

Definition ex_heap : heap := mkHeap ∅ ∅ 0 1 0.

Definition ex_fs : fs := mkFs ex_drive ex_ext2 ex_locks ex_heap.

(** ** Its invariants *)

Lemma ex_group_wf bb ib it fb fi :
  fits 4 bb -> fits 4 ib -> fits 4 it -> fits 2 fb -> fits 2 fi ->
  block_group_wf (ex_group bb ib it fb fi).
Proof. by intros. Qed.

Lemma ex_bgdts_wf : Forall block_group_wf ex_bgdts.
Proof.
  apply Forall_cons_2; [by apply ex_group_wf|]. apply Forall_cons_2; [by apply ex_group_wf|].
  apply Forall_replicate. by apply ex_group_wf.
Qed.

Lemma ex_super_wf : superblock_wf ex_super.
Proof. repeat split; repeat (apply Forall_cons; split); done. Qed.

Lemma ex_geometry : geometry ex_ext2.
Proof. split; try done; [by right|apply ex_super_wf|apply ex_bgdts_wf]. Qed.

Lemma ex_groups g x :
  0 <= g < 2 -> ex_bgdts !! Z.to_nat g = Some x ->
  (g = 0 /\ x = ex_group 3 4 5 14 5) \/ (g = 1 /\ x = ex_group 35 36 37 18 13).
Proof.
  intros Hg Hx. assert (g = 0 \/ g = 1) as [->| ->] by lia.
  - left. change (Some (ex_group 3 4 5 14 5) = Some x) in Hx. by simplify_eq.
  - right. change (Some (ex_group 35 36 37 18 13) = Some x) in Hx. by simplify_eq.
Qed.

Lemma ex_placement : placement ex_ext2.
Proof.
  assert (Hc : all_copies ex_ext2 = [0; 1]) by done.
  split.
  - intros g x Hg Hx. destruct (ex_groups g x Hg Hx) as [[-> ->]|[-> ->]]; by vm_compute.
  - intros g x Hg Hx. assert (forall i, i ∈ all_copies ex_ext2 -> i = 0 \/ i = 1) as Hi.
    { rewrite Hc. intros i [->|[->|[]%elem_of_nil]%elem_of_cons]%elem_of_cons; auto. }
    destruct (ex_groups g x Hg Hx) as [[-> ->]|[-> ->]]; repeat (apply Forall_cons_2);
      try done; intros i [->| ->]%Hi; vm_compute; (split; [try (by left); by right|try (by left); by right]).
  - intros g g' x x' i j r r' Hg Hg' Hx Hx' Hr Hr' Hne.
    destruct (ex_groups g x Hg Hx) as [[-> ->]|[-> ->]], (ex_groups g' x' Hg' Hx') as [[-> ->]|[-> ->]];
      destruct i as [|[|[|i]]]; try done; destruct j as [|[|[|j]]]; try done;
      vm_compute in Hr, Hr'; simplify_eq; vm_compute; (try by left); by right.
Qed.

Lemma pack_byte_testbit p l i :
  0 <= i < 8 -> Forall (fun j => 0 <= j < 8) l ->
  Z.testbit (pack_byte p l) i = bool_decide (i ∈ l) && p i.
Proof.
  intros Hi Hl. induction Hl as [|j l Hj Hl IH].
  { cbn [pack_byte foldr]. by rewrite Z.bits_0, bool_decide_false by apply not_elem_of_nil. }
  change (pack_byte p (j :: l)) with (if p j then byte_set (pack_byte p l) j else pack_byte p l).
  rewrite (bool_decide_ext (i ∈ j :: l) (i = j \/ i ∈ l)) by apply elem_of_cons.
  destruct (decide (i = j)) as [->|Hne].
  - rewrite (bool_decide_true (j = j \/ _)) by auto. destruct (p j) eqn:Hp.
    + rewrite byte_set_testbit, bool_decide_true by (done || lia). apply orb_true_r.
    + rewrite IH. apply andb_false_r.
  - rewrite (bool_decide_ext (i = j \/ i ∈ l) (i ∈ l)) by tauto.
    destruct (p j); [|done]. rewrite byte_set_testbit, (bool_decide_false (i = j)) by (done || lia).
    by rewrite orb_false_r.
Qed.

Lemma ex_bitmap_bit n m k :
  0 <= k < 16384 -> bit (ex_bitmap n m) k = (k <? n) || (m <=? k).
Proof.
  intros Hk. pose proof (Z.div_mod k 8 ltac:(lia)). pose proof (Z.mod_pos_bound k 8 ltac:(lia)).
  assert (0 <= k / 8 < 2048) by lia. unfold bit, ex_bitmap.
  erewrite list_lookup_total_correct.
  2:{ rewrite list_lookup_fmap, lookup_seqZ_lt by lia. reflexivity. }
  rewrite pack_byte_testbit; [|lia|].
  2:{ apply Forall_forall. intros j Hj%elem_of_seqZ. lia. }
  rewrite bool_decide_true by (apply elem_of_seqZ; lia). simpl.
  replace ((0 + Z.of_nat (Z.to_nat (k / 8))) * 8 + k mod 8) with k by lia. done.
Qed.

Lemma zlen_ex_bitmap n m : zlen (ex_bitmap n m) = 2048.
Proof. unfold zlen, ex_bitmap. by rewrite length_fmap, length_seqZ. Qed.

(** The last write to a block is what it holds. *)
Lemma four_blocks e d b0 b1 b2 b3 w0 w1 w2 w3 :
  geometry e -> NoDup [b0; b1; b2; b3] ->
  Forall (fun w => zlen w = blockSize e) [w0; w1; w2; w3] ->
  let d' := foldl (fun d w => write_block e d w.1 w.2) d [(b0, w0); (b1, w1); (b2, w2); (b3, w3)] in
  block_bytes e d' b0 = w0 /\ block_bytes e d' b1 = w1 /\
  block_bytes e d' b2 = w2 /\ block_bytes e d' b3 = w3.
Proof.
  intros G Hnd Hw. split_Forall. cbn [foldl fst snd].
  rewrite !NoDup_cons, !not_elem_of_cons in Hnd. destruct_and!.
  repeat split; repeat (rewrite block_bytes_other by auto); by apply block_bytes_same.
Qed.

(** The four bitmaps as the drive holds them. *)
Lemma ex_drive_bitmaps :
  block_bytes ex_ext2 ex_drive 3 = ex_bitmap 18 32 /\
  block_bytes ex_ext2 ex_drive 4 = ex_bitmap 11 16 /\
  block_bytes ex_ext2 ex_drive 35 = ex_bitmap 14 32 /\
  block_bytes ex_ext2 ex_drive 36 = ex_bitmap 3 16.
Proof.
  apply four_blocks; [apply ex_geometry|by apply (bool_decide_unpack (NoDup [3; 4; 35; 36]))|].
  repeat (apply Forall_cons; split; [apply zlen_ex_bitmap|]). apply Forall_nil, I.
Qed.

(** An example bitmap has its padding set and the expected number of clear bits. *)
Lemma ex_bitmap_counts n m c :
  0 <= n -> 0 <= m <= 16384 ->
  count_free (fun k => (k <? n) || (m <=? k)) m = c ->
  padded ex_ext2 (ex_bitmap n m) m /\ c = count_free (bit (ex_bitmap n m)) m.
Proof.
  intros Hn Hm Hc. split.
  - intros k Hk. change (blockSize ex_ext2 * 8) with 16384 in Hk.
    rewrite ex_bitmap_bit by lia. rewrite (proj2 (Z.leb_le m k)) by lia. apply orb_true_r.
  - rewrite <- Hc. apply count_free_ext. intros k Hk. by rewrite ex_bitmap_bit by lia.
Qed.

Lemma ex_counters F n c c' b0 b1 u0 u1 :
  fam_limit F ex_super = n -> 0 <= n <= 16384 -> 0 <= u0 -> 0 <= u1 ->
  fam_count F (ex_group 3 4 5 14 5) = c -> fam_count F (ex_group 35 36 37 18 13) = c' ->
  fam_total F ex_super = c + c' ->
  fam_bitmap F (ex_group 3 4 5 14 5) = b0 -> fam_bitmap F (ex_group 35 36 37 18 13) = b1 ->
  block_bytes ex_ext2 ex_drive b0 = ex_bitmap u0 n ->
  block_bytes ex_ext2 ex_drive b1 = ex_bitmap u1 n ->
  count_free (fun k => (k <? u0) || (n <=? k)) n = c ->
  count_free (fun k => (k <? u1) || (n <=? k)) n = c' ->
  counters_ok F ex_ext2 ex_drive.
Proof.
  intros Hn Hnb Hu0 Hu1 Hc Hc' Ht Hb0 Hb1 E0 E1 C0 C1.
  destruct (ex_bitmap_counts u0 n c) as [P0 K0]; [lia..|done|].
  destruct (ex_bitmap_counts u1 n c') as [P1 K1]; [lia..|done|].
  split; change (superblock ex_ext2) with ex_super; unfold bitmap; rewrite ?Hn.
  - intros g x Hg Hx. destruct (ex_groups g x Hg Hx) as [[-> ->]|[-> ->]].
    + rewrite Hb0, E0. exact P0.
    + rewrite Hb1, E1. exact P1.
  - intros g x Hg Hx. destruct (ex_groups g x Hg Hx) as [[-> ->]|[-> ->]].
    + rewrite Hb0, E0, Hc. exact K0.
    + rewrite Hb1, E1, Hc'. exact K1.
  - rewrite Ht. change (c + c' = fam_count F (ex_group 3 4 5 14 5)
      + (fam_count F (ex_group 35 36 37 18 13) + 0)). lia.
Qed.

Lemma ex_volume : volume ex_ext2 ex_drive.
Proof.
  destruct ex_drive_bitmaps as (E3 & E4 & E35 & E36). split.
  - apply ex_geometry.
  - apply ex_placement.
  - apply (ex_counters inode_family 16 5 13 4 36 11 3);
      [done|lia..|done|done|done|done|done|exact E4|exact E36|done|done].
  - apply (ex_counters block_family 32 14 18 3 35 18 14);
      [done|lia..|done|done|done|done|done|exact E3|exact E35|done|done].
  - cbn. lia.
  - cbn. lia.
  - cbn. lia.
Qed.

Lemma ex_locks_free : locks_free ex_ext2 ex_locks.
Proof.
  repeat split; try (by vm_compute); intros g Hg; cbn in Hg;
    assert (g = 0 \/ g = 1) as [->| ->] by lia; by vm_compute.
Qed.
