(* ===== verification/Ext2Inode.v ===== *)
(** * ext2: inodes ([ext2_inode.c])

    Reading and writing the inode table, and allocating and releasing inode
    numbers in the inode bitmaps. *)

From S2P Require Import Prelude Bytes Spinlock Disk Ext2Types Ext2Base Ext2Push Ext2Counters.

(** ** Definitions *)

(** The window both table accesses transfer: first sector, number of sectors,
    and the offset of the inode in it. *)
Definition inode_window (e : Ext2) (table index : Z) : Z * Z * Z :=
  let leftovers := u64 (index * inodeSize e) in
  let leftoversLba := leftovers / SECTOR_SIZE in
  let leftoversRem := leftovers mod SECTOR_SIZE in
  let len := u64 (CEILING_DIVISION (u64 (inodeSize e * 4)) SECTOR_SIZE * SECTOR_SIZE) in
  let lba := u64 (BLOCK_TO_LBA e 0 table + leftoversLba) in
  (lba, len, leftoversRem).

(** The [inodeSize] bytes copied out are seen as an [Ext2Inode]; a smaller
    [inodeSize] would leave the structure past the allocation. *)
Definition ext2InodeFetch (inode : Z) : M fs Ext2Inode :=
  let! e := gets ext2 in
  let group := INODE_TO_BLOCK_GROUP u64 e inode in
  let index := INODE_TO_INDEX u64 e inode in
  read_acquire (WLOCKS_INODE group) ;;;
  let! g := bgdt_get group in
  let '(lba, len, rem) := inode_window e (inode_table g) index in
  let! buf := get_disk lba (len / SECTOR_SIZE) in
  let! ino := from_option_fault (load rem (inodeSize e) buf) in
  (if inodeSize e <? sizeof_Ext2Inode then fault else ret tt) ;;;
  read_release (WLOCKS_INODE group) ;;;
  ret (decode_inode ino).

Definition ext2InodeModifyM (inode : Z) (target : Ext2Inode) : M fs unit :=
  let! e := gets ext2 in
  let group := INODE_TO_BLOCK_GROUP u64 e inode in
  let index := INODE_TO_INDEX u64 e inode in
  write_acquire (WLOCKS_INODE group) ;;;
  let! g := bgdt_get group in
  let '(lba, len, rem) := inode_window e (inode_table g) index in
  let! buf := get_disk lba (len / SECTOR_SIZE) in
  let! buf := from_option_fault (store rem (encode_inode target) buf) in
  set_disk buf lba (len / SECTOR_SIZE) ;;;
  write_release (WLOCKS_INODE group).

Definition ext2InodeDelete (inode : Z) : M fs unit :=
  let! e := gets ext2 in
  let group := INODE_TO_BLOCK_GROUP u64 e inode in
  let index := INODE_TO_INDEX u64 e inode in
  write_acquire (WLOCKS_INODE group) ;;;
  let! g := bgdt_get group in
  let lba := BLOCK_TO_LBA e 0 (inode_bitmap g) in
  let! buf := get_disk lba (block_sectors e) in
  let! _ := from_option_fault (load (index / 8) 1 buf) in
  kassert (byte_bit (buf !!! Z.to_nat (index / 8)) (index mod 8)) ;;;
  set_disk (bit_clear buf index) lba (block_sectors e) ;;;
  update_counts group (add_bg_free_inodes 1) (add_sb_free_inodes 1) ;;;
  write_release (WLOCKS_INODE group).

(** First element of a range that gives a result: a [for] loop left by [break]. *)
Fixpoint find_map {A B} (f : A -> option B) (l : list A) : option B :=
  match l with
  | [] => None
  | x :: l => match f x with Some y => Some y | None => find_map f l end
  end.

(** The two nested loops over the inode bitmap. *)
Definition inode_scan (buff : list Z) (bs firstInodeDiv firstInodeRem : Z) : option Z :=
  find_map (fun i =>
      let b := buff !!! Z.to_nat i in
      if b =? 255 then None
      else find_map (fun j => if byte_bit b j then None else Some (i * 8 + j))
             (let j0 := if i =? firstInodeDiv then firstInodeRem else 0 in
              seqZ j0 (8 - j0)))
    (seqZ firstInodeDiv (bs - firstInodeDiv)).

Definition ext2InodeFindL (group : Z) : M fs Z :=
  let! e := gets ext2 in
  let! g := bgdt_get group in
  if bg_free_inodes g <? 1 then ret 0
  else
    write_acquire (WLOCKS_INODE group) ;;;
    let lba := BLOCK_TO_LBA e 0 (inode_bitmap g) in
    let! buff := get_disk lba (block_sectors e) in
    let '(firstInodeDiv, firstInodeRem) :=
      if group =? 0 then (first_inode (superblock e) / 8, first_inode (superblock e) mod 8)
      else (0, 0) in
    let ret_ := default 0 (inode_scan buff (blockSize e) firstInodeDiv firstInodeRem) in
    (if negb (ret_ =? 0) then
       set_disk (bit_set buff ret_) lba (block_sectors e) ;;;
       update_counts group (add_bg_free_inodes (-1)) (add_sb_free_inodes (-1))
     else ret tt) ;;;
    write_release (WLOCKS_INODE group) ;;;
    ret (if negb (ret_ =? 0)
         then u32 (u32 (group * inodes_per_group (superblock e)) + ret_ + 1) else 0).

(** The first group, in order, in which [find] succeeds. *)
Fixpoint find_in_groups (find : Z -> M fs Z) (suggestion : Z) (groups : list Z) : M fs Z :=
  match groups with
  | [] => halt
  | i :: groups =>
      if i =? suggestion then find_in_groups find suggestion groups
      else
        let! r := find i in
        if negb (r =? 0) then ret r else find_in_groups find suggestion groups
  end.

Definition ext2InodeFind (groupSuggestion : Z) : M fs Z :=
  let! e := gets ext2 in
  if 1 <=? sb_free_inodes (superblock e) then
    let! suggested := ext2InodeFindL groupSuggestion in
    if negb (suggested =? 0) then ret suggested
    else find_in_groups ext2InodeFindL groupSuggestion (seqZ 0 (blockGroups e))
  else halt.

(** ** The bitmap scan is a first-fit search *)

(** Reference: the first clear bit among [k] in [l]. *)
Definition first_clear (bm : list Z) (l : list Z) : option Z :=
  find_map (fun k => if bit bm k then None else Some k) l.

Lemma find_map_app {A B} (f : A -> option B) l k :
  find_map f (l ++ k) = match find_map f l with Some y => Some y | None => find_map f k end.
Proof. induction l as [|x l IH]; simpl; [done|]. by destruct (f x). Qed.

Lemma find_map_ext {A B} (f g : A -> option B) l :
  (forall x, x ∈ l -> f x = g x) -> find_map f l = find_map g l.
Proof.
  induction l as [|x l IH]; intros H; simpl; [done|].
  rewrite H by set_solver. destruct (g x); [done|]. apply IH. set_solver.
Qed.

Lemma find_map_none {A B} (f : A -> option B) l :
  (forall x, x ∈ l -> f x = None) -> find_map f l = None.
Proof.
  induction l as [|x l IH]; intros H; simpl; [done|].
  rewrite H by set_solver. apply IH. set_solver.
Qed.

Lemma first_clear_spec bm a n :
  match first_clear bm (seqZ a n) with
  | Some k => a <= k < a + n /\ bit bm k = false /\
              forall i, a <= i < k -> bit bm i = true
  | None => forall i, a <= i < a + n -> bit bm i = true
  end.
Proof.
  unfold first_clear. remember (Z.to_nat n) as m eqn:Hm. revert a n Hm.
  induction m as [|m IH]; intros a n Hm.
  { rewrite seqZ_nil by lia. simpl. intros. lia. }
  rewrite seqZ_cons by lia. simpl. destruct (bit bm a) eqn:Ha.
  - specialize (IH (Z.succ a) (Z.pred n) ltac:(lia)). destruct (find_map _ _).
    + destruct IH as (? & ? & Hlt). split; [lia|]. split; [done|]. intros i Hi.
      destruct (decide (i = a)) as [->|]; [done|]. apply Hlt. lia.
    + intros i Hi. destruct (decide (i = a)) as [->|]; [done|]. apply IH. lia.
  - split; [lia|]. split; [done|]. intros. lia.
Qed.

Lemma byte_bit_full j : 0 <= j < 8 -> byte_bit 255 j = true.
Proof.
  intros. assert (j = 0 \/ j = 1 \/ j = 2 \/ j = 3 \/ j = 4 \/ j = 5 \/ j = 6 \/ j = 7)
    as [->|[->|[->|[->|[->|[->|[->| ->]]]]]]] by lia; done.
Qed.

(** One byte of the scan, from bit [j0], is the search over its positions. *)
Lemma scan_byte bm i j0 :
  0 <= i -> 0 <= j0 <= 8 ->
  (if bm !!! Z.to_nat i =? 255 then None
   else find_map (fun j => if byte_bit (bm !!! Z.to_nat i) j then None else Some (i * 8 + j))
          (seqZ j0 (8 - j0))) =
  first_clear bm (seqZ (i * 8 + j0) (8 - j0)).
Proof.
  intros Hi Hj. unfold first_clear.
  rewrite <- (fmap_add_seqZ (i * 8) j0 (8 - j0)).
  assert (E : forall l, Forall (fun j => 0 <= j < 8) l ->
    find_map (fun k => if bit bm k then None else Some k) (Z.add (i * 8) <$> l) =
    find_map (fun j => if byte_bit (bm !!! Z.to_nat i) j then None else Some (i * 8 + j)) l).
  { induction 1 as [|j l Hjl _ IH]; [done|]. cbn [fmap list_fmap find_map].
    unfold bit. rewrite Z.add_comm, Z.div_add, Z.mod_add, Z.div_small, Z.mod_small by lia.
    rewrite byte_bit_testbit, Z.add_0_l by lia. by destruct (Z.testbit _ _); rewrite ?IH. }
  rewrite E by (apply Forall_forall; intros j Hjl%elem_of_seqZ; lia).
  destruct (Z.eqb_spec (bm !!! Z.to_nat i) 255) as [->|]; [|done].
  symmetry. apply find_map_none. intros j Hjl%elem_of_seqZ. by rewrite byte_bit_full by lia.
Qed.

(** The skipping scan equals the plain first-fit search from the start position. *)
Lemma inode_scan_first_clear bm bs dv rm :
  0 <= dv -> 0 <= rm < 8 -> dv < bs ->
  inode_scan bm bs dv rm = first_clear bm (seqZ (dv * 8 + rm) (bs * 8 - (dv * 8 + rm))).
Proof.
  intros Hd Hr Hbs. unfold inode_scan.
  rewrite seqZ_cons by lia. cbn [find_map]. rewrite Z.eqb_refl.
  rewrite scan_byte by lia.
  replace (bs * 8 - (dv * 8 + rm)) with ((8 - rm) + (bs - dv - 1) * 8) by lia.
  rewrite seqZ_app by lia. unfold first_clear at 2. rewrite find_map_app.
  change (find_map _ (seqZ (dv * 8 + rm) (8 - rm))) with
    (first_clear bm (seqZ (dv * 8 + rm) (8 - rm))).
  destruct (first_clear bm (seqZ (dv * 8 + rm) (8 - rm))); [done|].
  replace (dv * 8 + rm + (8 - rm)) with (Z.succ dv * 8) by lia.
  replace (Z.pred (bs - dv)) with (bs - dv - 1) by lia.
  remember (Z.to_nat (bs - dv - 1)) as m eqn:Hm.
  assert (Hgt : dv < Z.succ dv) by lia. revert Hgt Hm.
  generalize (Z.succ dv) as i, (bs - dv - 1) as n. clear Hbs. intros i n.
  revert i n. induction m as [|m IH]; intros i n Hgt Hm.
  { rewrite !seqZ_nil by lia. done. }
  rewrite seqZ_cons by lia. cbn [find_map]. rewrite (proj2 (Z.eqb_neq i dv)) by lia.
  rewrite scan_byte by lia.
  replace (n * 8) with ((8 - 0) + (n - 1) * 8) by lia.
  rewrite seqZ_app by lia. unfold first_clear in *. rewrite find_map_app, Z.add_0_r.
  destruct (find_map _ (seqZ (i * 8) (8 - 0))); [done|].
  rewrite (IH (Z.succ i) (Z.pred n)) by lia. do 2 f_equal; lia.
Qed.

(** ** The inode table *)

(** Inodes are a power of two in size and every table, with the window of four
    inodes after its last entry, lies inside the volume. *)
Record inode_tables (e : Ext2) : Prop := {
  it_pow : exists k, 0 <= k /\ inodeSize e = sizeof_Ext2Inode * 2 ^ k;
  it_max : inodeSize e <= blockSize e;
  it_span : forall g x, 0 <= g < blockGroups e -> bgdts e !! Z.to_nat g = Some x ->
    inode_table x * blockSize e + inodes_per_group (superblock e) * inodeSize e
      + 4 * blockSize e <= total_blocks (superblock e) * blockSize e;
}.

Definition inode_group (e : Ext2) (ino : Z) : Z := (ino - 1) / inodes_per_group (superblock e).
Definition inode_index (e : Ext2) (ino : Z) : Z := (ino - 1) mod inodes_per_group (superblock e).

Definition valid_inode (e : Ext2) (ino : Z) : Prop :=
  1 <= ino <= blockGroups e * inodes_per_group (superblock e).

(** Byte address of an inode on the drive, given the descriptor of its group. *)
Definition inode_addr (e : Ext2) (x : Ext2BlockGroup) (ino : Z) : Z :=
  block_addr e (inode_table x) + inode_index e ino * inodeSize e.

(** Writing back a region with [bs] patched in. *)
Definition window_write (d : gmap Z Z) (a n off : Z) (bs : list Z) : gmap Z Z :=
  write_at d a (patch off bs (read_at d a n)).

(** The bytes of the drive change only where [bs] went. *)
Lemma read_window_write d a n off bs o m :
  0 <= off -> off + zlen bs <= n ->
  read_at (window_write d a n off bs) o m = read_at (write_at d (a + off) bs) o m.
Proof.
  intros Hoff Hn. pose proof (zlen_nonneg bs).
  pose proof (zlen_read_at d a n ltac:(lia)) as Hl.
  unfold read_at at 1 2. apply list_fmap_ext. intros ? i _.
  unfold window_write. rewrite !write_at_lookup, zlen_patch, Hl. unfold zlen in *.
  repeat case_decide; try lia; try done.
  - rewrite patch_lookup_inside by lia. do 2 f_equal. lia.
  - rewrite patch_lookup_outside, read_at_lookup by lia. simpl. do 2 f_equal. lia.
Qed.

Lemma inode_number e ino :
  geometry e -> valid_inode e ino -> ino < 2 ^ 32 ->
  INODE_TO_BLOCK_GROUP u64 e ino = inode_group e ino /\
  INODE_TO_INDEX u64 e ino = inode_index e ino /\
  0 <= inode_group e ino < blockGroups e /\
  0 <= inode_index e ino < inodes_per_group (superblock e) /\
  ino = inode_group e ino * inodes_per_group (superblock e) + inode_index e ino + 1.
Proof.
  intros G Hv Hlt. destruct (sb_fits4 e G) as (_ & _ & Hipg & _). destruct G.
  unfold valid_inode, fits in *.
  unfold INODE_TO_BLOCK_GROUP, INODE_TO_INDEX, inode_group, inode_index.
  set (p := inodes_per_group (superblock e)) in *.
  pose proof (Z.div_mod (ino - 1) p ltac:(lia)).
  pose proof (Z.mod_pos_bound (ino - 1) p ltac:(lia)).
  assert (0 <= (ino - 1) / p) by (apply Z.div_pos; lia).
  assert ((ino - 1) / p < blockGroups e) by (apply Z.div_lt_upper_bound; lia).
  assert ((ino - 1) / p <= ino - 1) by nia.
  rewrite (u64_small (ino - 1)) by lia. rewrite !u32_small by lia.
  repeat split; lia.
Qed.

Lemma inode_size_cases e :
  geometry e -> inode_tables e ->
  128 <= inodeSize e <= 65536 /\
  (inodeSize e = 128 \/ inodeSize e = 256 \/ inodeSize e = inodeSize e / 512 * 512).
Proof.
  intros [] []. destruct it_pow0 as (k & Hk & E). unfold sizeof_Ext2Inode in E.
  pose proof (Z.pow_pos_nonneg 2 k ltac:(lia) Hk). split; [lia|].
  assert (k = 0 \/ k = 1 \/ 2 <= k) as [->|[->|Hk2]] by lia; [lia..|]. right; right.
  replace k with (2 + (k - 2)) in E by lia. rewrite Z.pow_add_r in E by lia.
  change (2 ^ 2) with 4 in E. rewrite E.
  replace (128 * (4 * 2 ^ (k - 2))) with (2 ^ (k - 2) * 512) by lia.
  by rewrite Z.div_mul by lia.
Qed.

(** Four inodes fill whole sectors, and an inode never straddles the window. *)
Lemma window_arith isz index :
  128 <= isz <= 65536 -> 0 <= index ->
  isz = 128 \/ isz = 256 \/ isz = isz / 512 * 512 ->
  CEILING_DIVISION (isz * 4) 512 = isz / 128 /\ isz = isz / 128 * 128 /\
  (index * isz) mod 512 + isz <= isz / 128 * 512.
Proof.
  intros Hsz Hi Hcase. rewrite CEILING_DIVISION_spec by lia.
  destruct Hcase as [->|[->|E]].
  - split; [done|]. split; [done|]. change 512 with (4 * 128) at 1.
    rewrite Z.mul_mod_distr_r by lia. pose proof (Z.mod_pos_bound index 4 ltac:(lia)).
    change (128 / 128 * 512) with 512. lia.
  - split; [done|]. split; [done|]. change 512 with (2 * 256) at 1.
    rewrite Z.mul_mod_distr_r by lia. pose proof (Z.mod_pos_bound index 2 ltac:(lia)).
    change (256 / 128 * 512) with 1024. lia.
  - assert (isz / 128 = isz / 512 * 4) as ->.
    { symmetry. apply Z.div_unique with 0; lia. }
    split; [|split]; [symmetry; apply Z.div_unique with 511; lia|lia|].
    rewrite E at 1. rewrite Z.mul_assoc, Z_mod_mult. lia.
Qed.

Section table.
Context (e : Ext2) (G : geometry e) (T : inode_tables e).
Context (g : Z) (x : Ext2BlockGroup).
Context (Hg : 0 <= g < blockGroups e) (Hx : bgdts e !! Z.to_nat g = Some x).

Lemma table_block : valid_block e (inode_table x) /\ valid_block e (inode_table x + 3).
Proof.
  pose proof (it_span e T g x Hg Hx) as Hs. destruct (inode_size_cases e G T) as [Hsz _].
  assert (block_group_wf x) as [] by (eapply Forall_lookup_1; [by destruct G|done]).
  destruct G. unfold fits, valid_block in *. nia.
Qed.

Lemma inode_window_ok index :
  0 <= index < inodes_per_group (superblock e) ->
  exists lba n rem, inode_window e (inode_table x) index = (lba, n * SECTOR_SIZE, rem) /\
    0 <= lba /\ 0 < n /\ lba + n <= 2 ^ 32 /\ 0 <= rem /\
    rem + inodeSize e <= n * SECTOR_SIZE /\
    lba * SECTOR_SIZE + rem = block_addr e (inode_table x) + index * inodeSize e.
Proof.
  intros Hi. destruct (inode_size_cases e G T) as [Hsz Hcase].
  destruct table_block as [Hv _]. destruct (BLOCK_TO_LBA_ok e G _ Hv) as (_ & H0 & _ & H2).
  pose proof (it_span e T g x Hg Hx) as Hs. pose proof (it_max e T).
  destruct (geo_spb e G) as [Hbs _]. destruct (sb_fits4 e G) as (_ & _ & Hipg & _).
  pose proof (geo_end e G) as Hend. pose proof (geo_base e G). unfold fits in Hipg.
  destruct (window_arith (inodeSize e) index Hsz ltac:(lia) Hcase) as (Ec & Ei & Hrem).
  unfold block_addr, inode_window, SECTOR_SIZE in *.
  set (q := blockSize e / 512) in *. set (isz := inodeSize e) in *. clear Hcase.
  set (ipg := inodes_per_group (superblock e)) in *.
  set (L := BLOCK_TO_LBA e 0 (inode_table x)) in *.
  assert (0 <= index * isz <= ipg * isz - isz) by nia.
  assert (ipg * isz <= 2 ^ 32 * 65536) by nia.
  rewrite (u64_small (index * isz)), (u64_small (isz * 4)), Ec by lia.
  rewrite (u64_small (isz / 128 * 512)) by lia.
  pose proof (Z.div_mod (index * isz) 512 ltac:(lia)) as Hdm.
  pose proof (Z.mod_pos_bound (index * isz) 512 ltac:(lia)).
  assert (total_blocks (superblock e) * blockSize e = total_blocks (superblock e) * q * 512)
    as Ht by nia.
  rewrite Ht in Hs. clear Ht. set (tq := total_blocks (superblock e) * q) in *.
  set (tb := inode_table x * blockSize e) in *. clearbody tq tb L ipg.
  rewrite (u64_small (L + index * isz / 512)) by lia.
  exists (L + index * isz / 512), (isz / 128), ((index * isz) mod 512).
  repeat split; lia.
Qed.

End table.

(** What the table holds for inode [ino] of the group described by [x]. *)
Definition inode_at (e : Ext2) (d : gmap Z Z) (x : Ext2BlockGroup) (ino : Z) : Ext2Inode :=
  decode_inode (read_at d (inode_addr e x ino) (inodeSize e)).

Section table_access.
Context (e : Ext2) (G : geometry e) (T : inode_tables e).
Context (ino : Z) (Hino : valid_inode e ino) (H32 : ino < 2 ^ 32).
Context (x : Ext2BlockGroup) (Hx : bgdts e !! Z.to_nat (inode_group e ino) = Some x).

Lemma ext2InodeFetch_ok d l h c :
  l !! WLOCKS_INODE (inode_group e ino) = Some c -> 0 <= c ->
  ext2InodeFetch ino (mkFs d e l h) = Ok (inode_at e d x ino, mkFs d e l h).
Proof.
  intros Hl Hc. destruct (inode_number e ino G Hino H32) as (Eg & Ei & Hg & Hi & _).
  destruct (inode_window_ok e G T _ x Hg Hx _ Hi)
    as (lba & n & rem & Hw & ? & ? & ? & ? & ? & Haddr).
  destruct (inode_size_cases e G T) as [Hsz _].
  unfold ext2InodeFetch. mstep (@eq_refl (outcome (Ext2 * fs))). cbn [ext2].
  rewrite Eg, Ei. mstep read_acquire_ok. mgo bgdt_get_ok; [|lia|done].
  rewrite Hw, Z.div_mul by done. mgo get_disk_ok; [|lia..].
  unfold disk_read. rewrite load_ok by (rewrite ?zlen_read_at; unfold SECTOR_SIZE in *; lia).
  cbn [from_option_fault]. erewrite bind_ok by done.
  rewrite (proj2 (Z.ltb_ge (inodeSize e) sizeof_Ext2Inode)) by (unfold sizeof_Ext2Inode; lia).
  erewrite bind_ok by done. mstep read_release_ok.
  rewrite slice_read_at by lia. unfold ret, inode_at, inode_addr.
  by rewrite <- Haddr.
Qed.

(** The drive after [ext2InodeModifyM]. *)
Definition inode_write (d : gmap Z Z) (t : Ext2Inode) : gmap Z Z :=
  let '(lba, len, rem) := inode_window e (inode_table x) (inode_index e ino) in
  window_write d (lba * SECTOR_SIZE) len rem (encode_inode t).

Lemma ext2InodeModifyM_ok d l h t :
  inode_wf t -> l !! WLOCKS_INODE (inode_group e ino) = Some 0 ->
  ext2InodeModifyM ino t (mkFs d e l h) = Ok (tt, mkFs (inode_write d t) e l h).
Proof.
  intros Ht Hl. destruct (inode_number e ino G Hino H32) as (Eg & Ei & Hg & Hi & _).
  destruct (inode_window_ok e G T _ x Hg Hx _ Hi)
    as (lba & n & rem & Hw & ? & ? & ? & ? & ? & Haddr).
  destruct (inode_size_cases e G T) as [Hsz _].
  unfold inode_write, ext2InodeModifyM. mstep (@eq_refl (outcome (Ext2 * fs))). cbn [ext2].
  rewrite Eg, Ei. mstep write_acquire_ok. mgo bgdt_get_ok; [|lia|done].
  rewrite Hw, Z.div_mul by done. mgo get_disk_ok; [|lia..].
  pose proof (zlen_encode_inode t Ht) as Hlen. unfold sizeof_Ext2Inode in Hlen.
  unfold disk_read. rewrite store_ok by (rewrite ?zlen_read_at; unfold SECTOR_SIZE in *; lia).
  cbn [from_option_fault]. erewrite bind_ok by done.
  mgo set_disk_ok; [|lia..|]; [by rewrite write_release_ok|].
  rewrite zlen_patch, zlen_read_at; unfold SECTOR_SIZE; lia.
Qed.

(** Exactly the 128 bytes of the inode change. *)
Lemma inode_write_bytes d t o m :
  inode_wf t ->
  read_at (inode_write d t) o m =
    read_at (write_at d (inode_addr e x ino) (encode_inode t)) o m.
Proof.
  intros Ht. destruct (inode_number e ino G Hino H32) as (_ & _ & Hg & Hi & _).
  destruct (inode_window_ok e G T _ x Hg Hx _ Hi)
    as (lba & n & rem & Hw & ? & ? & ? & ? & ? & Haddr).
  unfold inode_write. rewrite Hw.
  destruct (inode_size_cases e G T) as [Hsz _].
  pose proof (zlen_encode_inode t Ht) as Hlen. unfold sizeof_Ext2Inode in Hlen.
  rewrite read_window_write by (unfold SECTOR_SIZE in *; lia).
  by rewrite Haddr.
Qed.

End table_access.

(** The write can be read back. *)
Lemma inode_write_same e ino x d t :
  geometry e -> inode_tables e -> valid_inode e ino -> ino < 2 ^ 32 ->
  bgdts e !! Z.to_nat (inode_group e ino) = Some x -> inode_wf t ->
  inode_at e (inode_write e ino x d t) x ino = t.
Proof.
  intros G T Hv H32 Hx Ht. unfold inode_at.
  pose proof (zlen_encode_inode t Ht) as Hlen. destruct (inode_size_cases e G T) as [Hsz _].
  unfold sizeof_Ext2Inode in Hlen. rewrite inode_write_bytes by done.
  replace (inodeSize e) with (zlen (encode_inode t) + (inodeSize e - 128)) by lia.
  rewrite read_at_app by lia. rewrite read_write_same. by apply decode_encode_inode.
Qed.

(** ** Allocation and release *)

(** Where the search of group [g] starts. *)
Definition scan_start (e : Ext2) (g : Z) : Z :=
  if g =? 0 then first_inode (superblock e) else 0.

(** The position the search of group [g] ends at. *)
Definition first_free_inode (e : Ext2) (d : gmap Z Z) (g : Z) (x : Ext2BlockGroup) : option Z :=
  first_clear (block_bytes e d (inode_bitmap x))
    (seqZ (scan_start e g) (blockSize e * 8 - scan_start e g)).

Section allocation.
Context (e : Ext2) (G : geometry e) (P : placement e).
Context (Hfi : 0 <= first_inode (superblock e) < blockSize e * 8).
Context (g : Z) (x : Ext2BlockGroup).
Context (Hg : 0 <= g < blockGroups e) (Hx : bgdts e !! Z.to_nat g = Some x).
Context (l : gmap ext2_lock Z).
Context (Hl : l !! WLOCKS_INODE g = Some 0).
Context (Hlb : l !! LOCK_BGDT_WRITE = Some 0) (Hls : l !! LOCK_SUPERBLOCK_WRITE = Some 0).

Lemma ext2InodeFindL_ok d h :
  ext2InodeFindL g (mkFs d e l h) =
    if bg_free_inodes x <? 1 then Ok (0, mkFs d e l h)
    else
      match first_free_inode e d g x with
      | None | Some 0 => Ok (0, mkFs d e l h)
      | Some k =>
          let e' := recountF inode_family g (-1) e in
          Ok (u32 (u32 (g * inodes_per_group (superblock e)) + k + 1),
              mkFs (bitmap_pushed inode_family e x e' d
                      (bit_set (block_bytes e d (inode_bitmap x)) k)) e' l h)
      end.
Proof.
  destruct (pl_valid e P g x Hg Hx) as [_ Hv].
  unfold ext2InodeFindL. mstep (@eq_refl (outcome (Ext2 * fs))). cbn [ext2].
  mgo bgdt_get_ok; [|lia|done]. destruct (bg_free_inodes x <? 1); [done|].
  mstep write_acquire_ok. mgo get_block_ok; [|done..].
  set (bm := block_bytes e d (inode_bitmap x)).
  assert (exists dv rm, (if g =? 0 then (first_inode (superblock e) / 8, first_inode (superblock e) mod 8)
    else (0, 0)) = (dv, rm) /\ inode_scan bm (blockSize e) dv rm = first_free_inode e d g x)
    as (dv & rm & -> & ->).
  { pose proof (geo_bs_min e G). unfold first_free_inode, scan_start.
    destruct (g =? 0); do 2 eexists; (split; [done|]).
    - rewrite inode_scan_first_clear; [|apply Z.div_pos; lia|apply Z.mod_pos_bound; lia
        |apply Z.div_lt_upper_bound; lia].
      by rewrite <- (Z.mul_comm 8), <- Z.div_mod by lia.
    - by rewrite inode_scan_first_clear by lia. }
  destruct (first_free_inode e d g x) as [k|]; cbn [from_option id].
  - destruct (Z.eqb_spec k 0) as [->|Hk]; cbn [negb].
    + erewrite bind_ok by done. mstep write_release_ok. done.
    + erewrite bind_ok.
      2:{ mgo set_block_ok; [|done|done|]; [by eapply (update_countsF_ok inode_family)|].
          rewrite zlen_bit_set. by apply zlen_block_bytes. }
      mstep write_release_ok. by destruct k.
  - erewrite bind_ok by done. mstep write_release_ok. done.
Qed.

End allocation.

(** ** The allocator as a set of inode numbers *)

(** The number is marked in the bitmap of its group (numbers start at 1). *)
Definition inode_used (e : Ext2) (d : gmap Z Z) (ino : Z) : bool :=
  pos_used inode_family e d (ino - 1).

(** Exactly the mark of inode [r] changes, to [v]. *)
Definition inode_marked (v : bool) (r : Z) := marked inode_family v (r - 1) 1.

Lemma valid_inode_32 e d i : volume e d -> valid_inode e i -> i < 2 ^ 32.
Proof.
  unfold valid_inode. intros V. pose proof (ipg_bounds e d V).
  pose proof (groups_bound e (vol_geo e d V)). nia.
Qed.

(** Searching the groups in order: a group that can be served is used with the
    outcome [Q], the others leave the state alone. *)
Lemma find_in_groups_ok (find : Z -> M fs Z) (servable : Z -> bool) (Q : Z -> fs -> Prop) st sug gs :
  (forall g, g ∈ gs -> servable g = true ->
     exists r st', find g st = Ok (r, st') /\ r <> 0 /\ Q r st') ->
  (forall g, g ∈ gs -> servable g = false -> find g st = Ok (0, st)) ->
  (exists r st', find_in_groups find sug gs st = Ok (r, st') /\ Q r st') \/
  (find_in_groups find sug gs st = Halted /\
   forall g, g ∈ gs -> g <> sug -> servable g = false).
Proof.
  induction gs as [|g gs IH]; intros Hok Hfail; cbn [find_in_groups].
  { right. split; [done|]. by intros g Hg%elem_of_nil. }
  assert (g ∈ g :: gs) as Hin by apply list_elem_of_here.
  destruct IH as [IH|[IH Hall]];
    [by intros; apply Hok; [by apply list_elem_of_further|]
    |by intros; apply Hfail; [by apply list_elem_of_further|]|..].
  - destruct (Z.eqb_spec g sug); [by left|]. destruct (servable g) eqn:Hs.
    + left. destruct (Hok g Hin Hs) as (r & st' & E & Hr & HQ).
      erewrite bind_ok by exact E. rewrite (proj2 (Z.eqb_neq r 0)) by done. by eauto.
    + left. erewrite bind_ok by (by apply Hfail). done.
  - destruct (Z.eqb_spec g sug) as [->|Hne].
    + right. split; [done|]. intros g' [->|?]%elem_of_cons ?; [done|]. by apply Hall.
    + destruct (servable g) eqn:Hs.
      * left. destruct (Hok g Hin Hs) as (r & st' & E & Hr & HQ).
        erewrite bind_ok by exact E. rewrite (proj2 (Z.eqb_neq r 0)) by done. by eauto.
      * right. erewrite bind_ok by (by apply Hfail). split; [done|].
        intros g' [->|?]%elem_of_cons ?; [done|]. by apply Hall.
Qed.

(** [find(suggestion)] first, then all the other groups. *)
Lemma find_suggested_ok (find : Z -> M fs Z) (servable : Z -> bool) (Q : Z -> fs -> Prop) st sug n :
  0 <= sug < n ->
  (forall g, 0 <= g < n -> servable g = true ->
     exists r st', find g st = Ok (r, st') /\ r <> 0 /\ Q r st') ->
  (forall g, 0 <= g < n -> servable g = false -> find g st = Ok (0, st)) ->
  let m := (let! r := find sug in
            if negb (r =? 0) then ret r else find_in_groups find sug (seqZ 0 n)) in
  (exists r st', m st = Ok (r, st') /\ Q r st') \/
  (m st = Halted /\ forall g, 0 <= g < n -> servable g = false).
Proof.
  intros Hs Hok Hfail m. unfold m. destruct (servable sug) eqn:Es.
  - left. destruct (Hok sug Hs Es) as (r & st' & E & Hr & HQ).
    erewrite bind_ok by exact E. rewrite (proj2 (Z.eqb_neq r 0)) by done. by eauto.
  - erewrite bind_ok by (by apply Hfail). cbn [negb Z.eqb].
    destruct (find_in_groups_ok find servable Q st sug (seqZ 0 n)) as [?|[E Hall]].
    + intros g Hg%elem_of_seqZ. apply Hok. lia.
    + intros g Hg%elem_of_seqZ. apply Hfail. lia.
    + by left.
    + right. split; [done|]. intros g Hg. destruct (decide (g = sug)) as [->|]; [done|].
      apply Hall; [apply elem_of_seqZ; lia|done].
Qed.

(** The groups [ext2InodeFindL] can serve: the counter is positive and the first
    clear bit exists and is not bit 0. *)
Definition inode_servable (e : Ext2) (d : gmap Z Z) (g : Z) : bool :=
  match bgdts e !! Z.to_nat g with
  | Some x =>
      (1 <=? bg_free_inodes x) &&
      match first_free_inode e d g x with Some k => negb (k =? 0) | None => false end
  | None => false
  end.

Section inode_theorems.
Context (e : Ext2) (d : gmap Z Z) (V : volume e d) (l : gmap ext2_lock Z) (h : heap).
Context (LF : locks_free e l).

Lemma ext2InodeFindL_marked g :
  0 <= g < blockGroups e -> inode_servable e d g = true ->
  exists r e' d', ext2InodeFindL g (mkFs d e l h) = Ok (r, mkFs d' e' l h) /\
    r <> 0 /\ inode_group e r = g /\ inode_marked true r e d e' d'.
Proof.
  intros Hg Hs. pose proof V as [G P CI _ Hi _ Hf].
  destruct (bgdt_lookup e g G Hg) as (x & Hx & _).
  destruct LF as (_ & Hb & Hsu & _ & _ & _ & Hli).
  unfold inode_servable in Hs. rewrite Hx, andb_true_iff, Z.leb_le in Hs. destruct Hs as [Hc Hs].
  rewrite (ext2InodeFindL_ok e G P ltac:(lia) g x Hg Hx l (Hli g Hg) Hb Hsu).
  rewrite (proj2 (Z.ltb_ge _ 1)) by lia.
  unfold first_free_inode in *.
  pose proof (first_clear_spec (block_bytes e d (inode_bitmap x)) (scan_start e g)
    (blockSize e * 8 - scan_start e g)) as Hk.
  destruct (first_clear _ _) as [k|]; [|done]. destruct Hk as (Hk & Hclear & _).
  apply negb_true_iff, Z.eqb_neq in Hs.
  assert (0 <= scan_start e g) by (unfold scan_start; case_match; lia).
  assert (k < inodes_per_group (superblock e)).
  { destruct (Z.lt_ge_cases k (inodes_per_group (superblock e))) as [|Hge]; [done|].
    assert (bit (bitmap inode_family e d x) k = true) as Hp.
    { apply (co_padded _ _ _ CI g x Hg Hx). cbn. lia. }
    unfold bitmap in Hp. cbn [fam_bitmap inode_family] in Hp. congruence. }
  pose proof (ipg_bounds e d V). pose proof (groups_bound e G).
  destruct (pos_of_index inode_family e g k ltac:(cbn; lia)) as [Egr _]. cbn in Egr.
  assert (u32 (u32 (g * inodes_per_group (superblock e)) + k + 1) =
          g * inodes_per_group (superblock e) + k + 1) as Er.
  { rewrite (u32_small (g * _)) by nia. apply u32_small. nia. }
  destruct k as [|k|k]; [done| |lia]. cbv zeta. rewrite Er.
  do 3 eexists. split; [reflexivity|]. split; [nia|].
  unfold inode_group, inode_marked. rewrite Z.add_simpl_r. split; [done|].
  assert (zlen (block_bytes e d (inode_bitmap x)) = blockSize e) as Hz by by apply zlen_block_bytes.
  apply (marked_intro inode_family) with (m := 1%nat) (k := Z.pos k); cbn; auto; try lia.
  - by rewrite zlen_bit_set.
  - intros i Hi0. replace i with (Z.pos k) by lia. done.
  - intros i Hi0. rewrite bit_set_spec by (rewrite ?Hz; lia). case_decide.
    + rewrite bool_decide_true by lia. apply orb_true_r.
    + rewrite bool_decide_false by lia. apply orb_false_r.
Qed.

Lemma ext2InodeFindL_failed g :
  0 <= g < blockGroups e -> inode_servable e d g = false ->
  ext2InodeFindL g (mkFs d e l h) = Ok (0, mkFs d e l h).
Proof.
  intros Hg Hs. pose proof V as [G P CI _ Hi _ Hf].
  destruct (bgdt_lookup e g G Hg) as (x & Hx & _).
  destruct LF as (_ & Hb & Hsu & _ & _ & _ & Hli).
  unfold inode_servable in Hs. rewrite Hx in Hs.
  rewrite (ext2InodeFindL_ok e G P ltac:(lia) g x Hg Hx l (Hli g Hg) Hb Hsu).
  destruct (Z.ltb_spec (bg_free_inodes x) 1); [done|].
  rewrite (proj2 (Z.leb_le 1 _)) in Hs by lia. simpl in Hs.
  destruct (first_free_inode e d g x) as [[|k|k]|]; done.
Qed.

(** A group whose bit 0 is clear (and is not group 0) is never served, whatever
    its counter says. *)
Lemma inode_bit0_unservable g x :
  0 < g < blockGroups e -> bgdts e !! Z.to_nat g = Some x ->
  bit (bitmap inode_family e d x) 0 = false -> inode_servable e d g = false.
Proof.
  intros Hg Hx H0. pose proof (geo_bs_min e (vol_geo e d V)).
  unfold inode_servable, first_free_inode, scan_start.
  rewrite Hx, (proj2 (Z.eqb_neq g 0)) by lia. rewrite seqZ_cons by lia.
  unfold first_clear. cbn [find_map]. unfold bitmap in H0. cbn in H0. rewrite H0.
  apply andb_false_r.
Qed.

Lemma ext2InodeFind_ok s :
  0 <= s < blockGroups e ->
  (exists r e' d', ext2InodeFind s (mkFs d e l h) = Ok (r, mkFs d' e' l h) /\
     inode_marked true r e d e' d') \/
  (ext2InodeFind s (mkFs d e l h) = Halted /\
   forall g, 0 <= g < blockGroups e -> inode_servable e d g = false).
Proof.
  intros Hs. pose proof V as [G P CI _ _ _ _]. unfold ext2InodeFind.
  erewrite bind_ok by done. cbn [ext2].
  destruct (Z.leb_spec 1 (sb_free_inodes (superblock e))) as [Hf|Hf].
  - destruct (find_suggested_ok ext2InodeFindL (inode_servable e d)
      (fun r st => exists e' d', st = mkFs d' e' l h /\ inode_marked true r e d e' d')
      (mkFs d e l h) s (blockGroups e) Hs) as [(r & st & E & e' & d' & -> & HM)|[E Hall]].
    + intros g Hg Hsv.
      destruct (ext2InodeFindL_marked g Hg Hsv) as (r & e' & d' & E & Hr & _ & HM). eauto 10.
    + intros g Hg Hsv. by apply ext2InodeFindL_failed.
    + left. eauto.
    + by right.
  - right. split; [done|]. intros g Hg. unfold inode_servable.
    destruct (bgdt_lookup e g G Hg) as (x & Hx & _). rewrite Hx.
    pose proof (count_le_total _ _ _ CI (ipg_bounds e d V) g x Hg Hx) as [_ Hle]. cbn in Hle.
    by rewrite (proj2 (Z.leb_gt _ _)) by lia.
Qed.

(** [ext2InodeDelete] clears the mark; deleting a number that is not marked
    stops at the assertion. *)
Lemma ext2InodeDelete_ok ino :
  valid_inode e ino ->
  if inode_used e d ino
  then exists e' d', ext2InodeDelete ino (mkFs d e l h) = Ok (tt, mkFs d' e' l h) /\
         inode_marked false ino e d e' d'
  else ext2InodeDelete ino (mkFs d e l h) = Halted.
Proof.
  intros Hv. pose proof V as [G P CI _ Hi _ _].
  destruct (inode_number e ino G Hv (valid_inode_32 e d ino V Hv)) as (Eg & Ei & Hg & Hix & Eino).
  destruct (bgdt_lookup e _ G Hg) as (x & Hx & _).
  destruct LF as (_ & Hb & Hsu & _ & _ & _ & Hli).
  destruct (pl_valid e P _ x Hg Hx) as [_ Hvb].
  set (g := inode_group e ino) in *. set (k := inode_index e ino) in *.
  set (bm := block_bytes e d (inode_bitmap x)).
  assert (zlen bm = blockSize e) as Hz by by apply zlen_block_bytes.
  assert (inode_used e d ino = bit bm k) as Hu.
  { unfold inode_used, pos_used. change ((ino - 1) / fam_limit _ _) with g. by rewrite Hx. }
  assert (byte_bit (bm !!! Z.to_nat (k / 8)) (k mod 8) = bit bm k) as Ebit.
  { apply byte_bit_testbit, Z.mod_pos_bound. lia. }
  rewrite Hu. unfold ext2InodeDelete. erewrite !bind_ok by done. cbn [ext2].
  rewrite Eg, Ei. pose proof (Hli g Hg) as Hlg.
  erewrite (bind_ok (write_acquire _)) by (by apply write_acquire_ok).
  erewrite (bind_ok (bgdt_get _)) by (apply bgdt_get_ok; [lia|done]).
  erewrite (bind_ok (get_disk _ _)) by (by apply get_block_ok). fold bm.
  assert (0 <= k / 8) by (apply Z.div_pos; lia).
  assert (k / 8 < blockSize e) by (apply Z.div_lt_upper_bound; lia).
  rewrite load_ok by lia. cbn [from_option_fault]. erewrite (bind_ok (ret _)) by done.
  rewrite Ebit. destruct (bit bm k) eqn:Hbit; [|done]. cbn [kassert].
  exists (recountF inode_family g 1 e),
    (bitmap_pushed inode_family e x (recountF inode_family g 1 e) d (bit_clear bm k)). split.
  - erewrite (bind_ok (ret tt)) by done.
    erewrite (bind_ok (set_disk _ _ _)) by (apply set_block_ok; [done..|by rewrite zlen_bit_clear]).
    erewrite (bind_ok (update_counts _ _ _)) by (by apply (update_countsF_ok inode_family e G g x Hg Hx 1)).
    by apply write_release_ok.
  - unfold inode_marked. replace (ino - 1) with (g * inodes_per_group (superblock e) + k) by lia.
    apply (marked_intro inode_family) with (m := 1%nat) (k := k); cbn; auto; try lia.
    + by rewrite zlen_bit_clear.
    + intros i Hi0. replace i with k by lia. done.
    + intros i Hi0. rewrite bit_clear_spec by (rewrite ?Hz; lia). case_decide.
      * rewrite bool_decide_true by lia. apply andb_false_r.
      * rewrite bool_decide_false by lia. apply andb_true_r.
Qed.

End inode_theorems.
