(* ===== verification/Ext2Block.v ===== *)
(** * ext2: block allocation ([ext2_util.c])

    Finding, marking and releasing runs of blocks in the block bitmaps, and the
    on-disk overhead of a file of a given size. *)

From S2P Require Import Prelude Bytes Spinlock Disk Ext2Types Ext2Base Ext2Push Ext2Counters.
From S2P Require Import Ext2Inode.

(** ** Definitions *)

(** The positions the two nested loops visit, byte by byte and bit by bit. *)
Definition bitmap_positions (bs : Z) : list (Z * Z) :=
  seqZ 0 bs ≫= fun i => (fun j => (i, j)) <$> seqZ 0 8.

(** The body of the loops with [foundBlk] and [foundAmnt]; [Some] when [found]
    was set, with the value of [foundBlk]. *)
Fixpoint block_scan (buff : list Z) (amnt : Z) (ps : list (Z * Z))
    (foundBlk foundAmnt : Z) : option Z :=
  match ps with
  | [] => None
  | (i, j) :: ps =>
      if byte_bit (buff !!! Z.to_nat i) j
      then block_scan buff amnt ps (u32 (i * 8 + j + 1)) 0
      else
        let foundAmnt := u32 (foundAmnt + 1) in
        if amnt <=? foundAmnt then Some foundBlk
        else block_scan buff amnt ps foundBlk foundAmnt
  end.

(** [for (i = 0; i < amnt; i++) buff[(foundBlk + i) / 8] |= 1 << ((foundBlk + i) % 8);] *)
Definition mark_run (buff : list Z) (foundBlk amnt : Z) : list Z :=
  foldl (fun b i => bit_set b (u32 (foundBlk + i))) buff (seqZ 0 amnt).

Definition ext2BlockFindL (group amnt : Z) : M fs Z :=
  let! e := gets ext2 in
  let! g := bgdt_get group in
  if bg_free_blocks g <? amnt then ret 0
  else
    write_acquire (WLOCKS_BLOCK_BITMAP group) ;;;
    let lba := BLOCK_TO_LBA e 0 (block_bitmap g) in
    let! buff := get_disk lba (block_sectors e) in
    let ret_ := default 0 (block_scan buff amnt (bitmap_positions (blockSize e)) 0 0) in
    (if negb (ret_ =? 0) then
       set_disk (mark_run buff ret_ amnt) lba (block_sectors e) ;;;
       update_counts group (add_bg_free_blocks (- amnt)) (add_sb_free_blocks (- amnt))
     else ret tt) ;;;
    write_release (WLOCKS_BLOCK_BITMAP group) ;;;
    ret (if negb (ret_ =? 0)
         then u32 (u32 (group * blocks_per_group (superblock e)) + ret_) else 0).

Definition ext2BlockFind (groupSuggestion amnt : Z) : M fs Z :=
  let! e := gets ext2 in
  if sb_free_blocks (superblock e) <? amnt then halt
  else
    let! suggested := ext2BlockFindL groupSuggestion amnt in
    if negb (suggested =? 0) then ret suggested
    else find_in_groups (fun i => ext2BlockFindL i amnt) groupSuggestion
           (seqZ 0 (blockGroups e)).

Definition ext2BlockDelete (group index : Z) : M fs unit :=
  let! e := gets ext2 in
  write_acquire (WLOCKS_BLOCK_BITMAP group) ;;;
  let! g := bgdt_get group in
  let lba := BLOCK_TO_LBA e 0 (block_bitmap g) in
  let! buff := get_disk lba (block_sectors e) in
  let! _ := from_option_fault (load (index / 8) 1 buff) in
  set_disk (bit_clear buff index) lba (block_sectors e) ;;;
  update_counts group (add_bg_free_blocks 1) (add_sb_free_blocks 1) ;;;
  write_release (WLOCKS_BLOCK_BITMAP group).

(** [ext2BlockSizeCalculate]; [None] when [assert(false)] is reached. *)
Definition ext2BlockSizeCalculate (e : Ext2) (raw : Z) : option Z :=
  let blocks := u32 (CEILING_DIVISION raw (blockSize e)) in
  let perSpecial := blockSize e / 4 in
  let base := 12 in
  let singlyBase := u64 (base + perSpecial) in
  let doublyBase := u64 (singlyBase + u64 (perSpecial * perSpecial)) in
  if blocks <? base then Some (u64 (blocks * blockSize e))
  else if blocks <? singlyBase then Some (u64 (u64 (blocks + 1) * blockSize e))
  else if blocks <? doublyBase then
    let remaining := u64 (blocks - singlyBase) in
    let singly_needed := CEILING_DIVISION remaining perSpecial in
    Some (u64 (u64 (blocks + 1 + 1 + singly_needed) * blockSize e))
  else None.

(** ** The scan is a first-fit search for a run *)

Lemma bitmap_positions_flat bs :
  0 <= bs -> bitmap_positions bs = (fun k => (k / 8, k mod 8)) <$> seqZ 0 (bs * 8).
Proof.
  intros Hbs. unfold bitmap_positions. rewrite <- (Z2Nat.id bs) by done.
  generalize (Z.to_nat bs) as n. clear. induction n as [|n IH]; [done|].
  rewrite Nat2Z.inj_succ, <- Z.add_1_r, seqZ_app, bind_app, IH by lia.
  rewrite Z.mul_add_distr_r, seqZ_app, fmap_app by lia. f_equal.
  change (seqZ (0 + Z.of_nat n) 1) with [0 + Z.of_nat n].
  cbn [mbind list_bind]. rewrite app_nil_r, !Z.add_0_l.
  rewrite <- (Z.add_0_r (Z.of_nat n * 8)), <- fmap_add_seqZ, <- list_fmap_compose.
  apply list_fmap_ext. intros ? j Hj%list_elem_of_lookup_2. apply elem_of_seqZ in Hj.
  cbn. f_equal.
  - rewrite Z.add_comm, Z.div_add, Z.div_small by lia. lia.
  - rewrite Z.add_comm, Z.mod_add, Z.mod_small by lia. lia.
Qed.

(** All bits of [[a, a + n)] are clear. *)
Definition run_clear (bm : list Z) (a n : Z) : Prop :=
  forall i, a <= i < a + n -> bit bm i = false.

Lemma block_scan_spec bm amnt n k blk cnt :
  1 <= amnt -> 0 <= blk <= k -> k + Z.of_nat n < 2 ^ 32 -> cnt = k - blk -> cnt < amnt ->
  run_clear bm blk cnt ->
  (forall b, 0 <= b < blk -> ~ run_clear bm b amnt) ->
  match block_scan bm amnt ((fun k => (k / 8, k mod 8)) <$> seqZ k (Z.of_nat n)) blk cnt with
  | Some b => 0 <= b /\ b + amnt <= k + Z.of_nat n /\ run_clear bm b amnt /\
              forall b', 0 <= b' < b -> ~ run_clear bm b' amnt
  | None => forall b, 0 <= b -> b + amnt <= k + Z.of_nat n -> ~ run_clear bm b amnt
  end.
Proof.
  intros Ham. revert k blk cnt.
  induction n as [|n IH]; intros k blk cnt Hblk Hlim Hcnt Hlt Hclear Hmin.
  { cbn. intros b Hb Hend. destruct (Z.lt_ge_cases b blk); [by apply Hmin; lia|lia]. }
  rewrite seqZ_cons, fmap_cons by lia. cbn [block_scan].
  replace (Z.pred (Z.of_nat (S n))) with (Z.of_nat n) by lia.
  rewrite byte_bit_testbit by (apply Z.mod_pos_bound; lia). fold (bit bm k).
  replace (k + Z.of_nat (S n)) with (Z.succ k + Z.of_nat n) by lia.
  destruct (bit bm k) eqn:Hk.
  - rewrite <- (Z.mul_comm 8), <- Z.div_mod, u32_small by lia.
    apply IH; [lia..|intros i; lia|].
    intros b Hb. destruct (Z.lt_ge_cases b blk); [by apply Hmin; lia|].
    intros Hrun. specialize (Hrun k ltac:(lia)). congruence.
  - rewrite u32_small by lia. destruct (Z.leb_spec amnt (cnt + 1)).
    + split; [lia|]. split; [lia|]. split; [|done]. intros i Hi.
      destruct (decide (i = k)) as [->|]; [done|]. apply Hclear. lia.
    + apply IH; [lia..| |done]. intros i Hi.
      destruct (decide (i = k)) as [->|]; [done|]. apply Hclear. lia.
Qed.

(** The first run of [amnt] clear bits, if any. *)
Definition first_run (e : Ext2) (bm : list Z) (amnt : Z) : option Z :=
  block_scan bm amnt (bitmap_positions (blockSize e)) 0 0.

Lemma first_run_spec e bm amnt :
  geometry e -> 1 <= amnt ->
  match first_run e bm amnt with
  | Some b => 0 <= b /\ b + amnt <= blockSize e * 8 /\ run_clear bm b amnt /\
              forall b', 0 <= b' < b -> ~ run_clear bm b' amnt
  | None => forall b, 0 <= b -> b + amnt <= blockSize e * 8 -> ~ run_clear bm b amnt
  end.
Proof.
  intros G Ham. pose proof (geo_bs_min e G). unfold first_run.
  rewrite bitmap_positions_flat by lia.
  rewrite <- (Z2Nat.id (blockSize e * 8)) by lia.
  apply (block_scan_spec bm amnt (Z.to_nat (blockSize e * 8)) 0); try lia; intros ?; lia.
Qed.

Lemma mark_run_spec bm b (m : nat) :
  0 <= b -> b + Z.of_nat m <= zlen bm * 8 -> b + Z.of_nat m < 2 ^ 32 ->
  zlen (mark_run bm b (Z.of_nat m)) = zlen bm /\
  forall i, 0 <= i -> bit (mark_run bm b (Z.of_nat m)) i =
    if decide (b <= i < b + Z.of_nat m) then true else bit bm i.
Proof.
  intros Hb. induction m as [|m IH]; intros Hm H32.
  { split; [done|]. intros i Hi. rewrite decide_False by lia. done. }
  destruct IH as [Hz IH]; [lia..|]. unfold mark_run in *.
  rewrite Nat2Z.inj_succ, <- Z.add_1_r, seqZ_app, foldl_app by lia.
  change (seqZ (0 + Z.of_nat m) 1) with [0 + Z.of_nat m]. cbn [foldl].
  rewrite zlen_bit_set. split; [done|]. intros i Hi.
  rewrite Z.add_0_l, u32_small, bit_set_spec, IH by (rewrite ?Hz; lia).
  repeat case_decide; try lia; rewrite ?orb_true_l; try done.
  - rewrite bool_decide_true by lia. apply orb_true_r.
  - rewrite bool_decide_false by lia. apply orb_false_r.
Qed.

(** ** [ext2BlockFindL] on a well-formed volume *)

Section block_alloc.
Context (e : Ext2) (G : geometry e) (P : placement e).
Context (g : Z) (x : Ext2BlockGroup).
Context (Hg : 0 <= g < blockGroups e) (Hx : bgdts e !! Z.to_nat g = Some x).
Context (l : gmap ext2_lock Z).
Context (Hl : l !! WLOCKS_BLOCK_BITMAP g = Some 0).
Context (Hlb : l !! LOCK_BGDT_WRITE = Some 0) (Hls : l !! LOCK_SUPERBLOCK_WRITE = Some 0).

#[local] Abbreviation bm d := (block_bytes e d (block_bitmap x)).

Lemma ext2BlockFindL_ok amnt d h :
  1 <= amnt < 2 ^ 31 ->
  ext2BlockFindL g amnt (mkFs d e l h) =
    if bg_free_blocks x <? amnt then Ok (0, mkFs d e l h)
    else
      match first_run e (bm d) amnt with
      | None | Some 0 => Ok (0, mkFs d e l h)
      | Some k =>
          let e' := recountF block_family g (- amnt) e in
          Ok (u32 (u32 (g * blocks_per_group (superblock e)) + k),
              mkFs (bitmap_pushed block_family e x e' d (mark_run (bm d) k amnt)) e' l h)
      end.
Proof.
  intros Ham. destruct (pl_valid e P g x Hg Hx) as [Hv _].
  unfold ext2BlockFindL. mstep (@eq_refl (outcome (Ext2 * fs))). cbn [ext2].
  mgo bgdt_get_ok; [|lia|done]. destruct (bg_free_blocks x <? amnt); [done|].
  mstep write_acquire_ok. mgo get_block_ok; [|done..].
  fold (first_run e (bm d) amnt).
  pose proof (first_run_spec e (bm d) amnt G ltac:(lia)) as Hr.
  pose proof (geo_bs_min e G). pose proof (zlen_block_bytes e G d (block_bitmap x)) as Hz.
  destruct (first_run e (bm d) amnt) as [k|]; cbn [from_option id].
  - destruct (Z.eqb_spec k 0) as [->|Hk]; cbn [negb].
    + erewrite bind_ok by done. mstep write_release_ok. done.
    + destruct Hr as (Hk0 & Hend & _). erewrite bind_ok.
      2:{ mgo set_block_ok; [|done|done|].
          - by apply (update_countsF_ok block_family e G g x Hg Hx).
          - rewrite <- (Z2Nat.id amnt) by lia.
            destruct (mark_run_spec (bm d) k (Z.to_nat amnt)) as [-> _]; rewrite ?Hz; lia. }
      mstep write_release_ok. by destruct k.
  - erewrite bind_ok by done. mstep write_release_ok. done.
Qed.

Lemma ext2BlockDelete_ok index d h :
  0 <= index < blockSize e * 8 ->
  let e' := recountF block_family g 1 e in
  ext2BlockDelete g index (mkFs d e l h) =
    Ok (tt, mkFs (bitmap_pushed block_family e x e' d (bit_clear (bm d) index)) e' l h).
Proof.
  intros Hi e'. destruct (pl_valid e P g x Hg Hx) as [Hv _].
  pose proof (zlen_block_bytes e G d (block_bitmap x)) as Hz.
  unfold ext2BlockDelete. mstep (@eq_refl (outcome (Ext2 * fs))). cbn [ext2].
  mstep write_acquire_ok. mgo bgdt_get_ok; [|lia|done]. mgo get_block_ok; [|done..].
  assert (0 <= index / 8 < blockSize e).
  { split; [apply Z.div_pos|apply Z.div_lt_upper_bound]; lia. }
  rewrite load_ok by lia. cbn [from_option_fault]. erewrite bind_ok by done.
  mgo set_block_ok; [|done|done|by rewrite zlen_bit_clear].
  erewrite bind_ok by (by apply (update_countsF_ok block_family e G g x Hg Hx)).
  rewrite write_release_ok by done. done.
Qed.

End block_alloc.

(** ** The allocator as a set of block numbers *)

Definition block_used := pos_used block_family.

(** The groups [ext2BlockFindL] can serve: enough blocks by the counter, a run of
    clear bits, and the first one does not start at bit 0. *)
Definition block_servable (e : Ext2) (d : gmap Z Z) (amnt g : Z) : bool :=
  match bgdts e !! Z.to_nat g with
  | Some x =>
      (amnt <=? bg_free_blocks x) &&
      match first_run e (block_bytes e d (block_bitmap x)) amnt with
      | Some k => negb (k =? 0)
      | None => false
      end
  | None => false
  end.

Section block_theorems.
Context (e : Ext2) (d : gmap Z Z) (V : volume e d) (l : gmap ext2_lock Z) (h : heap).
Context (LF : locks_free e l) (amnt : Z) (Ham : 1 <= amnt < 2 ^ 31).

Lemma ext2BlockFindL_marked g :
  0 <= g < blockGroups e -> block_servable e d amnt g = true ->
  exists r e' d', ext2BlockFindL g amnt (mkFs d e l h) = Ok (r, mkFs d' e' l h) /\
    r <> 0 /\ marked block_family true r amnt e d e' d'.
Proof.
  intros Hg Hs. pose proof V as [G P _ CB _ Hb _].
  destruct (bgdt_lookup e g G Hg) as (x & Hx & _).
  destruct LF as (_ & Hlb & Hsu & _ & _ & Hlk & _).
  unfold block_servable in Hs. rewrite Hx, andb_true_iff, Z.leb_le in Hs. destruct Hs as [Hc Hs].
  rewrite (ext2BlockFindL_ok e G P g x Hg Hx l (Hlk g Hg) Hlb Hsu) by done.
  rewrite (proj2 (Z.ltb_ge _ _)) by lia.
  pose proof (first_run_spec e (block_bytes e d (block_bitmap x)) amnt G ltac:(lia)) as Hr.
  destruct (first_run _ _ _) as [k|]; [|done]. destruct Hr as (Hk0 & Hend & Hclear & _).
  apply negb_true_iff, Z.eqb_neq in Hs. pose proof (geo_bpg e G).
  assert (k + amnt <= blocks_per_group (superblock e)).
  { destruct (Z.le_gt_cases (k + amnt) (blocks_per_group (superblock e))) as [|Hgt]; [done|].
    set (i := Z.max k (blocks_per_group (superblock e))).
    assert (bit (bitmap block_family e d x) i = true) as Hp.
    { apply (co_padded _ _ _ CB g x Hg Hx). cbn. lia. }
    specialize (Hclear i ltac:(lia)). unfold bitmap in Hp.
    cbn [fam_bitmap block_family] in Hp. congruence. }
  pose proof (bpg_bounds e d V). pose proof (groups_bound e G).
  assert (u32 (u32 (g * blocks_per_group (superblock e)) + k) =
          g * blocks_per_group (superblock e) + k) as Er.
  { rewrite (u32_small (g * _)) by nia. apply u32_small. nia. }
  destruct k as [|k|k]; [done| |lia]. cbv zeta. rewrite Er.
  do 3 eexists. split; [reflexivity|]. split; [nia|].
  pose proof (zlen_block_bytes e G d (block_bitmap x)) as Hz.
  rewrite <- (Z2Nat.id amnt) by lia.
  destruct (mark_run_spec (block_bytes e d (block_bitmap x)) (Z.pos k) (Z.to_nat amnt))
    as [Hzm Hbits]; [lia..|].
  apply (marked_intro block_family); auto; try (cbn; lia).
  intros i Hi. apply Hclear. lia.
Qed.

Lemma ext2BlockFindL_failed g :
  0 <= g < blockGroups e -> block_servable e d amnt g = false ->
  ext2BlockFindL g amnt (mkFs d e l h) = Ok (0, mkFs d e l h).
Proof.
  intros Hg Hs. pose proof V as [G P _ _ _ _ _].
  destruct (bgdt_lookup e g G Hg) as (x & Hx & _).
  destruct LF as (_ & Hlb & Hsu & _ & _ & Hlk & _).
  unfold block_servable in Hs. rewrite Hx in Hs.
  rewrite (ext2BlockFindL_ok e G P g x Hg Hx l (Hlk g Hg) Hlb Hsu) by done.
  destruct (Z.ltb_spec (bg_free_blocks x) amnt); [done|].
  rewrite (proj2 (Z.leb_le amnt _)) in Hs by lia. cbn [andb] in Hs.
  destruct (first_run _ _ _) as [[|k|k]|]; done.
Qed.

Lemma ext2BlockFind_ok s :
  0 <= s < blockGroups e ->
  (exists r e' d', ext2BlockFind s amnt (mkFs d e l h) = Ok (r, mkFs d' e' l h) /\
     r <> 0 /\ marked block_family true r amnt e d e' d') \/
  (ext2BlockFind s amnt (mkFs d e l h) = Halted /\
   forall g, 0 <= g < blockGroups e -> block_servable e d amnt g = false).
Proof.
  intros Hs. pose proof V as [G P _ CB _ _ _]. unfold ext2BlockFind.
  erewrite bind_ok by done. cbn [ext2].
  destruct (Z.ltb_spec (sb_free_blocks (superblock e)) amnt) as [Hf|Hf].
  - right. split; [done|]. intros g Hg. unfold block_servable.
    destruct (bgdt_lookup e g G Hg) as (x & Hx & _). rewrite Hx.
    pose proof (count_le_total _ _ _ CB (bpg_bounds e d V) g x Hg Hx) as [_ Hle]. cbn in Hle.
    by rewrite (proj2 (Z.leb_gt _ _)) by lia.
  - destruct (find_suggested_ok (fun i => ext2BlockFindL i amnt) (block_servable e d amnt)
      (fun r st => exists e' d', st = mkFs d' e' l h /\ r <> 0 /\
                   marked block_family true r amnt e d e' d')
      (mkFs d e l h) s (blockGroups e) Hs) as [(r & st & E & e' & d' & -> & Hr & HM)|[E Hall]].
    + intros g Hg Hsv.
      destruct (ext2BlockFindL_marked g Hg Hsv) as (r & e' & d' & E & Hr & HM). eauto 10.
    + intros g Hg Hsv. by apply ext2BlockFindL_failed.
    + left. eauto 10.
    + by right.
Qed.

End block_theorems.

(** Releasing a marked block clears exactly its mark. *)
Lemma ext2BlockDelete_marked e d l h b :
  volume e d -> locks_free e l -> valid_pos block_family e b -> block_used e d b = true ->
  exists e' d',
    ext2BlockDelete (b / blocks_per_group (superblock e)) (b mod blocks_per_group (superblock e))
      (mkFs d e l h) = Ok (tt, mkFs d' e' l h) /\
    marked block_family false b 1 e d e' d'.
Proof.
  intros V LF Hb Hu. pose proof V as [G P _ _ _ Hbp _]. pose proof (bpg_bounds e d V).
  pose proof (geo_bpg e G). unfold valid_pos in Hb. cbn in Hb.
  set (bpg := blocks_per_group (superblock e)) in *.
  set (g := b / bpg). set (k := b mod bpg).
  pose proof (Z.div_mod b bpg ltac:(lia)) as Hdm. fold g k in Hdm.
  assert (0 <= k < bpg) as Hk by (apply Z.mod_pos_bound; lia).
  assert (0 <= g < blockGroups e) as Hg.
  { split; [apply Z.div_pos; lia|apply Z.div_lt_upper_bound; lia]. }
  destruct (bgdt_lookup e g G Hg) as (x & Hx & _).
  destruct LF as (_ & Hlb & Hsu & _ & _ & Hlk & _).
  pose proof (zlen_block_bytes e G d (block_bitmap x)) as Hz.
  do 2 eexists. split.
  - apply (ext2BlockDelete_ok e G P g x Hg Hx l (Hlk g Hg) Hlb Hsu). lia.
  - replace b with (g * fam_limit block_family (superblock e) + k) by (cbn; fold bpg; lia).
    apply (marked_intro block_family) with (m := 1%nat); auto; try (cbn; fold bpg; lia).
    + by rewrite zlen_bit_clear.
    + intros i Hi. replace i with k by lia. unfold block_used, pos_used in Hu.
      cbn [fam_limit block_family] in Hu. fold bpg g k in Hu. by rewrite Hx in Hu.
    + intros i Hi. rewrite bit_clear_spec by (rewrite ?Hz; lia). case_decide.
      * rewrite bool_decide_true by lia. apply andb_false_r.
      * rewrite bool_decide_false by lia. apply andb_true_r.
Qed.
