(* ===== verification/Ext2Lookup.v ===== *)
(** * ext2: block maps of files ([ext2_util.c])

    The translation of a file's block index to a block number through direct,
    singly and doubly indirect pointers, with the two one-block caches of
    [Ext2LookupControl], and the assignment of a block to an index. *)

From S2P Require Import Prelude Bytes Spinlock Disk Ext2Types Ext2Base Ext2Push Ext2Counters.
From S2P Require Import Ext2Inode Ext2Block.

(** ** Definitions *)

Record Ext2LookupControl := mkLookup {
  tmp1 : list Z;
  tmp1Block : Z;
  tmp2 : list Z;
  tmp2Block : Z;
}.

(** The allocations hold [g1] and [g2], whatever was in that memory; the block
    fields are not touched. *)
Definition ext2BlockFetchInit (g1 g2 : list Z) (c : Ext2LookupControl) : Ext2LookupControl :=
  mkLookup g1 (tmp1Block c) g2 (tmp2Block c).

(** Both buffers are freed (their contents are not used again). *)
Definition ext2BlockFetchCleanup (c : Ext2LookupControl) : Ext2LookupControl :=
  mkLookup (tmp1 c) 0 (tmp2 c) 0.

(** [buf[i]] on a [uint32_t] array. *)
Definition get_word (buf : list Z) (i : Z) : M fs Z := from_option_fault (load_le 4 (4 * i) buf).
Definition set_word (buf : list Z) (i v : Z) : M fs (list Z) :=
  from_option_fault (store_le 4 (4 * i) v buf).

(** [if (blk != lba) { blk = lba; get_disk_bytes(buf, lba, ...); }] *)
Definition load_cached (e : Ext2) (buf : list Z) (blk lba : Z) : M fs (list Z * Z) :=
  if negb (blk =? lba)
  then let! b := get_disk lba (block_sectors e) in ret (b, lba)
  else ret (buf, blk).

Definition itemsPerBlock (e : Ext2) : Z := u32 (blockSize e / 4).

(** The body of [ext2BlockFetch], under the lock. *)
Definition block_lookup (e : Ext2) (ino : Ext2Inode) (control : Ext2LookupControl) (curr : Z)
    : M fs (Z * Ext2LookupControl) :=
  let items := itemsPerBlock e in
  let baseSingly := u32 (12 + items) in
  let baseDoubly := u64 (baseSingly + u64 (blockSize e * items)) in
  if curr <? 12 then
    let! b := from_option_fault (i_blocks ino !! Z.to_nat curr) in
    ret (b, control)
  else if curr <? baseSingly then
    let! b12 := from_option_fault (i_blocks ino !! 12%nat) in
    if negb (b12 =? 0) then
      let! (t1, k1) := load_cached e (tmp1 control) (tmp1Block control) (BLOCK_TO_LBA e 0 b12) in
      let! r := get_word t1 (curr - 12) in
      ret (r, mkLookup t1 k1 (tmp2 control) (tmp2Block control))
    else ret (0, control)
  else if curr <? baseDoubly then
    let! b13 := from_option_fault (i_blocks ino !! 13%nat) in
    if negb (b13 =? 0) then
      let! (t1, k1) := load_cached e (tmp1 control) (tmp1Block control) (BLOCK_TO_LBA e 0 b13) in
      let at_ := curr - baseSingly in
      let index := u32 (at_ / items) in
      let rem := u32 (at_ mod items) in
      let! p := get_word t1 index in
      if negb (p =? 0) then
        let! (t2, k2) := load_cached e (tmp2 control) (tmp2Block control) (BLOCK_TO_LBA e 0 p) in
        let! r := get_word t2 rem in
        ret (r, mkLookup t1 k1 t2 k2)
      else ret (0, mkLookup t1 k1 (tmp2 control) (tmp2Block control))
    else ret (0, control)
  else halt.

Definition ext2BlockFetch (ino : Ext2Inode) (inodeNum : Z) (control : Ext2LookupControl)
    (curr : Z) : M fs (Z * Ext2LookupControl) :=
  let! e := gets ext2 in
  let group := INODE_TO_BLOCK_GROUP u32 e inodeNum in
  read_acquire (WLOCKS_BLOCK_BITMAP group) ;;;
  let! (result, control) := block_lookup e ino control curr in
  read_release (WLOCKS_BLOCK_BITMAP group) ;;;
  ret (result, control).

(** The inode is updated in place: the result is the new inode and control. *)
Definition ext2BlockAssign (ino : Ext2Inode) (inodeNum : Z) (control : Ext2LookupControl)
    (curr val : Z) : M fs (Ext2Inode * Ext2LookupControl) :=
  let! e := gets ext2 in
  let group := INODE_TO_BLOCK_GROUP u32 e inodeNum in
  write_acquire (WLOCKS_BLOCK_BITMAP group) ;;;
  let items := itemsPerBlock e in
  let baseSingly := u32 (12 + items) in
  let! (ino, control) :=
    if curr <? 12 then
      let! _ := from_option_fault (i_blocks ino !! Z.to_nat curr) in
      let ino := set_i_blocks (<[Z.to_nat curr := val]> (i_blocks ino)) ino in
      ext2InodeModifyM inodeNum ino ;;;
      ret (ino, control)
    else if curr <? baseSingly then
      let! b12 := from_option_fault (i_blocks ino !! 12%nat) in
      let! (ino, noninit) :=
        if b12 =? 0 then
          write_release (WLOCKS_BLOCK_BITMAP group) ;;;
          let! block := ext2BlockFind (s32 group) 1 in
          write_acquire (WLOCKS_BLOCK_BITMAP group) ;;;
          let ino := set_i_blocks (<[12%nat := block]> (i_blocks ino)) ino in
          ext2InodeModifyM inodeNum ino ;;;
          ret (ino, true)
        else ret (ino, false) in
      let! b12 := from_option_fault (i_blocks ino !! 12%nat) in
      let tmp1block := BLOCK_TO_LBA e 0 b12 in
      let! (t1, k1) := load_cached e (tmp1 control) (tmp1Block control) tmp1block in
      let t1 := if (noninit : bool) then replicate (Z.to_nat (blockSize e)) 0 else t1 in
      let! t1 := set_word t1 (curr - 12) val in
      set_disk t1 tmp1block (block_sectors e) ;;;
      ret (ino, mkLookup t1 k1 (tmp2 control) (tmp2Block control))
    else halt in
  write_release (WLOCKS_BLOCK_BITMAP group) ;;;
  ret (ino, control).

(** [ext2BlockChain]: the [1 + blocks] block numbers from index [curr] on. *)
Fixpoint block_chain (ino : Ext2Inode) (inodeNum : Z) (n : nat) (curr : Z)
    (control : Ext2LookupControl) : M fs (list Z * Ext2LookupControl) :=
  match n with
  | O => ret ([], control)
  | S n =>
      let! (b, control) := ext2BlockFetch ino inodeNum control curr in
      let! (bs, control) := block_chain ino inodeNum n (u64 (curr + 1)) control in
      ret (b :: bs, control)
  end.

Definition ext2BlockChain (ino : Ext2Inode) (inodeNum : Z) (control : Ext2LookupControl)
    (curr blocks : Z) : M fs (list Z * Ext2LookupControl) :=
  block_chain ino inodeNum (Z.to_nat (1 + blocks)) curr control.

(** ** The block map as a function of the drive *)

Definition word (buf : list Z) (i : Z) : Z := le_val (slice (4 * i) 4 buf).

(** The block number behind an index; 0 is a hole. *)
Definition block_at (e : Ext2) (d : gmap Z Z) (ino : Ext2Inode) (curr : Z) : Z :=
  let items := blockSize e / 4 in
  let ind b i := if b =? 0 then 0 else word (block_bytes e d b) i in
  if curr <? 12 then i_blocks ino !!! Z.to_nat curr
  else if curr <? 12 + items then ind (i_blocks ino !!! 12%nat) (curr - 12)
  else ind (ind (i_blocks ino !!! 13%nat) ((curr - 12 - items) / items))
         ((curr - 12 - items) mod items).

(** A pointer is a hole or a block of the volume. *)
Definition ptr_ok (e : Ext2) (b : Z) : Prop := b = 0 \/ valid_block e b.

Record map_ok (e : Ext2) (d : gmap Z Z) (ino : Ext2Inode) : Prop := {
  mo_len : length (i_blocks ino) = 15%nat;
  mo_single : ptr_ok e (i_blocks ino !!! 12%nat);
  mo_double : ptr_ok e (i_blocks ino !!! 13%nat);
  mo_inner : i_blocks ino !!! 13%nat <> 0 -> forall i, 0 <= i < blockSize e / 4 ->
    ptr_ok e (word (block_bytes e d (i_blocks ino !!! 13%nat)) i);
}.

(** A cached buffer is unused or holds the block its tag names. *)
Definition tmp_ok (e : Ext2) (d : gmap Z Z) (buf : list Z) (blk : Z) : Prop :=
  blk = 0 \/ exists b, b <> 0 /\ valid_block e b /\ blk = BLOCK_TO_LBA e 0 b /\
                       buf = block_bytes e d b.

Definition control_ok (e : Ext2) (d : gmap Z Z) (c : Ext2LookupControl) : Prop :=
  tmp_ok e d (tmp1 c) (tmp1Block c) /\ tmp_ok e d (tmp2 c) (tmp2Block c).

(** ** Fetching *)

Lemma items_bounds e : geometry e ->
  itemsPerBlock e = blockSize e / 4 /\ 256 <= blockSize e / 4 <= 16384 /\
  4 * (blockSize e / 4) <= blockSize e.
Proof.
  intros []. unfold itemsPerBlock. pose proof (Z.div_mod (blockSize e) 4 ltac:(lia)).
  pose proof (Z.mod_pos_bound (blockSize e) 4 ltac:(lia)). rewrite u32_small by lia. lia.
Qed.

Lemma get_word_ok buf i s :
  0 <= i -> 4 * i + 4 <= zlen buf -> get_word buf i s = Ok (word buf i, s).
Proof. intros. unfold get_word, load_le. rewrite load_ok by lia. done. Qed.

Lemma get_word_fault buf i s : zlen buf < 4 * i + 4 -> get_word buf i s = Fault.
Proof.
  intros. unfold get_word, load_le, load.
  rewrite (proj2 (Z.leb_gt (4 * i + 4) _)) by lia. by rewrite andb_false_r.
Qed.

Section fetch.
Context (e : Ext2) (G : geometry e) (d : gmap Z Z).

#[local] Abbreviation items := (blockSize e / 4).

Lemma BLOCK_TO_LBA_inj b b' :
  valid_block e b -> valid_block e b' -> BLOCK_TO_LBA e 0 b = BLOCK_TO_LBA e 0 b' -> b = b'.
Proof.
  intros Hb Hb'. destruct (BLOCK_TO_LBA_ok e G b Hb) as (-> & _).
  destruct (BLOCK_TO_LBA_ok e G b' Hb') as (-> & _).
  destruct (geo_spb e G). unfold block_sectors. nia.
Qed.

Lemma BLOCK_TO_LBA_nonzero b : valid_block e b -> b <> 0 -> BLOCK_TO_LBA e 0 b <> 0.
Proof.
  intros Hb Hnz. destruct (BLOCK_TO_LBA_ok e G b Hb) as (-> & _).
  destruct (geo_spb e G). pose proof (geo_base e G). unfold block_sectors, valid_block in *. nia.
Qed.

(** A coherent cache yields the block that was asked for. *)
Lemma load_cached_ok buf blk b l h :
  tmp_ok e d buf blk -> ptr_ok e b -> b <> 0 ->
  load_cached e buf blk (BLOCK_TO_LBA e 0 b) (mkFs d e l h) =
    Ok ((block_bytes e d b, BLOCK_TO_LBA e 0 b), mkFs d e l h).
Proof.
  intros Ht [?|Hb] Hnz; [done|]. unfold load_cached. pose proof (BLOCK_TO_LBA_nonzero b Hb Hnz).
  destruct (Z.eqb_spec blk (BLOCK_TO_LBA e 0 b)) as [E|E]; cbn [negb].
  - destruct Ht as [->|(b' & _ & Hb' & -> & ->)]; [congruence|].
    by rewrite (BLOCK_TO_LBA_inj b' b Hb' Hb E).
  - by mgo get_block_ok; [|done..].
Qed.

Lemma tmp_ok_block b :
  ptr_ok e b -> b <> 0 -> tmp_ok e d (block_bytes e d b) (BLOCK_TO_LBA e 0 b).
Proof. intros [?|?] ?; [done|]. right. eauto 10. Qed.

Lemma blocks_lookup ino (i : nat) :
  length (i_blocks ino) = 15%nat -> (i < 15)%nat ->
  i_blocks ino !! i = Some (i_blocks ino !!! i).
Proof.
  intros Hl Hi. destruct (lookup_lt_is_Some_2 (i_blocks ino) i) as [x Hx]; [lia|].
  by rewrite Hx, (list_lookup_total_correct _ _ _ Hx).
Qed.

Context (ino : Ext2Inode) (c : Ext2LookupControl).
Context (Hmap : map_ok e d ino) (Hc : control_ok e d c).

(** The lookup computes [block_at] and leaves a coherent control. *)
Lemma block_lookup_ok curr l h :
  0 <= curr < 12 + items + items * items ->
  exists c', block_lookup e ino c curr (mkFs d e l h) =
    Ok ((block_at e d ino curr, c'), mkFs d e l h) /\ control_ok e d c'.
Proof.
  intros Hcurr. destruct (items_bounds e G) as (Ei & Hib & Hi4).
  destruct Hmap as [Hlen H12 H13 Hin], Hc as [Hc1 Hc2].
  pose proof (zlen_block_bytes e G d) as Hz. pose proof (geo_bs_min e G).
  unfold block_lookup, block_at. rewrite Ei, (u32_small (12 + items)) by lia.
  rewrite (u64_small (blockSize e * items)), u64_small by nia.
  destruct (Z.ltb_spec curr 12).
  { rewrite blocks_lookup by (done || lia). by eexists. }
  destruct (Z.ltb_spec curr (12 + items)).
  { rewrite blocks_lookup by (done || lia). cbn [from_option_fault]. erewrite bind_ok by done.
    destruct (Z.eqb_spec (i_blocks ino !!! 12%nat) 0) as [E|E]; cbn [negb]; [by eexists|].
    mgo load_cached_ok; [|done..]. mgo get_word_ok; [|lia|rewrite Hz; lia].
    eexists. split; [done|]. split; [by apply tmp_ok_block|done]. }
  rewrite (proj2 (Z.ltb_lt curr _)) by nia.
  rewrite blocks_lookup by (done || lia). cbn [from_option_fault]. erewrite bind_ok by done.
  destruct (Z.eqb_spec (i_blocks ino !!! 13%nat) 0) as [E|E]; cbn [negb]; [by eexists|].
  mgo load_cached_ok; [|done..].
  replace (curr - (12 + items)) with (curr - 12 - items) by lia. set (at_ := curr - 12 - items).
  pose proof (Z.mod_pos_bound at_ items ltac:(lia)).
  assert (0 <= at_ / items < items).
  { split; [apply Z.div_pos; lia|apply Z.div_lt_upper_bound; lia]. }
  rewrite !u32_small by lia. mgo get_word_ok; [|lia|rewrite Hz; lia].
  specialize (Hin E (at_ / items) ltac:(lia)).
  set (p := word (block_bytes e d (i_blocks ino !!! 13%nat)) (at_ / items)) in *.
  destruct (Z.eqb_spec p 0) as [Ep|Ep]; cbn [negb].
  - eexists. split; [done|]. split; [by apply tmp_ok_block|done].
  - mgo load_cached_ok; [|done..]. mgo get_word_ok; [|lia|rewrite Hz; lia].
    eexists. split; [done|]. split; by apply tmp_ok_block.
Qed.

(** Past the last index the doubly indirect block can hold, the code indexes
    beyond the buffer of one block. *)
Lemma block_lookup_overrun curr l h :
  12 + items + items * items <= curr < 12 + items + blockSize e * items ->
  i_blocks ino !!! 13%nat <> 0 ->
  block_lookup e ino c curr (mkFs d e l h) = Fault.
Proof.
  intros Hcurr E. destruct (items_bounds e G) as (Ei & Hib & Hi4).
  destruct Hmap as [Hlen H12 H13 Hin], Hc as [Hc1 Hc2].
  pose proof (zlen_block_bytes e G d) as Hz. pose proof (geo_bs_min e G).
  unfold block_lookup. rewrite Ei, (u32_small (12 + items)) by lia.
  rewrite (u64_small (blockSize e * items)), u64_small by nia.
  rewrite (proj2 (Z.ltb_ge curr 12)), (proj2 (Z.ltb_ge curr (12 + items))),
    (proj2 (Z.ltb_lt curr _)) by nia.
  rewrite blocks_lookup by (done || lia). cbn [from_option_fault]. erewrite bind_ok by done.
  rewrite (proj2 (Z.eqb_neq _ 0) E). cbn [negb]. mgo load_cached_ok; [|done..].
  set (at_ := curr - (12 + items)).
  assert (items <= at_ / items) by (apply Z.div_le_lower_bound; lia).
  assert (at_ / items < blockSize e) by (apply Z.div_lt_upper_bound; lia).
  rewrite (u32_small (at_ / items)) by lia. unfold bind at 1.
  rewrite get_word_fault; [done|]. rewrite Hz.
  pose proof (Z.div_mod (blockSize e) 4 ltac:(lia)). pose proof (Z.mod_pos_bound (blockSize e) 4).
  lia.
Qed.

Context (inodeNum n : Z) (l : gmap ext2_lock Z) (h : heap).
Context (Hlk : l !! WLOCKS_BLOCK_BITMAP (INODE_TO_BLOCK_GROUP u32 e inodeNum) = Some n).
Context (Hn : 0 <= n).

Lemma ext2BlockFetch_ok curr :
  0 <= curr < 12 + items + items * items ->
  exists c', ext2BlockFetch ino inodeNum c curr (mkFs d e l h) =
    Ok ((block_at e d ino curr, c'), mkFs d e l h) /\ control_ok e d c'.
Proof.
  intros Hcurr. unfold ext2BlockFetch. erewrite bind_ok by done. cbn [ext2].
  mstep read_acquire_ok.
  destruct (block_lookup_ok curr (<[WLOCKS_BLOCK_BITMAP (INODE_TO_BLOCK_GROUP u32 e inodeNum) := n + 1]> l) h Hcurr)
    as (c' & E & Hc').
  mrw E. mstep read_release_ok. by exists c'.
Qed.

End fetch.

(** A whole chain. *)
Lemma block_chain_ok e d l h ino inodeNum k m : forall curr c,
  geometry e -> map_ok e d ino -> control_ok e d c ->
  l !! WLOCKS_BLOCK_BITMAP (INODE_TO_BLOCK_GROUP u32 e inodeNum) = Some k -> 0 <= k ->
  0 <= curr -> curr + Z.of_nat m <= 12 + blockSize e / 4 + blockSize e / 4 * (blockSize e / 4) ->
  exists c', block_chain ino inodeNum m curr c (mkFs d e l h) =
    Ok ((block_at e d ino <$> seqZ curr (Z.of_nat m), c'), mkFs d e l h) /\ control_ok e d c'.
Proof.
  induction m as [|m IH]; intros curr c G Hm Hc Hl Hk H0 Hend; cbn [block_chain].
  { eexists. by split. }
  destruct (ext2BlockFetch_ok e G d ino c Hm Hc inodeNum k l h Hl Hk curr) as (c1 & E & Hc1); [lia|].
  mrw E. destruct (items_bounds e G) as (_ & ? & _).
  rewrite u64_small by nia.
  destruct (IH (curr + 1) c1) as (c2 & E2 & Hc2); [done..|lia|lia|].
  mrw E2. exists c2. split; [|done].
  rewrite (seqZ_cons curr) by lia.
  replace (Z.pred (Z.of_nat (S m))) with (Z.of_nat m) by lia. done.
Qed.
