(* ===== verification/Ext2Assign.v ===== *)
(** * ext2: assigning blocks to files ([ext2BlockAssign] of [ext2_util.c])

    What an assignment does to the block map of a file, to the inode on the
    drive and to the volume: the data areas, the frames of the three kinds of
    writes, and the case analysis of the routine. *)

From S2P Require Import Prelude Bytes Spinlock Disk Ext2Types Ext2Base Ext2Push Ext2Counters.
From S2P Require Import Ext2Inode Ext2Block Ext2Lookup.

(** ** Data blocks *)

(** A block that holds neither a copy of the superblock or the descriptors nor a
    part of a bitmap or inode table. *)
Record data_block (e : Ext2) (b : Z) : Prop := {
  db_valid : valid_block e b;
  db_nonzero : b <> 0;
  db_off : off_meta e (block_addr e b) (blockSize e);
  db_apart : forall g x (j : nat) r, 0 <= g < blockGroups e -> bgdts e !! Z.to_nat g = Some x ->
    group_regions e x !! j = Some r -> apart (block_addr e b, blockSize e) r;
}.

(** The blocks the bitmaps offer are data blocks. *)
Definition space_ok (e : Ext2) (d : gmap Z Z) : Prop :=
  forall b, valid_pos block_family e b -> block_used e d b = false -> b <> 0 -> data_block e b.

Lemma data_block_layout e e' b : same_layout e e' -> data_block e b -> data_block e' b.
Proof.
  intros L [Hv Hn Ho Ha]. split.
  - by rewrite <- L.
  - done.
  - by rewrite <- L.
  - intros g x' j r Hg Hx' Hr. rewrite <- (sl_groups _ _ L) in Hg.
    destruct (bgdts_layout_lookup e e' _ x' L Hx') as (x & Hx & E).
    rewrite <- (group_regions_layout e e' x x') in Hr by done. rewrite <- L. by eapply Ha.
Qed.

Lemma inode_tables_layout e e' : same_layout e e' -> inode_tables e -> inode_tables e'.
Proof.
  intros L [Hp Hm Hs]. pose proof (sl_bs _ _ L) as Eb. pose proof (sl_is _ _ L) as Ei.
  split; rewrite <- ?Eb, <- ?Ei; try done.
  intros g x' Hg Hx'. rewrite <- (sl_groups _ _ L) in Hg.
  destruct (bgdts_layout_lookup e e' _ x' L Hx') as (x & Hx & E). injection E as _ _ <-.
  rewrite <- (sl_total _ _ L), <- (sl_ipg _ _ L). by eapply Hs.
Qed.

(** Block marks do not touch data blocks nor inode tables. *)
Lemma marked_data_block v p m e d e' d' b :
  marked block_family v p m e d e' d' -> data_block e b -> block_bytes e' d' b = block_bytes e d b.
Proof.
  intros HM [_ _ Ho Ha]. unfold block_bytes at 1.
  rewrite <- (mk_layout _ _ _ _ _ _ _ _ HM). apply (mk_frame _ _ _ _ _ _ _ _ HM); [done|].
  intros g x Hg Hx. by apply (Ha g x 0%nat).
Qed.

Lemma marked_region v p m e d e' d' g x r :
  placement e -> marked block_family v p m e d e' d' ->
  0 <= g < blockGroups e -> bgdts e !! Z.to_nat g = Some x ->
  group_regions e x !! 2%nat = Some r ->
  read_at d' r.1 r.2 = read_at d r.1 r.2.
Proof.
  intros P HM Hg Hx Hr. apply (mk_frame _ _ _ _ _ _ _ _ HM).
  - exact (Forall_lookup_1 _ _ _ _ (pl_off e P g x Hg Hx) Hr).
  - intros g' x' Hg' Hx'. destruct r. apply (pl_apart e P g g' x x' 2 0); done || congruence.
Qed.

(** The volume invariant looks at the bitmaps only. *)
Lemma volume_frame e d d' :
  volume e d ->
  (forall g x, 0 <= g < blockGroups e -> bgdts e !! Z.to_nat g = Some x ->
     block_bytes e d' (inode_bitmap x) = block_bytes e d (inode_bitmap x) /\
     block_bytes e d' (block_bitmap x) = block_bytes e d (block_bitmap x)) ->
  volume e d'.
Proof.
  intros [G P CI CB Hi Hb Hf] H. split; try done.
  - destruct CI as [Hp Hc Ht]. split; [..|done]; intros g x Hg Hx; unfold bitmap;
      cbn [fam_bitmap inode_family]; destruct (H g x Hg Hx) as [-> _]; eauto.
  - destruct CB as [Hp Hc Ht]. split; [..|done]; intros g x Hg Hx; unfold bitmap;
      cbn [fam_bitmap block_family]; destruct (H g x Hg Hx) as [_ ->]; eauto.
Qed.

(** Writing a data block. *)
Lemma write_data_volume e d b bs :
  volume e d -> data_block e b -> zlen bs = blockSize e -> volume e (write_block e d b bs).
Proof.
  intros V [_ _ _ Ha] Hl. apply (volume_frame e d); [done|]. intros g x Hg Hx.
  split; apply read_write_disjoint; rewrite Hl.
  - pose proof (Ha g x 1%nat _ Hg Hx eq_refl) as H. unfold apart in H. cbn in H. lia.
  - pose proof (Ha g x 0%nat _ Hg Hx eq_refl) as H. unfold apart in H. cbn in H. lia.
Qed.

Section inode_frame.
Context (e : Ext2) (d : gmap Z Z) (V : volume e d) (T : inode_tables e).
Context (n : Z) (Hn : valid_inode e n) (x : Ext2BlockGroup).
Context (Hx : bgdts e !! Z.to_nat (inode_group e n) = Some x).
Context (t : Ext2Inode) (Ht : inode_wf t).

#[local] Abbreviation d' := (inode_write e n x d t).

(** Anything apart from the inode table of the group stays. *)
Lemma inode_write_frame a m :
  0 <= m -> apart (a, m) (block_addr e (inode_table x), inodes_per_group (superblock e) * inodeSize e) ->
  read_at d' a m = read_at d a m.
Proof.
  intros Hm Ha. pose proof (vol_geo e d V) as G. pose proof (valid_inode_32 e d n V Hn).
  destruct (inode_number e n G Hn ltac:(done)) as (_ & _ & _ & Hi & _).
  rewrite inode_write_bytes by done. apply read_write_disjoint.
  rewrite zlen_encode_inode by done. unfold inode_addr, sizeof_Ext2Inode.
  destruct (inode_size_cases e G T) as [Hsz _]. unfold apart in Ha. cbn in Ha. nia.
Qed.

Lemma inode_write_group : 0 <= inode_group e n < blockGroups e.
Proof.
  pose proof (vol_geo e d V) as G. pose proof (valid_inode_32 e d n V Hn).
  by destruct (inode_number e n G Hn ltac:(done)) as (_ & _ & Hg & _).
Qed.

Lemma inode_write_volume : volume e d'.
Proof.
  pose proof (vol_geo e d V) as G. pose proof (geo_bs_min e G).
  pose proof (vol_place e d V) as P. pose proof inode_write_group as Hg0.
  apply (volume_frame e d); [done|]. intros g y Hg Hy.
  split; apply inode_write_frame; try lia.
  - by apply (pl_apart e P g (inode_group e n) y x 1 2).
  - by apply (pl_apart e P g (inode_group e n) y x 0 2).
Qed.

Lemma inode_write_data b : data_block e b -> block_bytes e d' b = block_bytes e d b.
Proof.
  intros [_ _ _ Ha]. pose proof (geo_bs_min e (vol_geo e d V)).
  apply inode_write_frame; [lia|]. by apply (Ha _ x 2%nat _ inode_write_group Hx).
Qed.

End inode_frame.

(** ** The three branches of [ext2BlockAssign] *)

Lemma store_le_ok buf i v s :
  0 <= i -> 4 * i + 4 <= zlen buf ->
  set_word buf i v s = Ok (patch (4 * i) (le 4 v) buf, s).
Proof.
  intros. unfold set_word, store_le. rewrite store_ok; [done|lia|]. rewrite zlen_le; lia.
Qed.

(** [tmp1] is unused or caches the singly indirect block, [tmp2] is unused: the
    state of a file without doubly indirect blocks. *)
Definition control_single (e : Ext2) (d : gmap Z Z) (ino : Ext2Inode) (c : Ext2LookupControl) : Prop :=
  tmp2Block c = 0 /\
  (tmp1Block c = 0 \/
   i_blocks ino !!! 12%nat <> 0 /\ tmp1Block c = BLOCK_TO_LBA e 0 (i_blocks ino !!! 12%nat) /\
   tmp1 c = block_bytes e d (i_blocks ino !!! 12%nat)).

Lemma inode_wf_set_block ino i v :
  inode_wf ino -> fits 4 v -> inode_wf (set_i_blocks (<[i := v]> (i_blocks ino)) ino).
Proof.
  intros [] Hv. destruct iwf_blocks as [Hl Hb]. split; try done. cbn. split.
  - by rewrite length_insert.
  - by apply Forall_insert.
Qed.

Section assign.
Context (e : Ext2) (d : gmap Z Z) (V : volume e d) (T : inode_tables e).
Context (l : gmap ext2_lock Z) (h : heap) (LF : locks_free e l).
Context (n : Z) (Hn : valid_inode e n) (x : Ext2BlockGroup).
Context (Hx : bgdts e !! Z.to_nat (inode_group e n) = Some x).
Context (ino : Ext2Inode) (Hino : inode_wf ino) (c : Ext2LookupControl).
Context (Hc : control_single e d ino c) (curr val : Z) (Hval : fits 4 val).

#[local] Abbreviation items := (blockSize e / 4).
#[local] Abbreviation b12 := (i_blocks ino !!! 12%nat).

Lemma assign_group : INODE_TO_BLOCK_GROUP u32 e n = inode_group e n.
Proof.
  pose proof (vol_geo e d V) as G. pose proof (valid_inode_32 e d n V Hn).
  destruct (inode_number e n G Hn ltac:(done)) as (E & _).
  unfold INODE_TO_BLOCK_GROUP in *. unfold valid_inode in Hn.
  rewrite (u32_small (n - 1)) by lia. by rewrite (u64_small (n - 1)) in E by lia.
Qed.

Lemma ino_blocks_length : length (i_blocks ino) = 15%nat.
Proof. by destruct Hino as [? ? ? ? ? ? ? ? ? ? ? ? [? ?]]. Qed.

Lemma assign_direct :
  0 <= curr < 12 ->
  let ino' := set_i_blocks (<[Z.to_nat curr := val]> (i_blocks ino)) ino in
  ext2BlockAssign ino n c curr val (mkFs d e l h) =
    Ok ((ino', c), mkFs (inode_write e n x d ino') e l h).
Proof.
  intros Hcurr ino'. pose proof (vol_geo e d V) as G.
  pose proof (inode_write_group e d V n Hn) as Hg.
  destruct LF as (_ & _ & _ & _ & _ & Hlb & Hli).
  unfold ext2BlockAssign. erewrite bind_ok by done. cbn [ext2]. rewrite assign_group.
  mgo write_acquire_ok; [|by apply Hlb]. rewrite (proj2 (Z.ltb_lt curr 12)) by lia.
  erewrite bind_ok.
  2:{ rewrite blocks_lookup by (rewrite ?ino_blocks_length; lia). erewrite bind_ok by done.
      fold ino'. mgo ext2InodeModifyM_ok; [done|done|done|done| |done| |].
      - by eapply valid_inode_32.
      - by apply inode_wf_set_block.
      - rewrite lookup_insert_ne by done. by apply Hli. }
  cbv beta iota. mgo write_release_ok; [|by apply Hlb]. done.
Qed.

Lemma assign_single :
  12 <= curr < 12 + items -> valid_block e b12 -> b12 <> 0 ->
  let t := patch (4 * (curr - 12)) (le 4 val) (block_bytes e d b12) in
  ext2BlockAssign ino n c curr val (mkFs d e l h) =
    Ok ((ino, mkLookup t (BLOCK_TO_LBA e 0 b12) (tmp2 c) (tmp2Block c)),
        mkFs (write_block e d b12 t) e l h).
Proof.
  intros Hcurr Hv Hnz t. pose proof (vol_geo e d V) as G.
  destruct (items_bounds e G) as (Ei & Hib & Hi4).
  pose proof (zlen_block_bytes e G d b12) as Hz.
  pose proof (inode_write_group e d V n Hn) as Hg.
  destruct LF as (_ & _ & _ & _ & _ & Hlb & Hli).
  assert (tmp_ok e d (tmp1 c) (tmp1Block c)) as Ht.
  { destruct Hc as [_ [?|(? & ? & ?)]]; [by left|right; eauto 10]. }
  unfold ext2BlockAssign. erewrite bind_ok by done. cbn [ext2]. rewrite assign_group.
  mgo write_acquire_ok; [|by apply Hlb]. rewrite (proj2 (Z.ltb_ge curr 12)) by lia.
  rewrite Ei, u32_small, (proj2 (Z.ltb_lt curr _)) by lia.
  erewrite bind_ok.
  2:{ rewrite blocks_lookup by (rewrite ?ino_blocks_length; lia). erewrite bind_ok by done.
      rewrite (proj2 (Z.eqb_neq _ 0) Hnz). erewrite bind_ok by done. cbv beta iota.
      rewrite blocks_lookup by (rewrite ?ino_blocks_length; lia). erewrite bind_ok by done.
      mgo load_cached_ok; [|done|done|by right|done].
      mgo store_le_ok; [|lia|lia]. fold t.
      mgo set_block_ok; [done|done|done|]. unfold t. by rewrite zlen_patch. }
  cbv beta iota. mgo write_release_ok; [|by apply Hlb]. done.
Qed.

(** A fresh singly indirect block [r], allocated in the state [(e1, d1)]. *)
Lemma assign_fresh r e1 d1 x1 :
  12 <= curr < 12 + items -> b12 = 0 -> r <> 0 -> fits 4 r -> valid_block e r ->
  ext2BlockFind (inode_group e n) 1 (mkFs d e l h) = Ok (r, mkFs d1 e1 l h) ->
  same_layout e e1 -> volume e1 d1 -> bgdts e1 !! Z.to_nat (inode_group e n) = Some x1 ->
  let ino' := set_i_blocks (<[12%nat := r]> (i_blocks ino)) ino in
  let t := patch (4 * (curr - 12)) (le 4 val) (replicate (Z.to_nat (blockSize e)) 0) in
  ext2BlockAssign ino n c curr val (mkFs d e l h) =
    Ok ((ino', mkLookup t (BLOCK_TO_LBA e 0 r) (tmp2 c) (tmp2Block c)),
        mkFs (write_block e1 (inode_write e1 n x1 d1 ino') r t) e1 l h).
Proof.
  intros Hcurr Hz0 Hnz Hfit Hv Hfind L V1 Hx1 ino' t. pose proof (vol_geo e d V) as G.
  pose proof (vol_geo e1 d1 V1) as G1. pose proof (groups_bound e G).
  destruct (items_bounds e G) as (Ei & Hib & Hi4). pose proof (geo_bs_min e G).
  pose proof (inode_write_group e d V n Hn) as Hg.
  destruct LF as (_ & _ & _ & _ & _ & Hlb & Hli).
  assert (valid_inode e1 n /\ inode_group e1 n = inode_group e n) as [Hn1 Eg].
  { unfold valid_inode, inode_group in *. by rewrite <- (sl_groups _ _ L), <- (sl_ipg _ _ L). }
  assert (tmp1Block c = 0) as Ht by (destruct Hc as [_ [?|(? & _)]]; done).
  assert (BLOCK_TO_LBA e 0 r = BLOCK_TO_LBA e1 0 r) as EL by by rewrite <- L.
  assert (block_sectors e = block_sectors e1) as Es.
  { unfold block_sectors. by rewrite (sl_bs _ _ L). }
  unfold ext2BlockAssign. erewrite bind_ok by done. cbn [ext2]. rewrite assign_group.
  mgo write_acquire_ok; [|by apply Hlb]. rewrite (proj2 (Z.ltb_ge curr 12)) by lia.
  rewrite Ei, u32_small, (proj2 (Z.ltb_lt curr _)) by lia.
  erewrite bind_ok.
  2:{ rewrite blocks_lookup by (rewrite ?ino_blocks_length; lia). erewrite bind_ok by done.
      rewrite Hz0. cbn [Z.eqb]. erewrite bind_ok.
      2:{ mgo write_release_ok; [|by apply Hlb]. rewrite s32_small by lia. mrw Hfind.
          mgo write_acquire_ok; [|by apply Hlb]. fold ino'.
          mgo ext2InodeModifyM_ok; [done|done| |done| |by rewrite Eg| |].
          - by eapply inode_tables_layout.
          - by eapply (valid_inode_32 e1 d1).
          - by apply inode_wf_set_block.
          - rewrite Eg, lookup_insert_ne by done. by apply Hli. }
      cbv beta iota. cbn [i_blocks set_i_blocks ino'].
      rewrite list_lookup_insert_eq by (rewrite ino_blocks_length; lia).
      erewrite bind_ok by done.
      rewrite EL, Es. erewrite bind_ok.
      2:{ unfold load_cached. rewrite Ht, Es, (proj2 (Z.eqb_neq 0 _)); cbn [negb].
          - by mgo (get_block_ok e1 G1 r); [|by rewrite <- L].
          - rewrite <- EL. pose proof (BLOCK_TO_LBA_nonzero e G r Hv Hnz). lia. }
      cbv beta iota. mgo store_le_ok; [|lia|rewrite zlen_replicate; lia]. fold t.
      mgo (set_block_ok e1 G1 r); [done|by rewrite <- L|].
      unfold t. rewrite zlen_patch, zlen_replicate by lia. apply (sl_bs _ _ L). }
  cbv beta iota. mgo write_release_ok; [|by apply Hlb]. by rewrite EL.
Qed.

(** No block left for the indirect block. *)
Lemma assign_halted :
  12 <= curr < 12 + items -> b12 = 0 ->
  ext2BlockFind (inode_group e n) 1 (mkFs d e l h) = Halted ->
  ext2BlockAssign ino n c curr val (mkFs d e l h) = Halted.
Proof.
  intros Hcurr Hz0 Hfind. pose proof (vol_geo e d V) as G. pose proof (groups_bound e G).
  destruct (items_bounds e G) as (Ei & Hib & Hi4).
  pose proof (inode_write_group e d V n Hn) as Hg. destruct LF as (_ & _ & _ & _ & _ & Hlb & _).
  unfold ext2BlockAssign. erewrite bind_ok by done. cbn [ext2]. rewrite assign_group.
  mgo write_acquire_ok; [|by apply Hlb]. rewrite (proj2 (Z.ltb_ge curr 12)) by lia.
  rewrite Ei, u32_small, (proj2 (Z.ltb_lt curr _)) by lia.
  rewrite blocks_lookup by (rewrite ?ino_blocks_length; lia). cbn [from_option_fault].
  unfold bind at 1. unfold bind at 1. cbn [ret]. rewrite Hz0. cbn [Z.eqb].
  unfold bind at 1. erewrite bind_ok by (apply write_release_ok; by apply Hlb).
  rewrite s32_small by lia. unfold bind at 1. by rewrite Hfind.
Qed.

End assign.

(** ** Assignment as an update of the block map *)

Lemma word_patch_same k v buf :
  0 <= k -> 4 * k + 4 <= zlen buf -> fits 4 v -> word (patch (4 * k) (le 4 v) buf) k = v.
Proof.
  intros. unfold word. pose proof (zlen_le 4 v ltac:(lia)) as L. rewrite <- L at 2.
  rewrite slice_patch_same by lia. apply le_val_le_small; [lia|done].
Qed.

Lemma word_patch_other k j v buf :
  0 <= k -> 0 <= j -> j <> k -> word (patch (4 * k) (le 4 v) buf) j = word buf j.
Proof.
  intros. unfold word. rewrite slice_patch_disjoint; [done|lia|lia|]. rewrite zlen_le; lia.
Qed.

Lemma word_zeros n j : word (replicate n 0) j = 0.
Proof.
  unfold word, slice. rewrite drop_replicate, take_replicate. unfold le_val.
  generalize (Z.to_nat 4 `min` (n - Z.to_nat (4 * j)))%nat as k.
  induction k as [|k IH]; [done|]. cbn [replicate little_endian_to_Z]. by rewrite IH.
Qed.

(** The step from [(e, d, ino)] to [(e', d', ino')] changes the map of the first
    [12 + items] indices at [curr] only, and the drive holds the new inode. *)
Record assigned (e : Ext2) (d : gmap Z Z) (ino : Ext2Inode) (n curr val : Z)
    (e' : Ext2) (d' : gmap Z Z) (ino' : Ext2Inode) (c' : Ext2LookupControl) : Prop := {
  as_layout : same_layout e e';
  as_volume : volume e' d';
  as_inode_wf : inode_wf ino';
  as_here : block_at e' d' ino' curr = val;
  as_others : forall j, 0 <= j < 12 + blockSize e / 4 -> j <> curr ->
    block_at e' d' ino' j = block_at e d ino j;
  as_control : control_single e' d' ino' c';
  as_stored : forall x x', bgdts e !! Z.to_nat (inode_group e n) = Some x ->
    bgdts e' !! Z.to_nat (inode_group e n) = Some x' ->
    inode_at e d x n = ino -> inode_at e' d' x' n = ino';
}.

(** Inode tables are apart from data blocks. *)
Lemma inode_write_data_other e d d0 n x b bs :
  volume e d0 -> inode_tables e -> valid_inode e n ->
  bgdts e !! Z.to_nat (inode_group e n) = Some x -> data_block e b -> zlen bs = blockSize e ->
  inode_at e (write_block e d b bs) x n = inode_at e d x n.
Proof.
  intros V T Hn Hx D Hl. pose proof (vol_geo e d0 V) as G. unfold inode_at. f_equal.
  pose proof (inode_write_group e d0 V n Hn) as Hg. pose proof (valid_inode_32 e d0 n V Hn).
  destruct (inode_number e n G Hn ltac:(done)) as (_ & _ & _ & Hi & _).
  destruct (inode_size_cases e G T) as [Hsz _].
  apply read_write_disjoint. rewrite Hl.
  pose proof (db_apart e _ D _ x 2%nat _ Hg Hx eq_refl) as Ha. unfold apart in Ha. cbn in Ha.
  unfold inode_addr. nia.
Qed.

Section assigned.
Context (e : Ext2) (d : gmap Z Z) (V : volume e d) (T : inode_tables e).
Context (n : Z) (Hn : valid_inode e n) (x : Ext2BlockGroup).
Context (Hx : bgdts e !! Z.to_nat (inode_group e n) = Some x).
Context (ino : Ext2Inode) (Hino : inode_wf ino) (c : Ext2LookupControl).
Context (Hc : control_single e d ino c) (curr val : Z) (Hval : fits 4 val).

#[local] Abbreviation items := (blockSize e / 4).
#[local] Abbreviation b12 := (i_blocks ino !!! 12%nat).
Context (Hd : b12 <> 0 -> data_block e b12).

Lemma block_at_direct e0 d0 i j : j < 12 -> block_at e0 d0 i j = i_blocks i !!! Z.to_nat j.
Proof. intros. unfold block_at. by rewrite (proj2 (Z.ltb_lt j 12)) by lia. Qed.

Lemma block_at_single e0 d0 i j :
  12 <= j < 12 + blockSize e0 / 4 -> block_at e0 d0 i j =
    if i_blocks i !!! 12%nat =? 0 then 0
    else word (block_bytes e0 d0 (i_blocks i !!! 12%nat)) (j - 12).
Proof.
  intros. unfold block_at.
  by rewrite (proj2 (Z.ltb_ge j 12)), (proj2 (Z.ltb_lt j _)) by lia.
Qed.

Lemma assigned_direct :
  0 <= curr < 12 ->
  let ino' := set_i_blocks (<[Z.to_nat curr := val]> (i_blocks ino)) ino in
  assigned e d ino n curr val e (inode_write e n x d ino') ino' c.
Proof.
  intros Hcurr ino'. pose proof (vol_geo e d V) as G. pose proof (ino_blocks_length ino Hino) as Hl.
  assert (inode_wf ino') as Hwf by by apply inode_wf_set_block.
  pose proof (fun b => inode_write_data e d V T n Hn x Hx ino' Hwf b) as Hdata.
  assert (i_blocks ino' !!! 12%nat = b12) as E12.
  { cbn. rewrite list_lookup_total_insert_ne by lia. done. }
  destruct (items_bounds e G) as (_ & Hib & _).
  split.
  - done.
  - by apply inode_write_volume.
  - done.
  - rewrite block_at_direct by lia. cbn. rewrite list_lookup_total_insert_eq by lia. done.
  - intros j Hj Hne. destruct (Z.lt_ge_cases j 12).
    + rewrite !block_at_direct by lia. cbn. rewrite list_lookup_total_insert_ne by lia. done.
    + rewrite !block_at_single, E12 by lia. destruct (Z.eqb_spec b12 0) as [|Hnz]; [done|].
      by rewrite Hdata by auto.
  - destruct Hc as [? [?|(Hnz & E & Et)]]; split; auto. right. rewrite E12.
    split; [done|]. split; [done|]. by rewrite Hdata by auto.
  - intros y y' Hy Hy' _. simplify_eq.
    apply inode_write_same; auto. by eapply valid_inode_32.
Qed.

Lemma assigned_single :
  12 <= curr < 12 + items -> b12 <> 0 ->
  let t := patch (4 * (curr - 12)) (le 4 val) (block_bytes e d b12) in
  assigned e d ino n curr val e (write_block e d b12 t) ino
    (mkLookup t (BLOCK_TO_LBA e 0 b12) (tmp2 c) (tmp2Block c)).
Proof.
  intros Hcurr Hnz t. pose proof (vol_geo e d V) as G. pose proof (Hd Hnz) as D.
  destruct (items_bounds e G) as (_ & Hib & Hi4).
  pose proof (zlen_block_bytes e G d b12) as Hz.
  assert (zlen t = blockSize e) as Ht by (unfold t; by rewrite zlen_patch).
  assert (Eb : block_bytes e (write_block e d b12 t) b12 = t) by by apply block_bytes_same.
  split.
  - done.
  - by apply write_data_volume.
  - done.
  - rewrite block_at_single, Eb by lia. rewrite (proj2 (Z.eqb_neq _ 0) Hnz).
    apply word_patch_same; [lia|lia|done].
  - intros j Hj Hne. destruct (Z.lt_ge_cases j 12).
    + by rewrite !block_at_direct by lia.
    + rewrite !block_at_single, Eb by lia. rewrite (proj2 (Z.eqb_neq _ 0) Hnz).
      apply word_patch_other; lia.
  - destruct Hc as [? _]. split; [done|]. right. rewrite Eb. done.
  - intros y y' Hy Hy' Hat. assert (y' = y) as -> by congruence.
    trans (inode_at e d y n); [|done]. by apply (inode_write_data_other e d d).
Qed.

Lemma assigned_fresh r e1 d1 x1 :
  12 <= curr < 12 + items -> b12 = 0 -> fits 4 r -> data_block e r ->
  marked block_family true r 1 e d e1 d1 ->
  bgdts e1 !! Z.to_nat (inode_group e n) = Some x1 ->
  let ino' := set_i_blocks (<[12%nat := r]> (i_blocks ino)) ino in
  let t := patch (4 * (curr - 12)) (le 4 val) (replicate (Z.to_nat (blockSize e)) 0) in
  assigned e d ino n curr val e1 (write_block e1 (inode_write e1 n x1 d1 ino') r t) ino'
    (mkLookup t (BLOCK_TO_LBA e 0 r) (tmp2 c) (tmp2Block c)).
Proof.
  intros Hcurr Hz0 Hfit D HM Hx1 ino' t. pose proof (vol_geo e d V) as G.
  pose proof (mk_layout _ _ _ _ _ _ _ _ HM) as L. pose proof (mk_volume _ _ _ _ _ _ _ _ HM) as V1.
  pose proof (vol_geo e1 d1 V1) as G1. pose proof (ino_blocks_length ino Hino) as Hl.
  destruct (items_bounds e G) as (_ & Hib & Hi4). pose proof (geo_bs_min e G).
  assert (valid_inode e1 n /\ inode_group e1 n = inode_group e n) as [Hn1 Eg].
  { unfold valid_inode, inode_group in *. by rewrite <- (sl_groups _ _ L), <- (sl_ipg _ _ L). }
  rewrite <- Eg in Hx1. pose proof (inode_tables_layout e e1 L T) as T1.
  assert (inode_wf ino') as Hwf by by apply inode_wf_set_block.
  pose proof (data_block_layout e e1 r L D) as D1. pose proof (sl_bs _ _ L) as Ebs.
  set (d2 := inode_write e1 n x1 d1 ino').
  assert (volume e1 d2) as V2 by by apply inode_write_volume.
  assert (zlen t = blockSize e1) as Ht.
  { unfold t. rewrite zlen_patch, zlen_replicate by lia. done. }
  assert (Eb : block_bytes e1 (write_block e1 d2 r t) r = t) by by apply block_bytes_same.
  assert (E12 : i_blocks ino' !!! 12%nat = r).
  { cbn. by rewrite list_lookup_total_insert_eq by lia. }
  assert (r <> 0) as Hrz by by destruct D.
  assert (Hsingle : forall j, 12 <= j < 12 + items ->
    block_at e1 (write_block e1 d2 r t) ino' j = word t (j - 12)).
  { intros j Hj. rewrite block_at_single by (rewrite <- Ebs; lia).
    by rewrite E12, Eb, (proj2 (Z.eqb_neq r 0)). }
  split.
  - done.
  - by apply write_data_volume.
  - done.
  - rewrite Hsingle by lia. apply word_patch_same; [lia| |done]. rewrite zlen_replicate; lia.
  - intros j Hj Hne. destruct (Z.lt_ge_cases j 12).
    + rewrite !block_at_direct by lia. cbn. rewrite list_lookup_total_insert_ne by lia. done.
    + rewrite Hsingle, block_at_single, Hz0 by lia. cbn [Z.eqb].
      unfold t. rewrite word_patch_other by lia. apply word_zeros.
  - destruct Hc as [? _]. split; [done|]. right. rewrite E12, Eb. cbn. by rewrite L.
  - intros y y' Hy Hy' _. assert (y' = x1) as -> by congruence.
    trans (inode_at e1 d2 x1 n).
    + by apply (inode_write_data_other e1 d2 d2).
    + apply inode_write_same; auto. by eapply (valid_inode_32 e1 d1).
Qed.

End assigned.

(** Every assignment to a direct or singly indirect index either updates the map
    as [assigned] says or stops the machine because no block is left for the
    indirect block. *)
Lemma ext2BlockAssign_ok e d l h n ino c curr val :
  volume e d -> inode_tables e -> space_ok e d -> locks_free e l -> valid_inode e n ->
  inode_wf ino -> control_single e d ino c -> fits 4 val ->
  (i_blocks ino !!! 12%nat <> 0 -> data_block e (i_blocks ino !!! 12%nat)) ->
  0 <= curr < 12 + blockSize e / 4 ->
  (exists ino' c' e' d',
     ext2BlockAssign ino n c curr val (mkFs d e l h) = Ok ((ino', c'), mkFs d' e' l h) /\
     assigned e d ino n curr val e' d' ino' c') \/
  (ext2BlockAssign ino n c curr val (mkFs d e l h) = Halted /\
   12 <= curr /\ i_blocks ino !!! 12%nat = 0 /\
   forall g, 0 <= g < blockGroups e -> block_servable e d 1 g = false).
Proof.
  intros V T HS LF Hn Hino Hc Hval Hd Hcurr.
  pose proof (inode_write_group e d V n Hn) as Hg. pose proof (vol_geo e d V) as G.
  destruct (bgdt_lookup e _ G Hg) as (x & Hx & _).
  destruct (Z.lt_ge_cases curr 12) as [Hlt|Hge].
  { left. do 4 eexists. split; [eapply assign_direct; eauto; lia|]. apply assigned_direct; auto; lia. }
  destruct (decide (i_blocks ino !!! 12%nat = 0)) as [E12|E12].
  2:{ left. do 4 eexists. split; [eapply assign_single; eauto; [lia|by destruct (Hd E12)]|].
      apply assigned_single; auto; lia. }
  destruct (ext2BlockFind_ok e d V l h LF 1 ltac:(lia) (inode_group e n) Hg)
    as [(r & e1 & d1 & Hf & Hr & HM)|[Hf Hall]].
  - left. destruct (mk_range _ _ _ _ _ _ _ _ HM) as [Hr0 Hr1]. cbn in Hr1.
    pose proof (bpg_bounds e d V). pose proof (groups_bound e G).
    assert (fits 4 r) as Hfit by (unfold fits; cbn; nia).
    assert (data_block e r) as D.
    { apply HS; [unfold valid_pos; cbn; lia| |done].
      apply (mk_before _ _ _ _ _ _ _ _ HM). lia. }
    pose proof (mk_layout _ _ _ _ _ _ _ _ HM) as L.
    pose proof (mk_volume _ _ _ _ _ _ _ _ HM) as V1.
    destruct (bgdt_lookup e1 (inode_group e n) (vol_geo e1 d1 V1)) as (x1 & Hx1 & _).
    { by rewrite <- (sl_groups _ _ L). }
    do 4 eexists. split; [eapply assign_fresh; eauto; [lia|by destruct D]|].
    apply assigned_fresh; auto; lia.
  - right. split; [|done].
    eapply assign_halted; eauto; lia.
Qed.
