(* ===== verification/DirBlock.v ===== *)
(** * ext2: directory blocks ([ext2_dirs.c], [ext2_traverse.c])

    A directory block is a sequence of [Ext2Directory] records chained by their
    size fields.  The loops that search, extend and shrink such a block are
    modelled on the raw bytes (with the accesses checked against the buffer);
    the theorems relate them to the list of entries the block encodes. *)

From S2P Require Import Prelude Bytes FileTypes.

(** ** The loops on raw bytes *)

Definition sizeof_Ext2Directory : Z := 8.

Definition dir_inode (buf : list Z) (p : Z) : option Z := load_le 4 p buf.
Definition dir_size (buf : list Z) (p : Z) : option Z := load_le 2 (p + 4) buf.
Definition dir_namelen (buf : list Z) (p : Z) : option Z := load_le 1 (p + 6) buf.
Definition dir_type (buf : list Z) (p : Z) : option Z := load_le 1 (p + 7) buf.
Definition dir_name (buf : list Z) (p n : Z) : option (list Z) := load (p + 8) n buf.

(** [dir->inode && len == dir->filenameLength && memcmp(dir->filename, name, len) == 0] *)
Definition dir_matches (buf : list Z) (p : Z) (name : list Z) : option bool :=
  match dir_inode buf p with
  | None => None
  | Some i =>
      if i =? 0 then Some false
      else match dir_namelen buf p with
           | None => None
           | Some n =>
               if n =? zlen name then
                 match dir_name buf p (zlen name) with
                 | None => None
                 | Some bs => Some (bool_decide (bs = name))
                 end
               else Some false
           end
  end.

(** [while (dir - names < blockSize && !found) ...] of [ext2Traverse]. *)
Fixpoint dir_search (fuel : nat) (buf name : list Z) (p : Z) : outcome (option Z) :=
  match fuel with
  | O => Hang
  | S fuel =>
      if p <? zlen buf then
        need (dir_matches buf p name) (fun m =>
          if (m : bool) then need (dir_inode buf p) (fun i => Ok (Some i))
          else need (dir_size buf p) (fun sz => dir_search fuel buf name (p + sz)))
      else Ok None
  end.

Inductive insert_result :=
| Exists
| Inserted (buf : list Z)
| NoRoom.

(** The header and name of an entry, stored at [p]. *)
Definition put_entry (buf : list Z) (p inode size type : Z) (name : list Z) : option (list Z) :=
  match store_le 2 (p + 4) size buf with
  | None => None
  | Some b => match store_le 1 (p + 7) type b with
  | None => None
  | Some b => match store (p + 8) name b with
  | None => None
  | Some b => match store_le 1 (p + 6) (zlen name) b with
  | None => None
  | Some b => store_le 4 p inode b
  end end end end.

(** [(n + 3) & ~3] *)
Definition align4 (n : Z) : Z := Z.land (n + 3) (Z.lnot 3).

(** The inner loop of [ext2DirAllocate]. *)
Fixpoint dir_insert (fuel : nat) (buf name : list Z) (type inode p : Z)
    : outcome insert_result :=
  match fuel with
  | O => Hang
  | S fuel =>
      if p <? zlen buf then
        need (dir_matches buf p name) (fun m =>
        if (m : bool) then Ok Exists
        else
          need (dir_namelen buf p) (fun n =>
          need (dir_size buf p) (fun sz =>
          let minForOld := align4 (sizeof_Ext2Directory + n) in
          let minForNew := align4 (sizeof_Ext2Directory + zlen name) in
          let remainderForNew := sz - minForOld in
          if minForNew <=? remainderForNew then
            need (store_le 2 (p + 4) minForOld buf) (fun b =>
            need (put_entry b (p + minForOld) inode remainderForNew type name) (fun b =>
            Ok (Inserted b)))
          else dir_insert fuel buf name type inode (p + sz))))
      else Ok NoRoom
  end.

(** The inner loop of [ext2DirRemove]: the buffer and whether an entry was hit. *)
Fixpoint dir_remove (fuel : nat) (buf name : list Z) (before : option Z) (p : Z) (hit : bool)
    : outcome (list Z * bool) :=
  match fuel with
  | O => Hang
  | S fuel =>
      if p <? zlen buf then
        need (dir_matches buf p name) (fun m =>
        let next buf hit :=
          need (dir_size buf p) (fun sz => dir_remove fuel buf name (Some p) (p + sz) hit) in
        if (m : bool) then
          if p =? 0 then
            match before with
            | Some _ => Halted
            | None =>
                need (store_le 4 p 0 buf) (fun b =>
                need (store_le 1 (p + 6) 0 b) (fun b => next b true))
            end
          else
            match before with
            | None => Fault
            | Some q =>
                need (dir_size buf q) (fun qs =>
                need (dir_size buf p) (fun sz =>
                need (store_le 2 (q + 4) (u16 (qs + sz)) buf) (fun b => next b true)))
            end
        else next buf hit)
      else Ok (buf, hit)
  end.

(** ** Blocks as lists of entries *)

Record dirent := mkDirent {
  de_inode : Z;
  de_type : Z;
  de_name : list Z;
  de_pad : list Z;  (* whatever fills the record up to its size *)
}.

Definition de_size (e : dirent) : Z := sizeof_Ext2Directory + zlen (de_name e) + zlen (de_pad e).

Definition encode_dirent (e : dirent) : list Z :=
  le 4 (de_inode e) ++ le 2 (de_size e) ++ le 1 (zlen (de_name e)) ++ le 1 (de_type e) ++
  de_name e ++ de_pad e.

Definition encode_dir (es : list dirent) : list Z := mjoin (encode_dirent <$> es).

Definition dirent_wf (e : dirent) : Prop :=
  0 <= de_inode e < 2 ^ 32 /\ 0 <= de_type e < 256 /\ zlen (de_name e) < 256 /\
  de_size e < 65536.

(** The first live entry with the name. *)
Fixpoint lookup_entry (es : list dirent) (name : list Z) : option Z :=
  match es with
  | [] => None
  | e :: es =>
      if negb (de_inode e =? 0) && bool_decide (de_name e = name)
      then Some (de_inode e) else lookup_entry es name
  end.

Lemma zlen_encode_dirent e : zlen (encode_dirent e) = de_size e.
Proof.
  unfold encode_dirent, de_size, sizeof_Ext2Directory.
  rewrite !zlen_app, !zlen_le by lia. lia.
Qed.

Lemma encode_dir_cons e es : encode_dir (e :: es) = encode_dirent e ++ encode_dir es.
Proof. done. Qed.

Lemma encode_dir_app es fs : encode_dir (es ++ fs) = encode_dir es ++ encode_dir fs.
Proof. unfold encode_dir. by rewrite fmap_app, join_app. Qed.

Lemma de_size_pos e : 8 <= de_size e.
Proof.
  unfold de_size, sizeof_Ext2Directory. pose proof (zlen_nonneg (de_name e)).
  pose proof (zlen_nonneg (de_pad e)). lia.
Qed.

(** ** Reading the fields of an entry in place *)

Lemma load_shift pre o n x : 0 <= o -> load (zlen pre + o) n (pre ++ x) = load o n x.
Proof.
  intros Ho. pose proof (zlen_nonneg pre). unfold load. rewrite zlen_app.
  rewrite (proj2 (Z.leb_le 0 (zlen pre + o))), (proj2 (Z.leb_le 0 o)) by lia.
  destruct (Z.leb_spec 0 n); [|done]. cbn [andb].
  destruct (Z.leb_spec (zlen pre + o + n) (zlen pre + zlen x)),
    (Z.leb_spec (o + n) (zlen x)); try lia; [|done].
  rewrite slice_app_r by lia. do 2 f_equal. lia.
Qed.

Lemma load_head a x n : zlen a = n -> load 0 n (a ++ x) = Some a.
Proof.
  intros <-. pose proof (zlen_nonneg a). pose proof (zlen_nonneg x).
  rewrite load_ok by (rewrite ?zlen_app; lia). rewrite slice_app_l by lia. by rewrite slice_full.
Qed.

(** One field of [n] bytes at offset [o] of the entry that follows [pre]. *)
Lemma load_field pre o n a x y : zlen a = o -> zlen x = n -> 0 <= o ->
  load (zlen pre + o) n (pre ++ a ++ x ++ y) = Some x.
Proof.
  intros Ha Hx Ho. rewrite load_shift by lia. rewrite <- (Z.add_0_r o), <- Ha at 1.
  rewrite load_shift by lia. by apply load_head.
Qed.

Section fields.
Context (pre post : list Z) (e : dirent) (He : dirent_wf e).

#[local] Abbreviation buf := (pre ++ encode_dirent e ++ post).
#[local] Abbreviation p := (zlen pre).

Lemma dir_inode_at : dir_inode buf p = Some (de_inode e).
Proof.
  unfold dir_inode, load_le, encode_dirent. rewrite <- !app_assoc.
  rewrite <- (Z.add_0_r p) at 1. rewrite load_shift by lia.
  rewrite (load_head (le 4 _)) by (by apply zlen_le). simpl. rewrite le_val_le_small; [done|lia|].
  destruct He as (? & _). cbn. lia.
Qed.

Lemma dir_size_at : dir_size buf p = Some (de_size e).
Proof.
  unfold dir_size, load_le, encode_dirent. rewrite <- !app_assoc.
  rewrite (load_field pre 4 2 (le 4 (de_inode e)) (le 2 (de_size e)))
    by (rewrite ?zlen_le; done). simpl. rewrite le_val_le_small; [done|lia|].
  pose proof (de_size_pos e). destruct He as (_ & _ & _ & ?). cbn. lia.
Qed.

Lemma dir_namelen_at : dir_namelen buf p = Some (zlen (de_name e)).
Proof.
  unfold dir_namelen, load_le, encode_dirent. rewrite <- !app_assoc.
  rewrite (app_assoc (le 4 _)).
  rewrite (load_field pre 6 1 (le 4 (de_inode e) ++ le 2 (de_size e)) (le 1 (zlen (de_name e))))
    by (rewrite ?zlen_app, ?zlen_le; done). simpl. rewrite le_val_le_small; [done|lia|].
  pose proof (zlen_nonneg (de_name e)). destruct He as (_ & _ & ? & _). cbn. lia.
Qed.

Lemma dir_name_at : dir_name buf p (zlen (de_name e)) = Some (de_name e).
Proof.
  unfold dir_name, encode_dirent. rewrite <- !app_assoc.
  rewrite (app_assoc (le 4 _)), (app_assoc (le 4 _ ++ _)), (app_assoc ((le 4 _ ++ _) ++ _)).
  rewrite (load_field pre 8); [done|..|done|lia]. rewrite ?zlen_app, ?zlen_le; done.
Qed.

(** The comparison decides whether the entry is live and has the name. *)
Lemma dir_matches_at name :
  dir_matches buf p name =
    Some (negb (de_inode e =? 0) && bool_decide (de_name e = name)).
Proof.
  unfold dir_matches. rewrite dir_inode_at. destruct (de_inode e =? 0); [done|].
  rewrite dir_namelen_at. cbn [negb andb].
  destruct (Z.eqb_spec (zlen (de_name e)) (zlen name)) as [<-|Hne]; [by rewrite dir_name_at|].
  rewrite bool_decide_false; [done|]. intros E. by rewrite E in Hne.
Qed.

Lemma buf_length : zlen buf = p + de_size e + zlen post.
Proof. rewrite !zlen_app, zlen_encode_dirent. lia. Qed.

End fields.

(** ** Searching *)

(** The search of a directory block returns the inode of the first live entry
    with the name, and nothing when there is none; it always ends. *)
Lemma dir_search_ok es name : forall pre fuel,
  Forall dirent_wf es -> (length es < fuel)%nat ->
  dir_search fuel (pre ++ encode_dir es) name (zlen pre) = Ok (lookup_entry es name).
Proof.
  induction es as [|e es IH]; intros pre fuel Hes Hf; (destruct fuel as [|fuel]; [lia|]);
    cbn [dir_search].
  { unfold encode_dir. simpl. rewrite app_nil_r, Z.ltb_irrefl. done. }
  apply Forall_cons in Hes as [He Hes]. rewrite encode_dir_cons.
  rewrite (buf_length pre _ e). pose proof (de_size_pos e).
  pose proof (zlen_nonneg (encode_dir es)).
  rewrite (proj2 (Z.ltb_lt _ _)) by lia. rewrite dir_matches_at by done. cbn [need lookup_entry].
  destruct (negb _ && _); [by rewrite dir_inode_at|].
  rewrite dir_size_at by done. cbn [need]. rewrite app_assoc.
  replace (zlen pre + de_size e) with (zlen (pre ++ encode_dirent e)).
  - apply IH; [done|]. simpl in Hf. lia.
  - by rewrite zlen_app, zlen_encode_dirent.
Qed.

Lemma dir_search_top es name fuel :
  Forall dirent_wf es -> (length es < fuel)%nat ->
  dir_search fuel (encode_dir es) name 0 = Ok (lookup_entry es name).
Proof. exact (dir_search_ok es name [] fuel). Qed.

(** ** Storing into a buffer, field by field *)

Lemma patch_app pre bs bs' post :
  zlen bs = zlen bs' -> patch (zlen pre) bs' (pre ++ bs ++ post) = pre ++ bs' ++ post.
Proof.
  intros Hl. unfold patch, zlen in *. rewrite Nat2Z.id. apply list_eq. intros i.
  destruct (decide (i < length pre)%nat) as [H1|H1].
  { rewrite list_lookup_inserts_lt, !lookup_app_l by lia. done. }
  rewrite (lookup_app_r pre) by lia.
  destruct (decide (i < length pre + length bs')%nat) as [H2|H2].
  - rewrite list_lookup_inserts by (rewrite ?length_app; lia).
    by rewrite lookup_app_l by lia.
  - rewrite list_lookup_inserts_ge, !lookup_app_r by lia. f_equal. lia.
Qed.

Lemma store_field pre o a x x' y :
  zlen a = o -> zlen x = zlen x' ->
  store (zlen pre + o) x' (pre ++ a ++ x ++ y) = Some (pre ++ a ++ x' ++ y).
Proof.
  intros <- Hx. pose proof (zlen_nonneg pre). pose proof (zlen_nonneg a).
  pose proof (zlen_nonneg y).
  rewrite store_ok by (rewrite ?zlen_app; lia).
  rewrite <- zlen_app, (app_assoc pre a), patch_app by done. by rewrite <- !app_assoc.
Qed.

Lemma store_first pre x x' y :
  zlen x = zlen x' -> store (zlen pre) x' (pre ++ x ++ y) = Some (pre ++ x' ++ y).
Proof.
  intros Hx. pose proof (store_field pre 0 [] x x' y eq_refl Hx) as H.
  by rewrite Z.add_0_r in H.
Qed.

(** The eight header bytes and the name of a record, whatever they were. *)
Lemma put_entry_ok pre i4 s2 n1 t1 nm rest inode size type name :
  zlen i4 = 4 -> zlen s2 = 2 -> zlen n1 = 1 -> zlen t1 = 1 -> zlen nm = zlen name ->
  put_entry (pre ++ i4 ++ s2 ++ n1 ++ t1 ++ nm ++ rest) (zlen pre) inode size type name =
    Some (pre ++ le 4 inode ++ le 2 size ++ le 1 (zlen name) ++ le 1 type ++ name ++ rest).
Proof.
  intros Hi Hs Hn Ht Hnm. unfold put_entry, store_le.
  rewrite (store_field pre 4 i4 s2) by (rewrite ?zlen_le; lia).
  rewrite (app_assoc (le 2 size)), (app_assoc i4 _ (t1 ++ _)).
  rewrite (store_field pre 7 (i4 ++ le 2 size ++ n1) t1)
    by (rewrite ?zlen_app, ?zlen_le; lia).
  rewrite (app_assoc (i4 ++ le 2 size ++ n1)).
  rewrite (store_field pre 8 ((i4 ++ le 2 size ++ n1) ++ le 1 type) nm)
    by (rewrite ?zlen_app, ?zlen_le; lia).
  rewrite <- !app_assoc, (app_assoc i4 (le 2 size)).
  rewrite (store_field pre 6 (i4 ++ le 2 size) n1) by (rewrite ?zlen_app, ?zlen_le; lia).
  rewrite <- !app_assoc. apply store_first. rewrite zlen_le; lia.
Qed.

(** Any [n] bytes split into a header, a name and the rest. *)
Lemma split_record (l : list Z) k :
  0 <= k -> 8 + k <= zlen l ->
  exists i4 s2 n1 t1 nm rest, l = i4 ++ s2 ++ n1 ++ t1 ++ nm ++ rest /\
    zlen i4 = 4 /\ zlen s2 = 2 /\ zlen n1 = 1 /\ zlen t1 = 1 /\ zlen nm = k /\
    zlen rest = zlen l - 8 - k.
Proof.
  intros Hk Hl.
  exists (slice 0 4 l), (slice 4 2 l), (slice 6 1 l), (slice 7 1 l), (slice 8 k l),
    (slice (8 + k) (zlen l - 8 - k) l).
  rewrite !zlen_slice by lia. split; [|auto 10].
  rewrite <- (slice_full l) at 1.
  rewrite (slice_split 0 4), (slice_split (0 + 4) 2), (slice_split (0 + 4 + 2) 1),
    (slice_split (0 + 4 + 2 + 1) 1), (slice_split (0 + 4 + 2 + 1 + 1) k) by lia.
  do 5 f_equal; [done..|]. f_equal; lia.
Qed.

Lemma align4_bounds n : 0 <= n -> n <= align4 n <= n + 3.
Proof.
  intros Hn. unfold align4. change (Z.lnot 3) with (Z.lnot (Z.ones 2)).
  rewrite <- Z.ldiff_land, Z.ldiff_ones_r by lia.
  rewrite Z.shiftl_mul_pow2, Z.shiftr_div_pow2 by lia. change (2 ^ 2) with 4.
  pose proof (Z.div_mod (n + 3) 4 ltac:(lia)). pose proof (Z.mod_pos_bound (n + 3) 4 ltac:(lia)).
  lia.
Qed.

(** ** Inserting *)

(** The entry cut down to its own name, and the entry placed behind it. *)
Definition shrink_entry (e : dirent) : dirent :=
  mkDirent (de_inode e) (de_type e) (de_name e)
    (take (Z.to_nat (align4 (8 + zlen (de_name e)) - 8 - zlen (de_name e))) (de_pad e)).

Definition room (e : dirent) : Z := de_size e - align4 (8 + zlen (de_name e)).

Definition new_entry (e : dirent) (inode type : Z) (name : list Z) : dirent :=
  mkDirent inode type name
    (drop (Z.to_nat (align4 (8 + zlen (de_name e)) - zlen (de_name e) + zlen name)) (de_pad e)).

Definition live_match (name : list Z) (e : dirent) : Prop := de_inode e <> 0 /\ de_name e = name.
#[export] Instance live_match_dec name e : Decision (live_match name e).
Proof. unfold live_match. apply _. Defined.

Lemma live_match_bool name e :
  negb (de_inode e =? 0) && bool_decide (de_name e = name) = bool_decide (live_match name e).
Proof.
  apply eq_bool_prop_intro. rewrite andb_True, negb_True, !bool_decide_spec. unfold live_match.
  by rewrite Is_true_true, Z.eqb_eq.
Qed.

Section insert_here.
Context (pre post : list Z) (e : dirent) (He : dirent_wf e).
Context (name : list Z) (inode type : Z).
Context (Hroom : align4 (8 + zlen name) <= room e).

Lemma room_sizes :
  de_size (shrink_entry e) = align4 (8 + zlen (de_name e)) /\
  de_size (new_entry e inode type name) = room e.
Proof.
  pose proof (zlen_nonneg (de_name e)). pose proof (zlen_nonneg name).
  pose proof (zlen_nonneg (de_pad e)).
  pose proof (align4_bounds (8 + zlen (de_name e)) ltac:(lia)).
  pose proof (align4_bounds (8 + zlen name) ltac:(lia)).
  unfold room in *. unfold de_size, sizeof_Ext2Directory in *. cbn [de_name de_pad shrink_entry new_entry].
  unfold zlen in *. rewrite length_take, length_drop. lia.
Qed.

(** Rewriting the entry's size and storing the new record splits it in two. *)
Lemma insert_here :
  let m := align4 (8 + zlen (de_name e)) in
  exists b, store_le 2 (zlen pre + 4) m (pre ++ encode_dirent e ++ post) = Some b /\
    put_entry b (zlen pre + m) inode (room e) type name =
      Some (pre ++ encode_dirent (shrink_entry e) ++
            encode_dirent (new_entry e inode type name) ++ post).
Proof.
  intros m. destruct room_sizes as [Hs Hn].
  pose proof (zlen_nonneg (de_name e)). pose proof (zlen_nonneg name).
  pose proof (align4_bounds (8 + zlen (de_name e)) ltac:(lia)) as Hal. fold m in Hal.
  pose proof (align4_bounds (8 + zlen name) ltac:(lia)).
  assert (zlen (de_pad e) = m - 8 - zlen (de_name e) + room e) as Hpad.
  { unfold room, de_size, sizeof_Ext2Directory. fold m. lia. }
  set (k := m - 8 - zlen (de_name e)) in *.
  assert (de_pad e = take (Z.to_nat k) (de_pad e) ++ drop (Z.to_nat k) (de_pad e)) as Ep
    by by rewrite take_drop.
  assert (zlen (drop (Z.to_nat k) (de_pad e)) = room e) as Hd.
  { unfold zlen in *. rewrite length_drop. lia. }
  destruct (split_record (drop (Z.to_nat k) (de_pad e)) (zlen name))
    as (i4 & s2 & n1 & t1 & nm & rest & Er & ? & ? & ? & ? & ? & _); [lia|lia|].
  exists (pre ++ encode_dirent (shrink_entry e) ++ drop (Z.to_nat k) (de_pad e) ++ post). split.
  - unfold encode_dirent. rewrite Hs. cbn [de_inode de_type de_name de_pad shrink_entry].
    fold m. fold k. rewrite <- !app_assoc. unfold store_le.
    rewrite (store_field pre 4 (le 4 _) (le 2 _) (le 2 m)) by (rewrite ?zlen_le; lia).
    rewrite (app_assoc (take _ _)), <- Ep. done.
  - rewrite app_assoc. replace (zlen pre + m) with (zlen (pre ++ encode_dirent (shrink_entry e))).
    2:{ rewrite zlen_app, zlen_encode_dirent, Hs. done. }
    rewrite Er, <- !app_assoc. rewrite !(app_assoc pre).
    rewrite put_entry_ok by done. rewrite <- !app_assoc. do 3 f_equal.
    unfold encode_dirent. rewrite Hn. cbn [de_inode de_type de_name de_pad new_entry].
    rewrite <- !app_assoc. do 5 f_equal. f_equal. fold m.
    trans (drop (Z.to_nat (8 + zlen name)) (drop (Z.to_nat k) (de_pad e))).
    + rewrite Er. rewrite !app_assoc. rewrite drop_app_length'; [done|].
      rewrite !length_app. unfold zlen in *. lia.
    + rewrite drop_drop. f_equal. unfold k. lia.
Qed.

End insert_here.

(** Insertion on the list of entries: [None] when the name is met first,
    [Some None] when no entry has room. *)
Fixpoint insert_entry (es : list dirent) (name : list Z) (type inode : Z)
    : option (option (list dirent)) :=
  match es with
  | [] => Some None
  | e :: es =>
      if decide (live_match name e) then None
      else if align4 (8 + zlen name) <=? room e
      then Some (Some (shrink_entry e :: new_entry e inode type name :: es))
      else match insert_entry es name type inode with
           | Some (Some es') => Some (Some (e :: es'))
           | r => r
           end
  end.

Lemma dir_insert_ok es name type inode : forall pre fuel,
  Forall dirent_wf es -> (length es < fuel)%nat ->
  dir_insert fuel (pre ++ encode_dir es) name type inode (zlen pre) =
    Ok (match insert_entry es name type inode with
        | None => Exists
        | Some None => NoRoom
        | Some (Some es') => Inserted (pre ++ encode_dir es')
        end).
Proof.
  induction es as [|e es IH]; intros pre fuel Hes Hf; (destruct fuel as [|fuel]; [lia|]);
    cbn [dir_insert].
  { unfold encode_dir. simpl. by rewrite app_nil_r, Z.ltb_irrefl. }
  apply Forall_cons in Hes as [He Hes]. rewrite encode_dir_cons.
  rewrite (buf_length pre _ e). pose proof (de_size_pos e).
  pose proof (zlen_nonneg (encode_dir es)).
  rewrite (proj2 (Z.ltb_lt _ _)) by lia. rewrite dir_matches_at by done.
  rewrite live_match_bool. cbn [need insert_entry].
  destruct (decide (live_match name e)) as [Hm|Hm];
    [by rewrite bool_decide_true|rewrite bool_decide_false by done].
  rewrite dir_namelen_at, dir_size_at by done. cbn [need].
  change (de_size e - align4 (sizeof_Ext2Directory + zlen (de_name e))) with (room e).
  unfold sizeof_Ext2Directory.
  destruct (Z.leb_spec (align4 (8 + zlen name)) (room e)) as [Hr|Hr].
  - destruct (insert_here pre (encode_dir es) e name inode type Hr) as (b & E1 & E2).
    rewrite E1. cbn [need]. by rewrite E2.
  - rewrite app_assoc.
    replace (zlen pre + de_size e) with (zlen (pre ++ encode_dirent e))
      by (by rewrite zlen_app, zlen_encode_dirent).
    rewrite IH by (done || (simpl in Hf; lia)).
    destruct (insert_entry es name type inode) as [[es'|]|]; [|done..].
    by rewrite encode_dir_cons, <- app_assoc.
Qed.

Lemma dir_insert_top es name type inode fuel :
  Forall dirent_wf es -> (length es < fuel)%nat ->
  dir_insert fuel (encode_dir es) name type inode 0 =
    Ok (match insert_entry es name type inode with
        | None => Exists
        | Some None => NoRoom
        | Some (Some es') => Inserted (encode_dir es')
        end).
Proof. exact (dir_insert_ok es name type inode [] fuel). Qed.

(** The new name, and only it, is added; the block keeps its length. *)
Lemma insert_entry_spec es name type inode es' :
  Forall dirent_wf es -> 0 < inode < 2 ^ 32 -> 0 <= type < 256 -> zlen name < 256 ->
  insert_entry es name type inode = Some (Some es') ->
  Forall dirent_wf es' /\ zlen (encode_dir es') = zlen (encode_dir es) /\
  (lookup_entry es name = None -> lookup_entry es' name = Some inode) /\
  (forall n, n <> name -> lookup_entry es' n = lookup_entry es n).
Proof.
  intros Hes Hi Ht Hl. revert es'. induction Hes as [|e es He Hes IH]; intros es' E; [done|].
  cbn [insert_entry] in E. destruct (decide (live_match name e)) as [Hm|Hm]; [done|].
  destruct (Z.leb_spec (align4 (8 + zlen name)) (room e)) as [Hr|Hr].
  - simplify_eq. destruct (room_sizes e name inode type Hr) as [Hs Hn].
    assert (room e + align4 (8 + zlen (de_name e)) = de_size e) as Hsum by (unfold room; lia).
    pose proof (de_size_pos (shrink_entry e)). pose proof (de_size_pos (new_entry e inode type name)).
    destruct He as (? & ? & ? & ?). split; [|split; [|split]].
    + repeat apply Forall_cons_2; [| |done]; unfold dirent_wf; cbn; rewrite ?Hs, ?Hn; lia.
    + rewrite !encode_dir_cons, !zlen_app, !zlen_encode_dirent, Hs, Hn. lia.
    + intros _. cbn [lookup_entry]. rewrite !live_match_bool.
      rewrite (bool_decide_false (live_match name (shrink_entry e))) by exact Hm.
      rewrite bool_decide_true; [done|]. split; cbn; [lia|done].
    + intros n Hne. cbn [lookup_entry]. rewrite !live_match_bool.
      rewrite (bool_decide_false (live_match n (new_entry _ _ _ _))).
      * done.
      * by intros [_ ?].
  - destruct (insert_entry es name type inode) as [[es0|]|]; simplify_eq.
    destruct (IH es0 eq_refl) as (W & Hz & L1 & L2). split; [|split; [|split]].
    + by apply Forall_cons_2.
    + by rewrite !encode_dir_cons, !zlen_app, Hz.
    + cbn [lookup_entry]. rewrite live_match_bool, bool_decide_false by done. done.
    + intros n Hne. cbn [lookup_entry]. case_match; [done|]. by apply L2.
Qed.

Lemma insert_entry_length es name type inode es' :
  insert_entry es name type inode = Some (Some es') -> (length es' <= S (length es))%nat.
Proof.
  revert es'. induction es as [|e es IH]; intros es' E; [done|]. cbn [insert_entry] in E.
  case_decide; [done|]. case_match; [by simplify_eq|].
  destruct (insert_entry es name type inode) as [[es0|]|]; simplify_eq. simpl.
  specialize (IH es0 eq_refl). lia.
Qed.

(** ** Removing *)

(** The first record of a block becomes an unused one. *)
Definition kill_entry (e : dirent) : dirent :=
  mkDirent 0 (de_type e) [] (de_name e ++ de_pad e).
(** Any other record is swallowed by the one before it. *)
Definition absorb_entry (q e : dirent) : dirent :=
  mkDirent (de_inode q) (de_type q) (de_name q) (de_pad q ++ encode_dirent e).

(** Removal of the only live entry with the name. *)
Definition remove_entry (es1 : list dirent) (e : dirent) (es2 : list dirent) : list dirent :=
  match last es1 with
  | None => kill_entry e :: es2
  | Some q => removelast es1 ++ absorb_entry q e :: es2
  end.

Lemma remove_entry_length es1 e es2 :
  (length (remove_entry es1 e es2) <= length (es1 ++ e :: es2))%nat.
Proof.
  unfold remove_entry. destruct es1 as [|q es0 _] using rev_ind; [done|].
  rewrite last_snoc, removelast_last, !length_app. simpl. lia.
Qed.

Lemma dir_remove_none es name hit : forall pre fuel before,
  Forall dirent_wf es -> Forall (fun e => ~ live_match name e) es -> (length es < fuel)%nat ->
  dir_remove fuel (pre ++ encode_dir es) name before (zlen pre) hit =
    Ok (pre ++ encode_dir es, hit).
Proof.
  induction es as [|e es IH]; intros pre fuel before Hes Hno Hf;
    (destruct fuel as [|fuel]; [lia|]); cbn [dir_remove].
  { unfold encode_dir. simpl. by rewrite app_nil_r, Z.ltb_irrefl. }
  apply Forall_cons in Hes as [He Hes]. apply Forall_cons in Hno as [Hm Hno].
  rewrite encode_dir_cons, (buf_length pre _ e). pose proof (de_size_pos e).
  pose proof (zlen_nonneg (encode_dir es)).
  rewrite (proj2 (Z.ltb_lt _ _)) by lia. rewrite dir_matches_at by done.
  rewrite live_match_bool, bool_decide_false by done. cbn [need].
  rewrite dir_size_at by done. cbn [need]. rewrite app_assoc.
  replace (zlen pre + de_size e) with (zlen (pre ++ encode_dirent e))
    by (by rewrite zlen_app, zlen_encode_dirent).
  rewrite IH by (done || (simpl in Hf; lia)). done.
Qed.

(** Entries before the hit are stepped over, the last one becoming [before]. *)
Lemma dir_remove_skip es q rest name : forall pre fuel before hit,
  Forall dirent_wf (es ++ [q]) -> Forall (fun e => ~ live_match name e) (es ++ [q]) ->
  (length es < fuel)%nat ->
  exists fuel', (fuel = fuel' + S (length es))%nat /\
  dir_remove fuel (pre ++ encode_dir (es ++ q :: rest)) name before (zlen pre) hit =
  dir_remove fuel' (pre ++ encode_dir (es ++ q :: rest)) name
    (Some (zlen (pre ++ encode_dir es))) (zlen (pre ++ encode_dir (es ++ [q]))) hit.
Proof.
  assert (Hstep : forall e es' pre fuel before hit, dirent_wf e -> ~ live_match name e ->
    dir_remove (S fuel) (pre ++ encode_dirent e ++ encode_dir es') name before (zlen pre) hit =
    dir_remove fuel (pre ++ encode_dirent e ++ encode_dir es') name (Some (zlen pre))
      (zlen (pre ++ encode_dirent e)) hit).
  { intros e es' pre fuel before hit He Hm. cbn [dir_remove].
    rewrite (buf_length pre _ e). pose proof (de_size_pos e).
    pose proof (zlen_nonneg (encode_dir es')).
    rewrite (proj2 (Z.ltb_lt _ _)) by lia. rewrite dir_matches_at by done.
    rewrite live_match_bool, bool_decide_false by done. cbn [need].
    rewrite dir_size_at by done. cbn [need].
    by rewrite (zlen_app pre), zlen_encode_dirent. }
  induction es as [|e es IH]; intros pre fuel before hit Hwf Hno Hf;
    (destruct fuel as [|fuel]; [lia|]); simpl in Hwf, Hno;
    apply Forall_cons in Hwf as [He Hwf]; apply Forall_cons in Hno as [Hm Hno].
  - exists fuel. split; [simpl; lia|]. cbn [app]. rewrite encode_dir_cons, Hstep by done.
    unfold encode_dir at 3 4. simpl. by rewrite !app_nil_r.
  - destruct (IH (pre ++ encode_dirent e) fuel (Some (zlen pre)) hit Hwf Hno) as (fuel' & Hf' & E).
    { simpl in Hf. lia. }
    exists fuel'. split; [simpl; lia|]. cbn [app]. rewrite !encode_dir_cons, Hstep by done.
    rewrite !(app_assoc pre (encode_dirent e)). exact E.
Qed.

Lemma store_size_field pre post q v :
  store_le 2 (zlen pre + 4) v (pre ++ encode_dirent q ++ post) =
    Some (pre ++ (le 4 (de_inode q) ++ le 2 v ++ le 1 (zlen (de_name q)) ++ le 1 (de_type q) ++
                  de_name q ++ de_pad q) ++ post).
Proof.
  unfold encode_dirent, store_le. rewrite <- !app_assoc.
  by rewrite (store_field pre 4 (le 4 _) (le 2 _) (le 2 v)) by (rewrite ?zlen_le; lia).
Qed.

Lemma absorb_encode q e : de_size q + de_size e < 65536 ->
  encode_dirent (absorb_entry q e) =
    (le 4 (de_inode q) ++ le 2 (u16 (de_size q + de_size e)) ++ le 1 (zlen (de_name q)) ++
     le 1 (de_type q) ++ de_name q ++ de_pad q) ++ encode_dirent e.
Proof.
  intros H. pose proof (de_size_pos q). pose proof (de_size_pos e). rewrite u16_small by lia.
  unfold encode_dirent at 1. cbn [de_inode de_type de_name de_pad absorb_entry].
  assert (de_size (absorb_entry q e) = de_size q + de_size e) as ->.
  { unfold de_size at 1. cbn. rewrite zlen_app, zlen_encode_dirent. unfold de_size. lia. }
  by rewrite <- !app_assoc.
Qed.

(** Clearing the inode and the name length turns the record into an unused one. *)
Lemma kill_stores pre post e :
  exists b, store_le 4 (zlen pre) 0 (pre ++ encode_dirent e ++ post) = Some b /\
    store_le 1 (zlen pre + 6) 0 b = Some (pre ++ encode_dirent (kill_entry e) ++ post).
Proof.
  unfold encode_dirent at 1. rewrite <- !app_assoc. unfold store_le.
  rewrite store_first by (by rewrite !zlen_le). eexists. split; [done|].
  rewrite (app_assoc (le 4 0)).
  rewrite (store_field pre 6 (le 4 0 ++ le 2 _) (le 1 _) (le 1 0))
    by (rewrite ?zlen_app, ?zlen_le; lia).
  unfold encode_dirent. cbn [de_inode de_type de_name de_pad kill_entry].
  assert (de_size (kill_entry e) = de_size e) as ->.
  { unfold de_size. cbn [de_name de_pad kill_entry]. rewrite zlen_app.
    change (zlen (@nil Z)) with 0. lia. }
  by rewrite <- !app_assoc.
Qed.

Lemma kill_entry_wf e : dirent_wf e -> dirent_wf (kill_entry e).
Proof.
  intros (? & ? & ? & ?). split; [done|]. split; [done|]. split; [done|].
  unfold de_size in *. cbn [de_name de_pad kill_entry]. rewrite zlen_app.
  change (zlen (@nil Z)) with 0. lia.
Qed.

Lemma absorb_entry_wf q e :
  dirent_wf q -> de_size q + de_size e < 65536 -> dirent_wf (absorb_entry q e).
Proof.
  intros (? & ? & ? & ?) Hsz. unfold dirent_wf. cbn. repeat split; try lia.
  unfold de_size at 1. cbn. rewrite zlen_app, zlen_encode_dirent. unfold de_size in *. lia.
Qed.

Lemma de_size_le_dir e es : e ∈ es -> de_size e <= zlen (encode_dir es).
Proof.
  induction es as [|y es IH]; [by intros ?%elem_of_nil|].
  rewrite encode_dir_cons, zlen_app, zlen_encode_dirent.
  pose proof (zlen_nonneg (encode_dir es)). pose proof (de_size_pos y).
  intros [->|?%IH]%elem_of_cons; lia.
Qed.

Section remove.
Context (name : list Z) (es2 : list dirent) (e : dirent).
Context (He : dirent_wf e) (Hwf : Forall dirent_wf es2) (Hm : live_match name e).
Context (Hno : Forall (fun e => ~ live_match name e) es2).

(** The hit on the first record. *)
Lemma dir_remove_first fuel :
  (length es2 < fuel)%nat ->
  dir_remove (S fuel) (encode_dir (e :: es2)) name None 0 false =
    Ok (encode_dir (kill_entry e :: es2), true).
Proof.
  intros Hf. rewrite !encode_dir_cons.
  change (encode_dirent e ++ encode_dir es2) with ([] ++ encode_dirent e ++ encode_dir es2).
  change 0 with (zlen (@nil Z)). cbn [dir_remove].
  rewrite (buf_length [] _ e). pose proof (de_size_pos e).
  pose proof (zlen_nonneg (encode_dir es2)). rewrite (proj2 (Z.ltb_lt _ _)) by lia.
  rewrite dir_matches_at, live_match_bool, bool_decide_true by done. cbn [need].
  change (zlen [] =? 0) with true. cbv iota.
  destruct (kill_stores [] (encode_dir es2) e) as (b & E1 & E2).
  change (store_le 4 (zlen []) (zlen []) ?x) with (store_le 4 (zlen []) 0 x).
  rewrite E1. cbn [need]. change (zlen [] + 6) with (zlen (@nil Z) + 6) in E2.
  change (store_le 1 (zlen [] + 6) (zlen []) b) with (store_le 1 (zlen [] + 6) 0 b).
  rewrite E2. cbn [need]. rewrite dir_size_at by (by apply kill_entry_wf). cbn [need].
  rewrite (app_assoc []).
  replace (zlen [] + de_size (kill_entry e)) with (zlen ([] ++ encode_dirent (kill_entry e)))
    by (by rewrite zlen_app, zlen_encode_dirent).
  by rewrite dir_remove_none.
Qed.

(** The hit on a record behind [q]. *)
Lemma dir_remove_later pre q fuel :
  dirent_wf q -> de_size q + de_size e < 65536 -> (length es2 < fuel)%nat ->
  dir_remove (S fuel) (pre ++ encode_dir (q :: e :: es2)) name (Some (zlen pre))
    (zlen (pre ++ encode_dirent q)) false =
  Ok (pre ++ encode_dir (absorb_entry q e :: es2), true).
Proof.
  intros Hq Hsz Hf. rewrite !encode_dir_cons. pose proof (de_size_pos q). pose proof (de_size_pos e).
  pose proof (zlen_nonneg (encode_dir es2)). pose proof (zlen_nonneg pre).
  cbn [dir_remove]. rewrite (app_assoc pre (encode_dirent q)), (buf_length (pre ++ _) _ e).
  rewrite (proj2 (Z.ltb_lt _ _)) by lia.
  rewrite dir_matches_at, live_match_bool, bool_decide_true by done. cbn [need].
  rewrite (proj2 (Z.eqb_neq _ 0)) by (rewrite zlen_app, zlen_encode_dirent; lia).
  rewrite (dir_size_at (pre ++ encode_dirent q)) by done.
  rewrite <- (app_assoc pre (encode_dirent q)). rewrite dir_size_at by done. cbn [need].
  rewrite store_size_field. cbn [need].
  set (hd := le 4 (de_inode q) ++ le 2 (u16 (de_size q + de_size e)) ++ le 1 (zlen (de_name q)) ++
             le 1 (de_type q) ++ de_name q ++ de_pad q).
  assert (zlen hd = de_size q) as Hhd.
  { unfold hd. rewrite !zlen_app, !zlen_le by lia. unfold de_size, sizeof_Ext2Directory. lia. }
  rewrite (app_assoc pre hd).
  replace (zlen (pre ++ encode_dirent q)) with (zlen (pre ++ hd))
    by (rewrite !zlen_app, zlen_encode_dirent; lia).
  rewrite dir_size_at by done. cbn [need]. rewrite (app_assoc (pre ++ hd)).
  replace (zlen (pre ++ hd) + de_size e) with (zlen ((pre ++ hd) ++ encode_dirent e))
    by (by rewrite (zlen_app (pre ++ hd)), zlen_encode_dirent).
  rewrite dir_remove_none by done. rewrite absorb_encode by done. fold hd.
  by rewrite <- !app_assoc.
Qed.

End remove.

Lemma lookup_entry_none es name :
  Forall (fun e => ~ live_match name e) es -> lookup_entry es name = None.
Proof.
  induction 1 as [|e es He _ IH]; [done|]. cbn [lookup_entry].
  by rewrite live_match_bool, bool_decide_false.
Qed.

Lemma lookup_entry_app es fs name :
  lookup_entry (es ++ fs) name =
    match lookup_entry es name with Some i => Some i | None => lookup_entry fs name end.
Proof. induction es as [|e es IH]; [done|]. cbn [lookup_entry app]. by destruct (_ && _). Qed.

Section remove_spec.
Context (name : list Z) (es1 es2 : list dirent) (e : dirent).
Context (Hwf : Forall dirent_wf (es1 ++ e :: es2)) (Hm : live_match name e).
Context (Hno : Forall (fun e => ~ live_match name e) (es1 ++ es2)).
Context (Hlen : zlen (encode_dir (es1 ++ e :: es2)) < 65536).

Lemma dir_remove_ok fuel :
  (length (es1 ++ e :: es2) < fuel)%nat ->
  dir_remove fuel (encode_dir (es1 ++ e :: es2)) name None 0 false =
    Ok (encode_dir (remove_entry es1 e es2), true).
Proof.
  intros Hf. apply Forall_app in Hno as [Hno1 Hno2].
  apply Forall_app in Hwf as [Hwf1 [He Hwf2]%Forall_cons]. unfold remove_entry.
  destruct es1 as [|q es0 _] using rev_ind.
  - destruct fuel as [|fuel]; [lia|]. simpl in Hf. cbn [app last].
    apply dir_remove_first; try done. lia.
  - rewrite last_snoc, removelast_last. rewrite <- app_assoc in *. cbn [app] in *.
    rewrite !length_app in Hf. cbn in Hf.
    destruct (dir_remove_skip es0 q (e :: es2) name [] fuel None false Hwf1 Hno1)
      as (fuel' & Hf' & E); [lia|].
    cbn [app] in E. change (zlen []) with 0 in E. rewrite E.
    apply Forall_app in Hwf1 as [_ [Hq _]%Forall_cons].
    destruct fuel' as [|fuel']; [lia|]. rewrite !encode_dir_app.
    change (encode_dir [q]) with (encode_dirent q ++ []). rewrite app_nil_r.
    apply dir_remove_later; try done; [|lia].
    rewrite encode_dir_app, !encode_dir_cons, !zlen_app, !zlen_encode_dirent in Hlen.
    pose proof (zlen_nonneg (encode_dir es0)). pose proof (zlen_nonneg (encode_dir es2)). lia.
Qed.

(** Lookups after the removal: the name is gone, every other one stays. *)
Lemma remove_entry_spec :
  Forall dirent_wf (remove_entry es1 e es2) /\
  zlen (encode_dir (remove_entry es1 e es2)) = zlen (encode_dir (es1 ++ e :: es2)) /\
  lookup_entry (remove_entry es1 e es2) name = None /\
  (forall n, n <> name -> lookup_entry (remove_entry es1 e es2) n = lookup_entry (es1 ++ e :: es2) n).
Proof.
  apply Forall_app in Hno as [Hno1 Hno2].
  apply Forall_app in Hwf as [Hwf1 [He Hwf2]%Forall_cons]. unfold remove_entry.
  destruct es1 as [|q es0 _] using rev_ind.
  - cbn [last app]. split; [|split; [|split]].
    + apply Forall_cons_2; [by apply kill_entry_wf|done].
    + rewrite !encode_dir_cons, !zlen_app, !zlen_encode_dirent. f_equal.
      unfold de_size. cbn [de_name de_pad kill_entry]. rewrite zlen_app.
      change (zlen (@nil Z)) with 0. lia.
    + cbn [lookup_entry]. rewrite live_match_bool, bool_decide_false by (by intros [? _]).
      by apply lookup_entry_none.
    + intros n Hne. cbn [lookup_entry]. rewrite !live_match_bool.
      rewrite !bool_decide_false; [done|..].
      * intros [_ E]. destruct Hm as [_ E']. congruence.
      * by intros [? _].
  - rewrite last_snoc, removelast_last. rewrite <- app_assoc in *. cbn [app] in *.
    apply Forall_app in Hwf1 as [Hwf0 [Hq _]%Forall_cons].
    apply Forall_app in Hno1 as [Hno0 [Hnq _]%Forall_cons].
    rewrite encode_dir_app, !encode_dir_cons, !zlen_app, !zlen_encode_dirent in Hlen.
    pose proof (zlen_nonneg (encode_dir es0)). pose proof (zlen_nonneg (encode_dir es2)).
    assert (forall n, live_match n (absorb_entry q e) <-> live_match n q) as Hab by done.
    split; [|split; [|split]].
    + apply Forall_app. split; [done|]. apply Forall_cons_2; [|done].
      apply absorb_entry_wf; [done|lia].
    + rewrite !encode_dir_app, !encode_dir_cons, !zlen_app, !zlen_encode_dirent.
      assert (de_size (absorb_entry q e) = de_size q + de_size e) as ->; [|lia].
      unfold de_size at 1. cbn [de_name de_pad absorb_entry].
      rewrite zlen_app, zlen_encode_dirent. unfold de_size. lia.
    + apply lookup_entry_none. apply Forall_app. split; [done|]. apply Forall_cons_2; done.
    + intros n Hne. rewrite !lookup_entry_app. destruct (lookup_entry es0 n); [done|].
      cbn [lookup_entry]. rewrite !live_match_bool.
      rewrite (bool_decide_ext _ _ (Hab n)). cbn [de_inode absorb_entry].
      case_match; [done|]. rewrite (bool_decide_false (live_match n e)); [done|].
      intros [_ E]. destruct Hm as [_ E']. congruence.
Qed.

End remove_spec.

(** ** Properties *)

(** Inserting a name into a directory block that does not hold it, when the
    block has room, makes the search for that name return the new inode and
    leaves the search for every other name as it was; the block keeps its size. *)
Theorem dir_insert_then_search es name type inode fuel b :
  Forall dirent_wf es -> 0 < inode < 2 ^ 32 -> 0 <= type < 256 -> zlen name < 256 ->
  (S (length es) < fuel)%nat -> lookup_entry es name = None ->
  dir_insert fuel (encode_dir es) name type inode 0 = Ok (Inserted b) ->
  zlen b = zlen (encode_dir es) /\
  dir_search fuel b name 0 = Ok (Some inode) /\
  forall n, n <> name -> dir_search fuel b n 0 = dir_search fuel (encode_dir es) n 0.
Proof.
  intros Hes Hi Ht Hn Hf Hl E.
  rewrite dir_insert_top in E by (done || lia).
  destruct (insert_entry es name type inode) as [[es'|]|] eqn:Ei; simplify_eq.
  assert (length es' <= S (length es))%nat as Hlen by by eapply insert_entry_length.
  destruct (insert_entry_spec es name type inode es') as (W & Hz & L1 & L2); [done..|].
  split; [done|]. split.
  - rewrite dir_search_top by (done || lia). by rewrite L1.
  - intros n Hne. rewrite !dir_search_top by (done || lia).
    by rewrite L2.
Qed.

(** Removing a name that one live entry of the block carries makes the search
    for it fail and leaves the search for every other name as it was; the block
    keeps its size. *)
Theorem dir_remove_then_search name es1 e es2 fuel :
  Forall dirent_wf (es1 ++ e :: es2) -> live_match name e ->
  Forall (fun e => ~ live_match name e) (es1 ++ es2) ->
  zlen (encode_dir (es1 ++ e :: es2)) < 65536 -> (length (es1 ++ e :: es2) < fuel)%nat ->
  exists b, dir_remove fuel (encode_dir (es1 ++ e :: es2)) name None 0 false = Ok (b, true) /\
    zlen b = zlen (encode_dir (es1 ++ e :: es2)) /\
    dir_search fuel b name 0 = Ok None /\
    forall n, n <> name ->
      dir_search fuel b n 0 = dir_search fuel (encode_dir (es1 ++ e :: es2)) n 0.
Proof.
  intros Hwf Hm Hno Hlen Hf. eexists. split; [by apply dir_remove_ok|].
  destruct (remove_entry_spec name es1 es2 e) as (W & Hz & L1 & L2); [done..|].
  assert (length (remove_entry es1 e es2) <= length (es1 ++ e :: es2))%nat as Hl
    by apply remove_entry_length.
  split; [done|]. split.
  - rewrite dir_search_top by (done || lia). by rewrite L1.
  - intros n Hne. rewrite !dir_search_top by (done || lia). by rewrite L2.
Qed.

(** A block with the entries ["."], [".."] and ["a"]. *)
Definition ex_dir : list dirent :=
  [mkDirent 2 2 [46] [0; 0; 0]; mkDirent 2 2 [46; 46] [0; 0];
   mkDirent 12 1 [97] (replicate 31 0)].

Lemma ex_dir_wf : Forall dirent_wf ex_dir.
Proof. repeat apply Forall_cons_2; try done; by repeat split. Qed.

Lemma dir_insert_then_search_witness :
  zlen (encode_dir ex_dir) = 64 /\
  exists b, dir_insert 5 (encode_dir ex_dir) [98] 1 13 0 = Ok (Inserted b) /\
            dir_search 5 b [98] 0 = Ok (Some 13).
Proof.
  split; [reflexivity|]. eexists. split; [vm_compute; reflexivity|].
  refine (proj1 (proj2 (dir_insert_then_search ex_dir [98] 1 13 5 _ ex_dir_wf _ _ _ _ _ _)));
    vm_compute; try done; lia.
Defined.

Lemma dir_remove_then_search_witness :
  exists b, dir_remove 4 (encode_dir ex_dir) [97] None 0 false = Ok (b, true) /\
    dir_search 4 b [97] 0 = Ok None.
Proof.
  destruct (dir_remove_then_search [97] (take 2 ex_dir) (mkDirent 12 1 [97] (replicate 31 0)) [] 4
    ex_dir_wf) as (b & E & _ & Es & _).
  - by split.
  - repeat apply Forall_cons_2; try done; by intros [_ ?].
  - by vm_compute.
  - simpl. lia.
  - exists b. split; [exact E|exact Es].
Defined.
