(* ===== verification/Ext2Dirs.v ===== *)
(** * ext2: directories and paths ([ext2_dirs.c], [ext2_traverse.c])

    The loops over the blocks of a directory (search, insertion, removal) on top
    of the block operations of [DirBlock], and the resolution of a path. *)

From S2P Require Import Prelude Bytes FileTypes Paths Spinlock Disk Ext2Types Ext2Base Ext2Push Ext2Counters.
From S2P Require Import Ext2Example Ext2Inode Ext2Block Ext2Lookup Ext2Assign DirBlock.

(** ** Definitions *)

Definition lift {A} (o : outcome A) : M fs A := fun s =>
  match o with
  | Ok a => Ok (a, s)
  | Halted => Halted
  | Fault => Fault
  | Hang => Hang
  end.

(** A record advances the loop by its size field, so a loop over a block that
    comes to an end takes at most [blockSize] rounds. *)
Definition dir_fuel (e : Ext2) : nat := S (Z.to_nat (blockSize e)).

(** [Ext2LookupControl control = {0}; ext2BlockFetchInit(ext2, &control);] with
    [junk] the contents of the fresh allocations. *)
Definition fresh_control (junk : list Z) : Ext2LookupControl :=
  ext2BlockFetchInit junk junk (mkLookup [] 0 [] 0).

(** [int blocksContained = CEILING_DIVISION(ino->size, ext2->blockSize)] *)
Definition blocksContained (e : Ext2) (ino : Ext2Inode) : Z :=
  s32 (CEILING_DIVISION (i_size ino) (blockSize e)).

Fixpoint traverse_blocks (n : nat) (e : Ext2) (ino : Ext2Inode) (inodeNum : Z)
    (control : Ext2LookupControl) (blockNum : Z) (search : list Z) : M fs Z :=
  match n with
  | O => ret 0
  | S n =>
      let! (block, control) := ext2BlockFetch ino inodeNum control blockNum in
      if block =? 0 then ret 0
      else
        let! names := get_disk (BLOCK_TO_LBA e 0 block) (block_sectors e) in
        let! r := lift (dir_search (dir_fuel e) names search 0) in
        match r with
        | Some i => ret i
        | None => traverse_blocks n e ino inodeNum control (blockNum + 1) search
        end
  end.

Definition ext2Traverse (junk : list Z) (initInode : Z) (search : list Z) : M fs Z :=
  let! e := gets ext2 in
  let! ino := ext2InodeFetch initInode in
  traverse_blocks (Z.to_nat (blocksContained e ino)) e ino (u32 initInode)
    (fresh_control junk) 0 search.

Definition EXT2_S_IFLNK : Z := 0xA000.
Definition EXT2_S_IFDIR : Z := 0x4000.
Definition EXT2_ROOT_INODE : Z := 2.

(** The bytes of a symbolic link: in the block array, or in the first block. *)
Definition symlink_bytes (e : Ext2) (inode : Ext2Inode) : M fs (list Z) :=
  if 60 <? i_size inode then
    kassert (i_size inode <? blockSize e) ;;;
    let! b0 := from_option_fault (i_blocks inode !! 0%nat) in
    get_disk (BLOCK_TO_LBA e 0 b0) (block_sectors e)
  else ret (encode_words (i_blocks inode)).

(** The path to retry, stored through [symlinkResolve]. *)
Definition symlink_target (path : list Z) (lastslash length : Z) (size : Z) (start : list Z)
    : list Z :=
  if start !!! 0%nat =? slash then 33 :: take (Z.to_nat size) start
  else take (Z.to_nat (lastslash + 1)) path ++ take (Z.to_nat size) start ++
       drop (Z.to_nat (lastslash + 1 + length)) path.

(** The loop of [ext2TraversePath] over the positions [is_] of the path; the
    result and what was stored through [symlinkResolve]. *)
Fixpoint traverse_path (junk : list Z) (e : Ext2) (path : list Z) (follow : bool)
    (is_ : list Z) (curr lastslash : Z) : M fs (Z * option (list Z)) :=
  match is_ with
  | [] => ret (0, None)
  | i :: is_ =>
      let len := zlen path in
      let last := i =? len - 1 in
      if (path !!! Z.to_nat i =? slash) || last then
        let length := if last then i - lastslash - 1 + 1 else i - lastslash - 1 in
        let! curr := ext2Traverse junk curr (slice (lastslash + 1) length path) in
        if curr =? 0 then ret (0, None)
        else
          let! inode := ext2InodeFetch curr in
          if (Z.land (permission inode) 0xF000 =? EXT2_S_IFLNK) && (negb last || follow) then
            let! start := symlink_bytes e inode in
            ret (0, Some (symlink_target path lastslash length (i_size inode) start))
          else
            let notdir := Z.land (permission inode) S_IFDIR =? 0 in
            if last then ret (curr, None)
            else if notdir then ret (0, None)
            else traverse_path junk e path follow is_ curr i
      else traverse_path junk e path follow is_ curr lastslash
  end.

Definition ext2TraversePath (junk : list Z) (path : list Z) (initInode : Z) (follow : bool)
    : M fs (Z * option (list Z)) :=
  let! e := gets ext2 in
  if zlen path =? 1 then ret (2, None)
  else traverse_path junk e path follow (seqZ 1 (zlen path - 1)) (u32 initInode) 0.

(** The loop of [ext2DirAllocate] over the blocks the directory has: [Some] for
    its early returns, [None] with the control and block index it ends with. *)
Fixpoint dir_alloc_blocks (n : nat) (e : Ext2) (ino : Ext2Inode) (inodeNum : Z)
    (control : Ext2LookupControl) (blockNum : Z) (name : list Z) (type inode : Z)
    : M fs (option bool * Ext2LookupControl * Z) :=
  match n with
  | O => ret (None, control, blockNum)
  | S n =>
      let! (block, control) := ext2BlockFetch ino inodeNum control blockNum in
      if block =? 0 then ret (None, control, blockNum)
      else
        let! names := get_disk (BLOCK_TO_LBA e 0 block) (block_sectors e) in
        let! r := lift (dir_insert (dir_fuel e) names name type inode 0) in
        match r with
        | Exists => ret (Some false, control, blockNum)
        | Inserted names =>
            set_disk names (BLOCK_TO_LBA e 0 block) (block_sectors e) ;;;
            ret (Some true, control, blockNum)
        | NoRoom =>
            dir_alloc_blocks n e ino inodeNum control (blockNum + 1) name type inode
        end
  end.

(** The part of [ext2DirAllocate] that adds a block to the directory. *)
Definition dir_extend (e : Ext2) (inodeNum : Z) (ino : Ext2Inode) (control : Ext2LookupControl)
    (blockNum : Z) (name : list Z) (type inode : Z) : M fs Ext2Inode :=
  let group := INODE_TO_BLOCK_GROUP u32 e inodeNum in
  let! b := ext2BlockFind (s32 group) 1 in
  let! buf := get_disk (BLOCK_TO_LBA e 0 b) (block_sectors e) in
  let! buf := from_option_fault (put_entry buf 0 inode (blockSize e) type name) in
  set_disk buf (BLOCK_TO_LBA e 0 b) (block_sectors e) ;;;
  let! (ino, control) := ext2BlockAssign ino inodeNum control blockNum b in
  let ino := set_num_sectors (u32 (num_sectors ino + block_sectors e)) ino in
  let ino := set_i_size (u32 (i_size ino + blockSize e)) ino in
  ext2InodeModifyM inodeNum ino ;;;
  ret ino.

(** [name] is the [filenameLen] bytes at [filename]; the directory's inode is
    updated in place. *)
Definition ext2DirAllocate (junk : list Z) (inodeNum : Z) (parentDirInode : Ext2Inode)
    (name : list Z) (type inode : Z) : M fs (bool * Ext2Inode) :=
  let! e := gets ext2 in
  spin_acquire LOCK_DIRALLOC ;;;
  let! (r, control, blockNum) :=
    dir_alloc_blocks (Z.to_nat (blocksContained e parentDirInode)) e parentDirInode inodeNum
      (fresh_control junk) 0 name type inode in
  match r with
  | Some b => spin_release LOCK_DIRALLOC ;;; ret (b, parentDirInode)
  | None =>
      let! ino := dir_extend e inodeNum parentDirInode control blockNum name type inode in
      spin_release LOCK_DIRALLOC ;;;
      ret (true, ino)
  end.

Fixpoint dir_remove_blocks (n : nat) (e : Ext2) (ino : Ext2Inode) (inodeNum : Z)
    (control : Ext2LookupControl) (blockNum : Z) (name : list Z) (ret_ : bool) : M fs bool :=
  match n with
  | O => ret ret_
  | S n =>
      let! (block, control) := ext2BlockFetch ino inodeNum control blockNum in
      if block =? 0 then ret ret_
      else
        let! names := get_disk (BLOCK_TO_LBA e 0 block) (block_sectors e) in
        let! (names, hit) := lift (dir_remove (dir_fuel e) names name None 0 false) in
        (if (hit : bool) then set_disk names (BLOCK_TO_LBA e 0 block) (block_sectors e)
         else ret tt) ;;;
        dir_remove_blocks n e ino inodeNum control (blockNum + 1) name (ret_ || hit)
  end.

Definition ext2DirRemove (junk : list Z) (parentDirInode : Ext2Inode) (parentDirInodeNum : Z)
    (name : list Z) : M fs bool :=
  let! e := gets ext2 in
  spin_acquire LOCK_DIRALLOC ;;;
  let! r := dir_remove_blocks (Z.to_nat (blocksContained e parentDirInode)) e parentDirInode
              parentDirInodeNum (fresh_control junk) 0 name false in
  spin_release LOCK_DIRALLOC ;;;
  ret r.

(** ** The contents of a directory *)

(** The blocks of the directory [ino] hold the entry lists [ess]. *)
Record dir_contents (e : Ext2) (d : gmap Z Z) (ino : Ext2Inode) (ess : list (list dirent)) : Prop := {
  dc_map : map_ok e d ino;
  dc_count : blocksContained e ino = zlen ess;
  dc_max : zlen ess <= 12 + blockSize e / 4;
  dc_blocks : forall i es, ess !! i = Some es ->
    let b := block_at e d ino (Z.of_nat i) in
    b <> 0 /\ valid_block e b /\ block_bytes e d b = encode_dir es /\ Forall dirent_wf es;
}.

Lemma entries_fit es : 8 * zlen es <= zlen (encode_dir es).
Proof.
  induction es as [|e es IH]; [done|]. rewrite encode_dir_cons, zlen_app, zlen_encode_dirent.
  pose proof (de_size_pos e). unfold zlen in *. rewrite length_cons. lia.
Qed.

Lemma dir_fuel_enough e d b es :
  geometry e -> block_bytes e d b = encode_dir es -> (S (length es) < dir_fuel e)%nat.
Proof.
  intros G E. pose proof (zlen_block_bytes e G d b) as Hz. rewrite E in Hz.
  pose proof (entries_fit es). pose proof (geo_bs_min e G). unfold dir_fuel, zlen in *. lia.
Qed.

Lemma fresh_control_ok e d junk : control_ok e d (fresh_control junk).
Proof. split; by left. Qed.

Section search.
Context (e : Ext2) (G : geometry e) (d : gmap Z Z) (ino : Ext2Inode) (ess : list (list dirent)).
Context (D : dir_contents e d ino ess).
Context (inodeNum k : Z) (l : gmap ext2_lock Z) (h : heap).
Context (Hlk : l !! WLOCKS_BLOCK_BITMAP (INODE_TO_BLOCK_GROUP u32 e inodeNum) = Some k).
Context (Hk : 0 <= k).

(** The block behind index [i] of the directory, fetched. *)
Lemma fetch_dir_block c i es :
  control_ok e d c -> ess !! i = Some es ->
  exists c', ext2BlockFetch ino inodeNum c (Z.of_nat i) (mkFs d e l h) =
    Ok ((block_at e d ino (Z.of_nat i), c'), mkFs d e l h) /\ control_ok e d c'.
Proof.
  intros Hc Hi. destruct (items_bounds e G) as (_ & ? & _).
  apply lookup_lt_Some in Hi. pose proof (dc_max _ _ _ _ D) as Hm. unfold zlen in Hm.
  eapply ext2BlockFetch_ok; eauto; [apply (dc_map _ _ _ _ D)|]. nia.
Qed.

Lemma traverse_blocks_ok name : forall n i c,
  control_ok e d c -> (i + n = length ess)%nat ->
  traverse_blocks n e ino inodeNum c (Z.of_nat i) name (mkFs d e l h) =
    Ok (default 0 (lookup_entry (mjoin (drop i ess)) name), mkFs d e l h).
Proof.
  induction n as [|n IH]; intros i c Hc Hi; cbn [traverse_blocks].
  { rewrite drop_ge by lia. done. }
  destruct (lookup_lt_is_Some_2 ess i) as [es Hes]; [lia|].
  destruct (fetch_dir_block c i es Hc Hes) as (c' & E & Hc'). mrw E.
  destruct (dc_blocks _ _ _ _ D i es Hes) as (Hnz & Hv & Hb & Hwf).
  rewrite (proj2 (Z.eqb_neq _ 0) Hnz). mgo get_block_ok; [|done..]. rewrite Hb.
  pose proof (dir_fuel_enough e d _ es G Hb).
  rewrite dir_search_top by (done || lia). erewrite bind_ok by done.
  rewrite (drop_S ess es i Hes). cbn [mjoin list_join]. rewrite lookup_entry_app.
  destruct (lookup_entry es name); [done|].
  replace (Z.of_nat i + 1) with (Z.of_nat (S i)) by lia. apply IH; [done|lia].
Qed.

End search.

(** [ext2Traverse] finds the inode of the first live entry with the name. *)
Lemma ext2Traverse_ok e d l h n x ess junk name :
  volume e d -> inode_tables e -> locks_free e l -> valid_inode e n ->
  bgdts e !! Z.to_nat (inode_group e n) = Some x ->
  dir_contents e d (inode_at e d x n) ess ->
  ext2Traverse junk n name (mkFs d e l h) =
    Ok (default 0 (lookup_entry (mjoin ess) name), mkFs d e l h).
Proof.
  intros V T LF Hn Hx D. pose proof (vol_geo e d V) as G.
  pose proof (inode_write_group e d V n Hn) as Hg. pose proof (valid_inode_32 e d n V Hn) as H32.
  destruct LF as (_ & _ & _ & _ & _ & Hlb & Hli).
  unfold ext2Traverse. erewrite bind_ok by done. cbn [ext2].
  mgo ext2InodeFetch_ok; [|done|done|done|done|done|by apply Hli|done].
  rewrite (dc_count _ _ _ _ D), u32_small by (unfold valid_inode in Hn; lia).
  unfold zlen. rewrite Nat2Z.id.
  eapply (traverse_blocks_ok e G d _ ess D n 0) with (i := 0%nat); try done.
  - rewrite (assign_group e d V n Hn). by apply Hlb.
  - apply fresh_control_ok.
Qed.
