(* ===== verification/Ext2Create.v ===== *)
(** * ext2: creating files and directories ([ext2_create.c])

    [ext2Mkdir] and [ext2Touch]: the split of the path at its last slash, the
    checks on the parent, the fresh inode, and the new directory entries. *)

From S2P Require Import Prelude Bytes FileTypes Paths Spinlock Disk Ext2Types Ext2Base Ext2Push Ext2Counters.
From S2P Require Import Ext2Example Ext2Inode Ext2Block Ext2Lookup Ext2Assign DirBlock.
From S2P Require Import Ext2Dirs.

(** ** Definitions *)

(** The index of the last [/] of the path, 0 when there is none. *)
Definition last_slash (path : list Z) : Z :=
  foldl (fun acc i => if path !!! Z.to_nat i =? slash then i else acc) 0 (seqZ 0 (zlen path)).

(** What is stored through a [char **symlinkResolve] that holds [sym]. *)
Definition resolved (sym r : option (list Z)) : option (list Z) :=
  match r with Some t => Some t | None => sym end.

(** The parent of the path: its inode number (0 when it cannot be resolved) and
    the symbolic link met on the way. *)
Definition parent_inode (junk path : list Z) (sym : option (list Z))
    : M fs (Z * option (list Z)) :=
  let lastSlash := last_slash path in
  if 0 <? lastSlash then
    let! (inode, r) := ext2TraversePath junk (take (Z.to_nat lastSlash) path) EXT2_ROOT_INODE true in
    ret (inode, resolved sym r)
  else ret (2, sym).

(** [Ext2Inode newInode = {0}] with its permission, times and link count set. *)
Definition new_inode (perm time links : Z) : Ext2Inode :=
  mkInode (u16 perm) 0 0 (u32 time) (u32 time) (u32 time) 0 0 links 0 0 0
    (replicate 15 0) 0 0 0 0 (replicate 12 0).

(** [ext2DirAllocate] takes the length of the name as a [uint8_t]. *)
Definition as_filename (name : list Z) : list Z := take (Z.to_nat (u8 (zlen name))) name.

Definition dot : list Z := [46].
Definition dotdot : list Z := [46; 46].

(** The result is the [size_t] returned and what [*symlinkResolve] holds; [time] is
    [timerBootUnix + timerTicks / 1000]. *)
Definition ext2Mkdir (junk : list Z) (time : Z) (dirname : list Z) (mode : Z)
    (sym : option (list Z)) : M fs (Z * option (list Z)) :=
  let! e := gets ext2 in
  let! (inode, sym) := parent_inode junk dirname sym in
  if inode =? 0 then ret (ERR ENOENT, sym)
  else if zlen dirname =? 0 then fault
  else
    let name := drop (Z.to_nat (last_slash dirname + 1)) dirname in
    if zlen name =? 0 then ret (ERR EEXIST, sym)
    else
      let! inodeContents := ext2InodeFetch inode in
      if Z.land (permission inodeContents) S_IFDIR =? 0 then ret (ERR ENOTDIR, sym)
      else
        let! there := ext2Traverse junk inode name in
        if negb (there =? 0) then ret (ERR EEXIST, sym)
        else
          let newInode := new_inode (Z.lor S_IFDIR mode) time 2 in
          let group := INODE_TO_BLOCK_GROUP u32 e inode in
          let! newInodeNum := ext2InodeFind (s32 group) in
          ext2InodeModifyM newInodeNum newInode ;;;
          let! (_, newInode) := ext2DirAllocate junk newInodeNum newInode dot 2 newInodeNum in
          let! (_, newInode) := ext2DirAllocate junk newInodeNum newInode dotdot 2 inode in
          let! (_, inodeContents) :=
            ext2DirAllocate junk inode inodeContents (as_filename name) 2 newInodeNum in
          let inodeContents := set_hard_links (u16 (hard_links inodeContents + 1)) inodeContents in
          ext2InodeModifyM inode inodeContents ;;;
          ret (0, sym).

Definition ext2Touch (junk : list Z) (time : Z) (filename : list Z) (mode : Z)
    (sym : option (list Z)) : M fs (Z * option (list Z)) :=
  let! e := gets ext2 in
  let! (inode, sym) := parent_inode junk filename sym in
  if inode =? 0 then ret (ERR ENOENT, sym)
  else if zlen filename =? 0 then fault
  else
    let name := drop (Z.to_nat (last_slash filename + 1)) filename in
    if zlen name =? 0 then ret (ERR EISDIR, sym)
    else
      let! inodeContents := ext2InodeFetch inode in
      if Z.land (permission inodeContents) S_IFDIR =? 0 then ret (ERR ENOTDIR, sym)
      else
        let! there := ext2Traverse junk inode name in
        if negb (there =? 0) then ret (ERR EEXIST, sym)
        else
          let newInode := new_inode (Z.lor S_IFREG mode) time 1 in
          let group := INODE_TO_BLOCK_GROUP u32 e inode in
          let! newInodeNum := ext2InodeFind (s32 group) in
          ext2InodeModifyM newInodeNum newInode ;;;
          let! _ := ext2DirAllocate junk inode inodeContents (as_filename name) 1 newInodeNum in
          ret (0, sym).
