(* ===== verification/Ext2Cache.v ===== *)
(** * ext2: opened objects and their block caches ([ext2_caching.c])

    The doubly linked list of cached block runs of a file, the list of opened
    files in most-recently-used order, and the two operations on them. *)

From Stdlib Require Import Sorting.Sorted.
From S2P Require Import Prelude Bytes Spinlock Dll Disk Ext2Types Ext2Base.

(** ** Memory cells *)

(** Reading a structure through its address: [NULL] and freed cells fault. *)
Definition get_found (a : Z) : M fs Ext2FoundObject := fun s =>
  match h_found (mem s) !! a with Some o => Ok (o, s) | None => Fault end.
Definition get_cache (a : Z) : M fs Ext2CacheObject := fun s =>
  match h_cache (mem s) !! a with Some o => Ok (o, s) | None => Fault end.

Definition set_h_found (v : gmap Z Ext2FoundObject) (h : heap) : heap :=
  mkHeap v (h_cache h) (h_firstObject h) (h_brk h) (blocksCached h).
Definition set_h_cache (v : gmap Z Ext2CacheObject) (h : heap) : heap :=
  mkHeap (h_found h) v (h_firstObject h) (h_brk h) (blocksCached h).
Definition set_firstObject (v : Z) (h : heap) : heap :=
  mkHeap (h_found h) (h_cache h) v (h_brk h) (blocksCached h).
Definition set_blocksCached (v : Z) (h : heap) : heap :=
  mkHeap (h_found h) (h_cache h) (h_firstObject h) (h_brk h) v.

Definition put_found (a : Z) (o : Ext2FoundObject) : M fs unit :=
  let! _ := get_found a in
  modify (fun s => set_mem (set_h_found (<[a := o]> (h_found (mem s))) (mem s)) s).
Definition put_cache (a : Z) (o : Ext2CacheObject) : M fs unit :=
  let! _ := get_cache a in
  modify (fun s => set_mem (set_h_cache (<[a := o]> (h_cache (mem s))) (mem s)) s).
Definition free_cache (a : Z) : M fs unit :=
  let! _ := get_cache a in
  modify (fun s => set_mem (set_h_cache (delete a (h_cache (mem s))) (mem s)) s).

(** [calloc(sizeof(Ext2CacheObject), 1)], filled in with the fields given. *)
Definition alloc_cache (o : Ext2CacheObject) : M fs Z := fun s =>
  let h := mem s in
  Ok (h_brk h,
      set_mem (mkHeap (h_found h) (<[h_brk h := o]> (h_cache h)) (h_firstObject h)
                 (h_brk h + 1) (blocksCached h)) s).

(** [calloc(sizeof(Ext2FoundObject), 1)]: a zeroed object with free locks. *)
Definition alloc_found (o : Ext2FoundObject) : M fs Z := fun s =>
  let h := mem s in
  let a := h_brk h in
  Ok (a, set_locks (<[LOCK_PROP a := 0]> (<[WLOCK_FILE a := 0]> (<[WLOCK_CACHE a := 0]> (locks s))))
           (set_mem (mkHeap (<[a := o]> (h_found h)) (h_cache h) (h_firstObject h)
                       (a + 1) (blocksCached h)) s)).

Definition c_set_next (v : Z) (c : Ext2CacheObject) : Ext2CacheObject :=
  mkCache v (c_prev c) (c_blockIndex c) (c_buff c) (c_blocks c).
Definition c_set_prev (v : Z) (c : Ext2CacheObject) : Ext2CacheObject :=
  mkCache (c_next c) v (c_blockIndex c) (c_buff c) (c_blocks c).
Definition o_set_next (v : Z) (o : Ext2FoundObject) : Ext2FoundObject :=
  mkFound v (o_prev o) (o_inode o) (o_openFds o) (o_firstCacheObj o).
Definition o_set_prev (v : Z) (o : Ext2FoundObject) : Ext2FoundObject :=
  mkFound (o_next o) v (o_inode o) (o_openFds o) (o_firstCacheObj o).
Definition o_set_openFds (v : Z) (o : Ext2FoundObject) : Ext2FoundObject :=
  mkFound (o_next o) (o_prev o) (o_inode o) v (o_firstCacheObj o).
Definition o_set_firstCacheObj (v : Z) (o : Ext2FoundObject) : Ext2FoundObject :=
  mkFound (o_next o) (o_prev o) (o_inode o) (o_openFds o) v.

(** [p->f = v] for the pointer fields. *)
Definition upd_cache (a : Z) (f : Ext2CacheObject -> Ext2CacheObject) : M fs unit :=
  let! c := get_cache a in put_cache a (f c).
Definition upd_found (a : Z) (f : Ext2FoundObject -> Ext2FoundObject) : M fs unit :=
  let! o := get_found a in put_found a (f o).

(** A walk visits every live cell at most once unless the list is cyclic. *)
Definition cache_fuel (s : fs) : nat := S (size (h_cache (mem s))).
Definition found_fuel (s : fs) : nat := S (size (h_found (mem s))).

(** ** [ext2CacheAddSecurely] *)

(** [c->blockIndex >= blockIndex && c->blockIndex < (blockIndex + blocks)] *)
Definition in_run (c : Ext2CacheObject) (blockIndex blocks : Z) : bool :=
  (blockIndex <=? c_blockIndex c) && (c_blockIndex c <? u64 (blockIndex + blocks)).

(** The first loop: [cacheObj] and [lastCaught]. *)
Fixpoint cache_find (fuel : nat) (cacheObj lastCaught blockIndex blocks : Z) : M fs (Z * Z) :=
  match fuel with
  | O => hang
  | S fuel =>
      if cacheObj =? 0 then ret (0, lastCaught)
      else
        let! c := get_cache cacheObj in
        if in_run c blockIndex blocks then ret (cacheObj, lastCaught)
        else cache_find fuel (c_next c) cacheObj blockIndex blocks
  end.

(** The second loop: [browse] and [allAreSmaller]. *)
Fixpoint cache_place (fuel : nat) (browse : Z) (allAreSmaller : bool) (blockIndex : Z)
    : M fs (Z * bool) :=
  match fuel with
  | O => hang
  | S fuel =>
      if browse =? 0 then ret (0, allAreSmaller)
      else
        let! c := get_cache browse in
        if c_blockIndex c <? blockIndex then cache_place fuel (c_next c) true blockIndex
        else if c_blockIndex c =? blockIndex then halt
        else ret (c_prev c, allAreSmaller)
  end.

Definition cache_insert (global : Z) (lastCaught : Z) (buff : list Z) (blockIndex blocks : Z)
    : M fs unit :=
  let! g := get_found global in
  let! fuel := gets cache_fuel in
  let! (browse, allAreSmaller) := cache_place fuel (o_firstCacheObj g) false blockIndex in
  let! target := alloc_cache (mkCache 0 0 (u32 blockIndex) buff (u32 blocks)) in
  modify (fun s => set_mem (set_blocksCached (u64 (blocksCached (mem s) + blocks)) (mem s)) s) ;;;
  if o_firstCacheObj g =? 0 then
    upd_found global (o_set_firstCacheObj target)
  else if negb (browse =? 0) then
    let! b := get_cache browse in
    let next := c_next b in
    upd_cache browse (c_set_next target) ;;;
    upd_cache target (c_set_prev browse) ;;;
    upd_cache target (c_set_next next) ;;;
    (if negb (next =? 0) then upd_cache next (c_set_prev target) else ret tt)
  else if allAreSmaller && negb (lastCaught =? 0) then
    upd_cache lastCaught (c_set_next target) ;;;
    upd_cache target (c_set_prev lastCaught)
  else if negb allAreSmaller then
    upd_cache target (c_set_next (o_firstCacheObj g)) ;;;
    upd_found global (o_set_firstCacheObj target) ;;;
    upd_cache (o_firstCacheObj g) (c_set_prev target)
  else halt.

(** The body of the removal loop: the entry is taken out of the list and freed. *)
Definition cache_unlink (global browse : Z) (b : Ext2CacheObject) : M fs unit :=
  modify (fun s =>
    set_mem (set_blocksCached (u64 (blocksCached (mem s) - c_blocks b)) (mem s)) s) ;;;
  (if c_prev b =? 0 then
     upd_found global (o_set_firstCacheObj (c_next b)) ;;;
     if negb (c_next b =? 0) then upd_cache (c_next b) (c_set_prev 0) else ret tt
   else
     upd_cache (c_prev b) (c_set_next (c_next b)) ;;;
     if negb (c_next b =? 0) then upd_cache (c_next b) (c_set_prev (c_prev b)) else ret tt) ;;;
  free_cache browse.

(** The removal loop over the entries of the run. *)
Fixpoint cache_evict (fuel : nat) (global browse blockIndex blocks : Z) : M fs unit :=
  match fuel with
  | O => hang
  | S fuel =>
      if browse =? 0 then ret tt
      else
        let! b := get_cache browse in
        if negb (in_run b blockIndex blocks) then ret tt
        else
          cache_unlink global browse b ;;;
          cache_evict fuel global (c_next b) blockIndex blocks
  end.

(** The function calls itself after an eviction: [fuel] bounds those calls. *)
Fixpoint cache_add (fuel : nat) (global : Z) (buff : list Z) (blockIndex blocks : Z)
    : M fs unit :=
  match fuel with
  | O => hang
  | S fuel =>
      write_acquire (WLOCK_CACHE global) ;;;
      let! g := get_found global in
      let! n := gets cache_fuel in
      let! (cacheObj, lastCaught) :=
        cache_find n (o_firstCacheObj g) (o_firstCacheObj g) blockIndex blocks in
      if cacheObj =? 0 then
        cache_insert global lastCaught buff blockIndex blocks ;;;
        write_release (WLOCK_CACHE global)
      else
        cache_evict n global cacheObj blockIndex blocks ;;;
        write_release (WLOCK_CACHE global) ;;;
        cache_add fuel global buff blockIndex blocks
  end.

Definition ext2CacheAddSecurely (global : Z) (buff : list Z) (blockIndex blocks : Z) : M fs unit :=
  let! n := gets cache_fuel in
  cache_add n global buff blockIndex blocks.

(** ** [ext2CachePush] *)

Definition ext2CachePush (obj : Z) : M fs unit :=
  let! h := gets mem in
  if h_firstObject h =? obj then ret tt
  else
    spin_acquire LOCK_OBJECT ;;;
    let! o := get_found obj in
    let beforeFd := o_prev o in
    let afterFd := o_next o in
    upd_found obj (o_set_next (h_firstObject h)) ;;;
    upd_found obj (o_set_prev 0) ;;;
    (if negb (beforeFd =? 0) then upd_found beforeFd (o_set_next afterFd) else ret tt) ;;;
    (if negb (afterFd =? 0) then upd_found afterFd (o_set_prev beforeFd) else ret tt) ;;;
    modify (fun s => set_mem (set_firstObject obj (mem s)) s) ;;;
    let! o := get_found obj in
    (if negb (o_next o =? 0) then upd_found (o_next o) (o_set_prev obj) else ret tt) ;;;
    spin_release LOCK_OBJECT.

(** ** The cache of a file as a list of runs *)

(** A cached run: block index, buffer, number of blocks. *)
Definition run : Type := Z * list Z * Z.
Definition r_index (r : run) : Z := r.1.1.
Definition r_buff (r : run) : list Z := r.1.2.
Definition r_blocks (r : run) : Z := r.2.

Definition cache_cell (next prev : Z) (r : run) : Ext2CacheObject :=
  mkCache next prev (r_index r) (r_buff r) (r_blocks r).

(** The index of a run lies in [[blockIndex, blockIndex + blocks)]. *)
Definition run_hit (blockIndex blocks : Z) (x : Z * run) : bool :=
  (blockIndex <=? r_index x.2) && (r_index x.2 <? blockIndex + blocks).

(** The runs stay ordered by index, and every list holds a run at most once. *)
Definition run_lt (x y : Z * run) : Prop := r_index x.2 < r_index y.2.

(** [global] is an opened object whose cache is the list [l]. *)
Record cache_rep (h : heap) (global : Z) (l : list (Z * run)) : Prop := {
  cr_found : exists g, h_found h !! global = Some g /\ o_firstCacheObj g = head_addr l 0;
  cr_links : linked cache_cell (h_cache h) 0 l 0;
  cr_nodup : NoDup l.*1;
  cr_addrs : Forall (fun x => 0 < x.1 < h_brk h) l;
  cr_sorted : StronglySorted run_lt l;
  cr_brk : 0 < h_brk h;
}.

(** What an operation on the cache of [global] leaves alone: everything but that
    object's [firstCacheObj], the cells of the list [l] it had, fresh cells and the
    counter. *)
Record cache_frame (global : Z) (l : list (Z * run)) (h h' : heap) : Prop := {
  cf_found : forall a, a <> global -> h_found h' !! a = h_found h !! a;
  cf_self : forall g, h_found h !! global = Some g ->
    exists v, h_found h' !! global = Some (o_set_firstCacheObj v g);
  cf_cache : forall a, a ∉ l.*1 -> 0 < a < h_brk h -> h_cache h' !! a = h_cache h !! a;
  cf_first : h_firstObject h' = h_firstObject h;
  cf_brk : h_brk h <= h_brk h';
}.

Section cache_ops.
Context (d : gmap Z Z) (e : Ext2).

Lemma get_cache_ok l h a c :
  h_cache h !! a = Some c -> get_cache a (mkFs d e l h) = Ok (c, mkFs d e l h).
Proof. intros E. unfold get_cache. cbn. by rewrite E. Qed.

Lemma get_found_ok l h a o :
  h_found h !! a = Some o -> get_found a (mkFs d e l h) = Ok (o, mkFs d e l h).
Proof. intros E. unfold get_found. cbn. by rewrite E. Qed.

Lemma upd_cache_ok l h a c f :
  h_cache h !! a = Some c ->
  upd_cache a f (mkFs d e l h) =
    Ok (tt, mkFs d e l (set_h_cache (<[a := f c]> (h_cache h)) h)).
Proof.
  intros E. unfold upd_cache, put_cache. mgo get_cache_ok; [|done]. by mgo get_cache_ok.
Qed.

Lemma upd_found_ok l h a o f :
  h_found h !! a = Some o ->
  upd_found a f (mkFs d e l h) =
    Ok (tt, mkFs d e l (set_h_found (<[a := f o]> (h_found h)) h)).
Proof.
  intros E. unfold upd_found, put_found. mgo get_found_ok; [|done]. by mgo get_found_ok.
Qed.

Lemma free_cache_ok l h a c :
  h_cache h !! a = Some c ->
  free_cache a (mkFs d e l h) = Ok (tt, mkFs d e l (set_h_cache (delete a (h_cache h)) h)).
Proof. intros E. unfold free_cache. by mgo get_cache_ok. Qed.

Lemma in_run_hit next prev bi bl (x : Z * run) :
  0 <= bi -> 0 <= bl -> bi + bl < 2 ^ 64 ->
  in_run (cache_cell next prev x.2) bi bl = run_hit bi bl x.
Proof. intros. unfold in_run, run_hit. cbn. by rewrite u64_small by lia. Qed.

(** The first loop stops at the first run hit, or at the end of the list. *)
Lemma cache_find_ok lk h bi bl : 0 <= bi -> 0 <= bl -> bi + bl < 2 ^ 64 ->
  forall l1 l2 p lc fuel,
  linked cache_cell (h_cache h) p (l1 ++ l2) 0 -> Forall (fun x => 0 < x.1) (l1 ++ l2) ->
  Forall (fun x => run_hit bi bl x = false) l1 ->
  match l2 with [] => True | x :: _ => run_hit bi bl x = true end ->
  (length l1 < fuel)%nat ->
  cache_find fuel (head_addr (l1 ++ l2) 0) lc bi bl (mkFs d e lk h) =
    Ok ((head_addr l2 0, last_addr lc l1), mkFs d e lk h).
Proof.
  intros ??? l1. induction l1 as [|x l1 IH]; intros l2 p lc fuel HL Hpos Hno Hyes Hf.
  - destruct fuel; [cbn in Hf; lia|]. destruct l2 as [|x l2]; [done|]. cbn in *.
    destruct HL as [Hx _]. apply Forall_cons in Hpos as [Hx0 _].
    rewrite (proj2 (Z.eqb_neq x.1 0)) by lia.
    mgo get_cache_ok; [|exact Hx]. by rewrite in_run_hit, Hyes by done.
  - destruct fuel; [cbn in Hf; lia|]. cbn [app] in *.
    destruct HL as [Hx HL]. apply Forall_cons in Hpos as [Hx0 Hpos].
    apply Forall_cons in Hno as [Hx1 Hno]. cbn [cache_find head_addr last_addr].
    rewrite (proj2 (Z.eqb_neq x.1 0)) by lia.
    mgo get_cache_ok; [|exact Hx]. rewrite in_run_hit, Hx1 by done. cbn [c_next cache_cell].
    apply (IH l2 x.1); try done. cbn in Hf. lia.
Qed.

(** The second loop stops before the first run with a larger index. *)
Lemma cache_place_ok lk h bi : forall l1 l2 p b fuel,
  linked cache_cell (h_cache h) p (l1 ++ l2) 0 -> Forall (fun x => 0 < x.1) (l1 ++ l2) ->
  Forall (fun x => r_index x.2 < bi) l1 -> Forall (fun x => bi < r_index x.2) l2 ->
  (length l1 < fuel)%nat ->
  cache_place fuel (head_addr (l1 ++ l2) 0) b bi (mkFs d e lk h) =
    Ok ((match l2 with [] => 0 | _ => last_addr p l1 end,
         match l1 with [] => b | _ => true end), mkFs d e lk h).
Proof.
  intros l1. induction l1 as [|x l1 IH]; intros l2 p b fuel HL Hpos Hlt Hgt Hf.
  - destruct fuel; [cbn in Hf; lia|]. destruct l2 as [|x l2]; [done|]. cbn in *.
    destruct HL as [Hx _]. apply Forall_cons in Hpos as [Hx0 _].
    apply Forall_cons in Hgt as [Hg _].
    rewrite (proj2 (Z.eqb_neq x.1 0)) by lia.
    mgo get_cache_ok; [|exact Hx]. cbn [c_blockIndex c_prev cache_cell].
    rewrite (proj2 (Z.ltb_ge (r_index x.2) bi)), (proj2 (Z.eqb_neq (r_index x.2) bi)) by lia.
    done.
  - destruct fuel; [cbn in Hf; lia|]. cbn [app] in *.
    destruct HL as [Hx HL]. apply Forall_cons in Hpos as [Hx0 Hpos].
    apply Forall_cons in Hlt as [Hl Hlt]. cbn [cache_place head_addr last_addr].
    rewrite (proj2 (Z.eqb_neq x.1 0)) by lia.
    mgo get_cache_ok; [|exact Hx]. cbn [c_blockIndex c_next cache_cell].
    rewrite (proj2 (Z.ltb_lt (r_index x.2) bi)) by lia.
    rewrite (IH l2 x.1 true) by (done || cbn in Hf; lia). by destruct l1.
Qed.

Lemma sorted_insert l1 l2 (x : Z * run) :
  StronglySorted run_lt (l1 ++ l2) -> Forall (fun y => run_lt y x) l1 -> Forall (run_lt x) l2 ->
  StronglySorted run_lt (l1 ++ x :: l2).
Proof.
  intros HS H1 H2. induction l1 as [|y l1 IH]; cbn in *; [by constructor|].
  apply StronglySorted_inv in HS as [HS Hy]. apply Forall_cons in H1 as [Hyx H1].
  constructor; [by apply IH|]. apply Forall_app in Hy as [Hy1 Hy2].
  apply Forall_app. split; [done|]. by constructor.
Qed.

(** A heap in which [x] has been linked between [l1] and [l2]. *)
Lemma cache_rep_splice h h' global l1 l2 x :
  cache_rep h global (l1 ++ l2) -> x.1 = h_brk h -> h_brk h' = h_brk h + 1 ->
  Forall (fun y => run_lt y x) l1 -> Forall (run_lt x) l2 ->
  (exists g, h_found h' !! global = Some g /\ o_firstCacheObj g = head_addr l1 (x.1)) ->
  h_cache h' !! x.1 = Some (cache_cell (head_addr l2 0) (last_addr 0 l1) x.2) ->
  (forall l y, l1 = l ++ [y] ->
     h_cache h' !! y.1 = Some (cache_cell x.1 (last_addr 0 l) y.2)) ->
  (forall y l, l2 = y :: l ->
     h_cache h' !! y.1 = Some (cache_cell (head_addr l 0) x.1 y.2)) ->
  (forall b, b <> x.1 -> b <> last_addr 0 l1 -> b <> head_addr l2 0 ->
     h_cache h' !! b = h_cache h !! b) ->
  cache_rep h' global (l1 ++ x :: l2).
Proof.
  intros [_ HL HN HA HS HB] Hx Hbrk H1 H2 Hg Hc Hlast Hfirst Hsame.
  rewrite fmap_app in HN. pose proof HN as (HN1 & HN12 & HN2)%NoDup_app.
  apply Forall_app in HA as [HA1 HA2].
  assert (forall z, z ∈ (l1 ++ l2) -> z.1 <> x.1) as Hfresh.
  { intros z [Hz|Hz]%elem_of_app.
    - rewrite Forall_forall in HA1. specialize (HA1 z Hz); cbn in *; lia.
    - rewrite Forall_forall in HA2. specialize (HA2 z Hz); cbn in *; lia. }
  assert ((x.1 ∉ l1.*1) /\ (x.1 ∉ l2.*1)) as [Hx1 Hx2].
  { split; intros (z & Ez & Hz)%list_elem_of_fmap; apply (Hfresh z); auto;
      apply elem_of_app; auto. }
  apply linked_app in HL as [HL1 HL2].
  split.
  - destruct Hg as (g & Hg1 & Hg2). exists g. by rewrite head_addr_app.
  - rewrite linked_app. cbn [head_addr linked]. repeat split; [| |].
    + apply (linked_redirect_next _ _ _ _ _ _ _ HN1 HL1); [done|].
      intros b Hb Hbl. apply Hsame; [congruence|done|]. intros ->.
      destruct (decide (l2 = [])) as [->|Hne].
      * cbn in Hb. apply list_elem_of_fmap in Hb as (z & Ez & Hz).
        rewrite Forall_forall in HA1. specialize (HA1 z Hz); cbn in *; lia.
      * apply (HN12 _ Hb). by apply head_addr_in.
    + done.
    + apply (linked_redirect_prev _ _ _ _ _ _ _ HN2 HL2); [done|].
      intros b Hb Hbh. apply Hsame; [congruence| |done]. intros ->.
      destruct (decide (l1 = [])) as [->|Hne].
      * cbn in Hb. apply list_elem_of_fmap in Hb as (z & Ez & Hz).
        rewrite Forall_forall in HA2. specialize (HA2 z Hz); cbn in *; lia.
      * apply (HN12 (last_addr 0 l1)); [by apply last_addr_in|done].
  - rewrite fmap_app. cbn. apply NoDup_app. repeat split; [done| |by constructor].
    intros a Ha [->|Ha2]%elem_of_cons; [done|]. by apply (HN12 a).
  - rewrite Hbrk. apply Forall_app. split; [|constructor; [cbn; lia|]].
    + apply (Forall_impl _ _ _ HA1). cbn. lia.
    + apply (Forall_impl _ _ _ HA2). cbn. lia.
  - by apply sorted_insert.
  - lia.
Qed.

(** The heap after the allocation of the new cell. *)
Definition with_cell (h : heap) (r : run) : heap :=
  mkHeap (h_found h) (<[h_brk h := cache_cell 0 0 r]> (h_cache h)) (h_firstObject h)
    (h_brk h + 1) (u64 (blocksCached h + r_blocks r)).

Section insertion.
Context (lk : gmap ext2_lock Z) (h : heap) (global : Z) (g : Ext2FoundObject).
Context (bi blocks : Z) (buff : list Z) (l1 l2 : list (Z * run)).
Context (R : cache_rep h global (l1 ++ l2)).
Context (Hg : h_found h !! global = Some g).
Context (H1 : Forall (fun y => r_index y.2 < bi) l1) (H2 : Forall (fun y => bi < r_index y.2) l2).

Let new : Z * run := (h_brk h, (bi, buff, blocks)).

(** What insertion promises. *)
Definition inserted (h' : heap) : Prop :=
  cache_rep h' global (l1 ++ new :: l2) /\ cache_frame global (l1 ++ l2) h h' /\
  blocksCached h' = u64 (blocksCached h + blocks).

Lemma inserted_intro h' :
  h_brk h' = h_brk h + 1 -> h_firstObject h' = h_firstObject h ->
  blocksCached h' = u64 (blocksCached h + blocks) ->
  h_found h' = <[global := o_set_firstCacheObj (head_addr l1 new.1) g]> (h_found h) ->
  h_cache h' !! new.1 = Some (cache_cell (head_addr l2 0) (last_addr 0 l1) new.2) ->
  (forall l y, l1 = l ++ [y] ->
     h_cache h' !! y.1 = Some (cache_cell new.1 (last_addr 0 l) y.2)) ->
  (forall y l, l2 = y :: l ->
     h_cache h' !! y.1 = Some (cache_cell (head_addr l 0) new.1 y.2)) ->
  (forall b, b <> new.1 -> b <> last_addr 0 l1 -> b <> head_addr l2 0 ->
     h_cache h' !! b = h_cache h !! b) ->
  inserted h'.
Proof.
  intros Hbrk Hfirst Hbc Hfound Hc Hlast Hhead Hsame.
  assert (cache_rep h' global (l1 ++ new :: l2)) as R'.
  { apply (cache_rep_splice h); try done. rewrite Hfound, lookup_insert_eq. eauto. }
  split; [done|]. split; [|done]. split.
  - intros a Ha. by rewrite Hfound, lookup_insert_ne.
  - intros g'. rewrite Hg, Hfound, lookup_insert_eq. intros [= <-]. eauto.
  - intros a Ha Hab. rewrite fmap_app in Ha. apply not_elem_of_app in Ha as [Ha1 Ha2].
    apply Hsame; [cbn; lia| |]; intros ->.
    + destruct (decide (l1 = [])) as [->|]; [cbn in Hab; lia|].
      apply Ha1. by apply last_addr_in.
    + destruct (decide (l2 = [])) as [->|]; [cbn in Hab; lia|].
      apply Ha2. by apply head_addr_in.
  - done.
  - lia.
Qed.

Lemma list_addr_ne x : x ∈ (l1 ++ l2) -> x.1 <> h_brk h /\ x.1 <> 0.
Proof.
  intros Hx. pose proof (cr_addrs _ _ _ R) as HA. rewrite Forall_forall in HA.
  specialize (HA x Hx). cbn in HA. lia.
Qed.

Lemma found_same :
  l1 <> [] -> h_found h = <[global := o_set_firstCacheObj (head_addr l1 new.1) g]> (h_found h).
Proof.
  intros Hne. pose proof (cr_found _ _ _ R) as (g' & Hg' & Hhead).
  rewrite Hg in Hg'. injection Hg' as <-. rewrite insert_id; [done|]. rewrite Hg. f_equal.
  rewrite head_addr_app in Hhead. destruct g. cbn in *. by destruct l1; subst.
Qed.

Lemma insert_only :
  l1 = [] -> l2 = [] ->
  exists h', upd_found global (o_set_firstCacheObj (h_brk h))
      (mkFs d e lk (with_cell h new.2)) = Ok (tt, mkFs d e lk h') /\ inserted h'.
Proof.
  intros E1 E2. erewrite upd_found_ok by exact Hg. eexists. split; [done|].
  apply inserted_intro; try done; rewrite ?E1, ?E2; cbn; try done.
  - apply lookup_insert_eq.
  - by intros [].
  - intros b Hb _ _. by rewrite lookup_insert_ne.
Qed.

Lemma insert_front y l2' :
  l1 = [] -> l2 = y :: l2' ->
  exists h',
    (upd_cache (h_brk h) (c_set_next y.1) ;;;
     upd_found global (o_set_firstCacheObj (h_brk h)) ;;;
     upd_cache y.1 (c_set_prev (h_brk h))) (mkFs d e lk (with_cell h new.2)) =
      Ok (tt, mkFs d e lk h') /\ inserted h'.
Proof.
  intros E1 E2. destruct (list_addr_ne y) as [Hy1 Hy2]; [rewrite E1, E2; left|].
  pose proof (cr_links _ _ _ R) as HL. rewrite E1, E2 in HL. destruct HL as [HL _].
  mgo upd_cache_ok; [|apply lookup_insert_eq]. mgo upd_found_ok; [|exact Hg].
  erewrite upd_cache_ok by (cbn; rewrite !lookup_insert_ne by congruence; exact HL).
  eexists. split; [done|]. apply inserted_intro; try done; rewrite ?E1, ?E2; cbn.
  - done.
  - by rewrite lookup_insert_ne, lookup_insert_eq.
  - by intros [].
  - intros ? ? [= <- <-]. apply lookup_insert_eq.
  - intros b ?? ?. by rewrite !lookup_insert_ne by congruence.
Qed.

Lemma insert_back l x :
  l1 = l ++ [x] -> l2 = [] ->
  exists h',
    (upd_cache x.1 (c_set_next (h_brk h)) ;;; upd_cache (h_brk h) (c_set_prev x.1))
      (mkFs d e lk (with_cell h new.2)) = Ok (tt, mkFs d e lk h') /\ inserted h'.
Proof.
  intros E1 E2. destruct (list_addr_ne x) as [Hx1 Hx2].
  { rewrite E1, E2, app_nil_r. apply elem_of_app. right. left. }
  pose proof (cr_links _ _ _ R) as HL. rewrite E1, E2, app_nil_r in HL.
  apply linked_lookup in HL.
  mgo upd_cache_ok; [|cbn; rewrite lookup_insert_ne by congruence; exact HL].
  erewrite upd_cache_ok by (cbn; rewrite lookup_insert_ne, lookup_insert_eq by congruence; done).
  eexists. split; [done|]. apply inserted_intro; try done; rewrite ?E1, ?E2; cbn.
  - rewrite <- E1. apply found_same. rewrite E1. by destruct l.
  - rewrite last_addr_app. apply lookup_insert_eq.
  - intros ? ? [<- [= <-]]%app_inj_tail. by rewrite lookup_insert_ne, lookup_insert_eq by congruence.
  - done.
  - intros b ???. rewrite last_addr_app in *. cbn in *. by rewrite !lookup_insert_ne by congruence.
Qed.

Lemma insert_mid l x y l2' :
  l1 = l ++ [x] -> l2 = y :: l2' ->
  exists h',
    (let! b := get_cache x.1 in
     let next := c_next b in
     upd_cache x.1 (c_set_next (h_brk h)) ;;;
     upd_cache (h_brk h) (c_set_prev x.1) ;;;
     upd_cache (h_brk h) (c_set_next next) ;;;
     (if negb (next =? 0) then upd_cache next (c_set_prev (h_brk h)) else ret tt))
      (mkFs d e lk (with_cell h new.2)) = Ok (tt, mkFs d e lk h') /\ inserted h'.
Proof.
  intros E1 E2.
  destruct (list_addr_ne x) as [Hx1 Hx2].
  { rewrite E1. apply elem_of_app. left. apply elem_of_app. right. left. }
  destruct (list_addr_ne y) as [Hy1 Hy2].
  { rewrite E2. apply elem_of_app. right. left. }
  pose proof (cr_links _ _ _ R) as HL. pose proof (cr_nodup _ _ _ R) as HN.
  rewrite E1, E2 in HL, HN.
  assert (x.1 <> y.1) as Hxy.
  { rewrite fmap_app in HN. apply NoDup_app in HN as (_ & HN & _). intros Exy.
    apply (HN x.1); [rewrite fmap_app; apply elem_of_app; right; left|]. rewrite Exy. left. }
  pose proof (linked_lookup _ _ _ _ _ _ _ HL) as HLy. rewrite <- app_assoc in HL.
  apply linked_lookup in HL. cbn [app head_addr] in HL.
  mgo get_cache_ok; [|cbn; rewrite lookup_insert_ne by congruence; exact HL].
  cbn [c_next cache_cell]. rewrite (proj2 (Z.eqb_neq _ _) Hy2). cbn [negb].
  mgo upd_cache_ok; [|cbn; rewrite lookup_insert_ne by congruence; exact HL].
  mgo upd_cache_ok; [|cbn; rewrite lookup_insert_ne, lookup_insert_eq by congruence; done].
  mgo upd_cache_ok; [|cbn; rewrite lookup_insert_eq by congruence; done].
  erewrite upd_cache_ok by (cbn; rewrite !lookup_insert_ne by congruence; exact HLy).
  eexists. split; [done|]. apply inserted_intro; try done; rewrite ?E1, ?E2; cbn.
  - rewrite <- E1. apply found_same. rewrite E1. by destruct l.
  - rewrite last_addr_app. by rewrite lookup_insert_ne, lookup_insert_eq by congruence.
  - intros ? ? [<- [= <-]]%app_inj_tail.
    by rewrite !lookup_insert_ne, lookup_insert_eq by congruence.
  - intros ? ? [= <- <-]. rewrite lookup_insert_eq. done.
  - intros b ???. rewrite last_addr_app in *. cbn in *. by rewrite !lookup_insert_ne by congruence.
Qed.

(** The new run goes between the last smaller and the first larger one. *)
Lemma cache_insert_ok :
  0 <= bi < 2 ^ 32 -> 0 <= blocks < 2 ^ 32 ->
  exists h',
    cache_insert global (last_addr (head_addr (l1 ++ l2) 0) (l1 ++ l2)) buff bi blocks
      (mkFs d e lk h) = Ok (tt, mkFs d e lk h') /\ inserted h'.
Proof.
  intros Hbi Hbl. pose proof R as [(g' & Hg' & Hhead) HL HN HA HS HB].
  rewrite Hg in Hg'. injection Hg' as <-.
  unfold cache_insert. mgo get_found_ok; [|exact Hg]. erewrite bind_ok by done.
  rewrite Hhead. pose proof (linked_size _ _ _ _ _ HN HL) as Hsz.
  assert (Forall (fun x => 0 < x.1) (l1 ++ l2)) as Hpos.
  { apply (Forall_impl _ _ _ HA). cbn. lia. }
  rewrite length_app in Hsz.
  mgo cache_place_ok; [|exact HL|done|done|done|unfold cache_fuel; cbn; lia].
  rewrite !u32_small by lia. erewrite bind_ok by done. erewrite bind_ok by done.
  set (s1 := set_mem _ _). change s1 with (mkFs d e lk (with_cell h (bi, buff, blocks))).
  clear s1. cbn beta iota.
  destruct (decide (l1 = [])) as [E1|N1]; destruct (decide (l2 = [])) as [E2|N2].
  - rewrite E1, E2. by apply insert_only.
  - assert (exists y l2', l2 = y :: l2') as (y & l2' & E2) by (destruct l2; eauto; done).
    destruct (list_addr_ne y) as [_ Hy]; [rewrite E1, E2; left|].
    rewrite E1, E2. cbn [app head_addr last_addr]. rewrite (proj2 (Z.eqb_neq _ _) Hy). cbn [andb].
    by eapply insert_front.
  - assert (exists x l1', l1 = x :: l1') as (x & l1' & E1) by (destruct l1; eauto; done).
    destruct (list_addr_ne x) as [_ Hx]; [rewrite E1; left|].
    destruct (last_split 0 l1 N1) as (l & z & Ez & Hz).
    destruct (list_addr_ne z) as [_ Hz0]; 
      [rewrite Ez; apply elem_of_app; left; apply elem_of_app; right; left|].
    rewrite E2, app_nil_r. replace (head_addr l1 0) with x.1 by (by rewrite E1).
    rewrite (proj2 (Z.eqb_neq _ _) Hx), Z.eqb_refl. cbn [negb].
    rewrite (last_addr_ne x.1 0 l1 N1), Hz, E1, (proj2 (Z.eqb_neq _ _) Hz0). cbn [andb negb].
    by eapply insert_back.
  - assert (exists x l1', l1 = x :: l1') as (x & l1' & E1) by (destruct l1; eauto; done).
    assert (exists y l2', l2 = y :: l2') as (y & l2' & E2) by (destruct l2; eauto; done).
    destruct (list_addr_ne x) as [_ Hx]; [rewrite E1; left|].
    destruct (last_split 0 l1 N1) as (l & z & Ez & Hz).
    destruct (list_addr_ne z) as [_ Hz0]; 
      [rewrite Ez; apply elem_of_app; left; apply elem_of_app; right; left|].
    replace (head_addr (l1 ++ l2) 0) with x.1 by (by rewrite E1).
    rewrite Hz, (proj2 (Z.eqb_neq _ _) Hx). 
    replace (match l2 with [] => 0 | _ => z.1 end) with z.1 by (by rewrite E2).
    rewrite (proj2 (Z.eqb_neq _ _) Hz0). cbn [negb].
    by eapply insert_mid.
Qed.

End insertion.

Lemma cache_frame_refl global l h : cache_frame global l h h.
Proof.
  split; try done. intros g Hg. exists (o_firstCacheObj g). rewrite Hg. by destruct g.
Qed.

Lemma cache_frame_trans global l l' h1 h2 h3 :
  (forall a, a ∈ l'.*1 -> a ∈ l.*1 \/ h_brk h1 <= a) ->
  cache_frame global l h1 h2 -> cache_frame global l' h2 h3 -> cache_frame global l h1 h3.
Proof.
  intros Hsub F1 F2. split.
  - intros a Ha. by rewrite (cf_found _ _ _ _ F2), (cf_found _ _ _ _ F1).
  - intros g Hg. destruct (cf_self _ _ _ _ F1 g Hg) as (v & Hv).
    destruct (cf_self _ _ _ _ F2 _ Hv) as (w & Hw). by exists w.
  - intros a Ha Hb. pose proof (cf_brk _ _ _ _ F1).
    rewrite (cf_cache _ _ _ _ F2), (cf_cache _ _ _ _ F1); [done|done|lia| |lia].
    intros Ha'. destruct (Hsub a Ha'); [done|lia].
  - rewrite (cf_first _ _ _ _ F2). apply (cf_first _ _ _ _ F1).
  - pose proof (cf_brk _ _ _ _ F1). pose proof (cf_brk _ _ _ _ F2). lia.
Qed.

Lemma sorted_remove l1 (x : Z * run) l2 :
  StronglySorted run_lt (l1 ++ x :: l2) -> StronglySorted run_lt (l1 ++ l2).
Proof.
  induction l1 as [|y l1 IH]; cbn; intros [HS Hy]%StronglySorted_inv; [done|].
  constructor; [by apply IH|]. apply Forall_app in Hy as [? [? ?]%Forall_cons].
  by apply Forall_app.
Qed.

Section eviction.
Context (lk : gmap ext2_lock Z) (h : heap) (global : Z) (g : Ext2FoundObject).
Context (l1 l2 : list (Z * run)) (x : Z * run).
Context (R : cache_rep h global (l1 ++ x :: l2)).
Context (Hg : h_found h !! global = Some g).

Definition evicted (h' : heap) : Prop :=
  cache_rep h' global (l1 ++ l2) /\ cache_frame global (l1 ++ x :: l2) h h' /\
  blocksCached h' = u64 (blocksCached h - r_blocks x.2).

Lemma evicted_intro h' :
  h_brk h' = h_brk h -> h_firstObject h' = h_firstObject h ->
  blocksCached h' = u64 (blocksCached h - r_blocks x.2) ->
  h_found h' = <[global := o_set_firstCacheObj (head_addr (l1 ++ l2) 0) g]> (h_found h) ->
  (forall l y, l1 = l ++ [y] ->
     h_cache h' !! y.1 = Some (cache_cell (head_addr l2 0) (last_addr 0 l) y.2)) ->
  (forall y l, l2 = y :: l ->
     h_cache h' !! y.1 = Some (cache_cell (head_addr l 0) (last_addr 0 l1) y.2)) ->
  (forall b, b <> x.1 -> b <> last_addr 0 l1 -> b <> head_addr l2 0 ->
     h_cache h' !! b = h_cache h !! b) ->
  evicted h'.
Proof.
  intros Hbrk Hfirst Hbc Hfound Hlast Hhead Hsame.
  pose proof R as [_ HL HN HA HS HB].
  rewrite fmap_app in HN. cbn in HN. apply NoDup_app in HN as (HN1 & HN12 & HN2).
  apply NoDup_cons in HN2 as [Hx2 HN2].
  apply Forall_app in HA as [HA1 [HAx HA2]%Forall_cons].
  apply linked_app in HL as [HL1 [HLx HL2]].
  assert (0 ∉ l1.*1) as Z1.
  { intros (z & Ez & Hz)%list_elem_of_fmap. rewrite Forall_forall in HA1.
    specialize (HA1 z Hz). cbn in HA1. lia. }
  assert (0 ∉ l2.*1) as Z2.
  { intros (z & Ez & Hz)%list_elem_of_fmap. rewrite Forall_forall in HA2.
    specialize (HA2 z Hz). cbn in HA2. lia. }
  split; [|split; [|done]]; split.
  - rewrite Hfound, lookup_insert_eq. eauto.
  - rewrite linked_app. split.
    + apply (linked_redirect_next _ _ _ _ _ _ _ HN1 HL1); [done|].
      intros b Hb Hbl. apply Hsame; [|done|].
      * intros ->. apply (HN12 _ Hb). left.
      * intros ->. destruct (decide (l2 = [])) as [->|Hne]; [done|].
        apply (HN12 _ Hb). right. by apply head_addr_in.
    + apply (linked_redirect_prev _ _ _ _ _ _ _ HN2 HL2); [done|].
      intros b Hb Hbh. apply Hsame; [congruence| |done]. intros ->.
      destruct (decide (l1 = [])) as [->|Hne]; [done|].
      apply (HN12 (last_addr 0 l1)); [by apply last_addr_in|by right].
  - rewrite fmap_app. apply NoDup_app. split; [done|]. split; [|done].
    intros a Ha Ha2. apply (HN12 a Ha). by right.
  - rewrite Hbrk. by apply Forall_app.
  - by eapply sorted_remove.
  - lia.
  - intros a Ha. by rewrite Hfound, lookup_insert_ne.
  - intros g'. rewrite Hg, Hfound, lookup_insert_eq. intros [= <-]. eauto.
  - rewrite fmap_app. cbn. intros a Ha Hab.
    apply not_elem_of_app in Ha as [Ha1 [Hax Ha2]%not_elem_of_cons].
    apply Hsame; [done| |]; intros ->.
    + destruct (decide (l1 = [])) as [->|]; [cbn in Hab; lia|].
      apply Ha1. by apply last_addr_in.
    + destruct (decide (l2 = [])) as [->|]; [cbn in Hab; lia|].
      apply Ha2. by apply head_addr_in.
  - done.
  - lia.
Qed.

Lemma evict_addr_ne z : z ∈ (l1 ++ x :: l2) -> z.1 <> 0.
Proof.
  intros Hz. pose proof (cr_addrs _ _ _ R) as HA. rewrite Forall_forall in HA.
  specialize (HA z Hz). cbn in HA. lia.
Qed.

(** Rewriting the successor of the entry removed. *)
Lemma evict_next h1 p :
  h_cache h1 !! x.1 = Some (cache_cell (head_addr l2 0) (last_addr 0 l1) x.2) ->
  (forall y l, l2 = y :: l -> h_cache h1 !! y.1 = h_cache h !! y.1) ->
  exists h2, (if negb (head_addr l2 0 =? 0) then upd_cache (head_addr l2 0) (c_set_prev p)
              else ret tt) (mkFs d e lk h1) = Ok (tt, mkFs d e lk h2) /\
    h_brk h2 = h_brk h1 /\ h_firstObject h2 = h_firstObject h1 /\ h_found h2 = h_found h1 /\
    blocksCached h2 = blocksCached h1 /\
    (forall y l, l2 = y :: l -> h_cache h2 !! y.1 = Some (cache_cell (head_addr l 0) p y.2)) /\
    (forall b, b <> head_addr l2 0 -> h_cache h2 !! b = h_cache h1 !! b).
Proof.
  intros Hx Hy.
  assert (l2 = [] \/ exists y l, l2 = y :: l) as [El2|(y & l & El2)] by (destruct l2; eauto);
    rewrite El2; cbn [head_addr].
  - exists h1. cbn. repeat split; try done.
  - assert (y.1 <> 0) as Hy0.
    { apply evict_addr_ne. rewrite El2. apply elem_of_app. right. right. left. }
    rewrite (proj2 (Z.eqb_neq _ _) Hy0). cbn [negb].
    pose proof (cr_links _ _ _ R) as HL. rewrite El2 in HL.
    replace (l1 ++ x :: y :: l) with ((l1 ++ [x]) ++ y :: l) in HL by by rewrite <- app_assoc.
    apply linked_lookup in HL.
    erewrite upd_cache_ok by (rewrite (Hy _ _ El2); exact HL). eexists. split; [done|].
    cbn. repeat split; [|].
    + intros ? ? [= <- <-]. apply lookup_insert_eq.
    + intros b Hb. by apply lookup_insert_ne.
Qed.

Lemma evict_distinct :
  (forall y l, l2 = y :: l -> y.1 <> x.1) /\ x.1 <> head_addr l2 0 /\
  (forall l z, l1 = l ++ [z] -> z.1 <> 0 /\ z.1 <> x.1 /\ z.1 <> head_addr l2 0).
Proof.
  pose proof (cr_nodup _ _ _ R) as HN.
  rewrite fmap_app in HN. cbn in HN. apply NoDup_app in HN as (HN1 & HN12 & HN2).
  apply NoDup_cons in HN2 as [Hx2 HN2]. repeat split.
  - intros y l -> Ey. apply Hx2. rewrite <- Ey. left.
  - destruct (decide (l2 = [])) as [E2|Hne].
    + rewrite E2. apply evict_addr_ne. apply elem_of_app. right. left.
    + intros E. apply Hx2. rewrite E. by apply head_addr_in.
  - apply evict_addr_ne. rewrite H. apply elem_of_app. left. apply elem_of_app. right. left.
  - intros E. apply (HN12 z.1); [|rewrite E; left].
    rewrite H, fmap_app. apply elem_of_app. right. left.
  - intros E. destruct (decide (l2 = [])) as [E2|Hne].
    + rewrite E2 in E. revert E. apply evict_addr_ne. rewrite H. apply elem_of_app. left.
      apply elem_of_app. right. left.
    + apply (HN12 z.1); [|right; rewrite E; by apply head_addr_in].
      rewrite H, fmap_app. apply elem_of_app. right. left.
Qed.

(** The store after the counter was adjusted. *)
Let h0 : heap := set_blocksCached (u64 (blocksCached h - r_blocks x.2)) h.

Lemma unlink_front :
  l1 = [] ->
  exists h',
    ((upd_found global (o_set_firstCacheObj (head_addr l2 0)) ;;;
      if negb (head_addr l2 0 =? 0) then upd_cache (head_addr l2 0) (c_set_prev 0) else ret tt) ;;;
     free_cache x.1) (mkFs d e lk h0) = Ok (tt, mkFs d e lk h') /\ evicted h'.
Proof.
  intros E1. destruct evict_distinct as (Hyx & Hxh & _).
  pose proof (linked_lookup _ _ _ _ _ _ _ (cr_links _ _ _ R)) as HLx.
  destruct (evict_next (set_h_found (<[global := o_set_firstCacheObj (head_addr l2 0) g]>
    (h_found h0)) h0) 0) as (h2 & Eh2 & Hb2 & Hf2 & Hfo2 & Hbc2 & Hy2 & Hs2); [done|done|].
  erewrite bind_ok; [|mgo (upd_found_ok lk h0 global g); [exact Eh2|exact Hg]].
  erewrite free_cache_ok by (rewrite Hs2 by done; exact HLx).
  eexists. split; [done|]. apply evicted_intro; cbn; [exact Hb2|exact Hf2|exact Hbc2|..].
  - rewrite Hfo2, E1. done.
  - rewrite E1. by intros [].
  - intros y l El. rewrite lookup_delete_ne by (specialize (Hyx y l El); congruence).
    rewrite E1. by eapply Hy2.
  - intros b ???. by rewrite lookup_delete_ne, Hs2 by congruence.
Qed.

Lemma unlink_mid l z :
  l1 = l ++ [z] ->
  exists h',
    ((upd_cache z.1 (c_set_next (head_addr l2 0)) ;;;
      if negb (head_addr l2 0 =? 0) then upd_cache (head_addr l2 0) (c_set_prev z.1) else ret tt) ;;;
     free_cache x.1) (mkFs d e lk h0) = Ok (tt, mkFs d e lk h') /\ evicted h'.
Proof.
  intros E1. destruct evict_distinct as (Hyx & Hxh & Hz).
  destruct (Hz l z E1) as (Hz0 & Hzx & Hzh).
  pose proof (cr_links _ _ _ R) as HL. pose proof (linked_lookup _ _ _ _ _ _ _ HL) as HLx.
  rewrite E1, <- app_assoc in HL. apply linked_lookup in HL. cbn [app head_addr] in HL.
  assert (last_addr 0 l1 = z.1) as Hla by (by rewrite E1, last_addr_app).
  destruct (evict_next (set_h_cache (<[z.1 := cache_cell (head_addr l2 0) (last_addr 0 l) z.2]>
    (h_cache h0)) h0) z.1) as (h2 & Eh2 & Hb2 & Hf2 & Hfo2 & Hbc2 & Hy2 & Hs2).
  { cbn. by rewrite lookup_insert_ne. }
  { intros y l' El. cbn. apply lookup_insert_ne. by rewrite El in Hzh. }
  erewrite bind_ok; [|mgo (upd_cache_ok lk h0 (z.1) _ (c_set_next (head_addr l2 0)) HL); exact Eh2].
  erewrite free_cache_ok by (rewrite Hs2 by done; cbn; rewrite lookup_insert_ne by done; exact HLx).
  eexists. split; [done|]. apply evicted_intro; cbn; [exact Hb2|exact Hf2|exact Hbc2|..].
  - rewrite Hfo2. cbn. pose proof (cr_found _ _ _ R) as (g' & Hg' & Hhead).
    rewrite Hg in Hg'. injection Hg' as <-. rewrite insert_id; [done|]. rewrite Hg. f_equal.
    rewrite head_addr_app in *. destruct g. cbn in *. rewrite Hhead, E1. by destruct l.
  - intros l' y El. rewrite E1 in El. apply app_inj_tail in El as [<- <-].
    rewrite lookup_delete_ne, Hs2 by congruence. apply lookup_insert_eq.
  - intros y l' El. rewrite lookup_delete_ne by (specialize (Hyx y l' El); congruence).
    rewrite Hla. by eapply Hy2.
  - intros b ???. rewrite lookup_delete_ne, Hs2 by congruence. cbn.
    rewrite lookup_insert_ne; congruence.
Qed.

Lemma cache_unlink_ok :
  exists h', cache_unlink global x.1 (cache_cell (head_addr l2 0) (last_addr 0 l1) x.2)
    (mkFs d e lk h) = Ok (tt, mkFs d e lk h') /\ evicted h'.
Proof.
  unfold cache_unlink. erewrite bind_ok by done. cbn [c_prev c_next c_blocks cache_cell mem].
  fold h0. change (set_mem h0 _) with (mkFs d e lk h0).
  destruct (decide (l1 = [])) as [E1|Hne].
  - rewrite E1. cbn [last_addr]. rewrite Z.eqb_refl. by apply unlink_front.
  - destruct (last_split 0 l1 Hne) as (l & z & E1 & Hla). rewrite Hla.
    destruct evict_distinct as (_ & _ & Hz). destruct (Hz l z E1) as (Hz0 & _).
    rewrite (proj2 (Z.eqb_neq _ _) Hz0). by eapply unlink_mid.
Qed.

End eviction.

(** The runs evicted leave the list and are taken off the counter. *)
Definition uncount (b : Z) (run_ : list (Z * run)) : Z :=
  foldl (fun b x => u64 (b - r_blocks x.2)) b run_.

Lemma cache_evict_ok lk bi bl : 0 <= bi -> 0 <= bl -> bi + bl < 2 ^ 64 ->
  forall run_ h global l1 rest fuel,
  cache_rep h global (l1 ++ run_ ++ rest) ->
  Forall (fun x => run_hit bi bl x = true) run_ ->
  match rest with [] => True | x :: _ => run_hit bi bl x = false end ->
  (length run_ < fuel)%nat ->
  exists h', cache_evict fuel global (head_addr (run_ ++ rest) 0) bi bl (mkFs d e lk h) =
      Ok (tt, mkFs d e lk h') /\
    cache_rep h' global (l1 ++ rest) /\ cache_frame global (l1 ++ run_ ++ rest) h h' /\
    blocksCached h' = uncount (blocksCached h) run_.
Proof.
  intros ??? run_. induction run_ as [|x run_ IH]; intros h global l1 rest fuel R Hy Hno Hf.
  - destruct fuel; [cbn in Hf; lia|]. exists h. cbn [app uncount foldl]. split.
    + destruct rest as [|y rest]; [done|]. cbn [cache_evict head_addr app].
      pose proof (cr_addrs _ _ _ R) as [_ [Hy0 _]%Forall_cons]%Forall_app. cbn in Hy0.
      rewrite (proj2 (Z.eqb_neq y.1 0)) by lia.
      mgo get_cache_ok; [|apply (linked_lookup _ _ _ _ _ _ _ (cr_links _ _ _ R))].
      by rewrite in_run_hit, Hno by done.
    + split; [done|]. split; [apply cache_frame_refl|done].
  - destruct fuel; [cbn in Hf; lia|]. apply Forall_cons in Hy as [Hx Hy].
    cbn [app] in *. pose proof (cr_found _ _ _ R) as (g & Hg & _).
    destruct (cache_unlink_ok lk h global g l1 (run_ ++ rest) x R Hg)
      as (h1 & E1 & R1 & F1 & B1).
    destruct (IH h1 global l1 rest fuel R1 Hy Hno) as (h2 & E2 & R2 & F2 & B2);
      [cbn in Hf; lia|].
    exists h2. cbn [cache_evict head_addr].
    pose proof (cr_addrs _ _ _ R) as [_ [Hx0 _]%Forall_cons]%Forall_app. cbn in Hx0.
    rewrite (proj2 (Z.eqb_neq x.1 0)) by lia. split.
    + mgo get_cache_ok; [|apply (linked_lookup _ _ _ _ _ _ _ (cr_links _ _ _ R))].
      rewrite in_run_hit, Hx by done. cbn [negb]. mrw E1. exact E2.
    + split; [done|]. split; [|by rewrite B2, B1].
      eapply cache_frame_trans; [|exact F1|exact F2]. intros a Ha. left.
      rewrite fmap_app in *. cbn. apply elem_of_app in Ha as [Ha|Ha]; apply elem_of_app;
        [by left|right; by right].
Qed.

Lemma filter_none {A} (P : A -> Prop) `{forall x, Decision (P x)} l :
  Forall (fun x => ~ P x) l -> filter P l = [].
Proof. induction 1 as [|x l Hx _ IH]; [done|]. by rewrite filter_cons, decide_False. Qed.

Lemma run_hit_spec bi bl x :
  run_hit bi bl x = true <-> bi <= r_index x.2 < bi + bl.
Proof. unfold run_hit. rewrite andb_true_iff, Z.leb_le, Z.ltb_lt. done. Qed.

(** The runs before, inside and behind the range of a new run. *)
Definition before (bi : Z) (l : list (Z * run)) : list (Z * run) :=
  filter (fun x => r_index x.2 < bi) l.
Definition inside (bi bl : Z) (l : list (Z * run)) : list (Z * run) :=
  filter (fun x => bi <= r_index x.2 < bi + bl) l.
Definition behind (bi bl : Z) (l : list (Z * run)) : list (Z * run) :=
  filter (fun x => bi + bl <= r_index x.2) l.

Lemma runs_split bi bl l :
  StronglySorted run_lt l -> 0 <= bl ->
  l = before bi l ++ inside bi bl l ++ behind bi bl l.
Proof.
  intros HS Hbl. induction l as [|x l IH]; [done|].
  apply StronglySorted_inv in HS as [HS Hx]. specialize (IH HS).
  unfold before, inside, behind in *. rewrite !filter_cons.
  destruct (decide (r_index x.2 < bi)) as [Hlt|Hge].
  { rewrite !decide_False by lia. cbn [app]. by f_equal. }
  assert (filter (fun y : Z * run => r_index y.2 < bi) l = []) as E1.
  { apply filter_none. apply (Forall_impl _ _ _ Hx). unfold run_lt. intros; lia. }
  rewrite E1 in *. cbn [app] in *. destruct (decide (r_index x.2 < bi + bl)) as [Hin|Hout].
  - rewrite decide_True, decide_False by lia. cbn [app]. by f_equal.
  - rewrite decide_False, decide_True by lia.
    assert (filter (fun y : Z * run => bi <= r_index y.2 < bi + bl) l = []) as E2.
    { apply filter_none. apply (Forall_impl _ _ _ Hx). unfold run_lt. intros; lia. }
    rewrite E2 in *. cbn [app] in *. by f_equal.
Qed.

Lemma behind_miss bi bl l :
  0 <= bl -> match behind bi bl l with [] => True | x :: _ => run_hit bi bl x = false end.
Proof.
  intros Hbl. destruct (behind bi bl l) as [|x l'] eqn:E; [done|].
  assert (x ∈ behind bi bl l) as Hx by (rewrite E; left).
  apply list_elem_of_filter in Hx as [Hx _]. unfold run_hit. apply andb_false_iff. right.
  apply Z.ltb_ge. lia.
Qed.

(** One pass over a cache without runs inside the new one. *)
Lemma cache_add_clean lk h global l buff bi bl fuel :
  cache_rep h global l -> lk !! WLOCK_CACHE global = Some 0 ->
  0 <= bi < 2 ^ 32 -> 0 < bl < 2 ^ 32 -> inside bi bl l = [] ->
  exists h', cache_add (S fuel) global buff bi bl (mkFs d e lk h) = Ok (tt, mkFs d e lk h') /\
    cache_rep h' global (before bi l ++ (h_brk h, (bi, buff, bl)) :: behind bi bl l) /\
    cache_frame global l h h' /\ blocksCached h' = u64 (blocksCached h + bl).
Proof.
  intros R Hlk Hbi Hbl Hin. pose proof (runs_split bi bl l (cr_sorted _ _ _ R)) as El.
  rewrite Hin in El. cbn [app] in El. specialize (El ltac:(lia)).
  pose proof (cr_found _ _ _ R) as (g & Hg & Hhead).
  assert (Forall (fun x => 0 < x.1) l) as Hpos.
  { apply (Forall_impl _ _ _ (cr_addrs _ _ _ R)). cbn. lia. }
  pose proof (linked_size _ _ _ _ _ (cr_nodup _ _ _ R) (cr_links _ _ _ R)) as Hsz.
  cbn [cache_add]. mgo write_acquire_ok; [|done]. mgo get_found_ok; [|exact Hg].
  erewrite bind_ok by done. rewrite Hhead.
  assert (cache_find (cache_fuel (mkFs d e (<[WLOCK_CACHE global := -1]> lk) h)) (head_addr l 0)
    (head_addr l 0) bi bl (mkFs d e (<[WLOCK_CACHE global := -1]> lk) h) =
    Ok ((0, last_addr (head_addr l 0) l), mkFs d e (<[WLOCK_CACHE global := -1]> lk) h)) as EF.
  { pose proof (cache_find_ok (<[WLOCK_CACHE global := -1]> lk) h bi bl ltac:(lia) ltac:(lia)
      ltac:(lia) l [] 0 (head_addr l 0)) as EF. rewrite app_nil_r in EF. apply EF; try done.
    - apply (cr_links _ _ _ R).
    - rewrite El. apply Forall_app. split; apply Forall_forall; intros x Hx;
        apply list_elem_of_filter in Hx as [Hx _]; apply not_true_iff_false;
        rewrite run_hit_spec; lia.
    - unfold cache_fuel. cbn. lia. }
  mrw EF. cbn [Z.eqb]. clear EF. pose proof R as R'. rewrite El in R'.
  destruct (cache_insert_ok (<[WLOCK_CACHE global := -1]> lk) h global g bi bl buff
    (before bi l) (behind bi bl l) R' Hg) as (h' & E & Rn & F & B); [..|done|lia|].
  1-2: apply Forall_forall; intros x Hx; apply list_elem_of_filter in Hx as [Hx _]; lia.
  rewrite <- El in E, F. exists h'. mrw E. split; [by apply write_release_ok|done].
Qed.

Lemma filter_again {A} (P Q : A -> Prop) `{forall x, Decision (P x)} `{forall x, Decision (Q x)}
    (l : list A) :
  (forall x, P x -> Q x) -> filter Q (filter P l) = filter P l.
Proof.
  intros HPQ. induction l as [|x l IH]; [done|]. rewrite filter_cons.
  destruct (decide (P x)) as [HP|]; [|done]. rewrite filter_cons, decide_True, IH by auto. done.
Qed.

(** Splitting again what is left changes nothing. *)
Lemma runs_stable bi bl l :
  0 <= bl ->
  before bi (before bi l ++ behind bi bl l) = before bi l /\
  inside bi bl (before bi l ++ behind bi bl l) = [] /\
  behind bi bl (before bi l ++ behind bi bl l) = behind bi bl l.
Proof.
  intros Hbl. unfold before, inside, behind. rewrite !filter_app.
  rewrite (filter_again (fun x : Z * run => r_index x.2 < bi) (fun x => r_index x.2 < bi)) by done.
  rewrite (filter_again (fun x : Z * run => bi + bl <= r_index x.2)
             (fun x => bi + bl <= r_index x.2)) by done.
  assert (forall (P Q : Z * run -> Prop) `{forall x, Decision (P x)} `{forall x, Decision (Q x)},
    (forall x, P x -> ~ Q x) -> filter Q (filter P l) = []) as Hoff.
  { intros P Q ?? HPQ. apply filter_none, Forall_forall.
    intros x Hx. apply list_elem_of_filter in Hx as [Hx _]. auto. }
  rewrite !Hoff by (intros; lia). by rewrite app_nil_r.
Qed.

(** A pass that finds runs inside the new one evicts them and starts over. *)
Lemma cache_add_again lk h h1 global l buff bi bl fuel :
  cache_rep h global l -> lk !! WLOCK_CACHE global = Some 0 ->
  0 <= bi < 2 ^ 32 -> 0 < bl < 2 ^ 32 -> inside bi bl l <> [] ->
  cache_evict (S (size (h_cache h))) global (head_addr (inside bi bl l ++ behind bi bl l) 0) bi bl
    (mkFs d e (<[WLOCK_CACHE global := -1]> lk) h) =
    Ok (tt, mkFs d e (<[WLOCK_CACHE global := -1]> lk) h1) ->
  cache_add (S fuel) global buff bi bl (mkFs d e lk h) =
    cache_add fuel global buff bi bl (mkFs d e lk h1).
Proof.
  intros R Hlk Hbi Hbl Hin EV.
  pose proof (runs_split bi bl l (cr_sorted _ _ _ R) ltac:(lia)) as El.
  pose proof (cr_found _ _ _ R) as (g & Hg & Hhead).
  assert (Forall (fun x => 0 < x.1) l) as Hpos.
  { apply (Forall_impl _ _ _ (cr_addrs _ _ _ R)). cbn. lia. }
  pose proof (linked_size _ _ _ _ _ (cr_nodup _ _ _ R) (cr_links _ _ _ R)) as Hsz.
  pose proof (f_equal length El) as Hlen. rewrite !length_app in Hlen.
  cbn [cache_add]. mgo write_acquire_ok; [|done]. mgo get_found_ok; [|exact Hg].
  erewrite bind_ok by done. rewrite Hhead.
  pose proof (cr_links _ _ _ R) as HL. rewrite El in HL, Hpos.
  replace (head_addr l 0) with (head_addr (before bi l ++ inside bi bl l ++ behind bi bl l) 0)
    by (by rewrite <- El).
  assert (exists x r, inside bi bl l = x :: r) as (x & r & Ex) by (destruct (inside bi bl l); eauto; done).
  assert (x ∈ inside bi bl l) as Hx by (rewrite Ex; left).
  assert (x.1 <> 0) as Hx0.
  { rewrite Ex in Hpos. apply Forall_app in Hpos as [_ [Hx0 _]%Forall_cons]. cbn in Hx0. lia. }
  apply list_elem_of_filter in Hx as [Hx _].
  mgo cache_find_ok; [|lia..|exact HL|exact Hpos| | |unfold cache_fuel; cbn; lia].
  - assert (head_addr (inside bi bl l ++ behind bi bl l) 0 <> 0) as Hnz by (by rewrite Ex).
    rewrite (proj2 (Z.eqb_neq _ _) Hnz). mrw EV. by mgo write_release_ok.
  - apply Forall_forall. intros y Hy. apply list_elem_of_filter in Hy as [Hy _].
    apply not_true_iff_false. rewrite run_hit_spec. lia.
  - rewrite Ex. cbn [app]. by apply run_hit_spec.
Qed.

(** [ext2CacheAddSecurely] replaces every run that starts inside the new one, and
    keeps the rest of the list in order. *)
Lemma ext2CacheAddSecurely_ok lk h global l buff bi bl :
  cache_rep h global l -> lk !! WLOCK_CACHE global = Some 0 ->
  0 <= bi < 2 ^ 32 -> 0 < bl < 2 ^ 32 ->
  exists a h', ext2CacheAddSecurely global buff bi bl (mkFs d e lk h) =
      Ok (tt, mkFs d e lk h') /\
    cache_rep h' global (before bi l ++ (a, (bi, buff, bl)) :: behind bi bl l) /\
    cache_frame global l h h' /\ h_brk h <= a /\
    blocksCached h' = u64 (uncount (blocksCached h) (inside bi bl l) + bl).
Proof.
  intros R Hlk Hbi Hbl. unfold ext2CacheAddSecurely. erewrite bind_ok by done.
  unfold cache_fuel at 1. cbn [mem].
  destruct (decide (inside bi bl l = [])) as [Hin|Hin].
  { destruct (cache_add_clean lk h global l buff bi bl (size (h_cache h)) R Hlk Hbi Hbl Hin)
      as (h' & E & R' & F & B). rewrite Hin. exists (h_brk h), h'. auto 10 with lia. }
  pose proof (runs_split bi bl l (cr_sorted _ _ _ R) ltac:(lia)) as El.
  pose proof (linked_size _ _ _ _ _ (cr_nodup _ _ _ R) (cr_links _ _ _ R)) as Hsz.
  pose proof (f_equal length El) as Hlen. rewrite !length_app in Hlen.
  pose proof R as R'. rewrite El in R'.
  assert (Forall (fun x => run_hit bi bl x = true) (inside bi bl l)) as Hhit.
  { apply Forall_forall. intros x Hx. apply list_elem_of_filter in Hx as [Hx _].
    by apply run_hit_spec. }
  destruct (cache_evict_ok (<[WLOCK_CACHE global := -1]> lk) bi bl ltac:(lia) ltac:(lia)
    ltac:(lia) (inside bi bl l) h global (before bi l) (behind bi bl l)
    (S (size (h_cache h))) R' Hhit (behind_miss bi bl l ltac:(lia)))
    as (h1 & E1 & R1 & F1 & B1); [lia|].
  destruct (size (h_cache h)) as [|fuel] eqn:Esz.
  { destruct (inside bi bl l); [done|]. cbn in Hlen. lia. }
  destruct (cache_add_clean lk h1 global (before bi l ++ behind bi bl l) buff bi bl fuel
    R1 Hlk Hbi Hbl) as (h2 & E2 & R2 & F2 & B2).
  { apply runs_stable. lia. }
  destruct (runs_stable bi bl l) as (S1 & _ & S2); [lia|]. rewrite S1, S2 in R2.
  exists (h_brk h1), h2. pose proof (cf_brk _ _ _ _ F1).
  split; [|split; [done|split; [|split; [done|by rewrite B2, B1]]]].
  - rewrite <- Esz in E1.
    rewrite (cache_add_again lk h h1 global l buff bi bl (S fuel) R Hlk Hbi Hbl Hin E1). exact E2.
  - rewrite El at 1. eapply cache_frame_trans; [|exact F1|exact F2].
    intros a Ha. left. rewrite !fmap_app, !elem_of_app in *. tauto.
Qed.

End cache_ops.

(** ** The opened objects, most recently used first *)

(** Inode number, count of descriptors, first cached run. *)
Definition object : Type := Z * Z * Z.
Definition found_cell (next prev : Z) (o : object) : Ext2FoundObject :=
  mkFound next prev o.1.1 o.1.2 o.2.

Record objects_rep (h : heap) (l : list (Z * object)) : Prop := {
  or_first : h_firstObject h = head_addr l 0;
  or_links : linked found_cell (h_found h) 0 l 0;
  or_nodup : NoDup l.*1;
  or_nonzero : 0 ∉ l.*1;
}.

Section push.
Context (d : gmap Z Z) (e : Ext2) (lk : gmap ext2_lock Z).

(** [if (p) p->prev = q;] with [p] the first of [l2]. *)
Lemma upd_head_prev m first h l1 l2 p q nxt :
  h_found h = m -> linked found_cell m p l2 nxt ->
  linked found_cell m first l1 (head_addr l2 nxt) ->
  NoDup (l1 ++ l2).*1 -> 0 ∉ l2.*1 ->
  exists m', (if negb (head_addr l2 0 =? 0) then upd_found (head_addr l2 0) (o_set_prev q)
              else ret tt) (mkFs d e lk h) = Ok (tt, mkFs d e lk (set_h_found m' h)) /\
    linked found_cell m' q l2 nxt /\ linked found_cell m' first l1 (head_addr l2 nxt) /\
    (forall a, a ∉ l2.*1 -> m' !! a = m !! a).
Proof.
  intros Hm L2 L1 HN H0. rewrite fmap_app in HN. apply NoDup_app in HN as (HN1 & HN12 & HN2).
  destruct l2 as [|y l2]; cbn [head_addr].
  - exists m. rewrite Z.eqb_refl. cbn. subst m. split; [by destruct h|done].
  - assert (y.1 <> 0) as Hy. { intros E. apply H0. rewrite <- E. left. }
    rewrite (proj2 (Z.eqb_neq _ _) Hy). cbn [negb].
    pose proof L2 as [Ly _]. rewrite <- Hm in Ly. erewrite upd_found_ok by exact Ly.
    eexists. split; [done|]. rewrite Hm. repeat split.
    + by apply linked_set_prev with (p' := q) in L2 as [].
    + by apply linked_set_prev with (p' := q) in L2 as [].
    + apply linked_insert; [|done]. intros Ha. apply (HN12 _ Ha). left.
    + intros a Ha. apply lookup_insert_ne. intros <-. apply Ha. left.
Qed.

Lemma ext2CachePush_ok h l1 x l2 :
  objects_rep h (l1 ++ x :: l2) -> lk !! LOCK_OBJECT = Some 0 ->
  exists h', ext2CachePush x.1 (mkFs d e lk h) = Ok (tt, mkFs d e lk h') /\
    objects_rep h' (x :: l1 ++ l2) /\ h_cache h' = h_cache h /\ h_brk h' = h_brk h /\
    blocksCached h' = blocksCached h.
Proof.
  intros [Hf HL HN H0] Hlk. unfold ext2CachePush. erewrite bind_ok by done. cbn [mem].
  rewrite Hf, head_addr_app. cbn [head_addr].
  destruct (decide (l1 = [])) as [->|Hne].
  { cbn [head_addr]. rewrite Z.eqb_refl. exists h. done. }
  destruct (last_split 0 l1 Hne) as (l & z & E1 & Hla).
  rewrite fmap_app in HN. cbn in HN. pose proof HN as (HN1 & HN12 & HNx)%NoDup_app.
  apply NoDup_cons in HNx as [Hx2 HN2].
  rewrite fmap_app in H0. cbn in H0. apply not_elem_of_app in H0 as [H01 [H0x H02]%not_elem_of_cons].
  assert (x.1 ∉ l1.*1) as Hx1. { intros Hx. apply (HN12 _ Hx). left. }
  assert (z.1 ∈ l1.*1) as Hz1. { rewrite E1, fmap_app. apply elem_of_app. right. left. }
  assert (z.1 <> 0) as Hz0 by congruence. assert (z.1 <> x.1) as Hzx by congruence.
  assert (NoDup (l1 ++ l2).*1) as HN'.
  { rewrite fmap_app. apply NoDup_app. split; [done|]. split; [|done].
    intros a Ha Ha2. apply (HN12 a Ha). by right. }
  pose proof (linked_lookup _ _ _ _ _ _ _ HL) as HLx.
  apply linked_app in HL as [HL1 [_ HL2]]. rewrite Hla in HLx.
  assert (head_addr l1 x.1 ∈ l1.*1) as Hh1 by (by apply head_addr_in).
  rewrite (proj2 (Z.eqb_neq (head_addr l1 x.1) x.1)) by congruence.
  mgo spin_acquire_ok; [|done]. mgo get_found_ok; [|exact HLx]. cbn [o_prev o_next found_cell].
  mgo upd_found_ok; [|exact HLx]. mgo upd_found_ok; [|apply lookup_insert_eq].
  rewrite (proj2 (Z.eqb_neq _ _) Hz0). cbn [negb h_found set_h_found h_cache h_brk blocksCached].
  rewrite insert_insert_eq.
  set (m1 := <[x.1 := _]> (h_found h)).
  assert (linked found_cell m1 0 l1 x.1) as L1 by (by apply linked_insert).
  assert (linked found_cell m1 x.1 l2 0) as L2 by (by apply linked_insert).
  assert (m1 !! x.1 = Some (found_cell (head_addr l1 x.1) 0 x.2)) as Lx by apply lookup_insert_eq.
  clearbody m1. rewrite E1 in L1, HN1.
  mgo upd_found_ok; [|apply (linked_lookup _ _ _ _ _ _ _ L1)]. cbn [h_found set_h_found].
  set (m2 := <[z.1 := _]> m1).
  assert (linked found_cell m2 0 l1 (head_addr l2 0)) as L1'.
  { rewrite E1. by apply (linked_set_next found_cell m1 0 z l x.1 (head_addr l2 0)). }
  assert (linked found_cell m2 x.1 l2 0) as L2'.
  { apply linked_insert; [|done]. intros Ha. apply (HN12 _ Hz1). by right. }
  assert (m2 !! x.1 = Some (found_cell (head_addr l1 x.1) 0 x.2)) as Lx'.
  { subst m2. by rewrite lookup_insert_ne. }
  clearbody m2. rewrite <- E1 in HN1.
  match goal with |- context [mkFs d e lk (set_h_found m2 ?hh)] =>
    change (set_h_found m2 hh) with (set_h_found m2 h) end.
  destruct (upd_head_prev m2 0 (set_h_found m2 h) l1 l2 x.1 z.1 0 eq_refl L2' L1' HN' H02)
    as (m3 & E3 & L23 & L13 & S3). mrw E3.
  erewrite bind_ok by done. mgo get_found_ok; [|cbn; rewrite S3 by done; exact Lx'].
  cbn [o_next found_cell]. rewrite (head_addr_ne l1 x.1 0 Hne).
  set (h3 := set_firstObject _ _). change (set_mem h3 _) with (mkFs d e lk h3).
  destruct (upd_head_prev m3 0 h3 [] l1 0 x.1 (head_addr l2 0) eq_refl L13 I HN1 H01)
    as (m4 & E4 & L14 & _ & S4).
  erewrite bind_ok by exact E4. erewrite spin_release_ok by done. eexists. split; [done|].
  split; [|done]. split.
  - done.
  - cbn [linked]. split; [|apply linked_app; split; [done|]].
    + cbn. rewrite S4, S3, Lx' by done. by rewrite head_addr_app, (head_addr_ne l1 _ (head_addr l2 0)).
    + rewrite (last_addr_ne _ 0), Hla by done. apply (linked_frame _ m3); [|done].
      intros a Ha. apply S4. intros Ha1. apply (HN12 a Ha1). by right.
  - cbn. apply NoDup_cons. split; [|done]. rewrite fmap_app. by apply not_elem_of_app.
  - cbn. apply not_elem_of_cons. split; [done|]. rewrite fmap_app. by apply not_elem_of_app.
Qed.

End push.
