(* ===== verification/Ext2Files.v ===== *)
(** * ext2: opened files ([ext2_controller.c])

    The file handlers: opening, reading through the block cache, writing,
    seeking, [stat], [readlink], closing and duplicating. The contents of memory
    that [virtual_allocate] hands out are the parameter [vmem], and the word that
    lies after the array of [ext2BlockChain] is the parameter [oob]. *)

From S2P Require Import Prelude Bytes FileTypes Spinlock Disk Ext2Types Ext2Base Ext2Push Ext2Counters.
From S2P Require Import Ext2Example Ext2Inode Ext2Block Ext2Lookup Ext2Assign DirBlock.
From S2P Require Import Ext2Dirs Ext2Create Ext2Cache.

Definition BLOCK_SIZE : Z := 4096.

(** [#define COMBINE_64(higher, lower)] *)
Definition COMBINE_64 (higher lower : Z) : Z := Z.lor (Z.shiftl higher 32) lower.

(** [Ext2OpenFd]: what [fd->dir] points to. *)
Record Ext2OpenFd := mkFd {
  f_lookup : Ext2LookupControl;
  f_globalObject : Z;
  f_ptr : Z;
  f_inodeNum : Z;
  f_inode : Ext2Inode;
}.

Definition fd_set_lookup (v : Ext2LookupControl) (f : Ext2OpenFd) : Ext2OpenFd :=
  mkFd v (f_globalObject f) (f_ptr f) (f_inodeNum f) (f_inode f).
Definition fd_set_ptr (v : Z) (f : Ext2OpenFd) : Ext2OpenFd :=
  mkFd (f_lookup f) (f_globalObject f) v (f_inodeNum f) (f_inode f).
Definition fd_set_inode (v : Ext2Inode) (f : Ext2OpenFd) : Ext2OpenFd :=
  mkFd (f_lookup f) (f_globalObject f) (f_ptr f) (f_inodeNum f) v.

(** The fields of an [OpenFile] the handlers use. *)
Record OpenFile := mkOpenFile {
  of_flags : Z;
  of_dir : Ext2OpenFd;
  of_dirname : option (list Z);
}.

Definition ext2GetFilesize (fd : Ext2OpenFd) : Z :=
  COMBINE_64 (size_high (f_inode fd)) (i_size (f_inode fd)).

(** The search of the opened objects for an inode, from address [browse] on. *)
Fixpoint find_object (fuel : nat) (browse inode : Z) : M fs Z :=
  match fuel with
  | O => hang
  | S fuel =>
      if browse =? 0 then ret 0
      else
        let! o := get_found browse in
        if o_inode o =? inode then ret browse else find_object fuel (o_next o) inode
  end.

Definition ext2GlobalFetch (inode : Z) : M fs Z :=
  spin_acquire LOCK_OBJECT ;;;
  let! h := gets mem in
  let! n := gets found_fuel in
  let! browse := find_object n (h_firstObject h) inode in
  spin_release LOCK_OBJECT ;;;
  ret browse.

(** ** Opening *)

(** A fresh object at the head of the list of opened objects. *)
Definition new_object (inode : Z) : M fs Z :=
  let! targetObject := alloc_found (mkFound 0 0 0 0 0) in
  spin_acquire LOCK_OBJECT ;;;
  let! h := gets mem in
  upd_found targetObject (fun _ => mkFound (h_firstObject h) 0 inode 0 0) ;;;
  modify (fun s => set_mem (set_firstObject targetObject (mem s)) s) ;;;
  (if negb (h_firstObject h =? 0) then upd_found (h_firstObject h) (o_set_prev targetObject)
   else ret tt) ;;;
  spin_release LOCK_OBJECT ;;;
  ret targetObject.

(** From the inode on: the checks on its type, the truncation, the object. *)
Definition open_inode (junk filename : list Z) (flags inode : Z)
    : M fs (Z * option (Ext2OpenFd * option (list Z))) :=
  let! inodeFetched := ext2InodeFetch inode in
  if has_flag flags O_DIRECTORY && (Z.land (permission inodeFetched) S_IFDIR =? 0) then
    read_release WLOCK_GLOBAL_NOFD ;;; ret (ERR ENOTDIR, None)
  else
    let! inodeFetched :=
      if has_flag flags O_TRUNC then
        let t := set_num_sectors 0 (set_size_high 0 (set_i_size 0 inodeFetched)) in
        ext2InodeModifyM inode t ;;; ret t
      else ret inodeFetched in
    let! targetObject := ext2GlobalFetch inode in
    let! targetObject :=
      if targetObject =? 0 then new_object inode else ret targetObject in
    spin_acquire (LOCK_PROP targetObject) ;;;
    upd_found targetObject (fun o => o_set_openFds (u32 (o_openFds o + 1)) o) ;;;
    spin_release (LOCK_PROP targetObject) ;;;
    let dir := mkFd (fresh_control junk) targetObject 0 inode inodeFetched in
    let dirname :=
      if Z.land (permission inodeFetched) 0xF000 =? EXT2_S_IFDIR then Some filename else None in
    read_release WLOCK_GLOBAL_NOFD ;;;
    ret (0, Some (dir, dirname)).

(** The [size_t] returned, [*symlinkResolve], and on success [fd->dir] with the
    directory name. *)
Definition ext2Open (junk : list Z) (time : Z) (filename : list Z) (flags mode : Z)
    (sym : option (list Z))
    : M fs (Z * option (list Z) * option (Ext2OpenFd * option (list Z))) :=
  read_acquire WLOCK_GLOBAL_NOFD ;;;
  let! (inode, r) := ext2TraversePath junk filename EXT2_ROOT_INODE true in
  let sym := resolved sym r in
  if (inode =? 0) && (match sym with Some _ => true | None => false end) then
    read_release WLOCK_GLOBAL_NOFD ;;;
    ret (if has_flag flags O_NOFOLLOW then ERR ELOOP else ERR ENOENT, sym, None)
  else if negb (inode =? 0) && has_flag flags O_EXCL && has_flag flags O_CREAT then
    read_release WLOCK_GLOBAL_NOFD ;;; ret (ERR EEXIST, sym, None)
  else if inode =? 0 then
    if has_flag flags O_CREAT then
      read_release WLOCK_GLOBAL_NOFD ;;;
      write_acquire WLOCK_GLOBAL_NOFD ;;;
      let! (inode, r) := ext2TraversePath junk filename EXT2_ROOT_INODE true in
      let sym := resolved sym r in
      let! (touch, inode, sym) :=
        if inode =? 0 then
          let! (touch, sym) := ext2Touch junk time filename mode sym in
          if RET_IS_ERR touch then ret (touch, inode, sym)
          else
            let! (inode, r) := ext2TraversePath junk filename EXT2_ROOT_INODE true in
            ret (touch, inode, resolved sym r)
        else ret (0, inode, sym) in
      write_release WLOCK_GLOBAL_NOFD ;;;
      read_acquire WLOCK_GLOBAL_NOFD ;;;
      if RET_IS_ERR touch then read_release WLOCK_GLOBAL_NOFD ;;; ret (touch, sym, None)
      else
        let! (v, o) := open_inode junk filename flags inode in ret (v, sym, o)
    else read_release WLOCK_GLOBAL_NOFD ;;; ret (ERR ENOENT, sym, None)
  else
    let! (v, o) := open_inode junk filename flags inode in ret (v, sym, o).

(** ** Reading *)

Section memory.
Context (vmem : Z -> list Z) (oob : Z).

(** [blocks[i]] for an array of the chain, with the word behind its end. *)
Definition chain_at (blocks : list Z) (i : Z) : Z := default oob (blocks !! Z.to_nat i).

(** [get_disk_bytes(&tmp[off], lba, n)] *)
Definition read_into (tmp : list Z) (off lba n : Z) : M fs (list Z) :=
  let! bs := get_disk lba n in from_option_fault (store off bs tmp).

(** The loop of [ext2ReadInner] from index [i]: runs of consecutive blocks are
    fetched with one transfer. *)
Fixpoint read_runs (n : nat) (i : Z) (e : Ext2) (blocks : list Z) (blocksRequired : Z)
    (tmp : list Z) (currBlock consecStart : Z) : M fs (list Z) :=
  match n with
  | O => ret tmp
  | S n =>
      let b := chain_at blocks i in
      if b =? 0 then ret tmp
      else
        let last := i =? u64 (blocksRequired - 1) in
        let next := chain_at blocks (i + 1) =? u32 (b + 1) in
        if consecStart <? 0 then
          if negb last && next then
            read_runs n (i + 1) e blocks blocksRequired tmp currBlock i
          else
            let! tmp := read_into tmp (currBlock * blockSize e) (BLOCK_TO_LBA e 0 b)
                          (block_sectors e) in
            read_runs n (i + 1) e blocks blocksRequired tmp (currBlock + 1) (-1)
        else if last || negb next then
          let needed := i - consecStart + 1 in
          let! tmp := read_into tmp (currBlock * blockSize e)
                        (BLOCK_TO_LBA e 0 (chain_at blocks consecStart))
                        (needed * blockSize e / SECTOR_SIZE) in
          read_runs n (i + 1) e blocks blocksRequired tmp (currBlock + needed) (-1)
        else read_runs n (i + 1) e blocks blocksRequired tmp currBlock consecStart
  end.

Definition ext2ReadInner (dir : Ext2OpenFd) (limit : Z) : M fs (list Z * Ext2OpenFd) :=
  let! e := gets ext2 in
  let blocksRequired := CEILING_DIVISION limit (blockSize e) in
  let! (blocks, lookup) :=
    ext2BlockChain (f_inode dir) (f_inodeNum dir) (f_lookup dir) (f_ptr dir / blockSize e)
      blocksRequired in
  let tmpSize := CEILING_DIVISION (u64 ((blocksRequired + 1) * blockSize e)) BLOCK_SIZE in
  let! tmp := read_runs (Z.to_nat (blocksRequired + 1)) 0 e blocks blocksRequired
                (vmem (tmpSize * BLOCK_SIZE)) 0 (-1) in
  let offsetStarting := u32 (f_ptr dir mod blockSize e) in
  let headtoCopy := Z.min (blockSize e - offsetStarting) limit in
  let! head := from_option_fault (load offsetStarting headtoCopy tmp) in
  let! tail :=
    if headtoCopy <? limit
    then from_option_fault (load (blockSize e) (limit - headtoCopy) tmp)
    else ret [] in
  ext2CacheAddSecurely (f_globalObject dir) tmp (f_ptr dir / blockSize e) blocksRequired ;;;
  ret (head ++ tail, fd_set_ptr (u64 (f_ptr dir + limit)) (fd_set_lookup lookup dir)).

(** The first loop of [ext2Read]. *)
Fixpoint read_start (fuel : nat) (cacheObj blockIndexStart blocksRequired : Z) : M fs Z :=
  match fuel with
  | O => hang
  | S fuel =>
      if cacheObj =? 0 then ret 0
      else
        let! c := get_cache cacheObj in
        if in_run c blockIndexStart blocksRequired then ret cacheObj
        else read_start fuel (c_next c) blockIndexStart blocksRequired
  end.

(** [if (cacheObj && cacheObj->blockIndex == (blockIndexStart + i))]; [Some] with
    the object the pointer leads to, when it is not [NULL]. *)
Definition cache_deref (cacheObj : Z) : M fs (option Ext2CacheObject) :=
  if cacheObj =? 0 then ret None else let! c := get_cache cacheObj in ret (Some c).

Definition at_index (c : option Ext2CacheObject) (index : Z) : bool :=
  match c with Some c => c_blockIndex c =? index | None => false end.

(** One round of the second loop of [ext2Read]: the bytes copied, [toCopy], [i] before
    its increment, [cacheObj] and the descriptor. *)
Definition read_step (e : Ext2) (blockIndexStart blocksRequired i left_ cacheObj : Z)
    (dir : Ext2OpenFd) : M fs (list Z * Z * Z * Z * Ext2OpenFd) :=
  let! hit := cache_deref cacheObj in
  let rem := u32 (f_ptr dir mod blockSize e) in
  if at_index hit (u64 (blockIndexStart + i)) then
    let c := default (mkCache 0 0 0 [] 0) hit in
    read_acquire (WLOCK_CACHE (f_globalObject dir)) ;;;
    let toCopy := Z.min left_ (u64 (u64 (c_blocks c * blockSize e) - rem)) in
    let! bytes := from_option_fault (load rem toCopy (c_buff c)) in
    read_release (WLOCK_CACHE (f_globalObject dir)) ;;;
    ret (bytes, toCopy, u64 (i + u32 (c_blocks c - 1)), c_next c,
         fd_set_ptr (u64 (f_ptr dir + toCopy)) dir)
  else
    let blocksToScan := u64 (blocksRequired - i) in
    let blocksToScan := if blocksToScan =? 0 then 1 else blocksToScan in
    let blocksToScan :=
      match hit with
      | Some c => u64 (c_blockIndex c - f_ptr dir / blockSize e)
      | None => blocksToScan
      end in
    let toCopy := Z.min left_ (u64 (u64 (blocksToScan * blockSize e) - rem)) in
    let! (bytes, dir) := ext2ReadInner dir toCopy in
    ret (bytes, toCopy, u64 (i + u64 (blocksToScan - 1)), cacheObj, dir).

(** The second loop of [ext2Read]: the bytes still missing, the bytes copied so
    far and the descriptor. *)
Fixpoint read_loop (fuel : nat) (e : Ext2) (blockIndexStart blocksRequired : Z)
    (i left_ cacheObj : Z) (out : list Z) (dir : Ext2OpenFd) : M fs (Z * list Z * Ext2OpenFd) :=
  match fuel with
  | O => hang
  | S fuel =>
      if i <? u64 (blocksRequired + 1) then
        let! (bytes, toCopy, i, cacheObj, dir) :=
          read_step e blockIndexStart blocksRequired i left_ cacheObj dir in
        let left_ := left_ - toCopy in
        if left_ =? 0 then ret (left_, out ++ bytes, dir)
        else read_loop fuel e blockIndexStart blocksRequired (u64 (i + 1)) left_ cacheObj
               (out ++ bytes) dir
      else ret (left_, out, dir)
  end.

(** The value returned, the bytes stored in the caller's buffer and the descriptor. *)
Definition ext2Read (dir : Ext2OpenFd) (naiveLimit : Z) : M fs (Z * list Z * Ext2OpenFd) :=
  let! e := gets ext2 in
  if has_flag (permission (f_inode dir)) S_IFDIR then ret (ERR EISDIR, [], dir)
  else
    ext2CachePush (f_globalObject dir) ;;;
    let filesize := ext2GetFilesize dir in
    if filesize <=? f_ptr dir then ret (0, [], dir)
    else
      let limit := if filesize - f_ptr dir <? naiveLimit then filesize - f_ptr dir else naiveLimit in
      let blocksRequired := CEILING_DIVISION limit (blockSize e) in
      read_acquire (WLOCK_FILE (f_globalObject dir)) ;;;
      read_acquire (WLOCK_CACHE (f_globalObject dir)) ;;;
      let blockIndexStart := f_ptr dir / blockSize e in
      let! g := get_found (f_globalObject dir) in
      let! n := gets cache_fuel in
      let! cacheObj := read_start n (o_firstCacheObj g) blockIndexStart blocksRequired in
      read_release (WLOCK_CACHE (f_globalObject dir)) ;;;
      let! (left_, out, dir) :=
        read_loop (Z.to_nat (blocksRequired + 2)) e blockIndexStart blocksRequired 0 limit
          cacheObj [] dir in
      kassert (left_ =? 0) ;;;
      read_release (WLOCK_FILE (f_globalObject dir)) ;;;
      ret (limit, out, dir).

(** ** Writing *)

(** The loop that finds the first missing block of the chain, -1 when none is. *)
Fixpoint first_missing (blocks : list Z) (i : Z) : Z :=
  match blocks with
  | [] => -1
  | b :: blocks => if b =? 0 then i else first_missing blocks (i + 1)
  end.

(** The loop that assigns [freeBlocks], [freeBlocks + 1], ... to the [n] file
    indexes from [curr] on. *)
Fixpoint assign_run (n : nat) (ino : Ext2Inode) (inodeNum : Z) (control : Ext2LookupControl)
    (curr freeBlock : Z) : M fs (Ext2Inode * Ext2LookupControl) :=
  match n with
  | O => ret (ino, control)
  | S n =>
      let! (ino, control) := ext2BlockAssign ino inodeNum control curr freeBlock in
      assign_run n ino inodeNum control (curr + 1) (u32 (freeBlock + 1))
  end.

(** [set_disk_bytes(&tmp[off], lba, n)] *)
Definition write_from (tmp : list Z) (off lba n : Z) : M fs unit :=
  let! bs := from_option_fault (load off (n * SECTOR_SIZE) tmp) in set_disk bs lba n.

(** The loop of [ext2Write] over the chain, run by run. *)
Fixpoint write_runs (n : nat) (i : Z) (e : Ext2) (blocks : list Z) (blocksRequired : Z)
    (tmp : list Z) (currBlock consecStart : Z) : M fs unit :=
  match n with
  | O => ret tt
  | S n =>
      let b := chain_at blocks i in
      if b =? 0 then halt
      else
        let last := i =? blocksRequired - 1 in
        let next := chain_at blocks (i + 1) =? u32 (b + 1) in
        if consecStart <? 0 then
          if negb last && next then
            write_runs n (i + 1) e blocks blocksRequired tmp currBlock i
          else
            write_from tmp (currBlock * blockSize e) (BLOCK_TO_LBA e 0 b) (block_sectors e) ;;;
            write_runs n (i + 1) e blocks blocksRequired tmp (currBlock + 1) (-1)
        else if last || negb next then
          let needed := i - consecStart + 1 in
          write_from tmp (currBlock * blockSize e)
            (BLOCK_TO_LBA e 0 (chain_at blocks consecStart))
            (needed * blockSize e / SECTOR_SIZE) ;;;
          write_runs n (i + 1) e blocks blocksRequired tmp (currBlock + needed) (-1)
        else write_runs n (i + 1) e blocks blocksRequired tmp currBlock consecStart
  end.

(** The partial block at the start of an unaligned write: how many bytes it took and
    the file block that follows ([left], [ptrIgnoredBlocks]). *)
Definition write_head (e : Ext2) (dir : Ext2OpenFd) (buff : list Z) (limit : Z)
    : M fs (Z * Z * Ext2OpenFd) :=
  let ptrIgnoredBlocks := s32 (f_ptr dir / blockSize e) in
  let ptrIgnoredBytes := s32 (f_ptr dir mod blockSize e) in
  if 0 <? ptrIgnoredBytes then
    let left_ := Z.min (blockSize e - ptrIgnoredBytes) limit in
    let! (block, lookup) :=
      ext2BlockFetch (f_inode dir) (f_inodeNum dir) (f_lookup dir) (u64 ptrIgnoredBlocks) in
    let! tmp := get_disk (BLOCK_TO_LBA e 0 block) (block_sectors e) in
    let! bytes := from_option_fault (load 0 left_ buff) in
    let! tmp := from_option_fault (store ptrIgnoredBytes bytes tmp) in
    set_disk tmp (BLOCK_TO_LBA e 0 block) (block_sectors e) ;;;
    ret (left_, ptrIgnoredBlocks + 1,
         fd_set_ptr (u64 (f_ptr dir + left_)) (fd_set_lookup lookup dir))
  else ret (0, ptrIgnoredBlocks, dir).

(** The block-aligned rest: [remainder] bytes of [buff] from [left_] on go to the
    file blocks from [firstBlock] on. *)
Definition write_body (e : Ext2) (dir : Ext2OpenFd) (buff : list Z)
    (left_ remainder firstBlock : Z) : M fs Ext2OpenFd :=
  let blocksRequired := s32 (CEILING_DIVISION remainder (blockSize e)) in
  let! (blocks, lookup) :=
    ext2BlockChain (f_inode dir) (f_inodeNum dir) (f_lookup dir) (u64 firstBlock)
      (blocksRequired - 1) in
  let group := INODE_TO_BLOCK_GROUP u32 e (f_inodeNum dir) in
  let startsAt := first_missing blocks 0 in
  let! (blocks, ino, lookup) :=
    if negb (startsAt =? -1) then
      let needed := blocksRequired - startsAt in
      let! freeBlocks := ext2BlockFind (s32 group) (u32 needed) in
      let! (ino, lookup) :=
        assign_run (Z.to_nat needed) (f_inode dir) (f_inodeNum dir) lookup
          (u64 (firstBlock + startsAt)) freeBlocks in
      ret (take (Z.to_nat startsAt) blocks ++
             ((fun i => u32 (freeBlocks + i)) <$> seqZ 0 needed), ino, lookup)
    else ret (blocks, f_inode dir, lookup) in
  let tmpSize := CEILING_DIVISION (u64 ((blocksRequired + 1) * blockSize e)) BLOCK_SIZE in
  let! tmp := read_into (vmem (tmpSize * BLOCK_SIZE)) 0 (BLOCK_TO_LBA e 0 (chain_at blocks 0))
                (block_sectors e) in
  let target := blocksRequired - 1 in
  let! tmp :=
    if 0 <? target then
      read_into tmp (target * blockSize e) (BLOCK_TO_LBA e 0 (chain_at blocks target))
        (block_sectors e)
    else ret tmp in
  let! bytes := from_option_fault (load left_ remainder buff) in
  let! tmp := from_option_fault (store 0 bytes tmp) in
  write_runs (Z.to_nat blocksRequired) 0 e blocks blocksRequired tmp 0 (-1) ;;;
  ret (fd_set_ptr (u64 (f_ptr dir + remainder)) (fd_set_inode ino (fd_set_lookup lookup dir))).

(** [buff] holds the caller's bytes, of which [limit] are written. *)
Definition ext2Write (flags : Z) (dir : Ext2OpenFd) (buff : list Z) (limit : Z)
    : M fs (Z * Ext2OpenFd) :=
  let! e := gets ext2 in
  let obj := f_globalObject dir in
  ext2CachePush obj ;;;
  write_acquire (WLOCK_CACHE obj) ;;;
  upd_found obj (o_set_firstCacheObj 0) ;;;
  write_release (WLOCK_CACHE obj) ;;;
  if has_flag (permission (f_inode dir)) S_IFDIR then ret (ERR EISDIR, dir)
  else
    write_acquire (WLOCK_FILE obj) ;;;
    let appendCursor := f_ptr dir in
    let dir := if has_flag flags O_APPEND then fd_set_ptr (ext2GetFilesize dir) dir else dir in
    let! (left_, ptrIgnoredBlocks, dir) := write_head e dir buff limit in
    let remainder := limit - left_ in
    let! dir :=
      if 0 <? remainder then write_body e dir buff left_ remainder ptrIgnoredBlocks
      else ret dir in
    let! dir :=
      if i_size (f_inode dir) <? f_ptr dir then
        let ino := set_i_size (u32 (f_ptr dir)) (f_inode dir) in
        match ext2BlockSizeCalculate e (i_size ino) with
        | None => halt
        | Some full =>
            let ino := set_num_sectors (u32 (full / SECTOR_SIZE)) ino in
            ext2InodeModifyM (f_inodeNum dir) ino ;;;
            ret (fd_set_inode ino dir)
        end
      else ret dir in
    let dir := if has_flag flags O_APPEND then fd_set_ptr appendCursor dir else dir in
    write_release (WLOCK_FILE obj) ;;;
    ret (limit, dir).

(** ** Seeking *)

(** The value returned and the descriptor; [offset] is not used by the code. *)
Definition ext2Seek (flags : Z) (dir : Ext2OpenFd) (target whence : Z) : M fs (Z * Ext2OpenFd) :=
  let target := if whence =? SEEK_CURR then u64 (target + f_ptr dir) else target in
  let filesize := ext2GetFilesize dir in
  if filesize <? target then
    if negb (has_flag flags O_RDWR) && negb (has_flag flags O_WRONLY)
    then ret (ERR EINVAL, dir)
    else
      let remainder := target - filesize in
      let bytePlacement := replicate (Z.to_nat remainder) 0 in
      let! (written, dir) :=
        ext2Write flags (fd_set_ptr filesize dir) bytePlacement remainder in
      if negb (u64 (s32 written) =? remainder) then halt
      else if negb (f_ptr dir =? target) then halt
      else ret (target, fd_set_ptr target dir)
  else ret (target, fd_set_ptr target dir).

End memory.

(** ** File status *)

Definition ext2StatInternal (e : Ext2) (inode : Ext2Inode) (inodeNum : Z) : stat :=
  let size := COMBINE_64 (size_high inode) (i_size inode) in
  mkStat 69 inodeNum (permission inode) (hard_links inode) 0 0 0 (blockSize e) size
    (u64 (CEILING_DIVISION size (blockSize e) * blockSize e) / 512)
    (i_atime inode) (i_mtime inode) (i_ctime inode).

(** [ext2Stat] ([follow = true]) and [ext2Lstat] ([follow = false]): [None] when the
    function returns false, with [*symlinkResolve]. *)
Definition stat_path (follow : bool) (junk filename : list Z) (sym : option (list Z))
    : M fs (option stat * option (list Z)) :=
  let! e := gets ext2 in
  read_acquire WLOCK_GLOBAL_NOFD ;;;
  let! (inodeNum, r) := ext2TraversePath junk filename EXT2_ROOT_INODE follow in
  if inodeNum =? 0 then
    read_release WLOCK_GLOBAL_NOFD ;;; ret (None, resolved sym r)
  else
    let! inode := ext2InodeFetch inodeNum in
    read_release WLOCK_GLOBAL_NOFD ;;;
    ret (Some (ext2StatInternal e inode inodeNum), resolved sym r).

Definition ext2Stat := stat_path true.
Definition ext2Lstat := stat_path false.

Definition ext2StatFd (fd : Ext2OpenFd) : M fs (Z * stat) :=
  let! e := gets ext2 in
  ret (0, ext2StatInternal e (f_inode fd) (f_inodeNum fd)).

(** The value returned, the bytes stored in the caller's buffer, [*symlinkResolve]. *)
Definition ext2Readlink (junk path : list Z) (size : Z) (sym : option (list Z))
    : M fs (Z * list Z * option (list Z)) :=
  let! e := gets ext2 in
  if size <? 0 then ret (ERR EINVAL, [], sym)
  else if size =? 0 then ret (0, [], sym)
  else
    read_acquire WLOCK_GLOBAL_NOFD ;;;
    let! (inodeNum, r) := ext2TraversePath junk path EXT2_ROOT_INODE false in
    let sym := resolved sym r in
    if inodeNum =? 0 then
      read_release WLOCK_GLOBAL_NOFD ;;; ret (ERR ENOENT, [], sym)
    else
      let! inode := ext2InodeFetch inodeNum in
      if negb (Z.land (permission inode) 0xF000 =? 0xA000) then
        read_release WLOCK_GLOBAL_NOFD ;;; ret (ERR EINVAL, [], sym)
      else
        let! start := symlink_bytes e inode in
        let toCopy := if size <? s32 (i_size inode) then size else s32 (i_size inode) in
        let! bytes := from_option_fault (load 0 toCopy start) in
        read_release WLOCK_GLOBAL_NOFD ;;;
        ret (u64 toCopy, bytes, sym).

(** ** Closing and duplicating *)

Definition ext2Close (fd : Ext2OpenFd) : M fs bool :=
  let obj := f_globalObject fd in
  spin_acquire (LOCK_PROP obj) ;;;
  upd_found obj (fun o => o_set_openFds (u32 (o_openFds o - 1)) o) ;;;
  spin_release (LOCK_PROP obj) ;;;
  ret true.

(** The copy of an open file: the duplicate owns copies of the lookup buffers. *)
Definition ext2DuplicateNodeUnsafe (original : OpenFile) : M fs (bool * OpenFile) :=
  let obj := f_globalObject (of_dir original) in
  let orphan := mkOpenFile (of_flags original) (of_dir original) (of_dirname original) in
  spin_acquire (LOCK_PROP obj) ;;;
  upd_found obj (fun o => o_set_openFds (u32 (o_openFds o + 1)) o) ;;;
  spin_release (LOCK_PROP obj) ;;;
  ret (true, orphan).
