(* ===== verification/Ext2Getdents.v ===== *)
(** * Listing directories ([utility/dents.cpp], [ext2Getdents64] of [ext2_dirs.c])

    The packing of [linux_dirent64] records into the caller's buffer and the loop
    that feeds it the live entries of a directory. *)

From S2P Require Import Prelude Bytes FileTypes Spinlock Disk Ext2Types Ext2Base Ext2Push Ext2Counters.
From S2P Require Import Ext2Example Ext2Inode Ext2Block Ext2Lookup Ext2Assign DirBlock.
From S2P Require Import Ext2Dirs Ext2Create Ext2Cache Ext2Files.

(** ** Definitions *)

Definition dent_type (type : Z) : Z :=
  if type =? 2 then CDT_DIR else if type =? 7 then CDT_LNK else CDT_REG.

(** The variables of the listing loop: the caller's buffer, [dirp], the
    [allocatedlimit] and [edir->ptr]. *)
Record listing := mkListing {
  ls_buff : list Z;
  ls_dirp : Z;
  ls_alloc : Z;
  ls_ptr : Z;
}.

Section getdents.
(** The number drawn for the record at an offset of the buffer. *)
Context (rand : Z -> Z).

(** The loop over one block from offset [p]; the flag is [stop]. *)
Fixpoint list_block (fuel : nat) (names : list Z) (hardlimit p : Z) (ls : listing)
    : outcome (listing * bool) :=
  match fuel with
  | O => Hang
  | S fuel =>
      if p <? zlen names then
        need (dir_inode names p) (fun inode =>
        need (dir_size names p) (fun size =>
        if inode =? 0 then list_block fuel names hardlimit (p + size) ls
        else
          need (dir_type names p) (fun type =>
          need (dir_namelen names p) (fun len =>
          need (dir_name names p len) (fun name =>
          match dents_add (ls_buff ls) (ls_dirp ls) (ls_alloc ls) hardlimit name inode
                  (rand (ls_dirp ls)) (dent_type type) with
          | Ok (DENTS_NO_SPACE, _, _, _) =>
              Ok (mkListing (ls_buff ls) (ls_dirp ls) (ERR EINVAL) (ls_ptr ls), true)
          | Ok (DENTS_RETURN, _, _, _) => Ok (ls, true)
          | Ok (DENTS_SUCCESS, buff, dirp, alloc) =>
              list_block fuel names hardlimit (p + size)
                (mkListing buff dirp alloc (u64 (ls_ptr ls + size)))
          | Halted => Halted
          | Fault => Fault
          | Hang => Hang
          end)))))
      else Ok (ls, false)
  end.

(** The loop over the blocks. *)
Fixpoint list_blocks (n : nat) (e : Ext2) (ino : Ext2Inode) (inodeNum hardlimit : Z)
    (control : Ext2LookupControl) (ls : listing) : M fs (listing * Ext2LookupControl) :=
  match n with
  | O => ret (ls, control)
  | S n =>
      let! (block, control) := ext2BlockFetch ino inodeNum control (ls_ptr ls / blockSize e) in
      if block =? 0 then ret (ls, control)
      else
        let! names := get_disk (BLOCK_TO_LBA e 0 block) (block_sectors e) in
        let! (ls, stop) :=
          lift (list_block (dir_fuel e) names hardlimit (ls_ptr ls mod blockSize e) ls) in
        if (stop : bool) then ret (ls, control)
        else
          let rem := s32 (ls_ptr ls mod blockSize e) in
          let ls :=
            if negb (rem =? 0) then
              mkListing (ls_buff ls) (ls_dirp ls) (ls_alloc ls)
                (u64 (ls_ptr ls + (blockSize e - rem)))
            else ls in
          list_blocks n e ino inodeNum hardlimit control ls
  end.

(** [start] is the caller's buffer of [hardlimit] bytes; the result is the value
    returned, the buffer and the descriptor. *)
Definition ext2Getdents64 (edir : Ext2OpenFd) (start : list Z) (hardlimit : Z)
    : M fs (Z * list Z * Ext2OpenFd) :=
  let! e := gets ext2 in
  if negb (Z.land (permission (f_inode edir)) 0xF000 =? EXT2_S_IFDIR) then
    ret (ERR ENOTDIR, start, edir)
  else
    let! (ls, lookup) :=
      list_blocks (Z.to_nat (blocksContained e (f_inode edir))) e (f_inode edir)
        (f_inodeNum edir) hardlimit (f_lookup edir) (mkListing start 0 0 (f_ptr edir)) in
    ret (ls_alloc ls, ls_buff ls, fd_set_ptr (ls_ptr ls) (fd_set_lookup lookup edir)).

End getdents.
