(* ===== verification/Ext2Names.v ===== *)
(** * ext2: removing and linking names ([ext2Delete] and [ext2Link] of
    [ext2_controller.c]) *)

From S2P Require Import Prelude Bytes FileTypes Paths Spinlock Disk Ext2Types Ext2Base Ext2Push Ext2Counters.
From S2P Require Import Ext2Example Ext2Inode Ext2Block Ext2Lookup Ext2Assign DirBlock.
From S2P Require Import Ext2Dirs Ext2Create Ext2Cache Ext2Files.

(** ** Definitions *)

(** The scan of the first block of a directory: is it empty? [i] counts the live
    entries met so far. *)
Fixpoint dir_empty (fuel : nat) (names : list Z) (p i : Z) : outcome bool :=
  match fuel with
  | O => Hang
  | S fuel =>
      if p <? zlen names then
        need (dir_namelen names p) (fun len =>
        if (2 <? len) || (1 <? i) then Ok false
        else
          need (dir_inode names p) (fun inode =>
          need (dir_size names p) (fun size =>
          dir_empty fuel names (p + size) (if negb (inode =? 0) then i + 1 else i))))
      else Ok true
  end.

(** The loop that frees the blocks of a file, from file index [i] on. *)
Fixpoint free_blocks (fuel : nat) (e : Ext2) (inode : Ext2Inode) (inodeNum : Z)
    (control : Ext2LookupControl) (i : Z) : M fs unit :=
  match fuel with
  | O => hang
  | S fuel =>
      let! (block, control) := ext2BlockFetch inode inodeNum control i in
      let i := u64 (i + 1) in
      if (block =? 0) || (u32 (num_sectors inode * 512) <=? u64 (i * blockSize e)) then ret tt
      else
        ext2BlockDelete (block / blocks_per_group (superblock e))
          (block mod blocks_per_group (superblock e)) ;;;
        free_blocks fuel e inode inodeNum control i
  end.

(** The loop stops once [i] blocks are at least [num_sectors * 512] bytes. *)
Definition free_fuel (e : Ext2) (inode : Ext2Inode) : nat :=
  S (Z.to_nat (u32 (num_sectors inode * 512) / blockSize e)).

(** The inode written back when the last link goes. *)
Definition wiped_inode (time : Z) (inode : Ext2Inode) : Ext2Inode :=
  set_size_high 0 (set_i_size 0 (set_num_sectors 0
    (set_i_blocks (replicate 15 0) (set_i_dtime (u32 time) inode)))).

(** Is there a [/] in the string? ([strrchr]) *)
Definition has_slash (s : list Z) : bool := existsb (fun c => c =? slash) s.

(** [parent] after the loop that cuts the last component off, and [parentLen]. *)
Definition parent_of (filename : list Z) : list Z * Z :=
  let k := last_slash filename in
  (if k =? 0 then if has_slash filename then [slash] else []
   else take (Z.to_nat k) filename, k).

(** The link count goes down; at zero the blocks and the inode are released. *)
Definition drop_link (time : Z) (e : Ext2) (inodeNum : Z) (inode : Ext2Inode)
    (parentInodeNum : Z) (parentInode : Ext2Inode) (junk : list Z) : M fs Ext2Inode :=
  let inode := set_hard_links (u16 (hard_links inode - 1)) inode in
  let isdir := has_flag (permission inode) S_IFDIR in
  let inode := if isdir && (hard_links inode =? 1) then set_hard_links 0 inode else inode in
  if hard_links inode =? 0 then
    (if has_flag (permission inode) S_IFREG || isdir
     then free_blocks (free_fuel e inode) e inode inodeNum (fresh_control junk) 0
     else ret tt) ;;;
    ext2InodeModifyM inodeNum (wiped_inode time inode) ;;;
    ext2InodeDelete inodeNum ;;;
    if isdir then
      let parentInode := set_hard_links (u16 (hard_links parentInode - 1)) parentInode in
      ext2InodeModifyM parentInodeNum parentInode ;;; ret parentInode
    else ret parentInode
  else ext2InodeModifyM inodeNum inode ;;; ret parentInode.

(** From the checks on: the parent, the link count and the directory entry. *)
Definition delete_entry (junk : list Z) (time : Z) (filename : list Z) (inodeNum : Z)
    (inode : Ext2Inode) : M fs Z :=
  let! e := gets ext2 in
  let '(parent, parentLen) := parent_of filename in
  let! (parentInodeNum, r) := ext2TraversePath junk parent 2 false in
  match r with
  | Some _ => fault
  | None =>
      kassert (negb (parentInodeNum =? 0)) ;;;
      let! parentInode := ext2InodeFetch parentInodeNum in
      kassert (has_flag (permission parentInode) S_IFDIR) ;;;
      let! parentInode := drop_link time e inodeNum inode parentInodeNum parentInode junk in
      let! removed := ext2DirRemove junk parentInode parentInodeNum
                        (as_filename (drop (Z.to_nat (parentLen + 1)) filename)) in
      ret (if (removed : bool) then 0 else u64 (-1))
  end.

(** The checks of [ext2Delete] on the inode found: [Some] with an error. *)
Definition delete_check (e : Ext2) (filename : list Z) (directory : bool) (inode : Ext2Inode)
    : M fs (option Z) :=
  let isdir := has_flag (permission inode) S_IFDIR in
  if directory && negb isdir then ret (Some (ERR ENOTDIR))
  else if negb directory && isdir then ret (Some (ERR EISDIR))
  else if zlen filename =? 1 then
    ret (Some (if directory then ERR ENOTEMPTY else ERR EISDIR))
  else if directory then
    let! b0 := from_option_fault (i_blocks inode !! 0%nat) in
    let! names := get_disk (BLOCK_TO_LBA e 0 b0) (block_sectors e) in
    let! empty := lift (dir_empty (dir_fuel e) names 0 0) in
    ret (if (empty : bool) then None else Some (ERR ENOTEMPTY))
  else ret None.

(** The value returned and [*symlinkResolve]. *)
Definition ext2Delete (junk : list Z) (time : Z) (filename : list Z) (directory : bool)
    (sym : option (list Z)) : M fs (Z * option (list Z)) :=
  let! e := gets ext2 in
  let! (inodeNum, r) := ext2TraversePath junk filename 2 false in
  let sym := resolved sym r in
  write_acquire WLOCK_GLOBAL_NOFD ;;;
  let! v :=
    if inodeNum =? 0 then ret (ERR ENOENT)
    else
      let! global := ext2GlobalFetch inodeNum in
      (if global =? 0 then ret tt
       else let! o := get_found global in kassert (o_openFds o =? 0)) ;;;
      let! inode := ext2InodeFetch inodeNum in
      let! bad := delete_check e filename directory inode in
      match bad with
      | Some v => ret v
      | None => delete_entry junk time filename inodeNum inode
      end in
  write_release WLOCK_GLOBAL_NOFD ;;;
  ret (v, sym).

(** The value returned and what is stored through the two [symlinkResolve]s. *)
Definition ext2Link (junk filename target : list Z) (sym symTarget : option (list Z))
    : M fs (Z * option (list Z) * option (list Z)) :=
  let! (inodeNum, r) := ext2TraversePath junk filename 2 false in
  let sym := resolved sym r in
  if inodeNum =? 0 then ret (ERR ENOENT, sym, symTarget)
  else
    let! inode := ext2InodeFetch inodeNum in
    if negb (has_flag (permission inode) S_IFREG || has_flag (permission inode) S_IFDIR)
    then ret (ERR EPERM, sym, symTarget)
    else if negb (has_slash target) then ret (ERR ENOENT, sym, symTarget)
    else
      let targetDir := take (Z.to_nat (last_slash target)) target in
      let targetFilename := drop (Z.to_nat (last_slash target + 1)) target in
      let! (targetDirInodeNum, r) := ext2TraversePath junk targetDir 2 false in
      let symTarget := resolved symTarget r in
      if targetDirInodeNum =? 0 then ret (ERR ENOENT, sym, symTarget)
      else
        let! targetDirInode := ext2InodeFetch targetDirInodeNum in
        kassert (has_flag (permission targetDirInode) S_IFDIR) ;;;
        let inode := set_hard_links (u16 (hard_links inode + 1)) inode in
        ext2InodeModifyM inodeNum inode ;;;
        let dirType := if has_flag (permission inode) S_IFREG then 1 else 2 in
        let! _ := ext2DirAllocate junk targetDirInodeNum targetDirInode
                    (as_filename targetFilename) dirType inodeNum in
        ret (0, sym, symTarget).
