(* ===== verification/Ext2Mount.v ===== *)
(** * ext2: mounting ([ext2_mount] of [ext2_controller.c])

    The checks on the superblock, the derived sizes and offsets, the descriptor
    table and the fresh locks. *)

From S2P Require Import Prelude Bytes Spinlock Disk Ext2Types Ext2Base Ext2Push Ext2Counters.

(** ** Definitions *)

Definition EXT2_MAGIC : Z := 0xEF53.
Definition EXT2_R_F_TYPE_FIELD : Z := 2.
Definition EXT2_FS_S_CLEAN : Z := 1.
Definition EXT2_FS_E_REMOUNT_RO : Z := 2.
Definition EXT2_FS_E_KHalt : Z := 3.

(** The locks of a fresh mount: the arrays have one lock per block group. *)
Definition fresh_locks (groups : Z) : gmap ext2_lock Z :=
  list_to_map
    ([(WLOCK_GLOBAL_NOFD, 0); (LOCK_BGDT_WRITE, 0); (LOCK_SUPERBLOCK_WRITE, 0);
      (LOCK_OBJECT, 0); (LOCK_DIRALLOC, 0)] ++
     ((fun g => (WLOCKS_BLOCK_BITMAP g, 0)) <$> seqZ 0 groups) ++
     ((fun g => (WLOCKS_INODE g, 0)) <$> seqZ 0 groups)).

(** [CEILING_DIVISION] on [uint32_t] operands; [None] divides by zero. *)
Definition ceiling32 (a b : Z) : option Z :=
  if b =? 0 then None else Some (u32 (u32 (a + b) - 1) / b).

(** The checks of the superblock, before the sizes are derived. *)
Definition superblock_check (sb : Ext2Superblock) : outcome bool :=
  if negb (ext2_magic sb =? EXT2_MAGIC) then Ok false
  else if sb_major sb <? 1 then Ok false
  else if negb (required_feature sb =? EXT2_R_F_TYPE_FIELD) then Ok false
  else if negb (fs_state sb =? EXT2_FS_S_CLEAN) then
    if sb_err sb =? EXT2_FS_E_REMOUNT_RO then Ok false
    else if sb_err sb =? EXT2_FS_E_KHalt then Halted
    else Ok true
  else Ok true.

(** [None] when the function returns false. *)
Definition ext2_mount (d : gmap Z Z) (lba_first_sector : Z)
    : outcome (option (Ext2 * gmap ext2_lock Z)) :=
  let offsetSuperblock := u32 (lba_first_sector + 2) in
  let sb := decode_superblock (get_disk_bytes (Some d) offsetSuperblock 2) in
  match superblock_check sb with
  | Ok true =>
      if 21 <=? log2block_size sb then Fault
      else
        let blockSize := Z.shiftl 1024 (log2block_size sb) in
        if negb (blockSize mod SECTOR_SIZE =? 0) then Ok None
        else
          match ceiling32 (total_blocks sb) (blocks_per_group sb),
                ceiling32 (total_inodes sb) (inodes_per_group sb) with
          | Some blockGroups1, Some blockGroups2 =>
              if negb (blockGroups1 =? blockGroups2) then Ok None
              else
                let e := mkExt2 lba_first_sector offsetSuperblock 0 blockSize (inode_size sb)
                           (CEILING_DIVISION (inode_size sb) SECTOR_SIZE * SECTOR_SIZE)
                           blockGroups1 [] sb in
                let offsetBGDT := BLOCK_TO_LBA e 0 (u32 (superblock_idx sb + 1)) in
                let table := get_disk_bytes (Some d) offsetBGDT
                               (CEILING_DIVISION blockSize SECTOR_SIZE) in
                Ok (Some (mkExt2 lba_first_sector offsetSuperblock offsetBGDT blockSize
                            (inode_size sb)
                            (CEILING_DIVISION (inode_size sb) SECTOR_SIZE * SECTOR_SIZE)
                            blockGroups1
                            (decode_bgdt (Z.to_nat (blockSize / 32)) table) sb,
                          fresh_locks blockGroups1))
          | _, _ => Fault
          end
  | Ok false => Ok None
  | Halted => Halted
  | Fault => Fault
  | Hang => Hang
  end.

(** ** Mounting what was pushed *)

(** A superblock that passes the checks, with the sizes the mount derives. *)
Record mountable (e : Ext2) : Prop := {
  mt_check : superblock_check (superblock e) = Ok true;
  mt_log : log2block_size (superblock e) < 21;
  mt_bs : blockSize e = Z.shiftl 1024 (log2block_size (superblock e));
  mt_groups1 : ceiling32 (total_blocks (superblock e)) (blocks_per_group (superblock e)) =
    Some (blockGroups e);
  mt_groups2 : ceiling32 (total_inodes (superblock e)) (inodes_per_group (superblock e)) =
    Some (blockGroups e);
  mt_inode : inodeSize e = inode_size (superblock e);
  mt_rounded : inodeSizeRounded e = CEILING_DIVISION (inodeSize e) SECTOR_SIZE * SECTOR_SIZE;
}.

(** The superblock as the mount reads it. *)
Lemma read_superblock e d :
  geometry e -> meta_synced e d ->
  get_disk_bytes (Some d) (offsetSuperblock e) 2 = encode_superblock (superblock e) /\
  u32 (offsetBase e + 2) = offsetSuperblock e.
Proof.
  intros G S. destruct (S 0) as [_ Hs]; [left|]. unfold super_copy in Hs. cbn in Hs.
  destruct (BLOCK_TO_LBA_ok e G 1) as (E1 & _ & H1 & _); [unfold valid_block; destruct G; lia|].
  destruct (geo_spb e G) as [Hbs Hspb]. unfold block_sectors in *. pose proof (geo_base e G).
  rewrite (geo_super e G) in *. rewrite (u32_small (offsetBase e + 2)) by lia. split; [|done].
  rewrite get_disk_bytes_present; rewrite ?u32_small by lia; [|lia..].
  unfold disk_read. exact Hs.
Qed.

Lemma read_bgdt e d :
  geometry e -> meta_synced e d ->
  get_disk_bytes (Some d) (offsetBGDT e) (CEILING_DIVISION (blockSize e) SECTOR_SIZE) =
    encode_bgdt (bgdts e).
Proof.
  intros G S. destruct (S 0) as [Hb _]; [left|]. unfold bgdt_copy in Hb. cbn in Hb.
  pose proof (bgdt_block_valid e G) as Hv. rewrite (push_sectors e G).
  destruct (BLOCK_TO_LBA_ok e G _ Hv) as (_ & H0 & H1 & H2). rewrite <- (geo_bgdt e G) in *.
  destruct (geo_spb e G) as [Hbs Hspb]. unfold block_sectors in *.
  rewrite get_disk_bytes_present; rewrite ?u32_small by lia; [|lia..].
  unfold disk_read. rewrite <- Hbs. exact Hb.
Qed.

Lemma ext2_mount_ok e d :
  geometry e -> mountable e -> meta_synced e d ->
  ext2_mount d (offsetBase e) = Ok (Some (e, fresh_locks (blockGroups e))).
Proof.
  intros G [Hc Hlog Hbs Hg1 Hg2 Hi Hr] S. destruct (read_superblock e d G S) as [Es Eo].
  unfold ext2_mount. rewrite Eo, Es, decode_encode_superblock by apply (geo_sb e G).
  rewrite Hc, (proj2 (Z.leb_gt 21 _)), <- Hbs by lia.
  rewrite (geo_bs_sector e G), Hg1, Hg2. cbn [negb Z.eqb].
  destruct (sb_fits4 e G) as (_ & _ & _ & Hidx & _).
  assert (u32 (superblock_idx (superblock e) + 1) = superblock_idx (superblock e) + 1) as ->.
  { rewrite (geo_idx e G). by destruct (blockSize e =? 1024). }
  assert (forall o b i r n t, BLOCK_TO_LBA (mkExt2 (offsetBase e) o b (blockSize e) i r n t
    (superblock e)) 0 (superblock_idx (superblock e) + 1) = offsetBGDT e) as ->.
  { intros. by rewrite (geo_bgdt e G). }
  rewrite read_bgdt by done. rewrite <- (geo_bgs e G), decode_encode_bgdt by apply (geo_bgwf e G).
  rewrite <- Hi, <- Hr, Z.eqb_refl. by destruct e.
Qed.

(** Counters aside, a volume keeps what makes it mountable. *)
Lemma mountable_marked F v p m e d e' d' :
  marked F v p m e d e' d' -> mountable e -> mountable e'.
Proof.
  intros [? _ _ _ _ [Hf Hr] L _ _ _] [M1 M2 M3 M4 M5 M6 M7].
  assert (Hsame : forall {A} (f : Ext2Superblock -> A), (forall s, f (frozen s) = f s) ->
    f (superblock e') = f (superblock e)).
  { intros A f H. rewrite <- (H (superblock e')), <- (H (superblock e)). by rewrite Hf. }
  pose proof (sl_bs _ _ L) as Lb. pose proof (sl_groups _ _ L) as Lg. pose proof (sl_is _ _ L) as Li.
  split; rewrite <- ?Lb, <- ?Lg, <- ?Li.
  - rewrite (Hsame _ superblock_check); [done|]. by intros [].
  - rewrite (Hsame _ log2block_size); [done|]. by intros [].
  - rewrite (Hsame _ log2block_size); [done|]. by intros [].
  - rewrite (Hsame _ total_blocks), (Hsame _ blocks_per_group); [done|by intros []..].
  - rewrite (Hsame _ total_inodes), (Hsame _ inodes_per_group); [done|by intros []..].
  - rewrite (Hsame _ inode_size); [done|]. by intros [].
  - by rewrite Hr.
Qed.
