(* ===== verification/Ext2Read.v ===== *)
(** * ext2: reading files

    [ext2ReadInner] fills its buffer with the blocks of the chain whatever the
    runs of consecutive block numbers, and [ext2Read] returns the bytes of the
    file whether they come from the cache or from the drive. *)

From S2P Require Import Prelude Bytes FileTypes Spinlock Dll Disk Ext2Types Ext2Base Ext2Push Ext2Counters.
From S2P Require Import Ext2Example Ext2Inode Ext2Block Ext2Lookup Ext2Assign DirBlock Ext2Dirs.
From S2P Require Import Ext2Create Ext2Cache Ext2Files.

(** ** Runs of blocks *)

(** The contents of a list of blocks, one after the other. *)
Definition blocks_bytes (e : Ext2) (d : gmap Z Z) (l : list Z) : list Z :=
  mjoin (block_bytes e d <$> l).

Section runs.
Context (e : Ext2) (G : geometry e).

Lemma blocks_bytes_cons d b l : blocks_bytes e d (b :: l) = block_bytes e d b ++ blocks_bytes e d l.
Proof. done. Qed.

Lemma zlen_blocks_bytes d l : zlen (blocks_bytes e d l) = zlen l * blockSize e.
Proof.
  induction l as [|b l IH]; [done|].
  rewrite blocks_bytes_cons, zlen_app, zlen_block_bytes, IH by done.
  unfold zlen. rewrite length_cons. lia.
Qed.

Lemma blocks_bytes_app d l k : blocks_bytes e d (l ++ k) = blocks_bytes e d l ++ blocks_bytes e d k.
Proof. unfold blocks_bytes. by rewrite fmap_app, join_app. Qed.

(** Blocks with consecutive numbers lie one after the other on the drive. *)
Lemma run_bytes d b n :
  read_at d (block_addr e b) (Z.of_nat n * blockSize e) =
    blocks_bytes e d (seqZ b (Z.of_nat n)).
Proof.
  pose proof (geo_bs_min e G). revert b. induction n as [|n IH]; intros b; [done|].
  replace (Z.of_nat (S n) * blockSize e) with (blockSize e + Z.of_nat n * blockSize e) by lia.
  rewrite read_at_app by lia. rewrite (seqZ_cons b), blocks_bytes_cons by lia. f_equal.
  replace (block_addr e b + blockSize e) with (block_addr e (Z.succ b)) by (unfold block_addr; lia).
  rewrite IH. do 2 f_equal. lia.
Qed.

(** One transfer for a run of [n] blocks. *)
Lemma get_run_ok b n d l h :
  valid_block e b -> 1 <= n -> valid_block e (b + n - 1) ->
  get_disk (BLOCK_TO_LBA e 0 b) (n * blockSize e / SECTOR_SIZE) (mkFs d e l h) =
    Ok (blocks_bytes e d (seqZ b n), mkFs d e l h).
Proof.
  intros Hb Hn He. destruct (BLOCK_TO_LBA_ok e G b Hb) as (E1 & H0 & _ & H2).
  destruct (BLOCK_TO_LBA_ok e G _ He) as (E2 & _ & H3 & _).
  destruct (geo_spb e G) as [Hbs Hspb]. unfold block_sectors in *.
  assert (n * blockSize e / SECTOR_SIZE = n * (blockSize e / SECTOR_SIZE)) as En.
  { rewrite Hbs at 1. rewrite Z.mul_assoc. apply Z.div_mul. done. }
  rewrite En, get_disk_ok by nia. do 2 f_equal.
  replace n with (Z.of_nat (Z.to_nat n)) by lia. rewrite <- run_bytes.
  unfold disk_read. rewrite H2. f_equal. nia.
Qed.

Lemma slice_patch_extend a bs l :
  0 <= a -> a + zlen bs <= zlen l ->
  slice 0 (a + zlen bs) (patch a bs l) = slice 0 a l ++ bs.
Proof.
  intros Ha Hl. pose proof (zlen_nonneg bs). rewrite (slice_split 0 a) by lia.
  rewrite slice_patch_disjoint by lia. f_equal.
  replace (a + zlen bs - a) with (zlen bs) by lia. rewrite Z.add_0_l. by apply slice_patch_same.
Qed.

End runs.

Section fill.
Context (e : Ext2) (G : geometry e) (d : gmap Z Z) (l : gmap ext2_lock Z) (h : heap).
Context (oob : Z) (chain : list Z) (req : Z).
Context (Hreq : 1 <= req < 2 ^ 32) (Hlen : zlen chain = req + 1).

(** The first [k] blocks of the chain are in the buffer. *)
Definition filled (k : Z) (tmp : list Z) : Prop :=
  slice 0 (k * blockSize e) tmp = blocks_bytes e d (take (Z.to_nat k) chain).

Lemma filled_le k k' tmp : 0 <= k' <= k -> k <= req + 1 -> filled k tmp -> filled k' tmp.
Proof.
  intros Hk Hr HF. unfold filled in *. pose proof (geo_bs_min e G). unfold zlen in Hlen.
  rewrite <- (Z.add_0_l 0) at 1. rewrite <- (slice_slice 0 _ 0 (k * blockSize e)) by nia.
  rewrite HF. rewrite <- (take_drop (Z.to_nat k') (take (Z.to_nat k) chain)), take_take.
  rewrite Nat.min_l, blocks_bytes_app by lia. rewrite slice_app_l.
  - rewrite <- (slice_full (blocks_bytes e d (take (Z.to_nat k') chain))) at 2. f_equal.
    rewrite zlen_blocks_bytes by done. unfold zlen. rewrite length_take. f_equal. lia.
  - rewrite zlen_blocks_bytes by done. unfold zlen. rewrite length_take. nia.
Qed.

(** A transfer of [n] consecutive blocks extends the filled part. *)
Lemma read_run_into k n b tmp :
  0 <= k -> 1 <= n -> k + n <= req + 1 -> (req + 1) * blockSize e <= zlen tmp -> filled k tmp ->
  (forall j, 0 <= j < n -> chain !! Z.to_nat (k + j) = Some (b + j)) ->
  valid_block e b -> valid_block e (b + n - 1) ->
  exists tmp', read_into tmp (k * blockSize e) (BLOCK_TO_LBA e 0 b)
      (n * blockSize e / SECTOR_SIZE) (mkFs d e l h) = Ok (tmp', mkFs d e l h) /\
    zlen tmp' = zlen tmp /\ filled (k + n) tmp'.
Proof.
  intros Hk Hn Hkn Hz HF Hrun Hb He. pose proof (geo_bs_min e G).
  assert (zlen (blocks_bytes e d (seqZ b n)) = n * blockSize e) as Hzb.
  { rewrite zlen_blocks_bytes by done. unfold zlen. rewrite length_seqZ. lia. }
  exists (patch (k * blockSize e) (blocks_bytes e d (seqZ b n)) tmp). split; [|split].
  - unfold read_into. mgo get_run_ok; [|done..]. by rewrite store_ok by nia.
  - apply zlen_patch.
  - unfold filled. replace ((k + n) * blockSize e) with
      (k * blockSize e + zlen (blocks_bytes e d (seqZ b n))) by lia.
    rewrite slice_patch_extend by nia. rewrite HF, <- blocks_bytes_app. f_equal.
    apply list_eq. intros i. unfold zlen in Hlen. destruct (decide (i < Z.to_nat (k + n))%nat).
    + rewrite lookup_take_lt by lia. destruct (decide (i < Z.to_nat k)%nat).
      * rewrite lookup_app_l, lookup_take_lt; [done|lia|rewrite length_take; lia].
      * rewrite lookup_app_r; rewrite length_take, Nat.min_l by lia; [|lia].
        rewrite lookup_seqZ_lt by lia.
        specialize (Hrun (Z.of_nat i - k) ltac:(lia)).
        replace (Z.to_nat (k + (Z.of_nat i - k))) with i in Hrun by lia.
        rewrite Hrun. f_equal. lia.
    + rewrite lookup_take_ge by lia. apply lookup_ge_None.
      rewrite length_app, length_take, length_seqZ. lia.
Qed.

(** The first [m] blocks of the chain exist; the one behind the chain's end does
    not look like the successor of the last. *)
Context (m : Z) (Hm : m = req \/ m = req + 1).
Context (Hval : forall j b, 0 <= j < m -> chain !! Z.to_nat j = Some b -> b <> 0 /\ valid_block e b).
Context (Hext : forall b, chain !! Z.to_nat req = Some b -> ptr_ok e b).
Context (Hoob : m = req + 1 -> forall b, chain !! Z.to_nat req = Some b -> oob <> b + 1).

Lemma chain_lookup j : 0 <= j <= req -> chain !! Z.to_nat j = Some (chain_at oob chain j).
Proof.
  intros Hj. unfold chain_at, zlen in *.
  destruct (lookup_lt_is_Some_2 chain (Z.to_nat j)) as [b Hb]; [lia|]. by rewrite Hb.
Qed.

Lemma chain_valid j :
  0 <= j < m -> chain_at oob chain j <> 0 /\ valid_block e (chain_at oob chain j).
Proof. intros Hj. apply (Hval j); [lia|]. apply chain_lookup. lia. Qed.

Lemma valid_succ b : valid_block e b -> u32 (b + 1) = b + 1.
Proof.
  intros Hb. destruct (sb_fits4 e G) as (Ht & _). unfold fits, valid_block in *.
  apply u32_small. lia.
Qed.

(** The loop starts a run or is inside one that started at [s]. *)
Definition run_state (i s curr : Z) : Prop :=
  (s = -1 /\ curr = i) \/
  (0 <= s < i /\ curr = s /\ i < req /\
   forall j, s <= j < i -> chain_at oob chain (j + 1) = chain_at oob chain j + 1).

Lemma run_ascends s i :
  0 <= s ->
  (forall j, s <= j < i -> chain_at oob chain (j + 1) = chain_at oob chain j + 1) ->
  forall j, s <= j <= i -> chain_at oob chain j = chain_at oob chain s + (j - s).
Proof.
  intros Hs Hstep.
  assert (forall t : nat, s + Z.of_nat t <= i ->
    chain_at oob chain (s + Z.of_nat t) = chain_at oob chain s + Z.of_nat t) as Ht.
  { induction t as [|t IH]; intros Ht; [rewrite !Z.add_0_r; done|].
    replace (s + Z.of_nat (S t)) with (s + Z.of_nat t + 1) by lia.
    rewrite Hstep, IH by lia. lia. }
  intros j Hj. specialize (Ht (Z.to_nat (j - s)) ltac:(lia)).
  replace (s + Z.of_nat (Z.to_nat (j - s))) with j in Ht by lia. rewrite Ht. lia.
Qed.

Lemma block_sectors_1 : block_sectors e = 1 * blockSize e / SECTOR_SIZE.
Proof. unfold block_sectors. by rewrite Z.mul_1_l. Qed.

(** The last round, at the extra block. *)
Lemma read_runs_last tmp :
  (req + 1) * blockSize e <= zlen tmp -> filled req tmp ->
  exists tmp', read_runs oob 1 req e chain req tmp req (-1) (mkFs d e l h) =
      Ok (tmp', mkFs d e l h) /\ zlen tmp' = zlen tmp /\ filled m tmp'.
Proof.
  intros Hz HF. cbn [read_runs]. pose proof (chain_lookup req ltac:(lia)) as Hc.
  set (b := chain_at oob chain req) in *.
  destruct (Z.eqb_spec b 0) as [E0|N0].
  { exists tmp. repeat split; try done. destruct Hm as [Em|Em]; [by rewrite Em|].
    destruct (chain_valid req) as [Hnz _]; [lia|]. done. }
  assert (valid_block e b) as Hv by (by destruct (Hext b Hc)).
  rewrite (u64_small (req - 1)), (proj2 (Z.eqb_neq req (req - 1))) by lia.
  cbn [Z.ltb negb andb Z.compare]. rewrite (valid_succ b Hv).
  assert (chain_at oob chain (req + 1) = oob) as ->.
  { unfold chain_at, zlen in *. rewrite lookup_ge_None_2; [done|lia]. }
  destruct (Z.eqb_spec oob (b + 1)) as [Eo|No].
  { exists tmp. repeat split; try done. destruct Hm as [Em|Em]; [by rewrite Em|].
    by destruct (Hoob Em b Hc). }
  rewrite block_sectors_1.
  destruct (read_run_into req 1 b tmp) as (tmp' & E & Hz' & HF'); try done; try lia.
  { intros j Hj. replace j with 0 by lia. by rewrite !Z.add_0_r. }
  { by replace (b + 1 - 1) with b by lia. }
  mrw E. exists tmp'. split; [done|]. split; [done|].
  apply (filled_le (req + 1)); [lia|lia|done].
Qed.

(** One round of the loop. *)
Lemma read_runs_S n i tmp curr s :
  read_runs oob (S n) i e chain req tmp curr s =
    (let b := chain_at oob chain i in
      if b =? 0 then ret tmp
      else
        let last := i =? u64 (req - 1) in
        let next := chain_at oob chain (i + 1) =? u32 (b + 1) in
        if s <? 0 then
          if negb last && next then read_runs oob n (i + 1) e chain req tmp curr i
          else
            let! tmp := read_into tmp (curr * blockSize e) (BLOCK_TO_LBA e 0 b)
                          (block_sectors e) in
            read_runs oob n (i + 1) e chain req tmp (curr + 1) (-1)
        else if last || negb next then
          let! tmp := read_into tmp (curr * blockSize e)
                        (BLOCK_TO_LBA e 0 (chain_at oob chain s))
                        ((i - s + 1) * blockSize e / SECTOR_SIZE) in
          read_runs oob n (i + 1) e chain req tmp (curr + (i - s + 1)) (-1)
        else read_runs oob n (i + 1) e chain req tmp curr s).
Proof. done. Qed.

Lemma read_runs_ok n : forall i s curr tmp,
  0 <= i -> i + Z.of_nat n = req -> run_state i s curr ->
  (req + 1) * blockSize e <= zlen tmp -> filled curr tmp ->
  exists tmp', read_runs oob (S n) i e chain req tmp curr s (mkFs d e l h) =
      Ok (tmp', mkFs d e l h) /\ zlen tmp' = zlen tmp /\ filled m tmp'.
Proof.
  induction n as [|n IH]; intros i s curr tmp Hi Hn HS Hz HF.
  { replace i with req in * by lia. destruct HS as [[-> ->]|(_ & _ & ? & _)]; [|lia].
    by apply read_runs_last. }
  destruct (chain_valid i) as [Hnz Hv]; [lia|]. rewrite read_runs_S.
  cbv zeta. rewrite (proj2 (Z.eqb_neq _ _) Hnz), u64_small, (valid_succ _ Hv) by lia.
  destruct HS as [[-> ->]|(Hs & -> & Hir & Hrun)].
  - cbn [Z.ltb Z.compare].
    destruct (negb (i =? req - 1) && (chain_at oob chain (i + 1) =? chain_at oob chain i + 1)) eqn:En.
    + apply andb_true_iff in En as [En1%negb_true_iff%Z.eqb_neq En2%Z.eqb_eq].
      apply IH; [lia|lia| |done|done]. right. repeat split; try lia.
      intros j Hj. replace j with i by lia. done.
    + rewrite block_sectors_1.
      destruct (read_run_into i 1 (chain_at oob chain i) tmp) as (tmp' & E & Hz' & HF');
        try done; try lia.
      { intros j Hj. replace j with 0 by lia. rewrite !Z.add_0_r. apply chain_lookup. lia. }
      { by replace (chain_at oob chain i + 1 - 1) with (chain_at oob chain i) by lia. }
      mrw E. rewrite <- Hz'. apply IH; [lia|lia|by left|by rewrite Hz'|done].
  - rewrite (proj2 (Z.ltb_ge s 0)) by lia.
    pose proof (run_ascends s i ltac:(lia) Hrun) as Hasc.
    destruct ((i =? req - 1) || negb (chain_at oob chain (i + 1) =? chain_at oob chain i + 1)) eqn:En.
    + destruct (chain_valid s) as [_ Hvs]; [lia|].
      destruct (read_run_into s (i - s + 1) (chain_at oob chain s) tmp) as (tmp' & E & Hz' & HF');
        try done; try lia.
      { intros j Hj. rewrite chain_lookup by lia. f_equal. rewrite Hasc by lia. lia. }
      { replace (chain_at oob chain s + (i - s + 1) - 1) with (chain_at oob chain i); [done|].
        rewrite (Hasc i) by lia. lia. }
      mrw E. rewrite <- Hz'. apply IH; [lia|lia|left; split; lia|by rewrite Hz'|done].
    + apply orb_false_iff in En as [En1%Z.eqb_neq En2%negb_false_iff%Z.eqb_eq].
      apply IH; [lia|lia| |done|done]. right. repeat split; try lia.
      intros j Hj. destruct (decide (j = i)) as [->|]; [done|]. apply Hrun. lia.
Qed.

End fill.

(** ** The bytes of a file *)

Definition file_at (e : Ext2) (d : gmap Z Z) (ino : Ext2Inode) (k : Z) : Z :=
  block_bytes e d (block_at e d ino (k / blockSize e)) !!! Z.to_nat (k mod blockSize e).

(** [n] bytes from offset [a] on. *)
Definition file_slice (e : Ext2) (d : gmap Z Z) (ino : Ext2Inode) (a n : Z) : list Z :=
  file_at e d ino <$> seqZ a n.

(** [n] whole blocks from index [i] on. *)
Definition file_blocks (e : Ext2) (d : gmap Z Z) (ino : Ext2Inode) (i n : Z) : list Z :=
  blocks_bytes e d (block_at e d ino <$> seqZ i n).

(** The number of blocks the pointers of an inode reach. *)
Definition map_limit (e : Ext2) : Z :=
  12 + blockSize e / 4 + blockSize e / 4 * (blockSize e / 4).

(** A file of [size] bytes without holes. *)
Record file_ok (e : Ext2) (d : gmap Z Z) (ino : Ext2Inode) (size : Z) : Prop := {
  fo_map : map_ok e d ino;
  fo_ptrs : forall i, 0 <= i < map_limit e -> ptr_ok e (block_at e d ino i);
  fo_dense : forall i, 0 <= i -> i * blockSize e < size -> block_at e d ino i <> 0;
  fo_size : 0 <= size /\ size / blockSize e + 3 <= map_limit e;
}.

Section contents.
Context (e : Ext2) (G : geometry e) (d : gmap Z Z) (ino : Ext2Inode).

Lemma file_slice_app a n m :
  0 <= n -> 0 <= m ->
  file_slice e d ino a (n + m) = file_slice e d ino a n ++ file_slice e d ino (a + n) m.
Proof. intros. unfold file_slice. by rewrite seqZ_app, fmap_app by lia. Qed.

Lemma zlen_file_slice a n : 0 <= n -> zlen (file_slice e d ino a n) = n.
Proof. intros. unfold zlen, file_slice. rewrite length_fmap, length_seqZ. lia. Qed.

Lemma blocks_bytes_lookup l (k : nat) b :
  l !! Z.to_nat (Z.of_nat k / blockSize e) = Some b ->
  blocks_bytes e d l !! k = Some (block_bytes e d b !!! Z.to_nat (Z.of_nat k mod blockSize e)).
Proof.
  pose proof (geo_bs_min e G) as Hbs. revert k. induction l as [|b' l IH]; intros k Hk; [done|].
  pose proof (zlen_block_bytes e G d b') as Hz. unfold zlen in Hz.
  rewrite blocks_bytes_cons. destruct (decide (Z.of_nat k < blockSize e)) as [Hlt|Hge].
  - rewrite Z.div_small in Hk by lia. injection Hk as <-. rewrite Z.mod_small by lia.
    rewrite lookup_app_l by lia. rewrite Nat2Z.id. apply list_lookup_lookup_total_lt. lia.
  - rewrite lookup_app_r by lia.
    set (k' := (k - length (block_bytes e d b'))%nat).
    assert (Z.of_nat k = Z.of_nat k' + 1 * blockSize e) as Ek by lia.
    rewrite Ek, Z.div_add in Hk by lia. rewrite Ek, Z.mod_add by lia. apply IH.
    pose proof (Z.div_pos (Z.of_nat k') (blockSize e) ltac:(lia) ltac:(lia)).
    replace (Z.to_nat (Z.of_nat k' / blockSize e + 1)) with
      (S (Z.to_nat (Z.of_nat k' / blockSize e))) in Hk by lia. done.
Qed.

(** A slice of whole blocks of the file is a slice of the file. *)
Lemma slice_file_blocks i r n m :
  0 <= i -> 0 <= r -> 0 <= n -> r + n <= m * blockSize e ->
  slice r n (file_blocks e d ino i m) = file_slice e d ino (i * blockSize e + r) n.
Proof.
  intros Hi Hr Hn Hrn. pose proof (geo_bs_min e G) as Hbs. apply list_eq. intros j.
  rewrite slice_lookup by lia. unfold file_slice. rewrite list_lookup_fmap. case_decide as Hj.
  - rewrite lookup_seqZ_lt by lia. cbn. unfold file_blocks.
    assert (Z.of_nat (Z.to_nat r + j) = r + Z.of_nat j) as Ej by lia.
    assert (0 <= (r + Z.of_nat j) / blockSize e < m) as Hq.
    { split; [apply Z.div_pos; lia|]. apply Z.div_lt_upper_bound; lia. }
    erewrite blocks_bytes_lookup; rewrite Ej.
    2:{ rewrite list_lookup_fmap, lookup_seqZ_lt by lia. done. }
    unfold file_at.
    replace (i * blockSize e + r + Z.of_nat j) with (r + Z.of_nat j + i * blockSize e) by lia.
    rewrite Z.div_add, Z.mod_add by lia. do 4 f_equal. lia.
  - rewrite lookup_ge_None_2; [done|]. rewrite length_seqZ. lia.
Qed.

Lemma zlen_file_blocks i n : 0 <= n -> zlen (file_blocks e d ino i n) = n * blockSize e.
Proof.
  intros. unfold file_blocks. rewrite zlen_blocks_bytes by done.
  unfold zlen. rewrite length_fmap, length_seqZ. f_equal. lia.
Qed.

Lemma file_blocks_prefix i n m :
  0 <= n <= m -> slice 0 (n * blockSize e) (file_blocks e d ino i m) = file_blocks e d ino i n.
Proof.
  intros Hn. pose proof (zlen_file_blocks i n ltac:(lia)) as Hz. unfold file_blocks in *.
  replace m with (n + (m - n)) by lia. rewrite seqZ_app, fmap_app, blocks_bytes_app by lia.
  rewrite <- Hz, slice_app_l by lia. apply slice_full.
Qed.

End contents.

(** ** The cache holds blocks of the file *)

Definition run_valid (e : Ext2) (d : gmap Z Z) (ino : Ext2Inode) (r : run) : Prop :=
  0 <= r_index r < map_limit e /\ 0 < r_blocks r < map_limit e /\
  r_blocks r * blockSize e <= zlen (r_buff r) /\
  slice 0 (r_blocks r * blockSize e) (r_buff r) = file_blocks e d ino (r_index r) (r_blocks r).

Definition cache_valid (e : Ext2) (d : gmap Z Z) (ino : Ext2Inode) (l : list (Z * run)) : Prop :=
  Forall (fun x => run_valid e d ino x.2) l.

Section inner.
Context (vmem : Z -> list Z) (oob : Z) (Hvmem : forall n, 0 <= n -> zlen (vmem n) = n).
Context (e : Ext2) (G : geometry e) (d : gmap Z Z) (ino : Ext2Inode) (size : Z).
Context (F : file_ok e d ino size).
Context (lk : gmap ext2_lock Z) (inodeNum k obj : Z).
Context (Hlk : lk !! WLOCKS_BLOCK_BITMAP (INODE_TO_BLOCK_GROUP u32 e inodeNum) = Some k).
Context (Hk : 0 <= k) (Hcl : lk !! WLOCK_CACHE obj = Some 0).

Lemma limit_bound : map_limit e < 2 ^ 29 /\ 256 <= map_limit e.
Proof. destruct (items_bounds e G) as (_ & ? & _). unfold map_limit. nia. Qed.

(** The buffer of [ext2ReadInner] for [req] blocks from file block [start] on. *)
Lemma fill_ok h start req m c :
  control_ok e d c -> 0 <= start -> 1 <= req -> start + req + 1 <= map_limit e ->
  (m = req \/ m = req + 1) ->
  (forall i, start <= i < start + m -> block_at e d ino i <> 0) ->
  (m = req + 1 -> oob <> block_at e d ino (start + req) + 1) ->
  exists c' tmp,
    ext2BlockChain ino inodeNum c start req (mkFs d e lk h) =
      Ok ((block_at e d ino <$> seqZ start (req + 1), c'), mkFs d e lk h) /\
    control_ok e d c' /\
    read_runs oob (Z.to_nat (req + 1)) 0 e (block_at e d ino <$> seqZ start (req + 1)) req
      (vmem (CEILING_DIVISION (u64 ((req + 1) * blockSize e)) BLOCK_SIZE * BLOCK_SIZE)) 0 (-1)
      (mkFs d e lk h) = Ok (tmp, mkFs d e lk h) /\
    (req + 1) * blockSize e <= zlen tmp /\
    slice 0 (m * blockSize e) tmp = file_blocks e d ino start m.
Proof.
  intros Hc Hs Hr Hend Hm Hnz Hoob. pose proof limit_bound. pose proof (geo_bs_min e G).
  destruct (block_chain_ok e d lk h ino inodeNum k (Z.to_nat (1 + req)) start c) as (c' & E & Hc');
    try done; [apply (fo_map _ _ _ _ F)|unfold map_limit in *; lia|].
  replace (Z.of_nat (Z.to_nat (1 + req))) with (req + 1) in E by lia.
  set (chain := block_at e d ino <$> seqZ start (req + 1)) in *.
  assert (forall j, 0 <= j <= req -> chain !! Z.to_nat j = Some (block_at e d ino (start + j))) as Hch.
  { intros j Hj. unfold chain. rewrite list_lookup_fmap, lookup_seqZ_lt by lia. cbn. do 2 f_equal. lia. }
  set (n := CEILING_DIVISION _ _ * _).
  assert ((req + 1) * blockSize e <= n) as Hn.
  { subst n. unfold BLOCK_SIZE. rewrite u64_small by nia. rewrite CEILING_DIVISION_spec by nia.
    pose proof (ceiling_bounds ((req + 1) * blockSize e) 4096 ltac:(nia) ltac:(lia)). lia. }
  destruct (read_runs_ok e G d lk h oob chain req) with (m := m) (n := Z.to_nat req) (i := 0)
    (s := -1) (curr := 0) (tmp := vmem n) as (tmp & Et & Hzt & Hft); try done; try lia.
  - unfold zlen, chain. rewrite length_fmap, length_seqZ. lia.
  - intros j b Hj Hb. rewrite Hch in Hb by lia. injection Hb as <-.
    assert (block_at e d ino (start + j) <> 0) as Hj0 by (apply Hnz; lia).
    split; [done|]. destruct (fo_ptrs _ _ _ _ F (start + j)); [lia|done..].
  - intros b Hb. rewrite Hch in Hb by lia. injection Hb as <-. apply (fo_ptrs _ _ _ _ F). lia.
  - intros Em b Hb. rewrite Hch in Hb by lia. injection Hb as <-. by apply Hoob.
  - by left.
  - by rewrite Hvmem by lia.
  - exists c', tmp. split; [done|]. split; [done|].
    replace (Z.to_nat (req + 1)) with (S (Z.to_nat req)) by lia. split; [done|].
    rewrite Hvmem in Hzt by lia. split; [lia|].
    rewrite Hft. unfold file_blocks, chain. f_equal. rewrite <- fmap_take. f_equal.
    replace (req + 1) with (m + (req + 1 - m)) by lia. rewrite seqZ_app by lia.
    apply take_app_length'. rewrite length_seqZ. done.
Qed.

(** The bytes copied out of the buffer. *)
Lemma copy_out tmp start off limit m :
  0 <= start -> 0 <= off < blockSize e -> 1 <= limit -> off + limit <= m * blockSize e ->
  m * blockSize e <= zlen tmp ->
  slice 0 (m * blockSize e) tmp = file_blocks e d ino start m ->
  exists head tail,
    load off (Z.min (blockSize e - off) limit) tmp = Some head /\
    (if Z.min (blockSize e - off) limit <? limit
     then from_option_fault (load (blockSize e) (limit - Z.min (blockSize e - off) limit) tmp)
     else ret []) = ret (S := fs) tail /\
    head ++ tail = file_slice e d ino (start * blockSize e + off) limit.
Proof.
  intros Hs Hoff Hl Hm Hz Hf. pose proof (geo_bs_min e G).
  assert (forall a n, 0 <= a -> 0 <= n -> a + n <= off + limit ->
    load a n tmp = Some (file_slice e d ino (start * blockSize e + a) n)) as HL.
  { intros a n Ha Hn Han. rewrite load_ok by lia. f_equal.
    rewrite <- (slice_file_blocks e G d ino start a n m), <- Hf by lia.
    rewrite slice_slice by lia. done. }
  rewrite HL by lia. eexists. destruct (Z.ltb_spec (Z.min (blockSize e - off) limit) limit).
  - rewrite HL by lia. eexists. split; [done|]. split; [done|].
    rewrite Z.min_l by lia.
    transitivity (file_slice e d ino (start * blockSize e + off)
      ((blockSize e - off) + (limit - (blockSize e - off)))); [|f_equal; lia].
    rewrite file_slice_app by lia. do 2 f_equal. lia.
  - exists []. split; [done|]. split; [done|]. rewrite app_nil_r. f_equal. lia.
Qed.

Lemma size_bound : size < 2 ^ 46.
Proof.
  destruct (fo_size _ _ _ _ F) as [_ Hmax]. pose proof limit_bound. pose proof (geo_bs_min e G).
  pose proof (Z.div_mod size (blockSize e) ltac:(lia)).
  pose proof (Z.mod_pos_bound size (blockSize e) ltac:(lia)).
  assert (blockSize e * (size / blockSize e) <= 65536 * 2 ^ 29); [|lia].
  destruct (decide (0 <= size / blockSize e)); [|nia]. apply Z.mul_le_mono_nonneg; lia.
Qed.

(** The blocks a read of [limit] bytes at [ptr] needs. *)
Lemma read_arith ptr limit sz :
  let bs := blockSize e in
  let req := (limit + bs - 1) / bs in
  0 <= ptr -> 1 <= limit -> ptr + limit <= sz ->
  0 <= ptr / bs /\ 0 <= ptr mod bs < bs /\ ptr = ptr / bs * bs + ptr mod bs /\
  1 <= req /\ limit <= req * bs < limit + bs /\ ptr / bs + req <= sz / bs + 1.
Proof.
  intros bs req Hp Hl Hsz. pose proof (geo_bs_min e G) as Hbs. fold bs in Hbs.
  pose proof (ceiling_bounds limit bs ltac:(lia) ltac:(lia)) as Hreq. fold req in Hreq.
  pose proof (Z.div_mod ptr bs ltac:(lia)) as Hdm.
  pose proof (Z.mod_pos_bound ptr bs ltac:(lia)) as Hmod.
  pose proof (Z.div_mod sz bs ltac:(lia)) as Hdms.
  pose proof (Z.mod_pos_bound sz bs ltac:(lia)) as Hmods.
  pose proof (Z.div_pos ptr bs ltac:(lia) ltac:(lia)) as Hq.
  clearbody req bs. generalize dependent (ptr / bs). generalize dependent (sz / bs).
  generalize dependent (ptr mod bs). generalize dependent (sz mod bs). intros R ? r ? Q ? q ??.
  repeat split; nia.
Qed.

(** Whether the extra block is needed. *)
Lemma extra_block bs r limit req :
  0 <= r < bs -> 1 <= limit -> limit <= req * bs < limit + bs ->
  let m := if decide (r + limit <= req * bs) then req else req + 1 in
  (m = req \/ m = req + 1) /\ r + limit <= m * bs /\ (m - 1) * bs < r + limit /\
  (m = req + 1 -> ~ r + limit <= req * bs).
Proof. intros Hr Hl Hreq m. subst m. case_decide; repeat split; try lia; auto. Qed.

(** [ext2ReadInner] returns the bytes of the file at the pointer and leaves the
    blocks it read in the cache. *)
Lemma ext2ReadInner_ok h ptr limit l c :
  control_ok e d c -> cache_rep h obj l -> cache_valid e d ino l ->
  let bs := blockSize e in
  let req := (limit + bs - 1) / bs in
  0 <= ptr -> 1 <= limit -> ptr + limit <= size ->
  ptr mod bs + limit <= req * bs \/ oob <> block_at e d ino (ptr / bs + req) + 1 ->
  exists c' h' a buff,
    let dir p c := mkFd c obj p inodeNum ino in
    ext2ReadInner vmem oob (dir ptr c) limit (mkFs d e lk h) =
      Ok ((file_slice e d ino ptr limit, dir (ptr + limit) c'), mkFs d e lk h') /\
    control_ok e d c' /\ (cache_frame obj l h h' /\ h_brk h <= a) /\
    cache_rep h' obj (before (ptr / bs) l ++ (a, (ptr / bs, buff, req)) :: behind (ptr / bs) req l) /\
    run_valid e d ino (ptr / bs, buff, req).
Proof.
  intros Hc R V bs req Hp Hl Hsz Hx. pose proof limit_bound as HB. pose proof size_bound.
  pose proof (geo_bs_min e G) as Hbs. fold bs in Hbs.
  destruct (read_arith ptr limit size Hp Hl Hsz) as (Hq & Hmod & Hdm & Hr1 & Hreq & Hend).
  fold bs req in Hq, Hmod, Hdm, Hr1, Hreq, Hend.
  destruct (extra_block bs (ptr mod bs) limit req Hmod Hl Hreq) as (Hm & Hml & Hmu & Hmx).
  set (m := if decide _ then req else _) in *. clearbody m.
  destruct (fo_size _ _ _ _ F) as [_ Hmax]. fold bs in Hmax.
  destruct (fill_ok h (ptr / bs) req m c) as (c' & tmp & Ec & Hc' & Et & Hzt & Hft); try done.
  - lia.
  - intros i Hi. apply (fo_dense _ _ _ _ F); [lia|]. fold bs.
    pose proof (Z.mul_le_mono_nonneg_r i (ptr / bs + (m - 1)) bs ltac:(lia) ltac:(lia)). lia.
  - intros Em. specialize (Hmx Em). tauto.
  - fold bs in Hzt, Hft, Et.
    destruct (copy_out tmp (ptr / bs) (ptr mod bs) limit m) as (hd & tl & E1 & E2 & E3); try done.
    { fold bs. pose proof (Z.mul_le_mono_nonneg_r m (req + 1) bs ltac:(lia) ltac:(lia)). lia. }
    destruct (ext2CacheAddSecurely_ok d e lk h obj l tmp (ptr / bs) req R Hcl) as (a & h' & Ea & R' & F' & Ha & _);
      [lia..|].
    exists c', h', a, tmp. cbn zeta. split; [|split; [done|split; [done|split; [done|]]]].
    + unfold ext2ReadInner. erewrite bind_ok by done. cbn [ext2 f_inode f_inodeNum f_lookup f_ptr].
      fold bs. rewrite (CEILING_DIVISION_spec limit bs) by lia. fold req. mrw Ec. mrw Et.
      rewrite u32_small by lia.
      fold bs in E1, E2, E3. rewrite E1. cbn [from_option_fault]. erewrite bind_ok by done.
      rewrite E2. erewrite bind_ok by done. mrw Ea.
      rewrite E3. unfold fd_set_ptr, fd_set_lookup. cbn. rewrite u64_small by lia.
      rewrite <- Hdm. done.
    + unfold run_valid. cbn. fold bs. split; [lia|]. split; [lia|]. split; [lia|].
      rewrite <- (file_blocks_prefix e G d ino (ptr / bs) req m), <- Hft by lia. fold bs.
      rewrite slice_slice; [done|lia..|]. apply Z.mul_le_mono_nonneg_r; lia.
Qed.

(** ** The loop of [ext2Read] *)

(** Moving to the end of [B] blocks. *)
Lemma block_step ptr B :
  0 <= ptr -> 1 <= B ->
  let bs := blockSize e in
  let ptr' := ptr + (B * bs - ptr mod bs) in
  ptr' / bs = ptr / bs + B /\ ptr' mod bs = 0 /\ 1 <= B * bs - ptr mod bs.
Proof.
  intros Hp HB bs ptr'. pose proof (geo_bs_min e G) as Hbs. fold bs in Hbs.
  pose proof (Z.div_mod ptr bs ltac:(lia)). pose proof (Z.mod_pos_bound ptr bs ltac:(lia)).
  assert (ptr' = (ptr / bs + B) * bs) as -> by (subst ptr'; lia).
  rewrite Z.div_mul, Z.mod_mul by lia. split; [done|]. split; [done|]. nia.
Qed.

Context (ptr0 limit : Z).
Context (Hp0 : 0 <= ptr0) (Hlim : 1 <= limit) (Hsize : ptr0 + limit <= size).

Let bs := blockSize e.
Let start := ptr0 / bs.
Let req := (limit + bs - 1) / bs.

Let fd (p : Z) (c : Ext2LookupControl) : Ext2OpenFd := mkFd c obj p inodeNum ino.

(** [cacheObj] is [NULL] or an entry of the cache. *)
Inductive cursor (l : list (Z * run)) : Z -> option (Z * run) -> Prop :=
| cursor_none : cursor l 0 None
| cursor_some la x lb : l = la ++ x :: lb -> cursor l x.1 (Some x).

(** The state of the loop with [left_ > 0] bytes to go. *)
Record loop_state (h : heap) (l : list (Z * run)) (i left_ cacheObj : Z) (x : option (Z * run))
    (c : Ext2LookupControl) : Prop := {
  lp_left : 1 <= left_ <= limit;
  lp_i : 0 <= i /\ (ptr0 + (limit - left_)) / bs = start + i;
  lp_ctl : control_ok e d c;
  lp_rep : cache_rep h obj l;
  lp_valid : cache_valid e d ino l;
  lp_cursor : cursor l cacheObj x;
  lp_first : (ptr0 + (limit - left_)) mod bs = 0 \/
    (i = 0 /\ left_ = limit /\
     match x with Some x => start <= r_index x.2 < start + req | None => True end);
}.

(** The index never passes the extra block. *)
Lemma loop_index h l i left_ cacheObj x c : loop_state h l i left_ cacheObj x c -> i <= req.
Proof.
  intros S. destruct (lp_left _ _ _ _ _ _ _ S) as [Hl1 Hl2], (lp_i _ _ _ _ _ _ _ S) as [_ Hi].
  destruct (read_arith ptr0 limit size Hp0 Hlim Hsize) as (_ & Hm & Hdm & _ & Hr & _).
  fold bs start req in Hm, Hdm, Hr. pose proof (geo_bs_min e G) as Hbs. fold bs in Hbs.
  assert ((ptr0 + (limit - left_)) / bs < start + req + 1); [|lia].
  apply Z.div_lt_upper_bound; lia.
Qed.

Lemma cursor_in l x : x ∈ l -> cursor l x.1 (Some x).
Proof. intros (la & lb & E)%list_elem_of_split. by eapply cursor_some. Qed.

Lemma cursor_lookup h l cacheObj x :
  cache_rep h obj l -> cursor l cacheObj (Some x) ->
  cacheObj = x.1 /\ x.1 <> 0 /\ exists nxt prev y,
    h_cache h !! x.1 = Some (cache_cell nxt prev x.2) /\ cursor l nxt y.
Proof.
  intros R HC. inversion HC as [|la x' lb El E1 E2]; subst. split; [done|].
  pose proof (cr_addrs _ _ _ R) as HA. apply Forall_app in HA as [_ [Hx _]%Forall_cons].
  cbn in Hx. split; [lia|]. pose proof (linked_lookup _ _ _ _ _ _ _ (cr_links _ _ _ R)) as HL.
  destruct lb as [|y lb].
  - exists 0, (last_addr 0 la), None. split; [done|constructor].
  - exists y.1, (last_addr 0 la), (Some y). split; [done|].
    by apply (cursor_some _ (la ++ [x]) y lb); rewrite <- app_assoc.
Qed.

(** What one round of the loop achieves. *)
Definition step_result (h : heap) (l : list (Z * run)) (i left_ : Z) (ptr : Z)
    (r : outcome (list Z * Z * Z * Z * Ext2OpenFd * fs)) : Prop :=
  exists toCopy i' cacheObj' x' c' h' l',
    r = Ok ((file_slice e d ino ptr toCopy, toCopy, i', cacheObj', fd (ptr + toCopy) c'),
            mkFs d e lk h') /\
    1 <= toCopy <= left_ /\
    (toCopy < left_ -> exists B, 1 <= B /\ toCopy = B * bs - ptr mod bs /\ u64 (i' + 1) = i + B /\
       cursor l' cacheObj' x') /\
    control_ok e d c' /\ cache_rep h' obj l' /\ cache_valid e d ino l' /\
    cache_frame obj l h h' /\ (forall a, a ∈ l'.*1 -> a ∈ l.*1 \/ h_brk h <= a).

Lemma loop_bounds h l i left_ cacheObj x c :
  loop_state h l i left_ cacheObj x c ->
  let ptr := ptr0 + (limit - left_) in
  0 <= ptr < 2 ^ 46 /\ 0 <= start /\ 1 <= req < 2 ^ 30 /\ start + req < 2 ^ 30 /\
  0 <= ptr mod bs < bs /\ 0 <= i <= req /\ 1024 <= bs <= 65536 /\ start + i < map_limit e.
Proof.
  intros S ptr. pose proof (loop_index _ _ _ _ _ _ _ S). pose proof size_bound.
  destruct (lp_left _ _ _ _ _ _ _ S), (lp_i _ _ _ _ _ _ _ S).
  destruct (read_arith ptr0 limit size Hp0 Hlim Hsize) as (Hq & Hm & Hdm & Hr1 & Hr & Hend).
  fold bs start req in Hq, Hm, Hdm, Hr1, Hr, Hend. pose proof (geo_bs_min e G) as Hbs. fold bs in Hbs.
  pose proof (Z.mod_pos_bound ptr bs ltac:(lia)). pose proof limit_bound.
  destruct (fo_size _ _ _ _ F) as [_ Hmax]. fold bs in Hmax.
  clearbody start req bs. subst ptr. repeat split; lia.
Qed.

(** A run of the cache at the position. *)
Lemma read_step_hit h l i left_ cacheObj x c :
  loop_state h l i left_ cacheObj (Some x) c -> r_index x.2 = start + i ->
  let ptr := ptr0 + (limit - left_) in
  step_result h l i left_ ptr
    (read_step vmem oob e start req i left_ cacheObj (fd ptr c) (mkFs d e lk h)).
Proof.
  intros S Hidx ptr.
  destruct (loop_bounds _ _ _ _ _ _ _ S) as (Hp & Hs & Hr & Hsr & Hm & Hi & Hbs & Him).
  fold ptr in Hp, Hm.
  pose proof S as [Hleft [_ Hq] Hc R V HC _]. fold ptr in Hq.
  destruct (cursor_lookup h l cacheObj x R HC) as (-> & Hx0 & nxt & prev & y & Hcell & Hy).
  assert (run_valid e d ino x.2) as Hv.
  { inversion HC; subst. apply Forall_app in V as [_ [Hv _]%Forall_cons]. done. }
  destruct Hv as (_ & HB & HbB & Hbuf). fold bs in HbB, Hbuf. pose proof limit_bound as HL.
  destruct (block_step ptr (r_blocks x.2)) as (_ & _ & Hav); [lia|lia|]. fold bs in Hav.
  assert (r_blocks x.2 * bs < 2 ^ 46) as Hsmall.
  { pose proof (Z.mul_le_mono_nonneg (r_blocks x.2) (2 ^ 29) bs 65536). lia. }
  set (toCopy := Z.min left_ (r_blocks x.2 * bs - ptr mod bs)).
  assert (slice (ptr mod bs) toCopy (r_buff x.2) = file_slice e d ino ptr toCopy) as Hb'.
  { rewrite <- (Z.add_0_l (ptr mod bs)), <- (slice_slice (ptr mod bs) toCopy 0 (r_blocks x.2 * bs)) by lia.
    rewrite Hbuf, slice_file_blocks by (done || fold bs; lia). f_equal. fold bs.
    rewrite Hidx, <- Hq. pose proof (Z.div_mod ptr bs ltac:(lia)). lia. }
  exists toCopy, (i + r_blocks x.2 - 1), nxt, y, c, h, l. split.
  - unfold read_step, cache_deref. rewrite (proj2 (Z.eqb_neq _ _) Hx0).
    erewrite bind_ok; [|mgo get_cache_ok; [reflexivity|exact Hcell]].
    cbn [at_index c_blockIndex cache_cell f_ptr fd f_globalObject default c_blocks c_buff c_next].
    rewrite Hidx, (u64_small (start + i)), Z.eqb_refl by lia. cbn [id].
    mgo read_acquire_ok; [|exact Hcl|lia]. fold bs. cbn [c_blocks c_buff c_next cache_cell].
    rewrite (u32_small (ptr mod bs)), (u64_small (r_blocks x.2 * bs)), u64_small by lia.
    fold toCopy. rewrite load_ok by lia. cbn [from_option_fault]. erewrite bind_ok by done.
    mgo read_release_ok; [|exact Hcl|lia]. unfold fd_set_ptr, fd. cbn.
    rewrite (u32_small (r_blocks x.2 - 1)), !u64_small by lia.
    replace (i + (r_blocks x.2 - 1)) with (i + r_blocks x.2 - 1) by lia. by rewrite Hb'.
  - split; [lia|]. split.
    { intros Hlt. exists (r_blocks x.2). repeat split; [lia|lia| |done].
      rewrite u64_small by lia. lia. }
    split; [done|]. split; [done|]. split; [done|]. split; [apply cache_frame_refl|auto].
Qed.

(** Fetching [toCopy] bytes that do not reach into the extra block. *)
Lemma read_step_fetch h l i left_ cacheObj x c toCopy i' :
  loop_state h l i left_ cacheObj x c ->
  let ptr := ptr0 + (limit - left_) in
  1 <= toCopy <= left_ ->
  ptr mod bs + toCopy <= (toCopy + bs - 1) / bs * bs ->
  (toCopy < left_ -> exists B, 1 <= B /\ toCopy = B * bs - ptr mod bs /\ u64 (i' + 1) = i + B /\
     match x with Some x => start + i + B <= r_index x.2 | None => True end) ->
  step_result h l i left_ ptr
    ((let! (bytes, dir) := ext2ReadInner vmem oob (fd ptr c) toCopy in
      ret (bytes, toCopy, i', cacheObj, dir)) (mkFs d e lk h)).
Proof.
  intros S ptr Htc Hx Hmore.
  destruct (loop_bounds _ _ _ _ _ _ _ S) as (Hp & Hs & Hr & Hsr & Hm & Hi & Hbs & Him).
  fold ptr in Hp, Hm. pose proof S as [Hleft [_ Hq] Hc R V HC _]. fold ptr in Hq.
  destruct (ext2ReadInner_ok h ptr toCopy l c Hc R V) as (c' & h' & a & buff & E & Hc' & [Fr Ha] & R' & V');
    [lia|lia|subst ptr; lia|by left|].
  cbn zeta in E. set (q := (toCopy + bs - 1) / bs) in *. fold bs in R', V'. rewrite Hq in R', V'.
  fold q in R', V'.
  exists toCopy, i', cacheObj, x, c', h', (before (start + i) l ++ (a, (start + i, buff, q)) :: behind (start + i) q l).
  split; [unfold fd at 1; mrw E; done|]. split; [done|]. split; [|split; [done|split; [done|]]].
  - intros Hlt. destruct (Hmore Hlt) as (B & HB & HtB & Hi' & Hxi). exists B. repeat split; try done.
    inversion HC as [|la x' lb El E1 E2]; subst x; [constructor|]. apply cursor_in.
    apply elem_of_app. right. right. apply list_elem_of_filter.
    split; [|rewrite El; apply elem_of_app; right; left].
    assert (q < B + 1) by (subst q; apply Z.div_lt_upper_bound; lia). lia.
  - split; [|split; [done|]].
    + apply Forall_app. split; [|constructor; [done|]];
        (apply Forall_forall; intros y [_ Hy]%list_elem_of_filter;
         unfold cache_valid in V; rewrite Forall_forall in V; by apply V).
    + intros b. rewrite fmap_app, elem_of_app. cbn. rewrite elem_of_cons.
      intros [Hb|[->|Hb]]; [|by right|]; left;
        apply list_elem_of_fmap in Hb as (y & -> & [_ Hy]%list_elem_of_filter);
        by apply list_elem_of_fmap_2.
Qed.


Lemma ceil_covers r t B :
  0 <= r -> r + t <= B * bs -> (B - 1) * bs < t -> r + t <= (t + bs - 1) / bs * bs.
Proof.
  intros Hr Ht HB. pose proof (geo_bs_min e G) as Hbs. fold bs in Hbs.
  pose proof (Z.div_le_lower_bound (t + bs - 1) bs B ltac:(lia) ltac:(lia)) as Hge.
  pose proof (Z.mul_le_mono_nonneg_r B _ bs ltac:(lia) Hge). lia.
Qed.

Lemma ceil_aligned r t : r = 0 -> 1 <= t -> r + t <= (t + bs - 1) / bs * bs.
Proof.
  intros -> Ht. pose proof (geo_bs_min e G) as Hbs. fold bs in Hbs.
  pose proof (ceiling_bounds t bs ltac:(lia) ltac:(lia)). lia.
Qed.

(** No cached run ahead. *)
Lemma read_step_plain h l i left_ c :
  loop_state h l i left_ 0 None c ->
  let ptr := ptr0 + (limit - left_) in
  step_result h l i left_ ptr
    (read_step vmem oob e start req i left_ 0 (fd ptr c) (mkFs d e lk h)).
Proof.
  intros S ptr.
  destruct (loop_bounds _ _ _ _ _ _ _ S) as (Hp & Hs & Hr & Hsr & Hm & Hi & Hbs & Him).
  fold ptr in Hp, Hm. pose proof S as [Hleft [_ Hq] Hc R V HC Hfst]. fold ptr in Hq, Hfst.
  unfold read_step. erewrite bind_ok by done. cbn [at_index f_ptr fd]. fold bs.
  rewrite (u64_small (req - i)), (u32_small (ptr mod bs)) by lia.
  set (B := if req - i =? 0 then 1 else req - i).
  assert (1 <= B <= req /\ (i = 0 -> B = req)) as [HB HB0].
  { subst B. destruct (Z.eqb_spec (req - i) 0); lia. }
  destruct (block_step ptr B) as (_ & _ & Hav); [lia|lia|]. fold bs in Hav.
  assert (B * bs < 2 ^ 47) as Hsmall.
  { pose proof (Z.mul_le_mono_nonneg B (2 ^ 30) bs 65536). lia. }
  clearbody B. rewrite (u64_small (B * bs)), (u64_small (B * bs - _)) by lia.
  rewrite (u64_small (B - 1)), (u64_small (i + (B - 1))) by lia.
  destruct (read_arith ptr0 limit size Hp0 Hlim Hsize) as (_ & _ & _ & _ & Hrb & _).
  fold bs req in Hrb.
  apply (read_step_fetch h l i left_ 0 None c); [done|lia| |].
  - fold ptr. destruct Hfst as [Hz|(-> & -> & _)]; [apply ceil_aligned; lia|].
    apply (ceil_covers _ _ B); [lia|lia|]. rewrite HB0 by done. lia.
  - intros Hlt. exists B. fold ptr. rewrite u64_small by lia. repeat split; lia.
Qed.

(** A cached run further ahead, or one that the position has already passed. *)
Lemma read_step_gap h l i left_ cacheObj x c :
  loop_state h l i left_ cacheObj (Some x) c -> r_index x.2 <> start + i ->
  let ptr := ptr0 + (limit - left_) in
  step_result h l i left_ ptr
    (read_step vmem oob e start req i left_ cacheObj (fd ptr c) (mkFs d e lk h)).
Proof.
  intros S Hidx ptr.
  destruct (loop_bounds _ _ _ _ _ _ _ S) as (Hp & Hs & Hr & Hsr & Hm & Hi & Hbs & Him).
  fold ptr in Hp, Hm. pose proof S as [Hleft [_ Hq] Hc R V HC Hfst]. fold ptr in Hq, Hfst.
  destruct (cursor_lookup h l cacheObj x R HC) as (-> & Hx0 & nxt & prev & y & Hcell & Hy).
  assert (run_valid e d ino x.2) as (Hx & _).
  { inversion HC; subst. apply Forall_app in V as [_ [Hv _]%Forall_cons]. done. }
  pose proof limit_bound as HL. pose proof (Z.div_mod ptr bs ltac:(lia)) as Hdm.
  unfold read_step, cache_deref. rewrite (proj2 (Z.eqb_neq _ _) Hx0).
  erewrite bind_ok; [|mgo get_cache_ok; [reflexivity|exact Hcell]].
  cbn [at_index c_blockIndex cache_cell f_ptr fd]. fold bs.
  rewrite (u64_small (start + i)), (proj2 (Z.eqb_neq _ _) Hidx), Hq, (u32_small (ptr mod bs)) by lia.
  set (idx := r_index x.2) in *.
  destruct (decide (idx < start + i)) as [Hlt|Hge].
  - assert (ptr mod bs = 0) as Hz by (destruct Hfst as [?|(-> & _ & ?)]; lia).
    assert (0 < (start + i - idx) * bs <= ptr) as Hback.
    { split; [apply Z.mul_pos_pos; lia|].
      pose proof (Z.mul_le_mono_nonneg_r (start + i - idx) (start + i) bs). lia. }
    rewrite u64_mul_l. replace ((idx - (start + i)) * bs) with (- ((start + i - idx) * bs)) by lia.
    rewrite u64_neg by lia. rewrite Hz, Z.sub_0_r, u64_small by lia.
    pose proof size_bound. rewrite Z.min_l by lia.
    apply (read_step_fetch h l i left_ x.1 (Some x) c); [done|lia|apply ceil_aligned; [done|lia]|lia].
  - assert (1 <= idx - (start + i)) as HB by lia. set (B := idx - (start + i)) in *.
    destruct (block_step ptr B) as (_ & _ & Hav); [lia|lia|]. fold bs in Hav.
    assert (B * bs < 2 ^ 47) as Hsmall.
    { pose proof (Z.mul_le_mono_nonneg B (2 ^ 30) bs 65536). lia. }
    rewrite (u64_small B), (u64_small (B * bs)), (u64_small (B * bs - _)) by lia.
    rewrite (u64_small (B - 1)), (u64_small (i + (B - 1))) by lia.
    destruct (read_arith ptr0 limit size Hp0 Hlim Hsize) as (_ & _ & _ & _ & Hrb & _).
    fold bs req in Hrb.
    apply (read_step_fetch h l i left_ x.1 (Some x) c); [done|lia| |].
    + fold ptr. destruct Hfst as [Hz|(Hi0 & Hl0 & Hxr)]; [apply ceil_aligned; lia|].
      pose proof (Z.mul_le_mono_nonneg_r B (req - 1) bs ltac:(lia) ltac:(lia)).
      rewrite Z.min_r by lia. apply (ceil_covers _ _ B); lia.
    + intros Hlt. exists B. fold ptr. rewrite u64_small by lia. repeat split; lia.
Qed.

Lemma read_step_ok h l i left_ cacheObj x c :
  loop_state h l i left_ cacheObj x c ->
  let ptr := ptr0 + (limit - left_) in
  step_result h l i left_ ptr
    (read_step vmem oob e start req i left_ cacheObj (fd ptr c) (mkFs d e lk h)).
Proof.
  intros S. destruct x as [x|].
  - destruct (decide (r_index x.2 = start + i)).
    + by apply (read_step_hit h l i left_ cacheObj x c).
    + by apply (read_step_gap h l i left_ cacheObj x c).
  - pose proof (lp_cursor _ _ _ _ _ _ _ S) as HC. inversion HC; subst. by apply read_step_plain.
Qed.

(** The loop returns every byte asked for. *)
Lemma read_loop_ok fuel : forall h l i left_ cacheObj x c,
  loop_state h l i left_ cacheObj x c -> req - i < Z.of_nat fuel ->
  exists c' h' l',
    read_loop vmem oob fuel e start req i left_ cacheObj
      (file_slice e d ino ptr0 (limit - left_)) (fd (ptr0 + (limit - left_)) c) (mkFs d e lk h) =
      Ok ((0, file_slice e d ino ptr0 limit, fd (ptr0 + limit) c'), mkFs d e lk h') /\
    control_ok e d c' /\ cache_rep h' obj l' /\ cache_valid e d ino l' /\ cache_frame obj l h h'.
Proof.
  induction fuel as [|fuel IH]; intros h l i left_ cacheObj x c S Hf.
  { pose proof (loop_index _ _ _ _ _ _ _ S). lia. }
  destruct (loop_bounds _ _ _ _ _ _ _ S) as (Hp & Hs & Hr & Hsr & Hm & Hi & Hbs & Him).
  pose proof (lp_left _ _ _ _ _ _ _ S) as Hleft. pose proof (lp_i _ _ _ _ _ _ _ S) as [_ Hq].
  destruct (read_step_ok _ _ _ _ _ _ _ S)
    as (t & i' & co & x' & c1 & h1 & l1 & E & Ht & Hmore & Hc1 & R1 & V1 & F1 & A1).
  cbn [read_loop]. rewrite (u64_small (req + 1)), (proj2 (Z.ltb_lt i (req + 1))) by lia. mrw E.
  rewrite <- file_slice_app by lia.
  replace (limit - left_ + t) with (limit - (left_ - t)) by lia.
  replace (ptr0 + (limit - left_) + t) with (ptr0 + (limit - (left_ - t))) by lia.
  destruct (Z.eqb_spec (left_ - t) 0) as [Hz|Hnz].
  { rewrite Hz, Z.sub_0_r. exists c1, h1, l1. done. }
  destruct (Hmore ltac:(lia)) as (B & HB & HtB & Hi' & HC').
  destruct (block_step (ptr0 + (limit - left_)) B) as (Hd & Hmd & _); [lia|lia|].
  fold bs in Hd, Hmd. rewrite <- HtB in Hd, Hmd.
  replace (ptr0 + (limit - left_) + t) with (ptr0 + (limit - (left_ - t))) in Hd, Hmd by lia.
  rewrite Hi'.
  destruct (IH h1 l1 (i + B) (left_ - t) co x' c1) as (c2 & h2 & l2 & E2 & Hc2 & R2 & V2 & F2).
  - split; try done; [lia|split; lia|by left].
  - lia.
  - exists c2, h2, l2. split; [done|]. split; [done|]. split; [done|]. split; [done|].
    by eapply cache_frame_trans.
Qed.

End inner.

(** The first loop of [ext2Read]: an entry that starts inside the blocks asked for. *)
Lemma read_start_ok d e lk h obj bi bl : 0 <= bi -> 0 <= bl -> bi + bl < 2 ^ 64 ->
  forall l l0 p fuel,
  linked cache_cell (h_cache h) p l 0 -> Forall (fun x => 0 < x.1 < h_brk h) l ->
  cache_rep h obj (l0 ++ l) -> (length l < fuel)%nat ->
  exists cacheObj x,
    read_start fuel (head_addr l 0) bi bl (mkFs d e lk h) = Ok (cacheObj, mkFs d e lk h) /\
    cursor (l0 ++ l) cacheObj x /\
    match x with Some x => bi <= r_index x.2 < bi + bl | None => True end.
Proof.
  intros ??? l. induction l as [|x l IH]; intros l0 p fuel HL HA R Hf;
    (destruct fuel; [cbn in Hf; lia|]).
  - exists 0, None. repeat split; try done. constructor.
  - destruct HL as [Hx HL]. apply Forall_cons in HA as [Hx0 HA]. cbn in Hx0.
    cbn [read_start head_addr]. rewrite (proj2 (Z.eqb_neq x.1 0)) by lia.
    mgo get_cache_ok; [|exact Hx]. rewrite in_run_hit by done.
    destruct (run_hit bi bl x) eqn:Eh.
    + exists x.1, (Some x). split; [done|]. split; [by eapply cursor_some|].
      by apply run_hit_spec.
    + cbn [c_next cache_cell].
      destruct (IH (l0 ++ [x]) x.1 fuel HL HA) as (co & y & E & HC & Hy);
        [by rewrite <- app_assoc|cbn in Hf; lia|].
      rewrite <- app_assoc in HC. by exists co, y.
Qed.

(** A change of the cache of one object keeps the list of opened objects. *)
Lemma objects_frame obj l h h' o x :
  objects_rep h (x :: o) -> x.1 = obj -> cache_frame obj l h h' ->
  exists v, objects_rep h' ((obj, (x.2.1, v)) :: o).
Proof.
  intros [Hf [Hx HL] HN H0] <- Fr. destruct (cf_self _ _ _ _ Fr _ Hx) as (v & Hv).
  cbn in HN. apply NoDup_cons in HN as [Hxo HN]. exists v. split.
  - by rewrite (cf_first _ _ _ _ Fr), Hf.
  - cbn [linked]. split; [exact Hv|]. apply (linked_frame _ (h_found h)); [|done].
    intros a Ha. apply (cf_found _ _ _ _ Fr). congruence.
  - by apply NoDup_cons.
  - done.
Qed.

(** Moving an object to the front does not touch its cache. *)
Lemma cache_rep_pushed h h' x o1 o2 l :
  cache_rep h x.1 l -> objects_rep h (o1 ++ x :: o2) -> objects_rep h' (x :: o1 ++ o2) ->
  h_cache h' = h_cache h -> h_brk h' = h_brk h -> cache_rep h' x.1 l.
Proof.
  intros [(g & Hg & Hhd) HL HN HA HS HB] O O' Ec Eb.
  pose proof (linked_lookup _ _ _ _ _ _ _ (or_links _ _ O)) as Hx.
  rewrite Hg in Hx. injection Hx as Hx. subst g. split; rewrite ?Ec, ?Eb; try done.
  destruct (or_links _ _ O') as [Hx' _]. eauto.
Qed.

(** The number of cells of the cache store. *)
Definition size_of (h : heap) : nat := size (h_cache h).

Section read.
Context (vmem : Z -> list Z) (oob : Z) (Hvmem : forall n, 0 <= n -> zlen (vmem n) = n).
Context (e : Ext2) (G : geometry e) (d : gmap Z Z) (lk : gmap ext2_lock Z) (h : heap).
Context (fd : Ext2OpenFd).

Let obj := f_globalObject fd.
Let ino := f_inode fd.
Let ptr := f_ptr fd.
Let size := ext2GetFilesize fd.

(** What the handlers find: an opened regular file and free locks. *)
Record readable (o1 o2 : list (Z * object)) (x : Z * object) (l : list (Z * run)) : Prop := {
  rd_file : file_ok e d ino size;
  rd_reg : has_flag (permission ino) S_IFDIR = false;
  rd_ctl : control_ok e d (f_lookup fd);
  rd_ptr : 0 <= ptr;
  rd_obj : x.1 = obj;
  rd_objects : objects_rep h (o1 ++ x :: o2);
  rd_cache : cache_rep h obj l;
  rd_valid : cache_valid e d ino l;
  rd_bitmap : exists k, 0 <= k /\
    lk !! WLOCKS_BLOCK_BITMAP (INODE_TO_BLOCK_GROUP u32 e (f_inodeNum fd)) = Some k;
  rd_wcache : lk !! WLOCK_CACHE obj = Some 0;
  rd_wfile : exists k, 0 <= k /\ lk !! WLOCK_FILE obj = Some k;
  rd_wobject : lk !! LOCK_OBJECT = Some 0;
}.

Lemma ext2Read_ok o1 o2 x l naive :
  readable o1 o2 x l -> ptr < size -> 1 <= naive ->
  let limit := Z.min naive (size - ptr) in
  exists c' h' l' v,
    ext2Read vmem oob fd naive (mkFs d e lk h) =
      Ok ((limit, file_slice e d ino ptr limit,
           mkFd c' obj (ptr + limit) (f_inodeNum fd) ino), mkFs d e lk h') /\
    control_ok e d c' /\ cache_rep h' obj l' /\ cache_valid e d ino l' /\
    objects_rep h' ((obj, (x.2.1, v)) :: o1 ++ o2).
Proof.
  intros [Ff Freg Fc Fp Fx Fo Fr Fv (k & Hk & Hbm) Fwc (kf & Hkf & Fwf) Fwo] Hp Hn limit.
  unfold ext2Read. erewrite bind_ok by done. cbn [ext2]. fold ino. rewrite Freg.
  destruct (ext2CachePush_ok d e lk h o1 x o2 Fo Fwo) as (h1 & E1 & O1 & Ec1 & Eb1 & _).
  fold obj. rewrite Fx in E1. mrw E1. fold size ptr.
  rewrite (proj2 (Z.leb_gt size ptr)) by lia.
  assert ((if size - ptr <? naive then size - ptr else naive) = limit) as ->.
  { subst limit. destruct (Z.ltb_spec (size - ptr) naive); lia. }
  assert (1 <= limit /\ ptr + limit <= size) as [Hl1 Hl2] by lia. clearbody limit.
  pose proof (size_bound e G d ino size Ff) as Hsb. pose proof (geo_bs_min e G) as Hbs.
  pose proof (limit_bound e G) as HLB. destruct (fo_size _ _ _ _ Ff) as [_ Hmax].
  destruct (read_arith e G ptr limit size Fp Hl1 Hl2) as (Hq & Hm & Hdm & Hr1 & Hr & Hend).
  rewrite (CEILING_DIVISION_spec limit (blockSize e)) by lia.
  set (req := (limit + blockSize e - 1) / blockSize e) in *.
  assert (cache_rep h1 obj l) as R1.
  { rewrite <- Fx in *. by eapply cache_rep_pushed. }
  mgo read_acquire_ok; [|exact Fwf|done]. set (lk1 := <[WLOCK_FILE obj := kf + 1]> lk).
  assert (lk1 !! WLOCK_CACHE obj = Some 0) as Fwc1 by (unfold lk1; by rewrite lookup_insert_ne).
  mgo read_acquire_ok; [|exact Fwc1|done].
  pose proof (cr_found _ _ _ R1) as (g & Hg & Hhd). mgo get_found_ok; [|exact Hg].
  erewrite bind_ok by done. rewrite Hhd.
  pose proof (linked_size _ _ _ _ _ (cr_nodup _ _ _ R1) (cr_links _ _ _ R1)) as Hsz.
  destruct (read_start_ok d e (<[WLOCK_CACHE obj := 0 + 1]> lk1) h1 obj (ptr / blockSize e) req
    ltac:(lia) ltac:(lia) ltac:(lia) l [] 0 (S (size_of h1)) (cr_links _ _ _ R1) (cr_addrs _ _ _ R1) R1)
    as (co & y & Es & HC & Hy); [unfold size_of; lia|].
  cbn [app] in HC. unfold cache_fuel. cbn [mem]. fold (size_of h1). mrw Es.
  mgo read_release_ok; [|exact Fwc1|done].
  destruct (read_loop_ok vmem oob Hvmem e G d ino size Ff lk1 (f_inodeNum fd) k obj) with
    (ptr0 := ptr) (limit := limit) (fuel := Z.to_nat (req + 2)) (h := h1) (l := l) (i := 0)
    (left_ := limit) (cacheObj := co) (x := y) (c := f_lookup fd)
    as (c' & h2 & l2 & E2 & Hc2 & R2 & V2 & F2); try done; [..|].
  - unfold lk1. by rewrite lookup_insert_ne.
  - split; try done; [|].
    + rewrite Z.sub_diag, Z.add_0_r. split; lia.
    + by right.
  - fold req. lia.
  - rewrite Z.sub_diag, Z.add_0_r in E2. fold req in E2. cbn [file_slice] in E2.
    replace (mkFd (f_lookup fd) obj ptr (f_inodeNum fd) ino) with fd in E2 by (by destruct fd).
    mrw E2. cbn [f_globalObject]. erewrite bind_ok by done.
    mgo read_release_ok; [|exact Fwf|done].
    destruct (objects_frame obj l h1 h2 (o1 ++ o2) x O1 Fx F2) as (v & O2).
    exists c', h2, l2, v. done.
Qed.

End read.
