(* ===== verification/Ext2Write.v ===== *)
(** * ext2: writing inside a file

    [ext2Write] over blocks the file has already: the drive afterwards holds the
    file with the written bytes in place and everything else as before, so that
    [ext2Read] returns what was written. *)

From S2P Require Import Prelude Bytes FileTypes Spinlock Dll Disk Ext2Types Ext2Base Ext2Push Ext2Counters.
From S2P Require Import Ext2Example Ext2Inode Ext2Block Ext2Lookup Ext2Assign DirBlock Ext2Dirs.
From S2P Require Import Ext2Create Ext2Cache Ext2Files Ext2Read.

(** ** The blocks that make up the block map *)

(** An indirect block of the file. *)
Definition map_block (e : Ext2) (d : gmap Z Z) (ino : Ext2Inode) (b : Z) : Prop :=
  b <> 0 /\ (b = i_blocks ino !!! 12%nat \/ b = i_blocks ino !!! 13%nat \/
    (i_blocks ino !!! 13%nat <> 0 /\ exists i, 0 <= i < blockSize e / 4 /\
       b = word (block_bytes e d (i_blocks ino !!! 13%nat)) i)).

(** The lookup buffers hold indirect blocks. *)
Definition control_map (e : Ext2) (d : gmap Z Z) (ino : Ext2Inode) (c : Ext2LookupControl) : Prop :=
  (tmp1Block c = 0 \/ exists b, map_block e d ino b /\ tmp1Block c = BLOCK_TO_LBA e 0 b) /\
  (tmp2Block c = 0 \/ exists b, map_block e d ino b /\ tmp2Block c = BLOCK_TO_LBA e 0 b).

(** The blocks of the first [size] bytes are different from each other and from
    the indirect blocks. *)
Record apart_blocks (e : Ext2) (d : gmap Z Z) (ino : Ext2Inode) (size : Z) : Prop := {
  ab_inj : forall i j, 0 <= i -> 0 <= j -> i * blockSize e < size -> j * blockSize e < size ->
    block_at e d ino i = block_at e d ino j -> i = j;
  ab_map : forall i, 0 <= i -> i * blockSize e < size -> ~ map_block e d ino (block_at e d ino i);
}.

Lemma load_cached_tag e buf blk lba s b k s' :
  load_cached e buf blk lba s = Ok ((b, k), s') -> k = lba.
Proof.
  unfold load_cached. destruct (Z.eqb_spec blk lba); cbn [negb]; intros H.
  - by injection H as <- <- <-.
  - apply bind_inv in H as (x & s1 & _ & H). by injection H as <- <- <-.
Qed.

Section control.
Context (e : Ext2) (G : geometry e) (d : gmap Z Z) (ino : Ext2Inode).
Context (Hmap : map_ok e d ino).

(** A lookup leaves only indirect blocks in its buffers. *)
Lemma block_lookup_control_map c curr l h b c' s' :
  control_ok e d c -> control_map e d ino c -> 0 <= curr < map_limit e ->
  block_lookup e ino c curr (mkFs d e l h) = Ok ((b, c'), s') -> control_map e d ino c'.
Proof.
  intros [Hc1 Hc2] [H1 H2] Hcurr E. destruct Hmap as [Hlen H12 H13 Hin].
  destruct (items_bounds e G) as (Ei & Hib & Hi4). pose proof (zlen_block_bytes e G d) as Hz.
  pose proof (geo_bs_min e G). unfold map_limit in Hcurr. unfold block_lookup in E.
  rewrite Ei, (u32_small (12 + _)) in E by lia.
  rewrite (u64_small (blockSize e * _)), u64_small in E by nia.
  destruct (Z.ltb_spec curr 12).
  { rewrite blocks_lookup in E by (done || lia). by injection E as <- <- <-. }
  destruct (Z.ltb_spec curr (12 + blockSize e / 4)).
  { rewrite blocks_lookup in E by (done || lia). cbn [from_option_fault] in E. erewrite bind_ok in E by done.
    destruct (Z.eqb_spec (i_blocks ino !!! 12%nat) 0) as [E0|E0]; cbn [negb] in E.
    { by injection E as <- <- <-. }
    apply bind_inv in E as ([t1 k1] & s1 & E1 & E). apply load_cached_tag in E1 as ->.
    apply bind_inv in E as (r & s2 & _ & E). injection E as <- <- <-. split; [|done].
    right. eexists. split; [|done]. split; [done|by left]. }
  rewrite (proj2 (Z.ltb_lt curr _)) in E by nia.
  rewrite blocks_lookup in E by (done || lia). cbn [from_option_fault] in E. erewrite bind_ok in E by done.
  destruct (Z.eqb_spec (i_blocks ino !!! 13%nat) 0) as [E0|E0]; cbn [negb] in E.
  { by injection E as <- <- <-. }
  erewrite bind_ok in E by (by eapply load_cached_ok). cbv beta iota in E.
  replace (curr - (12 + blockSize e / 4)) with (curr - 12 - blockSize e / 4) in E by lia.
  set (at_ := curr - 12 - blockSize e / 4) in *.
  assert (0 <= at_ / (blockSize e / 4) < blockSize e / 4).
  { split; [apply Z.div_pos; lia|apply Z.div_lt_upper_bound; lia]. }
  rewrite (u32_small (at_ / _)) in E by lia. erewrite bind_ok in E by (apply get_word_ok; rewrite ?Hz; lia).
  assert (T1 : map_block e d ino (i_blocks ino !!! 13%nat)) by (split; [done|right; by left]).
  destruct (Z.eqb_spec (word (block_bytes e d (i_blocks ino !!! 13%nat)) (at_ / (blockSize e / 4))) 0)
    as [Ep|Ep]; cbn [negb] in E.
  { injection E as <- <- <-. split; [right; by eexists|done]. }
  apply bind_inv in E as ([t2 k2] & s1 & E1 & E). apply load_cached_tag in E1 as ->.
  apply bind_inv in E as (r & s2 & _ & E). injection E as <- <- <-.
  split; right; eexists; (split; [|done]); [done|]. split; [done|]. right; right. split; [done|].
  by eexists.
Qed.

Lemma fetch_control_map c inodeNum n curr l h b c' s' :
  control_ok e d c -> control_map e d ino c -> 0 <= curr < map_limit e ->
  l !! WLOCKS_BLOCK_BITMAP (INODE_TO_BLOCK_GROUP u32 e inodeNum) = Some n -> 0 <= n ->
  ext2BlockFetch ino inodeNum c curr (mkFs d e l h) = Ok ((b, c'), s') -> control_map e d ino c'.
Proof.
  intros Hc Hm Hcurr Hl Hn E. unfold ext2BlockFetch in E. erewrite bind_ok in E by done. cbn [ext2] in E.
  erewrite bind_ok in E by (by eapply read_acquire_ok).
  apply bind_inv in E as ([r c1] & s1 & E1 & E). apply bind_inv in E as (u & s2 & _ & E).
  injection E as <- <- <-. by eapply block_lookup_control_map.
Qed.

Lemma chain_control_map inodeNum n l h m : forall curr c bs c' s',
  control_ok e d c -> control_map e d ino c -> 0 <= curr -> curr + Z.of_nat m <= map_limit e ->
  l !! WLOCKS_BLOCK_BITMAP (INODE_TO_BLOCK_GROUP u32 e inodeNum) = Some n -> 0 <= n ->
  block_chain ino inodeNum m curr c (mkFs d e l h) = Ok ((bs, c'), s') -> control_map e d ino c'.
Proof.
  induction m as [|m IH]; intros curr c bs c' s' Hc Hm H0 Hend Hl Hn E; cbn [block_chain] in E.
  { by injection E as <- <- <-. }
  assert (Hcurr : 0 <= curr < map_limit e) by (split; lia).
  destruct (ext2BlockFetch_ok e G d ino c Hmap Hc inodeNum n l h Hl Hn curr) as (c1 & E1 & Hc1);
    [unfold map_limit in *; lia|].
  erewrite bind_ok in E by exact E1. cbv beta iota in E.
  pose proof (fetch_control_map _ _ _ _ _ _ _ _ _ Hc Hm Hcurr Hl Hn E1) as Hm1.
  pose proof (limit_bound e G). rewrite u64_small in E by lia.
  apply bind_inv in E as ([bs2 c2] & s2 & E2 & E). injection E as <- <- <-.
  eapply (IH (curr + 1) c1); [exact Hc1|exact Hm1|lia|lia|exact Hl|exact Hn|exact E2].
Qed.

End control.

(** ** Changing the blocks of a file *)

(** The index of a block of the first [size] bytes. *)
Definition in_file (e : Ext2) (size i : Z) : Prop := 0 <= i /\ i * blockSize e < size.

(** [d'] differs from [d] only inside the data blocks of the file. *)
Definition outside_same (e : Ext2) (d d' : gmap Z Z) (ino : Ext2Inode) (size : Z) : Prop :=
  forall a, (forall i, in_file e size i ->
    ~ block_addr e (block_at e d ino i) <= a < block_addr e (block_at e d ino i) + blockSize e) ->
  d' !! a = d !! a.

(** [bs] at offset [p] of the file, the rest as it was. *)
Record patched (e : Ext2) (d d' : gmap Z Z) (ino : Ext2Inode) (size p : Z) (bs : list Z) : Prop := {
  pt_bytes : forall k, 0 <= k -> in_file e size (k / blockSize e) ->
    file_at e d' ino k = if decide (p <= k < p + zlen bs) then bs !!! Z.to_nat (k - p) else file_at e d ino k;
  pt_outside : outside_same e d d' ino size;
}.

Section change.
Context (e : Ext2) (G : geometry e) (d : gmap Z Z) (ino : Ext2Inode) (size : Z).
Context (F : file_ok e d ino size) (A : apart_blocks e d ino size).

Lemma in_file_block i : in_file e size i ->
  block_at e d ino i <> 0 /\ valid_block e (block_at e d ino i) /\ i < map_limit e.
Proof.
  intros [H0 Hi]. assert (Hn : block_at e d ino i <> 0) by (by apply (fo_dense _ _ _ _ F)).
  destruct (fo_size _ _ _ _ F) as [Hs Hmax]. pose proof (geo_bs_min e G).
  assert (Hl : i < map_limit e).
  { pose proof (Z.div_mod size (blockSize e) ltac:(lia)). pose proof (Z.mod_pos_bound size (blockSize e)). nia. }
  split; [done|]. split; [|done]. destruct (fo_ptrs _ _ _ _ F i) as [?|?]; [lia|done|done].
Qed.

Lemma in_file_le i j : in_file e size i -> 0 <= j <= i -> in_file e size j.
Proof. intros [H0 Hi] Hj. pose proof (geo_bs_min e G). split; [lia|nia]. Qed.

Context (d' : gmap Z Z) (O : outside_same e d d' ino size).

(** A block that is not a data block of the file is as before. *)
Lemma outside_block b : (forall i, in_file e size i -> block_at e d ino i <> b) ->
  block_bytes e d' b = block_bytes e d b.
Proof.
  intros Hb. pose proof (geo_bs_min e G). unfold block_bytes. apply read_at_eq. intros a Ha. apply O.
  intros i Hi Hr. apply (Hb i Hi). unfold block_addr in *. nia.
Qed.

Lemma outside_map_block b : map_block e d ino b -> block_bytes e d' b = block_bytes e d b.
Proof.
  intros Hb. apply outside_block. intros i [H0 Hi] <-. by apply (ab_map _ _ _ _ A i).
Qed.

Lemma outside_block_at i : 0 <= i < map_limit e -> block_at e d' ino i = block_at e d ino i.
Proof.
  intros Hi. destruct (items_bounds e G) as (_ & Hib & _). unfold map_limit in Hi. unfold block_at.
  destruct (Z.ltb_spec i 12); [done|]. destruct (Z.ltb_spec i (12 + blockSize e / 4)).
  - destruct (Z.eqb_spec (i_blocks ino !!! 12%nat) 0) as [|E]; [done|].
    by rewrite outside_map_block by (split; [done|by left]).
  - destruct (Z.eqb_spec (i_blocks ino !!! 13%nat) 0) as [|E]; [done|].
    rewrite outside_map_block by (split; [done|right; by left]).
    set (p := word _ _). destruct (Z.eqb_spec p 0) as [|Ep]; [done|].
    rewrite outside_map_block; [done|]. split; [done|]. right; right. split; [done|].
    eexists. split; [|done]. split; [apply Z.div_pos; lia|apply Z.div_lt_upper_bound; lia].
Qed.

Lemma outside_map_ok : map_ok e d' ino.
Proof.
  destruct (fo_map _ _ _ _ F) as [H1 H2 H3 H4]. split; try done. intros E i Hi.
  rewrite outside_map_block by (split; [done|right; by left]). by apply H4.
Qed.

Lemma outside_file_ok : file_ok e d' ino size.
Proof.
  destruct F as [Hm Hp Hd Hs]. split; [apply outside_map_ok| | |done].
  - intros i Hi. rewrite outside_block_at by done. by apply Hp.
  - intros i H0 Hi. destruct (in_file_block i (conj H0 Hi)) as (_ & _ & Hl).
    rewrite outside_block_at by lia. by apply Hd.
Qed.

Lemma outside_map_block_iff b : map_block e d' ino b <-> map_block e d ino b.
Proof.
  unfold map_block. split; intros [Hb H]; (split; [done|]); destruct H as [?|[?|[E H]]]; try tauto;
    right; right; (split; [done|]); by rewrite outside_map_block in * by (split; [done|right; by left]).
Qed.

Lemma outside_apart : apart_blocks e d' ino size.
Proof.
  destruct A as [Hi Hm]. split.
  - intros i j H0 Hj H1 H2. destruct (in_file_block i (conj H0 H1)) as (_ & _ & L1).
    destruct (in_file_block j (conj Hj H2)) as (_ & _ & L2).
    rewrite !outside_block_at by lia. by apply Hi.
  - intros i H0 H1. destruct (in_file_block i (conj H0 H1)) as (_ & _ & L1).
    rewrite outside_block_at by lia. rewrite outside_map_block_iff. by apply Hm.
Qed.

Lemma outside_control c : control_ok e d c -> control_map e d ino c ->
  control_ok e d' c /\ control_map e d' ino c.
Proof.
  intros [T1 T2] [M1 M2].
  assert (K : forall buf blk, tmp_ok e d buf blk ->
    (blk = 0 \/ exists b, map_block e d ino b /\ blk = BLOCK_TO_LBA e 0 b) -> tmp_ok e d' buf blk).
  { intros buf blk [->|(b & Hb & Hv & -> & ->)] Hm; [by left|]. destruct Hm as [E|(b' & Hb' & E)].
    - exfalso. by apply (BLOCK_TO_LBA_nonzero e G b Hv Hb).
    - right. exists b. split_and!; [done|done|done|]. symmetry. apply outside_map_block.
      assert (Hv' : valid_block e b').
      { destruct (fo_map _ _ _ _ F) as [_ P1 P2 P3].
        destruct Hb' as [Hn [->|[->|(E0 & i & Hi & ->)]]]; [by destruct P1|by destruct P2|].
        by destruct (P3 E0 i Hi). }
      by rewrite (BLOCK_TO_LBA_inj e G b b' Hv Hv' E). }
  split; [split; by apply K|]. split.
  - destruct M1 as [?|(b & Hb & ?)]; [by left|right]. exists b. by rewrite outside_map_block_iff.
  - destruct M2 as [?|(b & Hb & ?)]; [by left|right]. exists b. by rewrite outside_map_block_iff.
Qed.

End change.

(** ** Writing a chain of blocks *)

Section runs.
Context (e : Ext2) (G : geometry e) (l : gmap ext2_lock Z) (h : heap) (oob : Z).
Context (chain : list Z) (req : Z) (tmp : list Z).
Context (Hlen : zlen chain = req) (Hreq : 1 <= req < 2 ^ 31) (Hnd : NoDup chain).
Context (Hval : Forall (fun b => b <> 0 /\ valid_block e b) chain).
Context (Htmp : req * blockSize e <= zlen tmp).
Context (d : gmap Z Z).

(** The first [k] blocks of the chain hold their part of the buffer. *)
Record runs_done (k : Z) (d' : gmap Z Z) : Prop := {
  rn_bytes : forall j b, 0 <= j < k -> chain !! Z.to_nat j = Some b ->
    block_bytes e d' b = slice (j * blockSize e) (blockSize e) tmp;
  rn_frame : forall a, (forall j b, 0 <= j < k -> chain !! Z.to_nat j = Some b ->
    ~ block_addr e b <= a < block_addr e b + blockSize e) -> d' !! a = d !! a;
}.

Lemma chain_lookup_w j : 0 <= j < req -> chain !! Z.to_nat j = Some (chain_at oob chain j).
Proof.
  intros Hj. unfold chain_at, zlen in *.
  destruct (lookup_lt_is_Some_2 chain (Z.to_nat j)) as [b Hb]; [lia|]. by rewrite Hb.
Qed.

Lemma chain_valid_w j : 0 <= j < req -> chain_at oob chain j <> 0 /\ valid_block e (chain_at oob chain j).
Proof. intros Hj. by apply (Forall_lookup_1 _ _ _ _ Hval (chain_lookup_w j Hj)). Qed.

(** One transfer of [n] consecutive blocks. *)
Lemma write_run_ok k n d1 :
  0 <= k -> 1 <= n -> k + n <= req ->
  (forall j, 0 <= j < n -> chain_at oob chain (k + j) = chain_at oob chain k + j) ->
  runs_done k d1 ->
  exists d2, write_from tmp (k * blockSize e) (BLOCK_TO_LBA e 0 (chain_at oob chain k))
      (n * blockSize e / SECTOR_SIZE) (mkFs d1 e l h) = Ok (tt, mkFs d2 e l h) /\ runs_done (k + n) d2.
Proof.
  intros Hk Hn Hkn Hrun [Hb Hfr]. pose proof (geo_bs_min e G) as Hbs. destruct (geo_spb e G) as [Hsp Hq].
  set (b := chain_at oob chain k) in *.
  destruct (chain_valid_w k) as [_ Hv]; [lia|]. fold b in Hv.
  destruct (chain_valid_w (k + n - 1)) as [_ Hv2]; [lia|].
  replace (k + n - 1) with (k + (n - 1)) in Hv2 by lia. rewrite Hrun in Hv2 by lia.
  destruct (BLOCK_TO_LBA_ok e G b Hv) as (E1 & L0 & L1 & L2).
  destruct (BLOCK_TO_LBA_ok e G _ Hv2) as (E2 & _ & L3 & _).
  assert (En : n * blockSize e / SECTOR_SIZE = n * (blockSize e / SECTOR_SIZE)).
  { rewrite Hsp at 1. rewrite Z.mul_assoc. by apply Z.div_mul. }
  assert (Enb : n * blockSize e / SECTOR_SIZE * SECTOR_SIZE = n * blockSize e) by nia.
  unfold block_sectors in *. set (piece := slice (k * blockSize e) (n * blockSize e) tmp).
  assert (Hz : zlen piece = n * blockSize e) by (apply zlen_slice; nia).
  exists (write_at d1 (block_addr e b) piece). split.
  { unfold write_from. rewrite Enb, load_ok by nia. erewrite bind_ok by done. fold piece.
    rewrite set_disk_ok by nia. by rewrite L2. }
  assert (Hin : forall j, 0 <= j < n -> chain !! Z.to_nat (k + j) = Some (b + j)).
  { intros j Hj. rewrite chain_lookup_w by lia. by rewrite Hrun. }
  split.
  - intros j c Hj Hc. destruct (Z.lt_ge_cases j k) as [Hlt|Hge].
    + rewrite <- (Hb j c) by (done || lia). apply read_write_disjoint. rewrite Hz.
      assert (Hne : forall i, 0 <= i < n -> c <> b + i).
      { intros i Hi ->. pose proof (NoDup_lookup _ _ _ _ Hnd Hc (Hin i Hi)). lia. }
      unfold block_addr. destruct (Z.lt_ge_cases c b) as [|Hcb]; [left; nia|].
      destruct (Z.lt_ge_cases c (b + n)) as [Hcn|]; [|right; nia].
      exfalso. apply (Hne (c - b)); lia.
    + replace j with (k + (j - k)) in Hc by lia. rewrite Hin in Hc by lia. injection Hc as <-.
      unfold block_bytes.
      replace (block_addr e (b + (j - k))) with (block_addr e b + (j - k) * blockSize e) by (unfold block_addr; lia).
      rewrite <- (slice_read_at _ (block_addr e b) (n * blockSize e)) by nia.
      rewrite <- Hz, read_write_same. unfold piece. rewrite slice_slice by nia. f_equal. lia.
  - intros a Ha. rewrite write_at_lookup. rewrite decide_False.
    + apply Hfr. intros j c Hj. apply Ha. lia.
    + rewrite Hz. intros Hr. assert (0 <= (a - block_addr e b) / blockSize e < n).
      { split; [apply Z.div_pos; lia|apply Z.div_lt_upper_bound; lia]. }
      set (i := (a - block_addr e b) / blockSize e) in *.
      apply (Ha (k + i) (b + i)); [lia|by apply Hin|].
      pose proof (Z.div_mod (a - block_addr e b) (blockSize e) ltac:(lia)).
      pose proof (Z.mod_pos_bound (a - block_addr e b) (blockSize e) ltac:(lia)).
      fold i in H. unfold block_addr in *. nia.
Qed.

Lemma valid_succ_w j : 0 <= j < req -> u32 (chain_at oob chain j + 1) = chain_at oob chain j + 1.
Proof. intros Hj. destruct (chain_valid_w j Hj) as [_ Hv]. by apply (valid_succ e G). Qed.

Lemma write_runs_ok n : forall i s curr d1,
  0 <= i -> i + Z.of_nat n = req ->
  (s = -1 /\ curr = i) \/ (0 <= s < i /\ curr = s /\ i < req /\
    forall j, s <= j < i -> chain_at oob chain (j + 1) = chain_at oob chain j + 1) ->
  runs_done curr d1 ->
  exists d2, write_runs oob n i e chain req tmp curr s (mkFs d1 e l h) = Ok (tt, mkFs d2 e l h) /\
    runs_done req d2.
Proof.
  induction n as [|n IH]; intros i s curr d1 Hi Hn HS Hd.
  { destruct HS as [[-> ->]|(_ & _ & ? & _)]; [|lia]. exists d1.
    replace i with req in Hd by lia. by split. }
  destruct (chain_valid_w i) as [Hnz Hv]; [lia|]. cbn [write_runs].
  rewrite (proj2 (Z.eqb_neq _ _) Hnz), valid_succ_w by lia.
  destruct HS as [[-> ->]|(Hs & -> & Hir & Hrun)].
  - change (-1 <? 0) with true. cbv iota.
    destruct (negb (i =? req - 1) && (chain_at oob chain (i + 1) =? chain_at oob chain i + 1)) eqn:En.
    + apply andb_true_iff in En as [En1%negb_true_iff%Z.eqb_neq En2%Z.eqb_eq].
      apply IH; [lia|lia| |done]. right. repeat split; try lia. intros j Hj. by replace j with i by lia.
    + destruct (write_run_ok i 1 d1) as (d2 & E & Hd2); [lia|lia|lia| |done|].
      { intros j Hj. replace j with 0 by lia. by rewrite !Z.add_0_r. }
      rewrite (block_sectors_1 e). mrw E. apply IH; [lia|lia|by left|done].
  - rewrite (proj2 (Z.ltb_ge s 0)) by lia. pose proof (run_ascends oob chain s i ltac:(lia) Hrun) as Hasc.
    destruct ((i =? req - 1) || negb (chain_at oob chain (i + 1) =? chain_at oob chain i + 1)) eqn:En.
    + destruct (write_run_ok s (i - s + 1) d1) as (d2 & E & Hd2); [lia|lia|lia| |done|].
      { intros j Hj. rewrite (Hasc (s + j)) by lia. lia. }
      mrw E. apply IH; [lia|lia|left; split; lia|]. by replace (s + (i - s + 1)) with (i + 1) in * by lia.
    + apply orb_false_iff in En as [En1%Z.eqb_neq En2%negb_false_iff%Z.eqb_eq].
      apply IH; [lia|lia| |done]. right. repeat split; try lia.
      intros j Hj. destruct (decide (j = i)) as [->|]; [done|]. apply Hrun. lia.
Qed.

Lemma runs_done_start : runs_done 0 d.
Proof. split; [intros; lia|done]. Qed.

End runs.

(** ** The bytes of the file afterwards *)

Section bytes.
Context (e : Ext2) (G : geometry e) (ino : Ext2Inode) (size : Z).

Lemma file_at_change d d' k :
  file_ok e d ino size -> apart_blocks e d ino size -> outside_same e d d' ino size ->
  0 <= k -> in_file e size (k / blockSize e) ->
  file_at e d' ino k =
    block_bytes e d' (block_at e d ino (k / blockSize e)) !!! Z.to_nat (k mod blockSize e).
Proof.
  intros F A O Hk Hi. destruct (in_file_block e G d ino size F _ Hi) as (_ & _ & Hl).
  unfold file_at. rewrite (outside_block_at e G d ino size A d' O); [done|]. destruct Hi. lia.
Qed.

Lemma patched_refl d p : patched e d d ino size p [].
Proof. split; [|done]. intros k Hk Hi. change (zlen []) with 0. case_decide; [lia|done]. Qed.

Lemma patched_trans d d1 d2 p bs1 bs2 :
  file_ok e d ino size -> apart_blocks e d ino size ->
  patched e d d1 ino size p bs1 -> patched e d1 d2 ino size (p + zlen bs1) bs2 ->
  patched e d d2 ino size p (bs1 ++ bs2).
Proof.
  intros F A [B1 O1] [B2 O2]. pose proof (zlen_nonneg bs1). pose proof (zlen_nonneg bs2). split.
  - intros k Hk Hi. rewrite B2, B1 by done. rewrite zlen_app. repeat case_decide; try lia; try done.
    + rewrite lookup_total_app_r by (unfold zlen in *; lia). f_equal. unfold zlen in *. lia.
    + rewrite lookup_total_app_l by (unfold zlen in *; lia). done.
  - intros a Ha. rewrite O2, O1; [done|done|]. intros i Hi.
    destruct (in_file_block e G d ino size F _ Hi) as (_ & _ & Hl).
    rewrite (outside_block_at e G d ino size A d1 O1) by (destruct Hi; lia). by apply Ha.
Qed.

(** The bytes written are read back. *)
Lemma patched_slice d d' p n bs :
  patched e d d' ino size p bs -> 0 <= p -> zlen bs = n -> p + n <= size -> file_slice e d' ino p n = bs.
Proof.
  intros [B _] Hp Hn Hs. pose proof (geo_bs_min e G). apply list_eq. intros i. unfold file_slice.
  rewrite list_lookup_fmap. destruct (decide (Z.of_nat i < n)) as [Hi|Hi].
  - rewrite lookup_seqZ_lt by lia. cbn. rewrite B; [|lia|].
    + rewrite decide_True by lia. unfold zlen in Hn. replace (p + Z.of_nat i - p) with (Z.of_nat i) by lia.
      rewrite Nat2Z.id. symmetry. apply list_lookup_lookup_total_lt. lia.
    + pose proof (Z.div_mod (p + Z.of_nat i) (blockSize e) ltac:(lia)).
      pose proof (Z.mod_pos_bound (p + Z.of_nat i) (blockSize e) ltac:(lia)).
      split; [apply Z.div_pos; lia|lia].
  - rewrite lookup_seqZ_ge by lia. symmetry. apply lookup_ge_None_2. unfold zlen in Hn. lia.
Qed.

Context (d : gmap Z Z) (F : file_ok e d ino size) (A : apart_blocks e d ino size).

(** One block. *)
Lemma patch_block i r bs :
  in_file e size i -> 0 <= r -> r + zlen bs <= blockSize e ->
  patched e d (write_block e d (block_at e d ino i) (patch r bs (block_bytes e d (block_at e d ino i))))
    ino size (i * blockSize e + r) bs.
Proof.
  intros Hi Hr Hb. pose proof (geo_bs_min e G) as Hbs. pose proof (zlen_nonneg bs).
  set (b := block_at e d ino i). set (nb := patch r bs _).
  assert (Hz : zlen nb = blockSize e) by (unfold nb; by rewrite zlen_patch, zlen_block_bytes).
  assert (O : outside_same e d (write_block e d b nb) ino size).
  { intros a Ha. unfold write_block. rewrite write_at_lookup, decide_False; [done|].
    rewrite Hz. by apply (Ha i). }
  split; [|done]. intros k Hk Hik. rewrite (file_at_change d) by done.
  pose proof (Z.div_mod k (blockSize e) ltac:(lia)) as Hdm.
  pose proof (Z.mod_pos_bound k (blockSize e) ltac:(lia)) as Hmod.
  destruct (Z.eq_dec (k / blockSize e) i) as [Ek|Ek].
  - rewrite Ek. fold b. rewrite block_bytes_same by done. unfold nb. rewrite Ek in Hdm.
    pose proof (zlen_block_bytes e G d b) as Hzb. unfold zlen in Hzb, Hb. rewrite list_lookup_total_alt. case_decide as Hd.
    + rewrite patch_lookup_inside by (unfold zlen in *; lia). rewrite <- list_lookup_total_alt. f_equal. lia.
    + rewrite patch_lookup_outside by (unfold zlen in *; lia). rewrite <- list_lookup_total_alt.
      unfold file_at. by rewrite Ek.
  - rewrite block_bytes_other; [|done|done|].
    + rewrite decide_False; [done|]. nia.
    + intros Eb. apply Ek. symmetry. destruct Hi, Hik. by apply (ab_inj _ _ _ _ A).
Qed.

(** A chain of whole blocks whose buffer has the new bytes in front. *)
Lemma patch_chain first req tmp bs d' :
  0 <= first -> 1 <= req -> in_file e size (first + req - 1) ->
  (req - 1) * blockSize e < zlen bs <= req * blockSize e -> req * blockSize e <= zlen tmp ->
  slice 0 (zlen bs) tmp = bs ->
  (forall k, zlen bs <= k < req * blockSize e ->
    tmp !!! Z.to_nat k = file_at e d ino (first * blockSize e + k)) ->
  runs_done e (block_at e d ino <$> seqZ first req) tmp d req d' ->
  patched e d d' ino size (first * blockSize e) bs.
Proof.
  intros Hf Hr Hin Hbs Htmp Hhead Htail [Hb Hfr]. pose proof (geo_bs_min e G) as Hbs'.
  assert (Hch : forall j, 0 <= j < req ->
    (block_at e d ino <$> seqZ first req) !! Z.to_nat j = Some (block_at e d ino (first + j))).
  { intros j Hj. rewrite list_lookup_fmap, lookup_seqZ_lt by lia. cbn. do 2 f_equal. lia. }
  assert (O : outside_same e d d' ino size).
  { intros a Ha. apply Hfr. intros j b Hj Ej. rewrite Hch in Ej by done. injection Ej as <-.
    apply Ha. eapply (in_file_le e G size); [exact Hin|lia]. }
  split; [|done]. intros k Hk Hik. rewrite (file_at_change d) by done.
  pose proof (Z.div_mod k (blockSize e) ltac:(lia)) as Hdm.
  pose proof (Z.mod_pos_bound k (blockSize e) ltac:(lia)) as Hmod.
  set (q := k / blockSize e) in *. set (r := k mod blockSize e) in *.
  destruct (decide (first <= q < first + req)) as [Hq|Hq].
  - rewrite (Hb (q - first) (block_at e d ino q)); [|lia|].
    2:{ rewrite Hch by lia. do 2 f_equal. lia. }
    assert (Et : slice ((q - first) * blockSize e) (blockSize e) tmp !!! Z.to_nat r =
      tmp !!! Z.to_nat (k - first * blockSize e)).
    { rewrite !list_lookup_total_alt. f_equal. rewrite slice_lookup by nia.
      rewrite decide_True by lia. f_equal. nia. }
    rewrite Et. case_decide as Hd.
    + rewrite <- Hhead at 1. rewrite !list_lookup_total_alt. f_equal. rewrite slice_lookup by lia.
      rewrite decide_True by lia. f_equal; lia.
    + rewrite Htail by nia. f_equal. lia.
  - rewrite decide_False by nia. unfold file_at. fold q r. f_equal.
    unfold block_bytes. apply read_at_eq. intros a Ha. apply Hfr. intros j b Hj Ej Hr'.
    rewrite Hch in Ej by done. injection Ej as <-. apply Hq.
    assert (block_at e d ino q = block_at e d ino (first + j)) as Eq by (unfold block_addr in *; nia).
    destruct Hik as [I1 I2]. destruct (in_file_le e G size _ (first + j) Hin ltac:(lia)) as [J1 J2].
    pose proof (ab_inj _ _ _ _ A _ _ I1 J1 I2 J2 Eq). lia.
Qed.

End bytes.

(** ** The two halves of [ext2Write] *)

(** What a write needs of the drive and the lookup buffers, and leaves behind. *)
Record file_state (e : Ext2) (d : gmap Z Z) (ino : Ext2Inode) (size : Z) (c : Ext2LookupControl) : Prop := {
  fs_file : file_ok e d ino size;
  fs_apart : apart_blocks e d ino size;
  fs_ctl : control_ok e d c;
  fs_map : control_map e d ino c;
}.

Lemma file_state_patched e d d' ino size c p bs :
  geometry e -> file_state e d ino size c -> patched e d d' ino size p bs -> file_state e d' ino size c.
Proof.
  intros G [F A C M] [_ O]. destruct (outside_control e G d ino size F A d' O c C M) as [C' M'].
  split; [by eapply outside_file_ok|by eapply outside_apart|done|done].
Qed.

Section halves.
Context (vmem : Z -> list Z) (oob : Z) (Hvmem : forall n, 0 <= n -> zlen (vmem n) = n).
Context (e : Ext2) (G : geometry e) (ino : Ext2Inode) (size : Z).
Context (lk : gmap ext2_lock Z) (h : heap) (inodeNum k obj : Z).
Context (Hlk : lk !! WLOCKS_BLOCK_BITMAP (INODE_TO_BLOCK_GROUP u32 e inodeNum) = Some k).
Context (Hk : 0 <= k).

Let fd (p : Z) (c : Ext2LookupControl) : Ext2OpenFd := mkFd c obj p inodeNum ino.

(** The index of the block a position lies in. *)
Lemma index_of p : 0 <= p < size -> in_file e size (p / blockSize e).
Proof.
  intros Hp. pose proof (geo_bs_min e G). pose proof (Z.div_mod p (blockSize e) ltac:(lia)).
  pose proof (Z.mod_pos_bound p (blockSize e) ltac:(lia)).
  split; [apply Z.div_pos; lia|lia].
Qed.

(** The part of the first block. *)
Lemma write_head_ok d c p buff limit :
  file_state e d ino size c -> 0 <= p -> 1 <= limit -> p + limit <= size -> limit <= zlen buff ->
  exists left_ first c' d1,
    write_head e (fd p c) buff limit (mkFs d e lk h) =
      Ok ((left_, first, fd (p + left_) c'), mkFs d1 e lk h) /\
    0 <= left_ <= limit /\ file_state e d1 ino size c' /\
    patched e d d1 ino size p (slice 0 left_ buff) /\
    (left_ < limit -> p + left_ = first * blockSize e).
Proof.
  intros S Hp Hl Hsz Hb. pose proof S as [F A C M]. pose proof (geo_bs_min e G) as Hbs.
  pose proof (limit_bound e G) as HB. pose proof (size_bound e G d ino size F) as HS.
  pose proof (Z.div_mod p (blockSize e) ltac:(lia)) as Hdm.
  pose proof (Z.mod_pos_bound p (blockSize e) ltac:(lia)) as Hmod.
  pose proof (index_of p ltac:(lia)) as Hi.
  destruct (in_file_block e G d ino size F _ Hi) as (Hnz & Hv & Hlim). pose proof (proj1 Hi) as Hq.
  unfold write_head. cbn [f_ptr f_inode f_inodeNum f_lookup fd].
  rewrite (s32_small (p / _)), (s32_small (p mod _)) by lia.
  set (q := p / blockSize e) in *. set (r := p mod blockSize e) in *.
  destruct (Z.ltb_spec 0 r) as [Hr|Hr].
  - assert (Hcur : 0 <= q < map_limit e) by lia.
    destruct (ext2BlockFetch_ok e G d ino c (fo_map _ _ _ _ F) C inodeNum k lk h Hlk Hk q) as (c1 & E1 & C1);
      [unfold map_limit in Hcur; lia|].
    pose proof (fetch_control_map e G d ino (fo_map _ _ _ _ F) c inodeNum k q lk h _ _ _ C M Hcur Hlk Hk E1) as M1.
    rewrite u64_small by lia. mrw E1. mgo (get_block_ok e G); [|exact Hv].
    set (left_ := Z.min (blockSize e - r) limit).
    rewrite load_ok by lia. cbn [from_option_fault]. erewrite bind_ok by done.
    assert (Hzs : zlen (slice 0 left_ buff) = left_) by (apply zlen_slice; lia).
    rewrite store_ok by (rewrite ?Hzs, ?zlen_block_bytes by done; lia).
    cbn [from_option_fault]. erewrite bind_ok by done.
    mgo (set_block_ok e G); [|exact Hv|by rewrite zlen_patch, zlen_block_bytes].
    pose proof (patch_block e G ino size d F A q r (slice 0 left_ buff) Hi ltac:(lia) ltac:(lia)) as P.
    replace (q * blockSize e + r) with p in P by lia.
    eexists left_, (q + 1), c1, _. split.
    { unfold fd_set_ptr, fd_set_lookup, fd. cbn. rewrite u64_small by lia. reflexivity. }
    split; [lia|]. split; [|split; [exact P|lia]].
    eapply file_state_patched; [done| |exact P]. by split.
  - exists 0, q, c, d. split; [by rewrite Z.add_0_r|]. split; [lia|]. split; [done|]. split; [|lia].
    apply patched_refl.
Qed.

(** The chain of a file without holes has no missing block. *)
Lemma first_missing_none bs : forall i, Forall (fun b => b <> 0) bs -> first_missing bs i = -1.
Proof.
  induction bs as [|b bs IH]; intros i H; [done|]. apply Forall_cons in H as [Hb H].
  cbn [first_missing]. rewrite (proj2 (Z.eqb_neq b 0) Hb). by apply IH.
Qed.

Section chain.
Context (d : gmap Z Z) (F : file_ok e d ino size) (A : apart_blocks e d ino size).
Context (first req : Z) (Hf : 0 <= first) (Hr : 1 <= req) (Hin : in_file e size (first + req - 1)).

Let chain := block_at e d ino <$> seqZ first req.

Lemma chain_index j : 0 <= j < req -> chain !! Z.to_nat j = Some (block_at e d ino (first + j)).
Proof. intros Hj. unfold chain. rewrite list_lookup_fmap, lookup_seqZ_lt by lia. cbn. do 2 f_equal. lia. Qed.

Lemma chain_zlen : zlen chain = req.
Proof. unfold zlen, chain. rewrite length_fmap, length_seqZ. lia. Qed.

Lemma chain_blocks : Forall (fun b => b <> 0 /\ valid_block e b) chain.
Proof.
  apply Forall_forall. intros b Hb. apply list_elem_of_fmap in Hb as (i & -> & Hi%elem_of_seqZ).
  destruct (in_file_block e G d ino size F i) as (? & ? & _); [|done].
  eapply (in_file_le e G size); [exact Hin|lia].
Qed.

Lemma chain_nodup : NoDup chain.
Proof.
  unfold chain. apply NoDup_fmap_2_strong; [|apply NoDup_seqZ].
  intros i j Hi%elem_of_seqZ Hj%elem_of_seqZ Eij.
  destruct (in_file_le e G size _ i Hin ltac:(lia)), (in_file_le e G size _ j Hin ltac:(lia)).
  by apply (ab_inj _ _ _ _ A).
Qed.

(** The buffer before the copy: the last block of the chain is in its place. *)
Lemma write_buffer_ok n :
  req * blockSize e <= n ->
  exists tmp0 tmp,
    read_into (vmem n) 0 (BLOCK_TO_LBA e 0 (chain_at oob chain 0)) (block_sectors e) (mkFs d e lk h) =
      Ok (tmp0, mkFs d e lk h) /\
    (if 0 <? req - 1 then
       read_into tmp0 ((req - 1) * blockSize e) (BLOCK_TO_LBA e 0 (chain_at oob chain (req - 1))) (block_sectors e)
     else ret tmp0) (mkFs d e lk h) = Ok (tmp, mkFs d e lk h) /\
    zlen tmp = n /\
    slice ((req - 1) * blockSize e) (blockSize e) tmp = block_bytes e d (block_at e d ino (first + (req - 1))).
Proof.
  intros Hn. pose proof (geo_bs_min e G) as Hbs. pose proof chain_blocks as Hbl.
  assert (Hat : forall j, 0 <= j < req -> chain_at oob chain j = block_at e d ino (first + j) /\
    valid_block e (block_at e d ino (first + j))).
  { intros j Hj. unfold chain_at. rewrite chain_index by done. split; [done|].
    apply (Forall_lookup_1 _ _ _ _ Hbl (chain_index j Hj)). }
  assert (Hri : forall tmp j, 0 <= j < req -> zlen tmp = n ->
    read_into tmp (j * blockSize e) (BLOCK_TO_LBA e 0 (chain_at oob chain j)) (block_sectors e) (mkFs d e lk h) =
      Ok (patch (j * blockSize e) (block_bytes e d (block_at e d ino (first + j))) tmp, mkFs d e lk h)).
  { intros tmp j Hj Hz. destruct (Hat j Hj) as [-> Hv]. unfold read_into. mgo (get_block_ok e G); [|exact Hv].
    by rewrite store_ok by (rewrite ?zlen_block_bytes by done; nia). }
  assert (Hs : forall tmp j, 0 <= j < req -> zlen tmp = n ->
    slice (j * blockSize e) (blockSize e)
      (patch (j * blockSize e) (block_bytes e d (block_at e d ino (first + j))) tmp) =
      block_bytes e d (block_at e d ino (first + j))).
  { intros tmp j Hj Hz. set (bb := block_bytes _ _ _).
    assert (Hzb : zlen bb = blockSize e) by (by apply zlen_block_bytes).
    rewrite <- Hzb at 2. apply slice_patch_same; nia. }
  assert (Hz0 : zlen (vmem n) = n) by (apply Hvmem; nia).
  pose proof (Hri (vmem n) 0 ltac:(lia) Hz0) as E0. rewrite Z.mul_0_l in E0.
  eexists. destruct (Z.ltb_spec 0 (req - 1)).
  - eexists. split; [exact E0|]. split; [apply Hri; [lia|by rewrite zlen_patch]|].
    split; [by rewrite !zlen_patch|]. apply Hs; [lia|by rewrite zlen_patch].
  - eexists. split; [exact E0|]. split; [reflexivity|]. split; [by rewrite zlen_patch|].
    replace (req - 1) with 0 by lia. rewrite Z.mul_0_l. rewrite <- (Z.mul_0_l (blockSize e)) at 1 2.
    apply Hs; [lia|done].
Qed.

Lemma last_block_bytes tmp j :
  slice ((req - 1) * blockSize e) (blockSize e) tmp = block_bytes e d (block_at e d ino (first + (req - 1))) ->
  (req - 1) * blockSize e <= j < req * blockSize e ->
  tmp !!! Z.to_nat j = file_at e d ino (first * blockSize e + j).
Proof.
  intros Hs Hj. pose proof (geo_bs_min e G) as Hbs. unfold file_at.
  assert (Ej : first * blockSize e + j = j - (req - 1) * blockSize e + (first + (req - 1)) * blockSize e) by lia.
  rewrite Ej, Z.div_add, Z.mod_add by lia.
  rewrite (Z.div_small (j - _)), Z.add_0_l, <- Hs, (Z.mod_small (j - _)) by lia.
  rewrite !list_lookup_total_alt. f_equal. rewrite slice_lookup by nia.
  rewrite decide_True by lia. f_equal. nia.
Qed.

End chain.

(** The pages of the buffer hold one block more than the chain has. *)
Lemma buffer_size n : 0 <= n < 2 ^ 32 ->
  (n + 1) * blockSize e <= CEILING_DIVISION (u64 ((n + 1) * blockSize e)) BLOCK_SIZE * BLOCK_SIZE.
Proof.
  intros Hn. pose proof (geo_bs_min e G). unfold BLOCK_SIZE. rewrite u64_small by nia.
  rewrite CEILING_DIVISION_spec by nia.
  pose proof (ceiling_bounds ((n + 1) * blockSize e) 4096 ltac:(nia) ltac:(lia)). lia.
Qed.

(** The whole blocks behind it. *)
Lemma write_body_ok d c p buff left_ remainder first :
  file_state e d ino size c -> 0 <= first -> p = first * blockSize e -> 1 <= remainder ->
  p + remainder <= size -> 0 <= left_ -> left_ + remainder <= zlen buff ->
  exists c' d1,
    write_body vmem oob e (fd p c) buff left_ remainder first (mkFs d e lk h) =
      Ok (fd (p + remainder) c', mkFs d1 e lk h) /\
    file_state e d1 ino size c' /\ patched e d d1 ino size p (slice left_ remainder buff).
Proof.
  intros S Hf Hp Hr Hsz Hl Hb. pose proof S as [F A C M]. pose proof (geo_bs_min e G) as Hbs.
  pose proof (limit_bound e G) as HB. pose proof (size_bound e G d ino size F) as HS.
  destruct (read_arith e G p remainder size) as (_ & _ & _ & Hr1 & Hreq & _); [nia|done|done|].
  set (req := (remainder + blockSize e - 1) / blockSize e) in *.
  assert (Hin : in_file e size (first + req - 1)) by (split; [lia|nia]).
  destruct (in_file_block e G d ino size F _ Hin) as (_ & _ & Hlim).
  unfold write_body. cbn [f_ptr f_inode f_inodeNum f_lookup fd].
  rewrite CEILING_DIVISION_spec by lia. fold req. rewrite (s32_small req) by lia.
  destruct (block_chain_ok e d lk h ino inodeNum k (Z.to_nat (1 + (req - 1))) first c) as (c1 & E1 & C1);
    try done; [apply (fo_map _ _ _ _ F)|unfold map_limit in *; lia|].
  assert (M1 : control_map e d ino c1).
  { eapply (chain_control_map e G d ino (fo_map _ _ _ _ F)); [exact C|exact M|exact Hf| |exact Hlk|exact Hk|exact E1]. lia. }
  replace (Z.of_nat (Z.to_nat (1 + (req - 1)))) with req in E1 by lia.
  pose proof (chain_blocks d F first req Hf Hin) as Hbl. pose proof (chain_zlen d first req Hr1) as Hzc.
  pose proof (chain_nodup d A first req Hf Hin) as Hnd.
  unfold ext2BlockChain. rewrite u64_small by lia. mrw E1.
  rewrite first_missing_none by (eapply Forall_impl; [exact Hbl|by intros ? []]).
  cbn [negb Z.eqb Pos.eqb]. erewrite bind_ok by done. cbv beta iota.
  pose proof (buffer_size req ltac:(lia)) as Hn. set (n := CEILING_DIVISION _ _ * _) in *.
  destruct (write_buffer_ok d F first req Hf Hr1 Hin n) as (t0 & t1 & Et0 & Et1 & Hzt & Hlast); [lia|].
  mrw Et0. mrw Et1. rewrite load_ok by lia. cbn [from_option_fault]. erewrite bind_ok by done.
  set (bs := slice left_ remainder buff). assert (Hzs : zlen bs = remainder) by (apply zlen_slice; lia).
  rewrite store_ok by lia. cbn [from_option_fault]. erewrite bind_ok by done.
  set (tmp := patch 0 bs t1). assert (Hzp : zlen tmp = n) by (unfold tmp; by rewrite zlen_patch).
  destruct (write_runs_ok e G lk h oob _ req tmp Hzc) with (d := d) (n := Z.to_nat req) (i := 0)
    (s := -1) (curr := 0) (d1 := d) as (d1 & Ew & Hd1);
    [lia|done|done|lia|lia|lia|by left|apply runs_done_start|].
  mrw Ew.
  assert (P : patched e d d1 ino size p bs).
  { subst p. apply (patch_chain e G ino size d F A first req tmp); try done; try lia.
    - unfold tmp. apply slice_patch_same; lia.
    - intros j Hj. rewrite list_lookup_total_alt. unfold tmp.
      rewrite patch_lookup_outside by (unfold zlen in *; lia). rewrite <- list_lookup_total_alt.
      apply (last_block_bytes d first req); [done|done|lia]. }
  exists c1, d1. split.
  { unfold fd_set_ptr, fd_set_lookup, fd_set_inode, fd. cbn. rewrite u64_small by lia. reflexivity. }
  split; [|exact P]. eapply file_state_patched; [done| |exact P]. by split.
Qed.
(** The rest of the bytes after the first block. *)
Lemma write_rest_ok d d1 c p buff limit left_ first :
  file_ok e d ino size -> apart_blocks e d ino size -> file_state e d1 ino size c ->
  0 <= p -> p + limit <= size ->
  0 <= left_ <= limit -> limit <= zlen buff ->
  patched e d d1 ino size p (slice 0 left_ buff) ->
  (left_ < limit -> p + left_ = first * blockSize e) ->
  exists c' d2,
    (if 0 <? limit - left_ then write_body vmem oob e (fd (p + left_) c) buff left_ (limit - left_) first
     else ret (fd (p + left_) c)) (mkFs d1 e lk h) = Ok (fd (p + limit) c', mkFs d2 e lk h) /\
    file_state e d2 ino size c' /\ patched e d d2 ino size p (slice 0 limit buff).
Proof.
  intros F A S1 Hp Hsz Hleft Hb P1 Hfirst. pose proof (geo_bs_min e G) as Hbs.
  assert (Hz : zlen (slice 0 left_ buff) = left_) by (apply zlen_slice; lia).
  destruct (Z.ltb_spec 0 (limit - left_)) as [Hlt|Hge].
  - specialize (Hfirst ltac:(lia)).
    destruct (write_body_ok d1 c (p + left_) buff left_ (limit - left_) first) as (c2 & d2 & E & S2 & P2);
      [done|nia|done|lia|lia|lia|lia|].
    replace (p + left_ + (limit - left_)) with (p + limit) in E by lia.
    exists c2, d2. split; [exact E|]. split; [done|].
    rewrite (slice_split 0 left_ limit) by lia. rewrite Z.add_0_l.
    eapply patched_trans; [exact G|exact F|exact A|exact P1|by rewrite Hz].
  - exists c, d1. replace left_ with limit in * by lia. done.
Qed.

End halves.

(** ** The whole handler *)

(** The cached runs of an object are forgotten with one store. *)
Lemma forget_cache h x o :
  objects_rep h (x :: o) -> 0 < h_brk h ->
  let h' := set_h_found (<[x.1 := o_set_firstCacheObj 0 (found_cell (head_addr o 0) 0 x.2)]> (h_found h)) h in
  objects_rep h' ((x.1, (x.2.1, 0)) :: o) /\ cache_rep h' x.1 [].
Proof.
  intros [Hf [Hx HL] HN H0] Hb h'. cbn in HN. apply NoDup_cons in HN as [Hxo HN]. split.
  - split; [done| |by apply NoDup_cons|done]. cbn [linked h' set_h_found h_found]. split.
    + by rewrite lookup_insert_eq.
    + apply (linked_frame _ (h_found h)); [|done]. intros a Ha. cbn. rewrite lookup_insert_ne; [done|congruence].
  - split; try done; [|apply NoDup_nil_2|constructor].
    eexists. split; [cbn; apply lookup_insert_eq|done].
Qed.

Section write.
Context (vmem : Z -> list Z) (oob : Z) (Hvmem : forall n, 0 <= n -> zlen (vmem n) = n).
Context (e : Ext2) (G : geometry e) (d : gmap Z Z) (lk : gmap ext2_lock Z) (h : heap).
Context (fd : Ext2OpenFd).

Let obj := f_globalObject fd.
Let ino := f_inode fd.
Let ptr := f_ptr fd.
Let size := ext2GetFilesize fd.

Lemma ext2Write_ok o1 o2 x l flags buff limit :
  readable e d lk h fd o1 o2 x l ->
  apart_blocks e d ino size -> control_map e d ino (f_lookup fd) -> lk !! WLOCK_FILE obj = Some 0 ->
  has_flag flags O_APPEND = false -> 1 <= limit <= zlen buff ->
  ptr + limit <= size -> ptr + limit <= i_size ino ->
  exists c' d' h',
    ext2Write vmem oob flags fd buff limit (mkFs d e lk h) =
      Ok ((limit, mkFd c' obj (ptr + limit) (f_inodeNum fd) ino), mkFs d' e lk h') /\
    file_state e d' ino size c' /\ patched e d d' ino size ptr (slice 0 limit buff) /\
    objects_rep h' ((obj, (x.2.1, 0)) :: o1 ++ o2) /\ cache_rep h' obj [].
Proof.
  intros [Ff Freg Fc Fp Fx Fo Fr Fv (k & Hk & Hbm) Fwc _ Fwo] A M Hwf Hfl Hlim Hsz Hisz.
  fold ino obj ptr size in Ff, Freg, Fp, Fx, Fr, Fv, Fwc.
  unfold ext2Write. erewrite bind_ok by done. cbn [ext2].
  destruct (ext2CachePush_ok d e lk h o1 x o2 Fo Fwo) as (h1 & E1 & O1 & Ec1 & Eb1 & _).
  fold obj. rewrite Fx in E1. mrw E1. mgo write_acquire_ok; [|exact Fwc].
  pose proof (proj1 (or_links _ _ O1)) as Hg. rewrite Fx in Hg. mgo upd_found_ok; [|exact Hg].
  mgo write_release_ok; [|exact Fwc].
  destruct (forget_cache h1 x (o1 ++ o2) O1) as [O2 C2]; [rewrite Eb1; apply (cr_brk _ _ _ Fr)|].
  rewrite Fx in O2, C2. set (h2 := set_h_found _ _) in *.
  fold ino. rewrite Freg. mgo write_acquire_ok; [|exact Hwf].
  set (lk1 := <[WLOCK_FILE obj := -1]> lk). rewrite Hfl. cbv beta iota.
  assert (Hbm1 : lk1 !! WLOCKS_BLOCK_BITMAP (INODE_TO_BLOCK_GROUP u32 e (f_inodeNum fd)) = Some k)
    by (unfold lk1; by rewrite lookup_insert_ne).
  assert (S : file_state e d ino size (f_lookup fd)) by (by split).
  destruct (write_head_ok e G ino size lk1 h2 (f_inodeNum fd) k obj Hbm1 Hk d (f_lookup fd) ptr buff limit)
    as (left_ & first & c1 & d1 & E2 & Hleft & S1 & P1 & Hfirst); [done|done|lia|done|lia|].
  replace (mkFd (f_lookup fd) obj ptr (f_inodeNum fd) ino) with fd in E2 by (by destruct fd).
  mrw E2. cbv zeta.
  destruct (write_rest_ok vmem oob Hvmem e G ino size lk1 h2 (f_inodeNum fd) k obj Hbm1 Hk d d1 c1 ptr buff limit
    left_ first) as (c2 & d2 & E3 & S2 & P2); [done|done|done|done|done|done|lia|done|done|].
  mrw E3. cbn [f_inode f_ptr]. rewrite (proj2 (Z.ltb_ge _ _) Hisz). erewrite bind_ok by done.
  mgo write_release_ok; [|exact Hwf]. by exists c2, d2, h2.
Qed.

End write.
