(* ===== verification/Ext2DirOps.v ===== *)
(** * ext2: directories as maps from names to inodes

    [ext2DirAllocate] and [ext2DirRemove] on a whole directory, seen through
    [ext2Traverse]: an insertion adds one binding, a removal takes one away, and
    every other name keeps its inode. *)

From S2P Require Import Prelude Bytes FileTypes Spinlock Disk Ext2Types Ext2Base Ext2Push Ext2Counters.
From S2P Require Import Ext2Example Ext2Inode Ext2Block Ext2Lookup Ext2Assign DirBlock Ext2Dirs.

(** ** Directories on data blocks of their own *)

Record dir_ok (e : Ext2) (d : gmap Z Z) (ino : Ext2Inode) (ess : list (list dirent)) : Prop := {
  dk_contents : dir_contents e d ino ess;
  dk_data : forall i, (i < length ess)%nat -> data_block e (block_at e d ino (Z.of_nat i));
  dk_inj : forall i j, (i < length ess)%nat -> (j < length ess)%nat -> i <> j ->
    block_at e d ino (Z.of_nat i) <> block_at e d ino (Z.of_nat j);
  dk_single : forall i, (i < length ess)%nat ->
    block_at e d ino (Z.of_nat i) <> i_blocks ino !!! 12%nat;
  dk_double : i_blocks ino !!! 13%nat = 0;
}.

(** What a name is bound to. *)
Definition dir_lookup (ess : list (list dirent)) (name : list Z) : option Z :=
  lookup_entry (mjoin ess) name.

Lemma dir_lookup_insert ess k es es' n :
  ess !! k = Some es -> lookup_entry es' n = lookup_entry es n ->
  dir_lookup (<[k := es']> ess) n = dir_lookup ess n.
Proof.
  intros Hk E. unfold dir_lookup. rewrite <- (take_drop_middle ess k es Hk) at 2.
  rewrite insert_take_drop by (by eapply lookup_lt_Some).
  rewrite !join_app. cbn [mjoin list_join]. by rewrite !lookup_entry_app, E.
Qed.

Lemma dir_lookup_none ess k es n :
  ess !! k = Some es -> dir_lookup ess n = None -> lookup_entry es n = None.
Proof.
  intros Hk. unfold dir_lookup. rewrite <- (take_drop_middle ess k es Hk), join_app.
  cbn [mjoin list_join]. rewrite !lookup_entry_app. by repeat case_match.
Qed.

Lemma dir_lookup_added ess k es es' n v :
  ess !! k = Some es -> dir_lookup ess n = None -> lookup_entry es' n = Some v ->
  dir_lookup (<[k := es']> ess) n = Some v.
Proof.
  intros Hk Hn E. unfold dir_lookup in *. rewrite <- (take_drop_middle ess k es Hk) in Hn.
  rewrite insert_take_drop by (by eapply lookup_lt_Some).
  rewrite !join_app in *. cbn [mjoin list_join] in *. rewrite !lookup_entry_app in *.
  rewrite E. by destruct (lookup_entry (mjoin (take k ess)) n).
Qed.

Section update.
Context (e : Ext2) (d : gmap Z Z) (V : volume e d) (ino : Ext2Inode) (ess : list (list dirent)).
Context (D : dir_ok e d ino ess) (k : nat) (es es' : list dirent).
Context (Hk : ess !! k = Some es) (Hwf : Forall dirent_wf es').
Context (Hlen : zlen (encode_dir es') = zlen (encode_dir es)).

Let b := block_at e d ino (Z.of_nat k).
Let d' := write_block e d b (encode_dir es').

Lemma update_len : zlen (encode_dir es') = blockSize e.
Proof.
  destruct (dc_blocks _ _ _ _ (dk_contents _ _ _ _ D) k es Hk) as (_ & _ & Hb & _).
  rewrite Hlen, <- Hb. apply zlen_block_bytes, (vol_geo e d V).
Qed.

Lemma update_at j : 0 <= j < 12 + blockSize e / 4 -> block_at e d' ino j = block_at e d ino j.
Proof.
  intros Hj. unfold block_at. destruct (Z.ltb_spec j 12); [done|].
  rewrite (proj2 (Z.ltb_lt j (12 + blockSize e / 4))) by lia.
  destruct (_ =? 0); [done|]. f_equal. apply block_bytes_other; [apply (vol_geo e d V)|apply update_len|].
  apply (dk_single _ _ _ _ D). by eapply lookup_lt_Some.
Qed.

Lemma dir_update : dir_ok e d' ino (<[k := es']> ess).
Proof.
  pose proof (vol_geo e d V) as G. pose proof (dk_contents _ _ _ _ D) as [Hmap Hcnt Hmax Hblk].
  assert (forall i, (i < length ess)%nat -> block_at e d' ino (Z.of_nat i) = block_at e d ino (Z.of_nat i)) as Hat.
  { intros i Hi. apply update_at. unfold zlen in Hmax. lia. }
  split; [split|..]; rewrite ?length_insert.
  - destruct Hmap as [Hl H12 H13 Hin]. split; try done. intros H. by rewrite (dk_double _ _ _ _ D) in H.
  - unfold zlen in *. by rewrite length_insert.
  - unfold zlen in *. by rewrite length_insert.
  - intros i es0 Hi. cbn zeta. pose proof (lookup_lt_Some _ _ _ Hi) as Hil. rewrite length_insert in Hil.
    rewrite Hat by done. destruct (decide (i = k)) as [->|Hne].
    + rewrite list_lookup_insert_eq in Hi by done. injection Hi as <-.
      destruct (Hblk k es Hk) as (? & ? & _). split; [done|]. split; [done|].
      split; [|done]. by apply block_bytes_same, update_len.
    + rewrite list_lookup_insert_ne in Hi by done. destruct (Hblk i es0 Hi) as (? & ? & Hb & ?).
      split; [done|]. split; [done|]. split; [|done]. rewrite <- Hb. apply block_bytes_other; [done|apply update_len|].
      apply (dk_inj _ _ _ _ D); [by eapply lookup_lt_Some|done|done].
  - intros i Hi. rewrite Hat by done. by apply (dk_data _ _ _ _ D).
  - intros i j Hi Hj Hij. rewrite !Hat by done. by apply (dk_inj _ _ _ _ D).
  - intros i Hi. rewrite Hat by done. by apply (dk_single _ _ _ _ D).
  - apply (dk_double _ _ _ _ D).
Qed.

Lemma update_volume : volume e d'.
Proof.
  apply write_data_volume; [done| |apply update_len].
  apply (dk_data _ _ _ _ D). by eapply lookup_lt_Some.
Qed.

Lemma update_inode x n :
  inode_tables e -> valid_inode e n -> bgdts e !! Z.to_nat (inode_group e n) = Some x ->
  inode_at e d' x n = inode_at e d x n.
Proof.
  intros T Hn Hx. eapply inode_write_data_other; eauto using update_len.
  apply (dk_data _ _ _ _ D). by eapply lookup_lt_Some.
Qed.

End update.

(** ** Fetching with a control that stays coherent across writes to other blocks *)

Section single.
Context (e : Ext2) (G : geometry e) (d : gmap Z Z) (ino : Ext2Inode) (Hmap : map_ok e d ino).
Context (inodeNum k : Z) (l : gmap ext2_lock Z) (h : heap).
Context (Hlk : l !! WLOCKS_BLOCK_BITMAP (INODE_TO_BLOCK_GROUP u32 e inodeNum) = Some k).
Context (Hk : 0 <= k).

Lemma ext2BlockFetch_single c curr :
  control_single e d ino c -> 0 <= curr < 12 + blockSize e / 4 ->
  exists c', ext2BlockFetch ino inodeNum c curr (mkFs d e l h) =
    Ok ((block_at e d ino curr, c'), mkFs d e l h) /\ control_single e d ino c'.
Proof.
  intros [H2 H1] Hcurr. destruct (items_bounds e G) as (Ei & Hib & Hi4).
  destruct Hmap as [Hlen H12 _ _]. pose proof (zlen_block_bytes e G d) as Hz.
  pose proof (geo_bs_min e G).
  unfold ext2BlockFetch. erewrite bind_ok by done. cbn [ext2]. mstep read_acquire_ok.
  unfold block_lookup, block_at. rewrite Ei, (u32_small (12 + blockSize e / 4)) by lia.
  destruct (Z.ltb_spec curr 12).
  { rewrite blocks_lookup by (done || lia). cbn [from_option_fault]. erewrite bind_ok by done.
    cbv beta iota. mstep read_release_ok. exists c. split; [done|]. by split. }
  rewrite (proj2 (Z.ltb_lt curr (12 + blockSize e / 4))) by lia.
  rewrite blocks_lookup by (done || lia). cbn [from_option_fault].
  assert (Hcoh : tmp_ok e d (tmp1 c) (tmp1Block c)).
  { destruct H1 as [?|(Hnz & -> & ->)]; [by left|]. destruct H12 as [?|?]; [done|]. right. eauto 10. }
  destruct (Z.eqb_spec (i_blocks ino !!! 12%nat) 0) as [E|E].
  { erewrite bind_ok; [|unfold bind, ret; by rewrite E]. cbv beta iota. mstep read_release_ok.
    exists c. split; [done|]. by split. }
  erewrite bind_ok.
  2:{ erewrite bind_ok by done. rewrite (proj2 (Z.eqb_neq _ _) E). cbn [negb].
      mgo load_cached_ok; [|done..]. mgo get_word_ok; [|lia|rewrite Hz; lia]. reflexivity. }
  cbv beta iota. mstep read_release_ok. eexists. split; [done|]. split; [done|]. right. done.
Qed.

End single.

Lemma fresh_control_single e d ino junk : control_single e d ino (fresh_control junk).
Proof. split; [done|by left]. Qed.

(** ** Insertion *)

Lemma insert_entry_fresh es name type inode :
  lookup_entry es name = None -> insert_entry es name type inode <> None.
Proof.
  induction es as [|x es IH]; cbn [lookup_entry insert_entry]; [done|].
  rewrite live_match_bool. case_bool_decide as Hm; [done|]. rewrite decide_False by done.
  intros Hl. destruct (_ <=? _); [done|]. specialize (IH Hl).
  by destruct (insert_entry es name type inode) as [[]|].
Qed.

Section dir_ops.
Context (e : Ext2) (d : gmap Z Z) (V : volume e d) (T : inode_tables e).
Context (l : gmap ext2_lock Z) (h : heap) (LF : locks_free e l).
Context (n : Z) (Hn : valid_inode e n) (ino : Ext2Inode) (ess : list (list dirent)).
Context (D : dir_ok e d ino ess) (name : list Z).

Lemma dir_lock : l !! WLOCKS_BLOCK_BITMAP (INODE_TO_BLOCK_GROUP u32 e n) = Some 0.
Proof. rewrite (assign_group e d V n Hn). apply LF. by eapply inode_write_group. Qed.

Lemma dir_index i : (i < length ess)%nat -> 0 <= Z.of_nat i < 12 + blockSize e / 4.
Proof. pose proof (dc_max _ _ _ _ (dk_contents _ _ _ _ D)) as Hm. unfold zlen in Hm. lia. Qed.

(** The blocks from [i] on: the first with room takes the entry, or none has room. *)
Lemma dir_alloc_blocks_ok type inode : forall m i c,
  control_single e d ino c -> (i + m = length ess)%nat -> dir_lookup ess name = None ->
  (exists k es es' c', ess !! k = Some es /\
     insert_entry es name type inode = Some (Some es') /\
     dir_alloc_blocks m e ino n c (Z.of_nat i) name type inode (mkFs d e l h) =
       (let b := block_at e d ino (Z.of_nat k) in
        set_disk (encode_dir es') (BLOCK_TO_LBA e 0 b) (block_sectors e) ;;;
        ret (Some true, c', Z.of_nat k)) (mkFs d e l h)) \/
  (exists c', control_single e d ino c' /\
     (forall k es, (i <= k)%nat -> ess !! k = Some es -> insert_entry es name type inode = Some None) /\
     dir_alloc_blocks m e ino n c (Z.of_nat i) name type inode (mkFs d e l h) =
       Ok ((None, c', zlen ess), mkFs d e l h)).
Proof.
  pose proof (vol_geo e d V) as G. pose proof (dk_contents _ _ _ _ D) as DC.
  induction m as [|m IH]; intros i c Hc Hi Hf; cbn [dir_alloc_blocks].
  { right. exists c. split; [done|]. split.
    - intros k es Hk Hes. apply lookup_lt_Some in Hes. lia.
    - unfold zlen. by rewrite <- Hi, Nat.add_0_r. }
  destruct (lookup_lt_is_Some_2 ess i) as [es Hes]; [lia|].
  destruct (ext2BlockFetch_single e G d ino (dc_map _ _ _ _ DC) n 0 l h dir_lock ltac:(lia) c
    (Z.of_nat i) Hc (dir_index i ltac:(lia))) as (c1 & E & Hc1). mrw E.
  destruct (dc_blocks _ _ _ _ DC i es Hes) as (Hnz & Hv & Hb & Hwf).
  rewrite (proj2 (Z.eqb_neq _ 0) Hnz). mgo get_block_ok; [|done..]. rewrite Hb.
  pose proof (dir_fuel_enough e d _ es G Hb).
  rewrite dir_insert_top by (done || lia). erewrite bind_ok by done.
  pose proof (dir_lookup_none ess i es name Hes Hf) as Hl.
  pose proof (insert_entry_fresh es name type inode Hl) as Hin.
  destruct (insert_entry es name type inode) as [[es'|]|] eqn:Ei; [|..|done].
  - left. exists i, es, es', c1. done.
  - replace (Z.of_nat i + 1) with (Z.of_nat (S i)) by lia.
    destruct (IH (S i) c1 Hc1 ltac:(lia) Hf) as [(k & es0 & es' & c' & Hk & Hi' & E')|(c' & Hc' & Hno & E')].
    + left. exists k, es0, es', c'. auto.
    + right. exists c'. split; [done|]. split; [|done]. intros k es0 Hk Hes0.
      destruct (decide (k = i)) as [->|]; [congruence|]. apply (Hno k es0); [lia|done].
Qed.

(** A record with room takes the entry, in place. *)
Lemma ext2DirAllocate_ok junk type inode :
  dir_lookup ess name = None -> 0 < inode < 2 ^ 32 -> 0 <= type < 256 -> zlen name < 256 ->
  (exists k es, ess !! k = Some es /\ insert_entry es name type inode <> Some None) ->
  exists d' ess', ext2DirAllocate junk n ino name type inode (mkFs d e l h) =
      Ok ((true, ino), mkFs d' e l h) /\
    volume e d' /\ dir_ok e d' ino ess' /\
    dir_lookup ess' name = Some inode /\
    (forall m, m <> name -> dir_lookup ess' m = dir_lookup ess m) /\
    (forall m x, valid_inode e m -> bgdts e !! Z.to_nat (inode_group e m) = Some x ->
       inode_at e d' x m = inode_at e d x m).
Proof.
  intros Hf Hino Hty Hnm (k0 & es0 & Hk0 & Hroom). pose proof (dk_contents _ _ _ _ D) as DC.
  unfold ext2DirAllocate. erewrite bind_ok by done. cbn [ext2].
  mgo spin_acquire_ok; [|apply LF]. rewrite (dc_count _ _ _ _ DC). unfold zlen at 1. rewrite Nat2Z.id.
  destruct (dir_alloc_blocks_ok type inode (length ess) 0 (fresh_control junk)
    (fresh_control_single e d ino junk) eq_refl Hf)
    as [(k & es & es' & c' & Hk & Ei & E)|(c' & _ & Hno & _)].
  2:{ destruct Hroom. apply (Hno k0 es0); [lia|done]. }
  destruct (dc_blocks _ _ _ _ DC k es Hk) as (Hnz & Hv & Hb & Hwf).
  destruct (insert_entry_spec es name type inode es' Hwf Hino Hty Hnm Ei) as (Hwf' & Hlen & Hnew & Hold).
  pose proof (update_len e d V ino ess D k es es' Hk Hlen) as Hbs.
  change (Z.of_nat 0) with 0 in E. erewrite bind_ok.
  2:{ rewrite E. cbv zeta. erewrite bind_ok by (apply set_block_ok; [apply V|done|done]). reflexivity. }
  cbv beta iota. erewrite bind_ok by (apply spin_release_ok, LF).
  eexists _, (<[k := es']> ess). split; [done|].
  split; [by eapply update_volume|]. split; [by eapply dir_update|].
  split; [|split].
  - eapply dir_lookup_added; [done..|]. apply Hnew. by eapply dir_lookup_none.
  - intros m Hm. eapply dir_lookup_insert; eauto.
  - intros m x Hm Hx. by eapply update_inode.
Qed.

End dir_ops.

(** ** Removal *)

Lemma lookup_entry_none_inv es name :
  lookup_entry es name = None -> Forall (fun x => ~ live_match name x) es.
Proof.
  induction es as [|x es IH]; cbn [lookup_entry]; [constructor|].
  rewrite live_match_bool. case_bool_decide; [done|]. intros Hl. constructor; auto.
Qed.

(** Blocks without the name stay as they are. *)
Lemma dir_remove_blocks_none e d l h n ino ess name hit : volume e d -> locks_free e l ->
  valid_inode e n -> dir_ok e d ino ess -> forall m i c,
  control_single e d ino c -> (i + m = length ess)%nat ->
  (forall j es, (i <= j)%nat -> ess !! j = Some es -> lookup_entry es name = None) ->
  dir_remove_blocks m e ino n c (Z.of_nat i) name hit (mkFs d e l h) = Ok (hit, mkFs d e l h).
Proof.
  intros V LF Hn D. pose proof (vol_geo e d V) as G. pose proof (dk_contents _ _ _ _ D) as DC.
  induction m as [|m IH]; intros i c Hc Hi Hno; cbn [dir_remove_blocks]; [done|].
  destruct (lookup_lt_is_Some_2 ess i) as [es Hes]; [lia|].
  destruct (ext2BlockFetch_single e G d ino (dc_map _ _ _ _ DC) n 0 l h
    (dir_lock e d V l LF n Hn) ltac:(lia) c (Z.of_nat i) Hc (dir_index e d ino ess D i ltac:(lia)))
    as (c1 & E & Hc1). mrw E.
  destruct (dc_blocks _ _ _ _ DC i es Hes) as (Hnz & Hv & Hb & Hwf).
  rewrite (proj2 (Z.eqb_neq _ 0) Hnz). mgo get_block_ok; [|done..]. rewrite Hb.
  pose proof (dir_fuel_enough e d _ es G Hb).
  pose proof (dir_remove_none es name false [] (dir_fuel e) None Hwf
    (lookup_entry_none_inv _ _ (Hno i es ltac:(lia) Hes)) ltac:(lia)) as Er.
  change ([] ++ encode_dir es) with (encode_dir es) in Er. change (zlen []) with 0 in Er.
  rewrite Er. erewrite bind_ok by done. cbv beta iota. erewrite bind_ok by done.
  rewrite orb_false_r. replace (Z.of_nat i + 1) with (Z.of_nat (S i)) by lia.
  apply IH; [done|lia|]. intros j es' Hj. apply Hno. lia.
Qed.

Section removal.
Context (e : Ext2) (d : gmap Z Z) (V : volume e d) (T : inode_tables e).
Context (l : gmap ext2_lock Z) (h : heap) (LF : locks_free e l).
Context (n : Z) (Hn : valid_inode e n) (ino : Ext2Inode) (ess : list (list dirent)).
Context (D : dir_ok e d ino ess) (name : list Z).
Context (k : nat) (es1 : list dirent) (x : dirent) (es2 : list dirent).
Context (Hk : ess !! k = Some (es1 ++ x :: es2)) (Hx : live_match name x).
Context (Huniq : Forall (fun y => ~ live_match name y) (es1 ++ es2)).
Context (Hothers : forall j es, j <> k -> ess !! j = Some es -> lookup_entry es name = None).

Context (Hbs : blockSize e < 65536).

Let es' := remove_entry es1 x es2.
Let d' := write_block e d (block_at e d ino (Z.of_nat k)) (encode_dir es').

Lemma removed_block :
  Forall dirent_wf (es1 ++ x :: es2) /\ zlen (encode_dir (es1 ++ x :: es2)) = blockSize e /\
  dir_remove (dir_fuel e) (encode_dir (es1 ++ x :: es2)) name None 0 false = Ok (encode_dir es', true) /\
  Forall dirent_wf es' /\ zlen (encode_dir es') = zlen (encode_dir (es1 ++ x :: es2)) /\
  lookup_entry es' name = None /\
  (forall m, m <> name -> lookup_entry es' m = lookup_entry (es1 ++ x :: es2) m).
Proof.
  pose proof (vol_geo e d V) as G.
  destruct (dc_blocks _ _ _ _ (dk_contents _ _ _ _ D) k _ Hk) as (_ & _ & Hb & Hwf).
  pose proof (zlen_block_bytes e G d (block_at e d ino (Z.of_nat k))) as Hz. rewrite Hb in Hz.
  pose proof (dir_fuel_enough e d _ _ G Hb).
  destruct (remove_entry_spec name es1 es2 x Hwf Hx Huniq ltac:(lia)) as (H1 & H2 & H3 & H4).
  split; [done|]. split; [done|]. split; [apply dir_remove_ok; done || lia|]. done.
Qed.

Lemma removed_control c : control_single e d ino c -> control_single e d' ino c.
Proof.
  intros [H2 [H1|(Hnz & Ha & Hb)]]; (split; [done|]); [by left|right].
  split; [done|]. split; [done|]. rewrite Hb. symmetry.
  destruct removed_block as (_ & Hz & _ & _ & Hl & _).
  apply block_bytes_other; [apply V|lia|]. apply (dk_single _ _ _ _ D). by eapply lookup_lt_Some.
Qed.

Lemma removed_others j es : <[k := es']> ess !! j = Some es -> lookup_entry es name = None.
Proof.
  intros Hj. destruct (decide (j = k)) as [->|Hne].
  - rewrite list_lookup_insert_eq in Hj by (by eapply lookup_lt_Some). injection Hj as <-. apply removed_block.
  - rewrite list_lookup_insert_ne in Hj by done. by eapply Hothers.
Qed.

Lemma dir_remove_blocks_ok : forall m i c,
  control_single e d ino c -> (i + m = length ess)%nat -> (i <= k)%nat ->
  dir_remove_blocks m e ino n c (Z.of_nat i) name false (mkFs d e l h) = Ok (true, mkFs d' e l h).
Proof.
  pose proof (vol_geo e d V) as G. pose proof (dk_contents _ _ _ _ D) as DC.
  destruct removed_block as (Hwfk & Hz & Er & Hwf' & Hl & Hgone & _).
  pose proof (lookup_lt_Some _ _ _ Hk) as Hkl.
  induction m as [|m IH]; intros i c Hc Hi Hik; cbn [dir_remove_blocks]; [lia|].
  destruct (lookup_lt_is_Some_2 ess i) as [es Hes]; [lia|].
  destruct (ext2BlockFetch_single e G d ino (dc_map _ _ _ _ DC) n 0 l h
    (dir_lock e d V l LF n Hn) ltac:(lia) c (Z.of_nat i) Hc (dir_index e d ino ess D i ltac:(lia)))
    as (c1 & E & Hc1). mrw E.
  destruct (dc_blocks _ _ _ _ DC i es Hes) as (Hnz & Hv & Hb & Hwf).
  rewrite (proj2 (Z.eqb_neq _ 0) Hnz). mgo get_block_ok; [|done..]. rewrite Hb.
  replace (Z.of_nat i + 1) with (Z.of_nat (S i)) by lia.
  destruct (decide (i = k)) as [->|Hne].
  - rewrite Hk in Hes. injection Hes as <-. rewrite Er. erewrite bind_ok by done. cbv beta iota.
    mgo set_block_ok; [|done|done|lia].
    eapply dir_remove_blocks_none with (ess := <[k := es']> ess).
    + by eapply update_volume.
    + done.
    + done.
    + by eapply dir_update.
    + by apply removed_control.
    + rewrite length_insert. lia.
    + intros j es0 _ Hj. by eapply removed_others.
  - pose proof (dir_fuel_enough e d _ es G Hb).
    pose proof (dir_remove_none es name false [] (dir_fuel e) None Hwf
      (lookup_entry_none_inv _ _ (Hothers i es Hne Hes)) ltac:(lia)) as Er0.
    change ([] ++ encode_dir es) with (encode_dir es) in Er0. change (zlen []) with 0 in Er0.
    rewrite Er0. erewrite bind_ok by done. cbv beta iota. erewrite bind_ok by done.
    apply IH; [done|lia|lia].
Qed.

Lemma ext2DirRemove_ok junk :
  exists ess', ext2DirRemove junk ino n name (mkFs d e l h) = Ok (true, mkFs d' e l h) /\
    volume e d' /\ dir_ok e d' ino ess' /\ dir_lookup ess' name = None /\
    (forall m, m <> name -> dir_lookup ess' m = dir_lookup ess m) /\
    (forall m y, valid_inode e m -> bgdts e !! Z.to_nat (inode_group e m) = Some y ->
       inode_at e d' y m = inode_at e d y m).
Proof.
  destruct removed_block as (Hwfk & Hz & Er & Hwf' & Hl & Hgone & Hold).
  exists (<[k := es']> ess). split; [|split; [by eapply update_volume|split; [by eapply dir_update|split; [|split]]]].
  - unfold ext2DirRemove. erewrite bind_ok by done. cbn [ext2].
    mgo spin_acquire_ok; [|apply LF]. rewrite (dc_count _ _ _ _ (dk_contents _ _ _ _ D)).
    unfold zlen. rewrite Nat2Z.id.
    erewrite bind_ok by (apply (dir_remove_blocks_ok (length ess) 0); [apply fresh_control_single|lia|lia]).
    by erewrite bind_ok by (apply spin_release_ok, LF).
  - unfold dir_lookup. apply lookup_entry_none, Forall_forall. intros y Hy Hym.
    apply list_elem_of_join in Hy as (es & Hy & Hes). apply list_elem_of_lookup_1 in Hes as (j & Hj).
    pose proof (lookup_entry_none_inv _ _ (removed_others j es Hj)) as Hf.
    rewrite Forall_forall in Hf. by apply (Hf y).
  - intros m Hm. eapply dir_lookup_insert; [exact Hk|]. by apply Hold.
  - intros m y Hm Hy. by eapply update_inode.
Qed.

End removal.
