(* ===== verification/Ext2Sample.v ===== *)
(** * ext2: a populated sample volume

    The volume of [Ext2Example] with a root directory (inode 2) holding
    [.], [..] and a regular file [a] (inode 11, 3000 bytes in two consecutive
    blocks).  The hypotheses of the directory, file and mount theorems hold on
    it; their witnesses run there. *)

From S2P Require Import Prelude Bytes FileTypes Spinlock Disk Ext2Types Ext2Base Ext2Push Ext2Counters.
From S2P Require Import Ext2Example Ext2Inode Ext2Block Ext2Lookup Ext2Assign DirBlock Ext2Dirs.
From S2P Require Import Ext2Create Ext2Cache Ext2Files Ext2Mount Ext2Read Ext2Write Ext2DirOps.

(** ** Its inodes *)

Definition sm_inode (perm size links : Z) (blocks : list Z) : Ext2Inode :=
  mkInode perm 0 size 0 0 0 0 0 links (size / 512) 0 0
    (blocks ++ replicate (15 - length blocks) 0) 0 0 0 0 (zeros 12).

Definition sm_root : Ext2Inode := sm_inode 16877 2048 2 [10].
Definition sm_file : Ext2Inode := sm_inode 33188 3000 1 [11; 12].
Definition sm_none : Ext2Inode := sm_inode 0 0 0 [].

Definition sm_table : list Ext2Inode :=
  sm_none :: sm_root :: replicate 8 sm_none ++ sm_file :: replicate 5 sm_none.

Definition sm_table_bytes : list Z := mjoin (encode_inode <$> sm_table).

(** ** Its root directory: [.], [..] and [a], the last record filling the block *)

Definition sm_dir : list dirent :=
  [mkDirent 2 2 [46] (zeros 3); mkDirent 2 2 [46; 46] (zeros 2);
   mkDirent 11 1 [97] (zeros 2015)].

Definition sm_text (c : Z) : list Z := replicate 2048 c.

Definition sm_drive : gmap Z Z :=
  foldl (fun d w => write_block ex_ext2 d w.1 w.2) ex_drive
    [(5, sm_table_bytes); (10, encode_dir sm_dir); (11, sm_text 120); (12, sm_text 121)].

Definition sm_fs : fs := mkFs sm_drive ex_ext2 ex_locks ex_heap.

(** ** The invariants *)

Lemma sm_inode_wf perm size links blocks :
  fits 2 perm -> fits 4 size -> fits 2 links -> fits 4 (size / 512) ->
  (length blocks <= 15)%nat -> Forall (fits 4) blocks -> inode_wf (sm_inode perm size links blocks).
Proof.
  intros. split; try done; cbn [i_blocks sm_inode]. split.
  - rewrite length_app, length_replicate. lia.
  - apply Forall_app_2; [done|]. by apply Forall_replicate.
Qed.

#[local] Ltac sm_wf :=
  apply sm_inode_wf; try done; try (cbn; lia);
  repeat (apply Forall_cons_2; [done|]); by apply Forall_nil_2.

Lemma sm_table_wf : Forall inode_wf sm_table.
Proof.
  assert (inode_wf sm_none) by sm_wf. assert (inode_wf sm_root) by sm_wf.
  assert (inode_wf sm_file) by sm_wf.
  unfold sm_table. do 2 (apply Forall_cons_2; [done|]).
  apply Forall_app_2; [by apply Forall_replicate|]. apply Forall_cons_2; [done|].
  by apply Forall_replicate.
Qed.

Lemma zlen_encode_inodes is_ :
  Forall inode_wf is_ -> zlen (mjoin (encode_inode <$> is_)) = 128 * zlen is_.
Proof.
  induction 1 as [|i is_ Hi Hw IH]; [done|].
  change (mjoin (encode_inode <$> i :: is_)) with (encode_inode i ++ mjoin (encode_inode <$> is_)).
  rewrite zlen_app, IH, zlen_encode_inode by done. unfold zlen. cbn [length].
  unfold sizeof_Ext2Inode. lia.
Qed.

Lemma sm_text_len c : zlen (sm_text c) = 2048.
Proof. unfold zlen, sm_text. by rewrite length_replicate. Qed.

Lemma sm_table_len : zlen sm_table_bytes = 2048.
Proof. unfold sm_table_bytes. rewrite zlen_encode_inodes by apply sm_table_wf. done. Qed.

Lemma sm_dir_len : zlen (encode_dir sm_dir) = 2048.
Proof. unfold sm_dir. rewrite !encode_dir_cons, !zlen_app, !zlen_encode_dirent. done. Qed.

Lemma sm_blocks :
  block_bytes ex_ext2 sm_drive 5 = sm_table_bytes /\
  block_bytes ex_ext2 sm_drive 10 = encode_dir sm_dir /\
  block_bytes ex_ext2 sm_drive 11 = sm_text 120 /\
  block_bytes ex_ext2 sm_drive 12 = sm_text 121.
Proof.
  apply four_blocks; [apply ex_geometry|by apply (bool_decide_unpack (NoDup [5; 10; 11; 12]))|].
  repeat (apply Forall_cons; split; [first [apply sm_table_len|apply sm_dir_len|apply sm_text_len]|]).
  apply Forall_nil, I.
Qed.

Lemma sm_other b :
  b <> 5 -> b <> 10 -> b <> 11 -> b <> 12 ->
  block_bytes ex_ext2 sm_drive b = block_bytes ex_ext2 ex_drive b.
Proof.
  intros. unfold sm_drive. cbn [foldl fst snd].
  pose proof sm_table_len. pose proof sm_dir_len.
  pose proof (sm_text_len 120). pose proof (sm_text_len 121).
  rewrite !block_bytes_other; auto using ex_geometry.
Qed.

Lemma sm_volume : volume ex_ext2 sm_drive.
Proof.
  apply (volume_frame _ ex_drive); [apply ex_volume|].
  intros g x Hg Hx. destruct (ex_groups g x Hg Hx) as [[-> ->]|[-> ->]];
    split; apply sm_other; done.
Qed.

(** The bitmaps mark the first 18 blocks of group 0 and the first 14 of group 1. *)
Lemma sm_unused b :
  valid_pos block_family ex_ext2 b -> block_used ex_ext2 sm_drive b = false ->
  18 <= b < 32 \/ 46 <= b < 64.
Proof.
  intros Hb. change (0 <= b < 64) in Hb. unfold block_used, pos_used.
  change (fam_limit block_family (superblock ex_ext2)) with 32.
  pose proof (Z.div_mod b 32 ltac:(lia)). pose proof (Z.mod_pos_bound b 32 ltac:(lia)).
  destruct ex_drive_bitmaps as (E3 & _ & E35 & _).
  assert (b / 32 = 0 \/ b / 32 = 1) as [Eq|Eq] by lia; rewrite Eq.
  - change (bgdts ex_ext2 !! Z.to_nat 0) with (Some (ex_group 3 4 5 14 5)). cbv beta iota.
    change (bitmap block_family ex_ext2 sm_drive (ex_group 3 4 5 14 5))
      with (block_bytes ex_ext2 sm_drive 3).
    rewrite sm_other, E3, ex_bitmap_bit by lia. intros [? ?]%orb_false_iff. left. lia.
  - change (bgdts ex_ext2 !! Z.to_nat 1) with (Some (ex_group 35 36 37 18 13)). cbv beta iota.
    change (bitmap block_family ex_ext2 sm_drive (ex_group 35 36 37 18 13))
      with (block_bytes ex_ext2 sm_drive 35).
    rewrite sm_other, E35, ex_bitmap_bit by lia. intros [? ?]%orb_false_iff. right. lia.
Qed.

(** Everything behind the inode table of a group is a data block. *)
Lemma sm_data_block b : 6 <= b < 32 \/ 38 <= b < 64 -> data_block ex_ext2 b.
Proof.
  intros Hb. split.
  - unfold valid_block. cbn. lia.
  - lia.
  - intros i Hi. change (all_copies ex_ext2) with [0; 1] in Hi.
    assert (block_addr ex_ext2 b = 1048576 + b * 2048 /\ blockSize ex_ext2 = 2048) as [-> ->] by done.
    apply elem_of_cons in Hi as [->|Hi]; [|apply list_elem_of_singleton in Hi as ->].
    + assert (bgdt_copy ex_ext2 0 = 1050624 /\ super_copy ex_ext2 0 = 1049600) as [-> ->] by done. lia.
    + assert (bgdt_copy ex_ext2 1 = 1116160 /\ super_copy ex_ext2 1 = 1114112) as [-> ->] by done. lia.
  - intros g x j r Hg Hx Hr. unfold apart. cbn [fst snd].
    assert (block_addr ex_ext2 b = 1048576 + b * 2048 /\ blockSize ex_ext2 = 2048) as [-> ->] by done.
    destruct (ex_groups g x Hg Hx) as [[-> ->]|[-> ->]];
      destruct j as [|[|[|j]]]; try done; vm_compute in Hr; simplify_eq; cbn [fst snd]; lia.
Qed.

Lemma sm_space : space_ok ex_ext2 sm_drive.
Proof. intros b Hb Hu _. apply sm_data_block. pose proof (sm_unused b Hb Hu). lia. Qed.

Lemma sm_inode_tables : inode_tables ex_ext2.
Proof.
  split; [by exists 0|cbn; lia|].
  intros g x Hg Hx. destruct (ex_groups g x Hg Hx) as [[-> ->]|[-> ->]]; cbn; lia.
Qed.

(** Inodes of group 0 come from the table in block 5. *)
Lemma sm_inode_at n i :
  1 <= n <= 16 -> sm_table !! Z.to_nat (n - 1) = Some i ->
  inode_at ex_ext2 sm_drive (ex_group 3 4 5 14 5) n = i.
Proof.
  intros Hn Hi. unfold inode_at, inode_addr, inode_index.
  change (inodes_per_group (superblock ex_ext2)) with 16. change (inodeSize ex_ext2) with 128.
  rewrite Z.mod_small by lia. cbn [inode_table ex_group].
  destruct sm_blocks as (E & _). unfold block_bytes in E.
  rewrite <- (slice_read_at sm_drive _ (blockSize ex_ext2)) by (cbn; lia). rewrite E.
  pose proof sm_table_wf as W. rewrite <- (take_drop_middle _ _ _ Hi) in W.
  apply Forall_app in W as [W1 W2]. apply Forall_cons in W2 as [Wi W2].
  unfold sm_table_bytes. rewrite <- (take_drop_middle _ _ _ Hi), fmap_app, join_app.
  assert (Hl : zlen (mjoin (encode_inode <$> take (Z.to_nat (n - 1)) sm_table)) = (n - 1) * 128).
  { rewrite zlen_encode_inodes by done. unfold zlen.
    rewrite length_take. change (length sm_table) with 16%nat. lia. }
  rewrite <- Hl, slice_app_r by lia. rewrite Z.sub_diag.
  change (mjoin (encode_inode <$> i :: drop (S (Z.to_nat (n - 1))) sm_table))
    with (encode_inode i ++ mjoin (encode_inode <$> drop (S (Z.to_nat (n - 1))) sm_table)).
  pose proof (zlen_encode_inode i Wi) as Hz. unfold sizeof_Ext2Inode in Hz.
  rewrite <- Hz, slice_app_l, slice_full by lia.
  rewrite <- (app_nil_r (encode_inode i)). by apply decode_encode_inode.
Qed.

Lemma sm_root_at : inode_at ex_ext2 sm_drive (ex_group 3 4 5 14 5) 2 = sm_root.
Proof. by apply sm_inode_at. Qed.
Lemma sm_file_at : inode_at ex_ext2 sm_drive (ex_group 3 4 5 14 5) 11 = sm_file.
Proof. by apply sm_inode_at. Qed.

Lemma sm_map_ok perm size links blocks :
  (length blocks <= 12)%nat -> map_ok ex_ext2 sm_drive (sm_inode perm size links blocks).
Proof.
  intros Hl. assert (Hz : forall i, (12 <= i < 15)%nat ->
    i_blocks (sm_inode perm size links blocks) !!! i = 0).
  { intros i Hi. cbn [i_blocks sm_inode]. rewrite list_lookup_total_alt.
    rewrite lookup_app_r, lookup_replicate_2 by lia. done. }
  split.
  - cbn [i_blocks sm_inode]. rewrite length_app, length_replicate. lia.
  - left. apply Hz. lia.
  - left. apply Hz. lia.
  - rewrite Hz by lia. done.
Qed.

Lemma sm_dir_wf : Forall dirent_wf sm_dir.
Proof. repeat (apply Forall_cons_2; [by repeat split|]). by apply Forall_nil_2. Qed.

Lemma sm_dir_contents : dir_contents ex_ext2 sm_drive sm_root [sm_dir].
Proof.
  split; [apply sm_map_ok; cbn; lia|done|done|].
  intros i es Hi. destruct i as [|i]; [|done]. simplify_eq/=.
  change (block_at ex_ext2 sm_drive sm_root (Z.of_nat 0)) with 10.
  split; [done|]. split; [done|]. split; [apply sm_blocks|apply sm_dir_wf].
Qed.

Lemma sm_root_block : block_at ex_ext2 sm_drive sm_root 0 = 10.
Proof. done. Qed.

Lemma sm_dir_ok : dir_ok ex_ext2 sm_drive sm_root [sm_dir].
Proof.
  split; [apply sm_dir_contents|..|done]; cbn [length].
  - intros i Hi. assert (i = 0%nat) as -> by lia. change (Z.of_nat 0) with 0. rewrite sm_root_block.
    apply sm_data_block. lia.
  - intros i j Hi Hj. lia.
  - intros i Hi. assert (i = 0%nat) as -> by lia. change (Z.of_nat 0) with 0. by rewrite sm_root_block.
Qed.

(** ** The file opened, its second block in the cache *)

Definition sm_run : run := (1, sm_text 121, 1).
Definition sm_object : object := (11, 1, 2).

Definition sm_heap : heap :=
  mkHeap {[1 := found_cell 0 0 sm_object]} {[2 := cache_cell 0 0 sm_run]} 1 3 1.

Definition sm_locks : gmap ext2_lock Z :=
  <[WLOCK_FILE 1 := 0]> (<[WLOCK_CACHE 1 := 0]> (<[LOCK_PROP 1 := 0]> ex_locks)).

Definition sm_fd : Ext2OpenFd := mkFd (fresh_control []) 1 100 11 sm_file.

Lemma sm_cache_rep : cache_rep sm_heap 1 [(2, sm_run)].
Proof.
  split.
  - exists (found_cell 0 0 sm_object). by split.
  - by split.
  - apply NoDup_singleton.
  - apply Forall_singleton. cbn. lia.
  - repeat constructor.
  - done.
Qed.

Lemma sm_objects_rep : objects_rep sm_heap ([] ++ (1, sm_object) :: []).
Proof.
  split; [done|by split|apply NoDup_singleton|]. cbn. by rewrite list_elem_of_singleton.
Qed.

Lemma sm_file_block i :
  0 <= i < 12 -> block_at ex_ext2 sm_drive sm_file i = if i =? 0 then 11 else if i =? 1 then 12 else 0.
Proof.
  intros Hi. assert (i = 0 \/ i = 1 \/ i = 2 \/ i = 3 \/ i = 4 \/ i = 5 \/ i = 6 \/ i = 7 \/ i = 8 \/
    i = 9 \/ i = 10 \/ i = 11) as H by lia. by repeat (destruct H as [->|H]; [done|]); subst i.
Qed.

Lemma sm_file_hole i : 12 <= i < map_limit ex_ext2 -> block_at ex_ext2 sm_drive sm_file i = 0.
Proof.
  intros Hi. unfold block_at. rewrite (proj2 (Z.ltb_ge i 12)) by lia.
  change (i_blocks sm_file !!! 12%nat) with 0. change (i_blocks sm_file !!! 13%nat) with 0.
  by destruct (i <? _).
Qed.

Lemma sm_file_ok : file_ok ex_ext2 sm_drive sm_file 3000.
Proof.
  split.
  - apply sm_map_ok. cbn. lia.
  - intros i Hi. destruct (decide (i < 12)).
    + rewrite sm_file_block by lia. destruct (i =? 0); [by right|]. destruct (i =? 1); [by right|by left].
    + left. apply sm_file_hole. lia.
  - intros i H0 Hi. change (blockSize ex_ext2) with 2048 in Hi.
    assert (i = 0 \/ i = 1) as [->| ->] by lia; done.
  - split; [lia|]. vm_compute. done.
Qed.

Lemma sm_cache_valid : cache_valid ex_ext2 sm_drive sm_file [(2, sm_run)].
Proof.
  apply Forall_singleton. unfold run_valid. cbn [sm_run r_index r_blocks r_buff fst snd].
  change (map_limit ex_ext2) with 262668. change (blockSize ex_ext2) with 2048.
  split; [lia|]. split; [lia|]. rewrite sm_text_len. split; [lia|].
  rewrite <- (sm_text_len 121) at 1. rewrite Z.mul_1_l, slice_full.
  unfold file_blocks. change (seqZ 1 1) with [1]. cbn [fmap list_fmap].
  change (block_at ex_ext2 sm_drive sm_file 1) with 12.
  change (blocks_bytes ex_ext2 sm_drive [12]) with (block_bytes ex_ext2 sm_drive 12 ++ []).
  destruct sm_blocks as (_ & _ & _ & ->). by rewrite app_nil_r.
Qed.

Lemma sm_readable : readable ex_ext2 sm_drive sm_locks sm_heap sm_fd [] [] (1, sm_object) [(2, sm_run)].
Proof.
  split; try done.
  - exact sm_file_ok.
  - by apply fresh_control_ok.
  - exact sm_objects_rep.
  - exact sm_cache_rep.
  - exact sm_cache_valid.
  - by exists 0.
  - by exists 0.
Qed.

Lemma sm_apart : apart_blocks ex_ext2 sm_drive sm_file 3000.
Proof.
  assert (Hm : forall b, ~ map_block ex_ext2 sm_drive sm_file b).
  { intros b [Hb [E|[E|[E _]]]]; by vm_compute in E. }
  split; [|by intros]. change (blockSize ex_ext2) with 2048. intros i j H0 Hj Hi Hj'.
  assert (i = 0 \/ i = 1) as [-> | ->] by lia; assert (j = 0 \/ j = 1) as [-> | ->] by lia; done.
Qed.

Lemma sm_control_map : control_map ex_ext2 sm_drive sm_file (f_lookup sm_fd).
Proof. split; by left. Qed.

(** ** Mounting *)

Lemma sm_mountable : mountable ex_ext2.
Proof. by split. Qed.

Lemma sm_synced : meta_synced ex_ext2 (push_meta ex_ext2 sm_drive).
Proof. apply push_meta_synced, ex_geometry. Qed.

(** ** Both allocators can serve group 0 *)

Lemma sm_bitmaps :
  block_bytes ex_ext2 sm_drive 3 = ex_bitmap 18 32 /\
  block_bytes ex_ext2 sm_drive 4 = ex_bitmap 11 16.
Proof.
  destruct ex_drive_bitmaps as (E3 & E4 & _). rewrite <- E3, <- E4.
  split; by apply sm_other.
Qed.

Lemma sm_block_servable : block_servable ex_ext2 sm_drive 1 0 = true.
Proof.
  unfold block_servable. change (bgdts ex_ext2 !! Z.to_nat 0) with (Some (ex_group 3 4 5 14 5)).
  cbv beta iota. change (block_bitmap (ex_group 3 4 5 14 5)) with 3.
  destruct sm_bitmaps as [-> _]. change (1 <=? bg_free_blocks (ex_group 3 4 5 14 5)) with true.
  cbn [andb].
  pose proof (first_run_spec ex_ext2 (ex_bitmap 18 32) 1 ex_geometry ltac:(lia)) as H.
  destruct (first_run ex_ext2 (ex_bitmap 18 32) 1) as [k|].
  - destruct H as (Hk & _ & Hc & _). destruct (decide (k = 0)) as [->|]; [|by apply negb_true_iff, Z.eqb_neq].
    specialize (Hc 0 ltac:(lia)). by rewrite ex_bitmap_bit in Hc by lia.
  - exfalso. apply (H 18); [lia|cbn; lia|]. intros i Hi. rewrite ex_bitmap_bit by lia.
    by assert (i = 18) as -> by lia.
Qed.

Lemma sm_inode_servable : inode_servable ex_ext2 sm_drive 0 = true.
Proof.
  unfold inode_servable. change (bgdts ex_ext2 !! Z.to_nat 0) with (Some (ex_group 3 4 5 14 5)).
  cbv beta iota. change (1 <=? bg_free_inodes (ex_group 3 4 5 14 5)) with true. cbn [andb].
  unfold first_free_inode. change (inode_bitmap (ex_group 3 4 5 14 5)) with 4.
  destruct sm_bitmaps as [_ ->].
  change (scan_start ex_ext2 0) with 11.
  pose proof (first_clear_spec (ex_bitmap 11 16) 11 (blockSize ex_ext2 * 8 - 11)) as H.
  destruct (first_clear _ _) as [k|].
  - destruct H as (Hk & _). apply negb_true_iff, Z.eqb_neq. lia.
  - exfalso. specialize (H 11 ltac:(cbn; lia)). by rewrite ex_bitmap_bit in H by lia.
Qed.
