(* ===== verification/Ext2Paths.v ===== *)
(** * ext2: path resolution

    [ext2TraversePath] splits a path at its slashes and looks each component up in
    the directory the previous one named.  [resolves] states the same as a relation
    on lists of components; the theorem says the loop over the characters computes
    it. *)

From S2P Require Import Prelude Bytes FileTypes Paths Spinlock Disk Ext2Types Ext2Base Ext2Push Ext2Counters.
From S2P Require Import Ext2Example Ext2Inode Ext2Block Ext2Lookup Ext2Assign DirBlock Ext2Dirs.
From S2P Require Import Ext2Sample.

Section resolution.
Context (e : Ext2) (d : gmap Z Z) (follow : bool).

(** Inode [n] of the volume. *)
Definition stored (n : Z) (i : Ext2Inode) : Prop :=
  valid_inode e n /\ exists x, bgdts e !! Z.to_nat (inode_group e n) = Some x /\ inode_at e d x n = i.

Definition is_link (i : Ext2Inode) : bool := Z.land (permission i) 0xF000 =? EXT2_S_IFLNK.
Definition is_dir (i : Ext2Inode) : bool := negb (Z.land (permission i) S_IFDIR =? 0).

(** What a list of components names, from directory [n] on; 0 is "not found". *)
Inductive resolves : Z -> list (list Z) -> Z -> Prop :=
| res_missing n i ess c cs :
    stored n i -> dir_contents e d i ess -> lookup_entry (mjoin ess) c = None ->
    resolves n (c :: cs) 0
| res_last n i ess c r j :
    stored n i -> dir_contents e d i ess -> lookup_entry (mjoin ess) c = Some r ->
    stored r j -> is_link j && follow = false ->
    resolves n [c] r
| res_notdir n i ess c cs r j :
    stored n i -> dir_contents e d i ess -> lookup_entry (mjoin ess) c = Some r ->
    stored r j -> is_link j = false -> is_dir j = false -> cs <> [] ->
    resolves n (c :: cs) 0
| res_step n i ess c cs r j r' :
    stored n i -> dir_contents e d i ess -> lookup_entry (mjoin ess) c = Some r ->
    stored r j -> is_link j = false -> is_dir j = true -> cs <> [] ->
    resolves r cs r' -> resolves n (c :: cs) r'.

Context (l : gmap ext2_lock Z) (h : heap) (junk : list Z).
Context (V : volume e d) (T : inode_tables e) (LF : locks_free e l).

#[local] Abbreviation st := (mkFs d e l h).

Lemma stored_fetch n i : stored n i -> ext2InodeFetch n st = Ok (i, st).
Proof.
  intros (Hn & x & Hx & <-). pose proof (vol_geo e d V) as G.
  pose proof (valid_inode_32 e d n V Hn) as H32.
  destruct (inode_number e n G Hn H32) as (_ & _ & Hg & _).
  eapply ext2InodeFetch_ok with (c := 0); try done. by apply LF.
Qed.

Lemma stored_traverse n i ess name :
  stored n i -> dir_contents e d i ess ->
  ext2Traverse junk n name st = Ok (default 0 (lookup_entry (mjoin ess) name), st).
Proof. intros (Hn & x & Hx & <-) D. by eapply ext2Traverse_ok. Qed.

Lemma lookup_entry_nonzero es name r : lookup_entry es name = Some r -> r <> 0.
Proof.
  induction es as [|x es IH]; cbn [lookup_entry]; [done|].
  destruct (de_inode x =? 0) eqn:E; cbn [negb andb]; [done|].
  case_bool_decide; [|done]. intros [= <-]. lia.
Qed.

#[local] Abbreviation walk path := (fun is_ curr ls => traverse_path junk e path follow is_ curr ls st).

(** Characters that end no component are skipped. *)
Lemma traverse_skip path i is_ curr ls : path !!! Z.to_nat i <> slash -> i <> zlen path - 1 ->
  walk path (i :: is_) curr ls = walk path is_ curr ls.
Proof. intros Hs Hl. cbn [traverse_path]. by rewrite (proj2 (Z.eqb_neq _ _) Hs), (proj2 (Z.eqb_neq _ _) Hl). Qed.

Section component.
Context (pre c post : list Z) (n : Z) (i : Ext2Inode) (ess : list (list dirent)).
Context (Hc : component c) (Hn : stored n i) (D : dir_contents e d i ess).

#[local] Abbreviation path := (pre ++ slash :: c ++ post).
#[local] Abbreviation found := (default 0 (lookup_entry (mjoin ess) c)).

(** The last component of a path. *)
Lemma walk_last j :
  post = [] -> (found = 0 \/ stored found j /\ is_link j && follow = false) ->
  traverse_path junk e path follow (seqZ (zlen pre + 1) (zlen path - (zlen pre + 1))) n (zlen pre) st =
    Ok ((found, None), st).
Proof.
  intros Hp Hj. destruct (path_len pre c post Hc) as [Hl Hc0]. assert (zlen post = 0) by (by rewrite Hp).
  rewrite (walk_component path (walk path) (traverse_skip path) pre c post (zlen c - 1)) by (done || lia).
  rewrite seqZ_cons by lia. cbn [traverse_path].
  replace (zlen pre + 1 + (zlen c - 1) =? zlen path - 1) with true by (symmetry; apply Z.eqb_eq; lia).
  rewrite orb_true_r. replace (zlen pre + 1 + (zlen c - 1) - zlen pre - 1 + 1) with (zlen c) by lia.
  rewrite path_slice. erewrite bind_ok by (by eapply stored_traverse).
  destruct Hj as [Hz|[Hs Hlk]]; [by rewrite Hz|].
  destruct (found =? 0) eqn:Ez; [by apply Z.eqb_eq in Ez as ->|].
  erewrite bind_ok by (by apply stored_fetch). cbn [negb orb].
  change (Z.land (permission j) 61440 =? EXT2_S_IFLNK) with (is_link j). by rewrite Hlk.
Qed.

(** A component with others behind it. *)
Lemma walk_inner j post' :
  post = slash :: post' -> post' <> [] -> (found = 0 \/ stored found j /\ is_link j = false) ->
  let ls := zlen (pre ++ slash :: c) in
  traverse_path junk e path follow (seqZ (zlen pre + 1) (zlen path - (zlen pre + 1))) n (zlen pre) st =
    if (found =? 0) || negb (is_dir j) then Ok ((0, None), st)
    else traverse_path junk e path follow (seqZ (ls + 1) (zlen path - (ls + 1))) found ls st.
Proof.
  intros Hp Hne Hj ls. destruct (path_len pre c post Hc) as [Hl Hc0].
  assert (zlen post = 1 + zlen post' /\ 0 < zlen post') as [Hpl Hpp].
  { rewrite Hp. destruct post'; [done|]. unfold zlen. cbn. lia. }
  assert (ls = zlen pre + 1 + zlen c) as Els.
  { subst ls. rewrite zlen_app. change (zlen (slash :: c)) with (zlen ([slash] ++ c)).
    rewrite zlen_app. change (zlen [slash]) with 1. lia. }
  rewrite (walk_component path (walk path) (traverse_skip path) pre c post (zlen c)) by (done || lia).
  rewrite <- Els. rewrite seqZ_cons by lia. cbn [traverse_path].
  assert (path !!! Z.to_nat ls = slash) as ->.
  { rewrite Hp, app_comm_cons, app_assoc. subst ls. unfold zlen.
    rewrite lookup_total_app_r by lia. by rewrite Nat2Z.id, Nat.sub_diag. }
  rewrite Z.eqb_refl. cbn [orb]. rewrite (proj2 (Z.eqb_neq ls (zlen path - 1))) by lia.
  replace (ls - zlen pre - 1) with (zlen c) by lia.
  rewrite path_slice. erewrite bind_ok by (by eapply stored_traverse).
  destruct Hj as [Hz|[Hs Hlk]]; [by rewrite Hz|].
  destruct (found =? 0) eqn:Ez; [done|].
  erewrite bind_ok by (by apply stored_fetch). cbn [negb orb].
  change (Z.land (permission j) 61440 =? EXT2_S_IFLNK) with (is_link j). rewrite Hlk. cbn [andb].
  unfold is_dir. destruct (Z.land (permission j) S_IFDIR =? 0); [done|]. cbn [negb].
  by replace (Z.pred (zlen path - ls)) with (zlen path - (ls + 1)) by lia.
Qed.

End component.

(** The loop from the slash behind [pre] on, in directory [n]. *)
Lemma traverse_resolves n cs r : resolves n cs r -> Forall component cs -> forall pre,
  traverse_path junk e (pre ++ path_of cs) follow
    (seqZ (zlen pre + 1) (zlen (pre ++ path_of cs) - (zlen pre + 1))) n (zlen pre) st =
    Ok ((r, None), st).
Proof.
  induction 1 as [n i ess c cs Hn D Hl|n i ess c r j Hn D Hl Hr Hk
                 |n i ess c cs r j Hn D Hl Hr Hk Hd Hcs|n i ess c cs r j r' Hn D Hl Hr Hk Hd Hcs _ IH];
    intros Hcomp pre; apply Forall_cons in Hcomp as [Hc Hcomp]; rewrite path_of_cons.
  - assert (default 0 (lookup_entry (mjoin ess) c) = 0) as Ez by (by rewrite Hl).
    destruct cs as [|c' cs].
    + change (path_of []) with (@nil Z).
      rewrite (walk_last pre c [] n i ess Hc Hn D i eq_refl (or_introl Ez)). by rewrite Ez.
    + rewrite path_of_cons.
      rewrite (walk_inner pre c _ n i ess Hc Hn D i (c' ++ path_of cs) eq_refl); [by rewrite Ez|..|by left].
      apply Forall_cons in Hcomp as [[Hne _] _]. by destruct c'.
  - assert (default 0 (lookup_entry (mjoin ess) c) = r) as Ez by (by rewrite Hl).
    change (path_of []) with (@nil Z).
    rewrite (walk_last pre c [] n i ess Hc Hn D j eq_refl); [by rewrite Ez|]. right. by rewrite Ez.
  - assert (default 0 (lookup_entry (mjoin ess) c) = r) as Ez by (by rewrite Hl).
    destruct cs as [|c' cs]; [done|]. rewrite path_of_cons.
    rewrite (walk_inner pre c _ n i ess Hc Hn D j (c' ++ path_of cs) eq_refl).
    + by rewrite Hd, orb_true_r.
    + apply Forall_cons in Hcomp as [[Hne _] _]. by destruct c'.
    + right. by rewrite Ez.
  - assert (default 0 (lookup_entry (mjoin ess) c) = r) as Ez by (by rewrite Hl).
    specialize (IH Hcomp (pre ++ slash :: c)). revert IH.
    destruct cs as [|c' cs]; [done|]. rewrite path_of_cons. intros IH.
    rewrite (walk_inner pre c _ n i ess Hc Hn D j (c' ++ path_of cs) eq_refl).
    + rewrite Ez, Hd, orb_false_r, (proj2 (Z.eqb_neq r 0)) by (by eapply lookup_entry_nonzero).
      rewrite <- app_assoc in IH. exact IH.
    + apply Forall_cons in Hcomp as [[Hne _] _]. by destruct c'.
    + right. by rewrite Ez.
Qed.

End resolution.

Lemma ext2TraversePath_ok e d l h junk follow n cs r :
  volume e d -> inode_tables e -> locks_free e l ->
  resolves e d follow n cs r -> cs <> [] -> Forall component cs ->
  ext2TraversePath junk (path_of cs) n follow (mkFs d e l h) = Ok ((r, None), mkFs d e l h).
Proof.
  intros V T LF R Hne Hc. pose proof (path_of_zlen cs Hne Hc) as Hl.
  assert (0 <= n < 2 ^ 32) as Hn.
  { assert (valid_inode e n) as Hv by (by inversion R as [? ? ? ? ? []|? ? ? ? ? ? []|? ? ? ? ? ? ? []|? ? ? ? ? ? ? ? []]).
    pose proof (valid_inode_32 e d n V Hv). unfold valid_inode in Hv. lia. }
  unfold ext2TraversePath. erewrite bind_ok by done. cbn [ext2].
  rewrite (proj2 (Z.eqb_neq _ _)) by lia. rewrite u32_small by lia.
  exact (traverse_resolves e d follow l h junk V T LF n cs r R Hc []).
Qed.

(** C17: [ext2TraversePath] on a path [/c1/.../ck] returns what resolving the
    components one after the other in the directories of the volume gives: the inode
    of the last one, or 0 when a component is missing or a component before the last
    is not a directory; it changes neither drive nor locks, for paths that meet no
    symbolic link (one at the end only when it is not followed). *)
Theorem ext2TraversePath_resolves e d l h junk follow n cs r :
  volume e d -> inode_tables e -> locks_free e l ->
  resolves e d follow n cs r -> cs <> [] -> Forall component cs ->
  ext2TraversePath junk (path_of cs) n follow (mkFs d e l h) = Ok ((r, None), mkFs d e l h).
Proof. apply ext2TraversePath_ok. Qed.

Lemma sm_stored n i :
  1 <= n <= 16 -> sm_table !! Z.to_nat (n - 1) = Some i -> stored ex_ext2 sm_drive n i.
Proof.
  intros Hn Hi. split; [unfold valid_inode; cbn; lia|]. exists (ex_group 3 4 5 14 5). split.
  - unfold inode_group. change (inodes_per_group (superblock ex_ext2)) with 16.
    by rewrite Z.div_small by lia.
  - by apply sm_inode_at.
Qed.

Lemma ext2TraversePath_resolves_witness :
  ext2TraversePath [] (path_of [[46]; [46; 46]; [97]]) 2 true sm_fs = Ok ((11, None), sm_fs) /\
  ext2TraversePath [] (path_of [[97]; [98]]) 2 true sm_fs = Ok ((0, None), sm_fs).
Proof.
  assert (R : stored ex_ext2 sm_drive 2 sm_root) by (apply sm_stored; [lia|done]).
  assert (F : stored ex_ext2 sm_drive 11 sm_file) by (apply sm_stored; [lia|done]).
  split.
  - apply (ext2TraversePath_resolves ex_ext2 sm_drive ex_locks ex_heap [] true 2).
    + exact sm_volume.
    + exact sm_inode_tables.
    + exact ex_locks_free.
    + eapply res_step; [exact R|exact sm_dir_contents|done|exact R|done..|].
      eapply res_step; [exact R|exact sm_dir_contents|done|exact R|done..|].
      eapply res_last; [exact R|exact sm_dir_contents|done|exact F|done].
    + done.
    + repeat (apply Forall_cons_2; [split; [done|by apply (bool_decide_unpack _)]|]).
      by apply Forall_nil_2.
  - apply (ext2TraversePath_resolves ex_ext2 sm_drive ex_locks ex_heap [] true 2).
    + exact sm_volume.
    + exact sm_inode_tables.
    + exact ex_locks_free.
    + eapply res_notdir; [exact R|exact sm_dir_contents|done|exact F|done..].
    + done.
    + repeat (apply Forall_cons_2; [split; [done|by apply (bool_decide_unpack _)]|]).
      by apply Forall_nil_2.
Defined.
