(* ===== verification/Ext2Theorems.v ===== *)
(** * ext2: the correctness theorems of the volume

    What the allocators, the inode table, the block map, the directories, the
    cache, the reader and the mount promise, stated on the functions of the
    driver, each with an instance on the sample volume of [Ext2Sample]. *)

From S2P Require Import Prelude Bytes FileTypes Spinlock Disk Ext2Types Ext2Base Ext2Push Ext2Counters.
From S2P Require Import Ext2Example Ext2Inode Ext2Block Ext2Lookup Ext2Assign DirBlock Ext2Dirs.
From S2P Require Import Ext2Create Dll Ext2Cache Ext2Files Ext2Mount Ext2Read Ext2Write Ext2DirOps Ext2Sample.

(** ** Reading *)

(** What a descriptor looks like after a read: the same file at a new position, in
    a state from which the next read can start. *)
Definition advanced (e : Ext2) (d : gmap Z Z) (lk : gmap ext2_lock Z) (fd fd' : Ext2OpenFd)
    (n : Z) (h' : heap) (others : list (Z * object)) : Prop :=
  f_ptr fd' = f_ptr fd + n /\ f_inode fd' = f_inode fd /\ f_inodeNum fd' = f_inodeNum fd /\
  f_globalObject fd' = f_globalObject fd /\
  exists x' l', readable e d lk h' fd' [] others x' l'.

Lemma ext2Read_step vmem oob e d lk h fd o1 o2 x l naive :
  (forall n, 0 <= n -> zlen (vmem n) = n) -> geometry e ->
  readable e d lk h fd o1 o2 x l -> 1 <= naive -> f_ptr fd < ext2GetFilesize fd ->
  let n := Z.min naive (ext2GetFilesize fd - f_ptr fd) in
  exists fd' h', ext2Read vmem oob fd naive (mkFs d e lk h) =
      Ok ((n, file_slice e d (f_inode fd) (f_ptr fd) n, fd'), mkFs d e lk h') /\
    advanced e d lk fd fd' n h' (o1 ++ o2).
Proof.
  intros Hv G R Hn Hp n.
  destruct (ext2Read_ok vmem oob Hv e G d lk h fd o1 o2 x l naive R Hp Hn)
    as (c' & h' & l' & v & E & Hc & Hr & Hval & Ho).
  eexists _, h'. split; [exact E|]. unfold advanced. cbn [f_ptr f_inode f_inodeNum f_globalObject].
  repeat split. eexists (f_globalObject fd, (x.2.1, v)), l'.
  destruct R as [Ff Freg Fc Fp Fx Fo Fr Fv Fbm Fwc Fwf Fwo].
  split; cbn [f_ptr f_inode f_inodeNum f_globalObject f_lookup fst]; try done; [].
  fold n. lia.
Qed.

(** C1: [ext2Read] on an opened regular file without holes (each block in front of
    its size is mapped: [fo_dense], part of [readable]; [hole_reads_junk] is the
    other case) returns exactly the bytes of the file from the descriptor's position on (as many as asked for, up to the end of the
    file), whatever part of them the block cache already holds; it moves the
    position by that amount, changes no byte of the drive, gives every lock back and
    leaves the cache and the list of opened files in a state from which the next
    read works the same way.  At or behind the end it returns 0 and no bytes. *)
Theorem ext2Read_returns_file vmem oob e d lk h fd o1 o2 x l naive :
  (forall n, 0 <= n -> zlen (vmem n) = n) -> geometry e ->
  readable e d lk h fd o1 o2 x l -> 1 <= naive ->
  let n := Z.max 0 (Z.min naive (ext2GetFilesize fd - f_ptr fd)) in
  exists fd' h', ext2Read vmem oob fd naive (mkFs d e lk h) =
      Ok ((n, file_slice e d (f_inode fd) (f_ptr fd) n, fd'), mkFs d e lk h') /\
    (0 < n -> advanced e d lk fd fd' n h' (o1 ++ o2)).
Proof.
  intros Hv G R Hn n. destruct (Z.lt_ge_cases (f_ptr fd) (ext2GetFilesize fd)) as [Hp|Hp].
  - destruct (ext2Read_step vmem oob e d lk h fd o1 o2 x l naive Hv G R Hn Hp) as (fd' & h' & E & A).
    exists fd', h'. subst n. rewrite Z.max_r by lia. by split.
  - assert (n = 0) as -> by (subst n; lia).
    destruct (ext2CachePush_ok d e lk h o1 x o2) as (h' & E & _);
      [apply R|apply R|]. exists fd, h'. split; [|lia].
    unfold ext2Read. erewrite bind_ok by done. rewrite (rd_reg _ _ _ _ _ _ _ _ _ R).
    rewrite <- (rd_obj _ _ _ _ _ _ _ _ _ R). mrw E. by rewrite (proj2 (Z.leb_le _ _)) by lia.
Qed.

Lemma ext2Read_returns_file_witness :
  exists fd' h', ext2Read (fun n => zeros n) 0 sm_fd 2900 (mkFs sm_drive ex_ext2 sm_locks sm_heap) =
    Ok ((2900, file_slice ex_ext2 sm_drive sm_file 100 2900, fd'), mkFs sm_drive ex_ext2 sm_locks h').
Proof.
  destruct (ext2Read_returns_file (fun n => zeros n) 0 ex_ext2 sm_drive sm_locks sm_heap sm_fd
    [] [] (1, sm_object) [(2, sm_run)] 2900) as (fd' & h' & E & _).
  - intros n Hn. unfold zlen, zeros. rewrite length_replicate. lia.
  - exact ex_geometry.
  - exact sm_readable.
  - lia.
  - exists fd', h'. exact E.
Defined.

(** A file whose first block is a hole. *)
Definition holed_fd : Ext2OpenFd := mkFd (fresh_control []) 1 0 11 (sm_inode 33188 3000 1 [0; 12]).

(** At a hole the reader stops filling its buffer and hands it out as it is: a read
    succeeds with whatever bytes [c] the pages of [virtual_allocate] held. *)
Theorem hole_reads_junk c :
  match ext2Read (fun n => replicate (Z.to_nat n) c) 0 holed_fd 3 (mkFs sm_drive ex_ext2 sm_locks sm_heap) with
  | Ok (n, bytes, _, _) => n = 3 /\ bytes = [c; c; c]
  | _ => False
  end.
Proof. vm_compute. done. Qed.

(** Two reads in a row deliver what one read of the sum would: the bytes they
    return are adjacent and cover the file without gap or overlap. *)
Theorem ext2Read_consecutive vmem oob e d lk h fd o1 o2 x l a b :
  (forall n, 0 <= n -> zlen (vmem n) = n) -> geometry e ->
  readable e d lk h fd o1 o2 x l -> 1 <= a -> 1 <= b ->
  f_ptr fd + a + b <= ext2GetFilesize fd ->
  exists fd1 h1 bs1 fd2 h2 bs2,
    ext2Read vmem oob fd a (mkFs d e lk h) = Ok ((a, bs1, fd1), mkFs d e lk h1) /\
    ext2Read vmem oob fd1 b (mkFs d e lk h1) = Ok ((b, bs2, fd2), mkFs d e lk h2) /\
    bs1 ++ bs2 = file_slice e d (f_inode fd) (f_ptr fd) (a + b).
Proof.
  intros Hv G R Ha Hb Hs.
  destruct (ext2Read_step vmem oob e d lk h fd o1 o2 x l a Hv G R Ha ltac:(lia))
    as (fd1 & h1 & E1 & Hp1 & Hi1 & _ & _ & x1 & l1 & R1).
  rewrite Z.min_l in E1, Hp1 by lia.
  assert (ext2GetFilesize fd1 = ext2GetFilesize fd) as Hz by (unfold ext2GetFilesize; by rewrite Hi1).
  destruct (ext2Read_step vmem oob e d lk h1 fd1 [] (o1 ++ o2) x1 l1 b Hv G R1 Hb ltac:(lia))
    as (fd2 & h2 & E2 & _).
  rewrite Z.min_l in E2 by lia.
  eexists fd1, h1, _, fd2, h2, _. split; [exact E1|]. split; [exact E2|].
  rewrite Hi1, Hp1. symmetry. apply file_slice_app; lia.
Qed.

Lemma ext2Read_consecutive_witness :
  exists fd1 h1 bs1 fd2 h2 bs2,
    ext2Read (fun n => zeros n) 0 sm_fd 50 (mkFs sm_drive ex_ext2 sm_locks sm_heap) =
      Ok ((50, bs1, fd1), mkFs sm_drive ex_ext2 sm_locks h1) /\
    ext2Read (fun n => zeros n) 0 fd1 2000 (mkFs sm_drive ex_ext2 sm_locks h1) =
      Ok ((2000, bs2, fd2), mkFs sm_drive ex_ext2 sm_locks h2) /\
    bs1 ++ bs2 = file_slice ex_ext2 sm_drive sm_file 100 (50 + 2000).
Proof.
  apply (ext2Read_consecutive (fun n => zeros n) 0 ex_ext2 sm_drive sm_locks sm_heap sm_fd
    [] [] (1, sm_object) [(2, sm_run)] 50 2000).
  - intros n Hn. unfold zlen, zeros. rewrite length_replicate. lia.
  - exact ex_geometry.
  - exact sm_readable.
  - lia.
  - lia.
  - vm_compute. done.
Defined.

(** ** Writing *)

(** C2: [ext2Write] inside a file without holes, from any position and across any
    number of blocks (the first and the last one may be partly covered, the blocks
    in between may lie in any order on the drive), stores exactly the caller's bytes
    at the position: every other byte of the file and every byte of the drive that
    is not in a data block of the file is as before, the position moves by [limit],
    all locks are given back, and the cached runs are forgotten so that [ext2Read]
    at the old position returns the bytes just written. *)
Theorem ext2Write_then_read vmem oob e d lk h fd o1 o2 x l flags buff limit :
  (forall n, 0 <= n -> zlen (vmem n) = n) -> geometry e ->
  readable e d lk h fd o1 o2 x l ->
  apart_blocks e d (f_inode fd) (ext2GetFilesize fd) ->
  control_map e d (f_inode fd) (f_lookup fd) -> lk !! WLOCK_FILE (f_globalObject fd) = Some 0 ->
  has_flag flags O_APPEND = false -> 1 <= limit <= zlen buff ->
  f_ptr fd + limit <= ext2GetFilesize fd -> f_ptr fd + limit <= i_size (f_inode fd) ->
  exists fd' d' h',
    ext2Write vmem oob flags fd buff limit (mkFs d e lk h) = Ok ((limit, fd'), mkFs d' e lk h') /\
    f_ptr fd' = f_ptr fd + limit /\
    patched e d d' (f_inode fd) (ext2GetFilesize fd) (f_ptr fd) (slice 0 limit buff) /\
    exists fd2 h2, ext2Read vmem oob (fd_set_ptr (f_ptr fd) fd') limit (mkFs d' e lk h') =
      Ok ((limit, slice 0 limit buff, fd2), mkFs d' e lk h2).
Proof.
  intros Hv G R A M Hwf Hfl Hlim Hsz Hisz.
  destruct (ext2Write_ok vmem oob Hv e G d lk h fd o1 o2 x l flags buff limit R A M Hwf Hfl Hlim Hsz Hisz)
    as (c' & d' & h' & E & S & P & O & C).
  eexists _, d', h'. split; [exact E|]. split; [done|]. split; [exact P|].
  destruct R as [Ff Freg Fc Fp Fx Fo Fr Fv Fbm Fwc Fwf Fwo]. set (fd1 := fd_set_ptr _ _).
  assert (R' : readable e d' lk h' fd1 [] (o1 ++ o2) (f_globalObject fd, (x.2.1, 0)) []).
  { split; cbn [fd1 fd_set_ptr f_ptr f_inode f_inodeNum f_globalObject f_lookup fst]; try done; try apply S.
    constructor. }
  destruct (ext2Read_step vmem oob e d' lk h' fd1 [] (o1 ++ o2) _ [] limit Hv G R') as (fd2 & h2 & E2 & _);
    [lia|unfold fd1, ext2GetFilesize in *; cbn; lia|].
  exists fd2, h2. rewrite Z.min_l in E2 by (unfold fd1, ext2GetFilesize in *; cbn; lia).
  cbn [fd1 fd_set_ptr f_ptr f_inode] in E2. rewrite E2. do 4 f_equal.
  apply (patched_slice e G _ (ext2GetFilesize fd) d); [exact P|lia|by rewrite zlen_slice by lia|lia].
Qed.

Lemma ext2Write_then_read_witness :
  exists fd' d' h',
    ext2Write (fun n => zeros n) 0 O_RDWR sm_fd (zeros 2500) 2500 (mkFs sm_drive ex_ext2 sm_locks sm_heap) =
      Ok ((2500, fd'), mkFs d' ex_ext2 sm_locks h') /\ f_ptr fd' = 2600 /\
    exists fd2 h2, ext2Read (fun n => zeros n) 0 (fd_set_ptr 100 fd') 2500 (mkFs d' ex_ext2 sm_locks h') =
      Ok ((2500, slice 0 2500 (zeros 2500), fd2), mkFs d' ex_ext2 sm_locks h2).
Proof.
  destruct (ext2Write_then_read (fun n => zeros n) 0 ex_ext2 sm_drive sm_locks sm_heap sm_fd
    [] [] (1, sm_object) [(2, sm_run)] O_RDWR (zeros 2500) 2500) as (fd' & d' & h' & E & Hp & _ & fd2 & h2 & E2).
  - intros n Hn. unfold zlen, zeros. rewrite length_replicate. lia.
  - exact ex_geometry.
  - exact sm_readable.
  - exact sm_apart.
  - exact sm_control_map.
  - reflexivity.
  - reflexivity.
  - unfold zlen, zeros. rewrite length_replicate. lia.
  - vm_compute. done.
  - vm_compute. done.
  - exists fd', d', h'. split; [exact E|]. split; [exact Hp|]. exists fd2, h2. exact E2.
Defined.

(** ** Allocation of blocks and inodes *)

(** C5: [ext2BlockFind] either returns a run of [amnt] blocks that were all free,
    marking exactly these in the bitmaps, with the counters of the group and of the
    superblock lowered by [amnt], every copy on the drive rewritten and every other
    byte left alone (so that the counters equal the number of clear bits before and
    after), or it stops the kernel, and then no group has a usable run. *)
Theorem ext2BlockFind_allocates e d l h amnt s :
  volume e d -> locks_free e l -> 1 <= amnt < 2 ^ 31 -> 0 <= s < blockGroups e ->
  (exists r e' d', ext2BlockFind s amnt (mkFs d e l h) = Ok (r, mkFs d' e' l h) /\
     r <> 0 /\ marked block_family true r amnt e d e' d') \/
  (ext2BlockFind s amnt (mkFs d e l h) = Halted /\
   forall g, 0 <= g < blockGroups e -> block_servable e d amnt g = false).
Proof. intros. by apply ext2BlockFind_ok. Qed.

Lemma ext2BlockFind_allocates_witness :
  (exists r e' d', ext2BlockFind 1 3 sm_fs = Ok (r, mkFs d' e' ex_locks ex_heap) /\
     r <> 0 /\ marked block_family true r 3 ex_ext2 sm_drive e' d') \/
  (ext2BlockFind 1 3 sm_fs = Halted /\
   forall g, 0 <= g < blockGroups ex_ext2 -> block_servable ex_ext2 sm_drive 3 g = false).
Proof.
  apply (ext2BlockFind_allocates ex_ext2 sm_drive ex_locks ex_heap 3 1).
  - exact sm_volume.
  - exact ex_locks_free.
  - lia.
  - vm_compute. done.
Defined.

(** Marking and unmarking the same positions restores every mark. *)
Lemma marked_undone F p m e d e' d' e2 d2 :
  marked F true p m e d e' d' -> marked F false p m e' d' e2 d2 ->
  fam_limit F (superblock e') = fam_limit F (superblock e) ->
  (forall i, valid_pos F e i -> pos_used F e2 d2 i = pos_used F e d i) /\
  fam_total F (superblock e2) = fam_total F (superblock e).
Proof.
  intros [Hr1 Hb1 Ha1 Ho1 Ht1 _ L1 _ _ _] [Hr2 Hb2 Ha2 Ho2 Ht2 _ L2 _ _ _] El.
  split; [|lia]. intros i Hi.
  assert (valid_pos F e' i) by (unfold valid_pos in *; by rewrite El, <- (sl_groups _ _ L1)).
  destruct (decide (p <= i < p + m)) as [Hin|Hout].
  - by rewrite Ha2, Hb1.
  - by rewrite Ho2, Ho1.
Qed.

Lemma locks_free_layout e e' l : same_layout e e' -> locks_free e l -> locks_free e' l.
Proof. intros L. unfold locks_free. by rewrite <- (sl_groups _ _ L). Qed.

(** an allocated block given back with [ext2BlockDelete] leaves the allocator
    where it was: every block has its old mark, the number of free blocks is the old
    one, and the volume invariant holds again. *)
Theorem block_alloc_free_roundtrip e d l h s r st' :
  volume e d -> locks_free e l -> 0 <= s < blockGroups e ->
  ext2BlockFind s 1 (mkFs d e l h) = Ok (r, st') ->
  exists e2 d2,
    ext2BlockDelete (r / blocks_per_group (superblock e)) (r mod blocks_per_group (superblock e)) st' =
      Ok (tt, mkFs d2 e2 l h) /\
    volume e2 d2 /\
    sb_free_blocks (superblock e2) = sb_free_blocks (superblock e) /\
    forall b, 0 <= b < blockGroups e * blocks_per_group (superblock e) ->
      block_used e2 d2 b = block_used e d b.
Proof.
  intros V LF Hs E.
  destruct (ext2BlockFind_ok e d V l h LF 1 ltac:(lia) s Hs) as [(r' & e' & d' & E' & Hr & K)|[E' _]];
    rewrite E' in E; [|done]. simplify_eq.
  pose proof (mk_layout _ _ _ _ _ _ _ _ K) as L.
  destruct (ext2BlockDelete_marked e' d' l h r) as (e2 & d2 & E2 & K2).
  - apply K.
  - by eapply locks_free_layout.
  - pose proof (mk_range _ _ _ _ _ _ _ _ K) as Hk. unfold valid_pos.
    cbn in *. rewrite <- (sl_groups _ _ L), <- (sl_bpg _ _ L). lia.
  - apply (mk_after _ _ _ _ _ _ _ _ K). lia.
  - exists e2, d2. rewrite (sl_bpg _ _ L). split; [exact E2|].
    destruct (marked_undone _ _ _ _ _ _ _ _ _ K K2) as [Hu Ht].
    { symmetry. apply L. }
    split; [apply K2|]. split; [exact Ht|]. intros b Hb. apply Hu. unfold valid_pos. cbn.
    by rewrite (sl_bpg _ _ L).
Qed.

Lemma block_alloc_free_roundtrip_witness :
  exists r st' e2 d2, ext2BlockFind 0 1 sm_fs = Ok (r, st') /\
    ext2BlockDelete (r / 32) (r mod 32) st' = Ok (tt, mkFs d2 e2 ex_locks ex_heap) /\
    sb_free_blocks (superblock e2) = 32.
Proof.
  destruct (ext2BlockFind_ok ex_ext2 sm_drive sm_volume ex_locks ex_heap ex_locks_free 1 ltac:(lia) 0)
    as [(r & e' & d' & E & _)|[_ Hno]].
  - cbn. lia.
  - destruct (block_alloc_free_roundtrip ex_ext2 sm_drive ex_locks ex_heap 0 r (mkFs d' e' ex_locks ex_heap))
      as (e2 & d2 & E2 & _ & Hc & _).
    + exact sm_volume.
    + exact ex_locks_free.
    + cbn. lia.
    + exact E.
    + exists r, (mkFs d' e' ex_locks ex_heap), e2, d2. auto.
  - exfalso. specialize (Hno 0 ltac:(cbn; lia)). by rewrite sm_block_servable in Hno.
Defined.

(** [ext2InodeFind] either returns the number of an inode that was free, marking
    exactly this one (counters, copies and frame as for blocks), or it stops the
    kernel, and then no group can be served; [ext2InodeDelete] afterwards releases it
    and restores every mark and the number of free inodes. *)
Theorem inode_alloc_free_roundtrip e d l h s :
  volume e d -> locks_free e l -> 0 <= s < blockGroups e ->
  (exists r e1 d1 e2 d2, ext2InodeFind s (mkFs d e l h) = Ok (r, mkFs d1 e1 l h) /\
     inode_marked true r e d e1 d1 /\
     ext2InodeDelete r (mkFs d1 e1 l h) = Ok (tt, mkFs d2 e2 l h) /\
     volume e2 d2 /\ sb_free_inodes (superblock e2) = sb_free_inodes (superblock e) /\
     forall i, valid_inode e i -> inode_used e2 d2 i = inode_used e d i) \/
  (ext2InodeFind s (mkFs d e l h) = Halted /\
   forall g, 0 <= g < blockGroups e -> inode_servable e d g = false).
Proof.
  intros V LF Hs.
  destruct (ext2InodeFind_ok e d V l h LF s Hs) as [(r & e1 & d1 & E & K)|]; [left|by right].
  pose proof (mk_layout _ _ _ _ _ _ _ _ K) as L. pose proof (mk_range _ _ _ _ _ _ _ _ K) as Hr.
  pose proof (ext2InodeDelete_ok e1 d1 (mk_volume _ _ _ _ _ _ _ _ K) l h
    (locks_free_layout _ _ _ L LF) r) as HD.
  assert (valid_inode e1 r) as Hv.
  { unfold valid_inode. rewrite <- (sl_groups _ _ L), <- (sl_ipg _ _ L). cbn in Hr. lia. }
  specialize (HD Hv). unfold inode_used in HD.
  rewrite (mk_after _ _ _ _ _ _ _ _ K) in HD by lia. destruct HD as (e2 & d2 & E2 & K2).
  destruct (marked_undone _ _ _ _ _ _ _ _ _ K K2) as [Hu Ht]; [symmetry; apply L|].
  exists r, e1, d1, e2, d2. split; [exact E|]. split; [exact K|]. split; [exact E2|].
  split; [apply K2|]. split; [exact Ht|]. intros i Hi. apply Hu. unfold valid_inode, valid_pos in *.
  cbn. lia.
Qed.

Lemma inode_alloc_free_roundtrip_witness :
  exists r e1 d1 e2 d2, ext2InodeFind 0 sm_fs = Ok (r, mkFs d1 e1 ex_locks ex_heap) /\
    ext2InodeDelete r (mkFs d1 e1 ex_locks ex_heap) = Ok (tt, mkFs d2 e2 ex_locks ex_heap) /\
    sb_free_inodes (superblock e2) = 18.
Proof.
  destruct (inode_alloc_free_roundtrip ex_ext2 sm_drive ex_locks ex_heap 0)
    as [(r & e1 & d1 & e2 & d2 & E & _ & E2 & _ & Hc & _)|[_ Hno]].
  - exact sm_volume.
  - exact ex_locks_free.
  - cbn. lia.
  - exists r, e1, d1, e2, d2. auto.
  - exfalso. specialize (Hno 0 ltac:(cbn; lia)). by rewrite sm_inode_servable in Hno.
Defined.

(** After an allocation the volume mounts again to exactly the state in memory,
    counters included: every change of the superblock and of the descriptor table
    reached the copies [ext2_mount] reads, in the encoding it decodes. *)
Theorem mount_after_allocation e d l h amnt s r st' :
  volume e d -> mountable e -> locks_free e l -> 1 <= amnt < 2 ^ 31 -> 0 <= s < blockGroups e ->
  ext2BlockFind s amnt (mkFs d e l h) = Ok (r, st') ->
  ext2_mount (drv st') (offsetBase e) = Ok (Some (ext2 st', fresh_locks (blockGroups e))) /\
  sb_free_blocks (superblock (ext2 st')) = sb_free_blocks (superblock e) - amnt.
Proof.
  intros V Mt LF Ha Hs E.
  destruct (ext2BlockFind_ok e d V l h LF amnt Ha s Hs) as [(r' & e' & d' & E' & Hr & K)|[E' _]];
    rewrite E' in E; [|done]. simplify_eq. cbn [drv ext2].
  pose proof (mk_layout _ _ _ _ _ _ _ _ K) as L. rewrite (sl_base _ _ L), (sl_groups _ _ L). split.
  - apply ext2_mount_ok; [apply K|by eapply mountable_marked|apply K].
  - pose proof (mk_total _ _ _ _ _ _ _ _ K) as Ht. cbn in Ht. lia.
Qed.

Lemma mount_after_allocation_witness :
  exists r st', ext2BlockFind 0 1 sm_fs = Ok (r, st') /\
    ext2_mount (drv st') 2048 = Ok (Some (ext2 st', fresh_locks 2)) /\
    sb_free_blocks (superblock (ext2 st')) = 31.
Proof.
  destruct (ext2BlockFind_ok ex_ext2 sm_drive sm_volume ex_locks ex_heap ex_locks_free 1 ltac:(lia) 0)
    as [(r & e' & d' & E & _)|[_ Hno]].
  - cbn. lia.
  - exists r, (mkFs d' e' ex_locks ex_heap). split; [exact E|].
    apply (mount_after_allocation ex_ext2 sm_drive ex_locks ex_heap 1 0 r).
    + exact sm_volume.
    + exact sm_mountable.
    + exact ex_locks_free.
    + lia.
    + cbn. lia.
    + exact E.
  - exfalso. specialize (Hno 0 ltac:(cbn; lia)). by rewrite sm_block_servable in Hno.
Defined.

(** ** The inode table and the block map *)

(** Another inode of the volume is not touched by a write to the table. *)
Lemma inode_write_other e d n x t n' x' :
  volume e d -> inode_tables e -> valid_inode e n -> valid_inode e n' -> n' <> n ->
  bgdts e !! Z.to_nat (inode_group e n) = Some x ->
  bgdts e !! Z.to_nat (inode_group e n') = Some x' -> inode_wf t ->
  inode_at e (inode_write e n x d t) x' n' = inode_at e d x' n'.
Proof.
  intros V T Hn Hn' Hne Hx Hx' Ht. pose proof (vol_geo e d V) as G. unfold inode_at. f_equal.
  pose proof (valid_inode_32 e d n V Hn). pose proof (valid_inode_32 e d n' V Hn').
  destruct (inode_number e n G Hn ltac:(done)) as (_ & _ & Hg & Hi & En).
  destruct (inode_number e n' G Hn' ltac:(done)) as (_ & _ & Hg' & Hi' & En').
  destruct (inode_size_cases e G T) as [Hsz _].
  destruct (decide (inode_group e n' = inode_group e n)) as [Eg|Eg].
  - rewrite Eg in Hx'. simplify_eq. rewrite inode_write_bytes by done. apply read_write_disjoint.
    rewrite zlen_encode_inode by done. unfold inode_addr, sizeof_Ext2Inode.
    assert (inode_index e n' <> inode_index e n) by congruence.
    assert (inode_index e n' + 1 <= inode_index e n \/ inode_index e n + 1 <= inode_index e n') as [Hlt|Hlt] by lia.
    + left. apply (Z.mul_le_mono_nonneg_r _ _ (inodeSize e)) in Hlt; lia.
    + right. apply (Z.mul_le_mono_nonneg_r _ _ (inodeSize e)) in Hlt; lia.
  - eapply inode_write_frame; try done; [lia|].
    pose proof (pl_apart e (vol_place e d V) _ _ x' x 2%nat 2%nat _ _ Hg' Hg Hx' Hx eq_refl eq_refl
      ltac:(congruence)) as Ha.
    unfold apart in *. cbn [fst snd] in *. unfold inode_addr.
    assert (inode_index e n' * inodeSize e + inodeSize e <= inodes_per_group (superblock e) * inodeSize e).
    { replace (inode_index e n' * inodeSize e + inodeSize e) with ((inode_index e n' + 1) * inodeSize e) by lia.
      apply Z.mul_le_mono_nonneg_r; lia. }
    assert (0 <= inode_index e n' * inodeSize e) by (apply Z.mul_nonneg_nonneg; lia). lia.
Qed.

(** an inode written with [ext2InodeModifyM] is what [ext2InodeFetch] returns for
    its number, every other inode of the volume is fetched unchanged, the allocation
    invariant of the volume stays, and the locks are given back. *)
Theorem inode_modify_fetch e d l h n t :
  volume e d -> inode_tables e -> locks_free e l -> valid_inode e n -> inode_wf t ->
  exists d', ext2InodeModifyM n t (mkFs d e l h) = Ok (tt, mkFs d' e l h) /\
    volume e d' /\
    ext2InodeFetch n (mkFs d' e l h) = Ok (t, mkFs d' e l h) /\
    forall n', valid_inode e n' -> n' <> n ->
      exists i, ext2InodeFetch n' (mkFs d e l h) = Ok (i, mkFs d e l h) /\
                ext2InodeFetch n' (mkFs d' e l h) = Ok (i, mkFs d' e l h).
Proof.
  intros V T LF Hn Ht. pose proof (vol_geo e d V) as G.
  assert (Hgrp : forall k, valid_inode e k -> k < 2 ^ 32 /\
    l !! WLOCKS_INODE (inode_group e k) = Some 0 /\
    exists y, bgdts e !! Z.to_nat (inode_group e k) = Some y).
  { intros k Hk. pose proof (valid_inode_32 e d k V Hk) as H32. split; [done|].
    destruct (inode_number e k G Hk H32) as (_ & _ & Hg & _).
    split; [by apply LF|]. apply lookup_lt_is_Some. rewrite (geo_bgs e G).
    pose proof (geo_groups e G). lia. }
  destruct (Hgrp n Hn) as (H32 & Hl & x & Hx). exists (inode_write e n x d t).
  split; [by apply ext2InodeModifyM_ok|]. split; [by apply inode_write_volume|]. split.
  - erewrite ext2InodeFetch_ok by done. by rewrite inode_write_same.
  - intros n' Hn' Hne. destruct (Hgrp n' Hn') as (H32' & Hl' & x' & Hx').
    exists (inode_at e d x' n'). split; [by eapply ext2InodeFetch_ok|].
    erewrite ext2InodeFetch_ok by done. by rewrite inode_write_other.
Qed.

Lemma inode_modify_fetch_witness :
  exists d', ext2InodeModifyM 12 sm_file sm_fs = Ok (tt, mkFs d' ex_ext2 ex_locks ex_heap) /\
    ext2InodeFetch 12 (mkFs d' ex_ext2 ex_locks ex_heap) =
      Ok (sm_file, mkFs d' ex_ext2 ex_locks ex_heap).
Proof.
  destruct (inode_modify_fetch ex_ext2 sm_drive ex_locks ex_heap 12 sm_file) as (d' & E & _ & E' & _).
  - exact sm_volume.
  - exact sm_inode_tables.
  - exact ex_locks_free.
  - vm_compute. split; congruence.
  - exact (proj1 (Forall_forall _ _) sm_table_wf sm_file
             (list_elem_of_lookup_2 sm_table 10%nat sm_file eq_refl)).
  - exists d'. auto.
Defined.

(** [ext2BlockAssign] changes the block map of an inode at one index: the block
    at [curr] becomes [val], every other index of the direct and singly indirect
    range keeps its block, the inode on the drive is the updated one, the volume
    invariant and the coherence of the lookup buffer stay.  It stops the kernel only
    when an indirect block is needed and no group has a free one. *)
Theorem ext2BlockAssign_updates_map e d l h n ino c curr val :
  volume e d -> inode_tables e -> space_ok e d -> locks_free e l -> valid_inode e n ->
  inode_wf ino -> control_single e d ino c -> fits 4 val ->
  (i_blocks ino !!! 12%nat <> 0 -> data_block e (i_blocks ino !!! 12%nat)) ->
  0 <= curr < 12 + blockSize e / 4 ->
  (exists ino' c' e' d',
     ext2BlockAssign ino n c curr val (mkFs d e l h) = Ok ((ino', c'), mkFs d' e' l h) /\
     assigned e d ino n curr val e' d' ino' c') \/
  (ext2BlockAssign ino n c curr val (mkFs d e l h) = Halted /\
   12 <= curr /\ i_blocks ino !!! 12%nat = 0 /\
   forall g, 0 <= g < blockGroups e -> block_servable e d 1 g = false).
Proof. apply ext2BlockAssign_ok. Qed.

Lemma ext2BlockAssign_updates_map_witness :
  exists ino' c' e' d',
    ext2BlockAssign sm_file 11 (fresh_control []) 13 20 sm_fs =
      Ok ((ino', c'), mkFs d' e' ex_locks ex_heap) /\
    block_at e' d' ino' 13 = 20 /\ block_at e' d' ino' 1 = 12.
Proof.
  destruct (ext2BlockAssign_updates_map ex_ext2 sm_drive ex_locks ex_heap 11 sm_file
    (fresh_control []) 13 20) as [(ino' & c' & e' & d' & E & A)|(_ & _ & _ & Hno)].
  - exact sm_volume.
  - exact sm_inode_tables.
  - exact sm_space.
  - exact ex_locks_free.
  - vm_compute. split; congruence.
  - exact (proj1 (Forall_forall _ _) sm_table_wf sm_file
             (list_elem_of_lookup_2 sm_table 10%nat sm_file eq_refl)).
  - split; [done|by left].
  - vm_compute. split; congruence.
  - done.
  - vm_compute. split; congruence.
  - exists ino', c', e', d'. split; [exact E|]. split; [apply A|].
    rewrite (as_others _ _ _ _ _ _ _ _ _ _ A); [done|vm_compute; split; congruence|lia].
  - exfalso. specialize (Hno 0 ltac:(cbn; lia)). by rewrite sm_block_servable in Hno.
Defined.

(** ** Directories *)

(** C3: after [ext2DirAllocate] with a name the directory does not have,
    [ext2Traverse] finds the new inode under that name and every other name leads
    where it led before; the directory keeps its inode and is well-formed again with
    the new entry, and the volume keeps its allocation invariant.  This is the case
    in which some record of the directory has room for the entry; the other one, in
    which the directory gets another block, is not covered. *)
Theorem dir_allocate_then_traverse e d l h n x ess junk junk' name type inode :
  volume e d -> inode_tables e -> locks_free e l -> valid_inode e n ->
  bgdts e !! Z.to_nat (inode_group e n) = Some x ->
  dir_ok e d (inode_at e d x n) ess -> dir_lookup ess name = None ->
  0 < inode < 2 ^ 32 -> 0 <= type < 256 -> zlen name < 256 ->
  (exists k es, ess !! k = Some es /\ insert_entry es name type inode <> Some None) ->
  let ino := inode_at e d x n in
  exists d' ess', ext2DirAllocate junk n ino name type inode (mkFs d e l h) =
      Ok ((true, ino), mkFs d' e l h) /\
    volume e d' /\ inode_at e d' x n = ino /\ dir_ok e d' ino ess' /\
    dir_lookup ess' name = Some inode /\ (forall m, m <> name -> dir_lookup ess' m = dir_lookup ess m) /\
    ext2Traverse junk' n name (mkFs d' e l h) = Ok (inode, mkFs d' e l h) /\
    forall m, m <> name -> exists r,
      ext2Traverse junk' n m (mkFs d e l h) = Ok (r, mkFs d e l h) /\
      ext2Traverse junk' n m (mkFs d' e l h) = Ok (r, mkFs d' e l h).
Proof.
  intros V T LF Hn Hx D Hf Hi Ht Hl Hr ino.
  destruct (ext2DirAllocate_ok e d V T l h LF n Hn ino ess D name junk type inode Hf Hi Ht Hl Hr)
    as (d' & ess' & E & V' & D' & Hnew & Hold & Hin).
  exists d', ess'. split; [exact E|]. split; [done|]. pose proof (Hin n x Hn Hx) as Ei.
  assert (dir_contents e d' (inode_at e d' x n) ess') as DC' by (rewrite Ei; apply D').
  split; [exact Ei|]. split; [exact D'|]. split; [exact Hnew|]. split; [exact Hold|]. split.
  - erewrite ext2Traverse_ok by done. unfold dir_lookup in Hnew. by rewrite Hnew.
  - intros m Hm. eexists. split; [by eapply ext2Traverse_ok; try apply D|].
    erewrite ext2Traverse_ok by done. specialize (Hold m Hm). unfold dir_lookup in Hold. by rewrite Hold.
Qed.

Lemma dir_allocate_then_traverse_witness :
  exists d', ext2DirAllocate [] 2 sm_root [98] 1 12 sm_fs =
      Ok ((true, sm_root), mkFs d' ex_ext2 ex_locks ex_heap) /\
    ext2Traverse [] 2 [98] (mkFs d' ex_ext2 ex_locks ex_heap) =
      Ok (12, mkFs d' ex_ext2 ex_locks ex_heap).
Proof.
  destruct (dir_allocate_then_traverse ex_ext2 sm_drive ex_locks ex_heap 2 (ex_group 3 4 5 14 5)
    [sm_dir] [] [] [98] 1 12) as (d' & ess' & E & _ & _ & _ & _ & _ & Et & _).
  - exact sm_volume.
  - exact sm_inode_tables.
  - exact ex_locks_free.
  - vm_compute. split; congruence.
  - done.
  - rewrite sm_root_at. exact sm_dir_ok.
  - done.
  - lia.
  - lia.
  - done.
  - by exists 0%nat, sm_dir.
  - rewrite sm_root_at in E. exists d'. split; [exact E|exact Et].
Defined.

(** C4: [ext2DirRemove] of a name that is in the directory (once) makes
    [ext2Traverse] miss it and leaves every other name where it was, with the same
    invariants. *)
Theorem dir_remove_then_traverse e d l h n x ess junk junk' name k es1 en es2 :
  volume e d -> inode_tables e -> locks_free e l -> valid_inode e n ->
  bgdts e !! Z.to_nat (inode_group e n) = Some x ->
  dir_ok e d (inode_at e d x n) ess -> blockSize e < 65536 ->
  ess !! k = Some (es1 ++ en :: es2) -> live_match name en ->
  Forall (fun y => ~ live_match name y) (es1 ++ es2) ->
  (forall j es, j <> k -> ess !! j = Some es -> lookup_entry es name = None) ->
  exists d', ext2DirRemove junk (inode_at e d x n) n name (mkFs d e l h) = Ok (true, mkFs d' e l h) /\
    volume e d' /\
    ext2Traverse junk' n name (mkFs d' e l h) = Ok (0, mkFs d' e l h) /\
    forall m, m <> name -> exists r,
      ext2Traverse junk' n m (mkFs d e l h) = Ok (r, mkFs d e l h) /\
      ext2Traverse junk' n m (mkFs d' e l h) = Ok (r, mkFs d' e l h).
Proof.
  intros V T LF Hn Hx D Hb Hk Hm Hu Ho.
  destruct (ext2DirRemove_ok e d V T l h LF n Hn _ ess D name k es1 en es2 Hk Hm Hu Ho Hb junk)
    as (ess' & E & V' & D' & Hgone & Hold & Hin).
  eexists. split; [exact E|]. split; [done|].
  assert (dir_contents e _ (inode_at e _ x n) ess') as DC' by (rewrite (Hin n x Hn Hx); apply D').
  split.
  - erewrite ext2Traverse_ok by done. unfold dir_lookup in Hgone. by rewrite Hgone.
  - intros m Hne. eexists. split; [by eapply ext2Traverse_ok; try apply D|].
    erewrite ext2Traverse_ok by done. specialize (Hold m Hne). unfold dir_lookup in Hold. by rewrite Hold.
Qed.

Lemma dir_remove_then_traverse_witness :
  exists d', ext2DirRemove [] sm_root 2 [97] sm_fs = Ok (true, mkFs d' ex_ext2 ex_locks ex_heap) /\
    ext2Traverse [] 2 [97] (mkFs d' ex_ext2 ex_locks ex_heap) =
      Ok (0, mkFs d' ex_ext2 ex_locks ex_heap).
Proof.
  destruct (dir_remove_then_traverse ex_ext2 sm_drive ex_locks ex_heap 2 (ex_group 3 4 5 14 5)
    [sm_dir] [] [] [97] 0%nat (take 2 sm_dir) (mkDirent 11 1 [97] (zeros 2015)) [])
    as (d' & E & _ & Et & _).
  - exact sm_volume.
  - exact sm_inode_tables.
  - exact ex_locks_free.
  - vm_compute. split; congruence.
  - done.
  - rewrite sm_root_at. exact sm_dir_ok.
  - done.
  - done.
  - done.
  - apply lookup_entry_none_inv. done.
  - intros [|j] es Hj Hes; done.
  - rewrite sm_root_at in E. exists d'. split; [exact E|exact Et].
Defined.

(** ** Copies of the metadata *)

(** pushing the descriptor table and the superblock writes the encodings of
    both to the primary place and to every group whose number is 1 or a power of 3, 5
    or 7, and changes nothing else on the drive; decoding a copy gives back the
    structures in memory. *)
Theorem push_writes_every_copy e d l h :
  geometry e ->
  exists d', (ext2BgdtPushM ;;; ext2SuperblockPushM) (mkFs d e l h) = Ok (tt, mkFs d' e l h) /\
    (forall i, 1 <= i < blockGroups e -> (exists k, 0 <= k /\ (i = 3 ^ k \/ i = 5 ^ k \/ i = 7 ^ k)) ->
       decode_superblock (read_at d' (super_copy e i) 1024) = superblock e /\
       decode_bgdt (length (bgdts e)) (read_at d' (bgdt_copy e i) (blockSize e)) = bgdts e) /\
    decode_superblock (read_at d' (super_copy e 0) 1024) = superblock e /\
    decode_bgdt (length (bgdts e)) (read_at d' (bgdt_copy e 0) (blockSize e)) = bgdts e /\
    (forall a n, off_meta e a n -> read_at d' a n = read_at d a n).
Proof.
  intros G. exists (push_meta e d).
  assert (Hall : forall i, i ∈ all_copies e ->
    decode_superblock (read_at (push_meta e d) (super_copy e i) 1024) = superblock e /\
    decode_bgdt (length (bgdts e)) (read_at (push_meta e d) (bgdt_copy e i) (blockSize e)) = bgdts e).
  { intros i Hi. destruct (push_meta_synced e d G i Hi) as [-> ->].
    by rewrite decode_encode_superblock, decode_encode_bgdt by apply G. }
  split.
  { erewrite bind_ok by (by apply ext2BgdtPushM_ok). by rewrite ext2SuperblockPushM_ok. }
  split.
  - intros i Hi Hk. apply Hall. right. apply elem_of_backup_groups. split; [|lia].
    destruct (has_backup_spec i ltac:(lia)) as (b & -> & Hb). f_equal. apply Hb. by right.
  - destruct (Hall 0) as [H1 H2]; [left|]. split; [done|]. split; [done|].
    intros a n Ho. by apply push_meta_frame.
Qed.

Lemma push_writes_every_copy_witness :
  exists d', (ext2BgdtPushM ;;; ext2SuperblockPushM) sm_fs = Ok (tt, mkFs d' ex_ext2 ex_locks ex_heap) /\
    decode_superblock (read_at d' (super_copy ex_ext2 1) 1024) = ex_super.
Proof.
  destruct (push_writes_every_copy ex_ext2 sm_drive ex_locks ex_heap ex_geometry) as (d' & E & H & _).
  exists d'. split; [exact E|]. apply H; [vm_compute; split; congruence|]. exists 0. lia.
Defined.

(** ** The block cache *)

(** [ext2CacheAddSecurely] keeps the cache of a file an ordered doubly linked
    list: the new run takes the place of exactly those runs that start inside its
    range, runs before and behind it stay, the counter of cached blocks follows
    (modulo its width), and no cell of another file changes. *)
Theorem ext2CacheAddSecurely_replaces d e lk h global l buff bi bl :
  cache_rep h global l -> lk !! WLOCK_CACHE global = Some 0 ->
  0 <= bi < 2 ^ 32 -> 0 < bl < 2 ^ 32 ->
  exists a h', ext2CacheAddSecurely global buff bi bl (mkFs d e lk h) = Ok (tt, mkFs d e lk h') /\
    cache_rep h' global (before bi l ++ (a, (bi, buff, bl)) :: behind bi bl l) /\
    cache_frame global l h h' /\
    blocksCached h' = u64 (uncount (blocksCached h) (inside bi bl l) + bl).
Proof.
  intros R Hl Hi Hb.
  destruct (ext2CacheAddSecurely_ok d e lk h global l buff bi bl R Hl Hi Hb)
    as (a & h' & E & R' & F & _ & B). eauto 10.
Qed.

Lemma ext2CacheAddSecurely_replaces_witness :
  exists a h', ext2CacheAddSecurely 1 (sm_text 120) 0 2 (mkFs sm_drive ex_ext2 sm_locks sm_heap) =
      Ok (tt, mkFs sm_drive ex_ext2 sm_locks h') /\
    cache_rep h' 1 [(a, (0, sm_text 120, 2))] /\ blocksCached h' = 2.
Proof.
  destruct (ext2CacheAddSecurely_replaces sm_drive ex_ext2 sm_locks sm_heap 1 [(2, sm_run)]
    (sm_text 120) 0 2) as (a & h' & E & R & _ & B).
  - exact sm_cache_rep.
  - done.
  - lia.
  - lia.
  - exists a, h'. split; [exact E|]. split; [exact R|exact B].
Defined.

(** [ext2CachePush] moves an opened file to the front of the list of opened
    files and keeps the others in their order, with the links in both directions
    intact. *)
Theorem ext2CachePush_moves_to_front d e lk h l1 x l2 :
  objects_rep h (l1 ++ x :: l2) -> lk !! LOCK_OBJECT = Some 0 ->
  exists h', ext2CachePush x.1 (mkFs d e lk h) = Ok (tt, mkFs d e lk h') /\
    objects_rep h' (x :: l1 ++ l2).
Proof.
  intros O Hl. destruct (ext2CachePush_ok d e lk h l1 x l2 O Hl) as (h' & E & O' & _). eauto.
Qed.

(** Two opened files, the second one used. *)
Definition two_objects : heap :=
  mkHeap (<[1 := found_cell 2 0 (11, 1, 0)]> {[2 := found_cell 0 1 (12, 1, 0)]}) ∅ 1 3 0.

Lemma ext2CachePush_moves_to_front_witness :
  exists h', ext2CachePush 2 (mkFs sm_drive ex_ext2 sm_locks two_objects) =
      Ok (tt, mkFs sm_drive ex_ext2 sm_locks h') /\
    objects_rep h' [(2, (12, 1, 0)); (1, (11, 1, 0))].
Proof.
  apply (ext2CachePush_moves_to_front sm_drive ex_ext2 sm_locks two_objects
    [(1, (11, 1, 0))] (2, (12, 1, 0)) []).
  - split; [done|by repeat split|by apply (bool_decide_unpack _)|by apply (bool_decide_unpack _)].
  - done.
Defined.

(** ** First fit *)

(** the nested loops of [ext2BlockFindL] and [ext2InodeFindL] over bytes and
    bits are first-fit searches of the bitmap as a bit sequence: the block scan
    returns the lowest position at which a run of [amnt] clear bits starts, the inode
    scan the lowest clear bit from the start position on, and either reports failure
    only when there is none. *)
Theorem bitmap_scans_first_fit e bm amnt dv rm :
  geometry e -> 1 <= amnt -> 0 <= dv < blockSize e -> 0 <= rm < 8 ->
  (match block_scan bm amnt (bitmap_positions (blockSize e)) 0 0 with
   | Some b => 0 <= b /\ b + amnt <= blockSize e * 8 /\ run_clear bm b amnt /\
               forall b', 0 <= b' < b -> ~ run_clear bm b' amnt
   | None => forall b, 0 <= b -> b + amnt <= blockSize e * 8 -> ~ run_clear bm b amnt
   end) /\
  (match inode_scan bm (blockSize e) dv rm with
   | Some k => dv * 8 + rm <= k < blockSize e * 8 /\ bit bm k = false /\
               forall i, dv * 8 + rm <= i < k -> bit bm i = true
   | None => forall i, dv * 8 + rm <= i < blockSize e * 8 -> bit bm i = true
   end).
Proof.
  intros G Ha Hd Hr. split; [by apply (first_run_spec e bm amnt)|].
  rewrite inode_scan_first_clear by lia.
  pose proof (first_clear_spec bm (dv * 8 + rm) (blockSize e * 8 - (dv * 8 + rm))) as H.
  replace (dv * 8 + rm + (blockSize e * 8 - (dv * 8 + rm))) with (blockSize e * 8) in H by lia.
  destruct (first_clear bm _) as [k|]; exact H.
Qed.

Lemma bitmap_scans_first_fit_witness :
  (match block_scan [3; 1] 2 (bitmap_positions 2048) 0 0 with Some b => 0 <= b | None => False end) /\
  inode_scan [255; 6] 2048 0 3 = Some 8.
Proof.
  destruct (bitmap_scans_first_fit ex_ext2 [3; 1] 2 0 0) as [H _].
  - exact ex_geometry.
  - lia.
  - vm_compute. split; congruence.
  - lia.
  - split; [|vm_compute; reflexivity].
    change (blockSize ex_ext2) with 2048 in H.
    destruct (block_scan [3; 1] 2 (bitmap_positions 2048) 0 0) as [b|]; [apply H|].
    apply (H 2); [lia|lia|]. intros i Hi. assert (i = 2 \/ i = 3) as [->| ->] by lia; reflexivity.
Defined.
