(* ===== verification/Ext2Edges.v ===== *)
(** * ext2: boundary behaviour

    What the functions do at the ends of their ranges: the block count behind
    [num_sectors], the reach of the doubly indirect map, bit 0 of a group, a seek in
    append mode, a link in the root directory, the last block of a deleted file. *)

From S2P Require Import Prelude Bytes FileTypes Paths Spinlock Disk Ext2Types Ext2Base Ext2Push Ext2Counters.
From S2P Require Import Ext2Example Ext2Inode Ext2Block Ext2Lookup Ext2Assign DirBlock Ext2Dirs.
From S2P Require Import Ext2Create Dll Ext2Cache Ext2Files Ext2Names Ext2Mount Ext2Read Ext2DirOps.
From S2P Require Import Ext2Sample Ext2Paths.

(** ** Blocks a file occupies *)

(** Indirect blocks a file of [n] data blocks needs when each holds [p] pointers. *)
Definition indirect_blocks (p n : Z) : Z :=
  if n <=? 12 then 0
  else if n <=? 12 + p then 1
  else 2 + (n - 12 - p + p - 1) / p.

(** C40: [ext2BlockSizeCalculate] returns the bytes of the data blocks and of the
    indirect blocks the file needs, except that a file of exactly 12 blocks and one
    that fills the singly indirect block are charged one block too many; it stops
    the kernel from [12 + p + p * p] blocks on ([p] pointers to a block): one block
    early, since 12 direct pointers, one singly and one doubly indirect block hold
    just this many. *)
Theorem ext2BlockSizeCalculate_exact e raw :
  geometry e -> 0 <= raw < 2 ^ 40 ->
  let p := blockSize e / 4 in
  let n := (raw + blockSize e - 1) / blockSize e in
  ext2BlockSizeCalculate e raw =
    if n <? 12 + p + p * p
    then Some ((n + indirect_blocks p n + (if (n =? 12) || (n =? 12 + p) then 1 else 0)) * blockSize e)
    else None.
Proof.
  intros G Hraw p n. destruct (items_bounds e G) as (_ & Hp & Hp4). fold p in Hp, Hp4.
  pose proof (geo_bs_min e G) as Hbs.
  assert (0 <= n < 2 ^ 31).
  { subst n. split; [apply Z.div_pos; lia|]. apply Z.div_lt_upper_bound; lia. }
  unfold ext2BlockSizeCalculate. rewrite CEILING_DIVISION_spec by lia. fold p n.
  assert (p * p <= 16384 * 16384) by (apply Z.mul_le_mono_nonneg; lia).
  assert (0 <= p * p) by (apply Z.mul_nonneg_nonneg; lia).
  rewrite (u32_small n), (u64_small (12 + p)), (u64_small (p * p)), (u64_small (12 + p + p * p)) by lia.
  assert (Hsz : forall k, 0 <= k < 2 ^ 33 -> u64 (k * blockSize e) = k * blockSize e).
  { intros k Hk. apply u64_small. split; [apply Z.mul_nonneg_nonneg; lia|].
    apply Z.le_lt_trans with (2 ^ 33 * 65536); [apply Z.mul_le_mono_nonneg; lia|lia]. }
  unfold indirect_blocks. destruct (Z.ltb_spec n 12).
  { rewrite (proj2 (Z.ltb_lt n (12 + p + p * p))), (proj2 (Z.leb_le n 12)) by lia.
    rewrite (proj2 (Z.eqb_neq n 12)), (proj2 (Z.eqb_neq n (12 + p))) by lia. cbn [orb].
    rewrite Hsz by lia. f_equal. lia. }
  destruct (Z.ltb_spec n (12 + p)).
  { rewrite (proj2 (Z.ltb_lt n (12 + p + p * p))) by lia. rewrite (u64_small (n + 1)), Hsz by lia.
    rewrite (proj2 (Z.eqb_neq n (12 + p))), orb_false_r by lia. do 2 f_equal.
    destruct (Z.eqb_spec n 12) as [->|]; [done|].
    rewrite (proj2 (Z.leb_gt n 12)), (proj2 (Z.leb_le n (12 + p))) by lia. lia. }
  destruct (Z.ltb_spec n (12 + p + p * p)); [|done].
  rewrite (u64_small (n - (12 + p))), CEILING_DIVISION_spec by lia.
  assert (0 <= (n - (12 + p) + p - 1) / p < 2 ^ 31).
  { split; [apply Z.div_pos; lia|]. apply Z.div_lt_upper_bound; [lia|].
    apply Z.lt_le_trans with (1 * 2 ^ 31 + p); [lia|]. nia. }
  rewrite (u64_small (n + 1 + 1 + _)), Hsz by lia. do 2 f_equal.
  rewrite (proj2 (Z.eqb_neq n 12)), (proj2 (Z.leb_gt n 12)) by lia. cbn [orb].
  destruct (Z.eqb_spec n (12 + p)) as [->|].
  - rewrite (proj2 (Z.leb_le (12 + p) (12 + p))) by lia.
    replace (12 + p - (12 + p) + p - 1) with (p - 1) by lia. rewrite Z.div_small by lia. lia.
  - rewrite (proj2 (Z.leb_gt n (12 + p))) by lia.
    replace (n - 12 - p + p - 1) with (n - (12 + p) + p - 1) by lia. lia.
Qed.

Lemma ext2BlockSizeCalculate_exact_witness :
  ext2BlockSizeCalculate ex_ext2 (12 * 2048) = Some (13 * 2048) /\
  ext2BlockSizeCalculate ex_ext2 (13 * 2048) = Some (14 * 2048).
Proof.
  split; (etrans; [apply (ext2BlockSizeCalculate_exact ex_ext2); [exact ex_geometry|lia]|vm_compute; done]).
Defined.

(** ** The reach of the doubly indirect map *)

(** for an index past the last entry of the doubly indirect map but below the
    bound [ext2BlockFetch] computes for it (which multiplies by the block size
    instead of by the pointers per block), the code reads a word behind the buffer of
    the indirect block. *)
Theorem ext2BlockFetch_overrun e d ino c inodeNum n l h curr :
  geometry e -> map_ok e d ino -> control_ok e d c ->
  l !! WLOCKS_BLOCK_BITMAP (INODE_TO_BLOCK_GROUP u32 e inodeNum) = Some n -> 0 <= n ->
  i_blocks ino !!! 13%nat <> 0 ->
  let p := blockSize e / 4 in
  12 + p + p * p <= curr < 12 + p + blockSize e * p ->
  ext2BlockFetch ino inodeNum c curr (mkFs d e l h) = Fault.
Proof.
  intros G Hm Hc Hl Hn Hnz p Hcurr. unfold ext2BlockFetch. erewrite bind_ok by done. cbn [ext2].
  mstep read_acquire_ok. unfold bind at 1. by rewrite block_lookup_overrun.
Qed.

Definition ov_inode : Ext2Inode := sm_inode 33188 3000 1 (replicate 13 0 ++ [20]).

Lemma ex_untouched b : b <> 3 -> b <> 4 -> b <> 35 -> b <> 36 ->
  block_bytes ex_ext2 ex_drive b = replicate 2048 0.
Proof.
  intros. unfold ex_drive. cbn [foldl fst snd].
  rewrite !block_bytes_other; try done; try apply ex_geometry; try apply zlen_ex_bitmap.
Qed.

Lemma ext2BlockFetch_overrun_witness :
  ext2BlockFetch ov_inode 11 (fresh_control []) 262668 (mkFs ex_drive ex_ext2 ex_locks ex_heap) = Fault.
Proof.
  apply (ext2BlockFetch_overrun ex_ext2 ex_drive ov_inode (fresh_control []) 11 0 ex_locks ex_heap).
  - exact ex_geometry.
  - split; [done|by left|by right|]. intros _ i _. left.
    change (i_blocks ov_inode !!! 13%nat) with 20. rewrite ex_untouched by done. apply word_zeros.
  - apply fresh_control_ok.
  - done.
  - lia.
  - done.
  - vm_compute. split; congruence.
Defined.

(** ** Bit 0 of a group *)

(** a group other than the first whose lowest inode is free is not served by
    [ext2InodeFindL], whatever other inodes it has free: the scan returns position 0,
    which the code takes for "nothing found", and nothing is allocated. *)
Theorem inode_bit0_never_served e d l h g x :
  volume e d -> locks_free e l -> 0 < g < blockGroups e -> bgdts e !! Z.to_nat g = Some x ->
  bit (bitmap inode_family e d x) 0 = false ->
  ext2InodeFindL g (mkFs d e l h) = Ok (0, mkFs d e l h).
Proof.
  intros V LF Hg Hx Hb. apply ext2InodeFindL_failed; [done..|lia|]. by eapply inode_bit0_unservable.
Qed.

Lemma sm_inode17_used : inode_used ex_ext2 sm_drive 17 = true.
Proof.
  unfold inode_used, pos_used. change (bgdts ex_ext2 !! _) with (Some (ex_group 35 36 37 18 13)).
  cbv beta iota. change (bitmap inode_family ex_ext2 sm_drive (ex_group 35 36 37 18 13))
    with (block_bytes ex_ext2 sm_drive 36).
  destruct ex_drive_bitmaps as (_ & _ & _ & E). rewrite sm_other, E by lia.
  change ((17 - 1) mod fam_limit inode_family (superblock ex_ext2)) with 0. rewrite ex_bitmap_bit by lia. done.
Qed.

(** The lowest inode of the second group released: nothing of that group is served. *)
Lemma inode_bit0_never_served_witness :
  exists e' d', ext2InodeDelete 17 sm_fs = Ok (tt, mkFs d' e' ex_locks ex_heap) /\
    ext2InodeFindL 1 (mkFs d' e' ex_locks ex_heap) = Ok (0, mkFs d' e' ex_locks ex_heap).
Proof.
  pose proof (ext2InodeDelete_ok ex_ext2 sm_drive sm_volume ex_locks ex_heap ex_locks_free 17) as H.
  assert (Hv : valid_inode ex_ext2 17) by (split; done). specialize (H Hv).
  rewrite sm_inode17_used in H. destruct H as (e' & d' & E & K).
  pose proof (mk_layout _ _ _ _ _ _ _ _ K) as L.
  pose proof (mk_after _ _ _ _ _ _ _ _ K 16 ltac:(lia)) as Hu. unfold pos_used in Hu.
  change (fam_limit inode_family (superblock e')) with (inodes_per_group (superblock e')) in Hu.
  rewrite <- (sl_ipg _ _ L) in Hu. change (16 / inodes_per_group (superblock ex_ext2)) with 1 in Hu.
  change (16 mod inodes_per_group (superblock ex_ext2)) with 0 in Hu.
  destruct (bgdts e' !! Z.to_nat 1) as [x|] eqn:Hx; [|done].
  exists e', d'. split; [exact E|].
  apply (inode_bit0_never_served e' d' ex_locks ex_heap 1 x).
  - apply K.
  - unfold locks_free. rewrite <- (sl_groups _ _ L). exact ex_locks_free.
  - rewrite <- (sl_groups _ _ L). cbn. lia.
  - exact Hx.
  - exact Hu.
Defined.

(** ** Seeking past the end in append mode *)

Section append.
Context (vmem : Z -> list Z) (oob : Z).

(** A write in append mode leaves the position where it was. *)
Lemma ext2Write_append_ptr flags dir buff limit st w dir' st' :
  has_flag flags O_APPEND = true ->
  ext2Write vmem oob flags dir buff limit st = Ok ((w, dir'), st') -> f_ptr dir' = f_ptr dir.
Proof.
  intros Hf H. unfold ext2Write in H. rewrite Hf in H. do 5 minv H.
  destruct (has_flag (permission (f_inode dir)) S_IFDIR); [by injection H as <- <- <-|].
  minv H. minv H. destruct a5 as [[left_ pib] dir1]. minv H. minv H. minv H.
  by injection H as <- <- <-.
Qed.

End append.

(** a seek past the end of a file opened for writing in append mode never
    returns: the padding write puts the position back to the old end of the file, and
    the check that it reached the target stops the kernel. *)
Theorem ext2Seek_append_never_returns vmem oob flags dir target whence st r :
  has_flag flags O_APPEND = true ->
  has_flag flags O_RDWR = true \/ has_flag flags O_WRONLY = true ->
  ext2GetFilesize dir < (if whence =? SEEK_CURR then u64 (target + f_ptr dir) else target) ->
  ext2Seek vmem oob flags dir target whence st <> Ok r.
Proof.
  intros Hf Hw Ht H. unfold ext2Seek in H.
  set (tg := if whence =? SEEK_CURR then _ else _) in *.
  rewrite (proj2 (Z.ltb_lt _ _) Ht) in H.
  replace (negb (has_flag flags O_RDWR) && negb (has_flag flags O_WRONLY)) with false in H
    by (destruct Hw as [-> | ->]; by rewrite ?andb_false_r).
  minv H. destruct a as [written dir'].
  apply ext2Write_append_ptr in E; [|done]. change (f_ptr (fd_set_ptr _ dir)) with (ext2GetFilesize dir) in E.
  destruct (negb _); [done|]. rewrite E, (proj2 (Z.eqb_neq _ _)) in H by lia. done.
Qed.

Lemma ext2Seek_append_never_returns_witness :
  ext2Seek (fun n => zeros n) 0 (O_APPEND + O_WRONLY) sm_fd 4000 0 sm_fs <> Ok ((4000, sm_fd), sm_fs).
Proof.
  apply (ext2Seek_append_never_returns (fun n => zeros n) 0 (O_APPEND + O_WRONLY) sm_fd 4000 0 sm_fs).
  - done.
  - by right.
  - vm_compute. done.
Defined.

(** ** Linking into the root directory *)

(** [ext2Link] never succeeds for a new name directly below the root: the
    parent path it cuts out of [/name] is empty, and an empty path resolves to
    nothing. *)
Theorem ext2Link_root_fails junk filename target sym symTarget st v s1 s2 st' :
  last_slash target = 0 ->
  ext2Link junk filename target sym symTarget st = Ok ((v, s1, s2), st') ->
  v = ERR ENOENT \/ v = ERR EPERM.
Proof.
  intros Ht H. unfold ext2Link in H. minv H. destruct a as [inodeNum r].
  destruct (inodeNum =? 0); [injection H; auto|]. minv H.
  destruct (negb (_ || _)); [injection H; auto|].
  destruct (negb (has_slash target)); [injection H; auto|].
  rewrite Ht in H. change (take (Z.to_nat 0) target) with (@nil Z) in H.
  minv H. destruct a0 as [tn tr]. unfold ext2TraversePath in E1. minv E1.
  change (zlen [] =? 1) with false in E1. cbn in E1. injection E1 as <- <- <-.
  cbn in H. injection H; auto.
Qed.

Lemma ext2Link_root_fails_witness :
  exists s1 s2 st', ext2Link [] (slash :: [97]) (slash :: [98]) None None sm_fs = Ok ((ERR ENOENT, s1, s2), st') /\
    (ERR ENOENT = ERR ENOENT \/ ERR ENOENT = ERR EPERM).
Proof.
  assert (R : stored ex_ext2 sm_drive 2 sm_root) by (apply sm_stored; [lia|done]).
  assert (F : stored ex_ext2 sm_drive 11 sm_file) by (apply sm_stored; [lia|done]).
  assert (E : ext2Link [] (slash :: [97]) (slash :: [98]) None None sm_fs = Ok ((ERR ENOENT, None, None), sm_fs)).
  { unfold ext2Link. change (slash :: [97]) with (path_of [[97]]).
    erewrite bind_ok.
    2:{ apply (ext2TraversePath_ok ex_ext2 sm_drive ex_locks ex_heap [] false 2 [[97]] 11).
        - exact sm_volume.
        - exact sm_inode_tables.
        - exact ex_locks_free.
        - eapply res_last; [exact R|exact sm_dir_contents|done|exact F|done].
        - done.
        - apply Forall_singleton. split; [done|by apply (bool_decide_unpack _)]. }
    cbv beta iota. change (11 =? 0) with false. cbv iota.
    erewrite bind_ok by (by eapply (stored_fetch ex_ext2 sm_drive ex_locks ex_heap sm_volume sm_inode_tables ex_locks_free 11)).
    reflexivity. }
  exists None, None, sm_fs. split; [exact E|].
  exact (ext2Link_root_fails [] (slash :: [97]) (slash :: [98]) None None sm_fs (ERR ENOENT) None None sm_fs
    eq_refl E).
Defined.

(** ** The blocks of a deleted file *)

Section release.
Context (l : gmap ext2_lock Z) (h : heap) (ino : Ext2Inode) (inodeNum : Z).
Context (Hlen : length (i_blocks ino) = 15%nat).

#[local] Abbreviation b i := (i_blocks ino !!! Z.to_nat i).

(** A direct block is fetched without touching the lookup buffers. *)
Lemma fetch_direct e d c curr k :
  l !! WLOCKS_BLOCK_BITMAP (INODE_TO_BLOCK_GROUP u32 e inodeNum) = Some k -> 0 <= k ->
  0 <= curr < 12 ->
  ext2BlockFetch ino inodeNum c curr (mkFs d e l h) = Ok ((b curr, c), mkFs d e l h).
Proof.
  intros Hl Hk Hc. unfold ext2BlockFetch. erewrite bind_ok by done. cbn [ext2]. mstep read_acquire_ok.
  unfold block_lookup. rewrite (proj2 (Z.ltb_lt curr 12)) by lia.
  rewrite blocks_lookup by (done || lia). cbn [from_option_fault]. erewrite bind_ok by done.
  cbv beta iota. by mstep read_release_ok.
Qed.

Context (e0 : Ext2) (n : Z) (Hn : 1 <= n <= 12).
Context (Hsize : u32 (num_sectors ino * 512) = n * blockSize e0).
Context (Hb : forall i, 0 <= i < n -> b i <> 0 /\ valid_pos block_family e0 (b i)).
Context (Hinj : forall i j, 0 <= i < n -> 0 <= j < n -> b i = b j -> i = j).
Context (Hnum : valid_inode e0 inodeNum) (LF : locks_free e0 l).

Lemma free_blocks_ok (m : nat) : forall fuel i e d c,
  (m < fuel)%nat -> i + Z.of_nat m = n - 1 -> 0 <= i -> same_layout e0 e -> volume e d ->
  (forall j, i <= j < n -> block_used e d (b j) = true) ->
  exists e' d', free_blocks fuel e0 ino inodeNum c i (mkFs d e l h) = Ok (tt, mkFs d' e' l h) /\
    same_layout e0 e' /\ volume e' d' /\
    sb_free_blocks (superblock e') = sb_free_blocks (superblock e) + Z.of_nat m /\
    (forall j, 0 <= j < i -> block_used e' d' (b j) = block_used e d (b j)) /\
    (forall j, i <= j < n - 1 -> block_used e' d' (b j) = false) /\
    block_used e' d' (b (n - 1)) = true.
Proof.
  induction m as [|m IH]; intros [|fuel] i e d c Hfuel Hm Hi L V Hu; try lia; cbn [free_blocks];
    pose proof (vol_geo e d V) as G; pose proof (geo_bs_min e G) as Hbs;
    pose proof (sl_bs _ _ L) as Ebs;
    assert (Hnum' : valid_inode e inodeNum)
      by (unfold valid_inode in *; by rewrite <- (sl_groups _ _ L), <- (sl_ipg _ _ L));
    (erewrite bind_ok by (eapply fetch_direct with (k := 0); [|lia|lia];
      rewrite (assign_group e d V inodeNum Hnum'); apply LF; rewrite (sl_groups _ _ L);
      by eapply inode_write_group)); cbv beta iota;
    destruct (Hb i ltac:(lia)) as [Hnz Hv]; rewrite (proj2 (Z.eqb_neq _ 0) Hnz); cbn [orb];
    rewrite (u64_small (i + 1)) by lia; rewrite Hsize, Ebs, u64_small by nia.
  - rewrite (proj2 (Z.leb_le _ _)) by nia. exists e, d. split; [done|]. split; [done|]. split; [done|].
    split; [lia|]. split; [done|]. split; [lia|]. apply Hu. lia.
  - rewrite (proj2 (Z.leb_gt _ _)) by nia.
    assert (Hvp : valid_pos block_family e (b i)).
    { unfold valid_pos in *. cbn in *. by rewrite <- (sl_groups _ _ L), <- (sl_bpg _ _ L). }
    assert (LF' : locks_free e l) by (unfold locks_free in *; by rewrite <- (sl_groups _ _ L)).
    destruct (ext2BlockDelete_marked e d l h (b i) V LF' Hvp (Hu i ltac:(lia))) as (e1 & d1 & E1 & K).
    rewrite (sl_bpg _ _ L). mrw E1.
    pose proof (mk_layout _ _ _ _ _ _ _ _ K) as L1.
    assert (Hother : forall j, 0 <= j < n -> j <> i -> block_used e1 d1 (b j) = block_used e d (b j)).
    { intros j Hj Hne. apply (mk_others _ _ _ _ _ _ _ _ K).
      - destruct (Hb j Hj) as [_ Hvj]. unfold valid_pos in *. cbn in *.
        by rewrite <- (sl_groups _ _ L), <- (sl_bpg _ _ L).
      - intros Hr. apply Hne, Hinj; lia. }
    destruct (IH fuel (i + 1) e1 d1 c) as (e' & d' & E' & L' & V' & Hc & Hlow & Hmid & Hlast).
    + lia.
    + lia.
    + lia.
    + by etrans.
    + apply K.
    + intros j Hj. rewrite Hother by lia. apply Hu. lia.
    + exists e', d'. split; [exact E'|]. split; [done|]. split; [done|].
      pose proof (mk_total _ _ _ _ _ _ _ _ K) as Ht. cbn in Ht. split; [lia|].
      split; [intros j Hj; rewrite Hlow, Hother by lia; done|]. split; [|done].
      intros j Hj. destruct (decide (j = i)) as [->|]; [|apply Hmid; lia].
      rewrite Hlow by lia. apply (mk_after _ _ _ _ _ _ _ _ K). lia.
Qed.

End release.

(** the release loop of [ext2Delete] gives back all blocks of a file but the
    last one: for a file of [n] direct blocks whose sector count says so, the first
    [n - 1] blocks end up free, the last stays marked in the bitmap, and the counter
    of free blocks grows by [n - 1] only. *)
Theorem ext2Delete_leaks_last_block e d l h ino inodeNum c n :
  volume e d -> locks_free e l -> valid_inode e inodeNum -> length (i_blocks ino) = 15%nat ->
  1 <= n <= 12 -> u32 (num_sectors ino * 512) = n * blockSize e ->
  let b i := i_blocks ino !!! Z.to_nat i in
  (forall i, 0 <= i < n -> b i <> 0 /\ valid_pos block_family e (b i) /\ block_used e d (b i) = true) ->
  (forall i j, 0 <= i < n -> 0 <= j < n -> b i = b j -> i = j) ->
  exists e' d', free_blocks (free_fuel e ino) e ino inodeNum c 0 (mkFs d e l h) = Ok (tt, mkFs d' e' l h) /\
    volume e' d' /\
    sb_free_blocks (superblock e') = sb_free_blocks (superblock e) + (n - 1) /\
    (forall i, 0 <= i < n - 1 -> block_used e' d' (b i) = false) /\
    block_used e' d' (b (n - 1)) = true.
Proof.
  intros V LF Hnum Hlen Hn Hs b Hb Hinj. pose proof (geo_bs_min e (vol_geo e d V)) as Hbs.
  destruct (free_blocks_ok l h ino inodeNum Hlen e n Hn Hs) with (m := Z.to_nat (n - 1))
    (fuel := free_fuel e ino) (i := 0) (e := e) (d := d) (c := c)
    as (e' & d' & E & _ & V' & Hc & _ & Hmid & Hlast); try done; try lia.
  - intros i Hi. by destruct (Hb i Hi) as (? & ? & _).
  - unfold free_fuel. rewrite Hs, Z.div_mul by lia. lia.
  - intros j Hj. by destruct (Hb j Hj) as (_ & _ & ?).
  - exists e', d'. rewrite Z2Nat.id in Hc by lia. done.
Qed.

Lemma sm_block_used b : 0 <= b < 18 -> block_used ex_ext2 sm_drive b = true.
Proof.
  intros Hb. unfold block_used, pos_used. change (fam_limit block_family (superblock ex_ext2)) with 32.
  rewrite Z.div_small, Z.mod_small by lia.
  change (bgdts ex_ext2 !! Z.to_nat 0) with (Some (ex_group 3 4 5 14 5)). cbv beta iota.
  change (bitmap block_family ex_ext2 sm_drive (ex_group 3 4 5 14 5)) with (block_bytes ex_ext2 sm_drive 3).
  destruct sm_bitmaps as [-> _]. rewrite ex_bitmap_bit by lia. by rewrite (proj2 (Z.ltb_lt b 18)) by lia.
Qed.

(** The two-block sample file, with the sector count a write of 4096 bytes leaves. *)
Lemma ext2Delete_leaks_last_block_witness :
  exists e' d', free_blocks (free_fuel ex_ext2 (set_num_sectors 8 sm_file)) ex_ext2 (set_num_sectors 8 sm_file)
      11 (fresh_control []) 0 sm_fs = Ok (tt, mkFs d' e' ex_locks ex_heap) /\
    block_used e' d' 11 = false /\ block_used e' d' 12 = true.
Proof.
  destruct (ext2Delete_leaks_last_block ex_ext2 sm_drive ex_locks ex_heap (set_num_sectors 8 sm_file)
    11 (fresh_control []) 2) as (e' & d' & E & _ & _ & Hfree & Hlast).
  - exact sm_volume.
  - exact ex_locks_free.
  - split; done.
  - done.
  - lia.
  - done.
  - intros i Hi. assert (i = 0 \/ i = 1) as [->| ->] by lia;
      (split; [done|]); (split; [by split|]); by apply sm_block_used.
  - intros i j Hi Hj. assert (i = 0 \/ i = 1) as [->| ->] by lia;
      assert (j = 0 \/ j = 1) as [->| ->] by lia; done.
  - exists e', d'. split; [exact E|]. split; [apply (Hfree 0); lia|exact Hlast].
Defined.
