(* ===== verification/Fat32.v ===== *)
(** * FAT32: structures, the allocation table and its cache

    filesystems/fat32: the on-disk structures of fat32.h, the table of clusters
    with its 32-sector cache (fat32_fat.cpp), and the helpers of fat32_util.cpp.
    The driver only reads, so the drive is a parameter and the state is the
    [FAT32] structure of the mount point.  Buffers that a function allocates and
    frees itself are values. *)

From S2P Require Import Prelude Bytes FileTypes Disk.

(** ** Constants *)

Definition LFN_MAX : Z := 20.
Definition LFN_MAX_TOTAL_CHARS : Z := 256.
Definition LFN_ORDER_FINAL : Z := 0x40.

Definition FAT_ATTRIB_READ_ONLY : Z := 0x01.
Definition FAT_ATTRIB_HIDDEN : Z := 0x02.
Definition FAT_ATTRIB_SYSTEM : Z := 0x04.
Definition FAT_ATTRIB_VOLUME_ID : Z := 0x08.
Definition FAT_ATTRIB_DIRECTORY : Z := 0x10.
Definition FAT_ATTRIB_ARCHIVE : Z := 0x20.
Definition FAT_ATTRIB_LFN : Z :=
  Z.lor (Z.lor (Z.lor FAT_ATTRIB_READ_ONLY FAT_ATTRIB_HIDDEN) FAT_ATTRIB_SYSTEM) FAT_ATTRIB_VOLUME_ID.

Definition FAT_COMB_HIGH_LOW (clusterhigh clusterlow : Z) : Z :=
  Z.lor (u32 (Z.shiftl clusterhigh 16)) clusterlow.
Definition FAT_INODE_GEN (directory index : Z) : Z := u32 (directory * 100 + index).

Definition FAT32_CACHE_BAD : Z := 0xFFFFFFFF.
Definition FAT32_CACHE_MAX : Z := 32.

(** ** On-disk structures *)

Record FAT32DirectoryEntry := mkDirEnt {
  de_name : list Z;
  de_ext : list Z;
  attrib : Z;
  userattrib : Z;
  undelete : Z;
  createtime : Z;
  createdate : Z;
  accessdate : Z;
  clusterhigh : Z;
  modifiedtime : Z;
  modifieddate : Z;
  clusterlow : Z;
  filesize : Z;
}.

Definition decode_dirent (b : list Z) : FAT32DirectoryEntry :=
  mkDirEnt (slice 0 8 b) (slice 8 3 b) (le_val (slice 11 1 b)) (le_val (slice 12 1 b))
    (le_val (slice 13 1 b)) (le_val (slice 14 2 b)) (le_val (slice 16 2 b)) (le_val (slice 18 2 b))
    (le_val (slice 20 2 b)) (le_val (slice 22 2 b)) (le_val (slice 24 2 b)) (le_val (slice 26 2 b))
    (le_val (slice 28 4 b)).

Definition zero_dirent : FAT32DirectoryEntry :=
  mkDirEnt (replicate 8 0) (replicate 3 0) 0 0 0 0 0 0 0 0 0 0 0.

Record FAT32LFN := mkLfn {
  order : Z;
  first_five : list Z;
  attributes : Z;
  lfn_type : Z;
  checksum : Z;
  next_six : list Z;
  lfn_zero : Z;
  last_two : list Z;
}.

Definition decode_lfn (b : list Z) : FAT32LFN :=
  mkLfn (le_val (slice 0 1 b)) (slice 1 10 b) (le_val (slice 11 1 b)) (le_val (slice 12 1 b))
    (le_val (slice 13 1 b)) (slice 14 12 b) (le_val (slice 26 2 b)) (slice 28 4 b).

Record FAT32ExtendedSector := mkExtended {
  table_size_32 : Z;
  extended_flags : Z;
  fat_version : Z;
  root_cluster : Z;
  fat_info : Z;
  backup_BS_sector : Z;
  reserved_0 : list Z;
  drive_number : Z;
  reserved_1 : Z;
  boot_signature : Z;
  volume_id : Z;
  volume_label : list Z;
  fat_type_label : list Z;
}.

Record FAT32BootSector := mkBootSector {
  bootjmp : list Z;
  oem_name : list Z;
  bytes_per_sector : Z;
  sectors_per_cluster : Z;
  reserved_sector_count : Z;
  table_count : Z;
  root_entry_count : Z;
  total_sectors_16 : Z;
  media_type : Z;
  table_size_16 : Z;
  sectors_per_track : Z;
  head_side_count : Z;
  hidden_sector_count : Z;
  total_sectors_32 : Z;
  extended_section : FAT32ExtendedSector;
}.

Definition decode_extended (b : list Z) : FAT32ExtendedSector :=
  mkExtended (le_val (slice 0 4 b)) (le_val (slice 4 2 b)) (le_val (slice 6 2 b)) (le_val (slice 8 4 b))
    (le_val (slice 12 2 b)) (le_val (slice 14 2 b)) (slice 16 12 b) (le_val (slice 28 1 b))
    (le_val (slice 29 1 b)) (le_val (slice 30 1 b)) (le_val (slice 31 4 b)) (slice 35 11 b) (slice 46 8 b).

Definition decode_bootsector (b : list Z) : FAT32BootSector :=
  mkBootSector (slice 0 3 b) (slice 3 8 b) (le_val (slice 11 2 b)) (le_val (slice 13 1 b))
    (le_val (slice 14 2 b)) (le_val (slice 16 1 b)) (le_val (slice 17 2 b)) (le_val (slice 19 2 b))
    (le_val (slice 21 1 b)) (le_val (slice 22 2 b)) (le_val (slice 24 2 b)) (le_val (slice 26 2 b))
    (le_val (slice 28 4 b)) (le_val (slice 32 4 b)) (decode_extended (slice 36 54 b)).

(** ** State *)

Record FAT32 := mkFat {
  offsetBase : Z;
  offsetFats : Z;
  offsetClusters : Z;
  bootsec : FAT32BootSector;
  cache : list (list Z);
  cacheBase : list Z;
  cacheCurr : Z;
}.

Definition set_cache (c : list (list Z)) (b : list Z) (n : Z) (f : FAT32) : FAT32 :=
  mkFat (offsetBase f) (offsetFats f) (offsetClusters f) (bootsec f) c b n.

(** [LBA_TO_OFFSET(fat->bootsec.sectors_per_cluster)] *)
Definition bytesPerCluster (f : FAT32) : Z := sectors_per_cluster (bootsec f) * SECTOR_SIZE.

(** ** fat32_util.cpp *)

Definition fat32_cluster_to_LBA (f : FAT32) (cluster : Z) : Z :=
  u64 (offsetClusters f + u32 (u32 (cluster - 2) * sectors_per_cluster (bootsec f))).

Definition IS_UPPERCASE (c : Z) : bool :=
  ((65 <=? c) && (c <=? 90)) || ((48 <=? c) && (c <=? 57)).

(** The loop over the characters from index [i] on: [None] is the early return. *)
Fixpoint short_scan (l : list Z) (i dotat : Z) : option Z :=
  match l with
  | [] => Some dotat
  | c :: l =>
      if c =? 46 then short_scan l (i + 1) i
      else if negb (IS_UPPERCASE c) && negb (c =? 0x20) then None
      else short_scan l (i + 1) dotat
  end.

Definition fat32_is_short_filename_possible (filename : list Z) : Z :=
  let len := zlen filename in
  if 8 + 1 + 3 <? len then -1
  else
    match short_scan filename 0 0 with
    | None => -1
    | Some dotat =>
        if negb (dotat =? 0) && (dotat <? u64 (len - 1 - 3)) then -1 else dotat
    end.

Definition every_second (l : list Z) (k : nat) : list Z := (fun i => l !!! (2 * i)%nat) <$> seq 0 k.

(** The thirteen bytes, stored at [lfnName[index * 13]]. *)
Definition fat32_LFNmem_cpy (lfnName : list Z) (lfn : FAT32LFN) (index : Z) : option (list Z) :=
  store (index * 13) (every_second (first_five lfn) 5 ++ every_second (next_six lfn) 6 ++
    every_second (last_two lfn) 2) lfnName.

(** The characters up to the first blank. *)
Fixpoint until_space (l : list Z) : list Z :=
  match l with
  | [] => []
  | c :: l => if c =? 32 then [] else c :: until_space l
  end.

(** The bytes written to [target], and the value returned: their number, the
    terminator included. *)
Definition fat32_SFN_to_normal (dirent : FAT32DirectoryEntry) : list Z * Z :=
  let name := until_space (de_name dirent) in
  let ext := if negb (de_ext dirent !!! 0%nat =? 32) && negb (de_ext dirent !!! 0%nat =? 0)
             then 46 :: until_space (de_ext dirent) else [] in
  (name ++ ext ++ [0], zlen (name ++ ext) + 1).

(** ** fat32_fat.cpp *)

(** The search of [fat32_FAT_cache_lookup] from index [i] on. *)
Fixpoint cache_search (bases : list Z) (i offset : Z) : Z :=
  match bases with
  | [] => FAT32_CACHE_BAD
  | b :: bases => if b =? offset then i else cache_search bases (i + 1) offset
  end.

Definition fat32_FAT_cache_lookup (f : FAT32) (offset : Z) : Z := cache_search (cacheBase f) 0 offset.

Definition fat32_FAT_cache_add (offset : Z) (bytes : list Z) : M FAT32 unit :=
  let! f := get in
  let curr := if FAT32_CACHE_MAX <=? cacheCurr f then 0 else cacheCurr f in
  let! buf := from_option_fault (cache f !! Z.to_nat curr) in
  let! buf := from_option_fault (store 0 bytes buf) in
  put (set_cache (<[Z.to_nat curr := buf]> (cache f)) (<[Z.to_nat curr := offset]> (cacheBase f)) (curr + 1) f).

Section table.
Context (dr : drive).

Definition fat32_FAT_fetch (offsetSector : Z) : M FAT32 (list Z) :=
  let! f := get in
  let cacheRes := fat32_FAT_cache_lookup f offsetSector in
  if negb (cacheRes =? FAT32_CACHE_BAD) then
    let! buf := from_option_fault (cache f !! Z.to_nat cacheRes) in
    from_option_fault (load 0 SECTOR_SIZE buf)
  else
    let bytes := get_disk_bytes dr offsetSector 1 in
    fat32_FAT_cache_add offsetSector bytes ;;;
    ret bytes.

(** The value of an entry: 0 for the end of a chain and for a bad cluster. *)
Definition entry_value (raw : Z) : Z :=
  let r := Z.land raw 0x0FFFFFFF in
  if 0x0FFFFFF8 <=? r then 0 else if r =? 0x0FFFFFF7 then 0 else r.

Definition fat32_FAT_traverse (offset : Z) : M FAT32 Z :=
  let! f := get in
  let offsetFAT := u32 (offset * 4) in
  let offsetSector := u32 (offsetFats f + offsetFAT / SECTOR_SIZE) in
  let offsetEntry := offsetFAT mod SECTOR_SIZE in
  let! bytes := fat32_FAT_fetch offsetSector in
  let! raw := from_option_fault (load_le 4 offsetEntry bytes) in
  ret (entry_value raw).

(** The loop of [fat32_FAT_chain]: [n] more entries behind [last]. *)
Fixpoint chain_loop (n : nat) (last : Z) : M FAT32 (list Z) :=
  match n with
  | O => ret []
  | S n =>
      let! next := fat32_FAT_traverse last in
      let! rest := chain_loop n next in
      ret (next :: rest)
  end.

(** The array of [amount + 1] entries. *)
Definition fat32_FAT_chain (offsetStart amount : Z) : M FAT32 (list Z) :=
  if u32 (amount + 1) =? 0 then fault
  else
    let! rest := chain_loop (Z.to_nat (u32 (amount + 1) - 1)) offsetStart in
    ret (offsetStart :: rest).

End table.
