(* ===== verification/Fat32Files.v ===== *)
(** * FAT32: directories and opened files

    Mounting, the search of directories (fat32_traverse.cpp), listing
    (fat32_dirs.cpp), [stat] (fat32_stat.cpp) and the file handlers of
    fat32_controller.cpp.  [beyond] is the word that lies behind the array of
    [fat32_FAT_chain], which [fat32_read] looks at.  A block that is freed a second
    time is a [Fault]: the heap accepts only blocks in use. *)

From S2P Require Import Prelude Calendar Bytes FileTypes Paths Disk Fat32.

(** ** Mounting *)

(** [mount->mbr.lba_first_sector] is the partition's first sector. *)
Definition fat32_mount (dr : drive) (lba_first_sector : Z) : outcome FAT32 :=
  let firstSec := get_disk_bytes dr lba_first_sector 1 in
  let bs := decode_bootsector firstSec in
  if negb (bytes_per_sector bs =? SECTOR_SIZE) then Halted
  else
    let fats := u64 (lba_first_sector + reserved_sector_count bs) in
    let clusters := u64 (fats + u32 (table_count bs * table_size_32 (extended_section bs))) in
    Ok (mkFat lba_first_sector fats clusters bs
      (replicate 32 (replicate (Z.to_nat (sectors_per_cluster bs * SECTOR_SIZE)) 0))
      (replicate 32 FAT32_CACHE_BAD) 0).

(** ** Searching a directory *)

Record FAT32TraverseResult := mkResult {
  directory : Z;
  index : Z;
  dirEntry : FAT32DirectoryEntry;
}.

Definition no_result : FAT32TraverseResult := mkResult 0 0 zero_dirent.

(** The long name gathered so far, and [lfnLast]. *)
Record long_name := mkLong {
  lfnName : list Z;
  lfnLast : Z;
}.

Definition no_long_name : long_name := mkLong (replicate 256 0) (-1).

(** [while (lfnName[lfnLen++]);] from index [i] on: the characters in front of the
    first zero byte. *)
Fixpoint lfn_chars (l : list Z) : option (list Z) :=
  match l with
  | [] => None
  | c :: l => if c =? 0 then Some [] else (cons c) <$> lfn_chars l
  end.

(** The part for entries of long names, the same in both loops. *)
Definition gather_lfn (e : list Z) (ln : long_name) : outcome long_name :=
  let lfn := decode_lfn e in
  if (attributes lfn =? FAT_ATTRIB_LFN) && (lfn_type lfn =? 0) then
    let index := Z.land (order lfn) (Z.lnot LFN_ORDER_FINAL) - 1 in
    if LFN_MAX <=? index then Halted
    else
      let last := if has_flag (order lfn) LFN_ORDER_FINAL then index else lfnLast ln in
      need (fat32_LFNmem_cpy (lfnName ln) lfn index) (fun name => Ok (mkLong name last))
  else Ok ln.

(** The entries with a name of their own. *)
Definition is_named (d : FAT32DirectoryEntry) : bool :=
  (attrib d =? FAT_ATTRIB_DIRECTORY) || (attrib d =? FAT_ATTRIB_ARCHIVE).

(** The comparison with a short name; [memcmp] may run from [name] into [ext]. *)
Definition short_match (e search : list Z) (shortDot : Z) : bool :=
  let n := if shortDot =? 0 then zlen search else shortDot in
  bool_decide (slice 0 n e = slice 0 n search) &&
  ((shortDot =? 0) ||
   bool_decide (slice 8 (zlen search - shortDot - 1) e =
                slice (shortDot + 1) (zlen search - shortDot - 1) search)).

Definition entry_match (e search : list Z) (shortDot : Z) (ln : long_name) : outcome bool :=
  if 0 <=? lfnLast ln then
    need (lfn_chars (lfnName ln)) (fun name => Ok (bool_decide (name = search)))
  else Ok ((0 <=? shortDot) && short_match e search shortDot).

(** The loop over the entries of one cluster from offset [i] on. *)
Fixpoint scan_cluster (entries : list (list Z)) (i : Z) (search : list Z) (shortDot : Z) (ln : long_name)
    : outcome (option (Z * FAT32DirectoryEntry) * long_name) :=
  match entries with
  | [] => Ok (None, ln)
  | e :: entries =>
      match gather_lfn e ln with
      | Ok ln =>
          let d := decode_dirent e in
          if is_named d then
            match entry_match e search shortDot ln with
            | Ok true => Ok (Some (i, d), no_long_name)
            | Ok false => scan_cluster entries (i + 32) search shortDot no_long_name
            | Halted => Halted | Fault => Fault | Hang => Hang
            end
          else scan_cluster entries (i + 32) search shortDot ln
      | Halted => Halted | Fault => Fault | Hang => Hang
      end
  end.

(** A cluster as its entries of 32 bytes. *)
Definition entries_of (bytes : list Z) : list (list Z) :=
  (fun k => slice (32 * k) 32 bytes) <$> seqZ 0 (zlen bytes / 32).

(** Enough for every chain that does not run in a circle. *)
Definition chain_fuel (f : FAT32) : nat := S (Z.to_nat (table_size_32 (extended_section (bootsec f)) * 128)).

Definition lift {S A} (o : outcome A) : M S A := fun s =>
  match o with Ok a => Ok (a, s) | Halted => Halted | Fault => Fault | Hang => Hang end.

Section reader.
Context (dr : drive).

Definition read_cluster (f : FAT32) (cluster n : Z) : list Z :=
  get_disk_bytes dr (fat32_cluster_to_LBA f cluster) n.

(** [while (true)] over the clusters of the directory. *)
Fixpoint traverse_clusters (fuel : nat) (dir : Z) (search : list Z) (shortDot : Z) (ln : long_name)
    : M FAT32 FAT32TraverseResult :=
  match fuel with
  | O => hang
  | S fuel =>
      let! f := get in
      let bytes := read_cluster f dir (sectors_per_cluster (bootsec f)) in
      let! (r, ln) := lift (scan_cluster (entries_of bytes) 0 search shortDot ln) in
      match r with
      | Some (i, d) => ret (mkResult dir (u8 i) d)
      | None =>
          let! dir := fat32_FAT_traverse dr dir in
          if dir =? 0 then ret no_result else traverse_clusters fuel dir search shortDot ln
      end
  end.

Definition fat32_traverse (initDirectory : Z) (search : list Z) : M FAT32 FAT32TraverseResult :=
  let! f := get in
  traverse_clusters (chain_fuel f) initDirectory search (fat32_is_short_filename_possible search) no_long_name.

(** The loop over the positions [is_] of the path. *)
Fixpoint path_loop (path : list Z) (is_ : list Z) (dir lastslash : Z) : M FAT32 FAT32TraverseResult :=
  match is_ with
  | [] => ret no_result
  | i :: is_ =>
      let last := i =? zlen path - 1 in
      if (path !!! Z.to_nat i =? slash) || last then
        let length := if last then i - lastslash - 1 + 1 else i - lastslash - 1 in
        let! res := fat32_traverse dir (slice (lastslash + 1) length path) in
        if (directory res =? 0) || last then ret res
        else path_loop path is_ (FAT_COMB_HIGH_LOW (clusterhigh (dirEntry res)) (clusterlow (dirEntry res))) i
      else path_loop path is_ dir lastslash
  end.

(** What the path [/] gives. *)
Definition root_result (f : FAT32) : FAT32TraverseResult :=
  let root := root_cluster (extended_section (bootsec f)) in
  mkResult (u32 (-1)) (u8 (-1))
    (mkDirEnt (replicate 8 0) (replicate 3 0) FAT_ATTRIB_DIRECTORY 0 0 0 0 0
      (u16 (Z.shiftr root 16)) 0 0 (Z.land root 0xFFFF) 0).

Definition fat32_traverse_path (path : list Z) (directoryStarting : Z) : M FAT32 FAT32TraverseResult :=
  let! f := get in
  if zlen path =? 1 then ret (root_result f)
  else path_loop path (seqZ 1 (zlen path - 1)) directoryStarting 0.

(** ** Opened files *)

Record FAT32OpenFd := mkOpenFd {
  ptr : Z;
  fd_index : Z;
  directoryStarting : Z;
  directoryCurr : Z;
  dirEnt : FAT32DirectoryEntry;
}.

Definition fd_move (p c : Z) (d : FAT32OpenFd) : FAT32OpenFd :=
  mkOpenFd p (fd_index d) (directoryStarting d) c (dirEnt d).

Definition first_cluster (d : FAT32DirectoryEntry) : Z := FAT_COMB_HIGH_LOW (clusterhigh d) (clusterlow d).

Definition is_directory (d : FAT32DirectoryEntry) : bool := has_flag (attrib d) FAT_ATTRIB_DIRECTORY.

(** The value returned, [fd->dir] and [fd->dirname]. *)
Definition fat32_open (filename : list Z) (flags : Z) : M FAT32 (Z * option (FAT32OpenFd * option (list Z))) :=
  if has_flag flags O_CREAT || has_flag flags O_WRONLY || has_flag flags O_RDWR then ret (- EROFS, None)
  else
    let! f := get in
    let! res := fat32_traverse_path filename (root_cluster (extended_section (bootsec f))) in
    if directory res =? 0 then ret (- ENOENT, None)
    else
      ret (0, Some (mkOpenFd 0 (index res) (directory res) (first_cluster (dirEntry res)) (dirEntry res),
        if is_directory (dirEntry res) then Some filename else None)).

(** *** Reading *)

(** The copy loop over the rest [bs] of a buffer: [dir->ptr], [curr], the bytes
    stored, and whether it ended with [done]. *)
Fixpoint copy_loop (bs : list Z) (limit size p curr : Z) (out : list Z) : Z * Z * list Z * bool :=
  match bs with
  | [] => (p, curr, out, false)
  | b :: bs =>
      if (limit <=? u64 curr) || (size <=? p) then (p, curr, out, true)
      else copy_loop bs limit size (u32 (p + 1)) (s32 (curr + 1)) (out ++ [b])
  end.

(** The variables of the loop over the clusters. *)
Record reading := mkReading {
  r_ptr : Z;
  r_cluster : Z;
  r_curr : Z;
  r_out : list Z;
  r_start : Z;
}.

(** The loop over [i]; [r_start] is [consecStart]. *)
Fixpoint read_clusters (f : FAT32) (lookup : list Z) (beyond needed limit size : Z) (is_ : list Z) (r : reading)
    : outcome reading :=
  match is_ with
  | [] => Ok r
  | i :: is_ =>
      let c := default beyond (lookup !! Z.to_nat i) in
      let next := default beyond (lookup !! Z.to_nat (i + 1)) in
      let bpc := bytesPerCluster f in
      if c =? 0 then Ok r
      else
        let r := mkReading (r_ptr r) c (r_curr r) (r_out r) (r_start r) in
        let last := i =? needed - 1 in
        if r_start r <? 0 then
          if negb last && (next =? u32 (c + 1)) then
            read_clusters f lookup beyond needed limit size is_ (mkReading (r_ptr r) c (r_curr r) (r_out r) i)
          else
            let bytes := read_cluster f c (sectors_per_cluster (bootsec f)) in
            let '(p, curr, out, done) :=
              copy_loop (drop (Z.to_nat (r_ptr r mod bpc)) bytes) limit size (r_ptr r) (r_curr r) (r_out r) in
            let r := mkReading p c curr out (-1) in
            if done : bool then Ok r else read_clusters f lookup beyond needed limit size is_ r
        else if last || negb (next =? u32 (c + 1)) then
          let n := i - r_start r + 1 in
          if negb (s32 (n * bpc) =? n * bpc) then Fault
          else
            let bytes := read_cluster f (default beyond (lookup !! Z.to_nat (r_start r)))
                           (n * sectors_per_cluster (bootsec f)) in
            let '(p, curr, out, done) :=
              copy_loop (drop (Z.to_nat (r_ptr r mod bpc)) bytes) limit size (r_ptr r) (r_curr r) (r_out r) in
            (* with [done] the buffer was freed in the loop and is freed again behind it *)
            if done : bool then Fault
            else read_clusters f lookup beyond needed limit size is_ (mkReading p c curr out (-1))
        else read_clusters f lookup beyond needed limit size is_ r
  end.

(** The number returned, the bytes stored in [buff] (none for the null pointer),
    and the descriptor. *)
Definition fat32_read (beyond : Z) (dir : FAT32OpenFd) (buff : bool) (limit : Z)
    : M FAT32 (Z * list Z * FAT32OpenFd) :=
  let! f := get in
  if is_directory (dirEnt dir) then ret (0, [], dir)
  else if bytesPerCluster f =? 0 then fault
  else
    let needed := s32 (CEILING_DIVISION limit (bytesPerCluster f)) in
    let! lookup := fat32_FAT_chain dr (directoryCurr dir) (u32 needed) in
    let! r := lift (read_clusters f lookup beyond needed limit (filesize (dirEnt dir)) (seqZ 0 (needed + 1))
                      (mkReading (ptr dir) (directoryCurr dir) 0 [] (-1))) in
    ret (r_curr r, if buff then r_out r else [], fd_move (r_ptr r) (r_cluster r) dir).

(** *** Seeking *)

Fixpoint skip_clusters (n : nat) (c : Z) : M FAT32 Z :=
  match n with
  | O => ret c
  | S n => let! c := fat32_FAT_traverse dr c in if c =? 0 then ret 0 else skip_clusters n c
  end.

Definition fat32_seek (dir : FAT32OpenFd) (target offset whence : Z) : M FAT32 (Z * FAT32OpenFd) :=
  let! f := get in
  let target := if whence =? SEEK_CURR then u64 (target + ptr dir) else target in
  if is_directory (dirEnt dir) then ret (u64 (- EINVAL), dir)
  else if filesize (dirEnt dir) <? target then ret (u64 (- EINVAL), dir)
  else
    let old := s32 (ptr dir) in
    let back := target <? u64 old in
    let curr := if back then first_cluster (dirEnt dir) else directoryCurr dir in
    let old := if back then 0 else old in
    if bytesPerCluster f =? 0 then fault
    else
      let toBeSkipped := s32 (target / bytesPerCluster f) in
      let alreadySkipped := Z.quot old (bytesPerCluster f) in
      let! curr := skip_clusters (Z.to_nat (toBeSkipped - alreadySkipped)) curr in
      ret (u32 target, fd_move (u32 target) curr dir).

Definition fat32_get_filesize (dir : FAT32OpenFd) : Z :=
  if is_directory (dirEnt dir) then 0 else filesize (dirEnt dir).

(** *** Listing *)

(** The variables of the listing: the caller's buffer, [dirp], [allocatedlimit] and
    [fatDir->ptr]. *)
Record dents := mkDents {
  dn_buff : list Z;
  dn_dirp : Z;
  dn_alloc : Z;
  dn_ptr : Z;
}.

Context (rand : Z -> Z).

(** The name and the length handed to [dents_add]. *)
Definition dent_name (d : FAT32DirectoryEntry) (ln : long_name) : outcome (list Z) :=
  if 0 <=? lfnLast ln then need (lfn_chars (lfnName ln)) (fun name => Ok name)
  else Ok (fat32_SFN_to_normal d).1.

(** The entries of one cluster from offset [i] on; the flag is [done]. *)
Fixpoint list_cluster (entries : list (list Z)) (cluster i hardlimit : Z) (ln : long_name) (s : dents)
    : outcome (dents * long_name * bool) :=
  match entries with
  | [] => Ok (s, ln, false)
  | e :: entries =>
      match gather_lfn e ln with
      | Ok ln =>
          let d := decode_dirent e in
          let next := fun s => mkDents (dn_buff s) (dn_dirp s) (dn_alloc s) (u32 (dn_ptr s + 32)) in
          if is_named d then
            match dent_name d ln with
            | Ok name =>
                match dents_add (dn_buff s) (dn_dirp s) (dn_alloc s) hardlimit name
                        (FAT_INODE_GEN cluster (i / 32)) (rand (dn_dirp s))
                        (if is_directory d then CDT_DIR else CDT_REG) with
                | Ok (DENTS_NO_SPACE, _, _, _) => Ok (mkDents (dn_buff s) (dn_dirp s) (- EINVAL) (dn_ptr s), ln, true)
                | Ok (DENTS_RETURN, _, _, _) => Ok (s, ln, true)
                | Ok (DENTS_SUCCESS, buff, dirp, alloc) =>
                    list_cluster entries cluster (i + 32) hardlimit no_long_name (next (mkDents buff dirp alloc (dn_ptr s)))
                | Halted => Halted | Fault => Fault | Hang => Hang
                end
            | Halted => Halted | Fault => Fault | Hang => Hang
            end
          else list_cluster entries cluster (i + 32) hardlimit ln (next s)
      | Halted => Halted | Fault => Fault | Hang => Hang
      end
  end.

(** [while (!done && fatDir->directoryCurr)]; the result holds the last cluster. *)
Fixpoint list_clusters (fuel : nat) (cluster hardlimit : Z) (ln : long_name) (s : dents) : M FAT32 (dents * Z) :=
  match fuel with
  | O => hang
  | S fuel =>
      let! f := get in
      if cluster =? 0 then ret (s, cluster)
      else
        let off := dn_ptr s mod bytesPerCluster f in
        let bytes := drop (Z.to_nat off) (read_cluster f cluster (sectors_per_cluster (bootsec f))) in
        let! (s, ln, done) := lift (list_cluster (entries_of bytes) cluster off hardlimit ln s) in
        if done : bool then ret (s, cluster)
        else let! cluster := fat32_FAT_traverse dr cluster in list_clusters fuel cluster hardlimit ln s
  end.

Definition fat32_get_dents64 (dir : FAT32OpenFd) (start : list Z) (hardlimit : Z)
    : M FAT32 (Z * list Z * FAT32OpenFd) :=
  let! f := get in
  if negb (is_directory (dirEnt dir)) then ret (- ENOTDIR, start, dir)
  else if directoryCurr dir =? 0 then ret (0, start, dir)
  else if bytesPerCluster f =? 0 then fault
  else
    let! (s, cluster) := list_clusters (S (chain_fuel f)) (directoryCurr dir) hardlimit no_long_name
                           (mkDents start 0 0 (ptr dir)) in
    ret (dn_alloc s, dn_buff s, fd_move (dn_ptr s) cluster dir).

(** ** Status *)

Definition fat32_stat_internal (res : FAT32TraverseResult) : outcome stat :=
  let mode := Z.lor (Z.lor (Z.lor S_IFREG S_IRUSR) S_IWUSR) S_IXUSR in
  let dir := is_directory (dirEntry res) in
  let size := if dir then 0x1000 else filesize (dirEntry res) in
  let mode := if dir then Z.lor (Z.land mode (Z.lnot S_IFREG)) S_IFDIR else mode in
  match fat32_unix_time (accessdate (dirEntry res)) 0,
        fat32_unix_time (modifieddate (dirEntry res)) (modifiedtime (dirEntry res)),
        fat32_unix_time (createdate (dirEntry res)) (createtime (dirEntry res)) with
  | Ok atime, Ok mtime, Ok ctime =>
      Ok (mkStat 69 (FAT_INODE_GEN (directory res) (index res)) mode 1 0 0 0 0x1000 size
        (u64 (CEILING_DIVISION size 0x1000 * 0x1000) / 512) atime mtime ctime)
  | _, _, _ => Fault
  end.

(** [None]: false. *)
Definition fat32_stat (filename : list Z) : M FAT32 (option stat) :=
  let! f := get in
  let! res := fat32_traverse_path filename (root_cluster (extended_section (bootsec f))) in
  if directory res =? 0 then ret None
  else let! st := lift (fat32_stat_internal res) in ret (Some st).

(** [return true;] is 1. *)
Definition fat32_stat_fd (dir : FAT32OpenFd) : outcome (Z * stat) :=
  match fat32_stat_internal (mkResult (directoryStarting dir) (fd_index dir) (dirEnt dir)) with
  | Ok st => Ok (1, st)
  | _ => Fault
  end.

End reader.
