(* ===== verification/Fat32Table.v ===== *)
(** * FAT32: the table behind its cache

    Whatever the cache holds, [fat32_FAT_traverse] returns the entry of the table on
    the drive, and [fat32_FAT_chain] the clusters of a file. *)

From S2P Require Import Prelude Bytes FileTypes Disk Fat32 Fat32Files.

Section table.
Context (d : gmap Z Z).

(** The entry of cluster [c] in the table on the drive. *)
Definition fat_entry (f : FAT32) (c : Z) : Z :=
  entry_value (le_val (read_at d (offsetFats f * SECTOR_SIZE + c * 4) 4)).

(** The cached sectors are those of the drive. *)
Record fat_ok (f : FAT32) : Prop := {
  fo_spc : 0 < sectors_per_cluster (bootsec f) < 256;
  fo_fats : 0 <= offsetFats f < 2 ^ 31;
  fo_clusters : 0 <= offsetClusters f < 2 ^ 32;
  fo_cache : length (cache f) = 32%nat;
  fo_base : length (cacheBase f) = 32%nat;
  fo_curr : 0 <= cacheCurr f <= 32;
  fo_buffers : forall i buf, cache f !! i = Some buf -> zlen buf = bytesPerCluster f;
  fo_coherent : forall i b buf, cacheBase f !! i = Some b -> cache f !! i = Some buf -> b <> FAT32_CACHE_BAD ->
    slice 0 SECTOR_SIZE buf = get_disk_bytes (Some d) b 1;
}.

(** Only the cache differs. *)
Definition same_fat (f f' : FAT32) : Prop := exists c b n, f' = set_cache c b n f.

Lemma same_fat_refl f : same_fat f f.
Proof. exists (cache f), (cacheBase f), (cacheCurr f). by destruct f. Qed.

Lemma same_fat_trans f g h : same_fat f g -> same_fat g h -> same_fat f h.
Proof. intros (c & b & n & ->) (c' & b' & n' & ->). by exists c', b', n'. Qed.

Lemma same_fat_entry f g c : same_fat f g -> fat_entry g c = fat_entry f c.
Proof. by intros (? & ? & ? & ->). Qed.

Lemma entry_value_bound raw : 0 <= entry_value raw < 2 ^ 28.
Proof.
  unfold entry_value. change 0x0FFFFFFF with (Z.ones 28). rewrite Z.land_ones by lia.
  pose proof (Z.mod_pos_bound raw (2 ^ 28) ltac:(lia)). repeat case_match; lia.
Qed.

Lemma cache_search_spec bases : forall i offset,
  (cache_search bases i offset = FAT32_CACHE_BAD /\ offset ∉ bases) \/
  (exists k, cache_search bases i offset = i + Z.of_nat k /\ bases !! k = Some offset).
Proof.
  induction bases as [|b bases IH]; intros i offset; cbn [cache_search].
  - left. split; [done|]. apply not_elem_of_nil.
  - destruct (Z.eqb_spec b offset) as [->|Hne].
    + right. exists 0%nat. split; [lia|done].
    + destruct (IH (i + 1) offset) as [[E H]|(k & E & H)].
      * left. split; [done|]. rewrite not_elem_of_cons. done.
      * right. exists (S k). split; [lia|done].
Qed.

Lemma disk_sector lba : 0 <= lba < 2 ^ 32 -> get_disk_bytes (Some d) lba 1 = read_at d (lba * SECTOR_SIZE) SECTOR_SIZE.
Proof.
  intros H. rewrite get_disk_bytes_present; rewrite ?u32_small by lia; [|lia..]. unfold disk_read. f_equal.
Qed.

Lemma fat32_FAT_cache_add_ok f offset bytes : fat_ok f -> zlen bytes = SECTOR_SIZE ->
  bytes = get_disk_bytes (Some d) offset 1 ->
  exists f', fat32_FAT_cache_add offset bytes f = Ok (tt, f') /\ fat_ok f' /\ same_fat f f'.
Proof.
  intros [H1 H2 H3 H4 H5 H6 H7 H8] Hl Hb. unfold fat32_FAT_cache_add. erewrite bind_ok by done.
  set (curr := if FAT32_CACHE_MAX <=? cacheCurr f then 0 else cacheCurr f).
  assert (Hc : 0 <= curr < 32) by (unfold curr, FAT32_CACHE_MAX; destruct (Z.leb_spec 32 (cacheCurr f)); lia).
  destruct (cache f !! Z.to_nat curr) as [buf|] eqn:E; [|apply lookup_ge_None in E; lia].
  erewrite bind_ok by done. pose proof (H7 _ _ E) as Hz. unfold bytesPerCluster, SECTOR_SIZE in *.
  rewrite store_ok by lia. erewrite bind_ok by done. eexists. split; [done|]. split; [|by eexists _, _, _].
  split; cbn [set_cache bootsec offsetFats offsetClusters cache cacheBase cacheCurr]; try done.
  - by rewrite length_insert.
  - by rewrite length_insert.
  - lia.
  - intros i b [(<- & <- & _)|[_ Hi]]%list_lookup_insert_Some; [rewrite zlen_patch; exact Hz|exact (H7 i b Hi)].
  - intros i b bf. rewrite !list_lookup_insert_Some.
    intros [(<- & <- & _)|[Hne Hi]] [(Heq & <- & _)|[Hne' Hi']] Hbad; try done; [|exact (H8 i b bf Hi Hi' Hbad)].
    change SECTOR_SIZE with 512. rewrite <- Hl, slice_patch_same by lia. done.
Qed.

Lemma fat32_FAT_fetch_ok f sector : fat_ok f -> 0 <= sector < FAT32_CACHE_BAD ->
  exists f', fat32_FAT_fetch (Some d) sector f = Ok (read_at d (sector * SECTOR_SIZE) SECTOR_SIZE, f') /\
    fat_ok f' /\ same_fat f f'.
Proof.
  intros H Hs. unfold fat32_FAT_fetch. erewrite bind_ok by done. unfold fat32_FAT_cache_lookup.
  unfold FAT32_CACHE_BAD in *. rewrite <- (disk_sector sector) by lia.
  destruct (cache_search_spec (cacheBase f) 0 sector) as [[E Hn]|(k & E & Hk)]; rewrite E.
  - change (negb (FAT32_CACHE_BAD =? 4294967295)) with false. cbv iota.
    destruct (fat32_FAT_cache_add_ok f sector (get_disk_bytes (Some d) sector 1) H) as (f' & E' & H' & S').
    + rewrite disk_sector by lia. by rewrite zlen_read_at by (unfold SECTOR_SIZE; lia).
    + done.
    + exists f'. by mrw E'.
  - pose proof (lookup_lt_Some _ _ _ Hk) as Hlt. rewrite (fo_base _ H) in Hlt.
    rewrite (proj2 (Z.eqb_neq _ _)) by lia. cbn [negb]. rewrite Z.add_0_l, Nat2Z.id.
    destruct (cache f !! k) as [buf|] eqn:Eb; [|apply lookup_ge_None in Eb; rewrite (fo_cache _ H) in Eb; lia].
    erewrite bind_ok by done. pose proof (fo_buffers _ H _ _ Eb) as Hz. pose proof (fo_spc _ H) as Hspc.
    unfold bytesPerCluster, SECTOR_SIZE in Hz. rewrite load_ok by (unfold SECTOR_SIZE; lia).
    exists f. split; [|split; [done|apply same_fat_refl]]. cbn. rewrite (fo_coherent _ H _ _ _ Hk Eb); [done|].
    unfold FAT32_CACHE_BAD. lia.
Qed.

Lemma fat32_FAT_traverse_ok f c : fat_ok f -> 0 <= c < 2 ^ 30 ->
  exists f', fat32_FAT_traverse (Some d) c f = Ok (fat_entry f c, f') /\ fat_ok f' /\ same_fat f f'.
Proof.
  intros H Hc. pose proof (fo_fats _ H) as Hf. unfold fat32_FAT_traverse. erewrite bind_ok by done.
  unfold SECTOR_SIZE. rewrite (u32_small (c * 4)) by lia.
  pose proof (Z.div_mod (c * 4) 512 ltac:(lia)) as Hdm. pose proof (Z.mod_pos_bound (c * 4) 512 ltac:(lia)) as Hm.
  assert (Hm4 : c * 4 mod 512 + 4 <= 512) by (Z.to_euclidean_division_equations; lia).
  rewrite (u32_small (offsetFats f + _)) by lia.
  destruct (fat32_FAT_fetch_ok f (offsetFats f + c * 4 / 512) H) as (f' & E & H' & S').
  { unfold FAT32_CACHE_BAD. lia. }
  mrw E. unfold load_le. rewrite load_ok; [|lia|lia|rewrite zlen_read_at; unfold SECTOR_SIZE; lia].
  exists f'. split; [|done]. erewrite bind_ok by done. unfold SECTOR_SIZE. rewrite slice_read_at by lia.
  unfold ret, fat_entry, SECTOR_SIZE. do 5 f_equal. lia.
Qed.

(** ** Chains *)

(** The clusters of a file in order: each names the next, the last none. *)
Fixpoint linked (f : FAT32) (cs : list Z) : Prop :=
  match cs with
  | [] => True
  | c :: cs => 2 <= c < 2 ^ 28 /\ fat_entry f c = default 0 (head cs) /\ linked f cs
  end.

Lemma same_fat_linked f g cs : same_fat f g -> linked f cs -> linked g cs.
Proof.
  intros S. induction cs as [|c cs IH]; [done|]. cbn. intros (H1 & H2 & H3). rewrite (same_fat_entry f g c S). auto.
Qed.

Lemma linked_drop f k : forall cs, linked f cs -> linked f (drop k cs).
Proof. induction k as [|k IH]; intros [|c cs]; cbn [drop]; try done. intros (_ & _ & H). by apply IH. Qed.

Lemma linked_range f cs i c : linked f cs -> cs !! i = Some c -> 2 <= c < 2 ^ 28.
Proof.
  revert i. induction cs as [|c' cs IH]; intros i H Hi; [done|]. destruct H as (H1 & _ & H2).
  destruct i as [|i]; [by injection Hi as <-|by apply (IH i)].
Qed.

(** What [fat32_FAT_chain] finds behind a cluster. *)
Lemma chain_loop_ok n : forall f c cs, fat_ok f -> 0 <= c < 2 ^ 28 ->
  (cs <> [] -> linked f cs /\ head cs = Some c) ->
  exists l f', chain_loop (Some d) n c f = Ok (l, f') /\ fat_ok f' /\ same_fat f f' /\ length l = n /\
    forall i, (i < n)%nat -> (S i <= length cs)%nat -> l !! i = Some (default 0 (cs !! S i)).
Proof.
  induction n as [|n IH]; intros f c cs H Hc Hcs.
  - exists [], f. split_and!; [done|done|apply same_fat_refl|done|lia].
  - cbn [chain_loop]. destruct (fat32_FAT_traverse_ok f c H ltac:(lia)) as (f1 & E1 & H1 & S1). mrw E1.
    pose proof (entry_value_bound (le_val (read_at d (offsetFats f * SECTOR_SIZE + c * 4) 4))) as Hb.
    fold (fat_entry f c) in Hb.
    destruct (IH f1 (fat_entry f c) (tail cs) H1 Hb) as (l & f2 & E2 & H2 & S2 & L2 & HL).
    { intros Hne. destruct cs as [|c0 [|c1 cs]]; [done|done|]. destruct (Hcs ltac:(done)) as [(_ & Hent & Hl) Hh].
      injection Hh as ->. split; [by apply (same_fat_linked f f1)|]. by rewrite Hent. }
    mrw E2. eexists _, f2. split; [done|]. split; [done|]. split; [by eapply same_fat_trans|]. split; [cbn; lia|].
    intros i Hi Hlen. destruct cs as [|c0 cs]; [cbn in Hlen; lia|].
    destruct (Hcs ltac:(done)) as [(_ & Hent & Hl) Hh]. injection Hh as ->. destruct i as [|i].
    + cbn [lookup list_lookup]. rewrite Hent. by destruct cs.
    + cbn [lookup list_lookup]. cbn [tail] in HL. rewrite HL; [done|lia|cbn in Hlen; lia].
Qed.

Lemma fat32_FAT_chain_ok f c cs amount : fat_ok f -> 0 <= amount < 2 ^ 31 -> c = default 0 (head cs) -> linked f cs ->
  exists l f', fat32_FAT_chain (Some d) c amount f = Ok (l, f') /\ fat_ok f' /\ same_fat f f' /\
    length l = S (Z.to_nat amount) /\
    forall i, (i <= Z.to_nat amount)%nat -> (i <= length cs)%nat -> l !! i = Some (default 0 (cs !! i)).
Proof.
  intros H Ha Hc Hl. unfold fat32_FAT_chain. rewrite u32_small by lia. rewrite (proj2 (Z.eqb_neq (amount + 1) 0)) by lia.
  replace (amount + 1 - 1) with amount by lia.
  assert (Hcb : 0 <= c < 2 ^ 28).
  { subst c. destruct cs as [|c cs]; [cbn; lia|]. destruct Hl as (Hr & _). cbn. lia. }
  destruct (chain_loop_ok (Z.to_nat amount) f c cs H Hcb) as (l & f' & E & H' & S' & L & HL).
  { intros Hne. split; [done|]. subst c. by destruct cs. }
  mrw E. eexists _, f'. split; [done|]. split; [done|]. split; [done|]. split; [cbn; lia|].
  intros [|i] Hi Hlen; cbn [lookup list_lookup]; [subst c; by destruct cs|]. apply HL; lia.
Qed.

(** ** The data of clusters *)

(** Cluster [c] lies on the part of the drive that sector numbers reach. *)
Definition on_drive (f : FAT32) (c : Z) : Prop :=
  2 <= c /\ offsetClusters f + (c - 1) * sectors_per_cluster (bootsec f) <= 2 ^ 32.

Definition cluster_bytes (f : FAT32) (c : Z) : list Z :=
  read_at d ((offsetClusters f + (c - 2) * sectors_per_cluster (bootsec f)) * SECTOR_SIZE) (bytesPerCluster f).

Lemma zlen_cluster f c : fat_ok f -> zlen (cluster_bytes f c) = bytesPerCluster f.
Proof. intros H. pose proof (fo_spc _ H). apply zlen_read_at. unfold bytesPerCluster, SECTOR_SIZE. lia. Qed.

Lemma clusters_read_at f c (n : nat) : fat_ok f ->
  read_at d ((offsetClusters f + (c - 2) * sectors_per_cluster (bootsec f)) * SECTOR_SIZE) (Z.of_nat n * bytesPerCluster f) =
  mjoin (cluster_bytes f <$> seqZ c (Z.of_nat n)).
Proof.
  intros H. pose proof (fo_spc _ H) as Hspc. revert c. induction n as [|n IH]; intros c; [done|].
  rewrite seqZ_cons by lia. cbn [fmap list_fmap mjoin list_join]. replace (Z.pred (Z.of_nat (S n))) with (Z.of_nat n) by lia.
  rewrite <- IH. unfold cluster_bytes, bytesPerCluster, SECTOR_SIZE.
  replace (Z.of_nat (S n) * (sectors_per_cluster (bootsec f) * 512))
    with (sectors_per_cluster (bootsec f) * 512 + Z.of_nat n * (sectors_per_cluster (bootsec f) * 512)) by lia.
  rewrite read_at_app by lia. do 2 f_equal. lia.
Qed.

(** A transfer of [n] clusters that follow each other on the drive. *)
Lemma read_cluster_ok f c (n : nat) : fat_ok f -> (0 < n)%nat -> 2 <= c < 2 ^ 28 -> on_drive f (c + Z.of_nat n - 1) ->
  read_cluster (Some d) f c (Z.of_nat n * sectors_per_cluster (bootsec f)) =
  mjoin (cluster_bytes f <$> seqZ c (Z.of_nat n)).
Proof.
  intros H Hn0 Hc [_ Hon]. pose proof (fo_spc _ H) as Hspc. pose proof (fo_clusters _ H) as Hcl.
  rewrite <- clusters_read_at by done. unfold read_cluster, fat32_cluster_to_LBA, bytesPerCluster.
  set (spc := sectors_per_cluster (bootsec f)) in *.
  assert (Hmul : 0 <= (c - 2) * spc) by nia. assert (Hn : spc <= Z.of_nat n * spc) by nia.
  assert (Hsum : offsetClusters f + (c - 2) * spc + Z.of_nat n * spc <= 2 ^ 32) by nia.
  rewrite (u32_small (c - 2)), (u32_small (_ * spc)), u64_small by lia.
  rewrite get_disk_bytes_present; rewrite ?u32_small by lia; [|lia..]. unfold disk_read, SECTOR_SIZE. f_equal. lia.
Qed.

End table.
