(* ===== verification/Fat32Read.v ===== *)
(** * FAT32: reading files

    [fat32_read] copies cluster by cluster, runs of neighbouring clusters in one
    transfer.  The lemmas follow its loop over the chain: the bytes stored are those
    of the file, and the buffer of a run is freed twice exactly when the read ends
    inside the run. *)

From S2P Require Import Prelude Bytes FileTypes Disk Fat32 Fat32Files Fat32Table.

(** ** Blocks of equal length *)

Lemma slice_mjoin (K : Z) (bs : list (list Z)) : 0 <= K -> Forall (fun b => zlen b = K) bs ->
  forall k n : nat, (k + n <= length bs)%nat ->
  slice (Z.of_nat k * K) (Z.of_nat n * K) (mjoin bs) = mjoin (take n (drop k bs)).
Proof.
  intros HK. induction 1 as [|b bs Hb Hbs IH]; intros k n Hkn.
  { cbn in Hkn. assert (k = 0%nat /\ n = 0%nat) as [-> ->] by lia. done. }
  change (mjoin (b :: bs)) with (b ++ mjoin bs). cbn [length] in Hkn. destruct k as [|k].
  - rewrite drop_0. destruct n as [|n]; [done|]. cbn [take]. change (mjoin (b :: take n bs)) with (b ++ mjoin (take n bs)).
    replace (Z.of_nat (S n) * K) with (K + Z.of_nat n * K) by lia.
    rewrite (slice_split 0 K) by lia. f_equal.
    + rewrite slice_app_l, <- Hb, slice_full by lia. done.
    + rewrite slice_app_r by lia. rewrite Hb. replace (0 + K - K) with (Z.of_nat 0 * K) by lia.
      replace (K + Z.of_nat n * K - K) with (Z.of_nat n * K) by lia. rewrite IH by lia. done.
  - cbn [drop]. rewrite slice_app_r by lia. rewrite Hb.
    replace (Z.of_nat (S k) * K - K) with (Z.of_nat k * K) by lia. apply IH. lia.
Qed.

Lemma zlen_mjoin (K : Z) (bs : list (list Z)) : Forall (fun b => zlen b = K) bs -> zlen (mjoin bs) = zlen bs * K.
Proof.
  induction 1 as [|b bs Hb Hbs IH]; [done|].
  change (mjoin (b :: bs)) with (b ++ mjoin bs). rewrite zlen_app, IH, Hb. unfold zlen. cbn [length]. lia.
Qed.

(** ** The copy loop *)

Section copy.
Context (limit size p0 : Z) (Hlimit : 0 <= limit < 2 ^ 30) (Hp0 : 0 <= p0 <= size) (Hsize : size < 2 ^ 32).

(** Where the copying ends. *)
Definition stop : Z := Z.min (p0 + limit) size.

Lemma copy_loop_ok bs : forall p out, p0 <= p <= stop ->
  copy_loop bs limit size p (p - p0) out =
    if stop - p <? zlen bs then (stop, stop - p0, out ++ take (Z.to_nat (stop - p)) bs, true)
    else (p + zlen bs, p + zlen bs - p0, out ++ bs, false).
Proof using Hlimit Hp0 Hsize.
  unfold stop. induction bs as [|b bs IH]; intros p out Hp; cbn [copy_loop].
  - change (zlen []) with 0. rewrite (proj2 (Z.ltb_ge _ _)) by lia. by rewrite app_nil_r, Z.add_0_r.
  - rewrite u64_small by lia. replace (zlen (b :: bs)) with (zlen bs + 1) by (unfold zlen; cbn [length]; lia).
    pose proof (zlen_nonneg bs). destruct (decide (p = Z.min (p0 + limit) size)) as [Ep|Hne].
    + replace ((limit <=? p - p0) || (size <=? p)) with true by (destruct (Z.leb_spec limit (p - p0)), (Z.leb_spec size p); lia).
      rewrite (proj2 (Z.ltb_lt _ _)) by lia. replace (Z.to_nat _) with 0%nat by lia. rewrite take_0, app_nil_r.
      by rewrite <- Ep.
    + rewrite (proj2 (Z.leb_gt limit (p - p0))), (proj2 (Z.leb_gt size p)) by lia. cbn [orb].
      rewrite u32_small, s32_small by lia. replace (p - p0 + 1) with (p + 1 - p0) by lia. rewrite IH by lia.
      destruct (Z.ltb_spec (Z.min (p0 + limit) size - p) (zlen bs + 1)).
      * rewrite (proj2 (Z.ltb_lt _ _)) by lia. replace (Z.to_nat (_ - p)) with (S (Z.to_nat (Z.min (p0 + limit) size - (p + 1)))) by lia.
        cbn [take]. rewrite <- app_assoc. done.
      * rewrite (proj2 (Z.ltb_ge _ _)) by lia. rewrite <- app_assoc.
        by replace (p + (zlen bs + 1)) with (p + 1 + zlen bs) by lia.
Qed.

End copy.

(** ** The loop over the clusters *)

Section loop.
Context (d : gmap Z Z) (f : FAT32) (ws lookup : list Z) (beyond needed limit size B p0 : Z).
#[local] Abbreviation bpc := (bytesPerCluster f).
#[local] Abbreviation q := (stop limit size p0).

(** The data of the clusters from the current one on. *)
Definition window : list Z := mjoin (cluster_bytes d f <$> ws).

Record setting : Prop := {
  se_fat : fat_ok d f;
  se_linked : linked d f ws;
  se_drive : Forall (on_drive f) ws;
  se_limit : 0 <= limit < 2 ^ 30;
  se_needed : (needed - 1) * bpc < limit <= needed * bpc;
  se_base : 0 <= B /\ B mod bpc = 0;
  se_ptr : B <= p0 < B + bpc;
  se_size : p0 <= size < 2 ^ 32;
  se_last : B + (zlen ws - 1) * bpc < size <= B + zlen ws * bpc;
  se_len : length lookup = S (Z.to_nat needed);
  se_lookup : forall i, (i <= Z.to_nat needed)%nat -> (i <= length ws)%nat -> lookup !! i = Some (default 0 (ws !! i));
  se_beyond : forall c, ws !! Z.to_nat needed = Some c -> beyond <> c + 1;
}.

Context (St : setting).

Lemma bpc_pos : 0 < bpc < 2 ^ 17.
Proof using St. pose proof (fo_spc _ _ (se_fat St)). unfold bytesPerCluster, SECTOR_SIZE. lia. Qed.

Lemma needed_pos : 0 <= needed < 2 ^ 30.
Proof using St. pose proof bpc_pos. pose proof (se_needed St). pose proof (se_limit St). nia. Qed.

Lemma blocks_ok : Forall (fun b => zlen b = bpc) (cluster_bytes d f <$> ws).
Proof using St. apply Forall_fmap, Forall_true. intros c. by apply zlen_cluster, St. Qed.

Lemma zlen_window : zlen window = zlen ws * bpc.
Proof using St. unfold window. rewrite (zlen_mjoin bpc) by apply blocks_ok. unfold zlen. by rewrite length_fmap. Qed.

(** Indices [k] to [i] of the window hold neighbouring clusters. *)
Definition neighbours (k i : nat) : Prop :=
  forall j c, (k <= j < i)%nat -> ws !! j = Some c -> ws !! (j + 1)%nat = Some (c + 1).

Lemma neighbours_seqZ k n c : neighbours k (k + n) -> (k + n < length ws)%nat -> ws !! k = Some c ->
  take (n + 1) (drop k ws) = seqZ c (Z.of_nat (n + 1)).
Proof.
  revert k c. induction n as [|n IH]; intros k c Hn Hlen Hk.
  - rewrite (drop_S _ _ _ Hk). cbn [Nat.add take]. rewrite take_0, seqZ_cons by lia. done.
  - rewrite (drop_S _ _ _ Hk). cbn [Nat.add take]. rewrite seqZ_cons by lia. f_equal.
    replace (Z.pred (Z.of_nat (S (n + 1)))) with (Z.of_nat (n + 1)) by lia.
    replace (S k) with (k + 1)%nat by lia. apply IH.
    + intros j c' Hj. apply Hn. lia.
    + lia.
    + replace (Z.succ c) with (c + 1) by lia. apply Hn; [lia|done].
Qed.

(** The buffer of a run. *)
Lemma run_data k n c : neighbours k (k + n) -> (k + n < length ws)%nat -> ws !! k = Some c ->
  read_cluster (Some d) f c (Z.of_nat (n + 1) * sectors_per_cluster (bootsec f)) =
  slice (Z.of_nat k * bpc) (Z.of_nat (n + 1) * bpc) window.
Proof using St.
  intros Hn Hlen Hk. pose proof bpc_pos. pose proof (neighbours_seqZ k n c Hn Hlen Hk) as E.
  rewrite read_cluster_ok.
  - unfold window. rewrite slice_mjoin by (apply blocks_ok || (rewrite ?length_fmap; lia)).
    by rewrite <- E, fmap_take, fmap_drop.
  - apply St.
  - lia.
  - by apply (linked_range d f ws k), Hk; apply St.
  - destruct (ws !! (k + n)%nat) as [c'|] eqn:E'; [|apply lookup_ge_None in E'; lia].
    assert (c' = c + Z.of_nat n) as ->.
    { assert (E2 : take (n + 1) (drop k ws) !! n = Some c') by (rewrite lookup_take_lt, lookup_drop by lia; done).
      rewrite E, lookup_seqZ in E2. lia. }
    replace (c + Z.of_nat (n + 1) - 1) with (c + Z.of_nat n) by lia.
    by apply (Forall_lookup_1 _ _ _ _ (se_drive St) E').
Qed.

(** The copying has reached a position in cluster [k]. *)
Record at_cluster (k : nat) (r : reading) : Prop := {
  ac_curr : r_curr r = r_ptr r - p0;
  ac_out : r_out r = slice (p0 - B) (r_ptr r - p0) window;
  ac_ptr : p0 <= r_ptr r <= q;
  ac_in : B + Z.of_nat k * bpc <= r_ptr r < B + (Z.of_nat k + 1) * bpc;
}.

Lemma stop_bound : q <= B + zlen ws * bpc.
Proof using St. pose proof (se_last St). unfold stop. lia. Qed.

(** Copying the clusters [k] to [k + n]. *)
Lemma copy_run k n c r : neighbours k (k + n) -> (k + n < length ws)%nat -> ws !! k = Some c -> at_cluster k r ->
  copy_loop (drop (Z.to_nat (r_ptr r mod bpc)) (read_cluster (Some d) f c (Z.of_nat (n + 1) * sectors_per_cluster (bootsec f))))
    limit size (r_ptr r) (r_curr r) (r_out r) =
  let e := B + (Z.of_nat (k + n) + 1) * bpc in
  if q <? e then (q, q - p0, slice (p0 - B) (q - p0) window, true)
  else (e, e - p0, slice (p0 - B) (e - p0) window, false).
Proof using St.
  intros Hn Hlen Hk [C1 C2 C3 C4]. pose proof bpc_pos as Hb. pose proof (se_base St) as [HB1 HB2].
  rewrite (run_data k n c) by done. rewrite C1, C2.
  assert (Hmod : r_ptr r mod bpc = r_ptr r - B - Z.of_nat k * bpc).
  { symmetry. apply (Z.mod_unique_pos _ _ (B / bpc + Z.of_nat k)); [lia|].
    pose proof (Z.div_mod B bpc ltac:(lia)). lia. }
  set (x := r_ptr r) in *. set (e := B + (Z.of_nat (k + n) + 1) * bpc).
  pose proof zlen_window as HW. assert (HL : Z.of_nat (k + n) + 1 <= zlen ws) by (unfold zlen; lia).
  assert (HeW : e - B <= zlen window) by (unfold e; nia).
  assert (Erest : drop (Z.to_nat (x mod bpc)) (slice (Z.of_nat k * bpc) (Z.of_nat (n + 1) * bpc) window) = slice (x - B) (e - x) window).
  { unfold slice at 1. rewrite skipn_firstn_comm, drop_drop. unfold slice. f_equal; [unfold e; lia|]. f_equal. lia. }
  rewrite Erest. rewrite copy_loop_ok; [|apply St|split; [pose proof (se_ptr St); lia|apply St]|apply St|done].
  rewrite zlen_slice by lia. change (let e0 := e in ?P) with P. cbv zeta.
  pose proof (se_ptr St) as HP.
  destruct (Z.ltb_spec (q - x) (e - x)), (Z.ltb_spec q e); try lia.
  - repeat f_equal. unfold slice at 2. rewrite take_take. replace (Z.to_nat (q - x) `min` Z.to_nat (e - x))%nat with (Z.to_nat (q - x)) by lia.
    fold (slice (x - B) (q - x) window). rewrite (slice_split (p0 - B) (x - p0) (q - p0)) by lia.
    do 2 f_equal; lia.
  - replace (x + (e - x)) with e by lia. repeat f_equal. rewrite (slice_split (p0 - B) (x - p0) (e - p0)) by lia.
    do 2 f_equal; lia.
Qed.

(** The read ends inside a run: its last cluster follows the one before it, and the
    run is not cut off by the number of clusters looked up. *)
Definition stops_in_run : Prop :=
  exists e c, (1 <= e)%nat /\ Z.of_nat e < needed /\ B + Z.of_nat e * bpc <= q < B + (Z.of_nat e + 1) * bpc /\
    ws !! e = Some c /\ ws !! (e - 1)%nat = Some (c - 1).

Record finished (r : reading) : Prop := {
  fi_ptr : r_ptr r = q;
  fi_curr : r_curr r = q - p0;
  fi_out : r_out r = slice (p0 - B) (q - p0) window;
  fi_cluster : exists j, ws !! j = Some (r_cluster r) /\ B + Z.of_nat j * bpc <= q /\
    (q < B + (Z.of_nat j + 1) * bpc \/ (S j = length ws /\ q = B + zlen ws * bpc));
}.

Definition good (o : outcome reading) : Prop :=
  (o = Fault /\ stops_in_run) \/ (exists r, o = Ok r /\ finished r /\ ~ stops_in_run).

(** Cluster [k] does not continue the one before it, as far as the loop looks. *)
Definition fresh_start (k : nat) : Prop :=
  k = 0%nat \/ Z.of_nat k = needed \/ forall c, ws !! k = Some c -> ws !! (k - 1)%nat <> Some (c - 1).

Lemma lookup_at (i : nat) : Z.of_nat i <= needed -> (i <= length ws)%nat ->
  default beyond (lookup !! Z.to_nat (Z.of_nat i)) = default 0 (ws !! i).
Proof using St. intros Hi Hl. rewrite Nat2Z.id, (se_lookup St) by lia. done. Qed.

(** What the code compares with the next cluster. *)
Lemma next_at (i : nat) c : Z.of_nat i <= needed -> ws !! i = Some c -> Z.of_nat i <> needed - 1 ->
  default beyond (lookup !! Z.to_nat (Z.of_nat i + 1)) = u32 (c + 1) <->
  Z.of_nat i + 1 < needed /\ ws !! (i + 1)%nat = Some (c + 1).
Proof using St.
  intros Hi Hc Hl. pose proof (lookup_lt_Some _ _ _ Hc) as Hlt.
  pose proof (linked_range d f ws i c (se_linked St) Hc) as Hr. rewrite u32_small by lia.
  destruct (decide (Z.of_nat i = needed)) as [E|Hne].
  - rewrite lookup_ge_None_2 by (rewrite (se_len St); lia). cbn. split; [|lia].
    intros Hb. exfalso. apply (se_beyond St c); [|done]. by rewrite <- E, Nat2Z.id.
  - replace (Z.of_nat i + 1) with (Z.of_nat (i + 1)) by lia. rewrite lookup_at by lia. split.
    + intros Hd. split; [lia|]. destruct (ws !! (i + 1)%nat); cbn in Hd; [by f_equal|lia].
    + intros [_ ->]. done.
Qed.

Lemma last_reached (i : nat) : Z.of_nat i < needed -> (i < length ws)%nat -> B + Z.of_nat i * bpc <= q.
Proof using St.
  intros Hi Hl. pose proof (bpc_pos) as Hb. pose proof (se_needed St). pose proof (se_last St). pose proof (se_ptr St).
  assert (Z.of_nat i <= zlen ws - 1) by (unfold zlen; lia). unfold stop. apply Z.min_glb; nia.
Qed.

Lemma stop_before : q < B + (needed + 1) * bpc.
Proof using St. pose proof bpc_pos. pose proof (se_needed St). pose proof (se_ptr St). unfold stop. nia. Qed.

(** Positions determine clusters. *)
Lemma same_cluster (a b : nat) x : B + Z.of_nat a * bpc <= x < B + (Z.of_nat a + 1) * bpc ->
  B + Z.of_nat b * bpc <= x < B + (Z.of_nat b + 1) * bpc -> a = b.
Proof using St. pose proof bpc_pos. intros. nia. Qed.

Lemma loop_end i r : at_cluster i r -> i = length ws -> ws <> [] -> ws !! (i - 1)%nat = Some (r_cluster r) ->
  finished r /\ ~ stops_in_run.
Proof using St.
  intros [C1 C2 C3 C4] -> Hne Hw. pose proof stop_bound as Hs. pose proof bpc_pos.
  assert (Eq : r_ptr r = q) by (unfold zlen in Hs; lia). assert (Eq2 : q = B + zlen ws * bpc) by (unfold zlen in *; lia).
  assert (length ws <> 0%nat) by (by destruct ws). split.
  - split; [done|lia|by rewrite C2, Eq|]. exists (length ws - 1)%nat. split; [done|]. unfold zlen in *. split; [nia|]. right. lia.
  - intros (e & c & _ & _ & [_ He] & Hc & _). apply lookup_lt_Some in Hc. unfold zlen in *. nia.
Qed.

Lemma loop_done i c : ws !! i = Some c -> fresh_start i -> q < B + (Z.of_nat i + 1) * bpc ->
  B + Z.of_nat i * bpc <= q ->
  good (Ok (mkReading q c (q - p0) (slice (p0 - B) (q - p0) window) (-1))).
Proof using St.
  intros Hc Hf Hq Hq2. right. eexists. split; [done|]. split.
  - split; [done..|]. exists i. cbn [r_cluster]. split; [done|]. split; [done|]. by left.
  - intros (e & c' & H1 & H2 & H3 & H4 & H5). assert (e = i) as -> by (eapply same_cluster; [exact H3|lia]).
    rewrite Hc in H4. injection H4 as <-. destruct Hf as [->|[Hf|Hf]]; [lia|lia|]. by apply (Hf c).
Qed.

Lemma read_clusters_ok n : forall (i : nat) r, Z.of_nat i + Z.of_nat n = needed + 1 -> ws <> [] ->
  (r_start r = -1 -> at_cluster i r -> (i <= length ws)%nat -> fresh_start i ->
     i = 0%nat \/ ws !! (i - 1)%nat = Some (r_cluster r) ->
     good (read_clusters (Some d) f lookup beyond needed limit size (seqZ (Z.of_nat i) (Z.of_nat n)) r)) /\
  (forall k, r_start r = Z.of_nat k -> (k < i)%nat -> at_cluster k r -> neighbours k i -> (i < length ws)%nat ->
     Z.of_nat i < needed -> good (read_clusters (Some d) f lookup beyond needed limit size (seqZ (Z.of_nat i) (Z.of_nat n)) r)).
Proof using St.
  pose proof bpc_pos as Hb. pose proof stop_before as Hq. pose proof (se_ptr St) as HP.
  induction n as [|n IH]; intros i r Hin Hne.
  { split; [|intros k; lia]. intros _ [_ _ C3 C4]. exfalso. assert (Z.of_nat i = needed + 1) by lia. nia. }
  assert (Hseq : seqZ (Z.of_nat i) (Z.of_nat (S n)) = Z.of_nat i :: seqZ (Z.of_nat (i + 1)) (Z.of_nat n)).
  { rewrite seqZ_cons by lia. f_equal. f_equal; lia. }
  rewrite Hseq. cbn [read_clusters]. set (rest := seqZ (Z.of_nat (i + 1)) (Z.of_nat n)).
  pose proof (fun r0 => IH (i + 1)%nat r0 ltac:(lia) Hne) as IH'. clear IH.
  split.
  - intros Hs HA Hlen Hf Hcl. rewrite lookup_at by lia. destruct (decide (i = length ws)) as [Ei|Hlt].
    { rewrite (lookup_ge_None_2 ws i) by lia. cbn [from_option id Z.eqb]. right. exists r.
      destruct Hcl as [->|Hcl]; [destruct ws; [done|cbn in Ei; lia]|]. split; [done|]. by apply (loop_end i). }
    destruct (ws !! i) as [c|] eqn:Ec; [|apply lookup_ge_None in Ec; lia]. cbn [from_option id].
    pose proof (linked_range d f ws i c (se_linked St) Ec) as Hcr. rewrite (proj2 (Z.eqb_neq c 0)) by lia.
    rewrite Hs. cbn [r_start r_ptr r_curr r_out]. change (-1 <? 0) with true. cbv iota.
    destruct (negb (Z.of_nat i =? needed - 1) && _) eqn:Ego.
    + apply andb_true_iff in Ego as [E1 E2]. apply negb_true_iff, Z.eqb_neq in E1. apply Z.eqb_eq, next_at in E2 as [E2 E3]; [|lia|done|done].
      destruct HA as [C1 C2 C3 C4]. apply (proj2 (IH' _) i); [done|lia|by split| |apply lookup_lt_Some in E3; lia|lia].
      intros j c' Hj Hc'. assert (j = i) as -> by lia. congruence.
    + pose proof (copy_run i 0 c r) as HC. cbn [Nat.add] in HC. rewrite Nat.add_0_r in HC.
      change (Z.of_nat 1 * sectors_per_cluster (bootsec f)) with (1 * sectors_per_cluster (bootsec f)) in HC. rewrite Z.mul_1_l in HC.
      rewrite HC; [|intros j c' Hj; lia|lia|done|done]. clear HC. cbv zeta. destruct HA as [C1 C2 C3 C4].
      destruct (Z.ltb_spec q (B + (Z.of_nat i + 1) * bpc)) as [Hd|Hd]; cbv iota.
      * apply (loop_done i c); [done|done|lia|lia].
      * assert (Hi : Z.of_nat i < needed) by nia. apply (proj1 (IH' _)); [done| |lia| |right; replace (i + 1 - 1)%nat with i by lia; done].
        -- split; cbn [r_curr r_ptr r_out]; [done|done|lia|lia].
        -- unfold fresh_start. destruct (decide (Z.of_nat i = needed - 1)) as [E|Hn]; [right; left; lia|]. right. right.
           intros c' Hc' Hp. replace (i + 1 - 1)%nat with i in Hp by lia. rewrite Ec in Hp. injection Hp as ->.
           apply andb_false_iff in Ego as [Ego|Ego]; [apply negb_false_iff, Z.eqb_eq in Ego; lia|].
           apply Z.eqb_neq in Ego. apply Ego, next_at; [lia|done|done|]. split; [lia|]. rewrite Hc'. f_equal. lia.
  - intros k Hs Hki HA Hnb Hlen Hi. rewrite lookup_at by lia.
    destruct (ws !! i) as [c|] eqn:Ec; [|apply lookup_ge_None in Ec; lia]. cbn [from_option id].
    pose proof (linked_range d f ws i c (se_linked St) Ec) as Hcr. rewrite (proj2 (Z.eqb_neq c 0)) by lia.
    rewrite Hs. cbn [r_start r_ptr r_curr r_out]. rewrite (proj2 (Z.ltb_ge (Z.of_nat k) 0)) by lia. cbv iota.
    destruct (_ || negb _) eqn:Ego.
    + destruct (ws !! k) as [c0|] eqn:Ek; [|apply lookup_ge_None in Ek; lia]. rewrite lookup_at, Ek by lia. cbn [from_option id].
      replace (Z.of_nat i - Z.of_nat k + 1) with (Z.of_nat (i - k + 1)) by lia.
      assert (0 <= Z.of_nat (i - k + 1) * bpc < 2 ^ 31) as Hsm.
      { pose proof (se_needed St). pose proof (se_limit St). assert (Z.of_nat (i - k + 1) <= needed) by lia. nia. }
      rewrite s32_small, Z.eqb_refl by lia. cbn [negb].
      pose proof (copy_run k (i - k) c0 r) as HC. replace (k + (i - k))%nat with i in HC by lia.
      rewrite HC; [|done|lia|done|done]. clear HC. cbv zeta. destruct HA as [C1 C2 C3 C4].
      destruct (Z.ltb_spec q (B + (Z.of_nat i + 1) * bpc)) as [Hd|Hd]; cbv iota.
      * left. split; [done|]. exists i, c. split; [lia|]. split; [done|]. split; [split; [by apply last_reached|lia]|].
        split; [done|]. destruct (ws !! (i - 1)%nat) as [cp|] eqn:Ep; [|apply lookup_ge_None in Ep; lia].
        specialize (Hnb (i - 1)%nat cp ltac:(lia) Ep). replace (i - 1 + 1)%nat with i in Hnb by lia.
        f_equal. rewrite Ec in Hnb. injection Hnb as ->. lia.
      * apply (proj1 (IH' _)); [done| |lia| |right; replace (i + 1 - 1)%nat with i by lia; done].
        -- split; cbn [r_curr r_ptr r_out]; [done|done|nia|lia].
        -- unfold fresh_start. destruct (decide (Z.of_nat i = needed - 1)) as [E|Hn]; [right; left; lia|]. right. right.
           intros c' Hc' Hp. replace (i + 1 - 1)%nat with i in Hp by lia. rewrite Ec in Hp. injection Hp as ->.
           apply orb_true_iff in Ego as [Ego|Ego]; [apply Z.eqb_eq in Ego; lia|].
           apply negb_true_iff, Z.eqb_neq in Ego. apply Ego, next_at; [lia|done|done|]. split; [lia|]. rewrite Hc'. f_equal. lia.
    + apply orb_false_iff in Ego as [E1 E2]. apply Z.eqb_neq in E1. apply negb_false_iff, Z.eqb_eq, next_at in E2 as [E2 E3]; [|lia|done|done].
      destruct HA as [C1 C2 C3 C4]. apply (proj2 (IH' _) k); [done|lia|by split| |apply lookup_lt_Some in E3; lia|lia].
      intros j c' Hj Hc'. destruct (decide (j = i)) as [->|Hji]; [congruence|]. apply Hnb; [lia|done].
Qed.

End loop.
