(* ===== verification/Fat32Dirs.v ===== *)
(** * FAT32: searching directories

    A directory is a sequence of items: entries with a long name (the records that
    carry the name, the last part first, and the entry itself), entries with a short
    name only, and entries to be skipped (free ones, the volume's label, "." and
    "..").  What the names are is read off the layout on the drive, not off the
    driver.  [fat32_traverse] returns the first item with the name searched for,
    however the records are spread over the clusters, for the names that
    [searchable] describes. *)

From S2P Require Import Prelude Bytes FileTypes Disk Fat32 Fat32Files Fat32Table Fat32Read.

(** ** Long names on the drive *)

(** Thirteen characters, [lo] and [hi] their two bytes. *)
Definition lfn_record (ord ck : Z) (lo hi : list Z) : list Z :=
  let pairs := mjoin (zip_with (fun a b => [a; b]) lo hi) in
  [ord] ++ take 10 pairs ++ [0x0F; 0; ck] ++ take 12 (drop 10 pairs) ++ [0; 0] ++ drop 22 pairs.

(** The name filled up with a terminator and [0xFFFF]. *)
Definition parts (n : list Z) : nat := Z.to_nat ((zlen n + 12) / 13).
Definition fill (n : list Z) (t p : Z) : list Z :=
  let k := (13 * parts n - length n)%nat in match k with O => [] | S k => t :: replicate k p end.
Definition padded (n : list Z) : list Z := n ++ fill n 0 0xFF.
Definition padded_hi (n : list Z) : list Z := replicate (length n) 0 ++ fill n 0 0xFF.

Definition part (l : list Z) (j : nat) : list Z := take 13 (drop (13 * j) l).

(** The record with the part [j] of a name. *)
Definition name_record (n : list Z) (ck : Z) (j : nat) : list Z :=
  lfn_record (Z.of_nat j + 1 + (if decide (S j = parts n) then LFN_ORDER_FINAL else 0)) ck
    (part (padded n) j) (part (padded_hi n) j).

(** Parts [j - 1] down to 0. *)
Fixpoint name_records (n : list Z) (ck : Z) (j : nat) : list (list Z) :=
  match j with
  | O => []
  | S j => name_record n ck j :: name_records n ck j
  end.

Lemma lfn_record_decode ord ck lo hi : length lo = 13%nat -> length hi = 13%nat ->
  order (decode_lfn (lfn_record ord ck lo hi)) = ord /\ attributes (decode_lfn (lfn_record ord ck lo hi)) = FAT_ATTRIB_LFN /\
  lfn_type (decode_lfn (lfn_record ord ck lo hi)) = 0 /\
  every_second (first_five (decode_lfn (lfn_record ord ck lo hi))) 5 ++ every_second (next_six (decode_lfn (lfn_record ord ck lo hi))) 6 ++
    every_second (last_two (decode_lfn (lfn_record ord ck lo hi))) 2 = lo.
Proof.
  intros Hlo Hhi. do 13 (destruct lo as [|? lo]; [done|]). destruct lo; [|done].
  do 13 (destruct hi as [|? hi]; [done|]). destruct hi; [|done].
  split_and!; try reflexivity. change (order _) with (le_val [ord]). unfold le_val. cbn. by rewrite Z.lor_0_r.
Qed.

Lemma parts_bound n : n <> [] -> (length n <= 13 * parts n < length n + 13)%nat /\ (1 <= parts n)%nat.
Proof.
  intros Hne. unfold parts. assert (length n <> 0%nat) by (by destruct n). unfold zlen.
  pose proof (Z.div_mod (Z.of_nat (length n) + 12) 13 ltac:(lia)). pose proof (Z.mod_pos_bound (Z.of_nat (length n) + 12) 13 ltac:(lia)).
  lia.
Qed.

Lemma fill_length n t p : length (fill n t p) = (13 * parts n - length n)%nat.
Proof. unfold fill. destruct (13 * parts n - length n)%nat; [done|]. cbn. by rewrite length_replicate. Qed.

Lemma padded_length n : n <> [] -> length (padded n) = (13 * parts n)%nat /\ length (padded_hi n) = (13 * parts n)%nat.
Proof.
  intros Hne. destruct (parts_bound n Hne). unfold padded, padded_hi. rewrite !length_app, length_replicate, !fill_length. lia.
Qed.

Lemma part_length l j : (13 * j + 13 <= length l)%nat -> length (part l j) = 13%nat.
Proof. intros H. unfold part. rewrite length_take, length_drop. lia. Qed.

(** The buffer when the parts from [j] on are in place. *)
Definition gathered (n : list Z) (j : nat) : list Z :=
  replicate (13 * j) 0 ++ drop (13 * j) (padded n) ++ replicate (256 - 13 * parts n) 0.

Lemma gathered_step n j : n <> [] -> (j < parts n)%nat -> (13 * parts n <= 256)%nat ->
  store (Z.of_nat j * 13) (part (padded n) j) (gathered n (S j)) = Some (gathered n j).
Proof.
  intros Hne Hj Hmax. destruct (padded_length n Hne) as [HL _].
  assert (Hp : length (part (padded n) j) = 13%nat) by (apply part_length; lia).
  assert (HG : forall k, (k <= parts n)%nat -> length (gathered n k) = 256%nat).
  { intros k Hk. unfold gathered. rewrite !length_app, !length_replicate, length_drop. lia. }
  rewrite store_ok; [|lia|unfold zlen; rewrite Hp, HG; lia]. f_equal. apply list_eq. intros i.
  destruct (decide (13 * j <= i < 13 * j + 13)%nat) as [Hi|Hi].
  - rewrite patch_lookup_inside by (rewrite ?HG; lia). unfold gathered, part. rewrite lookup_take_lt, lookup_drop by lia.
    rewrite lookup_app_r by (rewrite length_replicate; lia). rewrite length_replicate.
    rewrite lookup_app_l by (rewrite length_drop; lia). rewrite lookup_drop. f_equal. lia.
  - rewrite patch_lookup_outside by lia. unfold gathered. destruct (decide (i < 13 * j)%nat).
    + rewrite !lookup_app_l by (rewrite length_replicate; lia). by rewrite !lookup_replicate_2 by lia.
    + rewrite !(lookup_app_r (replicate _ 0)) by (rewrite length_replicate; lia). rewrite !length_replicate.
      destruct (decide (i < 13 * parts n)%nat).
      * rewrite !lookup_app_l by (rewrite length_drop; lia). rewrite !lookup_drop. f_equal. lia.
      * rewrite !lookup_app_r by (rewrite length_drop; lia). f_equal. rewrite !length_drop. lia.
Qed.

Lemma lfn_chars_ok n l : Forall (fun c => c <> 0) n -> lfn_chars (n ++ 0 :: l) = Some n.
Proof.
  induction 1 as [|c n Hc Hn IH]; [done|]. cbn [app lfn_chars]. rewrite (proj2 (Z.eqb_neq c 0) Hc), IH. done.
Qed.

Lemma gathered_name n : n <> [] -> Forall (fun c => c <> 0) n -> (13 * parts n < 256)%nat ->
  lfn_chars (gathered n 0) = Some n.
Proof.
  intros Hne Hn Hmax. unfold gathered, padded. change (13 * 0)%nat with 0%nat. rewrite drop_0. cbn [replicate app].
  rewrite <- app_assoc. unfold fill. destruct (13 * parts n - length n)%nat as [|k].
  - destruct (256 - 13 * parts n)%nat as [|k] eqn:E; [lia|]. cbn [app replicate]. by apply lfn_chars_ok.
  - cbn [app]. by apply lfn_chars_ok.
Qed.

(** ** Items *)

(** Names of the form 8.3: capital letters and digits. *)
Definition plain_char (c : Z) : Prop := 65 <= c <= 90 \/ 48 <= c <= 57.
Record name83 (b x : list Z) : Prop := {
  n83_base : 1 <= zlen b <= 8;
  n83_ext : zlen x <= 3;
  n83_plain : Forall plain_char b /\ Forall plain_char x;
  (** The driver misses names such as A.B ([short_name_too_short]). *)
  n83_long : x = [] \/ 3 <= zlen b + zlen x;
}.

(** The name as it is written, and its eleven bytes on the drive. *)
Definition show83 (b x : list Z) : list Z := match x with [] => b | _ => b ++ 46 :: x end.
Definition pad (n : nat) (l : list Z) : list Z := l ++ replicate (n - length l) 32.
Definition field83 (b x : list Z) : list Z := pad 8 b ++ pad 3 x.

Inductive item :=
| Long (n : list Z) (ck : Z) (e : list Z)
| Short (b x : list Z) (e : list Z)
| Skip (e : list Z).

Definition item_entries (x : item) : list (list Z) :=
  match x with
  | Long n ck e => name_records n ck (parts n) ++ [e]
  | Short _ _ e => [e]
  | Skip e => [e]
  end.

(** The name of an item. *)
Definition item_name (x : item) : option (list Z) :=
  match x with
  | Long n _ _ => Some n
  | Short b x _ => Some (show83 b x)
  | Skip _ => None
  end.

(** The byte of the attributes: files and directories carry just the attribute of
    their kind; the driver does not see those that are read-only, hidden or the
    system's. *)
Definition attribute (e : list Z) : Z := default 0 (e !! 11%nat).
Definition in_use (e : list Z) : Prop := attribute e = 0x10 \/ attribute e = 0x20.

(** Free and deleted entries, "." and "..", and labels of the volume. *)
Definition nameless (e : list Z) : Prop :=
  default 0 (head e) ∈ [0; 0xE5; 46] \/ Z.testbit (attribute e) 3 = true.

(** The names the driver can hold are shorter than 248 bytes: a twentieth record
    would end behind the buffer. *)
Definition item_ok (x : item) : Prop :=
  match x with
  | Long n ck e => n <> [] /\ Forall (fun c => c <> 0) n /\ zlen n <= 247 /\ in_use e
  | Short b x e => name83 b x /\ slice 0 11 e = field83 b x /\ in_use e
  | Skip e => attribute e <> 0x0F /\ nameless e
  end.

(** The first item with the name: the offset of its entry among all, and the entry. *)
Fixpoint find_item (items : list item) (search : list Z) (p : Z) : option (Z * list Z) :=
  match items with
  | [] => None
  | x :: items =>
      let next := p + 32 * zlen (item_entries x) in
      if bool_decide (item_name x = Some search) then
        match x with Long _ _ e | Short _ _ e | Skip e => Some (next - 32, e) end
      else find_item items search next
  end.

(** The names whose search is exact: those that cannot be in the form 8.3 (too long, or
    with a character that is none of a capital letter, a digit, a blank and a dot),
    and those in this form that are no abbreviation of another short name of the
    directory (the driver takes DA.BIN for DATA.BIN, [fat32_traverse_prefix]). *)
Definition no_short (s : list Z) : Prop :=
  12 < zlen s \/ Exists (fun c => ~ plain_char c /\ c <> 32 /\ c <> 46) s.
Definition abbreviates (b x : list Z) (y : item) : Prop :=
  match y with Short b' x' _ => b `prefix_of` b' /\ x `prefix_of` x' /\ show83 b x <> show83 b' x' | _ => False end.
Definition searchable (items : list item) (s : list Z) : Prop :=
  no_short s \/ exists b x, name83 b x /\ s = show83 b x /\ Forall (fun y => ~ abbreviates b x y) items.

(** *** How the driver compares *)

Lemma attribute_decode e : attrib (decode_dirent e) = attribute e /\ attributes (decode_lfn e) = attribute e.
Proof.
  enough (le_val (slice 11 1 e) = attribute e) as E by (split; exact E). unfold attribute, slice.
  change (Z.to_nat 11) with 11%nat. change (Z.to_nat 1) with 1%nat.
  replace (e !! 11%nat) with (drop 11 e !! 0%nat) by (by rewrite lookup_drop).
  destruct (drop 11 e) as [|c l]; [done|]. unfold le_val. cbn. by rewrite Z.lor_0_r.
Qed.

Lemma in_use_named e : in_use e -> is_named (decode_dirent e) = true.
Proof. unfold is_named. rewrite (proj1 (attribute_decode e)). by intros [-> | ->]. Qed.

Lemma short_scan_bad l : forall i dot, Exists (fun c => ~ plain_char c /\ c <> 32 /\ c <> 46) l -> short_scan l i dot = None.
Proof.
  induction l as [|c l IH]; intros i dot H; [by apply Exists_nil in H|]. cbn [short_scan].
  destruct (Z.eqb_spec c 46) as [->|Hc].
  - apply Exists_cons in H as [(_ & _ & ?)|H]; [done|]. by apply IH.
  - unfold IS_UPPERCASE. apply Exists_cons in H as [(H1 & H2 & _)|H].
    + assert (negb ((65 <=? c) && (c <=? 90) || (48 <=? c) && (c <=? 57)) && negb (c =? 0x20) = true) as ->; [|done].
      unfold plain_char in H1. lia.
    + destruct (_ && _); [done|]. by apply IH.
Qed.

Lemma short_scan_plain l : forall k i dot, Forall plain_char l -> short_scan (l ++ k) i dot = short_scan k (i + zlen l) dot.
Proof.
  induction l as [|c l IH]; intros k i dot H; [by rewrite Z.add_0_r|]. apply Forall_cons in H as [Hc H].
  cbn [app short_scan]. unfold IS_UPPERCASE, plain_char in *. rewrite (proj2 (Z.eqb_neq c 46)) by lia.
  assert (negb ((65 <=? c) && (c <=? 90) || (48 <=? c) && (c <=? 57)) && negb (c =? 0x20) = false) as -> by lia.
  rewrite IH by done. f_equal. unfold zlen. cbn [length]. lia.
Qed.

Lemma no_short_dot s : no_short s -> fat32_is_short_filename_possible s = -1.
Proof.
  unfold fat32_is_short_filename_possible. intros [H|H].
  - by rewrite (proj2 (Z.ltb_lt (8 + 1 + 3) (zlen s))) by lia.
  - rewrite short_scan_bad by done. by destruct (_ <? _).
Qed.

Lemma show83_zlen b x : zlen (show83 b x) = zlen b + (if bool_decide (x = []) then 0 else 1 + zlen x).
Proof.
  destruct x as [|c x]; cbn [show83]; [rewrite bool_decide_eq_true_2 by done; lia|].
  rewrite bool_decide_eq_false_2, zlen_app by done. unfold zlen. cbn [length]. lia.
Qed.

Lemma show83_dot b x : name83 b x ->
  fat32_is_short_filename_possible (show83 b x) = if bool_decide (x = []) then 0 else zlen b.
Proof.
  intros [H1 H2 [P1 P2] H3]. unfold fat32_is_short_filename_possible. pose proof (show83_zlen b x) as Hl.
  pose proof (zlen_nonneg x) as Hx0.
  rewrite (proj2 (Z.ltb_ge (8 + 1 + 3) (zlen (show83 b x)))) by (rewrite Hl; case_bool_decide; lia).
  destruct x as [|c x]; cbn [show83] in *.
  - assert (short_scan b 0 0 = Some 0) as ->; [|done]. pose proof (short_scan_plain b [] 0 0 P1) as E. by rewrite app_nil_r in E.
  - rewrite short_scan_plain by done.
    change (short_scan (46 :: c :: x) (0 + zlen b) 0) with (short_scan (c :: x) (0 + zlen b + 1) (0 + zlen b)).
    pose proof (short_scan_plain (c :: x) [] (0 + zlen b + 1) (0 + zlen b) P2) as E. rewrite app_nil_r in E. rewrite E. cbn [short_scan].
    rewrite bool_decide_eq_false_2 in Hl |- * by done. destruct H3 as [|H3]; [done|].
    rewrite u64_small by lia. rewrite (proj2 (Z.ltb_ge (0 + zlen b) _)) by lia. by rewrite andb_false_r.
Qed.

(** A name without blanks that begins a padded field begins its name. *)
Lemma prefix_pad n b b' : Forall plain_char b -> take (length b) (pad n b') = b -> b `prefix_of` b'.
Proof.
  intros P. revert n b'. induction P as [|c b Hc P IH]; intros n b' E; [apply prefix_nil|]. unfold pad in E.
  destruct b' as [|c' b'].
  - cbn [app length] in E. destruct n as [|n]; [done|]. cbn in E. injection E as <- _. unfold plain_char in Hc. lia.
  - cbn [app length take] in E. injection E as -> E. apply prefix_cons. apply (IH (n - 1)%nat). unfold pad.
    by replace (n - 1 - length b')%nat with (n - S (length b'))%nat by lia.
Qed.

Lemma field83_slices e b x : slice 0 11 e = field83 b x -> zlen b <= 8 -> zlen x <= 3 ->
  forall n, 0 <= n -> (n <= 8 -> slice 0 n e = take (Z.to_nat n) (pad 8 b)) /\
    (n <= 3 -> slice 8 n e = take (Z.to_nat n) (pad 3 x)).
Proof.
  intros E Hb Hx n Hn. unfold zlen in *.
  assert (length (pad 8 b) = 8%nat /\ length (pad 3 x) = 3%nat) as [L8 L3].
  { unfold pad. rewrite !length_app, !length_replicate. lia. }
  split; intros H.
  - replace (slice 0 n e) with (slice 0 n (slice 0 11 e)) by (rewrite slice_slice by lia; done). rewrite E.
    unfold slice, field83. rewrite drop_0, take_app_le by (rewrite L8; lia). done.
  - replace (slice 8 n e) with (slice 8 n (slice 0 11 e)) by (rewrite slice_slice by lia; done). rewrite E.
    unfold slice, field83. change (Z.to_nat 8) with 8%nat. rewrite drop_app_ge by (rewrite L8; lia). rewrite L8. done.
Qed.

Lemma pad_self n b : take (length b) (pad n b) = b.
Proof. unfold pad. by rewrite take_app_length. Qed.

(** The first dot ends the name. *)
Lemma plain_split b : forall b' (x x' : list Z), Forall plain_char b -> Forall plain_char b' ->
  b ++ 46 :: x = b' ++ 46 :: x' -> b = b' /\ x = x'.
Proof.
  induction b as [|c b IH]; intros [|c' b'] x x' P P' E; cbn [app] in E.
  - by injection E as ->.
  - injection E as E1 E2. apply Forall_cons in P' as [Hc _]. unfold plain_char in Hc. lia.
  - injection E as E1 E2. apply Forall_cons in P as [Hc _]. unfold plain_char in Hc. lia.
  - injection E as E1 E2. apply Forall_cons in P as [_ P]. apply Forall_cons in P' as [_ P'].
    destruct (IH b' x x' P P' E2) as [-> ->]. by subst.
Qed.

(** The driver's comparison: the parts of the name begin those of the entry. *)
Lemma short_match_prefix e b x b' x' : name83 b x -> name83 b' x' -> slice 0 11 e = field83 b' x' ->
  let dot := fat32_is_short_filename_possible (show83 b x) in
  (short_match e (show83 b x) dot = true -> b `prefix_of` b' /\ x `prefix_of` x') /\
  (show83 b x = show83 b' x' -> short_match e (show83 b x) dot = true).
Proof.
  intros N N' E. cbv zeta. rewrite (show83_dot b x N). pose proof N as [H1 H2 [P1 P2] H3].
  pose proof (field83_slices e b' x' E (proj2 (n83_base _ _ N')) (n83_ext _ _ N')) as F.
  destruct (F (zlen b) ltac:(lia)) as [Fb _]. specialize (Fb ltac:(lia)).
  destruct (F (zlen x) (zlen_nonneg x)) as [_ Fx]. specialize (Fx H2).
  unfold zlen in Fb at 2, Fx at 2. rewrite Nat2Z.id in Fb, Fx. unfold short_match.
  destruct x as [|c x]; cbn [show83].
  - rewrite (bool_decide_eq_true_2 (@nil Z = [])) by done. change (0 =? 0) with true. cbv iota. cbn [orb]. rewrite andb_true_r.
    rewrite slice_full, Fb, bool_decide_eq_true. split; [|].
    + intros Hb. split; [by apply (prefix_pad 8)|apply prefix_nil].
    + intros ->. destruct x' as [|c' x']; cbn [show83] in *; [apply pad_self|exfalso].
      apply Forall_app in P1 as [_ [P1 _]%Forall_cons]. unfold plain_char in P1. lia.
  - rewrite (bool_decide_eq_false_2 (c :: x = [])) by done. assert ((zlen b =? 0) = false) as -> by lia. cbn [orb].
    assert (zlen (b ++ 46 :: c :: x) - zlen b - 1 = zlen (c :: x)) as ->
      by (rewrite zlen_app; unfold zlen; cbn [length]; lia).
    rewrite slice_app_l, slice_full by lia. rewrite slice_app_r by lia.
    replace (zlen b + 1 - zlen b) with 1 by lia. change (slice 1 (zlen (c :: x)) (46 :: c :: x)) with (slice 0 (zlen (c :: x)) (c :: x)).
    rewrite slice_full, Fb, Fx, andb_true_iff, !bool_decide_eq_true. split.
    + intros [Hb Hx]. split; [by apply (prefix_pad 8)|by apply (prefix_pad 3)].
    + intros Es. assert (b = b' /\ c :: x = x') as [<- <-]; [|split; apply pad_self].
      destruct N' as [_ _ [P1' _] _]. destruct x' as [|c' x']; cbn [show83] in Es.
      * exfalso. rewrite <- Es in P1'. apply Forall_app in P1' as [_ [P1' _]%Forall_cons]. unfold plain_char in P1'. lia.
      * by apply plain_split.
Qed.

(** Entries without a name are passed over. *)
Lemma nameless_mismatch e items search : nameless e -> searchable items search -> is_named (decode_dirent e) = true ->
  (0 <=? fat32_is_short_filename_possible search) &&
    short_match e search (fat32_is_short_filename_possible search) = false.
Proof.
  intros He Hs Hn. destruct Hs as [Hs|(b & x & N & -> & _)]; [by rewrite no_short_dot|].
  apply andb_false_iff. right. unfold short_match. apply andb_false_iff. left. apply bool_decide_eq_false. intros E.
  match type of E with slice 0 ?k _ = _ => set (n := k) in E end.
  assert (Hn1 : 1 <= n).
  { subst n. rewrite show83_dot by done. pose proof (show83_zlen b x). pose proof (n83_base _ _ N). pose proof (zlen_nonneg x).
    case_bool_decide; [change (0 =? 0) with true; cbv iota; lia|]. assert ((zlen b =? 0) = false) as -> by lia. lia. }
  assert (Hh : head e = head (show83 b x)).
  { rewrite !head_lookup. pose proof (f_equal (fun l => l !! 0%nat) E) as E0. cbn beta in E0.
    rewrite !slice_lookup, !decide_True in E0 by lia. exact E0. }
  destruct N as [H1 _ [P _] _]. destruct b as [|c b]; [unfold zlen in H1; cbn in H1; lia|].
  assert (head (show83 (c :: b) x) = Some c) as Ec by (by destruct x). rewrite Ec in Hh.
  apply Forall_cons in P as [Hc _]. unfold plain_char in Hc. destruct He as [He|He].
  - rewrite Hh in He. cbn in He. apply elem_of_cons in He as [?|He]; [lia|]. apply elem_of_cons in He as [?|He]; [lia|].
    apply elem_of_cons in He as [?|He]; [lia|]. by apply elem_of_nil in He.
  - unfold is_named in Hn. rewrite (proj1 (attribute_decode e)) in Hn. apply orb_true_iff in Hn as [Hn|Hn];
      apply Z.eqb_eq in Hn; rewrite Hn in He; done.
Qed.

(** An entry with a short name matches its own name only. *)
Lemma short_exact e b' x' items search : name83 b' x' -> slice 0 11 e = field83 b' x' -> searchable items search ->
  Short b' x' e ∈ items ->
  (0 <=? fat32_is_short_filename_possible search) &&
    short_match e search (fat32_is_short_filename_possible search) = bool_decide (Some (show83 b' x') = Some search).
Proof.
  intros N' E Hs Hin. destruct Hs as [Hs|(b & x & N & -> & HF)].
  - rewrite no_short_dot by done. symmetry. apply bool_decide_eq_false. intros [= <-].
    destruct Hs as [Hl|Hx].
    + rewrite show83_zlen in Hl. destruct N' as [? ? _ _]. case_bool_decide; lia.
    + apply Exists_exists in Hx as (c & Hc & X1 & _ & X3). destruct N' as [_ _ [P1 P2] _]. rewrite Forall_forall in P1, P2.
      destruct x' as [|c' x']; cbn [show83] in Hc; [by apply P1 in Hc|].
      apply elem_of_app in Hc as [Hc|Hc]; [by apply P1 in Hc|]. apply elem_of_cons in Hc as [->|Hc]; [done|]. by apply P2 in Hc.
  - destruct (short_match_prefix e b x b' x' N N' E) as [M1 M2].
    assert ((0 <=? fat32_is_short_filename_possible (show83 b x)) = true) as ->.
    { rewrite show83_dot by done. pose proof (zlen_nonneg b). case_bool_decide; lia. }
    cbn [andb]. apply eq_true_iff_eq. rewrite bool_decide_eq_true. split.
    + intros M. destruct (M1 M) as [B1 B2]. rewrite Forall_forall in HF. specialize (HF _ Hin). cbn in HF.
      f_equal. destruct (decide (show83 b x = show83 b' x')); [done|]. exfalso. by apply HF.
    + intros [= Es]. apply M2. done.
Qed.

Lemma gather_named e ln : is_named (decode_dirent e) = true -> gather_lfn e ln = Ok ln.
Proof.
  unfold is_named, gather_lfn. change (attrib (decode_dirent e)) with (attributes (decode_lfn e)). intros H.
  replace (attributes (decode_lfn e) =? FAT_ATTRIB_LFN) with false; [done|].
  symmetry. apply Z.eqb_neq. intros E. rewrite E in H. done.
Qed.

Lemma order_bits j : 0 <= j < 20 ->
  Z.land (j + 1) (Z.lnot LFN_ORDER_FINAL) = j + 1 /\ has_flag (j + 1) LFN_ORDER_FINAL = false /\
  Z.land (j + 1 + LFN_ORDER_FINAL) (Z.lnot LFN_ORDER_FINAL) = j + 1 /\ has_flag (j + 1 + LFN_ORDER_FINAL) LFN_ORDER_FINAL = true.
Proof.
  intros Hj. assert (H : forallb (fun j => (Z.land (j + 1) (Z.lnot LFN_ORDER_FINAL) =? j + 1) && negb (has_flag (j + 1) LFN_ORDER_FINAL) &&
    (Z.land (j + 1 + LFN_ORDER_FINAL) (Z.lnot LFN_ORDER_FINAL) =? j + 1) && has_flag (j + 1 + LFN_ORDER_FINAL) LFN_ORDER_FINAL) (seqZ 0 20) = true)
    by reflexivity.
  rewrite forallb_forall in H. specialize (H j ltac:(apply list_elem_of_In, elem_of_seqZ; lia)).
  rewrite !andb_true_iff, negb_true_iff, !Z.eqb_eq in H. tauto.
Qed.

Lemma parts_247 n : n <> [] -> zlen n <= 247 -> (13 * parts n < 256)%nat /\ (parts n <= 19)%nat.
Proof. intros Hne Hz. destruct (parts_bound n Hne). unfold zlen in Hz. lia. Qed.

Lemma gather_part n ck j last : n <> [] -> zlen n <= 247 -> (j < parts n)%nat ->
  gather_lfn (name_record n ck j) (mkLong (gathered n (S j)) last) =
  Ok (mkLong (gathered n j) (if decide (S j = parts n) then Z.of_nat j else last)) /\
  is_named (decode_dirent (name_record n ck j)) = false.
Proof.
  intros Hne Hz Hj. destruct (parts_247 n Hne Hz) as [H256 H19]. destruct (padded_length n Hne) as [HL1 HL2].
  unfold gather_lfn, is_named. change (attrib (decode_dirent ?x)) with (attributes (decode_lfn x)). unfold name_record.
  set (ord := _ + _). destruct (lfn_record_decode ord ck (part (padded n) j) (part (padded_hi n) j)) as (E1 & E2 & E3 & E4).
  { apply part_length. lia. }
  { apply part_length. lia. }
  rewrite E1, E2, E3. split; [|done]. change ((FAT_ATTRIB_LFN =? FAT_ATTRIB_LFN) && (0 =? 0)) with true. cbv iota.
  destruct (order_bits (Z.of_nat j) ltac:(lia)) as (B1 & B2 & B3 & B4).
  assert (Z.land ord (Z.lnot LFN_ORDER_FINAL) = Z.of_nat j + 1 /\
    has_flag ord LFN_ORDER_FINAL = if decide (S j = parts n) then true else false) as [-> ->].
  { unfold ord. destruct (decide (S j = parts n)); [done|]. by rewrite Z.add_0_r. }
  replace (Z.of_nat j + 1 - 1) with (Z.of_nat j) by lia. unfold LFN_MAX. rewrite (proj2 (Z.leb_gt 20 (Z.of_nat j))) by lia.
  unfold fat32_LFNmem_cpy. rewrite E4. cbn [lfnName lfnLast]. rewrite gathered_step by (done || lia). cbn [need]. by destruct (decide _).
Qed.

Lemma scan_name n ck j : forall rest i search dot last, n <> [] -> zlen n <= 247 -> (j <= parts n)%nat ->
  scan_cluster (name_records n ck j ++ rest) i search dot (mkLong (gathered n j) last) =
  scan_cluster rest (i + 32 * Z.of_nat j) search dot
    (mkLong (gathered n 0) (if decide (j = parts n) then Z.of_nat j - 1 else last)).
Proof.
  induction j as [|j IH]; intros rest i search dot last Hne Hz Hj.
  - rewrite Z.add_0_r. destruct (decide (0%nat = parts n)) as [E|]; [|done]. destruct (parts_bound n Hne). lia.
  - cbn [name_records app scan_cluster]. destruct (gather_part n ck j last Hne Hz ltac:(lia)) as [-> ->].
    rewrite IH by (done || lia). f_equal; [lia|]. f_equal. destruct (decide (j = parts n)); [lia|].
    destruct (decide (S j = parts n)); [lia|done].
Qed.

Lemma gathered_fresh n : n <> [] -> (13 * parts n <= 256)%nat -> gathered n (parts n) = replicate 256 0.
Proof.
  intros Hne Hm. destruct (padded_length n Hne) as [HL _]. unfold gathered. rewrite <- HL, drop_all, HL. cbn [app].
  rewrite <- replicate_add. f_equal. lia.
Qed.

Lemma name_records_length n ck j : length (name_records n ck j) = j.
Proof. induction j as [|j IH]; [done|]. cbn. by rewrite IH. Qed.

Lemma searchable_cons x items search : searchable (x :: items) search -> searchable items search.
Proof.
  intros [H|(b & y & N & E & HF)]; [by left|right]. exists b, y. split; [done|]. split; [done|]. by apply Forall_cons in HF as [_ HF].
Qed.

Lemma scan_items items : forall i search, Forall item_ok items -> searchable items search ->
  scan_cluster (mjoin (item_entries <$> items)) i search (fat32_is_short_filename_possible search) no_long_name =
  Ok (match find_item items search i with Some (p, e) => Some (p, decode_dirent e) | None => None end, no_long_name).
Proof.
  induction items as [|x items IH]; intros i search Hok Hs; [done|]. apply Forall_cons in Hok as [Hx Hok].
  pose proof (searchable_cons _ _ _ Hs) as Hs'.
  change (mjoin (item_entries <$> x :: items)) with (item_entries x ++ mjoin (item_entries <$> items)).
  destruct x as [n ck e|b x e|e]; cbn [item_entries item_ok find_item item_name] in *.
  - destruct Hx as (Hne & Hn0 & Hz & Hnm%in_use_named). destruct (parts_247 n Hne Hz) as [H256 H19].
    rewrite <- app_assoc. unfold no_long_name at 1. rewrite <- (gathered_fresh n Hne) by lia.
    rewrite scan_name by (done || lia). rewrite decide_True by done. cbn [app scan_cluster].
    rewrite gather_named by done. rewrite Hnm. unfold entry_match. cbn [lfnLast lfnName].
    destruct (parts_bound n Hne) as [_ Hp1]. rewrite (proj2 (Z.leb_le 0 (Z.of_nat (parts n) - 1))) by lia.
    rewrite gathered_name by done. cbn [need].
    assert (E : 32 * zlen (name_records n ck (parts n) ++ [e]) = 32 * Z.of_nat (parts n) + 32).
    { unfold zlen. rewrite length_app, name_records_length. cbn [length]. lia. }
    rewrite E. replace (i + (32 * Z.of_nat (parts n) + 32) - 32) with (i + 32 * Z.of_nat (parts n)) by lia.
    assert (bool_decide (Some n = Some search) = bool_decide (n = search)) as -> by (apply bool_decide_ext; naive_solver).
    case_bool_decide; [done|]. rewrite IH by done. by rewrite Z.add_assoc.
  - destruct Hx as (N & Ef & Hnm%in_use_named).
    cbn [app scan_cluster]. rewrite gather_named, Hnm by done. unfold entry_match. cbn [lfnLast no_long_name].
    change (0 <=? -1) with false. cbv iota. change (32 * zlen [e]) with 32.
    rewrite (short_exact e b x _ search N Ef Hs) by left. replace (i + 32 - 32) with i by lia.
    case_bool_decide; [done|]. by apply IH.
  - destruct Hx as [Hl Hnl]. cbn [app scan_cluster]. change (32 * zlen [e]) with 32.
    rewrite (bool_decide_eq_false_2 (None = Some search)) by done.
    unfold gather_lfn. rewrite (proj2 (attribute_decode e)).
    rewrite (proj2 (Z.eqb_neq (attribute e) FAT_ATTRIB_LFN)) by done. cbn [andb].
    destruct (is_named (decode_dirent e)) eqn:Hn; [|by apply IH].
    unfold entry_match. cbn [lfnLast no_long_name]. change (0 <=? -1) with false. cbv iota.
    rewrite (nameless_mismatch e _ search Hnl Hs Hn). by apply IH.
Qed.

(** ** Clusters of a directory *)

Lemma scan_app a : forall b i search dot ln,
  scan_cluster (a ++ b) i search dot ln =
  match scan_cluster a i search dot ln with
  | Ok (None, ln) => scan_cluster b (i + 32 * zlen a) search dot ln
  | r => r
  end.
Proof.
  induction a as [|e a IH]; intros b i search dot ln.
  - cbn. by rewrite Z.add_0_r.
  - cbn [app scan_cluster]. replace (i + 32 * zlen (e :: a)) with (i + 32 + 32 * zlen a) by (unfold zlen; cbn [length]; lia).
    destruct (gather_lfn e ln) as [ln1| | |]; try done. destruct (is_named (decode_dirent e)); [|apply IH].
    by destruct (entry_match e search dot ln1) as [[|]| | |].
Qed.

Lemma scan_shift es : forall i k search dot ln,
  scan_cluster es (i + k) search dot ln =
  match scan_cluster es i search dot ln with
  | Ok (Some (p, d), ln) => Ok (Some (p + k, d), ln)
  | r => r
  end.
Proof.
  induction es as [|e es IH]; intros i k search dot ln; [done|]. cbn [scan_cluster].
  destruct (gather_lfn e ln) as [ln1| | |]; try done. replace (i + k + 32) with (i + 32 + k) by lia.
  destruct (is_named (decode_dirent e)); [|apply IH].
  by destruct (entry_match e search dot ln1) as [[|]| | |].
Qed.

Lemma scan_range es : forall i search dot ln p d ln', scan_cluster es i search dot ln = Ok (Some (p, d), ln') ->
  i <= p < i + 32 * zlen es.
Proof.
  induction es as [|e es IH]; intros i search dot ln p d ln'; [done|]. cbn [scan_cluster].
  replace (i + 32 * zlen (e :: es)) with (i + 32 + 32 * zlen es) by (unfold zlen; cbn [length]; lia).
  pose proof (zlen_nonneg es). destruct (gather_lfn e ln) as [ln1| | |]; try done. destruct (is_named (decode_dirent e)).
  - destruct (entry_match e search dot ln1) as [[|]| | |]; try done; [intros [= <- _ _]; lia|].
    intros H1. apply IH in H1. lia.
  - intros H1. apply IH in H1. lia.
Qed.

Section directory.
Context (d : gmap Z Z).

Definition dir_entries (f : FAT32) (cs : list Z) : list (list Z) :=
  mjoin ((fun c => entries_of (cluster_bytes d f c)) <$> cs).

Lemma entries_length f c : fat_ok d f -> 32 * zlen (entries_of (cluster_bytes d f c)) = bytesPerCluster f.
Proof.
  intros H. unfold entries_of, zlen at 1. rewrite length_fmap, length_seqZ, zlen_cluster by done.
  pose proof (fo_spc _ _ H). unfold bytesPerCluster, SECTOR_SIZE. rewrite Z2Nat.id; [|apply Z.div_pos; lia].
  replace (sectors_per_cluster (bootsec f) * 512) with (sectors_per_cluster (bootsec f) * 16 * 32) by lia.
  rewrite Z.div_mul by lia. lia.
Qed.

Lemma read_one f c : fat_ok d f -> 2 <= c < 2 ^ 28 -> on_drive f c ->
  read_cluster (Some d) f c (sectors_per_cluster (bootsec f)) = cluster_bytes d f c.
Proof.
  intros H Hc Hon. pose proof (read_cluster_ok d f c 1 H ltac:(lia) Hc) as HR.
  change (Z.of_nat 1) with 1 in HR. rewrite Z.mul_1_l in HR. replace (c + 1 - 1) with c in HR by lia. rewrite HR by done.
  change (seqZ c 1) with [0 + c]. rewrite Z.add_0_l. cbn. by rewrite app_nil_r.
Qed.

Lemma same_fat_entries f g cs : same_fat f g -> dir_entries g cs = dir_entries f cs.
Proof. by intros (? & ? & ? & ->). Qed.

(** The result for an entry at offset [p] of the directory. *)
Definition result_at (f : FAT32) (cs : list Z) (r : option (Z * FAT32DirectoryEntry)) : FAT32TraverseResult :=
  match r with
  | Some (p, e) => mkResult (cs !!! Z.to_nat (p / bytesPerCluster f)) (u8 (p mod bytesPerCluster f)) e
  | None => no_result
  end.

Lemma traverse_clusters_ok cs : forall fuel f c search dot ln r ln', fat_ok d f -> linked d f (c :: cs) ->
  Forall (on_drive f) (c :: cs) -> (length (c :: cs) <= fuel)%nat ->
  scan_cluster (dir_entries f (c :: cs)) 0 search dot ln = Ok (r, ln') ->
  exists f', traverse_clusters (Some d) fuel c search dot ln f = Ok (result_at f (c :: cs) r, f') /\ fat_ok d f' /\ same_fat f f'.
Proof.
  induction cs as [|c' cs IH]; intros fuel f c search dot ln r ln' Hf Hl Hon Hfuel Hscan;
    (destruct fuel as [|fuel]; [cbn in Hfuel; lia|]); cbn [traverse_clusters]; erewrite bind_ok by done;
    apply Forall_cons in Hon as [Hc Hon]; destruct Hl as (Hr & Hent & Hl); rewrite (read_one f c Hf Hr Hc);
    change (dir_entries f (c :: ?x)) with (entries_of (cluster_bytes d f c) ++ dir_entries f x) in Hscan;
    rewrite scan_app in Hscan; pose proof (fo_spc _ _ Hf) as Hspc;
    assert (Hb : 0 < bytesPerCluster f) by (unfold bytesPerCluster, SECTOR_SIZE; lia);
    destruct (scan_cluster (entries_of (cluster_bytes d f c)) 0 search dot ln) as [[[[p e]|] ln1]| | |] eqn:Es; try done.
  - injection Hscan as <- <-. apply scan_range in Es as Hp. rewrite entries_length in Hp by done.
    exists f. split; [|split; [done|apply same_fat_refl]]. unfold bind, lift. cbn. unfold result_at, ret.
    by rewrite Z.div_small, Z.mod_small by lia.
  - cbn in Hscan. injection Hscan as <- <-. unfold bind at 1, lift. cbn.
    destruct (fat32_FAT_traverse_ok d f c Hf ltac:(lia)) as (f1 & E1 & Hf1 & S1). mrw E1. rewrite Hent. cbn. by exists f1.
  - injection Hscan as <- <-. apply scan_range in Es as Hp. rewrite entries_length in Hp by done.
    exists f. split; [|split; [done|apply same_fat_refl]]. unfold bind, lift. cbn. unfold result_at, ret.
    by rewrite Z.div_small, Z.mod_small by lia.
  - unfold bind at 1, lift. cbv beta iota.
    destruct (fat32_FAT_traverse_ok d f c Hf ltac:(lia)) as (f1 & E1 & Hf1 & S1). mrw E1. rewrite Hent. cbn [head from_option id].
    assert (2 <= c' < 2 ^ 28) by apply Hl. rewrite (proj2 (Z.eqb_neq c' 0)) by lia.
    rewrite scan_shift in Hscan. rewrite entries_length in Hscan by done.
    destruct (scan_cluster (dir_entries f (c' :: cs)) 0 search dot ln1) as [[r1 ln2]| | |] eqn:Es2; try done.
    destruct (IH fuel f1 c' search dot ln1 r1 ln2 Hf1) as (f2 & E2 & Hf2 & S2).
    + by apply (same_fat_linked d f).
    + destruct S1 as (? & ? & ? & ->). done.
    + cbn [length] in *. lia.
    + by rewrite (same_fat_entries f f1).
    + exists f2. rewrite E2. split; [|split; [done|by eapply same_fat_trans]]. do 2 f_equal.
      assert (bytesPerCluster f1 = bytesPerCluster f) as Eb by (by destruct S1 as (? & ? & ? & ->)). unfold result_at. rewrite Eb.
      destruct r1 as [[p e]|]; injection Hscan as <- <-; [|done]. apply scan_range in Es2.
      replace (p + bytesPerCluster f) with (p + 1 * bytesPerCluster f) by lia. rewrite Z.div_add, Z.mod_add by lia. f_equal.
      rewrite Z2Nat.inj_add by (try apply Z.div_pos; lia). change (Z.to_nat 1) with 1%nat. by rewrite Nat.add_comm.
Qed.

(** ** The length of chains *)

Lemma linked_unique f a : forall b, linked d f a -> linked d f b -> head a = head b -> a = b.
Proof.
  induction a as [|x a IH]; intros [|y b] Ha Hb Hh; try done. injection Hh as ->. destruct Ha as (Hx & Ea & Ha), Hb as (_ & Eb & Hb).
  f_equal. apply IH; [done|done|]. rewrite Ea in Eb.
  destruct a as [|a0 a], b as [|b0 b]; cbn in Eb |- *; try done; [destruct Hb|destruct Ha|by rewrite Eb]; lia.
Qed.

Lemma linked_NoDup f cs : linked d f cs -> NoDup cs.
Proof.
  intros Hl. apply NoDup_alt. intros i j x Hi Hj.
  assert (E : drop i cs = drop j cs).
  { apply (linked_unique f); [by apply linked_drop|by apply linked_drop|]. by rewrite (drop_S _ _ _ Hi), (drop_S _ _ _ Hj). }
  apply (f_equal length) in E. rewrite !length_drop in E. apply lookup_lt_Some in Hi, Hj. lia.
Qed.

(** A chain inside the table has no more clusters than the table has entries. *)
Lemma linked_length f cs : linked d f cs -> Forall (fun c => c < table_size_32 (extended_section (bootsec f)) * 128) cs ->
  (length cs <= chain_fuel f)%nat.
Proof.
  intros Hl Hb. assert (H : cs ⊆+ seqZ 0 (table_size_32 (extended_section (bootsec f)) * 128)).
  { apply NoDup_submseteq; [by apply (linked_NoDup f)|]. intros x Hx. apply elem_of_seqZ.
    apply list_elem_of_lookup in Hx as (i & Hi). pose proof (linked_range d f cs i x Hl Hi).
    pose proof (Forall_lookup_1 _ _ _ _ Hb Hi). cbn in *. lia. }
  apply submseteq_length in H. rewrite length_seqZ in H. unfold chain_fuel. lia.
Qed.

(** A directory with the clusters [cs] and the items [items]. *)
Record dir_ok (f : FAT32) (cs : list Z) (items : list item) : Prop := {
  dk_ne : cs <> [];
  dk_linked : linked d f cs;
  dk_drive : Forall (on_drive f) cs;
  dk_table : Forall (fun c => c < table_size_32 (extended_section (bootsec f)) * 128) cs;
  dk_items : Forall item_ok items;
  dk_entries : dir_entries f cs = mjoin (item_entries <$> items);
}.

Lemma fat32_traverse_ok f cs items search : fat_ok d f -> dir_ok f cs items -> searchable items search ->
  exists f', fat32_traverse (Some d) (default 0 (head cs)) search f =
      Ok (result_at f cs ((fun pe => (pe.1, decode_dirent pe.2)) <$> find_item items search 0), f') /\ fat_ok d f' /\ same_fat f f'.
Proof.
  intros Hf [H1 H2 H3 H4 H5 H6] Hs. destruct cs as [|c cs]; [done|]. unfold fat32_traverse. setoid_rewrite (bind_ok get _ f f f eq_refl).
  destruct (traverse_clusters_ok cs (chain_fuel f) f c search (fat32_is_short_filename_possible search) no_long_name
    ((fun pe => (pe.1, decode_dirent pe.2)) <$> find_item items search 0) no_long_name Hf H2 H3) as (f' & E & Hf' & S').
  - by apply linked_length.
  - rewrite H6, scan_items by done. by destruct (find_item items search 0) as [[p e]|].
  - by exists f'.
Qed.

End directory.
