(* ===== verification/Fat32Opened.v ===== *)
(** * FAT32: opened files

    What [fat32_read] and [fat32_seek] do with a descriptor of a file, and what
    [fat32_mount] sets up. *)

From S2P Require Import Prelude Bytes FileTypes Disk Fat32 Fat32Files Fat32Table Fat32Read.

Section file.
Context (d : gmap Z Z).

(** The number of clusters that [limit] bytes fill. *)
Definition clusters_for (f : FAT32) (limit : Z) : Z := (limit + bytesPerCluster f - 1) / bytesPerCluster f.

(** The data of the clusters [cs]. *)
Definition chain_data (f : FAT32) (cs : list Z) : list Z := mjoin (cluster_bytes d f <$> cs).

(** [dir] is a descriptor of the file with the clusters [cs]: [directoryCurr] is the
    cluster of the position, the last one or none when the position is behind it. *)
Record file_ok (f : FAT32) (cs : list Z) (dir : FAT32OpenFd) : Prop := {
  fk_file : is_directory (dirEnt dir) = false;
  fk_linked : linked d f cs;
  fk_drive : Forall (on_drive f) cs;
  fk_first : first_cluster (dirEnt dir) = default 0 (head cs);
  fk_size : (zlen cs - 1) * bytesPerCluster f < filesize (dirEnt dir) <= zlen cs * bytesPerCluster f;
  fk_size32 : filesize (dirEnt dir) < 2 ^ 32;
  fk_ptr : 0 <= ptr dir <= filesize (dirEnt dir);
  fk_pos : (exists a, cs !! a = Some (directoryCurr dir) /\ Z.of_nat a * bytesPerCluster f <= ptr dir /\
      (ptr dir < (Z.of_nat a + 1) * bytesPerCluster f \/ S a = length cs /\ ptr dir = zlen cs * bytesPerCluster f)) \/
    (directoryCurr dir = 0 /\ ptr dir = zlen cs * bytesPerCluster f);
}.

(** A read of [n] bytes from [p] ends inside a run of neighbouring clusters. *)
Definition ends_in_run (f : FAT32) (cs : list Z) (p n limit : Z) : Prop :=
  let bpc := bytesPerCluster f in
  exists e c, p / bpc < Z.of_nat e < p / bpc + clusters_for f limit /\ Z.of_nat e * bpc <= p + n < (Z.of_nat e + 1) * bpc /\
    cs !! e = Some c /\ cs !! (e - 1)%nat = Some (c - 1).

(** The word behind the array of clusters does not look like the next cluster. *)
Definition beyond_ok (f : FAT32) (cs : list Z) (p limit beyond : Z) : Prop :=
  forall c, cs !! Z.to_nat (p / bytesPerCluster f + clusters_for f limit) = Some c -> beyond <> c + 1.

Lemma same_fat_file f g cs dir : same_fat f g -> file_ok f cs dir -> file_ok g cs dir.
Proof.
  intros S H. pose proof (same_fat_linked d f g cs S (fk_linked _ _ _ H)). destruct S as (? & ? & ? & ->). destruct H. by split.
Qed.

Lemma same_fat_data f g cs : same_fat f g -> chain_data g cs = chain_data f cs.
Proof. by intros (? & ? & ? & ->). Qed.

Lemma bpc_range f : fat_ok d f -> 0 < bytesPerCluster f < 2 ^ 17.
Proof. intros H. pose proof (fo_spc _ _ H). unfold bytesPerCluster, SECTOR_SIZE. lia. Qed.

Lemma clusters_for_spec f limit : fat_ok d f -> 0 <= limit < 2 ^ 30 ->
  CEILING_DIVISION limit (bytesPerCluster f) = clusters_for f limit /\
  (clusters_for f limit - 1) * bytesPerCluster f < limit <= clusters_for f limit * bytesPerCluster f /\
  0 <= clusters_for f limit < 2 ^ 30.
Proof.
  intros H Hl. pose proof (bpc_range f H) as Hb. unfold clusters_for, CEILING_DIVISION.
  rewrite (u64_small (limit + _)), u64_small by lia. split; [done|].
  pose proof (Z.div_mod (limit + bytesPerCluster f - 1) (bytesPerCluster f) ltac:(lia)).
  pose proof (Z.mod_pos_bound (limit + bytesPerCluster f - 1) (bytesPerCluster f) ltac:(lia)). split; nia.
Qed.

(** ** Reading *)

Section reading.
Context (f : FAT32) (cs : list Z) (dir : FAT32OpenFd) (limit beyond : Z).
Context (Hf : fat_ok d f) (H : file_ok f cs dir) (Hlimit : 0 <= limit < 2 ^ 30).

#[local] Abbreviation bpc := (bytesPerCluster f).
#[local] Abbreviation needed := (clusters_for f limit).
#[local] Abbreviation size := (filesize (dirEnt dir)).
#[local] Abbreviation n := (Z.min limit (filesize (dirEnt dir) - ptr dir)).

Lemma read_unfold lookup f' buff : fat32_FAT_chain (Some d) (directoryCurr dir) needed f = Ok (lookup, f') ->
  fat32_read (Some d) beyond dir buff limit f =
  match read_clusters (Some d) f lookup beyond needed limit size (seqZ 0 (needed + 1))
          (mkReading (ptr dir) (directoryCurr dir) 0 [] (-1)) with
  | Ok r => Ok ((r_curr r, if buff then r_out r else [], fd_move (r_ptr r) (r_cluster r) dir), f')
  | Halted => Halted | Fault => Fault | Hang => Hang
  end.
Proof using Hf H Hlimit.
  intros E. unfold fat32_read. erewrite bind_ok by done. rewrite (fk_file _ _ _ H).
  pose proof (bpc_range f Hf). rewrite (proj2 (Z.eqb_neq bpc 0)) by lia.
  destruct (clusters_for_spec f limit Hf Hlimit) as (-> & _ & Hn). rewrite s32_small by lia. rewrite u32_small by lia.
  mrw E. unfold bind, lift. by destruct (read_clusters _ _ _ _ _ _ _ _ _).
Qed.

(** At the end of the file, on a cluster boundary. *)
Lemma read_at_end lookup : ptr dir = zlen cs * bpc -> length lookup = S (Z.to_nat needed) ->
  (directoryCurr dir = 0 /\ lookup !! 0%nat = Some 0 \/
   2 <= directoryCurr dir < 2 ^ 28 /\ on_drive f (directoryCurr dir) /\ lookup !! 0%nat = Some (directoryCurr dir) /\
     (0 < needed -> lookup !! 1%nat = Some 0)) ->
  exists k, read_clusters (Some d) f lookup beyond needed limit size (seqZ 0 (needed + 1))
    (mkReading (ptr dir) (directoryCurr dir) 0 [] (-1)) = Ok (mkReading (ptr dir) (directoryCurr dir) 0 [] k).
Proof using Hf H Hlimit.
  intros Hp Hl Hc. destruct (clusters_for_spec f limit Hf Hlimit) as (_ & _ & Hn). pose proof (bpc_range f Hf) as Hb.
  pose proof (fk_size _ _ _ H) as Hsz. rewrite seqZ_cons by lia. cbn [read_clusters].
  change (Z.to_nat 0) with 0%nat. change (Z.to_nat (0 + 1)) with 1%nat.
  destruct Hc as [[E0 E]|(Hr & Hon & E & E1)]; rewrite E; cbn [from_option id].
  { by exists (-1). }
  rewrite (proj2 (Z.eqb_neq (directoryCurr dir) 0)) by lia. cbn [r_start r_ptr r_curr r_out].
  change (-1 <? 0) with true. cbv iota. destruct (negb (0 =? needed - 1) && _) eqn:Eg.
  - apply andb_true_iff in Eg as [_ Eg%Z.eqb_eq]. rewrite u32_small in Eg by lia.
    destruct (decide (0 < needed)) as [Hpos|Hz]; [rewrite E1 in Eg by done; cbn in Eg; lia|].
    replace (Z.pred (needed + 1)) with 0 by lia. exists 0. done.
  - exists (-1). assert (Ht : forall bs, bs <> [] -> copy_loop bs limit size (ptr dir) 0 [] = (ptr dir, 0, [], true)).
    { intros [|b bs] Hne; [done|]. cbn [copy_loop]. rewrite (proj2 (Z.leb_le size (ptr dir))) by lia. by rewrite orb_true_r. }
    rewrite Hp, Z.mod_mul by lia. change (Z.to_nat 0) with 0%nat. rewrite drop_0, <- Hp, Ht; [done|].
    intros Hnil. pose proof (read_cluster_ok d f (directoryCurr dir) 1 Hf ltac:(lia) Hr) as HR.
    change (Z.of_nat 1 * sectors_per_cluster (bootsec f)) with (1 * sectors_per_cluster (bootsec f)) in HR.
    rewrite Z.mul_1_l, Hnil in HR. replace (directoryCurr dir + Z.of_nat 1 - 1) with (directoryCurr dir) in HR by lia.
    specialize (HR Hon). pose proof (zlen_cluster d f (directoryCurr dir) Hf) as Hz.
    change (seqZ (directoryCurr dir) (Z.of_nat 1)) with [0 + directoryCurr dir] in HR. rewrite Z.add_0_l in HR. cbn in HR. rewrite app_nil_r in HR.
    rewrite <- HR in Hz. change (zlen []) with 0 in Hz. lia.
Qed.

(** In front of it. *)
Lemma read_inside a lookup : cs !! a = Some (directoryCurr dir) ->
  Z.of_nat a * bpc <= ptr dir < (Z.of_nat a + 1) * bpc -> beyond_ok f cs (ptr dir) limit beyond ->
  length lookup = S (Z.to_nat needed) ->
  (forall i, (i <= Z.to_nat needed)%nat -> (i <= length (drop a cs))%nat -> lookup !! i = Some (default 0 (drop a cs !! i))) ->
  setting d f (drop a cs) lookup beyond needed limit size (Z.of_nat a * bpc) (ptr dir).
Proof using Hf H Hlimit.
  intros Ha Hp Hbey Hlen Hlk. pose proof (bpc_range f Hf) as Hb. destruct (clusters_for_spec f limit Hf Hlimit) as (_ & Hn & Hn2).
  destruct H as [H1 H2 H3 H4 H5 H6 H7 _]. pose proof (lookup_lt_Some _ _ _ Ha) as Hlt.
  assert (zlen (drop a cs) = zlen cs - Z.of_nat a) as Hz by (unfold zlen; rewrite length_drop; lia).
  split; try done.
  - by apply linked_drop.
  - by apply Forall_drop.
  - split; [lia|]. apply Z.mod_mul. lia.
  - lia.
  - lia.
  - rewrite Hz. lia.
  - intros c Hc. apply Hbey. rewrite lookup_drop in Hc. rewrite <- Hc. f_equal.
    replace (ptr dir / bpc) with (Z.of_nat a); [lia|]. apply (Z.div_unique_pos _ _ _ (ptr dir - Z.of_nat a * bpc)); lia.
Qed.

Lemma window_slice a : cs !! a = Some (directoryCurr dir) -> Z.of_nat a * bpc <= ptr dir -> 0 <= n ->
  slice (ptr dir - Z.of_nat a * bpc) n (window d f (drop a cs)) = slice (ptr dir) n (chain_data f cs).
Proof using Hf H.
  intros Ha Hp Hn. pose proof (bpc_range f Hf) as Hb. unfold window, chain_data. rewrite <- (take_drop a cs) at 2.
  rewrite fmap_app, join_app. pose proof (lookup_lt_Some _ _ _ Ha) as Hlt.
  assert (E : zlen (mjoin (cluster_bytes d f <$> take a cs)) = Z.of_nat a * bpc).
  { rewrite (zlen_mjoin bpc).
    - unfold zlen. rewrite length_fmap, length_take. f_equal. lia.
    - apply Forall_fmap, Forall_true. intros c. by apply zlen_cluster. }
  rewrite slice_app_r by lia. by rewrite E.
Qed.

Lemma ends_in_run_iff a : cs !! a = Some (directoryCurr dir) -> Z.of_nat a * bpc <= ptr dir < (Z.of_nat a + 1) * bpc ->
  stops_in_run f (drop a cs) needed limit size (Z.of_nat a * bpc) (ptr dir) <-> ends_in_run f cs (ptr dir) n limit.
Proof using Hf H Hlimit.
  intros Ha Hp. pose proof (bpc_range f Hf) as Hb. unfold stops_in_run, ends_in_run, stop.
  replace (ptr dir / bpc) with (Z.of_nat a).
  2:{ apply (Z.div_unique_pos _ _ _ (ptr dir - Z.of_nat a * bpc)); lia. }
  replace (Z.min (ptr dir + limit) size) with (ptr dir + n) by lia. split.
  - intros (e & c & E1 & E2 & E3 & E4 & E5). exists (a + e)%nat, c. rewrite lookup_drop in E4, E5.
    replace (a + e - 1)%nat with (a + (e - 1))%nat by lia. split; [lia|]. split; [lia|done].
  - intros (e & c & E1 & E2 & E3 & E4). exists (e - a)%nat, c. split; [lia|]. split; [lia|]. split; [lia|].
    rewrite !lookup_drop. replace (a + (e - a))%nat with e by lia. replace (a + (e - a - 1))%nat with (e - 1)%nat by lia. done.
Qed.

Lemma opened_chain a : cs !! a = Some (directoryCurr dir) ->
  exists lookup f', fat32_FAT_chain (Some d) (directoryCurr dir) needed f = Ok (lookup, f') /\ fat_ok d f' /\ same_fat f f' /\
    length lookup = S (Z.to_nat needed) /\
    forall i, (i <= Z.to_nat needed)%nat -> (i <= length (drop a cs))%nat -> lookup !! i = Some (default 0 (drop a cs !! i)).
Proof using Hf H Hlimit.
  intros Ha. destruct (clusters_for_spec f limit Hf Hlimit) as (_ & _ & Hn).
  apply fat32_FAT_chain_ok; [done|lia| |apply linked_drop, H]. by rewrite (drop_S _ _ _ Ha).
Qed.

Lemma moved_ok r a : cs !! a = Some (r_cluster r) -> r_ptr r = ptr dir + n ->
  Z.of_nat a * bpc <= r_ptr r -> (r_ptr r < (Z.of_nat a + 1) * bpc \/ S a = length cs /\ r_ptr r = zlen cs * bpc) ->
  file_ok f cs (fd_move (r_ptr r) (r_cluster r) dir).
Proof using H Hlimit.
  intros Ha Hr H1 H2. destruct H as [X1 X2 X3 X4 X5 X6 X7 _]. split; cbn; try done; [lia|]. left. by exists a.
Qed.

(** What a read does, with the table structure it leaves. *)
Definition reads (buff : bool) (f' : FAT32) : Prop :=
  (ends_in_run f cs (ptr dir) n limit -> fat32_read (Some d) beyond dir buff limit f = Fault) /\
  (~ ends_in_run f cs (ptr dir) n limit -> exists dir',
    fat32_read (Some d) beyond dir buff limit f =
      Ok ((n, if buff then slice (ptr dir) n (chain_data f cs) else [], dir'), f') /\
    file_ok f cs dir' /\ ptr dir' = ptr dir + n /\ dirEnt dir' = dirEnt dir).

Lemma reads_nothing buff lookup f' k : fat32_FAT_chain (Some d) (directoryCurr dir) needed f = Ok (lookup, f') ->
  ptr dir = zlen cs * bpc ->
  read_clusters (Some d) f lookup beyond needed limit size (seqZ 0 (needed + 1))
    (mkReading (ptr dir) (directoryCurr dir) 0 [] (-1)) = Ok (mkReading (ptr dir) (directoryCurr dir) 0 [] k) ->
  reads buff f'.
Proof using Hf H Hlimit.
  intros E Ep Ek. pose proof (bpc_range f Hf) as Hb. pose proof (fk_ptr _ _ _ H) as Hp. pose proof (fk_size _ _ _ H) as Hsz.
  unfold reads. assert (n = 0) as -> by lia. split.
  - intros (e & c & _ & [_ He] & Hc & _). exfalso. apply lookup_lt_Some in Hc. unfold zlen in *. nia.
  - intros _. exists dir. rewrite (read_unfold _ _ buff E), Ek. cbn [r_curr r_out r_ptr r_cluster].
    change (slice (ptr dir) 0 (chain_data f cs)) with (@nil Z).
    assert (fd_move (ptr dir) (directoryCurr dir) dir = dir) as -> by (by destruct dir).
    split; [done|]. split; [done|]. split; [lia|done].
Qed.

Lemma reads_inside buff a lookup f' : cs !! a = Some (directoryCurr dir) ->
  Z.of_nat a * bpc <= ptr dir < (Z.of_nat a + 1) * bpc -> beyond_ok f cs (ptr dir) limit beyond ->
  fat32_FAT_chain (Some d) (directoryCurr dir) needed f = Ok (lookup, f') -> length lookup = S (Z.to_nat needed) ->
  (forall i, (i <= Z.to_nat needed)%nat -> (i <= length (drop a cs))%nat -> lookup !! i = Some (default 0 (drop a cs !! i))) ->
  reads buff f'.
Proof using Hf H Hlimit.
  intros Ha Hpos Hbey E Hlen Hlk. pose proof (read_inside a lookup Ha Hpos Hbey Hlen Hlk) as St.
  destruct (clusters_for_spec f limit Hf Hlimit) as (_ & Hn1 & Hn). pose proof (fk_ptr _ _ _ H) as Hp.
  pose proof (lookup_lt_Some _ _ _ Ha) as Hlt. pose proof (bpc_range f Hf) as Hb.
  assert (G : good d f (drop a cs) needed limit size (Z.of_nat a * bpc) (ptr dir)
    (read_clusters (Some d) f lookup beyond needed limit size (seqZ 0 (needed + 1))
      (mkReading (ptr dir) (directoryCurr dir) 0 [] (-1)))).
  { pose proof (proj1 (read_clusters_ok d f _ _ _ _ _ _ _ _ St (Z.to_nat (needed + 1)) 0
      (mkReading (ptr dir) (directoryCurr dir) 0 [] (-1)) ltac:(lia) ltac:(rewrite (drop_S _ _ _ Ha); done))) as G.
    rewrite Z2Nat.id in G by lia. apply G; [done| |lia|by left|by left].
    split; cbn [r_curr r_ptr r_out]; [lia|by rewrite Z.sub_diag|unfold stop; lia|lia]. }
  unfold reads. rewrite <- (ends_in_run_iff a Ha Hpos). rewrite (read_unfold _ _ buff E).
  destruct G as [[-> Hs]|(r & -> & [F1 F2 F3 (j & F4 & F5 & F6)] & Hs)]; [by split|]. split; [done|]. intros _.
  assert (Eq : stop limit size (ptr dir) = ptr dir + n) by (unfold stop; lia). rewrite Eq in *.
  replace (ptr dir + n - ptr dir) with n in * by lia. rewrite window_slice in F3 by (done || lia).
  eexists. split; [by rewrite F2, F3|]. split; [|by rewrite <- F1].
  rewrite lookup_drop in F4. assert (zlen (drop a cs) = zlen cs - Z.of_nat a) as Hz by (unfold zlen; rewrite length_drop; lia).
  apply (moved_ok r (a + j)%nat); [done|done|lia|]. rewrite length_drop in F6.
  destruct F6 as [F6|[F6 F7]]; [left; lia|right]. split; [lia|]. rewrite F1, F7, Hz. lia.
Qed.

Lemma fat32_read_ok buff : beyond_ok f cs (ptr dir) limit beyond -> exists f', fat_ok d f' /\ same_fat f f' /\ reads buff f'.
Proof using Hf H Hlimit.
  intros Hbey. destruct (clusters_for_spec f limit Hf Hlimit) as (_ & _ & Hn).
  destruct (fk_pos _ _ _ H) as [(a & Ha & Hlo & [Hhi|[Hlast Hhi]])|[Hz Hhi]].
  - destruct (opened_chain a Ha) as (lookup & f' & E & Hf' & Sf & Hlen & Hlk). exists f'. split; [done|]. split; [done|].
    by apply (reads_inside buff a lookup).
  - destruct (opened_chain a Ha) as (lookup & f' & E & Hf' & Sf & Hlen & Hlk). exists f'. split; [done|]. split; [done|].
    assert (Hd : length (drop a cs) = 1%nat) by (rewrite length_drop; lia).
    destruct (read_at_end lookup Hhi Hlen) as (k & Ek); [|by apply (reads_nothing buff lookup f' k)]. right.
    split; [by apply (linked_range d f cs a), Ha; apply H|]. split; [by apply (Forall_lookup_1 _ _ _ _ (fk_drive _ _ _ H) Ha)|].
    split; [rewrite Hlk by lia; by rewrite lookup_drop, Nat.add_0_r, Ha|]. intros Hpos. rewrite Hlk by lia.
    by rewrite lookup_ge_None_2 by lia.
  - destruct (fat32_FAT_chain_ok d f (directoryCurr dir) [] needed Hf ltac:(lia) Hz I) as (lookup & f' & E & Hf' & Sf & Hlen & Hlk).
    exists f'. split; [done|]. split; [done|]. destruct (read_at_end lookup Hhi Hlen) as (k & Ek); [|by apply (reads_nothing buff lookup f' k)].
    left. split; [done|]. by rewrite Hlk by (cbn; lia).
Qed.

End reading.
(** ** Seeking *)

Lemma skip_clusters_ok n : forall f cs a c, fat_ok d f -> linked d f cs -> cs !! a = Some c -> (a + n <= length cs)%nat ->
  exists f', skip_clusters (Some d) n c f = Ok (default 0 (cs !! (a + n)%nat), f') /\ fat_ok d f' /\ same_fat f f'.
Proof.
  induction n as [|n IH]; intros f cs a c Hf Hl Ha Hn.
  - exists f. rewrite Nat.add_0_r, Ha. split; [done|]. split; [done|apply same_fat_refl].
  - cbn [skip_clusters]. pose proof (linked_range d f cs a c Hl Ha) as Hr.
    destruct (fat32_FAT_traverse_ok d f c Hf ltac:(lia)) as (f1 & E1 & Hf1 & S1).
    pose proof (linked_drop d f a cs Hl) as Hd. rewrite (drop_S _ _ _ Ha) in Hd. destruct Hd as (_ & Hent & _).
    mrw E1. rewrite Hent, head_lookup, lookup_drop. replace (S a + 0)%nat with (a + 1)%nat by lia.
    destruct (cs !! (a + 1)%nat) as [c'|] eqn:Ec; cbn [from_option id].
    + pose proof (linked_range d f cs (a + 1) c' Hl Ec). rewrite (proj2 (Z.eqb_neq c' 0)) by lia.
      destruct (IH f1 cs (a + 1)%nat c' Hf1) as (f2 & E2 & Hf2 & S2); [by apply (same_fat_linked d f)|done|lia|].
      exists f2. rewrite E2. replace (a + 1 + n)%nat with (a + S n)%nat by lia. split; [done|]. split; [done|].
      by eapply same_fat_trans.
    + apply lookup_ge_None in Ec. rewrite (lookup_ge_None_2 cs (a + S n)) by lia. by exists f1.
Qed.

(** The position a seek asks for. *)
Definition seek_position (dir : FAT32OpenFd) (target whence : Z) : Z :=
  if whence =? SEEK_CURR then target + ptr dir else target.

Lemma fat32_seek_ok f cs dir target offset whence : fat_ok d f -> file_ok f cs dir -> filesize (dirEnt dir) < 2 ^ 31 ->
  0 <= target < 2 ^ 63 -> let pos := seek_position dir target whence in
  exists f', fat_ok d f' /\ same_fat f f' /\
    (filesize (dirEnt dir) < pos -> fat32_seek (Some d) dir target offset whence f = Ok ((u64 (- EINVAL), dir), f')) /\
    (pos <= filesize (dirEnt dir) -> exists dir', fat32_seek (Some d) dir target offset whence f = Ok ((pos, dir'), f') /\
       file_ok f cs dir' /\ ptr dir' = pos /\ dirEnt dir' = dirEnt dir).
Proof.
  intros Hf H Hs Ht pos. pose proof (bpc_range f Hf) as Hb. pose proof (fk_ptr _ _ _ H) as Hp. pose proof (fk_size _ _ _ H) as Hsz.
  assert (Epos : (if whence =? SEEK_CURR then u64 (target + ptr dir) else target) = pos).
  { unfold pos, seek_position. destruct (whence =? SEEK_CURR); [rewrite u64_small; lia|done]. }
  assert (Hpos : 0 <= pos) by (unfold pos, seek_position; destruct (whence =? SEEK_CURR); lia).
  unfold fat32_seek. setoid_rewrite (bind_ok get _ f f f eq_refl). rewrite Epos, (fk_file _ _ _ H).
  destruct (Z.ltb_spec (filesize (dirEnt dir)) pos) as [Hbig|Hok].
  { exists f. split; [done|]. split; [apply same_fat_refl|]. split; [done|lia]. }
  rewrite (s32_small (ptr dir)), (u64_small (ptr dir)) by lia. rewrite (proj2 (Z.eqb_neq (bytesPerCluster f) 0)) by lia.
  assert (Hdiv : 0 <= pos / bytesPerCluster f <= zlen cs).
  { split; [apply Z.div_pos; lia|]. apply Z.div_le_upper_bound; lia. }
  pose proof (Z.div_mod pos (bytesPerCluster f) ltac:(lia)) as Hdm.
  pose proof (Z.mod_pos_bound pos (bytesPerCluster f) ltac:(lia)) as Hm.
  assert (Hq : pos / bytesPerCluster f < 2 ^ 31) by (apply Z.div_lt_upper_bound; nia).
  rewrite (s32_small (pos / _)), (u32_small pos) by lia.
  (* the cluster the loop starts at, and how far it is from the one wanted *)
  assert (G : forall start steps,
    (exists a, cs !! a = Some start /\ Z.of_nat a + steps = pos / bytesPerCluster f /\ 0 <= steps) \/
    (steps = 0 /\ ((exists a, cs !! a = Some start /\ S a = length cs) \/ start = 0) /\ pos = zlen cs * bytesPerCluster f) ->
    exists f', fat_ok d f' /\ same_fat f f' /\
      (filesize (dirEnt dir) < pos -> (let! curr := skip_clusters (Some d) (Z.to_nat steps) start in
         ret (pos, fd_move pos curr dir)) f = Ok ((u64 (- EINVAL), dir), f')) /\
      (pos <= filesize (dirEnt dir) -> exists dir', (let! curr := skip_clusters (Some d) (Z.to_nat steps) start in
         ret (pos, fd_move pos curr dir)) f = Ok ((pos, dir'), f') /\
         file_ok f cs dir' /\ ptr dir' = pos /\ dirEnt dir' = dirEnt dir)).
  { intros start steps [(a & Ha & Hsum & Hst)|(-> & Hpos0 & Heq)].
    - pose proof (lookup_lt_Some _ _ _ Ha) as Hlt. unfold zlen in Hdiv.
      destruct (skip_clusters_ok (Z.to_nat steps) f cs a start Hf (fk_linked _ _ _ H) Ha ltac:(lia)) as (f' & E & Hf' & Sf).
      exists f'. split; [done|]. split; [done|]. split; [lia|]. intros _. eexists. split; [by mrw E|]. split; [|done].
      destruct H as [X1 X2 X3 X4 X5 X6 X7 _]. split; cbn; try done.
      destruct (cs !! (a + Z.to_nat steps)%nat) as [c|] eqn:Ec; cbn.
      + left. exists (a + Z.to_nat steps)%nat. split; [done|]. replace (Z.of_nat (a + Z.to_nat steps)) with (pos / bytesPerCluster f) by lia.
        split; [lia|]. left. lia.
      + right. split; [done|]. apply lookup_ge_None in Ec. unfold zlen in *. nia.
    - exists f. split; [done|]. split; [apply same_fat_refl|]. split; [lia|]. intros _. eexists. split; [done|]. split; [|done].
      destruct H as [X1 X2 X3 X4 X5 X6 X7 _]. split; cbn; try done.
      destruct Hpos0 as [(a & Ha & HS)| ->]; [left|by right]. exists a. split; [done|]. unfold zlen in *. split; [nia|]. right. done. }
  destruct (Z.ltb_spec pos (ptr dir)) as [Hback|Hfwd]; apply G; clear G.
  - left. exists 0%nat. rewrite Z.quot_0_l by lia. rewrite (fk_first _ _ _ H). destruct cs as [|c0 cs0].
    + change (zlen []) with 0 in *. lia.
    + cbn. split; [done|]. split; [lia|lia].
  - rewrite Z.quot_div_nonneg by lia. destruct (fk_pos _ _ _ H) as [(a & Ha & Hlo & [Hhi|[Hlast Hhi]])|[Hz Hhi]].
    + left. exists a. split; [done|]. replace (ptr dir / bytesPerCluster f) with (Z.of_nat a).
      * split; [lia|]. enough (Z.of_nat a <= pos / bytesPerCluster f) by lia. apply Z.div_le_lower_bound; lia.
      * apply (Z.div_unique_pos _ _ _ (ptr dir - Z.of_nat a * bytesPerCluster f)); lia.
    + right. assert (pos = ptr dir) as -> by lia. split; [lia|]. split; [left; by exists a|done].
    + right. assert (pos = ptr dir) as -> by lia. split; [lia|]. split; [by right|done].
Qed.

End file.

(** ** Mounting *)

(** What a mount relies on in the first sector of the partition. *)
Record bootable (lba : Z) (bs : FAT32BootSector) : Prop := {
  bo_sector : bytes_per_sector bs = SECTOR_SIZE;
  bo_spc : 0 < sectors_per_cluster bs < 256;
  bo_fats : 0 <= lba /\ 0 <= reserved_sector_count bs /\ lba + reserved_sector_count bs < 2 ^ 31;
  bo_clusters : 0 <= table_count bs * table_size_32 (extended_section bs) < 2 ^ 31;
}.

Lemma fat32_mount_ok d lba : bootable lba (decode_bootsector (get_disk_bytes (Some d) lba 1)) ->
  exists f, fat32_mount (Some d) lba = Ok f /\ fat_ok d f /\
    bootsec f = decode_bootsector (get_disk_bytes (Some d) lba 1) /\ offsetFats f = lba + reserved_sector_count (bootsec f) /\
    offsetClusters f = offsetFats f + table_count (bootsec f) * table_size_32 (extended_section (bootsec f)).
Proof.
  intros [B1 B2 B3 B4]. unfold fat32_mount. set (bs := decode_bootsector _) in *. rewrite B1, Z.eqb_refl. cbn [negb].
  rewrite (u64_small (lba + _)), (u32_small (table_count bs * _)), u64_small by lia. eexists. split; [done|].
  split; [|done]. split; cbn [bootsec offsetFats offsetClusters cache cacheBase cacheCurr]; try (lia || done).
  - intros i buf [-> _]%lookup_replicate. rewrite zlen_replicate; [done|]. unfold SECTOR_SIZE. lia.
  - intros i b buf [-> _]%lookup_replicate _ Hb. by destruct Hb.
Qed.
