(* ===== verification/Fat32Paths.v ===== *)
(** * FAT32: path resolution and opening

    [fat_resolves] says what a list of components names in the directories of the
    volume; [fat32_traverse_path] and [fat32_open] compute it. *)

From S2P Require Import Prelude Bytes FileTypes Paths Disk Fat32 Fat32Files Fat32Table Fat32Read Fat32Dirs Fat32Opened.

Section paths.
Context (d : gmap Z Z).

(** The result for the item found in a directory. *)
Definition found_at (f : FAT32) (cs : list Z) (pe : Z * list Z) : FAT32TraverseResult :=
  result_at f cs (Some (pe.1, decode_dirent pe.2)).

(** What a path names from the directory that begins at a cluster on; in each
    directory the search for the component is exact. *)
Inductive fat_resolves (f : FAT32) : Z -> list (list Z) -> FAT32TraverseResult -> Prop :=
| fr_missing c cs items x xs :
    dir_ok d f cs items -> head cs = Some c -> searchable items x -> find_item items x 0 = None -> fat_resolves f c (x :: xs) no_result
| fr_last c cs items x pe :
    dir_ok d f cs items -> head cs = Some c -> searchable items x -> find_item items x 0 = Some pe -> fat_resolves f c [x] (found_at f cs pe)
| fr_step c cs items x xs pe r :
    dir_ok d f cs items -> head cs = Some c -> searchable items x -> find_item items x 0 = Some pe -> xs <> [] ->
    fat_resolves f (first_cluster (decode_dirent pe.2)) xs r -> fat_resolves f c (x :: xs) r.

Lemma same_fat_dir f g cs items : same_fat f g -> dir_ok d f cs items -> dir_ok d g cs items.
Proof.
  intros S [H1 H2 H3 H4 H5 H6]. pose proof (same_fat_linked d f g cs S H2). destruct S as (? & ? & ? & ->). by split.
Qed.

Lemma same_fat_resolves f g c xs r : same_fat f g -> fat_resolves f c xs r -> fat_resolves g c xs r.
Proof.
  intros S. induction 1 as [c cs items x xs D Hh Hx Hn|c cs items x pe D Hh Hx Hs|c cs items x xs pe r D Hh Hx Hs Hne _ IH].
  - by eapply fr_missing; [eapply same_fat_dir|..].
  - assert (found_at f cs pe = found_at g cs pe) as -> by (by destruct S as (? & ? & ? & ->)).
    by eapply fr_last; [eapply same_fat_dir|..].
  - by eapply fr_step; [eapply same_fat_dir|..].
Qed.

Lemma dir_entries_zlen f cs : fat_ok d f -> 32 * zlen (dir_entries d f cs) = zlen cs * bytesPerCluster f.
Proof.
  intros H. induction cs as [|c cs IH]; [done|].
  change (dir_entries d f (c :: cs)) with (entries_of (cluster_bytes d f c) ++ dir_entries d f cs).
  rewrite zlen_app, Z.mul_add_distr_l, IH, entries_length by done. unfold zlen. cbn [length]. lia.
Qed.

(** The cluster of an item that was found is one of the directory's. *)
Lemma found_directory f cs items x pe : fat_ok d f -> dir_ok d f cs items -> searchable items x -> find_item items x 0 = Some pe ->
  2 <= directory (found_at f cs pe) < 2 ^ 28.
Proof.
  intros Hf [H1 H2 H3 H4 H5 H6] Hx Hs. pose proof (scan_items items 0 x H5 Hx) as E. rewrite <- H6, Hs in E. destruct pe as [p e].
  apply scan_range in E. rewrite dir_entries_zlen in E by done. pose proof (bpc_range d f Hf) as Hb.
  assert (Hp : 0 <= p / bytesPerCluster f < zlen cs).
  { split; [apply Z.div_pos; lia|]. apply Z.div_lt_upper_bound; lia. }
  cbn [found_at result_at directory fst snd]. unfold zlen in Hp.
  destruct (lookup_lt_is_Some_2 cs (Z.to_nat (p / bytesPerCluster f)) ltac:(lia)) as [c Hc].
  rewrite (list_lookup_total_correct _ _ _ Hc). by apply (linked_range d f cs _ c H2 Hc).
Qed.

#[local] Abbreviation walk path f := (fun is_ dir ls => path_loop (Some d) path is_ dir ls f).

Lemma path_loop_skip path f i is_ dir ls : path !!! Z.to_nat i <> slash -> i <> zlen path - 1 ->
  walk path f (i :: is_) dir ls = walk path f is_ dir ls.
Proof. intros Hs Hl. cbn [path_loop]. by rewrite (proj2 (Z.eqb_neq _ _) Hs), (proj2 (Z.eqb_neq _ _) Hl). Qed.

Section component.
Context (f : FAT32) (pre c post : list Z) (dir : Z) (cs : list Z) (items : list item).
Context (Hf : fat_ok d f) (Hc : component c) (D : dir_ok d f cs items) (Hh : head cs = Some dir) (Hs : searchable items c).
#[local] Abbreviation path := (pre ++ slash :: c ++ post).
#[local] Abbreviation res := (result_at f cs ((fun pe => (pe.1, decode_dirent pe.2)) <$> find_item items c 0)).

Lemma traverse_component : exists f', fat32_traverse (Some d) dir c f = Ok (res, f') /\ fat_ok d f' /\ same_fat f f'.
Proof using Hf D Hh Hs. pose proof (fat32_traverse_ok d f cs items c Hf D Hs) as H. by rewrite Hh in H. Qed.

Lemma path_last : post = [] -> exists f',
  path_loop (Some d) path (seqZ (zlen pre + 1) (zlen path - (zlen pre + 1))) dir (zlen pre) f = Ok (res, f') /\ fat_ok d f' /\ same_fat f f'.
Proof using Hf Hc D Hh Hs.
  intros Hp. destruct (path_len pre c post Hc) as [Hl Hc0]. assert (zlen post = 0) by (by rewrite Hp).
  pose proof (zlen_nonneg pre).
  rewrite (walk_component path (walk path f) (path_loop_skip path f) pre c post (zlen c - 1)) by (done || lia).
  rewrite seqZ_cons by lia. cbn [path_loop].
  replace (zlen pre + 1 + (zlen c - 1) =? zlen path - 1) with true by (symmetry; apply Z.eqb_eq; lia).
  rewrite orb_true_r. replace (zlen pre + 1 + (zlen c - 1) - zlen pre - 1 + 1) with (zlen c) by lia.
  rewrite path_slice. destruct traverse_component as (f' & E & Hf' & S'). exists f'. mrw E. by rewrite orb_true_r.
Qed.

Lemma path_inner post' : post = slash :: post' -> post' <> [] ->
  let ls := zlen (pre ++ slash :: c) in
  exists f', fat_ok d f' /\ same_fat f f' /\
    path_loop (Some d) path (seqZ (zlen pre + 1) (zlen path - (zlen pre + 1))) dir (zlen pre) f =
      if directory res =? 0 then Ok (res, f')
      else path_loop (Some d) path (seqZ (ls + 1) (zlen path - (ls + 1))) (first_cluster (dirEntry res)) ls f'.
Proof using Hf Hc D Hh Hs.
  intros Hp Hne ls. destruct (path_len pre c post Hc) as [Hl Hc0].
  assert (zlen post = 1 + zlen post' /\ 0 < zlen post') as [Hpl Hpp].
  { rewrite Hp. destruct post'; [done|]. unfold zlen. cbn. lia. }
  assert (ls = zlen pre + 1 + zlen c) as Els.
  { subst ls. rewrite zlen_app. change (zlen (slash :: c)) with (zlen ([slash] ++ c)).
    rewrite zlen_app. change (zlen [slash]) with 1. lia. }
  pose proof (zlen_nonneg pre).
  rewrite (walk_component path (walk path f) (path_loop_skip path f) pre c post (zlen c)) by (done || lia).
  rewrite <- Els. rewrite seqZ_cons by lia. cbn [path_loop].
  assert (path !!! Z.to_nat ls = slash) as -> by (rewrite Hp; apply path_slash).
  rewrite Z.eqb_refl. cbn [orb]. rewrite (proj2 (Z.eqb_neq ls (zlen path - 1))) by lia.
  replace (ls - zlen pre - 1) with (zlen c) by lia. rewrite path_slice.
  destruct traverse_component as (f' & E & Hf' & S'). exists f'. split; [done|]. split; [done|]. mrw E. rewrite orb_false_r.
  destruct (directory res =? 0); [done|]. by replace (Z.pred (zlen path - ls)) with (zlen path - (ls + 1)) by lia.
Qed.

End component.

Lemma path_loop_resolves f c xs r : fat_resolves f c xs r -> Forall component xs -> forall pre g, fat_ok d g -> same_fat f g ->
  exists g', path_loop (Some d) (pre ++ path_of xs) (seqZ (zlen pre + 1) (zlen (pre ++ path_of xs) - (zlen pre + 1))) c (zlen pre) g =
    Ok (r, g') /\ fat_ok d g' /\ same_fat f g'.
Proof.
  induction 1 as [c cs items x xs D Hh Hse Hn|c cs items x pe D Hh Hse Hs|c cs items x xs pe r D Hh Hse Hs Hne R IH];
    intros Hcomp pre g Hg S; apply Forall_cons in Hcomp as [Hx Hcomp]; rewrite path_of_cons;
    pose proof (same_fat_dir f g cs items S D) as Dg.
  - destruct xs as [|x' xs].
    + change (path_of []) with (@nil Z). destruct (path_last g pre x [] c cs items Hg Hx Dg Hh Hse eq_refl) as (g' & E & Hg' & S').
      rewrite Hn in E. exists g'. split; [exact E|]. split; [done|by eapply same_fat_trans].
    + rewrite path_of_cons. destruct (path_inner g pre x _ c cs items Hg Hx Dg Hh Hse (x' ++ path_of xs) eq_refl) as (g' & Hg' & S' & E).
      { apply Forall_cons in Hcomp as [[Hx' _] _]. by destruct x'. }
      rewrite Hn in E. exists g'. split; [exact E|]. split; [done|by eapply same_fat_trans].
  - change (path_of []) with (@nil Z). destruct (path_last g pre x [] c cs items Hg Hx Dg Hh Hse eq_refl) as (g' & E & Hg' & S').
    rewrite Hs in E. exists g'. split; [|split; [done|by eapply same_fat_trans]]. rewrite E. do 2 f_equal.
    by destruct S as (? & ? & ? & ->).
  - pose proof (found_directory g cs items x pe Hg Dg Hse Hs) as Hdir. destruct xs as [|x' xs]; [done|]. rewrite path_of_cons.
    destruct (path_inner g pre x _ c cs items Hg Hx Dg Hh Hse (x' ++ path_of xs) eq_refl) as (g' & Hg' & S' & E).
    { apply Forall_cons in Hcomp as [[Hx' _] _]. by destruct x'. }
    rewrite Hs in E. change (result_at g cs ((fun pe => (pe.1, decode_dirent pe.2)) <$> Some pe)) with (found_at g cs pe) in E.
    rewrite (proj2 (Z.eqb_neq (directory (found_at g cs pe)) 0)) in E by lia.
    change (first_cluster (dirEntry (found_at g cs pe))) with (first_cluster (decode_dirent pe.2)) in E.
    destruct (IH Hcomp (pre ++ slash :: x) g' Hg') as (g2 & E2 & Hg2 & S2); [by eapply same_fat_trans|].
    exists g2. split; [|done]. rewrite E. rewrite path_of_cons in E2. rewrite <- app_assoc in E2. exact E2.
Qed.

Lemma fat32_traverse_path_ok f root xs r : fat_ok d f -> fat_resolves f root xs r -> xs <> [] -> Forall component xs ->
  exists f', fat32_traverse_path (Some d) (path_of xs) root f = Ok (r, f') /\ fat_ok d f' /\ same_fat f f'.
Proof.
  intros Hf R Hne Hc. pose proof (path_of_zlen xs Hne Hc). unfold fat32_traverse_path. setoid_rewrite (bind_ok get _ f f f eq_refl).
  rewrite (proj2 (Z.eqb_neq _ _)) by lia. exact (path_loop_resolves f root xs r R Hc [] f Hf (same_fat_refl f)).
Qed.

End paths.
