(* ===== verification/Fat32Theorems.v ===== *)
(** * FAT32: theorems

    Opening, reading, seeking and searching on a FAT32 volume, with a small volume on
    which the hypotheses hold. *)

From S2P Require Import Prelude Bytes FileTypes Paths Disk Fat32 Fat32Files Fat32Table Fat32Read Fat32Dirs Fat32Opened Fat32Paths.

(** ** A small volume *)

Definition sector_of (l : list (Z * list Z)) : gmap Z Z := foldr (fun p d => write_at d p.1 p.2) ∅ l.

(** A directory entry: eleven characters, attributes, first cluster, size. *)
Definition sample_entry (name : list Z) (attr cluster size : Z) : list Z :=
  name ++ [attr] ++ replicate 8 0 ++ le 2 (cluster / 65536) ++ replicate 4 0 ++ le 2 (cluster mod 65536) ++ le 4 size.

(** [HELLO~1.TXT], with the long name [hello.txt], and [DATA.BIN]. *)
Definition hello_name : list Z := [104; 101; 108; 108; 111; 46; 116; 120; 116].
Definition hello_entry : list Z := sample_entry [72; 69; 76; 76; 79; 126; 49; 32; 84; 88; 84] 0x20 3 700.
Definition data_base : list Z := [68; 65; 84; 65].
Definition data_ext : list Z := [66; 73; 78].
Definition data_name : list Z := [68; 65; 84; 65; 46; 66; 73; 78].
Definition data_entry : list Z := sample_entry [68; 65; 84; 65; 32; 32; 32; 32; 66; 73; 78] 0x20 6 600.

Definition sample_items : list item :=
  [Long hello_name 0 hello_entry; Short data_base data_ext data_entry] ++ replicate 13 (Skip (replicate 32 0)).

(** One sector per cluster, the table in sectors 2 and 3, clusters from sector 4 on;
    the chains are 2, 3-5 and 6-7. *)
Definition sample_disk : gmap Z Z := sector_of
  [(11, [0; 2; 1; 2; 0; 1]); (36, [2; 0; 0; 0]); (44, [2; 0; 0; 0]);
   (1024, le 4 0x0FFFFFF8 ++ le 4 0x0FFFFFFF ++ le 4 0x0FFFFFFF ++ le 4 5 ++ le 4 0 ++ le 4 0x0FFFFFFF ++ le 4 7 ++ le 4 0x0FFFFFFF);
   (2048, mjoin (mjoin (item_entries <$> [Long hello_name 0 hello_entry; Short data_base data_ext data_entry])));
   (2560, hello_name); (3584, data_name); (4096, data_name)].

Definition sample_fat : FAT32 :=
  match fat32_mount (Some sample_disk) 0 with
  | Ok f => f
  | _ => mkFat 0 0 0 (decode_bootsector []) [] [] 0
  end.

Definition hello_fd : FAT32OpenFd := mkOpenFd 0 32 2 3 (decode_dirent hello_entry).
Definition data_fd : FAT32OpenFd := mkOpenFd 0 64 2 6 (decode_dirent data_entry).

Lemma sample_fat_ok : fat_ok sample_disk sample_fat.
Proof.
  destruct (fat32_mount_ok sample_disk 0) as (f & E & Hf & _).
  - split; [vm_compute; reflexivity|vm_compute; split; reflexivity|vm_compute; split_and!; done|vm_compute; split; done].
  - unfold sample_fat. by rewrite E.
Qed.

Lemma sample_linked : linked sample_disk sample_fat [2] /\ linked sample_disk sample_fat [3; 5] /\ linked sample_disk sample_fat [6; 7].
Proof. vm_compute. split_and!; done. Qed.

Lemma sample_on_drive c : 2 <= c < 1000 -> on_drive sample_fat c.
Proof.
  intros Hc. unfold on_drive. assert (offsetClusters sample_fat = 4 /\ sectors_per_cluster (bootsec sample_fat) = 1) as [-> ->].
  { vm_compute. done. }
  lia.
Qed.

Lemma sample_bpc : bytesPerCluster sample_fat = 512.
Proof. vm_compute. reflexivity. Qed.

Lemma sample_chain cs : Forall (fun c => 2 <= c < 1000) cs -> Forall (on_drive sample_fat) cs.
Proof. intros H. eapply Forall_impl; [exact H|]. apply sample_on_drive. Qed.

(** A descriptor at the beginning of a file of two clusters. *)
Lemma sample_file_ok c c' i k e : linked sample_disk sample_fat [c; c'] -> 2 <= c < 1000 -> 2 <= c' < 1000 ->
  is_directory e = false -> first_cluster e = c -> 512 < filesize e <= 1024 ->
  file_ok sample_disk sample_fat [c; c'] (mkOpenFd 0 i k c e).
Proof.
  intros Hl Hc Hc' Hd Hfc Hsz. split; rewrite ?sample_bpc; cbn [dirEnt ptr directoryCurr]; change (zlen [c; c']) with 2; try done; try lia.
  - apply sample_chain. by repeat (apply Forall_cons; split; [done|]).
  - left. exists 0%nat. split; [done|]. lia.
Qed.

Lemma hello_file_ok : file_ok sample_disk sample_fat [3; 5] hello_fd.
Proof.
  apply sample_file_ok; [apply sample_linked|lia|lia|reflexivity|reflexivity|]. change (filesize _) with 700. lia.
Qed.

Lemma data_file_ok : file_ok sample_disk sample_fat [6; 7] data_fd.
Proof.
  apply sample_file_ok; [apply sample_linked|lia|lia|reflexivity|reflexivity|]. change (filesize _) with 600. lia.
Qed.

Lemma data_name83 : name83 data_base data_ext.
Proof.
  split; [split; done|done| |by right].
  split; repeat (apply Forall_cons; split; [left; lia|]); constructor.
Qed.

(** Neither name is an abbreviation of the other. *)
Lemma hello_searchable : searchable sample_items hello_name.
Proof. left. right. apply Exists_cons_hd. unfold plain_char. lia. Qed.
Lemma data_searchable : searchable sample_items data_name.
Proof.
  right. exists data_base, data_ext. split; [exact data_name83|]. split; [done|].
  apply Forall_cons. split; [by intros []|]. apply Forall_cons. split; [by intros (_ & _ & H)|].
  apply Forall_replicate. by intros [].
Qed.

Lemma sample_root_ok : dir_ok sample_disk sample_fat [2] sample_items.
Proof.
  split.
  - done.
  - apply sample_linked.
  - apply sample_chain. by repeat (apply Forall_cons; split; [done|]).
  - apply Forall_singleton. assert (table_size_32 (extended_section (bootsec sample_fat)) = 2) as -> by (vm_compute; reflexivity). lia.
  - apply Forall_cons. split; [|apply Forall_cons; split; [split; [exact data_name83|]|]].
    + split; [done|]. split; [by repeat (apply Forall_cons; split; [done|])|]. split; [done|]. by right.
    + split; [reflexivity|]. by right.
    + apply Forall_replicate. split; [done|]. left. cbn. set_solver.
  - vm_compute. reflexivity.
Qed.

(** ** Theorems *)

(** C18: on a FAT32 volume a read of a file returns exactly the bytes from the
    position on, as many as were asked for or as the file has left, whatever sectors
    of the table are cached, and leaves descriptor and cache in a state from which
    the next read works; except that when the read ends inside a run of neighbouring
    clusters the buffer of the run is freed twice. *)
Theorem fat32_read_returns_file d f cs dir limit beyond :
  fat_ok d f -> file_ok d f cs dir -> 0 <= limit < 2 ^ 30 -> beyond_ok f cs (ptr dir) limit beyond ->
  let n := Z.min limit (filesize (dirEnt dir) - ptr dir) in
  exists f', fat_ok d f' /\ same_fat f f' /\
    (ends_in_run f cs (ptr dir) n limit -> fat32_read (Some d) beyond dir true limit f = Fault) /\
    (~ ends_in_run f cs (ptr dir) n limit -> exists dir',
      fat32_read (Some d) beyond dir true limit f = Ok ((n, slice (ptr dir) n (chain_data d f cs), dir'), f') /\
      file_ok d f' cs dir' /\ ptr dir' = ptr dir + n).
Proof.
  intros Hf H Hl Hb n. destruct (fat32_read_ok d f cs dir limit beyond Hf H Hl true Hb) as (f' & Hf' & Sf & H1 & H2).
  exists f'. split; [done|]. split; [done|]. split; [done|]. intros Hn. destruct (H2 Hn) as (dir' & E & Hk & Hp & _).
  exists dir'. split; [done|]. split; [by apply (same_fat_file d f)|done].
Qed.

(** No run in the chain 3-5. *)
Lemma hello_no_run p n limit : ~ ends_in_run sample_fat [3; 5] p n limit.
Proof.
  intros (e & c & _ & _ & H1 & H2). destruct e as [|[|e]]; [injection H1 as <-|injection H1 as <-|by destruct e]; by injection H2.
Qed.

Lemma hello_beyond p limit beyond : beyond = 0 -> beyond_ok sample_fat [3; 5] p limit beyond.
Proof.
  intros -> c Hc. destruct (Z.to_nat _) as [|[|k]]; [injection Hc as <-|injection Hc as <-|by destruct k]; lia.
Qed.

Lemma fat32_read_returns_file_witness :
  let n := Z.min 600 (filesize (dirEnt hello_fd) - ptr hello_fd) in
  exists f', fat_ok sample_disk f' /\ same_fat sample_fat f' /\
    (ends_in_run sample_fat [3; 5] (ptr hello_fd) n 600 -> fat32_read (Some sample_disk) 0 hello_fd true 600 sample_fat = Fault) /\
    (~ ends_in_run sample_fat [3; 5] (ptr hello_fd) n 600 -> exists dir',
      fat32_read (Some sample_disk) 0 hello_fd true 600 sample_fat =
        Ok ((n, slice (ptr hello_fd) n (chain_data sample_disk sample_fat [3; 5]), dir'), f') /\
      file_ok sample_disk f' [3; 5] dir' /\ ptr dir' = ptr hello_fd + n).
Proof.
  apply fat32_read_returns_file; [exact sample_fat_ok|exact hello_file_ok|lia|by apply hello_beyond].
Defined.

(** [fat32_seek] to a position inside a file (below 2 GiB) moves the descriptor
    there, forwards along the chain or from its start again, and the next read
    returns the bytes at that position; a position behind the end is refused with
    [-EINVAL] and changes nothing. *)
Theorem fat32_seek_then_read d f cs dir target offset whence limit beyond :
  fat_ok d f -> file_ok d f cs dir -> filesize (dirEnt dir) < 2 ^ 31 -> 0 <= target < 2 ^ 63 -> 0 <= limit < 2 ^ 30 ->
  let pos := seek_position dir target whence in
  let n := Z.min limit (filesize (dirEnt dir) - pos) in
  beyond_ok f cs pos limit beyond -> ~ ends_in_run f cs pos n limit ->
  exists f', fat_ok d f' /\
    (filesize (dirEnt dir) < pos -> fat32_seek (Some d) dir target offset whence f = Ok ((u64 (- EINVAL), dir), f')) /\
    (pos <= filesize (dirEnt dir) -> exists dir' dir2 f2,
      fat32_seek (Some d) dir target offset whence f = Ok ((pos, dir'), f') /\
      fat32_read (Some d) beyond dir' true limit f' = Ok ((n, slice pos n (chain_data d f cs), dir2), f2) /\
      fat_ok d f2 /\ file_ok d f2 cs dir2).
Proof.
  intros Hf H Hs Ht Hl pos n Hb He.
  destruct (fat32_seek_ok d f cs dir target offset whence Hf H Hs Ht) as (f' & Hf' & Sf & H1 & H2). fold pos in H1, H2.
  exists f'. split; [done|]. split; [done|]. intros Hpos. destruct (H2 Hpos) as (dir' & E & Hk & Hp & Hd).
  pose proof (same_fat_file d f f' cs dir' Sf Hk) as Hk'. pose proof (same_fat_data d f f' cs Sf) as Hdata.
  assert (Hb' : beyond_ok f' cs (ptr dir') limit beyond) by (destruct Sf as (? & ? & ? & ->); by rewrite Hp).
  destruct (fat32_read_ok d f' cs dir' limit beyond Hf' Hk' Hl true Hb') as (f2 & Hf2 & Sf2 & _ & R).
  rewrite Hp, Hd in R. fold n in R. rewrite Hdata in R.
  destruct R as (dir2 & E2 & Hk2 & _); [destruct Sf as (? & ? & ? & ->); exact He|].
  exists dir', dir2, f2. split; [done|]. split; [done|]. split; [done|]. by apply (same_fat_file d f').
Qed.

Lemma fat32_seek_then_read_witness :
  let pos := seek_position hello_fd 515 0 in
  let n := Z.min 100 (filesize (dirEnt hello_fd) - pos) in
  exists f', fat_ok sample_disk f' /\
    (filesize (dirEnt hello_fd) < pos ->
       fat32_seek (Some sample_disk) hello_fd 515 0 0 sample_fat = Ok ((u64 (- EINVAL), hello_fd), f')) /\
    (pos <= filesize (dirEnt hello_fd) -> exists dir' dir2 f2,
      fat32_seek (Some sample_disk) hello_fd 515 0 0 sample_fat = Ok ((pos, dir'), f') /\
      fat32_read (Some sample_disk) 0 dir' true 100 f' = Ok ((n, slice pos n (chain_data sample_disk sample_fat [3; 5]), dir2), f2) /\
      fat_ok sample_disk f2 /\ file_ok sample_disk f2 [3; 5] dir2).
Proof.
  apply fat32_seek_then_read; [exact sample_fat_ok|exact hello_file_ok|reflexivity|lia|lia|by apply hello_beyond|apply hello_no_run].
Defined.

(** [fat32_traverse] finds a name in a directory: it returns the entry of the
    first item with that name (the long name when the item has one, the short one
    otherwise) and the cluster it lies in, however the records are spread over the
    clusters of the directory, or a result with directory 0 when there is none; for
    the names whose search is exact. *)
Theorem fat32_traverse_finds d f cs items search :
  fat_ok d f -> dir_ok d f cs items -> searchable items search ->
  exists f', fat32_traverse (Some d) (default 0 (head cs)) search f =
      Ok (match find_item items search 0 with Some pe => found_at f cs pe | None => no_result end, f') /\
    fat_ok d f' /\ same_fat f f' /\
    forall pe, find_item items search 0 = Some pe -> directory (found_at f cs pe) <> 0.
Proof.
  intros Hf D Hs. destruct (fat32_traverse_ok d f cs items search Hf D Hs) as (f' & E & Hf' & S'). exists f'.
  split; [rewrite E; by destruct (find_item items search 0)|]. split; [done|]. split; [done|].
  intros pe Hpe. pose proof (found_directory d f cs items search pe Hf D Hs Hpe). lia.
Qed.

Lemma fat32_traverse_finds_witness :
  exists f', fat32_traverse (Some sample_disk) 2 data_name sample_fat =
      Ok (mkResult 2 64 (decode_dirent data_entry), f') /\
    fat_ok sample_disk f' /\ same_fat sample_fat f' /\
    forall pe, find_item sample_items data_name 0 = Some pe -> directory (found_at sample_fat [2] pe) <> 0.
Proof.
  exact (fat32_traverse_finds sample_disk sample_fat [2] sample_items data_name sample_fat_ok sample_root_ok data_searchable).
Defined.

(** The file an entry describes: the chain of clusters [cs]. *)
Record describes (d : gmap Z Z) (f : FAT32) (e : FAT32DirectoryEntry) (cs : list Z) : Prop := {
  ds_file : is_directory e = false;
  ds_linked : linked d f cs;
  ds_drive : Forall (on_drive f) cs;
  ds_first : first_cluster e = default 0 (head cs);
  ds_size : (zlen cs - 1) * bytesPerCluster f < filesize e <= zlen cs * bytesPerCluster f;
  ds_size32 : 0 <= filesize e < 2 ^ 32;
}.

Lemma opened_ok d f e cs i k : describes d f e cs -> 0 < bytesPerCluster f -> file_ok d f cs (mkOpenFd 0 i k (first_cluster e) e).
Proof.
  intros [D1 D2 D3 D4 D5 D6] Hb. split; cbn [dirEnt ptr directoryCurr]; try done; [lia..|].
  destruct cs as [|c cs]; [right|left].
  - by rewrite D4.
  - exists 0%nat. rewrite D4. split; [done|]. split; lia.
Qed.

(** C19: [fat32_open] of a path for reading resolves the components one after the
    other in the directories of the volume, whose names are those of the layout on
    the drive (long names, and names of the form 8.3 padded with blanks): a missing
    one gives [-ENOENT]; when the path names a file the descriptor stands at its
    beginning ([fat32_read_returns_file] tells what reads return); opening for
    writing is refused with [-EROFS].  This holds where the search for each component
    is exact ([searchable]): the component cannot be a name of the form 8.3, or it
    is one in capital letters and digits and no abbreviation of a short name of the
    directory, as DA.BIN is of DATA.BIN ([fat32_traverse_prefix]); short names are
    of such characters and not of fewer than four characters with a dot, and the
    entries carry no attributes beside that of a directory or of the archive. *)
Theorem fat32_open_resolves d f xs r flags :
  fat_ok d f -> fat_resolves d f (root_cluster (extended_section (bootsec f))) xs r -> xs <> [] -> Forall component xs ->
  if has_flag flags O_CREAT || has_flag flags O_WRONLY || has_flag flags O_RDWR
  then fat32_open (Some d) (path_of xs) flags f = Ok ((- EROFS, None), f)
  else exists f', fat_ok d f' /\
    (directory r = 0 -> fat32_open (Some d) (path_of xs) flags f = Ok ((- ENOENT, None), f')) /\
    (forall cs, directory r <> 0 -> describes d f (dirEntry r) cs -> exists dir,
       fat32_open (Some d) (path_of xs) flags f = Ok ((0, Some (dir, None)), f') /\
       file_ok d f' cs dir /\ ptr dir = 0 /\ dirEnt dir = dirEntry r).
Proof.
  intros Hf R Hne Hc. unfold fat32_open. destruct (_ || _); [done|].
  destruct (fat32_traverse_path_ok d f _ xs r Hf R Hne Hc) as (f' & E & Hf' & S'). exists f'. split; [done|].
  erewrite bind_ok by done. erewrite bind_ok by exact E. split.
  - intros ->. done.
  - intros cs Hd D. rewrite (proj2 (Z.eqb_neq _ _) Hd), (ds_file _ _ _ _ D). eexists. split; [done|].
    split; [|done]. apply (same_fat_file d f f' cs _ S'). apply opened_ok; [done|]. by apply (bpc_range d).
Qed.

Lemma fat32_open_resolves_witness :
  exists f', fat_ok sample_disk f' /\
    (2 = 0 -> fat32_open (Some sample_disk) (path_of [hello_name]) 0 sample_fat = Ok ((- ENOENT, None), f')) /\
    (forall cs, 2 <> 0 -> describes sample_disk sample_fat (decode_dirent hello_entry) cs -> exists dir,
       fat32_open (Some sample_disk) (path_of [hello_name]) 0 sample_fat = Ok ((0, Some (dir, None)), f') /\
       file_ok sample_disk f' cs dir /\ ptr dir = 0 /\ dirEnt dir = decode_dirent hello_entry).
Proof.
  apply (fat32_open_resolves sample_disk sample_fat [hello_name] (mkResult 2 32 (decode_dirent hello_entry)) 0).
  - exact sample_fat_ok.
  - assert (root_cluster (extended_section (bootsec sample_fat)) = 2) as -> by (vm_compute; reflexivity).
    apply (fr_last sample_disk sample_fat 2 [2] sample_items hello_name (32, hello_entry)); [exact sample_root_ok|done|exact hello_searchable|].
    vm_compute. reflexivity.
  - done.
  - apply Forall_singleton. split; [done|]. by apply (bool_decide_unpack _).
Defined.

(** ** What goes wrong *)

Definition outcome_of {A S} (o : outcome (A * S)) : outcome A :=
  match o with Ok (a, _) => Ok a | Halted => Halted | Fault => Fault | Hang => Hang end.

(** Reading [DATA.BIN], whose two clusters are neighbours, to its end: the buffer of
    the run is freed twice. *)
Theorem fat32_read_frees_twice : fat32_read (Some sample_disk) 0 data_fd true 1000 sample_fat = Fault.
Proof. vm_compute. reflexivity. Qed.

(** The search for a short name compares only as many bytes as it has: [DA.BIN] finds
    [DATA.BIN]. *)
Theorem fat32_traverse_prefix :
  outcome_of (fat32_traverse (Some sample_disk) 2 [68; 65; 46; 66; 73; 78] sample_fat) =
  outcome_of (fat32_traverse (Some sample_disk) 2 data_name sample_fat).
Proof. vm_compute. reflexivity. Qed.

(** Short names of fewer than four characters with a dot are not found: [len - 1 - 3]
    wraps around. *)
Theorem short_name_too_short : fat32_is_short_filename_possible [65; 46; 66] = -1.
Proof. reflexivity. Qed.

(** A deleted record of a long name begins with [0xE5]: its index is taken to be 164
    and the machine is halted. *)
Theorem deleted_long_name_halts ck lo hi ln : length lo = 13%nat -> length hi = 13%nat ->
  gather_lfn (lfn_record 0xE5 ck lo hi) ln = Halted.
Proof.
  intros H1 H2. unfold gather_lfn. destruct (lfn_record_decode 0xE5 ck lo hi H1 H2) as (-> & -> & -> & _). reflexivity.
Qed.

(** A long name of 248 characters or more needs a twentieth record, which is stored
    behind the end of the buffer. *)
Theorem twentieth_record_overruns ck lo hi name last : length lo = 13%nat -> length hi = 13%nat -> zlen name = 256 ->
  gather_lfn (lfn_record 0x54 ck lo hi) (mkLong name last) = Fault.
Proof.
  intros H1 H2 H3. unfold gather_lfn. destruct (lfn_record_decode 0x54 ck lo hi H1 H2) as (-> & -> & -> & E).
  change (Z.land 0x54 (Z.lnot LFN_ORDER_FINAL) - 1) with 19. change ((FAT_ATTRIB_LFN =? FAT_ATTRIB_LFN) && (0 =? 0)) with true.
  cbv iota. change (LFN_MAX <=? 19) with false. cbv iota. unfold fat32_LFNmem_cpy. rewrite E. cbn [lfnName].
  unfold store. rewrite H3. unfold zlen. rewrite H1. done.
Qed.

(** [fat32_stat_fd] returns [true], which its caller [fsStat] takes for an error: it
    compares the result with 0. *)
Theorem fat32_stat_fd_not_zero dir r st : fat32_stat_fd dir = Ok (r, st) -> r <> 0.
Proof. unfold fat32_stat_fd. destruct (fat32_stat_internal _); [|done..]. by intros [= <- _]. Qed.
