(* ===== verification/Syscalls.v ===== *)
(** * The system call table and pending signals ([syscalls/syscalls.cpp])

    Registration of handlers, the dispatcher, and the test whether a signal is
    waiting for a task.  Handlers are code at addresses: [code] is an argument. *)

From Stdlib Require Import String.
From S2P Require Import Prelude Bytes FileTypes.

Definition MAX_SYSCALLS : Z := 450.

(** The registers a system call reads and writes. *)
Record AsmPassedInterrupt := mkRegs {
  rax : Z; rdi : Z; rsi : Z; rdx : Z; r10 : Z; r8 : Z; r9 : Z;
}.
Definition set_rax (v : Z) (r : AsmPassedInterrupt) : AsmPassedInterrupt :=
  mkRegs v (rdi r) (rsi r) (rdx r) (r10 r) (r8 r) (r9 r).

(** [W]: the rest of the kernel. *)
Record sys (W : Type) := mkSys {
  syscalls : list Z;
  syscallCnt : Z;
  registers : AsmPassedInterrupt;
  systemCallInProgress : bool;
  syscallRegs : Z;
  syscallRsp : Z;
  world : W;
}.
Arguments mkSys {W}.
Arguments syscalls {W}.
Arguments syscallCnt {W}.
Arguments registers {W}.
Arguments systemCallInProgress {W}.
Arguments syscallRegs {W}.
Arguments syscallRsp {W}.
Arguments world {W}.

Section table.
Context {W : Type}.
Implicit Types s : sys W.

Definition set_table (l : list Z) (n : Z) s : sys W :=
  mkSys l n (registers s) (systemCallInProgress s) (syscallRegs s) (syscallRsp s) (world s).
Definition set_registers (r : AsmPassedInterrupt) s : sys W :=
  mkSys (syscalls s) (syscallCnt s) r (systemCallInProgress s) (syscallRegs s) (syscallRsp s) (world s).
Definition set_progress (b : bool) (regs rsp : Z) s : sys W :=
  mkSys (syscalls s) (syscallCnt s) (registers s) b regs rsp (world s).

(** [syscalls[id]]: an access outside the array is a fault. *)
Definition syscall_entry (id : Z) : M (sys W) Z :=
  let! l := gets syscalls in
  if id <? MAX_SYSCALLS then from_option_fault (l !! Z.to_nat id) else fault.

Definition register_syscall (id handler : Z) : M (sys W) unit :=
  if MAX_SYSCALLS <? id then halt
  else
    let! h := syscall_entry id in
    if negb (h =? 0) then halt
    else modify (fun s => set_table (<[Z.to_nat id := handler]> (syscalls s)) (u32 (syscallCnt s + 1)) s).

(** What a handler does with its six arguments. *)
Context (code : Z -> option (Z -> Z -> Z -> Z -> Z -> Z -> M (sys W) Z)).

(** A call through a pointer that is no code is a fault. *)
Definition call (handler : Z) (r : AsmPassedInterrupt) : M (sys W) Z :=
  match code handler with
  | Some f => f (rdi r) (rsi r) (rdx r) (r10 r) (r8 r) (r9 r)
  | None => fault
  end.

(** Neither of the two error branches returns. *)
Definition syscall_handler (regs rsp : Z) : M (sys W) unit :=
  modify (set_progress true regs rsp) ;;;
  let! r := gets registers in
  let id := rax r in
  (if MAX_SYSCALLS <? id then
     modify (fun s => set_registers (set_rax (u64 (-1)) (registers s)) s) ;;;
     modify (set_progress false 0 0)
   else ret tt) ;;;
  let! handler := syscall_entry id in
  (if handler =? 0 then
     modify (fun s => set_registers (set_rax (u64 (- ENOSYS)) (registers s)) s) ;;;
     modify (set_progress false 0 0)
   else ret tt) ;;;
  let! r := gets registers in
  let! res := call handler r in
  modify (fun s => set_registers (set_rax (u64 res) (registers s)) s) ;;;
  modify (set_progress false 0 0).

(** ** The handlers of the kernel

    [address] places each handler's code. *)

Context (address : string -> Z).

Definition register_all (l : list (Z * string)) : M (sys W) unit :=
  mfor l (fun p => register_syscall p.1 (address p.2)).

Local Open Scope string_scope.
Definition syscallRegFs : list (Z * string) :=
  [(1, "syscallWrite"); (0, "syscallRead"); (2, "syscallOpen"); (257, "syscallOpenat");
   (7, "syscallPoll"); (271, "syscallPpoll"); (258, "syscallMkdirAt"); (3, "syscallClose");
   (8, "syscallLseek"); (4, "syscallStat"); (5, "syscallFstat"); (6, "syscallLstat");
   (83, "syscallMkdir"); (95, "syscallUmask"); (17, "syscallPread64"); (87, "syscallUnlink");
   (86, "syscallLink"); (265, "syscallLinkat"); (74, "syscallFsync"); (16, "syscallIoctl");
   (19, "syscallReadV"); (20, "syscallWriteV"); (33, "syscallDup2"); (32, "syscallDup");
   (21, "syscallAccess"); (269, "syscallFaccessat"); (217, "syscallGetdents64");
   (270, "syscallPselect6"); (23, "syscallSelect"); (72, "syscallFcntl"); (332, "syscallStatx");
   (89, "syscallReadlink"); (262, "syscallNewfstatat"); (263, "syscallUnlinkat")].
Definition syscallRegMem : list (Z * string) :=
  [(9, "syscallMmap"); (11, "syscallMunmap"); (10, "syscallMprotect"); (12, "syscallBrk")].
Definition syscallRegSig : list (Z * string) :=
  [(13, "syscallRtSigaction"); (14, "syscallRtSigprocmask")].
Definition syscallsRegEnv : list (Z * string) :=
  [(39, "syscallGetPid"); (79, "syscallGetcwd"); (80, "syscallChdir"); (97, "syscallGetrlimit");
   (102, "syscallGetuid"); (107, "syscallGeteuid"); (104, "syscallGetgid"); (108, "syscallGetegid");
   (110, "syscallGetppid"); (121, "syscallGetpgid"); (109, "syscallSetpgid"); (105, "syscallSetuid");
   (106, "syscallSetgid"); (112, "syscallSetsid"); (158, "syscallPrctl"); (218, "syscallSetTidAddr");
   (186, "syscallGetTid"); (63, "syscallUname"); (81, "syscallFchdir"); (115, "syscallGetgroups");
   (318, "syscallGetRandom")].
Definition syscallsRegProc : list (Z * string) :=
  [(24, "syscallSchedYield"); (22, "syscallPipe"); (293, "syscallPipe2"); (60, "syscallExitTask");
   (56, "syscallClone"); (57, "syscallFork"); (58, "syscallVfork"); (61, "syscallWait4");
   (59, "syscallExecve"); (231, "syscallExitGroup"); (169, "syscallReboot");
   (290, "syscallEventfd2"); (202, "syscallFutex")].
Definition syscallsRegClock : list (Z * string) := [(228, "syscallClockGettime")].

Definition syscalls_initialize : M (sys W) unit :=
  register_all syscallRegFs ;;;
  register_all syscallRegMem ;;;
  register_all syscallRegSig ;;;
  register_all syscallsRegEnv ;;;
  register_all syscallsRegProc ;;;
  register_all syscallsRegClock.
End table.

(** ** Pending signals *)

Definition _NSIG : Z := 64.
Definition SIG_DFL : Z := 0.
Definition SIG_IGN : Z := 1.

Inductive SignalInternal :=
| SIGNAL_INTERNAL_CORE
| SIGNAL_INTERNAL_TERM
| SIGNAL_INTERNAL_IGN
| SIGNAL_INTERNAL_STOP
| SIGNAL_INTERNAL_CONT.
#[export] Instance SignalInternal_eq_dec : EqDecision SignalInternal.
Proof. solve_decision. Defined.

Definition SIGHUP : nat := 1.
Definition SIGINT : nat := 2.
Definition SIGQUIT : nat := 3.
Definition SIGILL : nat := 4.
Definition SIGTRAP : nat := 5.
Definition SIGABRT : nat := 6.
Definition SIGIOT : nat := 6.
Definition SIGBUS : nat := 7.
Definition SIGFPE : nat := 8.
Definition SIGKILL : nat := 9.
Definition SIGUSR1 : nat := 10.
Definition SIGSEGV : nat := 11.
Definition SIGUSR2 : nat := 12.
Definition SIGPIPE : nat := 13.
Definition SIGALRM : nat := 14.
Definition SIGTERM : nat := 15.
Definition SIGSTKFLT : nat := 16.
Definition SIGCHLD : nat := 17.
Definition SIGCONT : nat := 18.
Definition SIGSTOP : nat := 19.
Definition SIGTSTP : nat := 20.
Definition SIGTTIN : nat := 21.
Definition SIGTTOU : nat := 22.
Definition SIGURG : nat := 23.
Definition SIGXCPU : nat := 24.
Definition SIGXFSZ : nat := 25.
Definition SIGVTALRM : nat := 26.
Definition SIGPROF : nat := 27.
Definition SIGWINCH : nat := 28.
Definition SIGIO : nat := 29.
Definition SIGPOLL : nat := SIGIO.
Definition SIGPWR : nat := 30.
Definition SIGSYS : nat := 31.
Definition SIGUNUSED : nat := 31.

(** [signalInternalDecisions] before and after [initiateSignalDefs]. *)
Definition signalInternalDecisions : list SignalInternal := replicate 65 SIGNAL_INTERNAL_CORE.

Definition signal_defs : list (nat * SignalInternal) :=
  [(SIGABRT, SIGNAL_INTERNAL_CORE); (SIGALRM, SIGNAL_INTERNAL_TERM); (SIGBUS, SIGNAL_INTERNAL_CORE);
   (SIGCHLD, SIGNAL_INTERNAL_IGN); (SIGCONT, SIGNAL_INTERNAL_CONT); (SIGFPE, SIGNAL_INTERNAL_CORE);
   (SIGHUP, SIGNAL_INTERNAL_TERM); (SIGILL, SIGNAL_INTERNAL_CORE); (SIGINT, SIGNAL_INTERNAL_TERM);
   (SIGIO, SIGNAL_INTERNAL_TERM); (SIGIOT, SIGNAL_INTERNAL_CORE); (SIGKILL, SIGNAL_INTERNAL_TERM);
   (SIGPIPE, SIGNAL_INTERNAL_TERM); (SIGPOLL, SIGNAL_INTERNAL_TERM); (SIGPROF, SIGNAL_INTERNAL_TERM);
   (SIGPWR, SIGNAL_INTERNAL_TERM); (SIGQUIT, SIGNAL_INTERNAL_CORE); (SIGSEGV, SIGNAL_INTERNAL_CORE);
   (SIGSTKFLT, SIGNAL_INTERNAL_TERM); (SIGSTOP, SIGNAL_INTERNAL_STOP); (SIGTSTP, SIGNAL_INTERNAL_STOP);
   (SIGSYS, SIGNAL_INTERNAL_CORE); (SIGTERM, SIGNAL_INTERNAL_TERM); (SIGTRAP, SIGNAL_INTERNAL_CORE);
   (SIGTTIN, SIGNAL_INTERNAL_STOP); (SIGTTOU, SIGNAL_INTERNAL_STOP); (SIGUNUSED, SIGNAL_INTERNAL_CORE);
   (SIGURG, SIGNAL_INTERNAL_IGN); (SIGUSR1, SIGNAL_INTERNAL_TERM); (SIGUSR2, SIGNAL_INTERNAL_TERM);
   (SIGVTALRM, SIGNAL_INTERNAL_TERM); (SIGXCPU, SIGNAL_INTERNAL_CORE); (SIGXFSZ, SIGNAL_INTERNAL_CORE);
   (SIGWINCH, SIGNAL_INTERNAL_IGN)].
Definition initiateSignalDefs (decisions : list SignalInternal) : list SignalInternal :=
  fold_left (fun d p => <[p.1 := p.2]> d) signal_defs decisions.

(** What a task says about signals: the sets are 64-bit words, the handlers the
    [sa_handler] fields. *)
Record task_signals := mkSignals {
  kernel_task : bool;
  sigPendingList : Z;
  sigBlockList : Z;
  sa_handlers : list Z;
}.

(** One round of the loop: does signal [i] count? *)
Definition signal_counts (decisions : list SignalInternal) (t : task_signals) (unblocked i : Z) : bool :=
  if negb (bit (le 8 unblocked) i) then false
  else
    let userHandler := sa_handlers t !!! Z.to_nat i in
    if userHandler =? SIG_IGN then false
    else if (userHandler =? SIG_DFL)
         && bool_decide (decisions !! Z.to_nat i = Some SIGNAL_INTERNAL_IGN) then false
    else true.

Definition signalsPendingQuick (decisions : list SignalInternal) (t : task_signals) : bool :=
  if kernel_task t then false
  else existsb (signal_counts decisions t
         (Z.land (sigPendingList t) (Z.lxor (sigBlockList t) (2 ^ 64 - 1)))) (seqZ 0 _NSIG).

(** ** Registration and dispatch *)

Section theorems.
Context {W : Type}.
Implicit Types s : sys W.

Lemma syscall_entry_ok s id h :
  0 <= id < MAX_SYSCALLS -> syscalls s !! Z.to_nat id = Some h -> syscall_entry id s = Ok (h, s).
Proof.
  intros Hi Hh. unfold syscall_entry. erewrite bind_ok by done.
  rewrite (proj2 (Z.ltb_lt id _)) by lia. by rewrite Hh.
Qed.

Lemma register_syscall_ok s id h :
  0 <= id < MAX_SYSCALLS -> syscalls s !! Z.to_nat id = Some 0 ->
  register_syscall id h s =
    Ok (tt, set_table (<[Z.to_nat id := h]> (syscalls s)) (u32 (syscallCnt s + 1)) s).
Proof.
  intros Hi Hh. unfold register_syscall. rewrite (proj2 (Z.ltb_ge _ id)) by lia.
  by mstep syscall_entry_ok.
Qed.

(** The table after a list of registrations, the last one first. *)
Definition filled (address : string -> Z) (l : list (Z * string)) (id : Z) : Z :=
  default 0 (address <$> (list_to_map l : gmap Z string) !! id).

Definition table_is (f : Z -> Z) s : Prop :=
  zlen (syscalls s) = MAX_SYSCALLS /\
  forall id, 0 <= id < MAX_SYSCALLS -> syscalls s !! Z.to_nat id = Some (f id).

Lemma register_all_ok address l s f :
  table_is f s -> NoDup l.*1 -> 0 <= syscallCnt s -> syscallCnt s + zlen l < 2 ^ 32 ->
  Forall (fun p => 0 <= p.1 < MAX_SYSCALLS /\ f p.1 = 0) l ->
  exists s', register_all address l s = Ok (tt, s') /\
    table_is (fun id => if decide (id ∈ l.*1) then filled address l id else f id) s' /\
    s' = set_table (syscalls s') (syscallCnt s') s /\
    syscallCnt s' = syscallCnt s + zlen l.
Proof.
  revert s f. induction l as [|[id h] l IH]; intros s f [Hl Hf] Hd H0 Hc Hi.
  - exists s. split_and!; [done| |by destruct s|change (zlen (@nil (Z * string))) with 0; lia].
    split; [done|]. intros id Hid. rewrite Hf by done. by rewrite decide_False by set_solver.
  - apply NoDup_cons in Hd as [Hn Hd]. apply Forall_cons in Hi as [[Hid Hz] Hi]. cbn [fst] in *.
    set (s1 := set_table (<[Z.to_nat id := address h]> (syscalls s)) (u32 (syscallCnt s + 1)) s).
    set (g := fun i => if decide (i = id) then address h else f i).
    rewrite zlen_cons in Hc. pose proof (zlen_nonneg l).
    assert (Hs1 : syscallCnt s1 = syscallCnt s + 1) by (apply u32_small; lia).
    destruct (IH s1 g) as (s' & E & [Hl' T] & Es & Ec); [|done|lia..| |].
    + split; [unfold s1, zlen in *; cbn; by rewrite length_insert|]. intros i Hb. unfold g, s1. cbn [syscalls set_table].
      case_decide as Ei; [subst i; apply list_lookup_insert_eq; unfold zlen in *; lia|].
      rewrite list_lookup_insert_ne by (unfold MAX_SYSCALLS in *; lia). by apply Hf.
    + rewrite Forall_forall in Hi |- *. intros [i k] Hk. destruct (Hi _ Hk) as [Hb Hz']. split; [done|]. cbn [fst] in *.
      unfold g. rewrite decide_False; [done|]. intros ->. apply Hn. apply list_elem_of_fmap. by exists (id, k).
    + exists s'. split_and!.
      * unfold register_all. cbn [mfor fst snd].
        erewrite bind_ok by (apply register_syscall_ok; [done|by rewrite Hf, Hz]). exact E.
      * split; [done|]. intros i Hb. rewrite T by done. unfold g, filled. cbn [fmap list_fmap fst list_to_map foldr].
        unfold uncurry. destruct (decide (i = id)) as [->|Hne].
        -- rewrite decide_False by done. rewrite decide_True by (by left). by rewrite lookup_insert_eq.
        -- rewrite lookup_insert_ne by done.
           destruct (decide (i ∈ l.*1)); [rewrite decide_True by (by right)|rewrite decide_False by set_solver]; done.
      * rewrite Es. by destruct s.
      * rewrite zlen_cons. lia.
Qed.

Definition all_handlers : list (Z * string) :=
  syscallRegFs ++ syscallRegMem ++ syscallRegSig ++ syscallsRegEnv ++ syscallsRegProc ++ syscallsRegClock.

Lemma syscalls_initialize_all address s :
  syscalls_initialize address s = register_all address all_handlers s.
Proof.
  unfold syscalls_initialize, register_all, all_handlers.
  do 5 (rewrite mfor_app; apply bind_tail; clear s; intros s). done.
Qed.

Lemma filled_in address l id h : NoDup l.*1 -> (id, h) ∈ l -> filled address l id = address h.
Proof. intros Hd Hi. unfold filled. by rewrite (elem_of_list_to_map_1 l id h). Qed.

Lemma filled_out address l id : id ∉ l.*1 -> filled address l id = 0.
Proof. intros Hi. unfold filled. by rewrite not_elem_of_list_to_map_1. Qed.

(** Setting up the table.  No number is given to two handlers and all numbers
    fit: from the empty table [syscalls_initialize] returns, every number of the
    list leads to its handler, every other number to none, and the count is the
    number of handlers. *)
Theorem syscalls_initialize_fills address s :
  syscalls s = replicate 450 0 -> syscallCnt s = 0 ->
  exists s', syscalls_initialize address s = Ok (tt, s') /\ syscallCnt s' = zlen all_handlers /\
    (forall id h, (id, h) ∈ all_handlers -> syscalls s' !! Z.to_nat id = Some (address h)) /\
    (forall id, 0 <= id < MAX_SYSCALLS -> id ∉ all_handlers.*1 -> syscalls s' !! Z.to_nat id = Some 0).
Proof.
  intros Ht Hc.
  assert (Hd : NoDup all_handlers.*1) by (apply (bool_decide_unpack _); vm_compute; done).
  assert (Hb : Forall (fun p => 0 <= p.1 < MAX_SYSCALLS /\ 0 = 0) all_handlers).
  { apply (bool_decide_unpack _). vm_compute. done. }
  destruct (register_all_ok address all_handlers s (fun _ => 0)) as (s' & E & [Hl T] & Es & Ec);
    [|done|lia|rewrite Hc; vm_compute; done|exact Hb|].
  { split; [by rewrite Ht|]. intros id Hid. rewrite Ht. apply lookup_replicate_2. unfold MAX_SYSCALLS in Hid. lia. }
  exists s'. split_and!; [by rewrite syscalls_initialize_all|lia| |].
  - intros id h Hi. rewrite Forall_forall in Hb. destruct (Hb _ Hi) as [Hr _]. rewrite T by done.
    rewrite decide_True by (apply list_elem_of_fmap; by exists (id, h)). by rewrite (filled_in _ _ _ h).
  - intros id Hr Hi. rewrite T by done. by rewrite decide_False.
Qed.

Context (code : Z -> option (Z -> Z -> Z -> Z -> Z -> Z -> M (sys W) Z)).

(** Dispatch.  A number with a handler runs the handler on the six argument
    registers, with the call marked as in progress; afterwards [rax] holds the
    result, the marks are cleared, and everything else is as the handler left
    it. *)
Theorem syscall_dispatches s regs rsp h f v s1 :
  0 <= rax (registers s) < MAX_SYSCALLS ->
  syscalls s !! Z.to_nat (rax (registers s)) = Some h -> h <> 0 -> code h = Some f ->
  f (rdi (registers s)) (rsi (registers s)) (rdx (registers s)) (r10 (registers s))
    (r8 (registers s)) (r9 (registers s)) (set_progress true regs rsp s) = Ok (v, s1) ->
  syscall_handler code regs rsp s =
    Ok (tt, set_progress false 0 0 (set_registers (set_rax (u64 v) (registers s1)) s1)).
Proof.
  intros Hi Hh Hn Hf E. unfold syscall_handler. do 2 erewrite bind_ok by done.
  cbn [registers set_progress]. rewrite (proj2 (Z.ltb_ge _ _)) by lia. erewrite bind_ok by done.
  erewrite bind_ok by (apply syscall_entry_ok; [exact Hi|exact Hh]).
  rewrite (proj2 (Z.eqb_neq h 0)) by done. do 2 erewrite bind_ok by done.
  unfold call. rewrite Hf. by mrw E.
Qed.

(** A number without a handler.  The code stores [-ENOSYS] and then calls
    the empty entry all the same: a jump to address 0 (a number beyond the table
    reads outside it first). *)
Theorem unknown_syscall_faults s regs rsp :
  code 0 = None -> 0 <= rax (registers s) ->
  (MAX_SYSCALLS <= rax (registers s) \/ syscalls s !! Z.to_nat (rax (registers s)) = Some 0) ->
  syscall_handler code regs rsp s = Fault.
Proof.
  intros H0 Hr Hu. unfold syscall_handler. do 2 erewrite bind_ok by done. cbn [registers set_progress].
  set (s1 := if MAX_SYSCALLS <? rax (registers s) then _ else ret tt).
  assert (exists s2, s1 (set_progress true regs rsp s) = Ok (tt, s2) /\ syscalls s2 = syscalls s) as (s2 & E2 & Es2).
  { unfold s1. destruct (MAX_SYSCALLS <? rax (registers s)); eexists; done. }
  mrw E2. unfold syscall_entry. unfold bind at 1 2 3. cbn [gets]. rewrite Es2.
  destruct (rax (registers s) <? MAX_SYSCALLS) eqn:E; [|done]. destruct Hu as [Hu|Hu]; [lia|].
  rewrite Hu. cbn. unfold call. by rewrite H0.
Qed.
End theorems.

(** ** Signals *)

Lemma bit_le v i : 0 <= i < 64 -> bit (le 8 v) i = Z.testbit v i.
Proof.
  intros Hi. unfold bit, le. pose proof (Z.mod_pos_bound i 8 ltac:(lia)).
  assert (0 <= i / 8 < 8) by (Z.to_euclidean_division_equations; lia).
  rewrite (list_lookup_total_correct _ _ (Z.land (Z.shiftr v (i / 8 * 8)) (Z.ones 8))).
  2:{ apply Z_to_little_endian_lookup_Some; [lia..|]. rewrite Z2Nat.id by lia. split; [lia|done]. }
  rewrite Z.land_spec, Z.shiftr_spec, Z.ones_spec_low, andb_true_r by lia. f_equal.
  Z.to_euclidean_division_equations. lia.
Qed.

(** Signal [i] of a task is acted upon: pending, not blocked, and neither ignored
    by the task nor ignored by default. *)
Definition acts (decisions : list SignalInternal) (t : task_signals) (i : Z) : Prop :=
  Z.testbit (sigPendingList t) i = true /\ Z.testbit (sigBlockList t) i = false /\
  sa_handlers t !!! Z.to_nat i <> SIG_IGN /\
  (sa_handlers t !!! Z.to_nat i = SIG_DFL -> decisions !! Z.to_nat i <> Some SIGNAL_INTERNAL_IGN).

Lemma signal_counts_acts decisions t i :
  0 <= i < 64 ->
  signal_counts decisions t (Z.land (sigPendingList t) (Z.lxor (sigBlockList t) (2 ^ 64 - 1))) i = true
    <-> acts decisions t i.
Proof.
  intros Hi. unfold signal_counts, acts. rewrite bit_le, Z.land_spec, Z.lxor_spec by done.
  change (2 ^ 64 - 1) with (Z.ones 64). rewrite Z.ones_spec_low by lia.
  destruct (Z.testbit (sigPendingList t) i), (Z.testbit (sigBlockList t) i); cbn; try (split; naive_solver).
  destruct (sa_handlers t !!! Z.to_nat i =? SIG_IGN) eqn:E1; [split; [done|lia]|].
  destruct (sa_handlers t !!! Z.to_nat i =? SIG_DFL) eqn:E2; cbn; [case_bool_decide|]; split; (done || naive_solver lia).
Qed.

(** The quick test for signals.  It answers yes exactly for a user task
    with a signal to act upon. *)
Theorem signals_pending_exact decisions t :
  signalsPendingQuick decisions t = true <->
  kernel_task t = false /\ exists i, 0 <= i < _NSIG /\ acts decisions t i.
Proof.
  unfold signalsPendingQuick. destruct (kernel_task t); [split; [done|by intros [? _]]|].
  rewrite existsb_exists. setoid_rewrite <- list_elem_of_In. setoid_rewrite elem_of_seqZ. split.
  - intros (i & Hi & E). split; [done|]. exists i. split; [lia|]. by apply signal_counts_acts.
  - intros [_ (i & Hi & A)]. exists i. split; [lia|]. by apply signal_counts_acts.
Qed.

(** [initiateSignalDefs] makes exactly the three signals ignored by default that
    POSIX ignores. *)
Theorem signal_defs_ignored i :
  initiateSignalDefs signalInternalDecisions !! i = Some SIGNAL_INTERNAL_IGN <->
  i = SIGCHLD \/ i = SIGURG \/ i = SIGWINCH.
Proof.
  split.
  - intros E. assert (H : (i < 65)%nat).
    { apply lookup_lt_Some in E. by change (length (initiateSignalDefs signalInternalDecisions)) with 65%nat in E. }
    assert (A : Forall (fun i => initiateSignalDefs signalInternalDecisions !! i = Some SIGNAL_INTERNAL_IGN ->
      i = SIGCHLD \/ i = SIGURG \/ i = SIGWINCH) (seq 0 65)) by (apply (bool_decide_unpack _); by vm_compute).
    rewrite Forall_forall in A. apply A; [apply elem_of_seq; lia|done].
  - intros [->|[->| ->]]; by vm_compute.
Qed.

(** The table is never set up: with its initial contents a child that ends
    makes its parent see a pending signal, which the default action ignores once
    the table is set up. *)
Definition child_ended : task_signals := mkSignals false (2 ^ 17) 0 (replicate 65 SIG_DFL).

Theorem default_sigchld_interrupts :
  signalsPendingQuick signalInternalDecisions child_ended = true /\
  signalsPendingQuick (initiateSignalDefs signalInternalDecisions) child_ended = false.
Proof. split; by vm_compute. Qed.

(** ** Witnesses *)

(** A kernel with one handler, for number 39, that returns its first argument. *)
Definition ex_code (a : Z) : option (Z -> Z -> Z -> Z -> Z -> Z -> M (sys unit) Z) :=
  if a =? 5 then Some (fun x _ _ _ _ _ => ret x) else None.
Definition ex_sys (id : Z) : sys unit :=
  mkSys (<[39%nat := 5]> (replicate 450 0)) 1 (mkRegs id 7 0 0 0 0 0) false 0 0 tt.

Lemma syscall_dispatches_witness :
  syscall_handler ex_code 8 9 (ex_sys 39) =
    Ok (tt, set_progress false 0 0 (set_registers (mkRegs 7 7 0 0 0 0 0) (ex_sys 39))).
Proof.
  eapply (syscall_dispatches ex_code (ex_sys 39) 8 9 5 (fun x _ _ _ _ _ => ret x) 7
            (set_progress true 8 9 (ex_sys 39))); [by cbn|reflexivity|lia|reflexivity|reflexivity].
Defined.

Lemma unknown_syscall_faults_witness : syscall_handler ex_code 8 9 (ex_sys 40) = Fault.
Proof. apply (unknown_syscall_faults ex_code (ex_sys 40)); [done|cbn; lia|right; by vm_compute]. Defined.

Lemma syscalls_initialize_fills_witness :
  exists s', syscalls_initialize (fun _ => 5) (mkSys (replicate 450 0) 0 (mkRegs 0 0 0 0 0 0 0) false 0 0 tt) = Ok (tt, s') /\
    syscallCnt s' = 75.
Proof.
  destruct (syscalls_initialize_fills (fun _ => 5) (mkSys (replicate 450 0) 0 (mkRegs 0 0 0 0 0 0 0) false 0 0 tt))
    as (s' & E & C & _); [reflexivity|reflexivity|]. exists s'. split; [exact E|rewrite C; reflexivity].
Defined.
