(* ===== verification/Futex.v ===== *)
(** * Futexes ([syscalls/futex.cpp])

    The tree of futexes, one list of sleepers per futex, and the three
    operations.  A [FUTEX_WAIT] is cut where the task hands over control: the
    part before it ends with the task asleep, [futex_resume] is the part after
    it.  The tree is used through [KeyMap], the lists are those of
    [LinkedList].  A sleeper's fields are kept whole at the offset of their first
    byte. *)

From S2P Require Import Prelude Bytes Heap FileTypes Spinlock LinkedList KeyMap.

Definition FUTEX_WAIT : Z := 0.
Definition FUTEX_WAKE : Z := 1.
Definition FUTEX_REQUEUE : Z := 3.
Definition FUTEX_PRIVATE_FLAG : Z := 128.
Definition FUTEX_CLOCK_REALTIME : Z := 256.
Definition EAGAIN : Z := 11.
Definition ETIMEDOUT : Z := 110.
Definition TASK_STATE_READY : Z := 1.
Definition TASK_STATE_FUTEX : Z := 10.
Definition EXTRAS_DISABLE_FUTEX : Z := 1.

(** [sizeof(FutexAsleep)], and its fields behind the list pointer. *)
Definition asleep_size : Z := 32.
Definition above (c : LLcell) : Z := ll_rest c !!! 0%nat.
Definition awoken (c : LLcell) : bool := negb (ll_rest c !!! 8%nat =? 0).
Definition sleeping_task (c : LLcell) : Z := ll_rest c !!! 16%nat.
Definition set_field (k : nat) (v : Z) (c : LLcell) : LLcell := mkCell (ll_next c) (<[k := v]> (ll_rest c)).

Record Futex := mkFutex {
  LOCK_PROP : bool;
  firstAsleep : LLcontrol;
}.

(** The fields of a task that the futexes touch. *)
Record ftask := mkFt {
  t_state : Z;
  forcefulWakeupTimeUnsafe : Z;
  spinlockQueueEntry : Z;
}.

Record fx (N : Type) := mkFx {
  tree : N;
  firstFutex : Z;
  LOCK_AVL_FUTEX : bool;
  futexes : gmap Z Futex;
  sleepers : gmap Z LLcell;
  tasks : gmap Z ftask;
}.
Arguments mkFx {N}.
Arguments tree {N}.
Arguments firstFutex {N}.
Arguments LOCK_AVL_FUTEX {N}.
Arguments futexes {N}.
Arguments sleepers {N}.
Arguments tasks {N}.

(** What the call finds in user memory and in the kernel's globals: the word at
    [addr], the time at [utime] (seconds and nanoseconds; [None]: not mapped),
    the direct map's offset and the clock. *)
Record futex_env := mkEnv {
  user_word : option Z;
  user_time : option (Z * Z);
  hhdmOffset : Z;
  timerTicks : Z;
}.

(** A call is over, or its task sleeps on the cell. *)
Inductive futex_result :=
| Returns (r : Z)
| Sleeps (asleep : Z).

Section operations.
Context {N : Type} `{!KeyMap N} `{!Allocator LLcell} `{!Allocator Futex}.
Abbreviation F := (fx N).
Implicit Types s : F.

Definition set_tree (n : N) s : F := mkFx n (firstFutex s) (LOCK_AVL_FUTEX s) (futexes s) (sleepers s) (tasks s).
Definition set_root (p : Z) s : F := mkFx (tree s) p (LOCK_AVL_FUTEX s) (futexes s) (sleepers s) (tasks s).
Definition set_avl_lock (b : bool) s : F := mkFx (tree s) (firstFutex s) b (futexes s) (sleepers s) (tasks s).
Definition set_futexes (h : gmap Z Futex) s : F := mkFx (tree s) (firstFutex s) (LOCK_AVL_FUTEX s) h (sleepers s) (tasks s).
Definition set_sleepers (h : gmap Z LLcell) s : F := mkFx (tree s) (firstFutex s) (LOCK_AVL_FUTEX s) (futexes s) h (tasks s).
Definition set_tasks (h : gmap Z ftask) s : F := mkFx (tree s) (firstFutex s) (LOCK_AVL_FUTEX s) (futexes s) (sleepers s) h.

(** A computation on one part of the state. *)
Definition within {T A} (part : F -> T) (back : T -> F -> F) (m : M T A) : M F A := fun s =>
  match m (part s) with
  | Ok (a, t) => Ok (a, back t s)
  | Halted => Halted
  | Fault => Fault
  | Hang => Hang
  end.
Definition on_tree {A} (m : M N A) : M F A := within tree set_tree m.
Definition on_futexes {A} (m : M (gmap Z Futex) A) : M F A := within futexes set_futexes m.
Definition on_sleepers {A} (m : M (gmap Z LLcell) A) : M F A := within sleepers set_sleepers m.
Definition on_tasks {A} (m : M (gmap Z ftask) A) : M F A := within tasks set_tasks m.

(** An operation on the list of the futex at [f]. *)
Definition on_list {A} (f : Z) (m : M ll_state A) : M F A :=
  let! x := on_futexes (deref f) in
  fun s => match m (mkLs (firstAsleep x) (sleepers s)) with
  | Ok (a, l) => Ok (a, set_sleepers (cells l) (set_futexes (<[f := mkFutex (LOCK_PROP x) (ll l)]> (futexes s)) s))
  | Halted => Halted
  | Fault => Fault
  | Hang => Hang
  end.

(** The lock words. *)
Definition lock_step (o : outcome bool) : M F bool :=
  match o with Ok b => ret b | Halted => halt | Fault => fault | Hang => hang end.
Definition acquire_avl : M F unit :=
  let! b := gets LOCK_AVL_FUTEX in
  let! b := lock_step (spinlock_acquire b) in modify (set_avl_lock b).
Definition release_avl : M F unit :=
  let! b := gets LOCK_AVL_FUTEX in
  let! b := lock_step (spinlock_release b) in modify (set_avl_lock b).
Definition acquire_prop (f : Z) : M F unit :=
  let! x := on_futexes (deref f) in
  let! b := lock_step (spinlock_acquire (LOCK_PROP x)) in
  on_futexes (update f (fun x => mkFutex b (firstAsleep x))).
Definition release_prop (f : Z) : M F unit :=
  let! x := on_futexes (deref f) in
  let! b := lock_step (spinlock_release (LOCK_PROP x)) in
  on_futexes (update f (fun x => mkFutex b (firstAsleep x))).

Definition futexFind (phys : Z) : M F Z :=
  acquire_avl ;;;
  let! root := gets firstFutex in
  let! futex := on_tree (km_lookup root phys) in
  let! futex :=
    (if negb (futex =? 0) then ret futex
     else
       let! futex := on_futexes (allocate (mkFutex false (mkLL 0 0 0 0))) in
       let! root := gets firstFutex in
       let! (root, _) := on_tree (km_allocate root phys futex) in
       modify (set_root root) ;;;
       on_list futex (LinkedListInit asleep_size) ;;;
       ret futex) in
  acquire_prop futex ;;;
  release_avl ;;;
  ret futex.

Definition task_spinlock_exit (task lock : Z) : M F unit :=
  let! t := on_tasks (deref task) in
  kassert (spinlockQueueEntry t =? 0) ;;;
  on_tasks (update task (fun t => mkFt (t_state t) (forcefulWakeupTimeUnsafe t) lock)).

(** [timerTicks + CEILING_DIVISION(tv_nsec, 1000000) + tv_sec * 1000]; the
    fields of the time are signed. *)
Definition wakeup_time (ticks : Z) (time : Z * Z) : Z :=
  u64 (ticks + Z.quot (time.2 + 1000000 - 1) 1000000 + time.1 * 1000).

(** [FUTEX_WAIT] behind the test of the word, up to the first [hand_control]. *)
Definition futex_enqueue (e : futex_env) (task phys utime : Z) : M F Z :=
  let! futex := futexFind phys in
  let! asleep := on_list futex (LinkedListAllocate asleep_size) in
  on_sleepers (update asleep (set_field 0 futex)) ;;;
  on_sleepers (update asleep (set_field 16 task)) ;;;
  task_spinlock_exit task futex ;;;
  (if utime =? 0 then ret tt
   else
     let! time := from_option_fault (user_time e) in
     on_tasks (update task (fun t => mkFt (t_state t) (wakeup_time (timerTicks e) time) (spinlockQueueEntry t)))) ;;;
  on_tasks (update task (fun t => mkFt TASK_STATE_FUTEX (forcefulWakeupTimeUnsafe t) (spinlockQueueEntry t))) ;;;
  ret asleep.

(** [FUTEX_WAIT] once the task is ready again; [pending] is the answer of
    [signalsPendingQuick]. *)
Definition futex_resume (task asleep : Z) (pending : bool) : M F Z :=
  let! t := on_tasks (deref task) in
  kassert (forcefulWakeupTimeUnsafe t =? 0) ;;;
  let! c := on_sleepers (deref asleep) in
  let newfutex := above c in
  acquire_prop newfutex ;;;
  let! c := on_sleepers (deref asleep) in
  let r := if awoken c then 0 else if pending then ERR EINTR else ERR ETIMEDOUT in
  let! res := on_list newfutex (LinkedListRemove asleep_size asleep) in
  kassert res ;;;
  release_prop newfutex ;;;
  ret r.

Definition wake_one (browse : Z) : M F unit :=
  let! c := on_sleepers (deref browse) in
  on_tasks (update (sleeping_task c) (fun t => mkFt (t_state t) 0 (spinlockQueueEntry t))) ;;;
  on_tasks (update (sleeping_task c) (fun t =>
    mkFt TASK_STATE_READY (forcefulWakeupTimeUnsafe t) (spinlockQueueEntry t))) ;;;
  on_sleepers (update browse (set_field 8 1)).

(** [awokenCnt] is an [int] compared with the unsigned [value]. *)
Fixpoint wake_loop (fuel : nat) (browse value awokenCnt : Z) : M F Z :=
  match fuel with
  | O => hang
  | S fuel =>
      if browse =? 0 then ret awokenCnt
      else
        let! c := on_sleepers (deref browse) in
        let! cnt :=
          (if negb (awoken c) && (u32 awokenCnt <? value)
           then wake_one browse ;;; ret (s32 (awokenCnt + 1))
           else ret awokenCnt) in
        let! c := on_sleepers (deref browse) in
        wake_loop fuel (ll_next c) value cnt
  end.

Definition sleepers_fuel s : nat := S (size (sleepers s)).

Definition futex_wake (phys value : Z) : M F Z :=
  let! futex := futexFind phys in
  let! x := on_futexes (deref futex) in
  let! fuel := gets sleepers_fuel in
  let! cnt := wake_loop fuel (firstObject (firstAsleep x)) value 0 in
  release_prop futex ;;;
  ret cnt.

(** Move one sleeper to the end of the other futex's list. *)
Definition move_one (futex futex2 browse : Z) : M F unit :=
  let! ok := on_list futex (LinkedListUnregister asleep_size browse) in
  kassert ok ;;;
  on_sleepers (update browse (fun c => mkCell 0 (ll_rest c))) ;;;
  on_sleepers (update browse (set_field 0 futex2)) ;;;
  let! x2 := on_futexes (deref futex2) in
  let! fuel := gets sleepers_fuel in
  on_list futex2 (link_last fuel (firstObject (firstAsleep x2)) browse).

Fixpoint requeue_loop (fuel : nat) (futex futex2 browse value limit awokenCnt movedCnt : Z)
    : M F (Z * Z) :=
  match fuel with
  | O => hang
  | S fuel =>
      if browse =? 0 then ret (awokenCnt, movedCnt)
      else
        let! c := on_sleepers (deref browse) in
        if negb (awoken c) && (u32 awokenCnt <? value) then
          wake_one browse ;;;
          let! c := on_sleepers (deref browse) in
          requeue_loop fuel futex futex2 (ll_next c) value limit (s32 (awokenCnt + 1)) movedCnt
        else if negb (awoken c) && (u32 movedCnt <? limit) then
          let! c := on_sleepers (deref browse) in
          move_one futex futex2 browse ;;;
          requeue_loop fuel futex futex2 (ll_next c) value limit awokenCnt (s32 (movedCnt + 1))
        else
          requeue_loop fuel futex futex2 (ll_next c) value limit awokenCnt movedCnt
  end.

(** With one futex on both sides a moved sleeper is met again, at most once per
    move. *)
Definition futex_requeue (phys phys2 value limit : Z) : M F Z :=
  let! futex := futexFind phys in
  let! futex2 := futexFind phys2 in
  let! x := on_futexes (deref futex) in
  let! fuel := gets sleepers_fuel in
  let fuel := if futex =? futex2 then (fuel + Z.to_nat limit)%nat else fuel in
  let! (awokenCnt, movedCnt) := requeue_loop fuel futex futex2 (firstObject (firstAsleep x)) value limit 0 0 in
  release_prop futex2 ;;;
  release_prop futex ;;;
  ret (s32 (awokenCnt + movedCnt)).

Definition misaligned (addr : Z) : bool := (addr =? 0) || negb (addr mod 4 =? 0).

(** [virtual_to_physical] of vmm.cpp. *)
Definition futex_key (e : futex_env) (addr : Z) : Z := u64 (addr - hhdmOffset e).

Definition futexSyscall (e : futex_env) (task addr op value utime addr2 : Z) : M F futex_result :=
  if negb (Z.land op FUTEX_CLOCK_REALTIME =? 0) then halt
  else
    let op := Z.land op (Z.lnot FUTEX_PRIVATE_FLAG) in
    if negb ((op =? FUTEX_WAIT) || (op =? FUTEX_WAKE) || (op =? FUTEX_REQUEUE)) then halt
    else if misaligned addr then ret (Returns (ERR EINVAL))
    else
      let phys := futex_key e addr in
      kassert (negb (phys =? 0)) ;;;
      if op =? FUTEX_WAIT then
        let! word := from_option_fault (user_word e) in
        if negb (word =? value) then ret (Returns (ERR EAGAIN))
        else let! asleep := futex_enqueue e task phys utime in ret (Sleeps asleep)
      else if op =? FUTEX_WAKE then
        let! cnt := futex_wake phys value in ret (Returns (u64 cnt))
      else if misaligned addr2 then ret (Returns (ERR EINVAL))
      else
        let phys2 := futex_key e addr2 in
        kassert (negb (phys2 =? 0)) ;;;
        let! cnt := futex_requeue phys phys2 value (u32 utime) in ret (Returns (u64 cnt)).

Definition syscallFutex (extras : Z) (e : futex_env) (task addr op value utime addr2 : Z) : M F futex_result :=
  if negb (Z.land extras EXTRAS_DISABLE_FUTEX =? 0) then ret (Returns 0)
  else futexSyscall e task addr op value utime addr2.

End operations.
