(* ===== verification/FutexQueues.v ===== *)
(** * The queues of sleepers behind the futexes

    What the tree, the futexes and their lists stand for: a map from keys to
    queues, each sleeper a cell, whether it has been woken, and its task.  The
    lemmas show what each operation does to the map. *)

From S2P Require Import Prelude Bytes Heap FileTypes Spinlock LinkedList KeyMap Futex.

Abbreviation sleeper := (Z * bool * Z)%type.
Definition cells_of (q : list sleeper) : list Z := (fun x => x.1.1) <$> q.

(** The contents of a sleeper's cell under the futex at [f]. *)
Definition rest_of (f : Z) (b : bool) (t : Z) : list Z :=
  f :: replicate 7 0 ++ (if b then 1 else 0) :: replicate 7 0 ++ t :: replicate 7 0.
Definition row (f : Z) (x : sleeper) : Z * list Z := (x.1.1, rest_of f x.1.2 x.2).

Definition first_cell (q : list sleeper) : Z := match q with [] => 0 | x :: _ => x.1.1 end.

(** The cell [a] belongs to a queue other than that of [p]. *)
Definition foreign (Q : gmap Z (list sleeper)) (p a : Z) : Prop :=
  exists p' q, p' <> p /\ Q !! p' = Some q /\ a ∈ cells_of q.

(** Tasks made ready. *)
Definition wake_tasks (w : list Z) (ts : gmap Z ftask) : gmap Z ftask :=
  map_imap (fun t x => Some (if decide (t ∈ w) then mkFt TASK_STATE_READY 0 (spinlockQueueEntry x) else x)) ts.

Lemma wake_tasks_lookup w ts t :
  wake_tasks w ts !! t =
  (fun x => if decide (t ∈ w) then mkFt TASK_STATE_READY 0 (spinlockQueueEntry x) else x) <$> ts !! t.
Proof. unfold wake_tasks. rewrite map_lookup_imap. by destruct (ts !! t). Qed.

Lemma wake_tasks_nil ts : wake_tasks [] ts = ts.
Proof.
  apply map_eq. intros t. rewrite wake_tasks_lookup. destruct (ts !! t); cbn; [|done].
  by rewrite decide_False by set_solver.
Qed.

Lemma wake_tasks_app w1 w2 ts : wake_tasks w2 (wake_tasks w1 ts) = wake_tasks (w1 ++ w2) ts.
Proof.
  apply map_eq. intros t. rewrite !wake_tasks_lookup. destruct (ts !! t); cbn; [|done]. f_equal.
  repeat case_decide; set_solver.
Qed.

Lemma row_cells f q : (row f <$> q).*1 = cells_of q.
Proof. unfold cells_of. by rewrite <- list_fmap_compose. Qed.

Lemma chain_first h p f q : chain h p (row f <$> q) 0 -> p = first_cell q.
Proof. destruct q as [|x q]; cbn; [done|]. by intros [-> _]. Qed.

(** ** What waking and moving mean

    The sleepers nobody has woken yet, in the order in which they came; the
    queue after the first [n] of them are woken; the queue after the next [k] of
    them have left. *)
Definition waiting (q : list sleeper) : list sleeper := filter (fun x => x.1.2 = false) q.
Definition woken (n : Z) (q : list sleeper) : list Z := snd <$> take (Z.to_nat n) (waiting q).
Definition moved (n k : Z) (q : list sleeper) : list sleeper :=
  take (Z.to_nat k) (drop (Z.to_nat n) (waiting q)).

Fixpoint requeue (n k : Z) (q : list sleeper) : list sleeper :=
  match q with
  | [] => []
  | (a, b, t) :: q =>
      if negb b && (0 <? n) then (a, true, t) :: requeue (n - 1) k q
      else if negb b && (0 <? k) then requeue n (k - 1) q
      else (a, b, t) :: requeue n k q
  end.
Definition wake (n : Z) (q : list sleeper) : list sleeper := requeue n 0 q.

Lemma waiting_cons a b t q :
  waiting ((a, b, t) :: q) = if b then waiting q else (a, b, t) :: waiting q.
Proof. unfold waiting. rewrite filter_cons. cbn. by destruct b. Qed.

Lemma woken_cons n a t q : 0 < n -> woken n ((a, false, t) :: q) = t :: woken (n - 1) q.
Proof.
  intros Hn. unfold woken. rewrite waiting_cons. replace (Z.to_nat n) with (S (Z.to_nat (n - 1))) by lia. done.
Qed.
Lemma woken_skip n a b t q : b = true \/ n <= 0 -> woken n ((a, b, t) :: q) = woken n q.
Proof.
  intros H. unfold woken. rewrite waiting_cons. destruct b; [done|]. destruct H as [?|H]; [done|].
  by replace (Z.to_nat n) with 0%nat by lia.
Qed.
Lemma moved_wake n k a t q : 0 < n -> moved n k ((a, false, t) :: q) = moved (n - 1) k q.
Proof.
  intros Hn. unfold moved. rewrite waiting_cons. by replace (Z.to_nat n) with (S (Z.to_nat (n - 1))) by lia.
Qed.
Lemma moved_cons n k a t q :
  n <= 0 -> 0 < k -> moved n k ((a, false, t) :: q) = (a, false, t) :: moved n (k - 1) q.
Proof.
  intros Hn Hk. unfold moved. rewrite waiting_cons. replace (Z.to_nat n) with 0%nat by lia.
  by replace (Z.to_nat k) with (S (Z.to_nat (k - 1))) by lia.
Qed.
Lemma moved_skip n k a b t q : b = true \/ (n <= 0 /\ k <= 0) -> moved n k ((a, b, t) :: q) = moved n k q.
Proof.
  intros H. unfold moved. rewrite waiting_cons. destruct b; [done|]. destruct H as [?|[H1 H2]]; [done|].
  by replace (Z.to_nat k) with 0%nat by lia.
Qed.

(** The queue left behind: the sleepers not moved, in order, and those still
    waiting are the ones after the woken and the moved. *)
Lemma requeue_waiting n k q :
  waiting (requeue n k q) = drop (Z.to_nat k) (drop (Z.to_nat n) (waiting q)).
Proof.
  revert n k. induction q as [|[[a b] t] q IH]; intros n k; [unfold waiting; cbn; by rewrite !drop_nil|]. cbn [requeue]. rewrite waiting_cons.
  destruct b; cbn [negb andb]; [by rewrite waiting_cons, IH|].
  destruct (0 <? n) eqn:E1; [|destruct (0 <? k) eqn:E2].
  - rewrite waiting_cons, IH. by replace (Z.to_nat n) with (S (Z.to_nat (n - 1))) by lia.
  - rewrite IH. replace (Z.to_nat n) with 0%nat by lia. by replace (Z.to_nat k) with (S (Z.to_nat (k - 1))) by lia.
  - rewrite waiting_cons, IH. replace (Z.to_nat n) with 0%nat by lia. by replace (Z.to_nat k) with 0%nat by lia.
Qed.

Definition who (x : sleeper) : Z * Z := (x.1.1, x.2).

Lemma wake_who n q : who <$> wake n q = who <$> q.
Proof.
  revert n. unfold wake. induction q as [|[[a b] t] q IH]; intros n; [done|]. cbn [requeue].
  destruct (negb b && (0 <? n)); [cbn; by rewrite IH|]. rewrite andb_false_r. cbn. by rewrite IH.
Qed.

Lemma moved_cells n k q x : x ∈ moved n k q -> x ∈ q.
Proof.
  unfold moved. intros H. assert (Hw : x ∈ waiting q).
  { rewrite <- (take_drop (Z.to_nat n)). apply elem_of_app. right.
    rewrite <- (take_drop (Z.to_nat k)). apply elem_of_app. by left. }
  apply list_elem_of_filter in Hw. tauto.
Qed.

Lemma requeue_who n k q :
  NoDup (cells_of q) ->
  who <$> requeue n k q = filter (fun x => x.1 ∉ cells_of (moved n k q)) (who <$> q).
Proof.
  revert n k. induction q as [|[[a b] t] q IH]; intros n k Hd; [done|]. cbn [requeue].
  apply NoDup_cons in Hd as [Ha Hd]. cbn in Ha.
  assert (Hm : forall n k, a ∉ cells_of (moved n k q)).
  { intros n' k' Hin. apply Ha. apply list_elem_of_fmap in Hin as (x & -> & Hx%moved_cells).
    apply list_elem_of_fmap. by exists x. }
  rewrite fmap_cons, filter_cons. change ((who (a, b, t)).1) with a.
  destruct b; cbn [negb andb]; [rewrite moved_skip by auto; rewrite decide_True by apply Hm; cbn; by rewrite IH|].
  destruct (0 <? n) eqn:E1; [|destruct (0 <? k) eqn:E2].
  - rewrite moved_wake by lia. rewrite decide_True by apply Hm. cbn. by rewrite IH.
  - rewrite moved_cons by lia. rewrite decide_False by (cbn; set_solver). rewrite IH by done.
    apply filter_ext_in. intros x Hx.
    assert (x.1 <> a).
    { intros <-. apply Ha. apply list_elem_of_fmap in Hx as (y & -> & Hy). apply list_elem_of_fmap. by exists y. }
    cbn. set_solver.
  - rewrite moved_skip by lia. rewrite decide_True by apply Hm. cbn. by rewrite IH.
Qed.

Section queues.
Context {N : Type} `{!KeyMap N} `{!Allocator LLcell} `{!Allocator Futex}.
Abbreviation F := (fx N).
Implicit Types (s : F) (m : gmap Z Z) (Q : gmap Z (list sleeper)).

Definition queue s (f : Z) (q : list sleeper) : Prop :=
  f <> 0 /\ exists c, futexes s !! f = Some (mkFutex false c) /\
    ll_list (mkLs c (sleepers s)) asleep_size (row f <$> q).

(** [m] gives the futex of a key, [Q] its queue. *)
Record fx_rep s m Q : Prop := {
  fr_tree : km_map (tree s) (firstFutex s) m;
  fr_avl : LOCK_AVL_FUTEX s = false;
  fr_inj : forall p p' f, m !! p = Some f -> m !! p' = Some f -> p = p';
  fr_dom : forall p, is_Some (m !! p) <-> is_Some (Q !! p);
  fr_queue : forall p f q, m !! p = Some f -> Q !! p = Some q -> queue s f q;
  fr_apart : forall p p' q q' a, Q !! p = Some q -> Q !! p' = Some q' ->
    a ∈ cells_of q -> a ∈ cells_of q' -> p = p';
  fr_tasks : forall p q x, Q !! p = Some q -> x ∈ q -> x.2 <> 0 /\ is_Some (tasks s !! x.2);
}.

Lemma queue_frame s s' f q :
  futexes s' !! f = futexes s !! f -> (forall a, a ∈ cells_of q -> sleepers s' !! a = sleepers s !! a) ->
  queue s f q -> queue s' f q.
Proof.
  intros Ef Es (Hf & c & Hc & E & Hd & Hch). split; [done|]. exists c. rewrite Ef. split; [done|].
  split_and!; [done..|]. eapply chain_frame; [|exact Hch]. intros a Ha. apply Es. by rewrite <- (row_cells f).
Qed.

(** One queue changes: its futex, cells of no other queue, and the tasks. *)
Lemma rep_update s s' m Q p f q q' :
  fx_rep s m Q -> m !! p = Some f -> Q !! p = Some q ->
  tree s' = tree s -> firstFutex s' = firstFutex s -> LOCK_AVL_FUTEX s' = false ->
  (forall g, g <> f -> futexes s' !! g = futexes s !! g) ->
  (forall a, foreign Q p a -> sleepers s' !! a = sleepers s !! a) ->
  (forall a, a ∈ cells_of q' -> ~ foreign Q p a) -> queue s' f q' ->
  (forall t, is_Some (tasks s !! t) -> is_Some (tasks s' !! t)) ->
  (forall x, x ∈ q' -> x.2 <> 0 /\ is_Some (tasks s' !! x.2)) ->
  fx_rep s' m (<[p := q']> Q).
Proof.
  intros R Hm Hq Et Er Ea Ff Fs Hn Hq' Ft Htq. split.
  - rewrite Et, Er. apply R.
  - done.
  - apply R.
  - intros p'. rewrite (fr_dom _ _ _ R p'). destruct (decide (p' = p)) as [->|Hp]; [rewrite lookup_insert_eq, Hq; split; eauto|].
    by rewrite lookup_insert_ne.
  - intros p' f' q1 Hm' [[<- <-]|[Hp Hq1]]%lookup_insert_Some; [congruence|].
    eapply queue_frame; [| |by eapply (fr_queue _ _ _ R)].
    + apply Ff. intros ->. apply Hp. by apply (fr_inj _ _ _ R p p' f).
    + intros a Ha. apply Fs. by exists p', q1.
  - intros p1 p2 q1 q2 a H1 H2 A1 A2. apply lookup_insert_Some in H1 as [[<- <-]|[Hp1 H1]], H2 as [[<- <-]|[Hp2 H2]]; [done|..].
    + exfalso. apply (Hn a A1). by exists p2, q2.
    + exfalso. apply (Hn a A2). by exists p1, q1.
    + by apply (fr_apart _ _ _ R p1 p2 q1 q2 a).
  - intros p' q1 x [[<- <-]|[Hp Hq1]]%lookup_insert_Some Hx; [by apply Htq|].
    destruct (fr_tasks _ _ _ R _ _ _ Hq1 Hx). split; [done|by apply Ft].
Qed.

Lemma own_not_foreign s m Q p q a : fx_rep s m Q -> Q !! p = Some q -> a ∈ cells_of q -> ~ foreign Q p a.
Proof. intros R Hq Ha (p' & q' & Hp & Hq' & Ha'). apply Hp. by apply (fr_apart _ _ _ R p' p q' q a). Qed.

Lemma foreign_insert Q p q a : foreign (<[p := q]> Q) p a <-> foreign Q p a.
Proof.
  unfold foreign. split; intros (p' & q' & Hp & Hq & Ha); exists p', q'; (split; [done|]); split; try done.
  - by rewrite lookup_insert_ne in Hq by done.
  - by rewrite lookup_insert_ne by done.
Qed.

(** ** Steps through the parts of the state *)

Lemma on_futexes_deref s f x :
  f <> 0 -> futexes s !! f = Some x -> on_futexes (deref f) s = Ok (x, s).
Proof. intros Hf Hx. unfold on_futexes, within. rewrite (deref_ok _ _ _ Hf Hx). by destruct s. Qed.

Lemma on_sleepers_deref s a c :
  a <> 0 -> sleepers s !! a = Some c -> on_sleepers (deref a) s = Ok (c, s).
Proof. intros Ha Hc. unfold on_sleepers, within. rewrite (deref_ok _ _ _ Ha Hc). by destruct s. Qed.

Lemma on_sleepers_update s a c g :
  a <> 0 -> sleepers s !! a = Some c ->
  on_sleepers (update a g) s = Ok (tt, set_sleepers (<[a := g c]> (sleepers s)) s).
Proof. intros Ha Hc. unfold on_sleepers, within. by rewrite (update_ok _ _ _ _ Ha Hc). Qed.

Lemma on_tasks_deref s t x : t <> 0 -> tasks s !! t = Some x -> on_tasks (deref t) s = Ok (x, s).
Proof. intros Ht Hx. unfold on_tasks, within. rewrite (deref_ok _ _ _ Ht Hx). by destruct s. Qed.

Lemma on_tasks_update s t x g :
  t <> 0 -> tasks s !! t = Some x ->
  on_tasks (update t g) s = Ok (tt, set_tasks (<[t := g x]> (tasks s)) s).
Proof. intros Ht Hx. unfold on_tasks, within. by rewrite (update_ok _ _ _ _ Ht Hx). Qed.

Lemma on_list_ok {A} s f x (op : M ll_state A) a st :
  f <> 0 -> futexes s !! f = Some x -> op (mkLs (firstAsleep x) (sleepers s)) = Ok (a, st) ->
  on_list f op s =
    Ok (a, set_sleepers (cells st) (set_futexes (<[f := mkFutex (LOCK_PROP x) (ll st)]> (futexes s)) s)).
Proof.
  intros Hf Hx E. unfold on_list. erewrite bind_ok by (by apply on_futexes_deref). by rewrite E.
Qed.

Lemma prop_locks s f c :
  f <> 0 -> futexes s !! f = Some (mkFutex false c) ->
  acquire_prop f s = Ok (tt, s) /\ release_prop f s = Ok (tt, s).
Proof.
  intros Hf Hc. assert (U : on_futexes (update f (fun x => mkFutex false (firstAsleep x))) s = Ok (tt, s)).
  { unfold on_futexes, within. rewrite (update_ok _ _ _ _ Hf Hc). cbn [firstAsleep].
    rewrite insert_id by done. by destruct s. }
  unfold acquire_prop, release_prop. split.
  all: erewrite bind_ok by (by apply on_futexes_deref); erewrite bind_ok by done; exact U.
Qed.

Lemma queue_locks s f q : queue s f q -> acquire_prop f s = Ok (tt, s) /\ release_prop f s = Ok (tt, s).
Proof. intros (Hf & c & Hc & _). by apply (prop_locks s f c). Qed.

Lemma avl_locks s : LOCK_AVL_FUTEX s = false -> acquire_avl s = Ok (tt, s) /\ release_avl s = Ok (tt, s).
Proof.
  intros E. unfold acquire_avl, release_avl. rewrite !(bind_ok _ _ s _ s eq_refl). rewrite E. cbn.
  destruct s; cbn in *. by subst.
Qed.

(** A list operation on one queue. *)
Lemma rep_on_list {A} s m Q p f q q' (op : M ll_state A) a :
  fx_rep s m Q -> m !! p = Some f -> Q !! p = Some q ->
  (forall c, futexes s !! f = Some (mkFutex false c) ->
     ll_list (mkLs c (sleepers s)) asleep_size (row f <$> q) -> exists st,
     op (mkLs c (sleepers s)) = Ok (a, st) /\ ll_list st asleep_size (row f <$> q') /\
     forall b, foreign Q p b -> cells st !! b = sleepers s !! b) ->
  (forall b, b ∈ cells_of q' -> ~ foreign Q p b) ->
  (forall x, x ∈ q' -> x.2 <> 0 /\ is_Some (tasks s !! x.2)) ->
  exists c st, on_list f op s = Ok (a, set_sleepers (cells st) (set_futexes (<[f := mkFutex false (ll st)]> (futexes s)) s)) /\
    futexes s !! f = Some (mkFutex false c) /\ op (mkLs c (sleepers s)) = Ok (a, st) /\
    fx_rep (set_sleepers (cells st) (set_futexes (<[f := mkFutex false (ll st)]> (futexes s)) s)) m (<[p := q']> Q).
Proof.
  intros R Hm Hq Hop Hn Ht. destruct (fr_queue _ _ _ R _ _ _ Hm Hq) as (Hf & c & Hc & L).
  destruct (Hop c Hc L) as (st & E & L' & Fr). exists c, st. split_and!; [by rewrite (on_list_ok s f _ op a st Hf Hc E)|done..|].
  eapply (rep_update s _ m Q p f q q'); try done.
  - apply R.
  - intros g Hg. cbn. by apply lookup_insert_ne.
  - split; [done|]. exists (ll st). split; [apply lookup_insert_eq|]. by destruct st.
Qed.

(** ** Finding a futex *)

Lemma rep_values_live s m Q p f :
  fx_rep s m Q -> m !! p = Some f -> f <> 0 /\ is_Some (futexes s !! f).
Proof.
  intros R Hm. destruct (proj1 (fr_dom _ _ _ R p)) as [q Hq]; [eauto|].
  destruct (fr_queue _ _ _ R _ _ _ Hm Hq) as (Hf & c & Hc & _). eauto.
Qed.

Lemma futexFind_old s m Q phys f :
  fx_rep s m Q -> m !! phys = Some f -> futexFind phys s = Ok (f, s).
Proof.
  intros R Hm. destruct (avl_locks s (fr_avl _ _ _ R)) as [La Lr].
  destruct (proj1 (fr_dom _ _ _ R phys)) as [q Hq]; [eauto|].
  pose proof (fr_queue _ _ _ R _ _ _ Hm Hq) as Hqu. destruct (queue_locks _ _ _ Hqu) as [Pa _].
  unfold futexFind. mrw La. erewrite bind_ok by done.
  erewrite (bind_ok _ _ s f s).
  2:{ unfold on_tree, within. rewrite (km_lookup_ok _ _ m) by apply R. rewrite Hm. by destruct s. }
  destruct Hqu as [Hf _]. rewrite (proj2 (Z.eqb_neq f 0)) by done. cbn [negb].
  erewrite bind_ok by done. mrw Pa. by mrw Lr.
Qed.

Lemma futexFind_new s m Q phys :
  fx_rep s m Q -> m !! phys = None ->
  exists f s', futexFind phys s = Ok (f, s') /\ fx_rep s' (<[phys := f]> m) (<[phys := []]> Q) /\
    sleepers s' = sleepers s /\ tasks s' = tasks s.
Proof.
  intros R Hm. pose proof (malloc_fresh (futexes s)) as Hfresh. pose proof (malloc_nonnull (futexes s)) as Hf.
  set (f := malloc (futexes s)) in *.
  assert (HQ : Q !! phys = None).
  { destruct (Q !! phys) eqn:E; [|done]. destruct (proj2 (fr_dom _ _ _ R phys)) as [? ?]; [eauto|congruence]. }
  destruct (km_allocate_ok _ _ _ phys f (fr_tree _ _ _ R) Hm) as (root & new & n & Ek & _ & Hk).
  set (c1 := mkLL LL_SIGNATURE_1 LL_SIGNATURE_2 asleep_size 0).
  set (s1 := mkFx n root false (<[f := mkFutex false c1]> (futexes s)) (sleepers s) (tasks s)).
  destruct (prop_locks s1 f c1 Hf) as [Pa _]; [apply lookup_insert_eq|].
  destruct (avl_locks s1 eq_refl) as [_ Lr]. destruct (avl_locks s (fr_avl _ _ _ R)) as [La _].
  exists f, s1. split_and!; [| |done..].
  - unfold futexFind. mrw La. erewrite bind_ok by done. erewrite (bind_ok _ _ s 0 s).
    2:{ unfold on_tree, within. rewrite (km_lookup_ok _ _ m) by apply R. rewrite Hm. by destruct s. }
    cbn [Z.eqb negb]. erewrite (bind_ok _ _ s f s1); [mrw Pa; by mrw Lr|].
    erewrite (bind_ok _ _ s f (set_futexes (<[f := mkFutex false (mkLL 0 0 0 0)]> (futexes s)) s)) by done.
    erewrite bind_ok by done. erewrite bind_ok by (unfold on_tree, within; cbn; by rewrite Ek).
    cbn [set_tree]. erewrite bind_ok by done.
    erewrite bind_ok.
    2:{ eapply on_list_ok with (x := mkFutex false (mkLL 0 0 0 0)); [done|cbn; apply lookup_insert_eq|done]. }
    unfold ret. do 2 f_equal. unfold s1, set_sleepers, set_futexes, set_root, set_tree. cbn.
    by rewrite insert_insert_eq, (fr_avl _ _ _ R).
  - assert (Hne : forall p g, m !! p = Some g -> g <> f).
    { intros p g Hg ->. destruct (rep_values_live _ _ _ _ _ R Hg) as [_ [? ?]]. congruence. }
    split.
    + done.
    + done.
    + intros p p' g H1 H2. apply lookup_insert_Some in H1 as [[<- <-]|[? H1]], H2 as [[<- E2]|[? H2]]; [done|..].
      * by apply Hne in H2.
      * subst g. by apply Hne in H1.
      * by apply (fr_inj _ _ _ R p p' g).
    + intros p. destruct (decide (p = phys)) as [->|Hp]; [rewrite !lookup_insert_eq; split; eauto|].
      rewrite !lookup_insert_ne by done. apply R.
    + intros p g q H1 H2. apply lookup_insert_Some in H1 as [[<- <-]|[Hp H1]].
      * rewrite lookup_insert_eq in H2. injection H2 as <-. split; [done|]. exists c1.
        split; [apply lookup_insert_eq|]. split_and!; [done|constructor|done].
      * rewrite lookup_insert_ne in H2 by done.
        eapply queue_frame; [| |by eapply (fr_queue _ _ _ R)]; [|done]. cbn. apply lookup_insert_ne.
        intros E. by apply (Hne p g H1).
    + intros p p' q q' a H1 H2 A1 A2.
      apply lookup_insert_Some in H1 as [[<- <-]|[? H1]]; [by apply elem_of_nil in A1|].
      apply lookup_insert_Some in H2 as [[<- <-]|[? H2]]; [by apply elem_of_nil in A2|].
      by apply (fr_apart _ _ _ R p p' q q' a).
    + intros p q x [[<- <-]|[? H1]]%lookup_insert_Some Hx; [by apply elem_of_nil in Hx|].
      by apply (fr_tasks _ _ _ R p q).
Qed.

(** The queue of a key, empty for a key never used. *)
Definition queue_of Q (p : Z) : list sleeper := default [] (Q !! p).

Lemma futexFind_ok s m Q phys :
  fx_rep s m Q ->
  exists f s' m', futexFind phys s = Ok (f, s') /\ fx_rep s' m' (<[phys := queue_of Q phys]> Q) /\
    m' !! phys = Some f /\ m ⊆ m' /\ sleepers s' = sleepers s /\ tasks s' = tasks s.
Proof.
  intros R. unfold queue_of. destruct (m !! phys) as [f|] eqn:Hm.
  - exists f, s, m. destruct (proj1 (fr_dom _ _ _ R phys)) as [q Hq]; [eauto|].
    rewrite Hq. cbn. rewrite insert_id by done. split_and!; try done. by eapply futexFind_old.
  - destruct (futexFind_new s m Q phys R Hm) as (f & s' & E & R' & Es & Et).
    exists f, s', (<[phys := f]> m).
    assert (Q !! phys = None) as ->.
    { destruct (Q !! phys) eqn:EQ; [|done]. destruct (proj2 (fr_dom _ _ _ R phys)) as [? ?]; [eauto|congruence]. }
    split_and!; try done; [apply lookup_insert_eq|by apply insert_subseteq].
Qed.

(** ** One sleeper *)

Lemma rep_cell s m Q p f q1 a b t q2 :
  fx_rep s m Q -> m !! p = Some f -> Q !! p = Some (q1 ++ (a, b, t) :: q2) ->
  a <> 0 /\ sleepers s !! a = Some (mkCell (first_cell q2) (rest_of f b t)).
Proof.
  intros R Hm Hq. destruct (fr_queue _ _ _ R _ _ _ Hm Hq) as (_ & c & _ & _ & _ & Hc).
  rewrite fmap_app in Hc. apply chain_app in Hc as (x & _ & Hc). cbn in Hc.
  destruct Hc as (-> & Ha & n & Hn & Hc). split; [done|]. cbn in Hn. rewrite Hn. do 2 f_equal.
  by eapply chain_first.
Qed.

Lemma rep_NoDup s m Q p q : fx_rep s m Q -> Q !! p = Some q -> NoDup (cells_of q).
Proof.
  intros R Hq. destruct (proj2 (fr_dom _ _ _ R p)) as [f Hm]; [eauto|].
  destruct (fr_queue _ _ _ R _ _ _ Hm Hq) as (_ & c & _ & _ & Hd & _). by rewrite row_cells in Hd.
Qed.

Lemma cells_mark q1 a b b' t q2 : cells_of (q1 ++ (a, b', t) :: q2) = cells_of (q1 ++ (a, b, t) :: q2).
Proof. unfold cells_of. by rewrite !fmap_app. Qed.

Lemma queue_mark s f q1 a b t q2 b' t' n :
  sleepers s !! a = Some (mkCell n (rest_of f b t)) ->
  queue s f (q1 ++ (a, b, t) :: q2) ->
  queue (set_sleepers (<[a := mkCell n (rest_of f b' t')]> (sleepers s)) s) f (q1 ++ (a, b', t') :: q2).
Proof.
  intros Hc (Hf & c & Hcc & L). split; [done|]. exists c. split; [done|].
  rewrite fmap_app in L |- *. by apply (ll_set_rest _ _ _ _ _ (rest_of f b' t') _ _ L).
Qed.

Lemma wake_tasks_live w ts t : is_Some (wake_tasks w ts !! t) <-> is_Some (ts !! t).
Proof. rewrite wake_tasks_lookup. by rewrite fmap_is_Some. Qed.

Lemma wake_tasks_one ts t x :
  ts !! t = Some x -> <[t := mkFt TASK_STATE_READY 0 (spinlockQueueEntry x)]> ts = wake_tasks [t] ts.
Proof.
  intros Hx. apply map_eq. intros t'. rewrite wake_tasks_lookup. destruct (decide (t' = t)) as [->|Hne].
  - rewrite lookup_insert_eq, Hx. cbn. by rewrite decide_True by set_solver.
  - rewrite lookup_insert_ne by done. destruct (ts !! t'); cbn; [|done]. by rewrite decide_False by set_solver.
Qed.

(** Waking marks the sleeper and readies its task. *)
Lemma wake_one_ok s m Q p f q1 a b t q2 :
  fx_rep s m Q -> m !! p = Some f -> Q !! p = Some (q1 ++ (a, b, t) :: q2) ->
  exists s', wake_one a s = Ok (tt, s') /\ fx_rep s' m (<[p := q1 ++ (a, true, t) :: q2]> Q) /\
    tasks s' = wake_tasks [t] (tasks s) /\ futexes s' = futexes s.
Proof.
  intros R Hm Hq. destruct (rep_cell _ _ _ _ _ _ _ _ _ _ R Hm Hq) as [Ha Hc].
  destruct (fr_tasks _ _ _ R p _ (a, b, t) Hq) as [Ht [x Hx]]; [set_solver|]. cbn in Ht, Hx.
  set (sl := <[a := mkCell (first_cell q2) (rest_of f true t)]> (sleepers s)).
  exists (set_tasks (wake_tasks [t] (tasks s)) (set_sleepers sl s)). split_and!; [| |done..].
  - unfold wake_one. erewrite bind_ok by (by apply on_sleepers_deref).
    change (sleeping_task _) with t. erewrite bind_ok by (by apply on_tasks_update).
    erewrite bind_ok by (apply on_tasks_update; [done|apply lookup_insert_eq]).
    erewrite on_sleepers_update by done. do 2 f_equal. unfold set_sleepers, set_tasks. cbn.
    rewrite insert_insert_eq. by rewrite wake_tasks_one.
  - eapply (rep_update s _ m Q p f _ _ R Hm Hq); try done.
    + apply R.
    + intros a' Hf. cbn. apply lookup_insert_ne. intros <-.
      eapply (own_not_foreign _ _ _ _ _ a R Hq); [|done]. unfold cells_of. rewrite fmap_app. set_solver.
    + intros a' Ha'. rewrite (cells_mark q1 a b) in Ha'. by apply (own_not_foreign _ _ _ _ _ a' R Hq).
    + eapply queue_frame; [| |eapply queue_mark; [exact Hc|by apply (fr_queue _ _ _ R p f)]]; done.
    + intros t' Hl. cbn. by rewrite wake_tasks_live.
    + intros [[ya yb] yt] Hy. cbn. rewrite wake_tasks_live.
      assert (exists b', (ya, b', yt) ∈ q1 ++ (a, b, t) :: q2) as [b' Hb].
      { rewrite elem_of_app, elem_of_cons in Hy. destruct Hy as [?|[[= -> -> ->]|?]]; [exists yb|exists b|exists yb]; set_solver. }
      exact (fr_tasks _ _ _ R p _ _ Hq Hb).
Qed.

(** ** The loops *)

Lemma wake_loop_ok q2 : forall s m Q p f q1 value cnt fuel,
  fx_rep s m Q -> m !! p = Some f -> Q !! p = Some (q1 ++ q2) ->
  0 <= cnt -> cnt + zlen q2 < 2 ^ 31 -> (length q2 < fuel)%nat ->
  exists s', wake_loop fuel (first_cell q2) value cnt s = Ok (cnt + zlen (woken (value - cnt) q2), s') /\
    fx_rep s' m (<[p := q1 ++ wake (value - cnt) q2]> Q) /\
    tasks s' = wake_tasks (woken (value - cnt) q2) (tasks s).
Proof.
  unfold wake. induction q2 as [|[[a b] t] q2 IH]; intros s m Q p f q1 value cnt fuel R Hm Hq H0 Hb Hf;
    (destruct fuel as [|fuel]; [cbn in Hf; lia|]); cbn [first_cell fst wake_loop].
  - exists s. unfold woken, waiting. cbn. rewrite take_nil. cbn. rewrite Z.add_0_r, wake_tasks_nil, insert_id by done. done.
  - rewrite zlen_cons in Hb. cbn [length] in Hf. pose proof (zlen_nonneg q2).
    destruct (rep_cell _ _ _ _ _ _ _ _ _ _ R Hm Hq) as [Ha Hc].
    rewrite (proj2 (Z.eqb_neq a 0)) by done. erewrite bind_ok by (by apply on_sleepers_deref).
    assert (awoken (mkCell (first_cell q2) (rest_of f b t)) = b) as -> by (by destruct b).
    rewrite u32_small by lia. cbn [requeue]. replace (0 <? value - cnt) with (cnt <? value) by (apply eq_true_iff_eq; lia).
    destruct (negb b && (cnt <? value)) eqn:Eb; [|rewrite andb_false_r].
    + apply andb_prop in Eb as [Eb Ev]. destruct b; [done|].
      destruct (wake_one_ok _ _ _ _ _ _ _ _ _ _ R Hm Hq) as (s1 & E1 & R1 & T1 & _).
      erewrite (bind_ok _ _ s (cnt + 1) s1) by (mrw E1; by rewrite s32_small by lia).
      destruct (rep_cell _ _ _ p f q1 a true t q2 R1 Hm) as [_ Hc1]; [apply lookup_insert_eq|].
      erewrite bind_ok by (by apply on_sleepers_deref). cbn [ll_next].
      destruct (IH s1 m _ p f (q1 ++ [(a, true, t)]) value (cnt + 1) fuel R1 Hm) as (s' & E & R' & T'); [|lia..|].
      { rewrite lookup_insert_eq. by rewrite <- app_assoc. }
      exists s'. rewrite woken_cons by lia. replace (value - (cnt + 1)) with (value - cnt - 1) in * by lia.
      rewrite E, zlen_cons. split_and!; [do 2 f_equal; lia| |].
      * rewrite insert_insert_eq, <- app_assoc in R'. exact R'.
      * rewrite T', T1. by rewrite wake_tasks_app.
    + erewrite bind_ok by done. erewrite bind_ok by (by apply on_sleepers_deref). cbn [ll_next].
      destruct (IH s m Q p f (q1 ++ [(a, b, t)]) value cnt fuel R Hm) as (s' & E & R' & T'); [by rewrite <- app_assoc|lia..|].
      exists s'. rewrite woken_skip by (destruct b; [by left|right; cbn in Eb; lia]).
      split_and!; [done| |done]. by rewrite <- app_assoc in R'.
Qed.

(** ** Moving, leaving and joining *)

Lemma cells_app q1 q2 : cells_of (q1 ++ q2) = cells_of q1 ++ cells_of q2.
Proof. unfold cells_of. by rewrite fmap_app. Qed.

(** A cell of no queue may change. *)
Lemma rep_loose s m Q a c :
  fx_rep s m Q -> (forall p q, Q !! p = Some q -> a ∉ cells_of q) ->
  fx_rep (set_sleepers (<[a := c]> (sleepers s)) s) m Q.
Proof.
  intros R Ha. split; try apply R. intros p f q Hm Hq.
  eapply queue_frame; [| |by eapply (fr_queue _ _ _ R)]; [done|]. intros b Hb. cbn. apply lookup_insert_ne.
  intros <-. by apply (Ha p q).
Qed.

(** Outside its own place a sleeper's cell is in no queue. *)
Lemma cell_once s m Q p q1 a b t q2 :
  fx_rep s m Q -> Q !! p = Some (q1 ++ (a, b, t) :: q2) ->
  a ∉ cells_of q1 /\ a ∉ cells_of (q1 ++ q2) /\ ~ foreign Q p a.
Proof.
  intros R Hq. pose proof (rep_NoDup _ _ _ _ _ R Hq) as Hd. rewrite cells_app in Hd.
  apply NoDup_app in Hd as (_ & Ds & [Dn _]%NoDup_cons). rewrite cells_app.
  assert (a ∉ cells_of q1) by (intros H; apply (Ds _ H); by left). split_and!; [done|set_solver|].
  apply (own_not_foreign _ _ _ _ _ _ R Hq). rewrite cells_app. set_solver.
Qed.

Lemma unregister_rep s m Q p f q1 a b t q2 :
  fx_rep s m Q -> m !! p = Some f -> Q !! p = Some (q1 ++ (a, b, t) :: q2) ->
  exists s', on_list f (LinkedListUnregister asleep_size a) s = Ok (true, s') /\
    fx_rep s' m (<[p := q1 ++ q2]> Q) /\ tasks s' = tasks s /\ sleepers s' !! a = sleepers s !! a.
Proof.
  intros R Hm Hq. destruct (cell_once _ _ _ _ _ _ _ _ _ R Hq) as (Ha1 & Ha & _).
  assert (Hop : forall c, ll_list (mkLs c (sleepers s)) asleep_size (row f <$> q1 ++ (a, b, t) :: q2) -> exists st,
     LinkedListUnregister asleep_size a (mkLs c (sleepers s)) = Ok (true, st) /\
     ll_list st asleep_size (row f <$> q1 ++ q2) /\ forall x, x ∉ cells_of q1 -> cells st !! x = sleepers s !! x).
  { intros c L. rewrite fmap_app in L. destruct (unregister_member _ _ _ _ _ _ L) as (st & E & L' & Fr).
    exists st. rewrite fmap_app. split_and!; [done..|]. intros x Hx. apply Fr. by rewrite row_cells. }
  destruct (rep_on_list s m Q p f _ (q1 ++ q2) (LinkedListUnregister asleep_size a) true R Hm Hq)
    as (c & st & E & Hc & E' & R').
  - intros c _ L. destruct (Hop c L) as (st & E & L' & Fr). exists st. split_and!; [done..|].
    intros x Hx. apply Fr. intros Hx1. eapply (own_not_foreign _ _ _ _ _ x R Hq); [|done]. rewrite cells_app. set_solver.
  - intros x Hx. apply (own_not_foreign _ _ _ _ _ x R Hq). rewrite cells_app in Hx |- *. set_solver.
  - intros x Hx. apply (fr_tasks _ _ _ R p _ x Hq). set_solver.
  - eexists. split; [exact E|]. split_and!; [done..|]. cbn.
    destruct (fr_queue _ _ _ R _ _ _ Hm Hq) as (_ & c' & Hc' & L). rewrite Hc in Hc'. injection Hc' as <-.
    destruct (Hop c L) as (st' & E2 & _ & Fr). rewrite E' in E2. injection E2 as <-. by apply Fr.
Qed.

Lemma link_rep s m Q p f q a b t :
  fx_rep s m Q -> m !! p = Some f -> Q !! p = Some q ->
  (forall p q, Q !! p = Some q -> a ∉ cells_of q) -> a <> 0 -> t <> 0 -> is_Some (tasks s !! t) ->
  sleepers s !! a = Some (mkCell 0 (rest_of f b t)) ->
  exists s', (let! x := on_futexes (deref f) in let! fuel := gets sleepers_fuel in
      on_list f (link_last fuel (firstObject (firstAsleep x)) a)) s = Ok (tt, s') /\
    fx_rep s' m (<[p := q ++ [(a, b, t)]]> Q) /\ tasks s' = tasks s.
Proof.
  intros R Hm Hq Hn Ha Ht Hl Hc. destruct (fr_queue _ _ _ R _ _ _ Hm Hq) as (Hf & c & Hfc & L).
  erewrite bind_ok by (by apply on_futexes_deref). erewrite bind_ok by done. cbn [firstAsleep].
  destruct (rep_on_list s m Q p f q (q ++ [(a, b, t)])
    (link_last (sleepers_fuel s) (firstObject c) a) tt R Hm Hq) as (c' & st & E & _ & _ & R').
  - intros c' Hc' L'. rewrite Hfc in Hc'. injection Hc' as <-.
    destruct (link_last_appends _ _ _ a (rest_of f b t) (sleepers_fuel s) L) as (st & E & L2 & Fr); [|done| |done|].
    + exact (chain_fuel _ _ _ L).
    + rewrite row_cells. by apply (Hn p).
    + exists st. rewrite fmap_app. split_and!; [done..|]. intros x Hx. apply Fr. rewrite row_cells. intros Hx'.
      by apply (own_not_foreign _ _ _ _ _ x R Hq).
  - intros x Hx. rewrite cells_app in Hx. apply elem_of_app in Hx as [Hx|Hx]; [by apply (own_not_foreign _ _ _ _ _ x R Hq)|].
    cbn in Hx. apply list_elem_of_singleton in Hx as ->. intros (p' & q' & _ & Hq' & Ha'). by apply (Hn p' q').
  - intros x [Hx|Hx%list_elem_of_singleton]%elem_of_app; [by apply (fr_tasks _ _ _ R p q)|by subst x].
  - eexists. split; [exact E|done].
Qed.

Lemma move_one_ok s m Q p f q1 a b t q2 p2 f2 q3 :
  fx_rep s m Q -> m !! p = Some f -> m !! p2 = Some f2 -> p <> p2 ->
  Q !! p = Some (q1 ++ (a, b, t) :: q2) -> Q !! p2 = Some q3 ->
  exists s', move_one f f2 a s = Ok (tt, s') /\
    fx_rep s' m (<[p2 := q3 ++ [(a, b, t)]]> (<[p := q1 ++ q2]> Q)) /\ tasks s' = tasks s.
Proof.
  intros R Hm Hm2 Hp Hq Hq2. destruct (rep_cell _ _ _ _ _ _ _ _ _ _ R Hm Hq) as [Ha Hc].
  destruct (cell_once _ _ _ _ _ _ _ _ _ R Hq) as (_ & Hn & Hfo).
  destruct (fr_tasks _ _ _ R p _ (a, b, t) Hq) as [Ht Hl]; [set_solver|]. cbn in Ht, Hl.
  destruct (unregister_rep _ _ _ _ _ _ _ _ _ _ R Hm Hq) as (s1 & E1 & R1 & T1 & C1).
  assert (Hloose : forall p' q', (<[p := q1 ++ q2]> Q) !! p' = Some q' -> a ∉ cells_of q').
  { intros p' q' [[<- <-]|[Hne Hq']]%lookup_insert_Some; [done|]. intros Ha'. apply Hfo. by exists p', q'. }
  set (s2 := set_sleepers (<[a := mkCell 0 (rest_of f2 b t)]> (sleepers s1)) s1).
  assert (R2 : fx_rep s2 m (<[p := q1 ++ q2]> Q)) by (by apply rep_loose).
  destruct (link_rep s2 m _ p2 f2 q3 a b t R2 Hm2) as (s3 & E3 & R3 & T3); [by rewrite lookup_insert_ne|done..| | |].
  - unfold s2. cbn. by rewrite T1.
  - apply lookup_insert_eq.
  - exists s3. split_and!; [|done|by rewrite T3].
    unfold move_one. mrw E1. erewrite bind_ok by done.
    erewrite bind_ok by (apply on_sleepers_update; [done|by rewrite C1]).
    erewrite bind_ok by (apply on_sleepers_update; [done|apply lookup_insert_eq]).
    match goal with |- _ ?st = _ => replace st with s2 end; [exact E3|].
    unfold s2, set_sleepers. cbn. by rewrite insert_insert_eq.
Qed.

Lemma requeue_loop_ok q2 : forall s m Q p f q1 p2 f2 q3 value limit aw mv fuel,
  fx_rep s m Q -> m !! p = Some f -> m !! p2 = Some f2 -> p <> p2 ->
  Q !! p = Some (q1 ++ q2) -> Q !! p2 = Some q3 ->
  0 <= aw -> 0 <= mv -> aw + mv + zlen q2 < 2 ^ 31 -> (length q2 < fuel)%nat ->
  exists s', requeue_loop fuel f f2 (first_cell q2) value limit aw mv s =
      Ok ((aw + zlen (woken (value - aw) q2), mv + zlen (moved (value - aw) (limit - mv) q2)), s') /\
    fx_rep s' m (<[p2 := q3 ++ moved (value - aw) (limit - mv) q2]>
      (<[p := q1 ++ requeue (value - aw) (limit - mv) q2]> Q)) /\
    tasks s' = wake_tasks (woken (value - aw) q2) (tasks s).
Proof.
  induction q2 as [|[[a b] t] q2 IH]; intros s m Q p f q1 p2 f2 q3 value limit aw mv fuel R Hm Hm2 Hp Hq Hq3 H0 H1 Hb Hf;
    (destruct fuel as [|fuel]; [cbn in Hf; lia|]); cbn [first_cell fst requeue_loop].
  - exists s. unfold woken, moved, waiting. cbn. rewrite drop_nil, !take_nil. cbn.
    rewrite !Z.add_0_r, wake_tasks_nil, (insert_id Q), app_nil_r, insert_id by done. done.
  - rewrite zlen_cons in Hb. cbn [length] in Hf. pose proof (zlen_nonneg q2).
    destruct (rep_cell _ _ _ _ _ _ _ _ _ _ R Hm Hq) as [Ha Hc].
    rewrite (proj2 (Z.eqb_neq a 0)) by done. erewrite bind_ok by (by apply on_sleepers_deref).
    assert (awoken (mkCell (first_cell q2) (rest_of f b t)) = b) as -> by (by destruct b).
    rewrite !u32_small by lia. cbn [requeue ll_next].
    replace (0 <? value - aw) with (aw <? value) by (apply eq_true_iff_eq; lia).
    replace (0 <? limit - mv) with (mv <? limit) by (apply eq_true_iff_eq; lia).
    destruct (negb b && (aw <? value)) eqn:Eb; [|destruct (negb b && (mv <? limit)) eqn:El].
    + apply andb_prop in Eb as [Eb Ev]. destruct b; [done|].
      destruct (wake_one_ok _ _ _ _ _ _ _ _ _ _ R Hm Hq) as (s1 & E1 & R1 & T1 & _). mrw E1.
      destruct (rep_cell _ _ _ p f q1 a true t q2 R1 Hm) as [_ Hc1]; [apply lookup_insert_eq|].
      erewrite bind_ok by (by apply on_sleepers_deref). cbn [ll_next]. rewrite s32_small by lia.
      destruct (IH s1 m _ p f (q1 ++ [(a, true, t)]) p2 f2 q3 value limit (aw + 1) mv fuel R1 Hm Hm2 Hp)
        as (s' & E & R' & T'); [by rewrite lookup_insert_eq, <- app_assoc|by rewrite lookup_insert_ne|lia..|].
      exists s'. rewrite woken_cons, moved_wake by lia. replace (value - (aw + 1)) with (value - aw - 1) in * by lia.
      rewrite E, zlen_cons. split_and!; [do 3 f_equal; lia| |].
      * by rewrite insert_insert_eq, <- app_assoc in R'.
      * by rewrite T', T1, wake_tasks_app.
    + apply andb_prop in El as [Eb' El]. destruct b; [done|]. cbn in Eb.
      erewrite bind_ok by (by apply on_sleepers_deref).
      destruct (move_one_ok _ _ _ _ _ _ _ _ _ _ _ _ _ R Hm Hm2 Hp Hq Hq3) as (s1 & E1 & R1 & T1). mrw E1.
      cbn [ll_next]. rewrite s32_small by lia.
      destruct (IH s1 m _ p f q1 p2 f2 (q3 ++ [(a, false, t)]) value limit aw (mv + 1) fuel R1 Hm Hm2 Hp)
        as (s' & E & R' & T'); [by rewrite lookup_insert_ne, lookup_insert_eq by done|apply lookup_insert_eq|lia..|].
      exists s'. rewrite woken_skip by (right; lia). rewrite moved_cons by lia.
      replace (limit - (mv + 1)) with (limit - mv - 1) in * by lia.
      rewrite E, zlen_cons. split_and!; [do 3 f_equal; lia| |by rewrite T', T1].
      rewrite (insert_insert_ne _ p p2) in R' by done. rewrite !insert_insert_eq, <- app_assoc in R'.
      done.
    + destruct (IH s m Q p f (q1 ++ [(a, b, t)]) p2 f2 q3 value limit aw mv fuel R Hm Hm2 Hp) as (s' & E & R' & T');
        [by rewrite <- app_assoc|done|lia..|].
      exists s'. rewrite woken_skip by (destruct b; [by left|right; cbn in Eb; lia]).
      rewrite moved_skip by (destruct b; [by left|right; cbn in Eb, El; lia]).
      split_and!; [done| |done]. by rewrite <- app_assoc in R'.
Qed.
End queues.
