(* ===== verification/FutexTheorems.v ===== *)
(** * Theorems about futexes

    Waking and requeueing through the system call, sleeping and coming back, the
    simulation of runs of several tasks by an abstract machine of queues, and
    boundary cases. *)

From stdpp Require Import relations.
From S2P Require Import Prelude Bytes Heap FileTypes Spinlock LinkedList AvlTree Avl KeyMap Futex FutexQueues.

Section theorems.
Context {N : Type} `{!KeyMap N} `{!Allocator LLcell} `{!Allocator Futex}.
Abbreviation F := (fx N).
Implicit Types (s : F) (m : gmap Z Z) (Q : gmap Z (list sleeper)).

Lemma zlen_waiting q : zlen (waiting q) <= zlen q.
Proof. apply Nat2Z.inj_le, length_filter. Qed.

Lemma zlen_woken n q : 0 <= zlen (woken n q) <= zlen q.
Proof.
  split; [apply zlen_nonneg|]. pose proof (zlen_waiting q). unfold woken, zlen in *.
  rewrite length_fmap, length_take. lia.
Qed.

Lemma zlen_woken_moved n k q : zlen (woken n q) + zlen (moved n k q) <= zlen q.
Proof.
  unfold woken, moved, zlen. rewrite length_fmap, !length_take, length_drop.
  pose proof (zlen_waiting q). unfold zlen in *. lia.
Qed.

Lemma queue_first s f q : queue s f q ->
  exists c, futexes s !! f = Some (mkFutex false c) /\ firstObject c = first_cell q /\
    (length q < sleepers_fuel s)%nat.
Proof.
  intros (_ & c & Hc & L). exists c. split_and!; [done| |].
  - eapply chain_first. apply L.
  - pose proof (chain_fuel _ _ _ L) as Hf. by rewrite length_fmap in Hf.
Qed.

Lemma futex_wake_ok s m Q p value :
  fx_rep s m Q -> zlen (queue_of Q p) < 2 ^ 31 ->
  exists s' m', futex_wake p value s = Ok (zlen (woken value (queue_of Q p)), s') /\
    fx_rep s' m' (<[p := wake value (queue_of Q p)]> Q) /\
    tasks s' = wake_tasks (woken value (queue_of Q p)) (tasks s).
Proof.
  intros R Hb. destruct (futexFind_ok s m Q p R) as (f & s1 & m1 & E1 & R1 & Hm & _ & _ & T1).
  assert (Hq : (<[p := queue_of Q p]> Q) !! p = Some ([] ++ queue_of Q p)) by apply lookup_insert_eq.
  pose proof (fr_queue _ _ _ R1 _ _ _ Hm Hq) as Hqu. destruct (queue_first _ _ _ Hqu) as (c & Hc & Hfc & Hfu).
  destruct (wake_loop_ok (queue_of Q p) s1 m1 _ p f [] value 0 (sleepers_fuel s1) R1 Hm Hq) as (s2 & E2 & R2 & T2);
    [lia..|done|]. rewrite Z.sub_0_r in *. rewrite insert_insert_eq in R2. cbn [app] in R2.
  destruct (queue_locks s2 f (wake value (queue_of Q p))) as [_ Lr].
  { apply (fr_queue _ _ _ R2 p f); [done|apply lookup_insert_eq]. }
  exists s2, m1. split_and!; [|done|by rewrite T2, T1].
  unfold futex_wake. mrw E1. destruct Hqu as [Hf0 _]. erewrite bind_ok by (by apply on_futexes_deref).
  erewrite bind_ok by done. cbn [firstAsleep]. rewrite Hfc. mrw E2. by mrw Lr.
Qed.

Lemma futex_requeue_ok s m Q p p2 value limit :
  fx_rep s m Q -> p <> p2 -> zlen (queue_of Q p) < 2 ^ 31 ->
  exists s' m', futex_requeue p p2 value limit s =
      Ok (zlen (woken value (queue_of Q p)) + zlen (moved value limit (queue_of Q p)), s') /\
    fx_rep s' m' (<[p2 := queue_of Q p2 ++ moved value limit (queue_of Q p)]>
      (<[p := requeue value limit (queue_of Q p)]> Q)) /\
    tasks s' = wake_tasks (woken value (queue_of Q p)) (tasks s).
Proof.
  intros R Hp Hb. destruct (futexFind_ok s m Q p R) as (f & s1 & m1 & E1 & R1 & Hm1 & _ & _ & T1).
  destruct (futexFind_ok s1 m1 _ p2 R1) as (f2 & s2 & m2 & E2 & R2 & Hm2 & Hsub & _ & T2).
  set (Q2 := <[p2 := _]> _) in R2.
  assert (Hm : m2 !! p = Some f) by (by eapply lookup_weaken).
  assert (Hq2 : Q2 !! p2 = Some (queue_of Q p2)).
  { unfold Q2, queue_of. rewrite lookup_insert_eq. by rewrite lookup_insert_ne. }
  assert (Hq : Q2 !! p = Some ([] ++ queue_of Q p)).
  { unfold Q2. rewrite lookup_insert_ne by done. apply lookup_insert_eq. }
  pose proof (fr_queue _ _ _ R2 _ _ _ Hm Hq) as Hqu. destruct (queue_first _ _ _ Hqu) as (c & Hc & Hfc & Hfu).
  destruct (requeue_loop_ok (queue_of Q p) s2 m2 Q2 p f [] p2 f2 (queue_of Q p2) value limit 0 0 (sleepers_fuel s2)
    R2 Hm Hm2 Hp Hq Hq2) as (s3 & E3 & R3 & T3); [lia..|done|].
  rewrite !Z.sub_0_r, !Z.add_0_l in *. cbn [app] in R3.
  destruct (queue_locks s3 f (requeue value limit (queue_of Q p))) as [_ Lr].
  { apply (fr_queue _ _ _ R3 p f); [done|]. rewrite lookup_insert_ne by done. apply lookup_insert_eq. }
  destruct (queue_locks s3 f2 (queue_of Q p2 ++ moved value limit (queue_of Q p))) as [_ Lr2].
  { apply (fr_queue _ _ _ R3 p2 f2); [done|apply lookup_insert_eq]. }
  exists s3, m2. split_and!.
  - unfold futex_requeue. mrw E1. mrw E2. destruct Hqu as [Hf0 _]. erewrite bind_ok by (by apply on_futexes_deref).
    erewrite bind_ok by done. cbn [firstAsleep]. rewrite Hfc, (proj2 (Z.eqb_neq f f2)).
    2:{ intros <-. apply Hp. by apply (fr_inj _ _ _ R2 p p2 f). }
    mrw E3. mrw Lr2. mrw Lr. unfold ret. do 2 f_equal. pose proof (zlen_woken_moved value limit (queue_of Q p)).
    pose proof (zlen_woken value (queue_of Q p)). pose proof (zlen_nonneg (moved value limit (queue_of Q p))).
    apply s32_small. lia.
  - unfold Q2 in R3. rewrite (insert_insert_ne _ p p2) in R3 by done. by rewrite !insert_insert_eq in R3.
  - by rewrite T3, T2, T1.
Qed.

(** An operation with or without the private flag. *)
Definition is_op (o op : Z) : Prop := op = o \/ op = o + FUTEX_PRIVATE_FLAG.

Lemma is_op_bits o op :
  is_op o op -> o ∈ [FUTEX_WAIT; FUTEX_WAKE; FUTEX_REQUEUE] ->
  (Z.land op FUTEX_CLOCK_REALTIME =? 0) = true /\ Z.land op (Z.lnot FUTEX_PRIVATE_FLAG) = o.
Proof. intros [-> | ->] Ho; repeat (apply elem_of_cons in Ho as [->|Ho]; [done|]); by apply elem_of_nil in Ho. Qed.

(** C26: [FUTEX_WAKE].  It returns the number of sleepers it woke: the first
    [value] of those on the word's queue that nobody has woken before, or all of
    them when there are fewer.  Exactly their tasks become ready, the queue keeps
    its sleepers and their order, and every other queue stays as it was. *)
Theorem futex_wake_fifo e s m Q task addr op value utime addr2 :
  fx_rep s m Q -> is_op FUTEX_WAKE op -> misaligned addr = false -> futex_key e addr <> 0 ->
  zlen (queue_of Q (futex_key e addr)) < 2 ^ 31 ->
  let q := queue_of Q (futex_key e addr) in
  let w := snd <$> take (Z.to_nat value) (waiting q) in
  exists s' m' q', futexSyscall e task addr op value utime addr2 s = Ok (Returns (zlen w), s') /\
    fx_rep s' m' (<[futex_key e addr := q']> Q) /\ who <$> q' = who <$> q /\
    waiting q' = drop (Z.to_nat value) (waiting q) /\ tasks s' = wake_tasks w (tasks s).
Proof.
  intros R Hop Ha Hk Hb q w. destruct (futex_wake_ok s m Q (futex_key e addr) value R Hb) as (s' & m' & E & R' & T').
  fold q in E, R', T', Hb. exists s', m', (wake value q). split_and!; [|done|apply wake_who| |done].
  - destruct (is_op_bits _ _ Hop) as [B1 B2]; [set_solver|]. unfold futexSyscall. rewrite B1, B2, Ha.
    cbn [negb orb Z.eqb Pos.eqb FUTEX_WAKE FUTEX_WAIT FUTEX_REQUEUE]. rewrite (proj2 (Z.eqb_neq _ 0)) by done.
    erewrite bind_ok by done. mrw E. unfold ret. rewrite u64_small; [done|].
    pose proof (zlen_woken value q). lia.
  - unfold wake. rewrite requeue_waiting. done.
Qed.

(** [FUTEX_REQUEUE] between two words.  Of the sleepers nobody has woken
    before, the first [value] are woken and the next [limit] move, in their
    order, behind the sleepers of the second word, whose futex they now belong
    to; the rest stay in order.  The result is the number of both, and only the
    woken tasks become ready. *)
Theorem futex_requeue_moves e s m Q task addr op value utime addr2 :
  fx_rep s m Q -> is_op FUTEX_REQUEUE op ->
  misaligned addr = false -> misaligned addr2 = false ->
  futex_key e addr <> 0 -> futex_key e addr2 <> 0 -> futex_key e addr <> futex_key e addr2 ->
  zlen (queue_of Q (futex_key e addr)) < 2 ^ 31 ->
  let q := queue_of Q (futex_key e addr) in
  let w := snd <$> take (Z.to_nat value) (waiting q) in
  let v := take (Z.to_nat (u32 utime)) (drop (Z.to_nat value) (waiting q)) in
  exists s' m' q', futexSyscall e task addr op value utime addr2 s = Ok (Returns (zlen w + zlen v), s') /\
    fx_rep s' m' (<[futex_key e addr2 := queue_of Q (futex_key e addr2) ++ v]>
      (<[futex_key e addr := q']> Q)) /\
    who <$> q' = filter (fun x => x.1 ∉ cells_of v) (who <$> q) /\
    waiting q' = drop (Z.to_nat (u32 utime)) (drop (Z.to_nat value) (waiting q)) /\
    tasks s' = wake_tasks w (tasks s).
Proof.
  intros R Hop Ha Ha2 Hk Hk2 Hne Hb q w v.
  destruct (futex_requeue_ok s m Q _ _ value (u32 utime) R Hne Hb) as (s' & m' & E & R' & T').
  fold q in E, R', T', Hb. exists s', m', (requeue value (u32 utime) q). split_and!; [|done| | |done].
  - destruct (is_op_bits _ _ Hop) as [B1 B2]; [set_solver|]. unfold futexSyscall. rewrite B1, B2, Ha, Ha2.
    cbn [negb orb Z.eqb Pos.eqb FUTEX_WAKE FUTEX_WAIT FUTEX_REQUEUE]. rewrite !(proj2 (Z.eqb_neq _ 0)) by done.
    do 2 erewrite bind_ok by done. mrw E. unfold ret. rewrite u64_small; [done|].
    pose proof (zlen_woken_moved value (u32 utime) q). pose proof (zlen_woken value q).
    pose proof (zlen_nonneg (moved value (u32 utime) q)). lia.
  - apply requeue_who. unfold q, queue_of. destruct (Q !! futex_key e addr) as [q0|] eqn:Eq; [exact (rep_NoDup _ _ _ _ _ R Eq)|apply NoDup_nil_2].
  - apply requeue_waiting.
Qed.

(** ** Going to sleep and coming back *)

(** What [FUTEX_WAIT] leaves in the task. *)
Definition put_to_sleep (e : futex_env) (utime f : Z) (x : ftask) : ftask :=
  mkFt TASK_STATE_FUTEX
    (if utime =? 0 then forcefulWakeupTimeUnsafe x else wakeup_time (timerTicks e) (default (0, 0) (user_time e))) f.

Lemma fresh_in_no_queue s m Q a :
  fx_rep s m Q -> sleepers s !! a = None -> forall p q, Q !! p = Some q -> a ∉ cells_of q.
Proof.
  intros R Hf p q Hq Ha. destruct (proj2 (fr_dom _ _ _ R p)) as [g Hg]; [eauto|].
  destruct (fr_queue _ _ _ R _ _ _ Hg Hq) as (_ & c & _ & _ & _ & Hch). rewrite <- (row_cells g) in Ha.
  destruct (chain_cell _ _ _ _ _ Hch Ha) as [[? ?] _]. cbn in *. congruence.
Qed.

(** The task's part of going to sleep. *)
Lemma sleep_steps {A} e s task utime f x (a : A) :
  task <> 0 -> tasks s !! task = Some x -> spinlockQueueEntry x = 0 -> (utime = 0 \/ is_Some (user_time e)) ->
  (task_spinlock_exit task f ;;;
   (if utime =? 0 then ret tt
    else
      let! time := from_option_fault (user_time e) in
      on_tasks (update task (fun t => mkFt (t_state t) (wakeup_time (timerTicks e) time) (spinlockQueueEntry t)))) ;;;
   on_tasks (update task (fun t => mkFt TASK_STATE_FUTEX (forcefulWakeupTimeUnsafe t) (spinlockQueueEntry t))) ;;;
   ret a) s = Ok (a, set_tasks (<[task := put_to_sleep e utime f x]> (tasks s)) s).
Proof.
  intros Ht Hx Hx0 Htime. unfold task_spinlock_exit. rewrite bind_assoc.
  erewrite bind_ok by (by apply on_tasks_deref). rewrite bind_assoc, Hx0. erewrite bind_ok by done.
  erewrite bind_ok by (by apply on_tasks_update). unfold put_to_sleep. destruct (utime =? 0) eqn:Eu.
  - erewrite bind_ok by done. erewrite bind_ok by (apply on_tasks_update; [done|apply lookup_insert_eq]).
    unfold ret, set_tasks. cbn. by rewrite insert_insert_eq.
  - destruct Htime as [->|[tm Htm]]; [done|]. rewrite bind_assoc, Htm. erewrite bind_ok by done.
    erewrite bind_ok by (apply on_tasks_update; [done|apply lookup_insert_eq]).
    erewrite bind_ok by (apply on_tasks_update; [done|apply lookup_insert_eq]).
    unfold ret, set_tasks. cbn. by rewrite !insert_insert_eq.
Qed.

(** The queue with one more sleeper, whose cell and task are set. *)
Lemma join_rep s m Q p f q a task c st n ts :
  fx_rep s m Q -> m !! p = Some f -> Q !! p = Some q ->
  sleepers s !! a = None -> task <> 0 -> is_Some (ts !! task) ->
  (forall t, is_Some (tasks s !! t) -> is_Some (ts !! t)) ->
  ll_list st asleep_size ((row f <$> q) ++ [(a, c)]) -> cells st !! a = Some (mkCell n c) ->
  (forall b, b ∉ a :: (row f <$> q).*1 -> cells st !! b = sleepers s !! b) ->
  fx_rep (mkFx (tree s) (firstFutex s) (LOCK_AVL_FUTEX s) (<[f := mkFutex false (ll st)]> (futexes s))
    (<[a := mkCell n (rest_of f false task)]> (cells st)) ts) m (<[p := q ++ [(a, false, task)]]> Q).
Proof.
  intros R Hm Hq Hfresh Ht Htask Hlive L Hn Fr. pose proof (fresh_in_no_queue _ _ _ a R Hfresh) as Hnew.
  eapply (rep_update s _ m Q p f q _ R Hm Hq); try done.
  - apply R.
  - intros g Hg. cbn. by apply lookup_insert_ne.
  - intros b Hb. cbn. assert (b ∉ cells_of q) by (intros H; by apply (own_not_foreign _ _ _ _ _ b R Hq)).
    assert (b <> a) by (intros ->; destruct Hb as (p' & q' & _ & Hq' & Ha'); by apply (Hnew p' q')).
    rewrite lookup_insert_ne by done. apply Fr. rewrite row_cells. set_solver.
  - intros b Hb. rewrite cells_app in Hb. apply elem_of_app in Hb as [Hb|Hb%list_elem_of_singleton].
    + by apply (own_not_foreign _ _ _ _ _ b R Hq).
    + subst b. intros (p' & q' & _ & Hq' & Ha'). by apply (Hnew p' q').
  - destruct (fr_queue _ _ _ R _ _ _ Hm Hq) as [Hf _]. split; [done|]. exists (ll st).
    split; [apply lookup_insert_eq|]. rewrite fmap_app. by apply (ll_set_rest _ _ _ _ _ _ _ _ L).
  - intros y [Hy|Hy%list_elem_of_singleton]%elem_of_app; [|by subst y].
    destruct (fr_tasks _ _ _ R p q y Hq Hy). split; [done|by apply Hlive].
Qed.

Lemma futex_enqueue_ok e s m Q task p utime x :
  fx_rep s m Q -> task <> 0 -> tasks s !! task = Some x -> spinlockQueueEntry x = 0 ->
  (utime = 0 \/ is_Some (user_time e)) ->
  exists a s' m' f, futex_enqueue e task p utime s = Ok (a, s') /\
    fx_rep s' m' (<[p := queue_of Q p ++ [(a, false, task)]]> Q) /\
    (forall p' q, Q !! p' = Some q -> a ∉ cells_of q) /\ f <> 0 /\
    tasks s' = <[task := put_to_sleep e utime f x]> (tasks s).
Proof.
  intros R Ht Hx Hx0 Htime. destruct (futexFind_ok s m Q p R) as (f & s1 & m1 & E1 & R1 & Hm & _ & S1 & T1).
  assert (Hq : (<[p := queue_of Q p]> Q) !! p = Some (queue_of Q p)) by apply lookup_insert_eq.
  destruct (fr_queue _ _ _ R1 _ _ _ Hm Hq) as (Hf & c & Hc & L).
  destruct (ll_allocate_appends _ _ _ L) as (a & st & Ea & Hfresh & L2 & Fr). cbn [cells] in Hfresh.
  assert (a <> 0 /\ exists n, cells st !! a = Some (mkCell n (replicate 24 0))) as [Ha0 [n Hn]].
  { destruct L2 as (_ & _ & Hch). apply chain_app in Hch as (y & _ & -> & Ha & n & Hn & _). eauto. }
  exists a. do 3 eexists. split; [|split; [|split; [|split; [exact Hf|]]]].
  - unfold futex_enqueue. mrw E1. erewrite bind_ok by (by eapply on_list_ok).
    erewrite bind_ok by (by apply on_sleepers_update).
    erewrite bind_ok by (apply on_sleepers_update; [done|apply lookup_insert_eq]).
    apply sleep_steps with (x := x); [done|cbn; by rewrite T1|done|done].
  - rewrite <- (insert_insert_eq Q p (queue_of Q p ++ [(a, false, task)]) (queue_of Q p)).
    unfold set_tasks, set_sleepers, set_futexes. cbn. rewrite insert_insert_eq.
    eapply (join_rep s1 m1 _ p f _ a task _ st n); [done..| | |exact L2|exact Hn|exact Fr].
    + rewrite lookup_insert_eq. eauto.
    + intros t Hl. destruct (decide (t = task)) as [->|?]; [rewrite lookup_insert_eq|rewrite lookup_insert_ne by done]; eauto.
  - apply (fresh_in_no_queue s m Q a R). by rewrite <- S1.
  - cbn. by rewrite T1.
Qed.

Lemma futex_resume_ok s m Q p q1 a (b : bool) t q2 x (pending : bool) :
  fx_rep s m Q -> Q !! p = Some (q1 ++ (a, b, t) :: q2) ->
  tasks s !! t = Some x -> forcefulWakeupTimeUnsafe x = 0 ->
  exists s', futex_resume t a pending s =
      Ok (if b then 0 else if pending then ERR EINTR else ERR ETIMEDOUT, s') /\
    fx_rep s' m (<[p := q1 ++ q2]> Q) /\ tasks s' = tasks s.
Proof.
  intros R Hq Hx Hx0. destruct (proj2 (fr_dom _ _ _ R p)) as [f Hm]; [eauto|].
  destruct (rep_cell _ _ _ _ _ _ _ _ _ _ R Hm Hq) as [Ha Hc].
  destruct (fr_tasks _ _ _ R p _ (a, b, t) Hq) as [Ht _]; [set_solver|]. cbn in Ht.
  destruct (queue_locks _ _ _ (fr_queue _ _ _ R _ _ _ Hm Hq)) as [La _].
  destruct (rep_on_list s m Q p f _ (q1 ++ q2) (LinkedListRemove asleep_size a) true R Hm Hq)
    as (c & st & E & Hcc & E' & R').
  - intros c _ L. rewrite fmap_app in L. destruct (remove_member _ _ _ _ _ _ L) as (st & E & L' & Fr).
    exists st. rewrite fmap_app. split_and!; [done..|]. intros y Hy. apply Fr. rewrite row_cells.
    assert (y ∉ cells_of (q1 ++ (a, b, t) :: q2)) as Hny by (intros H; by apply (own_not_foreign _ _ _ _ _ y R Hq)).
    rewrite cells_app in Hny. cbn in Hny |- *. set_solver.
  - intros y Hy. apply (own_not_foreign _ _ _ _ _ y R Hq). rewrite cells_app in Hy |- *. set_solver.
  - intros y Hy. apply (fr_tasks _ _ _ R p _ y Hq). set_solver.
  - eexists. split; [|split; [exact R'|done]]. unfold futex_resume.
    erewrite bind_ok by (by apply on_tasks_deref). rewrite Hx0. erewrite bind_ok by done.
    erewrite bind_ok by (by apply on_sleepers_deref). change (above _) with f. mrw La.
    erewrite bind_ok by (by apply on_sleepers_deref). mrw E. erewrite bind_ok by done.
    destruct (queue_locks _ f (q1 ++ q2) (fr_queue _ _ _ R' p f _ Hm (lookup_insert_eq _ _ _))) as [_ Lr]. mrw Lr.
    by destruct b.
Qed.

(** ** Tasks sharing the futexes *)

Inductive fop :=
| Fwait (e : futex_env) (task p utime : Z)
| Fwake (p value : Z)
| Frequeue (p p2 value limit : Z)
| Fresume (task a : Z) (pending : bool).

Definition exec (o : fop) : M F Z :=
  match o with
  | Fwait e task p utime => futex_enqueue e task p utime
  | Fwake p value => futex_wake p value
  | Frequeue p p2 value limit => futex_requeue p p2 value limit
  | Fresume task a pending => futex_resume task a pending
  end.

(** The abstract machine: queues and tasks. *)
Definition astate : Type := gmap Z (list sleeper) * gmap Z ftask.

Inductive astep : astate -> fop -> Z -> astate -> Prop :=
| a_wait e task p utime Q ts x a f :
    ts !! task = Some x -> spinlockQueueEntry x = 0 -> f <> 0 ->
    (forall p' q, Q !! p' = Some q -> a ∉ cells_of q) ->
    astep (Q, ts) (Fwait e task p utime) a
      (<[p := queue_of Q p ++ [(a, false, task)]]> Q, <[task := put_to_sleep e utime f x]> ts)
| a_wake p value Q ts :
    astep (Q, ts) (Fwake p value) (zlen (woken value (queue_of Q p)))
      (<[p := wake value (queue_of Q p)]> Q, wake_tasks (woken value (queue_of Q p)) ts)
| a_requeue p p2 value limit Q ts :
    let q := queue_of Q p in
    astep (Q, ts) (Frequeue p p2 value limit) (zlen (woken value q) + zlen (moved value limit q))
      (<[p2 := queue_of Q p2 ++ moved value limit q]> (<[p := requeue value limit q]> Q), wake_tasks (woken value q) ts)
| a_resume task a pending p q1 (b : bool) q2 x Q ts :
    Q !! p = Some (q1 ++ (a, b, task) :: q2) -> ts !! task = Some x -> forcefulWakeupTimeUnsafe x = 0 ->
    astep (Q, ts) (Fresume task a pending) (if b then 0 else if pending then ERR EINTR else ERR ETIMEDOUT)
      (<[p := q1 ++ q2]> Q, ts).

(** Who makes the calls: live tasks, a sleeper comes back for its own cell, the
    two words of a requeue differ, and queues are shorter than an [int] counts. *)
Definition called (o : fop) (A : astate) : Prop :=
  match o with
  | Fwait e task p utime => task <> 0 /\ is_Some (A.2 !! task) /\ (utime = 0 \/ is_Some (user_time e))
  | Fwake p value => zlen (queue_of A.1 p) < 2 ^ 31
  | Frequeue p p2 value limit => p <> p2 /\ zlen (queue_of A.1 p) < 2 ^ 31
  | Fresume task a pending => exists p q1 b q2, A.1 !! p = Some (q1 ++ (a, b, task) :: q2)
  end.

(** The two assertions of [FUTEX_WAIT]: the task has slept before, or comes back
    with its timer still set. *)
Definition trips (o : fop) (ts : gmap Z ftask) : Prop :=
  match o with
  | Fwait e task p utime => exists x, ts !! task = Some x /\ spinlockQueueEntry x <> 0
  | Fresume task a pending => exists x, ts !! task = Some x /\ forcefulWakeupTimeUnsafe x <> 0
  | _ => False
  end.

Lemma enqueue_halts e s m Q task p utime x :
  fx_rep s m Q -> task <> 0 -> tasks s !! task = Some x -> spinlockQueueEntry x <> 0 ->
  futex_enqueue e task p utime s = Halted.
Proof.
  intros R Ht Hx Hx0. destruct (futexFind_ok s m Q p R) as (f & s1 & m1 & E1 & R1 & Hm & _ & S1 & T1).
  assert (Hq : (<[p := queue_of Q p]> Q) !! p = Some (queue_of Q p)) by apply lookup_insert_eq.
  destruct (fr_queue _ _ _ R1 _ _ _ Hm Hq) as (Hf & c & Hc & L).
  destruct (ll_allocate_appends _ _ _ L) as (a & st & Ea & Hfresh & L2 & Fr).
  assert (a <> 0 /\ exists n, cells st !! a = Some (mkCell n (replicate 24 0))) as [Ha0 [n Hn]].
  { destruct L2 as (_ & _ & Hch). apply chain_app in Hch as (y & _ & -> & Ha & n & Hn & _). eauto. }
  unfold futex_enqueue. mrw E1. erewrite bind_ok by (by eapply on_list_ok).
  erewrite bind_ok by (by apply on_sleepers_update).
  erewrite bind_ok by (apply on_sleepers_update; [done|apply lookup_insert_eq]).
  unfold task_spinlock_exit. rewrite bind_assoc.
  erewrite bind_ok by (apply on_tasks_deref; [done|cbn; by rewrite T1]).
  by rewrite (proj2 (Z.eqb_neq _ 0)) by done.
Qed.

(** C25: The futexes refine an abstract machine of queues.  Called as the
    kernel calls it, each operation either returns, takes the state to one that
    stands for the queues and tasks after a step of the abstract machine, with
    the same result, or stops at one of the two assertions of [FUTEX_WAIT]; none
    faults or hangs. *)
Theorem futex_simulates s m Q o :
  fx_rep s m Q -> called o (Q, tasks s) ->
  (trips o (tasks s) /\ exec o s = Halted) \/
  (~ trips o (tasks s) /\ exists r s' m' Q', exec o s = Ok (r, s') /\ fx_rep s' m' Q' /\
     astep (Q, tasks s) o r (Q', tasks s')).
Proof.
  intros R Hc. destruct o as [e task p utime|p value|p p2 value limit|task a pending]; cbn [called trips exec fst snd] in *.
  - destruct Hc as (Ht & [x Hx] & Htime). destruct (decide (spinlockQueueEntry x = 0)) as [H0|H0].
    + right. split; [intros (y & Hy & Hy0); congruence|].
      destruct (futex_enqueue_ok e s m Q task p utime x R Ht Hx H0 Htime) as (a & s' & m' & f & E & R' & Hn & Hf & T).
      exists a, s', m'. eexists. split_and!; [exact E|exact R'|]. rewrite T. by apply a_wait.
    + left. split; [by exists x|]. by apply (enqueue_halts e s m Q task p utime x).
  - right. split; [tauto|]. destruct (futex_wake_ok s m Q p value R Hc) as (s' & m' & E & R' & T).
    do 4 eexists. split_and!; [exact E|exact R'|]. rewrite T. apply a_wake.
  - right. split; [tauto|]. destruct Hc as [Hp Hb].
    destruct (futex_requeue_ok s m Q p p2 value limit R Hp Hb) as (s' & m' & E & R' & T).
    do 4 eexists. split_and!; [exact E|exact R'|]. rewrite T. apply a_requeue.
  - destruct Hc as (p & q1 & b & q2 & Hq).
    destruct (fr_tasks _ _ _ R p _ (a, b, task) Hq) as [Ht [x Hx]]; [set_solver|]. cbn in Ht, Hx.
    destruct (decide (forcefulWakeupTimeUnsafe x = 0)) as [H0|H0].
    + right. split; [intros (y & Hy & Hy0); congruence|].
      destruct (futex_resume_ok s m Q p q1 a b task q2 x pending R Hq Hx H0) as (s' & E & R' & T).
      do 4 eexists. split_and!; [exact E|exact R'|]. rewrite T. by eapply a_resume.
    + left. split; [by exists x|]. unfold futex_resume. erewrite bind_ok by (by apply on_tasks_deref).
      by rewrite (proj2 (Z.eqb_neq _ 0)) by done.
Qed.

(** Nothing ever resets [spinlockQueueEntry]. *)
Lemma entry_kept A o r A' t x :
  astep A o r A' -> A.2 !! t = Some x -> spinlockQueueEntry x <> 0 ->
  exists y, A'.2 !! t = Some y /\ spinlockQueueEntry y <> 0.
Proof.
  destruct 1 as [e task p utime Q ts y a f Hy Hy0 Hf Hn|p value Q ts|p p2 value limit Q ts q|task a pending p q1 b q2 y Q ts Hq Hy Hy0];
    cbn; intros Hx Hx0.
  - destruct (decide (t = task)) as [->|Hne]; [congruence|]. rewrite lookup_insert_ne by done. eauto.
  - rewrite wake_tasks_lookup, Hx. cbn. eexists. split; [done|]. by case_decide.
  - rewrite wake_tasks_lookup, Hx. cbn. eexists. split; [done|]. by case_decide.
  - eauto.
Qed.

(** A run of calls and the abstract states along it. *)
Inductive runs : F -> astate -> F -> astate -> Prop :=
| runs_refl s A : runs s A s A
| runs_step s A o r s1 A1 s2 A2 :
    exec o s = Ok (r, s1) -> astep A o r A1 -> (exists m, fx_rep s1 m A1.1) -> A1.2 = tasks s1 ->
    runs s1 A1 s2 A2 -> runs s A s2 A2.

(** A task can sleep on a futex once in its life: whatever happens after its
    first [FUTEX_WAIT], the next one stops the machine. *)
Theorem futex_second_wait_halts s m Q e task p utime x s1 A1 e2 p2 utime2 :
  fx_rep s m Q -> task <> 0 -> tasks s !! task = Some x -> spinlockQueueEntry x = 0 ->
  (utime = 0 \/ is_Some (user_time e)) ->
  exists a s0, futex_enqueue e task p utime s = Ok (a, s0) /\
    (runs s0 (<[p := queue_of Q p ++ [(a, false, task)]]> Q, tasks s0) s1 A1 ->
     futex_enqueue e2 task p2 utime2 s1 = Halted).
Proof.
  intros R Ht Hx Hx0 Htime.
  destruct (futex_enqueue_ok e s m Q task p utime x R Ht Hx Hx0 Htime) as (a & s0 & m0 & f & E & R0 & _ & Hf & T).
  exists a, s0. split; [exact E|]. intros Hruns.
  assert (H0 : exists y, tasks s0 !! task = Some y /\ spinlockQueueEntry y <> 0).
  { rewrite T, lookup_insert_eq. by eexists. }
  assert (Hrep : exists m, fx_rep s0 m (<[p := queue_of Q p ++ [(a, false, task)]]> Q)) by eauto.
  remember (_, tasks s0) as A0 eqn:EA in Hruns.
  assert (H1 : A0.2 = tasks s0 /\ exists m, fx_rep s0 m A0.1) by (subst A0; cbn; eauto).
  clear EA Hrep R0 T E. induction Hruns as [s2 A|s2 A o r s3 A3 s4 A4 Ee St Hr Ht3 _ IH].
  - destruct H1 as [_ [m2 R2]], H0 as (y & Hy & Hy0). by apply (enqueue_halts e2 s2 m2 A.1 task p2 utime2 y).
  - apply IH; [|split; done]. destruct H0 as (y & Hy & Hy0). destruct H1 as [H1 _]. rewrite <- H1 in Hy.
    destruct (entry_kept _ _ _ _ _ _ St Hy Hy0) as (z & Hz & Hz0). exists z. by rewrite <- Ht3.
Qed.
End theorems.

(** ** A sample: three tasks, two of them asleep on one word *)

Definition ready_task : ftask := mkFt TASK_STATE_READY 0 0.
Definition fx0 : fx (gmap Z AVLheader) :=
  mkFx ∅ 0 false ∅ ∅ (<[100 := ready_task]> (<[200 := ready_task]> (<[300 := ready_task]> ∅))).
Definition env0 : futex_env := mkEnv (Some 7) None 4096 50.

Lemma fx0_rep : fx_rep fx0 ∅ ∅.
Proof.
  split; try done.
  - apply avl_empty.
  - intros p. by rewrite !lookup_empty.
Qed.

Definition after {A} (o : outcome (A * fx (gmap Z AVLheader))) : fx (gmap Z AVLheader) :=
  match o with Ok (_, s) => s | _ => fx0 end.
Definition fx1 : fx (gmap Z AVLheader) := Eval vm_compute in after (futex_enqueue env0 100 4096 0 fx0).
Definition fx2 : fx (gmap Z AVLheader) := Eval vm_compute in after (futex_enqueue env0 200 4096 0 fx1).

Lemma fx2_rep : exists m, fx_rep fx2 m (<[4096 := [(1, false, 100); (2, false, 200)]]> ∅).
Proof.
  destruct (futex_enqueue_ok env0 fx0 ∅ ∅ 100 4096 0 ready_task fx0_rep) as (a & s1 & m1 & f & E1 & R1 & _);
    [lia|reflexivity..|by left|].
  assert (E1' : futex_enqueue env0 100 4096 0 fx0 = Ok (1, fx1)) by (vm_compute; reflexivity).
  rewrite E1' in E1. injection E1 as <- <-.
  destruct (futex_enqueue_ok env0 fx1 m1 _ 200 4096 0 ready_task R1) as (a & s2 & m2 & f2 & E2 & R2 & _);
    [lia|reflexivity..|by left|].
  assert (E2' : futex_enqueue env0 200 4096 0 fx1 = Ok (2, fx2)) by (vm_compute; reflexivity).
  rewrite E2' in E2. injection E2 as <- <-. exists m2. by rewrite insert_insert_eq in R2.
Qed.

Lemma futex_wake_fifo_witness :
  exists s' m' q', futexSyscall env0 300 8192 FUTEX_WAKE 1 0 0 fx2 = Ok (Returns 1, s') /\
    fx_rep s' m' (<[4096 := q']> (<[4096 := [(1, false, 100); (2, false, 200)]]> ∅)) /\
    who <$> q' = [(1, 100); (2, 200)] /\ waiting q' = [(2, false, 200)] /\
    tasks s' = wake_tasks [100] (tasks fx2).
Proof.
  destruct fx2_rep as [m R].
  apply (futex_wake_fifo env0 fx2 m _ 300 8192 FUTEX_WAKE 1 0 0 R); [by left|done|vm_compute; discriminate|vm_compute; reflexivity].
Defined.

Lemma futex_requeue_moves_witness :
  exists s' m' q', futexSyscall env0 300 8192 FUTEX_REQUEUE 1 5 16384 fx2 = Ok (Returns 2, s') /\
    fx_rep s' m' (<[12288 := [(2, false, 200)]]> (<[4096 := q']> (<[4096 := [(1, false, 100); (2, false, 200)]]> ∅))) /\
    who <$> q' = [(1, 100)] /\ waiting q' = [] /\ tasks s' = wake_tasks [100] (tasks fx2).
Proof.
  destruct fx2_rep as [m R].
  apply (futex_requeue_moves env0 fx2 m _ 300 8192 FUTEX_REQUEUE 1 5 16384 R);
    [by left|done|done|vm_compute; discriminate|vm_compute; discriminate|vm_compute; discriminate|vm_compute; reflexivity].
Defined.

Lemma futex_simulates_witness :
  (trips (Fwake 4096 1) (tasks fx2) /\ exec (Fwake 4096 1) fx2 = Halted) \/
  (~ trips (Fwake 4096 1) (tasks fx2) /\ exists r s' m' Q', exec (Fwake 4096 1) fx2 = Ok (r, s') /\ fx_rep s' m' Q' /\
     astep (<[4096 := [(1, false, 100); (2, false, 200)]]> ∅, tasks fx2) (Fwake 4096 1) r (Q', tasks s')).
Proof. destruct fx2_rep as [m R]. apply (futex_simulates fx2 m _ (Fwake 4096 1) R). vm_compute. reflexivity. Defined.

(** ** Boundary cases *)

(** Moving a queue onto itself counts each sleeper as often as it comes round:
    two sleepers and a limit of five give the result five. *)
Theorem requeue_onto_itself :
  exists s', futexSyscall env0 300 8192 FUTEX_REQUEUE 0 5 8192 fx2 = Ok (Returns 5, s').
Proof. eexists. vm_compute. reflexivity. Qed.

(** The errors found before any state changes. *)
Theorem futex_early_returns {N : Type} `{!KeyMap N} `{!Allocator LLcell} `{!Allocator Futex}
    e (s : fx N) task addr op o value utime addr2 :
  is_op o op -> o ∈ [FUTEX_WAIT; FUTEX_WAKE; FUTEX_REQUEUE] ->
  (misaligned addr = true ->
     futexSyscall e task addr op value utime addr2 s = Ok (Returns (ERR EINVAL), s)) /\
  (misaligned addr = false -> futex_key e addr <> 0 -> o = FUTEX_REQUEUE -> misaligned addr2 = true ->
     futexSyscall e task addr op value utime addr2 s = Ok (Returns (ERR EINVAL), s)) /\
  (forall w, misaligned addr = false -> futex_key e addr <> 0 -> o = FUTEX_WAIT -> user_word e = Some w -> w <> value ->
     futexSyscall e task addr op value utime addr2 s = Ok (Returns (ERR EAGAIN), s)).
Proof.
  intros Hop Ho. destruct (is_op_bits _ _ Hop Ho) as [B1 B2]. unfold futexSyscall. rewrite B1, B2.
  assert (negb ((o =? FUTEX_WAIT) || (o =? FUTEX_WAKE) || (o =? FUTEX_REQUEUE)) = false) as ->.
  { repeat (apply elem_of_cons in Ho as [->|Ho]; [done|]). by apply elem_of_nil in Ho. }
  cbn [negb]. split_and!.
  - by intros ->.
  - intros -> Hk -> ->. rewrite (proj2 (Z.eqb_neq _ 0)) by done. by erewrite bind_ok by done.
  - intros w -> Hk -> Hw Hne. rewrite (proj2 (Z.eqb_neq _ 0)) by done. erewrite bind_ok by done.
    cbn [Z.eqb FUTEX_WAIT]. rewrite Hw. cbn [from_option_fault]. erewrite bind_ok by done.
    by rewrite (proj2 (Z.eqb_neq _ _)) by done.
Qed.
