(* ===== verification/Task.v ===== *)
(** * Processes ([multitasking/task.cpp], [syscalls/linux/syscalls_proc.c])

    The list of tasks, the structures tasks share and count, creation, fork,
    termination with the report to the parent, and wait4.  Calls into the page
    tables, the descriptor tables and the futexes are the operations of the class
    [TaskServices].  wait4 is cut where the task hands over control.  A
    terminated child's record keeps its fields whole at the offset of their first
    byte. *)

From S2P Require Import Prelude Bytes Heap FileTypes Spinlock LinkedList Syscalls.

Definition KERNEL_TASK_ID : Z := 0.
Definition TASK_STATE_DEAD : Z := 0.
Definition TASK_STATE_READY : Z := 1.
Definition TASK_STATE_CREATED : Z := 4.
Definition TASK_STATE_WAITING_CHILD : Z := 5.
Definition TASK_STATE_WAITING_CHILD_SPECIFIC : Z := 6.
Definition TASK_STATE_WAITING_VFORK : Z := 7.

Definition GDT_KERNEL_CODE : Z := 40.
Definition GDT_KERNEL_DATA : Z := 48.
Definition GDT_USER_CODE : Z := 80.
Definition GDT_USER_DATA : Z := 72.
Definition DPL_USER : Z := 3.
Definition USER_HEAP_START : Z := 0x600000000000.
Definition USER_MMAP_START : Z := 0x700000000000.
Definition USER_STACK_BOTTOM : Z := 0x800000000000.

Definition CLONE_VM : Z := 0x100.
Definition CLONE_FS : Z := 0x200.
Definition CLONE_FILES : Z := 0x400.
Definition CLONE_SIGHAND : Z := 0x800.
Definition CLONE_VFORK : Z := 0x4000.
Definition CLONE_THREAD : Z := 0x10000.
Definition CLONE_SYSVSEM : Z := 0x40000.
Definition CLONE_SETTLS : Z := 0x80000.
Definition CLONE_PARENT_SETTID : Z := 0x100000.
Definition CLONE_CHILD_CLEARTID : Z := 0x200000.
Definition CLONE_DETACHED : Z := 0x400000.
Definition WNOHANG : Z := 1.
Definition ECHILD : Z := 10.

Definition flag (flags bit : Z) : bool := negb (Z.land flags bit =? 0).

(** ** State *)

Inductive reg :=
| R_ds | R_r15 | R_r14 | R_r13 | R_r12 | R_r11 | R_r10 | R_r9 | R_r8 | R_rbp | R_rdi | R_rsi
| R_rdx | R_rcx | R_rbx | R_rax | R_interrupt | R_error | R_rip | R_cs | R_rflags
| R_usermode_rsp | R_usermode_ss.

(** What a task needs to run; the terminal's structure is a list of bytes. *)
Record TaskContext := mkCtx {
  c_registers : reg -> Z;
  whileTssRsp : Z;
  whileSyscallRsp : Z;
  fsbase : Z;
  gsbase : Z;
  term : list Z;
  tmpRecV : Z;
  fpuenv : list Z;
  mxcsr : Z;
  cmdline : list Z;
  execname : option (list Z);
}.

Record TaskIds := mkIds {
  t_id : Z;
  pgid : Z;
  tgid : Z;
  sid : Z;
  ctrlPty : Z;
  t_kernel : bool;
}.

(** Pointers to the shared structures. *)
Record TaskInfos := mkInfos {
  infoFs : Z;
  infoPd : Z;
  infoFiles : Z;
  infoSignals : Z;
}.

(** The children that have ended and nobody has waited for. *)
Record TaskKids := mkKids {
  LOCK_CHILD_TERM : bool;
  dsChildTerminated : LLcontrol;
  childrenTerminatedAmnt : Z;
}.

Record Task := mkTask {
  ids : TaskIds;
  t_state : Z;
  waitingForPid : Z;
  sigPending : Z;
  sigBlock : Z;
  infos : TaskInfos;
  noInformParent : bool;
  kids : TaskKids;
  tidptr : Z;
  extras : Z;
  parent : Z;
  t_next : Z;
  context : TaskContext;
}.

Definition set_ids (i : TaskIds) (x : Task) : Task :=
  mkTask i (t_state x) (waitingForPid x) (sigPending x) (sigBlock x) (infos x) (noInformParent x) (kids x) (tidptr x) (extras x) (parent x) (t_next x) (context x).
Definition set_state (v : Z) (x : Task) : Task :=
  mkTask (ids x) v (waitingForPid x) (sigPending x) (sigBlock x) (infos x) (noInformParent x) (kids x) (tidptr x) (extras x) (parent x) (t_next x) (context x).
Definition set_waiting (v : Z) (x : Task) : Task :=
  mkTask (ids x) (t_state x) v (sigPending x) (sigBlock x) (infos x) (noInformParent x) (kids x) (tidptr x) (extras x) (parent x) (t_next x) (context x).
Definition set_pending (v : Z) (x : Task) : Task :=
  mkTask (ids x) (t_state x) (waitingForPid x) v (sigBlock x) (infos x) (noInformParent x) (kids x) (tidptr x) (extras x) (parent x) (t_next x) (context x).
Definition set_block (v : Z) (x : Task) : Task :=
  mkTask (ids x) (t_state x) (waitingForPid x) (sigPending x) v (infos x) (noInformParent x) (kids x) (tidptr x) (extras x) (parent x) (t_next x) (context x).
Definition set_infos (i : TaskInfos) (x : Task) : Task :=
  mkTask (ids x) (t_state x) (waitingForPid x) (sigPending x) (sigBlock x) i (noInformParent x) (kids x) (tidptr x) (extras x) (parent x) (t_next x) (context x).
Definition set_kids (k : TaskKids) (x : Task) : Task :=
  mkTask (ids x) (t_state x) (waitingForPid x) (sigPending x) (sigBlock x) (infos x) (noInformParent x) k (tidptr x) (extras x) (parent x) (t_next x) (context x).
Definition set_tidptr (v : Z) (x : Task) : Task :=
  mkTask (ids x) (t_state x) (waitingForPid x) (sigPending x) (sigBlock x) (infos x) (noInformParent x) (kids x) v (extras x) (parent x) (t_next x) (context x).
Definition set_extras (v : Z) (x : Task) : Task :=
  mkTask (ids x) (t_state x) (waitingForPid x) (sigPending x) (sigBlock x) (infos x) (noInformParent x) (kids x) (tidptr x) v (parent x) (t_next x) (context x).
Definition set_parent (v : Z) (x : Task) : Task :=
  mkTask (ids x) (t_state x) (waitingForPid x) (sigPending x) (sigBlock x) (infos x) (noInformParent x) (kids x) (tidptr x) (extras x) v (t_next x) (context x).
Definition set_t_next (v : Z) (x : Task) : Task :=
  mkTask (ids x) (t_state x) (waitingForPid x) (sigPending x) (sigBlock x) (infos x) (noInformParent x) (kids x) (tidptr x) (extras x) (parent x) v (context x).
Definition set_context (c : TaskContext) (x : Task) : Task :=
  mkTask (ids x) (t_state x) (waitingForPid x) (sigPending x) (sigBlock x) (infos x) (noInformParent x) (kids x) (tidptr x) (extras x) (parent x) (t_next x) c.

(** [memset(target, 0, sizeof(Task))] *)
Definition zero_context : TaskContext := mkCtx (fun _ => 0) 0 0 0 0 [] 0 (replicate 512 0) 0 [] None.
Definition zero_task : Task :=
  mkTask (mkIds 0 0 0 0 0 false) TASK_STATE_DEAD 0 0 0 (mkInfos 0 0 0 0) false
    (mkKids false (mkLL 0 0 0 0) 0) 0 0 0 0 zero_context.

(** The shared structures, each with the number of its users. *)
Record TaskInfoFs := mkFs { LOCK_FS : bool; fs_users : Z; cwd : list Z; umask : Z }.
Record TaskInfoPagedir := mkPd {
  LOCK_PD : bool; pd_users : Z; heap_start : Z; heap_end : Z; mmap_start : Z; mmap_end : Z; pagedir : Z;
}.
(** The table itself belongs to the descriptor layer. *)
Record TaskInfoFiles := mkFiles { WLOCK_FILES : Z; files_users : Z; rlimitFdsSoft : Z; rlimitFdsHard : Z }.
Record TaskInfoSignal := mkSig { LOCK_SIGNAL : bool; sig_users : Z; itimerReal : Z * Z; signals : list Z }.

Record tsys (W : Type) := mkTs {
  tasks : gmap Z Task;
  firstTask : Z;
  currentTask : Z;
  dummyTask : Z;
  reaperTask : Z;
  LOCK_REAPER : bool;
  TASK_LL_MODIFY : Z;
  taskIdCurr : Z;
  killed : gmap Z LLcell;
  info_fs : gmap Z TaskInfoFs;
  info_pd : gmap Z TaskInfoPagedir;
  info_files : gmap Z TaskInfoFiles;
  info_signals : gmap Z TaskInfoSignal;
  t_world : W;
}.
Arguments mkTs {W}.
Arguments tasks {W}.
Arguments firstTask {W}.
Arguments currentTask {W}.
Arguments dummyTask {W}.
Arguments reaperTask {W}.
Arguments LOCK_REAPER {W}.
Arguments TASK_LL_MODIFY {W}.
Arguments taskIdCurr {W}.
Arguments killed {W}.
Arguments info_fs {W}.
Arguments info_pd {W}.
Arguments info_files {W}.
Arguments info_signals {W}.
Arguments t_world {W}.

(** What tasks ask of other components; a call that does not return is outside
    the runs considered. The two that end the sleep of other tasks also give the
    tasks they make ready, in order: those asleep on the futex of a thread
    identifier, and those polling a file that is closed. *)
Class TaskServices (W : Type) := {
  svc_new_pagedir : W -> Z * W;                 (* page_directory_allocate *)
  svc_free_pagedir : Z -> W -> W;               (* page_directory_free *)
  svc_duplicate_user : Z -> Z -> W -> W;        (* page_directory_user_duplicate *)
  svc_kernel_stack : W -> Z * W;                (* virtual_allocate, cleared: its upper end *)
  svc_copy_files : Z -> Z -> bool -> W -> W;    (* the descriptors, with task_files_copy_inorder *)
  svc_close_files : Z -> Z -> W -> list Z * W;  (* fsUserClose of every descriptor of the table *)
  svc_wake_tid : Z -> W -> list Z * W;          (* *tidptr = 0 and FUTEX_WAKE *)
}.

Section operations.
Context {W : Type} `{!TaskServices W} `{!Allocator Task} `{!Allocator LLcell}.
Context `{!Allocator TaskInfoFs} `{!Allocator TaskInfoPagedir} `{!Allocator TaskInfoFiles} `{!Allocator TaskInfoSignal}.
Abbreviation T := (tsys W).
Implicit Types s : T.

Definition with_tasks (h : gmap Z Task) s : T :=
  mkTs h (firstTask s) (currentTask s) (dummyTask s) (reaperTask s) (LOCK_REAPER s) (TASK_LL_MODIFY s) (taskIdCurr s) (killed s) (info_fs s) (info_pd s) (info_files s) (info_signals s) (t_world s).
Definition with_reaper (p : Z) s : T :=
  mkTs (tasks s) (firstTask s) (currentTask s) (dummyTask s) p (LOCK_REAPER s) (TASK_LL_MODIFY s) (taskIdCurr s) (killed s) (info_fs s) (info_pd s) (info_files s) (info_signals s) (t_world s).
Definition with_reaper_lock (b : bool) s : T :=
  mkTs (tasks s) (firstTask s) (currentTask s) (dummyTask s) (reaperTask s) b (TASK_LL_MODIFY s) (taskIdCurr s) (killed s) (info_fs s) (info_pd s) (info_files s) (info_signals s) (t_world s).
Definition with_ll_lock (c : Z) s : T :=
  mkTs (tasks s) (firstTask s) (currentTask s) (dummyTask s) (reaperTask s) (LOCK_REAPER s) c (taskIdCurr s) (killed s) (info_fs s) (info_pd s) (info_files s) (info_signals s) (t_world s).
Definition with_id_curr (v : Z) s : T :=
  mkTs (tasks s) (firstTask s) (currentTask s) (dummyTask s) (reaperTask s) (LOCK_REAPER s) (TASK_LL_MODIFY s) v (killed s) (info_fs s) (info_pd s) (info_files s) (info_signals s) (t_world s).
Definition with_killed (h : gmap Z LLcell) s : T :=
  mkTs (tasks s) (firstTask s) (currentTask s) (dummyTask s) (reaperTask s) (LOCK_REAPER s) (TASK_LL_MODIFY s) (taskIdCurr s) h (info_fs s) (info_pd s) (info_files s) (info_signals s) (t_world s).
Definition with_fs (h : gmap Z TaskInfoFs) s : T :=
  mkTs (tasks s) (firstTask s) (currentTask s) (dummyTask s) (reaperTask s) (LOCK_REAPER s) (TASK_LL_MODIFY s) (taskIdCurr s) (killed s) h (info_pd s) (info_files s) (info_signals s) (t_world s).
Definition with_pd (h : gmap Z TaskInfoPagedir) s : T :=
  mkTs (tasks s) (firstTask s) (currentTask s) (dummyTask s) (reaperTask s) (LOCK_REAPER s) (TASK_LL_MODIFY s) (taskIdCurr s) (killed s) (info_fs s) h (info_files s) (info_signals s) (t_world s).
Definition with_files (h : gmap Z TaskInfoFiles) s : T :=
  mkTs (tasks s) (firstTask s) (currentTask s) (dummyTask s) (reaperTask s) (LOCK_REAPER s) (TASK_LL_MODIFY s) (taskIdCurr s) (killed s) (info_fs s) (info_pd s) h (info_signals s) (t_world s).
Definition with_signals (h : gmap Z TaskInfoSignal) s : T :=
  mkTs (tasks s) (firstTask s) (currentTask s) (dummyTask s) (reaperTask s) (LOCK_REAPER s) (TASK_LL_MODIFY s) (taskIdCurr s) (killed s) (info_fs s) (info_pd s) (info_files s) h (t_world s).
Definition with_world (w : W) s : T :=
  mkTs (tasks s) (firstTask s) (currentTask s) (dummyTask s) (reaperTask s) (LOCK_REAPER s) (TASK_LL_MODIFY s) (taskIdCurr s) (killed s) (info_fs s) (info_pd s) (info_files s) (info_signals s) w.

(** A computation on one part of the state. *)
Definition part {P A} (get_part : T -> P) (back : P -> T -> T) (m : M P A) : M T A := fun s =>
  match m (get_part s) with
  | Ok (a, p) => Ok (a, back p s)
  | Halted => Halted
  | Fault => Fault
  | Hang => Hang
  end.
Definition on_tasks {A} (m : M (gmap Z Task) A) : M T A := part tasks with_tasks m.
Definition on_killed {A} (m : M (gmap Z LLcell) A) : M T A := part killed with_killed m.
Definition on_fs {A} (m : M (gmap Z TaskInfoFs) A) : M T A := part info_fs with_fs m.
Definition on_pd {A} (m : M (gmap Z TaskInfoPagedir) A) : M T A := part info_pd with_pd m.
Definition on_files {A} (m : M (gmap Z TaskInfoFiles) A) : M T A := part info_files with_files m.
Definition on_signals {A} (m : M (gmap Z TaskInfoSignal) A) : M T A := part info_signals with_signals m.
Definition service (f : W -> W) : M T unit := modify (fun s => with_world (f (t_world s)) s).
Definition service_value (f : W -> Z * W) : M T Z := fun s =>
  let '(v, w) := f (t_world s) in Ok (v, with_world w s).

Definition task_at (t : Z) : M T Task := on_tasks (deref t).
Definition set_task (t : Z) (f : Task -> Task) : M T unit := on_tasks (update t f).

(** A service that makes tasks ready. *)
Definition service_wakes (f : W -> list Z * W) : M T unit := fun s =>
  let '(us, w) := f (t_world s) in
  mfor us (fun u => set_task u (set_state TASK_STATE_READY)) (with_world w s).

Definition lift_outcome {A} (o : outcome A) : M T A :=
  match o with Ok a => ret a | Halted => halt | Fault => fault | Hang => hang end.
Definition ll_modify (op : Z -> outcome Z) : M T unit :=
  let! c := gets TASK_LL_MODIFY in
  let! c := lift_outcome (op c) in modify (with_ll_lock c).

(** ** The list of tasks *)

Definition task_fuel s : nat := S (size (tasks s)).

(** The last task. *)
Fixpoint last_task (fuel : nat) (browse : Z) : M T Z :=
  match fuel with
  | O => hang
  | S fuel =>
      if browse =? 0 then ret 0
      else
        let! x := task_at browse in
        if t_next x =? 0 then ret browse else last_task fuel (t_next x)
  end.

Definition task_list_allocate : M T Z :=
  ll_modify spinlock_cnt_write_acquire ;;;
  let! target := on_tasks (allocate zero_task) in
  let! fuel := gets task_fuel in
  let! first := gets firstTask in
  let! browse := last_task fuel first in
  kassert (negb (browse =? 0)) ;;;
  set_task browse (set_t_next target) ;;;
  ll_modify spinlock_cnt_write_release ;;;
  ret target.

(** The task before [target]. *)
Fixpoint task_before (fuel : nat) (prev target : Z) : M T Z :=
  match fuel with
  | O => hang
  | S fuel =>
      if prev =? 0 then ret 0
      else
        let! x := task_at prev in
        if t_next x =? target then ret prev else task_before fuel (t_next x) target
  end.

Definition task_list_destroy (target : Z) : M T unit :=
  ll_modify spinlock_cnt_write_acquire ;;;
  let! fuel := gets task_fuel in
  let! first := gets firstTask in
  let! prev := task_before fuel first target in
  kassert (negb (prev =? 0)) ;;;
  let! x := task_at target in
  set_task prev (set_t_next (t_next x)) ;;;
  ll_modify spinlock_cnt_write_release ;;;
  on_tasks (dispose target).

(** [browse->id == id]: the argument is 32 bits wide. *)
Fixpoint task_search (fuel : nat) (browse id : Z) : M T Z :=
  match fuel with
  | O => hang
  | S fuel =>
      if browse =? 0 then ret 0
      else
        let! x := task_at browse in
        if t_id (ids x) =? id then ret browse else task_search fuel (t_next x) id
  end.

Definition task_get (id : Z) : M T Z :=
  ll_modify spinlock_cnt_read_acquire ;;;
  let! fuel := gets task_fuel in
  let! first := gets firstTask in
  let! browse := task_search fuel first (u32 id) in
  ll_modify spinlock_cnt_read_release ;;;
  ret browse.

Definition task_generate_id : M T Z :=
  let! v := gets taskIdCurr in
  modify (with_id_curr (u64 (v + 1))) ;;;
  ret v.

(** ** Shared structures *)

Definition S_IWGRP : Z := 16.
Definition S_IWOTH : Z := 2.

Definition taskInfoFsAllocate : M T Z := on_fs (allocate (mkFs false 1 [47] (Z.lor S_IWGRP S_IWOTH))).
Definition taskInfoPdAllocate (new_dir : bool) : M T Z :=
  let! target := on_pd (allocate (mkPd false 1 0 0 0 0 0)) in
  (if new_dir then
     let! dir := service_value svc_new_pagedir in
     on_pd (update target (fun p => mkPd (LOCK_PD p) (pd_users p) 0 0 0 0 dir))
   else ret tt) ;;;
  on_pd (update target (fun p =>
    mkPd (LOCK_PD p) (pd_users p) USER_HEAP_START USER_HEAP_START USER_MMAP_START USER_MMAP_START (pagedir p))) ;;;
  ret target.
Definition taskInfoFilesAllocate : M T Z := on_files (allocate (mkFiles 0 1 1024 1024)).
Definition taskInfoSignalAllocate : M T Z := on_signals (allocate (mkSig false 1 (0, 0) (replicate 65 SIG_DFL))).

(** The three plain locks: acquiring waits for the word to be clear. *)
Definition fs_lock (op : bool -> outcome bool) (p : Z) : M T unit :=
  let! x := on_fs (deref p) in
  let! b := lift_outcome (op (LOCK_FS x)) in
  on_fs (update p (fun x => mkFs b (fs_users x) (cwd x) (umask x))).
Definition pd_lock (op : bool -> outcome bool) (p : Z) : M T unit :=
  let! x := on_pd (deref p) in
  let! b := lift_outcome (op (LOCK_PD x)) in
  on_pd (update p (fun x => mkPd b (pd_users x) (heap_start x) (heap_end x) (mmap_start x) (mmap_end x) (pagedir x))).
Definition sig_lock (op : bool -> outcome bool) (p : Z) : M T unit :=
  let! x := on_signals (deref p) in
  let! b := lift_outcome (op (LOCK_SIGNAL x)) in
  on_signals (update p (fun x => mkSig b (sig_users x) (itimerReal x) (signals x))).
Definition files_lock (op : Z -> outcome Z) (p : Z) : M T unit :=
  let! x := on_files (deref p) in
  let! c := lift_outcome (op (WLOCK_FILES x)) in
  on_files (update p (fun x => mkFiles c (files_users x) (rlimitFdsSoft x) (rlimitFdsHard x))).

Definition fs_count (d p : Z) : M T unit :=
  on_fs (update p (fun x => mkFs (LOCK_FS x) (s32 (fs_users x + d)) (cwd x) (umask x))).
Definition pd_count (d p : Z) : M T unit :=
  on_pd (update p (fun x => mkPd (LOCK_PD x) (s32 (pd_users x + d)) (heap_start x) (heap_end x) (mmap_start x) (mmap_end x) (pagedir x))).
Definition sig_count (d p : Z) : M T unit :=
  on_signals (update p (fun x => mkSig (LOCK_SIGNAL x) (s32 (sig_users x + d)) (itimerReal x) (signals x))).
Definition files_count (d p : Z) : M T unit :=
  on_files (update p (fun x => mkFiles (WLOCK_FILES x) (s32 (files_users x + d)) (rlimitFdsSoft x) (rlimitFdsHard x))).

Definition taskInfoFsClone (old : Z) : M T Z :=
  let! new := taskInfoFsAllocate in
  fs_lock spinlock_acquire old ;;;
  let! o := on_fs (deref old) in
  on_fs (update new (fun x => mkFs (LOCK_FS x) (fs_users x) (cwd o) (umask o))) ;;;
  fs_lock spinlock_release old ;;;
  ret new.
Definition taskInfoPdClone (old : Z) : M T Z :=
  let! new := taskInfoPdAllocate true in
  pd_lock spinlock_acquire old ;;;
  let! o := on_pd (deref old) in
  let! n := on_pd (deref new) in
  service (svc_duplicate_user (pagedir o) (pagedir n)) ;;;
  on_pd (update new (fun x =>
    mkPd (LOCK_PD x) (pd_users x) (heap_start o) (heap_end o) (mmap_start o) (mmap_end o) (pagedir x))) ;;;
  pd_lock spinlock_release old ;;;
  ret new.
Definition taskInfoSignalClone (old : Z) : M T Z :=
  let! new := taskInfoSignalAllocate in
  sig_lock spinlock_acquire old ;;;
  let! o := on_signals (deref old) in
  on_signals (update new (fun x => mkSig (LOCK_SIGNAL x) (sig_users x) (itimerReal x) (signals o))) ;;;
  sig_lock spinlock_release old ;;;
  ret new.

Definition taskInfoFsDiscard (target : Z) : M T unit :=
  fs_lock spinlock_acquire target ;;;
  fs_count (-1) target ;;;
  let! x := on_fs (deref target) in
  if fs_users x =? 0 then on_fs (dispose target) else fs_lock spinlock_release target.
(** The structure itself is kept: the scheduler may still look at it. *)
Definition taskInfoPdDiscard (target : Z) : M T unit :=
  pd_lock spinlock_acquire target ;;;
  pd_count (-1) target ;;;
  let! x := on_pd (deref target) in
  if pd_users x =? 0 then service (svc_free_pagedir (pagedir x)) else pd_lock spinlock_release target.
Definition taskInfoFilesDiscard (target task : Z) : M T unit :=
  files_lock spinlock_cnt_write_acquire target ;;;
  files_count (-1) target ;;;
  let! x := on_files (deref target) in
  if files_users x =? 0 then
    files_lock spinlock_cnt_write_release target ;;;
    service_wakes (svc_close_files target task) ;;;
    on_files (dispose target)
  else files_lock spinlock_cnt_write_release target.
Definition taskInfoSignalDiscard (target : Z) : M T unit :=
  sig_lock spinlock_acquire target ;;;
  sig_count (-1) target ;;;
  let! x := on_signals (deref target) in
  if sig_users x =? 0 then on_signals (dispose target) else sig_lock spinlock_release target.

Definition task_files_copy (original target : Z) (respect_coe : bool) : M T unit :=
  files_lock spinlock_cnt_read_acquire original ;;;
  files_lock spinlock_cnt_write_acquire target ;;;
  let! o := on_files (deref original) in
  on_files (update target (fun x => mkFiles (WLOCK_FILES x) (files_users x) (rlimitFdsSoft o) (rlimitFdsHard o))) ;;;
  files_lock spinlock_cnt_write_release target ;;;
  service (svc_copy_files original target respect_coe) ;;;
  files_lock spinlock_cnt_read_release original.

(** ** Creation *)

(** The flag words, the line discipline and the control characters. *)
Definition task_attach_def_termios : list Z :=
  [Z.lor 0x2 (Z.lor 0x100 (Z.lor 0x10 (Z.lor 0x20 0x400))); 0x1; Z.lor 0x30 (Z.lor 0x80 0x800);
   Z.lor 0x8 (Z.lor 0x2 (Z.lor 0x8000 (Z.lor 0x1 0x200))); 0] ++
  [3; 28; 0; 21; 4; 0; 1; 0; 17; 19; 26; 0; 18; 15; 23; 22] ++ replicate 16 0.

Definition KilledInfo_size : Z := 24.
Definition killed_pid (c : LLcell) : Z := ll_rest c !!! 0%nat.
Definition killed_ret (c : LLcell) : Z := ll_rest c !!! 8%nat.
Definition set_killed (pid r : Z) (c : LLcell) : LLcell := mkCell (ll_next c) (<[8%nat := r]> (<[0%nat := pid]> (ll_rest c))).

(** An operation on the list of a task's ended children. *)
Definition on_kids {A} (t : Z) (m : M ll_state A) : M T A :=
  let! x := task_at t in
  fun s => match m (mkLs (dsChildTerminated (kids x)) (killed s)) with
  | Ok (a, l) => Ok (a, with_killed (cells l) (with_tasks
      (<[t := set_kids (mkKids (LOCK_CHILD_TERM (kids x)) (ll l) (childrenTerminatedAmnt (kids x))) x]> (tasks s)) s))
  | Halted => Halted
  | Fault => Fault
  | Hang => Hang
  end.

Definition task_create_finish (task : Z) : M T unit := set_task task (set_state TASK_STATE_READY).

Definition create_registers (rip : Z) (kernel : bool) (r : reg) : Z :=
  match r with
  | R_ds | R_usermode_ss => if kernel then GDT_KERNEL_DATA else Z.lor GDT_USER_DATA DPL_USER
  | R_cs => if kernel then GDT_KERNEL_CODE else Z.lor GDT_USER_CODE DPL_USER
  | R_usermode_rsp => USER_STACK_BOTTOM
  | R_rflags => 0x200
  | R_rip => rip
  | _ => 0
  end.

Definition task_create (id rip : Z) (kernel : bool) (dir : Z) : M T Z :=
  let! target := task_list_allocate in
  set_task target (set_ids (mkIds id 0 (s32 id) 1 (-1) kernel)) ;;;
  set_task target (set_state TASK_STATE_CREATED) ;;;
  let! pd := taskInfoPdAllocate false in
  on_pd (update pd (fun p =>
    mkPd (LOCK_PD p) (pd_users p) (heap_start p) (heap_end p) (mmap_start p) (mmap_end p) dir)) ;;;
  let! tss := service_value svc_kernel_stack in
  let! sysc := service_value svc_kernel_stack in
  let! fs := taskInfoFsAllocate in
  let! files := taskInfoFilesAllocate in
  let! sig := taskInfoSignalAllocate in
  set_task target (set_infos (mkInfos fs pd files sig)) ;;;
  on_kids target (LinkedListInit KilledInfo_size) ;;;
  set_task target (set_context (mkCtx (create_registers rip kernel) tss sysc 0 0 task_attach_def_termios 0
    ([0x7f; 0x03] ++ replicate 510 0) 0x1f80 [] None)) ;;;
  let! first := gets firstTask in
  set_task target (set_parent first) ;;;
  ret target.

(** ** Fork *)

Definition fork_registers (cpu : reg -> Z) (rsp : Z) (r : reg) : Z :=
  match r with
  | R_rax => 0
  | R_rip => cpu R_rcx
  | R_cs => Z.lor GDT_USER_CODE DPL_USER
  | R_ds | R_usermode_ss => Z.lor GDT_USER_DATA DPL_USER
  | R_rflags => cpu R_r11
  | R_usermode_rsp => rsp
  | _ => cpu r
  end.

(** Each shared structure is copied, or shared and counted. *)
Definition fork_pd (flags old : Z) : M T Z :=
  if negb (flag flags CLONE_VM) then taskInfoPdClone old
  else pd_lock spinlock_acquire old ;;; pd_count 1 old ;;; pd_lock spinlock_release old ;;; ret old.
Definition fork_fs (flags old : Z) : M T Z :=
  if negb (flag flags CLONE_FS) then taskInfoFsClone old
  else fs_lock spinlock_acquire old ;;; fs_count 1 old ;;; fs_lock spinlock_release old ;;; ret old.
Definition fork_files (flags old : Z) : M T Z :=
  if negb (flag flags CLONE_FILES) then
    let! new := taskInfoFilesAllocate in
    task_files_copy old new false ;;; ret new
  else
    files_lock spinlock_cnt_write_acquire old ;;; files_count 1 old ;;;
    files_lock spinlock_cnt_write_release old ;;; ret old.
Definition fork_signals (flags old : Z) : M T Z :=
  if negb (flag flags CLONE_SIGHAND) then taskInfoSignalClone old
  else sig_lock spinlock_acquire old ;;; sig_count 1 old ;;; sig_lock spinlock_release old ;;; ret old.

(** [fxsave] and [stmxcsr] into the running task. *)
Definition save_fpu (fpu : list Z) (csr : Z) (x : Task) : Task :=
  let k := context x in
  set_context (mkCtx (c_registers k) (whileTssRsp k) (whileSyscallRsp k) (fsbase k) (gsbase k) (term k) (tmpRecV k)
    fpu csr (cmdline k) (execname k)) x.

(** The assignments to the fields of the new task; [c] is the running task. *)
Definition fork_child (c : Task) (cur id : Z) (i : TaskInfos) (tss sysc : Z) (cpu : reg -> Z) (rsp flags : Z)
    (fpu : list Z) (csr : Z) (x : Task) : Task :=
  let o := ids c in
  let k := context c in
  set_extras (extras c) (set_parent cur (set_block (sigBlock c) (set_infos i
    (set_context (mkCtx (fork_registers cpu rsp) tss sysc (fsbase k) (gsbase k) (term k) (tmpRecV k) fpu csr
       (cmdline k) (execname k))
    (set_state TASK_STATE_CREATED
    (set_ids (mkIds id (pgid o) (if flag flags CLONE_THREAD then tgid o else s32 id) (sid o) (ctrlPty o) (t_kernel o)) x)))))).

(** [fpu] and [csr]: the processor's floating point state. *)
Definition task_fork (cpu : reg -> Z) (rsp clone_flags : Z) (spinup : bool) (fpu : list Z) (csr : Z) : M T Z :=
  let! target := task_list_allocate in
  let! cur := gets currentTask in
  let! c := task_at cur in
  let! pd := fork_pd clone_flags (infoPd (infos c)) in
  let! id := task_generate_id in
  let! tss := service_value svc_kernel_stack in
  let! sysc := service_value svc_kernel_stack in
  let! fs := fork_fs clone_flags (infoFs (infos c)) in
  let! files := fork_files clone_flags (infoFiles (infos c)) in
  let! sig := fork_signals clone_flags (infoSignals (infos c)) in
  set_task cur (save_fpu fpu csr) ;;;
  set_task target (fork_child c cur id (mkInfos fs pd files sig) tss sysc cpu rsp clone_flags fpu csr) ;;;
  on_kids target (LinkedListInit KilledInfo_size) ;;;
  (if spinup then task_create_finish target else ret tt) ;;;
  ret target.

Definition set_fsbase (v : Z) (x : Task) : Task :=
  let k := context x in
  set_context (mkCtx (c_registers k) (whileTssRsp k) (whileSyscallRsp k) v (gsbase k) (term k) (tmpRecV k)
    (fpuenv k) (mxcsr k) (cmdline k) (execname k)) x.

Definition syscallFork (cpu : reg -> Z) (rsp : Z) (fpu : list Z) (csr : Z) : M T Z :=
  let! t := task_fork cpu rsp 0 true fpu csr in
  let! x := task_at t in
  ret (t_id (ids x)).

Definition clone_supported : Z :=
  Z.lor CLONE_VFORK (Z.lor CLONE_VM (Z.lor CLONE_FILES (Z.lor CLONE_SYSVSEM (Z.lor CLONE_CHILD_CLEARTID
    (Z.lor CLONE_PARENT_SETTID (Z.lor CLONE_DETACHED (Z.lor CLONE_THREAD (Z.lor CLONE_SETTLS
      (Z.lor CLONE_FS (Z.lor CLONE_SIGHAND 17)))))))))).

(** The identifier, and whether the caller waits for the child as after
    [CLONE_VFORK]; the store to [parent_tid] is the caller's. *)
Definition syscallClone (flags newsp child_tid tls : Z) (cpu : reg -> Z) (rsp : Z) (fpu : list Z) (csr : Z)
    : M T (Z * bool) :=
  if flag flags (Z.lxor clone_supported (2 ^ 64 - 1)) then ret (ERR ENOSYS, false)
  else
    let flags := if flag flags CLONE_VFORK then Z.lor (Z.lor flags CLONE_VM) CLONE_FILES else flags in
    let! t := task_fork cpu (if newsp =? 0 then rsp else newsp) (s32 flags) false fpu csr in
    let! x := task_at t in
    let id := t_id (ids x) in
    (if flag flags CLONE_SETTLS then set_task t (set_fsbase tls) else ret tt) ;;;
    (if flag flags CLONE_CHILD_CLEARTID then set_task t (set_tidptr child_tid) else ret tt) ;;;
    task_create_finish t ;;;
    let! cur := gets currentTask in
    if flag flags CLONE_VFORK then
      set_task cur (set_state TASK_STATE_WAITING_VFORK) ;;; ret (id, true)
    else ret (id, false).

Definition syscallVfork (cpu : reg -> Z) (rsp : Z) (fpu : list Z) (csr : Z) : M T Z :=
  let! t := task_fork cpu rsp CLONE_VM false fpu csr in
  let! x := task_at t in
  task_create_finish t ;;;
  let! cur := gets currentTask in
  set_task cur (set_state TASK_STATE_WAITING_VFORK) ;;;
  ret (s32 (t_id (ids x))).

(** ** Termination *)

(** [Hang]: nothing in the kernel ever empties [reaperTask]. *)
Definition task_call_reaper (target : Z) : M T unit :=
  let! b := gets LOCK_REAPER in
  let! b := lift_outcome (spinlock_acquire b) in
  modify (with_reaper_lock b) ;;;
  let! r := gets reaperTask in
  if r =? 0 then
    modify (with_reaper target) ;;;
    let! b := gets LOCK_REAPER in
    let! b := lift_outcome (spinlock_release b) in
    modify (with_reaper_lock b)
  else hang.

Definition kids_lock (op : bool -> outcome bool) (t : Z) : M T unit :=
  let! x := task_at t in
  let! b := lift_outcome (op (LOCK_CHILD_TERM (kids x))) in
  set_task t (fun x => set_kids (mkKids b (dsChildTerminated (kids x)) (childrenTerminatedAmnt (kids x))) x).
Definition kids_count (d t : Z) : M T unit :=
  set_task t (fun x => set_kids (mkKids (LOCK_CHILD_TERM (kids x)) (dsChildTerminated (kids x))
    (s32 (childrenTerminatedAmnt (kids x) + d))) x).

(** Is the parent waiting for this child? *)
Definition waits_for (x : Task) (id : Z) : bool :=
  (t_state x =? TASK_STATE_WAITING_CHILD) ||
  (t_state x =? TASK_STATE_WAITING_CHILD_SPECIFIC) && (waitingForPid x =? id).

Definition inform_parent (p id r : Z) : M T unit :=
  kids_lock spinlock_acquire p ;;;
  let! info := on_kids p (LinkedListAllocate KilledInfo_size) in
  on_killed (update info (set_killed id (u16 r))) ;;;
  kids_count 1 p ;;;
  let! x := task_at p in
  (if waits_for x id then set_task p (set_state TASK_STATE_READY) else ret tt) ;;;
  kids_lock spinlock_release p ;;;
  set_task p (fun x => set_pending (Z.lor (sigPending x) (Z.shiftl 1 (Z.of_nat SIGCHLD))) x).

(** Whether the call returns: a task that ends itself spins until it is switched
    away from. *)
Definition task_kill (id r : Z) : M T bool :=
  let! task := task_get id in
  if task =? 0 then ret true
  else
    let! x := task_at task in
    (if negb (parent x =? 0) && negb (noInformParent x)
     then inform_parent (parent x) (t_id (ids x)) r else ret tt) ;;;
    (if negb (parent x =? 0) then
       let! y := task_at (parent x) in
       if t_state y =? TASK_STATE_WAITING_VFORK then set_task (parent x) (set_state TASK_STATE_READY) else ret tt
     else ret tt) ;;;
    (if negb (tidptr x =? 0) then service_wakes (svc_wake_tid (tidptr x)) else ret tt) ;;;
    taskInfoFilesDiscard (infoFiles (infos x)) task ;;;
    taskInfoPdDiscard (infoPd (infos x)) ;;;
    task_call_reaper task ;;;
    set_task task (set_state TASK_STATE_DEAD) ;;;
    let! cur := gets currentTask in
    ret (negb (cur =? task)).

(** Every task of the list in turn. *)
Fixpoint for_tasks (fuel : nat) (browse : Z) (f : Z -> Task -> M T unit) : M T unit :=
  match fuel with
  | O => hang
  | S fuel =>
      if browse =? 0 then ret tt
      else
        let! x := task_at browse in
        f browse x ;;;
        let! y := task_at browse in
        for_tasks fuel (t_next y) f
  end.

Definition task_free_children (task : Z) : M T unit :=
  let! x := task_at task in
  if noInformParent x then ret tt
  else
    ll_modify spinlock_cnt_read_acquire ;;;
    let! fuel := gets task_fuel in
    let! first := gets firstTask in
    let! dummy := gets dummyTask in
    for_tasks fuel first (fun child c =>
      if (parent c =? task) && negb (t_state c =? TASK_STATE_DEAD)
      then set_task child (set_parent dummy) else ret tt) ;;;
    ll_modify spinlock_cnt_read_release.

Definition current_id : M T Z :=
  let! cur := gets currentTask in
  let! c := task_at cur in
  ret (t_id (ids c)).

Definition syscallExitTask (code : Z) : M T bool :=
  let! id := current_id in task_kill (u32 id) (u16 code).

Definition syscallExitGroup (code : Z) : M T bool :=
  let! cur := gets currentTask in
  let! c := task_at cur in
  ll_modify spinlock_cnt_read_acquire ;;;
  let! fuel := gets task_fuel in
  let! first := gets firstTask in
  for_tasks fuel first (fun t x =>
    if (tgid (ids x) =? tgid (ids c)) && negb (t_id (ids x) =? t_id (ids c))
    then set_task t (fun x => set_pending (Z.lor (sigPending x) (Z.shiftl 1 (Z.of_nat SIGKILL))) x)
    else ret tt) ;;;
  ll_modify spinlock_cnt_read_release ;;;
  syscallExitTask code.

(** ** wait4 *)

Inductive wait_result :=
| Waited (r : Z) (status : option Z)
| WaitBlocks.

Fixpoint count_ready (fuel : nat) (browse cur : Z) : M T Z :=
  match fuel with
  | O => hang
  | S fuel =>
      if browse =? 0 then ret 0
      else
        let! x := task_at browse in
        let! n := count_ready fuel (t_next x) cur in
        ret (if (t_state x =? TASK_STATE_READY) && (parent x =? cur) then s32 (n + 1) else n)
  end.

(** The first record of the child [pid]. *)
Definition find_killed (pid : Z) : M T Z :=
  let! cur := gets currentTask in
  kids_lock spinlock_acquire cur ;;;
  let! target := on_kids cur (LinkedListSearch (fun _ c => killed_pid c =? u64 pid)) in
  kids_lock spinlock_release cur ;;;
  ret target.

Definition wait_status (r : Z) : Z :=
  if r <? 128 then Z.shiftl (Z.land r 0xff) 8 else Z.land (r - 128) 0xff.

Definition wait4_finish (target : Z) : M T wait_result :=
  let! cur := gets currentTask in
  kids_lock spinlock_acquire cur ;;;
  if target =? 0 then halt
  else
    let! c := on_killed (deref target) in
    on_kids cur (LinkedListRemove KilledInfo_size target) ;;;
    kids_count (-1) cur ;;;
    kids_lock spinlock_release cur ;;;
    ret (Waited (u64 (s32 (killed_pid c))) (Some (wait_status (killed_ret c)))).

Definition first_killed : M T Z :=
  let! cur := gets currentTask in
  let! x := task_at cur in
  ret (firstObject (dsChildTerminated (kids x))).

(** Up to the first [hand_control]. *)
Definition wait4_begin (pid options : Z) : M T wait_result :=
  let! cur := gets currentTask in
  let! x := task_at cur in
  let! none :=
    (if childrenTerminatedAmnt (kids x) =? 0 then
       ll_modify spinlock_cnt_read_acquire ;;;
       let! fuel := gets task_fuel in
       let! first := gets firstTask in
       let! amnt := count_ready fuel first cur in
       ll_modify spinlock_cnt_read_release ;;;
       ret (amnt =? 0)
     else ret false) in
  if none then ret (Waited (ERR ECHILD) None)
  else if negb (pid =? -1) then
    let! target := find_killed pid in
    if target =? 0 then
      if flag options WNOHANG then ret (Waited 0 None)
      else
        set_task cur (set_waiting (u64 pid)) ;;;
        set_task cur (set_state TASK_STATE_WAITING_CHILD_SPECIFIC) ;;;
        ret WaitBlocks
    else wait4_finish target
  else
    let! x := task_at cur in
    if childrenTerminatedAmnt (kids x) =? 0 then
      if flag options WNOHANG then ret (Waited 0 None)
      else set_task cur (set_state TASK_STATE_WAITING_CHILD) ;;; ret WaitBlocks
    else let! target := first_killed in wait4_finish target.

(** Behind it; [decisions] is the table of default actions. *)
Definition task_pending (decisions : list SignalInternal) (t : Z) : M T bool :=
  let! x := task_at t in
  if t_kernel (ids x) then ret false
  else
    let! g := on_signals (deref (infoSignals (infos x))) in
    ret (signalsPendingQuick decisions (mkSignals false (sigPending x) (sigBlock x) (signals g))).

Definition wait4_resume (decisions : list SignalInternal) (pid : Z) : M T wait_result :=
  let! cur := gets currentTask in
  let! sig := task_pending decisions cur in
  if sig then ret (Waited (ERR EINTR) None)
  else if negb (pid =? -1) then
    set_task cur (set_waiting 0) ;;;
    let! target := find_killed pid in
    wait4_finish target
  else let! target := first_killed in wait4_finish target.

(** ** Identities *)

Definition syscallSetpgid (pid new_pgid : Z) : M T Z :=
  let! id := current_id in
  let! task := task_get (if pid =? 0 then s32 id else pid) in
  if task =? 0 then ret (ERR EPERM)
  else
    set_task task (fun x => let i := ids x in
      set_ids (mkIds (t_id i) new_pgid (tgid i) (sid i) (ctrlPty i) (t_kernel i)) x) ;;;
    ret 0.

Definition syscallSetsid : M T Z :=
  let! cur := gets currentTask in
  let! c := task_at cur in
  let i := ids c in
  if tgid i =? pgid i then ret (ERR EPERM)
  else set_task cur (set_ids (mkIds (t_id i) (tgid i) (tgid i) (tgid i) (-1) (t_kernel i))) ;;; ret 0.

Definition syscallGetppid : M T Z :=
  let! cur := gets currentTask in
  let! c := task_at cur in
  if negb (parent c =? 0) then let! p := task_at (parent c) in ret (t_id (ids p)) else ret KERNEL_TASK_ID.

End operations.
