(* ===== verification/TaskRecords.v ===== *)
(** * The list of tasks and the records of ended children

    The representation of the task list by a sequence of addresses and of each
    task's ended children by a queue, and what the list operations, the report to
    a parent and the removal of a record do to them. *)

From S2P Require Import Prelude Bytes Heap FileTypes Spinlock LinkedList Syscalls Task.

(** A record: its cell, the child's identifier, its exit code. *)
Abbreviation kinfo := (Z * Z * Z)%type.
Definition kcells (q : list kinfo) : list Z := (fun k => k.1.1) <$> q.
Definition krest (pid r : Z) : list Z := pid :: replicate 7 0 ++ r :: replicate 7 0.
Definition krow (k : kinfo) : Z * list Z := (k.1.1, krest k.1.2 k.2).

Definition upd {A} (K : Z -> A) (p : Z) (v : A) : Z -> A := fun t => if decide (t = p) then v else K t.
Lemma upd_same {A} (K : Z -> A) p v : upd K p v p = v.
Proof. unfold upd. by rewrite decide_True. Qed.
Lemma upd_other {A} (K : Z -> A) p v t : t <> p -> upd K p v t = K t.
Proof. intros. unfold upd. by rewrite decide_False. Qed.

Lemma krow_cells q : (krow <$> q).*1 = kcells q.
Proof. unfold kcells. by rewrite <- list_fmap_compose. Qed.
Lemma kcells_app q1 q2 : kcells (q1 ++ q2) = kcells q1 ++ kcells q2.
Proof. unfold kcells. by rewrite fmap_app. Qed.

(** The tasks of [l] in a row. *)
Fixpoint tchain (h : gmap Z Task) (p : Z) (l : list Z) : Prop :=
  match l with
  | [] => p = 0
  | t :: l => p = t /\ t <> 0 /\ exists x, h !! t = Some x /\ tchain h (t_next x) l
  end.

Lemma tchain_live h p l t : tchain h p l -> t ∈ l -> t <> 0 /\ is_Some (h !! t).
Proof.
  revert p. induction l as [|u l IH]; intros p; cbn; [set_solver|].
  intros (-> & Hu & x & Hx & Hc) [->|Ht]%elem_of_cons; [eauto|by eapply IH].
Qed.

(** Links kept, other fields free. *)
Lemma tchain_frame h h' p l :
  (forall t, t ∈ l -> t_next <$> h' !! t = t_next <$> h !! t) -> tchain h p l -> tchain h' p l.
Proof.
  revert p. induction l as [|t l IH]; intros p E; cbn; [done|]. intros (-> & Ht & x & Hx & Hc).
  split_and!; [done..|]. pose proof (E t ltac:(by left)) as Et. rewrite Hx in Et.
  destruct (h' !! t) as [x'|]; [|done]. injection Et as Et. exists x'. split; [done|]. rewrite Et.
  apply IH; [|done]. intros u Hu. apply E. by right.
Qed.

Section records.
Context {W : Type} `{!Allocator LLcell}.
Abbreviation T := (tsys W).
Implicit Types (s : T) (K : Z -> list kinfo).

(** The ended children of the task [x]. *)
Definition kids_list (killed : gmap Z LLcell) (x : Task) (q : list kinfo) : Prop :=
  LOCK_CHILD_TERM (kids x) = false /\
  ll_list (mkLs (dsChildTerminated (kids x)) killed) KilledInfo_size (krow <$> q) /\
  childrenTerminatedAmnt (kids x) = zlen q.

Record tasks_ok s (l : list Z) K : Prop := {
  to_chain : tchain (tasks s) (firstTask s) l;
  to_nodup : NoDup l;
  to_lock : TASK_LL_MODIFY s = 0;
  to_reaper : LOCK_REAPER s = false;
  to_kids : forall t x, t ∈ l -> tasks s !! t = Some x -> kids_list (killed s) x (K t);
  to_apart : forall t u a, t ∈ l -> u ∈ l -> a ∈ kcells (K t) -> a ∈ kcells (K u) -> t = u;
}.

Lemma to_live s l K t : tasks_ok s l K -> t ∈ l -> t <> 0 /\ is_Some (tasks s !! t).
Proof. intros O Ht. eapply tchain_live; [apply O|done]. Qed.

Lemma kids_list_frame h h' x x' q :
  kids x' = kids x -> (forall a, a ∈ kcells q -> h' !! a = h !! a) -> kids_list h x q -> kids_list h' x' q.
Proof.
  intros E Eh (H1 & (E1 & Hd & Hc) & H3). unfold kids_list. rewrite E. split_and!; [done| |done].
  split_and!; [done..|]. eapply chain_frame; [|exact Hc]. intros a Ha. apply Eh. by rewrite <- krow_cells.
Qed.

(** One task changes, and cells of nobody else's records. *)
Lemma ok_update s s' l K t x x' q :
  tasks_ok s l K -> t ∈ l -> tasks s !! t = Some x ->
  tasks s' = <[t := x']> (tasks s) -> firstTask s' = firstTask s -> TASK_LL_MODIFY s' = 0 -> LOCK_REAPER s' = false ->
  t_next x' = t_next x -> kids_list (killed s') x' q ->
  (forall u a, u ∈ l -> u <> t -> a ∈ kcells (K u) -> killed s' !! a = killed s !! a /\ a ∉ kcells q) ->
  tasks_ok s' l (upd K t q).
Proof.
  intros O Ht Hx Et Ef El Er Hn Hq Hother. split.
  - rewrite Et, Ef. eapply tchain_frame; [|apply O]. intros u Hu. destruct (decide (u = t)) as [->|Hne].
    + rewrite lookup_insert_eq, Hx. cbn. by rewrite Hn.
    + by rewrite lookup_insert_ne.
  - apply O.
  - done.
  - done.
  - intros u y Hu Hy. rewrite Et in Hy. destruct (decide (u = t)) as [->|Hne].
    + rewrite lookup_insert_eq in Hy. injection Hy as <-. by rewrite upd_same.
    + rewrite lookup_insert_ne in Hy by done. rewrite upd_other by done.
      eapply kids_list_frame; [done| |by eapply (to_kids _ _ _ O)]. intros a Ha. by apply (Hother u).
  - intros u v a Hu Hv Hau Hav. destruct (decide (u = t)) as [->|Hut], (decide (v = t)) as [->|Hvt]; [done|..].
    + rewrite upd_same in Hau. rewrite upd_other in Hav by done. destruct (Hother v a Hv Hvt Hav). done.
    + rewrite upd_same in Hav. rewrite upd_other in Hau by done. destruct (Hother u a Hu Hut Hau). done.
    + rewrite upd_other in Hau, Hav by done. by apply (to_apart _ _ _ O u v a).
Qed.

(** A task changes in fields the representation does not look at. *)
Lemma ok_field s l K t x x' :
  tasks_ok s l K -> t ∈ l -> tasks s !! t = Some x -> t_next x' = t_next x -> kids x' = kids x ->
  tasks_ok (with_tasks (<[t := x']> (tasks s)) s) l K.
Proof.
  intros O Ht Hx Hn Hk. assert (E : tasks_ok (with_tasks (<[t := x']> (tasks s)) s) l (upd K t (K t))).
  { eapply (ok_update s _ l K t x x'); try done; [apply O|apply O| |].
    - eapply kids_list_frame; [exact Hk|done|]. by eapply (to_kids _ _ _ O).
    - intros u a Hu Hne Ha. split; [done|]. intros Ha'. apply Hne. by apply (to_apart _ _ _ O u t a). }
  destruct E as [C D L R Kd A]. split; try done.
  - intros u y Hu Hy. specialize (Kd u y Hu Hy). unfold upd in Kd. by destruct (decide (u = t)) as [->|].
  - apply O.
Qed.

(** ** Steps *)

Lemma task_at_ok s t x : t <> 0 -> tasks s !! t = Some x -> task_at t s = Ok (x, s).
Proof. intros Ht Hx. unfold task_at, on_tasks, part. rewrite (deref_ok _ _ _ Ht Hx). by destruct s. Qed.

Lemma set_task_ok s t x f :
  t <> 0 -> tasks s !! t = Some x -> set_task t f s = Ok (tt, with_tasks (<[t := f x]> (tasks s)) s).
Proof. intros Ht Hx. unfold set_task, on_tasks, part. by rewrite (update_ok _ _ _ _ Ht Hx). Qed.

Lemma on_killed_deref s a c : a <> 0 -> killed s !! a = Some c -> on_killed (deref a) s = Ok (c, s).
Proof. intros Ha Hc. unfold on_killed, part. rewrite (deref_ok _ _ _ Ha Hc). by destruct s. Qed.

Lemma on_killed_update s a c f :
  a <> 0 -> killed s !! a = Some c -> on_killed (update a f) s = Ok (tt, with_killed (<[a := f c]> (killed s)) s).
Proof. intros Ha Hc. unfold on_killed, part. by rewrite (update_ok _ _ _ _ Ha Hc). Qed.

Lemma on_kids_ok {A} s t x (m : M ll_state A) a st :
  t <> 0 -> tasks s !! t = Some x -> m (mkLs (dsChildTerminated (kids x)) (killed s)) = Ok (a, st) ->
  on_kids t m s = Ok (a, with_killed (cells st) (with_tasks
    (<[t := set_kids (mkKids (LOCK_CHILD_TERM (kids x)) (ll st) (childrenTerminatedAmnt (kids x))) x]> (tasks s)) s)).
Proof. intros Ht Hx E. unfold on_kids. erewrite bind_ok by (by apply task_at_ok). by rewrite E. Qed.

Lemma same_kids x : LOCK_CHILD_TERM (kids x) = false ->
  set_kids (mkKids false (dsChildTerminated (kids x)) (childrenTerminatedAmnt (kids x))) x = x.
Proof. intros E. destruct x as [? ? ? ? ? ? ? [b d n] ? ? ? ? ?]. cbn in *. by subst b. Qed.

Lemma with_tasks_same s : with_tasks (tasks s) s = s.
Proof. by destruct s. Qed.

Lemma kids_locks s t x :
  t <> 0 -> tasks s !! t = Some x -> LOCK_CHILD_TERM (kids x) = false ->
  kids_lock spinlock_acquire t s = Ok (tt, s) /\ kids_lock spinlock_release t s = Ok (tt, s).
Proof.
  intros Ht Hx Hl. unfold kids_lock. split.
  all: erewrite bind_ok by (by apply task_at_ok); rewrite ?Hl; erewrite bind_ok by done.
  all: erewrite set_task_ok by done; unfold IS_NOT_LOCKED; rewrite same_kids, insert_id by done; by rewrite with_tasks_same.
Qed.

Lemma ll_modify_ok s op c : op (TASK_LL_MODIFY s) = Ok c -> ll_modify op s = Ok (tt, with_ll_lock c s).
Proof. intros E. unfold ll_modify. erewrite bind_ok by done. rewrite E. by erewrite bind_ok by done. Qed.

Lemma with_ll_lock_twice s c : TASK_LL_MODIFY s = 0 -> with_ll_lock 0 (with_ll_lock c s) = s.
Proof. intros E. destruct s. cbn in *. by subst. Qed.

(** ** Searching the list *)

Lemma task_search_ok s p l id fuel :
  tchain (tasks s) p l -> (length l < fuel)%nat ->
  task_search fuel p id s = Ok (default 0 (list_find (fun t => t_id <$> (ids <$> tasks s !! t) = Some id) l ≫= (fun r => Some r.2)), s).
Proof.
  revert p fuel. induction l as [|t l IH]; intros p fuel Hc Hf; (destruct fuel as [|fuel]; [cbn in Hf; lia|]); cbn [task_search].
  - cbn in Hc. subst p. done.
  - destruct Hc as (-> & Ht & x & Hx & Hc). rewrite (proj2 (Z.eqb_neq t 0)) by done.
    erewrite bind_ok by (by apply task_at_ok). cbn [list_find]. rewrite Hx. cbn [fmap option_fmap option_map].
    destruct (t_id (ids x) =? id) eqn:E.
    + rewrite decide_True by (f_equal; lia). done.
    + rewrite decide_False by (intros [= H]; lia). rewrite (IH (t_next x) fuel Hc) by (cbn in Hf; lia).
      do 3 f_equal. by destruct (list_find _ l) as [[]|].
Qed.

Lemma chain_length s l K : tasks_ok s l K -> (length l < task_fuel s)%nat.
Proof.
  intros O. unfold task_fuel. enough (length l <= size (tasks s))%nat by lia.
  rewrite <- size_dom, <- (size_list_to_set (C := gset Z)) by apply O. apply subseteq_size.
  intros t Ht%elem_of_list_to_set. apply elem_of_dom. by eapply to_live.
Qed.

(** The first task of the list with the identifier. *)
Definition found (h : gmap Z Task) (l : list Z) (id t : Z) : Prop :=
  exists l1 l2, l = l1 ++ t :: l2 /\ (exists x, h !! t = Some x /\ t_id (ids x) = id) /\
    forall u x, u ∈ l1 -> h !! u = Some x -> t_id (ids x) <> id.

Lemma task_get_ok s l K id t :
  tasks_ok s l K -> 0 <= id < 2 ^ 32 -> found (tasks s) l id t -> task_get id s = Ok (t, s).
Proof.
  intros O Hid (l1 & l2 & -> & (x & Hx & Hxid) & Hn). unfold task_get.
  erewrite bind_ok by (apply ll_modify_ok; rewrite (to_lock _ _ _ O); reflexivity).
  do 2 erewrite bind_ok by done. rewrite u32_small by lia.
  erewrite bind_ok.
  2:{ eapply (task_search_ok (with_ll_lock 1 s)); [apply O|]. exact (chain_length _ _ _ O). }
  erewrite bind_ok by (apply ll_modify_ok; reflexivity). unfold ret. cbn [tasks with_ll_lock].
  rewrite with_ll_lock_twice by apply O. do 3 f_equal.
  rewrite list_find_app_r.
  - cbn [list_find]. rewrite Hx. cbn. rewrite decide_True by (by rewrite Hxid). done.
  - apply list_find_None. apply Forall_forall. intros u Hu.
    destruct (to_live _ _ _ u O) as [_ [y Hy]]; [set_solver|]. rewrite Hy. cbn. intros [= E]. by apply (Hn u y).
Qed.

(** ** The report to the parent *)

(** The parent with one more record. *)
Definition informed (c : LLcontrol) (id : Z) (x : Task) : Task :=
  set_pending (Z.lor (sigPending x) (Z.shiftl 1 (Z.of_nat SIGCHLD)))
    (set_state (if waits_for x id then TASK_STATE_READY else t_state x)
      (set_kids (mkKids false c (childrenTerminatedAmnt (kids x) + 1)) x)).

Lemma fresh_record s l K a : tasks_ok s l K -> killed s !! a = None -> forall t, t ∈ l -> a ∉ kcells (K t).
Proof.
  intros O Ha t Ht Hin. destruct (to_live _ _ _ t O Ht) as [_ [x Hx]].
  destruct (to_kids _ _ _ O t x Ht Hx) as (_ & (_ & _ & Hc) & _). rewrite <- krow_cells in Hin.
  destruct (chain_cell _ _ _ _ _ Hc Hin) as [[? ?] _]. cbn in *. congruence.
Qed.

Lemma inform_parent_ok s l K p x id r :
  tasks_ok s l K -> p ∈ l -> tasks s !! p = Some x -> zlen (K p) + 1 < 2 ^ 31 ->
  exists a c h, inform_parent p id r s =
      Ok (tt, with_killed h (with_tasks (<[p := informed c id x]> (tasks s)) s)) /\
    (forall t, t ∈ l -> a ∉ kcells (K t)) /\
    tasks_ok (with_killed h (with_tasks (<[p := informed c id x]> (tasks s)) s)) l
      (upd K p (K p ++ [(a, id, u16 r)])).
Proof.
  intros O Hp Hx Hb. destruct (to_live _ _ _ p O Hp) as [Hp0 _].
  destruct (to_kids _ _ _ O p x Hp Hx) as (Hl & L & Hn). destruct (kids_locks s p x Hp0 Hx Hl) as [La _].
  destruct (ll_allocate_appends _ _ _ L) as (a & st & Ea & Hfresh & L2 & Fr). cbn [cells] in Hfresh.
  assert (a <> 0 /\ exists n, cells st !! a = Some (mkCell n (replicate 16 0))) as [Ha0 [n Hc]].
  { destruct L2 as (_ & _ & Hch). apply chain_app in Hch as (y & _ & -> & Ha & n & Hc & _). eauto. }
  pose proof (fresh_record s l K a O Hfresh) as Hnew.
  pose proof (ll_set_rest _ _ _ _ _ (krest id (u16 r)) _ _ L2 Hc) as L3.
  set (h := <[a := mkCell n (krest id (u16 r))]> (cells st)) in L3.
  exists a, (ll st), h. split; [|split; [done|]].
  - unfold inform_parent. mrw La. erewrite bind_ok by (by eapply on_kids_ok).
    erewrite bind_ok by (by apply on_killed_update).
    unfold kids_count. erewrite bind_ok by (apply set_task_ok; [done|apply lookup_insert_eq]).
    erewrite bind_ok by (apply task_at_ok; [done|apply lookup_insert_eq]).
    set (x1 := set_kids _ (set_kids _ x)).
    assert (Ew : waits_for x1 id = waits_for x id) by done. rewrite Ew.
    pose (x2 := set_state (if waits_for x id then TASK_STATE_READY else t_state x) x1).
    erewrite (bind_ok _ _ _ tt (with_killed h (with_tasks (<[p := x2]> (tasks s)) s))).
    2:{ destruct (waits_for x id).
        - erewrite set_task_ok; [|done|apply lookup_insert_eq]. unfold with_tasks, with_killed. cbn.
          by rewrite !insert_insert_eq.
        - unfold ret, with_tasks, with_killed. cbn. by rewrite !insert_insert_eq. }
    edestruct (kids_locks (with_killed h (with_tasks (<[p := x2]> (tasks s)) s)) p x2) as [_ Lr];
      [done|apply lookup_insert_eq|exact Hl|]. mrw Lr.
    erewrite set_task_ok; [|done|apply lookup_insert_eq]. do 2 f_equal. unfold with_tasks, with_killed. cbn.
    rewrite insert_insert_eq. do 2 f_equal. unfold informed, x2, x1. rewrite Hl. cbn.
    rewrite s32_small by (rewrite Hn; pose proof (zlen_nonneg (K p)); lia). done.
  - eapply (ok_update s _ l K p x); try done; [apply O|apply O| |].
    + split_and!; [done| |cbn; rewrite Hn, zlen_app; done]. rewrite fmap_app. exact L3.
    + intros u b Hu Hne Hb'. assert (b <> a) by (intros ->; by apply (Hnew u)).
      assert (b ∉ kcells (K p)) by (intros Hbp; apply Hne; by apply (to_apart _ _ _ O u p b)).
      split; [|rewrite kcells_app; cbn; set_solver]. cbn. unfold h. rewrite lookup_insert_ne by done.
      apply Fr. rewrite krow_cells. set_solver.
Qed.

(** ** Taking a record *)

Lemma record_cell s l K t x q1 a pid r q2 :
  tasks_ok s l K -> t ∈ l -> tasks s !! t = Some x -> K t = q1 ++ (a, pid, r) :: q2 ->
  a <> 0 /\ exists n, killed s !! a = Some (mkCell n (krest pid r)).
Proof.
  intros O Ht Hx Hq. destruct (to_kids _ _ _ O t x Ht Hx) as (_ & (_ & _ & Hc) & _). rewrite Hq, fmap_app in Hc.
  apply chain_app in Hc as (y & _ & -> & Ha & n & Hn & _). eauto.
Qed.

Lemma wait4_finish_ok s l K x q1 a pid r q2 :
  tasks_ok s l K -> currentTask s ∈ l -> tasks s !! currentTask s = Some x ->
  K (currentTask s) = q1 ++ (a, pid, r) :: q2 -> zlen (K (currentTask s)) < 2 ^ 31 ->
  exists c h, let x' := set_kids (mkKids false c (childrenTerminatedAmnt (kids x) - 1)) x in
    wait4_finish a s = Ok (Waited (u64 (s32 pid)) (Some (wait_status r)),
      with_killed h (with_tasks (<[currentTask s := x']> (tasks s)) s)) /\
    tasks_ok (with_killed h (with_tasks (<[currentTask s := x']> (tasks s)) s)) l
      (upd K (currentTask s) (q1 ++ q2)).
Proof.
  set (t := currentTask s). intros O Ht Hx Hq Hb. destruct (to_live _ _ _ t O Ht) as [Ht0 _].
  destruct (to_kids _ _ _ O t x Ht Hx) as (Hl & L & Hn). destruct (kids_locks s t x Ht0 Hx Hl) as [La _].
  destruct (record_cell _ _ _ _ _ _ _ _ _ _ O Ht Hx Hq) as [Ha [n Hc]].
  rewrite Hq, fmap_app in L. destruct (remove_member _ _ _ _ _ _ L) as (st & Er & L' & Fr).
  exists (ll st), (cells st). cbv zeta. split.
  - unfold wait4_finish. erewrite bind_ok by done. fold t. mrw La. rewrite (proj2 (Z.eqb_neq a 0)) by done.
    erewrite bind_ok by (by apply on_killed_deref). erewrite bind_ok by (by eapply on_kids_ok).
    unfold kids_count. erewrite bind_ok by (apply set_task_ok; [done|apply lookup_insert_eq]). cbv beta.
    set (x1 := set_kids _ (set_kids _ x)).
    match goal with |- bind _ _ ?st = _ => destruct (kids_locks st t x1) as [_ Lr] end;
      [done|apply lookup_insert_eq|exact Hl|]. mrw Lr.
    unfold ret, with_tasks, with_killed. cbn. rewrite !insert_insert_eq. do 4 f_equal.
    unfold x1. rewrite Hl. cbn. rewrite s32_small; [done|]. rewrite Hn. pose proof (zlen_nonneg (K t)). lia.
  - eapply (ok_update s _ l K t x); try done; [apply O|apply O| |].
    + split_and!; [done| |].
      * rewrite fmap_app. by destruct st.
      * cbn. rewrite Hn, Hq, !zlen_app, zlen_cons. lia.
    + intros u b Hu Hne Hbu.
      assert (b ∉ kcells (K t)) as Hbt by (intros Hbt; apply Hne; by apply (to_apart _ _ _ O u t b)).
      rewrite Hq, kcells_app in Hbt. cbn in Hbt. split; [|rewrite kcells_app; set_solver].
      apply Fr. rewrite krow_cells. set_solver.
Qed.
Lemma ok_outside s s' l K :
  tasks_ok s l K -> tasks s' = tasks s -> firstTask s' = firstTask s -> TASK_LL_MODIFY s' = TASK_LL_MODIFY s ->
  LOCK_REAPER s' = LOCK_REAPER s -> killed s' = killed s -> tasks_ok s' l K.
Proof. intros [C D L R Kd A] E1 E2 E3 E4 E5. split; rewrite ?E1, ?E2, ?E3, ?E4, ?E5; done. Qed.

Lemma ok_ext s l K K' : (forall t, t ∈ l -> K t = K' t) -> tasks_ok s l K -> tasks_ok s l K'.
Proof.
  intros E [C D L R Kd A]. split; try done.
  - intros t x Ht Hx. rewrite <- E by done. by apply Kd.
  - intros t u a Ht Hu Ha Hb. apply (A t u a); [done|done|by rewrite E..].
Qed.

(** ** The counted structures *)

Definition add_files_users (d : Z) (x : TaskInfoFiles) : TaskInfoFiles :=
  mkFiles (WLOCK_FILES x) (files_users x + d) (rlimitFdsSoft x) (rlimitFdsHard x).
Definition add_pd_users (d : Z) (x : TaskInfoPagedir) : TaskInfoPagedir :=
  mkPd (LOCK_PD x) (pd_users x + d) (heap_start x) (heap_end x) (mmap_start x) (mmap_end x) (pagedir x).

Lemma on_files_deref s f x : f <> 0 -> info_files s !! f = Some x -> on_files (deref f) s = Ok (x, s).
Proof. intros Hf Hx. unfold on_files, part. rewrite (deref_ok _ _ _ Hf Hx). by destruct s. Qed.
Lemma on_files_update s f x g : f <> 0 -> info_files s !! f = Some x ->
  on_files (update f g) s = Ok (tt, with_files (<[f := g x]> (info_files s)) s).
Proof. intros Hf Hx. unfold on_files, part. by rewrite (update_ok _ _ _ _ Hf Hx). Qed.
Lemma on_pd_deref s f x : f <> 0 -> info_pd s !! f = Some x -> on_pd (deref f) s = Ok (x, s).
Proof. intros Hf Hx. unfold on_pd, part. rewrite (deref_ok _ _ _ Hf Hx). by destruct s. Qed.
Lemma on_pd_update s f x g : f <> 0 -> info_pd s !! f = Some x ->
  on_pd (update f g) s = Ok (tt, with_pd (<[f := g x]> (info_pd s)) s).
Proof. intros Hf Hx. unfold on_pd, part. by rewrite (update_ok _ _ _ _ Hf Hx). Qed.

Lemma files_lock_ok s op f x c :
  f <> 0 -> info_files s !! f = Some x -> op (WLOCK_FILES x) = Ok c ->
  files_lock op f s =
    Ok (tt, with_files (<[f := mkFiles c (files_users x) (rlimitFdsSoft x) (rlimitFdsHard x)]> (info_files s)) s).
Proof.
  intros Hf Hx E. unfold files_lock. erewrite bind_ok by (by apply on_files_deref). rewrite E.
  erewrite bind_ok by done. by rewrite (on_files_update s f x).
Qed.

Lemma pd_locks s f x :
  f <> 0 -> info_pd s !! f = Some x -> LOCK_PD x = false ->
  pd_lock spinlock_acquire f s = Ok (tt, s) /\ pd_lock spinlock_release f s = Ok (tt, s).
Proof.
  intros Hf Hx Hl. unfold pd_lock. split.
  all: erewrite bind_ok by (by apply on_pd_deref); rewrite ?Hl; erewrite bind_ok by done.
  all: erewrite on_pd_update by done; unfold IS_NOT_LOCKED; rewrite insert_id; [by destruct s|].
  all: rewrite Hx; destruct x; cbn in *; by subst.
Qed.

End records.
