(* ===== verification/TaskTheorems.v ===== *)
(** * Theorems about processes

    Termination reports to the parent and releases what the task shared, wait4
    delivers the reports, and boundary cases. *)

From S2P Require Import Prelude Bytes Heap FileTypes Spinlock LinkedList Syscalls Task TaskRecords.

Section release.
Context {W : Type} `{!TaskServices W} `{!Allocator LLcell}.
Abbreviation T := (tsys W).
Implicit Types (s : T) (K : Z -> list kinfo).

(** ** Waking other tasks *)

(** The tasks after those of [us] have been made ready. *)
Fixpoint woken (us : list Z) (h : gmap Z Task) : gmap Z Task :=
  match us with
  | [] => h
  | u :: us => woken us (alter (set_state TASK_STATE_READY) u h)
  end.

Lemma woken_lookup us h t :
  woken us h !! t = if decide (t ∈ us) then set_state TASK_STATE_READY <$> h !! t else h !! t.
Proof.
  revert h. induction us as [|u us IH]; intros h; cbn [woken]; [done|]. rewrite IH.
  destruct (decide (u = t)) as [->|Hu].
  - rewrite lookup_alter_eq, (decide_True (P := t ∈ t :: us)) by left. case_decide; [|done]. by destruct (h !! t) as [[]|].
  - rewrite lookup_alter_ne by done. destruct (decide (t ∈ us)), (decide (t ∈ u :: us)); set_solver.
Qed.

Lemma service_wakes_ok s l K f :
  tasks_ok s l K -> Forall (fun u => u ∈ l) (f (t_world s)).1 ->
  service_wakes f s = Ok (tt, with_tasks (woken (f (t_world s)).1 (tasks s)) (with_world (f (t_world s)).2 s)) /\
  tasks_ok (with_tasks (woken (f (t_world s)).1 (tasks s)) (with_world (f (t_world s)).2 s)) l K.
Proof.
  unfold service_wakes. destruct (f (t_world s)) as [us w]. cbn [fst snd]. intros O Hl.
  assert (O' : tasks_ok (with_world w s) l K) by (by apply (ok_outside s)).
  change (tasks s) with (tasks (with_world w s)). generalize dependent (with_world w s). clear O w s.
  induction Hl as [|u us Hu _ IH]; intros s O; [by destruct s|]. destruct (to_live _ _ _ u O Hu) as [Hu0 [x Hx]].
  cbn [mfor]. erewrite bind_ok by (by apply set_task_ok). cbn [woken].
  assert (alter (set_state TASK_STATE_READY) u (tasks s) = <[u := set_state TASK_STATE_READY x]> (tasks s)) as ->.
  { apply map_eq. intros v. destruct (decide (u = v)) as [<-|Hv].
    - by rewrite lookup_alter_eq, lookup_insert_eq, Hx.
    - by rewrite lookup_alter_ne, lookup_insert_ne. }
  destruct (IH _ (ok_field s l K u x (set_state TASK_STATE_READY x) O Hu Hx eq_refl eq_refl)) as [E O1]. by split.
Qed.

(** ** Releasing shared structures *)

(** The tables of descriptors after one user has left. *)
Definition leave_files (f : Z) (x : TaskInfoFiles) (h : gmap Z TaskInfoFiles) : gmap Z TaskInfoFiles :=
  if files_users x =? 1 then delete f h else <[f := add_files_users (-1) x]> h.

(** The last user closes the files; the tasks this makes ready. *)
Definition close_wakes (f t : Z) (x : TaskInfoFiles) (w : W) : list Z * W :=
  if files_users x =? 1 then svc_close_files f t w else ([], w).

Lemma files_put_twice h h' s : with_files h (with_files h' s) = with_files h s.
Proof. done. Qed.

(** Closing the files of a table nobody uses any more, and releasing it. *)
Lemma close_and_dispose s l K h f t x :
  tasks_ok s l K -> f <> 0 -> Forall (fun u => u ∈ l) (svc_close_files f t (t_world s)).1 ->
  exists s', (service_wakes (svc_close_files f t) ;;; on_files (dispose f)) (with_files (<[f := x]> h) s) = Ok (tt, s') /\
    tasks_ok s' l K /\
    s' = with_tasks (woken (svc_close_files f t (t_world s)).1 (tasks s))
      (with_world (svc_close_files f t (t_world s)).2 (with_files (delete f h) s)).
Proof.
  intros O Hf Hw. set (s1 := with_files _ s).
  destruct (service_wakes_ok s1 l K (svc_close_files f t)) as [E O1]; [by apply (ok_outside s)|exact Hw|].
  mrw E. eexists. split; [|split; [|reflexivity]].
  - unfold on_files, part. erewrite dispose_ok by (done || apply lookup_insert_eq).
    change (info_files (with_tasks _ _)) with (<[f := x]> h). rewrite delete_insert_eq. reflexivity.
  - by eapply ok_outside.
Qed.

Lemma files_discard_ok s l K f t x :
  tasks_ok s l K -> f <> 0 -> info_files s !! f = Some x -> WLOCK_FILES x = 0 -> 1 <= files_users x < 2 ^ 31 ->
  Forall (fun u => u ∈ l) (close_wakes f t x (t_world s)).1 ->
  exists s', taskInfoFilesDiscard f t s = Ok (tt, s') /\ tasks_ok s' l K /\
    s' = with_tasks (woken (close_wakes f t x (t_world s)).1 (tasks s))
      (with_world (close_wakes f t x (t_world s)).2 (with_files (leave_files f x (info_files s)) s)).
Proof.
  intros O Hf Hx Hl Hu Hw. unfold taskInfoFilesDiscard.
  erewrite bind_ok by (apply (files_lock_ok _ _ _ x (-1)); [done|done|by rewrite Hl]).
  unfold files_count. erewrite bind_ok by (apply on_files_update; [done|apply lookup_insert_eq]).
  erewrite bind_ok by (apply on_files_deref; [done|apply lookup_insert_eq]). cbn [files_users WLOCK_FILES].
  rewrite s32_small by lia. unfold leave_files, close_wakes in *.
  replace (files_users x + -1 =? 0) with (files_users x =? 1) by (apply eq_true_iff_eq; lia).
  destruct (files_users x =? 1).
  - erewrite bind_ok by (eapply files_lock_ok; [done|apply lookup_insert_eq|reflexivity]).
    cbn [info_files with_files]. rewrite !files_put_twice, !insert_insert_eq.
    by apply (close_and_dispose s l K (info_files s) f t).
  - eexists. split; [|split; [|reflexivity]].
    + erewrite files_lock_ok; [|done|apply lookup_insert_eq|reflexivity].
      unfold with_files, with_world, with_tasks, add_files_users. cbn. rewrite !insert_insert_eq, Hl. done.
    + by apply (ok_outside s).
Qed.

Lemma pd_discard_ok s f x :
  f <> 0 -> info_pd s !! f = Some x -> LOCK_PD x = false -> 1 <= pd_users x < 2 ^ 31 ->
  exists w, taskInfoPdDiscard f s = Ok (tt, with_world w (with_pd (<[f := add_pd_users (-1) x]> (info_pd s)) s)).
Proof.
  intros Hf Hx Hl Hu. unfold taskInfoPdDiscard. destruct (pd_locks s f x Hf Hx Hl) as [La _]. mrw La.
  unfold pd_count. erewrite bind_ok by (by apply on_pd_update).
  erewrite bind_ok by (apply on_pd_deref; [done|apply lookup_insert_eq]). cbn [pd_users pagedir].
  rewrite s32_small by lia. destruct (pd_users x + -1 =? 0); [by eexists|].
  exists (t_world s). match goal with |- _ ?st = _ => edestruct (pd_locks st f) as [_ Lr] end;
    [done|apply lookup_insert_eq|exact Hl|]. rewrite Lr. by destruct s.
Qed.

Lemma call_reaper_ok s t :
  LOCK_REAPER s = false -> reaperTask s = 0 -> task_call_reaper t s = Ok (tt, with_reaper t s).
Proof. intros Hl Hr. destruct s. cbn in *. by subst. Qed.

Lemma call_reaper_hangs s t : LOCK_REAPER s = false -> reaperTask s <> 0 -> task_call_reaper t s = Hang.
Proof.
  intros Hl Hr. destruct s. cbn in *. subst. unfold task_call_reaper, bind. cbn.
  by rewrite (proj2 (Z.eqb_neq _ 0)) by done.
Qed.

(** ** Termination *)

(** The parent after the report: woken when it waited for this child, or for the
    memory it lent it. *)
Definition told (c : LLcontrol) (id : Z) (y : Task) : Task :=
  let y := informed c id y in
  if t_state y =? TASK_STATE_WAITING_VFORK then set_state TASK_STATE_READY y else y.

(** The structures of a task are in place. *)
Record holds s (x : Task) (fl : TaskInfoFiles) (pd : TaskInfoPagedir) : Prop := {
  ho_files : infoFiles (infos x) <> 0 /\ info_files s !! infoFiles (infos x) = Some fl;
  ho_pd : infoPd (infos x) <> 0 /\ info_pd s !! infoPd (infos x) = Some pd;
  ho_flock : WLOCK_FILES fl = 0;
  ho_plock : LOCK_PD pd = false;
  ho_fusers : 1 <= files_users fl < 2 ^ 31;
  ho_pusers : 1 <= pd_users pd < 2 ^ 31;
}.

(** The tasks that the end of the task [t] makes ready: those asleep on its [tidptr],
    then those polling a file that is closed with it. *)
Definition wake_tid (x : Task) (w : W) : list Z * W :=
  if negb (tidptr x =? 0) then svc_wake_tid (tidptr x) w else ([], w).
Definition wakes s (t : Z) (x : Task) (fl : TaskInfoFiles) : list Z :=
  let '(us, w) := wake_tid x (t_world s) in us ++ (close_wakes (infoFiles (infos x)) t fl w).1.

Lemma woken_app us vs h : woken (us ++ vs) h = woken vs (woken us h).
Proof. revert h. induction us as [|u us IH]; intros h; cbn [woken app]; [done|]. by rewrite IH. Qed.

Lemma wake_tid_ok s l K x : tasks_ok s l K -> Forall (fun u => u ∈ l) (wake_tid x (t_world s)).1 ->
  exists s', (if negb (tidptr x =? 0) then service_wakes (svc_wake_tid (tidptr x)) else ret tt) s = Ok (tt, s') /\
    tasks_ok s' l K /\
    s' = with_tasks (woken (wake_tid x (t_world s)).1 (tasks s)) (with_world (wake_tid x (t_world s)).2 s).
Proof.
  unfold wake_tid. intros O H. destruct (negb (tidptr x =? 0)).
  - destruct (service_wakes_ok s l K _ O H) as [E O']. eexists. split; [exact E|]. by split.
  - exists s. split; [done|]. split; [done|]. by destruct s.
Qed.

(** Everything up to the reaper. *)
Lemma kill_before_reaper s l K id r t x y fl pd :
  tasks_ok s l K -> 0 <= id < 2 ^ 32 -> found (tasks s) l id t -> tasks s !! t = Some x ->
  parent x ∈ l -> parent x <> t -> tasks s !! parent x = Some y -> noInformParent x = false ->
  zlen (K (parent x)) + 1 < 2 ^ 31 -> holds s x fl pd -> Forall (fun u => u ∈ l) (wakes s t x fl) ->
  exists a c s', task_kill id r s =
      (task_call_reaper t ;;; set_task t (set_state TASK_STATE_DEAD) ;;;
       let! cur := gets currentTask in ret (negb (cur =? t))) s' /\
    t ∈ l /\ t <> 0 /\ (forall u, u ∈ l -> a ∉ kcells (K u)) /\
    tasks_ok s' l (upd K (parent x) (K (parent x) ++ [(a, id, u16 r)])) /\
    tasks s' = woken (wakes s t x fl) (<[parent x := told c id y]> (tasks s)) /\
    (exists v, tasks s' !! t = Some (set_state v x)) /\
    info_files s' = leave_files (infoFiles (infos x)) fl (info_files s) /\
    info_pd s' = <[infoPd (infos x) := add_pd_users (-1) pd]> (info_pd s) /\
    info_fs s' = info_fs s /\ info_signals s' = info_signals s /\
    reaperTask s' = reaperTask s /\ currentTask s' = currentTask s.
Proof.
  intros O Hid Hfound Hx Hp Hpt Hy Hni Hb Hh Hwk.
  assert (t ∈ l /\ t_id (ids x) = id) as [Ht Hxid].
  { destruct Hfound as (l1 & l2 & -> & (x' & Hx' & E) & _). split; [set_solver|congruence]. }
  destruct (to_live _ _ _ t O Ht) as [Ht0 _]. destruct (to_live _ _ _ _ O Hp) as [Hp0 _].
  destruct (inform_parent_ok s l K (parent x) y id r O Hp Hy Hb) as (a & c & h & E1 & Hfresh & O1).
  set (s1 := with_killed h _) in E1, O1. set (p := parent x) in *.
  set (s2 := with_tasks (<[p := told c id y]> (tasks s)) s1).
  assert (O2 : tasks_ok s2 l (upd K p (K p ++ [(a, id, u16 r)]))).
  { unfold s2. replace (<[p := told c id y]> (tasks s)) with (<[p := told c id y]> (tasks s1))
      by (cbn; by rewrite insert_insert_eq).
    apply (ok_field s1 l _ p (informed c id y)); [done|done|apply lookup_insert_eq|..];
      unfold told; by destruct (t_state _ =? _). }
  assert (E2 : (let! y := task_at p in
       if t_state y =? TASK_STATE_WAITING_VFORK then set_task p (set_state TASK_STATE_READY) else ret tt) s1 = Ok (tt, s2)).
  { erewrite bind_ok by (apply task_at_ok; [done|apply lookup_insert_eq]). unfold s2, told.
    destruct (t_state (informed c id y) =? TASK_STATE_WAITING_VFORK).
    - erewrite set_task_ok; [|done|apply lookup_insert_eq]. unfold with_tasks. cbn. by rewrite insert_insert_eq.
    - done. }
  assert (Ew : wakes s t x fl = (wake_tid x (t_world s2)).1 ++
    (close_wakes (infoFiles (infos x)) t fl (wake_tid x (t_world s2)).2).1).
  { unfold wakes. change (t_world s2) with (t_world s). by destruct (wake_tid x (t_world s)). }
  rewrite Ew in Hwk. apply Forall_app in Hwk as [Hwk1 Hwk2].
  destruct (wake_tid_ok s2 l _ x O2 Hwk1) as (s3 & E3 & O3 & Es3).
  destruct Hh as [[Hf0 Hf] [Hd0 Hd] Hfl Hpl Hfu Hpu].
  destruct (files_discard_ok s3 l _ (infoFiles (infos x)) t fl O3 Hf0) as (s4 & E4 & O4 & Es4);
    [by rewrite Es3|done|done|by rewrite Es3|].
  destruct (pd_discard_ok s4 (infoPd (infos x)) pd Hd0) as [w5 E5]; [by rewrite Es4, Es3|done|done|].
  set (s5 := with_world w5 _) in E5.
  assert (T5 : tasks s5 = woken (wakes s t x fl) (<[p := told c id y]> (tasks s))).
  { rewrite Ew, woken_app. cbn. by rewrite Es4, Es3. }
  exists a, c, s5. split_and!; [|exact Ht|exact Ht0|exact Hfresh|..].
  - unfold task_kill. erewrite bind_ok by (by apply (task_get_ok s l K id t)).
    rewrite (proj2 (Z.eqb_neq t 0)) by done. erewrite bind_ok by (by apply task_at_ok).
    rewrite Hni, Hxid. fold p. rewrite (proj2 (Z.eqb_neq p 0)) by done. cbn [negb andb].
    mrw E1. mrw E2. mrw E3. mrw E4. erewrite bind_ok by exact E5. reflexivity.
  - by apply (ok_outside s4).
  - exact T5.
  - rewrite T5, woken_lookup, lookup_insert_ne, Hx by done. case_decide; [by eexists|].
    exists (t_state x). by destruct x.
  - cbn. by rewrite Es4, Es3.
  - cbn. by rewrite Es4, Es3.
  - cbn. by rewrite Es4, Es3.
  - cbn. by rewrite Es4, Es3.
  - cbn. by rewrite Es4, Es3.
  - cbn. by rewrite Es4, Es3.
Qed.

(** C28: The end of a task.  [task_kill] finds the task, appends one record with
    its identifier and its code to the ended children of its parent, raises the
    count, makes SIGCHLD pending and wakes the parent exactly when it waits for
    this child or is suspended by vfork; it gives up the task's share of the
    descriptor table and of the address space, hands the task to the reaper and
    leaves it dead in the list.  No other record changes, and no other task except
    that those asleep on the futex of its thread identifier and those polling a file
    that is closed with it, tasks of the list, are made ready.  This is the first
    task to end since boot ([reaperTask] is empty): [second_kill_hangs] is the
    other case. *)
Theorem task_kill_reports s l K id r t x y fl pd :
  tasks_ok s l K -> 0 <= id < 2 ^ 32 -> found (tasks s) l id t -> tasks s !! t = Some x ->
  parent x ∈ l -> parent x <> t -> tasks s !! parent x = Some y -> noInformParent x = false ->
  reaperTask s = 0 -> zlen (K (parent x)) + 1 < 2 ^ 31 -> holds s x fl pd ->
  Forall (fun u => u ∈ l) (wakes s t x fl) ->
  exists a c s', task_kill id r s = Ok (negb (currentTask s =? t), s') /\
    tasks_ok s' l (upd K (parent x) (K (parent x) ++ [(a, id, u16 r)])) /\
    tasks s' = <[t := set_state TASK_STATE_DEAD x]>
      (woken (wakes s t x fl) (<[parent x := told c id y]> (tasks s))) /\
    info_files s' = leave_files (infoFiles (infos x)) fl (info_files s) /\
    info_pd s' = <[infoPd (infos x) := add_pd_users (-1) pd]> (info_pd s) /\
    info_fs s' = info_fs s /\ info_signals s' = info_signals s /\
    reaperTask s' = t /\ currentTask s' = currentTask s.
Proof.
  intros O Hid Hfound Hx Hp Hpt Hy Hni Hr Hb Hh Hwk.
  destruct (kill_before_reaper s l K id r t x y fl pd O Hid Hfound Hx Hp Hpt Hy Hni Hb Hh Hwk)
    as (a & c & s1 & E & Ht & Ht0 & _ & O1 & T1 & [v Hv] & F1 & P1 & Fs1 & Sg1 & R1 & C1).
  exists a, c, (with_tasks (<[t := set_state TASK_STATE_DEAD x]> (tasks s1)) (with_reaper t s1)).
  split_and!; [| | |done..].
  - rewrite E. erewrite bind_ok by (apply call_reaper_ok; [apply (to_reaper _ _ _ O1)|by rewrite R1]).
    erewrite bind_ok by (apply set_task_ok; [done|exact Hv]). cbn. by rewrite C1.
  - eapply (ok_field (with_reaper t s1) l _ t (set_state v x)); [by apply (ok_outside s1)|done|exact Hv|done|done].
  - cbn. by rewrite T1.
Qed.

(** Nobody takes the dead task over from the reaper's variable: the second task
    to end never gets past it. *)
Theorem second_kill_hangs s l K id r t x y fl pd :
  tasks_ok s l K -> 0 <= id < 2 ^ 32 -> found (tasks s) l id t -> tasks s !! t = Some x ->
  parent x ∈ l -> parent x <> t -> tasks s !! parent x = Some y -> noInformParent x = false ->
  reaperTask s <> 0 -> zlen (K (parent x)) + 1 < 2 ^ 31 -> holds s x fl pd ->
  Forall (fun u => u ∈ l) (wakes s t x fl) ->
  task_kill id r s = Hang.
Proof.
  intros O Hid Hfound Hx Hp Hpt Hy Hni Hr Hb Hh Hwk.
  destruct (kill_before_reaper s l K id r t x y fl pd O Hid Hfound Hx Hp Hpt Hy Hni Hb Hh Hwk)
    as (a & c & s1 & E & Ht & Ht0 & _ & O1 & T1 & _ & F1 & P1 & Fs1 & Sg1 & R1 & C1).
  rewrite E. unfold bind at 1. rewrite call_reaper_hangs; [done|apply (to_reaper _ _ _ O1)|by rewrite R1].
Qed.

(** ** Waiting *)

Lemma s32_u64 z : s32 (u64 z) = s32 z.
Proof.
  unfold s32, u64. f_equal. rewrite <- Zplus_mod_idemp_l.
  rewrite (Z.mod_mod_divide z (2 ^ 64) (2 ^ 32)) by (by exists (2 ^ 32)).
  by rewrite Zplus_mod_idemp_l.
Qed.

Lemma find_killed_ok s l K x q1 a r q2 pid :
  tasks_ok s l K -> currentTask s ∈ l -> tasks s !! currentTask s = Some x ->
  K (currentTask s) = q1 ++ (a, u64 pid, r) :: q2 -> Forall (fun k => k.1.2 <> u64 pid) q1 ->
  find_killed pid s = Ok (a, s).
Proof.
  set (t := currentTask s). intros O Ht Hx Hq Hn. destruct (to_live _ _ _ t O Ht) as [Ht0 _].
  destruct (to_kids _ _ _ O t x Ht Hx) as (Hl & L & _). destruct (kids_locks s t x Ht0 Hx Hl) as [La Lr].
  unfold find_killed. erewrite bind_ok by done. fold t. mrw La.
  assert (Es : LinkedListSearch (fun _ c => killed_pid c =? u64 pid)
    (mkLs (dsChildTerminated (kids x)) (killed s)) = Ok (a, mkLs (dsChildTerminated (kids x)) (killed s))).
  { pose proof (chain_fuel _ _ _ L) as Hf. rewrite Hq in Hf, L. rewrite fmap_app in Hf, L.
    unfold LinkedListSearch. do 2 erewrite bind_ok by done. destruct L as (_ & _ & Hc).
    rewrite length_app in Hf. cbn [fmap list_fmap length] in Hf.
    eapply search_cells_ok; [exact Hc|lia| |].
    - intros b z n ([[b' p'] r'] & [= -> ->] & Hin)%list_elem_of_fmap. rewrite Forall_forall in Hn.
      specialize (Hn _ Hin). apply Z.eqb_neq. exact Hn.
    - intros n. apply Z.eqb_eq. done. }
  erewrite bind_ok by (by eapply on_kids_ok). cbn [cells ll]. rewrite Hl, same_kids, insert_id by done.
  assert (with_killed (killed s) (with_tasks (tasks s) s) = s) as -> by (by destruct s).
  by mrw Lr.
Qed.

(** wait4 for a child that has ended.  It returns at once with the child's
    identifier and status and takes the child's first record, wherever it stands
    among the others, which keep their order; the count stays that of the
    records. *)
Theorem wait4_takes_record s l K x q1 a pid r q2 options :
  tasks_ok s l K -> currentTask s ∈ l -> tasks s !! currentTask s = Some x ->
  K (currentTask s) = q1 ++ (a, u64 pid, r) :: q2 -> Forall (fun k => k.1.2 <> u64 pid) q1 ->
  pid <> -1 -> -2147483648 <= pid < 2147483648 -> zlen (K (currentTask s)) < 2 ^ 31 ->
  exists c s', wait4_begin pid options s = Ok (Waited (u64 pid) (Some (wait_status r)), s') /\
    tasks_ok s' l (upd K (currentTask s) (q1 ++ q2)) /\
    tasks s' = <[currentTask s := set_kids (mkKids false c (zlen (q1 ++ q2))) x]> (tasks s) /\
    currentTask s' = currentTask s.
Proof.
  intros O Ht Hx Hq Hn Hp Hr Hb. destruct (to_live _ _ _ _ O Ht) as [Ht0 _].
  destruct (to_kids _ _ _ O _ x Ht Hx) as (Hl & _ & Hamnt).
  pose proof (find_killed_ok s l K x q1 a r q2 pid O Ht Hx Hq Hn) as Ef.
  destruct (record_cell _ _ _ _ _ _ _ _ _ _ O Ht Hx Hq) as [Ha0 _].
  destruct (wait4_finish_ok s l K x q1 a (u64 pid) r q2 O Ht Hx Hq Hb) as (c & h & Ew & O').
  cbv zeta in Ew, O'. exists c. eexists. split_and!; [|exact O'| |done].
  - unfold wait4_begin. erewrite bind_ok by done. erewrite bind_ok by (by apply task_at_ok).
    assert ((childrenTerminatedAmnt (kids x) =? 0) = false) as ->.
    { rewrite Hamnt, Hq, zlen_app, zlen_cons. pose proof (zlen_nonneg q1). pose proof (zlen_nonneg q2). lia. }
    erewrite bind_ok by done.
    rewrite (proj2 (Z.eqb_neq pid (-1))) by done. cbn [negb]. mrw Ef. rewrite (proj2 (Z.eqb_neq a 0)) by done.
    by rewrite Ew, s32_u64, s32_small.
  - cbn. rewrite Hamnt, Hq, !zlen_app, zlen_cons. do 3 f_equal. lia.
Qed.

(** The scheduler runs another task. *)
Definition switch_to (p : Z) s : T :=
  mkTs (tasks s) (firstTask s) p (dummyTask s) (reaperTask s) (LOCK_REAPER s) (TASK_LL_MODIFY s) (taskIdCurr s)
    (killed s) (info_fs s) (info_pd s) (info_files s) (info_signals s) (t_world s).

(** C29: An exit code reaches the parent.  When the running task exits, as the first
    task to end since boot ([reaperTask] is empty), it never returns; once the parent runs and waits for it, wait4 returns the child's
    identifier and the status made from the code, and the parent's records are
    those it had before. *)
Theorem exit_reaches_parent s l K x y fl pd code options :
  tasks_ok s l K -> found (tasks s) l (t_id (ids x)) (currentTask s) -> tasks s !! currentTask s = Some x ->
  0 <= t_id (ids x) < 2 ^ 31 -> parent x ∈ l -> parent x <> currentTask s -> tasks s !! parent x = Some y ->
  noInformParent x = false -> reaperTask s = 0 -> zlen (K (parent x)) + 1 < 2 ^ 31 -> holds s x fl pd ->
  Forall (fun u => u ∈ l) (wakes s (currentTask s) x fl) ->
  Forall (fun k => k.1.2 <> t_id (ids x)) (K (parent x)) ->
  exists s1 s2, syscallExitTask code s = Ok (false, s1) /\
    wait4_begin (t_id (ids x)) options (switch_to (parent x) s1) =
      Ok (Waited (t_id (ids x)) (Some (wait_status (u16 code))), s2) /\
    tasks_ok s2 l K.
Proof.
  intros O Hfound Hx Hid Hp Hpt Hy Hni Hr Hb Hh Hwk Hnone. set (t := currentTask s) in *. set (id := t_id (ids x)) in *.
  assert (Ht0 : t <> 0).
  { destruct Hfound as (l1 & l2 & E & _). eapply (to_live s l K t O). rewrite E. set_solver. }
  destruct (kill_before_reaper s l K id (u16 code) t x y fl pd O ltac:(lia) Hfound Hx Hp Hpt Hy Hni Hb Hh Hwk)
    as (a & c & s0 & E & Ht & _ & Hfresh & O0 & T0 & [v Hv] & _ & _ & _ & _ & R0 & C0).
  set (s1 := with_tasks (<[t := set_state TASK_STATE_DEAD x]> (tasks s0)) (with_reaper t s0)).
  set (p := parent x) in *.
  assert (O1 : tasks_ok s1 l (upd K p (K p ++ [(a, id, u16 (u16 code))]))).
  { eapply (ok_field (with_reaper t s0) l _ t (set_state v x)); [by apply (ok_outside s0)|done|exact Hv|done|done]. }
  assert (Eu : u16 (u16 code) = u16 code) by (unfold u16; by rewrite Z.mod_mod). rewrite Eu in O1.
  assert (O2 : tasks_ok (switch_to p s1) l (upd K p (K p ++ [(a, id, u16 code)]))) by (by apply (ok_outside s1)).
  assert (exists y1, tasks (switch_to p s1) !! p = Some y1) as [y1 Hy1] by apply (to_live _ _ _ p O2 Hp).
  assert (Hk : upd K p (K p ++ [(a, id, u16 code)]) p = K p ++ (a, u64 id, u16 code) :: []).
  { rewrite upd_same. by rewrite u64_small by lia. }
  assert (Hnone' : Forall (fun k => k.1.2 <> u64 id) (K p)) by (by rewrite u64_small by lia).
  assert (Hlen : zlen (upd K p (K p ++ [(a, id, u16 code)]) p) < 2 ^ 31) by (rewrite upd_same, zlen_app, zlen_cons; change (zlen (@nil kinfo)) with 0; lia).
  destruct (wait4_takes_record (switch_to p s1) l _ _ _ _ id _ _ options O2 Hp Hy1 Hk Hnone') as (c2 & s2 & Ew & O3 & _ & _);
    [lia|lia|exact Hlen|]. rewrite u64_small in Ew by lia. exists s1, s2. split_and!; [|exact Ew|].
  - unfold syscallExitTask, current_id. rewrite bind_assoc. erewrite bind_ok by done. rewrite bind_assoc.
    erewrite bind_ok by (by apply task_at_ok). erewrite bind_ok by done. fold id. rewrite u32_small by lia.
    rewrite E. erewrite bind_ok by (apply call_reaper_ok; [apply (to_reaper _ _ _ O0)|by rewrite R0]).
    erewrite bind_ok by (apply set_task_ok; [done|exact Hv]).
    cbn. rewrite C0. fold t. by rewrite Z.eqb_refl.
  - eapply ok_ext; [|exact O3]. intros u Hu. cbn [currentTask switch_to]. destruct (decide (u = p)) as [->|Hne].
    + by rewrite upd_same, app_nil_r.
    + by rewrite !upd_other.
Qed.

(** The signal of the child's end interrupts the wait for it: with the table of
    default actions as the kernel leaves it, a parent that blocked in wait4 and
    has not asked for SIGCHLD gets EINTR instead of its child. *)
Theorem blocked_wait_interrupted s c id y g pid :
  currentTask s <> 0 -> tasks s !! currentTask s = Some (told c id y) ->
  t_kernel (ids y) = false -> Z.testbit (sigBlock y) 17 = false ->
  infoSignals (infos y) <> 0 -> info_signals s !! infoSignals (infos y) = Some g ->
  signals g !!! 17%nat = SIG_DFL ->
  wait4_resume signalInternalDecisions pid s = Ok (Waited (ERR EINTR) None, s).
Proof.
  intros H0 Hx Hk Hb Hg0 Hg Hd. unfold wait4_resume. erewrite bind_ok by done.
  erewrite (bind_ok _ _ s true s); [done|]. unfold task_pending. erewrite bind_ok by (by apply task_at_ok).
  assert (exists st, told c id y = set_state st (informed c id y)) as [st ->].
  { unfold told. destruct (t_state (informed c id y) =? _); [by eexists|].
    exists (t_state (informed c id y)). by destruct y. }
  cbn [ids infos sigPending sigBlock set_state informed set_pending set_kids]. rewrite Hk.
  erewrite bind_ok by (unfold on_signals, part; by rewrite (deref_ok _ _ _ Hg0 Hg)).
  unfold ret. do 2 f_equal; [|by destruct s]. apply signals_pending_exact. split; [done|].
  exists 17. split; [unfold _NSIG; lia|]. unfold acts. cbn [sigPendingList sigBlockList sa_handlers].
  split_and!; [|done| |].
  - rewrite Z.lor_spec. apply orb_true_iff. by right.
  - change (Z.to_nat 17) with 17%nat. by rewrite Hd.
  - intros _. by vm_compute.
Qed.
End release.

(** ** A sample: a parent and its running child

    The sample's word for a thread identifier names the task that sleeps on it. *)

#[export] Instance sample_services : TaskServices Z := {|
  svc_new_pagedir := fun w => (w, w + 4096);
  svc_free_pagedir := fun _ w => w;
  svc_duplicate_user := fun _ _ w => w;
  svc_kernel_stack := fun w => (w + 65536, w + 65536);
  svc_copy_files := fun _ _ _ w => w;
  svc_close_files := fun _ _ w => ([], w);
  svc_wake_tid := fun a w => ([a], w);
|}.

Definition no_kids : TaskKids := mkKids false (mkLL LL_SIGNATURE_1 LL_SIGNATURE_2 KilledInfo_size 0) 0.
Definition sample_task (id st par nxt infos_base : Z) : Task :=
  mkTask (mkIds id 1 id 1 (-1) false) st 0 0 0 (mkInfos infos_base infos_base infos_base infos_base) false no_kids
    0 0 par nxt zero_context.
Definition ts0 : tsys Z :=
  mkTs (<[1000 := sample_task 1 TASK_STATE_READY 0 2000 10]> (<[2000 := sample_task 2 TASK_STATE_READY 1000 0 20]> ∅))
    1000 2000 1000 0 false 0 3 ∅
    (<[10 := mkFs false 1 [47] 18]> (<[20 := mkFs false 1 [47] 18]> ∅))
    (<[10 := mkPd false 1 0 0 0 0 4096]> (<[20 := mkPd false 1 0 0 0 0 8192]> ∅))
    (<[10 := mkFiles 0 1 1024 1024]> (<[20 := mkFiles 0 1 1024 1024]> ∅))
    (<[10 := mkSig false 1 (0, 0) (replicate 65 SIG_DFL)]> (<[20 := mkSig false 1 (0, 0) (replicate 65 SIG_DFL)]> ∅))
    0x100000.

Lemma no_kids_list h x : kids x = no_kids -> kids_list h x [].
Proof. intros E. unfold kids_list. rewrite E. split_and!; [done| |done]. split_and!; [done|constructor|done]. Qed.

Lemma ts0_ok : tasks_ok ts0 [1000; 2000] (fun _ => []).
Proof.
  split; [|repeat constructor; set_solver|done|done| |set_solver].
  - cbn. split_and!; [done..|]. eexists. split; [reflexivity|]. cbn. split_and!; [done..|]. eexists. by split.
  - intros t x [->|[->|[]%not_elem_of_nil]%elem_of_cons]%elem_of_cons; intros [= <-]; by apply no_kids_list.
Qed.

Lemma ts0_found : found (tasks ts0) [1000; 2000] 2 2000.
Proof.
  exists [1000], []. split_and!; [done|by eexists|]. intros u x ->%list_elem_of_singleton [= <-]. done.
Qed.

Lemma ts0_holds : holds ts0 (sample_task 2 TASK_STATE_READY 1000 0 20) (mkFiles 0 1 1024 1024) (mkPd false 1 0 0 0 0 8192).
Proof. by split. Qed.

(** The same with a third task, asleep on the child's thread identifier. *)
Definition child_task : Task := set_tidptr 3000 (sample_task 2 TASK_STATE_READY 1000 3000 20).
Definition joiner : Task := sample_task 3 10 1000 0 10.
Definition ts_join : tsys Z := with_tasks (<[2000 := child_task]> (<[3000 := joiner]> (tasks ts0))) ts0.

Lemma ts_join_ok : tasks_ok ts_join [1000; 2000; 3000] (fun _ => []).
Proof.
  split; [|repeat constructor; set_solver|done|done| |set_solver].
  - cbn. split_and!; [done..|]. eexists. split; [reflexivity|]. cbn. split_and!; [done..|]. eexists. split; [reflexivity|].
    cbn. split_and!; [done..|]. eexists. by split.
  - intros t x [->|[->|[->|[]%not_elem_of_nil]%elem_of_cons]%elem_of_cons]%elem_of_cons; intros [= <-]; by apply no_kids_list.
Qed.

Lemma ts_join_found : found (tasks ts_join) [1000; 2000; 3000] 2 2000.
Proof.
  exists [1000], [3000]. split_and!; [done|by eexists|]. intros u x ->%list_elem_of_singleton [= <-]. done.
Qed.

Lemma task_kill_reports_witness :
  exists a c s', task_kill 2 7 ts_join = Ok (false, s') /\
    tasks_ok s' [1000; 2000; 3000] (upd (fun _ => []) 1000 [(a, 2, 7)]) /\
    tasks s' !! 1000 = Some (told c 2 (sample_task 1 TASK_STATE_READY 0 2000 10)) /\
    tasks s' !! 3000 = Some (set_state TASK_STATE_READY joiner) /\ reaperTask s' = 2000.
Proof.
  destruct (task_kill_reports ts_join [1000; 2000; 3000] (fun _ => []) 2 7 2000 child_task
    (sample_task 1 TASK_STATE_READY 0 2000 10) (mkFiles 0 1 1024 1024) (mkPd false 1 0 0 0 0 8192) ts_join_ok) as (a & c & s' & E & O & T & _ & _ & _ & _ & R & _).
  - lia.
  - exact ts_join_found.
  - reflexivity.
  - left.
  - discriminate.
  - reflexivity.
  - reflexivity.
  - reflexivity.
  - vm_compute. reflexivity.
  - by split.
  - change (wakes _ _ _ _) with [3000]. repeat constructor.
  - exists a, c, s'. split_and!; [exact E|exact O|by rewrite T|by rewrite T|exact R].
Defined.

Lemma exit_reaches_parent_witness :
  exists s1 s2, syscallExitTask 7 ts0 = Ok (false, s1) /\
    wait4_begin 2 0 (switch_to 1000 s1) = Ok (Waited 2 (Some 0x700), s2) /\ tasks_ok s2 [1000; 2000] (fun _ => []).
Proof.
  apply (exit_reaches_parent ts0 [1000; 2000] (fun _ => []) (sample_task 2 TASK_STATE_READY 1000 0 20)
    (sample_task 1 TASK_STATE_READY 0 2000 10) (mkFiles 0 1 1024 1024) (mkPd false 1 0 0 0 0 8192) 7 0 ts0_ok ts0_found).
  - reflexivity.
  - cbn. lia.
  - left.
  - discriminate.
  - reflexivity.
  - reflexivity.
  - reflexivity.
  - vm_compute. reflexivity.
  - exact ts0_holds.
  - constructor.
  - constructor.
Defined.

(** ** Boundary cases *)

(** Children that neither run nor have ended are not counted: with its only
    child asleep, a parent is told that it has none. *)
Definition ts_asleep : tsys Z :=
  switch_to 1000 (with_tasks (<[2000 := sample_task 2 TASK_STATE_WAITING_CHILD 1000 0 20]> (tasks ts0)) ts0).

Theorem sleeping_child_is_no_child :
  wait4_begin (-1) 0 ts_asleep = Ok (Waited (ERR ECHILD) None, ts_asleep) /\
  wait4_begin 2 0 ts_asleep = Ok (Waited (ERR ECHILD) None, ts_asleep).
Proof. by split. Qed.

(** An exit code below 128 becomes the upper byte of the status; one of 128 or
    more becomes a signal number, whoever chose it. *)
Theorem exit_code_as_signal code :
  0 <= code < 65536 ->
  wait_status code = if code <? 128 then code * 256 else (code - 128) mod 256.
Proof.
  intros H. unfold wait_status. destruct (code <? 128) eqn:E.
  - change 0xff with (Z.ones 8). rewrite Z.land_ones by lia. rewrite Z.mod_small by lia. by rewrite Z.shiftl_mul_pow2.
  - change 0xff with (Z.ones 8). by rewrite Z.land_ones.
Qed.
