(* ===== verification/TaskFork.v ===== *)
(** * Fork

    The child [task_fork] adds to the list of tasks, and what becomes of the four
    structures tasks share: each is copied for the child or counted once more. *)

From S2P Require Import Prelude Bytes Heap FileTypes Spinlock LinkedList Syscalls Task TaskRecords TaskTheorems.

(** A structure after a fork: shared and counted, or a copy with one user. *)
Definition forked {A} (share : bool) (bump : A -> A) (copied : A -> A -> Prop) (h : gmap Z A) (old : Z) (o : A)
    (h' : gmap Z A) (new : Z) : Prop :=
  if share then new = old /\ h' = <[old := bump o]> h
  else new <> 0 /\ h !! new = None /\ exists c, h' = <[new := c]> h /\ copied o c.

Definition add_fs_users (d : Z) (x : TaskInfoFs) : TaskInfoFs := mkFs (LOCK_FS x) (fs_users x + d) (cwd x) (umask x).
Definition add_sig_users (d : Z) (x : TaskInfoSignal) : TaskInfoSignal :=
  mkSig (LOCK_SIGNAL x) (sig_users x + d) (itimerReal x) (signals x).

(** Copies: one user, no lock held, the fields that are inherited; the interval
    timer is not. *)
Definition fs_copied (o c : TaskInfoFs) : Prop := c = mkFs false 1 (cwd o) (umask o).
Definition pd_copied (o c : TaskInfoPagedir) : Prop :=
  exists dir, c = mkPd false 1 (heap_start o) (heap_end o) (mmap_start o) (mmap_end o) dir.
Definition files_copied (o c : TaskInfoFiles) : Prop := c = mkFiles 0 1 (rlimitFdsSoft o) (rlimitFdsHard o).
Definition sig_copied (o c : TaskInfoSignal) : Prop := c = mkSig false 1 (0, 0) (signals o).

Section fork.
Context {W : Type} `{!TaskServices W} `{!Allocator Task} `{!Allocator LLcell}.
Context `{!Allocator TaskInfoFs} `{!Allocator TaskInfoPagedir} `{!Allocator TaskInfoFiles} `{!Allocator TaskInfoSignal}.
Abbreviation T := (tsys W).
Implicit Types (s : T) (K : Z -> list kinfo).

(** ** Access to the two structures termination does not touch *)

Lemma on_fs_deref s f x : f <> 0 -> info_fs s !! f = Some x -> on_fs (deref f) s = Ok (x, s).
Proof. intros Hf Hx. unfold on_fs, part. rewrite (deref_ok _ _ _ Hf Hx). by destruct s. Qed.
Lemma on_fs_update s f x g : f <> 0 -> info_fs s !! f = Some x ->
  on_fs (update f g) s = Ok (tt, with_fs (<[f := g x]> (info_fs s)) s).
Proof. intros Hf Hx. unfold on_fs, part. by rewrite (update_ok _ _ _ _ Hf Hx). Qed.
Lemma on_signals_deref s f x : f <> 0 -> info_signals s !! f = Some x -> on_signals (deref f) s = Ok (x, s).
Proof. intros Hf Hx. unfold on_signals, part. rewrite (deref_ok _ _ _ Hf Hx). by destruct s. Qed.
Lemma on_signals_update s f x g : f <> 0 -> info_signals s !! f = Some x ->
  on_signals (update f g) s = Ok (tt, with_signals (<[f := g x]> (info_signals s)) s).
Proof. intros Hf Hx. unfold on_signals, part. by rewrite (update_ok _ _ _ _ Hf Hx). Qed.

Lemma fs_locks s f x :
  f <> 0 -> info_fs s !! f = Some x -> LOCK_FS x = false ->
  fs_lock spinlock_acquire f s = Ok (tt, s) /\ fs_lock spinlock_release f s = Ok (tt, s).
Proof.
  intros Hf Hx Hl. unfold fs_lock. split.
  all: erewrite bind_ok by (by apply on_fs_deref); rewrite ?Hl; erewrite bind_ok by done.
  all: erewrite on_fs_update by done; unfold IS_NOT_LOCKED; rewrite insert_id; [by destruct s|].
  all: rewrite Hx; destruct x; cbn in *; by subst.
Qed.
Lemma sig_locks s f x :
  f <> 0 -> info_signals s !! f = Some x -> LOCK_SIGNAL x = false ->
  sig_lock spinlock_acquire f s = Ok (tt, s) /\ sig_lock spinlock_release f s = Ok (tt, s).
Proof.
  intros Hf Hx Hl. unfold sig_lock. split.
  all: erewrite bind_ok by (by apply on_signals_deref); rewrite ?Hl; erewrite bind_ok by done.
  all: erewrite on_signals_update by done; unfold IS_NOT_LOCKED; rewrite insert_id; [by destruct s|].
  all: rewrite Hx; destruct x; cbn in *; by subst.
Qed.

(** ** The four structures *)

Lemma fork_fs_ok s flags old o :
  old <> 0 -> info_fs s !! old = Some o -> LOCK_FS o = false -> 0 <= fs_users o < 2 ^ 31 - 1 ->
  exists new h, fork_fs flags old s = Ok (new, with_fs h s) /\
    forked (flag flags CLONE_FS) (add_fs_users 1) fs_copied (info_fs s) old o h new.
Proof.
  intros Hf Ho Hl Hu. unfold fork_fs, forked. destruct (fs_locks s old o Hf Ho Hl) as [La Lr].
  destruct (flag flags CLONE_FS); cbn [negb].
  - exists old, (<[old := add_fs_users 1 o]> (info_fs s)). split; [|split; reflexivity]. mrw La. unfold fs_count.
    erewrite bind_ok by (by apply on_fs_update). cbv beta. rewrite s32_small by lia.
    match goal with |- bind _ _ ?st = _ => edestruct (fs_locks st old) as [_ Lr'] end;
      [done|apply lookup_insert_eq|exact Hl|]. by mrw Lr'.
  - pose proof (malloc_fresh (info_fs s)) as Hn. pose proof (malloc_nonnull (info_fs s)) as Hn0.
    set (new := malloc (info_fs s)) in *. assert (old <> new) by congruence.
    exists new. eexists. split; [|split_and!; [done..|eexists; split; [reflexivity|done]]].
    unfold taskInfoFsClone, taskInfoFsAllocate. erewrite bind_ok by (unfold on_fs, part; by rewrite allocate_ok). fold new.
    match goal with |- bind _ _ ?st = _ => edestruct (fs_locks st old o) as [La' _] end;
      [done|cbn; by rewrite lookup_insert_ne|exact Hl|]. mrw La'.
    erewrite bind_ok by (apply on_fs_deref; [done|cbn; by rewrite lookup_insert_ne]).
    erewrite bind_ok by (apply on_fs_update; [done|apply lookup_insert_eq]). cbn [info_fs with_fs]. rewrite insert_insert_eq.
    match goal with |- bind _ _ ?st = _ => edestruct (fs_locks st old o) as [_ Lr'] end;
      [done|cbn; by rewrite lookup_insert_ne|exact Hl|]. by mrw Lr'.
Qed.

Lemma with_pd_over s h h' w : with_pd h (with_world w (with_pd h' s)) = with_world w (with_pd h s).
Proof. done. Qed.

Lemma with_world_twice s w w' : with_world w (with_world w' s) = with_world w s.
Proof. done. Qed.

Lemma pd_allocate_ok s dir w :
  svc_new_pagedir (t_world s) = (dir, w) ->
  taskInfoPdAllocate true s = Ok (malloc (info_pd s), with_world w (with_pd (<[malloc (info_pd s) :=
    mkPd false 1 USER_HEAP_START USER_HEAP_START USER_MMAP_START USER_MMAP_START dir]> (info_pd s)) s)).
Proof.
  intros Ed. pose proof (malloc_nonnull (info_pd s)) as Hn0. unfold taskInfoPdAllocate.
  erewrite bind_ok by (unfold on_pd, part; by rewrite allocate_ok). rewrite !bind_assoc.
  erewrite bind_ok by (unfold service_value; cbn; by rewrite Ed).
  erewrite bind_ok by (apply on_pd_update; [done|apply lookup_insert_eq]). rewrite with_pd_over.
  erewrite bind_ok by (apply on_pd_update; [done|apply lookup_insert_eq]). rewrite with_pd_over.
  cbn [info_pd with_pd with_world LOCK_PD pd_users pagedir]. by rewrite !insert_insert_eq.
Qed.

Lemma fork_pd_ok s flags old o :
  old <> 0 -> info_pd s !! old = Some o -> LOCK_PD o = false -> 0 <= pd_users o < 2 ^ 31 - 1 ->
  exists new h w, fork_pd flags old s = Ok (new, with_world w (with_pd h s)) /\
    forked (flag flags CLONE_VM) (add_pd_users 1) pd_copied (info_pd s) old o h new.
Proof.
  intros Hf Ho Hl Hu. unfold fork_pd, forked. destruct (pd_locks s old o Hf Ho Hl) as [La _].
  destruct (flag flags CLONE_VM); cbn [negb].
  - exists old, (<[old := add_pd_users 1 o]> (info_pd s)), (t_world s). split; [|split; reflexivity]. mrw La.
    unfold pd_count. erewrite bind_ok by (by apply on_pd_update). cbv beta. rewrite s32_small by lia.
    match goal with |- bind _ _ ?st = _ => edestruct (pd_locks st old) as [_ Lr'] end;
      [done|apply lookup_insert_eq|exact Hl|]. mrw Lr'. by destruct s.
  - pose proof (malloc_fresh (info_pd s)) as Hn. pose proof (malloc_nonnull (info_pd s)) as Hn0.
    set (new := malloc (info_pd s)) in *. assert (old <> new) by congruence.
    destruct (svc_new_pagedir (t_world s)) as [dir w1] eqn:Ed.
    exists new, (<[new := mkPd false 1 (heap_start o) (heap_end o) (mmap_start o) (mmap_end o) dir]> (info_pd s)).
    eexists. split; [|split_and!; [done..|eexists; split; [reflexivity|by eexists]]].
    unfold taskInfoPdClone. erewrite bind_ok by (by apply pd_allocate_ok). fold new.
    match goal with |- bind _ _ ?st = _ => edestruct (pd_locks st old o) as [La' _] end;
      [done|cbn; by rewrite lookup_insert_ne|exact Hl|]. mrw La'.
    erewrite bind_ok by (apply on_pd_deref; [done|cbn; by rewrite lookup_insert_ne]).
    erewrite bind_ok by (apply on_pd_deref; [done|apply lookup_insert_eq]). unfold service, modify at 1. erewrite bind_ok by reflexivity. rewrite with_world_twice.
    erewrite bind_ok by (apply on_pd_update; [done|apply lookup_insert_eq]). rewrite with_pd_over.
    cbn [info_pd with_pd with_world LOCK_PD pd_users pagedir]. rewrite insert_insert_eq.
    match goal with |- bind _ _ ?st = _ => edestruct (pd_locks st old o) as [_ Lr'] end;
      [done|cbn; by rewrite !lookup_insert_ne|exact Hl|]. mrw Lr'. reflexivity.
Qed.

Lemma fork_signals_ok s flags old o :
  old <> 0 -> info_signals s !! old = Some o -> LOCK_SIGNAL o = false -> 0 <= sig_users o < 2 ^ 31 - 1 ->
  exists new h, fork_signals flags old s = Ok (new, with_signals h s) /\
    forked (flag flags CLONE_SIGHAND) (add_sig_users 1) sig_copied (info_signals s) old o h new.
Proof.
  intros Hf Ho Hl Hu. unfold fork_signals, forked. destruct (sig_locks s old o Hf Ho Hl) as [La Lr].
  destruct (flag flags CLONE_SIGHAND); cbn [negb].
  - exists old, (<[old := add_sig_users 1 o]> (info_signals s)). split; [|split; reflexivity]. mrw La. unfold sig_count.
    erewrite bind_ok by (by apply on_signals_update). cbv beta. rewrite s32_small by lia.
    match goal with |- bind _ _ ?st = _ => edestruct (sig_locks st old) as [_ Lr'] end;
      [done|apply lookup_insert_eq|exact Hl|]. by mrw Lr'.
  - pose proof (malloc_fresh (info_signals s)) as Hn. pose proof (malloc_nonnull (info_signals s)) as Hn0.
    set (new := malloc (info_signals s)) in *. assert (old <> new) by congruence.
    exists new. eexists. split; [|split_and!; [done..|eexists; split; [reflexivity|done]]].
    unfold taskInfoSignalClone, taskInfoSignalAllocate.
    erewrite bind_ok by (unfold on_signals, part; by rewrite allocate_ok). fold new.
    match goal with |- bind _ _ ?st = _ => edestruct (sig_locks st old o) as [La' _] end;
      [done|cbn; by rewrite lookup_insert_ne|exact Hl|]. mrw La'.
    erewrite bind_ok by (apply on_signals_deref; [done|cbn; by rewrite lookup_insert_ne]).
    erewrite bind_ok by (apply on_signals_update; [done|apply lookup_insert_eq]). cbn [info_signals with_signals]. rewrite insert_insert_eq.
    match goal with |- bind _ _ ?st = _ => edestruct (sig_locks st old o) as [_ Lr'] end;
      [done|cbn; by rewrite lookup_insert_ne|exact Hl|]. by mrw Lr'.
Qed.

Lemma with_files_twice s h h' : with_files h (with_files h' s) = with_files h s.
Proof. done. Qed.

Lemma files_copy_ok s old new o n coe :
  old <> 0 -> new <> 0 -> old <> new -> info_files s !! old = Some o -> info_files s !! new = Some n ->
  WLOCK_FILES o = 0 -> WLOCK_FILES n = 0 ->
  task_files_copy old new coe s = Ok (tt, with_world (svc_copy_files old new coe (t_world s))
    (with_files (<[new := mkFiles 0 (files_users n) (rlimitFdsSoft o) (rlimitFdsHard o)]> (info_files s)) s)).
Proof.
  intros Ho0 Hn0 Hne Ho Hn Hlo Hln. unfold task_files_copy.
  erewrite bind_ok by (apply (files_lock_ok _ _ _ o 1); [done|done|by rewrite Hlo]).
  erewrite bind_ok by (apply (files_lock_ok _ _ new n (-1)); [done|cbn; by rewrite lookup_insert_ne|by rewrite Hln]).
  rewrite with_files_twice. cbn [info_files with_files].
  erewrite bind_ok by (apply on_files_deref; [done|cbn; rewrite lookup_insert_ne by done; apply lookup_insert_eq]).
  erewrite bind_ok by (apply on_files_update; [done|apply lookup_insert_eq]).
  rewrite with_files_twice. cbn [info_files with_files WLOCK_FILES files_users rlimitFdsSoft rlimitFdsHard].
  rewrite insert_insert_eq.
  erewrite bind_ok by (eapply files_lock_ok; [done|apply lookup_insert_eq|reflexivity]).
  rewrite with_files_twice. cbn [info_files with_files WLOCK_FILES files_users rlimitFdsSoft rlimitFdsHard].
  rewrite insert_insert_eq. erewrite bind_ok by reflexivity.
  erewrite files_lock_ok; [|done|cbn; rewrite lookup_insert_ne by done; apply lookup_insert_eq|reflexivity].
  unfold with_files, with_world. cbn. do 3 f_equal. rewrite (insert_insert_ne _ old new), insert_insert_eq by done.
  f_equal. apply insert_id. rewrite Ho. destruct o. cbn in *. by subst.
Qed.

Lemma fork_files_ok s flags old o :
  old <> 0 -> info_files s !! old = Some o -> WLOCK_FILES o = 0 -> 0 <= files_users o < 2 ^ 31 - 1 ->
  exists new h w, fork_files flags old s = Ok (new, with_world w (with_files h s)) /\
    forked (flag flags CLONE_FILES) (add_files_users 1) files_copied (info_files s) old o h new.
Proof.
  intros Hf Ho Hl Hu. unfold fork_files, forked. destruct (flag flags CLONE_FILES); cbn [negb].
  - exists old, (<[old := add_files_users 1 o]> (info_files s)), (t_world s). split; [|split; reflexivity].
    erewrite bind_ok by (apply (files_lock_ok _ _ _ o (-1)); [done|done|by rewrite Hl]).
    unfold files_count. erewrite bind_ok by (apply on_files_update; [done|apply lookup_insert_eq]).
    erewrite bind_ok by (eapply files_lock_ok; [done|apply lookup_insert_eq|reflexivity]).
    unfold ret, with_files, with_world, add_files_users. cbn. by rewrite !insert_insert_eq, s32_small, Hl by lia.
  - pose proof (malloc_fresh (info_files s)) as Hn. pose proof (malloc_nonnull (info_files s)) as Hn0.
    set (new := malloc (info_files s)) in *. assert (old <> new) by congruence.
    exists new, (<[new := mkFiles 0 1 (rlimitFdsSoft o) (rlimitFdsHard o)]> (info_files s)). eexists.
    split; [|split_and!; [done..|eexists; split; [reflexivity|done]]].
    unfold taskInfoFilesAllocate. erewrite bind_ok by (unfold on_files, part; by rewrite allocate_ok). fold new.
    erewrite bind_ok by (apply (files_copy_ok _ old new o); [done..|cbn; by rewrite lookup_insert_ne|apply lookup_insert_eq|done|done]).
    unfold ret, with_files, with_world. cbn. by rewrite insert_insert_eq.
Qed.

(** ** The list *)

Lemma last_task_ok s p l0 z fuel :
  tchain (tasks s) p (l0 ++ [z]) -> (length l0 < fuel)%nat -> last_task fuel p s = Ok (z, s).
Proof.
  revert p fuel. induction l0 as [|u l0 IH]; intros p fuel Hc Hf; (destruct fuel as [|fuel]; [cbn in Hf; lia|]); cbn [last_task].
  - destruct Hc as (-> & Hz & x & Hx & Hn). rewrite (proj2 (Z.eqb_neq z 0)) by done.
    erewrite bind_ok by (by apply task_at_ok). cbn in Hn. by rewrite Hn.
  - destruct Hc as (-> & Hu & x & Hx & Hc). rewrite (proj2 (Z.eqb_neq u 0)) by done.
    erewrite bind_ok by (by apply task_at_ok).
    assert (t_next x <> 0) as Hn.
    { destruct l0 as [|v l0]; cbn in Hc; destruct Hc as (-> & ? & _); done. }
    rewrite (proj2 (Z.eqb_neq _ 0) Hn). apply IH; [done|cbn in Hf; lia].
Qed.

Lemma tchain_append h p l0 z xz t y :
  tchain h p (l0 ++ [z]) -> NoDup (l0 ++ [z]) -> h !! z = Some xz -> h !! t = None -> t <> 0 -> t_next y = 0 ->
  tchain (<[z := set_t_next t xz]> (<[t := y]> h)) p (l0 ++ [z; t]).
Proof.
  intros Hc Hd Hz Ht Ht0 Hy. assert (z <> t) by congruence. revert p Hc. induction l0 as [|u l0 IH]; intros p; cbn.
  - intros (-> & Hz0 & x & Hx & _). split_and!; [done..|]. rewrite lookup_insert_eq. eexists. split; [done|]. cbn.
    split_and!; [done..|]. rewrite lookup_insert_ne, lookup_insert_eq by done. by eexists.
  - intros (-> & Hu0 & x & Hx & Hc). inversion_clear Hd as [|? ? Hnot Hd']. split_and!; [done..|]. exists x. split; [|by apply IH].
    rewrite !lookup_insert_ne; [done|congruence|]. intros ->. apply Hnot. set_solver.
Qed.

Lemma task_list_allocate_ok s l0 z xz K :
  tasks_ok s (l0 ++ [z]) K -> tasks s !! z = Some xz ->
  task_list_allocate s = Ok (malloc (tasks s),
    with_tasks (<[z := set_t_next (malloc (tasks s)) xz]> (<[malloc (tasks s) := zero_task]> (tasks s))) s).
Proof.
  intros O Hz. pose proof (malloc_fresh (tasks s)) as Hn. pose proof (malloc_nonnull (tasks s)) as Hn0.
  set (t := malloc (tasks s)) in *. destruct (to_live _ _ _ z O) as [Hz0 _]; [set_solver|].
  unfold task_list_allocate.
  erewrite bind_ok by (apply ll_modify_ok; rewrite (to_lock _ _ _ O); reflexivity).
  erewrite bind_ok by (unfold on_tasks, part; by rewrite allocate_ok). cbn [tasks with_ll_lock]. fold t.
  do 2 erewrite bind_ok by reflexivity. cbn [firstTask with_tasks with_ll_lock].
  erewrite bind_ok.
  2:{ apply (last_task_ok _ _ l0 z).
      - eapply tchain_frame; [|apply (to_chain _ _ _ O)]. intros u Hu. cbn. rewrite lookup_insert_ne; [done|].
        intros <-. destruct (to_live _ _ _ _ O Hu) as [_ [? ?]]. congruence.
      - pose proof (chain_length _ _ _ O) as Hf. rewrite length_app in Hf. unfold task_fuel in *. cbn [tasks with_tasks].
        rewrite map_size_insert_None by done. cbn in Hf. lia. }
  rewrite (proj2 (Z.eqb_neq z 0)) by done. erewrite bind_ok by done.
  erewrite bind_ok by (apply set_task_ok; [done|cbn; rewrite lookup_insert_ne by congruence; exact Hz]).
  erewrite bind_ok by (apply ll_modify_ok; reflexivity). unfold ret. do 2 f_equal.
  unfold with_tasks, with_ll_lock. cbn. f_equal. symmetry. apply (to_lock _ _ _ O).
Qed.

(** ** The theorem *)

(** The running task's structures are in place and can be counted once more. *)
Record shares s (x : Task) (fs : TaskInfoFs) (pd : TaskInfoPagedir) (fl : TaskInfoFiles) (sg : TaskInfoSignal) : Prop := {
  sh_fs : infoFs (infos x) <> 0 /\ info_fs s !! infoFs (infos x) = Some fs /\ LOCK_FS fs = false /\ 0 <= fs_users fs < 2 ^ 31 - 1;
  sh_pd : infoPd (infos x) <> 0 /\ info_pd s !! infoPd (infos x) = Some pd /\ LOCK_PD pd = false /\ 0 <= pd_users pd < 2 ^ 31 - 1;
  sh_files : infoFiles (infos x) <> 0 /\ info_files s !! infoFiles (infos x) = Some fl /\ WLOCK_FILES fl = 0 /\
    0 <= files_users fl < 2 ^ 31 - 1;
  sh_sig : infoSignals (infos x) <> 0 /\ info_signals s !! infoSignals (infos x) = Some sg /\ LOCK_SIGNAL sg = false /\
    0 <= sig_users sg < 2 ^ 31 - 1;
}.

(** Registers a fork leaves as they were. *)
Definition kept_register (r : reg) : Prop :=
  match r with R_rax | R_rip | R_cs | R_ds | R_rflags | R_usermode_rsp | R_usermode_ss => False | _ => True end.

(** The new task [y] against the running task [x]. *)
Record child_of s (x : Task) (flags : Z) (cpu : reg -> Z) (rsp : Z) (spinup : bool) (fpu : list Z) (csr : Z) (y : Task) : Prop := {
  ch_id : t_id (ids y) = taskIdCurr s;
  ch_group : tgid (ids y) = if flag flags CLONE_THREAD then tgid (ids x) else s32 (taskIdCurr s);
  ch_session : pgid (ids y) = pgid (ids x) /\ sid (ids y) = sid (ids x) /\ ctrlPty (ids y) = ctrlPty (ids x);
  ch_kernel : t_kernel (ids y) = t_kernel (ids x);
  ch_state : t_state y = if spinup then TASK_STATE_READY else TASK_STATE_CREATED;
  ch_parent : parent y = currentTask s /\ noInformParent y = false /\ t_next y = 0;
  ch_signals : sigPending y = 0 /\ sigBlock y = sigBlock x;
  ch_zero : c_registers (context y) R_rax = 0;
  ch_resume : c_registers (context y) R_rip = cpu R_rcx /\ c_registers (context y) R_rflags = cpu R_r11 /\
    c_registers (context y) R_usermode_rsp = rsp;
  ch_user : c_registers (context y) R_cs = Z.lor GDT_USER_CODE DPL_USER /\
    c_registers (context y) R_ds = Z.lor GDT_USER_DATA DPL_USER /\ c_registers (context y) R_usermode_ss = Z.lor GDT_USER_DATA DPL_USER;
  ch_registers : forall r, kept_register r -> c_registers (context y) r = cpu r;
  ch_context : fsbase (context y) = fsbase (context x) /\ gsbase (context y) = gsbase (context x) /\ term (context y) = term (context x) /\
    cmdline (context y) = cmdline (context x) /\ execname (context y) = execname (context x);
  ch_fpu : fpuenv (context y) = fpu /\ mxcsr (context y) = csr;
}.

(** Every other task: the last gets a successor, the running one its floating
    point state. *)
Definition bystander (cur last t : Z) (fpu : list Z) (csr : Z) (u : Z) (y : Task) : Task :=
  let y := if u =? last then set_t_next t y else y in
  if u =? cur then save_fpu fpu csr y else y.

(** The tables of tasks after the new one has been filled in. *)
Lemma bystanders (h : gmap Z Task) cur last t xz x y z fpu csr :
  h !! last = Some xz -> h !! cur = Some x -> h !! t = None ->
  let h1 := <[last := set_t_next t xz]> (<[t := z]> h) in
  exists x1, h1 !! cur = Some x1 /\ x1 = (if cur =? last then set_t_next t x else x) /\
    forall u, <[t := y]> (<[cur := save_fpu fpu csr x1]> h1) !! u =
      if decide (u = t) then Some y else bystander cur last t fpu csr u <$> h !! u.
Proof.
  intros Hl Hc Ht h1. exists (if cur =? last then set_t_next t x else x). split_and!; [|done|].
  - unfold h1. destruct (Z.eqb_spec cur last) as [->|Hne].
    + rewrite lookup_insert_eq. congruence.
    + rewrite !lookup_insert_ne by congruence. done.
  - intros u. destruct (decide (u = t)) as [->|Hut]; [apply lookup_insert_eq|]. rewrite lookup_insert_ne by done.
    unfold bystander, h1. destruct (decide (u = cur)) as [->|Huc].
    + rewrite lookup_insert_eq, Hc, Z.eqb_refl. by destruct (cur =? last).
    + rewrite lookup_insert_ne by done. rewrite (proj2 (Z.eqb_neq u cur)) by done. destruct (Z.eqb_spec u last) as [->|Hul].
      * by rewrite lookup_insert_eq, Hl.
      * rewrite !lookup_insert_ne by done. by destruct (h !! u).
Qed.

Lemma bystander_same cur last t fpu csr u y :
  kids (bystander cur last t fpu csr u y) = kids y /\
  t_next (bystander cur last t fpu csr u y) = if u =? last then t else t_next y.
Proof. unfold bystander. by destruct (u =? last), (u =? cur). Qed.

(** A task added behind the last. *)
Lemma ok_append s s' l0 z K t y xz cur fpu csr :
  tasks_ok s (l0 ++ [z]) K -> tasks s !! z = Some xz -> tasks s !! t = None -> t <> 0 ->
  (forall u, tasks s' !! u = if decide (u = t) then Some y else bystander cur z t fpu csr u <$> tasks s !! u) ->
  firstTask s' = firstTask s -> TASK_LL_MODIFY s' = 0 -> LOCK_REAPER s' = false -> killed s' = killed s ->
  t_next y = 0 -> kids y = mkKids false (mkLL LL_SIGNATURE_1 LL_SIGNATURE_2 KilledInfo_size 0) 0 ->
  tasks_ok s' ((l0 ++ [z]) ++ [t]) (upd K t []).
Proof.
  intros O Hz Ht Ht0 Hh Ef El Er Ek Hy Hk.
  assert (Hnot : t ∉ l0 ++ [z]) by (intros Hin; destruct (to_live _ _ _ _ O Hin) as [_ [? ?]]; congruence).
  assert (Hm : forall u, u ∈ (l0 ++ [z]) ++ [t] -> u = t \/ u <> t /\ u ∈ l0 ++ [z]) by set_solver.
  split; [| |done|done| |].
  - rewrite <- app_assoc. cbn [app]. rewrite Ef.
    eapply tchain_frame; [|apply (tchain_append _ _ _ _ xz t y (to_chain _ _ _ O) (to_nodup _ _ _ O) Hz Ht Ht0 Hy)].
    intros u Hu. rewrite Hh. destruct (decide (u = t)) as [->|Hut].
    + rewrite lookup_insert_ne, lookup_insert_eq by congruence. done.
    + destruct (decide (u = z)) as [->|Huz].
      * rewrite lookup_insert_eq, Hz. cbn. by rewrite (proj2 (bystander_same _ _ _ _ _ _ _)), Z.eqb_refl.
      * rewrite !lookup_insert_ne by done. destruct (tasks s !! u); [|done]. cbn.
        by rewrite (proj2 (bystander_same _ _ _ _ _ _ _)), (proj2 (Z.eqb_neq u z)).
  - apply NoDup_app. split_and!; [apply O|set_solver|apply NoDup_singleton].
  - intros u v Hu Hv. rewrite Ek. rewrite Hh in Hv. destruct (decide (u = t)) as [->|Hut].
    + injection Hv as <-. rewrite upd_same. unfold kids_list. rewrite Hk. split_and!; [done| |done].
      split_and!; [done|constructor|done].
    + apply fmap_Some in Hv as (w & Hw & ->). rewrite upd_other by done.
      eapply kids_list_frame; [apply bystander_same|done|]. apply (to_kids _ _ _ O); [set_solver|done].
  - intros u v a Hu Hv. unfold upd.
    destruct (Hm u Hu) as [->|[Hut Hu']], (Hm v Hv) as [->|[Hvt Hv']]; [done|..].
    + rewrite decide_True by done. cbn. set_solver.
    + rewrite (decide_True (P := t = t)) by done. cbn. set_solver.
    + rewrite !decide_False by done. by apply (to_apart _ _ _ O).
Qed.

Lemma fill_child s t f y0 spinup :
  t <> 0 -> tasks s !! t = Some zero_task -> f zero_task = y0 -> kids y0 = kids zero_task ->
  let y1 := set_kids (mkKids false (mkLL LL_SIGNATURE_1 LL_SIGNATURE_2 KilledInfo_size 0) 0) y0 in
  (set_task t f ;;; on_kids t (LinkedListInit KilledInfo_size) ;;;
   (if spinup : bool then task_create_finish t else ret tt) ;;; ret t) s =
  Ok (t, with_tasks (<[t := if spinup then set_state TASK_STATE_READY y1 else y1]> (tasks s)) s).
Proof.
  intros Ht Hz <- Hk y1. erewrite bind_ok by (by apply set_task_ok).
  erewrite bind_ok by (eapply on_kids_ok; [done|apply lookup_insert_eq|rewrite Hk; reflexivity]). rewrite Hk. cbn [cells ll].
  destruct spinup.
  - erewrite bind_ok by (apply set_task_ok; [done|apply lookup_insert_eq]).
    unfold ret, with_tasks, with_killed. cbn. by rewrite !insert_insert_eq.
  - erewrite bind_ok by done. unfold ret, with_tasks, with_killed. cbn. by rewrite !insert_insert_eq.
Qed.

(** C27: Fork.  [task_fork] puts one new task behind the last: a child of the
    running task with the next identifier, its group, session, terminal, blocked
    signals and program, no pending signal and no ended child, resuming behind the
    system call with 0 in rax.  Each of the four structures is shared with one
    more user when the flag asks for it and copied with one user otherwise.  No
    other task changes but for the link of the last and the saved floating point
    state of the running one. *)
Theorem task_fork_adds_child s l0 z K x fs pd fl sg cpu rsp flags spinup fpu csr :
  tasks_ok s (l0 ++ [z]) K -> currentTask s ∈ l0 ++ [z] -> tasks s !! currentTask s = Some x -> shares s x fs pd fl sg ->
  exists t y s', task_fork cpu rsp flags spinup fpu csr s = Ok (t, s') /\
    tasks s !! t = None /\ tasks_ok s' ((l0 ++ [z]) ++ [t]) (upd K t []) /\
    child_of s x flags cpu rsp spinup fpu csr y /\
    (forall u, tasks s' !! u = if decide (u = t) then Some y else bystander (currentTask s) z t fpu csr u <$> tasks s !! u) /\
    forked (flag flags CLONE_VM) (add_pd_users 1) pd_copied (info_pd s) (infoPd (infos x)) pd (info_pd s') (infoPd (infos y)) /\
    forked (flag flags CLONE_FS) (add_fs_users 1) fs_copied (info_fs s) (infoFs (infos x)) fs (info_fs s') (infoFs (infos y)) /\
    forked (flag flags CLONE_FILES) (add_files_users 1) files_copied (info_files s) (infoFiles (infos x)) fl
      (info_files s') (infoFiles (infos y)) /\
    forked (flag flags CLONE_SIGHAND) (add_sig_users 1) sig_copied (info_signals s) (infoSignals (infos x)) sg
      (info_signals s') (infoSignals (infos y)) /\
    taskIdCurr s' = u64 (taskIdCurr s + 1) /\ currentTask s' = currentTask s.
Proof.
  intros O Hcur Hx [(F0 & F1 & F2 & F3) (P0 & P1 & P2 & P3) (L0 & L1 & L2 & L3) (S0 & S1 & S2 & S3)].
  destruct (to_live _ _ _ _ O Hcur) as [Hc0 _]. destruct (to_live _ _ _ z O) as [_ [xz Hz]]; [set_solver|].
  pose proof (malloc_fresh (tasks s)) as Ht. pose proof (malloc_nonnull (tasks s)) as Ht0.
  assert (Hct : currentTask s <> malloc (tasks s)) by congruence. assert (Hzt : z <> malloc (tasks s)) by congruence.
  pose proof (task_list_allocate_ok s l0 z xz K O Hz) as E1. set (t := malloc (tasks s)) in *. set (cur := currentTask s) in *.
  set (s1 := with_tasks _ s) in E1.
  destruct (fork_pd_ok s1 flags _ pd P0 P1 P2 P3) as (npd & hpd & wpd & E2 & Fpd). set (s2 := with_world wpd _) in E2.
  set (s3 := with_id_curr (u64 (taskIdCurr s + 1)) s2).
  destruct (svc_kernel_stack (t_world s3)) as [tss w4] eqn:E4. set (s4 := with_world w4 s3).
  destruct (svc_kernel_stack (t_world s4)) as [sysc w5] eqn:E5. set (s5 := with_world w5 s4).
  destruct (fork_fs_ok s5 flags _ fs F0 F1 F2 F3) as (nfs & hfs & E6 & Ffs). set (s6 := with_fs hfs s5) in E6.
  destruct (fork_files_ok s6 flags _ fl L0 L1 L2 L3) as (nfl & hfl & wfl & E7 & Ffl). set (s7 := with_world wfl _) in E7.
  destruct (fork_signals_ok s7 flags _ sg S0 S1 S2 S3) as (nsg & hsg & E8 & Fsg). set (s8 := with_signals hsg s7) in E8.
  pose (i := mkInfos nfs npd nfl nsg).
  pose (y0 := fork_child x cur (taskIdCurr s) i tss sysc cpu rsp flags fpu csr zero_task).
  pose (y1 := set_kids (mkKids false (mkLL LL_SIGNATURE_1 LL_SIGNATURE_2 KilledInfo_size 0) 0) y0).
  pose (y := if spinup then set_state TASK_STATE_READY y1 else y1).
  destruct (bystanders (tasks s) cur z t xz x y zero_task fpu csr Hz Hx Ht) as (x1 & Hx1 & Ex1 & Hall).
  pose (s9 := with_tasks (<[t := y]> (<[cur := save_fpu fpu csr x1]> (tasks s1))) s8).
  assert (Ei : infos x1 = infos x) by (rewrite Ex1; by destruct (cur =? z)).
  exists t, y, s9. split_and!; [|done| | |exact Hall| | | | |done|done].
  - unfold task_fork. mrw E1. erewrite bind_ok by done. erewrite bind_ok by (by apply task_at_ok). rewrite Ei. mrw E2.
    erewrite (bind_ok _ _ s2 (taskIdCurr s) s3) by done.
    erewrite (bind_ok _ _ s3 tss s4) by (unfold service_value; by rewrite E4).
    erewrite (bind_ok _ _ s4 sysc s5) by (unfold service_value; by rewrite E5). mrw E6. mrw E7. mrw E8.
    erewrite bind_ok by (apply set_task_ok; [done|exact Hx1]).
    erewrite fill_child; [reflexivity|done| |rewrite Ex1; by destruct (cur =? z)|done].
    cbn. rewrite lookup_insert_ne by exact Hct.
    rewrite lookup_insert_ne by exact Hzt. apply lookup_insert_eq.
  - eapply ok_append; [done..|exact Hall| | | |  | | ]; try done; [apply O|apply O|unfold y; by destruct spinup|unfold y; by destruct spinup].
  - unfold y. by destruct spinup; split; (done || intros []).
  - unfold y. by destruct spinup.
  - unfold y. by destruct spinup.
  - unfold y. by destruct spinup.
  - unfold y. by destruct spinup.
Qed.
End fork.

(** ** The sample's child forks *)

Lemma ts0_shares : shares ts0 (sample_task 2 TASK_STATE_READY 1000 0 20) (mkFs false 1 [47] 18) (mkPd false 1 0 0 0 0 8192)
  (mkFiles 0 1 1024 1024) (mkSig false 1 (0, 0) (replicate 65 SIG_DFL)).
Proof. by split. Qed.

Lemma task_fork_adds_child_witness :
  exists t y s', task_fork (fun _ => 5) 0x7000 (Z.lor CLONE_VM CLONE_FILES) true [] 0x1f80 ts0 = Ok (t, s') /\
    tasks_ok s' [1000; 2000; t] (upd (fun _ => []) t []) /\ tasks s' !! t = Some y /\ t_id (ids y) = 3 /\
    infoPd (infos y) = 20 /\ info_pd s' = <[20 := mkPd false 2 0 0 0 0 8192]> (info_pd ts0) /\ infoFs (infos y) <> 0 /\
    info_fs ts0 !! infoFs (infos y) = None.
Proof.
  destruct (task_fork_adds_child ts0 [1000] 2000 (fun _ => []) (sample_task 2 TASK_STATE_READY 1000 0 20) (mkFs false 1 [47] 18)
    (mkPd false 1 0 0 0 0 8192) (mkFiles 0 1 1024 1024) (mkSig false 1 (0, 0) (replicate 65 SIG_DFL)) (fun _ => 5) 0x7000 (Z.lor CLONE_VM CLONE_FILES) true [] 0x1f80 ts0_ok) as (t & y & s' & E & _ & O & C & Hall & [Hp1 Hp2] & (F0 & F1 & _) & _).
  - cbn. set_solver.
  - reflexivity.
  - exact ts0_shares.
  - exists t, y, s'. split_and!; [exact E|exact O| |exact (ch_id _ _ _ _ _ _ _ _ _ C)|exact Hp1|exact Hp2|exact F0|exact F1].
    by rewrite Hall, decide_True.
Defined.
