(* ===== verification/UnixSocket.v ===== *)
(** * Local sockets ([syscalls/unixSocket.cpp])

    Sockets, the pairs that connect two of them, and the descriptors on either
    end.  The ring buffers, whose code is not part of the kernel's sources, are
    reached through the class [CircularOps] with the laws [CircularSpec] read off
    [circular.h]; opening a descriptor, the file system and the pollers are the
    operations of [SocketServices].  The header and the other fields of a
    [UnixSocket] are kept under one address in two maps.  A call that goes round
    its loop again is [Blocks], in the state it has reached. *)

From S2P Require Import Prelude Bytes Heap FileTypes Spinlock LinkedList.

Definition AF_UNIX : Z := 1.
Definition UNIX_SOCK_BUFF_DEFAULT : Z := 262144.
Definition UNIX_SOCK_POLL_EXTRA : Z := 4096 * 16.
Definition EPIPE : Z := 32.
Definition ENOTSOCK : Z := 88.
Definition EAFNOSUPPORT : Z := 97.
Definition EADDRINUSE : Z := 98.
Definition EISCONN : Z := 106.
Definition ENOTCONN : Z := 107.
Definition ECONNREFUSED : Z := 111.
Definition EINPROGRESS : Z := 115.
Definition S_IFSOCK : Z := 0xc000.
Definition EPOLLIN : Z := 1.
Definition EPOLLOUT : Z := 4.
Definition EPOLLHUP : Z := 16.

(** ** Ring buffers *)

Class CircularOps (C : Type) := {
  CircularAllocate : Z -> C;
  CircularRead : C -> Z -> Z * list Z * C;   (* the count, the bytes *)
  CircularWrite : C -> list Z -> Z * C;
  CircularReadPoll : C -> Z;
  CircularWritePoll : C -> Z;
}.

(** A queue of bytes; one byte of the buffer stays unused ([CIRC_WRITABLE]). *)
Class CircularSpec (C : Type) `{!CircularOps C} := {
  content : C -> list Z;
  room : C -> Z;
  circ_new n : 0 < n -> content (CircularAllocate n) = [] /\ room (CircularAllocate n) = n - 1;
  circ_readable c : CircularReadPoll c = zlen (content c);
  circ_writable c : CircularWritePoll c = room c - zlen (content c);
  circ_write c bs : zlen bs <= CircularWritePoll c ->
    exists c', CircularWrite c bs = (zlen bs, c') /\ content c' = content c ++ bs /\ room c' = room c;
  circ_read c n : 0 <= n <= CircularReadPoll c ->
    exists c', CircularRead c n = (n, take (Z.to_nat n) (content c), c') /\
      content c' = drop (Z.to_nat n) (content c) /\ room c' = room c;
}.

(** ** State *)

Record UnixSocketPair (C : Type) := mkPair {
  LOCK_PAIR : bool;
  established : bool;
  serverFds : Z;
  serverBuff : C;
  serverBuffSize : Z;
  p_filename : option (list Z);
  clientFds : Z;
  clientBuff : C;
  clientBuffSize : Z;
}.
Arguments mkPair {C}.
Arguments LOCK_PAIR {C}.
Arguments established {C}.
Arguments serverFds {C}.
Arguments serverBuff {C}.
Arguments serverBuffSize {C}.
Arguments p_filename {C}.
Arguments clientFds {C}.
Arguments clientBuff {C}.
Arguments clientBuffSize {C}.

(** [backlog]: the array [listen] makes. *)
Record UnixSocket := mkSock {
  LOCK_SOCK : bool;
  timesOpened : Z;
  acceptWouldBlock : bool;
  bindAddr : option (list Z);
  connMax : Z;
  connCurr : Z;
  backlog : option (list Z);
  s_pair : Z;
}.

(** The fields of [OpenFile] sockets use; [n_accept] tells the two tables of
    handlers apart. *)
Record SockNode := mkNode {
  n_id : Z;
  n_dir : Z;
  n_accept : bool;
  n_flags : Z;
  n_closeOnExec : bool;
}.

Record sockaddr := mkAddr { sa_family : Z; sa_data : list Z }.

Record usys (C W : Type) := mkUs {
  dsUnixSocket : LLcontrol;
  LOCK_LL_UNIX_SOCKET : bool;
  headers : gmap Z LLcell;
  sockets : gmap Z UnixSocket;
  pairs : gmap Z (UnixSocketPair C);
  nodes : gmap Z SockNode;
  u_world : W;
}.
Arguments mkUs {C W}.
Arguments dsUnixSocket {C W}.
Arguments LOCK_LL_UNIX_SOCKET {C W}.
Arguments headers {C W}.
Arguments sockets {C W}.
Arguments pairs {C W}.
Arguments nodes {C W}.
Arguments u_world {C W}.

(** What sockets ask of other components. *)
Class SocketServices (W : Type) := {
  svc_open_null : W -> Z * W;               (* fsUserOpen(currentTask, "/dev/null", O_RDWR, 0) *)
  svc_sanitize : list Z -> W -> list Z;     (* fsSanitize with the task's working directory *)
  svc_stat : list Z -> W -> option Z;       (* fsStatByFilename: st_mode *)
  svc_ring : Z -> Z -> W -> W;              (* pollInstanceRing *)
  svc_sigpipe : W -> W;                     (* SIGPIPE becomes pending *)
}.

Inductive sres (A : Type) :=
| Done (a : A)
| Blocks.
Arguments Done {A}.
Arguments Blocks {A}.

Section operations.
Context {C W : Type} `{!CircularOps C} `{!SocketServices W}.
Context `{!Allocator LLcell} `{!Allocator (UnixSocketPair C)} `{!Allocator SockNode}.
Abbreviation U := (usys C W).
Abbreviation Pair := (UnixSocketPair C).
Implicit Types s : U.

Definition us_list (c : LLcontrol) (h : gmap Z LLcell) s : U :=
  mkUs c (LOCK_LL_UNIX_SOCKET s) h (sockets s) (pairs s) (nodes s) (u_world s).
Definition us_lock (b : bool) s : U :=
  mkUs (dsUnixSocket s) b (headers s) (sockets s) (pairs s) (nodes s) (u_world s).
Definition us_sockets (h : gmap Z UnixSocket) s : U :=
  mkUs (dsUnixSocket s) (LOCK_LL_UNIX_SOCKET s) (headers s) h (pairs s) (nodes s) (u_world s).
Definition us_pairs (h : gmap Z Pair) s : U :=
  mkUs (dsUnixSocket s) (LOCK_LL_UNIX_SOCKET s) (headers s) (sockets s) h (nodes s) (u_world s).
Definition us_nodes (h : gmap Z SockNode) s : U :=
  mkUs (dsUnixSocket s) (LOCK_LL_UNIX_SOCKET s) (headers s) (sockets s) (pairs s) h (u_world s).
Definition us_world (w : W) s : U :=
  mkUs (dsUnixSocket s) (LOCK_LL_UNIX_SOCKET s) (headers s) (sockets s) (pairs s) (nodes s) w.

Definition us_part {P A} (get_part : U -> P) (back : P -> U -> U) (m : M P A) : M U A := fun s =>
  match m (get_part s) with
  | Ok (a, p) => Ok (a, back p s)
  | Halted => Halted
  | Fault => Fault
  | Hang => Hang
  end.
Definition on_list {A} (m : M ll_state A) : M U A :=
  us_part (fun s => mkLs (dsUnixSocket s) (headers s)) (fun l => us_list (ll l) (cells l)) m.
Definition on_sockets {A} (m : M (gmap Z UnixSocket) A) : M U A := us_part sockets us_sockets m.
Definition on_pairs {A} (m : M (gmap Z Pair) A) : M U A := us_part pairs us_pairs m.
Definition on_nodes {A} (m : M (gmap Z SockNode) A) : M U A := us_part nodes us_nodes m.
Definition ring (key events : Z) : M U unit := modify (fun s => us_world (svc_ring key events (u_world s)) s).
Definition us_outcome {A} (o : outcome A) : M U A :=
  match o with Ok a => ret a | Halted => halt | Fault => fault | Hang => hang end.

Definition pair_lock (op : bool -> outcome bool) (p : Z) : M U unit :=
  let! x := on_pairs (deref p) in
  let! b := us_outcome (op (LOCK_PAIR x)) in
  on_pairs (update p (fun x => mkPair b (established x) (serverFds x) (serverBuff x) (serverBuffSize x) (p_filename x)
    (clientFds x) (clientBuff x) (clientBuffSize x))).
Definition sock_lock (op : bool -> outcome bool) (p : Z) : M U unit :=
  let! x := on_sockets (deref p) in
  let! b := us_outcome (op (LOCK_SOCK x)) in
  on_sockets (update p (fun x => mkSock b (timesOpened x) (acceptWouldBlock x) (bindAddr x) (connMax x) (connCurr x)
    (backlog x) (s_pair x))).
Definition list_lock (op : bool -> outcome bool) : M U unit :=
  let! b := gets LOCK_LL_UNIX_SOCKET in
  let! b := us_outcome (op b) in modify (us_lock b).

Definition set_server_fds (d : Z) (x : Pair) : Pair :=
  mkPair (LOCK_PAIR x) (established x) (s32 (serverFds x + d)) (serverBuff x) (serverBuffSize x) (p_filename x)
    (clientFds x) (clientBuff x) (clientBuffSize x).
Definition set_client_fds (d : Z) (x : Pair) : Pair :=
  mkPair (LOCK_PAIR x) (established x) (serverFds x) (serverBuff x) (serverBuffSize x) (p_filename x)
    (s32 (clientFds x + d)) (clientBuff x) (clientBuffSize x).
Definition set_server_buff (c : C) (x : Pair) : Pair :=
  mkPair (LOCK_PAIR x) (established x) (serverFds x) c (serverBuffSize x) (p_filename x)
    (clientFds x) (clientBuff x) (clientBuffSize x).
Definition set_client_buff (c : C) (x : Pair) : Pair :=
  mkPair (LOCK_PAIR x) (established x) (serverFds x) (serverBuff x) (serverBuffSize x) (p_filename x)
    (clientFds x) c (clientBuffSize x).
Definition set_times (d : Z) (x : UnixSocket) : UnixSocket :=
  mkSock (LOCK_SOCK x) (s32 (timesOpened x + d)) (acceptWouldBlock x) (bindAddr x) (connMax x) (connCurr x) (backlog x) (s_pair x).
Definition set_would_block (b : bool) (x : UnixSocket) : UnixSocket :=
  mkSock (LOCK_SOCK x) (timesOpened x) b (bindAddr x) (connMax x) (connCurr x) (backlog x) (s_pair x).
Definition set_bind (a : option (list Z)) (x : UnixSocket) : UnixSocket :=
  mkSock (LOCK_SOCK x) (timesOpened x) (acceptWouldBlock x) a (connMax x) (connCurr x) (backlog x) (s_pair x).
Definition set_backlog (mx cur : Z) (b : option (list Z)) (x : UnixSocket) : UnixSocket :=
  mkSock (LOCK_SOCK x) (timesOpened x) (acceptWouldBlock x) (bindAddr x) mx cur b (s_pair x).
Definition set_s_pair (p : Z) (x : UnixSocket) : UnixSocket :=
  mkSock (LOCK_SOCK x) (timesOpened x) (acceptWouldBlock x) (bindAddr x) (connMax x) (connCurr x) (backlog x) p.

(** ** Descriptors *)

(** A node of [/dev/null], its handlers exchanged. *)
Definition open_node (dir : Z) (accept : bool) : M U Z :=
  let! id := (fun s => let '(r, w) := svc_open_null (u_world s) in Ok (r, us_world w s)) in
  kassert (negb (RET_IS_ERR id)) ;;;
  on_nodes (allocate (mkNode id dir accept O_RDWR false)).

Definition unixSocketAcceptCreate (dir : Z) : M U Z := open_node dir true.

Definition unixSocketAllocatePair : M U Z :=
  on_pairs (allocate (mkPair false false 0 (CircularAllocate UNIX_SOCK_BUFF_DEFAULT) UNIX_SOCK_BUFF_DEFAULT None
    0 (CircularAllocate UNIX_SOCK_BUFF_DEFAULT) UNIX_SOCK_BUFF_DEFAULT)).
Definition unixSocketFreePair (pr : Z) : M U unit :=
  let! x := on_pairs (deref pr) in
  kassert ((serverFds x =? 0) && (clientFds x =? 0)) ;;;
  on_pairs (dispose pr).

Definition set_dir (dir : Z) (n : SockNode) : SockNode := mkNode (n_id n) dir (n_accept n) (n_flags n) (n_closeOnExec n).

Definition unixSocketAcceptDuplicate (original orphan : Z) : M U bool :=
  let! o := on_nodes (deref original) in
  on_nodes (update orphan (set_dir (n_dir o))) ;;;
  pair_lock spinlock_acquire (n_dir o) ;;;
  on_pairs (update (n_dir o) (set_server_fds 1)) ;;;
  pair_lock spinlock_release (n_dir o) ;;;
  ret true.

Definition unixSocketAcceptClose (fd : Z) : M U bool :=
  let! n := on_nodes (deref fd) in
  let pr := n_dir n in
  pair_lock spinlock_acquire pr ;;;
  on_pairs (update pr (set_server_fds (-1))) ;;;
  let! x := on_pairs (deref pr) in
  (if (serverFds x =? 0) && (clientFds x =? 0) then unixSocketFreePair pr else pair_lock spinlock_release pr) ;;;
  (if serverFds x =? 0 then ring pr EPOLLHUP else ret tt) ;;;
  ret true.

Definition UnixSocket_size : Z := 56.

(** The node of a new socket; the object [LinkedListAllocate] returns is
    cleared. *)
Definition socket_node (type : Z) : M U (Z + Z) :=
  if Z.land type 1 =? 0 then ret (inl (ERR ENOSYS))
  else
    let! node := open_node 0 false in
    list_lock spinlock_acquire ;;;
    let! sock := on_list (LinkedListAllocate UnixSocket_size) in
    modify (fun s => us_sockets (<[sock := mkSock false 0 false None 0 0 None 0]> (sockets s)) s) ;;;
    list_lock spinlock_release ;;;
    on_nodes (update node (set_dir sock)) ;;;
    on_sockets (update sock (fun x =>
      mkSock (LOCK_SOCK x) 1 (acceptWouldBlock x) (bindAddr x) (connMax x) (connCurr x) (backlog x) (s_pair x))) ;;;
    on_nodes (update node (fun n => mkNode (n_id n) (n_dir n) (n_accept n) (n_flags n) true)) ;;;
    ret (inr node).

Definition unixSocketOpen (type : Z) : M U Z :=
  let! r := socket_node type in
  match r with
  | inl e => ret e
  | inr node => let! n := on_nodes (deref node) in ret (n_id n)
  end.

Definition unixSocketDuplicate (original orphan : Z) : M U bool :=
  let! o := on_nodes (deref original) in
  let sock := n_dir o in
  on_nodes (update orphan (set_dir sock)) ;;;
  sock_lock spinlock_acquire sock ;;;
  on_sockets (update sock (set_times 1)) ;;;
  let! x := on_sockets (deref sock) in
  (if negb (s_pair x =? 0) then
     pair_lock spinlock_acquire (s_pair x) ;;;
     on_pairs (update (s_pair x) (set_client_fds 1)) ;;;
     pair_lock spinlock_release (s_pair x)
   else ret tt) ;;;
  sock_lock spinlock_release sock ;;;
  ret true.

Definition unixSocketClose (fd : Z) : M U bool :=
  let! n := on_nodes (deref fd) in
  let sock := n_dir n in
  sock_lock spinlock_acquire sock ;;;
  on_sockets (update sock (set_times (-1))) ;;;
  let! x := on_sockets (deref sock) in
  let! key :=
    (if negb (s_pair x =? 0) then
       pair_lock spinlock_acquire (s_pair x) ;;;
       on_pairs (update (s_pair x) (set_client_fds (-1))) ;;;
       let! y := on_pairs (deref (s_pair x)) in
       (if (clientFds y =? 0) && (serverFds y =? 0) then unixSocketFreePair (s_pair x)
        else pair_lock spinlock_release (s_pair x)) ;;;
       ret (if clientFds y =? 0 then s_pair x else 0)
     else ret 0) in
  (if timesOpened x =? 0 then
     list_lock spinlock_acquire ;;;
     let! removed := on_list (LinkedListRemove UnixSocket_size sock) in
     kassert removed ;;;
     modify (fun s => us_sockets (delete sock (sockets s)) s) ;;;
     list_lock spinlock_release
   else sock_lock spinlock_release sock) ;;;
  (if negb (key =? 0) then ring key EPOLLHUP else ret tt) ;;;
  ret true.

(** The two descriptors; [fsUserGetNode] finds the node just made. *)
Definition unixSocketPair (type : Z) : M U (Z * option (Z * Z)) :=
  let! r := socket_node type in
  match r with
  | inl e => ret (e, None)
  | inr fd1 =>
      let! pr := unixSocketAllocatePair in
      on_pairs (update pr (fun x => mkPair (LOCK_PAIR x) (established x) 1 (serverBuff x) (serverBuffSize x) (p_filename x)
        1 (clientBuff x) (clientBuffSize x))) ;;;
      let! n := on_nodes (deref fd1) in
      on_sockets (update (n_dir n) (set_s_pair pr)) ;;;
      let! fd2 := unixSocketAcceptCreate pr in
      let! n2 := on_nodes (deref fd2) in
      ret (0, Some (n_id n, n_id n2))
  end.

(** ** Streams *)

(** One turn of the receiving loop: [peer] counts the descriptors of the other
    end, [buff] is the buffer it writes to. *)
Definition recv_turn (peer : Pair -> Z) (buff : Pair -> C) (put : C -> Pair -> Pair) (always : bool)
    (fd pr limit : Z) (dontwait : bool) : M U (sres (Z * list Z)) :=
  let! x := on_pairs (deref pr) in
  if (peer x =? 0) && (CircularReadPoll (buff x) =? 0) then ret (Done (0, []))
  else
    pair_lock spinlock_acquire pr ;;;
    let! n := on_nodes (deref fd) in
    let! x := on_pairs (deref pr) in
    let avail := CircularReadPoll (buff x) in
    if (peer x =? 0) && (avail =? 0) then
      pair_lock spinlock_release pr ;;; ret (Done (0, []))
    else if (negb (Z.land (n_flags n) O_NONBLOCK =? 0) || dontwait) && (avail =? 0) then
      pair_lock spinlock_release pr ;;; ret (Done (ERR EWOULDBLOCK, []))
    else if 0 <? avail then
      let toCopy := Z.min limit avail in
      let '(r, bytes, c) := CircularRead (buff x) toCopy in
      kassert (r =? toCopy) ;;;
      on_pairs (update pr (put c)) ;;;
      pair_lock spinlock_release pr ;;;
      (if always || (UNIX_SOCK_POLL_EXTRA <? CircularWritePoll c) then ring pr EPOLLOUT else ret tt) ;;;
      ret (Done (toCopy, bytes))
    else pair_lock spinlock_release pr ;;; ret Blocks.

(** One turn of the sending loop. *)
Definition send_turn (peer : Pair -> Z) (buff : Pair -> C) (size : Pair -> Z) (put : C -> Pair -> Pair)
    (fd pr : Z) (data : list Z) (dontwait : bool) : M U (sres Z) :=
  let! x := on_pairs (deref pr) in
  let limit := if u64 (size x) <? zlen data then u64 (size x) else zlen data in
  pair_lock spinlock_acquire pr ;;;
  let! n := on_nodes (deref fd) in
  let! x := on_pairs (deref pr) in
  let avail := CircularWritePoll (buff x) in
  if peer x =? 0 then
    pair_lock spinlock_release pr ;;;
    modify (fun s => us_world (svc_sigpipe (u_world s)) s) ;;;
    ret (Done (ERR EPIPE))
  else if (negb (Z.land (n_flags n) O_NONBLOCK =? 0) || dontwait) && (avail <? limit) then
    pair_lock spinlock_release pr ;;; ret (Done (ERR EWOULDBLOCK))
  else if limit <=? avail then
    let '(r, c) := CircularWrite (buff x) (take (Z.to_nat limit) data) in
    kassert (r =? limit) ;;;
    on_pairs (update pr (put c)) ;;;
    pair_lock spinlock_release pr ;;;
    ring pr EPOLLIN ;;;
    ret (Done limit)
  else pair_lock spinlock_release pr ;;; ret Blocks.

Definition unixSocketAcceptRecvfrom (fd limit : Z) (dontwait : bool) : M U (sres (Z * list Z)) :=
  let! n := on_nodes (deref fd) in
  recv_turn clientFds serverBuff set_server_buff false fd (n_dir n) limit dontwait.
Definition unixSocketAcceptSendto (fd : Z) (data : list Z) (dontwait : bool) : M U (sres Z) :=
  let! n := on_nodes (deref fd) in
  send_turn clientFds clientBuff clientBuffSize set_client_buff fd (n_dir n) data dontwait.

Definition unixSocketRecvfrom (fd limit : Z) (dontwait : bool) : M U (sres (Z * list Z)) :=
  let! n := on_nodes (deref fd) in
  let! x := on_sockets (deref (n_dir n)) in
  if s_pair x =? 0 then ret (Done (ERR ENOTCONN, []))
  else recv_turn serverFds clientBuff set_client_buff true fd (s_pair x) limit dontwait.
Definition unixSocketSendto (fd : Z) (data : list Z) (dontwait : bool) : M U (sres Z) :=
  let! n := on_nodes (deref fd) in
  let! x := on_sockets (deref (n_dir n)) in
  if s_pair x =? 0 then ret (Done (ERR ENOTCONN))
  else send_turn serverFds serverBuff serverBuffSize set_server_buff fd (s_pair x) data dontwait.

(** ** Polling *)

Definition has (events e : Z) : bool := negb (Z.land events e =? 0).

Definition unixSocketAcceptInternalPoll (fd events : Z) : M U Z :=
  let! n := on_nodes (deref fd) in
  pair_lock spinlock_acquire (n_dir n) ;;;
  let! x := on_pairs (deref (n_dir n)) in
  pair_lock spinlock_release (n_dir n) ;;;
  ret (Z.lor (if clientFds x =? 0 then EPOLLHUP else 0)
    (Z.lor (if has events EPOLLOUT && negb (clientFds x =? 0) && (0 <? CircularWritePoll (clientBuff x)) then EPOLLOUT else 0)
      (if has events EPOLLIN && (0 <? CircularReadPoll (serverBuff x)) then EPOLLIN else 0))).

Definition unixSocketInternalPoll (fd events : Z) : M U Z :=
  let! n := on_nodes (deref fd) in
  let! k := on_sockets (deref (n_dir n)) in
  if 0 <? connMax k then
    sock_lock spinlock_acquire (n_dir n) ;;;
    let! k := on_sockets (deref (n_dir n)) in
    sock_lock spinlock_release (n_dir n) ;;;
    ret (Z.lor (if connCurr k <? connMax k then (if has events EPOLLOUT then EPOLLOUT else 0) else 0)
      (if 0 <? connCurr k then (if has events EPOLLIN then EPOLLIN else 0) else 0))
  else if negb (s_pair k =? 0) then
    pair_lock spinlock_acquire (s_pair k) ;;;
    let! x := on_pairs (deref (s_pair k)) in
    pair_lock spinlock_release (s_pair k) ;;;
    ret (Z.lor (if serverFds x =? 0 then EPOLLHUP else 0)
      (Z.lor (if has events EPOLLOUT && negb (serverFds x =? 0) && (UNIX_SOCK_POLL_EXTRA <? CircularWritePoll (serverBuff x))
              then EPOLLOUT else 0)
        (if has events EPOLLIN && (0 <? CircularReadPoll (clientBuff x)) then EPOLLIN else 0)))
  else ret EPOLLHUP.

Definition unixSocketAcceptReportKey (fd : Z) : M U Z := let! n := on_nodes (deref fd) in ret (n_dir n).
Definition unixSocketReportKey (fd : Z) : M U Z :=
  let! n := on_nodes (deref fd) in
  let! x := on_sockets (deref (n_dir n)) in
  ret (if negb (s_pair x =? 0) then s_pair x else n_dir n).

(** ** Scattered transfers *)

Fixpoint recv_iov (recv : Z -> M U (sres (Z * list Z))) (poll : M U Z) (lens : list Z) (cnt : Z) (out : list Z)
    : M U (sres (Z * list Z)) :=
  match lens with
  | [] => ret (Done (cnt, out))
  | len :: lens =>
      let! more := (if 0 <? cnt then let! r := poll in ret (has r EPOLLIN) else ret true) in
      if negb more then ret (Done (cnt, out))
      else
        let! r := recv len in
        match r with
        | Blocks => ret Blocks
        | Done (k, bytes) =>
            if RET_IS_ERR k then ret (Done (k, out)) else recv_iov recv poll lens (u64 (cnt + k)) (out ++ bytes)
        end
  end.

(** [named]: a name is given in the header. *)
Definition unixSocketRecvmsg (fd : Z) (named : bool) (lens : list Z) (dontwait : bool) : M U (sres (Z * list Z)) :=
  if named then ret (Done (ERR ENOSYS, []))
  else recv_iov (fun len => unixSocketRecvfrom fd len dontwait) (unixSocketInternalPoll fd EPOLLIN) lens 0 [].
Definition unixSocketAcceptRecvmsg (fd : Z) (named : bool) (lens : list Z) (dontwait : bool) : M U (sres (Z * list Z)) :=
  if named then ret (Done (ERR ENOSYS, []))
  else recv_iov (fun len => unixSocketAcceptRecvfrom fd len dontwait) (unixSocketAcceptInternalPoll fd EPOLLIN) lens 0 [].

Fixpoint send_iov (fd : Z) (dontwait : bool) (parts : list (list Z)) (cnt : Z) : M U (sres Z) :=
  match parts with
  | [] => ret (Done cnt)
  | data :: parts =>
      let! more := (if 0 <? cnt then let! r := unixSocketInternalPoll fd EPOLLOUT in ret (has r EPOLLOUT) else ret true) in
      if negb more then ret (Done cnt)
      else
        let! r := unixSocketSendto fd data dontwait in
        match r with
        | Blocks => ret Blocks
        | Done k => if RET_IS_ERR k then ret (Done k) else send_iov fd dontwait parts (u64 (cnt + k))
        end
  end.

(** [control]: control data or flags are given. *)
Definition unixSocketSendmsg (fd : Z) (named control : bool) (parts : list (list Z)) (dontwait : bool) : M U (sres Z) :=
  if named then ret (Done (ERR ENOSYS))
  else kassert (negb control) ;;; send_iov fd dontwait parts 0.

(** ** Names *)

(** The bytes before the first null. *)
Fixpoint c_string (l : list Z) : list Z :=
  match l with [] => [] | c :: l => if c =? 0 then [] else c :: c_string l end.

Definition unixSocketAddrSafe (addr : sockaddr) (len : Z) : M U (Z + list Z) :=
  if negb (sa_family addr =? AF_UNIX) then ret (inl (ERR EAFNOSUPPORT))
  else
    let addrLen := u64 (len - 2) in
    if addrLen =? 0 then ret (inl (ERR EINVAL))
    else if zlen (sa_data addr) <? addrLen then fault
    else
      let skip := if sa_data addr !!! 0%nat =? 0 then 1%nat else 0%nat in
      let unsafe := c_string (drop skip (take (Z.to_nat addrLen) (sa_data addr))) in
      let! w := gets u_world in
      ret (inr (svc_sanitize unsafe w)).

(** The first socket bound to the name, [skip] excepted; its lock stays taken. *)
Fixpoint sock_search (fuel : nat) (browse skip : Z) (name : list Z) : M U Z :=
  match fuel with
  | O => hang
  | S fuel =>
      if browse =? 0 then ret 0
      else
        let! c := on_list (cell browse) in
        if browse =? skip then sock_search fuel (ll_next c) skip name
        else
          sock_lock spinlock_acquire browse ;;;
          let! x := on_sockets (deref browse) in
          if bool_decide (bindAddr x = Some name) then ret browse
          else sock_lock spinlock_release browse ;;; sock_search fuel (ll_next c) skip name
  end.
Definition find_bound (skip : Z) (name : list Z) : M U Z :=
  list_lock spinlock_acquire ;;;
  let! first := gets (fun s => firstObject (dsUnixSocket s)) in
  let! fuel := gets (fun s => S (size (headers s))) in
  let! r := sock_search fuel first skip name in
  list_lock spinlock_release ;;;
  ret r.

Definition unixSocketUnlinkNotify (filename : list Z) : M U bool :=
  let! browse := find_bound 0 filename in
  if browse =? 0 then ret false
  else
    on_sockets (update browse (set_bind None)) ;;;
    sock_lock spinlock_release browse ;;;
    ret true.

Definition unixSocketBind (fd : Z) (addr : sockaddr) (len : Z) : M U Z :=
  let! n := on_nodes (deref fd) in
  let! x := on_sockets (deref (n_dir n)) in
  if bool_decide (bindAddr x <> None) then ret (ERR EINVAL)
  else
    let! r := unixSocketAddrSafe addr len in
    match r with
    | inl e => ret e
    | inr safe =>
        let! w := gets u_world in
        match svc_stat safe w with
        | Some mode => ret (if Z.land mode S_IFSOCK =? 0 then ERR ENOTSOCK else ERR EADDRINUSE)
        | None =>
            let! browse := find_bound 0 safe in
            if negb (browse =? 0) then
              sock_lock spinlock_release browse ;;; ret (ERR EADDRINUSE)
            else on_sockets (update (n_dir n) (set_bind (Some safe))) ;;; ret 0
        end
    end.

(** ** Connections *)

Definition unixSocketListen (fd backlog : Z) : M U Z :=
  let mx := if backlog =? 0 then 1 else if backlog <? 0 then 128 else backlog in
  let! n := on_nodes (deref fd) in
  sock_lock spinlock_acquire (n_dir n) ;;;
  on_sockets (update (n_dir n) (fun x => set_backlog mx (connCurr x) (Some (replicate (Z.to_nat mx) 0)) x)) ;;;
  sock_lock spinlock_release (n_dir n) ;;;
  ret 0.

(** [memmove] by one place: the last entry stays. *)
Definition shift_backlog (b : list Z) : list Z :=
  match b with [] => [] | _ :: t => t ++ [default 0 (last (0 :: t))] end.

Definition unixSocketAccept (fd : Z) : M U (sres Z) :=
  let! n := on_nodes (deref fd) in
  let sock := n_dir n in
  sock_lock spinlock_acquire sock ;;;
  let! x := on_sockets (deref sock) in
  if negb (0 <? connCurr x) then
    (if negb (Z.land (n_flags n) O_NONBLOCK =? 0) then
       on_sockets (update sock (set_would_block true)) ;;;
       sock_lock spinlock_release sock ;;; ret (Done (ERR EWOULDBLOCK))
     else
       on_sockets (update sock (set_would_block false)) ;;;
       sock_lock spinlock_release sock ;;; ret Blocks)
  else
    let! b := from_option_fault (backlog x) in
    let! pr := from_option_fault (b !! 0%nat) in
    pair_lock spinlock_acquire pr ;;;
    let! y := on_pairs (deref pr) in
    kassert (serverFds y =? 0) ;;;
    let! name := from_option_fault (bindAddr x) in
    on_pairs (update pr (fun y => mkPair (LOCK_PAIR y) true (s32 (serverFds y + 1)) (serverBuff y) (serverBuffSize y) (Some name)
      (clientFds y) (clientBuff y) (clientBuffSize y))) ;;;
    pair_lock spinlock_release pr ;;;
    let! acceptFd := unixSocketAcceptCreate pr in
    on_sockets (update sock (fun x => set_backlog (connMax x) (s32 (connCurr x - 1)) (Some (shift_backlog b)) x)) ;;;
    sock_lock spinlock_release sock ;;;
    let! a := on_nodes (deref acceptFd) in
    ret (Done (n_id a)).

(** Up to the wait for [accept]. *)
Definition connect_begin (fd : Z) (addr : sockaddr) (len : Z) : M U (sres Z) :=
  let! n := on_nodes (deref fd) in
  let sock := n_dir n in
  let! x := on_sockets (deref sock) in
  if negb (connMax x =? 0) then ret (Done (ERR ECONNREFUSED))
  else if negb (s_pair x =? 0) then ret (Done (ERR EISCONN))
  else
    let! r := unixSocketAddrSafe addr len in
    match r with
    | inl e => ret (Done e)
    | inr safe =>
        let! parent := find_bound sock safe in
        if parent =? 0 then ret (Done (ERR ENOENT))
        else
          let! p := on_sockets (deref parent) in
          let nonblock := negb (Z.land (n_flags n) O_NONBLOCK =? 0) in
          if acceptWouldBlock p && nonblock then
            sock_lock spinlock_release parent ;;; ret (Done (ERR EINPROGRESS))
          else if connMax p =? 0 then
            sock_lock spinlock_release parent ;;; ret (Done (ERR ECONNREFUSED))
          else
            kassert (negb nonblock) ;;;
            if connMax p <=? connCurr p then
              sock_lock spinlock_release parent ;;; ret (Done (ERR ECONNREFUSED))
            else
              let! pr := unixSocketAllocatePair in
              on_sockets (update sock (set_s_pair pr)) ;;;
              on_pairs (update pr (fun y => mkPair (LOCK_PAIR y) (established y) (serverFds y) (serverBuff y) (serverBuffSize y)
                (p_filename y) 1 (clientBuff y) (clientBuffSize y))) ;;;
              let! p := on_sockets (deref parent) in
              let! b := from_option_fault (backlog p) in
              let! _ := from_option_fault (b !! Z.to_nat (connCurr p)) in
              on_sockets (update parent (fun p =>
                set_backlog (connMax p) (s32 (connCurr p + 1)) (Some (<[Z.to_nat (connCurr p) := pr]> b)) p)) ;;;
              sock_lock spinlock_release parent ;;;
              ring parent EPOLLIN ;;;
              ring pr EPOLLIN ;;;
              ret Blocks
    end.

(** One turn of the wait. *)
Definition connect_resume (fd : Z) : M U (sres Z) :=
  let! n := on_nodes (deref fd) in
  let! x := on_sockets (deref (n_dir n)) in
  pair_lock spinlock_acquire (s_pair x) ;;;
  let! y := on_pairs (deref (s_pair x)) in
  pair_lock spinlock_release (s_pair x) ;;;
  ret (if established y then Done 0 else Blocks).

(** The peer's name, cut to the room given: the result, the bytes, the length. *)
Definition peer_name (pr len : Z) : M U (Z * option (list Z * Z)) :=
  if pr =? 0 then ret (ERR ENOTCONN, None)
  else
    let! y := on_pairs (deref pr) in
    let! name := from_option_fault (p_filename y) in
    let toCopy := s32 (Z.min (u32 len) (2 + zlen name)) in
    if u64 toCopy <? 2 then ret (ERR EINVAL, None)
    else if toCopy <? 2 then fault
    else ret (0, Some (take (Z.to_nat (toCopy - 2)) name, toCopy)).
Definition unixSocketAcceptGetpeername (fd len : Z) : M U (Z * option (list Z * Z)) :=
  let! n := on_nodes (deref fd) in peer_name (n_dir n) len.
Definition unixSocketGetpeername (fd len : Z) : M U (Z * option (list Z * Z)) :=
  let! n := on_nodes (deref fd) in
  let! x := on_sockets (deref (n_dir n)) in
  peer_name (s_pair x) len.

End operations.
