(* ===== verification/SocketTheorems.v ===== *)
(** * Theorems about local sockets

    The two streams of a connection, how connections come about, and boundary
    cases. *)

From S2P Require Import Prelude Bytes Heap FileTypes Spinlock LinkedList UnixSocket.

Section sockets.
Context {C W : Type} `{!CircularOps C} `{!CircularSpec C} `{!SocketServices W}.
Context `{!Allocator LLcell} `{!Allocator (UnixSocketPair C)} `{!Allocator SockNode}.
Abbreviation U := (usys C W).
Abbreviation Pair := (UnixSocketPair C).
Implicit Types s : U.

(** ** Access *)

Lemma pair_deref s p y : p <> 0 -> pairs s !! p = Some y -> on_pairs (deref p) s = Ok (y, s).
Proof. intros Hp Hy. unfold on_pairs, us_part. rewrite (deref_ok _ _ _ Hp Hy). by destruct s. Qed.
Lemma pair_update s p y f : p <> 0 -> pairs s !! p = Some y ->
  on_pairs (update p f) s = Ok (tt, us_pairs (<[p := f y]> (pairs s)) s).
Proof. intros Hp Hy. unfold on_pairs, us_part. by rewrite (update_ok _ _ _ _ Hp Hy). Qed.
Lemma sock_deref s p y : p <> 0 -> sockets s !! p = Some y -> on_sockets (deref p) s = Ok (y, s).
Proof. intros Hp Hy. unfold on_sockets, us_part. rewrite (deref_ok _ _ _ Hp Hy). by destruct s. Qed.
Lemma sock_update s p y f : p <> 0 -> sockets s !! p = Some y ->
  on_sockets (update p f) s = Ok (tt, us_sockets (<[p := f y]> (sockets s)) s).
Proof. intros Hp Hy. unfold on_sockets, us_part. by rewrite (update_ok _ _ _ _ Hp Hy). Qed.
Lemma node_deref s p y : p <> 0 -> nodes s !! p = Some y -> on_nodes (deref p) s = Ok (y, s).
Proof. intros Hp Hy. unfold on_nodes, us_part. rewrite (deref_ok _ _ _ Hp Hy). by destruct s. Qed.

Lemma pair_locks s p y :
  p <> 0 -> pairs s !! p = Some y -> LOCK_PAIR y = false ->
  pair_lock spinlock_acquire p s = Ok (tt, s) /\ pair_lock spinlock_release p s = Ok (tt, s).
Proof.
  intros Hf Hx Hl. unfold pair_lock. split.
  all: erewrite bind_ok by (by apply pair_deref); rewrite ?Hl; erewrite bind_ok by done.
  all: erewrite pair_update by done; unfold IS_NOT_LOCKED; rewrite insert_id; [by destruct s|].
  all: rewrite Hx; destruct y; cbn in *; by subst.
Qed.
Lemma sock_locks s p y :
  p <> 0 -> sockets s !! p = Some y -> LOCK_SOCK y = false ->
  sock_lock spinlock_acquire p s = Ok (tt, s) /\ sock_lock spinlock_release p s = Ok (tt, s).
Proof.
  intros Hf Hx Hl. unfold sock_lock. split.
  all: erewrite bind_ok by (by apply sock_deref); rewrite ?Hl; erewrite bind_ok by done.
  all: erewrite sock_update by done; unfold IS_NOT_LOCKED; rewrite insert_id; [by destruct s|].
  all: rewrite Hx; destruct y; cbn in *; by subst.
Qed.
Lemma list_locks s :
  LOCK_LL_UNIX_SOCKET s = false ->
  list_lock spinlock_acquire s = Ok (tt, s) /\ list_lock spinlock_release s = Ok (tt, s).
Proof. intros E. unfold list_lock. destruct s. cbn in *. by subst. Qed.

(** ** One direction of a connection *)

(** What a receiver gets from a queue of bytes. *)
Definition recv_spec (nonblock : bool) (q : list Z) (limit : Z) : sres (Z * list Z) * list Z :=
  match q with
  | [] => (if nonblock then Done (ERR EWOULDBLOCK, []) else Blocks, [])
  | _ => let k := Z.min limit (zlen q) in (Done (k, take (Z.to_nat k) q), drop (Z.to_nat k) q)
  end.

(** What a sender can add to a queue with room for [UNIX_SOCK_BUFF_DEFAULT - 1]
    bytes: all of it, cut to the size of the buffer, or nothing. *)
Definition send_spec (nonblock : bool) (q data : list Z) : sres Z * list Z :=
  let k := Z.min (zlen data) UNIX_SOCK_BUFF_DEFAULT in
  if k <=? UNIX_SOCK_BUFF_DEFAULT - 1 - zlen q then (Done k, q ++ take (Z.to_nat k) data)
  else (if nonblock then Done (ERR EWOULDBLOCK) else Blocks, q).

(** A way through the pair. *)
Record direction := mkDir { d_buff : Pair -> C; d_size : Pair -> Z; d_put : C -> Pair -> Pair }.
Definition to_server : direction := mkDir serverBuff serverBuffSize set_server_buff.
Definition to_client : direction := mkDir clientBuff clientBuffSize set_client_buff.

Definition dir_ok (d : direction) : Prop :=
  (forall c y, d_buff d (d_put d c y) = c) /\ (forall c y, LOCK_PAIR (d_put d c y) = LOCK_PAIR y).

Lemma recv_turn_ok s (d : direction) (peer : Pair -> Z) always fd pr n y limit dontwait :
  dir_ok d -> pr <> 0 -> pairs s !! pr = Some y -> LOCK_PAIR y = false -> fd <> 0 -> nodes s !! fd = Some n ->
  peer y <> 0 -> 0 <= limit ->
  let nonblock := negb (Z.land (n_flags n) O_NONBLOCK =? 0) || dontwait in
  exists c w, recv_turn peer (d_buff d) (d_put d) always fd pr limit dontwait s =
      Ok ((recv_spec nonblock (content (d_buff d y)) limit).1,
        us_world w (us_pairs (<[pr := if decide (content (d_buff d y) = []) then y else d_put d c y]> (pairs s)) s)) /\
    content c = (recv_spec nonblock (content (d_buff d y)) limit).2 /\ room c = room (d_buff d y).
Proof.
  intros [Hd1 Hd2] Hp Hy Hl Hf Hn Hpeer Hlim nonblock. destruct (pair_locks s pr y Hp Hy Hl) as [La Lr].
  assert (Es : s = us_world (u_world s) (us_pairs (<[pr := y]> (pairs s)) s)) by (rewrite insert_id by done; by destruct s).
  unfold recv_turn. erewrite bind_ok by (by apply pair_deref). rewrite (proj2 (Z.eqb_neq _ 0) Hpeer). cbn [andb].
  mrw La. erewrite bind_ok by (by apply node_deref). erewrite bind_ok by (by apply pair_deref).
  rewrite (proj2 (Z.eqb_neq _ 0) Hpeer). cbn [andb]. cbv zeta. rewrite circ_readable. fold nonblock.
  destruct (content (d_buff d y)) as [|b q] eqn:Eq.
  - exists (d_buff d y), (u_world s). rewrite decide_True by done. cbn [recv_spec fst snd].
    change (zlen (@nil Z)) with 0. rewrite andb_true_r. change (0 <? 0) with false. cbv iota.
    destruct nonblock; mrw Lr; rewrite <- Es; done.
  - assert (0 < zlen (b :: q)) as Hpos by (rewrite zlen_cons; pose proof (zlen_nonneg q); lia).
    rewrite (proj2 (Z.eqb_neq (zlen (b :: q)) 0)) by lia. rewrite andb_false_r. rewrite (proj2 (Z.ltb_lt _ _)) by lia.
    destruct (circ_read (d_buff d y) (Z.min limit (zlen (b :: q)))) as (c & E & Ec & Er).
    { rewrite circ_readable, Eq. lia. }
    rewrite E. cbv beta iota. rewrite Z.eqb_refl. erewrite bind_ok by done. erewrite bind_ok by (by apply pair_update).
    edestruct (pair_locks (us_pairs (<[pr := d_put d c y]> (pairs s)) s) pr) as [_ Lr'];
      [done|apply lookup_insert_eq|by rewrite Hd2|]. mrw Lr'.
    rewrite Eq in Ec |- *. exists c. destruct (always || _).
    + eexists. rewrite decide_False by done. erewrite bind_ok by reflexivity. split; [reflexivity|]. split; [exact Ec|exact Er].
    + exists (u_world s). rewrite decide_False by done. erewrite bind_ok by reflexivity.
      split; [|split; [exact Ec|exact Er]]. by destruct s.
Qed.

Lemma send_turn_ok s (d : direction) (peer : Pair -> Z) fd pr n y data dontwait :
  dir_ok d -> pr <> 0 -> pairs s !! pr = Some y -> LOCK_PAIR y = false -> fd <> 0 -> nodes s !! fd = Some n ->
  peer y <> 0 -> d_size d y = UNIX_SOCK_BUFF_DEFAULT -> room (d_buff d y) = UNIX_SOCK_BUFF_DEFAULT - 1 ->
  let nonblock := negb (Z.land (n_flags n) O_NONBLOCK =? 0) || dontwait in
  exists c w, send_turn peer (d_buff d) (d_size d) (d_put d) fd pr data dontwait s =
      Ok ((send_spec nonblock (content (d_buff d y)) data).1,
        us_world w (us_pairs (<[pr := c]> (pairs s)) s)) /\
    (c = y \/ exists b, c = d_put d b y /\ room b = UNIX_SOCK_BUFF_DEFAULT - 1) /\
    content (d_buff d c) = (send_spec nonblock (content (d_buff d y)) data).2.
Proof.
  intros [Hd1 Hd2] Hp Hy Hl Hf Hn Hpeer Hsize Hroom nonblock. destruct (pair_locks s pr y Hp Hy Hl) as [La Lr].
  assert (Es : s = us_world (u_world s) (us_pairs (<[pr := y]> (pairs s)) s)) by (rewrite insert_id by done; by destruct s).
  unfold send_turn. erewrite bind_ok by (by apply pair_deref). cbv zeta. rewrite Hsize.
  change (u64 UNIX_SOCK_BUFF_DEFAULT) with UNIX_SOCK_BUFF_DEFAULT.
  set (k := if UNIX_SOCK_BUFF_DEFAULT <? zlen data then UNIX_SOCK_BUFF_DEFAULT else zlen data).
  assert (Hk : k = Z.min (zlen data) UNIX_SOCK_BUFF_DEFAULT) by (unfold k; destruct (Z.ltb_spec UNIX_SOCK_BUFF_DEFAULT (zlen data)); lia).
  assert (Hk0 : 0 <= k <= zlen data) by (pose proof (zlen_nonneg data); unfold UNIX_SOCK_BUFF_DEFAULT in *; lia).
  mrw La. erewrite bind_ok by (by apply node_deref). erewrite bind_ok by (by apply pair_deref).
  rewrite (proj2 (Z.eqb_neq _ 0) Hpeer). cbv zeta. fold nonblock. unfold send_spec. rewrite <- Hk.
  pose proof (circ_writable (d_buff d y)) as Hw. rewrite Hroom in Hw. rewrite <- Hw.
  destruct (Z.leb_spec k (CircularWritePoll (d_buff d y))) as [Hle|Hgt].
  - rewrite (proj2 (Z.ltb_ge _ _)) by lia. rewrite andb_false_r.
    assert (Elen : zlen (take (Z.to_nat k) data) = k) by (unfold zlen in *; rewrite length_take; lia).
    destruct (circ_write (d_buff d y) (take (Z.to_nat k) data)) as (c & E & Ec & Er); [by rewrite Elen|].
    rewrite E, Elen. cbv beta iota. rewrite Z.eqb_refl. erewrite bind_ok by done. erewrite bind_ok by (by apply pair_update).
    edestruct (pair_locks (us_pairs (<[pr := d_put d c y]> (pairs s)) s) pr) as [_ Lr'];
      [done|apply lookup_insert_eq|by rewrite Hd2|]. mrw Lr'.
    exists (d_put d c y). eexists. erewrite bind_ok by reflexivity. split; [reflexivity|]. split; [right|by rewrite Hd1].
    exists c. split; [done|congruence].
  - rewrite (proj2 (Z.ltb_lt _ _)) by lia. rewrite andb_true_r. exists y, (u_world s). rewrite <- Es.
    split; [|split; [by left|done]]. by destruct nonblock; mrw Lr.
Qed.

(** ** A connection *)

(** The descriptors [fc] and [fa] of the two ends, the socket [k] and the pair
    [pr], with [up] on the way to the server and [down] on the way back. *)
Record connected s (fc fa k pr : Z) (nc na : SockNode) (up down : list Z) : Prop := {
  cn_client : fc <> 0 /\ nodes s !! fc = Some nc /\ n_dir nc = k;
  cn_server : fa <> 0 /\ nodes s !! fa = Some na /\ n_dir na = pr;
  cn_socket : k <> 0 /\ exists x, sockets s !! k = Some x /\ s_pair x = pr;
  cn_pair : pr <> 0 /\ exists y, pairs s !! pr = Some y /\ LOCK_PAIR y = false /\ clientFds y <> 0 /\ serverFds y <> 0 /\
    serverBuffSize y = UNIX_SOCK_BUFF_DEFAULT /\ clientBuffSize y = UNIX_SOCK_BUFF_DEFAULT /\
    content (serverBuff y) = up /\ room (serverBuff y) = UNIX_SOCK_BUFF_DEFAULT - 1 /\
    content (clientBuff y) = down /\ room (clientBuff y) = UNIX_SOCK_BUFF_DEFAULT - 1;
}.

Inductive socket_call :=
| ClientSends (data : list Z) (dontwait : bool)
| ClientReceives (limit : Z) (dontwait : bool)
| ServerSends (data : list Z) (dontwait : bool)
| ServerReceives (limit : Z) (dontwait : bool).
Inductive reply :=
| Sent (r : sres Z)
| Received (r : sres (Z * list Z)).

Definition exec_call (fc fa : Z) (c : socket_call) : M U reply :=
  match c with
  | ClientSends data b => let! r := unixSocketSendto fc data b in ret (Sent r)
  | ClientReceives limit b => let! r := unixSocketRecvfrom fc limit b in ret (Received r)
  | ServerSends data b => let! r := unixSocketAcceptSendto fa data b in ret (Sent r)
  | ServerReceives limit b => let! r := unixSocketAcceptRecvfrom fa limit b in ret (Received r)
  end.

Definition waits_not (n : SockNode) (b : bool) : bool := negb (Z.land (n_flags n) O_NONBLOCK =? 0) || b.

(** Two queues of bytes. *)
Definition call_spec (nc na : SockNode) (c : socket_call) (up down : list Z) : reply * (list Z * list Z) :=
  match c with
  | ClientSends data b => let r := send_spec (waits_not nc b) up data in (Sent r.1, (r.2, down))
  | ServerReceives limit b => let r := recv_spec (waits_not na b) up limit in (Received r.1, (r.2, down))
  | ServerSends data b => let r := send_spec (waits_not na b) down data in (Sent r.1, (up, r.2))
  | ClientReceives limit b => let r := recv_spec (waits_not nc b) down limit in (Received r.1, (up, r.2))
  end.

Definition call_valid (c : socket_call) : Prop :=
  match c with ClientReceives limit _ | ServerReceives limit _ => 0 <= limit | _ => True end.

Lemma to_server_ok : dir_ok to_server.
Proof. done. Qed.
Lemma to_client_ok : dir_ok to_client.
Proof. done. Qed.

(** The descriptors and sockets are untouched, the pair is the same but for its
    buffers. *)
Lemma connected_put s fc fa k pr nc na up down y y' w up' down' :
  connected s fc fa k pr nc na up down -> pairs s !! pr = Some y ->
  LOCK_PAIR y' = LOCK_PAIR y -> clientFds y' = clientFds y -> serverFds y' = serverFds y ->
  serverBuffSize y' = serverBuffSize y -> clientBuffSize y' = clientBuffSize y ->
  content (serverBuff y') = up' -> room (serverBuff y') = room (serverBuff y) ->
  content (clientBuff y') = down' -> room (clientBuff y') = room (clientBuff y) ->
  connected (us_world w (us_pairs (<[pr := y']> (pairs s)) s)) fc fa k pr nc na up' down'.
Proof.
  intros [Hc Hs Hk (Hp & z & Hz & Hl & Hcf & Hsf & S1 & S2 & C1 & R1 & C2 & R2)] Hy E1 E2 E3 E4 E5 E6 E7 E8 E9.
  rewrite Hz in Hy. injection Hy as ->. split; try done. split; [done|]. exists y'. split_and!; try congruence. apply lookup_insert_eq.
Qed.

Lemma call_ok s fc fa k pr nc na up down c :
  connected s fc fa k pr nc na up down -> call_valid c ->
  let r := call_spec nc na c up down in
  exists s', exec_call fc fa c s = Ok (r.1, s') /\ connected s' fc fa k pr nc na r.2.1 r.2.2.
Proof.
  intros Hcn Hv r. pose proof Hcn as [(Hfc & Hnc & Hdc) (Hfa & Hna & Hda) (Hk & x & Hx & Hxp)
    (Hp & y & Hy & Hl & Hcf & Hsf & S1 & S2 & C1 & R1 & C2 & R2)].
  assert (Hpx : (s_pair x =? 0) = false) by (apply Z.eqb_neq; congruence).
  destruct c as [data b|limit b|data b|limit b]; cbn [exec_call call_spec] in *.
  - unfold unixSocketSendto. rewrite !bind_assoc. erewrite bind_ok by (by apply node_deref). rewrite Hdc, bind_assoc.
    erewrite bind_ok by (by apply sock_deref). rewrite Hpx, Hxp.
    destruct (send_turn_ok s to_server serverFds fc pr nc y data b to_server_ok Hp Hy Hl Hfc Hnc Hsf S1 R1)
      as (z & w & E & Hz & Ec). cbn [to_server d_buff d_size d_put] in *. rewrite C1 in E, Ec. fold (waits_not nc b) in E, Ec.
    mrw E. eexists. split; [reflexivity|]. destruct Hz as [->|(c & -> & Hr)]; eapply connected_put; try done; cbn in *; congruence.
  - unfold unixSocketRecvfrom. rewrite !bind_assoc. erewrite bind_ok by (by apply node_deref). rewrite Hdc, bind_assoc.
    erewrite bind_ok by (by apply sock_deref). rewrite Hpx, Hxp.
    destruct (recv_turn_ok s to_client serverFds true fc pr nc y limit b to_client_ok Hp Hy Hl Hfc Hnc Hsf Hv)
      as (z & w & E & Ec & Er). cbn [to_client d_buff d_size d_put] in *. rewrite C2 in E, Ec. fold (waits_not nc b) in E, Ec.
    mrw E. eexists. split; [reflexivity|]. destruct (decide (down = [])) as [->|]; eapply connected_put; try done; cbn in *; congruence.
  - unfold unixSocketAcceptSendto. rewrite !bind_assoc. erewrite bind_ok by (by apply node_deref). rewrite Hda.
    destruct (send_turn_ok s to_client clientFds fa pr na y data b to_client_ok Hp Hy Hl Hfa Hna Hcf S2 R2)
      as (z & w & E & Hz & Ec). cbn [to_client d_buff d_size d_put] in *. rewrite C2 in E, Ec. fold (waits_not na b) in E, Ec.
    mrw E. eexists. split; [reflexivity|]. destruct Hz as [->|(c & -> & Hr)]; eapply connected_put; try done; cbn in *; congruence.
  - unfold unixSocketAcceptRecvfrom. rewrite !bind_assoc. erewrite bind_ok by (by apply node_deref). rewrite Hda.
    destruct (recv_turn_ok s to_server clientFds false fa pr na y limit b to_server_ok Hp Hy Hl Hfa Hna Hcf Hv)
      as (z & w & E & Ec & Er). cbn [to_server d_buff d_size d_put] in *. rewrite C1 in E, Ec. fold (waits_not na b) in E, Ec.
    mrw E. eexists. split; [reflexivity|]. destruct (decide (up = [])) as [->|]; eapply connected_put; try done; cbn in *; congruence.
Qed.

(** ** Sequences of calls *)

Fixpoint exec_calls (fc fa : Z) (cs : list socket_call) : M U (list reply) :=
  match cs with
  | [] => ret []
  | c :: cs => let! r := exec_call fc fa c in let! rs := exec_calls fc fa cs in ret (r :: rs)
  end.

Fixpoint calls_spec (nc na : SockNode) (cs : list socket_call) (up down : list Z) : list reply * (list Z * list Z) :=
  match cs with
  | [] => ([], (up, down))
  | c :: cs =>
      let '(r, (up, down)) := call_spec nc na c up down in
      let '(rs, q) := calls_spec nc na cs up down in (r :: rs, q)
  end.

(** The bytes a call has sent, and those it has received. *)
Definition bytes_sent (data : list Z) (r : reply) : list Z :=
  match r with Sent (Done k) => if RET_IS_ERR k then [] else take (Z.to_nat k) data | _ => [] end.
Definition bytes_received (r : reply) : list Z := match r with Received (Done (_, bytes)) => bytes | _ => [] end.

Definition client_sent (cr : socket_call * reply) : list Z := match cr.1 with ClientSends data _ => bytes_sent data cr.2 | _ => [] end.
Definition server_sent (cr : socket_call * reply) : list Z := match cr.1 with ServerSends data _ => bytes_sent data cr.2 | _ => [] end.
Definition client_got (cr : socket_call * reply) : list Z := match cr.1 with ClientReceives _ _ => bytes_received cr.2 | _ => [] end.
Definition server_got (cr : socket_call * reply) : list Z := match cr.1 with ServerReceives _ _ => bytes_received cr.2 | _ => [] end.

Lemma send_spec_fifo b q data r : send_spec b q data = r -> q ++ bytes_sent data (Sent r.1) = r.2.
Proof.
  intros <-. unfold send_spec. set (k := Z.min (zlen data) UNIX_SOCK_BUFF_DEFAULT). destruct (k <=? _) eqn:E; cbn [fst snd bytes_sent].
  - assert (RET_IS_ERR k = false) as ->; [|done]. apply Z.ltb_ge. change (u64 (-4096)) with 18446744073709547520. unfold k, UNIX_SOCK_BUFF_DEFAULT. lia.
  - destruct b; by rewrite app_nil_r.
Qed.

Lemma recv_spec_fifo b q limit r : recv_spec b q limit = r -> q = bytes_received (Received r.1) ++ r.2.
Proof. intros <-. unfold recv_spec. destruct q as [|x q]; [by destruct b|]. cbn -[take drop Z.min]. by rewrite take_drop. Qed.

Lemma call_fifo nc na c up down r up' down' :
  call_spec nc na c up down = (r, (up', down')) ->
  up ++ client_sent (c, r) = server_got (c, r) ++ up' /\ down ++ server_sent (c, r) = client_got (c, r) ++ down'.
Proof.
  destruct c as [data b|limit b|data b|limit b]; cbn [call_spec]; intros [= <- <- <-]; cbn [client_sent server_sent client_got server_got fst snd];
    rewrite ?app_nil_r; cbn [app]; split; try done.
  - by apply send_spec_fifo with (1 := eq_refl).
  - by apply recv_spec_fifo with (1 := eq_refl).
  - by apply send_spec_fifo with (1 := eq_refl).
  - by apply recv_spec_fifo with (1 := eq_refl).
Qed.

Lemma calls_fifo nc na cs up down rs up' down' :
  calls_spec nc na cs up down = (rs, (up', down')) ->
  up ++ concat (client_sent <$> zip cs rs) = concat (server_got <$> zip cs rs) ++ up' /\
  down ++ concat (server_sent <$> zip cs rs) = concat (client_got <$> zip cs rs) ++ down'.
Proof.
  revert up down rs. induction cs as [|c cs IH]; intros up down rs; cbn [calls_spec].
  - intros [= <- <- <-]. cbn. by rewrite !app_nil_r.
  - destruct (call_spec nc na c up down) as [r [up1 down1]] eqn:E1. destruct (calls_spec nc na cs up1 down1) as [rs1 q] eqn:E2.
    intros [= <- ->]. destruct (IH _ _ _ E2) as [H1 H2]. destruct (call_fifo _ _ _ _ _ _ _ _ E1) as [H3 H4].
    cbn [zip zip_with fmap list_fmap concat]. rewrite !app_assoc, H3, H4, <- !app_assoc, H1, H2. done.
Qed.

(** C30: A connection is two streams.  Whatever calls the two ends make, in any
    order and blocking or not, each returns what two bounded queues of bytes
    would give: a receiver the oldest bytes, at most as many as it asks for; a
    sender room for everything it offers, up to the size of the buffer, or
    nothing.  The bytes received at one end, followed by those still buffered,
    are the bytes sent at the other. *)
Theorem socket_streams s fc fa k pr nc na up down cs :
  connected s fc fa k pr nc na up down -> Forall call_valid cs ->
  exists rs s' up' down', exec_calls fc fa cs s = Ok (rs, s') /\
    calls_spec nc na cs up down = (rs, (up', down')) /\
    connected s' fc fa k pr nc na up' down' /\
    up ++ concat (client_sent <$> zip cs rs) = concat (server_got <$> zip cs rs) ++ up' /\
    down ++ concat (server_sent <$> zip cs rs) = concat (client_got <$> zip cs rs) ++ down'.
Proof.
  intros Hc Hv. enough (exists s', exec_calls fc fa cs s = Ok ((calls_spec nc na cs up down).1, s') /\
    connected s' fc fa k pr nc na (calls_spec nc na cs up down).2.1 (calls_spec nc na cs up down).2.2) as (s' & E & Hc').
  { destruct (calls_spec nc na cs up down) as [rs [up' down']] eqn:Es. exists rs, s', up', down'.
    split_and!; [done..| |]; eapply calls_fifo; exact Es. }
  revert s up down Hc. induction Hv as [|c cs Hv1 Hv IH]; intros s up down Hc; cbn [exec_calls calls_spec]; [by eexists|].
  destruct (call_ok s fc fa k pr nc na up down c Hc Hv1) as (s1 & E1 & Hc1). cbv zeta in E1, Hc1.
  destruct (call_spec nc na c up down) as [r [up1 down1]]. destruct (IH _ _ _ Hc1) as (s2 & E2 & Hc2). cbn [fst snd] in *.
  destruct (calls_spec nc na cs up1 down1) as [rs [up2 down2]]. exists s2. split; [|done].
  mrw E1. mrw E2. done.
Qed.

(** ** Finding a listener *)

(** The sockets of the list are [l], none of them locked. *)
Record socks_ok s (l : list Z) : Prop := {
  so_list : exists rows, rows.*1 = l /\ ll_list (mkLs (dsUnixSocket s) (headers s)) UnixSocket_size rows;
  so_lock : LOCK_LL_UNIX_SOCKET s = false;
  so_socks : forall a, a ∈ l -> exists x, sockets s !! a = Some x /\ LOCK_SOCK x = false;
}.

(** The first socket of the list with the name, the caller's excepted. *)
Definition bound_first s (l : list Z) (skip : Z) (name : list Z) (k : Z) : Prop :=
  exists l1 l2, l = l1 ++ k :: l2 /\ k <> skip /\ (exists x, sockets s !! k = Some x /\ bindAddr x = Some name) /\
    forall a x, a ∈ l1 -> sockets s !! a = Some x -> a = skip \/ bindAddr x <> Some name.

Lemma on_list_cell s a c : a <> 0 -> headers s !! a = Some c -> on_list (cell a) s = Ok (c, s).
Proof.
  intros Ha Hc. unfold on_list, us_part. rewrite (cell_ok _ _ c) by done. by destruct s.
Qed.

Lemma sock_search_ok s l1 k l2 skip name p rows fuel :
  rows.*1 = l1 ++ k :: l2 -> chain (headers s) p rows 0 ->
  (forall a, a ∈ l1 ++ [k] -> exists x, sockets s !! a = Some x /\ LOCK_SOCK x = false) ->
  (forall a x, a ∈ l1 -> sockets s !! a = Some x -> a = skip \/ bindAddr x <> Some name) ->
  k <> skip -> (exists x, sockets s !! k = Some x /\ bindAddr x = Some name) -> (length l1 < fuel)%nat ->
  sock_search fuel p skip name s = Ok (k, s).
Proof.
  revert p rows fuel. induction l1 as [|a l1 IH]; intros p rows fuel Er Hc Hs Hn Hk (x & Hx & Hb) Hf;
    (destruct fuel as [|fuel]; [cbn in Hf; lia|]); (destruct rows as [|[a' z] rows]; [done|]);
    cbn in Er; injection Er as -> Er; destruct Hc as (-> & Ha & n & Hh & Hc); cbn [sock_search];
    rewrite (proj2 (Z.eqb_neq _ 0) Ha); erewrite bind_ok by (by apply on_list_cell).
  - rewrite (proj2 (Z.eqb_neq _ skip) Hk). destruct (Hs k) as (x' & Hx' & Hl); [set_solver|].
    assert (x' = x) as -> by congruence. destruct (sock_locks s k x Ha Hx Hl) as [La _]. mrw La.
    erewrite bind_ok by (by apply sock_deref). by rewrite bool_decide_true.
  - cbn [ll_next]. assert (IH' : sock_search fuel n skip name s = Ok (k, s)).
    { apply (IH n rows); [done|done| | |done|by exists x|cbn in Hf; lia].
      - intros b Hb'. apply Hs. set_solver.
      - intros b y Hb' Hy. apply (Hn b); [set_solver|done]. }
    destruct (Z.eqb_spec a skip) as [->|Hne]; [done|].
    destruct (Hs a) as (y & Hy & Hl); [set_solver|]. destruct (sock_locks s a y Ha Hy Hl) as [La Lr]. mrw La.
    erewrite bind_ok by (by apply sock_deref).
    destruct (Hn a y) as [?|Hne']; [set_solver|done|done|]. rewrite bool_decide_false by done. by mrw Lr.
Qed.

Lemma find_bound_ok s l skip name k :
  socks_ok s l -> bound_first s l skip name k -> find_bound skip name s = Ok (k, s).
Proof.
  intros [(rows & Er & L) Hl Hs] (l1 & l2 & -> & Hk & Hx & Hn). destruct (list_locks s Hl) as [La Lr]. unfold find_bound. mrw La.
  do 2 erewrite bind_ok by done. pose proof (chain_fuel _ _ _ L) as Hf. destruct L as (_ & _ & Hc).
  erewrite bind_ok. 2:{ apply (sock_search_ok s l1 k l2 skip name _ rows); [done|done| |done|done|done|].
    - intros a Ha. apply Hs. set_solver.
    - assert (length rows = length (l1 ++ k :: l2)) as Hlen by (by rewrite <- Er, length_fmap).
      rewrite length_app in Hlen. cbn in Hlen. unfold ll_fuel in Hf. cbn in Hf. lia. }
  by mrw Lr.
Qed.

(** ** Connecting *)

(** A listener and the connections nobody has accepted yet, oldest first. *)
Record listening s (k : Z) (name : list Z) (mx : Z) (q : list Z) : Prop := {
  li_k : k <> 0;
  li_max : 0 < mx < 2 ^ 31;
  li_sock : exists x b, sockets s !! k = Some x /\ LOCK_SOCK x = false /\ bindAddr x = Some name /\ connMax x = mx /\
    connCurr x = zlen q /\ backlog x = Some b /\ zlen b = mx /\ take (length q) b = q;
}.

Definition fresh_pair : Pair :=
  mkPair false false 0 (CircularAllocate UNIX_SOCK_BUFF_DEFAULT) UNIX_SOCK_BUFF_DEFAULT None
    1 (CircularAllocate UNIX_SOCK_BUFF_DEFAULT) UNIX_SOCK_BUFF_DEFAULT.

Lemma allocate_pair_ok s :
  unixSocketAllocatePair s = Ok (malloc (pairs s), us_pairs (<[malloc (pairs s) :=
    mkPair false false 0 (CircularAllocate UNIX_SOCK_BUFF_DEFAULT) UNIX_SOCK_BUFF_DEFAULT None
      0 (CircularAllocate UNIX_SOCK_BUFF_DEFAULT) UNIX_SOCK_BUFF_DEFAULT]> (pairs s)) s).
Proof. done. Qed.

Lemma us_pairs_twice s h h' h'' : us_pairs h (us_sockets h'' (us_pairs h' s)) = us_sockets h'' (us_pairs h s).
Proof. done. Qed.
Lemma us_sockets_twice s h h' h'' : us_sockets h (us_sockets h'' (us_pairs h' s)) = us_sockets h (us_pairs h' s).
Proof. done. Qed.

(** A blocking connect to a listener with a free slot. *)
Theorem connect_queues s l fc nc kc xc kl name mx q addr len :
  socks_ok s l -> fc <> 0 -> nodes s !! fc = Some nc -> n_dir nc = kc -> Z.land (n_flags nc) O_NONBLOCK = 0 ->
  kc <> 0 -> sockets s !! kc = Some xc -> connMax xc = 0 -> s_pair xc = 0 ->
  unixSocketAddrSafe addr len s = Ok (inr name, s) -> bound_first s l kc name kl ->
  listening s kl name mx q -> zlen q < mx ->
  exists pr s', connect_begin fc addr len s = Ok (Blocks, s') /\ pr <> 0 /\ pairs s !! pr = None /\
    pairs s' = <[pr := fresh_pair]> (pairs s) /\ nodes s' = nodes s /\
    sockets s' !! kc = Some (set_s_pair pr xc) /\ listening s' kl name mx (q ++ [pr]) /\
    (forall k, k <> kc -> k <> kl -> sockets s' !! k = sockets s !! k) /\
    u_world s' = svc_ring pr EPOLLIN (svc_ring kl EPOLLIN (u_world s)).
Proof.
  intros O Hfc Hnc Hdc Hblk Hkc Hxc Hmx0 Hp0 Haddr Hbound [Hkl Hmx (x & b & Hx & Hl & Hb & Hm & Hcur & Hbl & Hlen & Hq)] Hroom.
  pose proof (malloc_fresh (pairs s)) as Hf. pose proof (malloc_nonnull (pairs s)) as Hf0. set (pr := malloc (pairs s)) in *.
  assert (Hne : kl <> kc) by (by destruct Hbound as (? & ? & _ & ? & _)).
  pose proof (zlen_nonneg q) as Hq0.
  assert (is_Some (b !! Z.to_nat (connCurr x))) as [old Hold].
  { apply lookup_lt_is_Some. rewrite Hcur. unfold zlen in *. lia. }
  exists pr. eexists. split.
  { unfold connect_begin. erewrite bind_ok by (by apply node_deref). cbv zeta. rewrite Hdc.
    erewrite bind_ok by (by apply sock_deref). rewrite Hmx0, Hp0. cbn [negb Z.eqb]. mrw Haddr.
    erewrite bind_ok by (by eapply find_bound_ok). rewrite (proj2 (Z.eqb_neq _ 0) Hkl).
    erewrite bind_ok by (by apply sock_deref). rewrite Hblk. cbn [negb Z.eqb]. rewrite andb_false_r.
    rewrite (proj2 (Z.eqb_neq (connMax x) 0)) by lia. erewrite bind_ok by done.
    rewrite (proj2 (Z.leb_gt (connMax x) (connCurr x))) by lia.
    erewrite bind_ok by apply allocate_pair_ok. fold pr.
    erewrite bind_ok by (by apply (sock_update _ kc xc)).
    erewrite bind_ok by (apply pair_update; [done|apply lookup_insert_eq]). rewrite us_pairs_twice. cbn [pairs us_sockets us_pairs].
    rewrite insert_insert_eq. cbn [LOCK_PAIR established serverFds serverBuff serverBuffSize p_filename clientBuff clientBuffSize].
    erewrite bind_ok by (apply sock_deref; [done|cbn; by rewrite lookup_insert_ne]).
    rewrite Hbl. erewrite bind_ok by done. rewrite Hold. erewrite bind_ok by done.
    erewrite bind_ok by (apply sock_update; [done|cbn; by rewrite lookup_insert_ne]). rewrite us_sockets_twice.
    cbn [sockets us_sockets us_pairs].
    match goal with |- bind _ _ ?st = _ => edestruct (sock_locks st kl) as [_ Lr] end;
      [exact Hkl|apply lookup_insert_eq|exact Hl|]. mrw Lr. do 2 erewrite bind_ok by reflexivity. reflexivity. }
  split_and!; [done|done|done|done| | | |done].
  - cbn. rewrite lookup_insert_ne by done. apply lookup_insert_eq.
  - split; [done|done|]. eexists _, _. split_and!; [apply lookup_insert_eq|done|done|done| |reflexivity| |].
    + cbn. rewrite Hcur, zlen_app, s32_small by lia. done.
    + unfold zlen in *. by rewrite length_insert.
    + rewrite Hcur. unfold zlen. rewrite Nat2Z.id, length_app. cbn [length].
      assert (length q < length b)%nat as Hlt by (unfold zlen in *; lia). rewrite (insert_take_drop b _ pr Hlt), Hq.
      rewrite take_app_ge by lia. by replace (length q + 1 - length q)%nat with 1%nat by lia.
  - intros k Hk1 Hk2. cbn. by rewrite !lookup_insert_ne.
Qed.

(** ** Accepting *)

Definition accepted (name : list Z) (y : Pair) : Pair :=
  mkPair (LOCK_PAIR y) true 1 (serverBuff y) (serverBuffSize y) (Some name) (clientFds y) (clientBuff y) (clientBuffSize y).

Lemma shift_backlog_ok p q b n :
  take (length (p :: q)) b = p :: q -> zlen b = n -> zlen (shift_backlog b) = n /\ take (length q) (shift_backlog b) = q.
Proof.
  destruct b as [|p' b]; [done|]. cbn [length take]. intros [= -> Hq] Hn. unfold shift_backlog. split.
  - rewrite zlen_app. rewrite !zlen_cons in *. change (zlen (@nil Z)) with 0. lia.
  - assert (length q <= length b)%nat by (rewrite <- Hq, length_take; lia). by rewrite take_app_le.
Qed.

Lemma accept_create_ok s dir id w :
  svc_open_null (u_world s) = (id, w) -> RET_IS_ERR id = false ->
  unixSocketAcceptCreate dir s =
    Ok (malloc (nodes s), us_world w (us_nodes (<[malloc (nodes s) := mkNode id dir true O_RDWR false]> (nodes s)) s)).
Proof.
  intros E He. unfold unixSocketAcceptCreate, open_node.
  erewrite (bind_ok _ _ s id (us_world w s)) by (by rewrite E). rewrite He. erewrite bind_ok by done. done.
Qed.

(** Accept takes the oldest connection. *)
Theorem accept_takes_oldest s fl nl kl name mx p q y id w :
  listening s kl name mx (p :: q) -> fl <> 0 -> nodes s !! fl = Some nl -> n_dir nl = kl ->
  p <> 0 -> pairs s !! p = Some y -> LOCK_PAIR y = false -> serverFds y = 0 ->
  svc_open_null (u_world s) = (id, w) -> RET_IS_ERR id = false ->
  exists fa s', unixSocketAccept fl s = Ok (Done id, s') /\ fa <> 0 /\ nodes s !! fa = None /\
    nodes s' = <[fa := mkNode id p true O_RDWR false]> (nodes s) /\ pairs s' = <[p := accepted name y]> (pairs s) /\
    listening s' kl name mx q /\ (forall k, k <> kl -> sockets s' !! k = sockets s !! k).
Proof.
  intros [Hkl Hmx (x & b & Hx & Hl & Hb & Hm & Hcur & Hbl & Hlen & Hq)] Hfl Hnl Hdl Hp Hy Hly Hsf Ew He.
  pose proof (malloc_fresh (nodes s)) as Hf. pose proof (malloc_nonnull (nodes s)) as Hf0. set (fa := malloc (nodes s)) in *.
  pose proof (zlen_nonneg q) as Hq0. rewrite zlen_cons in Hcur.
  destruct (sock_locks s kl x Hkl Hx Hl) as [La _]. destruct (pair_locks s p y Hp Hy Hly) as [Lp _].
  assert (Hb0 : b !! 0%nat = Some p) by (destruct b; [done|]; cbn in Hq; by injection Hq as ->).
  exists fa. eexists. split.
  { unfold unixSocketAccept. erewrite bind_ok by (by apply node_deref). cbv zeta. rewrite Hdl. mrw La.
    erewrite bind_ok by (by apply sock_deref). rewrite Hcur. rewrite (proj2 (Z.ltb_lt 0 _)) by lia. cbn [negb].
    rewrite Hbl. erewrite bind_ok by done. rewrite Hb0. erewrite bind_ok by done. mrw Lp.
    erewrite bind_ok by (by apply pair_deref). rewrite Hsf. erewrite bind_ok by done. rewrite Hb. erewrite bind_ok by done.
    erewrite bind_ok by (by apply pair_update). cbv beta. rewrite Hsf. change (s32 (0 + 1)) with 1. fold (accepted name y).
    match goal with |- bind _ _ ?st = _ => edestruct (pair_locks st p) as [_ Lr] end;
      [exact Hp|apply lookup_insert_eq|exact Hly|]. mrw Lr.
    erewrite bind_ok by (by apply (accept_create_ok _ _ id w)). cbn [nodes us_pairs]. fold fa.
    erewrite bind_ok by (by apply (sock_update _ kl x)).
    match goal with |- bind _ _ ?st = _ => edestruct (sock_locks st kl) as [_ Ls] end;
      [exact Hkl|apply lookup_insert_eq|exact Hl|]. mrw Ls.
    erewrite bind_ok by (apply node_deref; [exact Hf0|apply lookup_insert_eq]). reflexivity. }
  split_and!; [done|done|done|done| |].
  - destruct (shift_backlog_ok p q b mx Hq Hlen) as [E1 E2].
    split; [done|done|]. eexists _, _. split_and!; [apply lookup_insert_eq|done|done|done| |reflexivity|done|done].
    cbn. rewrite Hcur, s32_small; [lia|]. assert (zlen (p :: q) <= zlen b).
    { rewrite <- Hq. unfold zlen. rewrite length_take. lia. }
    rewrite zlen_cons in *. lia.
  - intros k Hk. cbn. by rewrite lookup_insert_ne.
Qed.

(** C31: Connecting.  A blocking connect to the name of a listener with no one
    waiting leaves the caller blocked; the listener's next accept returns a fresh
    descriptor, after which the connect returns 0: the two descriptors are the
    ends of one new connection with nothing on its way. *)
Theorem connect_meets_accept s l fc nc kc xc kl name mx addr len fl nl id :
  socks_ok s l -> fc <> 0 -> nodes s !! fc = Some nc -> n_dir nc = kc -> Z.land (n_flags nc) O_NONBLOCK = 0 ->
  kc <> 0 -> sockets s !! kc = Some xc -> connMax xc = 0 -> s_pair xc = 0 ->
  unixSocketAddrSafe addr len s = Ok (inr name, s) -> bound_first s l kc name kl -> listening s kl name mx [] ->
  fl <> 0 -> nodes s !! fl = Some nl -> n_dir nl = kl ->
  (forall pr, exists w, svc_open_null (svc_ring pr EPOLLIN (svc_ring kl EPOLLIN (u_world s))) = (id, w)) -> RET_IS_ERR id = false ->
  exists pr fa s1 s2, connect_begin fc addr len s = Ok (Blocks, s1) /\ connect_resume fc s1 = Ok (Blocks, s1) /\
    unixSocketAccept fl s1 = Ok (Done id, s2) /\ connect_resume fc s2 = Ok (Done 0, s2) /\
    nodes s !! fa = None /\ pairs s !! pr = None /\ listening s2 kl name mx [] /\
    connected s2 fc fa kc pr nc (mkNode id pr true O_RDWR false) [] [].
Proof.
  intros O Hfc Hnc Hdc Hblk Hkc Hxc Hm Hp Haddr Hbound Hli Hfl Hnl Hdl Hopen He.
  assert (Hne : kl <> kc) by (by destruct Hbound as (? & ? & _ & ? & _)).
  destruct (connect_queues s l fc nc kc xc kl name mx [] addr len O Hfc Hnc Hdc Hblk Hkc Hxc Hm Hp Haddr Hbound Hli)
    as (pr & s1 & E1 & Hpr & Hnew & Ep & En & Ek & Hli1 & _ & Ew); [apply Hli|].
  destruct (Hopen pr) as [w Hw].
  destruct (accept_takes_oldest s1 fl nl kl name mx pr [] fresh_pair id w Hli1 Hfl) as (fa & s2 & E2 & Hfa & Hfaf & En2 & Ep2 & Hli2 & Hk2);
    [by rewrite En|done|done|rewrite Ep; apply lookup_insert_eq|done|done|by rewrite Ew|done|].
  assert (fa <> fc) by (intros ->; rewrite En in Hfaf; congruence).
  assert (Hc2 : sockets s2 !! kc = Some (set_s_pair pr xc)) by (by rewrite Hk2).
  destruct (circ_new UNIX_SOCK_BUFF_DEFAULT) as [Ec Er]; [done|].
  assert (resume : forall s' y, nodes s' !! fc = Some nc -> sockets s' !! kc = Some (set_s_pair pr xc) -> pairs s' !! pr = Some y ->
    LOCK_PAIR y = false -> connect_resume fc s' = Ok (if established y then Done 0 else Blocks, s')).
  { intros s' y H1 H2 H3 H4. destruct (pair_locks s' pr y Hpr H3 H4) as [La Lr]. unfold connect_resume.
    erewrite bind_ok by (by apply node_deref). rewrite Hdc. erewrite bind_ok by (by apply sock_deref). cbn [s_pair set_s_pair].
    mrw La. erewrite bind_ok by (by apply pair_deref). by mrw Lr. }
  assert (Hn2 : nodes s2 !! fc = Some nc) by (rewrite En2, lookup_insert_ne by done; by rewrite En).
  exists pr, fa, s1, s2. split_and!; [done| |done| |by rewrite <- En|done|done|].
  - apply (resume s1 fresh_pair); [by rewrite En|done|rewrite Ep; apply lookup_insert_eq|done].
  - apply (resume s2 (accepted name fresh_pair)); [done|done|rewrite Ep2; apply lookup_insert_eq|done].
  - split.
    + done.
    + split_and!; [done|by rewrite En2, lookup_insert_eq|done].
    + split; [done|]. by eexists.
    + split; [done|]. exists (accepted name fresh_pair). split_and!; try done. rewrite Ep2. apply lookup_insert_eq.
Qed.

(** ** Releasing a pair *)

(** The end of one accepted descriptor: the pair goes with the last descriptor of
    either side, and not before. *)
Theorem accept_close_counts s fa na y :
  fa <> 0 -> nodes s !! fa = Some na -> n_dir na <> 0 -> pairs s !! n_dir na = Some y -> LOCK_PAIR y = false ->
  1 <= serverFds y < 2 ^ 31 ->
  exists w, unixSocketAcceptClose fa s = Ok (true, us_world w (us_pairs
    (if (serverFds y =? 1) && (clientFds y =? 0) then delete (n_dir na) (pairs s)
     else <[n_dir na := set_server_fds (-1) y]> (pairs s)) s)).
Proof.
  intros Hf Hn Hp Hy Hl Hs. destruct (pair_locks s _ y Hp Hy Hl) as [La _]. unfold unixSocketAcceptClose.
  erewrite bind_ok by (by apply node_deref). cbv zeta. mrw La. erewrite bind_ok by (by apply pair_update).
  erewrite bind_ok by (apply pair_deref; [done|apply lookup_insert_eq]).
  assert (E1 : serverFds (set_server_fds (-1) y) = serverFds y - 1) by (cbn; rewrite s32_small; lia).
  rewrite E1. replace (serverFds y - 1 =? 0) with (serverFds y =? 1) by (apply eq_true_iff_eq; lia).
  change (clientFds (set_server_fds (-1) y)) with (clientFds y).
  set (h := <[n_dir na := set_server_fds (-1) y]> (pairs s)).
  assert (E : (if (serverFds y =? 1) && (clientFds y =? 0) then unixSocketFreePair (n_dir na) else pair_lock spinlock_release (n_dir na))
      (us_pairs h s) = Ok (tt, us_pairs (if (serverFds y =? 1) && (clientFds y =? 0) then delete (n_dir na) (pairs s) else h) s)).
  { destruct ((serverFds y =? 1) && (clientFds y =? 0)) eqn:Eb.
    - unfold unixSocketFreePair. erewrite bind_ok by (apply pair_deref; [done|apply lookup_insert_eq]). rewrite E1.
      replace (serverFds y - 1 =? 0) with (serverFds y =? 1) by (apply eq_true_iff_eq; lia).
      change (clientFds (set_server_fds (-1) y)) with (clientFds y). rewrite Eb. erewrite bind_ok by done.
      unfold on_pairs, us_part. cbn [pairs us_pairs]. erewrite dispose_ok by (done || apply lookup_insert_eq).
      unfold h. by rewrite delete_insert_eq.
    - edestruct (pair_locks (us_pairs h s) (n_dir na)) as [_ Lr]; [done|apply lookup_insert_eq|exact Hl|]. exact Lr. }
  mrw E. destruct (serverFds y =? 1); (eexists; erewrite bind_ok by reflexivity); [reflexivity|]. unfold ret.
  instantiate (1 := u_world s). reflexivity.
Qed.

(** ** Boundary cases *)

(** Nothing in the kernel initialises the list of sockets. *)
Theorem first_socket_halts s type :
  dsUnixSocket s = mkLL 0 0 0 0 -> LOCK_LL_UNIX_SOCKET s = false -> RET_IS_ERR (svc_open_null (u_world s)).1 = false ->
  Z.land type 1 <> 0 -> unixSocketOpen type s = Halted.
Proof.
  intros Hds Hl He Ht. unfold unixSocketOpen, socket_node. rewrite (proj2 (Z.eqb_neq _ 0) Ht).
  destruct s as [ds lk hd sk pr nd wd]. cbn in *. subst. unfold open_node, bind. cbn.
  destruct (svc_open_null wd) as [id w]. cbn in He. by rewrite He.
Qed.

(** A blocking send as large as the buffer waits for room the buffer never has. *)
Theorem full_send_stuck s fc fa k pr nc na up down data :
  connected s fc fa k pr nc na up down -> Z.land (n_flags nc) O_NONBLOCK = 0 -> UNIX_SOCK_BUFF_DEFAULT <= zlen data ->
  exists s', unixSocketSendto fc data false s = Ok (Blocks, s') /\ connected s' fc fa k pr nc na up down.
Proof.
  intros Hc Hb Hd. destruct (call_ok s fc fa k pr nc na up down (ClientSends data false) Hc I) as (s' & E & Hc').
  cbv zeta in E, Hc'. cbn [call_spec] in E, Hc'. unfold waits_not in E, Hc'. rewrite Hb in E, Hc'. cbn [Z.eqb negb orb] in E, Hc'.
  assert (Es : send_spec false up data = (Blocks, up)).
  { unfold send_spec. rewrite Z.min_r by done. rewrite (proj2 (Z.leb_gt _ _)); [done|]. pose proof (zlen_nonneg up). lia. }
  rewrite Es in E, Hc'. exists s'. split; [|done]. cbn [exec_call] in E. unfold bind in E at 1.
  destruct (unixSocketSendto fc data false s) as [[r s1]| | |]; try done. by injection E as -> ->.
Qed.
End sockets.

(** ** A queue as ring buffer *)

Record queue := mkQueue { q_size : Z; q_bytes : list Z }.
#[export] Instance queue_ops : CircularOps queue := {|
  CircularAllocate n := mkQueue n [];
  CircularRead c n := let k := Z.min n (zlen (q_bytes c)) in
    (k, take (Z.to_nat k) (q_bytes c), mkQueue (q_size c) (drop (Z.to_nat k) (q_bytes c)));
  CircularWrite c bs := let k := Z.min (zlen bs) (q_size c - 1 - zlen (q_bytes c)) in
    (k, mkQueue (q_size c) (q_bytes c ++ take (Z.to_nat k) bs));
  CircularReadPoll c := zlen (q_bytes c);
  CircularWritePoll c := q_size c - 1 - zlen (q_bytes c);
|}.
#[export] Program Instance queue_spec : CircularSpec queue := {|
  content := q_bytes;
  room c := q_size c - 1;
|}.
Next Obligation. done. Qed.
Next Obligation. done. Qed.
Next Obligation. done. Qed.
Next Obligation.
  intros c bs H. cbn in *. rewrite Z.min_l by lia. rewrite take_ge by (unfold zlen; lia). eexists. split; [reflexivity|]. done.
Qed.
Next Obligation.
  intros c n H. cbn in *. rewrite Z.min_l by lia. eexists. split; [reflexivity|]. done.
Qed.

#[export] Instance sample_sockets : SocketServices Z := {|
  svc_open_null w := (w, w + 1);
  svc_sanitize name w := name;
  svc_stat name w := None;
  svc_ring key events w := w;
  svc_sigpipe w := w;
|}.

(** ** A sample: two sockets, one of them listening under a name *)

Definition us0 : usys queue Z :=
  mkUs (mkLL LL_SIGNATURE_1 LL_SIGNATURE_2 UnixSocket_size 0) false ∅ ∅ ∅ ∅ 3.
Definition sample_addr : sockaddr := mkAddr AF_UNIX [47; 120].
Definition state_after {A} (o : outcome (A * usys queue Z)) : usys queue Z := match o with Ok (_, s) => s | _ => us0 end.

(** Node 1 is the listener's (descriptor 3), node 2 the client's (descriptor 4). *)
Definition set_up : M (usys queue Z) Z :=
  let! _ := unixSocketOpen 1 in
  let! _ := unixSocketOpen 1 in
  let! _ := unixSocketBind 1 sample_addr 4 in
  unixSocketListen 1 5.
Definition us1 : usys queue Z := Eval vm_compute in state_after (set_up us0).
Definition us2 : usys queue Z :=
  Eval vm_compute in state_after ((let! _ := connect_begin 2 sample_addr 4 in unixSocketAccept 1) us1).

Lemma us1_socks : socks_ok us1 [1; 2].
Proof.
  split; [|done|].
  - exists [(1, replicate 48 0); (2, replicate 48 0)]. split; [done|]. split_and!; [done| |].
    + repeat constructor; set_solver.
    + cbn. split_and!; [done..|]. eexists. split; [reflexivity|]. split_and!; [done..|]. eexists. by split.
  - intros a [->|[->|[]%not_elem_of_nil]%elem_of_cons]%elem_of_cons; by eexists.
Qed.

Lemma us1_bound : bound_first us1 [1; 2] 2 [47; 120] 1.
Proof. exists [], [2]. split_and!; [done|done|by eexists|]. intros a x []%not_elem_of_nil. Qed.

Lemma us1_listening : listening us1 1 [47; 120] 5 [].
Proof. split; [done|done|]. eexists _, _. by split_and!. Qed.

Lemma us2_connected :
  connected us2 2 3 2 1 (mkNode 4 2 false O_RDWR true) (mkNode 5 1 true O_RDWR false) [] [].
Proof.
  split; [done|done|split; [done|by eexists]|]. split; [done|]. eexists. split; [reflexivity|]. by split_and!.
Qed.

Lemma connect_meets_accept_witness :
  exists pr fa s1 s2, connect_begin 2 sample_addr 4 us1 = Ok (Blocks, s1) /\ connect_resume 2 s1 = Ok (Blocks, s1) /\
    unixSocketAccept 1 s1 = Ok (Done 5, s2) /\ connect_resume 2 s2 = Ok (Done 0, s2) /\
    nodes us1 !! fa = None /\ pairs us1 !! pr = None /\ listening s2 1 [47; 120] 5 [] /\
    connected s2 2 fa 2 pr (mkNode 4 2 false O_RDWR true) (mkNode 5 pr true O_RDWR false) [] [].
Proof.
  apply (connect_meets_accept us1 [1; 2] 2 (mkNode 4 2 false O_RDWR true) 2 (mkSock false 1 false None 0 0 None 0) 1 [47; 120] 5
    sample_addr 4 1 (mkNode 3 1 false O_RDWR true) 5 us1_socks).
  - discriminate.
  - reflexivity.
  - reflexivity.
  - reflexivity.
  - discriminate.
  - reflexivity.
  - reflexivity.
  - reflexivity.
  - reflexivity.
  - exact us1_bound.
  - exact us1_listening.
  - discriminate.
  - reflexivity.
  - reflexivity.
  - intros pr. eexists. reflexivity.
  - reflexivity.
Defined.

Definition sample_calls : list socket_call :=
  [ClientSends [1; 2; 3] false; ServerReceives 2 false; ServerSends [9] false; ServerReceives 10 true; ServerReceives 10 true;
   ClientReceives 8 false; ClientReceives 8 false].

Lemma socket_streams_witness :
  exists rs s', exec_calls 2 3 sample_calls us2 = Ok (rs, s') /\
    rs = [Sent (Done 3); Received (Done (2, [1; 2])); Sent (Done 1); Received (Done (1, [3]));
          Received (Done (ERR EWOULDBLOCK, [])); Received (Done (1, [9])); Received Blocks] /\
    concat (client_sent <$> zip sample_calls rs) = [1; 2; 3] /\ concat (server_got <$> zip sample_calls rs) = [1; 2; 3].
Proof.
  destruct (socket_streams us2 2 3 2 1 _ _ [] [] sample_calls us2_connected) as (rs & s' & up & down & E & Es & _ & H1 & H2).
  - repeat constructor; cbn; lia.
  - exists rs, s'. split; [exact E|]. vm_compute in Es. injection Es as <- <- <-. split_and!; reflexivity.
Defined.

(** The client goes away before its connection is accepted: the pair is released
    while the listener still has it, and accepting it touches freed memory. *)
Theorem accept_after_release :
  (let! _ := connect_begin 2 sample_addr 4 in let! _ := unixSocketClose 2 in unixSocketAccept 1) us1 = Fault.
Proof. vm_compute. reflexivity. Qed.

(** A second listen forgets the connections but not their number. *)
Theorem second_listen_forgets :
  (let! _ := connect_begin 2 sample_addr 4 in let! _ := unixSocketListen 1 5 in unixSocketAccept 1) us1 = Fault.
Proof. vm_compute. reflexivity. Qed.

(** A bound name that is unlinked is missing when a connection is accepted. *)
Theorem accept_after_unlink :
  (let! _ := connect_begin 2 sample_addr 4 in let! _ := unixSocketUnlinkNotify [47; 120] in unixSocketAccept 1) us1 = Fault.
Proof. vm_compute. reflexivity. Qed.

(** The ends of an anonymous pair have no name to ask for. *)
Theorem anonymous_peer_faults :
  (let! _ := unixSocketPair 1 in unixSocketGetpeername 1 16) us0 = Fault.
Proof. vm_compute. reflexivity. Qed.

(** When the second part of a message finds no room, the error hides that the
    first has been sent. *)
Theorem partial_message_error :
  match unixSocketSendmsg 2 false false [replicate (Z.to_nat 150000) 7; replicate (Z.to_nat 150000) 8] true us2 with
  | Ok (Done r, s) => r = ERR EWOULDBLOCK /\ (zlen <$> (content <$> (serverBuff <$> pairs s !! 1))) = Some 150000
  | _ => False
  end.
Proof. vm_compute. by split. Qed.
