(* ===== verification/Fakefs.v ===== *)
(** * Files that exist in memory only ([utility/fakefs/fakefs.cpp],
      [utility/fakefs/null.cpp], [filesystems/dev], [filesystems/sys])

    A tree of [FakefsFile]s, each with the list of its children.  The header and
    the other fields of a file are kept under one address in two maps.  Tables of
    handlers are addresses; what a file's own [open] handler answers, the random
    numbers of the listing and the names and texts of the PCI devices are
    arguments. *)

From S2P Require Import Prelude Bytes Heap LinkedList FileTypes CString Paths.

Definition S_IFLNK : Z := 0xa000.
Definition S_IFCHR : Z := 0x2000.

(** [ff_extra]: the bytes of the object attached. *)
Record FakefsFile := mkFf {
  inner : LLcontrol;
  ff_name : list Z;
  ff_type : Z;
  ff_inode : Z;
  ff_symlink : option (list Z);
  ff_size : Z;
  ff_extra : option (list Z);
  ff_handlers : Z;
}.

Record Fakefs := mkFake {
  rootFile : LLcontrol;
  lastInode : Z;
  ff_cells : gmap Z LLcell;
  ff_files : gmap Z FakefsFile;
}.

Definition FakefsFile_size : Z := 96.
Definition no_list : LLcontrol := mkLL 0 0 0 0.
Definition blank_file : FakefsFile := mkFf no_list [] 0 0 None 0 None 0.

Section operations.
Context {HA : Heap.Allocator LLcell}.
(** The addresses of the tables [fakefsRootHandlers], [handlePciConfig] and
    [fakefsSimpleReadHandlers]. *)
Context (fakefsRootHandlers handlePciConfig fakefsSimpleReadHandlers : Z).
Abbreviation F := Fakefs.

Definition on_files {A} (m : M (gmap Z FakefsFile) A) : M F A := fun s =>
  match m (ff_files s) with
  | Ok (a, h) => Ok (a, mkFake (rootFile s) (lastInode s) (ff_cells s) h)
  | Halted => Halted
  | Fault => Fault
  | Hang => Hang
  end.
Definition file_at (a : Z) : M F FakefsFile := on_files (deref a).

(** A list operation on the children of a file, or on the root. *)
Definition on_inner {A} (a : Z) (m : M ll_state A) : M F A :=
  let! f := file_at a in
  fun s => match m (mkLs (inner f) (ff_cells s)) with
  | Ok (r, l) => Ok (r, mkFake (rootFile s) (lastInode s) (cells l)
      (<[a := mkFf (ll l) (ff_name f) (ff_type f) (ff_inode f) (ff_symlink f) (ff_size f) (ff_extra f) (ff_handlers f)]> (ff_files s)))
  | Halted => Halted
  | Fault => Fault
  | Hang => Hang
  end.
Definition on_root {A} (m : M ll_state A) : M F A := fun s =>
  match m (mkLs (rootFile s) (ff_cells s)) with
  | Ok (r, l) => Ok (r, mkFake (ll l) (lastInode s) (cells l) (ff_files s))
  | Halted => Halted
  | Fault => Fault
  | Hang => Hang
  end.

(** The object [LinkedListAllocate] returns is cleared. *)
Definition new_file (a : Z) (f : FakefsFile) : M F unit :=
  modify (fun s => mkFake (rootFile s) (lastInode s) (ff_cells s) (<[a := f]> (ff_files s))).

Definition fakefsAddFile (under : Z) (filename : list Z) (symlink : option (list Z)) (filetype handlers : Z) : M F Z :=
  let! file := on_inner under (LinkedListAllocate FakefsFile_size) in
  new_file file blank_file ;;;
  on_inner file (LinkedListInit FakefsFile_size) ;;;
  modify (fun s => mkFake (rootFile s) (u64 (lastInode s + 1)) (ff_cells s) (ff_files s)) ;;;
  let! ino := gets lastInode in
  on_files (update file (fun f => mkFf (inner f) filename (u16 filetype) ino symlink (ff_size f) (ff_extra f) handlers)) ;;;
  ret file.

Definition fakefsAttachFile (file : Z) (ptr : list Z) (size : Z) : M F unit :=
  on_files (update file (fun f =>
    mkFf (inner f) (ff_name f) (ff_type f) (ff_inode f) (ff_symlink f) size (Some ptr) (ff_handlers f))).

Definition root_file : FakefsFile :=
  mkFf no_list [slash] (Z.lor S_IFDIR (Z.lor S_IRUSR (Z.lor S_IWUSR S_IXUSR))) 0 None 3620 None fakefsRootHandlers.

Definition fakefsSetupRoot : M F unit :=
  on_root (LinkedListInit FakefsFile_size) ;;;
  let! target := on_root (LinkedListAllocate FakefsFile_size) in
  new_file target root_file ;;;
  on_inner target (LinkedListInit FakefsFile_size).

(** ** Search *)

Definition ff_fuel (s : F) : nat := S (size (ff_cells s)).

(** [search] is the path from the component on. *)
Definition ff_matches (search : list Z) (searchLength : Z) (f : FakefsFile) : bool :=
  (List.hd 0 (ff_name f) =? 42) ||
  (memcmp (Z.to_nat (Z.max (zlen (ff_name f)) searchLength)) search (ff_name f) =? 0).

Fixpoint fakefsTraverse (fuel : nat) (browse : Z) (search : list Z) (searchLength : Z) : M F Z :=
  match fuel with
  | O => hang
  | S fuel =>
      if browse =? 0 then ret 0
      else
        let! f := file_at browse in
        if ff_matches search searchLength f then ret browse
        else
          let! c := (fun s => from_option_fault (ff_cells s !! browse) s) in
          fakefsTraverse fuel (ll_next c) search searchLength
  end.

(** The loop over the positions of the path. *)
Fixpoint path_walk (path : list Z) (is_ : list Z) (fakefs lastslash : Z) : M F Z :=
  match is_ with
  | [] => ret 0
  | i :: is_ =>
      let last := i =? zlen path - 1 in
      if (path !!! Z.to_nat i =? slash) || last then
        let length := i - lastslash - 1 + (if last then 1 else 0) in
        let! fuel := gets ff_fuel in
        let! res := fakefsTraverse fuel fakefs (drop (Z.to_nat (lastslash + 1)) path) length in
        if (res =? 0) || last then ret res
        else
          let! f := file_at res in
          path_walk path is_ (firstObject (inner f)) i
      else path_walk path is_ fakefs lastslash
  end.

Definition fakefsTraversePath (start : Z) (path : list Z) : M F Z :=
  let! f := file_at start in
  if zlen path =? 1 then ret start
  else path_walk path (seqZ 1 (zlen path - 1)) (firstObject (inner f)) 0.

(** The file of a path below the root. *)
Definition from_root (path : list Z) : M F Z :=
  let! root := gets (fun s => firstObject (rootFile s)) in
  fakefsTraversePath root path.

(** ** Files *)

(** What [fakefsOpen] puts into the descriptor. *)
Record FakeOpen := mkFo { fo_handlers : Z; fo_dirname : list Z; fo_file : option Z }.

(** [open_handler]: the answer of the [open] entry of a table, if it has one. *)
Definition fakefsOpen (open_handler : Z -> option Z) (filename : list Z) : M F (Z * option FakeOpen) :=
  let! file := from_root filename in
  if file =? 0 then ret (ERR ENOENT, None)
  else
    let! f := file_at file in
    match open_handler (ff_handlers f) with
    | Some r => if r <? 0 then ret (u64 r, Some (mkFo (ff_handlers f) filename None))
                else ret (0, Some (mkFo (ff_handlers f) filename (Some file)))
    | None => ret (0, Some (mkFo (ff_handlers f) filename (Some file)))
    end.

Definition fakefsStatGeneric (f : FakefsFile) : stat :=
  mkStat 69 (ff_inode f) (ff_type f) 1 0 0 0 0x1000 (ff_size f)
    (CEILING_DIVISION (ff_size f) 0x1000 * 0x1000 / 512) 0 0 0.

Definition fakefsStat (filename : list Z) : M F (option stat) :=
  let! file := from_root filename in
  if file =? 0 then ret None else let! f := file_at file in ret (Some (fakefsStatGeneric f)).
Definition fakefsLstat (filename : list Z) : M F (option stat) := fakefsStat filename.
Definition fakefsFstat (file : Z) : M F stat := let! f := file_at file in ret (fakefsStatGeneric f).

(** The result and the bytes stored. *)
Definition fakefsReadlink (path : list Z) (size : Z) : M F (Z * list Z) :=
  if size <? 1 then ret (ERR EINVAL, [])
  else
    let! entry := from_root path in
    if entry =? 0 then ret (ERR ENOENT, [])
    else
      let! f := file_at entry in
      if Z.land (ff_type f) S_IFLNK =? 0 then ret (ERR EINVAL, [])
      else
        match ff_symlink f with
        | Some target =>
            kassert (0 <? zlen target) ;;;
            let out := Z.min (zlen target) size in
            ret (out, take (Z.to_nat out) target)
        | None => halt
        end.

(** The rest of the listing: the buffer, the new [tmp1], the result. *)
Fixpoint list_files (rand : Z -> Z) (hardlimit : Z) (fuel : nat) (tmp1 : Z) (buff : list Z) (dirp allocated : Z)
    : M F (list Z * Z * Z) :=
  match fuel with
  | O => hang
  | S fuel =>
      if tmp1 =? 2 ^ 64 - 1 then ret (buff, tmp1, allocated)
      else
        let! f := file_at tmp1 in
        let! c := (fun s => from_option_fault (ff_cells s !! tmp1) s) in
        let next := if ll_next c =? 0 then 2 ^ 64 - 1 else ll_next c in
        if List.hd 0 (ff_name f) =? 42 then list_files rand hardlimit fuel next buff dirp allocated
        else
          match dents_add buff dirp allocated hardlimit (ff_name f) (ff_inode f) (rand dirp) 0 with
          | Ok (DENTS_NO_SPACE, buff, _, _) => ret (buff, tmp1, ERR EINVAL)
          | Ok (DENTS_RETURN, buff, _, allocated) => ret (buff, tmp1, allocated)
          | Ok (DENTS_SUCCESS, buff, dirp, allocated) => list_files rand hardlimit fuel next buff dirp allocated
          | _ => fault
          end
  end.

Definition fakefsGetDents64 (rand : Z -> Z) (dirname : list Z) (tmp1 : Z) (buff : list Z) (hardlimit : Z)
    : M F (list Z * Z * Z) :=
  let! weAt := from_root dirname in
  let! tmp1 := (if tmp1 =? 0 then let! f := file_at weAt in ret (firstObject (inner f)) else ret tmp1) in
  let tmp1 := if tmp1 =? 0 then 2 ^ 64 - 1 else tmp1 in
  let! fuel := gets (fun s => S (ff_fuel s)) in
  list_files rand hardlimit fuel tmp1 buff 0 0.

(** Reading a text: the bytes and the new position. *)
Fixpoint read_text (text : list Z) (limit : nat) (pointer : Z) : outcome (list Z * Z) :=
  match limit with
  | O => Ok ([], pointer)
  | S limit =>
      match text !! Z.to_nat pointer with
      | None => Fault
      | Some c =>
          if c =? 0 then Ok ([], pointer)
          else match read_text text limit (u64 (pointer + 1)) with
               | Ok (bytes, pointer) => Ok (c :: bytes, pointer)
               | o => o
               end
      end
  end.
Definition fakefsSimpleRead (file pointer limit : Z) : M F (list Z * Z) :=
  let! f := file_at file in
  match ff_extra f with
  | None => halt
  | Some text => fun s => match read_text text (Z.to_nat limit) pointer with
      | Ok r => Ok (r, s) | Halted => Halted | Fault => Fault | Hang => Hang end
  end.
Definition fakefsSimpleSeek (target : Z) : Z * Z := (0, target).

(** [/dev/null]: the result and the bytes read, and the result of a write. *)
Definition nullRead (limit : Z) : Z * list Z := (0, []).
Definition nullWrite (limit : Z) : Z := s32 limit.
Definition nullStat (rand : Z) : stat :=
  mkStat 70 rand (Z.lor S_IFCHR (Z.lor S_IRUSR S_IWUSR)) 1 0 0 0 0x1000 0 (CEILING_DIVISION 0 512) 69 69 69.
Definition nullIoctl : Z := - ENOTTY.

(** ** The trees the kernel sets up *)

Definition dev_mount : M F unit :=
  let! root := gets rootFile in
  if firstObject root =? 0 then fakefsSetupRoot else ret tt.

Definition DIR_MODE : Z := Z.lor S_IFDIR (Z.lor S_IRUSR S_IWUSR).
Definition FILE_MODE : Z := Z.lor S_IFREG (Z.lor S_IRUSR S_IWUSR).

(** A device: its directory's name, the attached configuration address, and the
    texts of vendor, irq, device and class. *)
Record PciEntry := mkPci { pe_dir : list Z; pe_conf : list Z; pe_vendor : list Z; pe_irq : list Z; pe_device : list Z; pe_class : list Z }.

Definition text_file (dir : Z) (name text : list Z) : M F unit :=
  let! f := fakefsAddFile dir name None FILE_MODE fakefsSimpleReadHandlers in
  fakefsAttachFile f text 4096.

Definition sys_device (devices : Z) (d : PciEntry) : M F unit :=
  let! dir := fakefsAddFile devices (pe_dir d) None DIR_MODE fakefsRootHandlers in
  let! conf := fakefsAddFile dir [99; 111; 110; 102; 105; 103] None FILE_MODE handlePciConfig in
  fakefsAttachFile conf (pe_conf d) 4096 ;;;
  text_file dir [118; 101; 110; 100; 111; 114] (pe_vendor d) ;;;
  text_file dir [105; 114; 113] (pe_irq d) ;;;
  text_file dir [100; 101; 118; 105; 99; 101] (pe_device d) ;;;
  text_file dir [99; 108; 97; 115; 115] (pe_class d).
Definition sys_setup_pci (devices : Z) (ds : list PciEntry) : M F unit := mfor ds (sys_device devices).

(** The cast in [sys_setup] takes the root's list control for a file: the list
    of its children is read 8 bytes behind the control, its first signature being
    the second of the root and the rest whatever follows.  Nothing behind the
    first [fakefsAddFile] is reached. *)
Definition control_behind (c : LLcontrol) (signature2 structSize first : Z) : LLcontrol :=
  mkLL (LinkedList.signature2 c) signature2 structSize first.
Definition sys_setup (signature2 structSize first : Z) : M F unit := fun s =>
  match LinkedListAllocate FakefsFile_size (mkLs (control_behind (rootFile s) signature2 structSize first) (ff_cells s)) with
  | Halted => Halted
  | Hang => Hang
  | _ => Fault
  end.
Definition sys_mount (signature2 structSize first : Z) : M F unit :=
  let! root := gets rootFile in
  if firstObject root =? 0 then fakefsSetupRoot ;;; sys_setup signature2 structSize first else ret tt.

End operations.
