(* ===== verification/FakefsTheorems.v ===== *)
(** * Theorems about files in memory

    Path search follows the names of the tree, a file added is found and changes
    nothing else, texts are read from any position, and boundary cases. *)

From S2P Require Import Prelude Bytes Heap LinkedList FileTypes CString Paths Fakefs.

(** A file and its children: the addresses of the lists. *)
Definition frow (a : Z) : Z * list Z := (a, replicate 88 0).
Lemma frow_cells l : (frow <$> l).*1 = l.
Proof. induction l as [|a l IH]; [done|]. cbn. by f_equal. Qed.

Section fakefs.
Context {HA : Heap.Allocator LLcell} (rootHandlers pciHandlers textHandlers : Z).
Implicit Types (s : Fakefs) (D : Z -> list Z).

(** [l] are the files, [D] gives the children of each, in order. *)
Record fake_ok s (l : list Z) D : Prop := {
  fa_nodup : NoDup l;
  fa_file : forall a, a ∈ l -> a <> 0 /\ exists f, ff_files s !! a = Some f /\
    ll_list (mkLs (inner f) (ff_cells s)) FakefsFile_size (frow <$> D a);
  fa_kids : forall a b, a ∈ l -> b ∈ D a -> b ∈ l;
  fa_apart : forall a b c, a ∈ l -> b ∈ l -> c ∈ D a -> c ∈ D b -> a = b;
  fa_cell : forall a, a ∈ l -> is_Some (ff_cells s !! a);
  fa_cells : forall a, is_Some (ff_cells s !! a) -> a ∈ l;
}.

Definition name_of s (a : Z) : list Z := match ff_files s !! a with Some f => ff_name f | None => [] end.

(** The first child with the name; a name that begins with a star stands for any. *)
Definition named s (c : list Z) (a : Z) : Prop := List.hd 0 (name_of s a) = 42 \/ name_of s a = c.
#[local] Instance named_dec s c a : Decision (named s c a).
Proof. unfold named. apply _. Defined.
Definition child s D (a : Z) (c : list Z) : option Z := (list_find (named s c) (D a)) ≫= (fun r => Some r.2).

Fixpoint follow s D (a : Z) (cs : list (list Z)) : option Z :=
  match cs with [] => Some a | c :: cs => child s D a c ≫= (fun b => follow s D b cs) end.

(** ** Comparing names *)

(** Names are free of slashes and null bytes. *)
Definition name_ok (c : list Z) : Prop := component c /\ no_nul c.

Lemma memcmp_zero_same (n : nat) (x y r : list Z) : (length x <= n)%nat -> memcmp n (x ++ r) y = 0 -> length y = length x -> x = y.
Proof.
  revert n y. induction x as [|a x IH]; intros n y Hn H Hl; [by destruct y|].
  destruct y as [|b y]; [done|]. destruct n as [|n]; [cbn in Hn; lia|]. cbn in H. destruct (Z.eqb_spec a b) as [->|].
  - f_equal. apply (IH n); [cbn in Hn; lia|done|cbn in Hl; lia].
  - destruct (a <? b); lia.
Qed.

Lemma memcmp_refl (n : nat) (x r : list Z) : (n <= length x)%nat -> memcmp n (x ++ r) x = 0.
Proof.
  revert x. induction n as [|n IH]; intros x Hn; [done|]. destruct x as [|a x]; [cbn in Hn; lia|]. cbn. rewrite Z.eqb_refl.
  apply IH. cbn in Hn. lia.
Qed.

(** A shorter string differs at its end. *)
Lemma memcmp_shorter (n : nat) (x y : list Z) r :
  (length x < n)%nat -> (length x < length y)%nat -> Forall (fun c => c <> List.hd 0 r) y -> memcmp n (x ++ r) y <> 0.
Proof.
  revert n y. induction x as [|a x IH]; intros n y Hn Hl Hy; (destruct n as [|n]; [cbn in Hn; lia|]); (destruct y as [|b y]; [cbn in Hl; lia|]).
  - cbn. inversion_clear Hy. destruct (Z.eqb_spec (List.hd 0 r) b); [congruence|]. by destruct (_ <? _).
  - cbn. inversion_clear Hy. destruct (Z.eqb_spec a b) as [->|]; [|by destruct (_ <? _)]. apply IH; [cbn in Hn; lia|cbn in Hl; lia|done].
Qed.

Lemma memcmp_longer (n : nat) (x y r : list Z) :
  (length y < n)%nat -> (length y < length x)%nat -> no_nul x -> memcmp n (x ++ r) y <> 0.
Proof.
  revert n x. induction y as [|b y IH]; intros n x Hn Hl Hx; (destruct n as [|n]; [cbn in Hn; lia|]); (destruct x as [|a x]; [cbn in Hl; lia|]).
  - cbn. inversion_clear Hx. destruct (Z.eqb_spec a 0); [congruence|]. by destruct (_ <? _).
  - cbn. inversion_clear Hx. destruct (Z.eqb_spec a b) as [->|]; [|by destruct (_ <? _)]. apply IH; [cbn in Hn; lia|cbn in Hl; lia|done].
Qed.

(** The comparison over the longer of the two lengths is equality. *)
Lemma matches_name c rest f :
  name_ok c -> name_ok (ff_name f) -> (rest = [] \/ exists r, rest = slash :: r) ->
  ff_matches (c ++ rest) (zlen c) f = bool_decide (List.hd 0 (ff_name f) = 42 \/ ff_name f = c).
Proof.
  intros [[_ Hs] Hn] [[_ Hs'] Hn'] Hr. unfold ff_matches. set (y := ff_name f) in *.
  assert (Hm : (memcmp (Z.to_nat (Z.max (zlen y) (zlen c))) (c ++ rest) y =? 0) = bool_decide (y = c)).
  { destruct (decide (y = c)) as [->|Hne].
    - rewrite bool_decide_true by done. apply Z.eqb_eq. apply memcmp_refl. unfold zlen. lia.
    - rewrite bool_decide_false by done. apply Z.eqb_neq. destruct (Nat.lt_trichotomy (length c) (length y)) as [Hl|[Hl|Hl]].
      + apply memcmp_shorter; [unfold zlen; lia|done|]. apply Forall_forall. intros z Hz ->.
        destruct Hr as [->|[r ->]]; cbn in Hz.
        * unfold no_nul in Hn'. rewrite Forall_forall in Hn'. by apply (Hn' 0).
        * by apply Hs'.
      + intros H. apply Hne. symmetry. eapply memcmp_zero_same; [|exact H|done]. unfold zlen. lia.
      + apply memcmp_longer; [unfold zlen; lia|done|done]. }
  rewrite Hm. destruct (Z.eqb_spec (List.hd 0 y) 42); cbn [orb].
  - by rewrite bool_decide_true by (by left).
  - apply bool_decide_ext. naive_solver.
Qed.

(** ** Search *)

Definition names_ok s (l : list Z) D : Prop :=
  forall a b f, a ∈ l -> b ∈ D a -> ff_files s !! b = Some f -> name_ok (ff_name f) \/ List.hd 0 (ff_name f) = 42.

Lemma file_at_ok s a f : a <> 0 -> ff_files s !! a = Some f -> file_at a s = Ok (f, s).
Proof. intros Ha Hf. unfold file_at, on_files. rewrite (deref_ok _ _ _ Ha Hf). by destruct s. Qed.

Lemma matches_named s c rest a f :
  name_ok c -> ff_files s !! a = Some f -> name_ok (ff_name f) \/ List.hd 0 (ff_name f) = 42 ->
  (rest = [] \/ exists r, rest = slash :: r) -> ff_matches (c ++ rest) (zlen c) f = bool_decide (named s c a).
Proof.
  intros Hc Hf Hn Hr. assert (E : name_of s a = ff_name f) by (unfold name_of; by rewrite Hf). destruct Hn as [Hn|Hs].
  - rewrite matches_name by done. apply bool_decide_ext. unfold named. by rewrite E.
  - unfold ff_matches. rewrite Hs. symmetry. apply bool_decide_eq_true. left. by rewrite E.
Qed.

Lemma traverse_ok s c rest kids p fuel :
  chain (ff_cells s) p (frow <$> kids) 0 -> (length kids < fuel)%nat -> name_ok c -> (rest = [] \/ exists r, rest = slash :: r) ->
  (forall a, a ∈ kids -> a <> 0 /\ exists f, ff_files s !! a = Some f /\ (name_ok (ff_name f) \/ List.hd 0 (ff_name f) = 42)) ->
  fakefsTraverse fuel p (c ++ rest) (zlen c) s = Ok (default 0 (list_find (named s c) kids ≫= (fun r => Some r.2)), s).
Proof.
  intros Hc Hf Hn Hr. revert p fuel Hc Hf. induction kids as [|a kids IH]; intros p fuel Hc Hf Hk;
    (destruct fuel as [|fuel]; [cbn in Hf; lia|]); cbn [fakefsTraverse].
  - cbn in Hc. by subst p.
  - destruct Hc as (-> & Ha & n & Hcell & Hc). rewrite (proj2 (Z.eqb_neq a 0)) by done.
    destruct (Hk a) as (_ & f & Hfile & Hname); [by left|]. erewrite bind_ok by (by apply file_at_ok).
    rewrite (matches_named s c rest a f) by done. cbn [list_find]. destruct (decide (named s c a)) as [Hy|Hno].
    + by rewrite bool_decide_true.
    + rewrite bool_decide_false by done. erewrite bind_ok by (cbn; by rewrite Hcell).
      cbn [ll_next]. rewrite IH; [|done|cbn in Hf; lia|intros b Hb; apply Hk; by right].
      do 3 f_equal. by destruct (list_find _ kids) as [[]|].
Qed.

Lemma kids_fuel s l D a : fake_ok s l D -> a ∈ l -> (length (D a) < ff_fuel s)%nat.
Proof.
  intros O Ha. destruct (fa_file _ _ _ O a Ha) as (_ & f & _ & L). pose proof (chain_fuel _ _ _ L) as H.
  rewrite length_fmap in H. exact H.
Qed.

Lemma traverse_child s l D a f c rest :
  fake_ok s l D -> names_ok s l D -> a ∈ l -> ff_files s !! a = Some f -> name_ok c -> (rest = [] \/ exists r, rest = slash :: r) ->
  fakefsTraverse (ff_fuel s) (firstObject (inner f)) (c ++ rest) (zlen c) s = Ok (default 0 (child s D a c), s).
Proof.
  intros O N Ha Hf Hc Hr. destruct (fa_file _ _ _ O a Ha) as (_ & f' & Hf' & (_ & _ & L)). assert (f' = f) as -> by congruence.
  apply traverse_ok; [exact L|by eapply kids_fuel|done|done|]. intros b Hb. pose proof (fa_kids _ _ _ O a b Ha Hb) as Hbl.
  destruct (fa_file _ _ _ O b Hbl) as (Hb0 & g & Hg & _). split; [done|]. exists g. split; [done|]. by apply (N a b).
Qed.

Lemma child_in s l D a c b : fake_ok s l D -> a ∈ l -> child s D a c = Some b -> b ∈ l /\ b <> 0.
Proof.
  intros O Ha H. unfold child in H. apply bind_Some in H as ([i b'] & Hf & [= <-]). apply list_find_Some in Hf as (Hl & _ & _).
  assert (b' ∈ l) by (eapply (fa_kids _ _ _ O a); [done|by eapply list_elem_of_lookup_2]). split; [done|]. by apply (fa_file _ _ _ O).
Qed.

(** ** Paths *)

Lemma drop_slash (pre rest : list Z) : drop (Z.to_nat (zlen pre + 1)) (pre ++ slash :: rest) = rest.
Proof.
  replace (Z.to_nat (zlen pre + 1)) with (length pre + 1)%nat by (unfold zlen; lia). rewrite drop_app_ge by lia.
  by replace (length pre + 1 - length pre)%nat with 1%nat by lia.
Qed.

Lemma path_walk_skip s path i is_ p ls : path !!! Z.to_nat i <> slash -> i <> zlen path - 1 ->
  path_walk path (i :: is_) p ls s = path_walk path is_ p ls s.
Proof. intros Hs Hl. cbn [path_walk]. by rewrite (proj2 (Z.eqb_neq _ _) Hs), (proj2 (Z.eqb_neq _ _) Hl). Qed.

Section walk.
Context s l D (O : fake_ok s l D) (N : names_ok s l D).

Lemma path_walk_ok cs : forall pre a f, cs <> [] -> Forall name_ok cs -> a ∈ l -> ff_files s !! a = Some f ->
  let path := pre ++ path_of cs in
  path_walk path (seqZ (zlen pre + 1) (zlen path - (zlen pre + 1))) (firstObject (inner f)) (zlen pre) s =
    Ok (default 0 (follow s D a cs), s).
Proof using O N.
  induction cs as [|c cs IH]; intros pre a f Hne Hcs Ha Hf path; [done|]. apply Forall_cons in Hcs as [Hc Hcs].
  pose proof Hc as [Hcomp _]. unfold path. rewrite path_of_cons. destruct (path_len pre c (path_of cs) Hcomp) as [Hl Hc0].
  pose proof (zlen_nonneg pre). pose proof (zlen_nonneg (path_of cs)). set (w := pre ++ slash :: c ++ path_of cs) in *.
  destruct cs as [|c' cs].
  - change (path_of []) with (@nil Z) in *. change (zlen (@nil Z)) with 0 in *.
    rewrite (walk_component w (fun is_ p ls => path_walk w is_ p ls s) (path_walk_skip s w) pre c [] (zlen c - 1)) by (done || change (zlen (@nil Z)) with 0; lia).
    rewrite seqZ_cons by lia. cbn [path_walk].
    replace (zlen pre + 1 + (zlen c - 1) =? zlen w - 1) with true by (symmetry; apply Z.eqb_eq; lia).
    rewrite orb_true_r. replace (zlen pre + 1 + (zlen c - 1) - zlen pre - 1 + 1) with (zlen c) by lia.
    unfold w. rewrite drop_slash. erewrite bind_ok by done.
    erewrite bind_ok by (eapply (traverse_child s l D a f c []); [done..|by left]). rewrite orb_true_r.
    cbn [follow]. by destruct (child s D a c).
  - assert (Hpost : 2 <= zlen (path_of (c' :: cs))) by (apply path_of_zlen; [done|]; eapply Forall_impl; [exact Hcs|]; by intros ? []).
    rewrite (walk_component w (fun is_ p ls => path_walk w is_ p ls s) (path_walk_skip s w) pre c (path_of (c' :: cs)) (zlen c)) by (done || lia).
    set (ls := zlen pre + 1 + zlen c). assert (Els : zlen (pre ++ slash :: c) = ls) by (rewrite zlen_app, zlen_cons; lia).
    rewrite seqZ_cons by lia. cbn [path_walk].
    assert (w !!! Z.to_nat ls = slash) as -> by (unfold w; rewrite <- Els, path_of_cons; apply path_slash).
    rewrite Z.eqb_refl. cbn [orb]. rewrite (proj2 (Z.eqb_neq ls (zlen w - 1))) by lia.
    replace (ls - zlen pre - 1 + 0) with (zlen c) by lia. rewrite (drop_slash pre (c ++ path_of (c' :: cs)) : drop _ w = _). erewrite bind_ok by done.
    erewrite bind_ok by (eapply (traverse_child s l D a f c); [done..|right; rewrite path_of_cons; by eexists]).
    cbn [follow]. rewrite orb_false_r. destruct (child s D a c) as [b|] eqn:Eb; [|done].
    destruct (child_in s l D a c b O Ha Eb) as [Hb Hb0]. change (default 0 (Some b)) with b. rewrite (proj2 (Z.eqb_neq b 0)) by done.
    destruct (fa_file _ _ _ O b Hb) as (_ & g & Hg & _). erewrite bind_ok by (by apply file_at_ok).
    specialize (IH (pre ++ slash :: c) b g ltac:(done) Hcs Hb Hg). cbv zeta in IH. rewrite Els in IH.
    rewrite <- app_assoc in IH. cbn [app] in IH. replace (Z.pred (zlen w - ls)) with (zlen w - (ls + 1)) by lia. exact IH.
Qed.

(** Searching a path follows the names of its components, the first match at each
    level. *)
Theorem fakefsTraversePath_follows a cs :
  a ∈ l -> cs <> [] -> Forall name_ok cs ->
  fakefsTraversePath a (path_of cs) s = Ok (default 0 (follow s D a cs), s).
Proof using O N.
  intros Ha Hne Hcs. destruct (fa_file _ _ _ O a Ha) as (Ha0 & f & Hf & _). unfold fakefsTraversePath.
  erewrite bind_ok by (by apply file_at_ok).
  assert (2 <= zlen (path_of cs)) as Hlen by (apply path_of_zlen; [done|]; eapply Forall_impl; [exact Hcs|]; by intros ? []).
  rewrite (proj2 (Z.eqb_neq (zlen (path_of cs)) 1)) by lia. exact (path_walk_ok cs [] a f Hne Hcs Ha Hf).
Qed.
End walk.

(** ** Adding a file *)

Definition upd_at {A} (K : Z -> A) (p : Z) (v : A) : Z -> A := fun t => if decide (t = p) then v else K t.

Definition leaf (filename : list Z) (filetype ino : Z) (symlink : option (list Z)) (handlers : Z) : FakefsFile :=
  mkFf (mkLL LL_SIGNATURE_1 LL_SIGNATURE_2 FakefsFile_size 0) filename (u16 filetype) ino symlink 0 None handlers.

Definition set_inner (c : LLcontrol) (f : FakefsFile) : FakefsFile :=
  mkFf c (ff_name f) (ff_type f) (ff_inode f) (ff_symlink f) (ff_size f) (ff_extra f) (ff_handlers f).

Lemma on_inner_ok {A} s a f (m : M ll_state A) r st :
  a <> 0 -> ff_files s !! a = Some f -> m (mkLs (inner f) (ff_cells s)) = Ok (r, st) ->
  on_inner a m s = Ok (r, mkFake (rootFile s) (lastInode s) (cells st) (<[a := set_inner (ll st) f]> (ff_files s))).
Proof. intros Ha Hf E. unfold on_inner. erewrite bind_ok by (by apply file_at_ok). by rewrite E. Qed.

Lemma fakefsAddFile_ok s l D u f filename symlink filetype handlers :
  fake_ok s l D -> u ∈ l -> ff_files s !! u = Some f ->
  exists a c h, fakefsAddFile u filename symlink filetype handlers s = Ok (a, mkFake (rootFile s) (u64 (lastInode s + 1)) h
      (<[a := leaf filename filetype (u64 (lastInode s + 1)) symlink handlers]> (<[u := set_inner c f]> (ff_files s)))) /\
    a <> 0 /\ (a ∉ l) /\
    ll_list (mkLs c h) FakefsFile_size (frow <$> (D u ++ [a])) /\ forall b, b <> a -> b ∉ D u -> h !! b = ff_cells s !! b.
Proof.
  intros O Hu Hf. destruct (fa_file _ _ _ O u Hu) as (Hu0 & f' & Hf' & L). assert (f' = f) as -> by congruence.
  destruct (ll_allocate_appends _ _ _ L) as (a & st & Ea & Hfresh & L2 & Fr). cbn [cells] in Hfresh.
  assert (Ha0 : a <> 0). { destruct L2 as (_ & _ & Hch). apply chain_app in Hch as (y & _ & -> & Ha & _). done. }
  assert (Hal : a ∉ l) by (intros Hin; destruct (fa_cell _ _ _ O a Hin); congruence).
  assert (Hau : a <> u) by congruence.
  exists a, (ll st), (cells st). split_and!; [|done|done| |].
  - unfold fakefsAddFile. erewrite bind_ok by (by eapply on_inner_ok). erewrite bind_ok by reflexivity.
    cbn [rootFile lastInode ff_cells ff_files].
    erewrite bind_ok by (eapply on_inner_ok; [done|apply lookup_insert_eq|reflexivity]). cbn [rootFile lastInode ff_cells ff_files cells ll].
    do 2 erewrite bind_ok by reflexivity. cbn [rootFile lastInode ff_cells ff_files].
    unfold on_files, bind, ret. cbn [ff_files rootFile lastInode ff_cells].
    erewrite update_ok by (done || apply lookup_insert_eq). cbn. by rewrite !insert_insert_eq.
  - rewrite fmap_app. by destruct st.
  - intros b Hb Hbu. apply Fr. rewrite frow_cells. set_solver.
Qed.

(** The tree with one more leaf. *)
Definition grown D (u a : Z) : Z -> list Z := upd_at (upd_at D u (D u ++ [a])) a [].

Lemma attached_old D u a b : b <> a -> b <> u -> grown D u a b = D b.
Proof. intros. unfold grown, upd_at. by rewrite !decide_False. Qed.
Lemma grown_under D u a : u <> a -> grown D u a u = D u ++ [a].
Proof. intros. unfold grown, upd_at. by rewrite decide_False, decide_True. Qed.
Lemma attached_leaf D u a : grown D u a a = [].
Proof. unfold grown, upd_at. by rewrite decide_True. Qed.

Lemma grown_in D u a b : b <> a -> exists t, grown D u a b = D b ++ t /\ (t = [] \/ b = u /\ t = [a]).
Proof.
  intros Hb. destruct (decide (b = u)) as [->|Hne].
  - exists [a]. rewrite grown_under by done. auto.
  - exists []. rewrite attached_old, app_nil_r by done. auto.
Qed.

Section added.
Context s l D (u : Z) (f : FakefsFile) (O : fake_ok s l D) (Hu : u ∈ l) (Hf : ff_files s !! u = Some f).
Context (a : Z) (Ha0 : a <> 0) (Hal : a ∉ l) (c : LLcontrol) (h : gmap Z LLcell) (g : FakefsFile) (ino : Z).
Context (Hg : inner g = mkLL LL_SIGNATURE_1 LL_SIGNATURE_2 FakefsFile_size 0).
Context (L : ll_list (mkLs c h) FakefsFile_size (frow <$> (D u ++ [a]))).
Context (Hfr : forall b, b <> a -> b ∉ D u -> h !! b = ff_cells s !! b).
#[local] Abbreviation s' := (mkFake (rootFile s) ino h (<[a := g]> (<[u := set_inner c f]> (ff_files s)))).

Lemma added_file b : b ∈ l -> ff_files s' !! b = if decide (b = u) then Some (set_inner c f) else ff_files s !! b.
Proof using O Hu Hf Ha0 Hal Hg L Hfr. intros Hb. cbn. rewrite lookup_insert_ne by (intros ->; done). destruct (decide (b = u)) as [->|]; [apply lookup_insert_eq|by rewrite lookup_insert_ne]. Qed.

Lemma added_name b : b ∈ l -> name_of s' b = name_of s b.
Proof using O Hu Hf Ha0 Hal Hg L Hfr. intros Hb. unfold name_of. rewrite added_file by done. destruct (decide (b = u)) as [->|]; [by rewrite Hf|done]. Qed.

Lemma added_cell b : b ∈ l -> is_Some (h !! b).
Proof using O Hu Hf Ha0 Hal Hg L Hfr.
  intros Hb. destruct (decide (b ∈ D u)) as [Hin|Hnot].
  - destruct L as (_ & _ & Hc). assert (b ∈ (frow <$> (D u ++ [a])).*1) as Hr by (rewrite frow_cells; set_solver).
    apply (chain_cell _ _ _ _ _ Hc Hr).
  - rewrite Hfr by (done || intros ->; done). by apply (fa_cell _ _ _ O).
Qed.

Lemma added_ok : fake_ok s' (l ++ [a]) (grown D u a).
Proof using O Hu Hf Ha0 Hal Hg L Hfr.
  assert (Hua : u <> a) by congruence. assert (Hm : forall b, b ∈ l ++ [a] -> b = a \/ b <> a /\ b ∈ l) by set_solver.
  assert (Hin : forall b x, b ∈ l -> x ∈ grown D u a b -> x ∈ D b \/ b = u /\ x = a).
  { intros b x Hb Hx. destruct (grown_in D u a b) as (t & E & Ht); [congruence|]. rewrite E in Hx.
    apply elem_of_app in Hx as [Hx|Hx]; [by left|right]. destruct Ht as [->|[-> ->]]; set_solver. }
  split.
  - apply NoDup_app. split_and!; [apply O|set_solver|apply NoDup_singleton].
  - intros b [->|[Hba Hb]]%Hm.
    + split; [done|]. exists g. cbn. rewrite lookup_insert_eq. split; [done|]. rewrite attached_leaf, Hg. split_and!; [done|constructor|done].
    + destruct (fa_file _ _ _ O b Hb) as (Hb0 & fb & Hfb & (E1 & E2 & E3)). split; [done|]. rewrite added_file by done.
      destruct (decide (b = u)) as [->|Hbu].
      * exists (set_inner c f). split; [done|]. rewrite grown_under by done. exact L.
      * exists fb. split; [done|]. rewrite attached_old by done. split_and!; [done|done|]. eapply chain_frame; [|exact E3].
        intros x Hx. rewrite frow_cells in Hx. cbn [cells ff_cells]. apply Hfr.
        -- intros ->. apply Hal. by apply (fa_kids _ _ _ O b).
        -- intros Hxu. apply Hbu. by apply (fa_apart _ _ _ O b u x).
  - intros b x [->|[Hba Hb]]%Hm Hx; [by rewrite attached_leaf in Hx; apply not_elem_of_nil in Hx|].
    destruct (Hin b x Hb Hx) as [Hx'|[_ ->]]; [|set_solver]. pose proof (fa_kids _ _ _ O b x Hb Hx'). set_solver.
  - intros b b' x [->|[Hba Hb]]%Hm Hb'; [rewrite attached_leaf; intros []%not_elem_of_nil|].
    apply Hm in Hb' as [->|[Hba' Hb']]; [rewrite attached_leaf; intros _ []%not_elem_of_nil|]. intros Hx Hx'.
    destruct (Hin _ _ Hb Hx) as [H1|[-> ->]], (Hin _ _ Hb' Hx') as [H2|[-> H2]]; [by apply (fa_apart _ _ _ O b b' x)|..|done].
    + subst x. destruct Hal. by apply (fa_kids _ _ _ O b).
    + destruct Hal. by apply (fa_kids _ _ _ O b').
  - intros b [->|[Hba Hb]]%Hm; [|by apply added_cell]. destruct L as (_ & _ & Hc).
    assert (a ∈ (frow <$> (D u ++ [a])).*1) as Hr by (rewrite frow_cells; set_solver). apply (chain_cell _ _ _ _ _ Hc Hr).
  - intros b Hb. cbn in Hb. destruct (decide (b = a)) as [->|Hba]; [set_solver|]. apply elem_of_app. left.
    destruct (decide (b ∈ D u)) as [Hin'|Hnot]; [by apply (fa_kids _ _ _ O u)|]. rewrite Hfr in Hb by done. by apply (fa_cells _ _ _ O).
Qed.

Lemma named_kept n b : b ∈ l -> named s' n b <-> named s n b.
Proof using O Hu Hf Ha0 Hal Hg L Hfr. intros Hb. unfold named. by rewrite added_name. Qed.

Lemma child_kept b n d : b ∈ l -> child s D b n = Some d -> child s' (grown D u a) b n = Some d.
Proof using O Hu Hf Ha0 Hal Hg L Hfr.
  intros Hb H. unfold child in *. apply bind_Some in H as ([k d'] & E & [= <-]). apply list_find_Some in E as (Hk & Hn & Hbefore).
  assert (Hkids : forall j y, D b !! j = Some y -> y ∈ l) by (intros j y Hy; apply (fa_kids _ _ _ O b y Hb); by eapply list_elem_of_lookup_2).
  destruct (grown_in D u a b) as (t & Et & _); [congruence|].
  assert (list_find (named s' n) (grown D u a b) = Some (k, d')) as ->; [|done]. apply list_find_Some. rewrite Et. split_and!.
  - by apply lookup_app_l_Some.
  - apply named_kept; [by eapply Hkids|done].
  - intros j y Hj Hlt. apply lookup_lt_Some in Hk. rewrite lookup_app_l in Hj by lia. intros Hy.
    apply (Hbefore j y Hj Hlt). by apply named_kept; [by eapply Hkids|].
Qed.

Lemma follow_kept cs : forall b d, b ∈ l -> follow s D b cs = Some d -> follow s' (grown D u a) b cs = Some d.
Proof using O Hu Hf Ha0 Hal Hg L Hfr.
  induction cs as [|n cs IH]; intros b d Hb; cbn [follow]; [done|]. intros H. apply bind_Some in H as (e & He & H).
  rewrite (child_kept b n e Hb He). cbn. apply IH; [|done]. by eapply child_in.
Qed.

Lemma child_new : child s D u (ff_name g) = None -> child s' (grown D u a) u (ff_name g) = Some a.
Proof using O Hu Hf Ha0 Hal Hg L Hfr.
  intros H. unfold child in *. rewrite grown_under by congruence.
  assert (list_find (named s (ff_name g)) (D u) = None) as Hn by (by destruct (list_find _ (D u))).
  assert (list_find (named s' (ff_name g)) (D u ++ [a]) = Some (length (D u), a)) as ->; [|done]. apply list_find_Some. split_and!.
  - rewrite lookup_app_r by lia. by rewrite Nat.sub_diag.
  - right. unfold name_of. cbn. by rewrite lookup_insert_eq.
  - intros j y Hj Hlt. rewrite lookup_app_l in Hj by done. apply list_find_None in Hn. rewrite Forall_forall in Hn.
    assert (y ∈ D u) as Hy by (by eapply list_elem_of_lookup_2). rewrite named_kept by (by apply (fa_kids _ _ _ O u)). by apply Hn.
Qed.
End added.

Lemma follow_app s D b cs ds : follow s D b (cs ++ ds) = follow s D b cs ≫= (fun d => follow s D d ds).
Proof. revert b. induction cs as [|c cs IH]; intros b; cbn [follow app]; [done|]. destruct (child s D b c); [apply IH|done]. Qed.

(** C32: A file added is found.  [fakefsAddFile] appends one file to the children
    of the directory and keeps the tree well-formed; the path of the directory
    followed by the name then leads to the new file, unless a sibling had the name
    (or a star) before; every path that led to a file leads there still. *)
Theorem fakefsAddFile_found s l D u filename symlink filetype handlers :
  fake_ok s l D -> names_ok s l D -> u ∈ l -> name_ok filename ->
  exists a s', fakefsAddFile u filename symlink filetype handlers s = Ok (a, s') /\ (a ∉ l) /\
    fake_ok s' (l ++ [a]) (grown D u a) /\ names_ok s' (l ++ [a]) (grown D u a) /\
    (exists f, ff_files s' !! a = Some f /\ ff_name f = filename /\ ff_inode f = u64 (lastInode s + 1) /\ ff_handlers f = handlers) /\
    (child s D u filename = None -> forall b cs, b ∈ l -> Forall name_ok cs -> follow s D b cs = Some u ->
      fakefsTraversePath b (path_of (cs ++ [filename])) s' = Ok (a, s')) /\
    (forall b cs d, b ∈ l -> cs <> [] -> Forall name_ok cs -> follow s D b cs = Some d ->
      fakefsTraversePath b (path_of cs) s' = Ok (d, s')).
Proof.
  intros O N Hu Hname. destruct (fa_file _ _ _ O u Hu) as (Hu0 & f & Hf & _).
  destruct (fakefsAddFile_ok s l D u f filename symlink filetype handlers O Hu Hf) as (a & c & h & E & Ha0 & Hal & L & Hfr).
  set (g := leaf filename filetype (u64 (lastInode s + 1)) symlink handlers) in *. set (s' := mkFake _ _ _ _) in E.
  pose proof (added_ok s l D u f O Hu Hf a Ha0 Hal c h g (u64 (lastInode s + 1)) eq_refl L Hfr) as O'. fold s' in O'.
  assert (N' : names_ok s' (l ++ [a]) (grown D u a)).
  { intros b d fd Hb Hd Hfd. destruct (decide (b = a)) as [->|Hba]; [by rewrite attached_leaf in Hd; apply not_elem_of_nil in Hd|].
    assert (b ∈ l) as Hbl by set_solver. destruct (grown_in D u a b Hba) as (t & Et & Ht). rewrite Et in Hd.
    unfold s' in Hfd. cbn in Hfd. apply elem_of_app in Hd as [Hd|Hd].
    - pose proof (fa_kids _ _ _ O b d Hbl Hd) as Hdl. rewrite lookup_insert_ne in Hfd by congruence.
      destruct (decide (d = u)) as [->|].
      + rewrite lookup_insert_eq in Hfd. injection Hfd as <-. by apply (N b u f).
      + rewrite lookup_insert_ne in Hfd by done. by apply (N b d).
    - destruct Ht as [->|[-> ->]]; [by apply not_elem_of_nil in Hd|]. apply list_elem_of_singleton in Hd as ->.
      rewrite lookup_insert_eq in Hfd. injection Hfd as <-. by left. }
  exists a, s'. split_and!; [done|done|done|done| | |].
  - exists g. split; [apply lookup_insert_eq|done].
  - intros Hnone b cs Hb Hcs Hfo. rewrite (fakefsTraversePath_follows s' (l ++ [a]) (grown D u a) O' N' b (cs ++ [filename]));
      [|set_solver|by destruct cs|apply Forall_app; auto].
    do 2 f_equal. rewrite follow_app. unfold s'.
    rewrite (follow_kept s l D u f O Hu Hf a Ha0 Hal c h g (u64 (lastInode s + 1)) eq_refl L Hfr cs b u Hb Hfo). cbn [follow mbind option_bind].
    pose proof (child_new s l D u f O Hu Hf a Ha0 Hal c h g (u64 (lastInode s + 1)) eq_refl L Hfr Hnone) as E2.
    change (ff_name g) with filename in E2. by rewrite E2.
  - intros b cs d Hb Hne Hcs Hfo. rewrite (fakefsTraversePath_follows s' (l ++ [a]) (grown D u a) O' N' b cs); [|set_solver|done|done].
    do 2 f_equal. unfold s'. by rewrite (follow_kept s l D u f O Hu Hf a Ha0 Hal c h g (u64 (lastInode s + 1)) eq_refl L Hfr cs b d Hb Hfo).
Qed.

(** ** Texts *)

Lemma read_text_ok (str tail : list Z) limit p :
  no_nul str -> 0 <= p <= zlen str -> zlen str < 2 ^ 64 - 1 ->
  read_text (str ++ 0 :: tail) limit p =
    Ok (take limit (drop (Z.to_nat p) str), p + zlen (take limit (drop (Z.to_nat p) str))).
Proof.
  intros Hn Hp Hs. revert p Hp. induction limit as [|limit IH]; intros p Hp; [cbn; by rewrite Z.add_0_r|]. cbn [read_text].
  destruct (decide (p = zlen str)) as [->|Hne].
  - unfold zlen at 1. rewrite Nat2Z.id, lookup_app_r, Nat.sub_diag by lia. cbn.
    rewrite drop_ge by (unfold zlen; lia). cbn. by rewrite Z.add_0_r.
  - destruct (lookup_lt_is_Some_2 str (Z.to_nat p)) as [c Hc]; [unfold zlen in *; lia|].
    rewrite lookup_app_l by (unfold zlen in *; lia). rewrite Hc.
    unfold no_nul in Hn. rewrite Forall_forall in Hn. pose proof (Hn c ltac:(by eapply list_elem_of_lookup_2)) as Hc0.
    rewrite (proj2 (Z.eqb_neq c 0)) by done. rewrite u64_small by lia.
    rewrite IH by lia. rewrite (drop_S _ _ _ Hc). cbn [take]. rewrite zlen_cons.
    replace (Z.to_nat (p + 1)) with (S (Z.to_nat p)) by lia. do 2 f_equal. lia.
Qed.

(** A text file delivers its text from the position on, and moves the position by
    what it delivers; at the end it delivers nothing. *)
Theorem fakefsSimpleRead_text s file f str tail p limit :
  file <> 0 -> ff_files s !! file = Some f -> ff_extra f = Some (str ++ 0 :: tail) -> no_nul str ->
  0 <= p <= zlen str -> zlen str < 2 ^ 64 - 1 -> 0 <= limit ->
  fakefsSimpleRead file p limit s =
    Ok (take (Z.to_nat limit) (drop (Z.to_nat p) str), p + Z.min limit (zlen str - p), s).
Proof.
  intros Hf0 Hf Hx Hn Hp Hs Hl. unfold fakefsSimpleRead. erewrite bind_ok by (by apply file_at_ok). rewrite Hx.
  rewrite read_text_ok by done. do 3 f_equal. unfold zlen in *. rewrite length_take, length_drop. lia.
Qed.

(** ** Boundary cases *)

(** The test for a symbolic link lets regular files and devices through, which
    have no target. *)
Theorem readlink_regular_halts s path entry f size :
  1 <= size -> from_root path s = Ok (entry, s) -> entry <> 0 -> ff_files s !! entry = Some f ->
  ff_type f = FILE_MODE -> ff_symlink f = None -> fakefsReadlink path size s = Halted.
Proof.
  intros Hsz E He Hf Ht Hl. unfold fakefsReadlink. rewrite (proj2 (Z.ltb_ge size 1)) by lia. mrw E.
  rewrite (proj2 (Z.eqb_neq entry 0)) by done. erewrite bind_ok by (by apply file_at_ok). by rewrite Ht, Hl.
Qed.

(** A fresh tree: the root alone. *)
Lemma setup_root_ok s :
  rootFile s = no_list -> ff_cells s = ∅ -> exists root c h, fakefsSetupRoot rootHandlers s = Ok (tt,
      mkFake c (lastInode s) h (<[root := set_inner (mkLL LL_SIGNATURE_1 LL_SIGNATURE_2 FakefsFile_size 0) (root_file rootHandlers)]> (ff_files s))) /\
    ll_list (mkLs c h) FakefsFile_size [frow root] /\ forall b, is_Some (h !! b) -> b = root.
Proof.
  intros Hr Hc. set (c0 := mkLL LL_SIGNATURE_1 LL_SIGNATURE_2 FakefsFile_size 0).
  assert (L : ll_list (mkLs c0 (ff_cells s)) FakefsFile_size []) by (split_and!; [done|constructor|done]).
  destruct (ll_allocate_appends _ _ _ L) as (root & st & Ea & _ & L2 & Fr). cbn [app] in L2.
  assert (Ha0 : root <> 0) by (destruct L2 as (_ & _ & Hch); cbn in Hch; by destruct Hch as (_ & ? & _)).
  exists root, (ll st), (cells st). split_and!; [|by destruct st|].
  - unfold fakefsSetupRoot.
    erewrite (bind_ok _ _ s tt (mkFake c0 (lastInode s) (ff_cells s) (ff_files s))) by (unfold on_root; rewrite Hr; reflexivity).
    erewrite bind_ok by (unfold on_root; cbn [rootFile ff_cells]; rewrite Ea; reflexivity). cbn [rootFile lastInode ff_cells ff_files].
    erewrite bind_ok by reflexivity. cbn [rootFile lastInode ff_cells ff_files].
    erewrite on_inner_ok; [|done|apply lookup_insert_eq|reflexivity]. cbn. by rewrite insert_insert_eq.
  - intros b [x Hb]. destruct (decide (b = root)) as [|Hne]; [done|]. rewrite Fr in Hb by set_solver. cbn in Hb. rewrite Hc in Hb. done.
Qed.

(** The first mount of the sys tree stops the kernel. *)
Theorem sys_mount_halts s sig2 size first :
  rootFile s = no_list -> ff_cells s = ∅ -> sys_mount rootHandlers sig2 size first s = Halted.
Proof.
  intros Hr Hc. destruct (setup_root_ok s Hr Hc) as (root & c & h & E & (E1 & _) & _). unfold sys_mount. erewrite bind_ok by done.
  rewrite Hr. cbn [no_list firstObject Z.eqb]. mrw E. unfold sys_setup. cbn [rootFile ff_cells ll] in *. by rewrite E1.
Qed.
End fakefs.

(** ** A sample: the root with one directory *)

Definition ff0 : Fakefs :=
  match (fakefsSetupRoot 7 ;;; fakefsAddFile 1 [98; 117; 115] None DIR_MODE 7) (mkFake no_list 0 ∅ ∅) with
  | Ok (_, s) => s | _ => mkFake no_list 0 ∅ ∅ end.
Definition ff_sample : Fakefs := Eval vm_compute in ff0.
Definition ff_kids (a : Z) : list Z := if decide (a = 1) then [2] else [].

Lemma ff_sample_ok : fake_ok ff_sample [1; 2] ff_kids.
Proof.
  assert (Hm : forall a, a ∈ [1; 2] -> a = 1 \/ a = 2) by set_solver. split.
  - repeat constructor; set_solver.
  - intros a [->| ->]%Hm; (split; [done|]); eexists; (split; [reflexivity|]).
    + split_and!; [done|repeat constructor; set_solver|]. split_and!; [done|done|]. eexists. by split.
    + split_and!; [done|constructor|done].
  - intros a b [->| ->]%Hm; cbn; set_solver.
  - intros a b c [->| ->]%Hm [->| ->]%Hm; cbn; set_solver.
  - intros a [->| ->]%Hm; by eexists.
  - intros a [x Hx]. apply elem_of_map_to_list in Hx. vm_compute in Hx. set_solver.
Qed.

Lemma bus_name : name_ok [98; 117; 115].
Proof. split; [split; [done|unfold slash; set_solver]|]. repeat constructor; done. Qed.

Lemma ff_sample_names : names_ok ff_sample [1; 2] ff_kids.
Proof.
  intros a b f Ha Hb Hf. assert (b = 2) as ->; [|injection Hf as <-; left; exact bus_name].
  assert (a = 1 \/ a = 2) as [->| ->] by set_solver; cbn in Hb; set_solver.
Qed.

Lemma fakefsAddFile_found_witness :
  exists a s', fakefsAddFile 2 [112; 99; 105] None DIR_MODE 7 ff_sample = Ok (a, s') /\
    fakefsTraversePath 1 [47; 98; 117; 115; 47; 112; 99; 105] s' = Ok (a, s') /\ fakefsTraversePath 1 [47; 98; 117; 115] s' = Ok (2, s').
Proof.
  destruct (fakefsAddFile_found ff_sample [1; 2] ff_kids 2 [112; 99; 105] None DIR_MODE 7 ff_sample_ok ff_sample_names)
    as (a & s' & E & _ & _ & _ & _ & H1 & H2).
  - set_solver.
  - split; [split; [done|unfold slash; set_solver]|]. repeat constructor; done.
  - exists a, s'. split_and!; [exact E| |].
    + apply (H1 eq_refl 1 [[98; 117; 115]]); [set_solver|constructor; [exact bus_name|constructor]|reflexivity].
    + apply (H2 1 [[98; 117; 115]] 2); [set_solver|done|constructor; [exact bus_name|constructor]|reflexivity].
Defined.
