(* ===== verification/Ramdisk.v ===== *)
(** * The ram disk of the shell ([filesystems/rd/ramdisk.cpp])

    A table of entries, the current directory and 1024 blocks.  Names and paths
    are the strings their arrays hold; the last byte of a name is never written
    and stays 0.  A buffer the caller passes is the list of bytes from its address
    on.  Printing is the list of what is printed.

    The theorems: the table stays a tree of uniquely named entries, what is written
    is read back and nothing else changes, and boundary cases. *)

From S2P Require Import Prelude Bytes.

(** [ramdisk.h] says 512, but [ramdisk.cpp] includes [bootloader.h] behind it, and
    with it [bitmap.h], which defines the name again. *)
Definition BLOCK_SIZE : Z := 4096.
Definition MAX_FILES : Z := 128.
Definition MAX_NAME : Z := 32.
Definition MAX_PATH : Z := 256.

Record file_entry := mkEntry {
  e_name : list Z;
  e_path : list Z;
  used : bool;
  is_dir : bool;
  e_size : Z;
  block_index : Z;
  parent_index : Z;
}.

Record ramdisk := mkRd {
  files : list file_entry;
  current_dir_index : Z;
  ram_disk : option (list Z);
}.

Definition with_table (t : list file_entry) (s : ramdisk) : ramdisk := mkRd t (current_dir_index s) (ram_disk s).
Definition with_current (i : Z) (s : ramdisk) : ramdisk := mkRd (files s) i (ram_disk s).
Definition with_disk (d : option (list Z)) (s : ramdisk) : ramdisk := mkRd (files s) (current_dir_index s) d.

(** ** Blocks *)

(** What the fresh block holds is an argument. *)
Definition block_init (fresh : list Z) : M ramdisk unit := modify (with_disk (Some fresh)).

Definition block_read (block : Z) : M ramdisk (list Z) :=
  let! d := gets ram_disk in
  match d with
  | None => fault
  | Some d => if zlen d <? (block + 1) * BLOCK_SIZE then fault else ret (slice (block * BLOCK_SIZE) BLOCK_SIZE d)
  end.

(** [BLOCK_SIZE] bytes are copied whatever the buffer holds. *)
Definition block_write (block : Z) (buffer : list Z) : M ramdisk unit :=
  let! d := gets ram_disk in
  match d with
  | None => fault
  | Some d =>
      if zlen buffer <? BLOCK_SIZE then fault
      else
        let! d := from_option_fault (store (block * BLOCK_SIZE) (take (Z.to_nat BLOCK_SIZE) buffer) d) in
        modify (with_disk (Some d))
  end.

(** ** Names *)

Definition entry_at (i : Z) : M ramdisk file_entry :=
  let! t := gets files in
  if i <? 0 then fault else from_option_fault (t !! Z.to_nat i).

(** [out] of 256 bytes. *)
Definition build_path (parent : Z) (name : list Z) : M ramdisk (list Z) :=
  if parent =? -1 then ret (47 :: take (Z.to_nat (MAX_PATH - 2)) name)
  else
    let! p := entry_at parent in
    let path := e_path p in
    match last path with
    | None => fault
    | Some c =>
        if negb (c =? 47) && (MAX_PATH <=? zlen path + 1) then fault
        else
          let path := if c =? 47 then path else path ++ [47] in
          ret (path ++ take (Z.to_nat (MAX_PATH - zlen path - 1)) name)
    end.

(** The first index of the table with the property. *)
Fixpoint scan (p : file_entry -> bool) (t : list file_entry) (i : Z) : option Z :=
  match t with
  | [] => None
  | e :: t => if p e then Some i else scan p t (i + 1)
  end.

Definition here (s : ramdisk) (name : list Z) (e : file_entry) : bool :=
  used e && (parent_index e =? current_dir_index s) && bool_decide (e_name e = name).

Definition find_in_current (name : list Z) (dir : bool) : M ramdisk Z := fun s =>
  Ok (default (-1) (scan (fun e =>
    used e && (parent_index e =? current_dir_index s) && Bool.eqb (is_dir e) dir && bool_decide (e_name e = name))
    (files s) 0), s).

(** The modules of the boot loader, by their paths: the first one that ends in
    the name. *)
Fixpoint findModule (name : list Z) (paths : list (option (list Z))) (i : Z) : option Z :=
  match paths with
  | [] => None
  | Some path :: paths =>
      if (zlen name <=? zlen path) && bool_decide (drop (length path - length name) path = name) then Some i
      else findModule name paths (i + 1)
  | None :: paths => findModule name paths (i + 1)
  end.

(** ** Operations *)

Definition set_entry (i : Z) (e : file_entry) : M ramdisk unit :=
  modify (fun s => with_table (<[Z.to_nat i := e]> (files s)) s).

Definition fs_create_entry (name : list Z) (dir : bool) : M ramdisk Z :=
  let! s := get in
  match scan (here s name) (files s) 0 with
  | Some _ => ret (-2)
  | None =>
      match scan (fun e => negb (used e)) (files s) 0 with
      | None => ret (-1)
      | Some i =>
          let! old := entry_at i in
          set_entry i (mkEntry (take (Z.to_nat (MAX_NAME - 1)) name) (e_path old) true dir 0 i (current_dir_index s)) ;;;
          let! path := build_path (current_dir_index s) name in
          let! e := entry_at i in
          set_entry i (mkEntry (e_name e) path true dir 0 i (current_dir_index s)) ;;;
          ret 0
      end
  end.

Definition fs_create (name : list Z) : M ramdisk Z := fs_create_entry name false.
Definition fs_mkdir (name : list Z) : M ramdisk Z := fs_create_entry name true.

Definition set_size (n : Z) (e : file_entry) : file_entry :=
  mkEntry (e_name e) (e_path e) (used e) (is_dir e) n (block_index e) (parent_index e).
Definition set_used (b : bool) (e : file_entry) : file_entry :=
  mkEntry (e_name e) (e_path e) b (is_dir e) (e_size e) (block_index e) (parent_index e).

(** The length of the string in the buffer. *)
Fixpoint string_length (l : list Z) : option nat :=
  match l with [] => None | c :: l => if c =? 0 then Some O else S <$> string_length l end.

Definition fs_write (name data : list Z) : M ramdisk Z :=
  let! i := find_in_current name false in
  if i <? 0 then ret (-1)
  else
    let! len := from_option_fault (string_length data) in
    let! e := entry_at i in
    set_entry i (set_size (Z.min (Z.of_nat len) BLOCK_SIZE) e) ;;;
    block_write (block_index e) data ;;;
    ret 0.

(** The buffer of [room] bytes after the call: its first [BLOCK_SIZE] bytes and
    the null behind the text. *)
Definition fs_read (name : list Z) (room : Z) : M ramdisk (Z * list Z) :=
  let! i := find_in_current name false in
  if i <? 0 then ret (-1, [])
  else
    let! e := entry_at i in
    let! b := block_read (block_index e) in
    if (room <? BLOCK_SIZE) || (room <=? e_size e) then fault
    else ret (0, take (Z.to_nat (e_size e)) b ++ [0] ++ drop (Z.to_nat (e_size e) + 1) b).

Definition fs_delete (name : list Z) : M ramdisk Z :=
  let! s := get in
  match scan (here s name) (files s) 0 with
  | None => ret (-1)
  | Some i =>
      let! e := entry_at i in
      if is_dir e then
        match scan (fun f => used f && (parent_index f =? i)) (files s) 0 with
        | Some _ => ret (-2)
        | None => set_entry i (set_used false e) ;;; ret 0
        end
      else
        set_entry i (set_size 0 (set_used false e)) ;;;
        block_write (block_index e) (replicate (Z.to_nat BLOCK_SIZE) 0) ;;;
        ret 0
  end.

Definition fs_list : M ramdisk (list (bool * list Z)) := fun s =>
  Ok ((fun e => (is_dir e, e_name e)) <$> filter (fun e => used e && (parent_index e =? current_dir_index s) = true) (files s), s).

Definition dot_dot : list Z := [46; 46].

Definition fs_cd (name : list Z) : M ramdisk Z :=
  let! s := get in
  if bool_decide (name = dot_dot) then
    if current_dir_index s =? -1 then ret 0
    else
      let! e := entry_at (current_dir_index s) in
      modify (with_current (parent_index e)) ;;; ret 0
  else
    let! i := find_in_current name true in
    if i <? 0 then ret (-1) else modify (with_current i) ;;; ret 0.

Definition fs_pwd : M ramdisk (list Z) :=
  let! i := gets current_dir_index in
  if i =? -1 then ret [47] else let! e := entry_at i in ret (e_path e).

(** Does the term occur in the name? *)
Fixpoint occurs (term l : list Z) : bool :=
  bool_decide (take (length term) l = term) || match l with [] => false | _ :: l => occurs term l end.
Definition fs_search (term : list Z) : M ramdisk (list (bool * list Z)) := fun s =>
  Ok ((fun e => (is_dir e, e_path e)) <$> filter (fun e => used e && occurs term (e_name e) = true) (files s), s).

(** The lines of a script, the empty ones left out. *)
Fixpoint script_lines (text line : list Z) : list (list Z) :=
  match text with
  | [] => if bool_decide (line = []) then [] else [line]
  | c :: text =>
      if (c =? 10) then (if bool_decide (line = []) then [] else [line]) ++ script_lines text []
      else script_lines text (line ++ [c])
  end.

(** What the shell executes, or what is printed. *)
Inductive started := NotFound | Executes (lines : list (list Z)) | Prints (text : list Z).

Fixpoint up_to_null (l : list Z) : list Z := match l with [] => [] | c :: l => if c =? 0 then [] else c :: up_to_null l end.

Definition fs_start (name : list Z) : M ramdisk started :=
  let! i := find_in_current name false in
  if i <? 0 then ret NotFound
  else
    let! e := entry_at i in
    let! b := block_read (block_index e) in
    let text := up_to_null (take (Z.to_nat (e_size e)) b) in
    if (3 <? zlen name) && bool_decide (drop (length name - 3) name = [46; 115; 104])
    then ret (Executes (script_lines text [])) else ret (Prints text).

(** ** Searching the table *)

Lemma scan_Some p t i k : scan p t i = Some k ->
  exists j e, k = i + Z.of_nat j /\ t !! j = Some e /\ p e = true /\ forall j' e', (j' < j)%nat -> t !! j' = Some e' -> p e' = false.
Proof.
  revert i. induction t as [|e t IH]; intros i; cbn [scan]; [done|]. destruct (p e) eqn:E.
  - intros [= <-]. exists 0%nat, e. split_and!; [lia|done|done|]. intros. lia.
  - intros H. destruct (IH _ H) as (j & e' & -> & Hj & He & Hb). exists (S j), e'. split_and!; [lia|done|done|].
    intros [|j'] f Hlt Hf; [cbn in Hf; congruence|]. apply (Hb j'); [lia|done].
Qed.

Lemma scan_None p t i : scan p t i = None -> forall j e, t !! j = Some e -> p e = false.
Proof.
  revert i. induction t as [|e t IH]; intros i; cbn [scan]; [done|]. destruct (p e) eqn:E; [done|].
  intros H [|j] f Hf; [cbn in Hf; congruence|]. by apply (IH _ H j).
Qed.

Lemma scan_found p t i j e : t !! j = Some e -> p e = true -> (forall j' e', t !! j' = Some e' -> p e' = true -> j' = j) ->
  scan p t i = Some (i + Z.of_nat j).
Proof.
  intros Hj He Hu. destruct (scan p t i) as [k|] eqn:E.
  - apply scan_Some in E as (j' & e' & -> & Hj' & He' & _). by rewrite (Hu j' e' Hj' He').
  - pose proof (scan_None p t i E j e Hj). congruence.
Qed.

(** ** The table as a tree *)

Definition directory_at (s : ramdisk) (p : Z) : Prop :=
  p = -1 \/ exists j d, p = Z.of_nat j /\ files s !! j = Some d /\ used d = true /\ is_dir d = true.

Record rd_ok (s : ramdisk) : Prop := {
  ro_len : zlen (files s) = MAX_FILES;
  ro_disk : exists d, ram_disk s = Some d /\ zlen d = 1024 * BLOCK_SIZE;
  ro_entry : forall i e, files s !! i = Some e -> used e = true ->
    block_index e = Z.of_nat i /\ 0 <= e_size e <= BLOCK_SIZE /\ zlen (e_name e) < MAX_NAME /\ e_path e <> [] /\
    directory_at s (parent_index e);
  ro_current : directory_at s (current_dir_index s);
  ro_unique : forall i j e f, files s !! i = Some e -> files s !! j = Some f -> used e = true -> used f = true ->
    parent_index e = parent_index f -> e_name e = e_name f -> i = j;
  ro_tree : exists rank : Z -> nat, forall i e, files s !! i = Some e -> used e = true ->
    (rank (parent_index e) < rank (Z.of_nat i))%nat;
}.

Lemma ro_index s i e : rd_ok s -> files s !! i = Some e -> 0 <= Z.of_nat i < MAX_FILES.
Proof. intros O Hi. apply lookup_lt_Some in Hi. pose proof (ro_len _ O). unfold zlen in *. lia. Qed.

Lemma entry_at_ok s i e : files s !! i = Some e -> entry_at (Z.of_nat i) s = Ok (e, s).
Proof.
  intros Hi. unfold entry_at. erewrite bind_ok by done. rewrite (proj2 (Z.ltb_ge _ 0)) by lia. by rewrite Nat2Z.id, Hi.
Qed.

(** The table after one entry has changed. *)
Definition set_at (i : nat) (e : file_entry) (s : ramdisk) : ramdisk := with_table (<[i := e]> (files s)) s.

Lemma set_entry_ok s i e : set_entry (Z.of_nat i) e s = Ok (tt, set_at i e s).
Proof. unfold set_entry, set_at, modify. by rewrite Nat2Z.id. Qed.

Lemma set_at_lookup s i e j : (i < length (files s))%nat ->
  files (set_at i e s) !! j = if decide (j = i) then Some e else files s !! j.
Proof.
  intros Hi. unfold set_at, with_table. cbn. destruct (decide (j = i)) as [->|Hne]; [by apply list_lookup_insert_eq|].
  by rewrite list_lookup_insert_ne.
Qed.

Lemma block_write_ok s b data d :
  ram_disk s = Some d -> zlen d = 1024 * BLOCK_SIZE -> 0 <= b < 1024 -> BLOCK_SIZE <= zlen data ->
  block_write b data s = Ok (tt, with_disk (Some (patch (b * BLOCK_SIZE) (take (Z.to_nat BLOCK_SIZE) data) d)) s) /\
  zlen (patch (b * BLOCK_SIZE) (take (Z.to_nat BLOCK_SIZE) data) d) = 1024 * BLOCK_SIZE.
Proof.
  intros Hd Hl Hb Hdata. assert (zlen (take (Z.to_nat BLOCK_SIZE) data) = BLOCK_SIZE) as Ht.
  { unfold zlen in *. rewrite length_take. unfold BLOCK_SIZE in *. lia. }
  split; [|by rewrite zlen_patch].
  unfold block_write. erewrite bind_ok by done. rewrite Hd. rewrite (proj2 (Z.ltb_ge _ _)) by lia.
  rewrite store_ok by (unfold BLOCK_SIZE in *; lia). by erewrite bind_ok by done.
Qed.

(** A directory stays one when another slot changes. *)
Lemma directory_kept s i e e' p :
  files s !! i = Some e -> (used e = true -> is_dir e = true -> used e' = true /\ is_dir e' = true) ->
  directory_at s p -> directory_at (set_at i e' s) p.
Proof.
  intros Hi Hk [->|(j & d & -> & Hj & Hu & Hd)]; [by left|]. right. pose proof (lookup_lt_Some _ _ _ Hi).
  exists j. destruct (decide (j = i)) as [->|Hne].
  - assert (d = e) as -> by congruence. destruct (Hk Hu Hd). exists e'. by rewrite set_at_lookup, decide_True.
  - exists d. by rewrite set_at_lookup, decide_False.
Qed.

(** An entry in use changes its size. *)
Lemma size_ok s i e n : rd_ok s -> files s !! i = Some e -> used e = true -> 0 <= n <= BLOCK_SIZE -> rd_ok (set_at i (set_size n e) s).
Proof.
  intros O Hi Hu Hn. pose proof (lookup_lt_Some _ _ _ Hi) as Hlt.
  assert (Hget : forall k f, files (set_at i (set_size n e) s) !! k = Some f ->
    exists g, files s !! k = Some g /\ used f = used g /\ block_index f = block_index g /\ e_name f = e_name g /\ e_path f = e_path g /\
      parent_index f = parent_index g /\ (e_size f = e_size g \/ e_size f = n)).
  { intros k f. rewrite set_at_lookup by done. destruct (decide (k = i)) as [->|]; [intros [= <-]; exists e|intros Hf; exists f]; naive_solver. }
  split.
  - cbn. unfold zlen. rewrite length_insert. apply O.
  - apply O.
  - intros k f Hk Huf. destruct (Hget k f Hk) as (g & Hg & E1 & E2 & E3 & E4 & E5 & E6). rewrite E1 in Huf.
    destruct (ro_entry _ O k g Hg Huf) as (H1 & H2 & H3 & H4 & H5). rewrite E2, E3, E4, E5. split_and!; try done; [lia|lia|].
    by eapply directory_kept.
  - eapply directory_kept; [done|done|apply O].
  - intros k k' f f' Hk Hk' Hf Hf' Hp Hnm. destruct (Hget k f Hk) as (g & Hg & E1 & _ & E3 & _ & E5 & _).
    destruct (Hget k' f' Hk') as (g' & Hg' & E1' & _ & E3' & _ & E5' & _). apply (ro_unique _ O k k' g g'); congruence.
  - destruct (ro_tree _ O) as [rank Hr]. exists rank. intros k f Hk Huf.
    destruct (Hget k f Hk) as (g & Hg & E1 & _ & _ & _ & E5 & _). rewrite E5. apply (Hr k g Hg). congruence.
Qed.

(** An entry without children is taken out. *)
Lemma delete_ok s i e e' : rd_ok s -> files s !! i = Some e -> used e' = false -> current_dir_index s <> Z.of_nat i ->
  (forall j f, files s !! j = Some f -> used f = true -> parent_index f <> Z.of_nat i) -> rd_ok (set_at i e' s).
Proof.
  intros O Hi Hu Hc Hkids. pose proof (lookup_lt_Some _ _ _ Hi) as Hlt.
  assert (Hget : forall k f, files (set_at i e' s) !! k = Some f -> used f = true -> k <> i /\ files s !! k = Some f).
  { intros k f. rewrite set_at_lookup by done. destruct (decide (k = i)) as [->|]; [intros [= <-]; congruence|done]. }
  assert (Hdir : forall p, p <> Z.of_nat i -> directory_at s p -> directory_at (set_at i e' s) p).
  { intros p Hp [->|(j & d & -> & Hj & Hd)]; [by left|]. right. exists j, d. rewrite set_at_lookup, decide_False by (done || lia). done. }
  split.
  - cbn. unfold zlen. rewrite length_insert. apply O.
  - apply O.
  - intros k f Hk Huf. destruct (Hget k f Hk Huf) as [Hne Hg]. destruct (ro_entry _ O k f Hg Huf) as (H1 & H2 & H3 & H4 & H5).
    split_and!; try done; [lia|lia|]. apply Hdir; [by eapply Hkids|done].
  - apply Hdir; [done|apply O].
  - intros k k' f f' Hk Hk' Hf Hf'. destruct (Hget k f Hk Hf) as [_ Hg], (Hget k' f' Hk' Hf') as [_ Hg']. by apply (ro_unique _ O).
  - destruct (ro_tree _ O) as [rank Hr]. exists rank. intros k f Hk Huf. destruct (Hget k f Hk Huf) as [_ Hg]. by apply Hr.
Qed.

(** A free slot takes a new entry of the current directory. *)
Lemma insert_ok s i old name path dir :
  rd_ok s -> files s !! i = Some old -> used old = false -> zlen name < MAX_NAME -> path <> [] ->
  (forall j f, files s !! j = Some f -> used f = true -> parent_index f = current_dir_index s -> e_name f <> name) ->
  rd_ok (set_at i (mkEntry name path true dir 0 (Z.of_nat i) (current_dir_index s)) s).
Proof.
  intros O Hi Hold Hn Hp Hnew. pose proof (lookup_lt_Some _ _ _ Hi) as Hlt. set (e := mkEntry _ _ _ _ _ _ _).
  assert (Hdir : forall p, directory_at s p -> p <> Z.of_nat i /\ directory_at (set_at i e s) p).
  { intros p Hd. split; [|by eapply (directory_kept s i old); [done|congruence|]].
    destruct Hd as [->|(j & d & -> & Hj & Hu & _)]; [lia|]. intros Hji. assert (j = i) as -> by lia. congruence. }
  assert (Hget : forall k f, files (set_at i e s) !! k = Some f -> k = i /\ f = e \/ k <> i /\ files s !! k = Some f).
  { intros k f. rewrite set_at_lookup by done. destruct (decide (k = i)) as [->|]; [intros [= <-]|]; auto. }
  split.
  - cbn. unfold zlen. rewrite length_insert. apply O.
  - apply O.
  - intros k f Hk Huf. destruct (Hget k f Hk) as [[-> ->]|[Hne Hg]].
    + cbn. split_and!; try done. apply Hdir, O.
    + destruct (ro_entry _ O k f Hg Huf) as (H1 & H2 & H3 & H4 & H5). split_and!; try done; [lia|lia|]. by apply Hdir.
  - apply Hdir, O.
  - intros k k' f f' Hk Hk' Hf Hf' Hpar Hname.
    destruct (Hget k f Hk) as [[-> ->]|[Hne Hg]], (Hget k' f' Hk') as [[-> ->]|[Hne' Hg']]; [done|..|by apply (ro_unique _ O k k' f f')].
    + cbn in *. destruct (Hnew k' f' Hg' Hf'); [congruence|done].
    + cbn in *. destruct (Hnew k f Hg Hf); done.
  - destruct (ro_tree _ O) as [rank Hr].
    exists (fun z => if decide (z = Z.of_nat i) then S (rank (current_dir_index s)) else rank z). intros k f Hk Huf.
    destruct (Hdir _ (ro_current _ O)) as [Hci _]. destruct (Hget k f Hk) as [[-> ->]|[Hne Hg]].
    + cbn. rewrite decide_False, decide_True by done. lia.
    + destruct (ro_entry _ O k f Hg Huf) as (_ & _ & _ & _ & Hd). destruct (Hdir _ Hd) as [Hpi _].
      rewrite !decide_False by (done || lia). by apply Hr.
Qed.

(** ** Every command keeps the tree *)

(** The path of a directory leaves room for a slash. *)
Definition room_below (s : ramdisk) : Prop :=
  forall i e, current_dir_index s = Z.of_nat i -> files s !! i = Some e -> zlen (e_path e) < MAX_PATH - 1.

Lemma build_path_ok s p name : 
  directory_at s p -> (forall i e, files s !! i = Some e -> used e = true -> e_path e <> []) ->
  (forall i e, p = Z.of_nat i -> files s !! i = Some e -> zlen (e_path e) < MAX_PATH - 1) ->
  exists path, build_path p name s = Ok (path, s) /\ path <> [].
Proof.
  intros Hd Hne Hroom. unfold build_path. destruct Hd as [->|(j & d & -> & Hj & Hu & Hdir)]; [by eexists|].
  rewrite (proj2 (Z.eqb_neq _ _)) by lia. erewrite bind_ok by by apply entry_at_ok. specialize (Hne j d Hj Hu).
  specialize (Hroom j d eq_refl Hj). destruct (last (e_path d)) as [c|] eqn:El.
  - rewrite (proj2 (Z.leb_gt MAX_PATH (zlen (e_path d) + 1))), andb_false_r by lia. eexists. split; [done|].
    destruct (c =? 47); destruct (e_path d); done.
  - by apply last_None in El.
Qed.

Lemma here_true s name e : here s name e = true <-> used e = true /\ parent_index e = current_dir_index s /\ e_name e = name.
Proof. unfold here. rewrite !andb_true_iff, Z.eqb_eq, bool_decide_eq_true. tauto. Qed.

Lemma set_at_twice s i e e' : set_at i e' (set_at i e s) = set_at i e' s.
Proof. unfold set_at, with_table. cbn. by rewrite list_insert_insert_eq. Qed.

Lemma fs_create_entry_ok s name dir : rd_ok s -> zlen name < MAX_NAME -> room_below s ->
  exists r s', fs_create_entry name dir s = Ok (r, s') /\ rd_ok s'.
Proof.
  intros O Hn Hroom. unfold fs_create_entry. erewrite bind_ok by done.
  destruct (scan (here s name) (files s) 0) eqn:E1; [by eexists _, _|].
  destruct (scan (fun e => negb (used e)) (files s) 0) as [k|] eqn:E2; [|by eexists _, _].
  apply scan_Some in E2 as (i & old & -> & Hi & Hold & _). apply negb_true_iff in Hold. rewrite Z.add_0_l.
  pose proof (lookup_lt_Some _ _ _ Hi) as Hlt.
  erewrite bind_ok by by apply entry_at_ok. erewrite bind_ok by apply set_entry_ok.
  set (e := mkEntry (take _ name) (e_path old) true dir 0 (Z.of_nat i) (current_dir_index s)).
  assert (Hcur : current_dir_index s <> Z.of_nat i).
  { destruct (ro_current _ O) as [->|(j & d & -> & Hj & Hu & _)]; [lia|]. intros Hji. assert (j = i) as -> by lia. congruence. }
  assert (take (Z.to_nat (MAX_NAME - 1)) name = name) as Hname.
  { apply take_ge. unfold zlen, MAX_NAME in *. lia. }
  assert (exists path, build_path (current_dir_index s) name s = Ok (path, s) /\ path <> []) as (path & Hb & Hp).
  { apply build_path_ok; [apply O| |exact Hroom]. intros j d Hj Hu. by apply (ro_entry _ O j d Hj Hu). }
  assert (build_path (current_dir_index s) name (set_at i e s) = Ok (path, set_at i e s)) as Hb'.
  { clear -Hb Hcur Hlt O. revert Hb. unfold build_path. destruct (current_dir_index s =? -1); [unfold ret; congruence|].
    destruct (ro_current _ O) as [->|(j & d & Ej & Hj & _)]; [discriminate|]. rewrite Ej in *.
    erewrite bind_ok by by apply entry_at_ok. erewrite bind_ok.
    2: { apply (entry_at_ok (set_at i e s) j d). rewrite set_at_lookup, decide_False by (done || lia). done. }
    destruct (last (e_path d)); [|done]. destruct (negb _ && _); [done|]. unfold ret. congruence. }
  erewrite bind_ok by exact Hb'. erewrite bind_ok by (apply entry_at_ok; by rewrite set_at_lookup, decide_True).
  erewrite bind_ok by apply set_entry_ok. eexists _, _. split; [done|]. rewrite set_at_twice. cbn [e_name e]. rewrite Hname.
  apply (insert_ok s i old); try done. intros j f Hj Hu Hpar Hnm.
  pose proof (scan_None _ _ _ E1 j f Hj) as Hf. rewrite (proj2 (here_true s name f)) in Hf; done.
Qed.

(** What the search in the current directory finds. *)
Lemma find_in_current_cases s name dir :
  find_in_current name dir s = Ok (-1, s) \/
  exists i e, find_in_current name dir s = Ok (Z.of_nat i, s) /\ files s !! i = Some e /\ here s name e = true /\ is_dir e = dir.
Proof.
  unfold find_in_current. match goal with |- context [scan ?p ?t 0] => destruct (scan p t 0) as [k|] eqn:E end; [|by left].
  right. apply scan_Some in E as (i & e & -> & Hi & He & _). exists i, e. rewrite !andb_true_iff, bool_decide_eq_true in He.
  destruct He as (((H1 & H2) & H3) & H4). split_and!; [done|done| |by apply Bool.eqb_prop].
  apply here_true. split_and!; [done|by apply Z.eqb_eq|done].
Qed.

Lemma disk_ok s d : rd_ok s -> zlen d = 1024 * BLOCK_SIZE -> rd_ok (with_disk (Some d) s).
Proof. intros O Hd. destruct O as [H1 H2 H3 H4 H5 H6]. split; try done. by exists d. Qed.

(** The state after the block of a slot has been written. *)
Definition put_block (i : nat) (data : list Z) (s : ramdisk) : ramdisk :=
  with_disk ((fun d => patch (Z.of_nat i * BLOCK_SIZE) (take (Z.to_nat BLOCK_SIZE) data) d) <$> ram_disk s) s.

Lemma block_write_at s i e data : rd_ok s -> (i < length (files s))%nat -> block_index e = Z.of_nat i -> BLOCK_SIZE <= zlen data ->
  block_write (block_index e) data s = Ok (tt, put_block i data s) /\ rd_ok (put_block i data s).
Proof.
  intros O Hi Hb Hd. destruct (ro_disk _ O) as (d & Hram & Hlen). pose proof (ro_len _ O) as Hl.
  destruct (block_write_ok s (block_index e) data d) as [E Hz]; try done; [unfold zlen, MAX_FILES in *; lia|].
  unfold put_block. rewrite Hram, E, Hb in *. split; [done|]. by apply disk_ok.
Qed.

Lemma fs_write_found s i e name data n : rd_ok s -> BLOCK_SIZE <= zlen data -> string_length data = Some n ->
  files s !! i = Some e -> used e = true -> find_in_current name false s = Ok (Z.of_nat i, s) ->
  let s' := put_block i data (set_at i (set_size (Z.min (Z.of_nat n) BLOCK_SIZE) e) s) in
  fs_write name data s = Ok (0, s') /\ rd_ok s'.
Proof.
  intros O Hd Hn Hi Hu E. destruct (ro_entry _ O i e Hi Hu) as (Hb & _). pose proof (lookup_lt_Some _ _ _ Hi) as Hlt.
  assert (rd_ok (set_at i (set_size (Z.min (Z.of_nat n) BLOCK_SIZE) e) s)) as O' by (apply size_ok; unfold BLOCK_SIZE; try done; lia).
  destruct (block_write_at _ i e data O') as [Ew Ow]; try done; [cbn; by rewrite length_insert|]. split; [|done].
  unfold fs_write. erewrite bind_ok by exact E. rewrite (proj2 (Z.ltb_ge _ 0)) by lia. rewrite Hn. erewrite bind_ok by done.
  erewrite bind_ok by by apply entry_at_ok. erewrite bind_ok by apply set_entry_ok. by erewrite bind_ok by exact Ew.
Qed.

Lemma fs_write_ok s name data n : rd_ok s -> BLOCK_SIZE <= zlen data -> string_length data = Some n ->
  fs_write name data s = Ok (-1, s) \/
  exists i e, files s !! i = Some e /\ here s name e = true /\ is_dir e = false /\
    let s' := put_block i data (set_at i (set_size (Z.min (Z.of_nat n) BLOCK_SIZE) e) s) in
    fs_write name data s = Ok (0, s') /\ rd_ok s'.
Proof.
  intros O Hd Hn. destruct (find_in_current_cases s name false) as [E|(i & e & E & Hi & Hh & Hdir)].
  - left. unfold fs_write. by erewrite bind_ok by exact E.
  - right. exists i, e. split_and!; [done..|]. apply here_true in Hh as (Hu & _). by apply fs_write_found.
Qed.

Lemma fs_delete_ok s name : rd_ok s -> exists r s', fs_delete name s = Ok (r, s') /\ rd_ok s'.
Proof.
  intros O. unfold fs_delete. erewrite bind_ok by done.
  destruct (scan (here s name) (files s) 0) as [k|] eqn:E; [|by eexists _, _].
  apply scan_Some in E as (i & e & -> & Hi & Hh & _). rewrite Z.add_0_l. apply here_true in Hh as (Hu & Hp & _).
  destruct (ro_entry _ O i e Hi Hu) as (Hb & _). pose proof (lookup_lt_Some _ _ _ Hi) as Hlt.
  assert (Hcur : current_dir_index s <> Z.of_nat i).
  { destruct (ro_tree _ O) as [rank Hr]. specialize (Hr i e Hi Hu). intros Hc. rewrite Hp, Hc in Hr. lia. }
  erewrite bind_ok by by apply entry_at_ok. destruct (is_dir e) eqn:Hdir.
  - destruct (scan _ (files s) 0) eqn:E2; [by eexists _, _|]. erewrite bind_ok by apply set_entry_ok.
    eexists _, _. split; [done|]. apply (delete_ok s i e); try done. intros j f Hj Hf Hpar.
    pose proof (scan_None _ _ _ E2 j f Hj) as Hx. cbn in Hx. rewrite Hf, Hpar, Z.eqb_refl in Hx. done.
  - assert (rd_ok (set_at i (set_size 0 (set_used false e)) s)) as O'.
    { apply (delete_ok s i e); try done. intros j f Hj Hf Hpar.
      destruct (ro_entry _ O j f Hj Hf) as (_ & _ & _ & _ & [Hr|(k & g & Ek & Hk & _ & Hg)]); [lia|].
      assert (k = i) as -> by lia. congruence. }
    erewrite bind_ok by apply set_entry_ok.
    destruct (block_write_at _ i e (replicate (Z.to_nat BLOCK_SIZE) 0) O') as [Ew Ow]; try done; [cbn; by rewrite length_insert|].
    erewrite bind_ok by exact Ew. by eexists _, _.
Qed.

Lemma fs_cd_ok s name : rd_ok s -> exists r s', fs_cd name s = Ok (r, s') /\ rd_ok s'.
Proof.
  intros O. unfold fs_cd. erewrite bind_ok by done.
  assert (Hcd : forall p, directory_at s p -> rd_ok (with_current p s)).
  { intros p Hp. destruct O as [H1 H2 H3 H4 H5 H6]. by split. }
  case_bool_decide.
  - destruct (current_dir_index s =? -1) eqn:Ec; [by eexists _, _|]. apply Z.eqb_neq in Ec.
    destruct (ro_current _ O) as [Hc|(j & d & Hj & Hd & Hu & _)]; [done|]. rewrite Hj.
    erewrite bind_ok by by apply entry_at_ok. eexists _, _. split; [done|]. apply Hcd. by apply (ro_entry _ O j d).
  - destruct (find_in_current_cases s name true) as [E|(i & e & E & Hi & Hh & Hdir)]; (erewrite bind_ok by exact E); [by eexists _, _|].
    rewrite (proj2 (Z.ltb_ge _ 0)) by lia. eexists _, _. split; [done|]. apply Hcd. right. apply here_true in Hh as (Hu & _). by exists i, e.
Qed.

(** The commands of the shell that change the disk. *)
Inductive command :=
  | Create (name : list Z) | Mkdir (name : list Z) | Write (name data : list Z) | Delete (name : list Z) | Cd (name : list Z).

Definition exec (c : command) : M ramdisk Z :=
  match c with
  | Create name => fs_create name
  | Mkdir name => fs_mkdir name
  | Write name data => fs_write name data
  | Delete name => fs_delete name
  | Cd name => fs_cd name
  end.

(** Names fit their field, paths their array and the text comes in a buffer of a
    block. *)
Definition command_fits (c : command) (s : ramdisk) : Prop :=
  match c with
  | Create name | Mkdir name => zlen name < MAX_NAME /\ room_below s
  | Write _ data => BLOCK_SIZE <= zlen data /\ is_Some (string_length data)
  | Delete _ | Cd _ => True
  end.

Fixpoint exec_all (cs : list command) : M ramdisk (list Z) :=
  match cs with
  | [] => ret []
  | c :: cs => let! r := exec c in let! rs := exec_all cs in ret (r :: rs)
  end.

Fixpoint all_fit (cs : list command) (s : ramdisk) : Prop :=
  match cs with
  | [] => True
  | c :: cs => command_fits c s /\ forall r s', exec c s = Ok (r, s') -> all_fit cs s'
  end.

Lemma exec_keeps_tree c s : rd_ok s -> command_fits c s -> exists r s', exec c s = Ok (r, s') /\ rd_ok s'.
Proof.
  intros O Hf. destruct c as [name|name|name data|name|name]; cbn [exec command_fits] in *.
  - by apply fs_create_entry_ok; destruct Hf.
  - by apply fs_create_entry_ok; destruct Hf.
  - destruct Hf as [Hd [n Hn]]. destruct (fs_write_ok s name data n) as [E|(i & e & _ & _ & _ & E & O')]; try done; by eexists _, _.
  - by apply fs_delete_ok.
  - by apply fs_cd_ok.
Qed.

(** C34: from a table whose entries in use have distinct names within their
    directory, lie below directories in use, own the block of their slot and
    form a tree over the root, any sequence of the create, mkdir, write, delete
    and cd commands of the ram disk runs to its end without touching memory
    outside the table and the blocks, and leaves such a table, with the current
    directory still a directory in use, provided names are shorter than 32
    characters, the current path leaves room for a slash and the text to write
    comes in a buffer of a block. *)
Theorem ramdisk_keeps_tree cs s : rd_ok s -> all_fit cs s -> exists rs s', exec_all cs s = Ok (rs, s') /\ rd_ok s'.
Proof.
  revert s. induction cs as [|c cs IH]; intros s O Hf; cbn [exec_all]; [by eexists _, _|].
  destruct Hf as [Hc Hcs]. destruct (exec_keeps_tree c s O Hc) as (r & s1 & E & O1).
  destruct (IH s1 O1 (Hcs r s1 E)) as (rs & s2 & E2 & O2). erewrite bind_ok by exact E. erewrite bind_ok by exact E2. by eexists _, _.
Qed.

(** ** What is written is read back *)

Lemma scan_insert p t i k e e' : t !! k = Some e -> p e' = p e -> scan p (<[k := e']> t) i = scan p t i.
Proof.
  revert i k. induction t as [|f t IH]; intros i k Hk Hp; [done|]. destruct k as [|k]; [cbn in *; by simplify_eq; rewrite Hp|].
  change (<[S k := e']> (f :: t)) with (f :: <[k := e']> t). cbn [scan]. by rewrite (IH (i + 1) k).
Qed.

Lemma find_in_current_size s i e n name dir b r : files s !! i = Some e -> find_in_current name dir s = Ok (r, s) ->
  find_in_current name dir (put_block i b (set_at i (set_size n e) s)) = Ok (r, put_block i b (set_at i (set_size n e) s)).
Proof. intros Hi. unfold find_in_current. cbn. rewrite (scan_insert _ _ _ i e) by done. congruence. Qed.

Lemma up_to_null_text data n k rest : string_length data = Some n -> (k <= n)%nat -> up_to_null (take k data ++ 0 :: rest) = take k data.
Proof.
  revert n k. induction data as [|c data IH]; intros n k; cbn [string_length]; [done|].
  destruct (c =? 0) eqn:Ec; [intros [= <-] Hk; by assert (k = 0%nat) as -> by lia|].
  destruct (string_length data) as [m|] eqn:E; [|done]. cbn. intros [= <-] Hk. destruct k as [|k]; [done|]. cbn. rewrite Ec.
  f_equal. apply (IH m); [done|lia].
Qed.

(** Two files of the current directory with one name are one slot. *)
Lemma find_in_current_here s i e : rd_ok s -> files s !! i = Some e -> used e = true -> parent_index e = current_dir_index s ->
  find_in_current (e_name e) (is_dir e) s = Ok (Z.of_nat i, s).
Proof.
  intros O Hi Hu Hp. unfold find_in_current. rewrite (scan_found _ _ _ i e); [done|done|..].
  - by rewrite Hu, Hp, Z.eqb_refl, Bool.eqb_reflx, bool_decide_true.
  - intros j f Hj Hf. rewrite !andb_true_iff, bool_decide_eq_true, Z.eqb_eq in Hf. destruct Hf as (((H1 & H2) & _) & H4).
    apply (ro_unique _ O j i f e); congruence.
Qed.

Lemma block_read_at s i d : ram_disk s = Some d -> zlen d = 1024 * BLOCK_SIZE -> Z.of_nat i < MAX_FILES ->
  block_read (Z.of_nat i) s = Ok (slice (Z.of_nat i * BLOCK_SIZE) BLOCK_SIZE d, s).
Proof.
  intros Hd Hl Hi. unfold block_read. erewrite bind_ok by done. rewrite Hd. unfold MAX_FILES, BLOCK_SIZE in *.
  rewrite (proj2 (Z.ltb_ge _ _)) by lia. done.
Qed.

(** What reading a file of the directory gives. *)
Lemma fs_read_ok s i e d room : rd_ok s -> files s !! i = Some e -> find_in_current (e_name e) false s = Ok (Z.of_nat i, s) ->
  used e = true -> ram_disk s = Some d -> BLOCK_SIZE < room ->
  let b := slice (Z.of_nat i * BLOCK_SIZE) BLOCK_SIZE d in
  fs_read (e_name e) room s = Ok ((0, take (Z.to_nat (e_size e)) b ++ [0] ++ drop (Z.to_nat (e_size e) + 1) b), s).
Proof.
  intros O Hi Hf Hu Hd Hroom b. destruct (ro_entry _ O i e Hi Hu) as (Hb & Hs & _). destruct (ro_disk _ O) as (d' & Hd' & Hl).
  assert (d' = d) as -> by congruence. pose proof (ro_index s i e O Hi).
  unfold fs_read. erewrite bind_ok by exact Hf. rewrite (proj2 (Z.ltb_ge _ 0)) by lia. erewrite bind_ok by by apply entry_at_ok.
  rewrite Hb. erewrite bind_ok by (apply block_read_at; [done|done|lia]).
  rewrite (proj2 (Z.ltb_ge room _)), (proj2 (Z.leb_gt room _)) by lia. done.
Qed.

(** C35: after [fs_write] of a text to a file of the current directory, [fs_read]
    of the same name returns 0 and its buffer holds, as a C string, the text cut
    to the 4096 bytes of a block, and every other file of the directory reads as it did before
    the write. *)
Theorem ramdisk_write_read s name data n room s' : rd_ok s -> BLOCK_SIZE <= zlen data -> string_length data = Some n -> BLOCK_SIZE < room ->
  fs_write name data s = Ok (0, s') ->
  (exists buf, fs_read name room s' = Ok ((0, buf), s') /\ up_to_null buf = take (Nat.min n (Z.to_nat BLOCK_SIZE)) data) /\
  (forall other r, other <> name -> fs_read other room s = Ok (r, s) -> fs_read other room s' = Ok (r, s')).
Proof.
  intros O Hd Hn Hroom Hw. destruct (fs_write_ok s name data n O Hd Hn) as [E|(i & e & Hi & Hh & Hdir & E & O')]; [congruence|].
  rewrite E in Hw. injection Hw as <-. apply here_true in Hh as (Hu & Hp & <-).
  set (s' := put_block i data _) in *. destruct (ro_disk _ O) as (d & Hram & Hl).
  pose proof (lookup_lt_Some _ _ _ Hi) as Hlt. pose proof (ro_index s i e O Hi) as Hix.
  assert (zlen (take (Z.to_nat BLOCK_SIZE) data) = BLOCK_SIZE) as Ht.
  { unfold zlen in *. rewrite length_take. unfold BLOCK_SIZE in *. lia. }
  assert (ram_disk s' = Some (patch (Z.of_nat i * BLOCK_SIZE) (take (Z.to_nat BLOCK_SIZE) data) d)) as Hram' by (cbn; by rewrite Hram).
  assert (forall j f, j <> i -> files s !! j = Some f -> files s' !! j = Some f) as Hoth.
  { intros j f Hj Hf. cbn. by rewrite list_lookup_insert_ne. }
  assert (files s' !! i = Some (set_size (Z.min (Z.of_nat n) BLOCK_SIZE) e)) as Hself by by apply list_lookup_insert_eq.
  pose proof (find_in_current_here s i e O Hi Hu Hp) as Hfind. rewrite Hdir in Hfind. split.
  - eexists. split.
    + assert (find_in_current (e_name e) false s' = Ok (Z.of_nat i, s')) as Hf' by by apply find_in_current_size.
      exact (fs_read_ok s' i _ _ room O' Hself Hf' Hu Hram' Hroom).
    + cbn [e_size set_size]. replace (slice _ BLOCK_SIZE _) with (take (Z.to_nat BLOCK_SIZE) data).
      2: { symmetry. rewrite <- Ht at 2. apply slice_patch_same; rewrite ?Ht; unfold BLOCK_SIZE, MAX_FILES in *; lia. }
      rewrite take_take. replace (_ `min` _)%nat with (Nat.min n (Z.to_nat BLOCK_SIZE)) by (unfold BLOCK_SIZE; lia).
      apply (up_to_null_text data n); [done|lia].
  - intros other r Hne Hr. destruct (find_in_current_cases s other false) as [Ef|(j & f & Ef & Hj & Hh & _)].
    + unfold fs_read in Hr |- *. erewrite bind_ok in Hr by exact Ef. erewrite bind_ok by by apply find_in_current_size.
      by injection Hr as <-.
    + apply here_true in Hh as (Huf & Hpf & <-). assert (j <> i) as Hji by (intros ->; congruence).
      rewrite (fs_read_ok s j f d room) in Hr by done. injection Hr as <-.
      erewrite (fs_read_ok s' j f _ room); [|done|by apply Hoth|by apply find_in_current_size|done|exact Hram'|done].
      rewrite slice_patch_disjoint; [done|unfold BLOCK_SIZE; lia..|]. rewrite Ht. unfold BLOCK_SIZE. lia.
Qed.

(** ** A small disk *)

Definition no_entry : file_entry := mkEntry [] [] false false 0 0 0.
Definition empty_rd (d : list Z) : ramdisk := mkRd (replicate 128 no_entry) (-1) (Some d).

Lemma empty_ok d : zlen d = 1024 * BLOCK_SIZE -> rd_ok (empty_rd d).
Proof.
  intros Hd. assert (forall i e, files (empty_rd d) !! i = Some e -> used e = true -> False) as Hno.
  { intros i e Hi He. apply lookup_replicate in Hi as [-> _]. done. }
  split; [done|by exists d|intros i e Hi He; by destruct (Hno i e)|by left|intros i j e f Hi _ He; by destruct (Hno i e)|].
  exists (fun _ => 0%nat). intros i e Hi He. by destruct (Hno i e).
Qed.

Definition blocks : list Z := replicate (Z.to_nat (1024 * BLOCK_SIZE)) 0.

Lemma blocks_zlen : zlen blocks = 1024 * BLOCK_SIZE.
Proof. unfold zlen, blocks. rewrite length_replicate, Z2Nat.id; [done|unfold BLOCK_SIZE; lia]. Qed.

Definition text : list Z := [104; 105] ++ replicate (Z.to_nat 4094) 0.
Definition session : list command := [Mkdir [100]; Cd [100]; Create [102]; Cd dot_dot; Delete [100]; Create [103]; Write [103] text].

Ltac fit :=
  match goal with
  | |- forall r s', _ = Ok (r, s') -> True => done
  | |- forall r s', _ = Ok (r, s') -> _ => let H := fresh in intros ? ? H; vm_compute in H; injection H as <- <-
  | |- room_below _ =>
      let Hi := fresh "Hi" in let He := fresh "He" in
      intros i e Hi He; cbn in Hi; first [lia|assert (i = 0%nat) as -> by lia; vm_compute in He; injection He as <-; by vm_compute]
  | |- _ /\ _ => split
  | |- is_Some _ => by eexists
  | |- _ <= _ => by vm_compute
  | |- _ < _ => by vm_compute
  | |- True => exact I
  end.

Lemma session_fits d : all_fit session (empty_rd d).
Proof.
  unfold session. cbn [all_fit command_fits]. repeat fit.
Qed.

Lemma ramdisk_keeps_tree_witness : exists rs s', exec_all session (empty_rd blocks) = Ok (rs, s') /\ rd_ok s'.
Proof. apply (ramdisk_keeps_tree session (empty_rd blocks)); [apply empty_ok, blocks_zlen|apply session_fits]. Defined.

(** One file, [/g]. *)
Definition file_g : file_entry := mkEntry [103] [47; 103] true false 0 0 (-1).
Definition one_file : ramdisk := set_at 0 file_g (empty_rd blocks).

Lemma one_file_ok : rd_ok one_file.
Proof.
  apply (insert_ok (empty_rd blocks) 0 no_entry [103] [47; 103] false); try done; [apply empty_ok, blocks_zlen|].
  intros j f Hj Hf. apply lookup_replicate in Hj as [-> _]. done.
Qed.

Lemma text_fits : BLOCK_SIZE <= zlen text /\ string_length text = Some 2%nat.
Proof. done. Qed.

Lemma one_file_write : fs_write [103] text one_file = Ok (0, put_block 0 text (set_at 0 (set_size 2 file_g) one_file)).
Proof.
  apply (fs_write_found one_file 0 file_g [103] text 2 one_file_ok); [apply text_fits..|done|done|].
  by apply (find_in_current_here one_file 0 file_g one_file_ok).
Qed.

Lemma ramdisk_write_read_witness : exists s', fs_write [103] text one_file = Ok (0, s') /\
  exists buf, fs_read [103] 4097 s' = Ok ((0, buf), s') /\ up_to_null buf = [104; 105].
Proof.
  eexists. split; [exact one_file_write|].
  destruct (ramdisk_write_read one_file [103] text 2 4097 _ one_file_ok (proj1 text_fits) (proj2 text_fits) eq_refl one_file_write) as [H _].
  exact H.
Defined.

(** ** Boundary cases *)

(** Going up reaches the root, from every directory and without touching the table. *)
Theorem cd_up_reaches_root s : rd_ok s ->
  exists n rs, exec_all (replicate n (Cd dot_dot)) s = Ok (rs, with_current (-1) s).
Proof.
  intros O. destruct (ro_tree _ O) as [rank Hr]. remember (rank (current_dir_index s)) as m eqn:Em.
  revert s O Hr Em. induction (lt_wf m) as [m _ IH]. intros s O Hr Em.
  destruct (ro_current _ O) as [Hc|(j & d & Hj & Hd & Hu & _)].
  - exists 0%nat, []. destruct s. cbn in *. by subst.
  - assert (directory_at s (parent_index d)) as Hp by by apply (ro_entry _ O j d). specialize (Hr j d Hd Hu) as Hlt.
    destruct (IH (rank (parent_index d))) with (s := with_current (parent_index d) s) as (n & rs & E); [by subst m; rewrite Hj| |done|done|].
    { destruct O. by split. }
    exists (S n), (0 :: rs). cbn [replicate exec_all exec]. erewrite bind_ok.
    2: { unfold fs_cd. erewrite bind_ok by done. rewrite bool_decide_true, Hj, (proj2 (Z.eqb_neq _ _)) by (done || lia).
         erewrite bind_ok by by apply entry_at_ok. done. }
    by erewrite bind_ok by exact E.
Qed.

(** A name of 32 characters or more is cut when it is stored and compared in
    full, so its file can be neither written nor deleted. *)
Theorem long_name_lost s name data : rd_ok s -> MAX_NAME <= zlen name ->
  fs_write name data s = Ok (-1, s) /\ fs_delete name s = Ok (-1, s).
Proof.
  intros O Hn. assert (forall i e, files s !! i = Some e -> here s name e = true -> False) as Hno.
  { intros i e Hi He. apply here_true in He as (Hu & _ & <-). destruct (ro_entry _ O i e Hi Hu) as (_ & _ & Hl & _). lia. }
  split.
  - unfold fs_write. destruct (find_in_current_cases s name false) as [E|(i & e & _ & Hi & Hh & _)]; [by erewrite bind_ok by exact E|].
    by destruct (Hno i e).
  - unfold fs_delete. erewrite bind_ok by done. destruct (scan (here s name) (files s) 0) as [k|] eqn:E; [|done].
    apply scan_Some in E as (i & e & _ & Hi & Hh & _). by destruct (Hno i e).
Qed.

(** Two creations of one name of 32 characters both succeed, and leave two
    entries of one name. *)
Theorem long_name_twice d :
  let name := replicate 32 97 in
  match exec_all [Create name; Create name] (empty_rd d) with
  | Ok (rs, s) => rs = [0; 0] /\ e_name <$> take 2 (files s) = replicate 2 (replicate 31 97)
  | _ => False
  end.
Proof. by vm_compute. Qed.

(** The write copies a whole block from the caller's text: a shorter text is read
    past its end. *)
Theorem short_text_faults s i e name data n : rd_ok s -> files s !! i = Some e -> used e = true ->
  find_in_current name false s = Ok (Z.of_nat i, s) -> string_length data = Some n -> zlen data < BLOCK_SIZE ->
  fs_write name data s = Fault.
Proof.
  intros O Hi Hu E Hn Hd. destruct (ro_disk _ O) as (d & Hram & _).
  unfold fs_write. erewrite bind_ok by exact E. rewrite (proj2 (Z.ltb_ge _ 0)) by lia. rewrite Hn. erewrite bind_ok by done.
  erewrite bind_ok by by apply entry_at_ok. erewrite bind_ok by apply set_entry_ok.
  unfold bind at 1. unfold block_write. erewrite bind_ok by done. cbn [ram_disk set_at with_table]. rewrite Hram.
  by rewrite (proj2 (Z.ltb_lt _ _)).
Qed.

(** A path of 255 characters has no room for the slash of its entries. *)
Theorem full_path_overflows s i e name : files s !! i = Some e -> current_dir_index s = Z.of_nat i ->
  zlen (e_path e) = MAX_PATH - 1 -> last (e_path e) <> Some 47 -> build_path (current_dir_index s) name s = Fault.
Proof.
  intros Hi Hc Hl Hs. rewrite Hc. unfold build_path. rewrite (proj2 (Z.eqb_neq _ _)) by lia. erewrite bind_ok by by apply entry_at_ok.
  destruct (last (e_path e)) as [c|]; [|done]. rewrite (proj2 (Z.eqb_neq c 47)) by congruence.
  by rewrite (proj2 (Z.leb_le _ _)) by (unfold MAX_PATH in *; lia).
Qed.
