(* ===== verification/Md5.v ===== *)
(** * The message digest ([utility/md5.cpp], [include/kernel/md5.h])

    The context with its bit counter and buffer, the block transformation, and
    the three calls.  [block] of the context is not used on this architecture.
    The data a caller passes is the list of bytes from its address on; reading
    past it is a fault.

    The theorems: the digest of RFC 1321 as a function of the whole message, and the
    proof that [MD5_Init], any sequence of [MD5_Update]s and [MD5_Final] compute it. *)

From S2P Require Import Prelude Bytes.

(** ** The transformation *)

Definition F (x y z : Z) : Z := Z.lxor z (Z.land x (Z.lxor y z)).
Definition G (x y z : Z) : Z := Z.lxor y (Z.land z (Z.lxor x y)).
Definition H (x y z : Z) : Z := Z.lxor (Z.lxor x y) z.
Definition H2 (x y z : Z) : Z := Z.lxor x (Z.lxor y z).
Definition I (x y z : Z) : Z := Z.lxor y (Z.lor x (u32 (Z.lnot z))).

(** The variables a, b, c, d. *)
Abbreviation regs := (Z * Z * Z * Z)%type.

(** The new value of the first register. *)
Definition STEP (f : Z -> Z -> Z -> Z) (a b c d x t s : Z) : Z :=
  let a := u32 (a + u32 (u32 (f b c d + x) + t)) in
  let a := Z.lor (u32 (Z.shiftl a s)) (Z.shiftr (Z.land a 0xffffffff) (32 - s)) in
  u32 (a + b).

(** The function, the word, the constant and the shift of a step.  A step gives
    its first register a new value; the next step names the registers d, a, b, c:
    here they move one place on after each step. *)
Inductive fn := fF | fG | fH | fH2 | fI.
Definition fn_of (f : fn) : Z -> Z -> Z -> Z :=
  match f with fF => F | fG => G | fH => H | fH2 => H2 | fI => I end.

Definition round_1 : list (fn * nat * Z * Z) :=
  [(fF, 0%nat, 0xd76aa478, 7); (fF, 1%nat, 0xe8c7b756, 12); (fF, 2%nat, 0x242070db, 17); (fF, 3%nat, 0xc1bdceee, 22);
   (fF, 4%nat, 0xf57c0faf, 7); (fF, 5%nat, 0x4787c62a, 12); (fF, 6%nat, 0xa8304613, 17); (fF, 7%nat, 0xfd469501, 22);
   (fF, 8%nat, 0x698098d8, 7); (fF, 9%nat, 0x8b44f7af, 12); (fF, 10%nat, 0xffff5bb1, 17); (fF, 11%nat, 0x895cd7be, 22);
   (fF, 12%nat, 0x6b901122, 7); (fF, 13%nat, 0xfd987193, 12); (fF, 14%nat, 0xa679438e, 17); (fF, 15%nat, 0x49b40821, 22)].
Definition round_2 : list (fn * nat * Z * Z) :=
  [(fG, 1%nat, 0xf61e2562, 5); (fG, 6%nat, 0xc040b340, 9); (fG, 11%nat, 0x265e5a51, 14); (fG, 0%nat, 0xe9b6c7aa, 20);
   (fG, 5%nat, 0xd62f105d, 5); (fG, 10%nat, 0x02441453, 9); (fG, 15%nat, 0xd8a1e681, 14); (fG, 4%nat, 0xe7d3fbc8, 20);
   (fG, 9%nat, 0x21e1cde6, 5); (fG, 14%nat, 0xc33707d6, 9); (fG, 3%nat, 0xf4d50d87, 14); (fG, 8%nat, 0x455a14ed, 20);
   (fG, 13%nat, 0xa9e3e905, 5); (fG, 2%nat, 0xfcefa3f8, 9); (fG, 7%nat, 0x676f02d9, 14); (fG, 12%nat, 0x8d2a4c8a, 20)].
Definition round_3 : list (fn * nat * Z * Z) :=
  [(fH, 5%nat, 0xfffa3942, 4); (fH2, 8%nat, 0x8771f681, 11); (fH, 11%nat, 0x6d9d6122, 16); (fH2, 14%nat, 0xfde5380c, 23);
   (fH, 1%nat, 0xa4beea44, 4); (fH2, 4%nat, 0x4bdecfa9, 11); (fH, 7%nat, 0xf6bb4b60, 16); (fH2, 10%nat, 0xbebfbc70, 23);
   (fH, 13%nat, 0x289b7ec6, 4); (fH2, 0%nat, 0xeaa127fa, 11); (fH, 3%nat, 0xd4ef3085, 16); (fH2, 6%nat, 0x04881d05, 23);
   (fH, 9%nat, 0xd9d4d039, 4); (fH2, 12%nat, 0xe6db99e5, 11); (fH, 15%nat, 0x1fa27cf8, 16); (fH2, 2%nat, 0xc4ac5665, 23)].
Definition round_4 : list (fn * nat * Z * Z) :=
  [(fI, 0%nat, 0xf4292244, 6); (fI, 7%nat, 0x432aff97, 10); (fI, 14%nat, 0xab9423a7, 15); (fI, 5%nat, 0xfc93a039, 21);
   (fI, 12%nat, 0x655b59c3, 6); (fI, 3%nat, 0x8f0ccc92, 10); (fI, 10%nat, 0xffeff47d, 15); (fI, 1%nat, 0x85845dd1, 21);
   (fI, 8%nat, 0x6fa87e4f, 6); (fI, 15%nat, 0xfe2ce6e0, 10); (fI, 6%nat, 0xa3014314, 15); (fI, 13%nat, 0x4e0811a1, 21);
   (fI, 4%nat, 0xf7537e82, 6); (fI, 11%nat, 0xbd3af235, 10); (fI, 2%nat, 0x2ad7d2bb, 15); (fI, 9%nat, 0xeb86d391, 21)].

Definition run_step (X : list Z) (r : regs) (row : fn * nat * Z * Z) : regs :=
  let '(a, b, c, d) := r in
  let '(f, k, t, s) := row in
  (d, STEP (fn_of f) a b c d (X !!! k) t s, b, c).

Definition add_saved (r saved : regs) : regs :=
  let '(a, b, c, d) := r in
  let '(a0, b0, c0, d0) := saved in
  (u32 (a + a0), u32 (b + b0), u32 (c + c0), u32 (d + d0)).

(** [SET(n)] and [GET(n)] for the sixteen words at [ptr]. *)
Definition block_words (ptr : list Z) : option (list Z) := mapM (fun n => load_le 4 (n * 4) ptr) (seqZ 0 16).

(** The loop of [body]; every turn reads 64 bytes, so that it leaves the data
    before the fuel is used up. *)
Fixpoint body_loop (fuel : nat) (ptr : list Z) (size : Z) (r : regs) : option (regs * list Z) :=
  match fuel with
  | O => None
  | S fuel =>
      match block_words ptr with
      | None => None
      | Some X =>
          let r := add_saved (foldl (run_step X) r (round_1 ++ round_2 ++ round_3 ++ round_4)) r in
          let ptr := drop 64 ptr in
          let size := u64 (size - 64) in
          if size =? 0 then Some (r, ptr) else body_loop fuel ptr size r
      end
  end.

(** ** The context *)

Record MD5_CTX := mkCtx { lo : Z; hi : Z; abcd : regs; buffer : list Z }.

Definition set_lo (v : Z) (x : MD5_CTX) : MD5_CTX := mkCtx v (hi x) (abcd x) (buffer x).
Definition add_hi (v : Z) (x : MD5_CTX) : MD5_CTX := mkCtx (lo x) (u32 (hi x + v)) (abcd x) (buffer x).
Definition set_abcd (r : regs) (x : MD5_CTX) : MD5_CTX := mkCtx (lo x) (hi x) r (buffer x).
Definition set_buffer (b : list Z) (x : MD5_CTX) : MD5_CTX := mkCtx (lo x) (hi x) (abcd x) b.

Definition body (data : list Z) (size : Z) : M MD5_CTX (list Z) :=
  let! r := gets abcd in
  let! (r, ptr) := from_option_fault (body_loop (S (length data)) data size r) in
  modify (set_abcd r) ;;;
  ret ptr.

(** [memcpy(&ctx->buffer[off], data, size)] *)
Definition copy_in (off : Z) (data : list Z) (size : Z) : M MD5_CTX unit :=
  let! bs := from_option_fault (load 0 size data) in
  let! b := gets buffer in
  let! b := from_option_fault (store off bs b) in
  modify (set_buffer b).

Definition MD5_Init : M MD5_CTX unit :=
  modify (fun x => mkCtx 0 0 (0x67452301, 0xefcdab89, 0x98badcfe, 0x10325476) (buffer x)).

(** Whole blocks from the data, the rest into the buffer. *)
Definition update_rest (data : list Z) (size : Z) : M MD5_CTX unit :=
  if 64 <=? size then
    let! data := body data (Z.land size (u64 (Z.lnot 0x3f))) in
    copy_in 0 data (Z.land size 0x3f)
  else copy_in 0 data size.

Definition MD5_Update (data : list Z) (size : Z) : M MD5_CTX unit :=
  let! saved_lo := gets lo in
  let lo' := Z.land (u64 (saved_lo + size)) 0x1fffffff in
  modify (set_lo lo') ;;;
  (if lo' <? saved_lo then modify (add_hi 1) else ret tt) ;;;
  modify (add_hi (Z.shiftr size 29)) ;;;
  let used := Z.land saved_lo 0x3f in
  if negb (used =? 0) then
    let available := 64 - used in
    if size <? available then copy_in used data size
    else
      copy_in used data available ;;;
      let! b := gets buffer in
      body b 64 ;;;
      update_rest (drop (Z.to_nat available) data) (size - available)
  else update_rest data size.

(** [OUT]: four bytes, the lowest first. *)
Definition OUT (src : Z) : list Z := [u8 src; u8 (Z.shiftr src 8); u8 (Z.shiftr src 16); u8 (Z.shiftr src 24)].

(** The last block: the buffer is filled up with zeros and the length. *)
Definition finish (used available : Z) : M MD5_CTX (list Z) :=
  copy_in used (replicate (Z.to_nat (available - 8)) 0) (available - 8) ;;;
  modify (fun x => set_lo (u32 (Z.shiftl (lo x) 3)) x) ;;;
  let! x := get in
  copy_in 56 (OUT (lo x)) 4 ;;;
  copy_in 60 (OUT (hi x)) 4 ;;;
  let! b := gets buffer in
  body b 64 ;;;
  let! r := gets abcd in
  let '(a, b, c, d) := r in
  put (mkCtx 0 0 (0, 0, 0, 0) (replicate 64 0)) ;;;
  ret (OUT a ++ OUT b ++ OUT c ++ OUT d).

Definition MD5_Final : M MD5_CTX (list Z) :=
  let! used := gets (fun x => Z.land (lo x) 0x3f) in
  copy_in used [0x80] 1 ;;;
  let used := used + 1 in
  let available := 64 - used in
  let! (used, available) :=
    (if available <? 8 then
       copy_in used (replicate (Z.to_nat available) 0) available ;;;
       let! b := gets buffer in
       body b 64 ;;;
       ret (0, 64)
     else ret (used, available)) in
  finish used available.

(** ** The digest of RFC 1321 *)

(** Sine and cosine of 1 with 128 binary places, by their series, and those of
    1, 2, ..., 64 by the addition theorem. *)
Definition one : Z := 2 ^ 128.
Fixpoint series (n : nat) (k term : Z) : Z :=
  match n with O => 0 | S n => term - series n (k + 2) (term / ((k + 1) * (k + 2))) end.
Definition sin_1 : Z := series 20 1 one.
Definition cos_1 : Z := series 20 0 one.
Fixpoint sines (n : nat) (s c : Z) : list Z :=
  match n with
  | O => []
  | S n => s :: sines n ((s * cos_1 + c * sin_1) / one) ((c * cos_1 - s * sin_1) / one)
  end.

(** The integer part of 4294967296 times abs(sin(i)). *)
Definition rfc_T : list Z := (fun s => Z.abs s * 2 ^ 32 / one) <$> sines 64 sin_1 cos_1.

Definition rfc_not (x : Z) : Z := 2 ^ 32 - 1 - x.
Definition rfc_F (x y z : Z) : Z := Z.lor (Z.land x y) (Z.land (rfc_not x) z).
Definition rfc_G (x y z : Z) : Z := Z.lor (Z.land x z) (Z.land y (rfc_not z)).
Definition rfc_H (x y z : Z) : Z := Z.lxor (Z.lxor x y) z.
Definition rfc_I (x y z : Z) : Z := Z.lxor y (Z.lor x (rfc_not z)).

(** Circular shift to the left. *)
Definition rotl (x s : Z) : Z := x * 2 ^ s mod 2 ^ 32 + x * 2 ^ s / 2 ^ 32.

(** The function, the word and the shift of step [i]. *)
Definition rfc_fun (i : nat) : Z -> Z -> Z -> Z :=
  match (i / 16)%nat with 0%nat => rfc_F | 1%nat => rfc_G | 2%nat => rfc_H | _ => rfc_I end.
Definition rfc_word (i : nat) : nat :=
  match (i / 16)%nat with
  | 0%nat => i
  | 1%nat => (1 + 5 * i) mod 16
  | 2%nat => (5 + 3 * i) mod 16
  | _ => (7 * i) mod 16
  end%nat.
Definition rfc_shift (i : nat) : Z :=
  match (i / 16)%nat with
  | 0%nat => [7; 12; 17; 22]
  | 1%nat => [5; 9; 14; 20]
  | 2%nat => [4; 11; 16; 23]
  | _ => [6; 10; 15; 21]
  end !!! (i mod 4)%nat.

Definition rfc_step (X : list Z) (r : regs) (i : nat) : regs :=
  let '(a, b, c, d) := r in
  (d, (b + rotl ((a + rfc_fun i b c d + X !!! rfc_word i + rfc_T !!! i) mod 2 ^ 32) (rfc_shift i)) mod 2 ^ 32, b, c).

(** The words of a block, the lowest byte first. *)
Definition rfc_words (m : list Z) : list Z := (fun n => le_val (slice (n * 4) 4 m)) <$> seqZ 0 16.

Definition rfc_block (r : regs) (m : list Z) : regs :=
  let '(a, b, c, d) := foldl (rfc_step (rfc_words m)) r (seq 0 64) in
  let '(a0, b0, c0, d0) := r in
  ((a + a0) mod 2 ^ 32, (b + b0) mod 2 ^ 32, (c + c0) mod 2 ^ 32, (d + d0) mod 2 ^ 32).

(** The first [n] blocks of the message. *)
Fixpoint rfc_blocks (n : nat) (r : regs) (m : list Z) : regs :=
  match n with O => r | S n => rfc_blocks n (rfc_block r (take 64 m)) (drop 64 m) end.

Definition rfc_init : regs := (0x67452301, 0xefcdab89, 0x98badcfe, 0x10325476).

(** A 1 bit, zeros up to 56 bytes modulo 64, the length in bits modulo 2^64. *)
Definition rfc_pad (m : list Z) : list Z :=
  m ++ [0x80] ++ replicate (Z.to_nat ((55 - zlen m) mod 64)) 0 ++ le 8 (8 * zlen m).

Definition rfc_md5 (m : list Z) : list Z :=
  let p := rfc_pad m in
  let '(a, b, c, d) := rfc_blocks (length p / 64) rfc_init p in
  le 4 a ++ le 4 b ++ le 4 c ++ le 4 d.

(** The digests of the empty message and of "abc" that the RFC lists. *)
Example rfc_md5_empty : rfc_md5 [] =
  [0xd4; 0x1d; 0x8c; 0xd9; 0x8f; 0x00; 0xb2; 0x04; 0xe9; 0x80; 0x09; 0x98; 0xec; 0xf8; 0x42; 0x7e].
Proof. by vm_compute. Qed.
Example rfc_md5_abc : rfc_md5 [97; 98; 99] =
  [0x90; 0x01; 0x50; 0x98; 0x3c; 0xd2; 0x4f; 0xb0; 0xd6; 0x96; 0x3f; 0x7d; 0x28; 0xe1; 0x7f; 0x72].
Proof. by vm_compute. Qed.

(** ** The transformation of a block *)

Definition word_ok (x : Z) : Prop := 0 <= x < 2 ^ 32.
Definition regs_ok (r : regs) : Prop := let '(a, b, c, d) := r in word_ok a /\ word_ok b /\ word_ok c /\ word_ok d.

Lemma u32_word x : word_ok (u32 x).
Proof. apply u32_bound. Qed.

Lemma rfc_not_lnot x : word_ok x -> rfc_not x = u32 (Z.lnot x).
Proof.
  intros Hx. unfold rfc_not, u32, Z.lnot, word_ok in *.
  replace (Z.pred (- x)) with (2 ^ 32 - 1 - x + (-1) * 2 ^ 32) by lia. rewrite Z.mod_add by lia. rewrite Z.mod_small; lia.
Qed.

Lemma high_bits x i : word_ok x -> 32 <= i -> Z.testbit x i = false.
Proof. intros Hx Hi. rewrite <- (Z.mod_small x (2 ^ 32)) by done. by apply Z.mod_pow2_bits_high. Qed.

Lemma rfc_not_bit x i : word_ok x -> 0 <= i < 32 -> Z.testbit (rfc_not x) i = negb (Z.testbit x i).
Proof. intros Hx Hi. rewrite rfc_not_lnot by done. unfold u32. rewrite Z.mod_pow2_bits_low by lia. apply Z.lnot_spec; lia. Qed.

Ltac by_bits := apply Z.bits_inj'; intros i Hi; rewrite ?Z.lor_spec, ?Z.lxor_spec, ?Z.land_spec, ?Z.lxor_spec.

Lemma F_rfc x y z : word_ok x -> word_ok y -> word_ok z -> F x y z = rfc_F x y z.
Proof.
  intros. unfold F, rfc_F. by_bits. destruct (decide (i < 32)).
  - rewrite rfc_not_bit by (done || lia). by destruct (Z.testbit x i), (Z.testbit y i), (Z.testbit z i).
  - rewrite (high_bits y), (high_bits z) by (done || lia). by rewrite !andb_false_r.
Qed.

Lemma G_rfc x y z : word_ok x -> word_ok y -> word_ok z -> G x y z = rfc_G x y z.
Proof.
  intros. unfold G, rfc_G. by_bits. destruct (decide (i < 32)).
  - rewrite rfc_not_bit by (done || lia). by destruct (Z.testbit x i), (Z.testbit y i), (Z.testbit z i).
  - rewrite (high_bits y), (high_bits z) by (done || lia). by rewrite !andb_false_r.
Qed.

(** The round a function belongs to. *)
Definition round_of (f : fn) : nat := match f with fF => 0 | fG => 1 | fH | fH2 => 2 | fI => 3 end.

Lemma fn_of_rfc f i x y z : round_of f = (i / 16)%nat -> word_ok x -> word_ok y -> word_ok z -> fn_of f x y z = rfc_fun i x y z.
Proof.
  intros Hr Hx Hy Hz. unfold rfc_fun. rewrite <- Hr. destruct f; cbn; [by apply F_rfc|by apply G_rfc|done|..].
  - unfold H2, rfc_H. by rewrite Z.lxor_assoc.
  - unfold I, rfc_I. by rewrite rfc_not_lnot.
Qed.

Lemma rotl_lor x s : word_ok x -> 0 < s < 32 -> Z.lor (u32 (Z.shiftl x s)) (Z.shiftr (Z.land x 0xffffffff) (32 - s)) = rotl x s.
Proof.
  intros Hx Hs. change 0xffffffff with (Z.ones 32). rewrite Z.land_ones, (Z.mod_small x) by done.
  assert (x * 2 ^ s / 2 ^ 32 = Z.shiftr x (32 - s)) as Hr.
  { rewrite Z.shiftr_div_pow2 by lia. replace (2 ^ 32) with (2 ^ (32 - s) * 2 ^ s) by (rewrite <- Z.pow_add_r by lia; f_equal; lia).
    apply Z.div_mul_cancel_r; [apply Z.pow_nonzero; lia..]. }
  unfold rotl. rewrite Hr, <- Z.shiftl_mul_pow2 by lia. fold (u32 (Z.shiftl x s)).
  assert (Z.land (u32 (Z.shiftl x s)) (Z.shiftr x (32 - s)) = 0) as Hl.
  { by_bits. rewrite Z.bits_0. destruct (decide (i < s)).
    - unfold u32. rewrite Z.mod_pow2_bits_low, Z.shiftl_spec_low by lia. done.
    - rewrite Z.shiftr_spec by lia. rewrite (high_bits x) by (done || lia). apply andb_false_r. }
  by rewrite Z.add_nocarry_lxor, Z.lxor_lor.
Qed.

Lemma STEP_rfc f g a b c d x t s : f b c d = g -> 0 < s < 32 ->
  STEP f a b c d x t s = (b + rotl ((a + g + x + t) mod 2 ^ 32) s) mod 2 ^ 32.
Proof.
  intros E Hs. unfold STEP. rewrite E. replace (u32 (a + u32 (u32 (g + x) + t))) with ((a + g + x + t) mod 2 ^ 32).
  2: { unfold u32. rewrite Zplus_mod_idemp_l, Zplus_mod_idemp_r. f_equal. lia. }
  rewrite rotl_lor by (done || apply u32_word). unfold u32. f_equal. lia.
Qed.

Lemma rfc_shift_bound i : 0 < rfc_shift i < 32.
Proof.
  unfold rfc_shift. pose proof (Nat.mod_upper_bound i 4 ltac:(lia)) as Hi.
  destruct (i mod 4)%nat as [|[|[|[|k]]]]; [..|lia]; destruct (i / 16)%nat as [|[|[|]]]; done.
Qed.

(** The table of the code has the words, shifts and constants of the RFC. *)
Lemma rows_rfc :
  (fun '(f, k, t, s) => (round_of f, k, t, s)) <$> (round_1 ++ round_2 ++ round_3 ++ round_4) =
  (fun i => ((i / 16)%nat, rfc_word i, rfc_T !!! i, rfc_shift i)) <$> seq 0 64.
Proof. by vm_compute. Qed.

Lemma run_step_rfc X r f k t s i : regs_ok r -> (round_of f, k, t, s) = ((i / 16)%nat, rfc_word i, rfc_T !!! i, rfc_shift i) ->
  run_step X r (f, k, t, s) = rfc_step X r i /\ regs_ok (rfc_step X r i).
Proof.
  intros Hr [= Hf -> -> ->]. destruct r as [[[a b] c] d]. destruct Hr as (Ha & Hb & Hc & Hd). cbn [run_step rfc_step]. split.
  - rewrite (STEP_rfc _ (rfc_fun i b c d)); [done|by apply fn_of_rfc|apply rfc_shift_bound].
  - split_and!; try done; apply Z.mod_pos_bound; lia.
Qed.

Lemma steps_rfc X rows js r :
  (fun '(f, k, t, s) => (round_of f, k, t, s)) <$> rows = (fun i => ((i / 16)%nat, rfc_word i, rfc_T !!! i, rfc_shift i)) <$> js ->
  regs_ok r -> foldl (run_step X) r rows = foldl (rfc_step X) r js.
Proof.
  revert js r. induction rows as [|[[[f k] t] s] rows IH]; intros [|i js] r E Hr; [done|done|done|].
  rewrite !fmap_cons in E. injection E as E0 E1 E2 E3 E'. cbn [foldl].
  destruct (run_step_rfc X r f k t s i Hr) as [-> Hr']; [by rewrite E0, E1, E2, E3|]. by apply IH.
Qed.

Lemma words_rfc ptr : (64 <= length ptr)%nat -> block_words ptr = Some (rfc_words (take 64 ptr)).
Proof.
  intros Hl. unfold block_words, rfc_words. apply mapM_Some. rewrite Forall2_fmap_r. apply Forall_Forall2_diag, Forall_forall.
  intros n Hn%elem_of_seqZ. unfold load_le, load, zlen.
  rewrite (proj2 (Z.leb_le 0 _)), (proj2 (Z.leb_le _ (Z.of_nat _))) by lia. cbn. f_equal. f_equal.
  unfold slice. rewrite skipn_firstn_comm, take_take. f_equal. lia.
Qed.

Lemma block_rfc ptr r : (64 <= length ptr)%nat -> regs_ok r ->
  add_saved (foldl (run_step (rfc_words (take 64 ptr))) r (round_1 ++ round_2 ++ round_3 ++ round_4)) r = rfc_block r (take 64 ptr).
Proof. intros Hl Hr. by rewrite (steps_rfc _ _ _ r rows_rfc Hr). Qed.

Lemma rfc_block_ok r m : regs_ok r -> regs_ok (rfc_block r m).
Proof.
  intros Hr. unfold rfc_block. destruct (foldl _ _ _) as [[[a b] c] d], r as [[[a0 b0] c0] d0].
  split_and!; apply Z.mod_pos_bound; lia.
Qed.

Lemma body_loop_rfc n : forall fuel ptr r, (S n <= fuel)%nat -> (64 * S n <= length ptr)%nat -> 64 * Z.of_nat (S n) < 2 ^ 64 -> regs_ok r ->
  body_loop fuel ptr (64 * Z.of_nat (S n)) r = Some (rfc_blocks (S n) r ptr, drop (64 * S n) ptr).
Proof.
  induction n as [|n IH]; intros [|fuel] ptr r Hf Hl Hs Hr; [lia| |lia|]; cbn [body_loop];
    rewrite words_rfc, block_rfc by (done || lia); rewrite u64_small by lia.
  - done.
  - rewrite (proj2 (Z.eqb_neq _ 0)) by lia. replace (_ - 64) with (64 * Z.of_nat (S n)) by lia.
    rewrite IH; [|lia|rewrite length_drop; lia|lia|by apply rfc_block_ok]. rewrite drop_drop. f_equal. f_equal. f_equal. lia.
Qed.

(** ** Blocks of a message *)

Lemma rfc_blocks_ok n : forall r m, regs_ok r -> regs_ok (rfc_blocks n r m).
Proof. induction n as [|n IH]; intros r m Hr; [done|]. cbn. by apply IH, rfc_block_ok. Qed.

Lemma rfc_blocks_add n k : forall r m, rfc_blocks (n + k) r m = rfc_blocks k (rfc_blocks n r m) (drop (64 * n) m).
Proof.
  induction n as [|n IH]; intros r m; [done|]. cbn [rfc_blocks Nat.add]. rewrite IH, drop_drop. f_equal. f_equal. lia.
Qed.

Lemma rfc_blocks_app n : forall r m x, (64 * n <= length m)%nat -> rfc_blocks n r (m ++ x) = rfc_blocks n r m.
Proof.
  induction n as [|n IH]; intros r m x Hn; [done|]. cbn [rfc_blocks]. rewrite take_app_le, drop_app_le by lia.
  apply IH. rewrite length_drop. lia.
Qed.

(** ** The buffer of the context *)

(** The buffer holds [p] and room for the rest. *)
Definition holds (b p : list Z) : Prop := length b = 64%nat /\ take (length p) b = p.

Lemma holds_full b p : holds b p -> length p = 64%nat -> b = p.
Proof. intros [Hb Hp] Hl. rewrite <- Hp, take_ge; [done|lia]. Qed.

Lemma patch_holds b p bs : holds b p -> (length p + length bs <= 64)%nat -> holds (patch (zlen p) bs b) (p ++ bs).
Proof.
  intros [Hb Hp] Hl. split; [unfold patch; by rewrite length_inserts|]. apply list_eq. intros i. rewrite length_app.
  unfold zlen. destruct (decide (i < length p)%nat) as [Hi|Hi].
  - rewrite lookup_take_lt, patch_lookup_outside by lia. rewrite lookup_app_l, <- Hp at 1 by done. by rewrite lookup_take_lt.
  - rewrite lookup_app_r by lia. destruct (decide (i < length p + length bs)%nat) as [Hj|Hj].
    + rewrite lookup_take_lt, patch_lookup_inside by lia. f_equal. lia.
    + rewrite lookup_take_ge by lia. symmetry. apply lookup_ge_None_2. lia.
Qed.

Lemma copy_in_holds x p data size : holds (buffer x) p -> 0 <= size <= zlen data -> zlen p + size <= 64 ->
  exists b, copy_in (zlen p) data size x = Ok (tt, set_buffer b x) /\ holds b (p ++ take (Z.to_nat size) data).
Proof.
  intros Hh Hs Hl. assert (length (take (Z.to_nat size) data) = Z.to_nat size) as Ht.
  { rewrite length_take. unfold zlen in *. lia. }
  eexists. split; [|apply patch_holds; [done|unfold zlen in *; lia]].
  unfold copy_in. rewrite load_ok by lia. erewrite bind_ok by done. erewrite bind_ok by done.
  unfold slice. rewrite drop_0, store_ok; [by erewrite bind_ok by done|unfold zlen; lia|]. destruct Hh as [Hb _]. unfold zlen in *. lia.
Qed.

Lemma body_ok x data n : (64 * S n <= length data)%nat -> 64 * Z.of_nat (S n) < 2 ^ 64 -> regs_ok (abcd x) ->
  body data (64 * Z.of_nat (S n)) x = Ok (drop (64 * S n) data, set_abcd (rfc_blocks (S n) (abcd x) data) x).
Proof.
  intros Hl Hs Hr. unfold body. erewrite bind_ok by done. rewrite body_loop_rfc by (done || lia).
  erewrite bind_ok by done. cbv beta iota. by erewrite bind_ok by done.
Qed.

Lemma body_buffer x p : holds (buffer x) p -> length p = 64%nat -> regs_ok (abcd x) ->
  exists rest, body (buffer x) 64 x = Ok (rest, set_abcd (rfc_block (abcd x) p) x).
Proof.
  intros Hh Hl Hr. pose proof (holds_full _ _ Hh Hl) as Eb. eexists. rewrite Eb. etransitivity; [apply (body_ok x p 0); [lia|lia|done]|].
  cbn [rfc_blocks]. rewrite take_ge by lia. done.
Qed.

(** ** Counters *)

Lemma land_blocks n : 0 <= n < 2 ^ 64 -> Z.land n (u64 (Z.lnot 0x3f)) = 64 * (n / 64).
Proof.
  intros Hn. replace (64 * (n / 64)) with (Z.shiftl (Z.shiftr n 6) 6) by (rewrite Z.shiftr_div_pow2, Z.shiftl_mul_pow2 by lia; change (2 ^ 6) with 64; lia).
  by_bits. change (u64 (Z.lnot 63)) with (Z.shiftl (Z.ones 58) 6). destruct (decide (i < 6)).
  - rewrite !Z.shiftl_spec_low by lia. apply andb_false_r.
  - rewrite !Z.shiftl_spec_high, Z.shiftr_spec by lia. replace (i - 6 + 6) with i by lia. destruct (decide (i < 64)).
    + rewrite Z.ones_spec_low by lia. apply andb_true_r.
    + rewrite <- (Z.mod_small n (2 ^ 64)) by done. rewrite Z.mod_pow2_bits_high by lia. done.
Qed.

Lemma length_carry a n : 0 <= a -> 0 <= n ->
  (a + n) / 2 ^ 29 = a / 2 ^ 29 + (if (a + n) mod 2 ^ 29 <? a mod 2 ^ 29 then 1 else 0) + n / 2 ^ 29.
Proof.
  intros Ha Hn. pose proof (Z.mod_pos_bound (a + n) (2 ^ 29)). pose proof (Z.mod_pos_bound a (2 ^ 29)). pose proof (Z.mod_pos_bound n (2 ^ 29)).
  pose proof (Z.div_mod (a + n) (2 ^ 29)). pose proof (Z.div_mod a (2 ^ 29)). pose proof (Z.div_mod n (2 ^ 29)).
  destruct (Z.ltb_spec ((a + n) mod 2 ^ 29) (a mod 2 ^ 29)); lia.
Qed.

(** The counters after [n] bytes. *)
Definition counted (x : MD5_CTX) (n : Z) : Prop := lo x = n mod 2 ^ 29 /\ hi x = (n / 2 ^ 29) mod 2 ^ 32.

Lemma new_lo x n size : counted x n -> Z.land (u64 (lo x + size)) 0x1fffffff = (n + size) mod 2 ^ 29.
Proof.
  intros [-> _]. change 0x1fffffff with (Z.ones 29). rewrite Z.land_ones by lia. unfold u64.
  rewrite Z.mod_mod_divide by (by exists (2 ^ 35)). by rewrite Zplus_mod_idemp_l.
Qed.

Lemma used_bytes x n : counted x n -> Z.land (lo x) 0x3f = n mod 64.
Proof.
  intros [-> _]. change 0x3f with (Z.ones 6). rewrite Z.land_ones by lia. change (2 ^ 6) with 64. by rewrite Z.mod_mod_divide by (by exists (2 ^ 23)).
Qed.

(** ** Absorbing a message *)

(** The part of the message that is not yet in the registers. *)
Definition tail_of (m : list Z) : list Z := drop (64 * (length m / 64)) m.

Lemma tail_length m : length (tail_of m) = (length m mod 64)%nat.
Proof. unfold tail_of. rewrite length_drop. pose proof (Nat.div_mod_eq (length m) 64). lia. Qed.

Lemma blocks_count m q : (length (m ++ q) / 64 = length m / 64 + length (tail_of m ++ q) / 64)%nat.
Proof.
  pose proof (Nat.div_mod_eq (length m) 64). rewrite !length_app, tail_length.
  replace (length m + length q)%nat with (length m mod 64 + length q + (length m / 64) * 64)%nat by lia. rewrite Nat.div_add by lia. lia.
Qed.

Lemma drop_tail m q : drop (64 * (length m / 64)) (m ++ q) = tail_of m ++ q.
Proof. unfold tail_of. rewrite drop_app_le; [done|]. pose proof (Nat.div_mod_eq (length m) 64). lia. Qed.

(** The blocks of a longer message go on from those of the shorter one. *)
Lemma blocks_split r m q :
  rfc_blocks (length (m ++ q) / 64) r (m ++ q) = rfc_blocks (length (tail_of m ++ q) / 64) (rfc_blocks (length m / 64) r m) (tail_of m ++ q).
Proof.
  rewrite blocks_count, rfc_blocks_add, drop_tail, (rfc_blocks_app (length m / 64) r m); [done|]. pose proof (Nat.div_mod_eq (length m) 64). lia.
Qed.

(** The registers, the buffer and the counters after the bytes [m]. *)
Record absorbed (x : MD5_CTX) (m : list Z) : Prop := {
  ab_count : counted x (zlen m);
  ab_regs : abcd x = rfc_blocks (length m / 64) rfc_init m;
  ab_buffer : holds (buffer x) (tail_of m);
}.

Lemma absorbed_ok x m : absorbed x m -> regs_ok (abcd x).
Proof. intros A. rewrite (ab_regs _ _ A). by apply rfc_blocks_ok. Qed.

(** Registers that start from the tail: [u] is the tail and what has come since. *)
Record ahead (r : regs) (u : list Z) (x : MD5_CTX) : Prop := {
  ah_regs : abcd x = rfc_blocks (length u / 64) r u;
  ah_buffer : holds (buffer x) (tail_of u);
}.

Lemma absorbed_more x x' m data : absorbed x m -> counted x' (zlen (m ++ data)) -> ahead (abcd x) (tail_of m ++ data) x' ->
  absorbed x' (m ++ data).
Proof.
  intros A Hc [Hr Hb]. split; [done| |].
  - by rewrite Hr, (ab_regs _ _ A), <- blocks_split.
  - unfold tail_of at 1. rewrite blocks_count, Nat.mul_add_distr_l, <- drop_drop, drop_tail. exact Hb.
Qed.

Lemma update_rest_ok x data : length (buffer x) = 64%nat -> regs_ok (abcd x) -> zlen data < 2 ^ 64 ->
  exists x', update_rest data (zlen data) x = Ok (tt, x') /\ ahead (abcd x) data x' /\ lo x' = lo x /\ hi x' = hi x.
Proof.
  intros Hb Hr Hs. pose proof (Nat.div_mod_eq (length data) 64) as Hd. pose proof (Nat.mod_upper_bound (length data) 64 ltac:(lia)) as Hlt.
  assert (forall b, length b = 64%nat -> holds b []) as Hempty by (by intros).
  assert (zlen (@nil Z) = 0) as Hnil by done.
  unfold update_rest. destruct (Z.leb_spec 64 (zlen data)) as [Hge|Hsmall].
  - rewrite land_blocks by (pose proof (zlen_nonneg data); lia). change 0x3f with (Z.ones 6). rewrite Z.land_ones by lia. change (2 ^ 6) with 64.
    assert (exists n, length data / 64 = S n)%nat as [n En].
    { exists (Nat.pred (length data / 64)). unfold zlen in Hge. pose proof (Nat.div_str_pos (length data) 64). lia. }
    replace (zlen data / 64) with (Z.of_nat (S n)) by (unfold zlen; rewrite <- En, Nat2Z.inj_div; done).
    replace (zlen data mod 64) with (zlen (tail_of data)) by (unfold zlen; rewrite tail_length, Nat2Z.inj_mod; done).
    erewrite bind_ok. 2: { apply body_ok; [lia|unfold zlen in *; lia|done]. }
    unfold tail_of. rewrite <- En.
    edestruct (copy_in_holds (set_abcd (rfc_blocks (length data / 64) (abcd x) data) x) [] (tail_of data) (zlen (tail_of data)))
      as (b & Ec & Hh); [by apply Hempty|pose proof (zlen_nonneg (tail_of data)); lia|rewrite Hnil; unfold zlen; rewrite tail_length; lia|].
    eexists. split; [exact Ec|]. split; [|done]. split; [done|]. unfold zlen in Hh. by rewrite Nat2Z.id, take_ge in Hh.
  - assert (length data / 64 = 0)%nat as E0 by (apply Nat.div_small; unfold zlen in *; lia).
    edestruct (copy_in_holds x [] data (zlen data)) as (b & Ec & Hh); [by apply Hempty|pose proof (zlen_nonneg data); lia|rewrite Hnil; lia|].
    eexists. split; [exact Ec|]. split; [|done]. unfold zlen in Hh. rewrite Nat2Z.id, take_ge in Hh by done.
    split; [by rewrite E0|]. unfold tail_of. rewrite E0. exact Hh.
Qed.

(** A first block and what follows it. *)
Lemma ahead_block r p rest x : length p = 64%nat -> ahead (rfc_block r p) rest x -> ahead r (p ++ rest) x.
Proof.
  intros Hp [Hr Hb]. assert (length (p ++ rest) / 64 = S (length rest / 64))%nat as E.
  { rewrite length_app, Hp. replace (64 + length rest)%nat with (length rest + 1 * 64)%nat by lia. rewrite Nat.div_add by lia. lia. }
  split.
  - rewrite E. cbn [rfc_blocks]. by rewrite take_app_length', drop_app_length' by done.
  - unfold tail_of. rewrite E. replace (64 * S (length rest / 64))%nat with (64 + 64 * (length rest / 64))%nat by lia.
    rewrite <- drop_drop, drop_app_length' by done. exact Hb.
Qed.

(** The counters of [MD5_Update]. *)
Definition bumped (n : Z) (x : MD5_CTX) : MD5_CTX := mkCtx (n mod 2 ^ 29) ((n / 2 ^ 29) mod 2 ^ 32) (abcd x) (buffer x).

Lemma bump_ok x n size (k : M MD5_CTX unit) : counted x n -> 0 <= n -> 0 <= size ->
  (modify (set_lo (Z.land (u64 (lo x + size)) 0x1fffffff)) ;;;
   (if Z.land (u64 (lo x + size)) 0x1fffffff <? lo x then modify (add_hi 1) else ret tt) ;;;
   modify (add_hi (Z.shiftr size 29)) ;;; k) x = k (bumped (n + size) x).
Proof.
  intros Hc Hn Hs. rewrite (new_lo x n) by done. destruct Hc as [Hl Hh]. erewrite bind_ok by done. rewrite Hl.
  pose proof (length_carry n size Hn Hs) as Hcarry. unfold bumped. rewrite Hcarry.
  assert (forall c, u32 (u32 (hi x + c) + Z.shiftr size 29) = (n / 2 ^ 29 + c + size / 2 ^ 29) mod 2 ^ 32) as Hhi.
  { intros c. unfold u32. rewrite Hh, Z.shiftr_div_pow2 by lia. by rewrite (Zplus_mod_idemp_l (n / 2 ^ 29)), Zplus_mod_idemp_l. }
  destruct ((n + size) mod 2 ^ 29 <? n mod 2 ^ 29); erewrite bind_ok by done; erewrite bind_ok by done; unfold add_hi, set_lo; cbn [lo hi abcd buffer].
  - by rewrite Hhi.
  - rewrite <- (Hhi 0), Z.add_0_r. unfold u32. by rewrite Zplus_mod_idemp_l.
Qed.

Lemma MD5_Update_absorbs x m data : absorbed x m -> zlen data < 2 ^ 64 ->
  exists x', MD5_Update data (zlen data) x = Ok (tt, x') /\ absorbed x' (m ++ data).
Proof.
  intros A Hs. pose proof (zlen_nonneg data) as Hn0. destruct (ab_buffer _ _ A) as [Hb64 _].
  unfold MD5_Update. erewrite bind_ok by done. rewrite (bump_ok x (zlen m)) by (apply A || apply zlen_nonneg).
  rewrite (used_bytes x (zlen m)) by apply A. set (x1 := bumped _ x).
  assert (zlen m mod 64 = zlen (tail_of m)) as -> by (unfold zlen; rewrite tail_length, Nat2Z.inj_mod; done).
  assert (forall x', lo x' = lo x1 -> hi x' = hi x1 -> counted x' (zlen (m ++ data))) as Hcount.
  { intros x' E1 E2. unfold counted. by rewrite E1, E2, zlen_app. }
  assert (zlen (tail_of m) < 64) as Htl by (unfold zlen; rewrite tail_length; pose proof (Nat.mod_upper_bound (length m) 64); lia).
  destruct (Z.eqb_spec (zlen (tail_of m)) 0) as [Hz|Hz]; cbn [negb].
  - destruct (update_rest_ok x1 data) as (x' & E & Ha & Hlo & Hhi); [done|by apply (absorbed_ok x m)|done|].
    eexists. split; [exact E|]. apply (absorbed_more x); [done|by apply Hcount|]. destruct (tail_of m); [done|rewrite zlen_cons in Hz; pose proof (zlen_nonneg l); lia].
  - destruct (Z.ltb_spec (zlen data) (64 - zlen (tail_of m))).
    + edestruct (copy_in_holds x1 (tail_of m) data (zlen data)) as (b & Ec & Hh); [apply A|lia|lia|]. eexists. split; [exact Ec|].
      apply (absorbed_more x); [done|by apply Hcount|]. unfold zlen in Hh at 1. rewrite Nat2Z.id, take_ge in Hh by done.
      assert (length (tail_of m ++ data) / 64 = 0)%nat as E0 by (apply Nat.div_small; rewrite length_app; unfold zlen in *; lia).
      split; [by rewrite E0|]. unfold tail_of at 1. rewrite E0. exact Hh.
    + edestruct (copy_in_holds x1 (tail_of m) data (64 - zlen (tail_of m))) as (b & Ec & Hh); [apply A|lia|lia|].
      erewrite bind_ok by exact Ec. erewrite bind_ok by done. set (av := Z.to_nat (64 - zlen (tail_of m))) in *.
      assert (length (tail_of m ++ take av data) = 64%nat) as Hp by (rewrite length_app, length_take; unfold zlen in *; lia).
      edestruct (body_buffer (set_buffer b x1)) as (rest & Eb); [exact Hh|exact Hp|by apply (absorbed_ok x m)|]. erewrite bind_ok by exact Eb.
      replace (zlen data - _) with (zlen (drop av data)) by (unfold zlen in *; rewrite length_drop; lia).
      edestruct (update_rest_ok (set_abcd (rfc_block (abcd x) (tail_of m ++ take av data)) (set_buffer b x1)) (drop av data))
        as (x' & E & Ha & Hlo & Hhi); [apply Hh|apply rfc_block_ok, (absorbed_ok x m A)|unfold zlen in *; rewrite length_drop; lia|].
      eexists. split; [exact E|]. apply (absorbed_more x); [done|by apply Hcount|].
      rewrite <- (take_drop av data) at 1. rewrite app_assoc. by apply ahead_block.
Qed.

(** ** Padding *)

Lemma le_cons k v : 0 <= k -> le (Z.succ k) v = u8 v :: le k (Z.shiftr v 8).
Proof. intros Hk. unfold le. rewrite Z_to_little_endian_succ by done. by rewrite Z.land_ones. Qed.

Lemma le_4 v : le 4 v = [u8 v; u8 (Z.shiftr v 8); u8 (Z.shiftr v 16); u8 (Z.shiftr v 24)].
Proof.
  rewrite (le_cons 3), (le_cons 2), (le_cons 1), (le_cons 0) by done. by rewrite !Z.shiftr_shiftr.
Qed.

Lemma OUT_le v : OUT v = le 4 v.
Proof. by rewrite le_4. Qed.

Lemma le_mod v : le 4 (v mod 2 ^ 32) = le 4 v.
Proof.
  rewrite <- !OUT_le. unfold OUT, u8. f_equal; [|f_equal; [|f_equal; [|f_equal]]].
  all: apply Z.bits_inj'; intros i Hi; destruct (decide (i < 8)); [rewrite !Z.mod_pow2_bits_low by lia|by rewrite !Z.mod_pow2_bits_high by lia].
  all: rewrite ?Z.shiftr_spec by lia; by rewrite ?Z.mod_pow2_bits_low by lia.
Qed.

Lemma le_8 v : le 8 v = le 4 v ++ le 4 (v / 2 ^ 32).
Proof. rewrite <- Z.shiftr_div_pow2 by lia. rewrite (le_cons 7), (le_cons 6), (le_cons 5), (le_cons 4), !le_4 by done. by rewrite !Z.shiftr_shiftr. Qed.

Lemma length_field x n : counted x n -> OUT (u32 (Z.shiftl (lo x) 3)) ++ OUT (hi x) = le 8 (8 * n).
Proof.
  intros [-> ->]. rewrite le_8, !OUT_le, le_mod. replace (8 * n / 2 ^ 32) with (n / 2 ^ 29).
  2: { change (2 ^ 32) with (8 * 2 ^ 29). by rewrite Z.div_mul_cancel_l. }
  f_equal. rewrite <- (le_mod (8 * n)). f_equal. unfold u32. rewrite Z.shiftl_mul_pow2 by lia.
  change (2 ^ 32) with (8 * 2 ^ 29). rewrite Zmult_mod_distr_l. rewrite (Z.mul_comm _ (2 ^ 3)). change (2 ^ 3) with 8.
  rewrite Z.mod_small; [done|]. pose proof (Z.mod_pos_bound n (2 ^ 29)). lia.
Qed.

Definition out_regs (r : regs) : list Z := let '(a, b, c, d) := r in le 4 a ++ le 4 b ++ le 4 c ++ le 4 d.
Definition erased : MD5_CTX := mkCtx 0 0 (0, 0, 0, 0) (replicate 64 0).

Lemma finish_ok x n p : counted x n -> regs_ok (abcd x) -> holds (buffer x) p -> zlen p <= 56 ->
  finish (zlen p) (64 - zlen p) x =
    Ok (out_regs (rfc_block (abcd x) (p ++ replicate (Z.to_nat (56 - zlen p)) 0 ++ le 8 (8 * n))), erased).
Proof.
  intros Hc Hr Hh Hl. pose proof (zlen_nonneg p) as Hp. unfold finish. replace (64 - zlen p - 8) with (56 - zlen p) by lia.
  edestruct (copy_in_holds x p (replicate (Z.to_nat (56 - zlen p)) 0) (56 - zlen p)) as (b1 & E1 & H1); [done|rewrite zlen_replicate; lia|lia|].
  rewrite take_ge in H1 by (by rewrite length_replicate). set (p1 := p ++ replicate _ 0) in *.
  assert (zlen p1 = 56) as L1 by (unfold p1; rewrite zlen_app, zlen_replicate; lia).
  erewrite bind_ok by exact E1. erewrite bind_ok by done. erewrite bind_ok by done.
  set (x1 := set_lo _ (set_buffer b1 x)). 
  edestruct (copy_in_holds x1 p1 (OUT (lo x1)) 4) as (b2 & E2 & H2); [done|done|lia|]. rewrite L1 in E2. erewrite bind_ok by exact E2.
  rewrite take_ge in H2 by done. assert (zlen (p1 ++ OUT (lo x1)) = 60) as L2 by (rewrite zlen_app, L1; done).
  edestruct (copy_in_holds (set_buffer b2 x1) (p1 ++ OUT (lo x1)) (OUT (hi x1)) 4) as (b3 & E3 & H3); [done|done|lia|].
  rewrite L2 in E3. erewrite bind_ok by exact E3. rewrite take_ge in H3 by done.
  assert (length ((p1 ++ OUT (lo x1)) ++ OUT (hi x1)) = 64)%nat as L3 by (rewrite length_app; unfold zlen in L2; change (length (OUT (hi x1))) with 4%nat; lia).
  erewrite bind_ok by done. edestruct (body_buffer (set_buffer b3 (set_buffer b2 x1))) as (rest & Eb); [exact H3|exact L3|done|].
  erewrite bind_ok by exact Eb. erewrite bind_ok by done. cbn [abcd set_abcd set_buffer x1 set_lo].
  rewrite <- (app_assoc p1). change (hi x1) with (hi x). change (lo x1) with (u32 (Z.shiftl (lo x) 3)).
  rewrite (length_field x n Hc). unfold p1. rewrite <- app_assoc. unfold out_regs.
  clear Eb. destruct (rfc_block _ _) as [[[a' b'] c'] d']. cbv beta iota. erewrite bind_ok by done. by rewrite !OUT_le.
Qed.

(** The padding behind the tail. *)
Definition padding (m : list Z) : list Z := [0x80] ++ replicate (Z.to_nat ((55 - zlen m) mod 64)) 0 ++ le 8 (8 * zlen m).

Lemma rfc_md5_tail x m : absorbed x m ->
  rfc_md5 m = out_regs (rfc_blocks (length (tail_of m ++ padding m) / 64) (abcd x) (tail_of m ++ padding m)).
Proof. intros A. rewrite (ab_regs _ _ A), <- blocks_split. done. Qed.

Lemma zlen_tail m : zlen (tail_of m) = zlen m mod 64.
Proof. unfold zlen. by rewrite tail_length, Nat2Z.inj_mod. Qed.

(** The zeros of the padding, with and without a block of their own. *)
Lemma padding_zeros m : let u := zlen (tail_of m) in
  (55 - zlen m) mod 64 = if u <=? 55 then 55 - u else 119 - u.
Proof.
  intros u. subst u. rewrite zlen_tail. pose proof (Z.mod_pos_bound (zlen m) 64). pose proof (Z.div_mod (zlen m) 64).
  destruct (Z.leb_spec (zlen m mod 64) 55); symmetry; eapply Z.mod_unique_pos; [lia| |lia|].
  - instantiate (1 := - (zlen m / 64)). lia.
  - instantiate (1 := - (zlen m / 64) - 1). lia.
Qed.

Lemma MD5_Final_ok x m : absorbed x m -> MD5_Final x = Ok (rfc_md5 m, erased).
Proof.
  intros A. pose proof (zlen_nonneg (tail_of m)) as Hu0. rewrite (rfc_md5_tail x m A). unfold padding. rewrite padding_zeros.
  assert (zlen (tail_of m) < 64) as Hu by (rewrite zlen_tail; pose proof (Z.mod_pos_bound (zlen m) 64); lia).
  unfold MD5_Final. erewrite bind_ok by done. rewrite (used_bytes x (zlen m)), <- zlen_tail by apply A.
  edestruct (copy_in_holds x (tail_of m) [0x80] 1) as (b1 & E1 & H1); [apply A|done|lia|]. erewrite bind_ok by exact E1.
  change (take (Z.to_nat 1) [128]) with [128] in H1. set (p := tail_of m ++ [128]) in *.
  assert (zlen p = zlen (tail_of m) + 1) as Lp by (unfold p; by rewrite zlen_app). rewrite <- Lp.
  rewrite app_assoc. fold p. destruct (Z.leb_spec (zlen (tail_of m)) 55) as [Hs|Hs].
  - rewrite (proj2 (Z.ltb_ge (64 - zlen p) 8)) by lia. erewrite bind_ok by done. cbv beta iota.
    etransitivity; [apply (finish_ok (set_buffer b1 x) (zlen m) p); [apply A|apply (absorbed_ok x m A)|exact H1|lia]|].
    replace (56 - zlen p) with (55 - zlen (tail_of m)) by lia. set (q := p ++ _).
    assert (length q = 64%nat) as Lq.
    { enough (zlen q = 64) by (unfold zlen in *; lia). unfold q. rewrite !zlen_app, zlen_replicate, zlen_le by lia. lia. }
    rewrite Lq. cbn [rfc_blocks Nat.div Nat.divmod fst]. by rewrite take_ge by lia.
  - rewrite (proj2 (Z.ltb_lt (64 - zlen p) 8)) by lia.
    edestruct (copy_in_holds (set_buffer b1 x) p (replicate (Z.to_nat (64 - zlen p)) 0) (64 - zlen p)) as (b2 & E2 & H2);
      [exact H1|rewrite zlen_replicate; lia|lia|]. rewrite take_ge in H2 by (by rewrite length_replicate). set (q := p ++ _) in *.
    assert (length q = 64%nat) as Lq.
    { enough (zlen q = 64) by (unfold zlen in *; lia). unfold q. rewrite zlen_app, zlen_replicate by lia. lia. }
    edestruct (body_buffer (set_buffer b2 (set_buffer b1 x))) as (rest & Eb); [exact H2|exact Lq|apply (absorbed_ok x m A)|].
    erewrite bind_ok; [|erewrite bind_ok by exact E2; erewrite bind_ok by done; erewrite bind_ok by exact Eb; done]. cbv beta iota.
    etransitivity; [apply (finish_ok _ (zlen m) []); [apply A|apply rfc_block_ok, (absorbed_ok x m A)|split; [apply H2|done]|done]|].
    replace (Z.to_nat (119 - zlen (tail_of m))) with (Z.to_nat (64 - zlen p) + 56)%nat by lia. rewrite replicate_add, <- app_assoc, (app_assoc p).
    fold q. change ([] ++ ?l) with l. set (z := replicate 56 0 ++ _).
    assert (length z = 64%nat) as Lz.
    { enough (zlen z = 64) by (unfold zlen in *; lia). unfold z. rewrite zlen_app, zlen_le by lia. done. }
    rewrite length_app, Lq, Lz. change ((64 + 64) / 64)%nat with 2%nat. cbn [rfc_blocks].
    rewrite take_app_length', drop_app_length', take_ge by lia. done.
Qed.

(** Parts of a message, one call each. *)
Definition updates (parts : list (list Z)) : M MD5_CTX unit := mfor parts (fun data => MD5_Update data (zlen data)).

Lemma updates_absorb parts : forall x m, absorbed x m -> Forall (fun data => zlen data < 2 ^ 64) parts ->
  exists x', updates parts x = Ok (tt, x') /\ absorbed x' (m ++ mjoin parts).
Proof.
  induction parts as [|data parts IH]; intros x m A Hp; [exists x; by rewrite app_nil_r|]. apply Forall_cons in Hp as [Hd Hp].
  destruct (MD5_Update_absorbs x m data A Hd) as (x1 & E & A1). destruct (IH x1 _ A1 Hp) as (x2 & E2 & A2).
  exists x2. split; [unfold updates; cbn [mfor]; by erewrite bind_ok by exact E|].
  change (mjoin (data :: parts)) with (data ++ mjoin parts). by rewrite app_assoc.
Qed.

(** C33: however a message is cut into parts, [MD5_Init], one [MD5_Update] per part
    and [MD5_Final] return, give the digest RFC 1321 defines for the whole message
    (with the constants computed from the sine, the plain forms of the round
    functions and the length modulo 2^64 bits), and leave the context erased. *)
Theorem md5_implements_rfc x parts : length (buffer x) = 64%nat -> Forall (fun data => zlen data < 2 ^ 64) parts ->
  (MD5_Init ;;; updates parts ;;; MD5_Final) x = Ok (rfc_md5 (mjoin parts), erased).
Proof.
  intros Hb Hp. erewrite bind_ok by done.
  destruct (updates_absorb parts (mkCtx 0 0 rfc_init (buffer x)) []) as (x' & E & A); [by split|done|].
  erewrite bind_ok by exact E. by apply MD5_Final_ok.
Qed.

Lemma md5_implements_rfc_witness :
  (MD5_Init ;;; updates [[97]; []; [98; 99]] ;;; MD5_Final) erased = Ok (rfc_md5 [97; 98; 99], erased).
Proof. apply (md5_implements_rfc erased [[97]; []; [98; 99]]); [done|]. repeat constructor. Defined.

(** [body] with a size that is no multiple of 64 runs past its data. *)
Lemma body_loop_ragged fuel : forall ptr size r, size mod 64 <> 0 -> 0 <= size < 2 ^ 64 -> body_loop fuel ptr size r = None.
Proof.
  induction fuel as [|fuel IH]; intros ptr size r Hm Hs; [done|]. cbn [body_loop]. destruct (block_words ptr); [|done].
  assert (u64 (size - 64) mod 64 = size mod 64) as Hu.
  { unfold u64. rewrite Z.mod_mod_divide by (by exists (2 ^ 58)). replace (size - 64) with (size + (-1) * 64) by lia. by apply Z.mod_add. }
  destruct (Z.eqb_spec (u64 (size - 64)) 0) as [E|E]; [by rewrite <- Hu, E in Hm|]. apply IH; [by rewrite Hu|apply u64_bound].
Qed.

Theorem ragged_body_faults x data size : size mod 64 <> 0 -> 0 <= size < 2 ^ 64 -> body data size x = Fault.
Proof. intros Hm Hs. unfold body. erewrite bind_ok by done. by rewrite body_loop_ragged. Qed.
